(* ===== verification/_CoqProject ===== *)
-Q . S2P
Prelude.v
Octstr.v
OctstrSearch.v
OctstrCode.v
OctstrUintvar.v
OctstrFormat.v
OctstrNumber.v
OctstrParts.v
Prefix.v
PrefixProofs.v
Numhash.v
Date.v
DateProofs.v
Json.v
JsonSafe.v
JsonText.v
JsonValue.v
JsonWrite.v
GwList.v
GwSort.v
PrioQueue.v
GwTimerHeap.v
GwTimer.v
Dict.v
Uuid.v
Msg.v
StoreFile.v
Conn.v
BoxLink.v
HttpHeaders.v
HttpEntity.v
MetaData.v
MetaDataProofs.v
MetaDataPack.v
MetaDataOps.v
MetaDataMerge.v
Charset.v
Sms.v
Route.v
RouteProofs.v
Concat.v
ConcatProofs.v
ConcatJoin.v
Dlr.v
DlrProofs.v
Settle.v
SettleProofs.v
Emi.v
SmppDef.v
SmppPdu.v
At.v
AtSeptets.v
AtProofs.v
AtDeliver.v
UrlEscape.v
UrlEscapeProofs.v
UrlFill.v
UrlShell.v
UrlTrans.v
UrlTransProofs.v
