(* ===== verification/Prelude.v ===== *)
(** * Kannel, an SMS gateway: verification development (root file)

    Kannel moves short messages between SMS centres and applications.  It runs as
    several processes, the boxes: the bearerbox (src/gw/bearerbox.c, bb_*.c) holds
    the connections to the SMS centres and the message store, the smsboxes
    (src/gw/smsbox.c) talk HTTP to the applications, and they exchange packed
    messages over TCP.  Everything stands on the library src/gwlib.  This
    development models the library's containers and texts, the messages and their
    wire formats, the store, the connections, the HTTP layer, the JSON interface and
    the core of the bearerbox (routing, concatenated messages, results), and proves
    what each promises to the code above it.

    ** How the models are built

    C functions are Rocq functions in the monad [res]: [Ok] is a normal return,
    [Panic] a failed [gw_assert] or a call of [panic], [Undef] undefined
    behaviour (an access outside of a block, a read of an octet that was never
    written, a division by zero, a conversion out of range).  A theorem of the form
    [returns (f x) Q] therefore says that the code returns, without a failed
    assertion and without undefined behaviour, and that its result satisfies [Q].
    Memory blocks are lists of octets with their allocated size; loads and stores
    are [rd] and [wr].  Machine integers are [Z] with the wrap written out where it
    can happen; a signed sum that may overflow is [add_long], which is [Undef] then.
    A structure is a record, a mutable object is passed and returned.
    What the operating system answers, the time, fresh identifiers and the
    functions behind function pointers are arguments.

    A loop that is not structural takes fuel and returns [Undef] when it runs out:
    since the theorems say [returns], they also say that the fuel is enough.  It
    is a bound that the code itself gives: the octets left to read, the length of
    a list, the height of a heap, the number of timers that are due.

    ** Files

    Shared:
    - Prelude.v (this file): [res], memory blocks, the C library, the rules for
      [returns], the tactics and the hint database [kannel], the class [CmpOrder] of
      comparison functions.

    Octet strings, src/gwlib/octstr.c:
    - Octstr.v: the structure (block, length, size) and the editing operations;
      [repr o s] relates a structure to the octets it stands for.
    - OctstrSearch.v: comparing and searching.
    - OctstrCode.v: hexadecimal, URL encoding, shell quoting, ranges.
    - OctstrUintvar.v: WAP variable length integers.
    - OctstrFormat.v: [octstr_parse_long] and the formatter [octstr_format].
    - OctstrNumber.v: numbers at a place in a text, of a given width.
    - OctstrParts.v: stripping, splitting, replacing.
    - Prefix.v, PrefixProofs.v: the prefixes of numbers and the patterns of addresses
      of src/gwlib/utils.c.
    - Numhash.v: src/gw/numhash.c, white and black lists of numbers.
    - Date.v, DateProofs.v: src/gwlib/date.c, dates of HTTP and ISO 8601, and
      [parse_date] of src/gw/shared.c.

    Containers:
    - GwList.v, GwSort.v: src/gwlib/list.c, circular arrays that are also queues
      between threads, and their quicksort.
    - PrioQueue.v: src/gwlib/gw-prioqueue.c.
    - Dict.v: src/gwlib/dict.c, on top of the lists.
    - GwTimerHeap.v, GwTimer.v: src/gwlib/gw-timer.c, timers in a heap whose
      events go to lists, and the thread that watches it.

    Messages:
    - Uuid.v: src/gwlib/gw_uuid.c, the texts and octets of identifiers.
    - Msg.v: src/gw/msg.c with msg-decl.h, the messages and their packed form.
    - StoreFile.v: src/gw/bb_store_file.c, the message store, on top of the
      dictionaries and the packed messages, with crashes between system calls.
    - Conn.v: src/gwlib/conn.c, buffered connections.
    - MetaData.v: src/gw/meta_data.c, groups of keys and values in a text, on top of
      the dictionaries; MetaDataProofs.v, MetaDataPack.v, MetaDataOps.v and
      MetaDataMerge.v hold the proofs on reading, writing, changing and merging.
    - BoxLink.v: src/gw/shared.c, messages over a connection.
    - Charset.v, Sms.v: src/gwlib/charset.c and src/gw/sms.c, the GSM alphabet, the
      data coding scheme, splitting long messages, the order of the queues.
    - Dlr.v, DlrProofs.v: src/gw/dlr.c and dlr_mem.c, delivery reports and their
      storage in memory.
    - Emi.v: src/gw/smsc/emimsg.c, the EMI/UCP protocol.
    - SmppDef.v, SmppPdu.v: src/gw/smsc/smpp_pdu.c and .def, the SMPP protocol.
    - At.v: the PDUs of src/gw/smsc/smsc_at.c, the driver of GSM modems.  AtSeptets.v
      has the packing of septets, as a number in the bases 128 and 256; AtProofs.v the
      hexadecimal text, the numbers, the validity period and the messages that are
      sent; AtDeliver.v the messages that come in.

    The bearerbox, src/gw/bb_smscconn.c and smscconn.c:
    - Route.v, RouteProofs.v: [smscconn_usable], [smscconn_send] and [smsc2_rout],
      which choose the connection for a message and hand it over, in parts if it is
      long.  What the drivers answer, and the connections at each pass, are arguments.
    - Concat.v: the handler that puts the parts of incoming messages together, with
      the structures in a heap and the dictionary of their addresses; ConcatProofs.v
      holds the refinement of one step and ConcatJoin.v the runs.
    - Settle.v, SettleProofs.v: [bb_smscconn_sent], [bb_smscconn_send_failed] and
      [handle_split], which settle a message when the driver reports on it.

    Applications:
    - HttpHeaders.v, HttpEntity.v: header lists and the incremental reader of
      requests and responses of src/gwlib/http.c.
    - Json.v: src/gwlib/json.c, the parser, the access functions and the writer.
      JsonSafe.v proves that the parser stays inside of its blocks, JsonText.v and
      JsonValue.v that it reads the grammar of JSON, JsonWrite.v that what is
      written is read back.  The fuel of the parser is three for each octet: a
      value, the array or object it starts and the loop over its items.

    - UrlEscape.v: the escape codes in the patterns of services, src/gw/urltrans.c.
      UrlEscapeProofs.v has the text of each code, UrlFill.v that of a pattern, and
      UrlShell.v what a shell makes of it.
    - UrlTrans.v, UrlTransProofs.v: the services for a message, the users of requests
      and the pattern for a message, of the same file, on top of Route.v's tests.

    The interfaces between components are the representation relations and six
    classes: [CmpOrder] (what a container requires of a comparison), [StoreCodec]
    with [StoreCodecLaws] (what the store requires of packing), [Printf] (what the
    formatter requires of the C library for doubles and pointers), [Settles] (what
    starting and stopping a timer requires of the way its last event is dealt with),
    [Regex] (the regular expressions of the C library) and [DlrStorageLaws] (what the reports require of a storage, which the one in
    memory discharges).

    ** What the theorems show

    - Octet strings: every editing operation yields the octets it should and keeps
      the block consistent; search finds the first occurrence; hexadecimal, URL
      encoding, uintvars and decimal numbers decode to what was encoded; a shell
      quoted string is one word; the formatter prints what the format means.
    - Dates: the conversion to seconds counts the days of the calendar; dates of HTTP
      and ISO 8601 are read back as they were written; any text can be read.
    - Containers: lists, sorting, dictionaries, priority queues and timer sets
      refine sequences, sorted sequences, finite maps and sets of timers, through
      any sequence of operations; items leave a queue in the order they entered;
      a timer thread elapses what is due, in order, and does not oversleep where the next
      timer is within 24 days (beyond that its sleep overflows, which is proved too).
    - Messages: packing and unpacking round trip, malformed packets are refused
      (or, as a finding, panic); the store recovers exactly the unacknowledged
      messages after any history, and keeps them through a crash at any system
      call of a dump; two states in which it does not are proved too.
    - Meta data: reading is safe on any text; what is written is read back, so a value
      that was set is got again and the others stay; a merge joins the groups.
    - Delivery reports: a report finds the first entry with its centre and time stamp; if
      that is the one of its message, it becomes a message with its fields exactly when
      it was asked for, and the last one removes it.
    - Connections: whatever the kernel answers, the octets written and read are a
      prefix of the streams; framed messages arrive whole, in order and once; a box
      reads the messages another box wrote.
    - SMS: parts of a split message fit and reassemble; GSM and UTF-8 texts round
      trip; SMPP messages whose values fit and EMI messages unpack to what was packed
      (but for negative EMI replies without an error code, which are refused), and
      unpacking terminates on any input.
    - GSM modems: a PDU that is sent is read back, header, fill bits and septets
      included, and a PDU that comes in is read to its message; the validity period
      is the least that is long enough.
    - Numbers: a prefix matches as its list of prefixes means, and a number is brought to
      its official form; a list holds the numbers of its text, and is read safely if
      and only if no line of it has a hundred digits.
    - Routing: a connection may be used exactly where its policy allows it; a pass
      sends the message to the least loaded connection that prefers it, else to the
      least loaded that can take it, else queues or refuses it as it should.
    - Concatenated messages: the handler refines a map from keys to parts, and the
      parts of a message give the message when the last of them comes, in any order
      and between any other messages; it is saved before its parts are acknowledged.
    - Results: a split message is settled exactly once, as sent if and only if all of
      its parts were.
    - Services: a pattern is filled piece by piece, with the values quoted for a URL or
      a shell; in the unquoted places of a command, the values of all codes but two are
      inert; a message gets
      the first service that it asks for and that may answer it, else a default one.
      A pattern that is never filled is proved to be so.
    - HTTP: the incremental reader computes the headers and body that a relation
      on texts defines, independently of how the text arrives; responses round
      trip.
    - JSON: the parser is total and memory safe on any octets; it reads every text
      of the JSON grammar to its value (a string up to an escaped NUL), refuses what is nested too deep, and reads
      back the objects that the writer writes.

    ** Not modelled

    - Locks and threads as such: every function of a component holds its lock from
      its first to its last access, and is one step.  Where the order of steps
      matters (queues, timers, connections, the store) it is an explicit sequence.
    - System interfaces: sockets, poll and fdsets, SSL, threads, signals, logging,
      memory allocation failure (which panics), the databases behind dbpool and the
      dlr_* back ends, iconv, libxml.
    - The drivers of the SMS centres (smsc_*.c) beyond their message formats, the main loops of the boxes and the
      addons: they are sequences of calls of the parts above and of the system.  Of the
      bearerbox, the start and stop of connections, the timeout of incomplete
      concatenated messages and the routing of incoming messages to boxes.
    - Configuration files (those of the services included), access logs and the
      administration interface.
    PROJECT.json lists the parts with what is left out of each. *)

From Stdlib Require Export ZArith Lia ZifyBool.
From stdpp Require Export base tactics numbers list list_numbers option.

#[global] Open Scope Z_scope.

(** ** Results of C code

    [Ok a] is a normal return.  [Panic] is a failed [gw_assert] (or a call of
    [panic]), which terminates the process.  [Undef] is undefined behaviour: an
    access outside an allocated block, or a read of an indeterminate octet. *)

Inductive res (A : Type) : Type :=
| Ok (a : A)
| Panic
| Undef.

Arguments Ok {A} a.
Arguments Panic {A}.
Arguments Undef {A}.

#[export] Instance res_ret : MRet res := fun A a => Ok a.

#[export] Instance res_bind : MBind res :=
  fun A B f m =>
    match m with
    | Ok a => f a
    | Panic => Panic
    | Undef => Undef
    end.

(** [gw_assert] of gwlib/gwassert.h. *)
Definition gw_assert (b : bool) : res unit := if b then Ok tt else Panic.

Declare Scope kannel_scope.
Delimit Scope kannel_scope with kannel.
Notation "'assert:' b ; k" := (gw_assert b ≫= fun _ => k)
  (at level 100, b at level 99, k at level 200, right associativity,
   only parsing) : kannel_scope.
#[global] Open Scope kannel_scope.

(** Computation of [Ok a ≫= f] alone. *)
Ltac bind_red := cbn [mbind res_bind].

Definition is_ok {A} (m : res A) : Prop := exists a, m = Ok a.

Lemma res_bind_ok {A B} (m : res A) (f : A -> res B) (b : B) :
  m ≫= f = Ok b <-> exists a, m = Ok a /\ f a = Ok b.
Proof. destruct m; simpl; naive_solver. Qed.

Lemma gw_assert_true (b : bool) : b = true -> gw_assert b = Ok tt.
Proof. by intros ->. Qed.

Lemma bind_assert {A} (b : bool) (f : unit -> res A) (r : res A) :
  b = true -> f tt = r -> gw_assert b ≫= f = r.
Proof. by intros ->. Qed.

Lemma gw_assert_ok (b : bool) (u : unit) : gw_assert b = Ok u <-> b = true.
Proof. destruct b, u; simpl; naive_solver. Qed.

(** ** Lengths and list indexing at [Z] *)

Definition zlen {A} (l : list A) : Z := Z.of_nat (length l).
Arguments zlen : simpl never.

Lemma zlen_nonneg {A} (l : list A) : 0 <= zlen l.
Proof. unfold zlen; lia. Qed.

Lemma zlen_app {A} (l k : list A) : zlen (l ++ k) = zlen l + zlen k.
Proof. unfold zlen; rewrite length_app; lia. Qed.

Lemma lookup_app_dec {A} (l k : list A) (i : nat) :
  (l ++ k) !! i =
  if decide (i < length l)%nat then l !! i else k !! (i - length l)%nat.
Proof.
  case_decide; [by apply lookup_app_l|apply lookup_app_r; lia].
Qed.

Lemma lookup_take_dec {A} (l : list A) (n i : nat) :
  take n l !! i = if decide (i < n)%nat then l !! i else None.
Proof.
  case_decide; [by apply lookup_take_lt|apply lookup_take_ge; lia].
Qed.

Lemma lookup_insert_dec {A} (l : list A) (j i : nat) (x : A) :
  <[j:=x]> l !! i =
  if decide (i = j /\ (j < length l)%nat) then Some x else l !! i.
Proof.
  case_decide as H.
  - destruct H as [-> H]. by apply list_lookup_insert_eq.
  - destruct (decide (i = j)) as [->|Hne].
    + rewrite list_insert_ge by lia. done.
    + by apply list_lookup_insert_ne.
Qed.

Lemma lookup_cons_dec {A} (x : A) (l : list A) (i : nat) :
  (x :: l) !! i = if decide (i = 0)%nat then Some x else l !! (i - 1)%nat.
Proof.
  case_decide; [by subst|]. destruct i; [lia|].
  by replace (S i - 1)%nat with i by lia.
Qed.

(** [list_lia]: arithmetic with list lengths computed.  [list_ext]: equality
    of lists built from take, drop, append, insert and replicate, proved
    point by point. *)

Ltac list_len :=
  repeat first
    [ rewrite length_app in * | rewrite length_take in *
    | rewrite length_drop in * | rewrite length_insert in *
    | rewrite length_replicate in * | rewrite length_fmap in *
    | rewrite length_cons in * | rewrite length_nil in * ].

Ltac list_lia := unfold zlen in *; list_len; lia.

Ltac list_lookup :=
  repeat first
    [ rewrite lookup_app_dec | rewrite lookup_take_dec
    | rewrite lookup_drop | rewrite lookup_insert_dec
    | rewrite lookup_cons_dec | rewrite lookup_nil ].

Ltac lookup_close :=
  list_len;
  first
    [ done
    | lia
    | f_equal; lia
    | rewrite lookup_ge_None_2 by (list_len; lia);
      first [ done | rewrite lookup_ge_None_2 by (list_len; lia); done ]
    | symmetry; rewrite lookup_ge_None_2 by (list_len; lia); done
    | idtac ].

Ltac list_ext :=
  apply list_eq; intros ?i; list_lookup; list_len;
  repeat (case_decide; list_len); try lia; lookup_close.

(** ** Octets *)

Definition octet (z : Z) : Prop := 0 <= z < 256.

#[export] Instance octet_dec z : Decision (octet z).
Proof. unfold octet; apply _. Defined.

Notation octets := (Forall octet).

Lemma octet_mod (z : Z) : octet (z mod 256).
Proof. unfold octet; apply Z.mod_pos_bound; lia. Qed.

Lemma octet_mod_small (z : Z) : octet z -> z mod 256 = z.
Proof. unfold octet; intros; by apply Z.mod_small. Qed.

(** The hint database of the development: the octets of composed lists, and
    (in the files of the components) the relations between structures and what
    they stand for. *)
Create HintDb kannel.

Lemma octets_app (l k : list Z) : octets l -> octets k -> octets (l ++ k).
Proof. apply Forall_app_2. Qed.

Lemma octets_cons (c : Z) (l : list Z) : octet c -> octets l -> octets (c :: l).
Proof. apply Forall_cons_2. Qed.

Lemma octets_nil : octets [].
Proof. apply Forall_nil_2. Qed.

Lemma octets_take (n : nat) (l : list Z) : octets l -> octets (take n l).
Proof. apply Forall_take. Qed.

Lemma octets_drop (n : nat) (l : list Z) : octets l -> octets (drop n l).
Proof. apply Forall_drop. Qed.

#[export] Hint Resolve octets_app octets_cons octets_nil octets_take octets_drop octet_mod zlen_nonneg : kannel.
#[export] Hint Extern 2 (octet _) => unfold octet in *; lia : kannel.

(** Splits [octets] of an explicit list. *)
Ltac octets_inv :=
  repeat match goal with
  | H : Forall octet (_ :: _) |- _ => apply Forall_cons_iff in H as [? H]
  end.

Ltac octets_tac :=
  repeat (apply Forall_cons_2; [first [done | unfold octet in *; lia]|]); apply Forall_nil_2.

(** ** Memory blocks

    A block is what [gw_malloc] or [gw_realloc] returned: a list of octets,
    whose length is the number of octets allocated.  A freshly allocated octet
    holds [UNINIT]; reading it is undefined behaviour.  NULL is the block of
    length 0. *)

Notation block := (list Z) (only parsing).

Definition UNINIT : Z := -1.

Definition rd (b : block) (i : Z) : res Z :=
  if 0 <=? i then
    match b !! Z.to_nat i with
    | Some v => if 0 <=? v then Ok v else Undef
    | None => Undef
    end
  else Undef.

(** A store to an [unsigned char]: the value is reduced modulo 256. *)
Definition wr (b : block) (i v : Z) : res (list Z) :=
  if (0 <=? i) && (i <? zlen b) then Ok (<[Z.to_nat i := v mod 256]> b)
  else Undef.

Definition in_block {A} (b : list A) (off n : Z) : bool :=
  (0 <=? off) && (0 <=? n) && (off + n <=? zlen b).

(** The [n] octets at offset [off]. *)
Definition slice {A} (b : list A) (off n : Z) : list A :=
  take (Z.to_nat n) (drop (Z.to_nat off) b).

(** [b] with the octets from offset [off] replaced by [s]. *)
Definition overwrite {A} (b : list A) (off : Z) (s : list A) : list A :=
  take (Z.to_nat off) b ++ s ++ drop (Z.to_nat off + length s) b.

(** [memmove(b + dst, b + src, n)] and [memcpy(b + dst, s + src, n)].  The first
    is used on blocks of pointers too. *)
Definition mem_move {A} (b : list A) (dst src n : Z) : res (list A) :=
  if in_block b dst n && in_block b src n
  then Ok (overwrite b dst (slice b src n)) else Undef.

Definition mem_copy (b : block) (dst : Z) (s : block) (src n : Z)
  : res (list Z) :=
  if in_block b dst n && in_block s src n
  then Ok (overwrite b dst (slice s src n)) else Undef.

(** [gw_realloc] to a size that is not smaller. *)
Definition gw_realloc (b : block) (size : Z) : list Z :=
  take (Z.to_nat size) b ++ replicate (Z.to_nat size - length b) UNINIT.

Definition gw_malloc (size : Z) : list Z :=
  replicate (Z.to_nat size) UNINIT.

Lemma rd_ok (b : block) (i v : Z) :
  rd b i = Ok v <-> 0 <= i /\ b !! Z.to_nat i = Some v /\ 0 <= v.
Proof.
  unfold rd. destruct (Z.leb_spec 0 i); [|naive_solver lia].
  destruct (b !! Z.to_nat i) as [w|]; [|naive_solver].
  destruct (Z.leb_spec 0 w); naive_solver lia.
Qed.

Lemma wr_ok (b : block) (i v : Z) :
  0 <= i < zlen b -> wr b i v = Ok (<[Z.to_nat i := v mod 256]> b).
Proof.
  intros. unfold wr. destruct (Z.leb_spec 0 i); [|lia].
  by destruct (Z.ltb_spec i (zlen b)); [|lia].
Qed.

Lemma in_block_true {A} (b : list A) (off n : Z) :
  0 <= off -> 0 <= n -> off + n <= zlen b -> in_block b off n = true.
Proof. unfold in_block; intros; repeat case_match; lia. Qed.

Lemma mem_move_ok {A} (b : list A) (dst src n : Z) :
  0 <= dst -> 0 <= src -> 0 <= n -> dst + n <= zlen b -> src + n <= zlen b ->
  mem_move b dst src n = Ok (overwrite b dst (slice b src n)).
Proof. intros. unfold mem_move. by rewrite !in_block_true. Qed.

Lemma mem_copy_ok (b : block) (dst : Z) (s : block) (src n : Z) :
  0 <= dst -> 0 <= src -> 0 <= n -> dst + n <= zlen b -> src + n <= zlen s ->
  mem_copy b dst s src n = Ok (overwrite b dst (slice s src n)).
Proof. intros. unfold mem_copy. by rewrite !in_block_true. Qed.

Lemma length_slice {A} (b : list A) (off n : Z) :
  0 <= off -> 0 <= n -> off + n <= zlen b -> length (slice b off n) = Z.to_nat n.
Proof. intros. unfold slice. list_lia. Qed.

Lemma length_overwrite {A} (b : list A) (off : Z) (s : list A) :
  0 <= off -> off + zlen s <= zlen b -> length (overwrite b off s) = length b.
Proof. intros. unfold overwrite. list_lia. Qed.

Lemma zlen_slice {A} (b : list A) (off n : Z) :
  0 <= off -> 0 <= n -> off + n <= zlen b -> zlen (slice b off n) = n.
Proof. intros. unfold zlen. rewrite length_slice; list_lia. Qed.

Lemma zlen_overwrite {A} (b : list A) (off : Z) (s : list A) :
  0 <= off -> off + zlen s <= zlen b -> zlen (overwrite b off s) = zlen b.
Proof. intros. unfold zlen. rewrite length_overwrite; list_lia. Qed.

(** Two adjacent overwrites, the later one in front. *)
Lemma overwrite_overwrite_before {A} (b : list A) (off : Z) (s k : list A) :
  0 <= off -> off + zlen k + zlen s <= zlen b ->
  overwrite (overwrite b (off + zlen k) s) off k =
  take (Z.to_nat off) b ++ k ++ s ++ drop (Z.to_nat off + length k + length s) b.
Proof.
  intros. unfold overwrite at 1. f_equal; [|f_equal].
  - unfold overwrite. rewrite take_app_le by list_lia. rewrite take_take.
    f_equal. list_lia.
  - unfold overwrite. rewrite drop_app_ge by list_lia.
    replace (_ - _)%nat with 0%nat by list_lia.
    rewrite drop_0. do 2 f_equal. list_lia.
Qed.

Lemma insert_drop_head {A} (b : list A) (n i : nat) (x : A) :
  (n < length b)%nat -> i = 0%nat -> <[i:=x]> (drop n b) = x :: drop (S n) b.
Proof.
  intros H ->. destruct (lookup_lt_is_Some_2 b n H) as [y Hy].
  by rewrite (drop_S _ _ _ Hy).
Qed.

Lemma length_gw_realloc (b : block) (n : Z) :
  zlen b <= n -> length (gw_realloc b n) = Z.to_nat n.
Proof. intros. unfold gw_realloc. list_lia. Qed.

(** ** Sums of [long]

    [add_long n a b]: the sum of a position and a length, next to a string of [n]
    octets.  Overflow of a [long] is undefined.  No block has 2^62 octets, so that a sum
    that is at most 2^62 more than [n] is a [long]. *)

Definition LONG_MAX : Z := 2 ^ 63 - 1.
Definition LONG_MIN : Z := - 2 ^ 63.
Definition MAX_BLOCK : Z := 2 ^ 62.

Definition add_long (n a b : Z) : res Z :=
  if ((LONG_MAX <? a + b) && (n + MAX_BLOCK <? a + b)) || (a + b <? LONG_MIN) then Undef else Ok (a + b).

Lemma add_long_ok (n a b : Z) : 0 <= a -> 0 <= b -> a + b <= Z.max LONG_MAX (n + MAX_BLOCK) -> add_long n a b = Ok (a + b).
Proof.
  intros Ha Hb Hn. unfold add_long, LONG_MIN. destruct (Z.ltb_spec LONG_MAX (a + b)), (Z.ltb_spec (n + MAX_BLOCK) (a + b)); [lia|..];
    (destruct (Z.ltb_spec (a + b) (- 2 ^ 63)); [lia|done]).
Qed.

Lemma add_long_overflow (n a b : Z) : Z.max LONG_MAX (n + MAX_BLOCK) < a + b -> add_long n a b = Undef.
Proof. intros Hn. unfold add_long. destruct (Z.ltb_spec LONG_MAX (a + b)), (Z.ltb_spec (n + MAX_BLOCK) (a + b)); [done|lia..]. Qed.

Lemma MAX_BLOCK_large : 4294967296 <= MAX_BLOCK.
Proof. unfold MAX_BLOCK. lia. Qed.

Ltac long_lia := pose proof MAX_BLOCK_large; list_lia.

(** ** Total correctness

    [returns m Q]: the code [m] returns normally (no panic, no undefined
    behaviour), with a result that satisfies [Q]. *)

Definition returns {A} (m : res A) (Q : A -> Prop) : Prop :=
  match m with
  | Ok a => Q a
  | Panic => False
  | Undef => False
  end.

Section returns_rules.
Context {A B : Type}.
Implicit Types (m : res A) (Q : A -> Prop).

Lemma returns_iff m Q : returns m Q <-> exists a, m = Ok a /\ Q a.
Proof. destruct m; simpl; naive_solver. Qed.

Lemma returns_bind m (f : A -> res B) (Q : B -> Prop) :
  returns m (fun a => returns (f a) Q) -> returns (m ≫= f) Q.
Proof. by destruct m. Qed.

Lemma returns_bind_ok m (f : A -> res B) (Q : B -> Prop) a :
  m = Ok a -> returns (f a) Q -> returns (m ≫= f) Q.
Proof. by intros ->. Qed.

Lemma returns_mono m Q (Q' : A -> Prop) :
  returns m Q -> (forall a, Q a -> Q' a) -> returns m Q'.
Proof. destruct m; simpl; auto. Qed.

Lemma returns_eq m Q a : returns m Q -> m = Ok a -> Q a.
Proof. by intros H ->. Qed.

Lemma returns_seq m (f : A -> res B) Q (Q' : B -> Prop) :
  returns m Q -> (forall a, Q a -> returns (f a) Q') -> returns (m ≫= f) Q'.
Proof. intros Hm Hf. apply returns_bind. by eapply returns_mono. Qed.

Lemma returns_assert (b : bool) (f : unit -> res A) Q :
  b = true -> returns (f tt) Q -> returns (gw_assert b ≫= f) Q.
Proof. by intros ->. Qed.
End returns_rules.

Lemma returns_wr {A} (b : block) (i v : Z) (f : list Z -> res A) Q :
  0 <= i < zlen b -> returns (f (<[Z.to_nat i := v mod 256]> b)) Q ->
  returns (wr b i v ≫= f) Q.
Proof. intros. by rewrite wr_ok. Qed.

Lemma returns_rd {A} (b : block) (i v : Z) (f : Z -> res A) Q :
  0 <= i -> b !! Z.to_nat i = Some v -> 0 <= v -> returns (f v) Q ->
  returns (rd b i ≫= f) Q.
Proof.
  intros. assert (rd b i = Ok v) as -> by (by apply rd_ok). done.
Qed.

Lemma returns_mem_move {A C} (b : list C) dst src n (f : list C -> res A) Q :
  0 <= dst -> 0 <= src -> 0 <= n -> dst + n <= zlen b -> src + n <= zlen b ->
  returns (f (overwrite b dst (slice b src n))) Q ->
  returns (mem_move b dst src n ≫= f) Q.
Proof. intros. by rewrite mem_move_ok. Qed.

Lemma returns_mem_copy {A} (b : block) dst s src n (f : list Z -> res A) Q :
  0 <= dst -> 0 <= src -> 0 <= n -> dst + n <= zlen b -> src + n <= zlen s ->
  returns (f (overwrite b dst (slice s src n))) Q ->
  returns (mem_copy b dst s src n ≫= f) Q.
Proof. intros. by rewrite mem_copy_ok. Qed.

(** ** The C library, in the C locale *)

Definition isdigit (c : Z) : bool := (48 <=? c) && (c <=? 57).
Definition isupper (c : Z) : bool := (65 <=? c) && (c <=? 90).
Definition islower (c : Z) : bool := (97 <=? c) && (c <=? 122).
Definition isalnum (c : Z) : bool := isdigit c || isupper c || islower c.
Definition isxdigit (c : Z) : bool :=
  isdigit c || ((65 <=? c) && (c <=? 70)) || ((97 <=? c) && (c <=? 102)).
Definition isspace (c : Z) : bool := (c =? 32) || ((9 <=? c) && (c <=? 13)).
Definition isprint (c : Z) : bool := (32 <=? c) && (c <=? 126).
Definition toupper (c : Z) : Z := if islower c then c - 32 else c.
Definition tolower (c : Z) : Z := if isupper c then c + 32 else c.

(** [memchr] and [memcmp] read [n] octets, which must be allocated and
    initialised.  Of the result of [memcmp] C fixes the sign only; the model
    returns -1, 0 or 1. *)

Definition readable (b : block) (off n : Z) : bool :=
  in_block b off n && forallb (Z.leb 0) (slice b off n).

Definition mem_chr (b : block) (off c n : Z) : res (option Z) :=
  if readable b off n
  then Ok ((fun p => off + Z.of_nat p.1) <$> list_find (fun x => x = c) (slice b off n))
  else Undef.

Fixpoint lex_cmp (l k : list Z) : Z :=
  match l, k with
  | x :: l', y :: k' =>
      if x <? y then -1 else if y <? x then 1 else lex_cmp l' k'
  | _, _ => 0
  end.

Definition mem_cmp (b1 : block) (off1 : Z) (b2 : block) (off2 n : Z) : res Z :=
  if readable b1 off1 n && readable b2 off2 n
  then Ok (lex_cmp (slice b1 off1 n) (slice b2 off2 n)) else Undef.

(** The C string at the start of a block: the octets before the first NUL. *)
Fixpoint cstr (b : block) : list Z :=
  match b with
  | [] => []
  | c :: b' => if c =? 0 then [] else c :: cstr b'
  end.

Lemma cstr_app_nul (l r : list Z) : cstr (l ++ 0 :: r) = cstr l.
Proof. induction l as [|c l IH]; simpl; [done|]. destruct (c =? 0); [done|]. by rewrite IH. Qed.

Lemma cstr_app (l r : list Z) : Forall (fun c => c <> 0) l -> cstr (l ++ r) = l ++ cstr r.
Proof.
  induction 1 as [|c l Hc _ IH]; simpl; [done|]. destruct (Z.eqb_spec c 0); [done|]. by rewrite IH.
Qed.

Lemma cstr_no_nul (l : list Z) : Forall (fun c => c <> 0) l -> cstr l = l.
Proof. intros H. pose proof (cstr_app l [] H) as E. by rewrite !app_nil_r in E. Qed.

(** [strcmp] of two C strings given without their NUL. *)
Fixpoint strcmp (l k : list Z) : Z :=
  match l, k with
  | [], [] => 0
  | [], _ :: _ => -1
  | _ :: _, [] => 1
  | x :: l', y :: k' =>
      if x <? y then -1 else if y <? x then 1 else strcmp l' k'
  end.

(** ** Comparison callbacks

    The interface between the containers and the code that orders their items:
    the sign of the comparison is antisymmetric, and "not smaller" is
    transitive. *)
Class CmpOrder {A : Type} (cmp : A -> A -> Z) : Prop := {
  cmp_antisym : forall x y, Z.sgn (cmp x y) = - Z.sgn (cmp y x);
  cmp_trans : forall x y z, 0 <= cmp x y -> 0 <= cmp y z -> 0 <= cmp x z
}.

Section cmp_order.
Context {A : Type} (cmp : A -> A -> Z) `{!CmpOrder cmp}.

Lemma cmp_refl_0 (x : A) : cmp x x = 0.
Proof. pose proof (cmp_antisym (cmp:=cmp) x x). lia. Qed.

Lemma cmp_le_trans (x y z : A) : cmp x y <= 0 -> cmp y z <= 0 -> cmp x z <= 0.
Proof.
  intros H1 H2. pose proof (cmp_antisym (cmp:=cmp) x y). pose proof (cmp_antisym (cmp:=cmp) y z).
  pose proof (cmp_antisym (cmp:=cmp) x z).
  pose proof (cmp_trans (cmp:=cmp) z y x ltac:(lia) ltac:(lia)). lia.
Qed.

Lemma cmp_ge_le (x y : A) : 0 <= cmp x y <-> cmp y x <= 0.
Proof. pose proof (cmp_antisym (cmp:=cmp) x y). lia. Qed.
End cmp_order.

(** ** Bit fields *)

Lemma land_shiftl_small (a b n : Z) :
  0 <= n -> 0 <= b < 2 ^ n -> Z.land (Z.shiftl a n) b = 0.
Proof.
  intros Hn Hb. apply Z.bits_inj'. intros i Hi.
  rewrite Z.land_spec, Z.bits_0, Z.shiftl_spec by done.
  destruct (Z.ltb_spec i n).
  - by rewrite Z.testbit_neg_r by lia.
  - assert (b = b mod 2 ^ n) as -> by (symmetry; apply Z.mod_small; done).
    by rewrite Z.mod_pow2_bits_high, andb_false_r by lia.
Qed.

(** A field placed above [n] bits and a field of [n] bits. *)
Lemma lor_shiftl_add (a b n : Z) :
  0 <= n -> 0 <= b < 2 ^ n -> Z.lor (Z.shiftl a n) b = a * 2 ^ n + b.
Proof.
  intros Hn Hb. pose proof (land_shiftl_small a b n Hn Hb) as E.
  rewrite <- Z.lxor_lor, <- Z.add_nocarry_lxor by done.
  by rewrite Z.shiftl_mul_pow2.
Qed.

Lemma land_mask (a n : Z) : 0 <= n -> Z.land a (2 ^ n - 1) = a mod 2 ^ n.
Proof. intros. rewrite <- Z.land_ones by done. by rewrite Z.ones_equiv. Qed.
