(* ===== verification/Octstr.v ===== *)
(** * Octet strings: representation, construction and editing

    Models the first part of src/gwlib/octstr.c: the [Octstr] structure, its
    consistency check, and the operations that build, read and edit one.  The
    editing operations work on the allocated block with [memmove] and [memcpy]
    as the source does; [repr] relates a structure to the octets it stands for,
    and every operation is shown to refine a function on octet lists. *)

From S2P Require Import Prelude.

(** ** The structure *)

Record Octstr := mkOctstr {
  os_data : list Z;
  os_len : Z;
  os_size : Z;
  os_immutable : bool
}.

Definition set_len (o : Octstr) (l : Z) : Octstr :=
  mkOctstr (os_data o) l (os_size o) (os_immutable o).

Definition set_data (o : Octstr) (d : list Z) : Octstr :=
  mkOctstr d (os_len o) (os_size o) (os_immutable o).

(** [seems_valid_real]. *)
Definition seems_valid (o : Octstr) : res unit :=
  assert: 0 <=? os_len o;
  assert: 0 <=? os_size o;
  if os_size o =? 0 then
    assert: os_len o =? 0;
    gw_assert (zlen (os_data o) =? 0)
  else
    assert: os_len o + 1 <=? os_size o;
    assert: negb (zlen (os_data o) =? 0);
    c ← rd (os_data o) (os_len o);
    gw_assert (c =? 0).

(** [octstr_grow]: reserve space for [size] octets and a NUL. *)
Definition octstr_grow (o : Octstr) (size : Z) : res Octstr :=
  assert: negb (os_immutable o);
  seems_valid o ≫= fun _ =>
  assert: 0 <=? size;
  let size := size + 1 in
  if os_size o <? size then
    let size := size + (1024 - size mod 1024) in
    Ok (mkOctstr (gw_realloc (os_data o) size) (os_len o) size (os_immutable o))
  else Ok o.

(** [octstr_create_from_data_real]; [data] is the block read from, and [off]
    the offset of the pointer passed. *)
Definition octstr_create_from_data (data : block) (off len : Z) : res Octstr :=
  assert: 0 <=? len;
  (if zlen data =? 0 then gw_assert (len =? 0) else Ok tt) ≫= fun _ =>
  if len =? 0 then Ok (mkOctstr [] 0 0 false)
  else
    d ← mem_copy (gw_malloc (len + 1)) 0 data off len;
    d ← wr d len 0;
    let o := mkOctstr d len (len + 1) false in
    seems_valid o ≫= fun _ => Ok o.

(** [octstr_create] of a C string, given without its NUL. *)
Definition octstr_create (cstr : list Z) : res Octstr :=
  octstr_create_from_data cstr 0 (zlen cstr).

Definition octstr_len (o : option Octstr) : res Z :=
  match o with
  | None => Ok 0
  | Some o => seems_valid o ≫= fun _ => Ok (os_len o)
  end.

Definition octstr_copy (o : option Octstr) (from len : Z) : res Octstr :=
  match o with
  | None => octstr_create []
  | Some o =>
      seems_valid o ≫= fun _ =>
      assert: 0 <=? from;
      assert: 0 <=? len;
      if os_len o <=? from then octstr_create []
      else
        let len := if os_len o - from <? len then os_len o - from else len in
        octstr_create_from_data (os_data o) from len
  end.

Definition octstr_duplicate (o : option Octstr) : res (option Octstr) :=
  match o with
  | None => Ok None
  | Some o =>
      seems_valid o ≫= fun _ =>
      o' ← octstr_create_from_data (os_data o) 0 (os_len o);
      Ok (Some o')
  end.

Definition octstr_cat (o1 o2 : Octstr) : res Octstr :=
  seems_valid o1 ≫= fun _ =>
  seems_valid o2 ≫= fun _ =>
  let len := os_len o1 + os_len o2 in
  let d := gw_malloc (len + 1) in
  d ← (if 0 <? os_len o1 then mem_copy d 0 (os_data o1) 0 (os_len o1) else Ok d);
  d ← (if 0 <? os_len o2
       then mem_copy d (os_len o1) (os_data o2) 0 (os_len o2) else Ok d);
  d ← wr d len 0;
  let o := mkOctstr d len (len + 1) false in
  seems_valid o ≫= fun _ => Ok o.

Definition octstr_get_char (o : Octstr) (pos : Z) : res Z :=
  seems_valid o ≫= fun _ =>
  if (os_len o <=? pos) || (pos <? 0) then Ok (-1) else rd (os_data o) pos.

Definition octstr_set_char (o : Octstr) (pos ch : Z) : res Octstr :=
  seems_valid o ≫= fun _ =>
  assert: negb (os_immutable o);
  d ← (if pos <? os_len o then wr (os_data o) pos ch else Ok (os_data o));
  let o := set_data o d in
  seems_valid o ≫= fun _ => Ok o.

(** [octstr_get_many_chars]; [buf] is the caller's buffer. *)
Definition octstr_get_many_chars (buf : block) (o : Octstr) (pos len : Z)
  : res (list Z) :=
  seems_valid o ≫= fun _ =>
  if os_len o <=? pos then Ok buf
  else
    end_ ← add_long (os_len o) pos len;
    let len := if os_len o <? end_ then os_len o - pos else len in
    if 0 <? len then mem_copy buf 0 (os_data o) pos len else Ok buf.

(** ** Editing *)

Definition octstr_insert (o1 : Octstr) (o2 : option Octstr) (pos : Z)
  : res Octstr :=
  match o2 with
  | None => Ok o1
  | Some o2 =>
      seems_valid o1 ≫= fun _ =>
      seems_valid o2 ≫= fun _ =>
      assert: pos <=? os_len o1;
      assert: negb (os_immutable o1);
      if os_len o2 =? 0 then Ok o1
      else
        o1 ← octstr_grow o1 (os_len o1 + os_len o2);
        d ← mem_move (os_data o1) (pos + os_len o2) pos (os_len o1 - pos);
        d ← mem_copy d pos (os_data o2) 0 (os_len o2);
        let len := os_len o1 + os_len o2 in
        d ← wr d len 0;
        let o := mkOctstr d len (os_size o1) (os_immutable o1) in
        seems_valid o ≫= fun _ => Ok o
  end.

Definition octstr_truncate (o : option Octstr) (new_len : Z)
  : res (option Octstr) :=
  match o with
  | None => Ok None
  | Some o =>
      seems_valid o ≫= fun _ =>
      assert: negb (os_immutable o);
      assert: 0 <=? new_len;
      if os_len o <=? new_len then Ok (Some o)
      else
        d ← wr (os_data o) new_len 0;
        let o := set_len (set_data o d) new_len in
        seems_valid o ≫= fun _ => Ok (Some o)
  end.

Definition octstr_insert_data (o : Octstr) (pos : Z) (data : block) (len : Z)
  : res Octstr :=
  seems_valid o ≫= fun _ =>
  assert: negb (os_immutable o);
  assert: pos <=? os_len o;
  if len =? 0 then Ok o
  else
    o ← octstr_grow o (os_len o + len);
    d ← (if pos <? os_len o
         then mem_move (os_data o) (pos + len) pos (os_len o - pos)
         else Ok (os_data o));
    d ← mem_copy d pos data 0 len;
    let len' := os_len o + len in
    d ← wr d len' 0;
    let o := mkOctstr d len' (os_size o) (os_immutable o) in
    seems_valid o ≫= fun _ => Ok o.

Definition octstr_insert_char (o : Octstr) (pos c : Z) : res Octstr :=
  seems_valid o ≫= fun _ =>
  assert: negb (os_immutable o);
  assert: pos <=? os_len o;
  o ← octstr_grow o (os_len o + 1);
  d ← (if pos <? os_len o
       then mem_move (os_data o) (pos + 1) pos (os_len o - pos)
       else Ok (os_data o));
  d ← mem_copy d pos [c mod 256] 0 1;
  let len' := os_len o + 1 in
  d ← wr d len' 0;
  let o := mkOctstr d len' (os_size o) (os_immutable o) in
  seems_valid o ≫= fun _ => Ok o.

Definition octstr_append_data (o : Octstr) (data : block) (len : Z)
  : res Octstr := octstr_insert_data o (os_len o) data len.

Definition octstr_append (o1 : Octstr) (o2 : option Octstr) : res Octstr :=
  octstr_insert o1 o2 (os_len o1).

(** [cstr] is the C string without its NUL. *)
Definition octstr_append_cstr (o : Octstr) (cstr : list Z) : res Octstr :=
  octstr_insert_data o (os_len o) cstr (zlen cstr).

Definition octstr_append_char (o : Octstr) (ch : Z) : res Octstr :=
  assert: 0 <=? ch;
  assert: ch <=? 255;
  octstr_insert_data o (os_len o) [ch] 1.

Definition octstr_delete (o : Octstr) (pos len : Z) : res Octstr :=
  seems_valid o ≫= fun _ =>
  assert: negb (os_immutable o);
  let pos := if os_len o <? pos then os_len o else pos in
  end_ ← add_long (os_len o) pos len;
  let len := if os_len o <? end_ then os_len o - pos else len in
  o ← (if 0 <? len then
         d ← mem_move (os_data o) pos (pos + len) (os_len o - pos - len);
         d ← wr d (os_len o - len) 0;
         Ok (set_len (set_data o d) (os_len o - len))
       else Ok o);
  seems_valid o ≫= fun _ => Ok o.

(** ** What a structure stands for

    [repr o s]: the structure is consistent and holds the octets [s], either
    as the empty string without a block, or as a block that starts with [s] and
    a NUL. *)

Inductive repr : Octstr -> list Z -> Prop :=
| repr_null imm : repr (mkOctstr [] 0 0 imm) []
| repr_block s rest size imm :
    octets s -> size = zlen (s ++ 0 :: rest) ->
    repr (mkOctstr (s ++ 0 :: rest) (zlen s) size imm) s.

(** A mutable string, which the editing operations require. *)
Definition reprm (o : Octstr) (s : list Z) : Prop :=
  repr o s /\ os_immutable o = false.

Lemma repr_intro (d s rest : list Z) (len size : Z) :
  octets s -> d = s ++ 0 :: rest -> len = zlen s -> size = zlen d ->
  reprm (mkOctstr d len size false) s.
Proof. intros ? -> -> ->. split; [by constructor|done]. Qed.

Lemma repr_len (o : Octstr) (s : list Z) : repr o s -> os_len o = zlen s.
Proof. by destruct 1. Qed.

Lemma repr_octets (o : Octstr) (s : list Z) : repr o s -> octets s.
Proof. destruct 1; by try constructor. Qed.

Lemma reprm_repr (o : Octstr) (s : list Z) : reprm o s -> repr o s.
Proof. by intros []. Qed.

Lemma reprm_octets (o : Octstr) (s : list Z) : reprm o s -> octets s.
Proof. intros []. by eapply repr_octets. Qed.

Lemma reprm_len (o : Octstr) (s : list Z) : reprm o s -> os_len o = zlen s.
Proof. intros []. by apply repr_len. Qed.

#[export] Hint Resolve repr_octets reprm_repr reprm_octets : kannel.

(** The octets a structure stands for are computed from its block. *)
Definition bytes (o : Octstr) : list Z := take (Z.to_nat (os_len o)) (os_data o).

Lemma repr_bytes (o : Octstr) (s : list Z) : repr o s -> bytes o = s.
Proof.
  destruct 1 as [|s rest size imm Hs ->]; [done|]. unfold bytes, zlen; simpl.
  by rewrite Nat2Z.id, take_app_length.
Qed.

Lemma repr_functional (o : Octstr) (s s' : list Z) :
  repr o s -> repr o s' -> s = s'.
Proof. intros <-%repr_bytes <-%repr_bytes. done. Qed.

Lemma repr_lookup (o : Octstr) (s : list Z) (i : nat) (c : Z) :
  repr o s -> s !! i = Some c -> os_data o !! i = Some c.
Proof.
  destruct 1 as [|s rest]; simpl; [done|]. intros. by apply lookup_app_l_Some.
Qed.

Lemma repr_seems_valid (o : Octstr) (s : list Z) :
  repr o s -> seems_valid o = Ok tt.
Proof.
  destruct 1 as [|s rest size imm Hs ->]; [done|]. unfold seems_valid; simpl.
  do 2 (apply bind_assert; [list_lia|]).
  destruct (Z.eqb_spec (zlen (s ++ 0 :: rest)) 0); [list_lia|].
  do 2 (apply bind_assert; [list_lia|]).
  assert (rd (s ++ 0 :: rest) (zlen s) = Ok 0) as ->; [|done].
  apply rd_ok. split; [list_lia|]. split; [|done].
  unfold zlen. rewrite Nat2Z.id. by apply list_lookup_middle.
Qed.

Lemma octstr_len_ok (o : Octstr) (s : list Z) : repr o s -> octstr_len (Some o) = Ok (zlen s).
Proof. intros Ho. unfold octstr_len. by rewrite (repr_seems_valid _ _ Ho), (repr_len _ _ Ho). Qed.

Lemma returns_seems_valid {A} (o : Octstr) (s : list Z) (f : unit -> res A) Q :
  repr o s -> returns (f tt) Q -> returns (seems_valid o ≫= f) Q.
Proof. intros H. by rewrite (repr_seems_valid _ _ H). Qed.

Lemma returns_seems_valid_mk (o : Octstr) (s : list Z) (Q : Octstr -> Prop) :
  reprm o s -> Q o -> returns (seems_valid o ≫= fun _ => Ok o) Q.
Proof. intros [H _] ?. by eapply returns_seems_valid. Qed.

Ltac wp_valid := eapply returns_seems_valid; [eassumption|].
Ltac wp_assert := apply returns_assert; [list_lia|].
Ltac wp_if :=
  match goal with
  | |- context [if ?b then _ else _] =>
      let E := fresh "E" in destruct b eqn:E
  end.

(** ** Refinement of the operations *)

Lemma octstr_grow_ok (o : Octstr) (s : list Z) (n : Z) :
  reprm o s -> 0 <= n ->
  returns (octstr_grow o n) (fun o' =>
    exists rest, os_data o' = os_data o ++ rest /\ os_len o' = os_len o /\
      os_size o' = zlen (os_data o') /\ os_immutable o' = false /\
      n + 1 <= os_size o').
Proof.
  intros [Ho Hm] Hn. unfold octstr_grow. rewrite Hm. simpl. wp_valid. wp_assert.
  assert (zlen (os_data o) = os_size o) as Hs by by destruct Ho.
  pose proof (Z.mod_pos_bound (n + 1) 1024 ltac:(lia)).
  wp_if; simpl.
  - exists (replicate (Z.to_nat (n + 1 + (1024 - (n + 1) mod 1024))
                       - length (os_data o)) UNINIT).
    unfold gw_realloc. rewrite take_ge by list_lia. split_and!; try done; list_lia.
  - exists []. rewrite app_nil_r. split_and!; try done; lia.
Qed.

Lemma octstr_create_from_data_ok (data : list Z) (off len : Z) :
  0 <= off -> 0 <= len -> off + len <= zlen data -> octets (slice data off len) ->
  returns (octstr_create_from_data data off len)
    (fun o => reprm o (slice data off len)).
Proof.
  intros Hoff Hlen Hb Hd. unfold octstr_create_from_data. wp_assert.
  eapply returns_bind_ok.
  { instantiate (1 := tt). wp_if; [|done]. apply gw_assert_true. lia. }
  wp_if; [simpl; split; [|done]|].
  { replace len with 0 by lia. unfold slice. rewrite take_0. constructor. }
  pose proof (length_slice data off len Hoff Hlen Hb) as Hsl.
  apply returns_mem_copy; [lia..| unfold gw_malloc; list_lia | lia |].
  unfold gw_malloc, overwrite. rewrite take_0, drop_replicate, Hsl. simpl.
  apply returns_wr; [list_lia|].
  replace (Z.to_nat (len + 1) - Z.to_nat len)%nat with 1%nat by lia. simpl.
  eapply returns_seems_valid_mk with (s := slice data off len).
  2: cbv beta.
  all: apply repr_intro with (rest := []); try done; list_len; try list_lia.
  all: rewrite insert_app_r_alt by lia.
  all: by replace (Z.to_nat len - length (slice data off len))%nat with 0%nat by lia.
Qed.

(** The octet at a position, or -1 outside the string. *)
Definition char_at (s : list Z) (pos : Z) : Z :=
  if 0 <=? pos then default (-1) (s !! Z.to_nat pos) else -1.

Lemma slice_app_l {A} (s k : list A) (off n : Z) :
  0 <= off -> 0 <= n -> off + n <= zlen s -> slice (s ++ k) off n = slice s off n.
Proof.
  intros. unfold slice. rewrite drop_app_le by list_lia.
  by rewrite take_app_le by list_lia.
Qed.

Lemma slice_all {A} (s : list A) : slice s 0 (zlen s) = s.
Proof. unfold slice, zlen. by rewrite Nat2Z.id, drop_0, firstn_all. Qed.

Lemma slice_ge {A} (s : list A) (off n : Z) :
  zlen s <= off -> slice s off n = [].
Proof. intros. unfold slice. by rewrite drop_ge, take_nil by list_lia. Qed.

Lemma slice_min {A} (s : list A) (off n : Z) :
  0 <= off <= zlen s -> zlen s - off <= n ->
  slice s off n = slice s off (zlen s - off).
Proof. intros. unfold slice. by rewrite !take_ge by list_lia. Qed.

Lemma octets_slice (s : list Z) (off n : Z) : octets s -> octets (slice s off n).
Proof. intros. unfold slice. by apply Forall_take, Forall_drop. Qed.

#[export] Hint Resolve octets_slice : kannel.

Lemma repr_slice (o : Octstr) (s : list Z) (off n : Z) :
  repr o s -> 0 <= off -> 0 <= n -> off + n <= zlen s ->
  slice (os_data o) off n = slice s off n /\ off + n <= zlen (os_data o).
Proof.
  destruct 1; intros; simpl; [done|].
  split; [by apply slice_app_l|list_lia].
Qed.

Lemma octstr_create_ok (s : list Z) :
  octets s -> returns (octstr_create s) (fun o => reprm o s).
Proof.
  intros. unfold octstr_create.
  eapply returns_mono; [apply octstr_create_from_data_ok|]; try list_lia.
  - by apply octets_slice.
  - intros o. by rewrite slice_all.
Qed.

Lemma octstr_copy_ok (o : Octstr) (s : list Z) (from len : Z) :
  repr o s -> 0 <= from -> 0 <= len ->
  returns (octstr_copy (Some o) from len) (fun o' => reprm o' (slice s from len)).
Proof.
  intros Ho Hf Hl. unfold octstr_copy. wp_valid. do 2 wp_assert.
  rewrite (repr_len _ _ Ho). pose proof (repr_octets _ _ Ho).
  wp_if; [rewrite slice_ge by lia; by apply octstr_create_ok|].
  set (n := if zlen s - from <? len then zlen s - from else len).
  assert (slice s from len = slice s from n) as ->.
  { unfold n. wp_if; [by apply slice_min; lia|done]. }
  assert (0 <= n /\ from + n <= zlen s) as [Hn Hfn] by (unfold n; wp_if; lia).
  destruct (repr_slice _ _ from n Ho) as [Es Hb]; [done..|]. rewrite <- Es.
  apply octstr_create_from_data_ok; try done. rewrite Es. by apply octets_slice.
Qed.

Lemma octstr_duplicate_ok (o : Octstr) (s : list Z) :
  repr o s -> returns (octstr_duplicate (Some o))
                (fun o' => exists o'', o' = Some o'' /\ reprm o'' s).
Proof.
  intros Ho. unfold octstr_duplicate. wp_valid. rewrite (repr_len _ _ Ho).
  destruct (repr_slice _ _ 0 (zlen s) Ho) as [E Hb]; try list_lia.
  rewrite slice_all in E. apply returns_bind.
  eapply returns_mono; [apply octstr_create_from_data_ok; try list_lia|].
  - rewrite E. by apply (repr_octets o).
  - intros o' Ho'. rewrite E in Ho'. simpl. eauto.
Qed.

Lemma octstr_get_char_ok (o : Octstr) (s : list Z) (pos : Z) :
  repr o s -> octstr_get_char o pos = Ok (char_at s pos).
Proof.
  intros Ho. unfold octstr_get_char. rewrite (repr_seems_valid _ _ Ho). simpl.
  rewrite (repr_len _ _ Ho). unfold char_at.
  destruct (Z.leb_spec (zlen s) pos); simpl.
  - rewrite lookup_ge_None_2 by list_lia. by wp_if.
  - destruct (Z.ltb_spec pos 0), (Z.leb_spec 0 pos); try lia; try done.
    destruct (lookup_lt_is_Some_2 s (Z.to_nat pos)) as [c Hc]; [list_lia|].
    rewrite Hc. apply rd_ok. split; [done|]. split; [by eapply repr_lookup|].
    pose proof (repr_octets _ _ Ho) as Hs. rewrite Forall_lookup in Hs.
    apply Hs in Hc. unfold octet in Hc. simpl. lia.
Qed.

Lemma octets_insert (s : list Z) (i : nat) (c : Z) :
  octets s -> octet c -> octets (<[i:=c]> s).
Proof. intros. by apply Forall_insert. Qed.

Lemma octstr_set_char_ok (o : Octstr) (s : list Z) (pos ch : Z) :
  reprm o s -> 0 <= pos ->
  returns (octstr_set_char o pos ch)
    (fun o' => reprm o' (<[Z.to_nat pos := ch mod 256]> s)).
Proof.
  intros [Ho Hm] Hp. unfold octstr_set_char. wp_valid. rewrite Hm.
  rewrite (repr_len _ _ Ho). apply returns_bind. simpl. wp_if.
  - destruct Ho as [|s rest size imm Hs ->]; [simpl in *; list_lia|].
    simpl in *. rewrite wr_ok by list_lia. simpl. rewrite insert_app_l by list_lia.
    eapply returns_seems_valid_mk;
      (split; [|by simpl]); unfold set_data; simpl;
      replace (zlen s) with (zlen (<[Z.to_nat pos:=ch mod 256]> s)) by list_lia;
      (constructor; [by apply octets_insert; [|apply octet_mod]|list_lia]).
  - simpl. rewrite list_insert_ge by list_lia.
    destruct o; unfold set_data in *; simpl in *.
    eapply returns_seems_valid_mk; by split.
Qed.

(** [splice s pos k]: [k] inserted in [s] at [pos]. *)
Definition splice {A} (s : list A) (pos : Z) (k : list A) : list A :=
  take (Z.to_nat pos) s ++ k ++ drop (Z.to_nat pos) s.

Lemma octets_splice (s : list Z) (pos : Z) (k : list Z) :
  octets s -> octets k -> octets (splice s pos k).
Proof.
  intros. unfold splice. rewrite !Forall_app.
  eauto using Forall_take, Forall_drop.
Qed.

Lemma zlen_splice {A} (s : list A) (pos : Z) (k : list A) :
  zlen (splice s pos k) = zlen s + zlen k.
Proof. unfold splice. list_lia. Qed.

Lemma splice_end {A} (s k : list A) : splice s (zlen s) k = s ++ k.
Proof.
  unfold splice, zlen. rewrite Nat2Z.id, firstn_all, drop_all.
  by rewrite app_nil_r.
Qed.

(** The block after the [memmove], the [memcpy] and the NUL of an insertion. *)
Lemma splice_block (d s k : list Z) (pos : Z) :
  0 <= pos <= zlen s -> take (length s) d = s -> zlen s + zlen k + 1 <= zlen d ->
  <[Z.to_nat (zlen s + zlen k) := 0]>
    (overwrite (overwrite d (pos + zlen k) (slice d pos (zlen s - pos))) pos k) =
  splice s pos k ++ 0 :: drop (length s + length k + 1) d.
Proof.
  intros Hp Hd Hl.
  assert (slice d pos (zlen s - pos) = drop (Z.to_nat pos) s) as ->.
  { unfold slice. rewrite take_drop_commute. f_equal.
    transitivity (take (length s) d); [f_equal; list_lia|done]. }
  rewrite overwrite_overwrite_before by list_lia.
  assert (take (Z.to_nat pos) d = take (Z.to_nat pos) s) as ->.
  { transitivity (take (Z.to_nat pos) (take (length s) d)); [|by rewrite Hd].
    rewrite take_take. f_equal. list_lia. }
  unfold splice. rewrite <- !app_assoc. rewrite !(app_assoc _ _ (drop _ d)).
  rewrite insert_app_r_alt by list_lia. rewrite <- !app_assoc. do 3 f_equal.
  rewrite insert_drop_head by list_lia. do 2 f_equal. list_lia.
Qed.

(** What both insertions do with the block, from the growth on. *)
Lemma octstr_splice_ok (o : Octstr) (s k : list Z) (pos : Z) (b : list Z) :
  reprm o s -> octets k -> 0 <= pos <= zlen s ->
  zlen k <= zlen b -> take (length k) b = k ->
  returns (octstr_grow o (zlen s + zlen k)) (fun o' =>
    os_len o' = zlen s /\ os_immutable o' = false /\
    zlen s + zlen k + 1 <= zlen (os_data o') /\
    mem_move (os_data o') (pos + zlen k) pos (zlen s - pos)
      = Ok (overwrite (os_data o') (pos + zlen k)
              (slice (os_data o') pos (zlen s - pos))) /\
    (pos = zlen s ->
       overwrite (os_data o') (pos + zlen k)
         (slice (os_data o') pos (zlen s - pos)) = os_data o') /\
    let d := overwrite (os_data o') (pos + zlen k)
               (slice (os_data o') pos (zlen s - pos)) in
    mem_copy d pos b 0 (zlen k) = Ok (overwrite d pos k) /\
    exists d', wr (overwrite d pos k) (zlen s + zlen k) 0 = Ok d' /\
      reprm (mkOctstr d' (zlen s + zlen k) (os_size o') false) (splice s pos k)).
Proof.
  intros Ho Hk Hp Hb Hbk.
  eapply returns_mono; [apply (octstr_grow_ok _ s); [done|list_lia]|].
  intros o' (rest & Hd & Hlen & Hsz & Him & Hroom). destruct Ho as [Ho _].
  rewrite (repr_len _ _ Ho) in Hlen. pose proof (repr_octets _ _ Ho) as Hs.
  assert (take (length s) (os_data o') = s) as Ht.
  { rewrite Hd. destruct Ho as [|? ? ? ? ? ?]; [done|]. simpl.
    by rewrite <- app_assoc, take_app_length. }
  set (d := overwrite (os_data o') (pos + zlen k)
               (slice (os_data o') pos (zlen s - pos))).
  assert (length (slice (os_data o') pos (zlen s - pos)) = Z.to_nat (zlen s - pos))
    as Hsl by (apply length_slice; list_lia).
  assert (length d = length (os_data o')) as Hld
    by (apply length_overwrite; list_lia).
  assert (slice b 0 (zlen k) = k) as Hbs
    by (unfold slice; by rewrite drop_0, <- Hbk; unfold zlen; rewrite Hbk, Nat2Z.id).
  split_and!; try done; try lia.
  - apply mem_move_ok; list_lia.
  - intros ->. unfold d, overwrite, slice. rewrite Z.sub_diag. simpl.
    rewrite Nat.add_0_r. apply take_drop.
  - split; [by rewrite mem_copy_ok, Hbs by list_lia|].
    eexists; split; [apply wr_ok; unfold zlen; rewrite length_overwrite; list_lia|].
    rewrite Z.mod_0_l by lia. unfold d. rewrite splice_block by (done || lia).
    eapply repr_intro; [by apply octets_splice|done|by rewrite zlen_splice|].
    unfold splice. list_lia.
Qed.

Lemma splice_nil {A} (s : list A) (pos : Z) : splice s pos [] = s.
Proof. unfold splice. simpl. apply take_drop. Qed.

Lemma zlen_0_inv {A} (s : list A) : zlen s = 0 -> s = [].
Proof. destruct s; [done|list_lia]. Qed.

Lemma octstr_insert_ok (o1 o2 : Octstr) (s1 s2 : list Z) (pos : Z) :
  reprm o1 s1 -> repr o2 s2 -> 0 <= pos <= zlen s1 ->
  returns (octstr_insert o1 (Some o2) pos) (fun o => reprm o (splice s1 pos s2)).
Proof.
  intros H1 H2 Hp. destruct (H1) as [Ho1 Hm]. unfold octstr_insert.
  do 2 wp_valid. rewrite (repr_len _ _ Ho1), (repr_len _ _ H2), Hm.
  do 2 wp_assert. wp_if.
  { rewrite (zlen_0_inv s2) by lia. by rewrite splice_nil. }
  apply returns_bind. eapply returns_mono.
  { apply (octstr_splice_ok o1 s1 s2 pos (os_data o2)); try done.
    - by apply (repr_octets o2).
    - destruct H2; simpl; list_lia.
    - by destruct H2; [|apply take_app_length]. }
  intros o (Hl & Him & _ & Hmv & _ & Hcp & d' & Hw & Hr). cbv zeta in *.
  rewrite Hl, Hmv; simpl. rewrite Hcp; simpl. rewrite Hw; simpl. rewrite Him.
  by eapply returns_seems_valid_mk.
Qed.

Lemma octstr_insert_data_ok (o : Octstr) (s b : list Z) (pos len : Z) :
  reprm o s -> 0 <= pos <= zlen s -> 0 <= len <= zlen b ->
  octets (take (Z.to_nat len) b) ->
  returns (octstr_insert_data o pos b len)
    (fun o' => reprm o' (splice s pos (take (Z.to_nat len) b))).
Proof.
  intros H1 Hp Hl Hb. destruct (H1) as [Ho1 Hm]. unfold octstr_insert_data.
  wp_valid. rewrite (repr_len _ _ Ho1), Hm. do 2 wp_assert. wp_if.
  { replace len with 0 by lia. change (Z.to_nat 0) with 0%nat.
    by rewrite take_0, splice_nil. }
  set (k := take (Z.to_nat len) b) in *.
  assert (zlen k = len) as Hkl by (unfold k; list_lia). rewrite <- Hkl.
  apply returns_bind. eapply returns_mono.
  { apply (octstr_splice_ok o s k pos b); try done; [lia|].
    rewrite <- (Nat2Z.id (length k)). by replace (Z.of_nat (length k)) with len. }
  intros o' (Hl' & Him & _ & Hmv & Hend & Hcp & d' & Hw & Hr). cbv zeta in *.
  rewrite Hl'. eapply returns_bind_ok.
  { wp_if; [exact Hmv|]. rewrite Hend by lia. done. }
  rewrite Hcp; simpl. rewrite Hw; simpl. rewrite Him.
  by eapply returns_seems_valid_mk.
Qed.

Lemma octstr_append_data_ok (o : Octstr) (s b : list Z) (len : Z) :
  reprm o s -> 0 <= len <= zlen b -> octets (take (Z.to_nat len) b) ->
  returns (octstr_append_data o b len)
    (fun o' => reprm o' (s ++ take (Z.to_nat len) b)).
Proof.
  intros H1 Hl Hb. unfold octstr_append_data.
  rewrite (repr_len _ _ (proj1 H1)), <- splice_end.
  apply octstr_insert_data_ok; try done. list_lia.
Qed.

Lemma octstr_append_cstr_ok (o : Octstr) (s k : list Z) :
  reprm o s -> octets k ->
  returns (octstr_append_cstr o k) (fun o' => reprm o' (s ++ k)).
Proof.
  intros H1 Hk. unfold octstr_append_cstr.
  assert (take (Z.to_nat (zlen k)) k = k) as E by (rewrite take_ge; list_lia || done).
  eapply returns_mono; [apply (octstr_append_data_ok o s k (zlen k)); try done|].
  - list_lia.
  - by rewrite E.
  - by rewrite E.
Qed.

Lemma octstr_append_char_ok (o : Octstr) (s : list Z) (ch : Z) :
  reprm o s -> octet ch ->
  returns (octstr_append_char o ch) (fun o' => reprm o' (s ++ [ch])).
Proof.
  intros H1 Hc. unfold octstr_append_char, octet in *. do 2 wp_assert.
  apply (octstr_append_data_ok o s [ch] 1); try done. by constructor.
Qed.

Lemma octstr_append_ok (o1 o2 : Octstr) (s1 s2 : list Z) :
  reprm o1 s1 -> repr o2 s2 ->
  returns (octstr_append o1 (Some o2)) (fun o => reprm o (s1 ++ s2)).
Proof.
  intros H1 H2. unfold octstr_append.
  rewrite (repr_len _ _ (proj1 H1)), <- splice_end.
  apply octstr_insert_ok; try done. list_lia.
Qed.

Lemma octstr_insert_char_ok (o : Octstr) (s : list Z) (pos c : Z) :
  reprm o s -> 0 <= pos <= zlen s ->
  returns (octstr_insert_char o pos c)
    (fun o' => reprm o' (splice s pos [c mod 256])).
Proof.
  intros H1 Hp. destruct (H1) as [Ho1 Hm]. unfold octstr_insert_char.
  wp_valid. rewrite (repr_len _ _ Ho1), Hm. do 2 wp_assert.
  apply returns_bind. eapply returns_mono.
  { apply (octstr_splice_ok o s [c mod 256] pos [c mod 256]); try done.
    repeat constructor; apply octet_mod. }
  intros o' (Hl' & Him & _ & Hmv & Hend & Hcp & d' & Hw & Hr). cbv zeta in *.
  change (zlen [c mod 256]) with 1 in *.
  rewrite Hl'. eapply returns_bind_ok.
  { wp_if; [exact Hmv|]. rewrite Hend by lia. done. }
  rewrite Hcp; simpl. rewrite Hw; simpl. rewrite Him.
  by eapply returns_seems_valid_mk.
Qed.

(** [cut s pos len]: [s] without the [len] octets at [pos]. *)
Definition cut {A} (s : list A) (pos len : Z) : list A :=
  take (Z.to_nat pos) s ++ drop (Z.to_nat pos + Z.to_nat len) s.

Lemma octets_cut (s : list Z) (pos len : Z) : octets s -> octets (cut s pos len).
Proof.
  intros. unfold cut. rewrite Forall_app. eauto using Forall_take, Forall_drop.
Qed.

Lemma cut_block (s rest : list Z) (pos len : Z) :
  0 <= pos -> 0 < len -> pos + len <= zlen s ->
  let d := s ++ 0 :: rest in
  <[Z.to_nat (zlen s - len) := 0]>
    (overwrite d pos (slice d (pos + len) (zlen s - pos - len))) =
  cut s pos len ++ 0 :: drop (Z.to_nat (zlen s - len) + 1) d.
Proof.
  intros Hp Hl Hs. cbv zeta.
  rewrite slice_app_l by lia.
  assert (slice s (pos + len) (zlen s - pos - len)
          = drop (Z.to_nat pos + Z.to_nat len) s) as ->.
  { unfold slice. rewrite take_ge by list_lia. f_equal. lia. }
  unfold overwrite, cut. rewrite take_app_le by list_lia.
  rewrite app_assoc, insert_app_r_alt by list_lia.
  rewrite insert_drop_head by list_lia. do 3 f_equal. list_lia.
Qed.

Lemma octstr_delete_ok (o : Octstr) (s : list Z) (pos len : Z) :
  reprm o s -> 0 <= pos -> 0 <= len -> Z.min pos (zlen s) + len <= Z.max LONG_MAX (zlen s + MAX_BLOCK) ->
  returns (octstr_delete o pos len) (fun o' => reprm o' (cut s pos len)).
Proof.
  intros H1 Hp Hl Hlong. destruct (H1) as [Ho Hm]. unfold octstr_delete. wp_valid.
  rewrite Hm. simpl. rewrite (repr_len _ _ Ho).
  set (p := if zlen s <? pos then zlen s else pos).
  pose proof (zlen_nonneg s). assert (p = Z.min pos (zlen s)) as Ep by (unfold p; wp_if; lia).
  rewrite add_long_ok by lia. bind_red.
  set (n := if zlen s <? p + len then zlen s - p else len).
  assert (cut s pos len = cut s p n) as ->.
  { unfold cut, n, p. repeat wp_if; try lia; try done.
    all: rewrite ?(drop_ge s) by list_lia; f_equal; rewrite ?take_ge by list_lia.
    all: done. }
  assert (0 <= p /\ 0 <= n /\ p + n <= zlen s) as (Hp' & Hn & Hpn).
  { unfold n, p; repeat wp_if; list_lia. }
  apply returns_bind. wp_if.
  - destruct Ho as [|s rest size imm Hs ->]; [simpl in *; list_lia|]. simpl.
    apply returns_mem_move; [list_lia..|].
    apply returns_wr.
    { rewrite zlen_overwrite; rewrite ?zlen_slice; list_lia. }
    rewrite Z.mod_0_l, (cut_block s rest p n) by lia.
    assert (reprm (mkOctstr (cut s p n ++ 0 :: drop (Z.to_nat (zlen s - n) + 1)
       (s ++ 0 :: rest)) (zlen s - n) (zlen (s ++ 0 :: rest)) imm) (cut s p n)).
    { simpl in Hm. subst imm.
      eapply repr_intro; [by apply octets_cut|done|..]; unfold cut; list_lia. }
    by eapply returns_seems_valid_mk.
  - assert (cut s p n = s) as ->.
    { unfold cut. replace n with 0 by lia. rewrite Nat.add_0_r. apply take_drop. }
    by eapply returns_seems_valid_mk.
Qed.

Lemma octstr_truncate_ok (o : Octstr) (s : list Z) (n : Z) :
  reprm o s -> 0 <= n ->
  returns (octstr_truncate (Some o) n)
    (fun o' => exists o'', o' = Some o'' /\ reprm o'' (take (Z.to_nat n) s)).
Proof.
  intros H1 Hn. destruct (H1) as [Ho Hm]. unfold octstr_truncate. wp_valid.
  rewrite Hm. simpl. wp_assert. rewrite (repr_len _ _ Ho). wp_if.
  - simpl. eexists; split; [done|]. by rewrite take_ge by list_lia.
  - destruct Ho as [|s rest size imm Hs ->]; [simpl in *; list_lia|]. simpl.
    apply returns_wr; [list_lia|]. unfold set_len, set_data. simpl in *. subst imm.
    assert (reprm (mkOctstr (<[Z.to_nat n := 0]> (s ++ 0 :: rest)) n
              (zlen (s ++ 0 :: rest)) false) (take (Z.to_nat n) s)) as Hr.
    { eapply (repr_intro _ _ (drop (S (Z.to_nat n)) (s ++ 0 :: rest)));
        [by apply Forall_take| |list_lia..].
      rewrite <- (take_drop (Z.to_nat n) (s ++ 0 :: rest)) at 1.
      rewrite take_app_le, insert_app_r_alt by list_lia.
      by rewrite insert_drop_head by list_lia. }
    rewrite Z.mod_0_l by lia.
    eapply returns_seems_valid; [apply Hr|]. simpl. eauto.
Qed.

Lemma octstr_get_many_chars_ok (buf : list Z) (o : Octstr) (s : list Z) (pos n : Z) :
  repr o s -> 0 <= pos -> 0 <= n -> pos + n <= zlen s -> zlen buf = n ->
  octstr_get_many_chars buf o pos n = Ok (slice s pos n).
Proof.
  intros Ho Hp Hn Hpn Hb. unfold octstr_get_many_chars.
  rewrite (repr_seems_valid _ _ Ho), (repr_len _ _ Ho). simpl.
  destruct (repr_slice _ _ pos n Ho) as [E Hd]; try done.
  assert (n = 0 \/ 0 < n) as [->|Hn'] by lia.
  - rewrite (zlen_0_inv buf) by done. unfold slice. rewrite take_0.
    destruct (Z.leb_spec (zlen s) pos); [done|]. rewrite add_long_ok by long_lia. bind_red.
    by destruct (Z.ltb_spec (zlen s) (pos + 0)); [lia|].
  - destruct (Z.leb_spec (zlen s) pos); [lia|]. rewrite add_long_ok by long_lia. bind_red.
    destruct (Z.ltb_spec (zlen s) (pos + n)); [lia|].
    destruct (Z.ltb_spec 0 n); [|lia].
    rewrite mem_copy_ok, E by lia. unfold overwrite.
    rewrite take_0, drop_ge; [by rewrite app_nil_r|].
    rewrite length_slice; list_lia.
Qed.

Lemma octstr_cat_ok (o1 o2 : Octstr) (s1 s2 : list Z) :
  repr o1 s1 -> repr o2 s2 ->
  returns (octstr_cat o1 o2) (fun o => reprm o (s1 ++ s2)).
Proof.
  intros H1 H2. unfold octstr_cat. do 2 wp_valid.
  rewrite (repr_len _ _ H1), (repr_len _ _ H2).
  pose proof (repr_octets _ _ H1). pose proof (repr_octets _ _ H2).
  destruct (repr_slice _ _ 0 (zlen s1) H1) as [E1 L1]; [list_lia..|].
  destruct (repr_slice _ _ 0 (zlen s2) H2) as [E2 L2]; [list_lia..|].
  rewrite slice_all in E1, E2.
  set (d := gw_malloc _). assert (zlen d = zlen s1 + zlen s2 + 1) as Hd.
  { unfold d, gw_malloc. list_lia. }
  eapply returns_bind_ok with (a := overwrite d 0 s1).
  { wp_if; [by rewrite mem_copy_ok, E1 by list_lia|].
    rewrite (zlen_0_inv s1) by list_lia. unfold overwrite. by rewrite take_0. }
  eapply returns_bind_ok with (a := overwrite (overwrite d 0 s1) (zlen s1) s2).
  { wp_if; [by rewrite mem_copy_ok, E2 by (rewrite ?zlen_overwrite; list_lia)|].
    rewrite (zlen_0_inv s2) by list_lia. unfold overwrite at 2. simpl.
    by rewrite Nat.add_0_r, take_drop. }
  apply returns_wr; [rewrite !zlen_overwrite; rewrite ?zlen_overwrite; list_lia|].
  assert (<[Z.to_nat (zlen s1 + zlen s2) := 0]>
            (overwrite (overwrite d 0 s1) (zlen s1) s2)
          = (s1 ++ s2) ++ 0 :: drop (S (length s1 + length s2)) d) as Heq.
  { unfold overwrite. rewrite take_0. simpl.
    unfold zlen. rewrite Nat2Z.id, take_app_length, drop_app_ge by lia.
    rewrite drop_drop, app_assoc, insert_app_r_alt by list_lia.
    replace (length s1 + (length s1 + length s2 - length s1))%nat
      with (length s1 + length s2)%nat by lia.
    rewrite insert_drop_head by list_lia. done. }
  rewrite Z.mod_0_l, Heq by lia.
  assert (reprm (mkOctstr ((s1 ++ s2) ++ 0 :: drop (S (length s1 + length s2)) d)
      (zlen s1 + zlen s2) (zlen s1 + zlen s2 + 1) false) (s1 ++ s2)).
  { eapply repr_intro; [by apply Forall_app|done|list_lia..]. }
  by eapply returns_seems_valid_mk.
Qed.

(** ** Sequences of edits *)

Inductive edit : Type :=
| EInsert (pos : Z) (k : list Z)
| EInsertChar (pos c : Z)
| EAppendChar (c : Z)
| ESetChar (pos c : Z)
| EDelete (pos len : Z)
| ETruncate (n : Z).

(** The positions and lengths that the source requires but does not check, and
    octets that are octets. *)
Definition edit_pre (e : edit) : Prop :=
  match e with
  | EInsert pos k => 0 <= pos /\ octets k
  | EInsertChar pos _ => 0 <= pos
  | EAppendChar _ => True
  | ESetChar pos _ => 0 <= pos
  | EDelete pos len => 0 <= pos /\ 0 <= len
  | ETruncate _ => True
  end.

Definition run_edit (o : Octstr) (e : edit) : res Octstr :=
  match e with
  | EInsert pos k => k ← octstr_create k; octstr_insert o (Some k) pos
  | EInsertChar pos c => octstr_insert_char o pos c
  | EAppendChar c => octstr_append_char o c
  | ESetChar pos c => octstr_set_char o pos c
  | EDelete pos len => octstr_delete o pos len
  | ETruncate n => o' ← octstr_truncate (Some o) n; Ok (default o o')
  end.

(** The same on octet lists: [Panic] where the source panics, [Undef] where the end
    of what is deleted is more than a [long]. *)
Definition spec_edit (s : list Z) (e : edit) : res (list Z) :=
  match e with
  | EInsert pos k => if pos <=? zlen s then Ok (splice s pos k) else Panic
  | EInsertChar pos c => if pos <=? zlen s then Ok (splice s pos [c mod 256]) else Panic
  | EAppendChar c => if (0 <=? c) && (c <=? 255) then Ok (s ++ [c]) else Panic
  | ESetChar pos c => Ok (<[Z.to_nat pos := c mod 256]> s)
  | EDelete pos len =>
      if Z.max LONG_MAX (zlen s + MAX_BLOCK) <? Z.min pos (zlen s) + len then Undef else Ok (cut s pos len)
  | ETruncate n => if 0 <=? n then Ok (take (Z.to_nat n) s) else Panic
  end.

Fixpoint run_edits (es : list edit) (o : Octstr) : res Octstr :=
  match es with
  | [] => Ok o
  | e :: es => o ← run_edit o e; run_edits es o
  end.

Fixpoint spec_edits (es : list edit) (s : list Z) : res (list Z) :=
  match es with
  | [] => Ok s
  | e :: es => s ← spec_edit s e; spec_edits es s
  end.

Definition refines (m : res Octstr) (s : res (list Z)) : Prop :=
  match s with
  | Ok s => returns m (fun o => reprm o s)
  | Panic => m = Panic
  | Undef => m = Undef
  end.

Lemma run_edit_ok (o : Octstr) (s : list Z) (e : edit) :
  reprm o s -> edit_pre e -> refines (run_edit o e) (spec_edit s e).
Proof.
  intros Ho He. pose proof (repr_seems_valid _ _ (proj1 Ho)) as Hv.
  pose proof (repr_len _ _ (proj1 Ho)) as Hl. pose proof (proj2 Ho) as Hm.
  destruct e as [pos k|pos c|c|pos c|pos len|n]; simpl in *.
  - destruct He as [Hp Hk]. destruct (Z.leb_spec pos (zlen s)); simpl.
    + apply returns_bind. apply (returns_mono _ _ _ (octstr_create_ok k Hk)).
      intros ok Hok. apply octstr_insert_ok; [done|apply Hok|lia].
    + destruct (proj1 (returns_iff _ _) (octstr_create_ok k Hk)) as (ok & -> & Hok).
      bind_red. unfold octstr_insert.
      rewrite Hv, (repr_seems_valid _ _ (proj1 Hok)), Hl. bind_red.
      by destruct (Z.leb_spec pos (zlen s)); [lia|].
  - destruct (Z.leb_spec pos (zlen s)); simpl; [apply octstr_insert_char_ok; [done|lia]|].
    unfold octstr_insert_char. rewrite Hv, Hm, Hl. simpl.
    by destruct (Z.leb_spec pos (zlen s)); [lia|].
  - destruct (decide (octet c)) as [Hc|Hc].
    + replace ((0 <=? c) && (c <=? 255)) with true by (unfold octet in Hc; lia).
      by apply octstr_append_char_ok.
    + replace ((0 <=? c) && (c <=? 255)) with false by (unfold octet in Hc; lia).
      unfold octstr_append_char. simpl.
      destruct (Z.leb_spec 0 c), (Z.leb_spec c 255); try done. unfold octet in Hc. lia.
  - by apply octstr_set_char_ok.
  - destruct He as [Hp Hn]. destruct (Z.ltb_spec (Z.max LONG_MAX (zlen s + MAX_BLOCK)) (Z.min pos (zlen s) + len)); simpl; [|by apply octstr_delete_ok].
    unfold octstr_delete. rewrite Hv, Hm, Hl. simpl. rewrite add_long_overflow; [done|]. wp_if; lia.
  - pose proof (octstr_truncate_ok o s n Ho) as Ht. unfold octstr_truncate in Ht.
    rewrite Hv, Hm in *. destruct (Z.leb_spec 0 n); [|done].
    apply returns_bind. eapply returns_mono; [by apply Ht|]. intros o' (o'' & -> & Hr). done.
Qed.

(** A string for the witnesses, in a block that just fits. *)
Definition mk_os (s : list Z) : Octstr := mkOctstr (s ++ [0]) (zlen s) (zlen s + 1) false.

Lemma mk_os_ok (s : list Z) : octets s -> reprm (mk_os s) s.
Proof. intros. apply (repr_intro _ _ []); [done..|list_lia]. Qed.

Ltac mk_os := apply mk_os_ok; repeat constructor; unfold octet; lia.

(** ** Properties *)

(** C39. Any sequence of insertions, deletions, truncations and stores on a
    mutable string has the effect of the same sequence on the octet list: the
    resulting structure is consistent (length below the allocation, NUL after
    the last octet, every access inside the block) and holds exactly those
    octets.  The process panics exactly when an insertion is past the end, an
    appended octet is out of range or a truncation length is negative, and a deletion
    is undefined exactly when its end (from the position, or from the end of the string
    if that is before it) is more than a [long].  Positions and the lengths of
    deletions are not negative. *)
Theorem octstr_edits_refine (es : list edit) (o : Octstr) (s : list Z) :
  reprm o s -> Forall edit_pre es -> refines (run_edits es o) (spec_edits es s).
Proof.
  intros Ho Hes. revert o s Ho. induction Hes as [|e es He Hes IH]; intros o s Ho; [done|].
  pose proof (run_edit_ok o s e Ho He) as Hr. simpl.
  destruct (spec_edit s e) as [s'| |]; simpl in *; [|by rewrite Hr..].
  apply returns_iff in Hr as (o' & -> & Ho'). bind_red. by apply IH.
Qed.

Lemma octstr_edits_refine_witness :
  returns (run_edits [EInsert 2 [120; 121]; EDelete 0 1; EAppendChar 33; ETruncate 4] (mk_os [97; 98; 99]))
    (fun o => reprm o [98; 120; 121; 99]) /\
  run_edits [EDelete 1 1; EInsertChar 3 33] (mk_os [97; 98; 99]) = Panic.
Proof.
  split.
  - apply (octstr_edits_refine [EInsert 2 [120; 121]; EDelete 0 1; EAppendChar 33; ETruncate 4]
      (mk_os [97; 98; 99]) [97; 98; 99]); [mk_os|].
    repeat constructor; simpl; unfold octet; lia.
  - apply (octstr_edits_refine [EDelete 1 1; EInsertChar 3 33] (mk_os [97; 98; 99]) [97; 98; 99]);
      [mk_os|]. repeat constructor; simpl; lia.
Defined.

(** A copy of the [len] octets at [from] holds the octets of the string that
    lie in that range, wherever the range is, and the concatenation of two
    strings holds the octets of the first and then those of the second; both
    are new, mutable strings, and the original may be immutable. *)
Theorem octstr_copy_cat_content (o1 o2 : Octstr) (s1 s2 : list Z) (from len : Z) :
  repr o1 s1 -> repr o2 s2 -> 0 <= from -> 0 <= len ->
  returns (c ← octstr_copy (Some o1) from len; octstr_cat c o2)
    (fun o => reprm o (slice s1 from len ++ s2)).
Proof.
  intros H1 H2 Hf Hl. apply returns_bind.
  apply (returns_mono _ _ _ (octstr_copy_ok o1 s1 from len H1 Hf Hl)).
  intros c [Hc _]. by apply octstr_cat_ok.
Qed.

Lemma octstr_copy_cat_content_witness :
  returns (c ← octstr_copy (Some (mk_os [97; 98; 99])) 1 5; octstr_cat c (mk_os [120]))
    (fun o => reprm o [98; 99; 120]).
Proof.
  apply (octstr_copy_cat_content (mk_os [97; 98; 99]) (mk_os [120]) [97; 98; 99] [120] 1 5);
    [mk_os..|lia|lia].
Defined.

(** No editing operation changes a string marked immutable: each panics,
    whatever its arguments (an insertion of nothing, which is a NULL string,
    returns before the check). *)
Theorem octstr_immutable_protected (o o2 : Octstr) (s s2 : list Z) (pos len c : Z) (b : list Z) :
  repr o s -> os_immutable o = true -> repr o2 s2 ->
  octstr_insert o (Some o2) pos = Panic /\ octstr_insert_data o pos b len = Panic /\
  octstr_insert_char o pos c = Panic /\ octstr_append_char o c = Panic /\
  octstr_set_char o pos c = Panic /\ octstr_delete o pos len = Panic /\
  octstr_truncate (Some o) len = Panic /\ octstr_grow o len = Panic.
Proof.
  intros Ho Hi Ho2. pose proof (repr_seems_valid _ _ Ho) as Hv.
  pose proof (repr_seems_valid _ _ Ho2) as Hv2.
  unfold octstr_insert, octstr_insert_data, octstr_insert_char, octstr_append_char,
    octstr_insert_data, octstr_set_char, octstr_delete, octstr_truncate, octstr_grow.
  rewrite Hv, Hv2, Hi. simpl. split_and!; try done.
  - by destruct (pos <=? os_len o).
  - by destruct (0 <=? c), (c <=? 255).
Qed.

Lemma octstr_immutable_protected_witness :
  octstr_set_char (mkOctstr [97; 0] 1 2 true) 0 98 = Panic.
Proof.
  apply (octstr_immutable_protected (mkOctstr [97; 0] 1 2 true) (mk_os []) [97] [] 0 0 98 []).
  - apply (repr_block [97] []); [repeat constructor; unfold octet; lia|done].
  - done.
  - mk_os.
Defined.
