(* ===== verification/OctstrSearch.v ===== *)
(** * Octet strings: comparison and search

    Models the comparison and search functions of src/gwlib/octstr.c.
    Comparison is shown to be a total order that decides equality of contents,
    and the searches to return the first occurrence at or after a position. *)

From S2P Require Import Prelude Octstr.

(** ** C strings *)

(** [octstr_get_cstr], as the block that the pointer points to. *)
Definition cstr_block (o : Octstr) : block := if zlen (os_data o) =? 0 then [0] else os_data o.

(** ** Comparison *)

Definition octstr_compare (o1 o2 : Octstr) : res Z :=
  seems_valid o1 ≫= fun _ =>
  seems_valid o2 ≫= fun _ =>
  let len := if os_len o1 <? os_len o2 then os_len o1 else os_len o2 in
  if len =? 0 then
    if (os_len o1 =? 0) && (0 <? os_len o2) then Ok (-1)
    else if (0 <? os_len o1) && (os_len o2 =? 0) then Ok 1
    else Ok 0
  else
    ret ← mem_cmp (os_data o1) 0 (os_data o2) 0 len;
    if ret =? 0 then
      if os_len o1 <? os_len o2 then Ok (-1)
      else if os_len o2 <? os_len o1 then Ok 1
      else Ok ret
    else Ok ret.

(** The loop of [octstr_case_compare]: from index [i], [n] octets are left.
    [Some] is the pair of characters it stopped at. *)
Fixpoint case_compare_loop (d1 d2 : block) (i : Z) (n : nat)
  : res (option (Z * Z)) :=
  match n with
  | O => Ok None
  | S n =>
      c1 ← rd d1 i; c2 ← rd d2 i;
      let c1 := toupper c1 in let c2 := toupper c2 in
      if negb (c1 =? c2) then Ok (Some (c1, c2))
      else case_compare_loop d1 d2 (i + 1) n
  end.

Definition octstr_case_compare (o1 o2 : Octstr) : res Z :=
  seems_valid o1 ≫= fun _ =>
  seems_valid o2 ≫= fun _ =>
  let len := if os_len o1 <? os_len o2 then os_len o1 else os_len o2 in
  if len =? 0 then
    if (os_len o1 =? 0) && (0 <? os_len o2) then Ok (-1)
    else if (0 <? os_len o1) && (os_len o2 =? 0) then Ok 1
    else Ok 0
  else
    stop ← case_compare_loop (os_data o1) (os_data o2) 0 (Z.to_nat len);
    match stop with
    | None =>
        if (len =? os_len o1) && (len =? os_len o2) then Ok 0
        else if len =? os_len o1 then Ok (-1)
        else Ok 1
    | Some (c1, c2) =>
        if c1 <? c2 then Ok (-1) else if c1 =? c2 then Ok 0 else Ok 1
    end.

Definition octstr_ncompare (o1 o2 : Octstr) (n : Z) : res Z :=
  seems_valid o1 ≫= fun _ =>
  seems_valid o2 ≫= fun _ =>
  let len :=
    if (os_len o1 <? os_len o2) && (os_len o1 <? n) then os_len o1
    else if (os_len o2 <? os_len o1) && (os_len o2 <? n) then os_len o2
    else n in
  if len =? 0 then Ok 0 else mem_cmp (os_data o1) 0 (os_data o2) 0 len.

(** [octstr_str_compare]; [str] is a C string without its NUL, or NULL. *)
Definition octstr_str_compare (o : Octstr) (str : option (list Z)) : res Z :=
  seems_valid o ≫= fun _ =>
  match str with
  | None => Ok (-1)
  | Some str =>
      if zlen (os_data o) =? 0 then Ok (strcmp [] str)
      else Ok (strcmp (cstr (os_data o)) str)
  end.

(** ** Search *)

Definition octstr_search_char (o : Octstr) (ch pos : Z) : res Z :=
  seems_valid o ≫= fun _ =>
  assert: 0 <=? ch;
  assert: ch <=? 255;
  assert: 0 <=? pos;
  if os_len o <=? pos then Ok (-1)
  else
    p ← mem_chr (os_data o) pos ch (os_len o - pos);
    match p with
    | None => Ok (-1)
    | Some p => Ok p
    end.

(** The loop of [octstr_rsearch_char], at index [i] = [n] - 1. *)
Fixpoint rsearch_char_loop (d : block) (ch : Z) (n : nat) : res Z :=
  match n with
  | O => Ok (-1)
  | S i =>
      c ← rd d (Z.of_nat i);
      if c =? ch then Ok (Z.of_nat i) else rsearch_char_loop d ch i
  end.

Definition octstr_rsearch_char (o : Octstr) (ch pos : Z) : res Z :=
  seems_valid o ≫= fun _ =>
  assert: 0 <=? ch;
  assert: ch <=? 255;
  assert: 0 <=? pos;
  if os_len o <=? pos then Ok (-1)
  else rsearch_char_loop (os_data o) ch (Z.to_nat (pos + 1)).

(** The loop of [octstr_search]: [fuel] bounds the occurrences of the first
    character that are tried. *)
Fixpoint search_loop (hay needle : Octstr) (first pos : Z) (fuel : nat) : res Z :=
  match fuel with
  | O => Undef
  | S fuel =>
      if (0 <=? pos) && (os_len needle <=? os_len hay - pos) then
        ret ← mem_cmp (os_data hay) pos (os_data needle) 0 (os_len needle);
        if ret =? 0 then Ok pos
        else
          pos ← octstr_search_char hay first (pos + 1);
          search_loop hay needle first pos fuel
      else Ok (-1)
  end.

Definition octstr_search (hay needle : Octstr) (pos : Z) : res Z :=
  seems_valid hay ≫= fun _ =>
  seems_valid needle ≫= fun _ =>
  assert: 0 <=? pos;
  if os_len needle =? 0 then Ok 0
  else
    first ← rd (os_data needle) 0;
    if os_len needle =? 1 then octstr_search_char hay first pos
    else
      pos ← octstr_search_char hay first pos;
      search_loop hay needle first pos (Z.to_nat (os_len hay) + 2).

(** The loops of [octstr_case_search]: the inner one compares from index [j],
    [n] octets of the needle being left; the outer one has [fuel] starting
    positions left. *)
Fixpoint case_match_loop (hd nd : block) (i j : Z) (n : nat) : res bool :=
  match n with
  | O => Ok true
  | S n =>
      c1 ← rd hd (i + j); c2 ← rd nd j;
      if negb (toupper c1 =? toupper c2) then Ok false
      else case_match_loop hd nd i (j + 1) n
  end.

Fixpoint case_search_loop (hay needle : Octstr) (i : Z) (fuel : nat) : res Z :=
  match fuel with
  | O => Undef
  | S fuel =>
      if i <=? os_len hay - os_len needle then
        m ← case_match_loop (os_data hay) (os_data needle) i 0
              (Z.to_nat (os_len needle));
        if m : bool then Ok i else case_search_loop hay needle (i + 1) fuel
      else Ok (-1)
  end.

Definition octstr_case_search (hay needle : Octstr) (pos : Z) : res Z :=
  seems_valid hay ≫= fun _ =>
  seems_valid needle ≫= fun _ =>
  assert: 0 <=? pos;
  if os_len needle =? 0 then Ok 0
  else case_search_loop hay needle pos (Z.to_nat (os_len hay) + 2).

(** ** Reading the contents *)

Lemma repr_readable (o : Octstr) (s : list Z) (off n : Z) :
  repr o s -> 0 <= off -> 0 <= n -> off + n <= zlen s ->
  readable (os_data o) off n = true.
Proof.
  intros Ho ? ? ?. destruct (repr_slice _ _ off n Ho) as [E ?]; try done.
  unfold readable. rewrite in_block_true, E by done. simpl.
  apply Is_true_true, forallb_True.
  pose proof (octets_slice s off n (repr_octets _ _ Ho)) as F. revert F.
  apply Forall_impl. unfold octet. intros. apply Is_true_true. lia.
Qed.

Lemma rd_repr (o : Octstr) (s : list Z) (i : Z) :
  repr o s -> 0 <= i < zlen s -> rd (os_data o) i = Ok (char_at s i).
Proof.
  intros Ho Hi. unfold char_at. destruct (Z.leb_spec 0 i); [|lia].
  destruct (lookup_lt_is_Some_2 s (Z.to_nat i)) as [c Hc]; [list_lia|].
  rewrite Hc. apply rd_ok. split; [done|]. split; [by eapply repr_lookup|].
  pose proof (repr_octets _ _ Ho) as Hs. rewrite Forall_lookup in Hs.
  apply Hs in Hc. unfold octet in Hc. simpl. lia.
Qed.

Lemma mem_cmp_repr (o1 o2 : Octstr) (s1 s2 : list Z) (off1 off2 n : Z) :
  repr o1 s1 -> repr o2 s2 -> 0 <= off1 -> 0 <= off2 -> 0 <= n ->
  off1 + n <= zlen s1 -> off2 + n <= zlen s2 ->
  mem_cmp (os_data o1) off1 (os_data o2) off2 n
  = Ok (lex_cmp (slice s1 off1 n) (slice s2 off2 n)).
Proof.
  intros H1 H2 ? ? ? ? ?. unfold mem_cmp.
  rewrite (repr_readable o1 s1), (repr_readable o2 s2) by done. simpl.
  destruct (repr_slice _ _ off1 n H1) as [-> _]; try done.
  by destruct (repr_slice _ _ off2 n H2) as [-> _].
Qed.

(** ** [strcmp] is a total order on octet lists *)

Lemma strcmp_range (l k : list Z) : strcmp l k = -1 \/ strcmp l k = 0 \/ strcmp l k = 1.
Proof. revert k. induction l; intros [|y k]; simpl; eauto. repeat wp_if; eauto. Qed.

Lemma strcmp_eq_0 (l k : list Z) : strcmp l k = 0 <-> l = k.
Proof.
  revert k. induction l as [|x l IH]; intros [|y k]; simpl; try naive_solver lia.
  repeat wp_if; try (split; [lia|intros [=]; lia]).
  rewrite IH. assert (x = y) by lia. naive_solver.
Qed.

Lemma strcmp_opp (l k : list Z) : strcmp k l = - strcmp l k.
Proof.
  revert k. induction l as [|x l IH]; intros [|y k]; simpl; try done.
  repeat wp_if; try lia. apply IH.
Qed.

Lemma strcmp_trans (l k m : list Z) :
  strcmp l k < 0 -> strcmp k m < 0 -> strcmp l m < 0.
Proof.
  revert k m. induction l as [|x l IH]; intros [|y k] [|z m]; simpl; try lia.
  repeat wp_if; try lia. apply IH.
Qed.

(** Comparing a common length first and the lengths next is [strcmp]. *)
Lemma strcmp_by_length (l k : list Z) (n : nat) :
  n = Nat.min (length l) (length k) ->
  strcmp l k =
  let c := lex_cmp (take n l) (take n k) in
  if c =? 0 then
    if (length l <? length k)%nat then -1
    else if (length k <? length l)%nat then 1 else 0
  else c.
Proof.
  intros ->. revert k. induction l as [|x l IH]; intros [|y k]; simpl; try done.
  repeat wp_if; try lia; rewrite IH; cbv zeta; done || (repeat wp_if; lia || done).
Qed.

(** ** Comparison refines [strcmp] on the contents *)

Lemma slice_0 {A} (s : list A) (n : Z) : slice s 0 n = take (Z.to_nat n) s.
Proof. unfold slice. by rewrite drop_0. Qed.

(** The text of an octet string with its NUL. *)
Lemma cstr_block_ok (o : Octstr) (s : list Z) : repr o s -> exists rest, cstr_block o = s ++ 0 :: rest /\ octets s.
Proof.
  destruct 1 as [|s rest size imm Hs Hz]; [by exists []|]. exists rest. unfold cstr_block. cbn [os_data].
  by destruct (Z.eqb_spec (zlen (s ++ 0 :: rest)) 0); [list_lia|].
Qed.

Lemma str_compare_eq (o : Octstr) (s str : list Z) :
  repr o s -> exists c, octstr_str_compare o (Some str) = Ok c /\ (c = 0 <-> cstr s = str).
Proof.
  intros Ho. unfold octstr_str_compare. rewrite (repr_seems_valid _ _ Ho). bind_red.
  destruct Ho as [|s rest size imm Hs Hz]; cbn [os_data].
  - eexists. split; [done|]. apply strcmp_eq_0.
  - destruct (Z.eqb_spec (zlen (s ++ 0 :: rest)) 0); [list_lia|]. eexists. split; [done|].
    rewrite cstr_app_nul. apply strcmp_eq_0.
Qed.

Lemma octstr_compare_ok (o1 o2 : Octstr) (s1 s2 : list Z) :
  repr o1 s1 -> repr o2 s2 -> octstr_compare o1 o2 = Ok (strcmp s1 s2).
Proof.
  intros H1 H2. unfold octstr_compare.
  rewrite (repr_seems_valid _ _ H1), (repr_seems_valid _ _ H2).
  rewrite (repr_len _ _ H1), (repr_len _ _ H2). simpl.
  set (len := if zlen s1 <? zlen s2 then zlen s1 else zlen s2).
  assert (Z.to_nat len = Nat.min (length s1) (length s2)) as Hmin
    by (unfold len; wp_if; list_lia).
  wp_if.
  - rewrite (strcmp_by_length s1 s2 0) by lia. simpl.
    repeat wp_if; done || list_lia.
  - assert (0 <= len /\ len <= zlen s1 /\ len <= zlen s2) as (? & ? & ?)
      by (unfold len; wp_if; list_lia).
    rewrite (mem_cmp_repr o1 o2 s1 s2), !slice_0 by (done || lia). simpl.
    rewrite (strcmp_by_length s1 s2 (Z.to_nat len)) by done. cbv zeta.
    repeat wp_if; try done; try list_lia. f_equal. lia.
Qed.

(** The upper-cased contents, up to which [octstr_case_compare] compares. *)
Definition fold_case (s : list Z) : list Z := toupper <$> s.

Lemma char_at_lookup (s : list Z) (i : nat) (c : Z) :
  s !! i = Some c -> char_at s (Z.of_nat i) = c.
Proof.
  intros H. unfold char_at. destruct (Z.leb_spec 0 (Z.of_nat i)); [|lia].
  by rewrite Nat2Z.id, H.
Qed.

Lemma char_at_mid (pre r : list Z) (c : Z) : char_at (pre ++ c :: r) (zlen pre) = c.
Proof. apply char_at_lookup. by apply list_lookup_middle. Qed.

Lemma char_at_end (s : list Z) (i : Z) : zlen s <= i -> char_at s i = -1.
Proof. intros. unfold char_at. destruct (0 <=? i); [|done]. by rewrite lookup_ge_None_2 by list_lia. Qed.

Lemma case_compare_loop_ok (o1 o2 : Octstr) (s1 s2 : list Z) (i n : nat) :
  repr o1 s1 -> repr o2 s2 ->
  (i + n = Nat.min (length s1) (length s2))%nat ->
  returns (case_compare_loop (os_data o1) (os_data o2) (Z.of_nat i) n)
    (fun stop =>
       strcmp (fold_case (drop i s1)) (fold_case (drop i s2)) =
       match stop with
       | None => if (length s1 <? length s2)%nat then -1
                 else if (length s2 <? length s1)%nat then 1 else 0
       | Some (c1, c2) => if c1 <? c2 then -1 else if c1 =? c2 then 0 else 1
       end).
Proof.
  intros H1 H2. revert i. induction n as [|n IH]; intros i Hi; simpl.
  - rewrite (strcmp_by_length _ _ 0) by (unfold fold_case; list_lia).
    rewrite !take_0. simpl. unfold fold_case. repeat wp_if; list_lia.
  - rewrite (rd_repr o1 s1), (rd_repr o2 s2) by (done || list_lia). simpl.
    destruct (lookup_lt_is_Some_2 s1 i) as [x Hx]; [lia|].
    destruct (lookup_lt_is_Some_2 s2 i) as [y Hy]; [lia|].
    rewrite (char_at_lookup _ _ _ Hx), (char_at_lookup _ _ _ Hy).
    rewrite (drop_S _ _ _ Hx), (drop_S _ _ _ Hy). cbn [fold_case fmap list_fmap].
    destruct (Z.eqb_spec (toupper x) (toupper y)) as [Exy|Exy]; simpl.
    2: { repeat wp_if; lia. }
    rewrite Exy, Z.ltb_irrefl.
      replace (Z.of_nat i + 1) with (Z.of_nat (S i)) by lia. apply IH. lia.
Qed.

Lemma octstr_case_compare_ok (o1 o2 : Octstr) (s1 s2 : list Z) :
  repr o1 s1 -> repr o2 s2 ->
  octstr_case_compare o1 o2 = Ok (strcmp (fold_case s1) (fold_case s2)).
Proof.
  intros H1 H2. unfold octstr_case_compare.
  rewrite (repr_seems_valid _ _ H1), (repr_seems_valid _ _ H2).
  rewrite (repr_len _ _ H1), (repr_len _ _ H2). simpl.
  set (len := if zlen s1 <? zlen s2 then zlen s1 else zlen s2).
  assert (len = Z.min (zlen s1) (zlen s2)) as Hl by (unfold len; wp_if; lia).
  pose proof (case_compare_loop_ok o1 o2 s1 s2 0 (Z.to_nat len) H1 H2) as L.
  rewrite !drop_0 in L. change (Z.of_nat 0) with 0 in L.
  wp_if.
  - rewrite (strcmp_by_length _ _ 0) by (unfold fold_case; list_lia).
    unfold fold_case. rewrite !take_0, !length_fmap. simpl.
    repeat wp_if; done || list_lia.
  - apply returns_iff in L as (stop & -> & ->); [|list_lia]. simpl.
    destruct stop as [[c1 c2]|]; repeat wp_if; done || list_lia.
Qed.

(** ** Search *)

(** The first position of [ch] at or after [pos], or -1. *)
Definition search_char (s : list Z) (ch pos : Z) : Z :=
  match list_find (fun x => x = ch) (drop (Z.to_nat pos) s) with
  | Some (i, _) => pos + Z.of_nat i
  | None => -1
  end.

Lemma octstr_search_char_ok (o : Octstr) (s : list Z) (ch pos : Z) :
  repr o s -> octet ch -> 0 <= pos ->
  octstr_search_char o ch pos = Ok (search_char s ch pos).
Proof.
  intros Ho Hc Hp. unfold octstr_search_char, search_char, octet in *.
  rewrite (repr_seems_valid _ _ Ho), (repr_len _ _ Ho). simpl.
  do 3 (apply bind_assert; [lia|]).
  destruct (Z.leb_spec (zlen s) pos).
  - by rewrite drop_ge by list_lia.
  - unfold mem_chr. rewrite (repr_readable o s) by (done || lia). simpl.
    destruct (repr_slice _ _ pos (zlen s - pos) Ho) as [-> _]; try lia.
    unfold slice. rewrite take_ge by list_lia.
    by destruct (list_find _ _) as [[i c]|].
Qed.

(** [first_at P pos r]: [r] is the first position from [pos] on where [P]
    holds, or -1 when there is none. *)
Definition first_at (P : Z -> Prop) (pos r : Z) : Prop :=
  (r = -1 /\ forall i, pos <= i -> ~ P i) \/
  (pos <= r /\ P r /\ forall i, pos <= i < r -> ~ P i).

(** Searching a string in parts. *)
Lemma search_char_at (ch : Z) (pre c rest : list Z) :
  Forall (fun x => x <> ch) c -> search_char (pre ++ c ++ ch :: rest) ch (zlen pre) = zlen pre + zlen c.
Proof.
  intros Hc. unfold search_char. rewrite drop_app_ge by list_lia.
  replace (Z.to_nat (zlen pre) - length pre)%nat with 0%nat by list_lia. rewrite drop_0.
  rewrite list_find_app_r by (apply list_find_None; exact Hc). cbn. rewrite decide_True by done. cbn.
  unfold zlen. lia.
Qed.

Lemma search_char_none (ch : Z) (pre rest : list Z) :
  Forall (fun x => x <> ch) rest -> search_char (pre ++ rest) ch (zlen pre) = -1.
Proof.
  intros Hc. unfold search_char. rewrite drop_app_ge by list_lia.
  replace (Z.to_nat (zlen pre) - length pre)%nat with 0%nat by list_lia. rewrite drop_0.
  by rewrite (proj2 (list_find_None _ _) Hc).
Qed.

Lemma search_char_first (s : list Z) (ch pos : Z) :
  0 <= pos -> first_at (fun i => s !! Z.to_nat i = Some ch) pos (search_char s ch pos).
Proof.
  intros Hp. unfold search_char.
  destruct (list_find _ _) as [[i c]|] eqn:E.
  - right. apply list_find_Some in E as (Hi & -> & Hb).
    rewrite lookup_drop in Hi. split; [lia|]. split.
    + rewrite <- Hi. f_equal. lia.
    + intros j Hj Hs. apply (Hb (Z.to_nat (j - pos)) ch); [|lia|done].
      rewrite lookup_drop, <- Hs. f_equal. lia.
  - left. split; [done|]. intros j Hj Hs. apply list_find_None in E.
    rewrite Forall_lookup in E. apply (E (Z.to_nat (j - pos)) ch); [|done].
    rewrite lookup_drop, <- Hs. f_equal. lia.
Qed.

Lemma first_at_ge (P : Z -> Prop) (pos r : Z) :
  first_at P pos r -> r = -1 \/ pos <= r.
Proof. unfold first_at. naive_solver. Qed.

(** Skipping positions where [P] does not hold. *)
Lemma first_at_skip (P : Z -> Prop) (pos pos' r : Z) :
  pos <= pos' -> (forall i, pos <= i < pos' -> ~ P i) ->
  first_at P pos' r -> first_at P pos r.
Proof.
  intros Hle Hno [[-> H]|(Hr & HP & H)]; [left|right].
  - split; [done|]. intros i Hi. destruct (decide (i < pos')); [apply Hno; lia|].
    apply H; lia.
  - split; [lia|]. split; [done|]. intros i Hi.
    destruct (decide (i < pos')); [apply Hno; lia|]. apply H; lia.
Qed.

(** [needle] occurs in [hay] at position [i]. *)
Definition occurs_at (hay needle : list Z) (i : Z) : Prop :=
  0 <= i /\ slice hay i (zlen needle) = needle.

Lemma lex_cmp_eq_0 (l k : list Z) :
  length l = length k -> (lex_cmp l k = 0 <-> l = k).
Proof.
  revert k. induction l as [|x l IH]; intros [|y k]; simpl; try done.
  intros [= Hl]. repeat wp_if; try (split; [lia|intros [=]; lia]).
  rewrite IH by done. assert (x = y) by lia. naive_solver.
Qed.

Lemma occurs_at_bound (hay needle : list Z) (i : Z) :
  needle <> [] -> occurs_at hay needle i -> i + zlen needle <= zlen hay.
Proof.
  intros Hn [Hi E]. apply (f_equal length) in E. unfold slice in E.
  destruct needle; [done|]. list_lia.
Qed.

Lemma occurs_at_first (hay needle : list Z) (c : Z) (i : Z) :
  needle !! 0%nat = Some c -> occurs_at hay needle i ->
  hay !! Z.to_nat i = Some c.
Proof.
  intros Hc [Hi E]. rewrite <- E in Hc. unfold slice in Hc.
  apply lookup_take_Some in Hc as [Hc _].
  by rewrite lookup_drop, Nat.add_0_r in Hc.
Qed.

Lemma search_loop_ok (oh on : Octstr) (h n : list Z) (first p0 pos : Z) (fuel : nat) :
  repr oh h -> repr on n -> n !! 0%nat = Some first ->
  0 <= p0 ->
  (pos = -1 \/ p0 <= pos /\ zlen h - pos + 1 <= Z.of_nat fuel) -> (0 < fuel)%nat ->
  (forall i, p0 <= i -> occurs_at h n i -> pos <> -1 /\ pos <= i) ->
  returns (search_loop oh on first pos fuel) (first_at (occurs_at h n) p0).
Proof.
  intros Hh Hn Hf Hp0. revert pos.
  assert (octet first) as Hoct.
  { pose proof (repr_octets _ _ Hn) as F. rewrite Forall_lookup in F. eauto. }
  assert (n <> []) as Hne by by destruct n.
  induction fuel as [|fuel IH]; intros pos Hfuel H0 Hno; simpl; [lia|].
  rewrite (repr_len _ _ Hh), (repr_len _ _ Hn). pose proof (zlen_nonneg n).
  destruct (Z.leb_spec 0 pos); simpl.
  2: { left. split; [done|]. intros i Hi Ho. apply Hno in Ho; lia. }
  destruct (Z.leb_spec (zlen n) (zlen h - pos)).
  2: { left. split; [done|]. intros i Hi Ho. pose proof (occurs_at_bound _ _ _ Hne Ho).
       apply Hno in Ho; lia. }
  rewrite (mem_cmp_repr oh on h n) by (done || lia). simpl.
  rewrite slice_all.
  destruct (Z.eqb_spec (lex_cmp (slice h pos (zlen n)) n) 0) as [E|E]; simpl.
  - apply lex_cmp_eq_0 in E; [|rewrite length_slice; list_lia].
    right. split; [lia|]. split; [done|]. intros i Hi Ho. apply Hno in Ho; lia.
  - rewrite (octstr_search_char_ok oh h) by (done || lia). simpl.
    pose proof (search_char_first h first (pos + 1) ltac:(lia)) as Hs.
    apply IH.
    + apply first_at_ge in Hs. lia.
    + destruct fuel; [|lia]. destruct n; [done|list_lia].
    + intros i Hi Ho. pose proof (occurs_at_first _ _ _ _ Hf Ho) as Hc.
      assert (pos < i) as Hlt.
      { destruct (Hno _ Hi Ho) as [_ Hle]. destruct (decide (pos = i)) as [->|]; [|lia].
        destruct E. apply lex_cmp_eq_0; [rewrite length_slice; list_lia|]. apply Ho. }
      destruct Hs as [[-> Hs]|(Hr & HP & Hs)].
      * destruct (Hs i); [lia|done].
      * split; [lia|]. destruct (decide (search_char h first (pos + 1) <= i)); [done|].
        destruct (Hs i); [lia|done].
Qed.

Lemma octstr_search_ok (oh on : Octstr) (h n : list Z) (pos : Z) :
  repr oh h -> repr on n -> n <> [] -> 0 <= pos ->
  returns (octstr_search oh on pos) (first_at (occurs_at h n) pos).
Proof.
  intros Hh Hn Hne Hp. unfold octstr_search. do 2 wp_valid. wp_assert.
  destruct n as [|c n]; [done|]. rewrite (repr_len _ _ Hh), (repr_len _ _ Hn).
  destruct (Z.eqb_spec (zlen (c :: n)) 0); [list_lia|].
  rewrite (rd_repr on (c :: n)) by (done || list_lia). bind_red.
  change (char_at (c :: n) 0) with c.
  assert (octet c) by (pose proof (repr_octets _ _ Hn) as F; by inversion F).
  pose proof (search_char_first h c pos Hp) as Hs.
  destruct (Z.eqb_spec (zlen (c :: n)) 1) as [E|E].
  - rewrite (octstr_search_char_ok oh h) by done. simpl.
    destruct n; [|list_lia]. revert Hs. unfold first_at.
    assert (forall i, 0 <= i -> h !! Z.to_nat i = Some c <-> occurs_at h [c] i) as Heq.
    { intros i Hi. unfold occurs_at, slice. change (Z.to_nat (zlen [c])) with 1%nat.
      split.
      - intros Hl. split; [done|]. by rewrite (drop_S _ _ _ Hl).
      - intros [_ Hl]. apply (f_equal (lookup 0%nat)) in Hl.
        rewrite lookup_take_lt, lookup_drop, Nat.add_0_r in Hl by lia. done. }
    intros [[-> Hs]|(Hr & HP & Hs)]; [left|right].
    + split; [done|]. intros i Hi Ho. apply (Hs i); [done|]. apply Heq; [lia|done].
    + split; [done|]. split; [apply Heq; [lia|done]|].
      intros i Hi Ho. apply (Hs i); [done|]. apply Heq; [lia|done].
  - rewrite (octstr_search_char_ok oh h) by done. simpl.
    apply (search_loop_ok _ _ h (c :: n)); try done; try lia.
    + apply first_at_ge in Hs. unfold zlen. lia.
    + intros i Hi Ho. pose proof (occurs_at_first h (c :: n) c i eq_refl Ho) as Hc.
      destruct Hs as [[-> Hs]|(Hr & HP & Hs)]; [by destruct (Hs i)|].
      split; [lia|]. destruct (decide (search_char h c pos <= i)); [done|].
      destruct (Hs i); [lia|done].
Qed.

(** The case-insensitive search. *)

Lemma case_match_loop_ok (oh on : Octstr) (h n : list Z) (i : Z) (j k : nat) :
  repr oh h -> repr on n -> 0 <= i -> i + zlen n <= zlen h ->
  (j + k = length n)%nat ->
  returns (case_match_loop (os_data oh) (os_data on) i (Z.of_nat j) k)
    (fun m => m = true <->
       take k (drop j (drop (Z.to_nat i) (fold_case h))) = drop j (fold_case n)).
Proof.
  intros Hh Hn Hi Hb. revert j. induction k as [|k IH]; intros j Hj; simpl.
  - rewrite take_0. split; [|done]. intros _. unfold fold_case.
    rewrite drop_ge; [done|list_lia].
  - rewrite (rd_repr oh h), (rd_repr on n) by (done || list_lia). simpl.
    destruct (lookup_lt_is_Some_2 h (Z.to_nat i + j)) as [x Hx]; [list_lia|].
    destruct (lookup_lt_is_Some_2 n j) as [y Hy]; [lia|].
    rewrite (char_at_lookup _ _ _ Hy).
    replace (i + Z.of_nat j) with (Z.of_nat (Z.to_nat i + j)) by lia.
    rewrite (char_at_lookup _ _ _ Hx). unfold fold_case in *.
    rewrite drop_drop, (drop_S (toupper <$> h) (toupper x)),
      (drop_S (toupper <$> n) (toupper y)) by (rewrite list_lookup_fmap; by simplify_option_eq).
    destruct (Z.eqb_spec (toupper x) (toupper y)) as [E|E]; simpl.
    + replace (Z.of_nat j + 1) with (Z.of_nat (S j)) by lia.
      eapply returns_mono; [apply IH; lia|]. intros m ->. rewrite drop_drop.
      rewrite Nat.add_succ_r, E. split; [by intros ->|by intros [= ->]].
    + split; [done|by intros [=]].
Qed.

Lemma case_search_loop_ok (oh on : Octstr) (h n : list Z) (pos : Z) (fuel : nat) :
  repr oh h -> repr on n -> n <> [] -> 0 <= pos ->
  zlen h - pos + 2 <= Z.of_nat fuel -> (0 < fuel)%nat ->
  returns (case_search_loop oh on pos fuel)
    (first_at (occurs_at (fold_case h) (fold_case n)) pos).
Proof.
  intros Hh Hn Hne. revert pos.
  assert (fold_case n <> []) as Hne' by by destruct n.
  induction fuel as [|fuel IH]; intros pos Hp Hf H0; simpl; [lia|].
  rewrite (repr_len _ _ Hh), (repr_len _ _ Hn).
  destruct (Z.leb_spec pos (zlen h - zlen n)).
  - apply returns_bind. eapply returns_mono.
    { apply (case_match_loop_ok oh on h n pos 0 (Z.to_nat (zlen n))); try done; list_lia. }
    intros m Hm. rewrite !drop_0 in Hm.
    assert (m = true <-> occurs_at (fold_case h) (fold_case n) pos) as Hm'.
    { rewrite Hm. unfold occurs_at, slice, zlen, fold_case. rewrite length_fmap.
      rewrite Nat2Z.id. naive_solver. }
    destruct m.
    + right. split; [lia|]. split; [by apply Hm'|lia].
    + eapply returns_mono; [apply (IH (pos + 1)); list_lia|].
      intros r. apply first_at_skip; [lia|]. intros i Hi.
      replace i with pos by lia. intros Ho. by apply Hm' in Ho.
  - left. split; [done|]. intros i Hi Ho.
    apply occurs_at_bound in Ho; [|done]. unfold fold_case in Ho. list_lia.
Qed.

Lemma octstr_case_search_ok (oh on : Octstr) (h n : list Z) (pos : Z) :
  repr oh h -> repr on n -> n <> [] -> 0 <= pos ->
  returns (octstr_case_search oh on pos)
    (first_at (occurs_at (fold_case h) (fold_case n)) pos).
Proof.
  intros Hh Hn Hne Hp. unfold octstr_case_search. do 2 wp_valid. wp_assert.
  rewrite (repr_len _ _ Hh), (repr_len _ _ Hn).
  destruct (Z.eqb_spec (zlen n) 0); [by destruct Hne; apply zlen_0_inv|].
  apply case_search_loop_ok; try done; list_lia.
Qed.

(** The backward search: the last position of [ch] at or before [pos]. *)
Lemma rsearch_char_loop_ok (o : Octstr) (s : list Z) (ch : Z) (n : nat) :
  repr o s -> (n <= length s)%nat ->
  returns (rsearch_char_loop (os_data o) ch n) (fun r =>
    (r = -1 /\ forall i, (i < n)%nat -> s !! i <> Some ch) \/
    (exists j, r = Z.of_nat j /\ (j < n)%nat /\ s !! j = Some ch /\
       forall i, (j < i < n)%nat -> s !! i <> Some ch)).
Proof.
  intros Ho. induction n as [|n IH]; intros Hn; simpl; [left; split; [done|lia]|].
  destruct (lookup_lt_is_Some_2 s n ltac:(lia)) as [c Hc].
  rewrite (rd_repr o s) by (done || list_lia). bind_red.
  rewrite (char_at_lookup s n c) by done.
  destruct (Z.eqb_spec c ch) as [->|Hne].
  - right. exists n. split_and!; [done|lia|done|lia].
  - apply (returns_mono _ _ _ (IH ltac:(lia))). intros r [[-> Hno]|(j & -> & Hj & Hs & Hno)].
    + left. split; [done|]. intros i Hi. destruct (decide (i = n)) as [->|]; [congruence|].
      apply Hno. lia.
    + right. exists j. split_and!; [done|lia|done|]. intros i Hi.
      destruct (decide (i = n)) as [->|]; [congruence|]. apply Hno. lia.
Qed.

(** ** Properties *)

(** [octstr_compare] is a total order on the contents: it never fails on
    consistent strings, reversing the arguments reverses the sign, it is 0
    exactly for equal contents, and "smaller" is transitive; a proper prefix is
    smaller. *)
Theorem octstr_compare_total_order (o1 o2 o3 : Octstr) (s1 s2 s3 : list Z) :
  repr o1 s1 -> repr o2 s2 -> repr o3 s3 ->
  exists c12 c21 c23 c13,
    octstr_compare o1 o2 = Ok c12 /\ octstr_compare o2 o1 = Ok c21 /\
    octstr_compare o2 o3 = Ok c23 /\ octstr_compare o1 o3 = Ok c13 /\
    c21 = - c12 /\ (c12 = 0 <-> s1 = s2) /\
    (c12 < 0 -> c23 < 0 -> c13 < 0) /\
    (forall k, s2 = s1 ++ k -> k <> [] -> c12 = -1).
Proof.
  intros H1 H2 H3.
  exists (strcmp s1 s2), (strcmp s2 s1), (strcmp s2 s3), (strcmp s1 s3).
  split_and!; [by apply octstr_compare_ok..|apply strcmp_opp|apply strcmp_eq_0|
    apply strcmp_trans|].
  intros k -> Hk. clear -Hk. induction s1 as [|x s IH]; simpl; [by destruct k|].
  by rewrite Z.ltb_irrefl.
Qed.

Lemma octstr_compare_total_order_witness :
  exists c12 c21 c23 c13,
    octstr_compare (mk_os [97]) (mk_os [97; 98]) = Ok c12 /\
    octstr_compare (mk_os [97; 98]) (mk_os [97]) = Ok c21 /\
    octstr_compare (mk_os [97; 98]) (mk_os [98]) = Ok c23 /\
    octstr_compare (mk_os [97]) (mk_os [98]) = Ok c13 /\
    c21 = - c12 /\ (c12 = 0 <-> [97] = [97; 98]) /\ (c12 < 0 -> c23 < 0 -> c13 < 0) /\
    (forall k, [97; 98] = [97] ++ k -> k <> [] -> c12 = -1).
Proof.
  apply (octstr_compare_total_order (mk_os [97]) (mk_os [97; 98]) (mk_os [98]) [97] [97; 98] [98]);
    mk_os.
Defined.

(** A search for a nonempty string, exact or without regard to case,
    terminates and returns the first position from [pos] on where the string
    occurs (with both sides upper-cased for the second), or -1 when it occurs
    nowhere from there on. *)
Theorem octstr_search_first (oh on : Octstr) (h n : list Z) (pos : Z) :
  repr oh h -> repr on n -> n <> [] -> 0 <= pos ->
  returns (octstr_search oh on pos) (first_at (occurs_at h n) pos) /\
  returns (octstr_case_search oh on pos)
    (first_at (occurs_at (fold_case h) (fold_case n)) pos).
Proof. intros. split; [by apply octstr_search_ok|by apply octstr_case_search_ok]. Qed.

Lemma octstr_search_first_witness :
  octstr_search (mk_os [97; 97; 98; 97; 98]) (mk_os [97; 98]) 2 = Ok 3 /\
  returns (octstr_search (mk_os [97; 97; 98; 97; 98]) (mk_os [97; 98]) 2)
    (first_at (occurs_at [97; 97; 98; 97; 98] [97; 98]) 2).
Proof.
  split; [vm_compute; reflexivity|].
  refine (proj1 (octstr_search_first (mk_os [97; 97; 98; 97; 98]) (mk_os [97; 98])
    [97; 97; 98; 97; 98] [97; 98] 2 _ _ _ _)); [mk_os..|done|done].
Defined.

(** A search for an octet backward from [pos] returns the last position at or
    before [pos] that holds it, or -1. *)
Theorem octstr_rsearch_char_last (o : Octstr) (s : list Z) (ch pos : Z) :
  repr o s -> octet ch -> 0 <= pos < zlen s ->
  returns (octstr_rsearch_char o ch pos) (fun r =>
    (r = -1 /\ forall i, 0 <= i <= pos -> char_at s i <> ch) \/
    (0 <= r <= pos /\ char_at s r = ch /\ forall i, r < i <= pos -> char_at s i <> ch)).
Proof.
  intros Ho Hc Hp. unfold octstr_rsearch_char, octet in *. wp_valid. do 3 wp_assert.
  rewrite (repr_len _ _ Ho). destruct (Z.leb_spec (zlen s) pos); [lia|].
  assert (forall i, 0 <= i < zlen s -> char_at s i = ch -> s !! Z.to_nat i = Some ch) as Hat.
  { intros i Hi <-. destruct (lookup_lt_is_Some_2 s (Z.to_nat i)) as [c Hs]; [list_lia|].
    rewrite Hs. f_equal. unfold char_at. rewrite Hs. by destruct (Z.leb_spec 0 i); [|lia]. }
  apply (returns_mono _ _ _ (rsearch_char_loop_ok o s ch (Z.to_nat (pos + 1)) Ho ltac:(list_lia))).
  intros r [[-> Hno]|(j & -> & Hj & Hs & Hno)]; [left|right].
  - split; [done|]. intros i Hi Hi'. apply (Hno (Z.to_nat i)); [lia|]. by apply Hat; [lia|].
  - split; [lia|]. split; [by apply char_at_lookup|].
    intros i Hi Hi'. apply (Hno (Z.to_nat i)); [lia|]. by apply Hat; [lia|].
Qed.

Lemma octstr_rsearch_char_last_witness :
  octstr_rsearch_char (mk_os [97; 98; 97; 98]) 97 3 = Ok 2 /\
  returns (octstr_rsearch_char (mk_os [97; 98; 97; 98]) 97 3) (fun r =>
    (r = -1 /\ forall i, 0 <= i <= 3 -> char_at [97; 98; 97; 98] i <> 97) \/
    (0 <= r <= 3 /\ char_at [97; 98; 97; 98] r = 97 /\
       forall i, r < i <= 3 -> char_at [97; 98; 97; 98] i <> 97)).
Proof.
  split; [vm_compute; reflexivity|].
  apply (octstr_rsearch_char_last (mk_os [97; 98; 97; 98]) [97; 98; 97; 98] 97 3);
    [mk_os|unfold octet; lia|vm_compute; split; congruence].
Defined.

(** [octstr_ncompare] of two strings of the same length below [n] reads past
    the end: with blocks that just fit, any [n] over the length and the NUL is
    an access outside the block, although the strings could be compared. *)
Theorem octstr_ncompare_overread (s1 s2 : list Z) (n : Z) :
  octets s1 -> octets s2 -> zlen s1 = zlen s2 -> zlen s1 + 1 < n ->
  octstr_ncompare (mk_os s1) (mk_os s2) n = Undef.
Proof.
  intros H1 H2 Hl Hn. unfold octstr_ncompare. pose proof (zlen_nonneg s1).
  rewrite (repr_seems_valid (mk_os s1) s1), (repr_seems_valid (mk_os s2) s2) by (by apply mk_os_ok). bind_red. simpl.
  rewrite Hl, Z.ltb_irrefl. simpl. destruct (Z.eqb_spec n 0); [lia|].
  unfold mem_cmp, readable, in_block.
  destruct (Z.leb_spec (0 + n) (zlen (s1 ++ [0]))); [list_lia|]. by rewrite andb_false_r.
Qed.

Lemma octstr_ncompare_overread_witness :
  octstr_ncompare (mk_os [97]) (mk_os [97]) 3 = Undef.
Proof.
  apply (octstr_ncompare_overread [97] [97] 3);
    [repeat constructor; unfold octet; lia..|done|vm_compute; reflexivity].
Defined.
