(* ===== verification/OctstrCode.v ===== *)
(** * Octet strings: in-place encodings

    Models the hexadecimal, URL and shell encodings and the uintvar coding of
    src/gwlib/octstr.c.  The conversions work inside the allocated block, as the
    source does: [octstr_binary_to_hex] back to front, [octstr_hex_to_binary]
    and [octstr_url_decode] front to back.  Each is shown to compute a reference
    function of the contents and to stay inside the block, and the decoders are
    shown to invert the encoders. *)

From S2P Require Import Prelude Octstr OctstrSearch.

(** ** Ranges of octets *)

Fixpoint check_range_loop (d : block) (filter : Z -> bool) (pos : Z) (n : nat)
  : res bool :=
  match n with
  | O => Ok true
  | S n =>
      c ← rd d pos;
      if filter c then check_range_loop d filter (pos + 1) n else Ok false
  end.

Definition octstr_check_range (o : Octstr) (pos len : Z) (filter : Z -> bool)
  : res bool :=
  end_ ← add_long (os_len o) pos len;
  seems_valid o ≫= fun _ =>
  assert: 0 <=? len;
  if os_len o <=? pos then Ok true
  else
    let end_ := if os_len o <? end_ then os_len o else end_ in
    check_range_loop (os_data o) filter pos (Z.to_nat (end_ - pos)).

Fixpoint convert_range_loop (d : block) (map : Z -> Z) (pos : Z) (n : nat)
  : res (list Z) :=
  match n with
  | O => Ok d
  | S n =>
      c ← rd d pos;
      d ← wr d pos (map c);
      convert_range_loop d map (pos + 1) n
  end.

Definition octstr_convert_range (o : Octstr) (pos len : Z) (map : Z -> Z)
  : res Octstr :=
  end_ ← add_long (os_len o) pos len;
  seems_valid o ≫= fun _ =>
  assert: negb (os_immutable o);
  assert: 0 <=? len;
  if os_len o <=? pos then Ok o
  else
    let end_ := if os_len o <? end_ then os_len o else end_ in
    d ← convert_range_loop (os_data o) map pos (Z.to_nat (end_ - pos));
    let o := set_data o d in
    seems_valid o ≫= fun _ => Ok o.

(** [make_printable]. *)
Definition make_printable (c : Z) : Z := if isprint c then c else 46.

Definition octstr_convert_printable (o : Octstr) : res Octstr :=
  octstr_convert_range o 0 (os_len o) make_printable.

(** ** Hexadecimal *)

(** The string literals ["0123456789ABCDEF"] and ["0123456789abcdef"]. *)
Definition hexits (uppercase : bool) : list Z :=
  [48; 49; 50; 51; 52; 53; 54; 55; 56; 57] ++
  (if uppercase then [65; 66; 67; 68; 69; 70] else [97; 98; 99; 100; 101; 102]).

(** The loop of [octstr_binary_to_hex], at [i] = [n] - 1. *)
Fixpoint binary_to_hex_loop (hex : list Z) (d : block) (n : nat) : res (list Z) :=
  match n with
  | O => Ok d
  | S m =>
      let i := Z.of_nat m in
      let tmp := Z.shiftl i 1 in
      c ← rd d i;
      h ← rd hex (Z.land c 15);
      d ← wr d (tmp + 1) h;
      c ← rd d i;
      h ← rd hex (Z.shiftr c 4);
      d ← wr d tmp h;
      binary_to_hex_loop hex d m
  end.

Definition octstr_binary_to_hex (o : Octstr) (uppercase : bool) : res Octstr :=
  seems_valid o ≫= fun _ =>
  assert: negb (os_immutable o);
  if os_len o =? 0 then Ok o
  else
    o ← octstr_grow o (os_len o * 2);
    d ← binary_to_hex_loop (hexits uppercase) (os_data o) (Z.to_nat (os_len o));
    let len := os_len o * 2 in
    d ← wr d len 0;
    let o := set_len (set_data o d) len in
    seems_valid o ≫= fun _ => Ok o.

(** The two loops of [octstr_hex_to_binary]. *)
Fixpoint hex_digits_loop (d : block) (i : Z) (n : nat) : res (list Z) :=
  match n with
  | O => Ok d
  | S n =>
      p ← rd d i;
      v ← (if (48 <=? p) && (p <=? 57) then Ok (p - 48)
           else if (97 <=? p) && (p <=? 102) then Ok (p - 97 + 10)
           else if (65 <=? p) && (p <=? 70) then Ok (p - 65 + 10)
           else Panic);
      d ← wr d i v;
      hex_digits_loop d (i + 1) n
  end.

Fixpoint hex_pairs_loop (d : block) (i : Z) (n : nat) : res (list Z) :=
  match n with
  | O => Ok d
  | S n =>
      a ← rd d (i * 2);
      b ← rd d (i * 2 + 1);
      d ← wr d i (Z.lor (a * 16) b);
      hex_pairs_loop d (i + 1) n
  end.

Definition octstr_hex_to_binary (o : Octstr) : res (Z * Octstr) :=
  seems_valid o ≫= fun _ =>
  assert: negb (os_immutable o);
  if os_len o =? 0 then Ok (0, o)
  else
    ok ← octstr_check_range o 0 (os_len o) isxdigit;
    if negb ok then Ok (-1, o)
    else
      d ← hex_digits_loop (os_data o) 0 (Z.to_nat (os_len o));
      let len := os_len o / 2 in
      d ← hex_pairs_loop d 0 (Z.to_nat len);
      d ← wr d len 0;
      let o := set_len (set_data o d) len in
      seems_valid o ≫= fun _ => Ok (0, o).

(** [octstr_append_from_hex]; [hex] is a C string without its NUL. *)
Definition octstr_append_from_hex (o : Octstr) (hex : list Z) : res Octstr :=
  seems_valid o ≫= fun _ =>
  assert: negb (os_immutable o);
  output ← octstr_create hex;
  r ← octstr_hex_to_binary output;
  octstr_append o (Some r.2).

(** ** URL encoding *)

(** The characters [urlcode_init] marks in the [is_safe] table. *)
Definition is_safe (c : Z) : bool :=
  (c =? 32) || isupper c || islower c || isdigit c ||
  (c =? 45) || (c =? 95) || (c =? 46) || (c =? 126).

(** The counting loop: [(n, all_safe)]. *)
Fixpoint url_encode_count (d : block) (i : Z) (todo : nat) (n : Z) (all_safe : bool)
  : res (Z * bool) :=
  match todo with
  | O => Ok (n, all_safe)
  | S todo =>
      c ← rd d i;
      if c =? 32 then url_encode_count d (i + 1) todo n false
      else if negb (is_safe c) then url_encode_count d (i + 1) todo (n + 1) false
      else url_encode_count d (i + 1) todo n all_safe
  end.

(** The writing loop: reads index [i] of [src], writes [res] at [j].  When the
    replacement is in place, [src] is [res] itself. *)
Fixpoint url_encode_loop (in_place : bool) (src res : block) (i j : Z) (todo : nat)
  : Prelude.res (list Z * Z) :=
  match todo with
  | O => Ok (res, j)
  | S todo =>
      c ← rd (if in_place then res else src) i;
      if c =? 32 then
        res ← wr res j 43;
        url_encode_loop in_place src res (i + 1) (j + 1) todo
      else if negb (is_safe c) then
        res ← wr res j 37;
        h ← rd (hexits true) (Z.land (Z.shiftr c 4) 15);
        res ← wr res (j + 1) h;
        h ← rd (hexits true) (Z.land c 15);
        res ← wr res (j + 2) h;
        url_encode_loop in_place src res (i + 1) (j + 3) todo
      else
        res ← wr res j c;
        url_encode_loop in_place src res (i + 1) (j + 1) todo
  end.

Definition octstr_url_encode (o : option Octstr) : res (option Octstr) :=
  match o with
  | None => Ok None
  | Some o =>
      seems_valid o ≫= fun _ =>
      assert: negb (os_immutable o);
      if os_len o =? 0 then Ok (Some o)
      else
        '(n, all_safe) ← url_encode_count (os_data o) 0 (Z.to_nat (os_len o)) 0 true;
        if all_safe : bool then Ok (Some o)
        else
          let len := os_len o + 2 * n + 1 in
          let in_place := n =? 0 in
          let res := if in_place then os_data o else gw_malloc len in
          '(res, j) ← url_encode_loop in_place (os_data o) res 0 0
                        (Z.to_nat (os_len o));
          res ← wr res j 0;
          let o := if in_place then set_data o res
                   else mkOctstr res (len - 1) len (os_immutable o) in
          seems_valid o ≫= fun _ => Ok (Some o)
  end.

(** The macro [H2B]. *)
Definition H2B (a : Z) : Z :=
  if (48 <=? a) && (a <=? 57) then a - 48
  else if (97 <=? a) && (a <=? 102) then a - 97 + 10
  else if (65 <=? a) && (a <=? 70) then a - 65 + 10 else -1.

(** The do-while loop of [octstr_url_decode]: [si] and [di] are
    the indices of [string] and [dptr]. *)
Fixpoint url_decode_loop (d : block) (si di ret : Z) (fuel : nat)
  : res (list Z * Z * Z) :=
  match fuel with
  | O => Undef
  | S fuel =>
      let loop d si di ret :=
        c ← rd d si;
        if c =? 0 then Ok (d, di, ret) else url_decode_loop d si di ret fuel in
      c ← rd d si;
      if c =? 37 then
        c1 ← rd d (si + 1);
        c2 ← (if c1 =? 0 then Ok 0 else rd d (si + 2));
        if (c1 =? 0) || (c2 =? 0) then Ok (d, di, -1)
        else
          let code := H2B c1 in
          let code2 := H2B c2 in
          if (code =? -1) || (code2 =? -1) then
            d ← wr d di c;
            c ← rd d (si + 1);
            d ← wr d (di + 1) c;
            c ← rd d (si + 2);
            d ← wr d (di + 2) c;
            loop d (si + 3) (di + 3) (-1)
          else
            d ← wr d di (Z.lor (Z.shiftl code 4) code2);
            loop d (si + 3) (di + 1) ret
      else if c =? 43 then
        d ← wr d di 32;
        loop d (si + 1) (di + 1) ret
      else
        d ← wr d di c;
        loop d (si + 1) (di + 1) ret
  end.

Definition octstr_url_decode (o : option Octstr) : res (Z * option Octstr) :=
  match o with
  | None => Ok (0, None)
  | Some o =>
      seems_valid o ≫= fun _ =>
      assert: negb (os_immutable o);
      if os_len o =? 0 then Ok (0, Some o)
      else
        '(d, di, ret) ← url_decode_loop (os_data o) 0 0 0 (Z.to_nat (os_len o) + 1);
        d ← wr d di 0;
        let o := set_len (set_data o d) di in
        seems_valid o ≫= fun _ => Ok (ret, Some o)
  end.

(** ** Shell quoting *)

Fixpoint count_quotes (d : block) (i : Z) (todo : nat) (n : Z) : res Z :=
  match todo with
  | O => Ok n
  | S todo =>
      c ← rd d i;
      count_quotes d (i + 1) todo (if c =? 39 then n + 1 else n)
  end.

Fixpoint shell_escape_loop (src res : block) (i j : Z) (todo : nat)
  : Prelude.res (list Z * Z) :=
  match todo with
  | O => Ok (res, j)
  | S todo =>
      c ← rd src i;
      if c =? 39 then
        res ← wr res j 39;
        res ← wr res (j + 1) 92;
        res ← wr res (j + 2) 39;
        res ← wr res (j + 3) 39;
        shell_escape_loop src res (i + 1) (j + 4) todo
      else
        res ← wr res j c;
        shell_escape_loop src res (i + 1) (j + 1) todo
  end.

Definition octstr_shell_escape (o : option Octstr) : res (option Octstr) :=
  match o with
  | None => Ok None
  | Some o =>
      seems_valid o ≫= fun _ =>
      assert: negb (os_immutable o);
      if os_len o =? 0 then
        o ← octstr_insert_data o 0 [39; 39] 2;
        Ok (Some o)
      else
        n ← count_quotes (os_data o) 0 (Z.to_nat (os_len o)) 0;
        let len := os_len o + 2 + 3 * n + 1 in
        let res := gw_malloc len in
        res ← wr res 0 39;
        '(res, j) ← shell_escape_loop (os_data o) res 0 1 (Z.to_nat (os_len o));
        res ← wr res j 39;
        res ← wr res (j + 1) 0;
        let o := mkOctstr res (len - 1) len (os_immutable o) in
        seems_valid o ≫= fun _ => Ok (Some o)
  end.

(** ** Digits *)

Definition hexdig (up : bool) (n : Z) : Z :=
  default 0 (hexits up !! Z.to_nat n).

(** A property of all octets, checked on each of them. *)
Lemma octet_ind (P : Z -> Prop) `{forall c, Decision (P c)} :
  forallb (fun c => bool_decide (P c)) (seqZ 0 256) = true ->
  forall c, octet c -> P c.
Proof.
  intros Hall c Hc. apply Is_true_true in Hall. apply forallb_True in Hall.
  rewrite Forall_forall in Hall. eapply bool_decide_unpack, Hall.
  apply list_elem_of_In, elem_of_seqZ. unfold octet in Hc. lia.
Qed.

Definition hexdig_good (up : bool) (n : Z) : Prop :=
  0 <= n < 16 ->
  rd (hexits up) n = Ok (hexdig up n) /\ H2B (hexdig up n) = n /\
  isxdigit (hexdig up n) = true /\ octet (hexdig up n) /\
  hexdig up n <> 0 /\ hexdig up n <> 37 /\ hexdig up n <> 43.

#[local] Instance res_eq_dec {A} `{EqDecision A} : EqDecision (res A).
Proof. solve_decision. Defined.

#[local] Instance hexdig_good_dec up n : Decision (hexdig_good up n).
Proof. unfold hexdig_good. apply _. Defined.

Lemma hexdig_ok (up : bool) (n : Z) : hexdig_good up n.
Proof.
  destruct (decide (octet n)) as [Hn|Hn].
  - revert n Hn. apply (octet_ind _). destruct up; vm_compute; reflexivity.
  - intros ?. unfold octet in Hn. lia.
Qed.

Lemma H2B_isxdigit (c : Z) : isxdigit c = true <-> H2B c <> -1.
Proof. unfold isxdigit, H2B, isdigit. repeat wp_if; lia. Qed.

Lemma H2B_range (c : Z) : H2B c <> -1 -> 0 <= H2B c < 16.
Proof. unfold H2B. repeat wp_if; lia. Qed.

(** An octet from its two halves. *)
Lemma nibbles (c : Z) :
  octet c -> 0 <= Z.shiftr c 4 < 16 /\ 0 <= Z.land c 15 < 16 /\
  Z.lor (Z.shiftr c 4 * 16) (Z.land c 15) = c /\
  Z.land (Z.shiftr c 4) 15 = Z.shiftr c 4.
Proof. revert c. apply (octet_ind _). vm_compute. reflexivity. Qed.

(** ** Loops over a range *)

Lemma check_range_loop_ok (o : Octstr) (s : list Z) (f : Z -> bool) (i n : nat) :
  repr o s -> (i + n <= length s)%nat ->
  returns (check_range_loop (os_data o) f (Z.of_nat i) n)
    (fun r => r = forallb f (take n (drop i s))).
Proof.
  intros Ho. revert i. induction n as [|n IH]; intros i Hi; simpl.
  - done.
  - rewrite (rd_repr o s) by (done || list_lia). simpl.
    destruct (lookup_lt_is_Some_2 s i) as [x Hx]; [lia|].
    rewrite (char_at_lookup _ _ _ Hx), (drop_S _ _ _ Hx). simpl.
    destruct (f x); [|done].
    replace (Z.of_nat i + 1) with (Z.of_nat (S i)) by lia. apply IH. lia.
Qed.

Lemma octstr_check_range_ok (o : Octstr) (s : list Z) (pos len : Z) (f : Z -> bool) :
  repr o s -> 0 <= pos -> 0 <= len -> pos + len <= zlen s ->
  returns (octstr_check_range o pos len f)
    (fun r => r = forallb f (slice s pos len)).
Proof.
  intros Ho Hp Hl Hpl. unfold octstr_check_range. rewrite (repr_len _ _ Ho), add_long_ok by long_lia. bind_red. wp_valid. wp_assert.
  destruct (Z.leb_spec (zlen s) pos); [by rewrite slice_ge by lia|].
  set (e := if zlen s <? pos + len then zlen s else pos + len).
  rewrite <- (Z2Nat.id pos) at 1 by lia.
  eapply returns_mono; [apply (check_range_loop_ok o s); [done|]|].
  - unfold e. wp_if; list_lia.
  - intros r ->. f_equal. unfold slice, e. wp_if.
    + rewrite !take_ge by list_lia. done.
    + f_equal. lia.
Qed.

(** ** Hexadecimal: what the loops compute *)

Definition hex_encode (up : bool) (s : list Z) : list Z :=
  c ← s; [hexdig up (Z.shiftr c 4); hexdig up (Z.land c 15)].

Lemma hex_encode_app (up : bool) (s k : list Z) :
  hex_encode up (s ++ k) = hex_encode up s ++ hex_encode up k.
Proof. unfold hex_encode. apply bind_app. Qed.

Lemma length_hex_encode (up : bool) (s : list Z) :
  length (hex_encode up s) = (length s * 2)%nat.
Proof. induction s; simpl in *; lia. Qed.

(** Two adjacent stores, the later one first. *)
Lemma insert_pair {A} (d : list A) (i : nat) (x y : A) :
  (i + 1 < length d)%nat ->
  <[i:=x]> (<[(i + 1)%nat:=y]> d) = take i d ++ x :: y :: drop (i + 2) d.
Proof.
  intros Hi. rewrite <- (take_drop i d) at 1.
  destruct (drop i d) as [|a [|b r]] eqn:E;
    [apply (f_equal length) in E; list_lia..|].
  rewrite insert_app_r_alt, insert_app_r_alt by list_lia.
  replace (i - length (take i d))%nat with 0%nat by list_lia.
  replace (i + 1 - length (take i d))%nat with 1%nat by list_lia. simpl.
  do 3 f_equal. rewrite <- (drop_drop d). by rewrite E.
Qed.

Lemma binary_to_hex_loop_ok (up : bool) (d s : list Z) :
  octets s -> take (length s) d = s -> (length s * 2 <= length d)%nat ->
  binary_to_hex_loop (hexits up) d (length s)
  = Ok (hex_encode up s ++ drop (length s * 2) d).
Proof.
  intros Hs. revert d. induction s as [|c s IH] using rev_ind; intros d Ht Hl.
  { done. }
  rewrite Forall_app in Hs. destruct Hs as [Hs Hc]. inversion Hc as [|? ? Hc' _]; subst.
  rewrite length_app in *. simpl in *. rewrite Nat.add_1_r in *. cbn [binary_to_hex_loop].
  destruct (nibbles c Hc') as (Hh & Hlo & _ & _).
  destruct (hexdig_ok up _ Hh) as (Eh & _ & _ & Oh & _).
  destruct (hexdig_ok up _ Hlo) as (El & _ & _ & Ol & _).
  assert (d !! length s = Some c) as Hd.
  { rewrite <- (lookup_take_lt d (S (length s))) by lia. rewrite Ht.
    rewrite lookup_app_r, Nat.sub_diag by lia. done. }
  assert (0 <= c) as Hpos by (unfold octet in Hc'; lia).
  assert (rd d (Z.of_nat (length s)) = Ok c) as ->.
  { apply rd_ok. rewrite Nat2Z.id. split; [lia|done]. }
  bind_red. rewrite El. bind_red.
  rewrite Z.shiftl_mul_pow2 by lia. change (2 ^ 1) with 2.
  rewrite wr_ok by list_lia. bind_red.
  rewrite (octet_mod_small _ Ol).
  set (d1 := <[Z.to_nat (Z.of_nat (length s) * 2 + 1) := hexdig up (Z.land c 15)]> d).
  assert (rd d1 (Z.of_nat (length s)) = Ok c) as ->.
  { apply rd_ok. rewrite Nat2Z.id. split; [lia|]. split; [|done].
    unfold d1. by rewrite list_lookup_insert_ne by lia. }
  bind_red. rewrite Eh. bind_red.
  rewrite wr_ok by (unfold d1; list_lia). bind_red.
  rewrite (octet_mod_small _ Oh). unfold d1.
  replace (Z.to_nat (Z.of_nat (length s) * 2)) with (length s * 2)%nat by lia.
  replace (Z.to_nat (Z.of_nat (length s) * 2 + 1)) with (length s * 2 + 1)%nat by lia.
  rewrite insert_pair by lia. rewrite IH.
  - rewrite hex_encode_app, <- app_assoc. f_equal.
    rewrite drop_app_ge by list_lia.
    replace (_ - _)%nat with 0%nat by list_lia. rewrite drop_0. simpl.
    do 3 f_equal. f_equal. lia.
  - done.
  - rewrite take_app_le by list_lia. rewrite take_take.
    replace (_ `min` _)%nat with (length s) by lia.
    apply (f_equal (take (length s))) in Ht. rewrite take_take in Ht.
    rewrite take_app_length in Ht. etransitivity; [|exact Ht]. f_equal. lia.
  - list_lia.
Qed.

Lemma octstr_binary_to_hex_ok (o : Octstr) (s : list Z) (up : bool) :
  reprm o s ->
  returns (octstr_binary_to_hex o up) (fun o' => reprm o' (hex_encode up s)).
Proof.
  intros Ho. destruct (Ho) as [Hr Hm]. unfold octstr_binary_to_hex. wp_valid.
  rewrite Hm. simpl. rewrite (repr_len _ _ Hr).
  destruct (Z.eqb_spec (zlen s) 0) as [E|E].
  { apply zlen_0_inv in E. by subst s. }
  apply returns_bind.
  eapply returns_mono; [apply (octstr_grow_ok o s); [done|list_lia]|].
  intros o' (rest & Hd & Hl & Hsz & Him & Hroom).
  rewrite (repr_len _ _ Hr) in Hl. rewrite Hl.
  assert (take (length s) (os_data o') = s) as Ht.
  { rewrite Hd. destruct Hr; [done|]. simpl. by rewrite <- app_assoc, take_app_length. }
  replace (Z.to_nat (zlen s)) with (length s) by list_lia.
  rewrite (binary_to_hex_loop_ok up _ s); [|by apply (repr_octets o)|done|list_lia].
  pose proof (length_hex_encode up s) as Hle. bind_red.
  apply returns_wr; [list_lia|].
  rewrite insert_app_r_alt by list_lia. rewrite insert_drop_head by list_lia.
  assert (octets (hex_encode up s)) as Hoct.
  { unfold hex_encode. apply Forall_bind. pose proof (repr_octets _ _ Hr) as Hs. revert Hs.
    apply Forall_impl. intros c Hc. destruct (nibbles c Hc) as (Hh & Hlo & _).
    destruct (hexdig_ok up _ Hh) as (_ & _ & _ & ? & _).
    destruct (hexdig_ok up _ Hlo) as (_ & _ & _ & ? & _).
    by apply Forall_cons_2, Forall_cons_2, Forall_nil_2. }
  unfold set_len, set_data. simpl. rewrite Him, Hsz. rewrite Z.mod_0_l by lia.
  assert (reprm (mkOctstr (hex_encode up s ++ 0 :: drop (S (length s * 2)) (os_data o'))
     (zlen s * 2) (zlen (os_data o')) false) (hex_encode up s)).
  { eapply repr_intro; [done..|list_lia|list_lia]. }
  by eapply returns_seems_valid_mk.
Qed.

(** Pairs of half-octets, as the second loop of the decoder joins them. *)
Fixpoint join_nibbles (l : list Z) : list Z :=
  match l with
  | a :: b :: l => Z.lor (a * 16) b :: join_nibbles l
  | _ => []
  end.

Lemma join_octet (a b : Z) : 0 <= a < 16 -> 0 <= b < 16 -> octet (Z.lor (a * 16) b).
Proof.
  intros Ha Hb.
  assert (forall a, octet a -> a < 16 -> forall b, octet b -> b < 16 ->
            octet (Z.lor (a * 16) b)) as F.
  { intros a' Ha' Ha16.
    apply (octet_ind (fun b => b < 16 -> octet (Z.lor (a' * 16) b))).
    revert a' Ha' Ha16.
    apply (octet_ind (fun a => a < 16 -> forallb (fun b =>
      bool_decide (b < 16 -> octet (Z.lor (a * 16) b))) (seqZ 0 256) = true)).
    vm_compute. reflexivity. }
  apply F; unfold octet; lia.
Qed.

Lemma rd_lookup (d : block) (i : Z) (c : Z) :
  0 <= i -> d !! Z.to_nat i = Some c -> 0 <= c -> rd d i = Ok c.
Proof. intros. by apply rd_ok. Qed.

Lemma lookup_drop_cons {A} (d : list A) (i : nat) (c : A) (r : list A) :
  drop i d = c :: r -> d !! i = Some c.
Proof. intros E. by rewrite <- (Nat.add_0_r i), <- lookup_drop, E. Qed.

Lemma drop_cons_S {A} (d : list A) (i : nat) (c : A) (r : list A) :
  drop i d = c :: r -> drop (S i) d = r.
Proof.
  intros E. rewrite <- Nat.add_1_r, <- drop_drop, E. done.
Qed.

Lemma hex_digits_loop_ok (s rest d : list Z) (i : nat) :
  octets s -> forallb isxdigit s = true -> drop i d = s ++ rest ->
  hex_digits_loop d (Z.of_nat i) (length s)
  = Ok (take i d ++ (H2B <$> s) ++ rest).
Proof.
  revert i d. induction s as [|c s IH]; intros i d Hs Hx Hd; simpl.
  { f_equal. simpl in Hd. rewrite <- Hd. symmetry. apply take_drop. }
  inversion_clear Hs as [|? ? Hc Hs']. simpl in Hx. apply andb_prop in Hx as [Hxc Hx].
  simpl in Hd. pose proof (lookup_drop_cons _ _ _ _ Hd) as Hl.
  unfold octet in Hc. rewrite (rd_lookup _ _ c) by (rewrite ?Nat2Z.id; done || lia).
  bind_red. apply H2B_isxdigit in Hxc. pose proof (H2B_range _ Hxc) as Hrg.
  assert (i < length d)%nat by (by eapply lookup_lt_Some).
  match goal with |- ?m ≫= _ = _ => assert (m = Ok (H2B c)) as -> end.
  { unfold H2B in *. repeat wp_if; done. }
  bind_red. rewrite wr_ok by list_lia. bind_red. rewrite Nat2Z.id.
  rewrite Z.mod_small by lia.
  replace (Z.of_nat i + 1) with (Z.of_nat (S i)) by lia.
  rewrite IH by (try done; rewrite drop_insert_lt by lia; by eapply drop_cons_S).
  rewrite (take_S_r _ _ (H2B c)) by by apply list_lookup_insert_eq.
  rewrite take_insert_ge by lia. by rewrite <- app_assoc.
Qed.

Lemma hex_pairs_loop_ok (nib rest d : list Z) (i n : nat) :
  Forall (fun a => 0 <= a < 16) nib -> length nib = (n * 2)%nat ->
  drop (i * 2) d = nib ++ rest ->
  hex_pairs_loop d (Z.of_nat i) n
  = Ok (take i d ++ join_nibbles nib ++ drop (i + n) d).
Proof.
  revert i d nib. induction n as [|n IH]; intros i d nib Hn Hl Hd.
  { destruct nib; [|done]. simpl. by rewrite Nat.add_0_r, take_drop. }
  destruct nib as [|a [|b nib]]; [done..|].
  inversion_clear Hn as [|? ? Ha Hn']. inversion_clear Hn' as [|? ? Hb Hn].
  simpl in *.
  pose proof (lookup_drop_cons _ _ _ _ Hd) as Ea.
  apply drop_cons_S in Hd as Hd1. pose proof (lookup_drop_cons _ _ _ _ Hd1) as Eb.
  apply drop_cons_S in Hd1 as Hd2.
  replace (i * 2)%nat with (Z.to_nat (Z.of_nat i * 2)) in Ea by lia.
  replace (S (i * 2)) with (Z.to_nat (Z.of_nat i * 2 + 1)) in Eb by lia.
  rewrite (rd_lookup d (Z.of_nat i * 2) a) by (done || lia). bind_red.
  rewrite (rd_lookup d (Z.of_nat i * 2 + 1) b) by (done || lia). bind_red.
  assert (S (i * 2) < length d)%nat by (apply lookup_lt_Some in Eb; lia).
  rewrite wr_ok by list_lia. bind_red. rewrite Nat2Z.id.
  pose proof (join_octet a b Ha Hb) as Hr. unfold octet in Hr.
  rewrite Z.mod_small by lia.
  replace (Z.of_nat i + 1) with (Z.of_nat (S i)) by lia.
  rewrite (IH (S i) _ nib) by (try done; try lia;
    rewrite drop_insert_lt by lia; by replace (S i * 2)%nat with (S (S (i * 2))) by lia).
  rewrite (take_S_r _ _ (Z.lor (a * 16) b)) by (apply list_lookup_insert_eq; lia).
  rewrite take_insert_ge, drop_insert_lt by lia.
  rewrite <- app_assoc. simpl. by rewrite Nat.add_succ_r.
Qed.

(** What the decoder computes of a string of hexadecimal digits; an odd last
    digit is dropped. *)
Definition hex_decode (s : list Z) : list Z := join_nibbles (H2B <$> s).

Lemma join_nibbles_take (l : list Z) (n : nat) :
  n = (length l / 2)%nat -> join_nibbles (take (n * 2) l) = join_nibbles l.
Proof.
  intros ->. revert l. fix IH 1. intros [|a [|b l]]; [done..|].
  assert (length (a :: b :: l) / 2 = S (length l / 2))%nat as ->.
  { simpl length. change (S (S (length l))) with (2 + length l)%nat.
    rewrite Nat.add_comm. change (length l + 2)%nat with (length l + 1 * 2)%nat.
    rewrite Nat.div_add by lia. lia. }
  simpl. f_equal. apply IH.
Qed.

Lemma length_join_nibbles (l : list Z) : length (join_nibbles l) = (length l / 2)%nat.
Proof.
  revert l. fix IH 1. intros [|a [|b l]]; [done..|]. simpl length. rewrite IH.
  change (S (S (length l))) with (2 + length l)%nat.
  rewrite Nat.add_comm. change (length l + 2)%nat with (length l + 1 * 2)%nat.
  rewrite Nat.div_add by lia. lia.
Qed.

Lemma octets_join_nibbles (l : list Z) :
  Forall (fun a => 0 <= a < 16) l -> octets (join_nibbles l).
Proof.
  revert l. fix IH 1. intros [|a [|b l]] H; [constructor..|].
  inversion_clear H as [|? ? Ha H']. inversion_clear H' as [|? ? Hb H].
  apply Forall_cons_2; [by apply join_octet|by apply IH].
Qed.

Lemma hex_values_range (s : list Z) :
  forallb isxdigit s = true -> Forall (fun a => 0 <= a < 16) (H2B <$> s).
Proof.
  induction s as [|c s IH]; simpl; [constructor|].
  intros [Hc Hs]%andb_prop. apply Forall_cons_2; [|by apply IH].
  by apply H2B_range, H2B_isxdigit.
Qed.

Lemma octstr_hex_to_binary_ok (o : Octstr) (s : list Z) :
  reprm o s ->
  returns (octstr_hex_to_binary o) (fun '(r, o') =>
    if forallb isxdigit s then r = 0 /\ reprm o' (hex_decode s)
    else r = -1 /\ o' = o).
Proof.
  intros Ho. destruct (Ho) as [Hr Hm]. unfold octstr_hex_to_binary. wp_valid.
  rewrite Hm. simpl. rewrite (repr_len _ _ Hr).
  destruct (Z.eqb_spec (zlen s) 0) as [E|E].
  { apply zlen_0_inv in E. by subst s. }
  apply returns_bind.
  eapply returns_mono; [apply (octstr_check_range_ok o s); done || list_lia|].
  intros ok ->. rewrite slice_all.
  destruct (forallb isxdigit s) eqn:Hx; simpl; [|done].
  destruct Hr as [|s rest size imm Hs Hsz]; [done|]. simpl in *. subst imm size.
  replace (Z.to_nat (zlen s)) with (length s) by list_lia.
  rewrite (hex_digits_loop_ok s (0 :: rest) _ 0) by done. bind_red.
  rewrite take_0. cbn [app].
  set (h := H2B <$> s). assert (length h = length s) as Hlh by (unfold h; list_lia).
  set (n := (length s / 2)%nat).
  assert (n * 2 <= length s)%nat as Hn.
  { unfold n. pose proof (Nat.div_mod_eq (length s) 2). lia. }
  replace (Z.to_nat (zlen s / 2)) with n
    by (unfold n, zlen; rewrite Z2Nat.inj_div, Nat2Z.id by lia; done).
  pose proof (hex_values_range s Hx) as Hrng. fold h in Hrng.
  rewrite (hex_pairs_loop_ok (take (n * 2) h) (drop (n * 2) h ++ 0 :: rest) _ 0 n).
  2: by apply Forall_take.
  2: list_lia.
  2: by rewrite app_assoc, take_drop.
  bind_red. rewrite take_0, join_nibbles_take by (unfold n; congruence). cbn [app].
  assert (length (join_nibbles h) = n) as Hj
    by (rewrite length_join_nibbles; unfold n; congruence).
  assert (zlen s / 2 = Z.of_nat n) as Hdiv
    by (unfold n, zlen; by rewrite Nat2Z.inj_div).
  rewrite Hdiv. apply returns_wr; [list_lia|].
  rewrite Nat2Z.id, insert_app_r_alt, insert_drop_head by list_lia.
  unfold set_len, set_data. simpl.
  set (d := join_nibbles h ++ _).
  assert (reprm (mkOctstr d (Z.of_nat n) (zlen (s ++ 0 :: rest)) false)
            (hex_decode s)) as Hrep.
  { eapply repr_intro; [by apply octets_join_nibbles|done|..].
    - unfold hex_decode, zlen. fold h. lia.
    - unfold d. list_lia. }
  eapply returns_seems_valid; [apply Hrep|]. simpl. done.
Qed.

Lemma hex_encode_xdigits (up : bool) (s : list Z) :
  octets s -> forallb isxdigit (hex_encode up s) = true.
Proof.
  induction 1 as [|c s Hc Hs IH]; [done|]. simpl.
  destruct (nibbles c Hc) as (Hh & Hlo & _).
  destruct (hexdig_ok up _ Hh) as (_ & _ & -> & _).
  by destruct (hexdig_ok up _ Hlo) as (_ & _ & -> & _).
Qed.

Lemma hex_decode_encode (up : bool) (s : list Z) :
  octets s -> hex_decode (hex_encode up s) = s.
Proof.
  induction 1 as [|c s Hc Hs IH]; [done|]. unfold hex_decode in *.
  change (hex_encode up (c :: s)) with
    (hexdig up (Z.shiftr c 4) :: hexdig up (Z.land c 15) :: hex_encode up s).
  rewrite !fmap_cons. cbn [join_nibbles].
  destruct (nibbles c Hc) as (Hh & Hlo & Hj & _).
  destruct (hexdig_ok up _ Hh) as (_ & -> & _).
  destruct (hexdig_ok up _ Hlo) as (_ & -> & _).
  by rewrite Hj, IH.
Qed.

(** ** Sequential writing

    A block that is being filled from the left is [pre ++ tail], where [pre] is
    what was written. *)

Lemma wr_cursor (pre tail : list Z) (x j v : Z) :
  j = zlen pre -> octet v ->
  wr (pre ++ x :: tail) j v = Ok ((pre ++ [v]) ++ tail).
Proof.
  intros -> Hv. rewrite wr_ok by list_lia. rewrite octet_mod_small by done.
  unfold zlen. rewrite Nat2Z.id, insert_app_r_alt, Nat.sub_diag by lia. simpl.
  by rewrite <- app_assoc.
Qed.

Lemma snoc3 {A} (l : list A) (x y z : A) : ((l ++ [x]) ++ [y]) ++ [z] = l ++ [x; y; z].
Proof. by rewrite <- !app_assoc. Qed.

Lemma rd_src (o : Octstr) (s : list Z) (i : nat) (c : Z) (r : list Z) :
  repr o s -> drop i s = c :: r -> rd (os_data o) (Z.of_nat i) = Ok c.
Proof.
  intros Ho E. pose proof (lookup_drop_cons _ _ _ _ E) as Hl.
  rewrite (rd_repr o s); [|done|apply lookup_lt_Some in Hl; list_lia].
  f_equal. by apply char_at_lookup.
Qed.

(** ** URL encoding: what the loops compute *)

Definition url_enc1 (c : Z) : list Z :=
  if c =? 32 then [43]
  else if is_safe c then [c]
  else [37; hexdig true (Z.shiftr c 4); hexdig true (Z.land c 15)].

Definition url_encode (s : list Z) : list Z := c ← s; url_enc1 c.

(** The octets that become three. *)
Definition is_wide (c : Z) : bool := negb (c =? 32) && negb (is_safe c).

Lemma url_encode_cons (c : Z) (s : list Z) :
  url_encode (c :: s) = url_enc1 c ++ url_encode s.
Proof. done. Qed.

Lemma length_url_enc1 (c : Z) :
  length (url_enc1 c) = if is_wide c then 3%nat else 1%nat.
Proof. unfold url_enc1, is_wide. repeat wp_if; simpl in *; done || lia. Qed.

Lemma zlen_url_encode (s : list Z) :
  zlen (url_encode s) = zlen s + 2 * zlen (List.filter is_wide s).
Proof.
  induction s as [|c s IH]; [done|].
  rewrite url_encode_cons, zlen_app, IH. unfold zlen. simpl.
  rewrite length_url_enc1. destruct (is_wide c); simpl; lia.
Qed.

Lemma octets_url_encode (s : list Z) : octets s -> octets (url_encode s).
Proof.
  induction 1 as [|c s Hc Hs IH]; [constructor|].
  rewrite url_encode_cons. apply Forall_app. split; [|done].
  destruct (nibbles c Hc) as (Hh & Hlo & _).
  destruct (hexdig_ok true _ Hh) as (_ & _ & _ & ? & _).
  destruct (hexdig_ok true _ Hlo) as (_ & _ & _ & ? & _).
  unfold url_enc1. repeat wp_if; repeat apply Forall_cons_2; try done;
    try apply Forall_nil_2.
Qed.

Lemma url_encode_count_ok (o : Octstr) (s : list Z) (i : nat) (k : list Z) (n : Z) (a : bool) :
  repr o s -> drop i s = k ->
  url_encode_count (os_data o) (Z.of_nat i) (length k) n a
  = Ok (n + zlen (List.filter is_wide k),
        a && forallb (fun c => negb (c =? 32) && is_safe c) k).
Proof.
  intros Ho. revert i n a. induction k as [|c k IH]; intros i n a Hd; simpl.
  { by rewrite Z.add_0_r, andb_true_r. }
  rewrite (rd_src o s i c k) by done. bind_red. apply drop_cons_S in Hd.
  replace (Z.of_nat i + 1) with (Z.of_nat (S i)) by lia.
  unfold is_wide at 1.
  destruct (c =? 32); simpl.
  - rewrite IH by done. by rewrite andb_false_r.
  - destruct (is_safe c); simpl; rewrite IH by done; [done|].
    rewrite andb_false_r. f_equal. f_equal. list_lia.
Qed.

Lemma url_encode_loop_new (o : Octstr) (s : list Z) (i : nat) (k pre tail : list Z) (j : Z) :
  repr o s -> drop i s = k -> j = zlen pre ->
  (length (url_encode k) <= length tail)%nat ->
  url_encode_loop false (os_data o) (pre ++ tail) (Z.of_nat i) j (length k)
  = Ok ((pre ++ url_encode k) ++ drop (length (url_encode k)) tail,
        zlen (pre ++ url_encode k)).
Proof.
  intros Ho. revert i pre tail j. induction k as [|c k IH]; intros i pre tail j Hd -> Hl.
  { simpl. by rewrite app_nil_r, drop_0. }
  cbn [url_encode_loop length]. rewrite (rd_src o s i c k) by done. bind_red.
  assert (octet c) as Hc.
  { pose proof (repr_octets _ _ Ho) as F. rewrite Forall_lookup in F.
    eapply F, lookup_drop_cons, Hd. }
  destruct (nibbles c Hc) as (Hh & Hlo & _ & Hhh).
  destruct (hexdig_ok true _ Hh) as (Eh & _ & _ & ? & _).
  destruct (hexdig_ok true _ Hlo) as (El & _ & _ & ? & _).
  apply drop_cons_S in Hd. rewrite url_encode_cons in *.
  replace (Z.of_nat i + 1) with (Z.of_nat (S i)) by lia.
  rewrite (app_assoc pre). rewrite length_app, <- drop_drop in *.
  unfold url_enc1 in *. destruct (Z.eqb_spec c 32); [|destruct (is_safe c)]; simpl in *.
  - destruct tail as [|x tail]; [simpl in *; lia|]. simpl in *.
    rewrite wr_cursor by done. bind_red. apply IH; [done|list_lia|list_lia].
  - destruct tail as [|x tail]; [simpl in *; lia|]. simpl in *.
    rewrite wr_cursor by done. bind_red. apply IH; [done|list_lia|list_lia].
  - destruct tail as [|x [|y [|z tail]]]; simpl in *; try lia.
    rewrite wr_cursor by done. bind_red. rewrite Hhh, Eh. bind_red.
    rewrite wr_cursor by (done || list_lia). bind_red. rewrite El. bind_red.
    rewrite wr_cursor by (done || list_lia). bind_red.
    rewrite snoc3. apply IH; [done|list_lia|list_lia].
Qed.

Lemma url_encode_loop_in_place (src k pre rest : list Z) (i : Z) :
  octets k -> Forall (fun c => is_wide c = false) k -> i = zlen pre ->
  url_encode_loop true src (pre ++ k ++ rest) i i (length k)
  = Ok ((pre ++ url_encode k) ++ rest, zlen (pre ++ url_encode k)).
Proof.
  revert pre i. induction k as [|c k IH]; intros pre i Hk Hw ->.
  { simpl. by rewrite app_nil_r. }
  inversion_clear Hk as [|? ? Hc Hk']. inversion_clear Hw as [|? ? Hwc Hw'].
  cbn [url_encode_loop length app].
  assert (rd (pre ++ c :: k ++ rest) (zlen pre) = Ok c) as ->.
  { apply rd_ok. unfold zlen. rewrite Nat2Z.id, list_lookup_middle by done.
    unfold octet in Hc. split_and!; done || lia. }
  bind_red. rewrite url_encode_cons, (app_assoc pre). unfold url_enc1, is_wide in *.
  destruct (Z.eqb_spec c 32); [|destruct (is_safe c)]; simpl in *; [| |done].
  - rewrite wr_cursor by done. bind_red. apply IH; [done..|list_lia].
  - rewrite wr_cursor by done. bind_red. apply IH; [done..|list_lia].
Qed.

Lemma url_encode_safe (s : list Z) :
  forallb (fun c => negb (c =? 32) && is_safe c) s = true -> url_encode s = s.
Proof.
  induction s as [|c s IH]; [done|]. cbn [forallb]. intros [Hc Hs]%andb_prop.
  rewrite url_encode_cons, (IH Hs). unfold url_enc1.
  apply andb_prop in Hc as [Hc ->]. by destruct (c =? 32).
Qed.

Lemma no_wide (s : list Z) :
  zlen (List.filter is_wide s) = 0 -> Forall (fun c => is_wide c = false) s.
Proof.
  induction s as [|c s IH]; simpl; [constructor|].
  destruct (is_wide c) eqn:E; [list_lia|]. intros H. constructor; [done|by apply IH].
Qed.

Lemma octstr_url_encode_ok (o : Octstr) (s : list Z) :
  reprm o s ->
  returns (octstr_url_encode (Some o))
    (fun o' => exists o'', o' = Some o'' /\ reprm o'' (url_encode s)).
Proof.
  intros Ho. destruct (Ho) as [Hr Hm]. unfold octstr_url_encode. wp_valid.
  rewrite Hm. simpl. rewrite (repr_len _ _ Hr).
  destruct (Z.eqb_spec (zlen s) 0) as [E|E].
  { apply zlen_0_inv in E. subst s. simpl. eauto. }
  replace (Z.to_nat (zlen s)) with (length s) by list_lia.
  rewrite (url_encode_count_ok o s 0 s) by done. bind_red. rewrite Z.add_0_l.
  destruct (forallb _ s) eqn:Hsafe; simpl.
  { rewrite url_encode_safe by done. eauto. }
  set (n := zlen (List.filter is_wide s)).
  pose proof (zlen_url_encode s) as Hlen. fold n in Hlen.
  pose proof (octets_url_encode s (repr_octets _ _ Hr)) as Hoct.
  destruct (Z.eqb_spec n 0) as [En|En].
  - destruct Hr as [|s rest size imm Hs Hsz]; [done|]. simpl in *.
    rewrite (url_encode_loop_in_place _ s [] (0 :: rest) 0) by (try done; by apply no_wide).
    bind_red. apply returns_wr; [list_lia|]. cbn [app].
    rewrite insert_app_r_alt by list_lia.
    replace (_ - _)%nat with 0%nat by list_lia. cbn [list_insert insert].
    unfold set_data; simpl in *. subst imm size.
    assert (reprm (mkOctstr (url_encode s ++ 0 :: rest) (zlen s)
              (zlen (s ++ 0 :: rest)) false) (url_encode s)) as Hrep.
    { eapply repr_intro; [done..|list_lia|list_lia]. }
    eapply returns_seems_valid; [apply Hrep|]. simpl. eauto.
  - assert (length (gw_malloc (zlen s + 2 * n + 1)) = S (length (url_encode s))) as Hml.
    { unfold gw_malloc. list_lia. }
    pose proof (url_encode_loop_new o s 0 s [] (gw_malloc (zlen s + 2 * n + 1)) 0) as L.
    cbn [app] in L. change (Z.of_nat 0) with 0 in L. rewrite L by (done || lia).
    bind_red. clear L. apply returns_wr; [list_lia|].
    rewrite insert_app_r_alt by list_lia.
    replace (_ - _)%nat with 0%nat by list_lia. rewrite insert_drop_head by lia.
    rewrite (drop_ge (gw_malloc _)) by lia.
    assert (reprm (mkOctstr (url_encode s ++ [0]) (zlen s + 2 * n + 1 - 1)
              (zlen s + 2 * n + 1) false) (url_encode s)) as Hrep.
    { eapply repr_intro; [done..|lia|list_lia]. }
    eapply returns_seems_valid; [apply Hrep|]. simpl. eauto.
Qed.

(** ** URL decoding undoes the encoding *)

Lemma url_enc1_head (c : Z) :
  octet c -> exists x r, url_enc1 c = x :: r /\ 0 < x.
Proof.
  intros Hc. unfold url_enc1, is_safe, isupper, islower, isdigit.
  repeat wp_if; eexists _, _; (split; [done|lia]).
Qed.

(** [take] of a block after a store at its end. *)
Lemma take_store (d : list Z) (i : nat) (v : Z) :
  (i < length d)%nat -> take (S i) (<[i:=v]> d) = take i d ++ [v].
Proof.
  intros. rewrite (take_S_r _ _ v) by by apply list_lookup_insert_eq.
  by rewrite take_insert_ge by lia.
Qed.

Definition dec_post (d : list Z) (di ret : Z) (k : list Z) (r : list Z * Z * Z) : Prop :=
  r.2 = ret /\ r.1.2 = di + zlen k /\ length r.1.1 = length d /\
  take (Z.to_nat di + length k) r.1.1 = take (Z.to_nat di) d ++ k.

Lemma dec_post_cons (d : list Z) (di ret c : Z) (k : list Z) (r : list Z * Z * Z) :
  0 <= di < zlen d ->
  dec_post (<[Z.to_nat di := c]> d) (di + 1) ret k r -> dec_post d di ret (c :: k) r.
Proof.
  unfold dec_post. intros Hdi (? & ? & Hl & Ht). rewrite length_insert in Hl.
  split_and!; try done; [list_lia|].
  replace (Z.to_nat (di + 1)) with (S (Z.to_nat di)) in Ht by lia.
  rewrite take_store in Ht by list_lia. rewrite <- app_assoc in Ht. simpl in Ht.
  rewrite <- Ht. simpl. f_equal. lia.
Qed.

(** One round of the decoder on an encoded octet. *)
Lemma url_decode_step (c : Z) (tail d : list Z) (si di ret : Z) (fuel : nat) :
  octet c -> 0 <= di <= si -> drop (Z.to_nat si) d = url_enc1 c ++ tail ->
  url_decode_loop d si di ret (S fuel) =
  let d' := <[Z.to_nat di := c]> d in
  let si' := si + zlen (url_enc1 c) in
  x ← rd d' si';
  if x =? 0 then Ok (d', di + 1, ret) else url_decode_loop d' si' (di + 1) ret fuel.
Proof.
  intros Hc Hdi Hd. cbn [url_decode_loop].
  destruct (nibbles c Hc) as (Hh & Hlo & Hj & _).
  destruct (hexdig_ok true _ Hh) as (_ & Eh & _ & Oh & Nh & _).
  destruct (hexdig_ok true _ Hlo) as (_ & El & _ & Ol & Nl & _).
  assert (0 <= si /\ si < zlen d) as [Hsi Hsd].
  { destruct (url_enc1_head c Hc) as (x & r & E & _). rewrite E in Hd.
    apply (f_equal length) in Hd. list_lia. }
  unfold url_enc1 in *. unfold octet in *.
  destruct (Z.eqb_spec c 32) as [->|Hn32]; [|destruct (is_safe c) eqn:Hsafe].
  - pose proof (lookup_drop_cons _ _ _ _ Hd) as Hl.
    rewrite (rd_lookup d si 43) by (done || lia). bind_red. simpl.
    rewrite wr_ok by lia. done.
  - pose proof (lookup_drop_cons _ _ _ _ Hd) as Hl.
    rewrite (rd_lookup d si c) by (done || lia). bind_red.
    assert (c <> 37 /\ c <> 43) as [? ?].
    { unfold is_safe, isupper, islower, isdigit in Hsafe. lia. }
    destruct (Z.eqb_spec c 37); [done|]. destruct (Z.eqb_spec c 43); [done|].
    rewrite wr_ok by lia. bind_red. rewrite Z.mod_small by lia. done.
  - pose proof (lookup_drop_cons _ _ _ _ Hd) as Hl0. apply drop_cons_S in Hd.
    pose proof (lookup_drop_cons _ _ _ _ Hd) as Hl1. apply drop_cons_S in Hd.
    pose proof (lookup_drop_cons _ _ _ _ Hd) as Hl2.
    replace (S (Z.to_nat si)) with (Z.to_nat (si + 1)) in Hl1 by lia.
    replace (S (S (Z.to_nat si))) with (Z.to_nat (si + 2)) in Hl2 by lia.
    rewrite (rd_lookup d si 37) by (done || lia). bind_red. simpl.
    rewrite (rd_lookup d (si + 1) _) by (done || lia). bind_red.
    destruct (Z.eqb_spec (hexdig true (Z.shiftr c 4)) 0); [done|].
    rewrite (rd_lookup d (si + 2) _) by (done || lia). bind_red.
    destruct (Z.eqb_spec (hexdig true (Z.land c 15)) 0); [done|]. simpl.
    rewrite Eh, El. destruct (Z.eqb_spec (Z.shiftr c 4) (-1)); [lia|].
    destruct (Z.eqb_spec (Z.land c 15) (-1)); [lia|]. simpl.
    rewrite wr_ok by lia. bind_red.
    rewrite (Z.shiftl_mul_pow2 _ 4) by lia. change (2 ^ 4) with 16.
    rewrite Hj, Z.mod_small by lia. done.
Qed.

Lemma url_decode_loop_ok (c : Z) (k : list Z) (rest d : list Z) (si di ret : Z) (fuel : nat) :
  octets (c :: k) -> 0 <= di <= si -> (length k < fuel)%nat ->
  drop (Z.to_nat si) d = url_encode (c :: k) ++ 0 :: rest ->
  returns (url_decode_loop d si di ret fuel) (dec_post d di ret (c :: k)).
Proof.
  revert c d si di fuel. induction k as [|c' k IH]; intros c d si di fuel Hk Hdi Hf Hd.
  all: destruct fuel as [|fuel]; [simpl in *; lia|].
  all: inversion_clear Hk as [|? ? Hc Hk'].
  all: rewrite url_encode_cons, <- app_assoc in Hd.
  all: rewrite (url_decode_step c _ d) by done; cbv zeta.
  all: destruct (url_enc1_head c Hc) as (x0 & r0 & E0 & _).
  all: assert (1 <= zlen (url_enc1 c)) by (rewrite E0; list_lia).
  all: assert (0 <= di < zlen d) by (apply (f_equal length) in Hd; list_lia).
  all: assert (drop (Z.to_nat (si + zlen (url_enc1 c))) (<[Z.to_nat di:=c]> d) =
               drop (length (url_enc1 c)) (drop (Z.to_nat si) d)) as Hd';
    [rewrite drop_insert_lt, drop_drop by lia; f_equal; list_lia|].
  all: rewrite Hd, drop_app_length in Hd'.
  - simpl in Hd'. pose proof (lookup_drop_cons _ _ _ _ Hd') as Hl.
    rewrite (rd_lookup _ _ 0) by (done || lia). bind_red. simpl.
    apply dec_post_cons; [done|]. unfold dec_post. simpl.
    rewrite Nat.add_0_r, app_nil_r. split_and!; done || list_lia.
  - inversion_clear Hk' as [|? ? Hc' Hk''].
    destruct (url_enc1_head c' Hc') as (x & r & E & Hx).
    rewrite url_encode_cons, E in Hd'. simpl in Hd'.
    pose proof (lookup_drop_cons _ _ _ _ Hd') as Hl.
    rewrite (rd_lookup _ _ x) by (done || lia). bind_red.
    destruct (Z.eqb_spec x 0); [lia|].
    eapply returns_mono; [apply (IH c')|].
    + by constructor.
    + lia.
    + simpl in Hf. lia.
    + rewrite url_encode_cons, E. exact Hd'.
    + intros res. by apply dec_post_cons.
Qed.

Lemma octstr_url_decode_encoded (o' : Octstr) (s : list Z) :
  octets s -> reprm o' (url_encode s) ->
  returns (octstr_url_decode (Some o'))
    (fun r => r.1 = 0 /\ exists o'', r.2 = Some o'' /\ reprm o'' s).
Proof.
  intros Hs Ho'. destruct (Ho') as [Hr Hm]. unfold octstr_url_decode. wp_valid.
  rewrite Hm. simpl. rewrite (repr_len _ _ Hr).
  destruct s as [|c k]; [simpl; eauto|].
  pose proof (zlen_url_encode (c :: k)) as Hlen.
  destruct (Z.eqb_spec (zlen (url_encode (c :: k))) 0); [list_lia|].
  remember (url_encode (c :: k)) as e eqn:Ee.
  destruct Hr as [|e rest size imm He ->]; [done|].
  cbn [os_data os_len os_size os_immutable] in *.
  apply returns_bind. eapply returns_mono.
  { apply (url_decode_loop_ok c k rest); [done|lia|list_lia|].
    rewrite <- Ee. done. }
  intros [[d di] ret] (Hret & Hdi & Hl & Ht). cbn [fst snd] in *.
  rewrite take_0 in Ht. cbn [app] in Ht.
  assert (zlen (c :: k) <= zlen e) by list_lia.
  apply returns_wr; [list_lia|]. unfold set_len, set_data. simpl. subst imm di.
  assert (reprm (mkOctstr (<[Z.to_nat (0 + zlen (c :: k)) := 0]> d)
     (0 + zlen (c :: k)) (zlen (e ++ 0 :: rest)) false) (c :: k)) as Hrep.
  { eapply (repr_intro _ _ (drop (S (length (c :: k))) d)); [done| |lia|list_lia].
    replace (Z.to_nat (0 + zlen (c :: k))) with (S (length k)) by list_lia.
    rewrite <- Ht at 1. rewrite <- (take_drop (S (length k)) d) at 1.
    rewrite insert_app_r_alt by list_lia.
    by rewrite insert_drop_head by list_lia. }
  eapply returns_seems_valid; [apply Hrep|]. simpl. eauto.
Qed.

(** ** Shell quoting: what the loops compute *)

Definition shell_esc1 (c : Z) : list Z := if c =? 39 then [39; 92; 39; 39] else [c].

Definition shell_body (s : list Z) : list Z := c ← s; shell_esc1 c.

Lemma shell_body_cons (c : Z) (s : list Z) :
  shell_body (c :: s) = shell_esc1 c ++ shell_body s.
Proof. done. Qed.

Definition shell_quote (s : list Z) : list Z := 39 :: (shell_body s) ++ [39].

(** How a POSIX shell reads a word that contains quoted text only: text between
    single quotes is literal, a backslash outside them makes the next octet
    literal, and [None] says that an octet would be seen unquoted (or a quote is
    left open). *)
Fixpoint shell_word (quoted : bool) (l : list Z) : option (list Z) :=
  match l with
  | [] => if quoted then None else Some []
  | c :: l =>
      if quoted then
        if c =? 39 then shell_word false l else cons c <$> shell_word true l
      else if c =? 39 then shell_word true l
      else if c =? 92 then
        match l with
        | [] => None
        | c' :: l => cons c' <$> shell_word false l
        end
      else None
  end.

Lemma shell_word_quote (s : list Z) : shell_word false (shell_quote s) = Some s.
Proof.
  unfold shell_quote. cbn [shell_word]. simpl. induction s as [|c s IH]; [done|].
  rewrite shell_body_cons, <- app_assoc. unfold shell_esc1.
  destruct (Z.eqb_spec c 39) as [->|Hc]; simpl.
  - by rewrite IH.
  - destruct (Z.eqb_spec c 39); [done|]. by rewrite IH.
Qed.

Lemma count_quotes_ok (o : Octstr) (s : list Z) (i : nat) (k : list Z) (n : Z) :
  repr o s -> drop i s = k ->
  count_quotes (os_data o) (Z.of_nat i) (length k) n
  = Ok (n + zlen (List.filter (Z.eqb 39) k)).
Proof.
  intros Ho. revert i n. induction k as [|c k IH]; intros i n Hd.
  { cbn. by rewrite Z.add_0_r. }
  cbn [count_quotes length]. rewrite (rd_src o s i c k) by done. bind_red.
  apply drop_cons_S in Hd. replace (Z.of_nat i + 1) with (Z.of_nat (S i)) by lia.
  rewrite IH by done. cbn [List.filter]. rewrite (Z.eqb_sym 39 c).
  destruct (c =? 39); f_equal; list_lia.
Qed.

Lemma shell_escape_loop_ok (o : Octstr) (s : list Z) (i : nat) (k pre tail : list Z) (j : Z) :
  repr o s -> drop i s = k -> j = zlen pre ->
  (length (shell_body k) <= length tail)%nat ->
  shell_escape_loop (os_data o) (pre ++ tail) (Z.of_nat i) j (length k)
  = Ok ((pre ++ (shell_body k)) ++ drop (length (shell_body k)) tail,
        zlen (pre ++ (shell_body k))).
Proof.
  intros Ho. revert i pre tail j. induction k as [|c k IH]; intros i pre tail j Hd -> Hl.
  { simpl. by rewrite app_nil_r, drop_0. }
  cbn [shell_escape_loop length]. rewrite (rd_src o s i c k) by done. bind_red.
  assert (octet c) as Hc.
  { pose proof (repr_octets _ _ Ho) as F. rewrite Forall_lookup in F.
    eapply F, lookup_drop_cons, Hd. }
  apply drop_cons_S in Hd. rewrite shell_body_cons in *.
  replace (Z.of_nat i + 1) with (Z.of_nat (S i)) by lia.
  rewrite (app_assoc pre). rewrite length_app, <- drop_drop in *.
  unfold shell_esc1 in *.
  destruct (Z.eqb_spec c 39) as [->|Hc'].
  - destruct tail as [|w [|x [|y [|z tail]]]]; simpl in Hl; try lia.
    do 4 (rewrite wr_cursor by (done || list_lia); bind_red).
    rewrite snoc3, <- (app_assoc pre). apply IH; [done|list_lia|list_lia].
  - destruct tail as [|x tail]; simpl in Hl; [lia|].
    rewrite wr_cursor by done. bind_red. apply IH; [done|list_lia|list_lia].
Qed.

Lemma length_shell_esc (s : list Z) :
  zlen (shell_body s) = zlen s + 3 * zlen (List.filter (Z.eqb 39) s).
Proof.
  induction s as [|c s IH]; [done|].
  rewrite shell_body_cons, zlen_app, IH. unfold shell_esc1. cbn [List.filter].
  rewrite (Z.eqb_sym 39 c). destruct (c =? 39); list_lia.
Qed.

Lemma octets_shell_esc (s : list Z) : octets s -> octets (shell_body s).
Proof.
  intros Hs. apply Forall_bind. revert Hs. apply Forall_impl. intros c Hc.
  cbv beta delta [compose shell_esc1].
  destruct (c =? 39); repeat apply Forall_cons_2; try done; apply Forall_nil_2.
Qed.

Lemma octstr_shell_escape_ok (o : Octstr) (s : list Z) :
  reprm o s ->
  returns (octstr_shell_escape (Some o))
    (fun o' => exists o'', o' = Some o'' /\ reprm o'' (shell_quote s)).
Proof.
  intros Ho. destruct (Ho) as [Hr Hm]. unfold octstr_shell_escape. wp_valid.
  rewrite Hm. simpl. rewrite (repr_len _ _ Hr).
  destruct (Z.eqb_spec (zlen s) 0) as [E|E].
  { apply zlen_0_inv in E. subst s. apply returns_bind.
    eapply returns_mono; [apply (octstr_insert_data_ok o [] [39; 39] 0 2); try done|].
    - by apply Forall_cons_2, Forall_cons_2, Forall_nil_2.
    - simpl. eauto. }
  replace (Z.to_nat (zlen s)) with (length s) by list_lia.
  rewrite (count_quotes_ok o s 0 s) by done. bind_red. rewrite Z.add_0_l.
  pose proof (length_shell_esc s) as Hlen.
  pose proof (octets_shell_esc s (repr_octets _ _ Hr)) as Hoct.
  set (e := shell_body s) in *. set (n := zlen (List.filter _ s)) in *.
  assert (exists x, gw_malloc (zlen s + 2 + 3 * n + 1)
    = x :: replicate (length e + 2) UNINIT) as [x ->].
  { exists UNINIT. unfold gw_malloc.
    by replace (Z.to_nat _) with (S (length e + 2)) by list_lia. }
  pose proof (wr_cursor [] (replicate (length e + 2) UNINIT) x 0 39 eq_refl) as W.
  cbn [app] in W. rewrite W by done. bind_red. clear W.
  pose proof (shell_escape_loop_ok o s 0 s [39] (replicate (length e + 2) UNINIT) 1) as L.
  fold e in L. change (Z.of_nat 0) with 0 in L.
  change (39 :: replicate (length e + 2) UNINIT)
    with ([39] ++ replicate (length e + 2) UNINIT).
  rewrite L by (done || list_lia). bind_red. clear L.
  rewrite drop_replicate. replace (_ - _)%nat with 2%nat by lia. cbn [replicate].
  rewrite wr_cursor by (done || list_lia). bind_red.
  rewrite wr_cursor by (done || list_lia). bind_red. rewrite app_nil_r.
  assert (reprm (mkOctstr ((([39] ++ e) ++ [39]) ++ [0]) (zlen s + 2 + 3 * n + 1 - 1)
      (zlen s + 2 + 3 * n + 1) false) (shell_quote s)) as Hrep.
  { eapply repr_intro; [|done|unfold shell_quote; fold e; list_lia|list_lia].
    unfold shell_quote. fold e. apply Forall_cons_2; [done|].
    apply Forall_app. split; [done|]. by apply Forall_cons_2, Forall_nil_2. }
  eapply returns_seems_valid; [apply Hrep|]. simpl. eauto.
Qed.

(** The form of a query string. *)
Fixpoint url_clean (l : list Z) : bool :=
  match l with
  | [] => true
  | c :: l =>
      if c =? 37 then
        match l with
        | a :: b :: l => isxdigit a && isxdigit b && url_clean l
        | _ => false
        end
      else (is_safe c || (c =? 43)) && url_clean l
  end.

Lemma url_clean_enc1 (c : Z) (l : list Z) :
  octet c -> url_clean (url_enc1 c ++ l) = url_clean l.
Proof.
  intros Hc. unfold url_enc1. destruct (Z.eqb_spec c 32) as [->|]; [done|].
  destruct (is_safe c) eqn:Es; simpl.
  - rewrite Es. destruct (Z.eqb_spec c 37) as [->|]; [done|]. done.
  - destruct (nibbles c Hc) as (H1 & H2 & _).
    destruct (hexdig_ok true (Z.shiftr c 4)) as (_ & _ & -> & _); [lia|].
    destruct (hexdig_ok true (Z.land c 15)) as (_ & _ & -> & _); [lia|]. done.
Qed.

Lemma url_clean_encode (s : list Z) : octets s -> url_clean (url_encode s) = true.
Proof.
  induction 1 as [|c s Hc Hs IH]; [done|].
  by rewrite url_encode_cons, url_clean_enc1.
Qed.

Lemma forallb_false_Exists (f : Z -> bool) (s : list Z) :
  forallb f s = false -> Exists (fun c => f c = false) s.
Proof.
  induction s as [|c s IH]; simpl; [done|]. destruct (f c) eqn:E; [right; by apply IH|by left].
Qed.

(** ** Properties *)

(** Converting a string to hexadecimal digits, upper or lower case, and back
    gives the original octets and the success code 0. *)
Theorem octstr_hex_roundtrip (o : Octstr) (s : list Z) (up : bool) :
  reprm o s ->
  returns (h ← octstr_binary_to_hex o up; octstr_hex_to_binary h)
    (fun '(r, o') => r = 0 /\ reprm o' s).
Proof.
  intros Ho. pose proof (repr_octets _ _ (proj1 Ho)) as Hs. apply returns_bind.
  apply (returns_mono _ _ _ (octstr_binary_to_hex_ok o s up Ho)). intros h Hh.
  apply (returns_mono _ _ _ (octstr_hex_to_binary_ok h _ Hh)). intros [r o'].
  by rewrite (hex_encode_xdigits up s Hs), (hex_decode_encode up s Hs).
Qed.

Lemma octstr_hex_roundtrip_witness :
  returns (h ← octstr_binary_to_hex (mk_os [0; 171; 255]) true; octstr_hex_to_binary h)
    (fun '(r, o') => r = 0 /\ reprm o' [0; 171; 255]).
Proof. apply (octstr_hex_roundtrip (mk_os [0; 171; 255]) [0; 171; 255] true). mk_os. Defined.

(** [octstr_hex_to_binary] on any string: when every octet is a hexadecimal
    digit the string becomes the octets its pairs of digits denote (an odd last
    digit is dropped) and 0 is returned; otherwise -1 is returned and the string
    is left as it was. *)
Theorem octstr_hex_to_binary_total (o : Octstr) (s : list Z) :
  reprm o s ->
  returns (octstr_hex_to_binary o) (fun '(r, o') =>
    (r = 0 /\ Forall (fun c => isxdigit c = true) s /\ reprm o' (hex_decode s) /\
       length (hex_decode s) = (length s / 2)%nat) \/
    (r = -1 /\ Exists (fun c => isxdigit c = false) s /\ o' = o)).
Proof.
  intros Ho. apply (returns_mono _ _ _ (octstr_hex_to_binary_ok o s Ho)).
  intros [r o'] H. destruct (forallb isxdigit s) eqn:E; destruct H as [-> H]; [left|right].
  - split_and!; [done| |done|unfold hex_decode; by rewrite length_join_nibbles, length_fmap].
    rewrite Forall_forall. by apply forallb_forall.
  - split_and!; [done|by apply forallb_false_Exists|done].
Qed.

Lemma octstr_hex_to_binary_total_witness :
  octstr_hex_to_binary (mk_os [52; 103]) = Ok (-1, mk_os [52; 103]) /\
  returns (octstr_hex_to_binary (mk_os [52; 103])) (fun '(r, o') =>
    (r = 0 /\ Forall (fun c => isxdigit c = true) [52; 103] /\ reprm o' (hex_decode [52; 103]) /\
       length (hex_decode [52; 103]) = (2 / 2)%nat) \/
    (r = -1 /\ Exists (fun c => isxdigit c = false) [52; 103] /\ o' = mk_os [52; 103])).
Proof.
  split; [vm_compute; reflexivity|].
  apply (octstr_hex_to_binary_total (mk_os [52; 103]) [52; 103]). mk_os.
Defined.

(** URL encoding a string and decoding the result gives the original octets,
    with the success code 0, whether the encoding was done in place or in a new
    block. *)
Theorem octstr_url_roundtrip (o : Octstr) (s : list Z) :
  reprm o s ->
  returns (e ← octstr_url_encode (Some o); octstr_url_decode e)
    (fun r => r.1 = 0 /\ exists o', r.2 = Some o' /\ reprm o' s).
Proof.
  intros Ho. pose proof (repr_octets _ _ (proj1 Ho)) as Hs. apply returns_bind.
  apply (returns_mono _ _ _ (octstr_url_encode_ok o s Ho)). intros e (o' & -> & Ho').
  by apply octstr_url_decode_encoded.
Qed.

Lemma octstr_url_roundtrip_witness :
  returns (e ← octstr_url_encode (Some (mk_os [97; 32; 37; 233])); octstr_url_decode e)
    (fun r => r.1 = 0 /\ exists o', r.2 = Some o' /\ reprm o' [97; 32; 37; 233]).
Proof. apply (octstr_url_roundtrip (mk_os [97; 32; 37; 233]) [97; 32; 37; 233]). mk_os. Defined.

(** A URL encoded string consists of unreserved characters, plus signs and
    percent signs followed by two hexadecimal digits only, so that it can be put
    in a query string. *)
Theorem octstr_url_encode_clean (o : Octstr) (s : list Z) :
  reprm o s ->
  returns (octstr_url_encode (Some o)) (fun e => exists o' t,
    e = Some o' /\ reprm o' t /\ url_clean t = true).
Proof.
  intros Ho. apply (returns_mono _ _ _ (octstr_url_encode_ok o s Ho)).
  intros e (o' & -> & Ho'). exists o', (url_encode s). split_and!; [done..|].
  apply url_clean_encode, (repr_octets o s), Ho.
Qed.

Lemma octstr_url_encode_clean_witness :
  returns (octstr_url_encode (Some (mk_os [38; 61]))) (fun e => exists o' t,
    e = Some o' /\ reprm o' t /\ url_clean t = true).
Proof. apply (octstr_url_encode_clean (mk_os [38; 61]) [38; 61]). mk_os. Defined.

(** A shell-escaped string is read back by a POSIX shell as one word with
    exactly the original octets: no octet of it is seen by the shell outside
    quotes, so no part of the string can be run. *)
Theorem octstr_shell_escape_safe (o : Octstr) (s : list Z) :
  reprm o s ->
  returns (octstr_shell_escape (Some o)) (fun e => exists o' t,
    e = Some o' /\ reprm o' t /\ shell_word false t = Some s).
Proof.
  intros Ho. apply (returns_mono _ _ _ (octstr_shell_escape_ok o s Ho)).
  intros e (o' & -> & Ho'). exists o', (shell_quote s). split_and!; [done..|].
  apply shell_word_quote.
Qed.

Lemma octstr_shell_escape_safe_witness :
  returns (octstr_shell_escape (Some (mk_os [39; 59; 97]))) (fun e => exists o' t,
    e = Some o' /\ reprm o' t /\ shell_word false t = Some [39; 59; 97]).
Proof. apply (octstr_shell_escape_safe (mk_os [39; 59; 97]) [39; 59; 97]). mk_os. Defined.
