(* ===== verification/OctstrUintvar.v ===== *)
(** * Octet strings: variable-length integers

    Models [octstr_append_uintvar] and [octstr_extract_uintvar] of
    src/gwlib/octstr.c, which code an [unsigned long] (64 bits) in at most five
    groups of seven bits. *)

From S2P Require Import Prelude Octstr OctstrSearch OctstrCode.

(** ** Variable-length integers *)

(** The loop of [octstr_append_uintvar], at [i] = [n] - 1; the second result is
    [start]. *)
Fixpoint append_uintvar_loop (octs : block) (value : Z) (n : nat)
  : res (list Z * Z) :=
  match n with
  | O => Ok (octs, 0)
  | S i =>
      if 0 <? value then
        octs ← wr octs (Z.of_nat i) (Z.lor 128 (Z.land value 127));
        append_uintvar_loop octs (Z.shiftr value 7) i
      else Ok (octs, Z.of_nat n)
  end.

Definition octstr_append_uintvar (o : Octstr) (value : Z) : res Octstr :=
  octs ← wr (gw_malloc 5) 4 (Z.land value 127);
  '(octs, start) ← append_uintvar_loop octs (Z.shiftr value 7) 4;
  octstr_append_data o (drop (Z.to_nat start) octs) (5 - start).

(** The loop of [octstr_extract_uintvar], with [n] octets left to try. *)
Fixpoint extract_uintvar_loop (o : Octstr) (pos count ui : Z) (n : nat)
  : res (Z * option Z) :=
  match n with
  | O => Ok (-1, None)
  | S n =>
      c ← octstr_get_char o (pos + count);
      if c <? 0 then Ok (-1, None)
      else
        let ui := Z.lor (Z.shiftl ui 7 mod 2 ^ 64) (Z.land c 127) in
        if Z.land c 128 =? 0 then Ok (pos + count + 1, Some ui)
        else extract_uintvar_loop o pos (count + 1) ui n
  end.

(** The position after the integer and, on success, [*value]. *)
Definition octstr_extract_uintvar (o : Octstr) (pos : Z) : res (Z * option Z) :=
  extract_uintvar_loop o pos 0 0 5.

(** The value of a sequence of 7-bit groups. *)
Definition groups_value (acc : Z) (l : list Z) : Z :=
  foldl (fun v c => v * 128 + c mod 128) acc l.

Lemma octet_bit7 (c : Z) :
  octet c -> (Z.land c 128 =? 0) = (c <? 128) /\ Z.land c 127 = c mod 128.
Proof. revert c. apply (octet_ind _). vm_compute. reflexivity. Qed.

Lemma set_bit7 (v : Z) :
  0 <= v -> Z.lor 128 (Z.land v 127) = 128 + v mod 128.
Proof.
  intros Hv. change 127 with (2 ^ 7 - 1). rewrite land_mask by lia.
  change 128 with (Z.shiftl 1 7) at 1.
  rewrite lor_shiftl_add; [done|lia|apply Z.mod_pos_bound; lia].
Qed.

Lemma append_uintvar_loop_ok (n : nat) (pre tail : list Z) (v : Z) :
  0 <= v -> length pre = n ->
  returns (append_uintvar_loop (pre ++ tail) v n) (fun '(d, start) =>
    exists hi, drop (Z.to_nat start) d = hi ++ tail /\
      0 <= start /\ start + zlen hi = Z.of_nat n /\
      Forall (fun c => 128 <= c < 256) hi /\
      groups_value 0 hi = v mod 128 ^ Z.of_nat n).
Proof.
  revert pre tail v. induction n as [|n IH]; intros pre tail v Hv Hl.
  { destruct pre; [|done]. exists []. simpl. split_and!; try done. by rewrite Z.mod_1_r. }
  cbn [append_uintvar_loop]. destruct (Z.ltb_spec 0 v) as [Hpos|Hz].
  - destruct (exists_last (l := pre)) as (pre' & x & ->); [by destruct pre|].
    rewrite length_app in Hl. simpl in Hl. rewrite <- app_assoc. simpl.
    assert (octet (Z.lor 128 (Z.land v 127))) as Ho.
    { rewrite set_bit7 by done. pose proof (Z.mod_pos_bound v 128). unfold octet. lia. }
    rewrite wr_cursor by (done || list_lia). bind_red. rewrite <- app_assoc.
    eapply returns_mono; [apply (IH pre' _ (Z.shiftr v 7))|].
    + by apply Z.shiftr_nonneg.
    + lia.
    + intros [d start] (hi & Hd & Hs & Hsum & Hhi & Hval).
      exists (hi ++ [Z.lor 128 (Z.land v 127)]). rewrite <- app_assoc.
      rewrite set_bit7 by done. pose proof (Z.mod_pos_bound v 128 ltac:(lia)).
      split_and!; [by rewrite Hd, set_bit7| done | list_lia | |].
      * apply Forall_app. split; [done|]. apply Forall_cons_2; [lia|apply Forall_nil_2].
      * unfold groups_value in *. rewrite foldl_app, Hval. simpl.
        rewrite Z.shiftr_div_pow2 by lia. change (2 ^ 7) with 128.
        rewrite <- Zplus_mod_idemp_l, Z_mod_same_full, Z.add_0_l, Z.mod_mod by lia.
        rewrite Nat2Z.inj_succ, Z.pow_succ_r, Z.rem_mul_r by lia. lia.
  - exists []. replace v with 0 by lia. rewrite Z.mod_0_l by lia.
    rewrite Nat2Z.id, <- Hl, drop_app_length. simpl. split_and!; try done; list_lia.
Qed.

Lemma extract_uintvar_loop_ok (o : Octstr) (s : list Z) (pos count ui : Z) (n : nat)
    (hi : list Z) (last : Z) (rest : list Z) :
  repr o s -> 0 <= pos -> 0 <= count -> drop (Z.to_nat (pos + count)) s = hi ++ last :: rest ->
  Forall (fun c => 128 <= c < 256) hi -> 0 <= last < 128 ->
  (length hi < n)%nat -> 0 <= ui < 128 ^ count -> count + Z.of_nat n <= 5 ->
  extract_uintvar_loop o pos count ui n
  = Ok (pos + count + zlen hi + 1, Some (groups_value ui (hi ++ [last]))).
Proof.
  intros Ho Hp. revert count ui n. induction hi as [|c hi IH];
    intros count ui n Hc Hd Hhi Hlast Hn Hui H5;
    (destruct n as [|n]; [simpl in Hn; lia|]); cbn [extract_uintvar_loop];
    rewrite (octstr_get_char_ok o s) by done; bind_red; simpl in Hd;
    pose proof (lookup_drop_cons _ _ _ _ Hd) as Hl.
  all: assert (Z.shiftl ui 7 mod 2 ^ 64 = Z.shiftl ui 7) as Emod.
  1, 3: rewrite Z.shiftl_mul_pow2 by lia; apply Z.mod_small;
    assert (128 ^ count <= 128 ^ 5) by (apply Z.pow_le_mono_r; lia); lia.
  - assert (char_at s (pos + count) = last) as ->.
    { rewrite <- (Z2Nat.id (pos + count)) by lia. by apply char_at_lookup. }
    destruct (octet_bit7 last) as [-> ->]; [unfold octet; lia|].
    destruct (Z.ltb_spec last 0); [lia|]. destruct (Z.ltb_spec last 128); [|lia].
    rewrite Emod, lor_shiftl_add; [|lia|apply Z.mod_pos_bound; lia].
    simpl. change (2 ^ 7) with 128. do 2 f_equal. list_lia.
  - inversion_clear Hhi as [|? ? Hcc Hhi'].
    assert (char_at s (pos + count) = c) as ->.
    { rewrite <- (Z2Nat.id (pos + count)) by lia. by apply char_at_lookup. }
    destruct (octet_bit7 c) as [-> ->]; [unfold octet; lia|].
    destruct (Z.ltb_spec c 0); [lia|]. destruct (Z.ltb_spec c 128); [lia|].
    pose proof (Z.mod_pos_bound c 128 ltac:(lia)).
    rewrite Emod, lor_shiftl_add by (done || lia). change (2 ^ 7) with 128.
    rewrite IH; try done; try lia.
    + f_equal. f_equal. list_lia.
    + apply drop_cons_S in Hd. rewrite <- Hd. f_equal. lia.
    + simpl in Hn. lia.
    + rewrite Z.pow_add_r by lia. lia.
Qed.

(** Encoding an integer at the end of a string and extracting it there. *)
Lemma octstr_append_uintvar_ok (o : Octstr) (s : list Z) (v : Z) :
  reprm o s -> 0 <= v ->
  returns (octstr_append_uintvar o v) (fun o' =>
    exists e, reprm o' (s ++ e) /\ 1 <= zlen e <= 5 /\
      octstr_extract_uintvar o' (zlen s) = Ok (zlen (s ++ e), Some (v mod 2 ^ 35))).
Proof.
  intros Ho Hv. unfold octstr_append_uintvar.
  pose proof (Z.mod_pos_bound v 128 ltac:(lia)) as Hm.
  assert (Z.land v 127 = v mod 128) as El by (apply (land_mask v 7); lia).
  change (gw_malloc 5) with (replicate 4 UNINIT ++ [UNINIT]).
  rewrite El, wr_cursor by (done || unfold octet; lia). bind_red.
  rewrite <- app_assoc. apply returns_bind. eapply returns_mono.
  { apply append_uintvar_loop_ok; [by apply Z.shiftr_nonneg|done]. }
  intros [d start] (hi & Hd & Hs & Hsum & Hhi & Hval). rewrite Hd. simpl in Hd.
  change (Z.of_nat 4) with 4 in *.
  assert (take (Z.to_nat (5 - start)) (hi ++ [v mod 128] ++ []) = hi ++ [v mod 128]) as Et.
  { rewrite app_nil_r. apply take_ge. list_lia. }
  assert (octets (hi ++ [v mod 128])) as Hoct.
  { apply Forall_app. split.
    - revert Hhi. apply Forall_impl. unfold octet. lia.
    - apply Forall_cons_2; [unfold octet; lia|apply Forall_nil_2]. }
  eapply returns_mono; [apply (octstr_append_data_ok o s); [done|list_lia|by rewrite Et]|].
  intros o' Ho'. rewrite Et in Ho'. exists (hi ++ [v mod 128]).
  split_and!; [done|list_lia|list_lia|].
  unfold octstr_extract_uintvar.
  rewrite (extract_uintvar_loop_ok o' (s ++ hi ++ [v mod 128]) (zlen s) 0 0 5 hi
             (v mod 128) []); try done; try list_lia.
  - f_equal. f_equal; [list_lia|]. unfold groups_value in *.
    rewrite foldl_app, Hval. simpl. rewrite Z.mod_mod by lia.
    rewrite Z.shiftr_div_pow2 by lia. change (2 ^ 7) with 128.
    change (2 ^ 35) with (128 * 128 ^ 4). rewrite Z.rem_mul_r by lia. f_equal. lia.
  - apply Ho'.
  - rewrite Z.add_0_r. unfold zlen. by rewrite Nat2Z.id, drop_app_length.
Qed.

(** ** Properties *)

(** A 32-bit value appended as a uintvar (one to five octets, seven bits in
    each, the high bit set in all but the last) is extracted again at the
    position where it was appended, and the extraction ends just behind it. *)
Theorem uintvar_roundtrip (o : Octstr) (s : list Z) (v : Z) :
  reprm o s -> 0 <= v < 2 ^ 32 ->
  returns (octstr_append_uintvar o v) (fun o' =>
    exists e, reprm o' (s ++ e) /\ 1 <= zlen e <= 5 /\
      octstr_extract_uintvar o' (zlen s) = Ok (zlen (s ++ e), Some v)).
Proof.
  intros Ho Hv. apply (returns_mono _ _ _ (octstr_append_uintvar_ok o s v Ho ltac:(lia))).
  intros o' (e & He & Hl & Hx). exists e. rewrite Z.mod_small in Hx by lia. done.
Qed.

Lemma uintvar_roundtrip_witness :
  returns (octstr_append_uintvar (mk_os [97]) 300) (fun o' =>
    exists e, reprm o' ([97] ++ e) /\ 1 <= zlen e <= 5 /\
      octstr_extract_uintvar o' (zlen [97]) = Ok (zlen ([97] ++ e), Some 300)).
Proof. apply (uintvar_roundtrip (mk_os [97]) [97] 300); [mk_os|lia]. Defined.
