(* ===== verification/OctstrFormat.v ===== *)
(** * Numbers in octet strings and formatted output

    Models [octstr_parse_long], [octstr_append_decimal] and the formatter
    [octstr_format] of src/gwlib/octstr.c, which interprets a format string with
    its flags, widths, precisions and conversions on a list of arguments.  Of the
    C library, [strtol] and the integer conversions of [sprintf] are defined
    here; the text of a [double] and of a pointer is a parameter ([Printf]). *)

From S2P Require Import Prelude Octstr OctstrCode.

(** ** Integers of the C library *)

(** A signed integer of [w] bits. *)
Definition swrap (w z : Z) : Z := (z + 2 ^ (w - 1)) mod 2 ^ w - 2 ^ (w - 1).

(** The digits of [v] in base [b]. *)
Fixpoint print_base (b : Z) (uppercase : bool) (fuel : nat) (v : Z) : list Z :=
  match fuel with
  | O => []
  | S fuel =>
      if v <? b then [hexdig uppercase v]
      else print_base b uppercase fuel (v / b) ++ [hexdig uppercase (v mod b)]
  end.

(** [sprintf] with [%ld]; 20 digits are enough for 64 bits. *)
Definition sprintf_ld (v : Z) : list Z :=
  if v <? 0 then 45 :: print_base 10 false 20 (- v) else print_base 10 false 20 v.

(** [sprintf] with [%lo], [%lu], [%lx] or [%lX]; [conv] is the letter. *)
Definition sprintf_lu (conv v : Z) : list Z :=
  if conv =? 111 then print_base 8 false 22 v
  else if conv =? 117 then print_base 10 false 22 v
  else print_base 16 (conv =? 88) 22 v.

(** [strtol]. *)
Definition digit_of (c : Z) : option Z :=
  if isdigit c then Some (c - 48)
  else if isupper c then Some (c - 55)
  else if islower c then Some (c - 87)
  else None.

Fixpoint strtol_digits (base acc n : Z) (l : list Z) : Z * Z :=
  match l with
  | [] => (acc, n)
  | c :: l =>
      match digit_of c with
      | Some d => if d <? base then strtol_digits base (acc * base + d) (n + 1) l else (acc, n)
      | None => (acc, n)
      end
  end.

Fixpoint skip_space (l : list Z) (n : Z) : list Z * Z :=
  match l with
  | c :: l' => if isspace c then skip_space l' (n + 1) else (l, n)
  | [] => (l, n)
  end.

Definition strtol_sign (l : list Z) (n : Z) : bool * list Z * Z :=
  match l with
  | c :: l' => if c =? 45 then (true, l', n + 1) else if c =? 43 then (false, l', n + 1) else (false, l, n)
  | [] => (false, l, n)
  end.

(** Whether there is a prefix [0x] in front of a hexadecimal digit. *)
Definition hex_prefix (l : list Z) : bool :=
  match l with
  | z :: x :: d :: _ => (z =? 48) && ((x =? 120) || (x =? 88)) && isxdigit d
  | _ => false
  end.

(** The value, the number of characters used (0: there was no number) and
    whether [errno] is [ERANGE]. *)
Definition strtol (s : list Z) (base : Z) : Z * Z * bool :=
  let '(l, n) := skip_space s 0 in
  let '(neg, l, n) := strtol_sign l n in
  let '(base, l, n) :=
    if ((base =? 0) || (base =? 16)) && hex_prefix l then (16, drop 2 l, n + 2)
    else if base =? 0 then (if default 0 (head l) =? 48 then 8 else 10, l, n)
    else (base, l, n) in
  let '(v, k) := strtol_digits base 0 0 l in
  let v := if neg then - v else v in
  if k =? 0 then (0, 0, false)
  else if LONG_MAX <? v then (LONG_MAX, n + k, true)
  else if v <? LONG_MIN then (LONG_MIN, n + k, true)
  else (v, n + k, false).

(** ** Numbers in strings *)

(** [None] is the result -1; otherwise the number and the position after it. *)
Definition octstr_parse_long (ostr : Octstr) (pos base : Z) : res (option (Z * Z)) :=
  seems_valid ostr ≫= fun _ =>
  assert: (base =? 0) || ((2 <=? base) && (base <=? 36));
  if os_len ostr <=? pos then Ok None
  else if pos <? 0 then Undef
  else
    let '(number, used, erange) := strtol (cstr (drop (Z.to_nat pos) (os_data ostr))) base in
    if erange : bool then Ok None
    else if used =? 0 then Ok None
    else Ok (Some (number, pos + used)).

Definition octstr_append_decimal (ostr : Octstr) (value : Z) : res Octstr :=
  octstr_append_cstr ostr (sprintf_ld value).

(** ** The formatter *)

Record format := mkFormat {
  f_minus : bool;
  f_zero : bool;
  f_min_width : Z;
  f_has_prec : bool;
  f_prec : Z;
  f_type : Z
}.

Definition no_format : format := mkFormat false false 0 false 0 0.

(** What the C library prints for the conversions that the model leaves open. *)
Class Printf : Type := {
  double : Type;
  sprintf_double : format -> Z -> double -> list Z;
  sprintf_p : Z -> list Z
}.

Section formatter.
Context `{!Printf}.

(** An argument, as it is passed. *)
Inductive arg : Type :=
| AInt (n : Z)
| AStr (s : list Z)
| AOct (o : option Octstr)
| ADouble (x : double)
| APtr (p : Z).

(** [va_arg]: an argument of another type, or a missing one, is undefined. *)
Definition arg_int (args : list arg) : res (Z * list arg) :=
  match args with
  | AInt n :: args => Ok (n, args)
  | _ => Undef
  end.

Definition arg_oct (args : list arg) : res (option Octstr * list arg) :=
  match args with
  | AOct o :: args => Ok (o, args)
  | _ => Undef
  end.

(** [**fmt]. *)
Definition at_fmt (fmt : list Z) : Z := default 0 (head fmt).

Fixpoint format_flags (f : format) (fmt : list Z) : format * list Z :=
  match fmt with
  | c :: fmt' =>
      if c =? 45 then
        format_flags (mkFormat true (f_zero f) (f_min_width f) (f_has_prec f) (f_prec f) (f_type f)) fmt'
      else if c =? 48 then
        format_flags (mkFormat (f_minus f) true (f_min_width f) (f_has_prec f) (f_prec f) (f_type f)) fmt'
      else (f, fmt)
  | [] => (f, fmt)
  end.

Definition set_width (f : format) (n : Z) : format :=
  mkFormat (f_minus f) (f_zero f) n (f_has_prec f) (f_prec f) (f_type f).

Definition set_prec (f : format) (n : Z) : format :=
  mkFormat (f_minus f) (f_zero f) (f_min_width f) true n (f_type f).

Definition set_type (f : format) (c : Z) : format :=
  mkFormat (f_minus f) (f_zero f) (f_min_width f) (f_has_prec f) (f_prec f) c.

(** [strtol] of the number at the front of the format, and its [end]. *)
Definition fmt_number (fmt : list Z) : Z * list Z :=
  let '(n, used, _) := strtol fmt 10 in (n, drop (Z.to_nat used) fmt).

Definition format_width (f : format) (fmt : list Z) (args : list arg)
  : res (format * list Z * list arg) :=
  if at_fmt fmt =? 42 then
    '(n, args) ← arg_int args;
    Ok (set_width f (swrap 32 n), drop 1 fmt, args)
  else if isdigit (at_fmt fmt) then
    let '(n, fmt) := fmt_number fmt in Ok (set_width f n, fmt, args)
  else Ok (f, fmt, args).

Definition format_prec (f : format) (fmt : list Z) (args : list arg)
  : res (format * list Z * list arg) :=
  if negb (at_fmt fmt =? 46) then Ok (f, fmt, args)
  else
    let fmt := drop 1 fmt in
    if at_fmt fmt =? 42 then
      '(n, args) ← arg_int args;
      Ok (set_prec f (swrap 32 n), drop 1 fmt, args)
    else if isdigit (at_fmt fmt) then
      let '(n, fmt) := fmt_number fmt in Ok (set_prec f n, fmt, args)
    else Ok (f, fmt, args).

Definition format_type (f : format) (fmt : list Z) : format * list Z :=
  if at_fmt fmt =? 104 then (set_type f 104, drop 1 fmt)
  else if at_fmt fmt =? 108 then
    if at_fmt (drop 1 fmt) =? 108 then (set_type f 76, drop 2 fmt)
    else (set_type f 108, drop 1 fmt)
  else (f, fmt).

(** [va_arg] for [%d] and for [%u], by the length modifier. *)
Definition signed_arg (f : format) (n : Z) : Z :=
  if (f_type f =? 76) || (f_type f =? 108) then swrap 64 n
  else if f_type f =? 104 then swrap 16 n
  else swrap 32 n.

Definition unsigned_arg (f : format) (n : Z) : Z :=
  if (f_type f =? 76) || (f_type f =? 108) then n mod 2 ^ 64
  else if f_type f =? 104 then n mod 2 ^ 16
  else n mod 2 ^ 32.

(** [octstr_duplicate], or "(null)". *)
Definition dup_or_null (o : option Octstr) : res Octstr :=
  n ← octstr_duplicate o;
  match n with
  | Some n => Ok n
  | None => octstr_create [40; 110; 117; 108; 108; 41]
  end.

Definition truncate_to (new : Octstr) (n : Z) : res Octstr :=
  t ← octstr_truncate (Some new) n;
  match t with
  | Some t => Ok t
  | None => Undef
  end.

Definition url_encode_in (new : Octstr) : res Octstr :=
  t ← octstr_url_encode (Some new);
  match t with
  | Some t => Ok t
  | None => Undef
  end.

(** The [switch] of [convert]: the text of one conversion. *)
Definition convert_new (f : format) (c : Z) (args : list arg) : res (Octstr * list arg) :=
  if c =? 99 then
    '(n, args) ← arg_int args;
    new ← octstr_create_from_data [n mod 256] 0 1;
    Ok (new, args)
  else if (c =? 100) || (c =? 105) then
    '(n, args) ← arg_int args;
    new ← octstr_create [];
    new ← octstr_append_decimal new (signed_arg f n);
    Ok (new, args)
  else if (c =? 111) || (c =? 117) || (c =? 120) || (c =? 88) then
    '(n, args) ← arg_int args;
    new ← octstr_create (sprintf_lu c (unsigned_arg f n));
    Ok (new, args)
  else if (c =? 101) || (c =? 102) || (c =? 103) then
    match args with
    | ADouble x :: args =>
        new ← octstr_create (take 1023 (sprintf_double f c x));
        Ok (new, args)
    | _ => Undef
    end
  else if c =? 115 then
    match args with
    | AStr s :: args =>
        let n := if f_has_prec f && (f_prec f <? zlen s) then f_prec f else zlen s in
        new ← octstr_create_from_data (s ++ [0]) 0 n;
        Ok (new, args)
    | _ => Undef
    end
  else if c =? 112 then
    match args with
    | APtr p :: args =>
        new ← octstr_create (sprintf_p p);
        Ok (new, args)
    | _ => Undef
    end
  else if c =? 83 then
    '(o, args) ← arg_oct args;
    new ← dup_or_null o;
    new ← (if f_has_prec f then truncate_to new (f_prec f) else Ok new);
    Ok (new, args)
  else if c =? 69 then
    '(o, args) ← arg_oct args;
    new ← dup_or_null o;
    new ← url_encode_in new;
    new ← (if f_has_prec f then truncate_to new (f_prec f) else Ok new);
    Ok (new, args)
  else if c =? 72 then
    '(o, args) ← arg_oct args;
    new ← dup_or_null o;
    new ← octstr_binary_to_hex new true;
    new ← (if f_has_prec f then
             truncate_to new (if negb (Z.rem (f_prec f) 2 =? 0) then f_prec f - 1 else f_prec f)
           else Ok new);
    Ok (new, args)
  else if c =? 37 then
    new ← octstr_create [37];
    Ok (new, args)
  else Panic.

(** The two padding loops. *)
Fixpoint pad_loop (minus : bool) (pad : Z) (min_width : Z) (new : Octstr) (fuel : nat) : res Octstr :=
  match fuel with
  | O => Undef
  | S fuel =>
      n ← octstr_len (Some new);
      if n <? min_width then
        new ← (if minus : bool then octstr_append_data new [pad] 1 else octstr_insert_data new 0 [pad] 1);
        pad_loop minus pad min_width new fuel
      else Ok new
  end.

Definition convert (os : Octstr) (f : format) (fmt : list Z) (args : list arg)
  : res (Octstr * list Z * list arg) :=
  '(new, args) ← convert_new f (at_fmt fmt) args;
  let pad := if f_zero f then 48 else 32 in
  new ← pad_loop (f_minus f) pad (f_min_width f) new (S (Z.to_nat (f_min_width f)));
  os ← octstr_append os (Some new);
  Ok (os, drop 1 fmt, args).

(** [strcspn(fmt, "%")]. *)
Fixpoint strcspn_percent (fmt : list Z) : nat :=
  match fmt with
  | c :: fmt => if c =? 37 then O else S (strcspn_percent fmt)
  | [] => O
  end.

Fixpoint format_loop (os : Octstr) (fmt : list Z) (args : list arg) (fuel : nat) : res Octstr :=
  match fuel with
  | O => Undef
  | S fuel =>
      match fmt with
      | [] => Ok os
      | _ :: _ =>
          let n := strcspn_percent fmt in
          os ← octstr_append_data os fmt (Z.of_nat n);
          let fmt := drop n fmt in
          assert: (at_fmt fmt =? 37) || (at_fmt fmt =? 0);
          if at_fmt fmt =? 0 then format_loop os fmt args fuel
          else
            let '(f, fmt) := format_flags no_format (drop 1 fmt) in
            '(f, fmt, args) ← format_width f fmt args;
            '(f, fmt, args) ← format_prec f fmt args;
            let '(f, fmt) := format_type f fmt in
            '(os, fmt, args) ← convert os f fmt args;
            format_loop os fmt args fuel
      end
  end.

(** [octstr_format] and [octstr_format_valist]; every round uses a character. *)
Definition octstr_format (fmt : list Z) (args : list arg) : res Octstr :=
  os ← octstr_create [];
  os ← format_loop os fmt args (S (S (length fmt)));
  seems_valid os ≫= fun _ => Ok os.

Definition octstr_format_append (os : Octstr) (fmt : list Z) (args : list arg) : res Octstr :=
  temp ← octstr_format fmt args;
  octstr_append os (Some temp).
End formatter.

(** ** Digits *)

Lemma digit_of_hexdig (up : bool) (d : Z) : 0 <= d < 16 -> digit_of (hexdig up d) = Some d.
Proof.
  intros Hd. assert (d = 0 \/ d = 1 \/ d = 2 \/ d = 3 \/ d = 4 \/ d = 5 \/ d = 6 \/ d = 7 \/ d = 8 \/
    d = 9 \/ d = 10 \/ d = 11 \/ d = 12 \/ d = 13 \/ d = 14 \/ d = 15) as Hc by lia.
  destruct up; repeat destruct Hc as [->|Hc]; try subst; reflexivity.
Qed.

Section digits.
Context (b : Z) (up : bool) (Hb : 2 <= b <= 16).

Lemma print_base_small (fuel : nat) (v : Z) :
  0 <= v < b ^ Z.of_nat (S fuel) -> ~ v < b -> 0 <= v / b < b ^ Z.of_nat fuel /\ 0 <= v mod b < b /\ 0 < v / b.
Proof.
  rewrite Nat2Z.inj_succ, Z.pow_succ_r by lia. intros Hv Hge.
  pose proof (Z.div_mod v b ltac:(lia)). pose proof (Z.mod_pos_bound v b ltac:(lia)).
  split_and!; nia.
Qed.

(** Reading back what was printed. *)
Lemma strtol_digits_print (fuel : nat) : forall v acc n rest,
  0 <= v < b ^ Z.of_nat fuel -> (0 < fuel)%nat ->
  strtol_digits b acc n (print_base b up fuel v ++ rest) =
  strtol_digits b (acc * b ^ zlen (print_base b up fuel v) + v) (n + zlen (print_base b up fuel v)) rest.
Proof.
  induction fuel as [|fuel IH]; intros v acc n rest Hv Hf; [lia|].
  cbn [print_base]. destruct (Z.ltb_spec v b) as [Hlt|Hge].
  - change (zlen [hexdig up v]) with 1. cbn [app strtol_digits]. rewrite digit_of_hexdig by lia.
    destruct (Z.ltb_spec v b); [|lia]. f_equal; lia.
  - destruct (print_base_small fuel v Hv ltac:(lia)) as (H1 & H2 & H3).
    destruct fuel as [|fuel]; [change (Z.of_nat 0) with 0 in H1; lia|].
    rewrite <- app_assoc, IH by (done || lia). cbn [app strtol_digits].
    rewrite digit_of_hexdig by lia. destruct (Z.ltb_spec (v mod b) b); [|lia].
    rewrite zlen_app. change (zlen [hexdig up (v mod b)]) with 1.
    rewrite Z.pow_add_r, Z.pow_1_r by (pose proof (zlen_nonneg (print_base b up (S fuel) (v / b))); lia).
    pose proof (Z.div_mod v b ltac:(lia)). f_equal; [|lia]. nia.
Qed.

Lemma print_base_pos (fuel : nat) (v : Z) : (0 < fuel)%nat -> 0 < zlen (print_base b up fuel v).
Proof.
  destruct fuel; [lia|]. intros _. cbn [print_base]. destruct (v <? b); [done|].
  rewrite zlen_app. change (zlen [hexdig up (v mod b)]) with 1. pose proof (zlen_nonneg (print_base b up fuel (v / b))). lia.
Qed.

Lemma print_base_octets (fuel : nat) : forall v, 0 <= v -> octets (print_base b up fuel v).
Proof.
  assert (forall d, 0 <= d < 16 -> octet (hexdig up d)) as Hd.
  { intros d Hd'. by apply (hexdig_ok up d). }
  induction fuel as [|fuel IH]; intros v Hv; cbn [print_base]; [apply Forall_nil_2|].
  destruct (Z.ltb_spec v b); [apply Forall_singleton, Hd; lia|].
  pose proof (Z.mod_pos_bound v b ltac:(lia)).
  apply Forall_app. split; [apply IH, Z.div_pos; lia|]. apply Forall_singleton, Hd. lia.
Qed.

(** Each digit is one, and the first is not 0 unless the number is. *)
Lemma print_base_digits (fuel : nat) : forall v, 0 <= v ->
  Forall (fun c => exists d, 0 <= d < b /\ c = hexdig up d) (print_base b up fuel v).
Proof.
  induction fuel as [|fuel IH]; intros v Hv; cbn [print_base]; [apply Forall_nil_2|].
  destruct (Z.ltb_spec v b); [apply Forall_singleton; exists v; split; [lia|done]|].
  pose proof (Z.mod_pos_bound v b ltac:(lia)).
  apply Forall_app. split; [apply IH, Z.div_pos; lia|]. apply Forall_singleton. by exists (v mod b).
Qed.

Lemma print_base_head (fuel : nat) : forall v, 0 < v < b ^ Z.of_nat fuel ->
  exists d l, 0 < d < b /\ print_base b up fuel v = hexdig up d :: l.
Proof.
  induction fuel as [|fuel IH]; intros v Hv; [change (Z.of_nat 0) with 0 in Hv; lia|].
  cbn [print_base]. destruct (Z.ltb_spec v b); [exists v, []; split; [lia|done]|].
  destruct (print_base_small fuel v ltac:(lia) ltac:(lia)) as (H1 & H2 & H3).
  destruct (IH (v / b)) as (d & l & Hd & ->); [lia|]. exists d, (l ++ [hexdig up (v mod b)]). done.
Qed.
End digits.

(** The number ends before [rest]. *)
Definition stops (b : Z) (rest : list Z) : Prop :=
  match rest with
  | c :: _ => match digit_of c with Some d => b <= d | None => True end
  | [] => True
  end.

Lemma strtol_digits_stop b acc n rest : stops b rest -> strtol_digits b acc n rest = (acc, n).
Proof.
  destruct rest as [|c rest]; simpl; [done|]. destruct (digit_of c); [|done].
  intros. by destruct (Z.ltb_spec z b); [lia|].
Qed.

Lemma strtol_digits_zeros b (k : nat) n l :
  0 < b -> strtol_digits b 0 n (replicate k 48 ++ l) = strtol_digits b 0 (n + Z.of_nat k) l.
Proof.
  intros Hb. revert n. induction k as [|k IH]; intros n; [by rewrite Z.add_0_r|].
  cbn [replicate app strtol_digits]. change (digit_of 48) with (Some 0). cbv iota beta.
  destruct (Z.ltb_spec 0 b); [|lia]. rewrite Z.mul_0_l, Z.add_0_l, IH. f_equal. lia.
Qed.

(** A digit is neither a space nor a sign. *)
Lemma digit_front c l n :
  is_Some (digit_of c) -> skip_space (c :: l) n = (c :: l, n) /\ strtol_sign (c :: l) n = (false, c :: l, n).
Proof.
  unfold digit_of, skip_space, strtol_sign, isspace, isdigit, isupper, islower. intros [d Hd].
  split; repeat case_match; try done; lia.
Qed.

(** [strtol] on a number with leading zeros. *)
Lemma strtol_padded (b : Z) (up : bool) (fuel k : nat) (v : Z) (rest : list Z) :
  2 <= b <= 16 -> 0 <= v < b ^ Z.of_nat fuel -> (0 < fuel)%nat -> v <= LONG_MAX -> stops b rest ->
  (b = 16 -> hex_prefix (replicate k 48 ++ print_base b up fuel v ++ rest) = false) ->
  strtol (replicate k 48 ++ print_base b up fuel v ++ rest) b
    = (v, Z.of_nat k + zlen (print_base b up fuel v), false).
Proof.
  intros Hb Hv Hf Hm Hr Hx. set (l := replicate k 48 ++ print_base b up fuel v ++ rest) in *.
  pose proof (print_base_pos b up fuel v Hf) as Hp.
  assert (exists c l', l = c :: l' /\ is_Some (digit_of c)) as (c & l' & El & Hc).
  { unfold l. destruct k as [|k]; simpl; [|by exists 48, (replicate k 48 ++ print_base b up fuel v ++ rest)].
    pose proof (print_base_digits b up Hb fuel v ltac:(lia)) as Hd.
    destruct (print_base b up fuel v) as [|c p]; [done|]. exists c, (p ++ rest). split; [done|].
    apply Forall_cons_iff in Hd as [(d & Hd & ->) _]. rewrite digit_of_hexdig by lia. done. }
  unfold strtol. rewrite El. destruct (digit_front c l' 0 Hc) as [-> ->]. rewrite <- El.
  assert (((b =? 0) || (b =? 16)) && hex_prefix l = false) as ->.
  { destruct (Z.eqb_spec b 0); [lia|]. destruct (Z.eqb_spec b 16); [by rewrite Hx|done]. }
  destruct (Z.eqb_spec b 0); [lia|].
  assert (strtol_digits b 0 0 l = (v, Z.of_nat k + zlen (print_base b up fuel v))) as ->.
  { unfold l. rewrite strtol_digits_zeros, strtol_digits_print, strtol_digits_stop by (done || lia).
    f_equal; lia. }
  destruct (Z.eqb_spec (Z.of_nat k + zlen (print_base b up fuel v)) 0); [lia|].
  destruct (Z.ltb_spec LONG_MAX v); [lia|]. destruct (Z.ltb_spec v LONG_MIN); [unfold LONG_MIN in *; lia|].
  done.
Qed.

Lemma ten_pow_20 : 2 ^ 63 < 10 ^ Z.of_nat 20.
Proof. reflexivity. Qed.

(** [strtol] reads back what [sprintf] printed. *)
Lemma strtol_sprintf_ld (v : Z) (rest : list Z) :
  LONG_MIN <= v <= LONG_MAX -> stops 10 rest ->
  strtol (sprintf_ld v ++ rest) 10 = (v, zlen (sprintf_ld v), false).
Proof.
  intros Hv Hr. pose proof ten_pow_20 as H20. unfold sprintf_ld, LONG_MIN, LONG_MAX in *.
  destruct (Z.ltb_spec v 0) as [Hneg|Hpos].
  - pose proof (print_base_pos 10 false 20 (- v) ltac:(lia)) as Hp.
    pose proof (print_base_digits 10 false ltac:(lia) 20 (- v) ltac:(lia)) as Hd.
    unfold strtol. cbn [app skip_space]. change (isspace 45) with false. cbv iota beta.
    cbn [strtol_sign]. change (45 =? 45) with true. cbv iota beta.
    change (((10 =? 0) || (10 =? 16))) with false. cbn [andb]. change (10 =? 0) with false. cbv iota beta.
    rewrite (strtol_digits_print 10 false ltac:(lia) 20 (- v) 0 0 rest ltac:(lia) ltac:(lia)).
    rewrite strtol_digits_stop by done.
    destruct (Z.eqb_spec (0 + zlen (print_base 10 false 20 (- v))) 0); [lia|].
    unfold LONG_MAX, LONG_MIN.
    destruct (Z.ltb_spec (2 ^ 63 - 1) (- (0 * 10 ^ zlen (print_base 10 false 20 (- v)) + - v))); [lia|].
    destruct (Z.ltb_spec (- (0 * 10 ^ zlen (print_base 10 false 20 (- v)) + - v)) (- 2 ^ 63)); [lia|].
    assert (zlen (45 :: print_base 10 false 20 (- v)) = 1 + zlen (print_base 10 false 20 (- v))) as -> by list_lia.
    assert (- (0 * 10 ^ zlen (print_base 10 false 20 (- v)) + - v) = v) as -> by lia.
    done.
  - pose proof (strtol_padded 10 false 20 0 v rest) as P. cbn [replicate app] in P.
    rewrite (P ltac:(lia) ltac:(lia) ltac:(lia) ltac:(unfold LONG_MAX; lia) Hr ltac:(lia)).
    by rewrite Z.add_0_l.
Qed.

#[global] Strategy 1000 [print_base].

(** ** Numbers in strings *)

Lemma octstr_parse_long_ok (o : Octstr) (s : list Z) (pos base : Z) :
  repr o s -> 0 <= pos -> base = 0 \/ 2 <= base <= 36 ->
  octstr_parse_long o pos base =
  Ok (if zlen s <=? pos then None
      else let '(number, used, erange) := strtol (cstr (drop (Z.to_nat pos) s)) base in
        if erange : bool then None else if used =? 0 then None else Some (number, pos + used)).
Proof.
  intros Ho Hp Hb. unfold octstr_parse_long. rewrite (repr_seems_valid _ _ Ho), (repr_len _ _ Ho).
  bind_red. rewrite gw_assert_true by lia. bind_red. destruct (Z.leb_spec (zlen s) pos); [done|].
  destruct (Z.ltb_spec pos 0); [lia|].
  assert (cstr (drop (Z.to_nat pos) (os_data o)) = cstr (drop (Z.to_nat pos) s)) as ->.
  { destruct Ho as [|s rest]; [done|]. simpl. rewrite drop_app_le by list_lia. apply cstr_app_nul. }
  destruct (strtol _ base) as [[number used] [|]]; [done|]. by destruct (used =? 0).
Qed.

Lemma sprintf_ld_ok (v : Z) :
  LONG_MIN <= v <= LONG_MAX -> octets (sprintf_ld v) /\ Forall (fun c => c <> 0) (sprintf_ld v) /\ 0 < zlen (sprintf_ld v).
Proof.
  intros Hv. unfold sprintf_ld.
  assert (forall w, 0 <= w -> Forall (fun c => c <> 0) (print_base 10 false 20 w)) as Hn.
  { intros w Hw. eapply Forall_impl; [|apply (print_base_digits 10 false ltac:(lia) 20 w Hw)].
    intros c (d & Hd & ->). apply (hexdig_ok false d). lia. }
  destruct (Z.ltb_spec v 0).
  - split_and!.
    + apply Forall_cons_2; [done|]. apply print_base_octets; lia.
    + apply Forall_cons_2; [done|]. apply Hn. lia.
    + list_lia.
  - split_and!; [apply print_base_octets; lia|apply Hn; lia|]. apply print_base_pos. lia.
Qed.

(** A number of the type [long] appended to a string in decimal is read back
    by [octstr_parse_long] from where it starts: the same number, ending at the
    end of the string; the string before it does not matter. *)
Theorem octstr_decimal_roundtrip (o : Octstr) (s : list Z) (v : Z) :
  reprm o s -> LONG_MIN <= v <= LONG_MAX ->
  returns (octstr_append_decimal o v) (fun o' =>
    reprm o' (s ++ sprintf_ld v) /\ octstr_parse_long o' (zlen s) 10 = Ok (Some (v, os_len o'))).
Proof.
  intros Ho Hv. destruct (sprintf_ld_ok v Hv) as (Hoct & Hnul & Hpos). unfold octstr_append_decimal.
  apply (returns_mono _ _ _ (octstr_append_cstr_ok o s _ Ho Hoct)). intros o' Ho'. split; [done|].
  pose proof (zlen_nonneg s). rewrite (octstr_parse_long_ok o' _ (zlen s) 10 (proj1 Ho')) by lia.
  rewrite (repr_len _ _ (proj1 Ho')), zlen_app. destruct (Z.leb_spec (zlen s + zlen (sprintf_ld v)) (zlen s)); [lia|].
  rewrite drop_app_ge by list_lia. replace (Z.to_nat (zlen s) - length s)%nat with 0%nat by list_lia.
  rewrite drop_0, (cstr_no_nul _ Hnul). pose proof (strtol_sprintf_ld v [] Hv I) as E.
  rewrite app_nil_r in E. rewrite E. by destruct (Z.eqb_spec (zlen (sprintf_ld v)) 0); [lia|].
Qed.

Lemma octstr_decimal_roundtrip_witness :
  returns (octstr_append_decimal (mk_os [53; 53]) (-42)) (fun o' =>
    reprm o' ([53; 53] ++ sprintf_ld (-42)) /\ octstr_parse_long o' 2 10 = Ok (Some (-42, os_len o'))).
Proof.
  apply (octstr_decimal_roundtrip (mk_os [53; 53]) [53; 53] (-42)).
  - mk_os.
  - vm_compute. split; discriminate.
Defined.

(** ** What a format means

    A format is read as literal texts and conversions in turn, and a last
    literal text.  [dir_text] writes a conversion out, [render] is the text it
    stands for. *)

Record directive := mkDirective {
  d_minus : bool;
  d_zero : bool;
  d_width : Z;
  d_prec : option Z;
  d_type : Z;
  d_conv : Z
}.

Definition dir_format (d : directive) : format :=
  mkFormat (d_minus d) (d_zero d) (d_width d)
    (match d_prec d with Some _ => true | None => false end) (default 0 (d_prec d)) (d_type d).

Definition type_text (t : Z) : list Z := if t =? 76 then [108; 108] else if t =? 0 then [] else [t].

Definition dir_text (d : directive) : list Z :=
  (if d_minus d then [45] else []) ++ (if d_zero d then [48] else []) ++
  (if 0 <? d_width d then print_base 10 false 20 (d_width d) else []) ++
  (match d_prec d with Some p => 46 :: print_base 10 false 20 p | None => [] end) ++
  type_text (d_type d) ++ [d_conv d].

Record dir_ok (d : directive) : Prop := {
  dk_width : 0 <= d_width d <= LONG_MAX;
  dk_prec : match d_prec d with Some p => 0 <= p <= LONG_MAX | None => True end;
  dk_type : d_type d ∈ [0; 104; 108; 76];
  dk_conv : d_conv d ∈ [99; 100; 105; 111; 117; 120; 88; 115; 83; 69; 72]
}.

Definition oct_text (o : option Octstr) : list Z :=
  match o with
  | Some o => bytes o
  | None => [40; 110; 117; 108; 108; 41]
  end.

Definition limited (p : option Z) (s : list Z) : list Z :=
  match p with
  | Some p => take (Z.to_nat p) s
  | None => s
  end.

Definition padded (minus : bool) (pad w : Z) (s : list Z) : list Z :=
  let fill := replicate (Z.to_nat w - length s) pad in
  if minus then s ++ fill else fill ++ s.

Section render.
Context `{!Printf}.

Definition render_conv (d : directive) (a : arg) : option (list Z) :=
  let c := d_conv d in
  match a with
  | AInt n =>
      if c =? 99 then Some [n mod 256]
      else if (c =? 100) || (c =? 105) then Some (sprintf_ld (signed_arg (dir_format d) n))
      else if (c =? 111) || (c =? 117) || (c =? 120) || (c =? 88)
      then Some (sprintf_lu c (unsigned_arg (dir_format d) n))
      else None
  | AStr s => if c =? 115 then Some (limited (d_prec d) s) else None
  | AOct o =>
      if c =? 83 then Some (limited (d_prec d) (oct_text o))
      else if c =? 69 then Some (limited (d_prec d) (url_encode (oct_text o)))
      else if c =? 72 then
        Some (limited (option_map (fun p => p - p mod 2) (d_prec d)) (hex_encode true (oct_text o)))
      else None
  | _ => None
  end.

Definition arg_ok (a : arg) : Prop :=
  match a with
  | AStr s => octets s
  | AOct (Some o) => repr o (bytes o)
  | _ => True
  end.

Definition render (d : directive) (a : arg) : list Z :=
  padded (d_minus d) (if d_zero d then 48 else 32) (d_width d) (default [] (render_conv d a)).

(** The integers printed. *)
Lemma swrap_range (w z : Z) : 0 < w -> - 2 ^ (w - 1) <= swrap w z <= 2 ^ (w - 1) - 1.
Proof.
  intros Hw. unfold swrap. pose proof (Z.mod_pos_bound (z + 2 ^ (w - 1)) (2 ^ w) ltac:(apply Z.pow_pos_nonneg; lia)).
  assert (2 ^ w = 2 * 2 ^ (w - 1)) by (rewrite <- Z.pow_succ_r by lia; f_equal; lia). lia.
Qed.

Lemma swrap_small (w z : Z) : 0 < w -> - 2 ^ (w - 1) <= z < 2 ^ (w - 1) -> swrap w z = z.
Proof.
  intros Hw Hz. unfold swrap.
  assert (2 ^ w = 2 * 2 ^ (w - 1)) by (rewrite <- Z.pow_succ_r by lia; f_equal; lia).
  rewrite Z.mod_small by lia. lia.
Qed.

Lemma signed_arg_range (f : format) (n : Z) : LONG_MIN <= signed_arg f n <= LONG_MAX.
Proof.
  unfold signed_arg, LONG_MIN, LONG_MAX. pose proof (swrap_range 64 n ltac:(lia)).
  pose proof (swrap_range 32 n ltac:(lia)). pose proof (swrap_range 16 n ltac:(lia)).
  destruct (_ || _); [lia|]. destruct (_ =? _); lia.
Qed.

Lemma sprintf_lu_octets (c v : Z) : 0 <= v -> octets (sprintf_lu c v).
Proof. intros. unfold sprintf_lu. repeat case_match; apply print_base_octets; lia. Qed.

Lemma unsigned_arg_nonneg (f : format) (n : Z) : 0 <= unsigned_arg f n.
Proof.
  unfold unsigned_arg. destruct (_ || _); [apply Z.mod_pos_bound; lia|].
  destruct (_ =? _); apply Z.mod_pos_bound; lia.
Qed.

Lemma dup_or_null_ok (o : option Octstr) :
  arg_ok (AOct o) -> returns (dup_or_null o) (fun n => reprm n (oct_text o)).
Proof.
  intros Ho. unfold dup_or_null. destruct o as [o|]; cbn [octstr_duplicate oct_text arg_ok] in *; bind_red.
  - apply returns_bind, (returns_mono _ _ _ (octstr_duplicate_ok o _ Ho)).
    intros n (n' & -> & Hn). done.
  - apply octstr_create_ok. octets_tac.
Qed.

Lemma truncate_to_ok (o : Octstr) (s : list Z) (n : Z) :
  reprm o s -> 0 <= n -> returns (truncate_to o n) (fun o' => reprm o' (take (Z.to_nat n) s)).
Proof.
  intros Ho Hn. unfold truncate_to. apply returns_bind, (returns_mono _ _ _ (octstr_truncate_ok o s n Ho Hn)).
  intros t (t' & -> & Ht). done.
Qed.

Lemma url_encode_in_ok (o : Octstr) (s : list Z) :
  reprm o s -> returns (url_encode_in o) (fun o' => reprm o' (url_encode s)).
Proof.
  intros Ho. unfold url_encode_in. apply returns_bind, (returns_mono _ _ _ (octstr_url_encode_ok o s Ho)).
  intros t (t' & -> & Ht). done.
Qed.

(** The truncation after a conversion of an octet string. *)
Lemma limit_ok (d : directive) (o : Octstr) (s : list Z) (g : Z -> Z) (args : list arg) :
  reprm o s -> (forall p, d_prec d = Some p -> 0 <= g p) ->
  returns (new ← (if f_has_prec (dir_format d) then truncate_to o (g (f_prec (dir_format d))) else Ok o);
           Ok (new, args))
    (fun '(new, args') => reprm new (limited (option_map g (d_prec d)) s) /\ args' = args).
Proof.
  intros Ho Hg. unfold dir_format. destruct (d_prec d) as [p|]; cbn [f_has_prec f_prec option_map limited].
  - apply returns_bind, (returns_mono _ _ _ (truncate_to_ok o s (g p) Ho (Hg p eq_refl))). done.
  - done.
Qed.

Lemma option_map_id_eq {A} (o : option A) : option_map (fun x => x) o = o.
Proof. by destruct o. Qed.

Lemma even_prec (p : Z) :
  0 <= p -> (if negb (Z.rem p 2 =? 0) then p - 1 else p) = p - p mod 2.
Proof.
  intros Hp. rewrite Z.rem_mod_nonneg by lia. pose proof (Z.mod_pos_bound p 2 ltac:(lia)).
  destruct (Z.eqb_spec (p mod 2) 0); simpl; lia.
Qed.

Lemma convert_string_ok (d : directive) (s : list Z) :
  octets s -> dir_ok d ->
  returns (octstr_create_from_data (s ++ [0]) 0
    (if f_has_prec (dir_format d) && (f_prec (dir_format d) <? zlen s) then f_prec (dir_format d) else zlen s))
    (fun o => reprm o (limited (d_prec d) s)).
Proof.
  intros Hs [_ Hp _ _]. unfold dir_format. cbn [f_has_prec f_prec].
  set (n := if _ && _ then _ else _).
  assert (0 <= n <= zlen s /\ limited (d_prec d) s = take (Z.to_nat n) s) as [Hn ->].
  { pose proof (zlen_nonneg s). unfold n. destruct (d_prec d) as [p|]; cbn [andb limited].
    - change (default 0 (Some p)) with p. destruct (Z.ltb_spec p (zlen s)); [split; [lia|done]|]. rewrite !take_ge by list_lia. split; [lia|done].
    - rewrite take_ge by list_lia. split; [lia|done]. }
  assert (slice (s ++ [0]) 0 n = take (Z.to_nat n) s) as E.
  { unfold slice. rewrite drop_0, take_app_le by list_lia. done. }
  rewrite <- E. apply octstr_create_from_data_ok; [lia|lia|list_lia|]. rewrite E. by apply Forall_take.
Qed.

Lemma convert_new_ok (d : directive) (a : arg) (args : list arg) (t : list Z) :
  dir_ok d -> arg_ok a -> render_conv d a = Some t ->
  returns (convert_new (dir_format d) (d_conv d) (a :: args))
    (fun '(new, args') => reprm new t /\ args' = args).
Proof.
  intros Hd Ha Ht. pose proof Hd as [_ Hp _ Hc].
  assert (forall p, d_prec d = Some p -> 0 <= p) as Hpos.
  { intros p E. rewrite E in Hp. lia. }
  unfold convert_new. repeat (apply elem_of_cons in Hc as [E|Hc];
    [unfold render_conv in Ht; rewrite E in *; destruct a as [n|s|o|x|p]; try discriminate Ht;
     cbn [Z.eqb Pos.eqb orb] in *; injection Ht as <-; cbn [arg_int arg_oct]; bind_red|]);
    [..|by apply not_elem_of_nil in Hc].
  4-7: by apply returns_bind, (returns_mono _ _ _ (octstr_create_ok _ (sprintf_lu_octets _ _ (unsigned_arg_nonneg _ _)))).
  2-3: apply returns_bind, (returns_mono _ _ _ (octstr_create_ok [] (Forall_nil_2 _))); intros o Ho;
    by apply returns_bind, (returns_mono _ _ _ (octstr_append_cstr_ok o [] _ Ho
      (proj1 (sprintf_ld_ok _ (signed_arg_range (dir_format d) n))))).
  - apply returns_bind. eapply returns_mono; [apply (octstr_create_from_data_ok [n mod 256] 0 1); try done|].
    + apply Forall_singleton, octet_mod.
    + done.
  - apply returns_bind, (returns_mono _ _ _ (convert_string_ok d s Ha Hd)). done.
  - apply returns_bind, (returns_mono _ _ _ (dup_or_null_ok o Ha)). intros new Hn.
    pose proof (limit_ok d new _ (fun p => p) args Hn Hpos) as P. by rewrite option_map_id_eq in P.
  - apply returns_bind, (returns_mono _ _ _ (dup_or_null_ok o Ha)). intros new Hn.
    apply returns_bind, (returns_mono _ _ _ (url_encode_in_ok new _ Hn)). intros new' Hn'.
    pose proof (limit_ok d new' _ (fun p => p) args Hn' Hpos) as P. by rewrite option_map_id_eq in P.
  - apply returns_bind, (returns_mono _ _ _ (dup_or_null_ok o Ha)). intros new Hn.
    apply returns_bind, (returns_mono _ _ _ (octstr_binary_to_hex_ok new _ true Hn)). intros new' Hn'.
    pose proof (limit_ok d new' _ (fun p => if negb (Z.rem p 2 =? 0) then p - 1 else p) args Hn') as P.
    assert (option_map (fun p => if negb (Z.rem p 2 =? 0) then p - 1 else p) (d_prec d)
      = option_map (fun p => p - p mod 2) (d_prec d)) as E'.
    { destruct (d_prec d) as [p|]; [|done]. simpl. f_equal. apply even_prec, Hpos. done. }
    rewrite E' in P. apply P. intros p Ep. rewrite even_prec by by apply Hpos.
    specialize (Hpos p Ep). pose proof (Z.mod_le p 2 Hpos ltac:(lia)). lia.
Qed.

Lemma replicate_shift {A} (k : nat) (x : A) (l : list A) :
  replicate (S k) x ++ l = replicate k x ++ x :: l.
Proof. induction k as [|k IH]; [done|]. cbn [replicate app] in *. by rewrite <- IH. Qed.

Lemma pad_loop_ok (minus : bool) (pad w : Z) (fuel : nat) : octet pad -> forall o s,
  reprm o s -> w - zlen s < Z.of_nat fuel -> (0 < fuel)%nat ->
  returns (pad_loop minus pad w o fuel) (fun o' => reprm o' (padded minus pad w s)).
Proof.
  intros Hpad. induction fuel as [|fuel IH]; intros o s Ho Hf Hpos; [lia|].
  cbn [pad_loop]. unfold octstr_len. rewrite (repr_seems_valid _ _ (proj1 Ho)), (repr_len _ _ (proj1 Ho)). bind_red.
  destruct (Z.ltb_spec (zlen s) w) as [Hlt|Hge].
  - set (s' := if minus then s ++ [pad] else pad :: s).
    assert (padded minus pad w s = padded minus pad w s' /\ zlen s' = zlen s + 1) as [-> Hl].
    { set (k := (Z.to_nat w - length s - 1)%nat).
      assert (length s' = S (length s)) as Hl by (unfold s'; destruct minus; list_lia).
      split; [|list_lia]. unfold padded. rewrite Hl.
      replace (Z.to_nat w - S (length s))%nat with k by (unfold k; lia).
      replace (Z.to_nat w - length s)%nat with (S k) by (unfold k; list_lia).
      unfold s'. destruct minus; [by rewrite <- app_assoc|apply replicate_shift]. }
    apply returns_bind. apply (returns_mono _ (fun o' => reprm o' s')).
    + unfold s'. destruct minus.
      * pose proof (octstr_append_data_ok o s [pad] 1 Ho ltac:(list_lia)) as P. apply P. by apply Forall_singleton.
      * pose proof (octstr_insert_data_ok o s [pad] 0 1 Ho ltac:(list_lia) ltac:(list_lia)) as P.
        apply P. by apply Forall_singleton.
    + intros o' Ho'. apply (IH o' s' Ho'); lia.
  - cbn [returns]. unfold padded. replace (Z.to_nat w - length s)%nat with 0%nat by list_lia.
    destruct minus; simpl; [by rewrite app_nil_r|done].
Qed.

Lemma convert_ok (os : Octstr) (s : list Z) (d : directive) (a : arg) (args : list arg) (rest t : list Z) :
  reprm os s -> dir_ok d -> arg_ok a -> render_conv d a = Some t ->
  returns (convert os (dir_format d) (d_conv d :: rest) (a :: args)) (fun '(os', fmt, args') =>
    reprm os' (s ++ render d a) /\ fmt = rest /\ args' = args).
Proof.
  intros Hos Hd Ha Ht. unfold convert. change (at_fmt (d_conv d :: rest)) with (d_conv d). apply returns_bind.
  apply (returns_mono _ _ _ (convert_new_ok d a args t Hd Ha Ht)). intros [new args'] [Hn ->].
  cbn [dir_format f_zero f_minus f_min_width]. apply returns_bind. pose proof (dk_width _ Hd).
  eapply returns_mono; [apply (pad_loop_ok (d_minus d) (if d_zero d then 48 else 32) (d_width d) _
    ltac:(unfold octet; destruct (d_zero d); lia) new t Hn); pose proof (zlen_nonneg t); lia|].
  intros new' Hn'. apply returns_bind.
  apply (returns_mono _ _ _ (octstr_append_ok os new' s _ Hos (proj1 Hn'))). intros os' Hos'.
  cbn [returns]. unfold render. rewrite Ht. done.
Qed.

(** ** Reading a conversion *)

(** A character after the width: neither a flag nor a digit nor a star. *)
Definition after_width (c : Z) : bool :=
  negb (c =? 45) && negb (c =? 48) && negb (c =? 42) && negb (isdigit c) &&
  match digit_of c with Some d => 10 <=? d | None => true end.

Lemma format_flags_stop (f : format) (c : Z) (l : list Z) :
  c <> 45 -> c <> 48 -> format_flags f (c :: l) = (f, c :: l).
Proof. intros H1 H2. simpl. destruct (Z.eqb_spec c 45); [done|]. by destruct (Z.eqb_spec c 48). Qed.

Lemma fmt_number_ok (w c : Z) (l : list Z) :
  0 <= w <= LONG_MAX -> after_width c = true ->
  fmt_number (print_base 10 false 20 w ++ c :: l) = (w, c :: l).
Proof.
  intros Hw Hc. pose proof ten_pow_20. unfold LONG_MAX in *. unfold fmt_number.
  assert (stops 10 (c :: l)) as Hs.
  { unfold after_width in Hc. simpl. destruct (digit_of c); [lia|done]. }
  pose proof (strtol_padded 10 false 20 0 w (c :: l) ltac:(lia) ltac:(lia) ltac:(lia)
    ltac:(unfold LONG_MAX; lia) Hs ltac:(lia)) as E. cbn [replicate app] in E. rewrite E.
  f_equal. rewrite drop_app_ge by list_lia.
  replace (_ - _)%nat with 0%nat by list_lia. done.
Qed.

Lemma digit_head (w c : Z) (l : list Z) :
  0 <= w <= LONG_MAX -> isdigit (at_fmt (print_base 10 false 20 w ++ c :: l)) = true /\
  (0 < w -> at_fmt (print_base 10 false 20 w ++ c :: l) <> 48).
Proof.
  intros Hw. pose proof (print_base_digits 10 false ltac:(lia) 20 w ltac:(lia)) as Hd.
  pose proof (print_base_pos 10 false 20 w ltac:(lia)) as Hp.
  assert (forall d, 0 <= d < 10 -> hexdig false d = d + 48) as Hh.
  { intros d ?. assert (d = 0 \/ d = 1 \/ d = 2 \/ d = 3 \/ d = 4 \/ d = 5 \/ d = 6 \/ d = 7 \/ d = 8 \/ d = 9)
      as Hc by lia. repeat destruct Hc as [->|Hc]; try subst; reflexivity. }
  split.
  - destruct (print_base 10 false 20 w) as [|x p]; [done|]. unfold at_fmt. simpl.
    apply Forall_cons_iff in Hd as [(d & Hd & ->) _]. rewrite Hh by done. unfold isdigit, id. lia.
  - intros Hpos. pose proof ten_pow_20. unfold LONG_MAX in Hw.
    destruct (print_base_head 10 false ltac:(lia) 20 w ltac:(lia)) as (d & p & Hd' & ->).
    unfold at_fmt. simpl. rewrite Hh by lia. unfold id. lia.
Qed.

Lemma isdigit_not (c : Z) : isdigit c = true -> c <> 42 /\ c <> 45 /\ c <> 46.
Proof. unfold isdigit. lia. Qed.

Lemma format_width_ok (f : format) (w c : Z) (l : list Z) (args : list arg) :
  0 <= w <= LONG_MAX -> after_width c = true -> f_min_width f = 0 ->
  format_width f ((if 0 <? w then print_base 10 false 20 w else []) ++ c :: l) args
    = Ok (set_width f w, c :: l, args).
Proof.
  intros Hw Hc Hf. unfold format_width. destruct (Z.ltb_spec 0 w) as [Hpos|Hz].
  - destruct (digit_head w c l Hw) as [E _]. rewrite E. destruct (isdigit_not _ E) as [H1 _].
    destruct (Z.eqb_spec (at_fmt (print_base 10 false 20 w ++ c :: l)) 42); [done|].
    by rewrite fmt_number_ok.
  - cbn [app]. change (at_fmt (c :: l)) with c. unfold after_width in Hc.
    destruct (Z.eqb_spec c 42); [lia|]. destruct (isdigit c); [lia|].
    assert (w = 0) as -> by lia. f_equal. f_equal. f_equal. destruct f; simpl in *. by subst.
Qed.

Lemma format_prec_ok (f : format) (p : option Z) (c : Z) (l : list Z) (args : list arg) :
  match p with Some p => 0 <= p <= LONG_MAX | None => True end -> after_width c = true -> c <> 46 ->
  f_has_prec f = false -> f_prec f = 0 ->
  format_prec f ((match p with Some p => 46 :: print_base 10 false 20 p | None => [] end) ++ c :: l) args
    = Ok (mkFormat (f_minus f) (f_zero f) (f_min_width f) (match p with Some _ => true | None => false end)
            (default 0 p) (f_type f), c :: l, args).
Proof.
  intros Hp Hc H46 H1 H2. unfold format_prec. destruct p as [p|].
  - change (at_fmt ((46 :: print_base 10 false 20 p) ++ c :: l)) with 46. change (46 =? 46) with true. cbn [negb].
    change (drop 1 ((46 :: print_base 10 false 20 p) ++ c :: l)) with (print_base 10 false 20 p ++ c :: l).
    destruct (digit_head p c l Hp) as [E _]. rewrite E. destruct (isdigit_not _ E) as [Hn _].
    destruct (Z.eqb_spec (at_fmt (print_base 10 false 20 p ++ c :: l)) 42); [done|].
    by rewrite fmt_number_ok.
  - cbn [app]. change (at_fmt (c :: l)) with c. destruct (Z.eqb_spec c 46); [done|]. cbn [negb].
    destruct f; simpl in *; by subst.
Qed.

Lemma format_type_ok (d : directive) (f : format) (rest : list Z) :
  dir_ok d -> f_type f = 0 ->
  format_type f (type_text (d_type d) ++ d_conv d :: rest) = (set_type f (d_type d), d_conv d :: rest).
Proof.
  intros [_ _ Ht Hc] Hf. assert (set_type f 0 = f) as Ef by (destruct f; simpl in *; by subst).
  unfold format_type, type_text.
  repeat (apply elem_of_cons in Ht as [Et|Ht]; [rewrite Et; clear Et|]); [..|by apply not_elem_of_nil in Ht];
  repeat (apply elem_of_cons in Hc as [E|Hc]; [rewrite E; clear E; cbn; by rewrite ?Ef|]);
  by apply not_elem_of_nil in Hc.
Qed.

(** The first character after the precision. *)
Lemma type_head (d : directive) (rest : list Z) :
  dir_ok d -> exists c l, type_text (d_type d) ++ d_conv d :: rest = c :: l /\ after_width c = true /\ c <> 46.
Proof.
  intros [_ _ Ht Hc]. unfold type_text.
  repeat (apply elem_of_cons in Ht as [Et|Ht]; [rewrite Et; clear Et|]); [..|by apply not_elem_of_nil in Ht].
  2-4: eexists _, _; split; [reflexivity|]; done.
  repeat (apply elem_of_cons in Hc as [E|Hc]; [rewrite E; eexists _, _; split; [reflexivity|]; done|]).
  by apply not_elem_of_nil in Hc.
Qed.

Lemma format_flags_ok (mi ze : bool) (c : Z) (l : list Z) :
  c <> 45 -> c <> 48 ->
  format_flags no_format ((if mi then [45] else []) ++ (if ze then [48] else []) ++ c :: l)
    = (mkFormat mi ze 0 false 0 0, c :: l).
Proof. intros H1 H2. destruct mi, ze; cbn -[format_flags]; simpl; destruct (Z.eqb_spec c 45), (Z.eqb_spec c 48); done. Qed.

(** The four readers in a row read [dir_text]. *)
Lemma read_directive {A} (d : directive) (rest : list Z) (args : list arg)
    (K : format -> list Z -> list arg -> res A) :
  dir_ok d ->
  (let '(f, fmt) := format_flags no_format (dir_text d ++ rest) in
   '(f, fmt, args) ← format_width f fmt args;
   '(f, fmt, args) ← format_prec f fmt args;
   let '(f, fmt) := format_type f fmt in K f fmt args)
  = K (dir_format d) (d_conv d :: rest) args.
Proof.
  intros Hd. pose proof Hd as [Hw Hp _ _]. destruct (type_head d rest Hd) as (c & l & E4 & Hc & H46).
  unfold dir_text. rewrite <- !app_assoc. cbn [app]. rewrite E4.
  set (T3 := (match d_prec d with Some p => 46 :: print_base 10 false 20 p | None => [] end) ++ c :: l).
  assert (exists c3 l3, T3 = c3 :: l3 /\ after_width c3 = true) as (c3 & l3 & E3 & Hc3).
  { unfold T3. destruct (d_prec d); [by eexists _, _|by exists c, l]. }
  set (T2 := (if 0 <? d_width d then print_base 10 false 20 (d_width d) else []) ++ T3).
  assert (exists c2 l2, T2 = c2 :: l2 /\ c2 <> 45 /\ c2 <> 48) as (c2 & l2 & E2 & H45 & H48).
  { unfold T2. rewrite E3. destruct (Z.ltb_spec 0 (d_width d)).
    - destruct (digit_head (d_width d) c3 l3 Hw) as [Hdig Hnz].
      destruct (print_base 10 false 20 (d_width d) ++ c3 :: l3) as [|x p]; [done|].
      exists x, p. change (at_fmt (x :: p)) with x in *. split; [done|]. split; [|auto].
      apply (isdigit_not _ Hdig).
    - exists c3, l3. split; [done|]. unfold after_width in Hc3. split; lia. }
  rewrite E2, format_flags_ok by done. rewrite <- E2. unfold T2. rewrite E3.
  rewrite format_width_ok by done. bind_red. rewrite <- E3. unfold T3.
  rewrite format_prec_ok by done. bind_red. rewrite <- E4. rewrite format_type_ok by done. done.
Qed.

(** ** Formats *)

(** A literal text and the conversion after it, with its argument. *)
Record segment := mkSegment {
  s_lit : list Z;
  s_dir : directive;
  s_arg : arg
}.

Definition literal (l : list Z) : Prop := Forall (fun c => 0 < c < 256 /\ c <> 37) l.

Definition seg_ok (g : segment) : Prop :=
  literal (s_lit g) /\ dir_ok (s_dir g) /\ arg_ok (s_arg g) /\ is_Some (render_conv (s_dir g) (s_arg g)).

Definition seg_text (g : segment) : list Z := s_lit g ++ 37 :: dir_text (s_dir g).

Definition seg_render (g : segment) : list Z := s_lit g ++ render (s_dir g) (s_arg g).

Lemma literal_octets l : literal l -> octets l.
Proof. apply Forall_impl. unfold octet. intros; lia. Qed.

Lemma strcspn_literal l r : literal l -> strcspn_percent (l ++ 37 :: r) = length l /\ strcspn_percent l = length l.
Proof.
  induction 1 as [|c l [Hc H37] _ [IH1 IH2]]; simpl; [done|].
  destruct (Z.eqb_spec c 37); [done|]. by rewrite IH1, IH2.
Qed.

Lemma format_loop_lit (os : Octstr) (s l r : list Z) :
  reprm os s -> literal l ->
  returns (octstr_append_data os (l ++ r) (Z.of_nat (length l))) (fun os' => reprm os' (s ++ l)).
Proof.
  intros Hos Hl. pose proof (octstr_append_data_ok os s (l ++ r) (Z.of_nat (length l)) Hos ltac:(list_lia)) as P.
  rewrite Nat2Z.id, take_app_length in P. apply P. by apply literal_octets.
Qed.

Lemma format_loop_ok (last : list Z) : literal last -> forall segs os s (fuel : nat),
  Forall seg_ok segs -> reprm os s -> (length segs + 2 <= fuel)%nat ->
  returns (format_loop os (concat (seg_text <$> segs) ++ last) (s_arg <$> segs) fuel)
    (fun o => reprm o (s ++ concat (seg_render <$> segs) ++ last)).
Proof.
  intros Hlast. induction segs as [|g segs IH]; intros os s [|fuel] Hg Hos Hf; try (simpl in Hf; lia).
  - cbn [fmap list_fmap concat app format_loop]. destruct last as [|c last]; [by rewrite app_nil_r|].
    destruct (strcspn_literal (c :: last) [] Hlast) as [_ ->]. apply returns_bind.
    pose proof (format_loop_lit os s (c :: last) [] Hos Hlast) as P. rewrite app_nil_r in P.
    apply (returns_mono _ _ _ P). intros os' Hos'. rewrite drop_ge by done.
    change (at_fmt []) with 0. cbn. destruct fuel; [simpl in Hf; lia|]. done.
  - apply Forall_cons_iff in Hg as [(Hl & Hd & Ha & [t Ht]) Hg]. rewrite !fmap_cons. cbn [concat].
    unfold seg_text at 1, seg_render at 1. set (R := concat (seg_text <$> segs) ++ last).
    assert (((s_lit g ++ 37 :: dir_text (s_dir g)) ++ concat (seg_text <$> segs)) ++ last
            = s_lit g ++ 37 :: dir_text (s_dir g) ++ R) as E by (unfold R; by rewrite <- !app_assoc).
    rewrite E. clear E. cbn [format_loop].
    destruct (s_lit g ++ 37 :: dir_text (s_dir g) ++ R) as [|c0 r0] eqn:E0; [by destruct (s_lit g)|].
    rewrite <- E0. clear E0 c0 r0. destruct (strcspn_literal (s_lit g) (dir_text (s_dir g) ++ R) Hl) as [-> _].
    apply returns_bind, (returns_mono _ _ _ (format_loop_lit os s (s_lit g) _ Hos Hl)). intros os' Hos'.
    rewrite drop_app_length. change (at_fmt (37 :: _)) with 37. cbn [Z.eqb Pos.eqb orb gw_assert].
    bind_red. change (drop 1 (37 :: ?l)) with l.
    rewrite (read_directive (s_dir g) R (s_arg g :: (s_arg <$> segs))
      (fun f fmt args => '(os, fmt, args) ← convert os' f fmt args; format_loop os fmt args fuel) Hd).
    apply returns_bind, (returns_mono _ _ _ (convert_ok os' _ (s_dir g) (s_arg g) _ R t Hos' Hd Ha Ht)).
    intros [[os'' fmt] args] (Hos'' & -> & ->). unfold R.
    assert (length segs + 2 <= fuel)%nat as Hf' by (cbn [length] in Hf; lia).
    apply (returns_mono _ _ _ (IH os'' _ fuel Hg Hos'' Hf')).
    intros o Ho. rewrite <- !app_assoc in *. done.
Qed.

Lemma seg_texts_length segs (last : list Z) : (length segs <= length (concat (seg_text <$> segs) ++ last))%nat.
Proof.
  induction segs as [|g segs IH]; [simpl; lia|]. rewrite fmap_cons. cbn [concat length].
  unfold seg_text at 1. rewrite !length_app in *. simpl. lia.
Qed.

Lemma octstr_format_ok (segs : list segment) (last : list Z) :
  Forall seg_ok segs -> literal last ->
  returns (octstr_format (concat (seg_text <$> segs) ++ last) (s_arg <$> segs))
    (fun o => reprm o (concat (seg_render <$> segs) ++ last)).
Proof.
  intros Hg Hl. unfold octstr_format.
  apply returns_bind, (returns_mono _ _ _ (octstr_create_ok [] (Forall_nil_2 _))). intros os Hos.
  apply returns_bind. pose proof (seg_texts_length segs last).
  eapply returns_mono; [apply (format_loop_ok last Hl segs os [] _ Hg Hos); lia|].
  intros o Ho. rewrite (repr_seems_valid _ _ (proj1 Ho)). exact Ho.
Qed.

Lemma octstr_format_append_ok (os : Octstr) (s : list Z) (segs : list segment) (last fmt : list Z) (args : list arg)
    (t : list Z) :
  reprm os s -> Forall seg_ok segs -> literal last ->
  fmt = concat (seg_text <$> segs) ++ last -> args = s_arg <$> segs -> t = concat (seg_render <$> segs) ++ last ->
  returns (octstr_format_append os fmt args) (fun os' => reprm os' (s ++ t)).
Proof.
  intros Hos Hg Hl -> -> ->. unfold octstr_format_append.
  apply returns_bind, (returns_mono _ _ _ (octstr_format_ok segs last Hg Hl)). intros o [Ho _].
  by apply octstr_append_ok.
Qed.

(** A conversion without flags, width or precision. *)
Definition plain_dir (type conv : Z) : directive := mkDirective false false 0 None type conv.

Lemma plain_seg_ok lit type conv a :
  literal lit -> type ∈ [0; 104; 108; 76] -> conv ∈ [99; 100; 105; 111; 117; 120; 88; 115; 83; 69; 72] ->
  arg_ok a -> is_Some (render_conv (plain_dir type conv) a) -> seg_ok (mkSegment lit (plain_dir type conv) a).
Proof.
  intros Hl Ht Hc Ha Hr. split_and!; [done| |done|done]. constructor; cbn; [unfold LONG_MAX; lia|done..].
Qed.

Lemma plain_render lit type conv a t :
  render_conv (plain_dir type conv) a = Some t -> seg_render (mkSegment lit (plain_dir type conv) a) = lit ++ t.
Proof. intros Hr. unfold seg_render, render. cbn [s_dir s_arg s_lit]. by rewrite Hr. Qed.

(** ** Property of the formatter *)

(** [octstr_format] prints what its format means: for every format made of
    literal texts and conversions (with any flags, width, precision and length
    modifier that the formatter knows, and arguments of the right types), it
    returns the texts with each conversion replaced by its argument, cut to the
    precision and padded to the width. *)
Theorem octstr_format_renders (segs : list segment) (last : list Z) :
  Forall seg_ok segs -> literal last ->
  returns (octstr_format (concat (seg_text <$> segs) ++ last) (s_arg <$> segs))
    (fun o => reprm o (concat (seg_render <$> segs) ++ last)).
Proof. apply octstr_format_ok. Qed.
End render.

(** A concrete literal. *)
Ltac literal_tac := repeat (apply Forall_cons_2; [lia|]); apply Forall_nil_2.

(** Formats without doubles and pointers. *)
#[local] Instance no_doubles : Printf := {
  double := Empty_set;
  sprintf_double := fun _ _ _ => [];
  sprintf_p := fun _ => []
}.

(** "id %05d: %-4s|" *)
Definition sample_segments : list segment :=
  [mkSegment [105; 100; 32] (mkDirective false true 5 None 0 100) (AInt (-42));
   mkSegment [58; 32] (mkDirective true false 4 None 0 115) (AStr [97; 98])].

Lemma sample_segments_ok : Forall seg_ok sample_segments.
Proof.
  repeat apply Forall_cons_2; [split_and!|split_and!|apply Forall_nil_2];
    try (repeat (apply Forall_cons_2; [lia|]); apply Forall_nil_2);
    try (constructor; simpl; [unfold LONG_MAX; lia|done|by apply elem_of_cons; left|repeat (apply elem_of_cons; (by left) || right)]); simpl;
    try done; try octets_tac; by eexists.
Qed.

Lemma octstr_format_renders_witness :
  returns (octstr_format (concat (seg_text <$> sample_segments) ++ [124]) (s_arg <$> sample_segments))
    (fun o => reprm o (concat (seg_render <$> sample_segments) ++ [124])).
Proof.
  apply (octstr_format_renders sample_segments [124]).
  - exact sample_segments_ok.
  - apply Forall_cons_2; [lia|apply Forall_nil_2].
Defined.

Example sample_rendered :
  concat (seg_render <$> sample_segments) ++ [124]
    = [105; 100; 32; 48; 48; 45; 52; 50; 58; 32; 97; 98; 32; 32; 124].
Proof. vm_compute. reflexivity. Qed.

Example sample_text_of_format :
  concat (seg_text <$> sample_segments) = [105; 100; 32; 37; 48; 53; 100; 58; 32; 37; 45; 52; 115].
Proof. vm_compute. reflexivity. Qed.
