(* ===== verification/OctstrNumber.v ===== *)
(** * Numbers at a place in a text

    [octstr_parse_long] (OctstrFormat.v) as the parsers of fixed formats use it: the
    number must end at a given position; and numbers printed with a fixed width. *)

From S2P Require Import Prelude Octstr OctstrCode OctstrFormat.

(** [octstr_parse_long] that must stop at [stop]. *)
Definition parse_to (message : Octstr) (pos base stop : Z) : res (option Z) :=
  r ← octstr_parse_long message pos base;
  Ok (match r with
      | Some (n, p) => if p =? stop then Some n else None
      | None => None
      end).

(** [octstr_parse_long] that must stop at [stop], on texts. *)
Definition number_at (s : list Z) (pos base stop : Z) : option Z :=
  if zlen s <=? pos then None
  else let '(n, used, erange) := strtol (cstr (drop (Z.to_nat pos) s)) base in
    if erange : bool then None else if used =? 0 then None
    else if pos + used =? stop then Some n else None.

Lemma parse_to_ok (o : Octstr) (s : list Z) (pos base stop : Z) :
  repr o s -> 0 <= pos -> base = 0 \/ 2 <= base <= 36 ->
  parse_to o pos base stop = Ok (number_at s pos base stop).
Proof.
  intros Ho Hp Hb. unfold parse_to, number_at. rewrite (octstr_parse_long_ok o s pos base Ho Hp Hb). bind_red.
  destruct (zlen s <=? pos); [done|]. destruct (strtol _ base) as [[n used] [|]]; [done|].
  by destruct (used =? 0).
Qed.

Lemma print_base_length (b : Z) (up : bool) : 2 <= b <= 16 -> forall (fuel w : nat) v,
  0 <= v < b ^ Z.of_nat w -> (0 < w)%nat -> (length (print_base b up fuel v) <= w)%nat.
Proof.
  intros Hb. induction fuel as [|fuel IH]; intros w v Hv Hw; cbn [print_base]; [simpl; lia|].
  destruct (Z.ltb_spec v b); [simpl; lia|]. destruct w as [|w]; [lia|].
  destruct (print_base_small b Hb w v Hv ltac:(lia)) as (H1 & _ & H3).
  destruct w as [|w]; [change (Z.of_nat 0) with 0 in H1; lia|].
  rewrite length_app. simpl. specialize (IH (S w) (v / b) H1 ltac:(lia)). lia.
Qed.

(** A number of [w] digits. *)
Definition digits (w : nat) (v : Z) : list Z := padded false 48 (Z.of_nat w) (sprintf_ld v).

Lemma digits_ok (w : nat) (v : Z) :
  (0 < w <= 18)%nat -> 0 <= v < 10 ^ Z.of_nat w ->
  exists k, digits w v = replicate k 48 ++ print_base 10 false 20 v /\
    (k + length (print_base 10 false 20 v) = w)%nat.
Proof.
  intros Hw Hv. unfold digits, padded, sprintf_ld. destruct (Z.ltb_spec v 0); [lia|].
  pose proof (print_base_length 10 false ltac:(lia) 20 w v Hv ltac:(lia)). eexists. split; [done|].
  rewrite Nat2Z.id. lia.
Qed.

Lemma pow_18 (w : nat) : (w <= 18)%nat -> 10 ^ Z.of_nat w <= 10 ^ 18.
Proof. intros. apply Z.pow_le_mono_r; lia. Qed.

(** A number in the text is found again. *)
Lemma number_at_digits (pre rest : list Z) (w : nat) (v c pos : Z) :
  (0 < w <= 18)%nat -> 0 <= v < 10 ^ Z.of_nat w -> stops 10 [c] -> c <> 0 -> pos = zlen pre ->
  number_at (pre ++ digits w v ++ c :: rest) pos 10 (pos + Z.of_nat w) = Some v.
Proof.
  intros Hw Hv Hc H0 ->. destruct (digits_ok w v Hw Hv) as (k & E & Hk). pose proof (pow_18 w ltac:(lia)) as Hp.
  assert (10 ^ 18 < 2 ^ 63 - 1) as H18 by reflexivity. pose proof ten_pow_20 as H20.
  assert (length (digits w v) = w) as Hl by (rewrite E; list_lia).
  unfold number_at. rewrite !zlen_app. destruct (Z.leb_spec (zlen pre + (zlen (digits w v) + zlen (c :: rest))) (zlen pre));
    [list_lia|]. rewrite drop_app_ge by list_lia.
  replace (Z.to_nat (zlen pre) - length pre)%nat with 0%nat by list_lia. rewrite drop_0.
  assert (cstr (digits w v ++ c :: rest) = digits w v ++ c :: cstr rest) as ->.
  { assert (Forall (fun c => c <> 0) (digits w v)) as Hnul.
    { rewrite E. apply Forall_app. split; [by apply Forall_replicate|].
      eapply Forall_impl; [|apply (print_base_digits 10 false ltac:(lia) 20 v ltac:(lia))].
      intros x (d & Hd & ->). apply (hexdig_ok false d). lia. }
    rewrite (cstr_app _ _ Hnul). cbn [cstr]. destruct (Z.eqb_spec c 0); [contradiction|reflexivity]. }
  assert (stops 10 (c :: cstr rest)) as Hst by exact Hc. rewrite E, <- app_assoc.
  rewrite (strtol_padded 10 false 20 k v (c :: cstr rest) ltac:(lia) ltac:(lia) ltac:(lia)
    ltac:(unfold LONG_MAX; lia) Hst ltac:(lia)).
  destruct (Z.eqb_spec (Z.of_nat k + zlen (print_base 10 false 20 v)) 0); [list_lia|].
  destruct (Z.eqb_spec (zlen pre + (Z.of_nat k + zlen (print_base 10 false 20 v))) (zlen pre + Z.of_nat w)); [done|].
  list_lia.
Qed.
