(* ===== verification/OctstrParts.v ===== *)
(** * Octet strings: trimming, splitting, replacing, base64

    The operations of gwlib/octstr.c that cut a string into parts or replace
    parts of it, and the base64 conversions, which work in place on the block.
    A list of strings is given by its contents: GwList shows that the list
    operations act on the contents in this way. *)

From S2P Require Import Prelude Octstr OctstrSearch.

(** The string constants of the code: immutable strings, made once for each constant
    and then shared. *)
Definition octstr_imm (cstr : list Z) : Octstr :=
  match cstr with
  | [] => mkOctstr [] 0 0 true
  | _ => mkOctstr (cstr ++ [0]) (zlen cstr) (zlen cstr + 1) true
  end.

(** ** Trimming *)

(** The two loops of [octstr_strip_blanks], [octstr_strip_crlfs] and
    [octstr_strip_nonalphanums], for the predicate of each. *)
Fixpoint strip_front (p : Z -> bool) (text : Octstr) (start : Z) (fuel : nat) : res Z :=
  match fuel with
  | O => Undef
  | S fuel =>
      c ← octstr_get_char text start;
      n ← octstr_len (Some text);
      if p c && (start <=? n) then strip_front p text (start + 1) fuel else Ok start
  end.

Fixpoint strip_back (p : Z -> bool) (text : Octstr) (e : Z) (fuel : nat) : res Z :=
  match fuel with
  | O => Undef
  | S fuel =>
      c ← octstr_get_char text e;
      if p c && (0 <=? e) then strip_back p text (e - 1) fuel else Ok e
  end.

Definition strip_both (p : Z -> bool) (text : Octstr) : res Octstr :=
  seems_valid text ≫= fun _ =>
  assert: negb (os_immutable text);
  start ← strip_front p text 0 (Z.to_nat (os_len text) + 3);
  text ← (if 0 <? start then octstr_delete text 0 start else Ok text);
  len ← octstr_len (Some text);
  text ← (if 0 <? len then
            let len := len - 1 in
            e ← strip_back p text len (Z.to_nat len + 3);
            octstr_delete text (e + 1) (len - e)
          else Ok text);
  seems_valid text ≫= fun _ => Ok text.

Definition octstr_strip_blanks (text : Octstr) : res Octstr := strip_both isspace text.

(** The argument of [iscrlf] is an [unsigned char]. *)
Definition iscrlf (c : Z) : bool := (c mod 256 =? 10) || (c mod 256 =? 13).
Definition octstr_strip_crlfs (text : Octstr) : res Octstr := strip_both iscrlf text.

Definition octstr_strip_nonalphanums (text : Octstr) : res Octstr :=
  strip_both (fun c => negb (isalnum c)) text.

(** [ch] is a [char]. *)
Definition octstr_strip_char (text : Octstr) (ch : Z) : res Octstr :=
  seems_valid text ≫= fun _ =>
  assert: negb (os_immutable text);
  start ← strip_front (fun c => ch =? c) text 0 (Z.to_nat (os_len text) + 3);
  text ← (if 0 <? start then octstr_delete text 0 start else Ok text);
  seems_valid text ≫= fun _ => Ok text.

Fixpoint isnum_loop (o : Octstr) (start : Z) (n : nat) : res bool :=
  match n with
  | O => Ok true
  | S n =>
      c ← octstr_get_char o start;
      if negb (isdigit c) && negb (c =? 43) then Ok false else isnum_loop o (start + 1) n
  end.

Definition octstr_isnum (o : Octstr) : res bool :=
  seems_valid o ≫= fun _ => isnum_loop o 0 (Z.to_nat (os_len o)).

(** ** Splitting and replacing *)

Fixpoint os_split_loop (os sep : Octstr) (pos seplen : Z) (fuel : nat) : res (list Octstr * Z) :=
  match fuel with
  | O => Undef
  | S fuel =>
      next ← octstr_search os sep pos;
      if 0 <=? next then
        part ← octstr_copy (Some os) pos (next - pos);
        '(parts, pos) ← os_split_loop os sep (next + seplen) seplen fuel;
        Ok (part :: parts, pos)
      else Ok ([], pos)
  end.

Definition octstr_split (os sep : Octstr) : res (list Octstr) :=
  seplen ← octstr_len (Some sep);
  n ← octstr_len (Some os);
  '(parts, pos) ← os_split_loop os sep 0 seplen (Z.to_nat n + 2);
  n ← octstr_len (Some os);
  if pos <? n then
    part ← octstr_copy (Some os) pos n;
    Ok (parts ++ [part])
  else Ok parts.

Definition octstr_item_match (item pattern : Octstr) : res bool :=
  c ← octstr_compare item pattern; Ok (c =? 0).

Definition octstr_item_case_match (item pattern : Octstr) : res bool :=
  c ← octstr_case_compare item pattern; Ok (c =? 0).

(** The loops run until the needle is not found any more. *)
Fixpoint replace_loop (hay needle repl : Octstr) (p len repl_len : Z) (fuel : nat) : res Octstr :=
  match fuel with
  | O => Undef
  | S fuel =>
      p ← octstr_search hay needle p;
      if p =? -1 then Ok hay
      else
        hay ← octstr_delete hay p len;
        hay ← octstr_insert hay (Some repl) p;
        replace_loop hay needle repl (p + repl_len) len repl_len fuel
  end.

Definition octstr_replace (hay needle repl : Octstr) : res Octstr :=
  len ← octstr_len (Some needle);
  repl_len ← octstr_len (Some repl);
  n ← octstr_len (Some hay);
  replace_loop hay needle repl 0 len repl_len (Z.to_nat n + 2).

Definition octstr_replace_first (hay needle repl : Octstr) : res Octstr :=
  len ← octstr_len (Some needle);
  p ← octstr_search hay needle 0;
  if negb (p =? -1) then
    hay ← octstr_delete hay p len;
    octstr_insert hay (Some repl) p
  else Ok hay.

Fixpoint delete_loop (hay needle : Octstr) (p len : Z) (fuel : nat) : res Octstr :=
  match fuel with
  | O => Undef
  | S fuel =>
      p ← octstr_search hay needle p;
      if p =? -1 then Ok hay
      else
        hay ← octstr_delete hay p len;
        delete_loop hay needle p len fuel
  end.

Definition octstr_delete_matching (hay needle : Octstr) : res Octstr :=
  seems_valid hay ≫= fun _ =>
  seems_valid needle ≫= fun _ =>
  assert: negb (os_immutable hay);
  len ← octstr_len (Some needle);
  delete_loop hay needle 0 len (Z.to_nat (os_len hay) + 2).

Lemma octstr_imm_ok (s : list Z) : octets s -> repr (octstr_imm s) s.
Proof.
  intros Hs. destruct s as [|c s]; [constructor|]. apply (repr_block (c :: s) []); [done|list_lia].
Qed.

(** ** Trimming: lemmas *)

Fixpoint drop_while (p : Z -> bool) (l : list Z) : list Z :=
  match l with
  | c :: l' => if p c then drop_while p l' else l
  | [] => []
  end.

(** [l] without the octets that satisfy [p] at its ends. *)
Definition trim (p : Z -> bool) (l : list Z) : list Z :=
  reverse (drop_while p (reverse (drop_while p l))).

Lemma drop_while_app (p : Z -> bool) (l k : list Z) :
  Forall (fun c => p c = true) l -> drop_while p (l ++ k) = drop_while p k.
Proof. induction 1 as [|c l Hc Hl IH]; [done|]. cbn. by rewrite Hc. Qed.

Lemma drop_while_all (p : Z -> bool) (l : list Z) : Forall (fun c => p c = true) l -> drop_while p l = [].
Proof. intros Hl. rewrite <- (app_nil_r l). by rewrite drop_while_app. Qed.

Lemma drop_while_head (p : Z -> bool) (c : Z) (l : list Z) : p c = false -> drop_while p (c :: l) = c :: l.
Proof. cbn. by intros ->. Qed.

Lemma strip_front_ok (p : Z -> bool) (o : Octstr) (s pre l : list Z) (fuel : nat) :
  repr o s -> s = pre ++ l -> Forall (fun c => p c = true) pre -> (length l + 2 < fuel)%nat ->
  returns (strip_front p o (zlen pre) fuel) (fun start =>
    0 <= start <= zlen s + 1 /\ drop (Z.to_nat start) s = drop_while p s).
Proof.
  intros Ho. revert pre l. induction fuel as [|fuel IH]; intros pre l E Hp Hf; [lia|]. cbn [strip_front].
  pose proof (zlen_nonneg pre). rewrite (octstr_get_char_ok o s) by done. bind_red.
  rewrite (octstr_len_ok _ _ Ho). bind_red. destruct l as [|c l].
  - rewrite app_nil_r in E. subst pre. rewrite char_at_end by lia.
    assert (drop_while p s = []) as Ed by by apply drop_while_all.
    destruct (p (-1)) eqn:Ep; cbn [andb]; [|cbn; split; [lia|]; rewrite Ed, drop_ge by list_lia; done].
    destruct (Z.leb_spec (zlen s) (zlen s)); [|lia].
    destruct fuel as [|fuel]; [cbn in Hf; lia|]. cbn [strip_front].
    rewrite (octstr_get_char_ok o s), (octstr_len_ok _ _ Ho) by done. bind_red. rewrite char_at_end by lia.
    destruct (Z.leb_spec (zlen s + 1) (zlen s)); [lia|]. rewrite andb_false_r. cbn.
    split; [lia|]. by rewrite Ed, drop_ge by list_lia.
  - rewrite E, char_at_mid. destruct (p c) eqn:Ec; cbn [andb].
    + destruct (Z.leb_spec (zlen pre) (zlen (pre ++ c :: l))); [|list_lia].
      replace (zlen pre + 1) with (zlen (pre ++ [c])) by list_lia.
      rewrite <- E. apply (IH _ l); [by rewrite <- app_assoc|by apply Forall_app_2; [|repeat constructor]|list_lia].
    + cbn. split; [list_lia|]. rewrite drop_while_app, drop_while_head by done. unfold zlen. by rewrite Nat2Z.id, drop_app_length.
Qed.

Lemma strip_back_ok (p : Z -> bool) (o : Octstr) (s l post : list Z) (fuel : nat) :
  repr o s -> s = l ++ post -> Forall (fun c => p c = true) post -> (length l + 1 < fuel)%nat ->
  returns (strip_back p o (zlen l - 1) fuel) (fun e =>
    -1 <= e < zlen s /\ take (Z.to_nat (e + 1)) s = reverse (drop_while p (reverse s))).
Proof.
  intros Ho. revert l post. induction fuel as [|fuel IH]; intros l post E Hp Hf; [lia|]. cbn [strip_back].
  rewrite (octstr_get_char_ok o s) by done. bind_red.
  assert (drop_while p (reverse s) = drop_while p (reverse l)) as Ed.
  { rewrite E, reverse_app. apply drop_while_app. by apply Forall_reverse. }
  destruct l as [|c l _] using rev_ind.
  - change (zlen [] - 1) with (-1). destruct (Z.leb_spec 0 (-1)); [lia|]. rewrite andb_false_r. cbn.
    split; [pose proof (zlen_nonneg s); lia|]. by rewrite Ed.
  - replace (zlen (l ++ [c]) - 1) with (zlen l) by list_lia. rewrite <- app_assoc in E. cbn [app] in E.
    rewrite E, char_at_mid, <- E. pose proof (zlen_nonneg l). destruct (p c) eqn:Ec; cbn [andb].
    + destruct (Z.leb_spec 0 (zlen l)); [|lia]. apply (IH l (c :: post)); [done|by constructor|list_lia].
    + cbn. split; [rewrite E; list_lia|]. rewrite Ed, reverse_snoc, drop_while_head, reverse_cons, reverse_involutive by done.
      rewrite E. replace (Z.to_nat (zlen l + 1)) with (length (l ++ [c])) by list_lia.
      rewrite <- (take_app_length (l ++ [c]) post) at 2. by rewrite <- app_assoc.
Qed.

Lemma strip_both_ok (p : Z -> bool) (o : Octstr) (s : list Z) :
  reprm o s -> returns (strip_both p o) (fun o' => reprm o' (trim p s)).
Proof.
  intros Hr. destruct (Hr) as [Ho Hm]. unfold strip_both. wp_valid. rewrite Hm. apply returns_assert; [done|].
  rewrite (repr_len _ _ Ho). pose proof (zlen_nonneg s).
  eapply returns_seq; [apply (strip_front_ok p o s [] s _ Ho); [done|constructor|list_lia]|].
  intros start [Hs Ed]. eapply (returns_seq _ _ (fun o1 => reprm o1 (drop_while p s))).
  { destruct (Z.ltb_spec 0 start).
    - eapply returns_mono; [apply (octstr_delete_ok _ _ 0 start Hr); long_lia|]. intros o1 Ho1.
      change (cut s 0 start) with (drop (Z.to_nat start) s) in Ho1. by rewrite Ed in Ho1.
    - replace start with 0 in Ed by lia. cbn in Ed. cbn. by rewrite <- Ed. }
  intros o1 Hr1. destruct (Hr1) as [Ho1 Hm1]. rewrite (octstr_len_ok _ _ Ho1). bind_red.
  unfold trim. set (t := drop_while p s) in *. clearbody t. pose proof (zlen_nonneg t).
  eapply (returns_seq _ _ (fun o2 => reprm o2 (reverse (drop_while p (reverse t))))).
  { destruct (Z.ltb_spec 0 (zlen t)).
    - eapply returns_seq; [apply (strip_back_ok p o1 t t [] _ Ho1); [by rewrite app_nil_r|constructor|list_lia]|].
      intros e [He Ee]. eapply returns_mono; [apply (octstr_delete_ok _ _ _ _ Hr1); long_lia|]. intros o2 Ho2.
      unfold cut in Ho2. rewrite (drop_ge t), app_nil_r, Ee in Ho2 by list_lia. done.
    - assert (t = []) as -> by (apply zlen_0_inv; lia). done. }
  intros o2 Hr2. exact (returns_seems_valid_mk _ _ _ Hr2 Hr2).
Qed.

(** ** Splitting and replacing: lemmas *)

(** [l] is the part in front of the first occurrence of [sep] in [l ++ sep ++ rest]. *)
Definition first_part (sep l rest : list Z) : Prop :=
  forall i, 0 <= i < zlen l -> ~ occurs_at (l ++ sep ++ rest) sep i.

(** The pieces of a text between the separators: the text is their concatenation
    with a separator after each but perhaps the last one, which is not empty. *)
Inductive splits (sep : list Z) : list Z -> list (list Z) -> Prop :=
| splits_end l : (forall i, ~ occurs_at l sep i) -> splits sep l (match l with [] => [] | _ => [l] end)
| splits_part l rest ps : first_part sep l rest -> splits sep rest ps -> splits sep (l ++ sep ++ rest) (l :: ps).

Lemma occurs_drop (h n : list Z) (pos i : Z) :
  0 <= pos -> 0 <= i -> occurs_at (drop (Z.to_nat pos) h) n i <-> occurs_at h n (pos + i).
Proof.
  intros Hp Hi. unfold occurs_at, slice. rewrite drop_drop.
  replace (Z.to_nat pos + Z.to_nat i)%nat with (Z.to_nat (pos + i)) by lia. intuition lia.
Qed.

Lemma occurs_split (h n : list Z) (i : Z) :
  occurs_at h n i -> h = take (Z.to_nat i) h ++ n ++ drop (Z.to_nat (i + zlen n)) h.
Proof.
  intros [Hi E]. unfold slice in E. rewrite <- (take_drop (Z.to_nat i) h) at 1. f_equal.
  rewrite <- (take_drop (Z.to_nat (zlen n)) (drop (Z.to_nat i) h)) at 1. rewrite E, drop_drop. do 2 f_equal.
  pose proof (zlen_nonneg n). lia.
Qed.

(** What a search from [pos] finds in the rest of the text. *)
Lemma search_rest (oh on : Octstr) (h n : list Z) (pos : Z) :
  repr oh h -> repr on n -> n <> [] -> 0 <= pos ->
  exists r, octstr_search oh on pos = Ok r /\
    ((r = -1 /\ forall i, ~ occurs_at (drop (Z.to_nat pos) h) n i) \/
     exists l rest, drop (Z.to_nat pos) h = l ++ n ++ rest /\ first_part n l rest /\ r = pos + zlen l /\
       rest = drop (Z.to_nat (r + zlen n)) h /\ pos + zlen l + zlen n <= zlen h).
Proof.
  intros Hh Hn Hne Hp. pose proof (octstr_search_ok oh on h n pos Hh Hn Hne Hp) as R.
  apply returns_iff in R as (r & Er & [[-> Hno]|(Hr & Ho & Hno)]); exists r || exists (-1); (split; [done|]).
  - left. split; [done|]. intros i Hi. pose proof (proj1 Hi). apply (Hno (pos + i)); [lia|]. by apply occurs_drop.
  - right. pose proof (occurs_at_bound _ _ _ Hne Ho) as Hb. pose proof (zlen_nonneg n).
    assert (occurs_at (drop (Z.to_nat pos) h) n (r - pos)) as Ho'
      by (apply occurs_drop; [lia..|]; by replace (pos + (r - pos)) with r by lia).
    pose proof (occurs_split _ _ _ Ho') as E. set (l := take _ _) in E at 1.
    assert (zlen l = r - pos) as Hl by (unfold l; list_lia).
    exists l, (drop (Z.to_nat (r + zlen n)) h).
    assert (drop (Z.to_nat (r - pos + zlen n)) (drop (Z.to_nat pos) h) = drop (Z.to_nat (r + zlen n)) h) as Er'.
    { rewrite drop_drop. f_equal. lia. }
    rewrite Er' in E. split_and!; try done; [|lia..].
    intros i Hi Hoc. rewrite <- E in Hoc. apply occurs_drop in Hoc; [|lia..]. apply (Hno (pos + i)); [lia|done].
Qed.

(** The last piece, if it is not empty. *)
Definition last_part (l : list Z) : list (list Z) := match l with [] => [] | _ => [l] end.

Lemma os_split_loop_ok (os sep : Octstr) (s k : list Z) (fuel : nat) (pos : Z) :
  repr os s -> repr sep k -> k <> [] -> 0 <= pos <= zlen s -> zlen s - pos + 1 < Z.of_nat fuel ->
  returns (os_split_loop os sep pos (zlen k) fuel) (fun '(parts, q) => exists ps,
    Forall2 reprm parts ps /\ pos <= q <= zlen s /\
    splits k (drop (Z.to_nat pos) s) (ps ++ last_part (drop (Z.to_nat q) s))).
Proof.
  intros Hs Hk Hne. revert pos. induction fuel as [|fuel IH]; intros pos Hp Hf; [lia|]. cbn [os_split_loop].
  destruct (search_rest os sep s k pos Hs Hk Hne ltac:(lia)) as (r & -> & [[-> Hno]|(l & rest & E & Hfp & -> & Er & Hb)]); bind_red.
  - cbn. exists []. split; [constructor|]. split; [lia|]. by apply splits_end.
  - pose proof (zlen_nonneg l). assert (0 < zlen k) by (destruct k; [done|list_lia]).
    destruct (Z.leb_spec 0 (pos + zlen l)); [|lia].
    eapply returns_seq; [apply (octstr_copy_ok os s pos (pos + zlen l - pos) Hs); lia|]. intros part Hpart.
    eapply returns_seq; [apply IH; lia|]. intros [parts q] (ps & HF & Hq & Hsp). cbn [returns].
    exists (l :: ps). split; [constructor; [|done]|].
    { unfold slice in Hpart. rewrite E in Hpart. replace (Z.to_nat (pos + zlen l - pos)) with (length l) in Hpart by list_lia.
      by rewrite take_app_length in Hpart. }
    split; [lia|]. rewrite E. cbn [app]. apply splits_part; [done|]. by rewrite Er.
Qed.

Lemma octstr_split_ok (os sep : Octstr) (s k : list Z) :
  repr os s -> repr sep k -> k <> [] ->
  returns (octstr_split os sep) (fun parts => exists ps, Forall2 reprm parts ps /\ splits k s ps).
Proof.
  intros Hs Hk Hne. unfold octstr_split. rewrite (octstr_len_ok _ _ Hk), (octstr_len_ok _ _ Hs). bind_red.
  pose proof (zlen_nonneg s). eapply returns_seq; [by apply (os_split_loop_ok os sep s k); [done..|lia|lia]|].
  intros [parts q] (ps & HF & Hq & Hsp). rewrite drop_0 in Hsp. destruct (Z.ltb_spec q (zlen s)).
  - eapply returns_seq; [apply (octstr_copy_ok os s q (zlen s) Hs); lia|]. intros part Hpart. cbn [returns].
    exists (ps ++ last_part (drop (Z.to_nat q) s)). split; [|done]. apply Forall2_app; [done|].
    unfold slice in Hpart. rewrite take_ge in Hpart by list_lia. unfold last_part.
    destruct (drop (Z.to_nat q) s) eqn:E; [apply (f_equal length) in E; list_lia|].
    constructor; [done|constructor].
  - cbn. exists ps. split; [done|]. by rewrite drop_ge, app_nil_r in Hsp by list_lia.
Qed.

(** Joining the pieces gives the text back, up to a separator at its end. *)
Lemma splits_join (sep l : list Z) (ps : list (list Z)) :
  splits sep l ps ->
  l = concat (map (fun p => p ++ sep) ps) \/ l ++ sep = concat (map (fun p => p ++ sep) ps).
Proof.
  induction 1 as [l Hl|l rest ps Hf Hs IH].
  - destruct l as [|c l]; [by left|right]. cbn. by rewrite app_nil_r.
  - cbn [map concat]. rewrite <- !app_assoc. destruct IH as [IH|IH]; [left|right]; by rewrite <- IH.
Qed.

(** Every occurrence replaced, from the left, without overlap. *)
Inductive replaced (needle repl : list Z) : list Z -> list Z -> Prop :=
| replaced_end l : (forall i, ~ occurs_at l needle i) -> replaced needle repl l l
| replaced_part l rest rest' : first_part needle l rest -> replaced needle repl rest rest' ->
    replaced needle repl (l ++ needle ++ rest) (l ++ repl ++ rest').

Lemma splice_middle (a b k : list Z) : splice (a ++ b) (zlen a) k = a ++ k ++ b.
Proof.
  unfold splice, zlen. rewrite Nat2Z.id, take_app_length. f_equal. f_equal. by rewrite drop_app_length.
Qed.

Lemma cut_middle (a n b : list Z) : cut (a ++ n ++ b) (zlen a) (zlen n) = a ++ b.
Proof.
  unfold cut. unfold zlen at 1. rewrite Nat2Z.id, take_app_length. f_equal.
  replace (Z.to_nat (zlen a) + Z.to_nat (zlen n))%nat with (length (a ++ n)) by list_lia. by rewrite app_assoc, drop_app_length.
Qed.

Lemma replace_loop_ok (needle repl : Octstr) (n r : list Z) (fuel : nat) (hay : Octstr) (done_ rest : list Z) :
  repr needle n -> repr repl r -> n <> [] -> reprm hay (done_ ++ rest) -> zlen rest + 1 < Z.of_nat fuel ->
  returns (replace_loop hay needle repl (zlen done_) (zlen n) (zlen r) fuel) (fun o =>
    exists rest', reprm o (done_ ++ rest') /\ replaced n r rest rest').
Proof.
  intros Hn Hr Hne. revert hay done_ rest. induction fuel as [|fuel IH]; intros hay d rest Hh Hf; [pose proof (zlen_nonneg rest); lia|].
  cbn [replace_loop]. pose proof (zlen_nonneg d).
  destruct (search_rest hay needle _ n (zlen d) (proj1 Hh) Hn Hne ltac:(lia)) as (p & -> & Hp); bind_red.
  unfold zlen in Hp at 1 2. rewrite Nat2Z.id, drop_app_length in Hp.
  destruct Hp as [[-> Hno]|(l & t & -> & Hfp & -> & _ & _)].
  - cbn. exists rest. split; [done|]. by constructor.
  - pose proof (zlen_nonneg l). destruct (Z.eqb_spec (zlen d + zlen l) (-1)); [lia|].
    rewrite app_assoc in Hh. rewrite <- zlen_app.
    eapply returns_seq; [apply (octstr_delete_ok _ _ _ _ Hh); long_lia|]. intros h1 H1. rewrite cut_middle in H1.
    eapply returns_seq; [apply (octstr_insert_ok _ _ _ _ _ H1 Hr); list_lia|]. intros h2 H2. rewrite splice_middle, app_assoc in H2.
    rewrite <- (zlen_app (d ++ l) r). eapply returns_mono; [apply (IH h2 _ t H2)|].
    { destruct n; [done|]. list_lia. }
    intros o (t' & Ho & Ht). exists (l ++ r ++ t'). rewrite <- !app_assoc in Ho. split; [done|]. by constructor.
Qed.

Lemma octstr_replace_ok (hay needle repl : Octstr) (h n r : list Z) :
  reprm hay h -> repr needle n -> repr repl r -> n <> [] ->
  returns (octstr_replace hay needle repl) (fun o => exists h', reprm o h' /\ replaced n r h h').
Proof.
  intros Hh Hn Hr Hne. unfold octstr_replace.
  rewrite (octstr_len_ok _ _ Hn), (octstr_len_ok _ _ Hr), (octstr_len_ok _ _ (proj1 Hh)). bind_red.
  eapply returns_mono; [apply (replace_loop_ok needle repl n r _ hay [] h Hn Hr Hne Hh); pose proof (zlen_nonneg h); lia|].
  intros o (h' & Ho & Hh'). by exists h'.
Qed.

(** With an empty needle the search always finds position 0, and the loops never end. *)
Lemma search_empty (hay needle : Octstr) (h : list Z) (pos : Z) :
  repr hay h -> repr needle [] -> 0 <= pos -> octstr_search hay needle pos = Ok 0.
Proof.
  intros Hh Hn Hp. unfold octstr_search. rewrite (repr_seems_valid _ _ Hh), (repr_seems_valid _ _ Hn). bind_red.
  rewrite (repr_len _ _ Hn). by destruct (Z.leb_spec 0 pos); [|lia].
Qed.

Lemma split_loop_empty (os sep : Octstr) (s : list Z) (fuel : nat) :
  repr os s -> repr sep [] -> os_split_loop os sep 0 0 fuel = Undef.
Proof.
  intros Hs Hk. induction fuel as [|fuel IH]; [done|]. cbn [os_split_loop].
  rewrite (search_empty os sep s) by done. bind_red. cbn [Z.leb Z.compare].
  change (0 - 0) with 0. change (0 + 0) with 0.
  pose proof (octstr_copy_ok os s 0 0 Hs ltac:(lia) ltac:(lia)) as (o & -> & _)%returns_iff. bind_red.
  by rewrite IH.
Qed.

(** ** The properties *)

(** Trimming and cutting do what their names say, on every input.
    [octstr_strip_blanks] (and its variants for line ends and for anything but
    letters and digits) returns the text without the longest such prefix and
    suffix, even when nothing is left.  [octstr_split] with a non-empty separator
    returns the pieces between the leftmost, non-overlapping occurrences, dropping
    only an empty last piece, so that the pieces put together again give the text.
    [octstr_replace] replaces exactly these occurrences, and does not look at
    the replacement again. *)
Theorem octstr_parts_exact (o sep repl : Octstr) (s k r : list Z) :
  reprm o s -> repr sep k -> repr repl r -> k <> [] ->
  returns (octstr_strip_blanks o) (fun o' => reprm o' (trim isspace s)) /\
  returns (octstr_strip_crlfs o) (fun o' => reprm o' (trim iscrlf s)) /\
  returns (octstr_strip_nonalphanums o) (fun o' => reprm o' (trim (fun c => negb (isalnum c)) s)) /\
  returns (octstr_split o sep) (fun parts => exists ps, Forall2 reprm parts ps /\ splits k s ps /\
    (s = concat (map (fun p => p ++ k) ps) \/ s ++ k = concat (map (fun p => p ++ k) ps))) /\
  returns (octstr_replace o sep repl) (fun o' => exists s', reprm o' s' /\ replaced k r s s').
Proof.
  intros Ho Hk Hr Hne. split_and!; [by apply strip_both_ok..| |by apply octstr_replace_ok].
  eapply returns_mono; [by apply (octstr_split_ok o sep s k (proj1 Ho))|]. intros parts (ps & HF & Hs).
  exists ps. split; [done|]. split; [done|]. by apply splits_join.
Qed.

Lemma octstr_parts_exact_witness :
  returns (octstr_split (mk_os [97; 44; 44; 98; 44]) (mk_os [44])) (fun parts => exists ps,
    Forall2 reprm parts ps /\ splits [44] [97; 44; 44; 98; 44] ps /\
    ([97; 44; 44; 98; 44] = concat (map (fun p => p ++ [44]) ps) \/
     [97; 44; 44; 98; 44] ++ [44] = concat (map (fun p => p ++ [44]) ps))).
Proof.
  destruct (octstr_parts_exact (mk_os [97; 44; 44; 98; 44]) (mk_os [44]) (mk_os [45; 45])
    [97; 44; 44; 98; 44] [44] [45; 45]) as (_ & _ & _ & H & _);
    [mk_os|apply (mk_os_ok [44]); octets_tac|apply (mk_os_ok [45; 45]); octets_tac|discriminate|exact H].
Defined.

Example sample_split :
  (ps ← octstr_split (mk_os [97; 44; 44; 98; 44]) (mk_os [44]); Ok (map bytes ps)) = Ok [[97]; []; [98]].
Proof. vm_compute. reflexivity. Qed.

Example sample_replace :
  (o ← octstr_replace (mk_os [97; 44; 44; 98]) (mk_os [44]) (mk_os [44; 44]); Ok (bytes o)) = Ok [97; 44; 44; 44; 44; 98].
Proof. vm_compute. reflexivity. Qed.

Example sample_strip : (o ← octstr_strip_blanks (mk_os [32; 9; 97; 32; 98; 10]); Ok (bytes o)) = Ok [97; 32; 98].
Proof. vm_compute. reflexivity. Qed.

(** Splitting at an empty separator never ends: however many turns the loop of
    [octstr_split] is given, it wants another one. *)
Theorem octstr_split_empty_separator (os sep : Octstr) (s : list Z) (fuel : nat) :
  repr os s -> repr sep [] -> os_split_loop os sep 0 0 fuel = Undef.
Proof. intros. by apply (split_loop_empty os sep s). Qed.

Lemma octstr_split_empty_separator_witness : os_split_loop (mk_os [97]) (mk_os []) 0 0 1000 = Undef.
Proof. apply (octstr_split_empty_separator (mk_os [97]) (mk_os []) [97] 1000); [apply (mk_os_ok [97]); octets_tac|apply (mk_os_ok []); octets_tac]. Defined.
