(* ===== verification/Prefix.v ===== *)
(** * Prefixes of numbers and patterns of addresses

    Models the functions of src/gwlib/utils.c by which numbers are routed and
    addresses are let in: [does_prefix_match], [normalize_number], and the IP lists.
    The C code walks along NUL terminated texts with pointers; here a pointer is an
    index into the block of the text. *)

From S2P Require Import Prelude Octstr OctstrSearch OctstrCode OctstrParts.

(** ** [does_prefix_match] *)

Definition ends_prefix (c : Z) : bool := (c =? 59) || (c =? 0).

(** The [for] loop: whether it returns, and [p]. *)
Fixpoint match_number (pre num : block) (p b : Z) (fuel : nat) : res (bool * Z) :=
  match fuel with
  | O => Undef
  | S fuel =>
      c ← rd num b;
      if c =? 0 then Ok (false, p)
      else
        x ← rd pre p;
        if ends_prefix x then Ok (true, p)
        else if negb (x =? c) then Ok (false, p)
        else match_number pre num (p + 1) (b + 1) fuel
  end.

Fixpoint skip_prefix (pre : block) (p : Z) (fuel : nat) : res Z :=
  match fuel with
  | O => Undef
  | S fuel =>
      x ← rd pre p;
      if negb (x =? 0) && negb (x =? 59) then skip_prefix pre (p + 1) fuel else Ok p
  end.

Fixpoint skip_semicolons (pre : block) (p : Z) (fuel : nat) : res Z :=
  match fuel with
  | O => Undef
  | S fuel =>
      x ← rd pre p;
      if x =? 59 then skip_semicolons pre (p + 1) fuel else Ok p
  end.

Fixpoint prefix_loop (pre num : block) (p : Z) (bound fuel : nat) : res Z :=
  match fuel with
  | O => Undef
  | S fuel =>
      x ← rd pre p;
      if x =? 0 then Ok 0
      else
        '(hit, p) ← match_number pre num p 0 bound;
        if hit : bool then Ok 1
        else
          x ← rd pre p;
          if ends_prefix x then Ok 1
          else
            p ← skip_prefix pre p bound;
            p ← skip_semicolons pre p bound;
            prefix_loop pre num p bound fuel
  end.

Definition does_prefix_match (prefix number : Octstr) : res Z :=
  seems_valid prefix ≫= fun _ =>
  seems_valid number ≫= fun _ =>
  let p := cstr_block prefix in
  prefix_loop p (cstr_block number) 0 (S (length p)) (S (length p)).

(** ** [normalize_number] *)

Definition ends_dial (c : Z) : bool := (c =? 44) || (c =? 59) || (c =? 0).

(** The first [for]: whether the prefix at [t] matches, [t] and [len]. *)
Fixpoint dial_match (dial num : block) (t p len : Z) (fuel : nat) : res (bool * Z * Z) :=
  match fuel with
  | O => Undef
  | S fuel =>
      x ← rd dial t;
      if ends_dial x then Ok (true, t, len)
      else
        y ← rd num p;
        if (y =? 0) || negb (x =? y) then Ok (false, t, len)
        else dial_match dial num (t + 1) (p + 1) (len + 1) fuel
  end.

(** The second one. *)
Fixpoint dial_skip (dial : block) (t len : Z) (fuel : nat) : res (Z * Z) :=
  match fuel with
  | O => Undef
  | S fuel =>
      x ← rd dial t;
      if ends_dial x then Ok (t, len) else dial_skip dial (t + 1) (len + 1) fuel
  end.

(** The number with the official prefix instead of its first [len] octets. *)
Definition replace_prefix (dial : block) (official official_len len : Z) (number : Octstr) : res Octstr :=
  x ← rd dial official;
  let official_len := if x =? 45 then 0 else official_len in
  let strlen := zlen (cstr (drop (Z.to_nat official) dial)) in
  let n := if strlen <? official_len then strlen else official_len in
  nstr ← octstr_create_from_data dial official n;
  size ← octstr_len (Some number);
  octstr_insert_data nstr official_len (drop (Z.to_nat len) (cstr_block number)) (size - len).

Fixpoint dial_loop (dial : block) (number : Octstr) (t official official_len : Z) (bound fuel : nat) : res (Z * Octstr) :=
  match fuel with
  | O => Undef
  | S fuel =>
      seems_valid number ≫= fun _ =>
      let start := t in
      '(hit, t, len) ← dial_match dial (cstr_block number) t 0 0 bound;
      if hit : bool then
        if negb (start =? official) then
          nstr ← replace_prefix dial official official_len len number;
          Ok (1, nstr)
        else Ok (1, number)
      else
        '(t, len) ← dial_skip dial t len bound;
        x ← rd dial t;
        if x =? 0 then Ok (0, number)
        else
          let official_len := if start =? official then len else official_len in
          let official := if x =? 59 then t + 1 else official in
          dial_loop dial number (t + 1) official official_len bound fuel
  end.

(** [dial_prefixes] is a C string; the result and the number. *)
Definition normalize_number (dial_prefixes : option (list Z)) (number : Octstr) : res (Z * Octstr) :=
  match dial_prefixes with
  | None => Ok (0, number)
  | Some s =>
      let dial := s ++ [0] in
      x ← rd dial 0;
      if x =? 0 then Ok (0, number)
      else dial_loop dial number 0 0 0 (S (length s)) (S (length s))
  end.

(** ** IP addresses *)

(** The inner [while]. *)
Fixpoint ip_skip (ip : Octstr) (j ip_len ip_c : Z) (fuel : nat) : res Z :=
  match fuel with
  | O => Undef
  | S fuel =>
      if (j <? ip_len) && negb (ip_c =? 46) then
        c ← octstr_get_char ip (j + 1);
        ip_skip ip (j + 1) ip_len c fuel
      else Ok j
  end.

Fixpoint ip_loop (pattern ip : Octstr) (i j pat_len ip_len : Z) (fuel : nat) : res Z :=
  match fuel with
  | O => Undef
  | S fuel =>
      if (i <? pat_len) && (j <? ip_len) then
        pat_c ← octstr_get_char pattern i;
        ip_c ← octstr_get_char ip j;
        if pat_c =? ip_c then ip_loop pattern ip (i + 1) (j + 1) pat_len ip_len fuel
        else if negb (pat_c =? 42) then Ok 0
        else
          j ← ip_skip ip j ip_len ip_c (S (Z.to_nat ip_len));
          ip_loop pattern ip (i + 1) j pat_len ip_len fuel
      else Ok (if (pat_len <=? i) && (ip_len <=? j) then 1 else 0)
  end.

Definition pattern_matches_ip (pattern ip : Octstr) : res Z :=
  pat_len ← octstr_len (Some pattern);
  ip_len ← octstr_len (Some ip);
  ip_loop pattern ip 0 0 pat_len ip_len (S (Z.to_nat pat_len)).

Fixpoint any_pattern (patterns : list Octstr) (ip : Octstr) : res Z :=
  match patterns with
  | [] => Ok 0
  | pattern :: patterns =>
      m ← pattern_matches_ip pattern ip;
      if negb (m =? 0) then Ok m else any_pattern patterns ip
  end.

Definition pattern_list_matches_ip (pattern_list ip : Octstr) : res Z :=
  patterns ← octstr_split pattern_list (octstr_imm [59]);
  any_pattern patterns ip.

Definition is_allowed_ip (allow_ip deny_ip ip : option Octstr) : res Z :=
  match ip with
  | None => Ok 0
  | Some ip =>
      n ← octstr_len deny_ip;
      if n =? 0 then Ok 1
      else
        a ← match allow_ip with Some allow => pattern_list_matches_ip allow ip | None => Ok 0 end;
        if negb (a =? 0) then Ok 1
        else
          match deny_ip with
          | Some deny => d ← pattern_list_matches_ip deny ip; Ok (if negb (d =? 0) then 0 else 1)
          | None => Undef
          end
  end.

Definition connect_denied (allow_ip ip : option Octstr) : res Z :=
  match ip with
  | None => Ok 1
  | Some ip =>
      m ← pattern_list_matches_ip
            (match allow_ip with Some allow => allow | None => octstr_imm [49; 50; 55; 46; 48; 46; 48; 46; 49] end) ip;
      Ok (if negb (m =? 0) then 0 else 1)
  end.
