(* ===== verification/PrefixProofs.v ===== *)
(** * Prefixes of numbers: what the functions compute

    [does_prefix_match] and [normalize_number] of Prefix.v are equivalent to
    definitions on the lists of prefixes that their texts stand for. *)

From stdpp Require Import list.
From S2P Require Import Prelude Octstr OctstrSearch OctstrCode OctstrParts Prefix.

(** ** C texts in a block *)

Definition ctext (s : list Z) : Prop := Forall (fun c => 0 < c < 256) s.

(** The C string at [p] is [s]. *)
Definition at_text (b : block) (p : Z) (s : list Z) : Prop :=
  0 <= p /\ ctext s /\ exists r, drop (Z.to_nat p) b = s ++ 0 :: r.

(** The character at the start of a C string. *)
Definition first_char (s : list Z) : Z := match s with c :: _ => c | [] => 0 end.

Lemma at_rd b p s : at_text b p s -> rd b p = Ok (first_char s).
Proof.
  intros (Hp & Hs & r & Hd). assert (b !! Z.to_nat p = Some (first_char s)) as Hl.
  { rewrite <- (Nat.add_0_r (Z.to_nat p)), <- lookup_drop, Hd. by destruct s. }
  apply rd_ok. split_and!; [done|done|]. destruct Hs; cbn; lia.
Qed.

Lemma at_skip b p u v : at_text b p (u ++ v) -> at_text b (p + zlen u) v.
Proof.
  intros (Hp & Hs & r & Hd). pose proof (zlen_nonneg u). apply Forall_app in Hs as [_ Hs]. split_and!; [lia|done|]. exists r.
  replace (Z.to_nat (p + zlen u)) with (Z.to_nat p + length u)%nat by list_lia.
  by rewrite <- drop_drop, Hd, <- app_assoc, drop_app_length.
Qed.

Lemma at_step b p c s : at_text b p (c :: s) -> at_text b (p + 1) s.
Proof. apply (at_skip b p [c] s). Qed.

Lemma at_length b p s : at_text b p s -> p + zlen s < zlen b.
Proof. intros (Hp & _ & r & Hd). apply (f_equal length) in Hd. rewrite length_drop in Hd. list_lia. Qed.

Lemma cstr_ctext s : octets s -> ctext (cstr s).
Proof.
  induction 1 as [|c s Hc _ IH]; cbn; [apply Forall_nil_2|]. destruct (Z.eqb_spec c 0); [apply Forall_nil_2|].
  apply Forall_cons_2; [destruct Hc; lia|done].
Qed.

Lemma cstr_rest s r : exists r', s ++ 0 :: r = cstr s ++ 0 :: r'.
Proof.
  induction s as [|c s [r' IH]]; [by exists r|]. cbn. destruct (Z.eqb_spec c 0) as [->|]; [by exists (s ++ 0 :: r)|].
  exists r'. cbn. by rewrite IH.
Qed.

Lemma at_start o s : repr o s -> at_text (cstr_block o) 0 (cstr s).
Proof.
  intros Ho. destruct (cstr_block_ok o s Ho) as (rest & -> & Hs). destruct (cstr_rest s rest) as [r ->].
  split_and!; [lia|by apply cstr_ctext|by exists r].
Qed.

(** ** Lists in a text *)

Fixpoint fields (sep : Z) (s : list Z) : list (list Z) :=
  match s with
  | [] => [[]]
  | c :: s =>
      if c =? sep then [] :: fields sep s
      else match fields sep s with
           | f :: fs => (c :: f) :: fs
           | [] => [[c]]
           end
  end.

Definition free_of (sep : Z) (s : list Z) : Prop := Forall (fun c => c <> sep) s.

Lemma fields_free sep s : free_of sep s -> fields sep s = [s].
Proof. induction 1 as [|c s Hc _ IH]; [done|]. cbn. rewrite IH. by destruct (Z.eqb_spec c sep). Qed.

Lemma fields_cons sep s t : free_of sep s -> fields sep (s ++ sep :: t) = s :: fields sep t.
Proof.
  induction 1 as [|c s Hc _ IH]; cbn; [by rewrite Z.eqb_refl|]. destruct (Z.eqb_spec c sep); [done|]. by rewrite IH.
Qed.

Lemma first_field sep s : exists u v, s = u ++ v /\ free_of sep u /\ (v = [] \/ exists t, v = sep :: t).
Proof.
  induction s as [|c s (u & v & -> & Hu & Hv)]; [exists [], []; split_and!; [done|apply Forall_nil_2|by left]|].
  destruct (decide (c = sep)) as [->|Hc].
  - exists [], (sep :: u ++ v). split_and!; [done|apply Forall_nil_2|right; eauto].
  - exists (c :: u), v. split_and!; [done|by apply Forall_cons_2|done].
Qed.

(** ** [does_prefix_match] *)

(** Every prefix of the list that is not empty, and the first one in any case. *)
Definition prefixes (s : list Z) : list (list Z) :=
  match fields 59 s with
  | f :: fs => f :: List.filter (fun f => negb (bool_decide (f = []))) fs
  | [] => []
  end.

Definition prefix_matches (s n : list Z) : bool :=
  negb (bool_decide (s = [])) && existsb (fun f => bool_decide (f `prefix_of` n)) (prefixes s).

Lemma match_number_ok pre num alt : forall p b n tl (fuel : nat),
  at_text pre p (alt ++ tl) -> at_text num b n -> free_of 59 alt -> (tl = [] \/ exists t, tl = 59 :: t) ->
  (length alt < fuel)%nat ->
  exists hit p', match_number pre num p b fuel = Ok (hit, p') /\
    (if bool_decide (alt `prefix_of` n) then hit = true \/ p' = p + zlen alt
     else hit = false /\ exists u c v, alt = u ++ c :: v /\ p' = p + zlen u).
Proof.
  induction alt as [|x alt IH]; intros p b n tl fuel Hp Hb Hf Ht Hfu; (destruct fuel as [|fuel]; [cbn in Hfu; lia|]);
    cbn [match_number]; rewrite (at_rd _ _ _ Hb); bind_red.
  - rewrite bool_decide_true by apply prefix_nil.
    destruct n as [|c n]; cbn [first_char Z.eqb].
    { exists false, p. split; [done|]. right. rewrite Z.add_0_r. done. }
    destruct (Z.eqb_spec c 0) as [->|_]; [destruct Hb as (_ & Hb & _); apply Forall_cons_iff in Hb as [? _]; lia|].
    rewrite (at_rd _ _ _ Hp). bind_red. exists true, p. split; [|by left].
    destruct Ht as [-> | [t ->]]; reflexivity.
  - destruct n as [|c n]; cbn [first_char Z.eqb].
    { rewrite bool_decide_false by (apply prefix_nil_not). exists false, p. split; [done|]. split; [done|].
      exists [], x, alt. split; [done|]. by rewrite Z.add_0_r. }
    destruct Hb as (Hb0 & Hb1 & Hb2). pose proof Hb1 as Hc. apply Forall_cons_iff in Hc as [Hc _].
    destruct (Z.eqb_spec c 0); [lia|]. rewrite (at_rd _ _ _ Hp). bind_red. cbn [first_char app].
    pose proof Hp as (_ & Hx & _). apply Forall_cons_iff in Hx as [Hx _]. apply Forall_cons_iff in Hf as [Hx59 Hf].
    unfold ends_prefix. destruct (Z.eqb_spec x 59); [done|]. destruct (Z.eqb_spec x 0); [lia|]. cbn [orb].
    destruct (Z.eqb_spec x c) as [->|Hne]; cbn [negb].
    + apply at_step in Hp. assert (at_text num (b + 1) n) as Hb' by (by apply (at_step num b c)).
      destruct (IH (p + 1) (b + 1) n tl fuel Hp Hb' Hf Ht ltac:(cbn in Hfu; lia)) as (hit & p' & E & H).
      exists hit, p'. split; [done|]. rewrite (bool_decide_ext (c :: alt `prefix_of` c :: n) (alt `prefix_of` n))
        by (split; [apply prefix_cons_inv_2|apply prefix_cons]).
      destruct (bool_decide _).
      * destruct H as [H|H]; [by left|right]. list_lia.
      * destruct H as (Hh & u & d & v & -> & ->). split; [done|]. exists (c :: u), d, v. split; [done|list_lia].
    + rewrite bool_decide_false by (intros H; by apply prefix_cons_inv_1 in H). exists false, p. split; [done|]. split; [done|].
      exists [], x, alt. split; [done|]. by rewrite Z.add_0_r.
Qed.

Lemma skip_prefix_ok pre u : forall p tl (fuel : nat),
  at_text pre p (u ++ tl) -> free_of 59 u -> (tl = [] \/ exists t, tl = 59 :: t) -> (length u < fuel)%nat ->
  skip_prefix pre p fuel = Ok (p + zlen u).
Proof.
  induction u as [|c u IH]; intros p tl fuel Hp Hf Ht Hfu; (destruct fuel as [|fuel]; [cbn in Hfu; lia|]);
    cbn [skip_prefix]; rewrite (at_rd _ _ _ Hp); bind_red.
  - rewrite Z.add_0_r. by destruct Ht as [-> | [t ->]].
  - pose proof Hp as (_ & Hx & _). apply Forall_cons_iff in Hx as [Hx _]. apply Forall_cons_iff in Hf as [Hc Hf].
    cbn [first_char app]. destruct (Z.eqb_spec c 0); [lia|]. destruct (Z.eqb_spec c 59); [done|]. cbn [negb andb].
    rewrite (IH (p + 1) tl) by (done || (cbn in Hfu; lia) || by apply (at_step pre p c)). f_equal. list_lia.
Qed.

Lemma skip_semicolons_ok pre t : forall p (fuel : nat),
  at_text pre p t -> (length t < fuel)%nat ->
  exists p' t', skip_semicolons pre p fuel = Ok p' /\ at_text pre p' t' /\ (length t' <= length t)%nat /\
    head t' <> Some 59 /\
    List.filter (fun f => negb (bool_decide (f = []))) (fields 59 t) =
    List.filter (fun f => negb (bool_decide (f = []))) (fields 59 t').
Proof.
  induction t as [|c t IH]; intros p fuel Hp Hfu; (destruct fuel as [|fuel]; [cbn in Hfu; lia|]);
    cbn [skip_semicolons]; rewrite (at_rd _ _ _ Hp); bind_red; cbn [first_char].
  - exists p, []. by split_and!.
  - destruct (Z.eqb_spec c 59) as [->|Hc].
    + destruct (IH (p + 1) fuel (at_step _ _ _ _ Hp) ltac:(cbn in Hfu; lia)) as (p' & t' & E & Hp' & Hl & Hh & Hfl).
      exists p', t'. split_and!; [done|done|cbn; lia|done|]. cbn. done.
    + exists p, (c :: t). split_and!; [done|done|done|by intros [=]|done].
Qed.

Definition not_empty (f : list Z) : bool := negb (bool_decide (f = [])).

Lemma prefixes_filter t : t <> [] -> head t <> Some 59 -> prefixes t = List.filter not_empty (fields 59 t).
Proof.
  intros Hne Hh. destruct t as [|c t]; [done|]. unfold prefixes. cbn. destruct (Z.eqb_spec c 59) as [->|]; [done|].
  by destruct (fields 59 t).
Qed.

Definition matches_any (fs : list (list Z)) (n : list Z) : bool := existsb (fun f => bool_decide (f `prefix_of` n)) fs.

(** Going on behind a prefix that does not match. *)
Lemma prefix_matches_next alt tl t n :
  free_of 59 alt -> (tl = [] \/ exists t, tl = 59 :: t) -> alt ++ tl <> [] -> bool_decide (alt `prefix_of` n) = false ->
  head t <> Some 59 -> List.filter not_empty (fields 59 tl) = List.filter not_empty (fields 59 t) ->
  prefix_matches (alt ++ tl) n = prefix_matches t n.
Proof.
  intros Hf Ht Hne Hno Hh E. unfold prefix_matches at 1. rewrite (bool_decide_false _ Hne). cbn [negb andb].
  assert (existsb (fun f => bool_decide (f `prefix_of` n)) (prefixes (alt ++ tl)) =
    matches_any (List.filter not_empty (fields 59 tl)) n) as ->.
  { destruct Ht as [-> | [t' ->]].
    - unfold prefixes. rewrite app_nil_r, fields_free by done. cbn. by rewrite Hno.
    - unfold prefixes. rewrite fields_cons by done. cbn. by rewrite Hno. }
  rewrite E. unfold prefix_matches. destruct (decide (t = [])) as [->|Htn]; [done|].
  rewrite (bool_decide_false _ Htn), (prefixes_filter t) by done. done.
Qed.

Lemma prefix_loop_ok pre num n (bound fuel : nat) : forall p rest,
  at_text num 0 n -> at_text pre p rest -> (length rest < bound)%nat -> (length rest < fuel)%nat ->
  prefix_loop pre num p bound fuel = Ok (if prefix_matches rest n then 1 else 0).
Proof.
  induction fuel as [|fuel IH]; intros p rest Hn Hp Hb Hf; [lia|]. cbn [prefix_loop].
  destruct (first_field 59 rest) as (alt & tl & -> & Hfree & Htl).
  rewrite (at_rd _ _ _ Hp). bind_red. destruct (alt ++ tl) as [|c t] eqn:Er.
  { done. }
  rewrite <- Er in *. assert (first_char (alt ++ tl) <> 0) as Hc.
  { destruct Hp as (_ & Hs & _). rewrite Er in Hs |- *. apply Forall_cons_iff in Hs as [? _]. cbn. lia. }
  destruct (Z.eqb_spec (first_char (alt ++ tl)) 0); [done|]. rewrite length_app in Hb, Hf.
  destruct (match_number_ok pre num alt p 0 n tl bound Hp Hn Hfree Htl ltac:(lia)) as (hit & p' & -> & Hm). bind_red.
  destruct (bool_decide (alt `prefix_of` n)) eqn:Ealt.
  - assert (prefix_matches (alt ++ tl) n = true) as ->.
    { unfold prefix_matches. rewrite bool_decide_false by (by rewrite Er). cbn. unfold prefixes.
      destruct Htl as [-> | [t' ->]]; [rewrite app_nil_r, fields_free by done|rewrite fields_cons by done]; cbn; by rewrite Ealt. }
    destruct Hm as [-> | ->]; [done|]. destruct hit; [done|].
    rewrite (at_rd _ _ _ (at_skip _ _ _ _ Hp)). bind_red. by destruct Htl as [-> | [t' ->]].
  - destruct Hm as (-> & u & d & v & -> & ->). rewrite <- app_assoc in Hp, Er. cbn [app] in Hp, Er.
    pose proof (at_skip _ _ _ _ Hp) as Hp1. rewrite (at_rd _ _ _ Hp1). bind_red. cbn [first_char].
    apply Forall_app in Hfree as [Hu Hfree]. pose proof Hfree as Hfd. apply Forall_cons_iff in Hfd as [Hd _].
    assert (d <> 0) by (destruct Hp1 as (_ & Hs & _); apply Forall_cons_iff in Hs as [? _]; lia).
    unfold ends_prefix. destruct (Z.eqb_spec d 59); [done|]. destruct (Z.eqb_spec d 0); [done|]. cbn [orb].
    rewrite length_app in Hb, Hf. cbn [length] in Hb, Hf.
    rewrite (skip_prefix_ok pre (d :: v) _ tl) by (done || (cbn; lia)). bind_red.
    pose proof (at_skip pre _ (d :: v) tl Hp1) as Hp2.
    destruct (skip_semicolons_ok pre tl _ bound Hp2 ltac:(lia)) as (p3 & t' & -> & Hp3 & Hl & Hh & Hfl). bind_red.
    rewrite (IH p3 t') by (done || lia). f_equal.
    rewrite (prefix_matches_next (u ++ d :: v) tl t' n); [done|apply Forall_app; done|done| |done|done|done].
    rewrite <- app_assoc. cbn [app]. by rewrite Er.
Qed.

Lemma does_prefix_match_ok (prefix number : Octstr) (s n : list Z) : repr prefix s -> repr number n ->
  does_prefix_match prefix number = Ok (if prefix_matches (cstr s) (cstr n) then 1 else 0).
Proof.
  intros Hs Hn. unfold does_prefix_match. rewrite (repr_seems_valid _ _ Hs), (repr_seems_valid _ _ Hn). bind_red. cbn zeta.
  pose proof (at_length _ _ _ (at_start _ _ Hs)). apply prefix_loop_ok; [by apply at_start|by apply at_start|list_lia|list_lia].
Qed.

(** ** [normalize_number] *)

(** The number with [official] instead of the first of [alts] that it starts with. *)
Fixpoint norm_alts (official : list Z) (alts : list (list Z)) (n : list Z) : option (list Z) :=
  match alts with
  | [] => None
  | a :: alts =>
      if bool_decide (a `prefix_of` n)
      then Some ((if first_char official =? 45 then [] else official) ++ drop (length a) n)
      else norm_alts official alts n
  end.

(** A group begins with the official prefix. *)
Definition norm_group (g n : list Z) : option (list Z) :=
  match fields 44 g with
  | o :: alts => if bool_decide (o `prefix_of` n) then Some n else norm_alts o alts n
  | [] => None
  end.

Fixpoint norm_groups (gs : list (list Z)) (n : list Z) : option (list Z) :=
  match gs with
  | [] => None
  | g :: gs => match norm_group g n with Some r => Some r | None => norm_groups gs n end
  end.

Definition normalized (s n : list Z) : option (list Z) := norm_groups (fields 59 s) n.

(** What is left at some place in the text; [o] is the official prefix of the group,
    unless it is what comes next. *)
Definition norm_from (o : option (list Z)) (rest n : list Z) : option (list Z) :=
  match fields 59 rest with
  | g :: gs =>
      match (match o with None => norm_group g n | Some o => norm_alts o (fields 44 g) n end) with
      | Some r => Some r
      | None => norm_groups gs n
      end
  | [] => None
  end.

Definition renumbered (o : option (list Z)) (a n : list Z) : list Z :=
  match o with
  | None => n
  | Some o => (if first_char o =? 45 then [] else o) ++ drop (length a) n
  end.

Definition plain_alt (a : list Z) : Prop := free_of 44 a /\ free_of 59 a.

Lemma norm_from_end o a n : plain_alt a ->
  norm_from o a n = if bool_decide (a `prefix_of` n) then Some (renumbered o a n) else None.
Proof.
  intros [H1 H2]. unfold norm_from. rewrite (fields_free 59) by done. destruct o as [o|].
  - rewrite (fields_free 44) by done. cbn. by destruct (bool_decide _).
  - unfold norm_group. rewrite (fields_free 44) by done. cbn. by destruct (bool_decide _).
Qed.

Lemma norm_from_group o a t n : plain_alt a ->
  norm_from o (a ++ 59 :: t) n = if bool_decide (a `prefix_of` n) then Some (renumbered o a n) else norm_from None t n.
Proof.
  intros [H1 H2]. unfold norm_from. rewrite (fields_cons 59) by done.
  assert (norm_groups (fields 59 t) n = norm_from None t n) as En by (unfold norm_from; by destruct (fields 59 t)).
  destruct o as [o|].
  - rewrite (fields_free 44) by done. cbn. by destruct (bool_decide _).
  - unfold norm_group. rewrite (fields_free 44) by done. cbn. by destruct (bool_decide _).
Qed.

Lemma fields_ne sep s : fields sep s <> [].
Proof. destruct s as [|c s]; [done|]. cbn. destruct (c =? sep); [done|]. by destruct (fields sep s). Qed.

Lemma fields_app_first sep a t : free_of sep a -> fields sep (a ++ t) =
  match fields sep t with f :: fs => (a ++ f) :: fs | [] => [a] end.
Proof.
  induction 1 as [|c a Hc _ IH]; cbn.
  - destruct (fields sep t) eqn:E; [by apply fields_ne in E|done].
  - rewrite IH. destruct (Z.eqb_spec c sep); [done|]. by destruct (fields sep t).
Qed.

Lemma norm_from_alt o a t n : plain_alt a ->
  norm_from o (a ++ 44 :: t) n =
    if bool_decide (a `prefix_of` n) then Some (renumbered o a n)
    else norm_from (Some (match o with None => a | Some o => o end)) t n.
Proof.
  intros [H1 H2]. unfold norm_from. replace (a ++ 44 :: t) with ((a ++ [44]) ++ t) by (by rewrite <- app_assoc).
  rewrite (fields_app_first 59) by (apply Forall_app; split; [done|by apply Forall_singleton]).
  destruct (fields 59 t) as [|f fs] eqn:E; [by apply fields_ne in E|]. rewrite <- app_assoc. cbn [app].
  destruct o as [o|].
  - rewrite (fields_cons 44) by done. cbn. by destruct (bool_decide _).
  - unfold norm_group. rewrite (fields_cons 44) by done. cbn. by destruct (bool_decide _).
Qed.

Definition dial_tail (tl : list Z) : Prop := tl = [] \/ (exists t, tl = 44 :: t) \/ exists t, tl = 59 :: t.

Lemma first_alt s : exists a tl, s = a ++ tl /\ plain_alt a /\ dial_tail tl.
Proof.
  induction s as [|c s (a & tl & -> & [H1 H2] & Ht)]; [exists [], []; split_and!; [done|split; apply Forall_nil_2|by left]|].
  destruct (decide (c = 44)) as [->|H44]; [|destruct (decide (c = 59)) as [->|H59]].
  - exists [], (44 :: a ++ tl). split_and!; [done|split; apply Forall_nil_2|right; left; eauto].
  - exists [], (59 :: a ++ tl). split_and!; [done|split; apply Forall_nil_2|right; right; eauto].
  - exists (c :: a), tl. split_and!; [done|split; by apply Forall_cons_2|done].
Qed.

Lemma dial_tail_ends tl : dial_tail tl -> ends_dial (first_char tl) = true.
Proof. by intros [-> | [[t ->] | [t ->]]]. Qed.

Lemma plain_not_end dial t c a tl : at_text dial t (c :: a ++ tl) -> plain_alt (c :: a) -> ends_dial c = false.
Proof.
  intros (_ & Hs & _) [H1 H2]. apply Forall_cons_iff in Hs as [Hs _]. apply Forall_cons_iff in H1 as [H1 _].
  apply Forall_cons_iff in H2 as [H2 _]. unfold ends_dial.
  destruct (Z.eqb_spec c 44); [done|]. destruct (Z.eqb_spec c 59); [done|]. destruct (Z.eqb_spec c 0); [lia|done].
Qed.

Lemma plain_tail c a : plain_alt (c :: a) -> plain_alt a.
Proof. intros [H1 H2]. apply Forall_cons_iff in H1 as [_ H1]. by apply Forall_cons_iff in H2 as [_ H2]. Qed.

Lemma dial_match_ok dial num a : forall t p len n tl (fuel : nat),
  at_text dial t (a ++ tl) -> at_text num p n -> plain_alt a -> dial_tail tl -> (length a < fuel)%nat ->
  exists hit t' len', dial_match dial num t p len fuel = Ok (hit, t', len') /\ hit = bool_decide (a `prefix_of` n) /\
    (if hit : bool then t' = t + zlen a /\ len' = len + zlen a
     else exists u v, a = u ++ v /\ t' = t + zlen u /\ len' = len + zlen u).
Proof.
  induction a as [|x a IH]; intros t p len n tl fuel Ht Hn Ha Htl Hf; (destruct fuel as [|fuel]; [cbn in Hf; lia|]);
    cbn [dial_match]; rewrite (at_rd _ _ _ Ht); bind_red.
  - cbn [app]. rewrite (dial_tail_ends tl Htl). eexists true, _, _. split; [done|].
    rewrite bool_decide_true by apply prefix_nil. split; [done|]. split; list_lia.
  - cbn [first_char app]. rewrite (plain_not_end _ _ _ _ _ Ht Ha), (at_rd _ _ _ Hn). bind_red.
    destruct n as [|c n]; cbn [first_char Z.eqb orb].
    { eexists false, _, _. split; [done|]. rewrite bool_decide_false by apply prefix_nil_not. split; [done|].
      exists [], (x :: a). split; [done|]. split; list_lia. }
    destruct (Z.eqb_spec c 0) as [->|_]; [destruct Hn as (_ & Hn & _); apply Forall_cons_iff in Hn as [? _]; lia|].
    cbn [orb]. destruct (Z.eqb_spec x c) as [->|Hne]; cbn [negb].
    + destruct (IH (t + 1) (p + 1) (len + 1) n tl fuel (at_step _ _ _ _ Ht) (at_step _ _ _ _ Hn) (plain_tail _ _ Ha) Htl
        ltac:(cbn in Hf; lia)) as (hit & t' & len' & E & Hh & H).
      exists hit, t', len'. split; [done|]. rewrite (bool_decide_ext (c :: a `prefix_of` c :: n) (a `prefix_of` n))
        by (split; [apply prefix_cons_inv_2|apply prefix_cons]). split; [done|]. destruct hit.
      * destruct H as [-> ->]. split; list_lia.
      * destruct H as (u & v & -> & -> & ->). exists (c :: u), v. split; [done|]. split; list_lia.
    + eexists false, _, _. split; [done|]. rewrite bool_decide_false by (intros H; by apply prefix_cons_inv_1 in H).
      split; [done|]. exists [], (x :: a). split; [done|]. split; list_lia.
Qed.

Lemma dial_skip_ok dial a : forall t len tl (fuel : nat),
  at_text dial t (a ++ tl) -> plain_alt a -> dial_tail tl -> (length a < fuel)%nat ->
  dial_skip dial t len fuel = Ok (t + zlen a, len + zlen a).
Proof.
  induction a as [|c a IH]; intros t len tl fuel Ht Ha Htl Hf; (destruct fuel as [|fuel]; [cbn in Hf; lia|]);
    cbn [dial_skip]; rewrite (at_rd _ _ _ Ht); bind_red; cbn [first_char app].
  - rewrite (dial_tail_ends tl Htl). by rewrite !Z.add_0_r.
  - rewrite (plain_not_end _ _ _ _ _ Ht Ha). rewrite (IH (t + 1) (len + 1) tl);
      [do 2 f_equal; list_lia|by apply at_step in Ht|by eapply plain_tail|done|cbn in Hf; lia].
Qed.

Lemma prefix_cstr a n : ctext a -> a `prefix_of` cstr n <-> a `prefix_of` n.
Proof.
  intros Ha. revert n. induction Ha as [|c a Hc _ IH]; intros n; [split; intros _; apply prefix_nil|].
  destruct n as [|d n]; [done|]. cbn. destruct (Z.eqb_spec d 0) as [->|Hd].
  - split; intros H; [by apply prefix_nil_not in H|]. apply prefix_cons_inv_1 in H. lia.
  - split; intros H; pose proof (prefix_cons_inv_1 _ _ _ _ H) as ->; apply prefix_cons_inv_2, (IH n) in H; by apply prefix_cons.
Qed.

Lemma replace_prefix_ok dial official o w len number n :
  at_text dial official (o ++ 44 :: w) -> repr number n -> 0 <= len <= zlen n ->
  returns (replace_prefix dial official (zlen o) len number)
    (fun r => reprm r ((if first_char o =? 45 then [] else o) ++ drop (Z.to_nat len) n)).
Proof.
  intros Ht Hn Hlen. unfold replace_prefix. rewrite (at_rd _ _ _ Ht). bind_red. cbn zeta.
  assert ((first_char (o ++ 44 :: w) =? 45) = (first_char o =? 45)) as -> by by destruct o.
  pose proof Ht as (Hp & Hs & r & Hd). pose proof (at_length _ _ _ Ht) as Hl.
  assert (cstr (drop (Z.to_nat official) dial) = o ++ 44 :: w) as ->.
  { rewrite Hd, cstr_app; [by rewrite app_nil_r|]. revert Hs. apply Forall_impl. intros c Hc. lia. }
  set (ol := if first_char o =? 45 then 0 else zlen o). set (k := if first_char o =? 45 then [] else o).
  assert (ol = zlen k) as Eol by (unfold ol, k; by destruct (first_char o =? 45)). rewrite Eol. pose proof (zlen_nonneg w).
  assert (exists k', o = k ++ k') as [k' Ek] by (unfold k; destruct (first_char o =? 45); [by exists o|exists []; by rewrite app_nil_r]).
  assert (zlen (o ++ 44 :: w) = zlen k + zlen k' + 1 + zlen w) as El by (rewrite Ek; list_lia).
  pose proof (zlen_nonneg k). pose proof (zlen_nonneg k').
  destruct (Z.ltb_spec (zlen (o ++ 44 :: w)) (zlen k)); [lia|].
  assert (slice dial official (zlen k) = k) as Esl.
  { unfold slice. rewrite Hd, Ek, <- !app_assoc. replace (Z.to_nat (zlen k)) with (length k) by list_lia. apply take_app_length. }
  assert (octets k) as Hk.
  { rewrite Ek, <- app_assoc in Hs. apply Forall_app in Hs as [Hs _]. revert Hs. apply Forall_impl. unfold octet. intros; lia. }
  eapply returns_seq; [apply (octstr_create_from_data_ok dial official (zlen k)); [lia|lia|lia|by rewrite Esl]|].
  intros nstr Hnstr. cbn beta in Hnstr. rewrite Esl in Hnstr. rewrite (octstr_len_ok _ _ Hn). bind_red.
  destruct (cstr_block_ok number n Hn) as (rest & -> & Hno).
  assert (take (Z.to_nat (zlen n - len)) (drop (Z.to_nat len) (n ++ 0 :: rest)) = drop (Z.to_nat len) n) as Etk.
  { rewrite drop_app_le by list_lia. replace (Z.to_nat (zlen n - len)) with (length (drop (Z.to_nat len) n)) by (rewrite length_drop; list_lia).
    apply take_app_length. }
  eapply returns_mono; [apply (octstr_insert_data_ok nstr k _ (zlen k) (zlen n - len) Hnstr)|].
  - pose proof (zlen_nonneg k). lia.
  - list_lia.
  - rewrite Etk. by apply Forall_drop.
  - intros r' Hr'. by rewrite Etk, splice_end in Hr'.
Qed.

(** Where the loop is: at [official] the official prefix of the group, if the loop is
    past it. *)
Definition dial_state (dial : block) (t official official_len : Z) (o : option (list Z)) : Prop :=
  match o with
  | None => t = official
  | Some o => official < t /\ official_len = zlen o /\ exists w, at_text dial official (o ++ 44 :: w)
  end.

Section normalize.
Context (dial : block) (number : Octstr) (n : list Z).
Hypothesis Hn : repr number n.

Definition norm_result (m : option (list Z)) (r : Z * Octstr) : Prop :=
  match m with
  | Some m => r.1 = 1 /\ repr r.2 m
  | None => r = (0, number)
  end.

Lemma dial_hit_ok t official ol o a : dial_state dial t official ol o -> a `prefix_of` n ->
  returns (if negb (t =? official) then nstr ← replace_prefix dial official ol (zlen a) number; Ok (1, nstr) else Ok (1, number))
    (norm_result (Some (renumbered o a n))).
Proof.
  intros Hst Ha. destruct o as [o|]; cbn in Hst.
  - destruct Hst as (Hlt & -> & w & Hw). destruct (Z.eqb_spec t official); [lia|]. cbn [negb].
    assert (0 <= zlen a <= zlen n) by (destruct Ha as [k ->]; list_lia).
    eapply returns_seq; [by apply (replace_prefix_ok dial official o w (zlen a) number n)|]. intros r [Hr _].
    split; [done|]. cbn [snd renumbered]. replace (Z.to_nat (zlen a)) with (length a) in Hr by list_lia. done.
  - subst. rewrite Z.eqb_refl. by split.
Qed.

Lemma dial_loop_ok (bound fuel : nat) : forall t official ol o rest,
  at_text dial t rest -> dial_state dial t official ol o -> (length rest < bound)%nat -> (length rest < fuel)%nat ->
  returns (dial_loop dial number t official ol bound fuel) (norm_result (norm_from o rest n)).
Proof.
  induction fuel as [|fuel IH]; intros t official ol o rest Ht Hst Hb Hf; [lia|]. cbn [dial_loop].
  rewrite (repr_seems_valid _ _ Hn). bind_red. cbn zeta.
  destruct (first_alt rest) as (a & tl & -> & Ha & Htl). rewrite length_app in Hb, Hf.
  pose proof (at_start number n Hn) as Hnum.
  destruct (dial_match_ok dial _ a t 0 0 (cstr n) tl bound Ht Hnum Ha Htl ltac:(lia)) as (hit & t' & len' & -> & Ehit & Hm). bind_red.
  assert (ctext a) as Hca by (destruct Ht as (_ & Hs & _); by apply Forall_app in Hs as [Hs _]).
  rewrite (bool_decide_ext _ _ (prefix_cstr a n Hca)) in Ehit.
  assert (norm_from o (a ++ tl) n = if bool_decide (a `prefix_of` n) then Some (renumbered o a n) else
    match tl with
    | 44 :: t => norm_from (Some (match o with None => a | Some o => o end)) t n
    | 59 :: t => norm_from None t n
    | _ => None
    end) as ->.
  { destruct Htl as [-> | [[t0 ->] | [t0 ->]]]; [rewrite app_nil_r; by apply norm_from_end|by apply norm_from_alt|by apply norm_from_group]. }
  rewrite <- Ehit. destruct hit.
  { destruct Hm as [-> ->]. apply (dial_hit_ok t official ol o a Hst). by apply (bool_decide_eq_true (a `prefix_of` n)). }
  destruct Hm as (u & v & -> & -> & ->). rewrite <- app_assoc in Ht. pose proof (at_skip _ _ _ _ Ht) as Ht1.
  assert (plain_alt v) as Hv by (destruct Ha as [H1 H2]; apply Forall_app in H1 as [_ H1]; by apply Forall_app in H2 as [_ H2]).
  rewrite length_app in Hb, Hf.
  rewrite (dial_skip_ok dial v _ _ tl) by (done || lia). bind_red.
  pose proof (at_skip _ _ _ _ Ht1) as Ht2. rewrite (at_rd _ _ _ Ht2). bind_red.
  assert (t + zlen u + zlen v = t + zlen (u ++ v)) as Et by list_lia.
  assert (0 + zlen u + zlen v = zlen (u ++ v)) as El by list_lia. rewrite El, Et in *.
  destruct Htl as [-> | [[t0 ->] | [t0 ->]]]; cbn [first_char Z.eqb Pos.eqb].
  - done.
  - apply at_step in Ht2 as Ht3. eapply (IH _ _ _ (Some (match o with None => u ++ v | Some o => o end)) t0);
      [exact Ht3| |cbn in Hb; lia|cbn in Hf; lia].
    cbn [dial_state]. pose proof (zlen_nonneg (u ++ v)). destruct o as [o|]; cbn in Hst.
    + destruct Hst as (Hlt & -> & w & Hw). destruct (Z.eqb_spec t official); [lia|]. split_and!; [lia|done|by exists w].
    + subst official. rewrite Z.eqb_refl. split_and!; [lia|done|]. exists t0. by rewrite <- app_assoc.
  - apply at_step in Ht2 as Ht3. eapply (IH _ _ _ None t0); [exact Ht3|done|cbn in Hb; lia|cbn in Hf; lia].
Qed.
End normalize.

Lemma normalize_number_ok (s : list Z) (number : Octstr) (n : list Z) : ctext s -> repr number n ->
  returns (normalize_number (Some s) number) (norm_result number (if bool_decide (s = []) then None else normalized s n)).
Proof.
  intros Hs Hn. unfold normalize_number. cbn zeta.
  assert (at_text (s ++ [0]) 0 s) as Ht by (split_and!; [lia|done|by exists []]).
  rewrite (at_rd _ _ _ Ht). bind_red. destruct s as [|c s]; [done|]. rewrite bool_decide_false by done. cbn [first_char].
  pose proof Hs as Hc. apply Forall_cons_iff in Hc as [Hc _]. destruct (Z.eqb_spec c 0); [lia|].
  assert (normalized (c :: s) n = norm_from None (c :: s) n) as ->.
  { unfold normalized, norm_from. by destruct (fields 59 (c :: s)). }
  by apply dial_loop_ok; [..|lia|lia].
Qed.

(** ** IP addresses *)

Fixpoint to_dot (s : list Z) : list Z :=
  match s with
  | [] => []
  | c :: t => if c =? 46 then s else to_dot t
  end.

(** A star stands for what is left of a component. *)
Fixpoint ip_match (p s : list Z) : bool :=
  match p, s with
  | [], [] => true
  | c :: p, d :: t => if c =? d then ip_match p t else if c =? 42 then ip_match p (to_dot (d :: t)) else false
  | _, _ => false
  end.

(** The text [t] is what is left of [s] at [j]. *)
Definition left_at (s : list Z) (j : Z) (t : list Z) : Prop := 0 <= j <= zlen s /\ drop (Z.to_nat j) s = t.

Lemma left_char s j t : left_at s j t -> char_at s j = match t with c :: _ => c | [] => -1 end.
Proof.
  intros [Hj <-]. unfold char_at. destruct (Z.leb_spec 0 j); [|lia].
  rewrite <- (Nat.add_0_r (Z.to_nat j)) at 1. rewrite <- lookup_drop. by destruct (drop (Z.to_nat j) s).
Qed.

Lemma left_more s j t : left_at s j t -> (j <? zlen s) = match t with _ :: _ => true | [] => false end.
Proof.
  intros [Hj Hd]. apply (f_equal length) in Hd. rewrite length_drop in Hd. destruct t; cbn in Hd; destruct (Z.ltb_spec j (zlen s)); list_lia || done.
Qed.

Lemma left_next s j c t : left_at s j (c :: t) -> left_at s (j + 1) t.
Proof.
  intros Hl. pose proof (left_more _ _ _ Hl) as Hm. destruct Hl as [Hj Hd]. split; [lia|].
  replace (Z.to_nat (j + 1)) with (Z.to_nat j + 1)%nat by lia. by rewrite <- drop_drop, Hd.
Qed.

Lemma ip_skip_ok ip s t : repr ip s -> forall j (fuel : nat), left_at s j t -> (length t < fuel)%nat ->
  exists j', ip_skip ip j (zlen s) (char_at s j) fuel = Ok j' /\ left_at s j' (to_dot t).
Proof.
  intros Hs. induction t as [|c t IH]; intros j fuel Hj Hf; (destruct fuel as [|fuel]; [cbn in Hf; lia|]);
    cbn [ip_skip]; rewrite (left_char _ _ _ Hj), (left_more _ _ _ Hj); cbn [andb].
  - by exists j.
  - cbn [to_dot]. destruct (Z.eqb_spec c 46) as [->|]; cbn [negb]; [by exists j|].
    rewrite (octstr_get_char_ok ip s _ Hs). bind_red. apply (IH (j + 1) fuel); [by eapply left_next|cbn in Hf; lia].
Qed.

Lemma to_dot_length t : (length (to_dot t) <= length t)%nat.
Proof. induction t as [|c t IH]; [done|]. cbn. destruct (c =? 46); cbn; lia. Qed.

Lemma ip_loop_ok pattern ip q s (p : list Z) : repr pattern q -> repr ip s -> forall t i j (fuel : nat),
  left_at q i p -> left_at s j t -> (length p < fuel)%nat ->
  ip_loop pattern ip i j (zlen q) (zlen s) fuel = Ok (if ip_match p t then 1 else 0).
Proof.
  intros Hq Hs. induction p as [|c p IH]; intros t i j fuel Hi Hj Hf; (destruct fuel as [|fuel]; [cbn in Hf; lia|]);
    cbn [ip_loop]; rewrite (left_more _ _ _ Hi), (left_more _ _ _ Hj).
  - cbn [andb]. rewrite !Z.leb_antisym, (left_more _ _ _ Hi), (left_more _ _ _ Hj). by destruct t.
  - destruct t as [|d t]; cbn [andb].
    { by rewrite !Z.leb_antisym, (left_more _ _ _ Hi). }
    rewrite (octstr_get_char_ok pattern q _ Hq), (octstr_get_char_ok ip s _ Hs). bind_red.
    rewrite (left_char _ _ _ Hi). pose proof (left_char _ _ _ Hj) as Ej. rewrite Ej. cbn [ip_match].
    destruct (c =? d); [apply IH; [by eapply left_next|by eapply left_next|cbn in Hf; lia]|].
    destruct (c =? 42); cbn [negb]; [|done].
    assert ((length (d :: t) < S (Z.to_nat (zlen s)))%nat) as Hl.
    { destruct Hj as [_ Hj]. apply (f_equal length) in Hj. rewrite length_drop in Hj. list_lia. }
    destruct (ip_skip_ok ip s (d :: t) Hs j _ Hj Hl) as (j' & E & Hj'). rewrite Ej in E. rewrite E. bind_red.
    apply IH; [by eapply left_next|done|cbn in Hf; lia].
Qed.

Lemma pattern_matches_ip_ok pattern ip q s : repr pattern q -> repr ip s ->
  pattern_matches_ip pattern ip = Ok (if ip_match q s then 1 else 0).
Proof.
  intros Hq Hs. unfold pattern_matches_ip. rewrite (octstr_len_ok _ _ Hq), (octstr_len_ok _ _ Hs). bind_red.
  pose proof (zlen_nonneg q). pose proof (zlen_nonneg s).
  apply (ip_loop_ok pattern ip q s q Hq Hs s); [by split; [lia|]|by split; [lia|]|list_lia].
Qed.

Lemma any_pattern_ok ip s ps qs : repr ip s -> Forall2 reprm ps qs ->
  any_pattern ps ip = Ok (if existsb (fun q => ip_match q s) qs then 1 else 0).
Proof.
  intros Hs. induction 1 as [|p q ps qs [Hp _] _ IH]; [done|]. cbn [any_pattern existsb].
  rewrite (pattern_matches_ip_ok p ip q s Hp Hs). bind_red. destruct (ip_match q s); cbn; [done|]. by rewrite IH.
Qed.

Lemma pattern_list_ok l ip q s : repr l q -> repr ip s ->
  exists qs, splits [59] q qs /\ pattern_list_matches_ip l ip = Ok (if existsb (fun q => ip_match q s) qs then 1 else 0).
Proof.
  intros Hq Hs. unfold pattern_list_matches_ip.
  assert (octets [59]) as Ho by octets_tac.
  pose proof (octstr_split_ok l (octstr_imm [59]) q [59] Hq (octstr_imm_ok _ Ho) ltac:(done)) as Hp.
  apply returns_iff in Hp as (ps & -> & qs & HF & Hsp). bind_red. exists qs. split; [done|]. by apply any_pattern_ok.
Qed.

(** *** Dotted addresses *)

Fixpoint dotted (cs : list (list Z)) : list Z :=
  match cs with
  | [] => []
  | [c] => c
  | c :: cs => c ++ 46 :: dotted cs
  end.

(** A component of a pattern is a star or a text without stars. *)
Definition pattern_part (c : list Z) : Prop := c = [42] \/ (free_of 42 c /\ free_of 46 c).
Definition address_part (c : list Z) : Prop := c <> [] /\ free_of 42 c /\ free_of 46 c.

Definition part_matches (p c : list Z) : bool := bool_decide (p = [42]) || bool_decide (p = c).

Fixpoint parts_match (ps cs : list (list Z)) : bool :=
  match ps, cs with
  | [], [] => true
  | p :: ps, c :: cs => part_matches p c && parts_match ps cs
  | _, _ => false
  end.

Definition at_dot (s : list Z) : Prop := s = [] \/ exists t, s = 46 :: t.

Lemma ip_match_literal p : forall c q s, free_of 42 p -> free_of 46 p -> free_of 46 c -> at_dot q -> at_dot s ->
  ip_match (p ++ q) (c ++ s) = bool_decide (p = c) && ip_match q s.
Proof.
  induction p as [|x p IH]; intros c q s H42 H46 Hc Hq Hs.
  - destruct c as [|d c]; [done|]. rewrite bool_decide_false by done. apply Forall_cons_iff in Hc as [Hd _].
    destruct Hq as [-> | [t ->]]; [done|]. cbn [app ip_match]. by destruct (Z.eqb_spec 46 d); [lia|].
  - apply Forall_cons_iff in H42 as [Hx42 H42]. apply Forall_cons_iff in H46 as [Hx46 H46]. destruct c as [|d c].
    + rewrite bool_decide_false by done. destruct Hs as [-> | [t ->]]; [done|]. cbn [app ip_match].
      destruct (Z.eqb_spec x 46); [done|]. by destruct (Z.eqb_spec x 42).
    + apply Forall_cons_iff in Hc as [Hd Hc]. cbn [app ip_match]. destruct (Z.eqb_spec x d) as [->|Hne].
      * rewrite IH by done. f_equal. apply bool_decide_ext. naive_solver.
      * destruct (Z.eqb_spec x 42); [done|]. by rewrite bool_decide_false by congruence.
Qed.

Lemma to_dot_part c s : free_of 46 c -> at_dot s -> to_dot (c ++ s) = s.
Proof.
  intros Hc Hs. induction Hc as [|d c Hd _ IH]; cbn.
  - by destruct Hs as [-> | [t ->]].
  - by destruct (Z.eqb_spec d 46).
Qed.

Lemma ip_match_part p c q s : pattern_part p -> address_part c -> at_dot q -> at_dot s ->
  ip_match (p ++ q) (c ++ s) = part_matches p c && ip_match q s.
Proof.
  intros [-> | [H42 H46]] (Hne & Hc42 & Hc46) Hq Hs; unfold part_matches.
  - rewrite bool_decide_true by done. destruct c as [|d c]; [done|]. cbn [app ip_match orb andb].
    apply Forall_cons_iff in Hc42 as [Hd _]. destruct (Z.eqb_spec 42 d); [lia|]. cbn [Z.eqb Pos.eqb].
    change (d :: c ++ s) with ((d :: c) ++ s). by rewrite to_dot_part.
  - rewrite (bool_decide_false (p = [42])); [by apply ip_match_literal|].
    intros ->. apply Forall_cons_iff in H42 as [? _]. done.
Qed.

Definition dotted_rest (cs : list (list Z)) : list Z := match cs with [] => [] | _ => 46 :: dotted cs end.

Lemma dotted_cons c cs : dotted (c :: cs) = c ++ dotted_rest cs.
Proof. destruct cs; cbn; [by rewrite app_nil_r|done]. Qed.

Lemma at_dot_rest cs : at_dot (dotted_rest cs).
Proof. destruct cs; [by left|right; by eexists]. Qed.

Lemma ip_match_dotted ps : Forall pattern_part ps -> forall cs, Forall address_part cs -> ps <> [] -> cs <> [] ->
  ip_match (dotted ps) (dotted cs) = parts_match ps cs.
Proof.
  induction 1 as [|p ps Hp Hps IH]; [done|]. intros cs Hcs _ Hne. destruct Hcs as [|c cs Hc Hcs]; [done|].
  rewrite !dotted_cons, ip_match_part by (done || apply at_dot_rest). cbn [parts_match]. f_equal.
  destruct ps as [|p' ps], cs as [|c' cs]; cbn [dotted_rest]; [done..|]. cbn [ip_match Z.eqb Pos.eqb]. by apply IH.
Qed.

(** ** Properties *)

(** [does_prefix_match] decides what the list of prefixes means: it returns 1
    exactly where the number starts with a prefix of the list (separated by
    semicolons; empty ones count only at the front), on all texts and without reading
    past their ends. *)
Theorem does_prefix_match_decides (prefix number : Octstr) (s n : list Z) : repr prefix s -> repr number n ->
  does_prefix_match prefix number = Ok (if prefix_matches (cstr s) (cstr n) then 1 else 0).
Proof. apply does_prefix_match_ok. Qed.

(** [normalize_number] gives the number its official prefix: of the groups
    (separated by semicolons) of prefixes (by commas), the first prefix that the
    number starts with is renumbered by the one at the front of its group (by nothing,
    where that begins with a minus); a number that has the official prefix, or none,
    stays as it is. *)
Theorem normalize_number_official (s : list Z) (number : Octstr) (n : list Z) : ctext s -> s <> [] -> repr number n ->
  exists r o, normalize_number (Some s) number = Ok (r, o) /\
    match normalized s n with
    | Some m => r = 1 /\ repr o m
    | None => r = 0 /\ o = number
    end.
Proof.
  intros Hs Hne Hn. pose proof (normalize_number_ok s number n Hs Hn) as H. rewrite bool_decide_false in H by done.
  apply returns_iff in H as ([r o] & E & H). exists r, o. split; [done|]. unfold norm_result in H.
  destruct (normalized s n); [done|by injection H as -> ->].
Qed.

(** A box is let in by the list of patterns: [connect_denied] returns 0 exactly where
    the address matches a pattern, part by part, a star standing for any part. *)
Theorem connect_denied_decides (allow ip : Octstr) (q : list Z) (cs : list (list Z)) :
  repr allow q -> repr ip (dotted cs) -> cs <> [] -> Forall address_part cs ->
  exists qs, splits [59] q qs /\
    forall pss, qs = dotted <$> pss -> Forall (fun ps => ps <> [] /\ Forall pattern_part ps) pss ->
      connect_denied (Some allow) (Some ip) = Ok (if existsb (fun ps => parts_match ps cs) pss then 0 else 1).
Proof.
  intros Hq Hip Hne Hcs. destruct (pattern_list_ok allow ip q (dotted cs) Hq Hip) as (qs & Hsp & E). exists qs. split; [done|].
  intros pss -> Hps. unfold connect_denied. rewrite E. bind_red.
  assert (existsb (fun q => ip_match q (dotted cs)) (dotted <$> pss) = existsb (fun ps => parts_match ps cs) pss) as ->.
  { clear E Hsp. induction Hps as [|ps pss [Hn Hp] _ IH]; [done|]. cbn. by rewrite IH, ip_match_dotted. }
  by destruct (existsb _ pss).
Qed.

Lemma does_prefix_match_decides_witness :
  exists o n, octstr_create [48; 48; 59; 43] = Ok o /\ octstr_create [43; 51; 53; 56] = Ok n /\ does_prefix_match o n = Ok 1.
Proof.
  assert (octets [48; 48; 59; 43]) as H1 by octets_tac. assert (octets [43; 51; 53; 56]) as H2 by octets_tac.
  pose proof (octstr_create_ok _ H1) as Ho. apply returns_iff in Ho as (o & Eo & [Ho _]).
  pose proof (octstr_create_ok _ H2) as Hn. apply returns_iff in Hn as (n & En & [Hn _]). exists o, n. split_and!; [done|done|].
  rewrite (does_prefix_match_decides o n [48; 48; 59; 43] [43; 51; 53; 56] Ho Hn). reflexivity.
Defined.

(** 00358,0;+,00 on 0401: the first group gives 00358401. *)
Lemma normalize_number_official_witness :
  exists number r o, octstr_create [48; 52; 48; 49] = Ok number /\
    normalize_number (Some [48; 48; 51; 53; 56; 44; 48; 59; 43; 44; 48; 48]) number = Ok (r, o) /\
    r = 1 /\ repr o [48; 48; 51; 53; 56; 52; 48; 49].
Proof.
  assert (octets [48; 52; 48; 49]) as H1 by octets_tac.
  pose proof (octstr_create_ok _ H1) as Hn. apply returns_iff in Hn as (number & En & [Hn _]). exists number.
  assert (ctext [48; 48; 51; 53; 56; 44; 48; 59; 43; 44; 48; 48]) as Hs
    by (repeat (apply Forall_cons_2; [lia|]); apply Forall_nil_2).
  destruct (normalize_number_official [48; 48; 51; 53; 56; 44; 48; 59; 43; 44; 48; 48] number [48; 52; 48; 49] Hs
    ltac:(discriminate) Hn) as (r & o & E & H). exists r, o. split; [done|]. split; [done|]. exact H.
Defined.

(** 10.*;127.0 lets 10.7 in. *)
Lemma connect_denied_decides_witness :
  exists allow ip, octstr_create [49; 48; 46; 42] = Ok allow /\ octstr_create [49; 48; 46; 55] = Ok ip /\
    exists qs, splits [59] [49; 48; 46; 42] qs.
Proof.
  assert (octets [49; 48; 46; 42]) as H1 by octets_tac. assert (octets [49; 48; 46; 55]) as H2 by octets_tac.
  pose proof (octstr_create_ok _ H1) as Ho. apply returns_iff in Ho as (allow & Eo & [Ho _]).
  pose proof (octstr_create_ok _ H2) as Hn. apply returns_iff in Hn as (ip & En & [Hn _]). exists allow, ip. split_and!; [done|done|].
  destruct (connect_denied_decides allow ip [49; 48; 46; 42] [[49; 48]; [55]] Ho Hn ltac:(discriminate)) as (qs & Hsp & _).
  - repeat (apply Forall_cons_2; [split_and!; [discriminate|repeat (apply Forall_cons_2; [lia|]); apply Forall_nil_2..]|]);
      apply Forall_nil_2.
  - by exists qs.
Defined.
