(* ===== verification/Numhash.v ===== *)
(** * Lists of numbers

    Models src/gw/numhash.c, the white and black lists: numbers, by their last digits as
    integers, in a hash table with chains.  The structures of the chains lie in one
    array; here a chain is the list of its keys, and the array is the count of its used
    structures.  The text of a list, which the source gets over HTTP, is an
    argument. *)

From stdpp Require Import list.
From S2P Require Import Prelude Octstr OctstrSearch OctstrCode OctstrFormat.

Definition NUMHASH_AUTO_HASH : Z := -1.

Definition primes : list Z :=
  [101; 503; 1009; 2003; 3001; 5003; 7001;
   10007; 20011; 30011; 40009; 50021; 60013; 70001; 80021; 90001;
   100003; 150001; 200003; 300007; 400009; 500009; 600011; 700001;
   800011; 900001; 1000003; 1100009; 1200007; 1300021; 1400017; 1500007;
   1600033; 1700021; 1800017; 1900009; 2000003; 3000017; 4000037; 5000111;
   6000101; 7000127; 8000051; -1].

Record Numhash := mkNumhash {
  number_total : Z;
  table_size : Z;
  hash : list (list Z);
  hash_size : Z
}.

Definition precision : Z := 19.

(** [key % table->hash_size] as an index. *)
Definition hash_index (table : Numhash) (key : Z) : res nat :=
  if hash_size table =? 0 then Undef
  else
    let i := Z.rem key (hash_size table) in
    if (0 <=? i) && (i <? zlen (hash table)) then Ok (Z.to_nat i) else Undef.

Definition chain_at (table : Numhash) (i : nat) : list Z := default [] (hash table !! i).

(** The loop along a chain, which ends at a duplicate. *)
Definition add_item (table : Numhash) (key : Z) : res (Z * Numhash) :=
  i ← hash_index table key;
  let chain := chain_at table i in
  if bool_decide (key ∈ chain) then Ok (-1, table)
  else Ok (0, mkNumhash (number_total table) (table_size table) (<[i := chain ++ [key]]> (hash table)) (hash_size table)).

Definition numhash_get_char_key (nro : list Z) : Z :=
  let len := zlen nro in
  (strtol (if precision <? len then drop (Z.to_nat (len - precision)) nro else nro) 10).1.1.

Definition numhash_add_number (table : Numhash) (nro : list Z) : res (Z * Numhash) :=
  if number_total table =? table_size table then Ok (-1, table)
  else
    let table := mkNumhash (number_total table + 1) (table_size table) (hash table) (hash_size table) in
    '(_, table) ← add_item table (numhash_get_char_key nro);
    Ok (0, table).

(** The first of the primes above the number; the last one where there is none. *)
Fixpoint prime_loop (ps : list Z) (size max_numbers : Z) : Z :=
  match ps with
  | [] => size
  | p :: ps => if 0 <? p then (if max_numbers <? p then p else prime_loop ps p max_numbers) else size
  end.

Definition numhash_init (max_numbers size : Z) : option Numhash :=
  if 0 <? size then Some (mkNumhash 0 max_numbers (replicate (Z.to_nat size) []) size)
  else if size =? NUMHASH_AUTO_HASH then
    let size := prime_loop primes 0 max_numbers in
    Some (mkNumhash 0 max_numbers (replicate (Z.to_nat size) []) size)
  else None.

Definition numhash_find_key (table : Numhash) (key : Z) : res Z :=
  i ← hash_index table key;
  Ok (if bool_decide (key ∈ chain_at table i) then 1 else 0).

(** The C string of the number from its last [precision] octets on. *)
Definition numhash_get_key (nro : option Octstr) : res Z :=
  match nro with
  | None => Ok (-1)
  | Some nro =>
      n ← octstr_len (Some nro);
      let b := cstr_block nro in
      Ok (strtol (cstr (if precision <? n then drop (Z.to_nat (n - precision)) b else b)) 10).1.1
  end.

(** The result is an [int]. *)
Definition numhash_find_number (table : Numhash) (nro : option Octstr) : res Z :=
  key ← numhash_get_key nro;
  if key <? 0 then Ok (swrap 32 key) else numhash_find_key table key.

Definition numhash_size (table : Numhash) : Z := number_total table.

(** ** Reading a list *)

Definition count_newlines (data : list Z) : Z := zlen (List.filter (fun c => c =? 10) data).

(** The digits of a line go to [numbuf], which has room for 100 characters. *)
Fixpoint line_digits (numbuf : block) (loc : Z) (line : list Z) : res (block * Z) :=
  match line with
  | [] => Ok (numbuf, loc)
  | c :: line =>
      if isdigit c then
        numbuf ← wr numbuf loc c;
        line_digits numbuf (loc + 1) line
      else if (c =? 32) || (c =? 43) || (c =? 45) then line_digits numbuf loc line
      else Ok (numbuf, loc)
  end.

(** One line, without its line feed. *)
Definition read_line (table : Numhash) (numbuf : block) (line : list Z) : res (Numhash * block) :=
  let line := (skip_space line 0).1 in
  if match line with c :: _ => c =? 35 | [] => false end then Ok (table, numbuf)
  else
    '(numbuf, loc) ← line_digits numbuf 0 line;
    if negb (loc =? 0) then
      numbuf ← wr numbuf loc 0;
      '(_, table) ← numhash_add_number table (cstr numbuf);
      Ok (table, numbuf)
    else Ok (table, numbuf).

(** The lines that end with a line feed, in the text up to its NUL. *)
Fixpoint read_lines (table : Numhash) (numbuf : block) (line data : list Z) : res Numhash :=
  match data with
  | [] => Ok table
  | c :: data =>
      if c =? 10 then
        '(table, numbuf) ← read_line table numbuf line;
        read_lines table numbuf [] data
      else read_lines table numbuf (line ++ [c]) data
  end.

(** [numhash_create] from the body of the reply on; the content of [numbuf] is not
    defined at the start. *)
Definition numhash_read (junk : block) (reply_body : Octstr) : res (option Numhash) :=
  let data := cstr (cstr_block reply_body) in
  match numhash_init (count_newlines data + 10) NUMHASH_AUTO_HASH with
  | Some table => table ← read_lines table junk [] data; Ok (Some table)
  | None => Ok None
  end.

(** ** What a table holds *)

(** The table holds the keys [K]. *)
Record nh_ok (t : Numhash) (K : list Z) : Prop := {
  nk_size : 0 < hash_size t;
  nk_hash : zlen (hash t) = hash_size t;
  nk_keys : forall k, 0 <= k -> k ∈ chain_at t (Z.to_nat (k mod hash_size t)) <-> k ∈ K
}.

Lemma hash_index_ok t K k : nh_ok t K -> 0 <= k -> hash_index t k = Ok (Z.to_nat (k mod hash_size t)).
Proof.
  intros [Hs Hh _] Hk. unfold hash_index. destruct (Z.eqb_spec (hash_size t) 0); [lia|].
  rewrite Z.rem_mod_nonneg by lia. pose proof (Z.mod_pos_bound k (hash_size t) Hs).
  destruct (Z.leb_spec 0 (k mod hash_size t)); [|lia]. by destruct (Z.ltb_spec (k mod hash_size t) (zlen (hash t))); [|lia].
Qed.

Lemma find_key_ok t K k : nh_ok t K -> 0 <= k -> numhash_find_key t k = Ok (if bool_decide (k ∈ K) then 1 else 0).
Proof.
  intros Ht Hk. unfold numhash_find_key. rewrite (hash_index_ok t K k Ht Hk). bind_red. do 2 f_equal.
  by rewrite (bool_decide_ext _ _ (nk_keys _ _ Ht k Hk)).
Qed.

(** The counters do not matter to the keys. *)
Lemma nh_ok_count t K n : nh_ok t K -> nh_ok (mkNumhash n (table_size t) (hash t) (hash_size t)) K.
Proof. by intros [? ? ?]. Qed.

Lemma add_item_ok t K k : nh_ok t K -> 0 <= k ->
  exists r t', add_item t k = Ok (r, t') /\ nh_ok t' (K ++ [k]) /\
    number_total t' = number_total t /\ table_size t' = table_size t.
Proof.
  intros Ht Hk. unfold add_item. rewrite (hash_index_ok t K k Ht Hk). bind_red. cbn zeta.
  pose proof Ht as [Hs Hh Hkeys]. set (i := Z.to_nat (k mod hash_size t)).
  pose proof (Z.mod_pos_bound k (hash_size t) Hs) as Hi.
  destruct (bool_decide (k ∈ chain_at t i)) eqn:E.
  - apply bool_decide_eq_true, Hkeys in E; [|done]. eexists _, _. split; [done|]. split_and!; [|done|done].
    constructor; [done|done|]. intros k' Hk'. rewrite (Hkeys k' Hk'), elem_of_app, list_elem_of_singleton. naive_solver.
  - eexists _, _. split; [done|]. split_and!; [|done|done]. constructor; cbn [hash_size hash]; [done|unfold zlen; by rewrite length_insert|].
    intros k' Hk'. rewrite elem_of_app, list_elem_of_singleton, <- (Hkeys k' Hk'). unfold chain_at. cbn [hash].
    set (i' := Z.to_nat (k' mod hash_size t)). destruct (decide (i = i')) as [Ei|Hne].
    + rewrite <- Ei, list_lookup_insert_eq by (unfold i; list_lia). cbn [from_option]. unfold id.
      by rewrite elem_of_app, list_elem_of_singleton.
    + rewrite list_lookup_insert_ne by done. split; [by left|]. intros [H|H]; [done|]. by subst k'.
Qed.

(** ** Reading *)

Fixpoint digits_of (line : list Z) : list Z :=
  match line with
  | [] => []
  | c :: line =>
      if isdigit c then c :: digits_of line
      else if (c =? 32) || (c =? 43) || (c =? 45) then digits_of line
      else []
  end.

(** The digits of a line; none for a comment. *)
Definition line_number (line : list Z) : list Z :=
  let line := (skip_space line 0).1 in
  if match line with c :: _ => c =? 35 | [] => false end then [] else digits_of line.

Definition line_keys (line : list Z) : list Z :=
  match line_number line with
  | [] => []
  | ds => [numhash_get_char_key ds]
  end.

Lemma digits_of_digits line : Forall (fun c => isdigit c = true) (digits_of line).
Proof.
  induction line as [|c line IH]; cbn; [apply Forall_nil_2|]. destruct (isdigit c) eqn:E; [by apply Forall_cons_2|].
  destruct (_ || _); [done|apply Forall_nil_2].
Qed.

Lemma strtol_digits_nonneg l : forall acc n, 0 <= acc -> 0 <= (strtol_digits 10 acc n l).1.
Proof.
  induction l as [|c l IH]; intros acc n Ha; cbn [strtol_digits]; [done|]. destruct (digit_of c) as [d|] eqn:E; [|done].
  destruct (d <? 10); [|done]. apply IH. unfold digit_of in E. unfold isdigit, isupper, islower in E.
  repeat case_match; try done; injection E as <-; lia.
Qed.

Lemma strtol_digits_key l : Forall (fun c => isdigit c = true) l -> 0 <= (strtol l 10).1.1.
Proof.
  intros Hl. unfold strtol. assert (skip_space l 0 = (l, 0)) as ->.
  { destruct Hl as [|c l Hc _]; [done|]. cbn. unfold isdigit in Hc. unfold isspace.
    destruct (Z.eqb_spec c 32); [lia|]. destruct (Z.leb_spec 9 c), (Z.leb_spec c 13); cbn; lia || done. }
  assert (strtol_sign l 0 = (false, l, 0)) as ->.
  { destruct Hl as [|c l Hc _]; [done|]. cbn. unfold isdigit in Hc.
    destruct (Z.eqb_spec c 45); [lia|]. by destruct (Z.eqb_spec c 43); [lia|]. }
  cbn [Z.eqb Pos.eqb orb andb]. pose proof (strtol_digits_nonneg l 0 0 ltac:(lia)) as Hv.
  destruct (strtol_digits 10 0 0 l) as [v k]. cbn [fst] in Hv. repeat case_match; cbn; unfold LONG_MAX, LONG_MIN in *; lia.
Qed.

Lemma char_key_nonneg ds : Forall (fun c => isdigit c = true) ds -> 0 <= numhash_get_char_key ds.
Proof.
  intros H. unfold numhash_get_char_key. apply strtol_digits_key. destruct (_ <? _); [by apply Forall_drop|done].
Qed.

Lemma line_digits_ok line : forall nb loc (pre : list Z), take (Z.to_nat loc) nb = pre -> 0 <= loc ->
  loc + zlen (digits_of line) <= zlen nb -> octets (digits_of line) ->
  exists nb', line_digits nb loc line = Ok (nb', loc + zlen (digits_of line)) /\ length nb' = length nb /\
    take (Z.to_nat (loc + zlen (digits_of line))) nb' = pre ++ digits_of line.
Proof.
  induction line as [|c line IH]; intros nb loc pre Hpre Hloc Hl Ho; cbn [line_digits digits_of] in *.
  { exists nb. rewrite Z.add_0_r, app_nil_r. done. }
  destruct (isdigit c); [|destruct (_ || _); [by apply IH|exists nb; by rewrite Z.add_0_r, app_nil_r]].
  pose proof (zlen_nonneg (digits_of line)). apply Forall_cons_iff in Ho as [Hc Ho].
  rewrite wr_ok by list_lia. bind_red.
  assert (c mod 256 = c) as -> by (apply Z.mod_small; destruct Hc; lia).
  destruct (IH (<[Z.to_nat loc := c]> nb) (loc + 1) (pre ++ [c])) as (nb' & E & El & Et).
  - replace (Z.to_nat (loc + 1)) with (S (Z.to_nat loc)) by lia. rewrite take_store by list_lia. by rewrite Hpre.
  - lia.
  - unfold zlen at 2. rewrite length_insert. list_lia.
  - done.
  - exists nb'. rewrite length_insert in El.
    replace (loc + zlen (c :: digits_of line)) with (loc + 1 + zlen (digits_of line)) by list_lia.
    split; [done|]. split; [done|]. rewrite Et. by rewrite <- app_assoc.
Qed.

Lemma digits_octets l : Forall (fun c => isdigit c = true) l -> octets l.
Proof. apply Forall_impl. unfold isdigit, octet. intros c Hc. lia. Qed.

Lemma digits_no_nul l : Forall (fun c => isdigit c = true) l -> Forall (fun c => c <> 0) l.
Proof. apply Forall_impl. unfold isdigit. intros c Hc. lia. Qed.

Definition fits (line : list Z) : Prop := zlen (line_number line) < 100.

Lemma read_line_ok t K nb line : nh_ok t K -> number_total t < table_size t -> length nb = 100%nat -> fits line ->
  exists t' nb', read_line t nb line = Ok (t', nb') /\ nh_ok t' (K ++ line_keys line) /\ length nb' = 100%nat /\
    number_total t' <= number_total t + 1 /\ table_size t' = table_size t.
Proof.
  intros Ht Htot Hnb Hf. unfold read_line, line_keys, fits, line_number in *. cbn zeta in *.
  set (l := (skip_space line 0).1) in *.
  destruct (match l with c :: _ => c =? 35 | [] => false end); [exists t, nb; rewrite app_nil_r; split_and!; done || lia|].
  pose proof (digits_of_digits l) as Hd. pose proof (zlen_nonneg (digits_of l)).
  destruct (line_digits_ok l nb 0 [] ltac:(done) ltac:(lia)) as (nb' & -> & El & Et);
    [unfold zlen at 2; rewrite Hnb; lia|by apply digits_octets|]. bind_red. rewrite Z.add_0_l in *. cbn [app] in Et.
  destruct (digits_of l) as [|d ds] eqn:Eds.
  { exists t, nb'. rewrite app_nil_r. cbn. split_and!; done || lia. }
  rewrite <- Eds in *. destruct (Z.eqb_spec (zlen (digits_of l)) 0) as [E0|_]; [rewrite Eds in E0; list_lia|]. cbn [negb].
  rewrite wr_ok by list_lia. bind_red. change (0 mod 256) with 0.
  set (n := Z.to_nat (zlen (digits_of l))) in *.
  assert (cstr (<[n := 0]> nb') = digits_of l) as ->.
  { rewrite insert_take_drop by (rewrite El, Hnb; unfold n; lia). rewrite Et, cstr_app_nul. apply cstr_no_nul. by apply digits_no_nul. }
  unfold numhash_add_number. destruct (Z.eqb_spec (number_total t) (table_size t)); [lia|]. cbn zeta.
  destruct (add_item_ok _ K (numhash_get_char_key (digits_of l)) (nh_ok_count t K (number_total t + 1) Ht) (char_key_nonneg _ Hd))
    as (r & t' & -> & Ht' & E1 & E2). bind_red. cbn [number_total table_size] in E1, E2.
  exists t', (<[n := 0]> nb'). split; [done|]. split_and!; [by rewrite Eds in *|by rewrite length_insert, El|lia|done].
Qed.

Fixpoint full_lines (line data : list Z) : list (list Z) :=
  match data with
  | [] => []
  | c :: data => if c =? 10 then line :: full_lines [] data else full_lines (line ++ [c]) data
  end.

Lemma read_lines_ok data : forall t K nb line, nh_ok t K -> length nb = 100%nat ->
  number_total t + count_newlines data <= table_size t -> Forall fits (full_lines line data) ->
  exists t', read_lines t nb line data = Ok t' /\ nh_ok t' (K ++ concat (line_keys <$> full_lines line data)).
Proof.
  induction data as [|c data IH]; intros t K nb line Ht Hnb Htot Hf; cbn [read_lines full_lines] in *.
  { exists t. cbn. by rewrite app_nil_r. }
  unfold count_newlines in Htot. cbn [List.filter] in Htot. destruct (c =? 10); [|by apply IH].
  apply Forall_cons_iff in Hf as [Hl Hf]. pose proof (zlen_nonneg (List.filter (fun c => c =? 10) data)).
  destruct (read_line_ok t K nb line Ht) as (t' & nb' & -> & Ht' & Hnb' & H1 & H2); [list_lia|done|done|]. bind_red.
  destruct (IH t' _ nb' [] Ht' Hnb') as (t'' & -> & H''); [unfold count_newlines; list_lia|done|].
  exists t''. split; [done|]. cbn [fmap list_fmap concat]. by rewrite app_assoc.
Qed.

(** Where a line does not fit, the buffer overflows. *)
Lemma line_digits_overflow line : forall nb loc, 0 <= loc <= zlen nb -> zlen nb < loc + zlen (digits_of line) ->
  line_digits nb loc line = Undef.
Proof.
  induction line as [|c line IH]; intros nb loc Hl Ho; cbn [line_digits digits_of] in *; [list_lia|].
  destruct (isdigit c); [|destruct (_ || _); [by apply IH|list_lia]].
  destruct (Z.lt_ge_cases loc (zlen nb)) as [Hlt|Hge].
  - rewrite wr_ok by list_lia. bind_red. apply IH; unfold zlen at 1; rewrite length_insert; list_lia.
  - unfold wr. destruct (Z.leb_spec 0 loc), (Z.ltb_spec loc (zlen nb)); (lia || done).
Qed.

Lemma read_line_overflow t nb line : length nb = 100%nat -> ~ fits line -> read_line t nb line = Undef.
Proof.
  intros Hnb Hf. unfold read_line, fits, line_number in *. cbn zeta in *. set (l := (skip_space line 0).1) in *.
  destruct (match l with c :: _ => c =? 35 | [] => false end); [list_lia|].
  assert (zlen nb = 100) as Hz by (unfold zlen; lia). destruct (Z.eq_dec (zlen (digits_of l)) 100) as [E|Hne].
  - destruct (line_digits_ok l nb 0 [] ltac:(done) ltac:(lia) ltac:(lia)) as (nb' & -> & El & _); [by apply digits_octets, digits_of_digits|].
    bind_red. rewrite Z.add_0_l, E. cbn [Z.eqb negb]. unfold wr.
    destruct (Z.ltb_spec 100 (zlen nb')); [unfold zlen in *; lia|]. by rewrite andb_false_r.
  - rewrite line_digits_overflow by lia. done.
Qed.

Lemma read_lines_overflow data : forall t K nb line, nh_ok t K -> length nb = 100%nat ->
  number_total t + count_newlines data <= table_size t -> ~ Forall fits (full_lines line data) -> read_lines t nb line data = Undef.
Proof.
  induction data as [|c data IH]; intros t K nb line Ht Hnb Htot Hf; cbn [read_lines full_lines] in *; [by destruct Hf; apply Forall_nil_2|].
  unfold count_newlines in Htot. cbn [List.filter] in Htot. destruct (c =? 10); [|by apply (IH t K)].
  pose proof (zlen_nonneg (List.filter (fun c => c =? 10) data)). destruct (decide (fits line)) as [Hl|Hl]; [|by rewrite read_line_overflow].
  destruct (read_line_ok t K nb line Ht) as (t' & nb' & -> & Ht' & Hnb' & H1 & H2); [list_lia|done|done|]. bind_red.
  apply (IH t' _ nb' [] Ht' Hnb'); [unfold count_newlines; list_lia|]. intros Hr. by destruct Hf; apply Forall_cons_2.
Qed.

(** The key of a number that is asked for. *)
Definition key_of (n : list Z) : Z :=
  (strtol (cstr (if precision <? zlen n then drop (Z.to_nat (zlen n - precision)) n else n)) 10).1.1.

Lemma numhash_get_key_ok nro n : repr nro n -> numhash_get_key (Some nro) = Ok (key_of n).
Proof.
  intros Hn. unfold numhash_get_key, key_of. rewrite (octstr_len_ok _ _ Hn). bind_red. cbn zeta.
  destruct (cstr_block_ok nro n Hn) as (rest & -> & _). pose proof (zlen_nonneg n). destruct (Z.ltb_spec precision (zlen n)).
  - rewrite drop_app_le by (unfold precision in *; list_lia). by rewrite cstr_app_nul.
  - by rewrite cstr_app_nul.
Qed.

Lemma prime_loop_pos max : 0 < prime_loop primes 0 max.
Proof. unfold primes. cbn [prime_loop Z.ltb Z.compare Pos.compare Pos.compare_cont]. repeat case_match; lia. Qed.

Lemma numhash_init_ok max : exists t, numhash_init max NUMHASH_AUTO_HASH = Some t /\ nh_ok t [] /\
  number_total t = 0 /\ table_size t = max.
Proof.
  unfold numhash_init. cbn [Z.ltb Z.compare NUMHASH_AUTO_HASH Z.eqb Pos.eqb]. pose proof (prime_loop_pos max).
  eexists. split; [done|]. split_and!; [|done|done]. constructor; cbn [hash hash_size]; [done|unfold zlen; rewrite length_replicate; lia|].
  intros k _. unfold chain_at. cbn [hash].
  destruct (replicate _ [] !! _) as [c|] eqn:E; [apply lookup_replicate in E as [-> _]|]; cbn; done.
Qed.

(** A white or black list holds the numbers of its text: after [numhash_create] has
    read a text (whose lines have at most 99 digits each), [numhash_find_number]
    finds exactly the numbers that are written on one of its lines, comparing their
    last 19 digits; comments and lines without digits do not count, and the table is
    large enough for every text. *)
Theorem numhash_list_holds (junk : block) (body : Octstr) (s : list Z) :
  repr body s -> length junk = 100%nat -> Forall fits (full_lines [] (cstr s)) ->
  exists t, numhash_read junk body = Ok (Some t) /\
    forall nro n, repr nro n -> 0 <= key_of n ->
      numhash_find_number t (Some nro) =
        Ok (if bool_decide (key_of n ∈ concat (line_keys <$> full_lines [] (cstr s))) then 1 else 0).
Proof.
  intros Hb Hj Hf. unfold numhash_read. cbn zeta. destruct (cstr_block_ok body s Hb) as (rest & -> & _). rewrite cstr_app_nul.
  destruct (numhash_init_ok (count_newlines (cstr s) + 10)) as (t0 & -> & Ht0 & E1 & E2).
  destruct (read_lines_ok (cstr s) t0 [] junk [] Ht0 Hj ltac:(lia) Hf) as (t & -> & Ht). bind_red. exists t. split; [done|].
  intros nro n Hn Hk. unfold numhash_find_number. rewrite (numhash_get_key_ok nro n Hn). bind_red.
  destruct (Z.ltb_spec (key_of n) 0); [lia|]. by apply find_key_ok.
Qed.

(** C38. The buffer for the digits of a line is large enough for a text if and only if no
    line of it has a hundred digits or more: on every other text [numhash_create]
    writes past its end. *)
Theorem numhash_read_bounds (junk : block) (body : Octstr) (s : list Z) :
  repr body s -> length junk = 100%nat ->
  (Forall (fun line => zlen (line_number line) < 100) (full_lines [] (cstr s)) <-> exists t, numhash_read junk body = Ok t) /\
  (Exists (fun line => 100 <= zlen (line_number line)) (full_lines [] (cstr s)) <-> numhash_read junk body = Undef).
Proof.
  intros Hb Hj. unfold numhash_read. cbn zeta. destruct (cstr_block_ok body s Hb) as (rest & -> & _). rewrite cstr_app_nul.
  destruct (numhash_init_ok (count_newlines (cstr s) + 10)) as (t0 & -> & Ht0 & E1 & E2).
  destruct (decide (Forall fits (full_lines [] (cstr s)))) as [Hf|Hf].
  - destruct (read_lines_ok (cstr s) t0 [] junk [] Ht0 Hj ltac:(lia) Hf) as (t & -> & _). bind_red. split; [split; eauto|].
    split; [|done]. intros Hx. exfalso. apply Exists_exists in Hx as (l & Hl & Hx). rewrite List.Forall_forall in Hf. specialize (Hf l Hl). unfold fits in Hf. lia.
  - rewrite (read_lines_overflow (cstr s) t0 [] junk [] Ht0 Hj ltac:(lia) Hf). bind_red. split; [split; [done|by intros [? ?]]|].
    split; [done|]. intros _. apply not_Forall_Exists in Hf; [|intros l; apply _]. revert Hf. apply Exists_impl. intros l Hl. unfold compose, fits in Hl. lia.
Qed.

(** Two numbers and a comment. *)
Definition sample_numbers : list Z := [43; 51; 53; 10; 35; 49; 10; 55; 10].

Lemma numhash_list_holds_witness :
  exists body t nro, octstr_create sample_numbers = Ok body /\ numhash_read (replicate 100 0) body = Ok (Some t) /\
    octstr_create [48; 51; 53] = Ok nro /\ numhash_find_number t (Some nro) = Ok 1.
Proof.
  assert (octets sample_numbers) as Hs by octets_tac. assert (octets [48; 51; 53]) as Hn by octets_tac.
  pose proof (octstr_create_ok _ Hs) as Ho. apply returns_iff in Ho as (body & Eo & [Ho _]).
  pose proof (octstr_create_ok _ Hn) as Hr. apply returns_iff in Hr as (nro & En & [Hr _]).
  destruct (numhash_list_holds (replicate 100 0) body sample_numbers Ho) as (t & Et & Hfind).
  - reflexivity.
  - apply (bool_decide_unpack _). vm_compute. exact I.
  - exists body, t, nro. split_and!; [done..|]. rewrite (Hfind nro [48; 51; 53] Hr ltac:(vm_compute; discriminate)).
    vm_compute. reflexivity.
Defined.

(** A line of a hundred digits. *)
Definition long_line : list Z := replicate 100 49 ++ [10].

Lemma numhash_read_bounds_witness :
  exists body, octstr_create long_line = Ok body /\ numhash_read (replicate 100 0) body = Undef.
Proof.
  assert (octets long_line) as Hs by (apply (bool_decide_unpack _); vm_compute; exact I).
  pose proof (octstr_create_ok _ Hs) as Ho. apply returns_iff in Ho as (body & Eo & [Ho _]). exists body. split; [done|].
  apply (numhash_read_bounds (replicate 100 0) body long_line Ho eq_refl). apply (bool_decide_unpack _). vm_compute. exact I.
Defined.
