(* ===== verification/Date.v ===== *)
(** * Dates

    Models src/gwlib/date.c: the conversion of a broken-down date to seconds, the
    dates of HTTP and of ISO 8601, written and read.  Of the C library, [gmtime] is
    defined by the rules of the calendar, and [sscanf] for the conversions that the
    code uses. *)

From S2P Require Import Prelude Octstr OctstrSearch OctstrCode OctstrFormat OctstrNumber.

Definition MINUTE : Z := 60.
Definition HOUR : Z := 60 * MINUTE.
Definition DAY : Z := 24 * HOUR.

Record universaltime := mkTime {
  day : Z;
  month : Z;
  year : Z;
  hour : Z;
  minute : Z;
  second : Z;
  offset_sec : Z
}.

Definition wkday : list (list Z) :=
  [[83; 117; 110]; [77; 111; 110]; [84; 117; 101]; [87; 101; 100]; [84; 104; 117]; [70; 114; 105]; [83; 97; 116]].

Definition monthname : list (list Z) :=
  [[74; 97; 110]; [70; 101; 98]; [77; 97; 114]; [65; 112; 114]; [77; 97; 121]; [74; 117; 110];
   [74; 117; 108]; [65; 117; 103]; [83; 101; 112]; [79; 99; 116]; [78; 111; 118]; [68; 101; 99]].

Definition monthstart : list Z := [0; 31; 59; 90; 120; 151; 181; 212; 243; 273; 304; 334].

(** ** The calendar of [gmtime] *)

Definition leap (y : Z) : bool := (y mod 4 =? 0) && (negb (y mod 100 =? 0) || (y mod 400 =? 0)).

Definition year_days (y : Z) : Z := if leap y then 366 else 365.

Definition month_days (y : Z) (m : nat) : Z :=
  if decide (m = 1%nat) then (if leap y then 29 else 28)
  else default 0 ([31; 28; 31; 30; 31; 30; 31; 31; 30; 31; 30; 31] !! m).

(** The year, or the month, in which a day is, from [y] or [m] on, and the day in it. *)
Fixpoint find_year (y d : Z) (fuel : nat) : Z * Z :=
  match fuel with
  | O => (y, d)
  | S fuel => if d <? year_days y then (y, d) else find_year (y + 1) (d - year_days y) fuel
  end.

Fixpoint find_month (y : Z) (m : nat) (d : Z) (fuel : nat) : nat * Z :=
  match fuel with
  | O => (m, d)
  | S fuel => if d <? month_days y m then (m, d) else find_month y (S m) (d - month_days y m) fuel
  end.

Record tm := mkTm {
  tm_sec : Z;
  tm_min : Z;
  tm_hour : Z;
  tm_mday : Z;
  tm_mon : Z;
  tm_year : Z;
  tm_wday : Z
}.

(** [gw_gmtime]: the years are counted from 2000, the start of a cycle of 400 years
    of 146097 days.  A year that is not an [int] is an error of [gmtime_r], which
    leaves the result uninitialised. *)
Definition gw_gmtime (t : Z) : res tm :=
  let days := t / DAY in
  let s := t mod DAY in
  let d := days - 10957 in
  let '(y, d) := find_year (2000 + 400 * (d / 146097)) (d mod 146097) 400 in
  let '(m, d) := find_month y 0 d 12 in
  if (- 2 ^ 31 <=? y - 1900) && (y - 1900 <? 2 ^ 31)
  then Ok (mkTm (s mod 60) (s / 60 mod 60) (s / 3600) (d + 1) (Z.of_nat m) (y - 1900) ((days + 4) mod 7))
  else Undef.

(** ** Writing dates *)

(** [sprintf] into [char buffer[30]]. *)
Definition date_format_http (unixtime : Z) : res (option Octstr) :=
  tm ← gw_gmtime (swrap 64 unixtime);
  if (tm_wday tm <? 0) || (6 <? tm_wday tm) || (tm_mday tm <? 0) || (31 <? tm_mday tm) ||
     (tm_mon tm <? 0) || (11 <? tm_mon tm) || (tm_year tm <? 0) || (tm_hour tm <? 0) || (23 <? tm_hour tm) ||
     (tm_min tm <? 0) || (59 <? tm_min tm) || (tm_sec tm <? 0) || (61 <? tm_sec tm)
  then Ok None
  else
    let text :=
      default [] (wkday !! Z.to_nat (tm_wday tm)) ++ [44; 32] ++ digits 2 (tm_mday tm) ++ [32] ++
      default [] (monthname !! Z.to_nat (tm_mon tm)) ++ [32] ++ digits 4 (tm_year tm + 1900) ++ [32] ++
      digits 2 (tm_hour tm) ++ [58] ++ digits 2 (tm_min tm) ++ [58] ++ digits 2 (tm_sec tm) ++ [32; 71; 77; 84] in
    if 30 <? zlen text + 1 then Undef
    else o ← octstr_create text; Ok (Some o).

Section iso.
Context `{!Printf}.

Definition date_create_iso (unixtime : Z) : res Octstr :=
  tm ← gw_gmtime unixtime;
  octstr_format [37; 100; 45; 37; 48; 50; 100; 45; 37; 48; 50; 100; 84; 37; 48; 50; 100; 58; 37; 48; 50; 100; 58; 37; 48; 50; 100; 90]
    [AInt (tm_year tm + 1900); AInt (tm_mon tm + 1); AInt (tm_mday tm); AInt (tm_hour tm); AInt (tm_min tm); AInt (tm_sec tm)].
End iso.

(** ** Seconds since 1970 *)

(** An [int] result: overflow is undefined. *)
Definition as_int (z : Z) : res Z := if (- 2 ^ 31 <=? z) && (z <? 2 ^ 31) then Ok z else Undef.

(** [leapyears] is an [int], and so is its product with [DAY]; the [long]s are small. *)
Definition date_convert_universal (t : universaltime) : res Z :=
  let date := (year t - 1970) * (365 * DAY) in
  let y := if month t <=? 1 then year t - 1 else year t in
  let leapyears := swrap 32 (Z.quot y 4 - Z.quot y 100 + Z.quot y 400 - 477) in
  l ← as_int (leapyears * DAY);
  ms ← match (if 0 <=? month t then monthstart !! Z.to_nat (month t) else None) with
       | Some ms => Ok ms
       | None => Undef
       end;
  Ok (date + l + ms * DAY + (day t - 1) * DAY + hour t * HOUR + minute t * MINUTE + second t - offset_sec t).

(** ** Reading dates of HTTP *)

(** The loop over [monthname]. *)
Fixpoint month_loop (monthstr : Octstr) (names : list (list Z)) (m : Z) : res Z :=
  match names with
  | [] => Ok m
  | n :: names =>
      c ← octstr_str_compare monthstr (Some n);
      if c =? 0 then Ok m else month_loop monthstr names (m + 1)
  end.

(** The numbers and the month at the given offsets; every [goto error] is [None]. *)
Definition parse_fields (date : Octstr) (pos : Z) (d mon y ye h mi s : Z) : res (option (Z * Octstr * Z * Z * Z * Z)) :=
  dd ← parse_to date (pos + d) 10 (pos + d + 2);
  monthstr ← octstr_copy (Some date) (pos + mon) 3;
  yy ← parse_to date (pos + y) 10 (pos + ye);
  hh ← parse_to date (pos + h) 10 (pos + h + 2);
  mm ← parse_to date (pos + mi) 10 (pos + mi + 2);
  ss ← parse_to date (pos + s) 10 (pos + s + 2);
  Ok (match dd, yy, hh, mm, ss with
      | Some dd, Some yy, Some hh, Some mm, Some ss => Some (dd, monthstr, yy, hh, mm, ss)
      | _, _, _, _, _ => None
      end).

Definition date_parse_http (date : Octstr) : res Z :=
  pos ← octstr_search_char date 32 0;
  len ← octstr_len (Some date);
  if (pos <? 0) || (pos =? len - 1) then Ok (-1)
  else
    let pos := pos + 1 in
    c ← octstr_get_char date pos;
    c2 ← octstr_get_char date (pos + 2);
    r ← (if isdigit c && (c2 =? 32) then
           if len - pos <? 24 then Ok None
           else parse_fields date pos 0 3 7 11 12 15 18
         else if isdigit c && (c2 =? 45) then
           if len - pos <? 22 then Ok None
           else
             r ← parse_fields date pos 0 3 7 9 10 13 16;
             Ok (match r with
                 | Some (d, m, y, h, mi, s) => Some (d, m, if 60 <? y then y + 1900 else y + 2000, h, mi, s)
                 | None => None
                 end)
         else
           if len - pos <? 16 then Ok None
           else parse_fields date pos 4 0 16 20 7 10 13);
    match r with
    | None => Ok (-1)
    | Some (d, monthstr, y, h, mi, s) =>
        m ← month_loop monthstr monthname 0;
        if m =? 12 then Ok (-1)
        else date_convert_universal (mkTime d m y h mi s 0)
    end.

(** ** Reading dates of ISO 8601 *)

(** [sscanf] with [%<w>ld%n]: the number and the characters used; [None] when
    nothing was converted. *)
Definition sscanf_ld (w : nat) (l : list Z) : option (Z * Z) :=
  let '(l, n) := skip_space l 0 in
  let '(neg, ds, k) := strtol_sign (take w l) 0 in
  let '(v, u) := strtol_digits 10 0 0 ds in
  if u =? 0 then None else Some (if neg then - v else v, n + k + u).

(** How many characters there are before the first digit. *)
Fixpoint non_digits (l : list Z) : Z :=
  match l with
  | c :: l => if isdigit c then 0 else 1 + non_digits l
  | [] => 0
  end.

Definition set_date (t : universaltime) (y m d : Z) : universaltime :=
  mkTime d m y (hour t) (minute t) (second t) (offset_sec t).
Definition set_time (t : universaltime) (h mi s : Z) : universaltime :=
  mkTime (day t) (month t) (year t) h mi s (offset_sec t).
Definition set_offset_sec (t : universaltime) (o : Z) : universaltime :=
  mkTime (day t) (month t) (year t) (hour t) (minute t) (second t) o.

(** The time zone at [p]: [None] for the result -1. *)
Definition iso_zone (txt : list Z) (p : Z) (ut : universaltime) : res (Z * universaltime) :=
  c ← rd txt p;
  if c =? 0 then Ok (0, ut)
  else if c =? 90 then Ok (0, ut)
  else
    let p := p + 1 in
    match sscanf_ld 2 (cstr (drop (Z.to_nat p) txt)) with
    | None => Ok (-1, ut)
    | Some (hh, n) =>
        let p := p + n in
        let p := p + non_digits (cstr (drop (Z.to_nat p) txt)) in
        let mi := match sscanf_ld 2 (cstr (drop (Z.to_nat p) txt)) with Some (mi, _) => mi | None => 0 end in
        let o := hh * HOUR + mi * MINUTE in
        Ok (0, set_offset_sec ut (if c =? 45 then - o else o))
    end.

(** The time of day at [p], after the letter T. *)
Definition iso_time (txt : list Z) (p : Z) (ut : universaltime) : res (Z * universaltime) :=
  let rest p := cstr (drop (Z.to_nat p) txt) in
  let p := p + non_digits (rest p) in
  match sscanf_ld 2 (rest p) with
  | None => Ok (0, ut)
  | Some (h, n) =>
      let ut := set_time ut h (minute ut) (second ut) in
      let p := p + n in
      let p := p + non_digits (rest p) in
      match sscanf_ld 2 (rest p) with
      | None => Ok (0, ut)
      | Some (mi, n) =>
          let ut := set_time ut h mi (second ut) in
          let p := p + n in
          let p := p + non_digits (rest p) in
          match sscanf_ld 2 (rest p) with
          | None => Ok (0, ut)
          | Some (s, n) =>
              let ut := set_time ut h mi s in
              let p := p + n in
              c ← rd txt p;
              if c =? 46 then
                match sscanf_ld (length txt) (rest (p + 1)) with
                | None => Ok (0, ut)
                | Some (_, n) => iso_zone txt (p + 1 + n) ut
                end
              else iso_zone txt p ut
          end
      end
  end.

(** [date_parse_iso]: the result and the date; [y0] is the year before the call. *)
Definition date_parse_iso (y0 : Z) (os : Octstr) : res (Z * universaltime) :=
  let ut := mkTime 1 0 y0 0 0 0 0 in
  n ← octstr_search_char os 84 0;
  len ← octstr_len (Some os);
  let txt := cstr_block os in
  let rest p := cstr (drop (Z.to_nat p) txt) in
  let q := if 0 <=? n then n else len in
  match sscanf_ld 4 (rest 0) with
  | None => Ok (-1, ut)
  | Some (y, n) =>
      let y := if y <? 70 then y + 2000 else if y <? 100 then y + 1900 else y in
      let ut := set_date ut y 0 1 in
      let p := n + non_digits (slice txt n (q - n)) in
      match sscanf_ld 2 (rest p) with
      | None => Ok (0, ut)
      | Some (m, n) =>
          let m := if 0 <? m then m - 1 else m in
          let ut := set_date ut y m 1 in
          let p := p + n in
          let p := p + non_digits (slice txt p (q - p)) in
          match sscanf_ld 2 (rest p) with
          | None => Ok (0, ut)
          | Some (d, n) =>
              let ut := set_date ut y m d in
              c ← rd txt q;
              if c =? 84 then iso_time txt (q + 1) ut else Ok (0, ut)
          end
      end
  end.

(** ** The dates of the boxes, src/gw/shared.c *)

(** A number at [pos] between [lo] and [hi], by [octstr_parse_long]. *)
Definition date_value (date : Octstr) (pos lo hi : Z) : res bool :=
  r ← octstr_parse_long date pos 10;
  Ok (match r with
      | Some (v, _) => (lo <=? v) && (v <=? hi)
      | None => false
      end).

(** The checks of [parse_date] on numbers: the year and the seconds may be any. *)
Fixpoint check_values (date : Octstr) (l : list (Z * Z * Z)) : res bool :=
  match l with
  | [] => Ok true
  | (pos, lo, hi) :: l =>
      b ← date_value date pos lo hi;
      if b : bool then check_values date l else Ok false
  end.

Fixpoint check_chars (date : Octstr) (l : list (Z * Z)) : res bool :=
  match l with
  | [] => Ok true
  | (pos, ch) :: l =>
      c ← octstr_get_char date pos;
      if c =? ch then check_chars date l else Ok false
  end.

(** [parse_date]: whether the result is the date (and not NULL). *)
Definition parse_date (date : Octstr) : res bool :=
  b ← check_chars date [(4, 45); (7, 45); (10, 84); (13, 58); (16, 58); (19, 90)];
  if b : bool then
    check_values date [(0, LONG_MIN, LONG_MAX); (5, 1, 12); (8, 1, 31); (11, 0, 23); (14, 0, 59); (17, LONG_MIN, LONG_MAX)]
  else Ok false.
