(* ===== verification/DateProofs.v ===== *)
(** * Dates: the calendar, and dates that are written and read

    The formula of [date_convert_universal] (Date.v) counts the days of the
    calendar; what [date_format_http] and [date_create_iso] write is read back. *)

From S2P Require Import Prelude Octstr OctstrSearch OctstrCode OctstrFormat OctstrNumber Date.

(** ** Days of years *)

Definition leaps (y : Z) : Z := y / 4 - y / 100 + y / 400.

(** The days from 1970 to the start of the year [y]. *)
Definition days_before (y : Z) : Z := 365 * (y - 1970) + leaps (y - 1) - 477.

Lemma div_step y n : 0 < n -> y / n = (y - 1) / n + (if y mod n =? 0 then 1 else 0).
Proof.
  intros Hn. pose proof (Z.div_mod y n ltac:(lia)). pose proof (Z.mod_pos_bound y n Hn).
  pose proof (Z.div_mod (y - 1) n ltac:(lia)). pose proof (Z.mod_pos_bound (y - 1) n Hn).
  destruct (Z.eqb_spec (y mod n) 0); nia.
Qed.

Lemma mod_divides y n k : 0 < n -> 0 < k -> y mod (n * k) = 0 -> y mod n = 0.
Proof.
  intros Hn Hk H. apply Z.mod_divide; [lia|]. apply Z.mod_divide in H as [q H]; [|nia]. exists (q * k). lia.
Qed.

Lemma days_before_succ y : days_before (y + 1) = days_before y + year_days y.
Proof.
  unfold days_before, leaps, year_days, leap. replace (y + 1 - 1) with y by lia.
  rewrite (div_step y 4), (div_step y 100), (div_step y 400) by lia.
  pose proof (mod_divides y 4 25 ltac:(lia) ltac:(lia)). pose proof (mod_divides y 100 4 ltac:(lia) ltac:(lia)).
  change (4 * 25) with 100 in *. change (100 * 4) with 400 in *.
  destruct (Z.eqb_spec (y mod 4) 0), (Z.eqb_spec (y mod 100) 0), (Z.eqb_spec (y mod 400) 0); cbn [andb orb negb]; lia.
Qed.

Lemma days_before_cycle e : days_before (2000 + 400 * e) = 10957 + 146097 * e.
Proof. unfold days_before, leaps. Z.to_euclidean_division_equations. lia. Qed.

Lemma days_before_mono y (n : nat) : days_before y <= days_before (y + Z.of_nat n).
Proof.
  induction n as [|n IH]; [rewrite Z.add_0_r; lia|].
  replace (y + Z.of_nat (S n)) with (y + Z.of_nat n + 1) by lia. rewrite days_before_succ.
  unfold year_days. destruct (leap _); lia.
Qed.

Lemma find_year_ok (fuel : nat) : forall y d,
  0 <= d < days_before (y + Z.of_nat fuel) - days_before y ->
  let '(y', d') := find_year y d fuel in
  y <= y' /\ 0 <= d' < year_days y' /\ days_before y + d = days_before y' + d'.
Proof.
  induction fuel as [|fuel IH]; intros y d Hd; cbn [find_year]; [rewrite Z.add_0_r in Hd; lia|].
  destruct (Z.ltb_spec d (year_days y)); [lia|].
  pose proof (days_before_succ y) as E. specialize (IH (y + 1) (d - year_days y)).
  replace (y + 1 + Z.of_nat fuel) with (y + Z.of_nat (S fuel)) in IH by lia.
  destruct (find_year (y + 1) (d - year_days y) fuel) as [y' d']. destruct IH as (? & ? & ?); [lia|]. lia.
Qed.

(** ** Days of months *)

(** The days of the year [y] before the month [m]. *)
Definition month_before (y : Z) (m : nat) : Z := foldr Z.add 0 (month_days y <$> seq 0 m).

Lemma month_before_S y m : month_before y (S m) = month_before y m + month_days y m.
Proof.
  unfold month_before. rewrite seq_S, fmap_app, foldr_app. cbn [fmap list_fmap foldr Nat.add].
  generalize (month_days y <$> seq 0 m). intros l. induction l as [|x l IH]; cbn; lia.
Qed.

Lemma month_before_eq y m : (m < 12)%nat ->
  month_before y m = default 0 (monthstart !! m) + (if leap y && (2 <=? Z.of_nat m) then 1 else 0).
Proof.
  intros Hm. unfold month_before, month_days. destruct (leap y);
    do 12 (destruct m as [|m]; [reflexivity|]); lia.
Qed.

Lemma month_before_12 y : month_before y 12 = year_days y.
Proof. unfold month_before, month_days, year_days. by destruct (leap y). Qed.

Lemma find_month_ok (fuel : nat) : forall y m d,
  0 <= d < month_before y (m + fuel) - month_before y m ->
  let '(m', d') := find_month y m d fuel in
  (m' < m + fuel)%nat /\ 0 <= d' < month_days y m' /\ month_before y m + d = month_before y m' + d'.
Proof.
  induction fuel as [|fuel IH]; intros y m d Hd; cbn [find_month]; [rewrite Nat.add_0_r in Hd; lia|].
  destruct (Z.ltb_spec d (month_days y m)); [lia|].
  pose proof (month_before_S y m) as E. specialize (IH y (S m) (d - month_days y m)).
  replace (S m + fuel)%nat with (m + S fuel)%nat in IH by lia.
  destruct (find_month y (S m) (d - month_days y m) fuel) as [m' d']. destruct IH as (? & ? & ?); [lia|]. lia.
Qed.

Lemma month_days_bound y m : 0 <= month_days y m <= 31.
Proof.
  unfold month_days. destruct (decide _); [destruct (leap y); lia|].
  do 12 (destruct m as [|m]; [vm_compute; split; discriminate|]). vm_compute. split; discriminate.
Qed.

(** ** [date_convert_universal] *)

(** The days from 1970 to a date, counted by years and months. *)
Definition count_days (y : Z) (m : nat) (d : Z) : Z :=
  foldr Z.add 0 (year_days <$> seqZ 1970 (y - 1970)) + month_before y m + (d - 1).

Lemma years_counted (n : nat) : foldr Z.add 0 (year_days <$> seqZ 1970 (Z.of_nat n)) = days_before (1970 + Z.of_nat n).
Proof.
  induction n as [|n IH]; [done|].
  rewrite (seqZ_S 1970 n), fmap_app, foldr_app. cbn [fmap list_fmap foldr].
  replace (1970 + Z.of_nat (S n)) with (1970 + Z.of_nat n + 1) by lia. rewrite days_before_succ, <- IH.
  generalize (year_days <$> seqZ 1970 (Z.of_nat n)). intros l. induction l as [|x l IHl]; cbn; lia.
Qed.

Lemma convert_eq (t : universaltime) (m : nat) :
  1970 <= year t <= 100000 -> (m < 12)%nat -> month t = Z.of_nat m ->
  date_convert_universal t = Ok (DAY * (days_before (year t) + month_before (year t) m + (day t - 1)) +
    HOUR * hour t + MINUTE * minute t + second t - offset_sec t).
Proof.
  intros Hy Hm Em. unfold date_convert_universal. rewrite Em. set (y := if Z.of_nat m <=? 1 then _ else _).
  assert (1969 <= y <= 100000) as Hyb by (unfold y; destruct (_ <=? _); lia).
  rewrite !Z.quot_div_nonneg by lia. fold (leaps y).
  assert (0 <= leaps y - 477 < 24000) as Hl by (unfold leaps; Z.to_euclidean_division_equations; lia).
  rewrite swrap_small by lia. unfold as_int.
  assert ((- 2 ^ 31 <=? (leaps y - 477) * DAY) && ((leaps y - 477) * DAY <? 2 ^ 31) = true) as ->
    by (unfold DAY, HOUR, MINUTE; lia).
  bind_red. destruct (Z.leb_spec 0 (Z.of_nat m)); [|lia]. rewrite Nat2Z.id.
  destruct (lookup_lt_is_Some_2 monthstart m Hm) as [ms Ems]. rewrite Ems. bind_red.
  assert (days_before (year t) + month_before (year t) m = 365 * (year t - 1970) + (leaps y - 477) + ms) as ->;
    [|f_equal; unfold DAY, HOUR, MINUTE; lia].
  rewrite month_before_eq, Ems by done. cbn [default]. unfold days_before, y.
  pose proof (days_before_succ (year t)) as E. unfold days_before, year_days in E.
  replace (year t + 1 - 1) with (year t) in E by lia.
  destruct (Z.leb_spec (Z.of_nat m) 1), (Z.leb_spec 2 (Z.of_nat m)); try lia; destruct (leap (year t)); cbn [andb id]; unfold id; lia.
Qed.

Lemma convert_counted (t : universaltime) (m : nat) :
  1970 <= year t <= 100000 -> (m < 12)%nat -> month t = Z.of_nat m ->
  date_convert_universal t =
    Ok (DAY * count_days (year t) m (day t) + HOUR * hour t + MINUTE * minute t + second t - offset_sec t).
Proof.
  intros Hy Hm Em. rewrite (convert_eq t m) by done. unfold count_days.
  replace (year t - 1970) with (Z.of_nat (Z.to_nat (year t - 1970))) by lia. rewrite years_counted.
  by replace (1970 + Z.of_nat (Z.to_nat (year t - 1970))) with (year t) by lia.
Qed.

(** C26. The formula of [date_convert_universal], with its "magic number" for the leap
    years since 1970, counts the seconds of the calendar: the days of the years since
    1970 (365, or 366 in the leap years of the Gregorian calendar), the days of the
    months of the year, and the time of day, less the offset of the time zone. *)
Theorem date_convert_counts (t : universaltime) (m : nat) :
  1970 <= year t <= 100000 -> (m < 12)%nat -> month t = Z.of_nat m ->
  date_convert_universal t =
    Ok (DAY * count_days (year t) m (day t) + HOUR * hour t + MINUTE * minute t + second t - offset_sec t).
Proof.
  apply convert_counted.
Qed.

Lemma date_convert_counts_witness :
  date_convert_universal (mkTime 29 1 2096 23 59 59 3600) =
    Ok (DAY * count_days 2096 1 29 + HOUR * 23 + MINUTE * 59 + 59 - 3600).
Proof. apply (date_convert_counts (mkTime 29 1 2096 23 59 59 3600) 1); cbn; lia. Defined.

(** ** [gw_gmtime] *)

(** The first second of the year 10000. *)
Definition END_OF_9999 : Z := 253402300800.

Record good_tm (t : Z) (x : tm) (m : nat) : Prop := {
  g_sec : 0 <= tm_sec x < 60;
  g_min : 0 <= tm_min x < 60;
  g_hour : 0 <= tm_hour x < 24;
  g_mday : 1 <= tm_mday x <= 31;
  g_mon : tm_mon x = Z.of_nat m /\ (m < 12)%nat;
  g_year : 1970 <= tm_year x + 1900 <= 9999;
  g_wday : 0 <= tm_wday x < 7;
  g_time : t = DAY * (days_before (tm_year x + 1900) + month_before (tm_year x + 1900) m + (tm_mday x - 1)) +
             HOUR * tm_hour x + MINUTE * tm_min x + tm_sec x
}.

Lemma days_before_le y y' : y <= y' -> days_before y <= days_before y'.
Proof. intros H. pose proof (days_before_mono y (Z.to_nat (y' - y))). by replace (y + Z.of_nat (Z.to_nat (y' - y))) with y' in * by lia. Qed.

Lemma gmtime_ok t : 0 <= t < END_OF_9999 -> exists x m, gw_gmtime t = Ok x /\ good_tm t x m.
Proof.
  unfold END_OF_9999. intros Ht. unfold gw_gmtime.
  pose proof (Z.div_mod t DAY ltac:(done)) as Et. pose proof (Z.mod_pos_bound t DAY ltac:(done)) as Hs.
  set (days := t / DAY) in *. set (s := t mod DAY) in *. set (d := days - 10957).
  pose proof (Z.div_mod d 146097 ltac:(lia)) as Ed. pose proof (Z.mod_pos_bound d 146097 ltac:(lia)) as Hd.
  pose proof (find_year_ok 400 (2000 + 400 * (d / 146097)) (d mod 146097)) as Hy.
  replace (2000 + 400 * (d / 146097) + Z.of_nat 400) with (2000 + 400 * (d / 146097 + 1)) in Hy by lia.
  rewrite !days_before_cycle in Hy. destruct (find_year _ _ 400) as [y d'].
  destruct Hy as (_ & Hd' & Ey); [lia|].
  pose proof (find_month_ok 12 y 0 d') as Hm. rewrite Nat.add_0_l, month_before_12 in Hm.
  change (month_before y 0) with 0 in Hm. destruct (find_month y 0 d' 12) as [m md].
  destruct Hm as (Hm & Hmd & Em); [lia|]. pose proof (month_days_bound y m).
  unfold DAY, HOUR, MINUTE in *.
  assert (1970 <= y <= 9999) as Hyr.
  { pose proof (days_before_succ y) as Esucc. pose proof (days_before_le (y + 1) 1970) as H1.
    pose proof (days_before_le 10000 y) as H2. change (days_before 1970) with 0 in H1.
    change (days_before 10000) with 2932897 in H2. lia. }
  assert ((- 2 ^ 31 <=? y - 1900) && (y - 1900 <? 2 ^ 31) = true) as -> by lia.
  eexists _, m. split; [done|]. constructor; cbn.
  1-3: Z.to_euclidean_division_equations; lia.
  - lia.
  - lia.
  - lia.
  - apply Z.mod_pos_bound. lia.
  - replace (y - 1900 + 1900) with y by lia. unfold DAY, HOUR, MINUTE.
    assert (days = days_before y + month_before y m + md) as Edays by lia.
    assert (s = 3600 * (s / 3600) + 60 * (s / 60 mod 60) + s mod 60) by (Z.to_euclidean_division_equations; lia). lia.
Qed.

(** ** Dates of HTTP *)

Lemma digits_2 v : 0 <= v < 100 -> digits 2 v = [48 + v / 10; 48 + v mod 10].
Proof.
  intros Hv. assert (forallb (fun v => bool_decide (digits 2 v = [48 + v / 10; 48 + v mod 10])) (seqZ 0 100) = true)
    as Hall by by vm_compute.
  rewrite forallb_forall in Hall. specialize (Hall v).
  rewrite <- list_elem_of_In, elem_of_seqZ, bool_decide_eq_true in Hall. apply Hall. lia.
Qed.

Lemma print_digit d : 0 <= d < 10 -> hexdig false d = 48 + d.
Proof.
  intros Hd. assert (d = 0 \/ d = 1 \/ d = 2 \/ d = 3 \/ d = 4 \/ d = 5 \/ d = 6 \/ d = 7 \/ d = 8 \/ d = 9)
    as Hc by lia. repeat destruct Hc as [->|Hc]; try subst; reflexivity.
Qed.

Lemma print_step n v : 10 <= v -> print_base 10 false (S n) v = print_base 10 false n (v / 10) ++ [48 + v mod 10].
Proof.
  intros Hv. cbn [print_base]. destruct (Z.ltb_spec v 10); [lia|].
  by rewrite print_digit by (apply Z.mod_pos_bound; lia).
Qed.

Lemma sprintf_4 v : 1000 <= v < 10000 ->
  sprintf_ld v = [48 + v / 10 / 10 / 10; 48 + v / 10 / 10 mod 10; 48 + v / 10 mod 10; 48 + v mod 10].
Proof.
  intros Hv. unfold sprintf_ld. destruct (Z.ltb_spec v 0); [lia|].
  assert (1 <= v / 10 / 10 / 10 < 10 /\ 10 <= v / 10 / 10 /\ 10 <= v / 10) as (? & ? & ?)
    by (Z.to_euclidean_division_equations; lia).
  rewrite !print_step by lia. cbn [print_base]. destruct (Z.ltb_spec (v / 10 / 10 / 10) 10); [|lia].
  by rewrite print_digit by lia.
Qed.

Lemma digits_4 v : 1000 <= v < 10000 -> digits 4 v = sprintf_ld v.
Proof. intros Hv. unfold digits, padded. by rewrite sprintf_4 by done. Qed.

(** The text of a date. *)
Definition http_text (W M : list Z) (x : tm) : list Z :=
  W ++ [44; 32] ++ digits 2 (tm_mday x) ++ [32] ++ M ++ [32] ++ digits 4 (tm_year x + 1900) ++ [32] ++
  digits 2 (tm_hour x) ++ [58] ++ digits 2 (tm_min x) ++ [58] ++ digits 2 (tm_sec x) ++ [32; 71; 77; 84].

Definition name_ok (n : list Z) : Prop := length n = 3%nat /\ octets n /\ Forall (fun c => c <> 32 /\ c <> 0) n.

Lemma names_ok (l : list (list Z)) i n :
  forallb (fun n => (length n =? 3)%nat && forallb (fun c => (64 <? c) && (c <? 128)) n) l = true ->
  l !! i = Some n -> name_ok n.
Proof.
  intros Hl Hi. apply list_elem_of_lookup_2, list_elem_of_In in Hi. rewrite forallb_forall in Hl.
  specialize (Hl n Hi). apply andb_true_iff in Hl as [Hlen Hc]. apply Nat.eqb_eq in Hlen. rewrite forallb_forall in Hc.
  split_and!; [done|..]; apply Forall_forall; intros c Hin%Hc; unfold octet; lia.
Qed.

Lemma month_loop_ok o M names k i : repr o M -> Forall (fun c => c <> 0) M ->
  names !! i = Some M -> NoDup names -> month_loop o names k = Ok (k + Z.of_nat i).
Proof.
  intros Ho Hnul. revert k i. induction names as [|n names IH]; intros k i Hi Hnd; [done|].
  apply list.NoDup_cons in Hnd as [Hn Hnd]. cbn [month_loop].
  destruct (str_compare_eq o M n Ho) as (c & -> & Hc). bind_red. rewrite (cstr_no_nul _ Hnul) in Hc.
  destruct i as [|i]; cbn in Hi.
  - injection Hi as ->. destruct (Z.eqb_spec c 0); [f_equal; lia|]. by destruct Hc as [_ Hc]; specialize (Hc eq_refl).
  - destruct (Z.eqb_spec c 0) as [E|]; [|rewrite (IH (k + 1) i) by done; f_equal; lia].
    apply Hc in E. subst n. exfalso. apply Hn. by eapply list_elem_of_lookup_2.
Qed.


Lemma parse_to_digits o s (pre rest : list Z) (w : nat) v c pos stop :
  repr o s -> s = pre ++ digits w v ++ c :: rest -> (0 < w <= 18)%nat -> 0 <= v < 10 ^ Z.of_nat w ->
  stops 10 [c] -> c <> 0 -> pos = zlen pre -> stop = pos + Z.of_nat w ->
  parse_to o pos 10 stop = Ok (Some v).
Proof.
  intros Ho -> Hw Hv Hc H0 -> ->. rewrite (parse_to_ok _ _ _ _ _ Ho) by (lia || apply zlen_nonneg).
  by rewrite number_at_digits.
Qed.

Lemma search_char_mid (pre rest : list Z) c : Forall (fun x => x <> c) pre -> search_char (pre ++ c :: rest) c 0 = zlen pre.
Proof.
  intros Hp. unfold search_char. rewrite drop_0.
  assert (list_find (fun x => x = c) (pre ++ c :: rest) = Some (length pre, c)) as ->; [|done].
  apply list_find_Some. split_and!; [by rewrite list_lookup_middle|done|].
  intros j y Hj Hlt. rewrite lookup_app_l in Hj by done. by eapply (Forall_lookup_1 _ _ _ _ Hp) in Hj.
Qed.

(** The octets of the text. *)
Definition http_octets (W M : list Z) (x : tm) : list Z :=
  let y := tm_year x + 1900 in
  W ++ 44 :: 32 :: 48 + tm_mday x / 10 :: 48 + tm_mday x mod 10 :: 32 :: M ++
  [32; 48 + y / 10 / 10 / 10; 48 + y / 10 / 10 mod 10; 48 + y / 10 mod 10; 48 + y mod 10; 32;
   48 + tm_hour x / 10; 48 + tm_hour x mod 10; 58; 48 + tm_min x / 10; 48 + tm_min x mod 10; 58;
   48 + tm_sec x / 10; 48 + tm_sec x mod 10; 32; 71; 77; 84].

Section http_text.
Context (t : Z) (x : tm) (m : nat) (W M : list Z) (o : Octstr).
Context (Hx : good_tm t x m) (HW : name_ok W) (HM : name_ok M).

Lemma http_text_eq : http_text W M x = http_octets W M x.
Proof using Hx.
  destruct Hx. unfold http_text, http_octets. by rewrite !digits_2, digits_4, sprintf_4 by lia.
Qed.

Lemma http_text_length : zlen (http_text W M x) = 29.
Proof using Hx HW HM.
  rewrite http_text_eq. destruct HW as [HlW _], HM as [HlM _]. unfold http_octets. list_lia.
Qed.

Context (Ho : repr o (http_text W M x)).

(** The fields at their places. *)
Lemma http_fields :
  exists om, repr om M /\
    parse_fields o 5 0 3 7 11 12 15 18 =
      Ok (Some (tm_mday x, om, tm_year x + 1900, tm_hour x, tm_min x, tm_sec x)).
Proof using Hx HW HM Ho.
  pose proof Ho as Ho'. rewrite http_text_eq in Ho'. destruct Hx as [Hsec Hmin Hhour Hmday _ Hyear _ _].
  destruct HW as [HlW _], HM as [HlM _].
  destruct W as [|w0 [|w1 [|w2 [|]]]]; try done. destruct M as [|m0 [|m1 [|m2 [|]]]]; try done.
  set (T := http_octets _ _ x) in *.
  assert (Hnum : forall (n w : nat) v c pos stop, (0 < w <= 18)%nat -> 0 <= v < 10 ^ Z.of_nat w -> stops 10 [c] -> c <> 0 ->
    T = take n T ++ digits w v ++ c :: drop (S (n + w)) T -> (n <= 29)%nat ->
    pos = Z.of_nat n -> stop = Z.of_nat (n + w) -> parse_to o pos 10 stop = Ok (Some v)).
  { intros n w v c pos stop Hw Hv Hc H0 E Hn -> ->. apply (parse_to_digits o T (take n T) (drop (S (n + w)) T) w v c); try done.
    - assert (length T = 29%nat) as HlT by reflexivity. unfold zlen. rewrite length_take. lia.
    - lia. }
  unfold parse_fields.
  rewrite (Hnum 5%nat 2%nat (tm_mday x) 32 (5 + 0) (5 + 0 + 2)); [|lia..|cbn; lia|lia|by rewrite digits_2 by lia|lia|done|done]. bind_red.
  pose proof (octstr_copy_ok o _ (5 + 3) 3 Ho' ltac:(lia) ltac:(lia)) as Hc. apply returns_iff in Hc as (om & -> & [Hom _]).
  bind_red. exists om. split; [exact Hom|].
  rewrite (Hnum 12%nat 4%nat (tm_year x + 1900) 32 (5 + 7) (5 + 11)); [|lia..|cbn; lia|lia|by rewrite digits_4, sprintf_4 by lia|lia|done|done]. bind_red.
  rewrite (Hnum 17%nat 2%nat (tm_hour x) 58 (5 + 12) (5 + 12 + 2)); [|lia..|cbn; lia|lia|by rewrite digits_2 by lia|lia|done|done]. bind_red.
  rewrite (Hnum 20%nat 2%nat (tm_min x) 58 (5 + 15) (5 + 15 + 2)); [|lia..|cbn; lia|lia|by rewrite digits_2 by lia|lia|done|done]. bind_red.
  rewrite (Hnum 23%nat 2%nat (tm_sec x) 32 (5 + 18) (5 + 18 + 2)); [|lia..|cbn; lia|lia|by rewrite digits_2 by lia|lia|done|done]. done.
Qed.

Lemma parse_http_text : monthname !! m = Some M -> date_parse_http o = Ok t.
Proof using Hx HW HM Ho.
  intros EM. destruct http_fields as (om & Hom & Ef). unfold date_parse_http.
  rewrite (octstr_search_char_ok _ _ _ _ Ho) by (unfold octet; lia || lia).
  rewrite (octstr_len_ok _ _ Ho), http_text_length. bind_red. rewrite http_text_eq in *.
  assert (search_char (http_octets W M x) 32 0 = 4) as ->.
  { unfold http_octets. pose proof (search_char_mid (W ++ [44])
      (48 + tm_mday x / 10 :: 48 + tm_mday x mod 10 :: 32 :: M ++ drop 11 (http_octets W M x)) 32) as E.
    destruct HW as (HlW & _ & HnW). rewrite <- app_assoc in E. cbn [app] in E.
    assert (zlen (W ++ [44]) = 4) as E4 by list_lia. rewrite E4 in E.
    destruct W as [|w0 [|w1 [|w2 [|]]]]; try done. destruct HM as [HlM _]. destruct M as [|m0 [|m1 [|m2 [|]]]]; try done.
    apply E. apply Forall_app. split; [|by apply Forall_cons_2; [lia|apply Forall_nil_2]].
    revert HnW. apply Forall_impl. by intros ? []. }
  bind_red. cbn [orb Z.ltb Z.eqb Z.compare Pos.compare Pos.eqb]. change (4 =? 29 - 1) with false. cbn match.
  rewrite !(octstr_get_char_ok _ _ _ Ho). bind_red.
  destruct Hx as [Hsec Hmin Hhour Hmday [Emon Hm] Hyear _ Et].
  assert (char_at (http_octets W M x) (4 + 1) = 48 + tm_mday x / 10 /\ char_at (http_octets W M x) (4 + 1 + 2) = 32) as [-> ->].
  { unfold http_octets. destruct HW as [HlW _]. destruct W as [|w0 [|w1 [|w2 [|]]]]; try done. }
  assert (isdigit (48 + tm_mday x / 10) = true) as -> by (unfold isdigit; Z.to_euclidean_division_equations; lia).
  change (32 =? 32) with true. cbn [andb]. change (29 - (4 + 1) <? 24) with false. cbn match.
  change (4 + 1) with 5. rewrite Ef. bind_red.
  rewrite (month_loop_ok om M monthname 0 m Hom); [| |done|by apply (bool_decide_unpack _)].
  - bind_red. destruct (Z.eqb_spec (0 + Z.of_nat m) 12); [lia|].
    rewrite (convert_eq _ m); [|cbn; lia|done|done]. cbn [year month day hour minute second offset_sec].
    f_equal. lia.
  - destruct HM as (_ & _ & HnM). revert HnM. apply Forall_impl. by intros ? [].
Qed.
End http_text.

Lemma good_names t x m : good_tm t x m -> exists W M,
  wkday !! Z.to_nat (tm_wday x) = Some W /\ monthname !! m = Some M /\ name_ok W /\ name_ok M.
Proof.
  intros [_ _ _ _ [_ Hm] _ Hw _].
  destruct (lookup_lt_is_Some_2 wkday (Z.to_nat (tm_wday x))) as [W EW]; [cbn; lia|].
  destruct (lookup_lt_is_Some_2 monthname m) as [M EM]; [cbn; lia|].
  exists W, M. split_and!; [done..|by eapply (names_ok wkday)|by eapply (names_ok monthname)].
Qed.

Lemma http_text_octets t x m W M : good_tm t x m -> name_ok W -> name_ok M -> octets (http_text W M x).
Proof.
  intros Hx (_ & HW & _) (_ & HM & _). rewrite (http_text_eq t x m) by done. destruct Hx. unfold http_octets.
  apply Forall_app. split; [done|]. repeat (apply Forall_cons_2; [unfold octet; Z.to_euclidean_division_equations; lia|]).
  apply Forall_app. split; [done|].
  repeat (apply Forall_cons_2; [unfold octet; Z.to_euclidean_division_equations; lia|]). apply Forall_nil_2.
Qed.

(** Every time from 1970 to the end of the year 9999 survives the date format of
    HTTP: [date_format_http] writes a text that fits its buffer of 30 octets, and
    [date_parse_http] reads the same second back. *)
Theorem date_http_roundtrip (t : Z) :
  0 <= t < END_OF_9999 ->
  exists o, date_format_http t = Ok (Some o) /\ date_parse_http o = Ok t.
Proof.
  intros Ht. destruct (gmtime_ok t Ht) as (x & m & Ex & Hx). destruct (good_names t x m Hx) as (W & M & EW & EM & HW & HM).
  unfold date_format_http. rewrite swrap_small by (unfold END_OF_9999 in Ht; lia). rewrite Ex. bind_red.
  pose proof Hx as [? ? ? ? [Emon Hm] ? ? _].
  match goal with |- context [if ?b then Ok None else _] => assert (b = false) as -> by (rewrite Emon; lia) end.
  rewrite EW, Emon, Nat2Z.id, EM. cbn [default]. unfold id. cbn zeta. fold (http_text W M x).
  rewrite (http_text_length t x m W M) by done. change (30 <? 29 + 1) with false. cbn match.
  pose proof (octstr_create_ok _ (http_text_octets t x m W M Hx HW HM)) as Ho.
  apply returns_iff in Ho as (o & -> & [Ho _]). bind_red. exists o. split; [done|]. exact (parse_http_text t x m W M o Hx HW HM Ho EM).
Qed.

Lemma date_http_roundtrip_witness :
  exists o, date_format_http 784111777 = Ok (Some o) /\ date_parse_http o = Ok 784111777.
Proof. apply (date_http_roundtrip 784111777). unfold END_OF_9999. lia. Defined.

(** From the year 10000 on the text is longer than the buffer. *)
Lemma date_format_http_overflow : date_format_http END_OF_9999 = Undef.
Proof. vm_compute. reflexivity. Qed.

(** ** Any text *)

Lemma strtol_digits_bound b l : 1 < b -> forall acc n, 0 <= acc ->
  let '(v, k) := strtol_digits b acc n l in n <= k /\ 0 <= v < (acc + 1) * b ^ (k - n).
Proof.
  intros Hb. assert (forall acc n, 0 <= acc -> n <= n /\ 0 <= acc < (acc + 1) * b ^ (n - n)) as Hstop.
  { intros acc n Ha. rewrite Z.sub_diag. lia. }
  induction l as [|c l IH]; intros acc n Ha; cbn [strtol_digits]; [by apply Hstop|].
  destruct (digit_of c) as [d|] eqn:Ed; [|by apply Hstop]. destruct (Z.ltb_spec d b); [|by apply Hstop].
  assert (0 <= d) as Hd.
  { unfold digit_of, isdigit, isupper, islower in Ed.
    repeat match type of Ed with context [if ?x then _ else _] => destruct x eqn:?; [injection Ed as <-; lia|] end. done. }
  specialize (IH (acc * b + d) (n + 1) ltac:(nia)). destruct (strtol_digits b (acc * b + d) (n + 1) l) as [v k].
  destruct IH as [Hk Hv]. split; [lia|]. replace (k - n) with (Z.succ (k - (n + 1))) by lia.
  rewrite Z.pow_succ_r by lia. pose proof (Z.pow_pos_nonneg b (k - (n + 1)) ltac:(lia) ltac:(lia)). nia.
Qed.

Lemma number_at_bound s pos w v : 0 <= w -> number_at s pos 10 (pos + w) = Some v -> - 10 ^ w < v < 10 ^ w.
Proof.
  intros Hw. unfold number_at. destruct (zlen s <=? pos); [done|]. unfold strtol.
  set (l := cstr _). destruct (skip_space l 0) as [l1 n1] eqn:E1.
  assert (0 <= n1) as Hn1.
  { clear - E1. revert E1. assert (forall l n l' n', skip_space l n = (l', n') -> n <= n') as Hs; [|by intros E%Hs].
    clear. intros l. induction l as [|c l IH]; intros n l' n'; cbn; [intros [= _ <-]; lia|].
    destruct (isspace c); [intros E%IH; lia|intros [= _ <-]; lia]. }
  destruct (strtol_sign l1 n1) as [[neg l2] n2] eqn:E2.
  assert (n1 <= n2) as Hn2.
  { unfold strtol_sign in E2. destruct l1 as [|c l1]; [injection E2; lia|].
    repeat match type of E2 with context [if ?x then _ else _] => destruct x end; injection E2; lia. }
  cbn [orb andb Z.eqb Pos.eqb]. pose proof (strtol_digits_bound 10 l2 ltac:(lia) 0 0 ltac:(lia)) as Hb.
  destruct (strtol_digits 10 0 0 l2) as [u k]. destruct Hb as [Hk Hb]. rewrite Z.sub_0_r in Hb.
  destruct (Z.eqb_spec k 0); [done|]. set (x := if neg then - u else u).
  assert (forall r, n2 + k <= w -> r = x -> - 10 ^ w < r < 10 ^ w) as Hx.
  { intros r Hle ->. assert (10 ^ k <= 10 ^ w) by (apply Z.pow_le_mono_r; lia). unfold x. destruct neg; lia. }
  destruct (LONG_MAX <? x); [done|]. destruct (x <? LONG_MIN); [done|].
  destruct (Z.eqb_spec (n2 + k) 0); [done|]. destruct (Z.eqb_spec (pos + (n2 + k)) (pos + w)); [|done].
  intros [= <-]. apply Hx; [lia|done].
Qed.

Lemma month_loop_range o names k : (exists s, repr o s) ->
  returns (month_loop o names k) (fun m => k <= m <= k + zlen names).
Proof.
  intros [s Ho]. revert k. induction names as [|n names IH]; intros k; cbn [month_loop]; [cbn; list_lia|].
  destruct (str_compare_eq o s n Ho) as (c & -> & _). bind_red.
  destruct (c =? 0); [cbn; list_lia|]. eapply returns_mono; [apply IH|]. cbn. list_lia.
Qed.

Lemma parse_fields_ok o s pos d mon y ye h mi sec : repr o s -> 0 <= pos -> 0 <= d -> 0 <= mon -> 0 <= y <= ye -> ye <= y + 4 ->
  0 <= h -> 0 <= mi -> 0 <= sec ->
  returns (parse_fields o pos d mon y ye h mi sec) (fun r =>
    match r with Some (_, om, yy, _, _, _) => (exists s, repr om s) /\ -10000 < yy < 10000 | None => True end).
Proof.
  intros Ho ? ? ? ? ? ? ? ?. unfold parse_fields. rewrite !(parse_to_ok o s) by (done || lia). bind_red.
  eapply returns_seq; [apply (octstr_copy_ok o s); [done|lia..]|]. intros om [Hom _]. bind_red.
  destruct (number_at s (pos + d) 10 (pos + d + 2)); [|done].
  destruct (number_at s (pos + y) 10 (pos + ye)) as [yy|] eqn:Ey; [|done].
  destruct (number_at s (pos + h) 10 (pos + h + 2)); [|done]. destruct (number_at s (pos + mi) 10 (pos + mi + 2)); [|done].
  destruct (number_at s (pos + sec) 10 (pos + sec + 2)); [|done]. cbn. split; [by eexists|].
  replace (pos + ye) with (pos + y + (ye - y)) in Ey by lia. apply number_at_bound in Ey; [|lia].
  assert (10 ^ (ye - y) <= 10 ^ 4) by (apply Z.pow_le_mono_r; lia). change (10 ^ 4) with 10000 in *. lia.
Qed.

Lemma convert_returns t : -20000 <= year t <= 20000 -> 0 <= month t < 12 -> is_ok (date_convert_universal t).
Proof.
  intros Hy Hm. unfold date_convert_universal. set (y := if month t <=? 1 then _ else _).
  assert (-20001 <= y <= 20000) as Hyb by (unfold y; destruct (_ <=? _); lia).
  assert (-6000 <= y ÷ 4 - y ÷ 100 + y ÷ 400 - 477 < 6000) as Hl by (Z.to_euclidean_division_equations; lia).
  rewrite swrap_small by lia. unfold as_int. set (l := _ - 477) in *.
  assert ((- 2 ^ 31 <=? l * DAY) && (l * DAY <? 2 ^ 31) = true) as -> by (unfold DAY, HOUR, MINUTE; lia).
  bind_red. destruct (Z.leb_spec 0 (month t)); [|lia].
  destruct (lookup_lt_is_Some_2 monthstart (Z.to_nat (month t))) as [ms ->]; [cbn; lia|]. bind_red. by eexists.
Qed.

(** [date_parse_http] is total: on every text, of any form, it returns a number,
    without a failed assertion, a read outside of its table of months or an overflow
    in the arithmetic of the date. *)
Theorem date_parse_http_total (o : Octstr) (s : list Z) : repr o s -> is_ok (date_parse_http o).
Proof.
  intros Ho. assert (returns (date_parse_http o) (fun _ => True)) as H; [|apply returns_iff in H as (r & H & _); by exists r].
  unfold date_parse_http. rewrite (octstr_search_char_ok _ _ _ _ Ho) by (unfold octet; lia || lia).
  rewrite (octstr_len_ok _ _ Ho). bind_red. destruct (Z.ltb_spec (search_char s 32 0) 0) as [|Hpos]; [done|]. cbn [orb].
  destruct (_ =? _); [done|]. rewrite !(octstr_get_char_ok _ _ _ Ho). bind_red. set (pos := search_char s 32 0 + 1).
  eapply (returns_seq _ _ (fun r =>
    match r with Some (_, om, yy, _, _, _) => (exists s, repr om s) /\ -20000 < yy < 20000 | None => True end)).
  - destruct (_ && _); [destruct (_ <? _); [done|]|destruct (_ && _); (destruct (_ <? _); [done|])].
    + eapply returns_mono; [apply (parse_fields_ok o s); done || lia|].
      intros [[[[[[? om] yy] ?] ?] ?]|]; [|done]. intros [? ?]. split; [done|lia].
    + eapply returns_seq; [apply (parse_fields_ok o s); done || lia|].
      intros [[[[[[? om] yy] ?] ?] ?]|]; [|done]. intros [? ?]. cbn. split; [done|]. destruct (60 <? yy); lia.
    + eapply returns_mono; [apply (parse_fields_ok o s); done || lia|].
      intros [[[[[[? om] yy] ?] ?] ?]|]; [|done]. intros [? ?]. split; [done|lia].
  - intros [[[[[[d om] yy] h] mi] sec]|]; [|done]. intros [Hom Hyy].
    eapply returns_seq; [by apply month_loop_range|]. intros m Hm. cbn beta in Hm.
    destruct (Z.eqb_spec m 12); [done|]. change (zlen monthname) with 12 in Hm.
    destruct (convert_returns (mkTime d m yy h mi sec 0)) as [r ->]; [cbn; lia..|done].
Qed.

(** A day and a time of a form that no branch accepts. *)
Lemma date_parse_http_total_witness :
  exists o, octstr_create [88; 32; 45; 49; 45; 74; 0; 255] = Ok o /\ is_ok (date_parse_http o).
Proof.
  assert (octets [88; 32; 45; 49; 45; 74; 0; 255]) as Hs by octets_tac.
  pose proof (octstr_create_ok _ Hs) as H. apply returns_iff in H as (o & E & [Ho _]).
  exists o. split; [done|]. by apply (date_parse_http_total o [88; 32; 45; 49; 45; 74; 0; 255]).
Defined.

(** ** Dates of ISO 8601 *)

Lemma digit_48 d : 0 <= d < 10 -> digit_of (48 + d) = Some d /\ isspace (48 + d) = false /\
  isdigit (48 + d) = true /\ 48 + d <> 45 /\ 48 + d <> 43.
Proof.
  intros Hd. unfold digit_of, isspace, isdigit.
  destruct ((48 <=? 48 + d) && (48 + d <=? 57)) eqn:E; [|lia]. split_and!; [f_equal; lia|lia..].
Qed.

Lemma sscanf_number (w : nat) (ds : list Z) r v :
  ds <> [] -> length ds = w -> Forall (fun c => exists d, 0 <= d < 10 /\ c = 48 + d) ds ->
  strtol_digits 10 0 0 ds = (v, Z.of_nat w) -> sscanf_ld w (ds ++ r) = Some (v, Z.of_nat w).
Proof.
  intros Hne <- Hds Hv. destruct ds as [|c ds]; [done|]. apply Forall_cons_iff in Hds as [(d & Hd & ->) Hds].
  destruct (digit_48 d Hd) as (_ & Hsp & _ & H1 & H2). unfold sscanf_ld. cbn [app skip_space]. rewrite Hsp.
  change (48 + d :: ds ++ r) with ((48 + d :: ds) ++ r). rewrite take_app_length. cbn [strtol_sign].
  destruct (Z.eqb_spec (48 + d) 45); [done|]. destruct (Z.eqb_spec (48 + d) 43); [done|]. rewrite Hv.
  by destruct (Z.eqb_spec (Z.of_nat (length (48 + d :: ds))) 0); [cbn in *; lia|].
Qed.

Lemma sscanf_2 v r : 0 <= v < 100 -> sscanf_ld 2 (48 + v / 10 :: 48 + v mod 10 :: r) = Some (v, 2).
Proof.
  intros Hv. assert (0 <= v / 10 < 10 /\ 0 <= v mod 10 < 10) as [H1 H2] by (Z.to_euclidean_division_equations; lia).
  apply (sscanf_number 2 [48 + v / 10; 48 + v mod 10]); [done..| |].
  - repeat (apply Forall_cons_2; [by eexists; split; [|reflexivity]|]). apply Forall_nil_2.
  - cbn [strtol_digits]. destruct (digit_48 _ H1) as (-> & _), (digit_48 _ H2) as (-> & _).
    destruct (Z.ltb_spec (v / 10) 10); [|lia]. destruct (Z.ltb_spec (v mod 10) 10); [|lia].
    f_equal. pose proof (Z.div_mod v 10 ltac:(lia)). lia.
Qed.

Lemma sscanf_4 v r : 1000 <= v < 10000 ->
  sscanf_ld 4 (48 + v / 10 / 10 / 10 :: 48 + v / 10 / 10 mod 10 :: 48 + v / 10 mod 10 :: 48 + v mod 10 :: r) = Some (v, 4).
Proof.
  intros Hv. assert (0 <= v / 10 / 10 / 10 < 10 /\ 0 <= v / 10 / 10 mod 10 < 10 /\ 0 <= v / 10 mod 10 < 10 /\ 0 <= v mod 10 < 10)
    as (H1 & H2 & H3 & H4) by (Z.to_euclidean_division_equations; lia).
  apply (sscanf_number 4 [48 + v / 10 / 10 / 10; 48 + v / 10 / 10 mod 10; 48 + v / 10 mod 10; 48 + v mod 10]); [done..| |].
  - repeat (apply Forall_cons_2; [by eexists; split; [|reflexivity]|]). apply Forall_nil_2.
  - cbn [strtol_digits]. destruct (digit_48 _ H1) as (-> & _), (digit_48 _ H2) as (-> & _), (digit_48 _ H3) as (-> & _),
      (digit_48 _ H4) as (-> & _).
    destruct (Z.ltb_spec (v / 10 / 10 / 10) 10); [|lia]. destruct (Z.ltb_spec (v / 10 / 10 mod 10) 10); [|lia].
    destruct (Z.ltb_spec (v / 10 mod 10) 10); [|lia]. destruct (Z.ltb_spec (v mod 10) 10); [|lia].
    f_equal. pose proof (Z.div_mod v 10 ltac:(lia)). pose proof (Z.div_mod (v / 10) 10 ltac:(lia)).
    pose proof (Z.div_mod (v / 10 / 10) 10 ltac:(lia)). lia.
Qed.

Definition iso_octets (y mo d h mi s : Z) : list Z :=
  [48 + y / 10 / 10 / 10; 48 + y / 10 / 10 mod 10; 48 + y / 10 mod 10; 48 + y mod 10; 45;
   48 + mo / 10; 48 + mo mod 10; 45; 48 + d / 10; 48 + d mod 10; 84;
   48 + h / 10; 48 + h mod 10; 58; 48 + mi / 10; 48 + mi mod 10; 58; 48 + s / 10; 48 + s mod 10; 90].

Record iso_ok (y mo d h mi s : Z) : Prop := {
  i_y : 1970 <= y < 10000; i_mo : 1 <= mo <= 12; i_d : 1 <= d <= 31;
  i_h : 0 <= h < 24; i_mi : 0 <= mi < 60; i_s : 0 <= s < 60
}.

Lemma iso_octets_ok y mo d h mi s : iso_ok y mo d h mi s ->
  Forall (fun c => octet c /\ c <> 0) (iso_octets y mo d h mi s) /\
  search_char (iso_octets y mo d h mi s) 84 0 = 10.
Proof.
  intros [? ? ? ? ? ?]. split.
  - unfold iso_octets. repeat (apply Forall_cons_2; [unfold octet; Z.to_euclidean_division_equations; lia|]). apply Forall_nil_2.
  - apply (search_char_mid (take 10 (iso_octets y mo d h mi s)) (drop 11 (iso_octets y mo d h mi s)) 84).
    cbn [take iso_octets]. repeat (apply Forall_cons_2; [Z.to_euclidean_division_equations; lia|]). apply Forall_nil_2.
Qed.

Lemma non_digits_1 c a r : isdigit c = false -> 0 <= a < 10 -> non_digits (c :: 48 + a :: r) = 1.
Proof. intros Hc Ha. cbn. rewrite Hc. by destruct (digit_48 a Ha) as (_ & _ & -> & _). Qed.

Lemma non_digits_0 a r : 0 <= a < 10 -> non_digits (48 + a :: r) = 0.
Proof. intros Ha. cbn. by destruct (digit_48 a Ha) as (_ & _ & -> & _). Qed.

Section iso_text.
Context (y mo d h mi s : Z) (junk : list Z) (Hok : iso_ok y mo d h mi s).
Context (T txt : list Z) (ET : T = iso_octets y mo d h mi s) (Etxt : txt = T ++ 0 :: junk).

Lemma iso_rest p n : p = Z.of_nat n -> (n <= 20)%nat -> cstr (drop (Z.to_nat p) txt) = drop n T.
Proof using Hok ET Etxt.
  intros -> Hn. rewrite Nat2Z.id, Etxt. rewrite drop_app_le by (rewrite ET; cbn; lia). rewrite cstr_app_nul. apply cstr_no_nul.
  apply Forall_drop. destruct (iso_octets_ok _ _ _ _ _ _ Hok) as [Hoct _]. rewrite <- ET in Hoct. revert Hoct. apply Forall_impl. by intros ? [].
Qed.

Lemma iso_tens v : 0 <= v < 100 -> 0 <= v / 10 < 10.
Proof using. intros. Z.to_euclidean_division_equations. lia. Qed.

(** The numbers and the separators at their places. *)
Lemma iso_places :
  let rest p := cstr (drop (Z.to_nat p) txt) in
  (sscanf_ld 4 (rest 0) = Some (y, 4) /\ non_digits (slice txt 4 (10 - 4)) = 1 /\ sscanf_ld 2 (rest 5) = Some (mo, 2) /\
   non_digits (slice txt 7 (10 - 7)) = 1 /\ sscanf_ld 2 (rest 8) = Some (d, 2)) /\
  (non_digits (rest 11) = 0 /\ sscanf_ld 2 (rest 11) = Some (h, 2) /\ non_digits (rest 13) = 1 /\
   sscanf_ld 2 (rest 14) = Some (mi, 2) /\ non_digits (rest 16) = 1 /\ sscanf_ld 2 (rest 17) = Some (s, 2)).
Proof using Hok ET Etxt.
  pose proof Hok as [Hy Hmo Hd Hh Hmi Hs]. cbn beta zeta.
  rewrite (iso_rest 0 0), (iso_rest 5 5), (iso_rest 8 8), (iso_rest 11 11), (iso_rest 13 13), (iso_rest 14 14),
    (iso_rest 16 16), (iso_rest 17 17) by (done || lia).
  rewrite Etxt, ET. cbn [drop iso_octets]. split; split_and!.
  all: first [apply sscanf_4; lia|apply sscanf_2; lia|apply non_digits_0, iso_tens; lia|
    apply non_digits_1; [done|apply iso_tens; lia]].
Qed.

Lemma iso_time_text ut : iso_time txt 11 ut = Ok (0, set_time ut h mi s).
Proof using Hok ET Etxt.
  destruct iso_places as (_ & N11 & S11 & N13 & S14 & N16 & S17). unfold iso_time. cbn zeta.
  rewrite N11. change (11 + 0) with 11. rewrite S11. change (11 + 2) with 13. rewrite N13. change (13 + 1) with 14.
  rewrite S14. change (14 + 2) with 16. rewrite N16. change (16 + 1) with 17. rewrite S17.
  assert (rd txt (17 + 2) = Ok 90) as E by (by rewrite Etxt, ET). rewrite E. bind_red. unfold iso_zone. by rewrite E.
Qed.

Lemma parse_iso_text y0 o : repr o T -> cstr_block o = txt -> date_parse_iso y0 o = Ok (0, mkTime d (mo - 1) y h mi s 0).
Proof using Hok ET Etxt.
  intros Ho Et. destruct (iso_octets_ok _ _ _ _ _ _ Hok) as [_ Hsc]. unfold date_parse_iso.
  rewrite (octstr_search_char_ok _ _ _ _ Ho) by (unfold octet; lia || lia). rewrite ET at 1.
  rewrite Hsc, (octstr_len_ok _ _ Ho), Et. bind_red. change (0 <=? 10) with true. cbn match. cbn zeta.
  destruct iso_places as [(S0 & N4 & S5 & N7 & S8) _]. pose proof Hok as [Hy Hmo _ _ _ _].
  rewrite S0. rewrite N4. change (4 + 1) with 5. rewrite S5. change (5 + 2) with 7. rewrite N7. change (7 + 1) with 8. rewrite S8.
  destruct (Z.ltb_spec y 70); [lia|]. destruct (Z.ltb_spec y 100); [lia|]. destruct (Z.ltb_spec 0 mo); [|lia].
  assert (rd txt 10 = Ok 84) as -> by (by rewrite Etxt, ET). bind_red. change (84 =? 84) with true. cbn match. change (10 + 1) with 11.
  by rewrite iso_time_text.
Qed.
End iso_text.

(** A number in the text, for [parse_date]. *)
Lemma date_value_ok o s (pre rest : list Z) (w : nat) v c pos lo hi :
  repr o s -> s = pre ++ digits w v ++ c :: rest -> (0 < w <= 18)%nat -> 0 <= v < 10 ^ Z.of_nat w ->
  stops 10 [c] -> c <> 0 -> pos = zlen pre -> lo <= v <= hi -> date_value o pos lo hi = Ok true.
Proof.
  intros Ho E Hw Hv Hc H0 Ep Hr. pose proof (parse_to_digits o s pre rest w v c pos _ Ho E Hw Hv Hc H0 Ep eq_refl) as P.
  unfold parse_to, date_value in *. destruct (octstr_parse_long o pos 10) as [[[n p]|]| |]; cbn in P |- *; try done.
  destruct (_ =? _); [|done]. injection P as ->. f_equal. lia.
Qed.

Lemma parse_date_text o y mo d h mi s : iso_ok y mo d h mi s -> repr o (iso_octets y mo d h mi s) -> parse_date o = Ok true.
Proof.
  intros Hok Ho. unfold parse_date. set (T := iso_octets y mo d h mi s) in *.
  assert (check_chars o [(4, 45); (7, 45); (10, 84); (13, 58); (16, 58); (19, 90)] = Ok true) as ->.
  { cbn [check_chars]. rewrite !(octstr_get_char_ok _ _ _ Ho). done. }
  bind_red. destruct Hok as [? ? ? ? ? ?]. cbn [check_values].
  assert (Hv : forall (n w : nat) v c pos lo hi, (0 < w <= 18)%nat -> 0 <= v < 10 ^ Z.of_nat w -> stops 10 [c] -> c <> 0 ->
    T = take n T ++ digits w v ++ c :: drop (S (n + w)) T -> (n <= 20)%nat -> pos = Z.of_nat n -> lo <= v <= hi ->
    date_value o pos lo hi = Ok true).
  { intros n w v c pos lo hi Hw Hv Hc H0 E Hn -> Hr.
    apply (date_value_ok o T (take n T) (drop (S (n + w)) T) w v c); try done.
    assert (length T = 20%nat) as HlT by reflexivity. unfold zlen. rewrite length_take. lia. }
  unfold LONG_MIN, LONG_MAX.
  rewrite (Hv 0%nat 4%nat y 45 0 (- 2 ^ 63) (2 ^ 63 - 1)); [|lia..|cbn; lia|lia|by rewrite digits_4, sprintf_4 by lia|lia|done|lia]. bind_red.
  rewrite (Hv 5%nat 2%nat mo 45 5 1 12); [|lia..|cbn; lia|lia|by rewrite digits_2 by lia|lia|done|lia]. bind_red.
  rewrite (Hv 8%nat 2%nat d 84 8 1 31); [|lia..|cbn; lia|lia|by rewrite digits_2 by lia|lia|done|lia]. bind_red.
  rewrite (Hv 11%nat 2%nat h 58 11 0 23); [|lia..|cbn; lia|lia|by rewrite digits_2 by lia|lia|done|lia]. bind_red.
  rewrite (Hv 14%nat 2%nat mi 58 14 0 59); [|lia..|cbn; lia|lia|by rewrite digits_2 by lia|lia|done|lia]. bind_red.
  by rewrite (Hv 17%nat 2%nat s 90 17 (- 2 ^ 63) (2 ^ 63 - 1)); [|lia..|cbn; lia|lia|by rewrite digits_2 by lia|lia|done|lia].
Qed.

Section iso.
Context `{!Printf}.

Definition int_seg (lit : list Z) (zero : bool) (w n : Z) : segment :=
  mkSegment lit (mkDirective false zero w None 0 100) (AInt n).

Lemma int_seg_ok lit zero w n : literal lit -> 0 <= w <= LONG_MAX -> seg_ok (int_seg lit zero w n).
Proof.
  intros Hl Hw. split_and!; [done| |done|by eexists].
  constructor; [done|done|by apply (bool_decide_unpack _)|by apply (bool_decide_unpack _)].
Qed.

Lemma int_seg_render lit w n : 0 <= n < 2 ^ 31 ->
  seg_render (int_seg lit true (Z.of_nat w) n) = lit ++ digits w n.
Proof.
  intros Hn. unfold seg_render, render, digits. cbn. unfold signed_arg. cbn.
  by rewrite swrap_small by lia.
Qed.

(** The text that [date_create_iso] writes. *)
Lemma create_iso_text t x m : gw_gmtime t = Ok x -> good_tm t x m ->
  returns (date_create_iso t) (fun o => reprm o
    (iso_octets (tm_year x + 1900) (tm_mon x + 1) (tm_mday x) (tm_hour x) (tm_min x) (tm_sec x))).
Proof.
  intros Ex [Hs Hmi Hh Hd [Em Hm] Hy _ _]. unfold date_create_iso. rewrite Ex. bind_red.
  set (segs := [int_seg [] false 0 (tm_year x + 1900); int_seg [45] true 2 (tm_mon x + 1); int_seg [45] true 2 (tm_mday x);
    int_seg [84] true 2 (tm_hour x); int_seg [58] true 2 (tm_min x); int_seg [58] true 2 (tm_sec x)]).
  assert (Forall seg_ok segs) as Hok.
  { repeat (apply Forall_cons_2; [apply int_seg_ok; [repeat (apply Forall_cons_2; [lia|]); apply Forall_nil_2|
      unfold LONG_MAX; lia]|]). apply Forall_nil_2. }
  eapply returns_mono; [apply (octstr_format_ok segs [90] Hok); apply Forall_cons_2; [lia|apply Forall_nil_2]|].
  intros o Ho. cbn beta in Ho.
  assert (concat (seg_render <$> segs) ++ [90] =
    iso_octets (tm_year x + 1900) (tm_mon x + 1) (tm_mday x) (tm_hour x) (tm_min x) (tm_sec x)) as <-; [|done].
  unfold segs. cbn [fmap list_fmap concat].
  change 2 with (Z.of_nat 2) at 1 2 3 4 5. rewrite !int_seg_render by (rewrite ?Em; lia).
  rewrite !digits_2 by (rewrite ?Em; lia).
  assert (seg_render (int_seg [] false 0 (tm_year x + 1900)) = sprintf_ld (tm_year x + 1900)) as ->;
    [|by rewrite sprintf_4 by lia].
  unfold seg_render, render, padded, int_seg. cbn -[sprintf_ld swrap]. unfold signed_arg. cbn -[sprintf_ld swrap].
  by rewrite swrap_small by lia.
Qed.

(** Every time from 1970 to the end of the year 9999 survives the format of
    ISO 8601: [date_parse_iso] reads what [date_create_iso] writes to a date whose
    seconds are the time again, and [parse_date] accepts it. *)
Theorem date_iso_roundtrip (t y0 : Z) :
  0 <= t < END_OF_9999 ->
  exists o ut, date_create_iso t = Ok o /\ date_parse_iso y0 o = Ok (0, ut) /\ date_convert_universal ut = Ok t /\
    parse_date o = Ok true.
Proof.
  intros Ht. destruct (gmtime_ok t Ht) as (x & m & Ex & Hx). pose proof (create_iso_text t x m Ex Hx) as Ho.
  apply returns_iff in Ho as (o & Eo & [Ho _]). exists o.
  pose proof Hx as [Hs Hmi Hh Hd [Em Hm] Hy _ Et].
  assert (exists junk, cstr_block o = iso_octets (tm_year x + 1900) (tm_mon x + 1) (tm_mday x) (tm_hour x) (tm_min x) (tm_sec x)
    ++ 0 :: junk) as [junk Ej].
  { inversion Ho as [? E|? rest ? ? ? ?]; subst. exists rest. done. }
  assert (iso_ok (tm_year x + 1900) (tm_mon x + 1) (tm_mday x) (tm_hour x) (tm_min x) (tm_sec x)) as Hok
    by (constructor; rewrite ?Em; lia).
  eexists. split_and!; [done|by eapply parse_iso_text| |by eapply parse_date_text].
  rewrite (convert_eq _ m); [|cbn; lia|done|cbn; rewrite Em; lia].
  cbn [year month day hour minute second offset_sec]. f_equal. lia.
Qed.
End iso.

#[local] Instance date_no_doubles : Printf := {
  double := Empty_set;
  sprintf_double := fun _ _ _ => [];
  sprintf_p := fun _ => []
}.

Lemma date_iso_roundtrip_witness :
  exists o ut, date_create_iso 951827696 = Ok o /\ date_parse_iso 0 o = Ok (0, ut) /\
    date_convert_universal ut = Ok 951827696 /\ parse_date o = Ok true.
Proof. apply (date_iso_roundtrip 951827696 0). unfold END_OF_9999. lia. Defined.
