(* ===== verification/Json.v ===== *)
(** * JSON

    Models src/gwlib/json.c: the parser (a recursive descent over a buffer, with
    an output block allocated for each string before it is unescaped), the access
    functions and the functions that write objects.

    The text is the memory block of the octet string, with its NUL; every access
    goes through [rd] and [wr], so that an access outside of a block is undefined
    behaviour.  A node holds its members as a list, for the chain of [next]
    pointers.  Of the C library, [strtod] is defined on the characters that
    [parse_number] collects, rounding to a binary64 number as SpecFloat does. *)

From Stdlib Require Import SpecFloat.
From S2P Require Import Prelude Octstr OctstrCode OctstrFormat.

Definition JSON_NESTING_LIMIT : Z := 1000.

Definition JSON_INVALID : Z := 0.
Definition JSON_FALSE : Z := 1.
Definition JSON_TRUE : Z := 2.
Definition JSON_NULL : Z := 3.
Definition JSON_NUMBER : Z := 4.
Definition JSON_STRING : Z := 5.
Definition JSON_ARRAY : Z := 6.
Definition JSON_OBJECT : Z := 7.

(** [valuestring] and [string] are blocks that hold C strings. *)
Inductive JSON := mkJSON {
  jtype : Z;
  valuestring : option (list Z);
  valueint : Z;
  valuedouble : spec_float;
  string : option (list Z);
  child : list JSON
}.

Definition json_new_item : JSON := mkJSON JSON_INVALID None 0 (S754_zero false) None [].

Definition set_jtype (j : JSON) (t : Z) : JSON :=
  mkJSON t (valuestring j) (valueint j) (valuedouble j) (string j) (child j).
Definition set_jstring (j : JSON) (s : list Z) : JSON :=
  mkJSON JSON_STRING (Some s) (valueint j) (valuedouble j) (string j) (child j).
Definition set_jkey (j : JSON) : JSON :=
  mkJSON (jtype j) None (valueint j) (valuedouble j) (valuestring j) (child j).
Definition set_jint (j : JSON) (n : Z) : JSON :=
  mkJSON (jtype j) (valuestring j) n (valuedouble j) (string j) (child j).
Definition set_jnumber (j : JSON) (d : spec_float) (n : Z) : JSON :=
  mkJSON JSON_NUMBER (valuestring j) n d (string j) (child j).
Definition set_jchild (j : JSON) (t : Z) (js : list JSON) : JSON :=
  mkJSON t (valuestring j) (valueint j) (valuedouble j) (string j) js.

Record parse_buffer := mkBuffer {
  content : list Z;
  buf_length : Z;
  offset : Z;
  depth : Z
}.

Definition set_offset (b : parse_buffer) (o : Z) : parse_buffer :=
  mkBuffer (content b) (buf_length b) o (depth b).
Definition set_depth (b : parse_buffer) (d : Z) : parse_buffer :=
  mkBuffer (content b) (buf_length b) (offset b) d.

Definition can_read (b : parse_buffer) (size : Z) : bool := offset b + size <=? buf_length b.
Definition can_access_at_index (b : parse_buffer) (i : Z) : bool := offset b + i <? buf_length b.

(** [buffer_at_offset(buffer)[i]]. *)
Definition at_offset (b : parse_buffer) (i : Z) : res Z := rd (content b) (offset b + i).

Fixpoint skip_loop (b : parse_buffer) (fuel : nat) : res parse_buffer :=
  match fuel with
  | O => Undef
  | S fuel =>
      if can_access_at_index b 0 then
        c ← at_offset b 0;
        if c <=? 32 then skip_loop (set_offset b (offset b + 1)) fuel else Ok b
      else Ok b
  end.

Definition buffer_skip_whitespace (b : parse_buffer) : res parse_buffer :=
  skip_loop b (S (Z.to_nat (buf_length b - offset b))).

Definition skip_utf8_bom (b : parse_buffer) : res parse_buffer :=
  if can_access_at_index b 2 then
    c0 ← rd (content b) 0;
    c1 ← rd (content b) 1;
    c2 ← rd (content b) 2;
    Ok (if (c0 =? 239) && (c1 =? 187) && (c2 =? 191) then set_offset b (offset b + 3) else b)
  else Ok b.

(** ** Strings *)

Fixpoint hex4_loop (s : list Z) (pos h : Z) (n : nat) : res Z :=
  match n with
  | O => Ok h
  | S n =>
      c ← rd s pos;
      if isdigit c then hex4_loop s (pos + 1) (Z.shiftl h 4 + (c - 48)) n
      else if (65 <=? c) && (c <=? 70) then hex4_loop s (pos + 1) (Z.shiftl h 4 + (c - 65 + 10)) n
      else if (97 <=? c) && (c <=? 102) then hex4_loop s (pos + 1) (Z.shiftl h 4 + (c - 97 + 10)) n
      else Ok 0
  end.

Definition parse_hex4 (s : list Z) (pos : Z) : res Z := hex4_loop s pos 0 4.

(** The loop that writes the octets after the first one, from the last on. *)
Fixpoint utf8_tail (out : list Z) (op codepoint : Z) (n : nat) : res (list Z * Z) :=
  match n with
  | O => Ok (out, codepoint)
  | S n' =>
      out ← wr out (op + Z.of_nat n) (Z.land (Z.lor codepoint 128) 191);
      utf8_tail out op (Z.shiftr codepoint 6) n'
  end.

Definition write_utf8 (out : list Z) (op codepoint : Z) : res (option (list Z * Z)) :=
  let put (n mark : Z) :=
    r ← utf8_tail out op codepoint (Z.to_nat (n - 1));
    out ← wr r.1 op (if 1 <? n then Z.land (Z.lor r.2 mark) 255 else Z.land r.2 127);
    Ok (Some (out, op + n)) in
  if codepoint <? 128 then put 1 0
  else if codepoint <? 2048 then put 2 192
  else if codepoint <? 65536 then put 3 224
  else if codepoint <=? 1114111 then put 4 240
  else Ok None.

(** [utf16_to_utf8] on the input from [ip] to [e]: the output block, the position
    in it and the length of the input sequence; [None] for the result 0. *)
Definition utf16_to_utf8 (s : list Z) (ip e : Z) (out : list Z) (op : Z)
  : res (option (list Z * Z * Z)) :=
  if e - ip <? 6 then Ok None
  else
    first_code ← parse_hex4 s (ip + 2);
    if (56320 <=? first_code) && (first_code <=? 57343) then Ok None
    else
      code ← (if (55296 <=? first_code) && (first_code <=? 56319) then
                if e - (ip + 6) <? 6 then Ok None
                else
                  c ← rd s (ip + 6);
                  if negb (c =? 92) then Ok None
                  else
                    d ← rd s (ip + 7);
                    if negb (d =? 117) then Ok None
                    else
                      second_code ← parse_hex4 s (ip + 8);
                      if (second_code <? 56320) || (57343 <? second_code) then Ok None
                      else Ok (Some (65536 + Z.lor (Z.shiftl (Z.land first_code 1023) 10) (Z.land second_code 1023), 12))
              else Ok (Some (first_code, 6)));
      match code with
      | None => Ok None
      | Some (codepoint, sequence_length) =>
          r ← write_utf8 out op codepoint;
          match r with
          | None => Ok None
          | Some (out, op) => Ok (Some (out, op, sequence_length))
          end
      end.

(** The first loop of [parse_string]: where the string ends, and the number of
    backslashes that begin an escape. *)
Fixpoint scan_loop (s : list Z) (len e skipped : Z) (fuel : nat) : res (option (Z * Z)) :=
  match fuel with
  | O => Undef
  | S fuel =>
      if negb (e <? len) then Ok None
      else
        c ← rd s e;
        if c =? 34 then Ok (Some (e, skipped))
        else if c =? 92 then
          if len <=? e + 1 then Ok None
          else scan_loop s len (e + 2) (skipped + 1) fuel
        else scan_loop s len (e + 1) skipped fuel
  end.

(** The second loop: the output block and the position in it. *)
Fixpoint unescape_loop (s : list Z) (ip e : Z) (out : list Z) (op : Z) (fuel : nat)
  : res (option (list Z * Z)) :=
  match fuel with
  | O => Undef
  | S fuel =>
      if negb (ip <? e) then Ok (Some (out, op))
      else
        c ← rd s ip;
        if negb (c =? 92) then
          out ← wr out op c;
          unescape_loop s (ip + 1) e out (op + 1) fuel
        else
          d ← rd s (ip + 1);
          let put v := (out ← wr out op v; unescape_loop s (ip + 2) e out (op + 1) fuel) in
          if d =? 98 then put 8
          else if d =? 102 then put 12
          else if d =? 110 then put 10
          else if d =? 114 then put 13
          else if d =? 116 then put 9
          else if (d =? 34) || (d =? 92) || (d =? 47) then put d
          else if d =? 117 then
            r ← utf16_to_utf8 s ip e out op;
            match r with
            | None => Ok None
            | Some (out, op, sequence_length) => unescape_loop s (ip + sequence_length) e out op fuel
            end
          else Ok None
  end.

(** [parse_string]: the block of the string and the buffer after it; [None] for
    the result 0. *)
Definition parse_string (b : parse_buffer) : res (option (list Z * parse_buffer)) :=
  c ← at_offset b 0;
  if negb (c =? 34) then Ok None
  else
    let start := offset b + 1 in
    r ← scan_loop (content b) (buf_length b) start 0 (S (Z.to_nat (buf_length b - start)));
    match r with
    | None => Ok None
    | Some (e, skipped) =>
        let allocation_length := e - offset b - skipped in
        r ← unescape_loop (content b) start e (gw_malloc (allocation_length + 1)) 0 (S (Z.to_nat (e - start)));
        match r with
        | None => Ok None
        | Some (out, op) =>
            out ← wr out op 0;
            Ok (Some (out, set_offset b (e + 1)))
        end
    end.

(** ** Numbers *)

(** [strtod] of a decimal text: the number and how many characters it takes (0:
    there was no number).  The number is [m * 10 ^ e10], rounded to the nearest
    binary64 number. *)
Definition to_double (neg : bool) (m : Z) (e10 : Z) : spec_float :=
  match m with
  | Zpos p =>
      if 0 <=? e10 then binary_normalize 53 1024 ((if neg then Z.opp else id) (m * 10 ^ e10)) 0 neg
      else SFdiv 53 1024 (S754_finite neg p 0) (S754_finite false (Z.to_pos (10 ^ (- e10))) 0)
  | _ => S754_zero neg
  end.

Definition strtod_exponent (l : list Z) : Z * Z :=
  match l with
  | c :: l' =>
      if (c =? 101) || (c =? 69) then
        let '(neg, l'', n) := strtol_sign l' 1 in
        let '(v, k) := strtol_digits 10 0 0 l'' in
        if k =? 0 then (0, 0) else (if neg then - v else v, n + k)
      else (0, 0)
  | [] => (0, 0)
  end.

Definition strtod (s : list Z) : spec_float * Z :=
  let '(neg, l, n) := strtol_sign s 0 in
  let '(v, k) := strtol_digits 10 0 0 l in
  let l := drop (Z.to_nat k) l in
  let '(v, k2, dot) :=
    if default 0 (head l) =? 46 then let '(v, k2) := strtol_digits 10 v 0 (drop 1 l) in (v, k2, 1)
    else (v, 0, 0) in
  if k + k2 =? 0 then (S754_zero false, 0)
  else
    let '(e, ke) := strtod_exponent (drop (Z.to_nat (dot + k2)) l) in
    (to_double neg v (e - k2), n + k + dot + k2 + ke).

(** Comparison of a [double] with an integer, and its conversion to one. *)
Definition double_ge (d : spec_float) (n : Z) : bool :=
  match d with
  | S754_zero _ => n <=? 0
  | S754_infinity s => negb s
  | S754_nan => false
  | S754_finite s m e =>
      let v := if s then Zneg m else Zpos m in
      if 0 <=? e then n <=? v * 2 ^ e else n * 2 ^ (- e) <=? v
  end.

Definition double_le (d : spec_float) (n : Z) : bool :=
  match d with
  | S754_zero _ => 0 <=? n
  | S754_infinity s => s
  | S754_nan => false
  | S754_finite s m e =>
      let v := if s then Zneg m else Zpos m in
      if 0 <=? e then v * 2 ^ e <=? n else v <=? n * 2 ^ (- e)
  end.

Definition double_to_int (d : spec_float) : Z :=
  match d with
  | S754_finite s m e =>
      let v := if s then Zneg m else Zpos m in
      if 0 <=? e then v * 2 ^ e else Z.quot v (2 ^ (- e))
  | _ => 0
  end.

Definition is_number_char (c : Z) : bool :=
  isdigit c || (c =? 43) || (c =? 45) || (c =? 101) || (c =? 69) || (c =? 46).

Fixpoint number_loop (b : parse_buffer) (i : Z) (fuel : nat) : res Z :=
  match fuel with
  | O => Undef
  | S fuel =>
      if can_access_at_index b i then
        c ← at_offset b i;
        if is_number_char c then number_loop b (i + 1) fuel else Ok i
      else Ok i
  end.

Definition INT_MAX32 : Z := 2 ^ 31 - 1.
Definition INT_MIN32 : Z := - 2 ^ 31.

Definition parse_number (item : JSON) (b : parse_buffer) : res (option (JSON * parse_buffer)) :=
  n ← number_loop b 0 (S (Z.to_nat (buf_length b - offset b)));
  out ← mem_copy (gw_malloc (n + 1)) 0 (content b) (offset b) n;
  out ← wr out n 0;
  let '(number, used) := strtod (cstr out) in
  if used =? 0 then Ok None
  else
    let v := if double_ge number INT_MAX32 then INT_MAX32
             else if double_le number INT_MIN32 then INT_MIN32
             else double_to_int number in
    Ok (Some (set_jnumber item number v, set_offset b (offset b + used))).

(** ** Values *)

(** [can_read] and [strncmp] with a literal. *)
Definition reads (b : parse_buffer) (lit : list Z) : res bool :=
  if can_read b (zlen lit) then
    if readable (content b) (offset b) (zlen lit)
    then Ok (bool_decide (slice (content b) (offset b) (zlen lit) = lit)) else Undef
  else Ok false.

(** Whether the next character is [c]. *)
Definition next_is (b : parse_buffer) (c : Z) : res bool :=
  if can_access_at_index b 0 then d ← at_offset b 0; Ok (d =? c) else Ok false.

Definition NULL_TEXT : list Z := [110; 117; 108; 108].
Definition FALSE_TEXT : list Z := [102; 97; 108; 115; 101].
Definition TRUE_TEXT : list Z := [116; 114; 117; 101].

Fixpoint parse_value (fuel : nat) (item : JSON) (b : parse_buffer) {struct fuel}
  : res (option (JSON * parse_buffer)) :=
  match fuel with
  | O => Undef
  | S fuel =>
      r ← reads b NULL_TEXT;
      if r : bool then Ok (Some (set_jtype item JSON_NULL, set_offset b (offset b + 4)))
      else
        r ← reads b FALSE_TEXT;
        if r : bool then Ok (Some (set_jtype item JSON_FALSE, set_offset b (offset b + 5)))
        else
          r ← reads b TRUE_TEXT;
          if r : bool then Ok (Some (set_jint (set_jtype item JSON_TRUE) 1, set_offset b (offset b + 4)))
          else if negb (can_access_at_index b 0) then Ok None
          else
            c ← at_offset b 0;
            if c =? 34 then
              r ← parse_string b;
              match r with
              | None => Ok None
              | Some (s, b) => Ok (Some (set_jstring item s, b))
              end
            else if (c =? 45) || isdigit c then parse_number item b
            else if c =? 91 then parse_array fuel item b
            else if c =? 123 then parse_object fuel item b
            else Ok None
  end
with parse_array (fuel : nat) (item : JSON) (b : parse_buffer) {struct fuel}
  : res (option (JSON * parse_buffer)) :=
  match fuel with
  | O => Undef
  | S fuel =>
      if JSON_NESTING_LIMIT <=? depth b then Ok None
      else
        let b := set_depth b (depth b + 1) in
        c ← at_offset b 0;
        if negb (c =? 91) then Ok None
        else
          b ← buffer_skip_whitespace (set_offset b (offset b + 1));
          e ← next_is b 93;
          if e : bool then
            Ok (Some (set_jchild item JSON_ARRAY [], set_offset (set_depth b (depth b - 1)) (offset b + 1)))
          else if negb (can_access_at_index b 0) then Ok None
          else
            r ← parse_elements fuel (set_offset b (offset b - 1));
            match r with
            | None => Ok None
            | Some (js, b) =>
                e ← next_is b 93;
                if negb e then Ok None
                else Ok (Some (set_jchild item JSON_ARRAY js, set_offset (set_depth b (depth b - 1)) (offset b + 1)))
            end
  end
with parse_elements (fuel : nat) (b : parse_buffer) {struct fuel}
  : res (option (list JSON * parse_buffer)) :=
  match fuel with
  | O => Undef
  | S fuel =>
      b ← buffer_skip_whitespace (set_offset b (offset b + 1));
      r ← parse_value fuel json_new_item b;
      match r with
      | None => Ok None
      | Some (j, b) =>
          b ← buffer_skip_whitespace b;
          more ← next_is b 44;
          if more : bool then
            r ← parse_elements fuel b;
            match r with
            | None => Ok None
            | Some (js, b) => Ok (Some (j :: js, b))
            end
          else Ok (Some ([j], b))
      end
  end
with parse_object (fuel : nat) (item : JSON) (b : parse_buffer) {struct fuel}
  : res (option (JSON * parse_buffer)) :=
  match fuel with
  | O => Undef
  | S fuel =>
      if JSON_NESTING_LIMIT <=? depth b then Ok None
      else
        let b := set_depth b (depth b + 1) in
        c ← next_is b 123;
        if negb c then Ok None
        else
          b ← buffer_skip_whitespace (set_offset b (offset b + 1));
          e ← next_is b 125;
          if e : bool then
            Ok (Some (set_jchild item JSON_OBJECT [], set_offset (set_depth b (depth b - 1)) (offset b + 1)))
          else if negb (can_access_at_index b 0) then Ok None
          else
            r ← parse_members fuel (set_offset b (offset b - 1));
            match r with
            | None => Ok None
            | Some (js, b) =>
                e ← next_is b 125;
                if negb e then Ok None
                else Ok (Some (set_jchild item JSON_OBJECT js, set_offset (set_depth b (depth b - 1)) (offset b + 1)))
            end
  end
with parse_members (fuel : nat) (b : parse_buffer) {struct fuel}
  : res (option (list JSON * parse_buffer)) :=
  match fuel with
  | O => Undef
  | S fuel =>
      if negb (can_access_at_index b 1) then Ok None
      else
        b ← buffer_skip_whitespace (set_offset b (offset b + 1));
        r ← parse_string b;
        match r with
        | None => Ok None
        | Some (k, b) =>
            let item := set_jkey (set_jstring json_new_item k) in
            b ← buffer_skip_whitespace b;
            colon ← next_is b 58;
            if negb colon then Ok None
            else
              b ← buffer_skip_whitespace (set_offset b (offset b + 1));
              r ← parse_value fuel item b;
              match r with
              | None => Ok None
              | Some (j, b) =>
                  b ← buffer_skip_whitespace b;
                  more ← next_is b 44;
                  if more : bool then
                    r ← parse_members fuel b;
                    match r with
                    | None => Ok None
                    | Some (js, b) => Ok (Some (j :: js, b))
                    end
                  else Ok (Some ([j], b))
              end
        end
  end.

(** [json_parse_cstr]; every step into a value and every round of a loop moves the
    offset. *)
Definition json_parse_cstr (json : list Z) (len : Z) : res (option JSON) :=
  if len =? 0 then Ok None
  else
    b ← skip_utf8_bom (mkBuffer json len 0 0);
    b ← buffer_skip_whitespace b;
    r ← parse_value (S (S (S (3 * Z.to_nat len)))) json_new_item b;
    Ok (option_map fst r).

Definition json_parse (json : option Octstr) : res (option JSON) :=
  match json with
  | None => Ok None
  | Some o => json_parse_cstr (os_data o) (os_len o)
  end.

(** ** Access

    A NULL pointer is [None]. *)

Definition json_type (j : option JSON) : Z :=
  match j with None => JSON_INVALID | Some j => jtype j end.

Definition has_type (j : option JSON) (t : Z) : bool :=
  match j with None => false | Some j => jtype j =? t end.

Definition json_is_object (j : option JSON) : bool := has_type j JSON_OBJECT.
Definition json_is_array (j : option JSON) : bool := has_type j JSON_ARRAY.
Definition json_is_string (j : option JSON) : bool := has_type j JSON_STRING.
Definition json_is_number (j : option JSON) : bool := has_type j JSON_NUMBER.
Definition json_is_bool (j : option JSON) : bool := has_type j JSON_TRUE || has_type j JSON_FALSE.
Definition json_is_null (j : option JSON) : bool := has_type j JSON_NULL.

(** [strcasecmp(a, b) == 0]. *)
Definition strcasecmp_eq (a b : list Z) : bool := bool_decide (tolower <$> a = tolower <$> b).

Fixpoint get_loop (js : list JSON) (key : list Z) : option JSON :=
  match js with
  | [] => None
  | j :: js =>
      match string j with
      | Some s => if strcasecmp_eq key (cstr s) then Some j else get_loop js key
      | None => get_loop js key
      end
  end.

Definition json_get (j : option JSON) (key : list Z) : option JSON :=
  match j with
  | None => None
  | Some j => if jtype j =? JSON_OBJECT then get_loop (child j) key else None
  end.

Definition json_value_string (j : option JSON) : res (option Octstr) :=
  match j with
  | None => Ok None
  | Some j =>
      match valuestring j with
      | Some s => if jtype j =? JSON_STRING then o ← octstr_create (cstr s); Ok (Some o) else Ok None
      | None => Ok None
      end
  end.

Definition json_get_string (j : option JSON) (key : list Z) : res (option Octstr) :=
  json_value_string (json_get j key).

Definition json_get_integer (j : option JSON) (key : list Z) (default_val : Z) : Z :=
  match json_get j key with
  | None => default_val
  | Some j => if jtype j =? JSON_NUMBER then valueint j else default_val
  end.

Definition json_get_double (j : option JSON) (key : list Z) (default_val : spec_float) : spec_float :=
  match json_get j key with
  | None => default_val
  | Some j => if jtype j =? JSON_NUMBER then valuedouble j else default_val
  end.

Definition json_get_bool (j : option JSON) (key : list Z) : Z :=
  match json_get j key with
  | None => -1
  | Some j => if jtype j =? JSON_TRUE then 1 else if jtype j =? JSON_FALSE then 0 else -1
  end.

Definition json_value_integer (j : option JSON) : Z :=
  match j with
  | None => 0
  | Some j => if jtype j =? JSON_NUMBER then valueint j else 0
  end.

Definition json_value_double (j : option JSON) : spec_float :=
  match j with
  | None => S754_zero false
  | Some j => if jtype j =? JSON_NUMBER then valuedouble j else S754_zero false
  end.

Definition json_value_bool (j : option JSON) : Z :=
  match j with
  | None => 0
  | Some j => if jtype j =? JSON_TRUE then 1 else 0
  end.

Definition json_array_size (j : option JSON) : Z :=
  match j with
  | None => 0
  | Some j => if jtype j =? JSON_ARRAY then zlen (child j) else 0
  end.

Fixpoint array_get_loop (js : list JSON) (index : Z) : option JSON :=
  match js with
  | [] => None
  | j :: js => if 0 <? index then array_get_loop js (index - 1) else Some j
  end.

Definition json_array_get (j : option JSON) (index : Z) : option JSON :=
  match j with
  | None => None
  | Some j => if (jtype j =? JSON_ARRAY) && (0 <=? index) then array_get_loop (child j) index else None
  end.

(** ** Writing *)

Section writing.
Context `{!Printf}.

Fixpoint escape_loop (str result : Octstr) (i : Z) (n : nat) : res Octstr :=
  match n with
  | O => Ok result
  | S n =>
      c ← octstr_get_char str i;
      result ←
        (if c =? 34 then octstr_append_cstr result [92; 34]
         else if c =? 92 then octstr_append_cstr result [92; 92]
         else if c =? 8 then octstr_append_cstr result [92; 98]
         else if c =? 12 then octstr_append_cstr result [92; 102]
         else if c =? 10 then octstr_append_cstr result [92; 110]
         else if c =? 13 then octstr_append_cstr result [92; 114]
         else if c =? 9 then octstr_append_cstr result [92; 116]
         else if c <? 32 then octstr_format_append result [92; 117; 37; 48; 52; 120] [AInt c]
         else octstr_append_char result c);
      escape_loop str result (i + 1) n
  end.

Definition json_escape_string (str : option Octstr) : res Octstr :=
  match str with
  | None => octstr_create []
  | Some str =>
      result ← octstr_create [];
      len ← octstr_len (Some str);
      escape_loop str result 0 (Z.to_nat len)
  end.

(** A letter of the format of [json_object] with its argument. *)
Inductive json_arg :=
| Js (o : option Octstr)
| JS (s : option (list Z))
| Ji (n : Z)
| Jd (x : double)
| Jb (n : Z)
| Jn.

Definition append_quoted (result : Octstr) (val : Octstr) : res Octstr :=
  escaped ← json_escape_string (Some val);
  octstr_format_append result [34; 37; 83; 34] [AOct (Some escaped)].

Definition append_arg (result : Octstr) (a : json_arg) : res Octstr :=
  match a with
  | Js (Some val) => append_quoted result val
  | JS (Some val) => tmp ← octstr_create val; append_quoted result tmp
  | Js None | JS None | Jn => octstr_append_cstr result NULL_TEXT
  | Ji val => octstr_format_append result [37; 108; 100] [AInt val]
  | Jd val => octstr_format_append result [37; 103] [ADouble val]
  | Jb val => octstr_append_cstr result (if val =? 0 then FALSE_TEXT else TRUE_TEXT)
  end.

Fixpoint object_loop (result : Octstr) (first : bool) (args : list (list Z * json_arg)) : res Octstr :=
  match args with
  | [] => Ok result
  | (key, a) :: args =>
      result ← (if first then Ok result else octstr_append_char result 44);
      result ← octstr_format_append result [34; 37; 115; 34; 58] [AStr key];
      result ← append_arg result a;
      object_loop result false args
  end.

(** [json_object]: the keys and values are the arguments, the letters of the
    format being given by the constructors. *)
Definition json_object (args : list (list Z * json_arg)) : res Octstr :=
  result ← octstr_create [123];
  result ← object_loop result true args;
  octstr_append_char result 125.

Definition json_response (key1 : list Z) (val1 : Z) (kv2 : option (list Z) * option (list Z)) : res Octstr :=
  result ← octstr_create [123];
  result ← octstr_format_append result [34; 37; 115; 34; 58; 37; 108; 100] [AStr key1; AInt val1];
  result ← match kv2 with
           | (Some key2, Some val2) =>
               tmp ← octstr_create val2;
               escaped ← json_escape_string (Some tmp);
               octstr_format_append result [44; 34; 37; 115; 34; 58; 34; 37; 83; 34] [AStr key2; AOct (Some escaped)]
           | _ => Ok result
           end;
  octstr_append_char result 125.
End writing.

