(* ===== verification/JsonSafe.v ===== *)
(** * The JSON parser is safe

    [json_parse] (Json.v) returns on every text: no access leaves the block of the
    text, the block allocated for a string is large enough for what is written to
    it, and the recursion ends.  The argument for the block of a string is a count
    of the backslashes: the loop that sizes the block and the loop that fills it
    can disagree on which backslash begins an escape. *)

From Stdlib Require Import SpecFloat.
From S2P Require Import Prelude Octstr OctstrCode OctstrFormat Json.

(** ** Texts and buffers

    A text of [len] octets can be read up to the NUL after it. *)
Definition text_ok (s : list Z) (len : Z) : Prop :=
  forall i, 0 <= i <= len -> exists v, rd s i = Ok v /\ octet v.

Definition binv (b : parse_buffer) : Prop :=
  0 <= offset b <= buf_length b /\ text_ok (content b) (buf_length b).

(** [b'] is [b] with the offset at least [k] further. *)
Definition moved (k : Z) (b b' : parse_buffer) : Prop :=
  content b' = content b /\ buf_length b' = buf_length b /\ offset b + k <= offset b' <= buf_length b.

Definition moved_opt {A} (k : Z) (b : parse_buffer) (r : option (A * parse_buffer)) : Prop :=
  match r with None => True | Some (_, b') => moved k b b' end.

Lemma moved_binv k b b' : 0 <= k -> binv b -> moved k b b' -> binv b'.
Proof. intros Hk [Ho Ht] (E1 & E2 & Hm). split; [rewrite E2; lia|by rewrite E1, E2]. Qed.

Ltac get_binv M H :=
  match type of M with
  | moved ?k ?b ?b' => assert (binv b') as H by (apply (moved_binv k b b'); [lia|assumption|exact M])
  end.

Lemma moved_trans k k' b b1 b2 : moved k b b1 -> moved k' b1 b2 -> moved (k + k') b b2.
Proof. unfold moved. intros (E1 & E2 & H1) (E3 & E4 & H2). split_and!; congruence || lia. Qed.

Lemma moved_le k k' b b' : k' <= k -> moved k b b' -> moved k' b b'.
Proof. unfold moved. intros ? (-> & -> & ?). split_and!; done || lia. Qed.

Lemma at_offset_ok b i :
  binv b -> 0 <= offset b + i <= buf_length b -> exists c, at_offset b i = Ok c /\ octet c.
Proof. intros [_ Ht] Hi. by apply Ht. Qed.

Lemma skip_loop_ok fuel b :
  binv b -> buf_length b - offset b < Z.of_nat fuel -> returns (skip_loop b fuel) (moved 0 b).
Proof.
  revert b. induction fuel as [|fuel IH]; intros b Hb Hf; [destruct Hb; lia|].
  cbn [skip_loop]. unfold can_access_at_index. destruct (Z.ltb_spec (offset b + 0) (buf_length b)) as [Hlt|Hge].
  - destruct (at_offset_ok b 0 Hb) as (c & -> & _); [destruct Hb; lia|]. bind_red.
    destruct (c <=? 32).
    + eapply returns_mono; [apply IH|].
      * destruct Hb as [? Ht]. split; cbn; [lia|done].
      * cbn. lia.
      * unfold moved. cbn. intros b' (? & ? & ?). split_and!; done || lia.
    + unfold moved. cbn. destruct Hb. split_and!; done || lia.
  - unfold moved. cbn. destruct Hb. split_and!; done || lia.
Qed.

Lemma skip_whitespace_ok b : binv b -> returns (buffer_skip_whitespace b) (moved 0 b).
Proof. intros Hb. apply skip_loop_ok; [done|]. destruct Hb. lia. Qed.

Lemma next_is_ok b c : binv b -> returns (next_is b c) (fun r => r = true -> offset b < buf_length b).
Proof.
  intros Hb. unfold next_is, can_access_at_index. destruct (Z.ltb_spec (offset b + 0) (buf_length b)); [|done].
  destruct (at_offset_ok b 0 Hb) as (d & -> & _); [destruct Hb; lia|]. cbn. lia.
Qed.

Lemma reads_ok b lit : binv b -> returns (reads b lit) (fun r => r = true -> offset b + zlen lit <= buf_length b).
Proof.
  intros [Ho Ht]. unfold reads, can_read. destruct (Z.leb_spec (offset b + zlen lit) (buf_length b)); [|done].
  assert (readable (content b) (offset b) (zlen lit) = true) as ->; [|cbn; intros _; exact H].
  unfold readable. apply andb_true_iff. pose proof (zlen_nonneg lit). split.
  - apply in_block_true; [lia..|]. destruct (Ht (buf_length b)) as (v & Hv & _); [lia|].
    apply rd_ok in Hv as (_ & Hv%lookup_lt_Some & _). unfold zlen in *. lia.
  - apply forallb_forall. intros x Hx. apply list_elem_of_In, list_elem_of_lookup in Hx as [i Hi].
    unfold slice in Hi. apply lookup_take_Some in Hi as [Hi Hil]. rewrite lookup_drop in Hi.
    destruct (Ht (offset b + Z.of_nat i)) as (v & Hv & [? _]); [lia|].
    apply rd_ok in Hv as (_ & Hv & _).
    replace (Z.to_nat (offset b + Z.of_nat i)) with (Z.to_nat (offset b) + i)%nat in Hv by lia.
    rewrite Hi in Hv. injection Hv as <-. lia.
Qed.

(** The backslashes that the first loop of [parse_string] counts: [f i] of them
    begin an escape at or after [i]. *)
Record scanned (s : list Z) (f : Z -> Z) (e e' : Z) : Prop := {
  sc_end : forall i, e' - 1 <= i -> f i = 0;
  sc_nonneg : forall i, e <= i -> 0 <= f i;
  sc_half : forall i, e <= i <= e' -> 2 * f i <= e' - i;
  sc_one : forall i, e <= i -> f i <= f (i + 1) + 1;
  sc_two : forall i, e <= i -> f i <= f (i + 2) + 1;
  sc_plain : forall i v, e <= i < e' -> rd s i = Ok v -> v <> 92 -> f i = f (i + 1)
}.

(** Extending it over an octet, and over an escape. *)
Lemma scanned_plain s f p e' v :
  scanned s f (p + 1) e' -> p < e' -> rd s p = Ok v -> v <> 92 ->
  scanned s (fun i => if i =? p then f (p + 1) else f i) p e'.
Proof.
  intros [H1 H2 H3 Ho H4 H5] Hp Hv Hne. split.
  - intros i Hi. destruct (Z.eqb_spec i p) as [->|]; apply H1; lia.
  - intros i Hi. destruct (Z.eqb_spec i p) as [->|]; apply H2; lia.
  - intros i Hi. destruct (Z.eqb_spec i p) as [->|]; [pose proof (H3 (p + 1)); lia|apply H3; lia].
  - intros i Hi. destruct (Z.eqb_spec (i + 1) p); [lia|]. destruct (Z.eqb_spec i p) as [->|]; [lia|apply Ho; lia].
  - intros i Hi. destruct (Z.eqb_spec (i + 2) p); [lia|]. destruct (Z.eqb_spec i p) as [->|]; [|apply H4; lia].
    replace (p + 2) with (p + 1 + 1) by lia. apply Ho. lia.
  - intros i w Hi Hw Hw92. destruct (Z.eqb_spec (i + 1) p); [lia|].
    destruct (Z.eqb_spec i p) as [->|]; [done|]. eapply H5; eauto. lia.
Qed.

Lemma scanned_escape s f p e' :
  scanned s f (p + 2) e' -> p + 2 <= e' -> rd s p = Ok 92 ->
  scanned s (fun i => if i =? p then f (p + 2) + 1 else if i =? p + 1 then f (p + 2) else f i) p e'.
Proof.
  intros [H1 H2 H3 Ho H4 H5] Hp Hv. split.
  - intros i Hi. destruct (Z.eqb_spec i p); [lia|]. destruct (Z.eqb_spec i (p + 1)); apply H1; lia.
  - intros i Hi. pose proof (H2 (p + 2) ltac:(lia)). destruct (Z.eqb_spec i p); [lia|].
    destruct (Z.eqb_spec i (p + 1)); [lia|apply H2; lia].
  - intros i Hi. pose proof (H3 (p + 2) ltac:(lia)). destruct (Z.eqb_spec i p); [lia|].
    destruct (Z.eqb_spec i (p + 1)); [lia|apply H3; lia].
  - intros i Hi. destruct (Z.eqb_spec (i + 1) p); [lia|]. destruct (Z.eqb_spec i p) as [->|].
    + rewrite Z.eqb_refl. lia.
    + destruct (Z.eqb_spec (i + 1) (p + 1)); [lia|]. destruct (Z.eqb_spec i (p + 1)) as [->|]; [|apply Ho; lia].
      replace (p + 1 + 1) with (p + 2) by lia. lia.
  - intros i Hi. destruct (Z.eqb_spec (i + 2) p); [lia|]. destruct (Z.eqb_spec (i + 2) (p + 1)); [lia|].
    destruct (Z.eqb_spec i p) as [->|]; [lia|]. destruct (Z.eqb_spec i (p + 1)) as [->|]; [|apply H4; lia].
    replace (p + 1 + 2) with (p + 2 + 1) by lia. apply Ho. lia.
  - intros i w Hi Hw Hw92. destruct (Z.eqb_spec (i + 1) p); [lia|].
    destruct (Z.eqb_spec i p) as [->|]; [rewrite Hv in Hw; naive_solver|].
    destruct (Z.eqb_spec (i + 1) (p + 1)); [lia|].
    destruct (Z.eqb_spec i (p + 1)) as [->|]; [f_equal; lia|]. eapply H5; eauto. lia.
Qed.

Lemma scan_loop_ok fuel s len e skipped :
  text_ok s len -> 0 <= e <= len -> len - e < Z.of_nat fuel ->
  returns (scan_loop s len e skipped fuel) (fun r =>
    match r with
    | None => True
    | Some (e', skipped') => e <= e' < len /\ exists f, scanned s f e e' /\ skipped' = skipped + f e
    end).
Proof.
  intros Ht. revert e skipped. induction fuel as [|fuel IH]; intros e skipped He Hf; cbn [scan_loop].
  { lia. }
  destruct (Z.ltb_spec e len) as [Hlt|Hge]; cbn [negb]; [|done].
  destruct (Ht e) as (c & Hc & _); [lia|]. rewrite Hc. bind_red.
  destruct (Z.eqb_spec c 34) as [->|Hq].
  { cbn. split; [lia|]. exists (fun _ => 0). split; [split; intros; lia|lia]. }
  destruct (Z.eqb_spec c 92) as [->|Hb].
  - destruct (Z.leb_spec len (e + 1)); [done|].
    eapply returns_mono; [apply IH; lia|]. intros [[e' sk]|]; [|done]. intros (He' & f & Hf' & ->).
    split; [lia|]. eexists. split; [by apply scanned_escape; [done|lia|]|]. cbn. rewrite Z.eqb_refl. lia.
  - eapply returns_mono; [apply IH; lia|]. intros [[e' sk]|]; [|done]. intros (He' & f & Hf' & ->).
    split; [lia|]. eexists. split; [by eapply scanned_plain; [|lia|..]|]. cbn. rewrite Z.eqb_refl. lia.
Qed.

(** The code units and code points. *)
Lemma hex4_loop_ok s len n pos h :
  text_ok s len -> 0 <= pos -> pos + Z.of_nat n <= len + 1 -> 0 <= h ->
  returns (hex4_loop s pos h n) (fun v => 0 <= v < (h + 1) * 16 ^ Z.of_nat n).
Proof.
  intros Ht. revert pos h. induction n as [|n IH]; intros pos h Hp Hl Hh; cbn [hex4_loop]; [cbn; lia|].
  destruct (Ht pos) as (c & -> & _); [lia|]. bind_red.
  assert (Hrec : forall d, 0 <= d < 16 ->
    returns (hex4_loop s (pos + 1) (Z.shiftl h 4 + d) n) (fun v => 0 <= v < (h + 1) * 16 ^ Z.of_nat (S n))).
  { intros d Hd. rewrite Z.shiftl_mul_pow2 by lia. change (2 ^ 4) with 16.
    eapply returns_mono; [apply IH; lia|]. cbn beta. intros v Hv.
    rewrite Nat2Z.inj_succ, Z.pow_succ_r by lia. nia. }
  unfold isdigit. destruct ((48 <=? c) && (c <=? 57)) eqn:E1; [apply Hrec; lia|].
  destruct ((65 <=? c) && (c <=? 70)) eqn:E2; [apply Hrec; lia|].
  destruct ((97 <=? c) && (c <=? 102)) eqn:E3; [apply Hrec; lia|].
  cbn. assert (0 < 16 ^ Z.of_nat (S n)) by (apply Z.pow_pos_nonneg; lia). cbn in *. nia.
Qed.

Lemma parse_hex4_ok s len pos :
  text_ok s len -> 0 <= pos -> pos + 3 <= len -> returns (parse_hex4 s pos) (fun v => 0 <= v < 65536).
Proof. intros. eapply returns_mono; [apply (hex4_loop_ok s len); [done..|lia|lia]|]. cbn. lia. Qed.

Lemma utf8_tail_ok n out op cp :
  0 <= op -> op + Z.of_nat n < zlen out ->
  returns (utf8_tail out op cp n) (fun r => zlen r.1 = zlen out).
Proof.
  revert out cp. induction n as [|n IH]; intros out cp Hop Hl; cbn [utf8_tail]; [done|].
  apply returns_wr; [lia|]. eapply returns_mono; [apply IH; list_lia|]. cbn beta. intros r ->. list_lia.
Qed.

Lemma write_utf8_ok out op cp :
  0 <= op -> op + (if cp <? 65536 then 3 else 4) <= zlen out ->
  returns (write_utf8 out op cp) (fun r =>
    match r with
    | None => True
    | Some (out', op') => zlen out' = zlen out /\ op < op' <= op + (if cp <? 65536 then 3 else 4)
    end).
Proof.
  intros Hop Hl. unfold write_utf8.
  assert (Hput : forall n mark, 1 <= n -> op + n <= zlen out ->
    returns (r ← utf8_tail out op cp (Z.to_nat (n - 1));
             out ← wr r.1 op (if 1 <? n then Z.land (Z.lor r.2 mark) 255 else Z.land r.2 127);
             Ok (Some (out, op + n)))
      (fun r => match r with None => True | Some (out', op') => zlen out' = zlen out /\ op' = op + n end)).
  { intros n mark Hn Hc. eapply returns_seq; [apply utf8_tail_ok; lia|]. intros r Er. cbn beta in Er.
    apply returns_wr; [lia|]. cbn. split; [list_lia|done]. }
  destruct (Z.ltb_spec cp 128); [|destruct (Z.ltb_spec cp 2048); [|destruct (Z.ltb_spec cp 65536);
    [|destruct (Z.leb_spec cp 1114111); [|done]]]];
    (eapply returns_mono; [apply Hput; destruct (Z.ltb_spec cp 65536); lia|]);
    (intros [[out' op']|]; [|done]); intros [-> ->]; (split; [done|]); destruct (Z.ltb_spec cp 65536); lia.
Qed.

Lemma utf16_to_utf8_ok s len ip e out op :
  text_ok s len -> 0 <= ip -> e <= len -> 0 <= op ->
  (6 <= e - ip -> op + 3 <= zlen out) -> (12 <= e - ip -> op + 4 <= zlen out) ->
  returns (utf16_to_utf8 s ip e out op) (fun r =>
    match r with
    | None => True
    | Some (out', op', n) => zlen out' = zlen out /\ op < op' /\
        (n = 6 /\ op' <= op + 3 \/ n = 12 /\ op' <= op + 4) /\ n <= e - ip
    end).
Proof.
  intros Ht Hip He Hop H6 H12. unfold utf16_to_utf8. destruct (Z.ltb_spec (e - ip) 6) as [|Hge]; [done|].
  eapply returns_seq; [eapply parse_hex4_ok; [done|lia|lia]|]. intros first Hfirst. cbn beta in Hfirst.
  destruct (_ && _); [done|].
  eapply (returns_seq _ _ (fun code => match code with
    | None => True
    | Some (cp, n) => n = 6 /\ 0 <= cp < 65536 \/ n = 12 /\ 65536 <= cp /\ 12 <= e - ip end)).
  - destruct (_ && _); [|cbn; left; lia]. destruct (Z.ltb_spec (e - (ip + 6)) 6); [done|].
    destruct (Ht (ip + 6)) as (c & -> & _); [lia|]. bind_red. destruct (negb (c =? 92)); [done|].
    destruct (Ht (ip + 7)) as (d & -> & _); [lia|]. bind_red. destruct (negb (d =? 117)); [done|].
    eapply returns_seq; [eapply parse_hex4_ok; [done|lia|lia]|]. intros second _.
    destruct (_ || _); [done|]. cbn. right. split_and!; [done| |lia].
    assert (0 <= Z.lor (Z.shiftl (Z.land first 1023) 10) (Z.land second 1023)); [|lia].
    apply Z.lor_nonneg. rewrite Z.shiftl_nonneg, !Z.land_nonneg. lia.
  - intros [[cp n]|] Hcode; [|done].
    eapply returns_seq; [apply write_utf8_ok; [done|]|].
    + destruct (Z.ltb_spec cp 65536); lia.
    + intros [[out' op']|]; [|done]. intros [El Ho]. cbn. split_and!; try done; [lia| |lia].
      destruct (Z.ltb_spec cp 65536); lia.
Qed.

Lemma scanned_six s f e e' i : scanned s f e e' -> e <= i -> f i <= f (i + 6) + 3.
Proof.
  intros H Hi. pose proof (sc_two _ _ _ _ H i Hi). pose proof (sc_two _ _ _ _ H (i + 2) ltac:(lia)).
  pose proof (sc_two _ _ _ _ H (i + 4) ltac:(lia)).
  replace (i + 2 + 2) with (i + 4) in * by lia. replace (i + 4 + 2) with (i + 6) in * by lia. lia.
Qed.

(** The block that was allocated is large enough for what the second loop writes. *)
Lemma unescape_loop_ok fuel s len f e0 e ip out op :
  text_ok s len -> 0 <= e0 -> e < len -> scanned s f e0 e -> e0 <= ip -> Z.max 0 (e - ip) < Z.of_nat fuel -> 0 <= op ->
  op + Z.max 0 (e - ip) - f ip + 1 <= zlen out ->
  returns (unescape_loop s ip e out op fuel) (fun r =>
    match r with None => True | Some (out', op') => 0 <= op' < zlen out' end).
Proof.
  intros Ht He0 He Hsc. revert ip out op.
  induction fuel as [|fuel IH]; intros ip out op Hip Hf Hop Hcap; cbn [unescape_loop].
  { lia. }
  destruct (Z.ltb_spec ip e) as [Hlt|Hge]; cbn [negb].
  2:{ cbn. rewrite (sc_end _ _ _ _ Hsc ip) in Hcap by lia. lia. }
  pose proof (sc_half _ _ _ _ Hsc ip ltac:(lia)) as Hh. pose proof (sc_nonneg _ _ _ _ Hsc ip Hip) as Hn.
  destruct (Ht ip) as (c & Hc & _); [lia|]. rewrite Hc. bind_red.
  destruct (Z.eqb_spec c 92) as [->|Hne]; cbn [negb].
  - destruct (Ht (ip + 1)) as (d & -> & _); [lia|]. bind_red. cbn zeta.
    assert (Hput : forall v, returns (out ← wr out op v; unescape_loop s (ip + 2) e out (op + 1) fuel) (fun r =>
      match r with None => True | Some (out', op') => 0 <= op' < zlen out' end)).
    { intros v. apply returns_wr; [lia|]. apply IH; [lia..|].
      pose proof (sc_two _ _ _ _ Hsc ip Hip). destruct (decide (ip + 2 <= e)); [list_lia|].
      rewrite (sc_end _ _ _ _ Hsc ip) in Hcap by lia. rewrite (sc_end _ _ _ _ Hsc (ip + 2)) by lia. list_lia. }
    repeat (destruct (_ =? _); [by apply Hput|]). destruct (_ || _); [by apply Hput|].
    destruct (d =? 117); [|done].
    eapply returns_seq; [apply (utf16_to_utf8_ok s len); try done; lia|].
    intros [[[out' op'] n]|]; [|done]. intros (El & Ho & Hn6 & Hle).
    apply IH; [lia..|]. rewrite El. pose proof (scanned_six _ _ _ _ ip Hsc Hip).
    pose proof (scanned_six _ _ _ _ (ip + 6) Hsc ltac:(lia)). replace (ip + 6 + 6) with (ip + 12) in * by lia.
    destruct Hn6 as [[-> ?]|[-> ?]]; lia.
  - apply returns_wr; [lia|]. apply IH; [lia..|].
    rewrite (sc_plain _ _ _ _ Hsc ip c) in Hcap by (done || lia). list_lia.
Qed.

Lemma zlen_gw_malloc n : 0 <= n -> zlen (gw_malloc n) = n.
Proof. intros. unfold gw_malloc. list_lia. Qed.

Lemma json_parse_string_ok b : binv b -> returns (parse_string b) (moved_opt 1 b).
Proof.
  intros Hb. pose proof Hb as [Ho Ht]. unfold parse_string.
  destruct (at_offset_ok b 0 Hb) as (c & Hc & _); [lia|]. rewrite Hc. bind_red.
  destruct (Z.eqb_spec c 34) as [->|]; [|done]. cbn [negb]. cbn zeta.
  destruct (decide (offset b + 1 <= buf_length b)) as [Hlt|Hge].
  - eapply returns_seq; [apply scan_loop_ok; [done|lia|lia]|].
    intros [[e skipped]|]; [|done]. intros (He & f & Hsc & ->). cbn zeta.
    pose proof (sc_half _ _ _ _ Hsc (offset b + 1) ltac:(lia)).
    eapply returns_seq; [eapply (unescape_loop_ok _ _ (buf_length b) f (offset b + 1) e); try done; try lia|].
    + rewrite zlen_gw_malloc; lia.
    + intros [[out op]|]; [|done]. intros Hop. apply returns_wr; [done|]. cbn. unfold moved. cbn.
      split_and!; done || lia.
  - cbn [scan_loop]. assert (offset b = buf_length b) by lia.
    destruct (Z.ltb_spec (offset b + 1) (buf_length b)); [lia|]. done.
Qed.

Lemma number_loop_ok fuel b i :
  binv b -> 0 <= i -> offset b + i <= buf_length b -> buf_length b - offset b - i < Z.of_nat fuel ->
  returns (number_loop b i fuel) (fun n => i <= n /\ offset b + n <= buf_length b).
Proof.
  intros Hb. revert i. induction fuel as [|fuel IH]; intros i Hi Hl Hf; cbn [number_loop]; [lia|].
  unfold can_access_at_index. destruct (Z.ltb_spec (offset b + i) (buf_length b)) as [Hlt|]; [|cbn; lia].
  destruct (at_offset_ok b i Hb) as (c & -> & _); [destruct Hb; lia|]. bind_red.
  destruct (is_number_char c); [|cbn; lia].
  eapply returns_mono; [apply IH; lia|]. cbn. lia.
Qed.

Lemma strtol_digits_count base acc n l : 0 <= n ->
  n <= (strtol_digits base acc n l).2 <= n + zlen l.
Proof.
  revert acc n. induction l as [|c l IH]; intros acc n Hn; cbn [strtol_digits]; [cbn; list_lia|].
  destruct (digit_of c) as [d|]; [|cbn; list_lia]. destruct (d <? base); [|cbn; list_lia].
  pose proof (IH (acc * base + d) (n + 1)). list_lia.
Qed.

Lemma strtol_sign_count l n :
  n <= (strtol_sign l n).2 /\ (strtol_sign l n).2 + zlen (strtol_sign l n).1.2 = n + zlen l.
Proof.
  destruct l as [|c l]; cbn; [lia|]. destruct (c =? 45), (c =? 43); cbn; list_lia.
Qed.

Lemma strtod_exponent_count l : 0 <= (strtod_exponent l).2 <= zlen l.
Proof.
  destruct l as [|c l]; cbn [strtod_exponent]; [done|]. destruct (_ || _); [|cbn; list_lia].
  pose proof (strtol_sign_count l 1) as [H1 H2]. destruct (strtol_sign l 1) as [[neg l'] n]. cbn in H1, H2.
  pose proof (strtol_digits_count 10 0 0 l' ltac:(lia)) as H3. destruct (strtol_digits 10 0 0 l') as [v k].
  cbn in H3. destruct (k =? 0); cbn; list_lia.
Qed.

Lemma strtod_count s : 0 <= (strtod s).2 <= zlen s.
Proof.
  unfold strtod. pose proof (strtol_sign_count s 0) as [H1 H2]. destruct (strtol_sign s 0) as [[neg l] n].
  cbn in H1, H2. pose proof (strtol_digits_count 10 0 0 l ltac:(lia)) as H3.
  destruct (strtol_digits 10 0 0 l) as [v k]. cbn in H3.
  destruct (default 0 (head (drop (Z.to_nat k) l)) =? 46) eqn:E.
  - destruct (drop (Z.to_nat k) l) as [|c r] eqn:Er; [done|].
    change (drop 1 (c :: r)) with r.
    assert (zlen l = k + zlen (c :: r)) as Hz by (rewrite <- Er; list_lia).
    pose proof (strtol_digits_count 10 v 0 r ltac:(lia)) as H4. destruct (strtol_digits 10 v 0 r) as [w k2].
    cbn in H4. destruct (k + k2 =? 0); [cbn; list_lia|].
    pose proof (strtod_exponent_count (drop (Z.to_nat (1 + k2)) (c :: r))) as H5.
    destruct (strtod_exponent _) as [e ke]. cbn in H5 |- *. list_lia.
  - destruct (k + 0 =? 0); [cbn; list_lia|].
    pose proof (strtod_exponent_count (drop (Z.to_nat (0 + 0)) (drop (Z.to_nat k) l))) as H5.
    destruct (strtod_exponent _) as [e ke]. cbn in H5 |- *. list_lia.
Qed.

Lemma cstr_length (l : list Z) : zlen (cstr l) <= zlen l.
Proof. induction l as [|c l IH]; cbn; [done|]. destruct (c =? 0); list_lia. Qed.

Lemma cstr_before_nul (l : list Z) (n : nat) : l !! n = Some 0 -> zlen (cstr l) <= Z.of_nat n.
Proof.
  revert n. induction l as [|c l IH]; intros n Hn; [done|]. cbn. destruct (Z.eqb_spec c 0); [list_lia|].
  destruct n as [|n]; [by injection Hn as ->|]. cbn in Hn. specialize (IH n Hn). list_lia.
Qed.

Lemma parse_number_ok item b : binv b -> returns (parse_number item b) (moved_opt 1 b).
Proof.
  intros Hb. pose proof Hb as [Ho Ht]. unfold parse_number.
  eapply returns_seq; [apply number_loop_ok; [done|lia..]|]. intros n [Hn Hnl].
  assert (buf_length b < zlen (content b)) as Hlen.
  { destruct (Ht (buf_length b)) as (v & Hv & _); [lia|]. apply rd_ok in Hv as (_ & Hv%lookup_lt_Some & _).
    unfold zlen. lia. }
  apply returns_mem_copy; [lia..|rewrite zlen_gw_malloc; lia|lia|].
  set (out := overwrite _ _ _).
  assert (zlen out = n + 1) as Hout.
  { unfold out. rewrite zlen_overwrite; [rewrite zlen_gw_malloc; lia|lia|].
    rewrite zlen_slice, zlen_gw_malloc; lia. }
  apply returns_wr; [lia|]. set (out' := <[_:=_]> out).
  assert (zlen (cstr out') <= n) as Hc.
  { replace n with (Z.of_nat (Z.to_nat n)) by lia. apply cstr_before_nul. unfold out'.
    rewrite list_lookup_insert_eq; [done|]. unfold zlen in *. lia. }
  pose proof (strtod_count (cstr out')) as Hs. destruct (strtod (cstr out')) as [number used]. cbn in Hs.
  destruct (Z.eqb_spec used 0); [done|]. cbn. unfold moved. cbn. split_and!; done || lia.
Qed.

(** ** Values

    [parse_value] and the functions it calls return, and move the offset.  Three
    units of fuel for each octet are enough: a value, the array or object it
    starts with and the loop over its items use one each before the offset
    moves. *)

Definition left_over (b : parse_buffer) : Z := 3 * (buf_length b - offset b).

Definition value_ok (fuel : nat) : Prop := forall item b,
  binv b -> left_over b + 2 < Z.of_nat fuel -> returns (parse_value fuel item b) (moved_opt 1 b).
Definition items_ok (parse : nat -> JSON -> parse_buffer -> res (option (JSON * parse_buffer))) (fuel : nat) : Prop :=
  forall item b, binv b -> offset b < buf_length b -> left_over b + 1 < Z.of_nat fuel ->
    returns (parse fuel item b) (moved_opt 1 b).
Definition loop_ok (parse : nat -> parse_buffer -> res (option (list JSON * parse_buffer))) (fuel : nat) : Prop :=
  forall b, binv b -> offset b < buf_length b -> left_over b < Z.of_nat fuel ->
    returns (parse fuel b) (moved_opt 1 b).

Lemma literal_ok (lit : list Z) item k b r (m : res (option (JSON * parse_buffer))) :
  binv b -> zlen lit = k -> 1 <= k -> (r = true -> offset b + zlen lit <= buf_length b) ->
  returns m (moved_opt 1 b) ->
  returns (if r : bool then Ok (Some (item, set_offset b (offset b + k))) else m) (moved_opt 1 b).
Proof.
  intros Hb Hk Hk1 Hr Hm. destruct r; [|done]. specialize (Hr eq_refl). cbn. unfold moved. cbn.
  split_and!; done || lia.
Qed.

Lemma value_step fuel : items_ok parse_array fuel -> items_ok parse_object fuel -> value_ok (S fuel).
Proof.
  intros IHa IHo item b Hb Hf. cbn [parse_value].
  eapply returns_seq; [by apply (reads_ok b NULL_TEXT)|]. intros r Hr. apply (literal_ok NULL_TEXT); [done..|].
  eapply returns_seq; [by apply (reads_ok b FALSE_TEXT)|]. intros r1 Hr1. apply (literal_ok FALSE_TEXT); [done..|].
  eapply returns_seq; [by apply (reads_ok b TRUE_TEXT)|]. intros r2 Hr2. apply (literal_ok TRUE_TEXT); [done..|].
  unfold can_access_at_index. destruct (Z.ltb_spec (offset b + 0) (buf_length b)) as [Hlt|]; [|done]. cbn [negb].
  destruct (at_offset_ok b 0 Hb) as (c & -> & _); [destruct Hb; lia|]. bind_red.
  destruct (c =? 34).
  { eapply returns_seq; [by apply json_parse_string_ok|]. intros [[s b']|]; done. }
  destruct (_ || _); [by apply parse_number_ok|].
  destruct (c =? 91); [apply IHa; done || lia|]. destruct (c =? 123); [apply IHo; done || lia|done].
Qed.

(** Moving past one character that is there, then past white space. *)
Lemma skip_one_ok b :
  binv b -> offset b < buf_length b ->
  returns (buffer_skip_whitespace (set_offset b (offset b + 1))) (moved 1 b).
Proof.
  intros [Ho Ht] Hlt. eapply returns_mono; [apply skip_whitespace_ok; split; cbn; [lia|done]|].
  unfold moved. cbn. intros b' (E1 & E2 & H). split_and!; done || lia.
Qed.

(** What the end of an array or object leaves. *)
Lemma closed_ok b b' js item t d :
  moved 1 b b' -> offset b' < buf_length b' ->
  moved_opt 1 b (Some (set_jchild item t js, set_offset (set_depth b' d) (offset b' + 1))).
Proof. unfold moved_opt, moved. cbn. intros (E1 & E2 & H) Hlt. split_and!; done || lia. Qed.

Lemma items_step fuel close t loop item b :
  loop_ok loop fuel -> binv b -> offset b < buf_length b -> left_over b + 1 < Z.of_nat (S fuel) ->
  returns (b ← buffer_skip_whitespace (set_offset b (offset b + 1));
           e ← next_is b close;
           if e : bool then
             Ok (Some (set_jchild item t [], set_offset (set_depth b (depth b - 1)) (offset b + 1)))
           else if negb (can_access_at_index b 0) then Ok None
           else
             r ← loop fuel (set_offset b (offset b - 1));
             match r with
             | None => Ok None
             | Some (js, b) =>
                 e ← next_is b close;
                 if negb e then Ok None
                 else Ok (Some (set_jchild item t js, set_offset (set_depth b (depth b - 1)) (offset b + 1)))
             end) (moved_opt 1 b).
Proof.
  intros IH Hb Hlt Hf. eapply returns_seq; [by apply skip_one_ok|]. intros b1 M1.
  get_binv M1 Hb1.
  eapply returns_seq; [by apply next_is_ok|]. intros e He. cbn beta in He.
  destruct e; [apply closed_ok; [done|]; by apply He|].
  unfold can_access_at_index. destruct (Z.ltb_spec (offset b1 + 0) (buf_length b1)) as [Hlt1|]; [|done]. cbn [negb].
  set (b2 := set_offset b1 (offset b1 - 1)). pose proof M1 as (E1 & E2 & Ho1).
  assert (moved 0 b b2) as M2 by (unfold moved; cbn; split_and!; done || lia).
  get_binv M2 Hb2.
  eapply returns_seq; [apply (IH b2 Hb2); unfold left_over in *; cbn; lia|].
  intros [[js b3]|] M3; [|done]. pose proof (moved_trans _ _ _ _ _ M2 M3) as M.
  eapply returns_seq; [apply next_is_ok; by apply (moved_binv (0 + 1) b b3)|].
  intros e' He'. cbn beta in He'. destruct e'; [|done]. apply closed_ok; [done|]. by apply He'.
Qed.

Lemma array_step fuel : loop_ok parse_elements fuel -> items_ok parse_array (S fuel).
Proof.
  intros IH item b Hb Hlt Hf. cbn [parse_array]. destruct (_ <=? _); [done|].
  set (b1 := set_depth b (depth b + 1)). assert (binv b1) as Hb1 by done.
  destruct (at_offset_ok b1 0 Hb1) as (c & -> & _); [destruct Hb1; cbn in *; lia|]. bind_red.
  destruct (negb _); [done|]. by apply (items_step fuel 93 JSON_ARRAY parse_elements item b1).
Qed.

Lemma object_step fuel : loop_ok parse_members fuel -> items_ok parse_object (S fuel).
Proof.
  intros IH item b Hb Hlt Hf. cbn [parse_object]. destruct (_ <=? _); [done|].
  set (b1 := set_depth b (depth b + 1)). assert (binv b1) as Hb1 by done.
  eapply returns_seq; [by apply next_is_ok|]. intros c _.
  destruct (negb _); [done|]. by apply (items_step fuel 125 JSON_OBJECT parse_members item b1).
Qed.

(** The end of a round of a loop: a comma and another round, or nothing. *)
Lemma more_ok fuel loop b b1 j :
  loop_ok loop fuel -> binv b -> moved 1 b b1 -> left_over b < Z.of_nat (S fuel) ->
  returns (b ← buffer_skip_whitespace b1;
           more ← next_is b 44;
           if more : bool then
             r ← loop fuel b;
             match r with
             | None => Ok None
             | Some (js, b) => Ok (Some (j :: js, b))
             end
           else Ok (Some ([j], b))) (moved_opt 1 b).
Proof.
  intros IH Hb M1 Hf. get_binv M1 Hb1.
  eapply returns_seq; [by apply skip_whitespace_ok|]. intros b2 M2.
  pose proof (moved_trans _ _ _ _ _ M1 M2) as M. get_binv M Hb2.
  eapply returns_seq; [by apply next_is_ok|]. intros more Hm. cbn beta in Hm.
  destruct more; [|cbn; by eapply moved_le; [|exact M]].
  eapply returns_seq; [apply (IH b2 Hb2); [by apply Hm|]|].
  - destruct M as (_ & E & Ho). unfold left_over in *. lia.
  - intros [[js b3]|] M3; [|done]. cbn. eapply moved_le; [|exact (moved_trans _ _ _ _ _ M M3)]. lia.
Qed.

Lemma elements_step fuel : value_ok fuel -> loop_ok parse_elements fuel -> loop_ok parse_elements (S fuel).
Proof.
  intros IHv IH b Hb Hlt Hf. cbn [parse_elements].
  eapply returns_seq; [by apply skip_one_ok|]. intros b1 M1.
  get_binv M1 Hb1.
  eapply returns_seq; [apply (IHv _ b1 Hb1)|].
  - destruct M1 as (_ & E & Ho). unfold left_over in *. lia.
  - intros [[j b2]|] M2; [|done]. apply more_ok; try done.
    eapply moved_le; [|exact (moved_trans _ _ _ _ _ M1 M2)]. lia.
Qed.

Lemma members_step fuel : value_ok fuel -> loop_ok parse_members fuel -> loop_ok parse_members (S fuel).
Proof.
  intros IHv IH b Hb Hlt Hf. cbn [parse_members]. destruct (negb _); [done|].
  eapply returns_seq; [by apply skip_one_ok|]. intros b1 M1.
  get_binv M1 Hb1.
  eapply returns_seq; [by apply json_parse_string_ok|]. intros [[k b2]|] M2; [|done].
  pose proof (moved_trans _ _ _ _ _ M1 M2) as M2'. get_binv M2' Hb2.
  eapply returns_seq; [by apply skip_whitespace_ok|]. intros b3 M3.
  pose proof (moved_trans _ _ _ _ _ M2' M3) as M3'. get_binv M3' Hb3.
  eapply returns_seq; [by apply next_is_ok|]. intros colon Hcol. cbn beta in Hcol. destruct colon; [|done]. cbn [negb].
  eapply returns_seq; [by apply skip_one_ok; [|apply Hcol]|]. intros b4 M4.
  pose proof (moved_trans _ _ _ _ _ M3' M4) as M4'. get_binv M4' Hb4.
  eapply returns_seq; [apply (IHv _ b4 Hb4)|].
  - destruct M4' as (_ & E & Ho). unfold left_over in *. lia.
  - intros [[j b5]|] M5; [|done]. apply more_ok; try done.
    eapply moved_le; [|exact (moved_trans _ _ _ _ _ M4' M5)]. lia.
Qed.

Lemma parse_ok fuel :
  value_ok fuel /\ items_ok parse_array fuel /\ loop_ok parse_elements fuel /\
  items_ok parse_object fuel /\ loop_ok parse_members fuel.
Proof.
  induction fuel as [|fuel (IHv & IHa & IHe & IHo & IHm)].
  - split_and!; intros; unfold value_ok, items_ok, loop_ok, left_over, binv; intros; lia.
  - split_and!; [by apply value_step|by apply array_step|by apply elements_step
                |by apply object_step|by apply members_step].
Qed.

Lemma skip_bom_ok b : binv b -> offset b = 0 -> returns (skip_utf8_bom b) (moved 0 b).
Proof.
  intros [Ho Ht] E. unfold skip_utf8_bom, can_access_at_index.
  destruct (Z.ltb_spec (offset b + 2) (buf_length b)) as [Hlt|]; [|unfold moved; cbn; split_and!; done || lia].
  destruct (Ht 0) as (c0 & -> & _); [lia|]. destruct (Ht 1) as (c1 & -> & _); [lia|].
  destruct (Ht 2) as (c2 & -> & _); [lia|]. cbn [returns mbind res_bind].
  destruct (_ && _); unfold moved; cbn; split_and!; done || lia.
Qed.

Lemma repr_text_ok o s : repr o s -> os_len o <> 0 -> text_ok (os_data o) (os_len o).
Proof.
  destruct 1 as [|s rest size imm Hs Hsz]; cbn; intros Hne; [done|]. intros i Hi.
  assert (exists v, (s ++ 0 :: rest) !! Z.to_nat i = Some v /\ octet v) as (v & Hv & Ho).
  { destruct (decide (i < zlen s)).
    - destruct (lookup_lt_is_Some_2 s (Z.to_nat i)) as [v Hv]; [list_lia|]. exists v.
      rewrite lookup_app_l by list_lia. split; [done|]. by eapply (Forall_lookup_1 _ _ _ _ Hs).
    - exists 0. rewrite lookup_app_r by list_lia. replace (_ - _)%nat with 0%nat by list_lia.
      split; [done|]. unfold octet. lia. }
  exists v. split; [|done]. apply rd_ok. unfold octet in Ho. split_and!; [lia|done|lia].
Qed.

(** C17. [json_parse] is safe and total: on every octet string, whatever it holds, it
    returns a value or NULL; it never reads outside of the text (and its NUL), never
    writes outside of the block it allocated for a string, whatever escapes the
    string has, and its recursion ends. *)
Theorem json_parse_safe (o : option Octstr) :
  (forall o', o = Some o' -> exists s, repr o' s) -> is_ok (json_parse o).
Proof.
  intros Ho. destruct o as [o|]; [|by eexists]. destruct (Ho o eq_refl) as [s Hs].
  cbn [json_parse]. unfold json_parse_cstr. destruct (Z.eqb_spec (os_len o) 0) as [|Hne]; [by eexists|].
  pose proof (repr_text_ok _ _ Hs Hne) as Ht. assert (0 <= os_len o) by (rewrite (repr_len _ _ Hs); apply zlen_nonneg).
  assert (binv (mkBuffer (os_data o) (os_len o) 0 0)) as Hb by (split; [cbn; lia|done]).
  assert (returns (json_parse_cstr (os_data o) (os_len o)) (fun _ => True)) as H1; [|].
  - unfold json_parse_cstr. destruct (Z.eqb_spec (os_len o) 0); [done|].
    eapply returns_seq; [by apply skip_bom_ok|]. intros b1 M1.
    get_binv M1 Hb1.
    eapply returns_seq; [by apply skip_whitespace_ok|]. intros b2 M2.
    pose proof (moved_trans _ _ _ _ _ M1 M2) as M. get_binv M Hb2.
    eapply returns_seq; [apply (proj1 (parse_ok _) json_new_item b2 Hb2)|done].
    destruct M as (_ & E & Hoff). cbn in E, Hoff. unfold left_over. lia.
  - apply returns_iff in H1 as (r & H1 & _). unfold json_parse_cstr in H1.
    destruct (Z.eqb_spec (os_len o) 0); [done|]. by exists r.
Qed.

(** A string that the two loops read differently: an invalid hexadecimal code that
    ends in a backslash, before an escaped backslash and the closing quote. *)
Definition sample_unescape : list Z := [34; 92; 117; 49; 50; 51; 92; 92; 34].

Lemma json_parse_safe_witness :
  exists o, octstr_create sample_unescape = Ok o /\ is_ok (json_parse (Some o)).
Proof.
  assert (octets sample_unescape) as Hs by octets_tac.
  pose proof (octstr_create_ok _ Hs) as H. apply returns_iff in H as (o & E & [Ho _]).
  exists o. split; [done|]. apply (json_parse_safe (Some o)). intros o' [= <-]. eauto.
Defined.
