(* ===== verification/JsonText.v ===== *)
(** * What the JSON parser accepts, and what the writer writes

    The grammar of JSON texts as relations between texts and values ([jstr] for
    the inside of a string, [jtext] for a value); [json_parse] (Json.v) reads every
    text of the grammar to the value it stands for, and what [json_object] writes
    is a text of the grammar. *)

From Stdlib Require Import SpecFloat.
From S2P Require Import Prelude Octstr OctstrSearch OctstrCode OctstrFormat Json JsonSafe.

(** ** Reading a text from the offset on *)

(** What is left to read in [b] is [t]. *)
Definition sees (b : parse_buffer) (t : list Z) : Prop :=
  exists pre junk, content b = pre ++ t ++ 0 :: junk /\ offset b = zlen pre /\
    buf_length b = zlen pre + zlen t /\ octets t.

Lemma sees_octets b t : sees b t -> octets t.
Proof. by intros (pre & junk & _ & _ & _ & H). Qed.

Lemma sees_access b t i : sees b t -> can_access_at_index b i = (i <? zlen t).
Proof. intros (pre & junk & _ & E1 & E2 & _). unfold can_access_at_index. rewrite E1, E2. lia. Qed.

Lemma sees_rd b t (i : nat) c : sees b t -> t !! i = Some c -> rd (content b) (offset b + Z.of_nat i) = Ok c.
Proof.
  intros (pre & junk & E & E1 & E2 & Ho) Hi. apply rd_ok. rewrite E, E1.
  pose proof (lookup_lt_Some _ _ _ Hi). split_and!; [list_lia| |].
  - rewrite lookup_app_r by list_lia. replace (_ - _)%nat with i by list_lia. by rewrite lookup_app_l.
  - by eapply (Forall_lookup_1 _ _ _ _ Ho) in Hi as [? _].
Qed.

Lemma sees_at b t c : sees b (c :: t) -> at_offset b 0 = Ok c.
Proof. intros H. exact (sees_rd b (c :: t) 0 c H eq_refl). Qed.

Lemma sees_skip b (k t : list Z) n : sees b (k ++ t) -> n = zlen k -> sees (set_offset b (offset b + n)) t.
Proof.
  intros (pre & junk & E & E1 & E2 & Ho) ->. exists (pre ++ k), junk. cbn. apply Forall_app in Ho as [_ Ho].
  split_and!; [by rewrite E, <- !app_assoc|list_lia..|done].
Qed.

Lemma sees_depth b t d : sees b t -> sees (set_depth b d) t.
Proof. intros (pre & junk & H). exists pre, junk. exact H. Qed.

Lemma next_is_eq b t d : sees b t -> next_is b d = Ok (match t with c :: _ => c =? d | [] => false end).
Proof.
  intros H. unfold next_is. rewrite (sees_access _ _ _ H). destruct t as [|c t]; [done|].
  destruct (Z.ltb_spec 0 (zlen (c :: t))); [|list_lia]. by rewrite (sees_at _ _ _ H).
Qed.

Lemma reads_eq b t lit : sees b t -> reads b lit = Ok (bool_decide (lit `prefix_of` t)).
Proof.
  intros (pre & junk & E & E1 & E2 & Ho). unfold reads, can_read. rewrite E, E1, E2.
  destruct (Z.leb_spec (zlen pre + zlen lit) (zlen pre + zlen t)) as [Hle|Hgt].
  - assert (slice (pre ++ t ++ 0 :: junk) (zlen pre) (zlen lit) = take (length lit) t) as Es.
    { unfold slice. rewrite drop_app_ge by list_lia. replace (_ - _)%nat with 0%nat by list_lia.
      rewrite drop_0, take_app_le by list_lia. f_equal. list_lia. }
    rewrite Es. unfold readable. rewrite Es, in_block_true by (list_lia || pose proof (zlen_nonneg lit); list_lia).
    assert (forallb (Z.leb 0) (take (length lit) t) = true) as ->.
    { apply forallb_forall. intros x Hx. apply list_elem_of_In in Hx.
      apply elem_of_take in Hx as (i & Hi & _). eapply (Forall_lookup_1 _ _ _ _ Ho) in Hi as [? _]. lia. }
    cbn [andb]. f_equal. apply bool_decide_ext. split.
    + intros Hl. exists (drop (length lit) t). by rewrite <- Hl at 1; rewrite take_drop.
    + intros [k ->]. by rewrite take_app_length.
  - f_equal. symmetry. apply bool_decide_eq_false. intros [k ->]. list_lia.
Qed.

(** White space, and a text that does not begin with it. *)
Notation white := (Forall (fun c => octet c /\ c <= 32)).
Definition no_space (t : list Z) : Prop := match t with c :: _ => 32 < c | [] => True end.

Lemma set_offset_id b : set_offset b (offset b + 0) = b.
Proof. destruct b. unfold set_offset. cbn. by rewrite Z.add_0_r. Qed.

Lemma skip_loop_eq fuel b w t :
  sees b (w ++ t) -> white w -> no_space t -> zlen w < Z.of_nat fuel ->
  skip_loop b fuel = Ok (set_offset b (offset b + zlen w)).
Proof.
  revert b w. induction fuel as [|fuel IH]; intros b w H Hw Ht Hf; [list_lia|].
  cbn [skip_loop]. rewrite (sees_access _ _ _ H). destruct w as [|c w].
  - cbn [app] in *. change (zlen []) with 0. rewrite set_offset_id.
    destruct t as [|c t]; [done|]. destruct (Z.ltb_spec 0 (zlen (c :: t))); [|list_lia].
    rewrite (sees_at _ _ _ H). bind_red. cbn in Ht. destruct (Z.leb_spec c 32); [lia|done].
  - apply Forall_cons_iff in Hw as [[_ Hc] Hw]. cbn [app] in H.
    destruct (Z.ltb_spec 0 (zlen ((c :: w) ++ t))); [|list_lia].
    rewrite (sees_at _ _ _ H). bind_red. destruct (Z.leb_spec c 32); [|lia].
    rewrite (IH _ w); [| |done|done|list_lia].
    + unfold set_offset. cbn. do 2 f_equal. list_lia.
    + by apply (sees_skip b [c] (w ++ t)).
Qed.

Lemma skip_whitespace_eq b w t :
  sees b (w ++ t) -> white w -> no_space t ->
  buffer_skip_whitespace b = Ok (set_offset b (offset b + zlen w)).
Proof.
  intros H Hw Ht. eapply skip_loop_eq; [done..|]. destruct H as (pre & junk & _ & E1 & E2 & _). list_lia.
Qed.

(** ** Strings *)

Definition escape_of (d : Z) : option Z :=
  if d =? 98 then Some 8
  else if d =? 102 then Some 12
  else if d =? 110 then Some 10
  else if d =? 114 then Some 13
  else if d =? 116 then Some 9
  else if (d =? 34) || (d =? 92) || (d =? 47) then Some d
  else None.

Definition hex_value (c : Z) : option Z :=
  if isdigit c then Some (c - 48)
  else if (65 <=? c) && (c <=? 70) then Some (c - 55)
  else if (97 <=? c) && (c <=? 102) then Some (c - 87)
  else None.

(** Four hexadecimal digits. *)
Definition hex4 (l : list Z) (v : Z) : Prop :=
  match l with
  | [a; b; c; d] => exists x y z w, hex_value a = Some x /\ hex_value b = Some y /\ hex_value c = Some z /\
      hex_value d = Some w /\ v = ((x * 16 + y) * 16 + z) * 16 + w
  | _ => False
  end.

Definition utf8 (cp : Z) : list Z :=
  if cp <? 128 then [cp]
  else if cp <? 2048 then [192 + cp / 64; 128 + cp mod 64]
  else if cp <? 65536 then [224 + cp / 64 / 64; 128 + cp / 64 mod 64; 128 + cp mod 64]
  else [240 + cp / 64 / 64 / 64; 128 + cp / 64 / 64 mod 64; 128 + cp / 64 mod 64; 128 + cp mod 64].

(** [jstr e v n]: the text [e] between the quotes stands for the octets [v] and
    has [n] backslashes that begin an escape. *)
Inductive jstr : list Z -> list Z -> Z -> Prop :=
| jstr_nil : jstr [] [] 0
| jstr_plain c e v n : 0 < c < 256 -> c <> 34 -> c <> 92 -> jstr e v n -> jstr (c :: e) (c :: v) n
| jstr_escape d x e v n : escape_of d = Some x -> jstr e v n -> jstr (92 :: d :: e) (x :: v) (n + 1)
| jstr_unicode h cp e v n : hex4 h cp -> ~ (55296 <= cp <= 57343) ->
    jstr e v n -> jstr (92 :: 117 :: h ++ e) (utf8 cp ++ v) (n + 1)
| jstr_pair h1 h2 hi lo e v n : hex4 h1 hi -> hex4 h2 lo -> 55296 <= hi <= 56319 -> 56320 <= lo <= 57343 ->
    jstr e v n ->
    jstr (92 :: 117 :: h1 ++ 92 :: 117 :: h2 ++ e)
      (utf8 (65536 + (hi - 55296) * 1024 + (lo - 56320)) ++ v) (n + 2).

Lemma hex4_length h v : hex4 h v -> length h = 4%nat.
Proof.
  destruct h as [|? [|? [|? [|? [|? ?]]]]]; cbn [hex4]; [intros []|intros []|intros []|intros []| |intros []].
  reflexivity.
Qed.

Lemma hex_value_range c x : hex_value c = Some x -> 0 <= x < 16 /\ 48 <= c <= 102 /\ c <> 92.
Proof.
  unfold hex_value, isdigit. destruct ((48 <=? c) && (c <=? 57)) eqn:E1; [intros [= <-]; lia|].
  destruct ((65 <=? c) && (c <=? 70)) eqn:E2; [intros [= <-]; lia|].
  destruct ((97 <=? c) && (c <=? 102)) eqn:E3; [intros [= <-]; lia|done].
Qed.

Lemma utf8_length cp : 1 <= zlen (utf8 cp) <= 4 /\ (cp < 65536 -> zlen (utf8 cp) <= 3).
Proof. unfold utf8. destruct (Z.ltb_spec cp 128), (Z.ltb_spec cp 2048), (Z.ltb_spec cp 65536); unfold zlen; cbn [length]; lia. Qed.

Lemma jstr_size e v n : jstr e v n -> 0 <= n /\ zlen v + n <= zlen e.
Proof.
  induction 1 as [|c e v n _ _ _ _ IH|d x e v n _ _ IH|h cp e v n Hh Hs _ IH
                 |h1 h2 hi lo e v n H1 H2 _ _ _ IH].
  - done.
  - list_lia.
  - list_lia.
  - pose proof (utf8_length cp). apply hex4_length in Hh.
    assert (cp < 65536 \/ 65536 <= cp) as [?|?] by lia; list_lia.
  - pose proof (utf8_length (65536 + (hi - 55296) * 1024 + (lo - 56320))).
    apply hex4_length in H1, H2. list_lia.
Qed.

(** The block [s] has the text [t] at [p]. *)
Definition at_pos (s : list Z) (p : Z) (t : list Z) : Prop :=
  exists pre rest, s = pre ++ t ++ rest /\ p = zlen pre /\ octets t.

Lemma at_pos_rd s p t (i : nat) c : at_pos s p t -> t !! i = Some c -> rd s (p + Z.of_nat i) = Ok c.
Proof.
  intros (pre & rest & -> & -> & Ho) Hi. apply rd_ok. pose proof (lookup_lt_Some _ _ _ Hi). split_and!; [list_lia| |].
  - rewrite lookup_app_r by list_lia. replace (_ - _)%nat with i by list_lia. by rewrite lookup_app_l.
  - by eapply (Forall_lookup_1 _ _ _ _ Ho) in Hi as [? _].
Qed.

Lemma at_pos_hd s p c t : at_pos s p (c :: t) -> rd s p = Ok c.
Proof. intros H. rewrite <- (Z.add_0_r p). exact (at_pos_rd s p (c :: t) 0 c H eq_refl). Qed.

Lemma at_pos_skip s p (k t : list Z) n : at_pos s p (k ++ t) -> n = zlen k -> at_pos s (p + n) t.
Proof.
  intros (pre & rest & -> & -> & Ho) ->. apply Forall_app in Ho as [_ Ho]. exists (pre ++ k), rest.
  split_and!; [by rewrite <- !app_assoc|list_lia|done].
Qed.

Lemma at_pos_tl s p c t : at_pos s p (c :: t) -> at_pos s (p + 1) t.
Proof. intros H. by apply (at_pos_skip s p [c] t). Qed.

Lemma at_pos_prefix s p k t : at_pos s p (k ++ t) -> at_pos s p k.
Proof.
  intros (pre & rest & -> & -> & Ho). apply Forall_app in Ho as [Ho _]. exists pre, (t ++ rest).
  by rewrite <- app_assoc.
Qed.

Lemma scan_plain k t s len p sk fuel :
  Forall (fun c => c <> 34 /\ c <> 92) k -> at_pos s p (k ++ t) -> p + zlen k <= len -> (length k <= fuel)%nat ->
  scan_loop s len p sk fuel = scan_loop s len (p + zlen k) sk (fuel - length k).
Proof.
  intros Hk. revert p fuel. induction Hk as [|c k [H1 H2] Hk IH]; intros p fuel Hs Hl Hf.
  - rewrite Z.add_0_r. f_equal. cbn. lia.
  - destruct fuel as [|fuel]; [cbn in Hf; lia|]. cbn [scan_loop]. cbn [app] in Hs.
    destruct (Z.ltb_spec p len); [|list_lia]. cbn [negb]. rewrite (at_pos_hd _ _ _ _ Hs). bind_red.
    destruct (Z.eqb_spec c 34); [done|]. destruct (Z.eqb_spec c 92); [done|].
    rewrite IH; [|by eapply at_pos_tl|list_lia|cbn in Hf; lia]. f_equal; list_lia.
Qed.

Lemma hex4_plain h v : hex4 h v -> Forall (fun c => c <> 34 /\ c <> 92) h.
Proof.
  intros Hh. pose proof (hex4_length _ _ Hh) as Hl. destruct h as [|a [|b [|c [|d [|]]]]]; try done.
  destruct Hh as (x & y & z & w & H1 & H2 & H3 & H4 & _).
  apply hex_value_range in H1, H2, H3, H4. repeat (apply Forall_cons_2; [lia|]). apply Forall_nil_2.
Qed.

(** One escape in the first loop. *)
Lemma scan_escape s len p sk d t fuel :
  at_pos s p (92 :: d :: t) -> p + 1 < len -> (0 < fuel)%nat ->
  scan_loop s len p sk fuel = scan_loop s len (p + 2) (sk + 1) (fuel - 1).
Proof.
  intros Hs Hl Hf. destruct fuel as [|fuel]; [lia|]. cbn [scan_loop].
  destruct (Z.ltb_spec p len); [|lia]. cbn [negb]. rewrite (at_pos_hd _ _ _ _ Hs). bind_red.
  change (92 =? 34) with false. change (92 =? 92) with true. cbn match.
  destruct (Z.leb_spec len (p + 1)); [lia|]. f_equal. lia.
Qed.

Lemma scan_jstr : forall e v n, jstr e v n -> forall s len p sk fuel,
  at_pos s p (e ++ [34]) -> p + zlen e < len -> zlen e < Z.of_nat fuel ->
  scan_loop s len p sk fuel = Ok (Some (p + zlen e, sk + n)).
Proof.
  intros e v n He.
  induction He as [|c e v n Hc H1 H2 _ IH|d x e v n Hd _ IH|h cp e v n Hh Hs _ IH
                 |h1 h2 hi lo e v n Hh1 Hh2 _ _ _ IH]; intros s len p sk fuel Hp Hl Hf.
  - destruct fuel as [|fuel]; [list_lia|]. cbn [scan_loop]. destruct (Z.ltb_spec p len); [|list_lia]. cbn [negb].
    rewrite (at_pos_hd _ _ _ _ Hp). cbn. do 3 f_equal; list_lia.
  - rewrite (scan_plain [c] (e ++ [34])); [|by apply Forall_cons_2; [|apply Forall_nil_2]|done|list_lia|cbn; list_lia].
    rewrite IH; [|by apply at_pos_tl in Hp|list_lia|cbn; list_lia]. do 3 f_equal; list_lia.
  - rewrite (scan_escape _ _ _ _ d (e ++ [34])); [|done|list_lia|list_lia].
    rewrite IH; [|by apply (at_pos_skip s p [92; d])|list_lia|list_lia]. do 3 f_equal; list_lia.
  - pose proof (hex4_length _ _ Hh). pose proof (hex4_plain _ _ Hh).
    cbn [app] in Hp. rewrite <- app_assoc in Hp.
    rewrite (scan_escape _ _ _ _ 117 (h ++ e ++ [34])); [|done|list_lia|list_lia].
    apply (at_pos_skip s p [92; 117] _ 2) in Hp; [|done].
    rewrite (scan_plain h (e ++ [34])); [|done..|list_lia|list_lia].
    rewrite IH; [|by apply (at_pos_skip s _ h)|list_lia|list_lia]. do 3 f_equal; list_lia.
  - pose proof (hex4_length _ _ Hh1). pose proof (hex4_plain _ _ Hh1).
    pose proof (hex4_length _ _ Hh2). pose proof (hex4_plain _ _ Hh2).
    cbn [app] in Hp. rewrite <- app_assoc in Hp. cbn [app] in Hp. rewrite <- app_assoc in Hp.
    rewrite (scan_escape _ _ _ _ 117 (h1 ++ 92 :: 117 :: h2 ++ e ++ [34])); [|done|list_lia|list_lia].
    apply (at_pos_skip s p [92; 117] _ 2) in Hp; [|done].
    rewrite (scan_plain h1 (92 :: 117 :: h2 ++ e ++ [34])); [|done..|list_lia|list_lia].
    apply (at_pos_skip s _ h1 _ (zlen h1)) in Hp; [|done].
    rewrite (scan_escape _ _ _ _ 117 (h2 ++ e ++ [34])); [|done|list_lia|list_lia].
    apply (at_pos_skip s _ [92; 117] _ 2) in Hp; [|done].
    rewrite (scan_plain h2 (e ++ [34])); [|done..|list_lia|list_lia].
    rewrite IH; [|by apply (at_pos_skip s _ h2)|list_lia|list_lia]. do 3 f_equal; list_lia.
Qed.

(** The hexadecimal digits. *)
Lemma hex4_loop_digit s pos h n c x :
  rd s pos = Ok c -> hex_value c = Some x -> 0 <= h ->
  hex4_loop s pos h (S n) = hex4_loop s (pos + 1) (h * 16 + x) n.
Proof.
  intros Hr Hc Hh. cbn [hex4_loop]. rewrite Hr. bind_red. rewrite Z.shiftl_mul_pow2 by lia. change (2 ^ 4) with 16.
  unfold hex_value in Hc. destruct (isdigit c); [by injection Hc as <-|].
  destruct ((65 <=? c) && (c <=? 70)); [injection Hc as <-; f_equal; lia|].
  destruct ((97 <=? c) && (c <=? 102)); [injection Hc as <-; f_equal; lia|done].
Qed.

Lemma parse_hex4_eq s p h v : at_pos s p h -> hex4 h v -> parse_hex4 s p = Ok v /\ 0 <= v < 65536.
Proof.
  intros Hp Hh. pose proof (hex4_length _ _ Hh) as Hl. destruct h as [|a [|b [|c [|d [|]]]]]; try done.
  destruct Hh as (x & y & z & w & H1 & H2 & H3 & H4 & ->).
  pose proof (hex_value_range _ _ H1). pose proof (hex_value_range _ _ H2).
  pose proof (hex_value_range _ _ H3). pose proof (hex_value_range _ _ H4). split; [|lia].
  unfold parse_hex4.
  rewrite (hex4_loop_digit _ _ _ _ a x); [|by eapply at_pos_hd|done|lia]. apply at_pos_tl in Hp.
  rewrite (hex4_loop_digit _ _ _ _ b y); [|by eapply at_pos_hd|done|lia]. apply at_pos_tl in Hp.
  rewrite (hex4_loop_digit _ _ _ _ c z); [|by eapply at_pos_hd|done|lia]. apply at_pos_tl in Hp.
  rewrite (hex4_loop_digit _ _ _ _ d w); [|by eapply at_pos_hd|done|lia]. cbn. f_equal; lia.
Qed.

(** ** Writing code points *)

Lemma wr_app (w k : list Z) (i : nat) c : (i < length k)%nat ->
  wr (w ++ k) (zlen w + Z.of_nat i) c = Ok (w ++ <[i := c mod 256]> k).
Proof.
  intros Hi. rewrite wr_ok by list_lia. f_equal. rewrite insert_app_r_alt by list_lia. do 2 f_equal. list_lia.
Qed.

Lemma continuation_octet cp : Z.land (Z.lor cp 128) 191 = 128 + cp mod 64.
Proof.
  pose proof (lor_shiftl_add 1 (cp mod 64) 7 ltac:(lia) ltac:(pose proof (Z.mod_pos_bound cp 64); lia)) as E.
  change (1 * 2 ^ 7) with 128 in E. rewrite <- E. clear E. change (Z.shiftl 1 7) with 128. change 64 with (2 ^ 6). apply Z.bits_inj'. intros i Hi.
  rewrite Z.land_spec, !Z.lor_spec.
  destruct (decide (i < 6)) as [Hlt|Hge].
  - rewrite Z.mod_pow2_bits_low by lia. assert (i = 0 \/ i = 1 \/ i = 2 \/ i = 3 \/ i = 4 \/ i = 5) as Hc by lia.
    generalize (Z.testbit cp i). intros x. destruct Hc as [->|[->|[->|[->|[->| ->]]]]]; by destruct x.
  - rewrite Z.mod_pow2_bits_high by lia. rewrite orb_false_r.
    destruct (decide (i < 8)) as [Hlt8|Hge8].
    + generalize (Z.testbit cp i). intros x. assert (i = 6 \/ i = 7) as [->| ->] by lia; by destruct x.
    + assert (Z.testbit 191 i = false) as ->.
      { change 191 with (191 mod 2 ^ 8). apply Z.mod_pow2_bits_high. lia. }
      assert (Z.testbit 128 i = false) as ->.
      { change 128 with (128 mod 2 ^ 8). apply Z.mod_pow2_bits_high. lia. }
      by rewrite andb_false_r.
Qed.

Lemma first_octet r m n mark : 0 <= n -> 0 <= r < 2 ^ n -> mark = m * 2 ^ n -> 0 <= mark + r < 256 ->
  Z.land (Z.lor r mark) 255 = mark + r.
Proof.
  intros Hn Hr -> Hb. pose proof (lor_shiftl_add m r n Hn Hr) as E.
  rewrite Z.shiftl_mul_pow2 in E by done. rewrite Z.lor_comm, E.
  change 255 with (2 ^ 8 - 1). rewrite land_mask by lia. apply Z.mod_small. lia.
Qed.

(** The [n] octets after the first one, and what is left for it. *)
Fixpoint continuation (cp : Z) (n : nat) : list Z :=
  match n with O => [] | S n => continuation (cp / 64) n ++ [128 + cp mod 64] end.

Fixpoint leading (cp : Z) (n : nat) : Z := match n with O => cp | S n => leading (cp / 64) n end.

Lemma utf8_tail_eq n w x ks junk cp :
  length ks = n ->
  utf8_tail (w ++ x :: ks ++ junk) (zlen w) cp n = Ok (w ++ x :: continuation cp n ++ junk, leading cp n).
Proof.
  revert ks junk cp. induction n as [|n IH]; intros ks junk cp Hl; cbn [utf8_tail continuation leading].
  { by destruct ks. }
  destruct (exists_last (l := ks)) as (ks' & k & ->); [by intros ->|].
  rewrite length_app in Hl. cbn in Hl. rewrite <- app_assoc. cbn [app].
  rewrite wr_app by (list_len; lia). bind_red. rewrite continuation_octet.
  rewrite Z.mod_small by (pose proof (Z.mod_pos_bound cp 64); lia).
  assert (<[S n:=128 + cp mod 64]> (x :: ks' ++ k :: junk) = x :: ks' ++ (128 + cp mod 64) :: junk) as ->.
  { change (x :: <[n := 128 + cp mod 64]> (ks' ++ k :: junk) = x :: ks' ++ (128 + cp mod 64) :: junk).
    f_equal. rewrite insert_app_r_alt by lia. by replace (n - length ks')%nat with 0%nat by lia. }
  rewrite Z.shiftr_div_pow2 by lia. change (2 ^ 6) with 64. rewrite IH by lia. by rewrite <- app_assoc.
Qed.

Lemma write_utf8_eq w junk cp :
  0 <= cp <= 1114111 -> zlen (utf8 cp) <= zlen junk ->
  write_utf8 (w ++ junk) (zlen w) cp =
    Ok (Some (w ++ utf8 cp ++ drop (length (utf8 cp)) junk, zlen w + zlen (utf8 cp))).
Proof.
  intros Hcp Hj. unfold write_utf8.
  assert (Hput : forall (n : nat) mark first, utf8 cp = first :: continuation cp n -> 0 <= first < 256 ->
    (if 1 <? Z.of_nat (S n) then Z.land (Z.lor (leading cp n) mark) 255 else Z.land (leading cp n) 127) = first ->
    (r ← utf8_tail (w ++ junk) (zlen w) cp (Z.to_nat (Z.of_nat (S n) - 1));
     out ← wr r.1 (zlen w) (if 1 <? Z.of_nat (S n) then Z.land (Z.lor r.2 mark) 255 else Z.land r.2 127);
     Ok (Some (out, zlen w + Z.of_nat (S n)))) =
    Ok (Some (w ++ utf8 cp ++ drop (length (utf8 cp)) junk, zlen w + zlen (utf8 cp)))).
  { intros n mark first Eu Hf Em. assert (length (continuation cp n) = n) as Hc.
    { clear. revert cp. induction n as [|n IH]; intros cp; cbn; [done|]. rewrite length_app, IH. cbn. lia. }
    rewrite Eu in *. destruct junk as [|x junk]; [list_lia|].
    rewrite <- (take_drop n junk) at 1. replace (Z.to_nat (Z.of_nat (S n) - 1)) with n by lia.
    rewrite utf8_tail_eq by list_lia. bind_red. cbn [fst snd]. rewrite Em.
    pose proof (wr_app w (x :: continuation cp n ++ drop n junk) 0 first ltac:(cbn; lia)) as Hw.
    rewrite Z.add_0_r in Hw. rewrite Hw. cbn [mbind res_bind list_insert insert].
    rewrite Z.mod_small by done. cbn [app drop length]. rewrite Hc. do 3 f_equal. list_lia. }
  assert (0 <= cp / 64 <= 17407 /\ 0 <= cp / 64 / 64 <= 271 /\ 0 <= cp / 64 / 64 / 64 <= 4) as Hd
    by (Z.to_euclidean_division_equations; lia).
  destruct (Z.ltb_spec cp 128) as [H1|H1]; [|destruct (Z.ltb_spec cp 2048) as [H2|H2];
    [|destruct (Z.ltb_spec cp 65536) as [H3|H3]; [|destruct (Z.leb_spec cp 1114111); [|lia]]]].
  - apply (Hput 0%nat 0 cp); [unfold utf8; by destruct (Z.ltb_spec cp 128); [|lia]|lia|].
    cbn. change 127 with (2 ^ 7 - 1). rewrite land_mask by lia. apply Z.mod_small. lia.
  - assert (cp / 64 < 32) by (Z.to_euclidean_division_equations; lia).
    apply (Hput 1%nat 192 (192 + cp / 64)); [|lia|apply (first_octet (cp / 64) 3 6); lia].
    unfold utf8. destruct (Z.ltb_spec cp 128); [lia|]. by destruct (Z.ltb_spec cp 2048); [|lia].
  - assert (cp / 64 / 64 < 16) by (Z.to_euclidean_division_equations; lia).
    apply (Hput 2%nat 224 (224 + cp / 64 / 64)); [|lia|apply (first_octet (cp / 64 / 64) 7 5); lia].
    unfold utf8. destruct (Z.ltb_spec cp 128); [lia|]. destruct (Z.ltb_spec cp 2048); [lia|].
    by destruct (Z.ltb_spec cp 65536); [|lia].
  - apply (Hput 3%nat 240 (240 + cp / 64 / 64 / 64)); [|lia|apply (first_octet (cp / 64 / 64 / 64) 15 4); lia].
    unfold utf8. destruct (Z.ltb_spec cp 128); [lia|]. destruct (Z.ltb_spec cp 2048); [lia|].
    by destruct (Z.ltb_spec cp 65536); [lia|].
Qed.

(** ** The second loop of [parse_string] *)

Lemma land_1023 x : Z.land x 1023 = x mod 1024.
Proof. exact (land_mask x 10 ltac:(lia)). Qed.

Lemma utf16_bmp s p e h cp t w junk :
  at_pos s p (92 :: 117 :: h ++ t) -> hex4 h cp -> ~ (55296 <= cp <= 57343) -> p + 6 <= e ->
  zlen (utf8 cp) <= zlen junk ->
  utf16_to_utf8 s p e (w ++ junk) (zlen w) =
    Ok (Some (w ++ utf8 cp ++ drop (length (utf8 cp)) junk, zlen w + zlen (utf8 cp), 6)).
Proof.
  intros Hp Hh Hns He Hj. apply (at_pos_skip s p [92; 117] _ 2) in Hp; [|done].
  destruct (parse_hex4_eq s (p + 2) h cp (at_pos_prefix _ _ _ _ Hp) Hh) as [E Hr].
  unfold utf16_to_utf8. destruct (Z.ltb_spec (e - p) 6); [lia|]. rewrite E. bind_red.
  destruct ((56320 <=? cp) && (cp <=? 57343)) eqn:E1; [lia|].
  destruct ((55296 <=? cp) && (cp <=? 56319)) eqn:E2; [lia|]. bind_red.
  rewrite write_utf8_eq by (done || lia). done.
Qed.

Lemma utf16_surrogates s p e h1 h2 hi lo t w junk :
  at_pos s p (92 :: 117 :: h1 ++ 92 :: 117 :: h2 ++ t) -> hex4 h1 hi -> hex4 h2 lo ->
  55296 <= hi <= 56319 -> 56320 <= lo <= 57343 -> p + 12 <= e ->
  let cp := 65536 + (hi - 55296) * 1024 + (lo - 56320) in
  zlen (utf8 cp) <= zlen junk ->
  utf16_to_utf8 s p e (w ++ junk) (zlen w) =
    Ok (Some (w ++ utf8 cp ++ drop (length (utf8 cp)) junk, zlen w + zlen (utf8 cp), 12)).
Proof.
  intros Hp Hh1 Hh2 Hhi Hlo He cp Hj. pose proof (hex4_length _ _ Hh1) as Hl1.
  apply (at_pos_skip s p [92; 117] _ 2) in Hp; [|done].
  destruct (parse_hex4_eq s (p + 2) h1 hi (at_pos_prefix _ _ _ _ Hp) Hh1) as [E _].
  apply (at_pos_skip s _ h1 _ 4) in Hp; [|list_lia]. replace (p + 2 + 4) with (p + 6) in Hp by lia.
  pose proof (at_pos_hd _ _ _ _ Hp) as E6. apply at_pos_tl in Hp as Hp7.
  pose proof (at_pos_hd _ _ _ _ Hp7) as E7. apply at_pos_tl in Hp7 as Hp8.
  replace (p + 6 + 1) with (p + 7) in * by lia. replace (p + 7 + 1) with (p + 8) in * by lia.
  destruct (parse_hex4_eq s (p + 8) h2 lo (at_pos_prefix _ _ _ _ Hp8) Hh2) as [E8 _].
  unfold utf16_to_utf8. destruct (Z.ltb_spec (e - p) 6); [lia|]. rewrite E. bind_red.
  destruct ((56320 <=? hi) && (hi <=? 57343)) eqn:E1; [lia|].
  destruct ((55296 <=? hi) && (hi <=? 56319)) eqn:E2; [|lia].
  destruct (Z.ltb_spec (e - (p + 6)) 6); [lia|]. rewrite E6. bind_red. cbn [negb Z.eqb Pos.eqb].
  rewrite E7. bind_red. cbn [negb Z.eqb Pos.eqb]. rewrite E8. bind_red.
  destruct ((lo <? 56320) || (57343 <? lo)) eqn:E3; [lia|]. bind_red.
  assert (65536 + Z.lor (Z.shiftl (Z.land hi 1023) 10) (Z.land lo 1023) = cp) as ->.
  { rewrite !land_1023, lor_shiftl_add by (lia || (pose proof (Z.mod_pos_bound lo 1024); lia)).
    unfold cp. change (2 ^ 10) with 1024. Z.to_euclidean_division_equations. lia. }
  rewrite write_utf8_eq by (done || unfold cp; lia). done.
Qed.

Lemma wr_here w x junk c : 0 <= c < 256 -> wr (w ++ x :: junk) (zlen w) c = Ok ((w ++ [c]) ++ junk).
Proof.
  intros Hc. pose proof (wr_app w (x :: junk) 0 c ltac:(cbn; lia)) as E. rewrite Z.add_0_r in E. rewrite E.
  rewrite Z.mod_small by lia. by rewrite <- app_assoc.
Qed.

Lemma escape_of_octet d x : escape_of d = Some x -> octet d -> 0 < x < 256 /\ d <> 117.
Proof.
  unfold escape_of, octet. intros H Hd.
  repeat match type of H with context [if ?c then _ else _] => destruct c eqn:?; [injection H as <-; lia|] end. done.
Qed.

Lemma unescape_escape s p e out op fuel d x t :
  at_pos s p (92 :: d :: t) -> p < e -> escape_of d = Some x ->
  unescape_loop s p e out op (S fuel) = (out ← wr out op x; unescape_loop s (p + 2) e out (op + 1) fuel).
Proof.
  intros Hp He Hx. cbn [unescape_loop]. destruct (Z.ltb_spec p e); [|lia]. cbn [negb].
  rewrite (at_pos_hd _ _ _ _ Hp). bind_red. cbn [negb Z.eqb Pos.eqb]. apply at_pos_tl in Hp.
  rewrite (at_pos_hd _ _ _ _ Hp). bind_red. cbn zeta. unfold escape_of in Hx.
  repeat match type of Hx with context [if ?c then _ else _] => destruct c eqn:?; [injection Hx as <-; done|] end. done.
Qed.

Lemma unescape_unicode s p e out op fuel t :
  at_pos s p (92 :: 117 :: t) -> p < e ->
  unescape_loop s p e out op (S fuel) =
    (r ← utf16_to_utf8 s p e out op;
     match r with
     | None => Ok None
     | Some (out, op, sequence_length) => unescape_loop s (p + sequence_length) e out op fuel
     end).
Proof.
  intros Hp He. cbn [unescape_loop]. destruct (Z.ltb_spec p e); [|lia]. cbn [negb].
  rewrite (at_pos_hd _ _ _ _ Hp). bind_red. cbn [negb Z.eqb Pos.eqb]. apply at_pos_tl in Hp.
  rewrite (at_pos_hd _ _ _ _ Hp). done.
Qed.

Lemma unescape_jstr : forall e v n, jstr e v n -> forall s p w junk fuel,
  at_pos s p (e ++ [34]) -> zlen v < zlen junk -> zlen e < Z.of_nat fuel ->
  unescape_loop s p (p + zlen e) (w ++ junk) (zlen w) fuel =
    Ok (Some ((w ++ v) ++ drop (length v) junk, zlen w + zlen v)).
Proof.
  assert (Hnext : forall s p q w v' v junk (fuel : nat) op k,
    (forall s p w junk fuel, at_pos s p (q ++ [34]) -> zlen v < zlen junk -> zlen q < Z.of_nat fuel ->
      unescape_loop s p (p + zlen q) (w ++ junk) (zlen w) fuel =
        Ok (Some ((w ++ v) ++ drop (length v) junk, zlen w + zlen v))) ->
    at_pos s p (q ++ [34]) -> zlen v' + zlen v < zlen junk -> zlen q < Z.of_nat fuel ->
    op = zlen w + zlen v' -> k = p + zlen q ->
    unescape_loop s p k ((w ++ v') ++ drop (length v') junk) op fuel =
      Ok (Some ((w ++ v' ++ v) ++ drop (length (v' ++ v)) junk, zlen w + zlen (v' ++ v)))).
  { intros s p q w v' v junk fuel op k IH Hp Hj Hf -> ->.
    replace (zlen w + zlen v') with (zlen (w ++ v')) by list_lia. rewrite IH; [|done|list_lia|done].
    do 2 f_equal. f_equal; [|list_lia]. by rewrite drop_drop, length_app, !app_assoc. }
  intros e v n Hjs. induction Hjs as [|c e v n Hc H1 H2 _ IH|d x e v n Hd _ IH|h cp e v n Hh Hs He IH
                 |h1 h2 hi lo e v n Hh1 Hh2 Hhi Hlo He IH]; intros s p w junk fuel Hp Hj Hf;
    (destruct fuel as [|fuel]; [list_lia|]).
  - cbn [unescape_loop]. change (zlen []) with 0. rewrite !Z.add_0_r, Z.ltb_irrefl. cbn. by rewrite app_nil_r.
  - cbn [unescape_loop]. destruct (Z.ltb_spec p (p + zlen (c :: e))); [|list_lia]. cbn [negb app] in *.
    rewrite (at_pos_hd _ _ _ _ Hp). bind_red. destruct (Z.eqb_spec c 92); [done|]. cbn [negb].
    destruct junk as [|j junk]; [list_lia|]. rewrite wr_here by lia. bind_red.
    apply (Hnext s (p + 1) e w [c] v (j :: junk) fuel); [done|by apply at_pos_tl in Hp|list_lia..].
  - cbn [app] in Hp. rewrite (unescape_escape _ _ _ _ _ _ d x (e ++ [34])); [|done|list_lia|done].
    destruct (escape_of_octet _ _ Hd) as [Hx _].
    { destruct Hp as (? & ? & _ & _ & Ho). by octets_inv. }
    destruct junk as [|j junk]; [list_lia|]. rewrite wr_here by lia. bind_red.
    apply (Hnext s (p + 2) e w [x] v (j :: junk) fuel); [done|by apply (at_pos_skip s p [92; d])|list_lia..].
  - pose proof (hex4_length _ _ Hh). cbn [app] in Hp. rewrite <- app_assoc in Hp.
    rewrite (unescape_unicode _ _ _ _ _ _ (h ++ e ++ [34])); [|done|list_lia].
    rewrite (utf16_bmp _ _ _ h cp (e ++ [34])); [|done..|list_lia|list_lia]. bind_red.
    rewrite app_assoc. apply (Hnext s (p + 6) e w (utf8 cp) v junk fuel); [done| |list_lia..].
    apply (at_pos_skip s p (92 :: 117 :: h) _ 6); [done|list_lia].
  - pose proof (hex4_length _ _ Hh1). pose proof (hex4_length _ _ Hh2).
    cbn [app] in Hp. rewrite <- app_assoc in Hp. cbn [app] in Hp. rewrite <- app_assoc in Hp.
    rewrite (unescape_unicode _ _ _ _ _ _ (h1 ++ 92 :: 117 :: h2 ++ e ++ [34])); [|done|list_lia].
    rewrite (utf16_surrogates _ _ _ h1 h2 hi lo (e ++ [34])); [|done..|list_lia|list_lia]. bind_red.
    rewrite app_assoc. eapply (Hnext s (p + 12) e w _ v junk fuel); [done| |list_lia..].
    apply (at_pos_skip s p (92 :: 117 :: h1 ++ 92 :: 117 :: h2) _ 12); [|list_lia].
    cbn [app]. by rewrite <- !app_assoc.
Qed.

(** The octets of the parts of a text. *)
Ltac octets_split :=
  repeat match goal with
  | H : Forall octet (_ :: _) |- _ => apply Forall_cons_iff in H as [? H]
  | H : Forall octet (_ ++ _) |- _ => apply Forall_app in H as [? H]
  end.

(** [parse_string] reads the text of a string, up to the closing quote; the text ends at a
    NUL, which can only be there as an escape. *)
Lemma parse_string_eq b e v n t :
  sees b (34 :: e ++ 34 :: t) -> jstr e v n ->
  exists blk, parse_string b = Ok (Some (blk, set_offset b (offset b + (zlen e + 2)))) /\ cstr blk = cstr v.
Proof.
  intros Hs He. pose proof (jstr_size _ _ _ He) as [Hn Hsz]. unfold parse_string. rewrite (sees_at _ _ _ Hs). bind_red.
  cbn [negb Z.eqb Pos.eqb]. cbn zeta. pose proof Hs as (pre & junk & E & E1 & E2 & Ho).
  assert (at_pos (content b) (offset b + 1) (e ++ [34])) as Hp.
  { exists (pre ++ [34]), (t ++ 0 :: junk). split_and!; [by rewrite E; simplify_list_eq|list_lia|].
    octets_split. apply Forall_app; split; [done|]. octets_tac. }
  rewrite (scan_jstr _ _ _ He) by (done || list_lia). bind_red. cbn zeta.
  pose proof (unescape_jstr _ _ _ He (content b) (offset b + 1) []
    (gw_malloc (offset b + 1 + zlen e - offset b - (0 + n) + 1))
    (S (Z.to_nat (offset b + 1 + zlen e - (offset b + 1)))) Hp) as Eu.
  cbn [app] in Eu. change (zlen []) with 0 in Eu. pose proof (zlen_nonneg e). pose proof (zlen_nonneg v).
  rewrite Eu; [|rewrite zlen_gw_malloc; lia|lia]. bind_red.
  set (m := gw_malloc _). assert (zlen m = zlen e - n + 2) as Hm by (unfold m; rewrite zlen_gw_malloc; lia).
  destruct (drop (length v) m) as [|x k] eqn:Ek; [apply (f_equal length) in Ek; list_lia|].
  rewrite Z.add_0_l, wr_here by lia. bind_red. eexists. split.
  - do 3 f_equal. unfold set_offset. f_equal. lia.
  - rewrite <- app_assoc. cbn [app]. apply cstr_app_nul.
Qed.
