(* ===== verification/JsonValue.v ===== *)
(** * The texts that the JSON parser accepts

    [jtext d t v]: the text [t] is a JSON text of the value [v], in which arrays and
    objects are nested at most [d] deep.  [json_parse] (Json.v) reads every such
    text to its value. *)

From Stdlib Require Import SpecFloat.
From S2P Require Import Prelude Octstr OctstrCode OctstrFormat Json JsonSafe JsonText.

(** ** Values *)

Inductive jval :=
| VNull
| VBool (x : bool)
| VNum (d : spec_float) (n : Z)
| VStr (s : list Z)
| VArr (l : list jval)
| VObj (l : list (list Z * jval)).

(** The value that a node of the parser stands for. *)
Fixpoint mean (j : JSON) : jval :=
  let '(mkJSON t s n d k js) := j in
  if t =? JSON_NULL then VNull
  else if t =? JSON_TRUE then VBool true
  else if t =? JSON_FALSE then VBool false
  else if t =? JSON_NUMBER then VNum d n
  else if t =? JSON_STRING then VStr (cstr (default [] s))
  else if t =? JSON_ARRAY then VArr (map mean js)
  else VObj (map (fun j => (cstr (default [] (string j)), mean j)) js).

Definition member (j : JSON) : list Z * jval := (cstr (default [] (string j)), mean j).

(** The [int] that [parse_number] stores for a [double]. *)
Definition clamp_int (d : spec_float) : Z :=
  if double_ge d INT_MAX32 then INT_MAX32 else if double_le d INT_MIN32 then INT_MIN32 else double_to_int d.

(** The text of a number, as [strtod] reads it. *)
Definition jnumber (t : list Z) (d : spec_float) : Prop :=
  match t with
  | c :: _ => c = 45 \/ isdigit c = true
  | [] => False
  end /\ Forall (fun c => is_number_char c = true) t /\ strtod t = (d, zlen t).

(** ** The grammar

    The value of a string is kept as a C string: it ends at the first NUL, which is there
    for the escape \u0000. *)

Inductive jtext : nat -> list Z -> jval -> Prop :=
| jt_null d : jtext d NULL_TEXT VNull
| jt_true d : jtext d TRUE_TEXT (VBool true)
| jt_false d : jtext d FALSE_TEXT (VBool false)
| jt_num d t x : jnumber t x -> jtext d t (VNum x (clamp_int x))
| jt_str d e s n : jstr e s n -> jtext d (34 :: e ++ [34]) (VStr (cstr s))
| jt_arr_nil d w : white w -> jtext (S d) (91 :: w ++ [93]) (VArr [])
| jt_arr d ts vs : jelems d ts vs -> jtext (S d) (91 :: ts ++ [93]) (VArr vs)
| jt_obj_nil d w : white w -> jtext (S d) (123 :: w ++ [125]) (VObj [])
| jt_obj d ts vs : jmembers d ts vs -> jtext (S d) (123 :: ts ++ [125]) (VObj vs)
with jelems : nat -> list Z -> list jval -> Prop :=
| je_last d w t v w' : white w -> jtext d t v -> white w' -> jelems d (w ++ t ++ w') [v]
| je_more d w t v w' ts vs : white w -> jtext d t v -> white w' -> jelems d ts vs ->
    jelems d (w ++ t ++ w' ++ 44 :: ts) (v :: vs)
with jmembers : nat -> list Z -> list (list Z * jval) -> Prop :=
| jm_last d w e k n w1 w2 t v w' : white w -> jstr e k n -> white w1 -> white w2 -> jtext d t v -> white w' ->
    jmembers d (w ++ 34 :: e ++ 34 :: w1 ++ 58 :: w2 ++ t ++ w') [(cstr k, v)]
| jm_more d w e k n w1 w2 t v w' ts vs : white w -> jstr e k n -> white w1 -> white w2 -> jtext d t v ->
    white w' -> jmembers d ts vs ->
    jmembers d (w ++ 34 :: e ++ 34 :: w1 ++ 58 :: w2 ++ t ++ w' ++ 44 :: ts) ((cstr k, v) :: vs).

Scheme jtext_ind_mut := Minimality for jtext Sort Prop
with jelems_ind_mut := Minimality for jelems Sort Prop
with jmembers_ind_mut := Minimality for jmembers Sort Prop.
Combined Scheme jgrammar_ind from jtext_ind_mut, jelems_ind_mut, jmembers_ind_mut.

(** A number ends where no character of a number follows. *)
Definition number_end (t : list Z) : Prop := match t with c :: _ => is_number_char c = false | [] => True end.

(** ** Numbers *)

Lemma sees_index b k c t : sees b (k ++ c :: t) -> at_offset b (zlen k) = Ok c.
Proof. intros Hs. apply (sees_rd b _ (length k) c Hs). by rewrite list_lookup_middle. Qed.

Lemma number_loop_eq n : forall b k rest fuel,
  sees b (k ++ n ++ rest) -> Forall (fun c => is_number_char c = true) n -> number_end rest ->
  (length n < fuel)%nat -> number_loop b (zlen k) fuel = Ok (zlen k + zlen n).
Proof.
  induction n as [|c n IH]; intros b k rest fuel Hs Hn Hr Hf; (destruct fuel as [|fuel]; [lia|]);
    cbn [number_loop]; rewrite (sees_access _ _ _ Hs).
  - change (zlen []) with 0. rewrite Z.add_0_r. destruct rest as [|c rest].
    + destruct (Z.ltb_spec (zlen k) (zlen (k ++ [] ++ []))); [list_lia|done].
    + destruct (Z.ltb_spec (zlen k) (zlen (k ++ [] ++ c :: rest))); [|done].
      rewrite (sees_index b k c rest Hs).
      bind_red. cbn in Hr. by rewrite Hr.
  - apply Forall_cons_iff in Hn as [Hc Hn]. destruct (Z.ltb_spec (zlen k) (zlen (k ++ (c :: n) ++ rest))); [|list_lia].
    rewrite (sees_index b k c (n ++ rest) Hs).
    bind_red. rewrite Hc. replace (zlen k + 1) with (zlen (k ++ [c])) by list_lia.
    rewrite (IH b (k ++ [c]) rest); [f_equal; list_lia|by simplify_list_eq|done..|cbn in Hf; lia].
Qed.

Lemma slice_app {A} (l k r : list A) : slice (l ++ k ++ r) (zlen l) (zlen k) = k.
Proof. unfold slice, zlen. rewrite !Nat2Z.id, drop_app_length. by rewrite take_app_length. Qed.

Lemma parse_number_eq b t rest x item :
  sees b (t ++ rest) -> jnumber t x -> number_end rest ->
  parse_number item b = Ok (Some (set_jnumber item x (clamp_int x), set_offset b (offset b + zlen t))).
Proof.
  intros Hs (Hc & Hn & Hd) Hr. pose proof Hs as (pre & junk & E & E1 & E2 & Ho).
  assert (Forall (fun c => c <> 0) t) as Hnz.
  { revert Hn. apply Forall_impl. intros c H ->. done. }
  unfold parse_number. rewrite (number_loop_eq t b [] rest) by (done || list_lia). bind_red.
  change (zlen [] + zlen t) with (zlen t). pose proof (zlen_nonneg t).
  rewrite mem_copy_ok; [|lia|rewrite E1; apply zlen_nonneg|lia|rewrite zlen_gw_malloc; lia|rewrite E, E1; list_lia].
  bind_red. rewrite E, E1, <- app_assoc, slice_app.
  assert (overwrite (gw_malloc (zlen t + 1)) 0 t = t ++ [UNINIT]) as ->.
  { unfold overwrite, gw_malloc. rewrite take_0, drop_replicate. cbn [app]. f_equal.
    by replace (_ - _)%nat with 1%nat by list_lia. }
  rewrite (wr_here t UNINIT [] 0) by lia. bind_red. rewrite app_nil_r, cstr_app_nul, (cstr_no_nul _ Hnz), Hd.
  destruct (Z.eqb_spec (zlen t) 0); [destruct t; [done|list_lia]|]. by rewrite <- E1.
Qed.

(** ** Steps of the parser *)

Notation adv b n := (set_offset b (offset b + n)).

Ltac adv_tac := unfold set_offset, set_depth; cbn -[zlen]; f_equal; list_lia.

Lemma adv_adv b n m : adv (adv b n) m = adv b (n + m).
Proof. unfold set_offset. cbn. f_equal. lia. Qed.

Lemma sees_part b l k t n : sees b l -> l = k ++ t -> n = zlen k -> sees (adv b n) t.
Proof. intros Hs ->. by apply sees_skip. Qed.

Lemma reads_yes b lit t : sees b (lit ++ t) -> reads b lit = Ok true.
Proof. intros Hs. rewrite (reads_eq _ _ _ Hs). f_equal. apply bool_decide_eq_true. by eexists. Qed.

Lemma reads_no b c t d lit : sees b (c :: t) -> c <> d -> reads b (d :: lit) = Ok false.
Proof.
  intros Hs Hc. rewrite (reads_eq _ _ _ Hs). f_equal. apply bool_decide_eq_false. intros [k E]. by injection E.
Qed.

(** [parse_value] by the first character. *)
Lemma value_dispatch fuel item b c t :
  sees b (c :: t) -> c <> 110 -> c <> 102 -> c <> 116 ->
  parse_value (S fuel) item b =
    if c =? 34 then
      r ← parse_string b;
      match r with
      | None => Ok None
      | Some (s, b) => Ok (Some (set_jstring item s, b))
      end
    else if (c =? 45) || isdigit c then parse_number item b
    else if c =? 91 then parse_array fuel item b
    else if c =? 123 then parse_object fuel item b
    else Ok None.
Proof.
  intros Hs H1 H2 H3. cbn [parse_value]. unfold NULL_TEXT, FALSE_TEXT, TRUE_TEXT.
  rewrite !(reads_no _ _ _ _ _ Hs) by done. bind_red. rewrite (sees_access _ _ _ Hs).
  destruct (Z.ltb_spec 0 (zlen (c :: t))); [|list_lia]. cbn [negb]. by rewrite (sees_at _ _ _ Hs).
Qed.

Lemma skip_none b t : sees b t -> no_space t -> buffer_skip_whitespace b = Ok b.
Proof.
  intros Hs Ht. rewrite (skip_whitespace_eq b [] t Hs) by (apply Forall_nil_2 || done).
  change (zlen []) with 0. by rewrite set_offset_id.
Qed.

Lemma number_end_white w t : white w -> number_end t -> number_end (w ++ t).
Proof.
  intros Hw Ht. destruct w as [|c w]; [done|]. apply Forall_cons_iff in Hw as [[_ Hc] _]. cbn.
  unfold is_number_char, isdigit. lia.
Qed.

Lemma jtext_head d t v : jtext d t v ->
  exists c t', t = c :: t' /\ 32 < c < 128 /\ c <> 93 /\ c <> 125.
Proof.
  destruct 1 as [d|d|d|d t x [H _]|d e s n _|d w _|d ts vs _|d w _|d ts vs _]; try by (eexists _, _; split; [done|lia]).
  destruct t as [|c t]; [done|]. exists c, t. split; [done|]. unfold isdigit in H. lia.
Qed.

(** What the induction shows of values, and of what comes between the brackets:
    [b'] is the buffer after white space, where the first item begins. *)
Definition room (fuel : nat) (b : parse_buffer) (d : nat) (need : Z) : Prop :=
  depth b + Z.of_nat d <= JSON_NESTING_LIMIT /\ need <= Z.of_nat fuel.

Definition value_reads (d : nat) (t : list Z) (v : jval) : Prop := forall fuel item b rest,
  sees b (t ++ rest) -> number_end rest -> room fuel b d (3 * zlen t + 1) ->
  exists j, parse_value fuel item b = Ok (Some (j, adv b (zlen t))) /\ mean j = v /\ string j = string item.

Definition items_read {A} (parse : nat -> parse_buffer -> res (option (list JSON * parse_buffer)))
  (close : Z) (f : JSON -> A) (d : nat) (ts : list Z) (vs : list A) : Prop :=
  exists w ts', ts = w ++ ts' /\ white w /\
    match ts' with c :: _ => 32 < c /\ c <> 93 /\ c <> 125 | [] => False end /\
    forall fuel b b' rest,
      can_access_at_index b 1 = true -> buffer_skip_whitespace (adv b 1) = Ok b' -> sees b' (ts' ++ close :: rest) ->
      room fuel b' d (3 * zlen ts' + 2) ->
      exists js, parse fuel b = Ok (Some (js, adv b' (zlen ts'))) /\ map f js = vs.

Notation elements_read := (items_read parse_elements 93 mean).
Notation members_read := (items_read parse_members 125 member).

(** The comma and the items after it, or the closing bracket. *)
Lemma more_items {A} (parse : nat -> parse_buffer -> res (option (list JSON * parse_buffer)))
  close (f : JSON -> A) d ts vs fuel b w rest (j : JSON) :
  items_read parse close f d ts vs -> sees b (w ++ 44 :: ts ++ close :: rest) -> white w ->
  room fuel b d (3 * zlen ts + 2) ->
  exists js,
    (b ← buffer_skip_whitespace b;
     more ← next_is b 44;
     if more : bool then
       r ← parse fuel b;
       match r with
       | None => Ok None
       | Some (js, b) => Ok (Some (j :: js, b))
       end
     else Ok (Some ([j], b))) = Ok (Some (j :: js, adv b (zlen (w ++ 44 :: ts)))) /\ map f js = vs.
Proof.
  intros (w' & ts' & -> & Hw' & Hh & IH) Hs Hw [Hd Hf].
  rewrite (skip_whitespace_eq b w _ Hs Hw) by (cbn; lia). bind_red.
  apply (sees_skip b w _ (zlen w)) in Hs; [|done]. rewrite (next_is_eq _ _ _ Hs). bind_red.
  change (44 =? 44) with true. cbn match. set (b1 := adv b (zlen w)) in *.
  pose proof (sees_skip b1 [44] _ 1 Hs eq_refl) as Hs1. rewrite <- app_assoc in Hs1.
  assert (no_space (ts' ++ close :: rest)) as Hn by (destruct ts'; [done|cbn; lia]).
  destruct (IH fuel b1 (adv (adv b1 1) (zlen w')) rest) as (js & -> & E).
  - rewrite (sees_access _ _ _ Hs). list_lia.
  - by apply skip_whitespace_eq with (t := ts' ++ close :: rest).
  - by apply (sees_skip _ w').
  - split; [done|]. revert Hf. list_lia.
  - exists js. split; [|done]. bind_red. do 3 f_equal. unfold b1. adv_tac.
Qed.

Lemma no_more_items (close : Z) (m : parse_buffer -> res (option (list JSON * parse_buffer))) b w rest (j : JSON) :
  close = 93 \/ close = 125 -> sees b (w ++ close :: rest) -> white w ->
  (b ← buffer_skip_whitespace b;
   more ← next_is b 44;
   if more : bool then m b else Ok (Some ([j], b))) = Ok (Some ([j], adv b (zlen w))).
Proof.
  intros Hc Hs Hw. rewrite (skip_whitespace_eq b w _ Hs Hw) by (cbn; lia). bind_red.
  apply (sees_skip b w _ (zlen w)) in Hs; [|done]. rewrite (next_is_eq _ _ _ Hs). bind_red.
  by destruct (Z.eqb_spec close 44); [lia|].
Qed.

(** [parse_array] and [parse_object] after the opening bracket. *)
Definition brackets (loop : parse_buffer -> res (option (list JSON * parse_buffer))) (close t : Z)
  (item : JSON) (b : parse_buffer) : res (option (JSON * parse_buffer)) :=
  b ← buffer_skip_whitespace (adv b 1);
  e ← next_is b close;
  if e : bool then
    Ok (Some (set_jchild item t [], set_offset (set_depth b (depth b - 1)) (offset b + 1)))
  else if negb (can_access_at_index b 0) then Ok None
  else
    r ← loop (set_offset b (offset b - 1));
    match r with
    | None => Ok None
    | Some (js, b) =>
        e ← next_is b close;
        if negb e then Ok None
        else Ok (Some (set_jchild item t js, set_offset (set_depth b (depth b - 1)) (offset b + 1)))
    end.

Lemma array_brackets fuel item b t : sees b (91 :: t) -> depth b < JSON_NESTING_LIMIT ->
  parse_array (S fuel) item b = brackets (parse_elements fuel) 93 JSON_ARRAY item (set_depth b (depth b + 1)).
Proof.
  intros Hs Hd. cbn [parse_array]. destruct (Z.leb_spec JSON_NESTING_LIMIT (depth b)); [lia|]. cbn zeta.
  by rewrite (sees_at _ _ _ (sees_depth _ _ _ Hs)).
Qed.

Lemma object_brackets fuel item b t : sees b (123 :: t) -> depth b < JSON_NESTING_LIMIT ->
  parse_object (S fuel) item b = brackets (parse_members fuel) 125 JSON_OBJECT item (set_depth b (depth b + 1)).
Proof.
  intros Hs Hd. cbn [parse_object]. destruct (Z.leb_spec JSON_NESTING_LIMIT (depth b)); [lia|]. cbn zeta.
  by rewrite (next_is_eq _ _ _ (sees_depth _ _ _ Hs)).
Qed.

Lemma brackets_nil loop close t item b c w rest : 32 < close ->
  sees b (c :: w ++ close :: rest) -> white w ->
  brackets loop close t item b =
    Ok (Some (set_jchild item t [], adv (set_depth b (depth b - 1)) (zlen (c :: w ++ [close])))).
Proof.
  intros Hc Hs Hw. unfold brackets. apply (sees_skip b [c] _ 1) in Hs; [|done].
  rewrite (skip_whitespace_eq _ w _ Hs Hw) by done. bind_red.
  apply (sees_skip _ w _ (zlen w)) in Hs; [|done]. rewrite (next_is_eq _ _ _ Hs). bind_red.
  rewrite Z.eqb_refl. do 3 f_equal. adv_tac.
Qed.

Lemma brackets_items {A} loop close (f : JSON -> A) t item d fuel b c ts vs rest :
  close = 93 \/ close = 125 -> items_read loop close f d ts vs ->
  sees b (c :: ts ++ close :: rest) -> room fuel b d (3 * zlen ts + 2) ->
  exists js, brackets (loop fuel) close t item b =
    Ok (Some (set_jchild item t js, adv (set_depth b (depth b - 1)) (zlen (c :: ts ++ [close])))) /\ map f js = vs.
Proof.
  intros Hc (w & ts' & -> & Hw & Hh & IH) Hs [Hd Hf]. unfold brackets.
  apply (sees_skip b [c] _ 1) in Hs; [|done]. rewrite <- app_assoc in Hs.
  assert (no_space (ts' ++ close :: rest)) as Hn by (destruct ts'; [done|cbn; lia]).
  rewrite (skip_whitespace_eq _ w _ Hs Hw) by done. bind_red.
  apply (sees_skip _ w _ (zlen w)) in Hs; [|done]. rewrite (next_is_eq _ _ _ Hs). bind_red.
  set (b1 := adv (adv b 1) (zlen w)) in *. destruct ts' as [|c1 ts']; [done|]. cbn [app] in *.
  destruct (Z.eqb_spec c1 close); [lia|]. rewrite (sees_access _ _ _ Hs).
  destruct (Z.ltb_spec 0 (zlen (c1 :: ts' ++ close :: rest))); [|list_lia]. cbn [negb].
  assert (adv (set_offset b1 (offset b1 - 1)) 1 = b1) as Eb by (destruct b1; adv_tac).
  destruct (IH fuel (set_offset b1 (offset b1 - 1)) b1 rest) as (js & -> & E).
  - pose proof (sees_access _ _ 0 Hs) as Ha. unfold can_access_at_index in *. cbn -[zlen] in *.
    apply Z.ltb_lt. revert Ha. destruct (Z.ltb_spec (offset b1 + 0) (buf_length b1)); [lia|]. list_lia.
  - rewrite Eb. by apply skip_none with (t := c1 :: ts' ++ close :: rest).
  - done.
  - split; [done|]. revert Hf. list_lia.
  - bind_red. apply (sees_skip _ (c1 :: ts') _ (zlen (c1 :: ts'))) in Hs; [|done].
    rewrite (next_is_eq _ _ _ Hs). bind_red. rewrite Z.eqb_refl. cbn [negb].
    exists js. split; [|done]. do 3 f_equal. unfold b1. adv_tac.
Qed.

(** ** The induction *)

Lemma first_value d t v r : jtext d t v ->
  match t ++ r with c :: _ => 32 < c /\ c <> 93 /\ c <> 125 | [] => False end.
Proof. intros H. destruct (jtext_head _ _ _ H) as (c & t' & -> & Hc). cbn. lia. Qed.

Lemma elements_last d w t v w' :
  white w -> jtext d t v -> value_reads d t v -> white w' -> elements_read d (w ++ t ++ w') [v].
Proof.
  intros Hw Ht Hv Hw'. exists w, (t ++ w'). split_and!; [done..|by eapply first_value|].
  intros fuel b b' rest _ Hb Hs [Hd Hf]. destruct fuel as [|fuel]; [list_lia|].
  cbn [parse_elements]. rewrite Hb. bind_red. rewrite <- app_assoc in Hs.
  destruct (Hv fuel json_new_item b' _ Hs) as (j & -> & Hj & _).
  - by apply number_end_white.
  - split; [done|]. revert Hf. list_lia.
  - bind_red. apply (sees_skip _ t _ (zlen t)) in Hs; [|done].
    rewrite (no_more_items 93 _ _ w' rest) by (done || lia). exists [j]. split; [|cbn; by rewrite Hj].
    do 3 f_equal. adv_tac.
Qed.

Lemma elements_more d w t v w' ts vs :
  white w -> jtext d t v -> value_reads d t v -> white w' -> elements_read d ts vs ->
  elements_read d (w ++ t ++ w' ++ 44 :: ts) (v :: vs).
Proof.
  intros Hw Ht Hv Hw' Hts. exists w, (t ++ w' ++ 44 :: ts). split_and!; [done..|by eapply first_value|].
  intros fuel b b' rest _ Hb Hs [Hd Hf]. destruct fuel as [|fuel]; [list_lia|].
  cbn [parse_elements]. rewrite Hb. bind_red. rewrite <- !app_assoc in Hs.
  destruct (Hv fuel json_new_item b' _ Hs) as (j & -> & Hj & _).
  - by apply number_end_white.
  - split; [done|]. revert Hf. list_lia.
  - bind_red. apply (sees_skip _ t _ (zlen t)) in Hs; [|done].
    destruct (more_items _ _ _ _ _ _ fuel _ w' rest j Hts Hs Hw') as (js & -> & E).
    { split; [done|]. revert Hf. list_lia. }
    exists (j :: js). split; [|cbn; by rewrite Hj, E]. do 3 f_equal. adv_tac.
Qed.

(** A key, the colon and the value. *)
Lemma member_reads d e k n w1 w2 t v fuel b b' rest :
  jstr e k n -> white w1 -> white w2 -> jtext d t v -> value_reads d t v ->
  can_access_at_index b 1 = true -> buffer_skip_whitespace (adv b 1) = Ok b' ->
  sees b' (34 :: e ++ 34 :: w1 ++ 58 :: w2 ++ t ++ rest) -> number_end rest ->
  room fuel b' d (3 * zlen t + 1) ->
  exists j,
    parse_members (S fuel) b =
      (b ← buffer_skip_whitespace (adv b' (zlen (34 :: e ++ 34 :: w1 ++ 58 :: w2 ++ t)));
       more ← next_is b 44;
       if more : bool then
         r ← parse_members fuel b;
         match r with
         | None => Ok None
         | Some (js, b) => Ok (Some (j :: js, b))
         end
       else Ok (Some ([j], b))) /\ member j = (cstr k, v).
Proof.
  intros He Hw1 Hw2 Ht Hv Ha Hb Hs Hr [Hd Hf]. cbn [parse_members]. rewrite Ha. cbn [negb]. rewrite Hb. bind_red.
  destruct (parse_string_eq _ _ _ _ _ Hs He) as (blk & -> & Ek). bind_red.
  pose proof (sees_part _ _ (34 :: e ++ [34]) (w1 ++ 58 :: w2 ++ t ++ rest) (zlen e + 2) Hs
    ltac:(by simplify_list_eq) ltac:(list_lia)) as Hs1.
  rewrite (skip_whitespace_eq _ w1 _ Hs1 Hw1) by (cbn; lia). bind_red.
  apply (sees_skip _ w1 _ (zlen w1)) in Hs1; [|done]. rewrite (next_is_eq _ _ _ Hs1). bind_red.
  change (58 =? 58) with true. cbn [negb]. apply (sees_skip _ [58] _ 1) in Hs1; [|done].
  assert (no_space (t ++ rest)) as Hn by (destruct (jtext_head _ _ _ Ht) as (c & t' & -> & Hc & _); cbn; lia).
  rewrite (skip_whitespace_eq _ w2 _ Hs1 Hw2 Hn). bind_red. apply (sees_skip _ w2 _ (zlen w2)) in Hs1; [|done].
  destruct (Hv fuel (set_jkey (set_jstring json_new_item blk)) _ rest Hs1 Hr) as (j & -> & Hj & Hk); [done|].
  bind_red. exists j. split; [|unfold member; by rewrite Hk, Hj; cbn; rewrite Ek].
  rewrite !adv_adv. do 3 f_equal. list_lia.
Qed.

Lemma members_last d w e k n w1 w2 t v w' :
  white w -> jstr e k n -> white w1 -> white w2 -> jtext d t v -> value_reads d t v -> white w' ->
  members_read d (w ++ 34 :: e ++ 34 :: w1 ++ 58 :: w2 ++ t ++ w') [(cstr k, v)].
Proof.
  intros Hw He Hw1 Hw2 Ht Hv Hw'. exists w, (34 :: e ++ 34 :: w1 ++ 58 :: w2 ++ t ++ w').
  split_and!; [done..|lia|lia|lia|]. intros fuel b b' rest Ha Hb Hs [Hd Hf]. destruct fuel as [|fuel]; [list_lia|].
  destruct (member_reads d e k n w1 w2 t v fuel b b' (w' ++ 125 :: rest)) as (j & -> & Hj);
    [done..|by simplify_list_eq|by apply number_end_white|split; [done|revert Hf; list_lia]|].
  apply (sees_part _ _ (34 :: e ++ 34 :: w1 ++ 58 :: w2 ++ t) (w' ++ 125 :: rest)
    (zlen (34 :: e ++ 34 :: w1 ++ 58 :: w2 ++ t))) in Hs; [|by simplify_list_eq|done].
  rewrite (no_more_items 125 _ _ w' rest) by (done || lia). exists [j]. split; [|cbn; by rewrite Hj].
  do 3 f_equal. adv_tac.
Qed.

Lemma members_more d w e k n w1 w2 t v w' ts vs :
  white w -> jstr e k n -> white w1 -> white w2 -> jtext d t v -> value_reads d t v -> white w' ->
  members_read d ts vs ->
  members_read d (w ++ 34 :: e ++ 34 :: w1 ++ 58 :: w2 ++ t ++ w' ++ 44 :: ts) ((cstr k, v) :: vs).
Proof.
  intros Hw He Hw1 Hw2 Ht Hv Hw' Hts. exists w, (34 :: e ++ 34 :: w1 ++ 58 :: w2 ++ t ++ w' ++ 44 :: ts).
  split_and!; [done..|lia|lia|lia|]. intros fuel b b' rest Ha Hb Hs [Hd Hf]. destruct fuel as [|fuel]; [list_lia|].
  destruct (member_reads d e k n w1 w2 t v fuel b b' (w' ++ 44 :: ts ++ 125 :: rest)) as (j & -> & Hj);
    [done..|by simplify_list_eq|by apply number_end_white|split; [done|revert Hf; list_lia]|].
  apply (sees_part _ _ (34 :: e ++ 34 :: w1 ++ 58 :: w2 ++ t) (w' ++ 44 :: ts ++ 125 :: rest)
    (zlen (34 :: e ++ 34 :: w1 ++ 58 :: w2 ++ t))) in Hs; [|by simplify_list_eq|done].
  destruct (more_items _ _ _ _ _ _ fuel _ w' rest j Hts Hs Hw') as (js & -> & E).
  { split; [done|]. revert Hf. list_lia. }
  exists (j :: js). split; [|cbn; by rewrite Hj, E]. do 3 f_equal. adv_tac.
Qed.

Lemma literal_reads d t v :
  (t, v) = (NULL_TEXT, VNull) \/ (t, v) = (TRUE_TEXT, VBool true) \/ (t, v) = (FALSE_TEXT, VBool false) ->
  value_reads d t v.
Proof.
  intros Hl fuel item b rest Hs _ [_ Hf]. destruct fuel as [|fuel]; [list_lia|]. cbn [parse_value].
  pose proof Hs as Hs'. destruct Hl as [[= -> ->]|[[= -> ->]|[= -> ->]]]; cbn [app TRUE_TEXT FALSE_TEXT NULL_TEXT] in Hs'.
  - rewrite (reads_yes _ _ _ Hs). by eexists.
  - unfold NULL_TEXT, FALSE_TEXT. rewrite !(reads_no _ _ _ _ _ Hs') by done. bind_red.
    rewrite (reads_yes _ _ _ Hs). by eexists.
  - unfold NULL_TEXT. rewrite (reads_no _ _ _ _ _ Hs') by done. bind_red. rewrite (reads_yes _ _ _ Hs). by eexists.
Qed.

Lemma number_reads d t x : jnumber t x -> value_reads d t (VNum x (clamp_int x)).
Proof.
  intros Ht fuel item b rest Hs Hr [_ Hf]. destruct fuel as [|fuel]; [list_lia|].
  pose proof Ht as [Hc _]. destruct t as [|c t]; [done|]. unfold isdigit in Hc.
  rewrite (value_dispatch _ _ _ c (t ++ rest)) by (done || lia).
  destruct (Z.eqb_spec c 34); [lia|]. destruct ((c =? 45) || isdigit c) eqn:E; [|unfold isdigit in E; lia].
  rewrite (parse_number_eq b (c :: t) rest x) by done. by eexists.
Qed.

Lemma string_reads d e s n : jstr e s n -> value_reads d (34 :: e ++ [34]) (VStr (cstr s)).
Proof.
  intros He fuel item b rest Hs _ [_ Hf]. destruct fuel as [|fuel]; [list_lia|]. cbn [app] in Hs.
  rewrite <- app_assoc in Hs. rewrite (value_dispatch _ _ _ _ _ Hs) by done.
  change (34 =? 34) with true. cbn match. destruct (parse_string_eq _ _ _ _ _ Hs He) as (blk & -> & E). bind_red.
  eexists. split; [do 3 f_equal; adv_tac|]. cbn. by rewrite E.
Qed.

(** The brackets of an array or an object. *)
Lemma nested_reads {A} d c close t loop parse (f : JSON -> A) ts vs :
  close = 93 \/ close = 125 ->
  (forall fuel item b ts, sees b (c :: ts) -> parse_value (S fuel) item b = parse fuel item b) ->
  (forall fuel item b ts, sees b (c :: ts) -> depth b < JSON_NESTING_LIMIT ->
     parse (S fuel) item b = brackets (loop fuel) close t item (set_depth b (depth b + 1))) ->
  (white ts /\ vs = []) \/ items_read loop close f d ts vs ->
  forall fuel item b rest,
    sees b ((c :: ts ++ [close]) ++ rest) -> room fuel b (S d) (3 * zlen (c :: ts ++ [close]) + 1) ->
    exists js, parse_value fuel item b = Ok (Some (set_jchild item t js, adv b (zlen (c :: ts ++ [close])))) /\
      map f js = vs.
Proof.
  intros Hc Hpv Hpb Hts fuel item b rest Hs [Hd Hf]. cbn [app] in Hs. rewrite <- app_assoc in Hs. cbn [app] in Hs.
  destruct fuel as [|[|fuel]]; [list_lia..|]. rewrite (Hpv _ _ _ _ Hs), (Hpb _ _ _ _ Hs) by lia.
  apply sees_depth with (d := depth b + 1) in Hs.
  assert (set_depth (set_depth b (depth b + 1)) (depth b + 1 - 1) = b) as Eb by (destruct b; adv_tac).
  destruct Hts as [[Hw ->]|Hts].
  - rewrite (brackets_nil _ close _ _ _ c ts rest) by (done || lia). exists []. split; [|done].
    cbn [depth set_depth]. by rewrite Eb.
  - destruct (brackets_items loop close f t item d fuel _ c ts vs rest Hc Hts Hs) as (js & -> & E).
    + split; [cbn; lia|]. revert Hf. list_lia.
    + exists js. split; [|done]. cbn [depth set_depth]. by rewrite Eb.
Qed.

Lemma array_reads d ts vs :
  (white ts /\ vs = []) \/ elements_read d ts vs -> value_reads (S d) (91 :: ts ++ [93]) (VArr vs).
Proof.
  intros Hts fuel item b rest Hs _ Hr.
  destruct (nested_reads d 91 93 JSON_ARRAY parse_elements parse_array mean ts vs) with (fuel := fuel) (item := item)
    (b := b) (rest := rest) as (js & -> & E); [lia| |by intros; eapply array_brackets|done..|].
  - intros fuel' item' b' ts' Hs'. by rewrite (value_dispatch _ _ _ _ _ Hs').
  - eexists. split; [done|]. cbn. by rewrite E.
Qed.

Lemma object_reads d ts vs :
  (white ts /\ vs = []) \/ members_read d ts vs -> value_reads (S d) (123 :: ts ++ [125]) (VObj vs).
Proof.
  intros Hts fuel item b rest Hs _ Hr.
  destruct (nested_reads d 123 125 JSON_OBJECT parse_members parse_object member ts vs) with (fuel := fuel)
    (item := item) (b := b) (rest := rest) as (js & -> & E); [lia| |by intros; eapply object_brackets|done..|].
  - intros fuel' item' b' ts' Hs'. by rewrite (value_dispatch _ _ _ _ _ Hs').
  - eexists. split; [done|]. split; [|done]. rewrite <- E. done.
Qed.

Lemma grammar_reads :
  (forall d t v, jtext d t v -> value_reads d t v) /\
  (forall d ts vs, jelems d ts vs -> elements_read d ts vs) /\
  (forall d ts vs, jmembers d ts vs -> members_read d ts vs).
Proof.
  apply jgrammar_ind; intros.
  - by apply literal_reads; left.
  - by apply literal_reads; right; left.
  - by apply literal_reads; right; right.
  - by apply number_reads.
  - by eapply string_reads.
  - apply array_reads. by left.
  - apply array_reads. by right.
  - apply object_reads. by left.
  - apply object_reads. by right.
  - by apply elements_last.
  - by apply elements_more.
  - by eapply members_last.
  - by eapply members_more.
Qed.

(** ** [json_parse] *)

Definition BOM : list Z := [239; 187; 191].

Lemma repr_sees o c s : repr o (c :: s) -> sees (mkBuffer (os_data o) (os_len o) 0 0) (c :: s).
Proof. inversion 1 as [|? rest size imm Ho Hsz]; subst. by exists [], rest. Qed.

(** A byte order mark is skipped; any other text is left alone. *)
Lemma skip_bom_eq b t : sees b t -> offset b = 0 ->
  match t with c :: _ => c < 128 | [] => True end -> skip_utf8_bom b = Ok b.
Proof.
  intros Hs Ho Hc. unfold skip_utf8_bom. rewrite (sees_access _ _ _ Hs).
  destruct (Z.ltb_spec 2 (zlen t)); [|done]. destruct t as [|c0 [|c1 [|c2 t]]]; [list_lia..|].
  pose proof (sees_rd _ _ 0 c0 Hs eq_refl) as E0. pose proof (sees_rd _ _ 1 c1 Hs eq_refl) as E1.
  pose proof (sees_rd _ _ 2 c2 Hs eq_refl) as E2. rewrite Ho in E0, E1, E2.
  change (rd (content b) 0 = Ok c0) in E0. change (rd (content b) 1 = Ok c1) in E1.
  change (rd (content b) 2 = Ok c2) in E2. rewrite E0, E1, E2. bind_red. by destruct (Z.eqb_spec c0 239); [lia|].
Qed.

Lemma skip_bom_bom b t : sees b (BOM ++ t) -> offset b = 0 -> skip_utf8_bom b = Ok (adv b 3).
Proof.
  intros Hs Ho. unfold skip_utf8_bom. rewrite (sees_access _ _ _ Hs).
  destruct (Z.ltb_spec 2 (zlen (BOM ++ t))); [|unfold BOM in *; list_lia].
  pose proof (sees_rd _ _ 0 239 Hs eq_refl) as E0. pose proof (sees_rd _ _ 1 187 Hs eq_refl) as E1.
  pose proof (sees_rd _ _ 2 191 Hs eq_refl) as E2. rewrite Ho in E0, E1, E2.
  change (rd (content b) 0 = Ok 239) in E0. change (rd (content b) 1 = Ok 187) in E1.
  change (rd (content b) 2 = Ok 191) in E2. by rewrite E0, E1, E2.
Qed.

Lemma json_parse_ok o bom w t rest d v :
  repr o (bom ++ w ++ t ++ rest) -> bom = [] \/ bom = BOM -> white w -> jtext d t v -> number_end rest ->
  Z.of_nat d <= JSON_NESTING_LIMIT ->
  exists j, json_parse (Some o) = Ok (Some j) /\ mean j = v.
Proof.
  intros Ho Hbom Hw Ht Hr Hd. destruct (jtext_head _ _ _ Ht) as (c & t' & Et & Hc & _).
  assert (exists b, sees b (w ++ t ++ rest) /\ depth b = 0 /\
    skip_utf8_bom (mkBuffer (os_data o) (os_len o) 0 0) = Ok b) as (b & Hs & Hdb & Eb).
  { destruct Hbom as [->| ->].
    - exists (mkBuffer (os_data o) (os_len o) 0 0). cbn [app] in Ho.
      assert (sees (mkBuffer (os_data o) (os_len o) 0 0) (w ++ t ++ rest)) as Hs.
      { subst t. destruct w; by apply repr_sees. }
      split_and!; [done..|]. eapply skip_bom_eq; [done..|]. subst t. destruct w as [|x w]; cbn; [lia|].
      apply Forall_cons_iff in Hw as [[_ Hx] _]. lia.
    - assert (sees (mkBuffer (os_data o) (os_len o) 0 0) (BOM ++ w ++ t ++ rest)) as Hs by by apply repr_sees.
      exists (adv (mkBuffer (os_data o) (os_len o) 0 0) 3). rewrite (skip_bom_bom _ _ Hs) by done. split_and!; [|done|done].
      exact (sees_skip _ BOM _ 3 Hs eq_refl). }
  cbn [json_parse]. unfold json_parse_cstr. pose proof (repr_len _ _ Ho) as El.
  destruct (Z.eqb_spec (os_len o) 0) as [E|]; [subst t; list_lia|]. rewrite Eb. bind_red.
  rewrite (skip_whitespace_eq _ w _ Hs Hw) by (subst t; cbn; lia). bind_red.
  apply (sees_skip _ w _ (zlen w)) in Hs; [|done].
  destruct (proj1 grammar_reads d t v Ht (S (S (S (3 * Z.to_nat (os_len o))))) json_new_item _ rest Hs Hr)
    as (j & -> & Hj & _).
  - split; [cbn; lia|]. rewrite El. list_lia.
  - bind_red. by exists j.
Qed.

(** C15. [json_parse] reads every text of the grammar [jtext] to the value it stands for: null, true,
    false, numbers (all that [strtod] reads to their end, with its [double], and the [int] clamped to its range),
    strings with all their escapes (a pair of surrogates becomes one character of UTF-8, a surrogate that is
    alone is not in the grammar), arrays and objects
    with their items in order, with white space and a byte order mark in front, up to
    a nesting of [JSON_NESTING_LIMIT].  Strings and keys are kept as C strings: what
    follows an escaped NUL (\u0000) in them is lost.  What comes after the value ([rest]) is not
    looked at. *)
Theorem json_parse_reads (o : Octstr) (bom w t rest : list Z) (d : nat) (v : jval) :
  repr o (bom ++ w ++ t ++ rest) -> bom = [] \/ bom = BOM -> white w -> jtext d t v -> number_end rest ->
  Z.of_nat d <= JSON_NESTING_LIMIT ->
  exists j, json_parse (Some o) = Ok (Some j) /\ mean j = v.
Proof. apply json_parse_ok. Qed.

(** ** The nesting limit *)

Lemma nested_fails k : forall fuel item b rest,
  sees b (replicate k 91 ++ rest) -> depth b <= JSON_NESTING_LIMIT -> JSON_NESTING_LIMIT < depth b + Z.of_nat k ->
  3 * Z.of_nat k + 2 <= Z.of_nat fuel -> parse_value fuel item b = Ok None.
Proof.
  induction k as [|k IH]; intros fuel item b rest Hs Hd Hk Hf; [lia|].
  destruct fuel as [|[|[|fuel]]]; [lia..|]. cbn [replicate app] in Hs.
  rewrite (value_dispatch _ _ _ _ _ Hs) by done. change (91 =? 34) with false. change ((91 =? 45) || isdigit 91) with false.
  change (91 =? 91) with true. cbn match. destruct (Z.leb_spec JSON_NESTING_LIMIT (depth b)) as [Hge|Hlt].
  { cbn [parse_array]. by destruct (Z.leb_spec JSON_NESTING_LIMIT (depth b)); [|lia]. }
  rewrite (array_brackets _ _ _ _ Hs Hlt). unfold brackets.
  destruct k as [|k]; [lia|]. apply sees_depth with (d := depth b + 1), (sees_skip _ [91] _ 1) in Hs; [|done].
  set (b1 := adv (set_depth b (depth b + 1)) 1) in *. cbn [replicate app] in Hs.
  rewrite (skip_none b1 _ Hs) by (cbn; lia). bind_red. rewrite (next_is_eq _ _ _ Hs). bind_red.
  change (91 =? 93) with false. cbn match. rewrite (sees_access _ _ _ Hs).
  destruct (Z.ltb_spec 0 (zlen (91 :: replicate k 91 ++ rest))); [|list_lia]. cbn [negb parse_elements].
  assert (adv (set_offset b1 (offset b1 - 1)) 1 = b1) as -> by (unfold b1; adv_tac).
  rewrite (skip_none b1 _ Hs) by (cbn; lia). bind_red. rewrite (IH fuel json_new_item b1 rest); [done|done|cbn; lia..].
Qed.

(** Arrays that are nested deeper than [JSON_NESTING_LIMIT] are refused: the parser
    returns NULL for them, so that its recursion is bounded whatever it is sent. *)
Theorem json_parse_nesting (o : Octstr) (n : nat) (rest : list Z) :
  repr o (replicate n 91 ++ rest) -> JSON_NESTING_LIMIT < Z.of_nat n -> json_parse (Some o) = Ok None.
Proof.
  intros Ho Hn. unfold JSON_NESTING_LIMIT in Hn. destruct n as [|n]; [lia|].
  pose proof (repr_len _ _ Ho) as El. pose proof (repr_sees _ _ _ Ho) as Hs. cbn [json_parse]. unfold json_parse_cstr.
  destruct (Z.eqb_spec (os_len o) 0) as [|]; [done|]. rewrite (skip_bom_eq _ _ Hs) by done. bind_red.
  rewrite (skip_none _ _ Hs) by (cbn; lia). bind_red.
  rewrite (nested_fails (S n) _ _ _ rest Hs); [done|cbn; unfold JSON_NESTING_LIMIT; lia..|]. rewrite El. list_lia.
Qed.

Lemma json_parse_nesting_witness :
  exists o, octstr_create (replicate 1001 91) = Ok o /\ json_parse (Some o) = Ok None.
Proof.
  assert (octets (replicate 1001 91)) as Hs by (apply Forall_replicate; unfold octet; lia).
  pose proof (octstr_create_ok _ Hs) as H. apply returns_iff in H as (o & E & [Ho _]).
  exists o. split; [done|]. apply (json_parse_nesting o 1001 []); [by rewrite app_nil_r|unfold JSON_NESTING_LIMIT; lia].
Defined.

(** An object with the key [a] and an array of a number and a string. *)
Definition sample_json : list Z :=
  [123; 34; 97; 34; 58; 91; 49; 44; 34; 92; 110; 34; 93; 125].
Definition sample_value : jval :=
  VObj [([97], VArr [VNum (S754_finite false 4503599627370496 (-52)) 1; VStr [10]])].

Lemma sample_jtext : jtext 2 sample_json sample_value.
Proof.
  apply (jt_obj 1 [34; 97; 34; 58; 91; 49; 44; 34; 92; 110; 34; 93]).
  apply (jm_last 1 [] [97] [97] 0 [] [] [91; 49; 44; 34; 92; 110; 34; 93] _ []); try apply Forall_nil_2.
  { apply jstr_plain; [lia..|constructor]. }
  apply (jt_arr 0 [49; 44; 34; 92; 110; 34]).
  apply (je_more 0 [] [49] _ [] [34; 92; 110; 34]); try apply Forall_nil_2.
  - apply (jt_num 0 [49] (S754_finite false 4503599627370496 (-52))). split_and!; [by right| |by vm_compute].
    by apply Forall_cons_2; [|apply Forall_nil_2].
  - apply (je_last 0 [] [34; 92; 110; 34] _ []); try apply Forall_nil_2.
    apply (jt_str 0 [92; 110] [10] 1). apply (jstr_escape 110 10 [] [] 0); [done|constructor].
Qed.

Lemma json_parse_reads_witness :
  exists o j, octstr_create (BOM ++ [32] ++ sample_json ++ [10]) = Ok o /\
    json_parse (Some o) = Ok (Some j) /\ mean j = sample_value.
Proof.
  assert (octets (BOM ++ [32] ++ sample_json ++ [10])) as Hs by octets_tac.
  pose proof (octstr_create_ok _ Hs) as H. apply returns_iff in H as (o & E & [Ho _]).
  destruct (json_parse_reads o BOM [32] sample_json [10] 2 sample_value Ho) as (j & Hj & Hm).
  - by right.
  - apply Forall_cons_2; [unfold octet; lia|apply Forall_nil_2].
  - exact sample_jtext.
  - done.
  - unfold JSON_NESTING_LIMIT. lia.
  - by exists o, j.
Defined.

(** The text "a\u0000b", with its quotes, is read as the string of one letter. *)
Example json_nul_cuts :
  (r ← json_parse (Some (mk_os [34; 97; 92; 117; 48; 48; 48; 48; 98; 34])); Ok (option_map mean r)) = Ok (Some (VStr [97])).
Proof. vm_compute. reflexivity. Qed.
