(* ===== verification/JsonWrite.v ===== *)
(** * Writing JSON

    What [json_object] writes is a JSON text of its arguments, so that [json_parse]
    reads it back: strings are escaped, numbers are printed so that [strtod] reads
    the same integer. *)

From Stdlib Require Import SpecFloat.
From S2P Require Import Prelude Octstr OctstrSearch OctstrCode OctstrFormat Json JsonSafe JsonText JsonValue.

(** ** Integers as [double]s

    An integer of at most 53 bits is a [double]. *)

Lemma digits2_size p : digits2_pos p = Pos.size p.
Proof. induction p as [p IH|p IH|]; cbn; by rewrite ?IH. Qed.

Lemma digits2_bounds p : 2 ^ (Zpos (digits2_pos p) - 1) <= Zpos p < 2 ^ Zpos (digits2_pos p).
Proof.
  rewrite digits2_size. pose proof (Pos.size_gt p) as H1. pose proof (Pos.size_le p) as H2.
  change (Zpos p < Zpos (2 ^ Pos.size p)) in H1. change (Zpos (2 ^ Pos.size p) <= Zpos p~0) in H2.
  rewrite Pos2Z.inj_pow in H1, H2. change (Zpos p~0) with (2 * Zpos p) in H2.
  assert (2 ^ Zpos (Pos.size p) = 2 * 2 ^ (Zpos (Pos.size p) - 1)) by (rewrite <- Z.pow_succ_r by lia; f_equal; lia).
  lia.
Qed.

Lemma digits2_unique p n : 2 ^ (n - 1) <= Zpos p < 2 ^ n -> 0 < n -> Zpos (digits2_pos p) = n.
Proof.
  intros Hp Hn. pose proof (digits2_bounds p) as Hd.
  assert (n - 1 < Zpos (digits2_pos p)) by (apply (Z.pow_lt_mono_r_iff 2); lia).
  assert (Zpos (digits2_pos p) - 1 < n) by (apply (Z.pow_lt_mono_r_iff 2); lia). lia.
Qed.

Lemma shift_mul (d m : positive) : Zpos (Pos.iter xO m d) = Zpos m * 2 ^ Zpos d.
Proof. pose proof (Zpower.shift_pos_correct d m) as E. unfold Zpower.shift_pos in E. rewrite E. cbn -[Z.pow_pos Z.mul]. lia. Qed.

(** A mantissa in canonical form is not rounded. *)
Lemma round_canonical sx m e :
  fexp 53 1024 (Zpos (digits2_pos m) + e) = e -> e <= 971 ->
  binary_round_aux 53 1024 sx (Zpos m) e loc_Exact = S754_finite sx m e.
Proof.
  intros Hc He. assert (shr_fexp 53 1024 (Zpos m) e loc_Exact = (Build_shr_record (Zpos m) false false, e)) as E.
  { unfold shr_fexp. cbn [Zdigits2]. by rewrite Hc, Z.sub_diag. }
  unfold binary_round_aux. rewrite E. cbn [shr_m loc_of_shr_record round_nearest_even]. rewrite E. cbn [shr_m].
  by destruct (Z.leb_spec e (1024 - 53)); [|lia].
Qed.

Lemma round_integer sx p : Zpos p < 2 ^ 53 ->
  exists m k, 0 <= k /\ Zpos m = Zpos p * 2 ^ k /\ binary_round 53 1024 sx p 0 = S754_finite sx m (- k).
Proof.
  intros Hp. set (k := 53 - Zpos (digits2_pos p)). pose proof (digits2_bounds p) as Hd.
  assert (0 <= k) as Hk.
  { assert (Zpos (digits2_pos p) - 1 < 53) by (apply (Z.pow_lt_mono_r_iff 2); lia). lia. }
  assert (fexp 53 1024 (Zpos (digits2_pos p) + 0) = - k) as Ef by (unfold fexp, emin, k in *; lia).
  unfold binary_round. rewrite Ef. unfold shl_align. rewrite Z.sub_0_r.
  destruct (Z.eq_dec k 0) as [E0|Hne].
  - rewrite E0. cbn [Z.opp]. exists p, 0. split_and!; [done|lia|]. change (- 0) with 0. apply round_canonical; [|done].
    rewrite Ef. lia.
  - destruct k as [|d|d] eqn:Ed; [done| |lia]. cbn [Z.opp]. exists (Pos.iter xO p d), (Zpos d).
    split_and!; [lia|apply shift_mul|]. apply round_canonical; [|lia].
    assert (Zpos (digits2_pos (Pos.iter xO p d)) = 53) as ->; [|unfold fexp, emin; lia].
    apply digits2_unique; [|lia]. rewrite shift_mul.
    assert (2 ^ 53 = 2 ^ Zpos (digits2_pos p) * 2 ^ Zpos d) as E1 by (rewrite <- Z.pow_add_r by lia; f_equal; lia).
    assert (2 ^ (53 - 1) = 2 ^ (Zpos (digits2_pos p) - 1) * 2 ^ Zpos d) as E2
      by (rewrite <- Z.pow_add_r by lia; f_equal; lia).
    rewrite E1, E2. pose proof (Z.pow_pos_nonneg 2 (Zpos d) ltac:(lia) ltac:(lia)). split; nia.
Qed.

(** [strtod] and the conversion to [int], for the integer [z]. *)
Definition clamp (z : Z) : Z := Z.max INT_MIN32 (Z.min z INT_MAX32).

Definition is_double (d : spec_float) (z : Z) : Prop :=
  match d with
  | S754_zero _ => z = 0
  | S754_finite sx m e => e <= 0 /\ (if sx then Zneg m else Zpos m) = z * 2 ^ (- e)
  | _ => False
  end.

Lemma clamp_double d z : is_double d z -> clamp_int d = clamp z.
Proof.
  unfold clamp_int, clamp, is_double, double_ge, double_le, double_to_int. destruct d as [sx|sx| |sx m e]; try done.
  - intros ->. done.
  - intros [He Hm]. set (v := if sx then Zneg m else Zpos m) in *.
    pose proof (Z.pow_pos_nonneg 2 (- e) ltac:(lia) ltac:(lia)) as Hp.
    assert (forall n, (if 0 <=? e then n <=? v * 2 ^ e else n * 2 ^ (- e) <=? v) = (n <=? z)) as ->.
    { intros n. destruct (Z.leb_spec 0 e).
      - assert (e = 0) as -> by lia. change (2 ^ 0) with 1 in *. change (2 ^ (- 0)) with 1 in *. lia.
      - rewrite Hm. destruct (Z.leb_spec n z), (Z.leb_spec (n * 2 ^ (- e)) (z * 2 ^ (- e))); nia || done. }
    assert (forall n, (if 0 <=? e then v * 2 ^ e <=? n else v <=? n * 2 ^ (- e)) = (z <=? n)) as ->.
    { intros n. destruct (Z.leb_spec 0 e).
      - assert (e = 0) as -> by lia. change (2 ^ 0) with 1 in *. change (2 ^ (- 0)) with 1 in *. lia.
      - rewrite Hm. destruct (Z.leb_spec z n), (Z.leb_spec (z * 2 ^ (- e)) (n * 2 ^ (- e))); nia || done. }
    assert ((if 0 <=? e then v * 2 ^ e else v ÷ 2 ^ (- e)) = z) as ->.
    { destruct (Z.leb_spec 0 e).
      - assert (e = 0) as -> by lia. change (2 ^ 0) with 1 in *. change (2 ^ (- 0)) with 1 in *. lia.
      - rewrite Hm. by apply Z.quot_mul; lia. }
    unfold INT_MAX32, INT_MIN32. destruct (Z.leb_spec (2 ^ 31 - 1) z); [lia|].
    destruct (Z.leb_spec z (- 2 ^ 31)); lia.
Qed.

Lemma to_double_integer neg m : 0 <= m < 2 ^ 53 -> is_double (to_double neg m 0) (if neg then - m else m).
Proof.
  intros Hm. destruct m as [|p|p]; [by destruct neg|..|lia]. unfold to_double. change (0 <=? 0) with true. cbn match.
  change (10 ^ 0) with 1. rewrite Z.mul_1_r. destruct neg; cbn [Z.opp id binary_normalize].
  - change (binary_normalize 53 1024 (- Zpos p) 0 true) with (binary_round 53 1024 true p 0).
    destruct (round_integer true p ltac:(lia)) as (m & k & Hk & E & ->). cbn [is_double]. rewrite Z.opp_involutive. split; lia.
  - destruct (round_integer false p ltac:(lia)) as (m & k & Hk & E & ->). cbn [is_double]. rewrite Z.opp_involutive. split; lia.
Qed.

Lemma strtod_digits neg m n : 0 <= m < 2 ^ 53 ->
  (let '(v, k) := strtol_digits 10 0 0 (print_base 10 false 20 m) in
   let l := drop (Z.to_nat k) (print_base 10 false 20 m) in
   let '(v, k2, dot) :=
     if default 0 (head l) =? 46 then let '(v, k2) := strtol_digits 10 v 0 (drop 1 l) in (v, k2, 1)
     else (v, 0, 0) in
   if k + k2 =? 0 then (S754_zero false, 0)
   else
     let '(e, ke) := strtod_exponent (drop (Z.to_nat (dot + k2)) l) in
     (to_double neg v (e - k2), n + k + dot + k2 + ke)) =
  (to_double neg m 0, n + zlen (print_base 10 false 20 m)).
Proof.
  intros Hm. pose proof ten_pow_20. pose proof (strtol_digits_print 10 false ltac:(lia) 20 m 0 0 [] ltac:(lia) ltac:(lia)) as E.
  rewrite app_nil_r in E. pose proof (print_base_pos 10 false 20 m ltac:(lia)) as Hpos.
  revert E Hpos. generalize (print_base 10 false 20 m). intros l E Hpos. rewrite E. cbn [strtol_digits].
  rewrite drop_ge by list_lia. cbn -[zlen to_double]. destruct (Z.eqb_spec (0 + zlen l + 0) 0); [lia|].
  f_equal. lia.
Qed.

Lemma digit_octets c d : 0 <= d < 10 -> c = hexdig false d -> isdigit c = true.
Proof.
  intros Hd ->. assert (d = 0 \/ d = 1 \/ d = 2 \/ d = 3 \/ d = 4 \/ d = 5 \/ d = 6 \/ d = 7 \/ d = 8 \/ d = 9)
    as Hc by lia. repeat destruct Hc as [->|Hc]; try subst; reflexivity.
Qed.

(** An integer that was printed is a JSON number. *)
Lemma sprintf_jnumber z : - 2 ^ 53 < z < 2 ^ 53 -> exists d, jnumber (sprintf_ld z) d /\ is_double d z.
Proof.
  intros Hz. set (a := Z.abs z). assert (0 <= a < 2 ^ 53) as Ha by lia.
  assert (Forall (fun c => isdigit c = true) (print_base 10 false 20 a)) as Hd.
  { generalize (print_base_digits 10 false ltac:(lia) 20 a ltac:(lia)). apply Forall_impl.
    intros c (d & Hd & E). by eapply digit_octets. }
  assert (Forall (fun c => is_number_char c = true) (print_base 10 false 20 a)) as Hn.
  { revert Hd. apply Forall_impl. intros c E. unfold is_number_char. by rewrite E. }
  pose proof (print_base_pos 10 false 20 a ltac:(lia)) as Hpos.
  exists (to_double (z <? 0) a 0). unfold sprintf_ld. destruct (Z.ltb_spec z 0).
  - replace (- z) with a by lia. split; [split_and!|].
    + by left.
    + by apply Forall_cons_2.
    + unfold strtod. cbn [strtol_sign]. change (45 =? 45) with true. cbn match.
      etransitivity; [exact (strtod_digits true a (0 + 1) Ha)|]. f_equal. list_lia.
    + replace z with (- a) by lia. by apply (to_double_integer true).
  - replace z with a by lia. split; [|by apply (to_double_integer false)].
    pose proof (strtod_digits false a 0 Ha) as E. unfold jnumber, strtod. revert E Hd Hn Hpos.
    generalize (print_base 10 false 20 a). intros [|c l] E Hd Hn Hpos; [done|].
    apply Forall_cons_iff in Hd as [Hc _]. split_and!; [by right|done|].
    cbn [strtol_sign]. unfold isdigit in Hc.
    destruct (Z.eqb_spec c 45); [lia|]. destruct (Z.eqb_spec c 43); [lia|]. exact E.
Qed.

(** ** Strings *)

(** What [json_escape_string] writes for an octet. *)
Definition escaped_char (c : Z) : list Z :=
  if c =? 34 then [92; 34]
  else if c =? 92 then [92; 92]
  else if c =? 8 then [92; 98]
  else if c =? 12 then [92; 102]
  else if c =? 10 then [92; 110]
  else if c =? 13 then [92; 114]
  else if c =? 9 then [92; 116]
  else if c <? 32 then [92; 117; 48; 48; hexdig false (c / 16); hexdig false (c mod 16)]
  else [c].

Definition escaped (s : list Z) : list Z := concat (escaped_char <$> s).

Lemma hexdig_value d : 0 <= d < 16 -> hex_value (hexdig false d) = Some d.
Proof.
  intros Hd. assert (d = 0 \/ d = 1 \/ d = 2 \/ d = 3 \/ d = 4 \/ d = 5 \/ d = 6 \/ d = 7 \/ d = 8 \/
    d = 9 \/ d = 10 \/ d = 11 \/ d = 12 \/ d = 13 \/ d = 14 \/ d = 15) as Hc by lia.
  repeat destruct Hc as [->|Hc]; try subst; reflexivity.
Qed.

Lemma escaped_jstr s : Forall (fun c => 0 < c < 256) s -> exists n, jstr (escaped s) s n.
Proof.
  unfold escaped. induction 1 as [|c s Hc _ [n IH]]; [exists 0; constructor|].
  rewrite fmap_cons. cbn [concat]. unfold escaped_char at 1.
  assert (forall d, escape_of d = Some c -> exists n, jstr ([92; d] ++ concat (escaped_char <$> s)) (c :: s) n) as Hesc.
  { intros d Hd. eexists. by apply jstr_escape. }
  repeat match goal with |- context [if c =? ?k then _ else _] =>
    destruct (Z.eqb_spec c k) as [->|?]; [by apply Hesc|] end.
  destruct (Z.ltb_spec c 32) as [Hlt|Hge].
  - assert (utf8 c = [c]) as E by (unfold utf8; destruct (Z.ltb_spec c 128); [done|lia]).
    eexists. change (c :: s) with ([c] ++ s). rewrite <- E.
    refine (jstr_unicode [48; 48; hexdig false (c / 16); hexdig false (c mod 16)] c _ s n _ _ IH); [|lia].
    exists 0, 0, (c / 16), (c mod 16). pose proof (Z.mod_pos_bound c 16 ltac:(lia)).
    assert (0 <= c / 16 < 16) by (Z.to_euclidean_division_equations; lia).
    rewrite !hexdig_value by lia. split_and!; [done..|]. pose proof (Z.div_mod c 16 ltac:(lia)). lia.
  - eexists. by apply jstr_plain.
Qed.

Lemma written_cstr (s : list Z) : Forall (fun c => 0 < c < 256) s -> cstr s = s.
Proof. intros Hs. apply cstr_no_nul. revert Hs. apply Forall_impl. lia. Qed.

Lemma written_str s : Forall (fun c => 0 < c < 256) s -> jtext 0 (34 :: escaped s ++ [34]) (VStr s).
Proof. intros Hs. destruct (escaped_jstr s Hs) as [n He]. rewrite <- (written_cstr s Hs) at 2. by eapply jt_str. Qed.

Section writing.
Context `{!Printf}.

Lemma dir_ok_intro minus zero w type conv :
  0 <= w <= LONG_MAX -> type ∈ [0; 104; 108; 76] -> conv ∈ [99; 100; 105; 111; 117; 120; 88; 115; 83; 69; 72] ->
  dir_ok (mkDirective minus zero w None type conv).
Proof. by constructor. Qed.

Ltac seg_tac :=
  apply Forall_cons_2; [|apply Forall_nil_2]; split_and!;
    [literal_tac|apply dir_ok_intro; [unfold LONG_MAX; lia|by apply (bool_decide_unpack _)|by apply (bool_decide_unpack _)]
    | |by eexists].

Lemma append_control_ok os s c :
  reprm os s -> 0 <= c < 32 ->
  returns (octstr_format_append os [92; 117; 37; 48; 52; 120] [AInt c])
    (fun os' => reprm os' (s ++ [92; 117; 48; 48; hexdig false (c / 16); hexdig false (c mod 16)])).
Proof.
  intros Hos Hc. set (segs := [mkSegment [92; 117] (mkDirective false true 4 None 0 120) (AInt c)]).
  apply (octstr_format_append_ok os s segs []); [done|seg_tac; done|literal_tac|done|done|].
  assert (forallb (fun c => bool_decide ([92; 117; 48; 48; hexdig false (c / 16); hexdig false (c mod 16)] =
    [92; 117] ++ padded false 48 4 (sprintf_lu 120 (c mod 2 ^ 32)))) (seqZ 0 32) = true) as Hall by by vm_compute.
  rewrite forallb_forall in Hall. specialize (Hall c). rewrite <- list_elem_of_In, elem_of_seqZ, bool_decide_eq_true in Hall.
  rewrite app_nil_r, <- (app_nil_r (concat _)). unfold segs. cbn [fmap list_fmap concat]. rewrite !app_nil_r. apply Hall. lia.
Qed.

Lemma append_quoted_key_ok os s key :
  reprm os s -> octets key ->
  returns (octstr_format_append os [34; 37; 115; 34; 58] [AStr key])
    (fun os' => reprm os' (s ++ 34 :: key ++ [34; 58])).
Proof.
  intros Hos Hk. apply (octstr_format_append_ok os s [mkSegment [34] (plain_dir 0 115) (AStr key)] [34; 58]);
    [done|seg_tac; done|literal_tac|done|done|]. cbn. by rewrite app_nil_r.
Qed.

Lemma append_quoted_text_ok os s o t :
  reprm os s -> repr o t ->
  returns (octstr_format_append os [34; 37; 83; 34] [AOct (Some o)]) (fun os' => reprm os' (s ++ 34 :: t ++ [34])).
Proof.
  intros Hos Ho. apply (octstr_format_append_ok os s [mkSegment [34] (plain_dir 0 83) (AOct (Some o))] [34]);
    [done|seg_tac|literal_tac|done|done|].
  - cbn. by rewrite (repr_bytes _ _ Ho).
  - cbn. by rewrite app_nil_r, (repr_bytes _ _ Ho).
Qed.

Lemma append_long_ok os s n :
  reprm os s -> LONG_MIN <= n <= LONG_MAX ->
  returns (octstr_format_append os [37; 108; 100] [AInt n]) (fun os' => reprm os' (s ++ sprintf_ld n)).
Proof.
  intros Hos Hn. apply (octstr_format_append_ok os s [mkSegment [] (plain_dir 108 100) (AInt n)] []);
    [done|seg_tac; done|literal_tac|done|done|].
  unfold seg_render, render. cbn -[sprintf_ld]. unfold signed_arg. cbn -[sprintf_ld swrap].
  rewrite swrap_small by (unfold LONG_MIN, LONG_MAX in *; lia). by rewrite !app_nil_r.
Qed.

Lemma escape_step_ok os r c :
  reprm os r -> octet c ->
  returns
    (if c =? 34 then octstr_append_cstr os [92; 34]
     else if c =? 92 then octstr_append_cstr os [92; 92]
     else if c =? 8 then octstr_append_cstr os [92; 98]
     else if c =? 12 then octstr_append_cstr os [92; 102]
     else if c =? 10 then octstr_append_cstr os [92; 110]
     else if c =? 13 then octstr_append_cstr os [92; 114]
     else if c =? 9 then octstr_append_cstr os [92; 116]
     else if c <? 32 then octstr_format_append os [92; 117; 37; 48; 52; 120] [AInt c]
     else octstr_append_char os c) (fun os' => reprm os' (r ++ escaped_char c)).
Proof.
  intros Hos Hc. unfold escaped_char.
  repeat match goal with |- context [if c =? ?k then _ else _] =>
    destruct (Z.eqb_spec c k); [apply octstr_append_cstr_ok; [done|octets_tac]|] end.
  unfold octet in Hc. destruct (Z.ltb_spec c 32); [by apply append_control_ok; [|lia]|by apply octstr_append_char_ok].
Qed.

Lemma escape_loop_ok (str : Octstr) (l pre : list Z) : forall os r,
  repr str (pre ++ l) -> octets l -> reprm os r ->
  returns (escape_loop str os (zlen pre) (length l)) (fun os' => reprm os' (r ++ escaped l)).
Proof.
  revert pre. induction l as [|c l IH]; intros pre os r Hs Ho Hos; cbn [escape_loop length].
  - unfold escaped. cbn. by rewrite app_nil_r.
  - apply Forall_cons_iff in Ho as [Hc Ho]. rewrite (octstr_get_char_ok _ _ _ Hs), char_at_mid. bind_red.
    eapply returns_seq; [by apply escape_step_ok|]. intros os' Hos'. cbn beta in Hos'.
    replace (zlen pre + 1) with (zlen (pre ++ [c])) by list_lia.
    eapply returns_mono; [apply (IH (pre ++ [c]) os' (r ++ escaped_char c)); [by rewrite <- app_assoc|done..]|].
    intros os'' Hos''. unfold escaped in *. rewrite fmap_cons. cbn [concat]. by rewrite app_assoc.
Qed.

Lemma json_escape_string_ok (o : Octstr) (s : list Z) :
  repr o s -> returns (json_escape_string (Some o)) (fun o' => reprm o' (escaped s)).
Proof.
  intros Ho. cbn [json_escape_string].
  eapply returns_seq; [apply (octstr_create_ok [] (Forall_nil_2 _))|]. intros os Hos. cbn beta in Hos.
  rewrite (octstr_len_ok _ _ Ho). bind_red. unfold zlen. rewrite Nat2Z.id.
  apply (escape_loop_ok o s [] os []); [done|by eapply repr_octets|done].
Qed.

(** ** Objects *)

(** The arguments of [json_object] that are written without loss: C strings and octet
    strings without NUL, and integers that are [double]s. *)
Definition writable (a : json_arg) : Prop :=
  match a with
  | Js (Some o) => exists s, repr o s /\ Forall (fun c => 0 < c < 256) s
  | JS (Some s) => Forall (fun c => 0 < c < 256) s
  | Ji n => - 2 ^ 53 < n < 2 ^ 53
  | Jd _ => False
  | _ => True
  end.

(** The argument [a] and the value [v] are the same. *)
Definition arg_is (a : json_arg) (v : jval) : Prop :=
  match a with
  | Js (Some o) => v = VStr (bytes o)
  | JS (Some s) => v = VStr s
  | Js None | JS None | Jn => v = VNull
  | Ji n => exists d, is_double d n /\ v = VNum d (clamp n)
  | Jd _ => False
  | Jb n => v = VBool (negb (n =? 0))
  end.

(** A key is written as it is. *)
Definition key_ok (k : list Z) : Prop := Forall (fun c => 0 < c < 256 /\ c <> 34 /\ c <> 92) k.

Lemma key_jstr k : key_ok k -> jstr k k 0.
Proof. induction 1 as [|c k [Hc [H1 H2]] _ IH]; by constructor. Qed.

Lemma append_quoted_ok os r o s :
  reprm os r -> repr o s -> returns (append_quoted os o) (fun os' => reprm os' (r ++ 34 :: escaped s ++ [34])).
Proof.
  intros Hos Ho. unfold append_quoted.
  eapply returns_seq; [by apply json_escape_string_ok|]. intros o' [Ho' _]. by apply append_quoted_text_ok.
Qed.

Lemma append_arg_ok a : writable a ->
  exists t v, jtext 0 t v /\ arg_is a v /\
    forall os r, reprm os r -> returns (append_arg os a) (fun os' => reprm os' (r ++ t)).
Proof.
  assert (forall os r, reprm os r -> returns (octstr_append_cstr os NULL_TEXT) (fun os' => reprm os' (r ++ NULL_TEXT)))
    as Hnull by (intros; apply octstr_append_cstr_ok; [done|octets_tac]).
  destruct a as [[o|]|[s|]|n|x|n|]; cbn [writable arg_is append_arg].
  - intros (s & Ho & Hs). rewrite (repr_bytes _ _ Ho).
    eexists _, _. split_and!; [by apply written_str|done|]. intros os r Hos. by apply append_quoted_ok.
  - intros _. eexists _, _. split_and!; [apply jt_null|done..].
  - intros Hs. eexists _, _. split_and!; [by apply written_str|done|].
    intros os r Hos. eapply returns_seq.
    + apply octstr_create_ok. revert Hs. apply Forall_impl. unfold octet. lia.
    + intros o [Ho _]. by apply append_quoted_ok.
  - intros _. eexists _, _. split_and!; [apply jt_null|done..].
  - intros Hn. destruct (sprintf_jnumber n Hn) as (d & Hd & He). eexists _, _.
    split_and!; [by apply jt_num|exists d; by rewrite <- (clamp_double _ _ He)|].
    intros os r Hos. apply append_long_ok; [done|]. unfold LONG_MIN, LONG_MAX. lia.
  - done.
  - intros _. destruct (n =? 0); cbn [negb]; eexists _, _; (split_and!; [constructor|done|]);
      intros os r Hos; by (apply octstr_append_cstr_ok; [done|octets_tac]).
  - intros _. eexists _, _. split_and!; [apply jt_null|done..].
Qed.

Definition same_member (m : list Z * json_arg) (v : list Z * jval) : Prop := m.1 = v.1 /\ arg_is m.2 v.2.

(** One round of the loop writes a member. *)
Lemma object_round_ok k a : key_ok k -> writable a ->
  exists t v, jtext 0 t v /\ arg_is a v /\
    forall os r (first : bool) args Q, reprm os r ->
      (forall o, reprm o (r ++ (if first then [] else [44]) ++ 34 :: k ++ 34 :: 58 :: t) ->
         returns (object_loop o false args) Q) ->
      returns (object_loop os first ((k, a) :: args)) Q.
Proof.
  intros Hk Ha. destruct (append_arg_ok a Ha) as (t & v & Ht & Hv & Hap). exists t, v. split_and!; [done..|].
  assert (octets k) as Hko by (revert Hk; apply Forall_impl; unfold octet; lia).
  intros os r first args Q Hos HQ. cbn [object_loop].
  eapply (returns_seq _ _ (fun o => reprm o (r ++ if first then [] else [44]))).
  { destruct first; [by rewrite app_nil_r|by apply octstr_append_char_ok]. }
  intros o1 Ho1. cbn beta in Ho1. eapply returns_seq; [by apply append_quoted_key_ok|].
  intros o2 Ho2. cbn beta in Ho2. eapply returns_seq; [by apply Hap|].
  intros o3 Ho3. cbn beta in Ho3. apply HQ. by simplify_list_eq.
Qed.

Lemma object_loop_ok args : args <> [] -> Forall (fun m => key_ok m.1 /\ writable m.2) args ->
  exists t vs, jmembers 0 t vs /\ Forall2 same_member args vs /\
    forall os r (first : bool), reprm os r ->
      returns (object_loop os first args) (fun os' => reprm os' (r ++ (if first then [] else [44]) ++ t)).
Proof.
  intros Hne Hall. induction Hall as [|[k a] args [Hk Ha] Hall IH]; [done|]. cbn [fst snd] in *.
  destruct (object_round_ok k a Hk Ha) as (t & v & Ht & Hv & Hround). pose proof (key_jstr _ Hk) as Hjs.
  assert (cstr k = k) as Ek by (apply written_cstr; revert Hk; apply Forall_impl; naive_solver).
  destruct args as [|m2 args].
  - exists (34 :: k ++ 34 :: 58 :: t), [(k, v)]. split_and!.
    + pose proof (jm_last 0 [] k k 0 [] [] t v []) as P. cbn [app] in P. rewrite app_nil_r, Ek in P.
      apply P; try apply Forall_nil_2; done.
    + by apply Forall2_cons; [|apply Forall2_nil].
    + intros os r first Hos. by apply Hround with (r := r).
  - destruct IH as (t2 & vs & Hm & Hvs & IH); [done|].
    exists ((34 :: k ++ 34 :: 58 :: t) ++ 44 :: t2), ((k, v) :: vs). split_and!.
    + pose proof (jm_more 0 [] k k 0 [] [] t v [] t2 vs) as P. cbn [app] in P |- *. rewrite <- app_assoc. rewrite Ek in P.
      apply P; try apply Forall_nil_2; done.
    + by apply Forall2_cons.
    + intros os r first Hos. apply Hround with (r := r); [done|]. intros o Ho.
      eapply returns_mono; [apply (IH o _ false Ho)|]. intros o4 Ho4. cbn beta in Ho4. by rewrite <- !app_assoc in Ho4.
Qed.

(** The text of an object. *)
Lemma json_object_text args : Forall (fun m => key_ok m.1 /\ writable m.2) args ->
  exists t vs, jtext 1 t (VObj vs) /\ Forall2 same_member args vs /\
    returns (json_object args) (fun o => reprm o t).
Proof.
  intros Hall. assert (octets [123]) as H123 by octets_tac. destruct args as [|m args].
  - exists [123; 125], []. split_and!; [apply (jt_obj_nil 0 []), Forall_nil_2|by apply Forall2_nil|].
    unfold json_object. eapply returns_seq; [by apply octstr_create_ok|]. intros o Ho. cbn beta in Ho.
    cbn [object_loop]. bind_red. by apply (octstr_append_char_ok o [123]).
  - destruct (object_loop_ok (m :: args)) as (t & vs & Ht & Hvs & Hloop); [done..|].
    exists (123 :: t ++ [125]), vs. split_and!; [by apply jt_obj|done|].
    unfold json_object. eapply returns_seq; [by apply octstr_create_ok|]. intros o Ho. cbn beta in Ho.
    eapply returns_seq; [apply (Hloop o [123] true Ho)|]. intros o2 Ho2. cbn beta in Ho2.
    by apply (octstr_append_char_ok o2 (123 :: t)).
Qed.

(** C16. What [json_object] writes is a JSON object that [json_parse] reads back:
    with the same keys in order, strings of any octets but NUL (quotes, backslashes
    and control characters are escaped), integers of up to 53 bits (whose [int] is
    clamped to 32 bits), truth values and null. *)
Theorem json_object_roundtrip (args : list (list Z * json_arg)) :
  Forall (fun m => key_ok m.1 /\ writable m.2) args ->
  exists o j vs, json_object args = Ok o /\ json_parse (Some o) = Ok (Some j) /\
    mean j = VObj vs /\ Forall2 same_member args vs.
Proof.
  intros Hall. destruct (json_object_text args Hall) as (t & vs & Ht & Hvs & Hw).
  apply returns_iff in Hw as (o & Eo & [Ho _]). exists o.
  destruct (json_parse_ok o [] [] t [] 1 (VObj vs)) as (j & Hj & Hm); [cbn; by rewrite app_nil_r|by left|
    apply Forall_nil_2|done|done|unfold JSON_NESTING_LIMIT; lia|].
  exists j, vs. done.
Qed.
End writing.

#[local] Instance json_no_doubles : Printf := {
  double := Empty_set;
  sprintf_double := fun _ _ _ => [];
  sprintf_p := fun _ => []
}.

(** A status of -7, and a message with a quote and a control character. *)
Definition sample_args : list (list Z * json_arg) :=
  [([115; 116; 97; 116; 117; 115], Ji (-7)); ([109; 101; 115; 115; 97; 103; 101], JS (Some [97; 34; 1]))].

Lemma json_object_roundtrip_witness :
  exists o j vs, json_object sample_args = Ok o /\ json_parse (Some o) = Ok (Some j) /\
    mean j = VObj vs /\ Forall2 same_member sample_args vs.
Proof.
  apply (json_object_roundtrip sample_args).
  repeat (apply Forall_cons_2; [split; cbn; [repeat (apply Forall_cons_2; [lia|]); apply Forall_nil_2|]|]);
    [lia| |apply Forall_nil_2].
  repeat (apply Forall_cons_2; [lia|]); apply Forall_nil_2.
Defined.
