(* ===== verification/GwList.v ===== *)
(** * The generic list

    Models src/gwlib/list.c: a list kept in a circular array, with counts of
    producers and consumers.  Each function holds the list's lock from its first
    access to its last, so it is one atomic step; a consumer that finds the
    list empty while there are producers releases the lock and waits, which the
    model shows as the outcome [Blocked].  The array operations are shown to
    refine the list operations, for every position of the array's start. *)

From S2P Require Import Prelude Octstr.
From Stdlib Require Import Sorting.Permutation.

Section gwlist.
Context {A : Type}.

(** An array cell is [None] while it is indeterminate. *)
Record List := mkList {
  tab : list (option A);
  tab_size : Z;
  start : Z;
  len : Z;
  num_producers : Z;
  num_consumers : Z
}.

Definition set_tab (l : List) (t : list (option A)) : List :=
  mkList t (tab_size l) (start l) (len l) (num_producers l) (num_consumers l).

Definition set_llen (l : List) (n : Z) : List :=
  mkList (tab l) (tab_size l) (start l) n (num_producers l) (num_consumers l).

Definition set_producers (l : List) (n : Z) : List :=
  mkList (tab l) (tab_size l) (start l) (len l) n (num_consumers l).

Definition set_consumers (l : List) (n : Z) : List :=
  mkList (tab l) (tab_size l) (start l) (len l) (num_producers l) n.

(** The macro [INDEX]; a division by zero is undefined. *)
Definition INDEX (l : List) (i : Z) : res Z :=
  if tab_size l =? 0 then Undef else Ok (Z.rem (start l + i) (tab_size l)).

(** Loads and stores of array cells. *)
Definition tab_load (t : list (option A)) (i : Z) : res A :=
  if 0 <=? i then
    match t !! Z.to_nat i with
    | Some (Some x) => Ok x
    | _ => Undef
    end
  else Undef.

Definition tab_store (t : list (option A)) (i : Z) (x : A) : res (list (option A)) :=
  if (0 <=? i) && (i <? zlen t) then Ok (<[Z.to_nat i := Some x]> t) else Undef.

(** The macro [GET]. *)
Definition GET (l : List) (i : Z) : res A :=
  j ← INDEX l i; tab_load (tab l) j.

Definition PUT (l : List) (i : Z) (x : A) : res List :=
  j ← INDEX l i; t ← tab_store (tab l) j x; Ok (set_tab l t).

Definition gwlist_create : List := mkList [] 0 0 0 0 0.

Definition gwlist_len (l : option List) : Z :=
  match l with
  | None => 0
  | Some l => len l
  end.

Definition make_bigger (l : List) (items : Z) : res List :=
  if len l + items <=? tab_size l then Ok l
  else
    let old_size := tab_size l in
    let new_size := old_size + items in
    let t := tab l ++ replicate (Z.to_nat (new_size - old_size)) None in
    assert: (start l <? old_size) || ((start l =? 0) && (old_size =? 0));
    t ← (if old_size <? start l + len l then
           let len_at_end := old_size - start l in
           let len_at_beginning := len l - len_at_end in
           if len_at_beginning <=? new_size - old_size then
             mem_move t old_size 0 len_at_beginning
           else
             t ← mem_move t old_size 0 (new_size - old_size);
             mem_move t 0 (new_size - old_size)
               (len_at_beginning - (new_size - old_size))
         else Ok t);
    Ok (mkList t new_size (start l) (len l) (num_producers l) (num_consumers l)).

Definition gwlist_append (l : List) (item : A) : res List :=
  l ← make_bigger l 1;
  l ← PUT l (len l) item;
  Ok (set_llen l (len l + 1)).

(** The search loops: the first index from [i] whose item the callback [p]
    accepts, [n] items being left.  A callback is C code and may fail too. *)
Fixpoint find_loop (l : List) (p : A -> res bool) (i : Z) (n : nat)
  : res (option (Z * A)) :=
  match n with
  | O => Ok None
  | S n =>
      x ← GET l i;
      b ← p x;
      if b : bool then Ok (Some (i, x)) else find_loop l p (i + 1) n
  end.

Definition gwlist_append_unique (l : List) (item : A) (cmp : A -> A -> res bool)
  : res List :=
  r ← find_loop l (fun it => cmp it item) 0 (Z.to_nat (len l));
  match r with
  | Some _ => Ok l
  | None => gwlist_append l item
  end.

(** The shifting loop of [gwlist_insert], from [i] down to [pos] + 1. *)
Fixpoint shift_up (l : List) (i : Z) (n : nat) : res List :=
  match n with
  | O => Ok l
  | S n => x ← GET l (i - 1); l ← PUT l i x; shift_up l (i - 1) n
  end.

Definition gwlist_insert (l : List) (pos : Z) (item : A) : res List :=
  assert: 0 <=? pos;
  assert: pos <=? len l;
  l ← make_bigger l 1;
  l ← shift_up l (len l) (Z.to_nat (len l - pos));
  l ← PUT l pos item;
  Ok (set_llen l (len l + 1)).

(** The last case of [delete_items_from_list]. *)
Fixpoint shift_down (l : List) (pos count i : Z) (n : nat) : res List :=
  match n with
  | O => Ok l
  | S n =>
      x ← GET l (pos + i + count);
      l ← PUT l (pos + i) x;
      shift_down l pos count (i + 1) n
  end.

Definition delete_items_from_list (l : List) (pos count : Z) : res List :=
  assert: 0 <=? pos;
  assert: pos <? len l;
  assert: 0 <=? count;
  assert: pos + count <=? len l;
  if pos =? 0 then
    s ← INDEX l count;
    Ok (mkList (tab l) (tab_size l) s (len l - count)
          (num_producers l) (num_consumers l))
  else if pos + count =? len l then Ok (set_llen l (len l - count))
  else if start l + len l <? tab_size l then
    t ← mem_move (tab l) (start l + pos) (start l + pos + count)
          (len l - pos - count);
    Ok (set_llen (set_tab l t) (len l - count))
  else
    l ← shift_down l pos count 0 (Z.to_nat (len l - count - pos));
    Ok (set_llen l (len l - count)).

Definition gwlist_delete (l : List) (pos count : Z) : res List :=
  delete_items_from_list l pos count.

(** [while (i < list->len)] with a deletion or a step in each round. *)
Fixpoint delete_matching_loop (l : List) (p : A -> res bool) (i count : Z) (fuel : nat)
  : res (Z * List) :=
  match fuel with
  | O => Undef
  | S fuel =>
      if i <? len l then
        x ← GET l i;
        b ← p x;
        if b : bool then
          l ← delete_items_from_list l i 1;
          delete_matching_loop l p i (count + 1) fuel
        else delete_matching_loop l p (i + 1) count fuel
      else Ok (count, l)
  end.

Definition gwlist_delete_matching (l : List) (matches : A -> res bool) : res (Z * List) :=
  delete_matching_loop l matches 0 0 (Z.to_nat (len l) + 1).

(** [gwlist_delete_equal]: [eq] tests for the pointer given. *)
Definition gwlist_delete_equal (l : List) (eq : A -> bool) : res (Z * List) :=
  delete_matching_loop l (fun x => Ok (eq x)) 0 0 (Z.to_nat (len l) + 1).

Definition gwlist_get (l : List) (pos : Z) : res A :=
  assert: 0 <=? pos;
  assert: pos <? len l;
  GET l pos.

Definition gwlist_extract_first (l : List) : res (option A * List) :=
  if len l =? 0 then Ok (None, l)
  else
    x ← GET l 0;
    l ← delete_items_from_list l 0 1;
    Ok (Some x, l).

Fixpoint extract_matching_loop (l new : List) (p : A -> res bool) (i : Z) (fuel : nat)
  : res (List * List) :=
  match fuel with
  | O => Undef
  | S fuel =>
      if i <? len l then
        x ← GET l i;
        b ← p x;
        if b : bool then
          new ← gwlist_append new x;
          l ← delete_items_from_list l i 1;
          extract_matching_loop l new p i fuel
        else extract_matching_loop l new p (i + 1) fuel
      else Ok (l, new)
  end.

(** NULL when nothing matched. *)
Definition gwlist_extract_matching (l : List) (cmp : A -> res bool)
  : res (option List * List) :=
  '(l, new) ← extract_matching_loop l gwlist_create cmp 0 (Z.to_nat (len l) + 1);
  if len new =? 0 then Ok (None, l) else Ok (Some new, l).

Definition gwlist_search (l : List) (cmp : A -> res bool) : res (option A) :=
  r ← find_loop l cmp 0 (Z.to_nat (len l));
  Ok (match r with Some (_, x) => Some x | None => None end).

Fixpoint search_all_loop (l new : List) (p : A -> res bool) (i : Z) (n : nat) : res List :=
  match n with
  | O => Ok new
  | S n =>
      x ← GET l i;
      b ← p x;
      new ← (if b : bool then gwlist_append new x else Ok new);
      search_all_loop l new p (i + 1) n
  end.

Definition gwlist_search_all (l : List) (cmp : A -> res bool) : res (option List) :=
  new ← search_all_loop l gwlist_create cmp 0 (Z.to_nat (len l));
  if len new =? 0 then Ok None else Ok (Some new).

Definition gwlist_search_equal (l : List) (eq : A -> bool) : res Z :=
  r ← find_loop l (fun x => Ok (eq x)) 0 (Z.to_nat (len l));
  Ok (match r with Some (i, _) => i | None => -1 end).

(** ** Producers and consumers *)

Definition gwlist_add_producer (l : List) : List :=
  set_producers l (num_producers l + 1).

Definition gwlist_remove_producer (l : List) : res List :=
  assert: 0 <? num_producers l;
  Ok (set_producers l (num_producers l - 1)).

Definition gwlist_produce (l : List) (item : A) : res List := gwlist_append l item.

(** The outcome of the body of [gwlist_consume] after it has the lock. *)
Inductive consumed :=
| Blocked
| Consumed (item : option A) (l : List).

(** A consumer announces itself when it first gets the lock ... *)
Definition gwlist_consume_enter (l : List) : List :=
  set_consumers l (num_consumers l + 1).

(** ... and each time it has the lock again, it waits on while the list is empty
    and has producers; otherwise it takes the first item, or NULL. *)
Definition gwlist_consume_retry (l : List) : res consumed :=
  if (len l =? 0) && (0 <? num_producers l) then Ok Blocked
  else
    r ← (if 0 <? len l then
           x ← GET l 0;
           l ← delete_items_from_list l 0 1;
           Ok (Some x, l)
         else Ok (None, l));
    Ok (Consumed r.1 (set_consumers r.2 (num_consumers r.2 - 1))).

(** [gwlist_timed_consume]: [timed_out] says whether the last wait ended with
    [ETIMEDOUT], which leaves the loop. *)
Definition gwlist_timed_consume_retry (l : List) (timed_out : bool) : res consumed :=
  if (len l =? 0) && (0 <? num_producers l) && negb timed_out then Ok Blocked
  else
    r ← (if 0 <? len l then
           x ← GET l 0;
           l ← delete_items_from_list l 0 1;
           Ok (Some x, l)
         else Ok (None, l));
    Ok (Consumed r.1 (set_consumers r.2 (num_consumers r.2 - 1))).

(** [gwlist_wait_until_nonempty]: [None] while it waits. *)
Definition gwlist_wait_retry (l : List) : option Z :=
  if (len l =? 0) && (0 <? num_producers l) then None
  else if 0 <? len l then Some 1 else Some (-1).
End gwlist.

Arguments List : clear implicits.
Arguments consumed : clear implicits.

(** ** What the array stands for

    [rot t s] is the array read from index [s] on, wrapping at its end;
    [lrepr l xs]: read so from [start], it begins with the items [xs]. *)

Definition rot {A} (t : list A) (s : Z) : list A :=
  drop (Z.to_nat s) t ++ take (Z.to_nat s) t.

Record lrepr {A} (l : List A) (xs : list A) : Prop := {
  lr_size : tab_size l = zlen (tab l);
  lr_start : 0 <= start l <= tab_size l;
  lr_start_lt : tab_size l = 0 \/ start l < tab_size l;
  lr_len : len l = zlen xs;
  lr_items : exists junk, rot (tab l) (start l) = (Some <$> xs) ++ junk
}.

Section rot_lemmas.
Context {A : Type}.
Implicit Types t : list A.

Lemma length_rot t s : length (rot t s) = length t.
Proof. unfold rot. list_lia. Qed.

Lemma rot_lookup t s i :
  0 <= s < zlen t -> 0 <= i < zlen t ->
  t !! Z.to_nat ((s + i) mod zlen t) = rot t s !! Z.to_nat i.
Proof.
  intros Hs Hi. unfold rot. rewrite lookup_app_dec, length_drop.
  destruct (Z.ltb_spec (s + i) (zlen t)).
  - rewrite Z.mod_small by lia. case_decide; [|list_lia].
    rewrite lookup_drop. f_equal. lia.
  - assert ((s + i) mod zlen t = s + i - zlen t) as ->.
    { symmetry. apply (Z.mod_unique_pos _ _ 1); lia. }
    case_decide; [list_lia|]. rewrite lookup_take_lt by list_lia. f_equal. list_lia.
Qed.

Lemma rot_insert t s i x :
  0 <= s < zlen t -> 0 <= i < zlen t ->
  rot (<[Z.to_nat ((s + i) mod zlen t) := x]> t) s = <[Z.to_nat i := x]> (rot t s).
Proof.
  intros Hs Hi. unfold rot.
  destruct (Z.ltb_spec (s + i) (zlen t)).
  - rewrite Z.mod_small by lia.
    rewrite drop_insert_ge, take_insert_ge, insert_app_l by list_lia.
    do 2 f_equal. lia.
  - assert ((s + i) mod zlen t = s + i - zlen t) as ->.
    { symmetry. apply (Z.mod_unique_pos _ _ 1); lia. }
    rewrite drop_insert_lt, take_insert_lt, insert_app_r_alt by list_lia.
    do 2 f_equal. list_lia.
Qed.

(** Moving the start forward. *)
Lemma rot_advance t s c :
  0 <= s < zlen t -> 0 <= c <= zlen t ->
  rot t ((s + c) mod zlen t) = drop (Z.to_nat c) (rot t s) ++ take (Z.to_nat c) (rot t s).
Proof.
  intros Hs Hc. unfold rot.
  destruct (Z.ltb_spec (s + c) (zlen t)).
  - rewrite Z.mod_small by lia.
    rewrite drop_app_le, take_app_le by list_lia.
    rewrite drop_drop, <- app_assoc.
    replace (Z.to_nat s + Z.to_nat c)%nat with (Z.to_nat (s + c)) by lia.
    f_equal. rewrite take_take_drop. f_equal. lia.
  - assert ((s + c) mod zlen t = s + c - zlen t) as ->.
    { symmetry. apply (Z.mod_unique_pos _ _ 1); lia. }
    set (k := Z.to_nat (s + c - zlen t)).
    rewrite drop_app_ge, take_app_ge by list_lia.
    replace (Z.to_nat c - length (drop (Z.to_nat s) t))%nat with k by list_lia.
    rewrite take_take, app_assoc. replace (_ `min` _)%nat with k by list_lia.
    f_equal. rewrite <- (take_drop (Z.to_nat s) t) at 1.
    rewrite drop_app_le by list_lia. done.
Qed.
End rot_lemmas.

Section gwlist_proofs.
Context {A : Type}.
Implicit Types (l : List A) (xs : list A).

Lemma INDEX_ok l (i : Z) :
  0 <= start l -> 0 <= i -> 0 < tab_size l -> INDEX l i = Ok ((start l + i) mod tab_size l).
Proof.
  intros. unfold INDEX. destruct (Z.eqb_spec (tab_size l) 0); [lia|].
  by rewrite Z.rem_mod_nonneg by lia.
Qed.

Lemma gwlist_create_ok : lrepr (@gwlist_create A) [].
Proof. constructor; simpl; try lia; try done; by exists []. Qed.

Lemma lr_bound l xs : lrepr l xs -> len l <= tab_size l.
Proof.
  intros [Hs _ _ Hl (junk & E)]. apply (f_equal length) in E.
  rewrite length_rot in E. list_lia.
Qed.

Lemma lr_pos l xs : lrepr l xs -> 0 < len l -> 0 <= start l < tab_size l.
Proof. intros H ?. pose proof (lr_bound _ _ H). destruct H. lia. Qed.

Lemma GET_ok l xs (i : nat) (x : A) :
  lrepr l xs -> xs !! i = Some x -> GET l (Z.of_nat i) = Ok x.
Proof.
  intros H Hx. pose proof (lr_bound _ _ H) as Hb.
  assert (Z.of_nat i < len l) as Hi.
  { rewrite (lr_len _ _ H). apply lookup_lt_Some in Hx. list_lia. }
  pose proof (lr_pos _ _ H ltac:(lia)) as Hp.
  destruct H as [Hs _ _ Hl (junk & E)].
  unfold GET. rewrite INDEX_ok by lia. bind_red.
  unfold tab_load. pose proof (Z.mod_pos_bound (start l + Z.of_nat i) (tab_size l)).
  destruct (Z.leb_spec 0 ((start l + Z.of_nat i) mod tab_size l)); [|lia].
  rewrite Hs in *. rewrite rot_lookup, E, Nat2Z.id by lia.
  rewrite lookup_app_l by (apply lookup_lt_Some in Hx; list_lia).
  by rewrite list_lookup_fmap, Hx.
Qed.

(** A store at a logical position of the array. *)
Lemma PUT_ok l (i : nat) (x : A) :
  tab_size l = zlen (tab l) -> 0 <= start l < tab_size l -> Z.of_nat i < tab_size l ->
  exists t, PUT l (Z.of_nat i) x = Ok (set_tab l t) /\ length t = length (tab l) /\
    rot t (start l) = <[i := Some x]> (rot (tab l) (start l)).
Proof.
  intros Hs Hst Hi. unfold PUT.
  rewrite INDEX_ok by lia. bind_red. unfold tab_store.
  pose proof (Z.mod_pos_bound (start l + Z.of_nat i) (tab_size l) ltac:(lia)).
  rewrite Hs in *.
  destruct (Z.leb_spec 0 ((start l + Z.of_nat i) mod zlen (tab l))); [|lia].
  destruct (Z.ltb_spec ((start l + Z.of_nat i) mod zlen (tab l)) (zlen (tab l))); [|lia].
  eexists. split; [done|]. split; [by rewrite length_insert|].
  rewrite rot_insert by lia. by rewrite Nat2Z.id.
Qed.

Lemma make_bigger_ok l xs (n : Z) :
  lrepr l xs -> 0 < n ->
  returns (make_bigger l n) (fun l' =>
    lrepr l' xs /\ len l + n <= tab_size l' /\ start l' < tab_size l' /\
    num_producers l' = num_producers l /\ num_consumers l' = num_consumers l).
Proof.
  intros H Hn. unfold make_bigger. pose proof (lr_bound _ _ H) as Hb.
  destruct (H) as [Hs Hst Hlt Hl (junk & E)].
  destruct (Z.leb_spec (len l + n) (tab_size l)).
  { simpl. pose proof (zlen_nonneg xs). split_and!; try done; lia. }
  wp_assert. replace (tab_size l + n - tab_size l) with n by lia.
  set (fresh := replicate (Z.to_nat n) (@None A)).
  assert (zlen fresh = n) as Hfr by (unfold fresh; list_lia).
  set (E1 := drop (Z.to_nat (start l)) (tab l)).
  set (B := take (Z.to_nat (start l)) (tab l)).
  assert (tab l = B ++ E1) as Htab by (symmetry; apply take_drop).
  assert (zlen B = start l) as HB by (unfold B; list_lia).
  assert (zlen E1 = tab_size l - start l) as HE by (unfold E1; list_lia).
  assert (E1 ++ B = (Some <$> xs) ++ junk) as E' by done.
  assert (forall t junk', zlen t = tab_size l + n ->
    rot t (start l) = (Some <$> xs) ++ junk' ->
    lrepr (mkList t (tab_size l + n) (start l) (len l) (num_producers l)
             (num_consumers l)) xs) as Hmk.
  { intros t junk' Ht Hr. constructor; simpl; try lia; try done. eauto. }
  destruct (Z.ltb_spec (tab_size l) (start l + len l)) as [Hw|Hw].
  - set (b := len l - (tab_size l - start l)).
    assert (Some <$> xs = E1 ++ take (Z.to_nat b) B) as Hxs.
    { assert (Some <$> xs = take (length xs) (E1 ++ B)) as ->.
      { rewrite E', take_app_le by list_lia. rewrite take_ge by list_lia. done. }
      rewrite take_app_ge by list_lia. do 2 f_equal. list_lia. }
    assert (slice (tab l ++ fresh) 0 b = take (Z.to_nat b) B) as Hsl.
    { unfold slice. rewrite drop_0, Htab, <- app_assoc, take_app_le by list_lia. done. }
    apply returns_bind. destruct (Z.leb_spec b n).
    + rewrite mem_move_ok, Hsl by list_lia. cbn [returns].
      assert (overwrite (tab l ++ fresh) (tab_size l) (take (Z.to_nat b) B)
              = tab l ++ take (Z.to_nat b) B ++ drop (Z.to_nat b) fresh) as ->.
      { unfold overwrite. rewrite take_app_le, take_ge, drop_app_ge by list_lia.
        do 3 f_equal. list_lia. }
      split_and!; try (simpl; done || lia).
      eapply (Hmk _ (drop (Z.to_nat b) fresh ++ B)); [list_lia|].
      rewrite Hxs. unfold rot.
      rewrite drop_app_le, take_app_le by list_lia. by rewrite <- !app_assoc.
    + rewrite mem_move_ok by list_lia. bind_red.
      assert (overwrite (tab l ++ fresh) (tab_size l) (slice (tab l ++ fresh) 0 n)
              = tab l ++ take (Z.to_nat n) B) as ->.
      { unfold overwrite, slice. rewrite take_app_le, take_ge, drop_0 by list_lia.
        rewrite (drop_ge (tab l ++ fresh)) by list_lia. rewrite app_nil_r. f_equal.
        rewrite Htab, <- app_assoc, take_app_le by list_lia. done. }
      rewrite mem_move_ok by list_lia. cbn [returns].
      assert (slice (tab l ++ take (Z.to_nat n) B) n (b - n)
              = drop (Z.to_nat n) (take (Z.to_nat b) B)) as ->.
      { unfold slice. rewrite Htab, <- app_assoc, drop_app_le by list_lia.
        rewrite take_app_le, take_drop_commute by list_lia. do 2 f_equal. lia. }
      split_and!; try (simpl; done || lia).
      eapply (Hmk _ (drop (Z.to_nat (b - n)) B)).
      { rewrite zlen_overwrite; list_lia. }
      rewrite Hxs. unfold rot, overwrite. rewrite take_0, Nat.add_0_l. cbn [app].
      set (B2 := drop (Z.to_nat n) (take (Z.to_nat b) B)).
      assert (length B2 = Z.to_nat (b - n)) as HB2 by (unfold B2; list_lia).
      rewrite HB2, drop_app_ge, drop_drop by list_lia.
      replace (Z.to_nat (b - n) + _)%nat with (Z.to_nat (start l)) by list_lia.
      rewrite drop_app_le by list_lia. fold E1.
      rewrite take_app_ge, HB2 by list_lia.
      rewrite Htab, <- (app_assoc B), drop_app_le, take_app_le by list_lia.
      rewrite (take_ge (drop (Z.to_nat (b - n)) B)) by list_lia. rewrite <- !app_assoc. f_equal.
      rewrite app_assoc. f_equal. unfold B2.
      rewrite <- (take_drop (Z.to_nat n) (take (Z.to_nat b) B)) at 2.
      rewrite take_take. f_equal. f_equal. lia.
  - simpl. split_and!; try (simpl; done || lia).
    eapply (Hmk _ (drop (length xs) E1 ++ fresh ++ B)); [list_lia|].
    unfold rot. rewrite drop_app_le, take_app_le by list_lia. fold E1 B.
    assert (Some <$> xs = take (length xs) E1) as ->.
    { transitivity (take (length xs) (E1 ++ B)).
      - rewrite E', take_app_le, take_ge by list_lia. done.
      - by rewrite take_app_le by list_lia. }
    by rewrite (app_assoc (take _ _)), take_drop, <- app_assoc.
Qed.

Lemma gwlist_append_ok l xs (x : A) :
  lrepr l xs ->
  returns (gwlist_append l x) (fun l' =>
    lrepr l' (xs ++ [x]) /\ num_producers l' = num_producers l /\
    num_consumers l' = num_consumers l).
Proof.
  intros H. unfold gwlist_append. apply returns_bind.
  eapply returns_mono; [apply (make_bigger_ok l xs 1); [done|lia]|].
  intros l' (H' & Hroom & Hst & Hp & Hc).
  assert (len l' = len l) as El by by rewrite (lr_len _ _ H), (lr_len _ _ H').
  pose proof (lr_len _ _ H') as Hl. pose proof (zlen_nonneg xs).
  destruct (PUT_ok l' (length xs) x) as (t & Hput & Hlt & Hr);
    [apply H'|destruct H'; lia|list_lia|].
  rewrite Hl. unfold zlen at 1. rewrite Hput. bind_red. simpl.
  split_and!; try done. destruct H' as [Hs Hst' Hlt' _ (junk & E)].
  constructor; simpl; try list_lia.
  rewrite Hr, E. rewrite insert_app_r_alt by list_lia.
  replace (_ - _)%nat with 0%nat by list_lia.
  assert (length junk <> 0)%nat as Hj.
  { apply (f_equal length) in E. rewrite length_rot in E. list_lia. }
  destruct junk as [|j junk]; [done|]. exists junk. simpl.
  by rewrite fmap_app, <- app_assoc.
Qed.

(** Reading [start] forward: deletion at the front. *)
Lemma lrepr_advance l xs (c : Z) :
  lrepr l xs -> 0 < tab_size l -> 0 <= c <= len l ->
  lrepr (mkList (tab l) (tab_size l) ((start l + c) mod tab_size l) (len l - c)
           (num_producers l) (num_consumers l)) (drop (Z.to_nat c) xs).
Proof.
  intros H Hpos Hc. pose proof (lr_bound _ _ H). destruct H as [Hs Hst Hlt Hl (junk & E)].
  pose proof (Z.mod_pos_bound (start l + c) (tab_size l) Hpos).
  constructor; simpl; try lia; [list_lia|].
  rewrite Hs, rot_advance, E by lia. rewrite drop_app_le by list_lia.
  exists (junk ++ take (Z.to_nat c) ((Some <$> xs) ++ junk)).
  by rewrite fmap_drop, <- app_assoc.
Qed.

(** Any change of the array that keeps its size and start. *)
Lemma lrepr_set l t xs ys junk (n : Z) :
  lrepr l xs -> length t = length (tab l) ->
  rot t (start l) = (Some <$> ys) ++ junk -> n = zlen ys ->
  lrepr (set_llen (set_tab l t) n) ys.
Proof.
  intros [Hs Hst Hlt Hl _] Ht Hr ->.
  constructor; simpl; try done; [list_lia|]. eauto.
Qed.

(** Changing an item where it is. *)
Lemma PUT_item_ok l xs (i : nat) (x : A) :
  lrepr l xs -> (i < length xs)%nat ->
  returns (PUT l (Z.of_nat i) x) (fun l' => lrepr l' (<[i := x]> xs)).
Proof.
  intros H Hi. pose proof (lr_bound _ _ H) as Hb. pose proof (lr_len _ _ H) as Hl.
  pose proof (lr_pos _ _ H ltac:(list_lia)) as Hp.
  destruct (PUT_ok l i x (lr_size _ _ H) Hp ltac:(list_lia)) as (t & -> & Ht & Hr).
  destruct (lr_items _ _ H) as [junk Hj]. simpl.
  pose proof (lrepr_set l t xs (<[i := x]> xs) junk (len l) H Ht) as L.
  destruct l; unfold set_llen, set_tab in *; simpl in *. apply L.
  - rewrite Hr, Hj, list_fmap_insert. by rewrite insert_app_l by list_lia.
  - list_lia.
Qed.

Lemma shift_down_ok l xs (pos count i n : nat) :
  lrepr l xs -> (pos + i + count + n = length xs)%nat ->
  returns (shift_down l (Z.of_nat pos) (Z.of_nat count) (Z.of_nat i) n) (fun l' =>
    exists t, l' = set_tab l t /\ length t = length (tab l) /\
    exists junk, rot t (start l) =
      (Some <$> (take (pos + i) xs ++ drop (pos + i + count) xs)) ++ junk).
Proof.
  revert l xs i. induction n as [|n IH]; intros l xs i H Hn.
  - simpl. exists (tab l). split; [by destruct l|]. split; [done|].
    destruct H as [Hs Hst Hlt Hl (junk & E)].
    exists ((Some <$> drop (pos + i) xs) ++ junk). rewrite E.
    rewrite (drop_ge xs), app_nil_r by lia.
    by rewrite app_assoc, <- fmap_app, take_drop.
  - cbn [shift_down].
    destruct (lookup_lt_is_Some_2 xs (pos + i + count)) as [x Hx]; [lia|].
    replace (Z.of_nat pos + Z.of_nat i + Z.of_nat count)
      with (Z.of_nat (pos + i + count)) by lia.
    rewrite (GET_ok l xs _ x) by done. bind_red.
    pose proof (lr_bound _ _ H) as Hb. pose proof (lr_len _ _ H) as Hl.
    destruct (PUT_ok l (pos + i) x) as (t & Hput & Hlt & Hr);
      [apply H|apply (lr_pos _ xs); [done|list_lia]|list_lia|].
    replace (Z.of_nat pos + Z.of_nat i) with (Z.of_nat (pos + i)) by lia.
    rewrite Hput. bind_red.
    assert (lrepr (set_tab l t) (<[(pos + i)%nat := x]> xs)) as H'.
    { destruct H as [Hs Hst Hlt' Hl' (junk & E)].
      constructor; simpl; try done; [list_lia|list_lia|].
      exists junk. rewrite Hr, E, insert_app_l by list_lia.
      by rewrite list_fmap_insert. }
    replace (Z.of_nat i + 1) with (Z.of_nat (S i)) by lia.
    eapply returns_mono; [apply (IH _ _ (S i) H'); list_lia|].
    intros l' (t' & -> & Ht' & junk & Hj). exists t'. split; [done|].
    split; [by rewrite Ht'|]. exists junk. simpl in Hj. rewrite Hj. do 2 f_equal.
    rewrite Nat.add_succ_r, (take_S_r _ _ x) by (apply list_lookup_insert_eq; lia).
    rewrite take_insert_ge, drop_insert_lt, <- app_assoc by lia. f_equal. simpl.
    rewrite (drop_S _ _ _ Hx). done.
Qed.

Definition same_counts l l' : Prop :=
  num_producers l' = num_producers l /\ num_consumers l' = num_consumers l.

Lemma delete_items_ok l xs (pos count : Z) :
  lrepr l xs -> 0 <= pos < zlen xs -> 0 <= count -> pos + count <= zlen xs ->
  returns (delete_items_from_list l pos count) (fun l' =>
    lrepr l' (cut xs pos count) /\ same_counts l l').
Proof.
  intros H Hp Hc Hpc. unfold delete_items_from_list, same_counts.
  pose proof (lr_len _ _ H) as Hl. pose proof (lr_bound _ _ H) as Hb.
  pose proof (lr_pos _ _ H ltac:(lia)) as Hst. rewrite Hl.
  do 4 wp_assert. unfold cut.
  destruct (Z.eqb_spec pos 0) as [->|Hp0].
  { rewrite INDEX_ok by lia. simpl.
    split_and!; try done. rewrite <- Hl. apply lrepr_advance; [done|lia|lia]. }
  destruct (Z.eqb_spec (pos + count) (zlen xs)) as [He|He].
  { simpl. split_and!; try done.
    destruct (H) as [Hs Hst' Hlt' _ (junk & E)].
    replace l with (set_tab l (tab l)) by by destruct l.
    rewrite (drop_ge xs), app_nil_r by list_lia.
    eapply (lrepr_set l _ xs _ ((Some <$> drop (Z.to_nat pos) xs) ++ junk)); try done.
    - by rewrite app_assoc, <- fmap_app, take_drop.
    - list_lia. }
  destruct (H) as [Hs Hst' Hlt' _ (junk & E)].
  destruct (Z.ltb_spec (start l + zlen xs) (tab_size l)) as [Hw|Hw].
  - rewrite mem_move_ok by lia. bind_red. simpl. split_and!; try done.
    set (T := overwrite (tab l) (start l + pos)
      (slice (tab l) (start l + pos + count) (zlen xs - pos - count))).
    assert (slice (tab l) (start l + pos + count) (zlen xs - pos - count)
            = Some <$> drop (Z.to_nat pos + Z.to_nat count) xs) as Hsl.
    { unfold slice.
      replace (Z.to_nat (start l + pos + count))
        with (Z.to_nat (start l) + (Z.to_nat pos + Z.to_nat count))%nat by lia.
      rewrite <- drop_drop.
      transitivity (take (Z.to_nat (zlen xs - pos - count))
        (drop (Z.to_nat pos + Z.to_nat count) (rot (tab l) (start l)))).
      - unfold rot. rewrite drop_app_le, take_app_le by list_lia. done.
      - rewrite E, drop_app_le, take_app_le by list_lia.
        rewrite take_ge by list_lia. by rewrite fmap_drop. }
    eapply (lrepr_set l T xs _
      (drop (Z.to_nat (zlen xs - count)) (rot (tab l) (start l)))); try done.
    + unfold T. apply length_overwrite; [lia|]. rewrite zlen_slice; lia.
    + unfold T, rot, overwrite. rewrite Hsl.
      rewrite drop_app_le, take_app_le by list_lia.
      replace (take (Z.to_nat (start l)) (take (Z.to_nat (start l + pos)) (tab l)))
        with (take (Z.to_nat (start l)) (tab l))
        by (rewrite take_take; f_equal; lia).
      assert (drop (Z.to_nat (start l)) (take (Z.to_nat (start l + pos)) (tab l))
              = Some <$> take (Z.to_nat pos) xs) as ->.
      { replace (Z.to_nat (start l + pos)) with (Z.to_nat (start l) + Z.to_nat pos)%nat
          by lia. rewrite <- take_drop_commute.
        transitivity (take (Z.to_nat pos) (rot (tab l) (start l))).
        - unfold rot. by rewrite take_app_le by list_lia.
        - rewrite E, take_app_le by list_lia. by rewrite fmap_take. }
      rewrite fmap_app, <- !app_assoc. do 2 f_equal.
      rewrite drop_app_le, drop_drop by list_lia. do 2 f_equal. list_lia.
    + list_lia.
  - pose proof (shift_down_ok l xs (Z.to_nat pos) (Z.to_nat count) 0
      (Z.to_nat (zlen xs - count - pos)) H ltac:(list_lia)) as L.
    rewrite !Z2Nat.id in L by lia. change (Z.of_nat 0) with 0 in L.
    rewrite Nat.add_0_r in L.
    apply returns_bind. eapply returns_mono; [exact L|].
    intros l' (t & -> & Ht & junk' & Hr). simpl. split_and!; try done.
    replace (len l) with (zlen xs) by done.
    eapply (lrepr_set l t xs); try done. list_lia.
Qed.

Lemma gwlist_extract_first_ok l xs :
  lrepr l xs ->
  returns (gwlist_extract_first l) (fun '(r, l') =>
    r = head xs /\ lrepr l' (tail xs) /\ same_counts l l').
Proof.
  intros H. unfold gwlist_extract_first. rewrite (lr_len _ _ H).
  destruct xs as [|x xs]; [by simpl|].
  destruct (Z.eqb_spec (zlen (x :: xs)) 0); [list_lia|].
  pose proof (GET_ok l (x :: xs) 0 x H eq_refl) as G.
  change (Z.of_nat 0) with 0 in G. rewrite G. bind_red. apply returns_bind.
  eapply returns_mono; [apply (delete_items_ok l (x :: xs)); [done|list_lia..]|].
  intros l' [H' Hc]. simpl. done.
Qed.

(** ** Insertion in the middle *)

Lemma GET_rot l (i : nat) (x : A) :
  tab_size l = zlen (tab l) -> 0 <= start l < tab_size l ->
  rot (tab l) (start l) !! i = Some (Some x) -> GET l (Z.of_nat i) = Ok x.
Proof.
  intros Hs Hst Hx. unfold GET.
  rewrite INDEX_ok by lia. bind_red. unfold tab_load.
  pose proof (Z.mod_pos_bound (start l + Z.of_nat i) (tab_size l) ltac:(lia)).
  destruct (Z.leb_spec 0 ((start l + Z.of_nat i) mod tab_size l)); [|lia].
  assert (i < length (tab l))%nat.
  { apply lookup_lt_Some in Hx. by rewrite length_rot in Hx. }
  rewrite Hs in *. rewrite rot_lookup, Nat2Z.id, Hx by list_lia. done.
Qed.

Lemma shift_up_ok l (pre : list (option A)) (ms : list A) (j : option A)
    (junk : list (option A)) :
  tab_size l = zlen (tab l) -> 0 <= start l < tab_size l ->
  rot (tab l) (start l) = pre ++ (Some <$> ms) ++ j :: junk ->
  returns (shift_up l (zlen pre + zlen ms) (length ms)) (fun l' =>
    exists t e, l' = set_tab l t /\ length t = length (tab l) /\
      rot t (start l) = pre ++ e :: (Some <$> ms) ++ junk).
Proof.
  revert l j junk. induction ms as [|x ms IH] using rev_ind; intros l j junk Hs Hst Hr.
  - simpl. exists (tab l), j. split; [by destruct l|]. done.
  - rewrite length_app, Nat.add_1_r. cbn [shift_up].
    rewrite fmap_app, <- app_assoc in Hr. simpl in Hr.
    assert (zlen pre + zlen (ms ++ [x]) - 1 = Z.of_nat (length pre + length ms)) as ->
      by list_lia.
    assert (zlen pre + zlen (ms ++ [x]) = Z.of_nat (S (length pre + length ms))) as ->
      by list_lia.
    rewrite (GET_rot l _ x); [|done|done|].
    2: { rewrite Hr, app_assoc. apply list_lookup_middle. list_lia. }
    bind_red.
    assert (length (tab l) = length (pre ++ (Some <$> ms) ++ Some x :: j :: junk)) as Htl
      by by rewrite <- Hr, length_rot.
    destruct (PUT_ok l (S (length pre + length ms)) x) as (t & Hput & Hlt & Hr');
      [done|done|list_lia|].
    rewrite Hput. bind_red.
    replace (Z.of_nat (length pre + length ms)) with (zlen pre + zlen ms) by list_lia.
    eapply returns_mono; [apply (IH (set_tab l t) (Some x) (Some x :: junk)); simpl|].
    + list_lia.
    + done.
    + rewrite Hr', Hr. change (Some x :: j :: junk) with ([Some x] ++ j :: junk).
      rewrite !app_assoc, insert_app_r_alt by list_lia.
      replace (_ - _)%nat with 0%nat by list_lia. simpl. by rewrite <- !app_assoc.
    + intros l' (t' & e & -> & Ht' & Hj). exists t', e. split; [done|].
      simpl in *. split; [lia|]. rewrite Hj, fmap_app, <- app_assoc. done.
Qed.

Lemma gwlist_insert_ok l xs (pos : Z) (x : A) :
  lrepr l xs -> 0 <= pos <= zlen xs ->
  returns (gwlist_insert l pos x) (fun l' =>
    lrepr l' (splice xs pos [x]) /\ same_counts l l').
Proof.
  intros H Hp. unfold gwlist_insert, same_counts.
  rewrite (lr_len _ _ H). do 2 wp_assert. apply returns_bind.
  eapply returns_mono; [apply (make_bigger_ok l xs 1); [done|lia]|].
  intros l' (H' & Hroom & Hst & Hpr & Hco).
  pose proof (lr_len _ _ H) as Hl. pose proof (lr_len _ _ H') as Hl'.
  destruct (H') as [Hs Hst' _ _ (junk & E)].
  assert (length junk <> 0)%nat as Hj.
  { apply (f_equal length) in E. rewrite length_rot in E. list_lia. }
  destruct junk as [|j junk]; [done|].
  rewrite <- (take_drop (Z.to_nat pos) xs), fmap_app, <- app_assoc in E.
  apply returns_bind. rewrite Hl'.
  pose proof (shift_up_ok l' _ _ _ _ Hs ltac:(lia) E) as L.
  replace (zlen xs) with (zlen (Some <$> take (Z.to_nat pos) xs)
                          + zlen (drop (Z.to_nat pos) xs)) at 1 by list_lia.
  replace (Z.to_nat (zlen xs - pos)) with (length (drop (Z.to_nat pos) xs)) by list_lia.
  eapply returns_mono; [exact L|].
  intros l'' (t & e & -> & Ht & Hr).
  destruct (PUT_ok (set_tab l' t) (Z.to_nat pos) x) as (t2 & Hput & Ht2 & Hr2);
    [simpl; list_lia|simpl; lia|simpl; list_lia|].
  rewrite Z2Nat.id in Hput by lia. rewrite Hput. bind_red. simpl.
  split_and!; try done.
  change (mkList t2 (tab_size l') (start l') (len l' + 1) (num_producers l')
            (num_consumers l')) with (set_llen (set_tab l' t2) (len l' + 1)).
  apply (lrepr_set l' t2 xs _ junk); [done| | |rewrite zlen_splice; list_lia].
  - simpl in *. lia.
  - simpl in Hr2. rewrite Hr2, Hr. rewrite insert_app_r_alt by list_lia.
    replace (_ - _)%nat with 0%nat by list_lia. simpl.
    unfold splice. rewrite !fmap_app, <- !app_assoc. done.
Qed.

(** ** Search and removal by predicate *)

(** The callback [c] decides the predicate [p] on the items. *)
Definition decides (c : A -> res bool) (p : A -> bool) xs : Prop := Forall (fun x => c x = Ok (p x)) xs.

Lemma decides_lookup c p xs i x : decides c p xs -> xs !! i = Some x -> c x = Ok (p x).
Proof. intros H Hx. by eapply (proj1 (Forall_lookup _ _) H). Qed.

Lemma decides_pure p xs : decides (fun x => Ok (p x)) p xs.
Proof. by apply Forall_true. Qed.

Lemma find_loop_ok l xs c (p : A -> bool) (i n : nat) :
  lrepr l xs -> decides c p xs -> (i + n = length xs)%nat ->
  returns (find_loop l c (Z.of_nat i) n) (fun r =>
    (match r with Some (_, x) => Some x | None => None end)
      = List.find p (drop i xs) /\
    match r with
    | Some (k, x) => Z.of_nat i <= k /\ xs !! Z.to_nat k = Some x /\ p x = true /\
        forall m y, (i <= m)%nat -> Z.of_nat m < k -> xs !! m = Some y -> p y = false
    | None => forallb (fun x => negb (p x)) (drop i xs) = true
    end).
Proof.
  intros H Hc. revert i. induction n as [|n IH]; intros i Hn; simpl.
  - by rewrite drop_ge by lia.
  - destruct (lookup_lt_is_Some_2 xs i) as [x Hx]; [lia|].
    rewrite (GET_ok l xs i x) by done. bind_red.
    rewrite (decides_lookup _ _ _ _ _ Hc Hx). bind_red.
    rewrite (drop_S _ _ _ Hx). simpl. destruct (p x) eqn:Hpx.
    + simpl. split; [done|]. split; [lia|]. rewrite Nat2Z.id.
      split; [done|]. split; [done|]. intros; lia.
    + replace (Z.of_nat i + 1) with (Z.of_nat (S i)) by lia.
      eapply returns_mono; [apply IH; lia|].
      intros [[k y]|] [E F]; split; try done.
      destruct F as (Hk & Hy & Hpy & F). split; [lia|]. split; [done|].
      split; [done|]. intros m z Hm Hmk Hz. destruct (decide (m = i)) as [->|]; [naive_solver|].
      apply (F m z); [lia|lia|done].
Qed.

Lemma gwlist_search_ok l xs c (p : A -> bool) :
  lrepr l xs -> decides c p xs -> gwlist_search l c = Ok (List.find p xs).
Proof.
  intros H Hc. unfold gwlist_search. rewrite (lr_len _ _ H).
  pose proof (find_loop_ok l xs c p 0 (Z.to_nat (zlen xs)) H Hc ltac:(list_lia)) as L.
  apply returns_iff in L as (r & Hr & E & _).
  change (Z.of_nat 0) with 0 in Hr. rewrite Hr. bind_red.
  rewrite drop_0 in E. by rewrite <- E.
Qed.

Definition rejects (p : A -> bool) : A -> bool := fun x => negb (p x).

Lemma cut_one xs (i : nat) (x : A) :
  xs !! i = Some x -> cut xs (Z.of_nat i) 1 = take i xs ++ drop (S i) xs.
Proof. intros Hx. unfold cut. rewrite Nat2Z.id. do 2 f_equal. lia. Qed.

Lemma decides_cut c p xs (i : nat) : decides c p xs -> decides c p (take i xs ++ drop (S i) xs).
Proof. intros H. apply Forall_app. split; [by apply Forall_take|by apply Forall_drop]. Qed.

Lemma delete_matching_loop_ok l xs cb (p : A -> bool) (i : nat) (count : Z) (fuel : nat) :
  lrepr l xs -> decides cb p xs -> (i <= length xs)%nat -> (length xs - i < fuel)%nat ->
  returns (delete_matching_loop l cb (Z.of_nat i) count fuel) (fun '(c, l') =>
    c = count + zlen (List.filter p (drop i xs)) /\
    lrepr l' (take i xs ++ List.filter (rejects p) (drop i xs)) /\ same_counts l l').
Proof.
  revert l xs i count. induction fuel as [|fuel IH]; intros l xs i count H Hc Hi Hf; [lia|].
  cbn [delete_matching_loop]. rewrite (lr_len _ _ H).
  destruct (Z.ltb_spec (Z.of_nat i) (zlen xs)) as [Hlt|Hge].
  - destruct (lookup_lt_is_Some_2 xs i) as [x Hx]; [list_lia|].
    rewrite (GET_ok l xs i x) by done. bind_red.
    rewrite (decides_lookup _ _ _ _ _ Hc Hx). bind_red.
    rewrite (drop_S _ _ _ Hx). cbn [List.filter]. unfold rejects at 1.
    destruct (p x) eqn:Hpx; cbn [negb].
    + apply returns_bind. eapply returns_mono;
        [apply (delete_items_ok l xs (Z.of_nat i) 1); [done|list_lia..]|].
      intros l' [H' Hsc]. rewrite (cut_one _ _ _ Hx) in H'.
      eapply returns_mono; [apply (IH _ _ i (count + 1) H' (decides_cut _ _ _ _ Hc)); list_lia|].
      intros [c l''] (Hn & H'' & Hsc').
      rewrite drop_app_ge in Hn, H'' by list_lia.
      rewrite take_app_le in H'' by list_lia.
      replace (i - length (take i xs))%nat with 0%nat in * by list_lia.
      rewrite drop_0 in *. rewrite take_take, Nat.min_id in H''.
      unfold same_counts in *. split_and!; [list_lia|done|naive_solver congruence..].
    + replace (Z.of_nat i + 1) with (Z.of_nat (S i)) by lia.
      eapply returns_mono; [apply (IH _ _ (S i) count H Hc); list_lia|].
      intros [c l''] (Hn & H'' & Hsc'). rewrite (take_S_r _ _ _ Hx) in H''.
      rewrite <- app_assoc in H''. done.
  - simpl. rewrite (drop_ge xs) by list_lia. simpl.
    rewrite Z.add_0_r, app_nil_r, take_ge by list_lia. done.
Qed.

Lemma gwlist_delete_matching_ok l xs cb (p : A -> bool) :
  lrepr l xs -> decides cb p xs ->
  returns (gwlist_delete_matching l cb) (fun '(c, l') =>
    c = zlen (List.filter p xs) /\ lrepr l' (List.filter (rejects p) xs) /\
    same_counts l l').
Proof.
  intros H Hc. unfold gwlist_delete_matching. rewrite (lr_len _ _ H).
  eapply returns_mono;
    [apply (delete_matching_loop_ok l xs cb p 0 0); [done..|lia|list_lia]|].
  intros [c l'] F. by rewrite take_0, drop_0 in F.
Qed.

Lemma extract_matching_loop_ok l new xs ys cb (p : A -> bool) (i : nat) (fuel : nat) :
  lrepr l xs -> decides cb p xs -> lrepr new ys -> (i <= length xs)%nat -> (length xs - i < fuel)%nat ->
  returns (extract_matching_loop l new cb (Z.of_nat i) fuel) (fun '(l', new') =>
    lrepr l' (take i xs ++ List.filter (rejects p) (drop i xs)) /\ same_counts l l' /\
    lrepr new' (ys ++ List.filter p (drop i xs))).
Proof.
  revert l new xs ys i. induction fuel as [|fuel IH]; intros l new xs ys i H Hc Hy Hi Hf; [lia|].
  cbn [extract_matching_loop]. rewrite (lr_len _ _ H).
  destruct (Z.ltb_spec (Z.of_nat i) (zlen xs)) as [Hlt|Hge].
  - destruct (lookup_lt_is_Some_2 xs i) as [x Hx]; [list_lia|].
    rewrite (GET_ok l xs i x) by done. bind_red.
    rewrite (decides_lookup _ _ _ _ _ Hc Hx). bind_red.
    rewrite (drop_S _ _ _ Hx). cbn [List.filter]. unfold rejects at 1.
    destruct (p x) eqn:Hpx; cbn [negb].
    + apply returns_bind. eapply returns_mono; [apply (gwlist_append_ok new ys x Hy)|].
      intros new' (Hy' & _). apply returns_bind. eapply returns_mono;
        [apply (delete_items_ok l xs (Z.of_nat i) 1); [done|list_lia..]|].
      intros l' [H' Hsc]. rewrite (cut_one _ _ _ Hx) in H'.
      eapply returns_mono; [apply (IH _ _ _ _ i H' (decides_cut _ _ _ _ Hc) Hy'); list_lia|].
      intros [l'' new''] (H'' & Hsc' & Hy'').
      rewrite drop_app_ge in Hy'', H'' by list_lia.
      rewrite take_app_le in H'' by list_lia.
      replace (i - length (take i xs))%nat with 0%nat in * by list_lia.
      rewrite drop_0 in *. rewrite take_take, Nat.min_id in H''.
      rewrite <- app_assoc in Hy''.
      unfold same_counts in *. split_and!; [done|naive_solver congruence..|done].
    + replace (Z.of_nat i + 1) with (Z.of_nat (S i)) by lia.
      eapply returns_mono; [apply (IH _ _ _ _ (S i) H Hc Hy); list_lia|].
      intros [l'' new''] (H'' & Hsc' & Hy''). rewrite (take_S_r _ _ _ Hx) in H''.
      rewrite <- app_assoc in H''. done.
  - simpl. rewrite (drop_ge xs) by list_lia. simpl.
    rewrite !app_nil_r, take_ge by list_lia. done.
Qed.

Lemma gwlist_extract_matching_ok l xs cb (p : A -> bool) :
  lrepr l xs -> decides cb p xs ->
  returns (gwlist_extract_matching l cb) (fun '(new, l') =>
    lrepr l' (List.filter (rejects p) xs) /\ same_counts l l' /\
    match new with
    | None => List.filter p xs = []
    | Some new => List.filter p xs <> [] /\ lrepr new (List.filter p xs)
    end).
Proof.
  intros H Hc. unfold gwlist_extract_matching. rewrite (lr_len _ _ H).
  apply returns_bind. eapply returns_mono;
    [apply (extract_matching_loop_ok l gwlist_create xs [] cb p 0);
       [done..|apply gwlist_create_ok|lia|list_lia]|].
  intros [l' new] F. rewrite take_0, drop_0 in F. destruct F as (F1 & F2 & F3).
  simpl in F1, F3. rewrite (lr_len _ _ F3).
  destruct (Z.eqb_spec (zlen (List.filter p xs)) 0) as [E|E]; simpl.
  - apply zlen_0_inv in E. done.
  - split_and!; try done. by intros E'; rewrite E' in E.
Qed.

(** ** The list as a queue between threads

    One step is one critical section of one thread.  [Put x] is a call of
    [gwlist_produce]; [Take r] is the critical section in which a call of
    [gwlist_consume] gets its result; [Silent] covers the others: a consumer
    that enters or waits on, and changes of the producer count. *)

Inductive event :=
| Put (x : A)
| Take (r : option A)
| Silent.

Inductive qstep : List A -> event -> List A -> Prop :=
| step_produce l x l' : gwlist_produce l x = Ok l' -> qstep l (Put x) l'
| step_enter l : qstep l Silent (gwlist_consume_enter l)
| step_wait l : gwlist_consume_retry l = Ok Blocked -> qstep l Silent l
| step_take l r l' : gwlist_consume_retry l = Ok (Consumed r l') -> qstep l (Take r) l'
| step_timed l r l' :
    gwlist_timed_consume_retry l true = Ok (Consumed r l') -> qstep l (Take r) l'
| step_add l : qstep l Silent (gwlist_add_producer l)
| step_remove l l' : gwlist_remove_producer l = Ok l' -> qstep l Silent l'.

Inductive qsteps : List A -> list event -> List A -> Prop :=
| qsteps_nil l : qsteps l [] l
| qsteps_cons l e l' es l'' : qstep l e l' -> qsteps l' es l'' -> qsteps l (e :: es) l''.

(** The items put and the items taken in a sequence of steps. *)
Definition puts (es : list event) : list A :=
  omap (fun e => match e with Put x => Some x | _ => None end) es.

Definition takes (es : list event) : list A :=
  omap (fun e => match e with Take r => r | _ => None end) es.

Lemma lrepr_set_counts l xs (n m : Z) :
  lrepr l xs ->
  lrepr (mkList (tab l) (tab_size l) (start l) (len l) n m) xs.
Proof. by intros []; constructor. Qed.

(** What taking an item does, for both kinds of consumers. *)
Lemma take_item_ok l xs :
  lrepr l xs ->
  returns (r ← (if 0 <? len l then
                  x ← GET l 0; l ← delete_items_from_list l 0 1; Ok (Some x, l)
                else Ok (None, l));
           Ok (Consumed r.1 (set_consumers r.2 (num_consumers r.2 - 1))))
    (fun c => exists l', c = Consumed (head xs) l' /\ lrepr l' (tail xs) /\
       num_producers l' = num_producers l /\
       num_consumers l' = num_consumers l - 1).
Proof.
  intros H. rewrite (lr_len _ _ H). destruct xs as [|x xs].
  - simpl. eexists; split; [done|]. split_and!; try done. by apply lrepr_set_counts.
  - destruct (Z.ltb_spec 0 (zlen (x :: xs))); [|list_lia].
    pose proof (GET_ok l (x :: xs) 0 x H eq_refl) as G.
    change (Z.of_nat 0) with 0 in G. rewrite G. bind_red.
    pose proof (delete_items_ok l (x :: xs) 0 1 H ltac:(list_lia) ltac:(lia)
                  ltac:(list_lia)) as D.
    apply returns_iff in D as (l' & -> & H' & Hp & Hc). bind_red. simpl.
    eexists; split; [done|]. simpl. split_and!; [|done|by rewrite Hc].
    by apply lrepr_set_counts.
Qed.

(** Without producers a consumer does not wait. *)
Lemma consume_now l xs :
  lrepr l xs -> num_producers l = 0 ->
  exists l', gwlist_consume_retry (gwlist_consume_enter l) = Ok (Consumed (head xs) l') /\
    lrepr l' (tail xs) /\ num_producers l' = 0.
Proof.
  intros H Hp. assert (lrepr (gwlist_consume_enter l) xs) as He by by apply lrepr_set_counts.
  pose proof (take_item_ok _ _ He) as P. unfold gwlist_consume_retry.
  assert (num_producers (gwlist_consume_enter l) = 0) as Hp' by done. rewrite Hp', andb_false_r.
  apply returns_iff in P as (c & -> & l' & -> & Hl' & Hp'' & _). exists l'. split_and!; [done..|congruence].
Qed.

Lemma qstep_fifo l e l' xs :
  lrepr l xs -> qstep l e l' ->
  exists xs', lrepr l' xs' /\ xs ++ puts [e] = takes [e] ++ xs'.
Proof.
  intros H. destruct 1 as [l x l' E|l|l E|l r l' E|l r l' E|l|l l' E].
  - pose proof (gwlist_append_ok l xs x H) as P.
    eapply returns_eq in P as (P & _); [|exact E]. eauto.
  - exists xs. split; [by apply lrepr_set_counts|by rewrite app_nil_r].
  - exists xs. by rewrite app_nil_r.
  - unfold gwlist_consume_retry in E. destruct (_ && _); [done|].
    eapply (returns_eq _ _ _ (take_item_ok l xs H)) in E as (l'' & [= -> ->] & H' & _).
    exists (tail xs). split; [done|]. destruct xs; by rewrite app_nil_r.
  - unfold gwlist_timed_consume_retry in E. rewrite andb_false_r in E.
    eapply (returns_eq _ _ _ (take_item_ok l xs H)) in E as (l'' & [= -> ->] & H' & _).
    exists (tail xs). split; [done|]. destruct xs; by rewrite app_nil_r.
  - exists xs. split; [by apply lrepr_set_counts|by rewrite app_nil_r].
  - unfold gwlist_remove_producer in E.
    apply res_bind_ok in E as (? & _ & [= <-]).
    exists xs. split; [by apply lrepr_set_counts|by rewrite app_nil_r].
Qed.

Lemma qsteps_fifo l es l' xs :
  qsteps l es l' -> lrepr l xs ->
  exists xs', lrepr l' xs' /\ xs ++ puts es = takes es ++ xs'.
Proof.
  intros Hs. revert xs. induction Hs as [l|l e l' es l'' He Hes IH]; intros xs H.
  { exists xs. by rewrite app_nil_r. }
  destruct (qstep_fifo _ _ _ _ H He) as (ys & Hy & E1).
  destruct (IH ys Hy) as (zs & Hz & E2). exists zs. split; [done|].
  change (e :: es) with ([e] ++ es). unfold puts, takes in *.
  rewrite !omap_app, app_assoc, E1, <- app_assoc, E2. by rewrite app_assoc.
Qed.

(** ** Sequences of list operations *)

Inductive list_op :=
| LAppend (x : A)
| LInsert (pos : Z) (x : A)
| LDelete (pos count : Z)
| LExtractFirst
| LDeleteMatching (p : A -> bool).

Definition run_list_op (l : List A) (op : list_op) : res (List A) :=
  match op with
  | LAppend x => gwlist_append l x
  | LInsert pos x => gwlist_insert l pos x
  | LDelete pos count => gwlist_delete l pos count
  | LExtractFirst => r ← gwlist_extract_first l; Ok r.2
  | LDeleteMatching p => r ← gwlist_delete_matching l (fun x => Ok (p x)); Ok r.2
  end.

(** The same on lists of items; [None] where the source panics. *)
Definition spec_list_op (xs : list A) (op : list_op) : option (list A) :=
  match op with
  | LAppend x => Some (xs ++ [x])
  | LInsert pos x =>
      if (0 <=? pos) && (pos <=? zlen xs) then Some (splice xs pos [x]) else None
  | LDelete pos count =>
      if (0 <=? pos) && (pos <? zlen xs) && (0 <=? count) && (pos + count <=? zlen xs)
      then Some (cut xs pos count) else None
  | LExtractFirst => Some (tail xs)
  | LDeleteMatching p => Some (List.filter (rejects p) xs)
  end.

Fixpoint run_list_ops (ops : list list_op) (l : List A) : res (List A) :=
  match ops with
  | [] => Ok l
  | op :: ops => l ← run_list_op l op; run_list_ops ops l
  end.

Fixpoint spec_list_ops (ops : list list_op) (xs : list A) : option (list A) :=
  match ops with
  | [] => Some xs
  | op :: ops => xs ← spec_list_op xs op; spec_list_ops ops xs
  end.

Definition list_refines (m : res (List A)) (xs : option (list A)) : Prop :=
  match xs with
  | Some xs => returns m (fun l => lrepr l xs)
  | None => m = Panic
  end.

(** Assertions of which one fails, before anything else. *)
Lemma asserts_panic (b1 b2 b3 b4 : bool) {B} (k : res B) :
  b1 && b2 && b3 && b4 = false ->
  (assert: b1; assert: b2; assert: b3; assert: b4; k) = Panic.
Proof. by destruct b1, b2, b3, b4. Qed.

Lemma run_list_op_ok l xs op :
  lrepr l xs -> list_refines (run_list_op l op) (spec_list_op xs op).
Proof.
  intros H. pose proof (lr_len _ _ H) as Hl. destruct op as [x|pos x|pos count| |p]; simpl.
  - apply (returns_mono _ _ _ (gwlist_append_ok l xs x H)). by intros l' [? _].
  - destruct (_ && _) eqn:E; simpl.
    + apply (returns_mono _ _ _ (gwlist_insert_ok l xs pos x H ltac:(lia))). by intros l' [? _].
    + unfold gwlist_insert. rewrite Hl. apply andb_false_iff in E as [-> | ->]; [done|].
      by destruct (0 <=? pos).
  - unfold gwlist_delete. destruct (_ && _) eqn:E; simpl.
    + apply (returns_mono _ _ _ (delete_items_ok l xs pos count H ltac:(lia) ltac:(lia) ltac:(lia))).
      by intros l' [? _].
    + unfold delete_items_from_list. rewrite Hl. by apply asserts_panic.
  - apply returns_bind, (returns_mono _ _ _ (gwlist_extract_first_ok l xs H)).
    by intros [r l'] (_ & ? & _).
  - apply returns_bind, (returns_mono _ _ _ (gwlist_delete_matching_ok l xs _ p H (decides_pure p xs))).
    by intros [r l'] (_ & ? & _).
Qed.

(** ** Properties *)

(** Any sequence of appends, insertions, range deletions, extractions of the
    first item and deletions of matching items has the effect of the same
    sequence on a plain list, whatever the wrap-around of the array and its
    growth; it panics exactly when a position or range is outside the list. *)
Theorem gwlist_ops_refine (ops : list list_op) l xs :
  lrepr l xs -> list_refines (run_list_ops ops l) (spec_list_ops ops xs).
Proof.
  revert l xs. induction ops as [|op ops IH]; intros l xs H; [done|]. simpl.
  pose proof (run_list_op_ok l xs op H) as Hr.
  destruct (spec_list_op xs op) as [xs'|]; simpl in *; [|by rewrite Hr].
  apply returns_iff in Hr as (l' & -> & H'). bind_red. by apply IH.
Qed.

(** [gwlist_get], the searches and the extraction of matching items agree
    with their definitions on lists: the item at a position inside the list (a
    panic outside), the first item that matches or NULL, and the matching items
    in order, split from the others (NULL instead of an empty list). *)
Theorem gwlist_queries l xs (c : A -> res bool) (p : A -> bool) (pos : Z) :
  lrepr l xs -> Forall (fun x => c x = Ok (p x)) xs ->
  gwlist_get l pos =
    match (if 0 <=? pos then xs !! Z.to_nat pos else None) with
    | Some x => Ok x
    | None => Panic
    end /\
  gwlist_search l c = Ok (List.find p xs) /\
  returns (gwlist_extract_matching l c) (fun '(new, l') =>
    lrepr l' (List.filter (rejects p) xs) /\
    match new with
    | None => List.filter p xs = []
    | Some new => List.filter p xs <> [] /\ lrepr new (List.filter p xs)
    end).
Proof.
  intros H Hc. split_and!.
  - unfold gwlist_get. rewrite (lr_len _ _ H). destruct (Z.leb_spec 0 pos) as [Hp|]; [|done].
    simpl. destruct (Z.ltb_spec pos (zlen xs)) as [Hx|Hx].
    + destruct (lookup_lt_is_Some_2 xs (Z.to_nat pos)) as [x Ex]; [list_lia|]. rewrite Ex. simpl.
      rewrite <- (Z2Nat.id pos Hp). by eapply GET_ok.
    + by rewrite lookup_ge_None_2 by list_lia.
  - by apply gwlist_search_ok.
  - apply (returns_mono _ _ _ (gwlist_extract_matching_ok l xs c p H Hc)).
    intros [new l'] (? & _ & ?). done.
Qed.

(** C27. Threads that produce into and consume from a list, in any interleaving
    of their critical sections and with consumers that time out: the items
    taken so far, followed by the items in the list, are the items that were in
    the list, followed by those put.  So nothing is lost, duplicated or
    reordered.  In each state reached, producing an item and trying to consume
    one do not fail, and a consumer gets NULL only from an empty list. *)
Theorem gwlist_queue_fifo l es l' xs :
  lrepr l xs -> qsteps l es l' ->
  exists xs', lrepr l' xs' /\ xs ++ puts es = takes es ++ xs' /\
    (forall x, is_ok (gwlist_produce l' x)) /\
    returns (gwlist_consume_retry l') (fun c =>
      match c with
      | Blocked => xs' = [] /\ 0 < num_producers l'
      | Consumed None _ => xs' = [] /\ num_producers l' <= 0
      | Consumed (Some x) _ => head xs' = Some x
      end).
Proof.
  intros H Hs. destruct (qsteps_fifo _ _ _ _ Hs H) as (xs' & H' & E).
  exists xs'. split_and!; [done..| |].
  - intros x. destruct (proj1 (returns_iff _ _) (gwlist_append_ok l' xs' x H')) as (l'' & ? & _).
    by exists l''.
  - pose proof (take_item_ok l' xs' H') as Ht. unfold gwlist_consume_retry.
    pose proof (lr_len _ _ H') as Hl. destruct (_ && _) eqn:Eb; simpl.
    + split; [apply zlen_0_inv|]; lia.
    + apply (returns_mono _ _ _ Ht). intros c (l'' & -> & _).
      destruct xs' as [|x xs']; simpl; [|done]. change (zlen []) with 0 in Hl. split; [done|lia].
Qed.
End gwlist_proofs.

Arguments event : clear implicits.
Arguments list_op : clear implicits.

Lemma gwlist_ops_refine_witness :
  list_refines (run_list_ops [LAppend 1; LAppend 2; LExtractFirst; LAppend 3; LAppend 4;
      LInsert 1 9; LDelete 0 1] gwlist_create) (Some [9; 3; 4]) /\
  list_refines (run_list_ops [LAppend 1; LDelete 1 0] gwlist_create) None.
Proof.
  split.
  - refine (gwlist_ops_refine [LAppend 1; LAppend 2; LExtractFirst; LAppend 3; LAppend 4;
      LInsert 1 9; LDelete 0 1] gwlist_create [] gwlist_create_ok).
  - refine (gwlist_ops_refine [LAppend 1; LDelete 1 0] gwlist_create [] gwlist_create_ok).
Defined.

Lemma gwlist_queries_witness :
  gwlist_get (@gwlist_create Z) 0 = Panic /\ gwlist_search (@gwlist_create Z) (fun x => Ok (Z.even x)) = Ok None.
Proof.
  pose proof (gwlist_queries gwlist_create [] (fun x => Ok (Z.even x)) Z.even 0 gwlist_create_ok (Forall_nil_2 _)) as (H1 & H2 & _).
  split; [exact H1|exact H2].
Defined.

Lemma gwlist_queue_fifo_witness :
  exists l, gwlist_produce gwlist_create 7 = Ok l /\
  exists xs', lrepr l xs' /\ [] ++ puts [Put 7] = takes [Put 7] ++ xs' /\
    (forall x, is_ok (gwlist_produce l x)) /\
    returns (gwlist_consume_retry l) (fun c =>
      match c with
      | Blocked => xs' = [] /\ 0 < num_producers l
      | Consumed None _ => xs' = [] /\ num_producers l <= 0
      | Consumed (Some x) _ => head xs' = Some x
      end).
Proof.
  eexists. split; [vm_compute; reflexivity|].
  apply (gwlist_queue_fifo gwlist_create [Put 7] _ [] gwlist_create_ok).
  eapply qsteps_cons; [|apply qsteps_nil]. apply step_produce. vm_compute. reflexivity.
Defined.
