(* ===== verification/GwSort.v ===== *)
(** * Sorting a list

    Models [quicksort] and [gwlist_sort] of src/gwlib/list.c: a quicksort in
    place on the circular array, with the last item of a section as the pivot and
    two indices that scan towards each other without bound checks. *)

From S2P Require Import Prelude Octstr GwList.
From Stdlib Require Import Sorting.Permutation.

Section sort.
Context {A : Type}.
Variable cmp : A -> A -> res Z.

(** [while (cmp(GET(list, l), pivot) < 0) l++]. *)
Fixpoint scan_up (list : List A) (pivot : A) (l : Z) (fuel : nat) : res Z :=
  match fuel with
  | O => Undef
  | S fuel =>
      x ← GET list l;
      c ← cmp x pivot;
      if c <? 0 then scan_up list pivot (l + 1) fuel else Ok l
  end.

(** [while (cmp(GET(list, r), pivot) > 0) r--]. *)
Fixpoint scan_down (list : List A) (pivot : A) (r : Z) (fuel : nat) : res Z :=
  match fuel with
  | O => Undef
  | S fuel =>
      x ← GET list r;
      c ← cmp x pivot;
      if 0 <? c then scan_down list pivot (r - 1) fuel else Ok r
  end.

(** The body of [if (l <= r)]. *)
Definition exchange (list : List A) (l r : Z) : res (List A) :=
  swap ← GET list l;
  y ← GET list r;
  list ← PUT list l y;
  PUT list r swap.

(** The [do ... while (l <= r)] loop. *)
Fixpoint partition_loop (list : List A) (pivot : A) (l r : Z) (fuel : nat)
  : res (Z * Z * List A) :=
  match fuel with
  | O => Undef
  | S fuel =>
      l ← scan_up list pivot l (S (Z.to_nat (len list)));
      r ← scan_down list pivot r (S (Z.to_nat (len list)));
      if l <=? r then
        list ← exchange list l r;
        if l + 1 <=? r - 1 then partition_loop list pivot (l + 1) (r - 1) fuel
        else Ok (l + 1, r - 1, list)
      else Ok (l, r, list)
  end.

Fixpoint quicksort (list : List A) (left right : Z) (fuel : nat) : res (List A) :=
  match fuel with
  | O => Undef
  | S fuel =>
      if left <? right then
        pivot ← GET list right;
        '(l, r, list) ← partition_loop list pivot left right (S (Z.to_nat (len list)));
        list ← quicksort list left r fuel;
        quicksort list l right fuel
      else Ok list
  end.

Definition gwlist_sort (list : List A) : res (List A) :=
  if len list =? 0 then Ok list
  else quicksort list 0 (len list - 1) (Z.to_nat (len list)).
End sort.

(** ** Sections of a list *)

Section segments.
Context {A : Type}.
Implicit Types xs ys : list A.

(** [ys] is a rearrangement of [xs] that moves items between the positions
    [left] to [right] only. *)
Record seg_perm (left right : Z) xs ys : Prop := {
  sp_perm : xs ≡ₚ ys;
  sp_out : forall k, 0 <= k -> k < left \/ right < k -> ys !! Z.to_nat k = xs !! Z.to_nat k;
  sp_in : forall k y, left <= k <= right -> ys !! Z.to_nat k = Some y ->
    exists k', left <= k' <= right /\ xs !! Z.to_nat k' = Some y
}.

Lemma seg_perm_refl left right xs : seg_perm left right xs xs.
Proof. constructor; eauto. Qed.

Lemma seg_perm_length left right xs ys : seg_perm left right xs ys -> length ys = length xs.
Proof. intros H. symmetry. apply Permutation_length, H. Qed.

Lemma seg_perm_trans left right xs ys zs :
  seg_perm left right xs ys -> seg_perm left right ys zs -> seg_perm left right xs zs.
Proof.
  intros [P1 O1 I1] [P2 O2 I2]. constructor.
  - by etrans.
  - intros k Hk Hout. by rewrite O2, O1.
  - intros k y Hk Hy. destruct (I2 k y Hk Hy) as (k' & Hk' & Hy'). eauto.
Qed.

Lemma seg_perm_weaken left right left' right' xs ys :
  left' <= left -> right <= right' -> 0 <= left' ->
  seg_perm left right xs ys -> seg_perm left' right' xs ys.
Proof.
  intros Hl Hr H0 [P O I]. constructor; [done| |].
  - intros k ??. apply O; lia.
  - intros k y Hk Hy. destruct (decide (left <= k <= right)) as [Hin|Hout].
    + destruct (I k y Hin Hy) as (k' & ? & ?). exists k'. split; [lia|done].
    + exists k. split; [done|]. rewrite <- O by lia. done.
Qed.

(** The effect of [exchange]. *)
Definition swapped xs (i j : Z) (x y : A) : list A :=
  <[Z.to_nat j := x]> (<[Z.to_nat i := y]> xs).

Lemma swapped_lookup xs i j x y k :
  0 <= i -> 0 <= j -> 0 <= k -> xs !! Z.to_nat i = Some x -> xs !! Z.to_nat j = Some y ->
  swapped xs i j x y !! Z.to_nat k =
    if k =? j then Some x else if k =? i then Some y else xs !! Z.to_nat k.
Proof.
  intros Hi Hj Hk Hx Hy. unfold swapped.
  pose proof (lookup_lt_Some _ _ _ Hx). pose proof (lookup_lt_Some _ _ _ Hy).
  rewrite lookup_insert_dec, lookup_insert_dec, length_insert.
  repeat (case_decide || case_match); try lia; done.
Qed.

Lemma swapped_seg_perm left right xs i j x y :
  0 <= left -> left <= i <= right -> left <= j <= right ->
  xs !! Z.to_nat i = Some x -> xs !! Z.to_nat j = Some y ->
  seg_perm left right xs (swapped xs i j x y).
Proof.
  intros H0 Hi Hj Hx Hy. constructor.
  - symmetry. unfold swapped. destruct (decide (i = j)) as [->|Hne].
    + rewrite list_insert_insert_eq, list_insert_id by (congruence || done). done.
    + by apply Permutation_insert_swap.
  - intros k Hk Hout. rewrite swapped_lookup by (lia || done). repeat case_match; lia || done.
  - intros k z Hk. rewrite swapped_lookup by (lia || done).
    repeat case_match; intros [=]; subst; eauto.
Qed.
End segments.

Section sort_proofs.
Context {A : Type} (cmp : A -> A -> res Z) (c : A -> A -> Z) {Hord : CmpOrder c}.
Implicit Types (list : List A) (xs : list A).

(** On the items of the list, the callback computes [c]. *)
Definition compares xs : Prop := forall x y, x ∈ xs -> y ∈ xs -> cmp x y = Ok (c x y).

Lemma compares_perm xs ys : xs ≡ₚ ys -> compares xs -> compares ys.
Proof. intros P H x y Hx Hy. apply H; by rewrite P. Qed.

Lemma compares_lookup xs pivot k x :
  compares xs -> pivot ∈ xs -> xs !! k = Some x -> cmp x pivot = Ok (c x pivot).
Proof. intros H Hp Hx. apply H; [by eapply list_elem_of_lookup_2|done]. Qed.

Lemma GET_at list xs k x :
  lrepr list xs -> 0 <= k -> xs !! Z.to_nat k = Some x -> GET list k = Ok x.
Proof. intros H Hk Hx. rewrite <- (Z2Nat.id k) by done. by apply (GET_ok _ _ _ _ H). Qed.

Lemma at_ex xs k : 0 <= k < zlen xs -> exists x, xs !! Z.to_nat k = Some x.
Proof. intros. apply lookup_lt_is_Some_2. list_lia. Qed.

(** An item at or after [l] that is not below the pivot stops the scan. *)
Lemma scan_up_ok list xs pivot s y :
  lrepr list xs -> compares xs -> pivot ∈ xs ->
  0 <= s -> xs !! Z.to_nat s = Some y -> 0 <= c y pivot ->
  forall (fuel : nat) l, 0 <= l <= s -> s - l < Z.of_nat fuel ->
  returns (scan_up cmp list pivot l fuel) (fun l' =>
    l <= l' <= s /\ (exists x, xs !! Z.to_nat l' = Some x /\ 0 <= c x pivot) /\
    forall k x, l <= k < l' -> xs !! Z.to_nat k = Some x -> c x pivot <= 0).
Proof.
  intros H Hc Hp Hs Hy Hcy. induction fuel as [|fuel IH]; intros l Hl Hf; [lia|].
  destruct (at_ex xs l) as [x Hx]; [apply lookup_lt_Some in Hy; list_lia|].
  cbn [scan_up]. rewrite (GET_at _ _ _ _ H (proj1 Hl) Hx). bind_red.
  rewrite (compares_lookup _ _ _ _ Hc Hp Hx). bind_red. wp_if.
  - assert (l <> s) by (intros ->; simplify_eq; lia).
    eapply returns_mono; [apply IH; lia|]. intros l' (H1 & H2 & H3). split_and!; [lia..|done|].
    intros k z Hk Hz. destruct (decide (k = l)) as [->|]; [simplify_eq; lia|]. apply (H3 k z); [lia|done].
  - cbn [returns]. split; [lia|]. split; [exists x; split; [done|lia]|]. intros; lia.
Qed.

Lemma scan_down_ok list xs pivot s y :
  lrepr list xs -> compares xs -> pivot ∈ xs ->
  0 <= s -> xs !! Z.to_nat s = Some y -> c y pivot <= 0 ->
  forall (fuel : nat) r, s <= r < zlen xs -> r - s < Z.of_nat fuel ->
  returns (scan_down cmp list pivot r fuel) (fun r' =>
    s <= r' <= r /\ (exists x, xs !! Z.to_nat r' = Some x /\ c x pivot <= 0) /\
    forall k x, r' < k <= r -> xs !! Z.to_nat k = Some x -> 0 < c x pivot).
Proof.
  intros H Hc Hp Hs Hy Hcy. induction fuel as [|fuel IH]; intros r Hr Hf; [lia|].
  destruct (at_ex xs r) as [x Hx]; [lia|].
  cbn [scan_down]. rewrite (GET_at list xs r x H ltac:(lia) Hx). bind_red.
  rewrite (compares_lookup _ _ _ _ Hc Hp Hx). bind_red. wp_if.
  - assert (r <> s) by (intros ->; simplify_eq; lia).
    eapply returns_mono; [apply IH; lia|]. intros r' (H1 & H2 & H3). split_and!; [lia..|done|].
    intros k z Hk Hz. destruct (decide (k = r)) as [->|]; [simplify_eq; lia|]. apply (H3 k z); [lia|done].
  - cbn [returns]. split; [lia|]. split; [exists x; split; [done|lia]|]. intros; lia.
Qed.

Lemma exchange_ok list xs i j x y :
  lrepr list xs -> 0 <= i -> 0 <= j -> xs !! Z.to_nat i = Some x -> xs !! Z.to_nat j = Some y ->
  returns (exchange list i j) (fun list' => lrepr list' (swapped xs i j x y)).
Proof.
  intros H Hi Hj Hx Hy. unfold exchange.
  rewrite (GET_at _ _ _ _ H Hi Hx), (GET_at _ _ _ _ H Hj Hy). bind_red. apply returns_bind.
  pose proof (lookup_lt_Some _ _ _ Hx). pose proof (lookup_lt_Some _ _ _ Hy).
  rewrite <- (Z2Nat.id i Hi) at 1. eapply returns_mono; [by apply (PUT_item_ok _ _ _ _ H)|].
  intros list' H'. rewrite <- (Z2Nat.id j Hj) at 1.
  apply (PUT_item_ok _ _ (Z.to_nat j) x H'). by rewrite length_insert.
Qed.

(** What holds before each round of the partition: the items before [l] are not
    above the pivot, those after [r] not below it, and each scan has an item to
    stop at. *)
Record part_inv (pivot : A) (left right l r : Z) xs : Prop := {
  pi_l : left <= l <= right;
  pi_r : left <= r <= right;
  pi_low : forall k x, left <= k < l -> xs !! Z.to_nat k = Some x -> c x pivot <= 0;
  pi_high : forall k x, r < k <= right -> xs !! Z.to_nat k = Some x -> 0 <= c x pivot;
  pi_up : exists s y, l <= s <= right /\ xs !! Z.to_nat s = Some y /\ 0 <= c y pivot;
  pi_down : exists s y, left <= s <= r /\ xs !! Z.to_nat s = Some y /\ c y pivot <= 0;
  pi_first : left < l /\ r < right \/ r = right /\ xs !! Z.to_nat right = Some pivot
}.

(** What holds after it. *)
Record parted (pivot : A) (left right l r : Z) xs : Prop := {
  pt_l : left < l;
  pt_r : r < right;
  pt_order : r < l;
  pt_bounds : left - 1 <= r /\ l <= right + 1;
  pt_low : forall k x, left <= k < l -> xs !! Z.to_nat k = Some x -> c x pivot <= 0;
  pt_high : forall k x, r < k <= right -> xs !! Z.to_nat k = Some x -> 0 <= c x pivot
}.

Lemma swapped_sides pivot left right l r xs x y :
  0 <= left -> left <= l <= r -> r <= right ->
  xs !! Z.to_nat l = Some x -> 0 <= c x pivot -> xs !! Z.to_nat r = Some y -> c y pivot <= 0 ->
  (forall k z, left <= k < l -> xs !! Z.to_nat k = Some z -> c z pivot <= 0) ->
  (forall k z, r < k <= right -> xs !! Z.to_nat k = Some z -> 0 <= c z pivot) ->
  (forall k z, left <= k < l + 1 -> swapped xs l r x y !! Z.to_nat k = Some z -> c z pivot <= 0) /\
  (forall k z, r - 1 < k <= right -> swapped xs l r x y !! Z.to_nat k = Some z -> 0 <= c z pivot).
Proof.
  intros H0 Hl Hr Hx Hcx Hy Hcy Hlow Hhigh. split; intros k z Hk; rewrite swapped_lookup by (lia || done).
  - destruct (Z.eqb_spec k r) as [->|].
    + assert (r = l) as -> by lia. intros [=]. simplify_eq. done.
    + destruct (Z.eqb_spec k l) as [->|]; [by intros [= ->]|]. intros Hz. apply (Hlow k z); [lia|done].
  - destruct (Z.eqb_spec k r) as [->|]; [by intros [= ->]|].
    destruct (Z.eqb_spec k l) as [->|]; [lia|]. intros Hz. apply (Hhigh k z); [lia|done].
Qed.

Lemma partition_loop_ok pivot left right : 0 <= left ->
  forall (fuel : nat) list xs l r,
  lrepr list xs -> compares xs -> pivot ∈ xs -> right < zlen xs -> l <= r ->
  part_inv pivot left right l r xs -> r - l + 1 < Z.of_nat fuel ->
  returns (partition_loop cmp list pivot l r fuel) (fun '(l', r', list') =>
    exists ys, lrepr list' ys /\ seg_perm left right xs ys /\ parted pivot left right l' r' ys).
Proof.
  intros H0. induction fuel as [|fuel IH]; intros list xs l r H Hc Hp Hright Hlr
    [Hl Hr Hlow Hhigh (su & yu & Hsu & Hyu & Hcu) (sd & yd & Hsd & Hyd & Hcd) Hfirst] Hf; [lia|].
  cbn [partition_loop]. rewrite (lr_len _ _ H). apply returns_bind.
  eapply returns_mono; [apply (scan_up_ok list xs pivot su yu H Hc Hp); lia || done|].
  intros l1 (Hl1 & (x & Hx & Hcx) & Hlow1). apply returns_bind.
  eapply returns_mono; [apply (scan_down_ok list xs pivot sd yd H Hc Hp); lia || done|].
  intros r1 (Hr1 & (y & Hy & Hcy) & Hhigh1).
  assert (forall k z, left <= k < l1 -> xs !! Z.to_nat k = Some z -> c z pivot <= 0) as Low.
  { intros k z Hk Hz. destruct (decide (k < l)); [apply (Hlow k z); [lia|done]|].
    apply (Hlow1 k z); [lia|done]. }
  assert (forall k z, r1 < k <= right -> xs !! Z.to_nat k = Some z -> 0 <= c z pivot) as High.
  { intros k z Hk Hz. destruct (decide (r < k)); [apply (Hhigh k z); [lia|done]|].
    apply Z.lt_le_incl, (Hhigh1 k z); [lia|done]. }
  assert (left < l /\ r < right \/ r1 = right) as Hfirst1.
  { destruct Hfirst as [?|[-> Hpiv]]; [by left|right].
    destruct (decide (r1 = right)) as [|Hne]; [done|].
    pose proof (Hhigh1 right pivot ltac:(lia) Hpiv). pose proof (cmp_refl_0 c pivot). lia. }
  destruct (Z.leb_spec l1 r1) as [Hle|Hgt].
  - destruct (swapped_sides pivot left right l1 r1 xs x y) as [Low' High']; try (lia || done).
    pose proof (swapped_seg_perm left right xs l1 r1 x y H0 ltac:(lia) ltac:(lia) Hx Hy) as HP.
    apply returns_bind.
    eapply returns_mono; [apply (exchange_ok list xs l1 r1 x y H); lia || done|].
    intros list' H'. destruct (Z.leb_spec (l1 + 1) (r1 - 1)) as [Hle'|Hgt'].
    + eapply returns_mono; [apply (IH list' (swapped xs l1 r1 x y) (l1 + 1) (r1 - 1) H')|].
      * by apply (compares_perm xs); [apply HP|].
      * by rewrite <- (sp_perm _ _ _ _ HP).
      * unfold zlen. by rewrite (seg_perm_length _ _ _ _ HP).
      * done.
      * constructor; try (lia || done).
        -- exists r1, x. split; [lia|]. split; [|done].
           rewrite swapped_lookup, Z.eqb_refl by (lia || done). done.
        -- exists l1, y. split; [lia|]. split; [|done].
           rewrite swapped_lookup, Z.eqb_refl by (lia || done).
           by destruct (Z.eqb_spec l1 r1); [lia|].
      * lia.
      * intros [[l' r'] list''] (ys & Hys & HP' & Hpt). exists ys. split; [done|].
        split; [by eapply seg_perm_trans|done].
    + cbn [returns]. exists (swapped xs l1 r1 x y). split; [done|]. split; [done|]. constructor; lia || done.
  - cbn [returns]. exists xs. split; [done|]. split; [apply seg_perm_refl|]. constructor; lia || done.
Qed.

Definition sorted_seg (left right : Z) xs : Prop :=
  forall i j x y, left <= i < j -> j <= right ->
    xs !! Z.to_nat i = Some x -> xs !! Z.to_nat j = Some y -> c x y <= 0.

(** The two sections sorted, the whole is. *)
Lemma sorted_combine pivot left right l r xs xs1 xs2 :
  0 <= left -> parted pivot left right l r xs ->
  seg_perm left r xs xs1 -> sorted_seg left r xs1 ->
  seg_perm l right xs1 xs2 -> sorted_seg l right xs2 -> sorted_seg left right xs2.
Proof.
  intros H0 [Hl Hr Hlr [Hb1 Hb2] Hlow Hhigh] P1 S1 P2 S2.
  assert (forall k z, left <= k < l -> xs2 !! Z.to_nat k = Some z -> c z pivot <= 0) as Low.
  { intros k z Hk. rewrite (sp_out _ _ _ _ P2) by lia. intros Hz. destruct (decide (k <= r)).
    - destruct (sp_in _ _ _ _ P1 k z) as (k' & Hk' & Hz'); [lia|done|]. apply (Hlow k' z); [lia|done].
    - rewrite (sp_out _ _ _ _ P1) in Hz by lia. apply (Hlow k z); [lia|done]. }
  assert (forall k z, r < k <= right -> xs2 !! Z.to_nat k = Some z -> 0 <= c z pivot) as High.
  { assert (forall k z, r < k <= right -> xs1 !! Z.to_nat k = Some z -> 0 <= c z pivot) as High1.
    { intros k z Hk. rewrite (sp_out _ _ _ _ P1) by lia. by apply Hhigh. }
    intros k z Hk Hz. destruct (decide (l <= k)).
    - destruct (sp_in _ _ _ _ P2 k z) as (k' & Hk' & Hz'); [lia|done|]. apply (High1 k' z); [lia|done].
    - rewrite (sp_out _ _ _ _ P2) in Hz by lia. by apply (High1 k z). }
  intros i j x y Hi Hj Hx Hy. destruct (decide (j <= r)) as [Hjr|Hjr].
  { rewrite (sp_out _ _ _ _ P2) in Hx by lia. rewrite (sp_out _ _ _ _ P2) in Hy by lia.
    by apply (S1 i j x y). }
  destruct (decide (l <= i)); [by apply (S2 i j x y); [lia|done..]|].
  apply (cmp_le_trans c x pivot y).
  - apply (Low i x); [lia|done].
  - apply (cmp_ge_le c). apply (High j y); [lia|done].
Qed.

Lemma quicksort_ok : forall (fuel : nat) list xs left right,
  lrepr list xs -> compares xs -> 0 <= left -> right < zlen xs ->
  right - left < Z.of_nat fuel -> (0 < fuel)%nat ->
  returns (quicksort cmp list left right fuel) (fun list' =>
    exists ys, lrepr list' ys /\ seg_perm left right xs ys /\ sorted_seg left right ys).
Proof.
  induction fuel as [|fuel IH]; intros list xs left right H Hc Hl Hr Hf Hpos; [lia|].
  cbn [quicksort]. destruct (Z.ltb_spec left right) as [Hlt|Hge].
  2:{ cbn [returns]. exists xs. split; [done|]. split; [apply seg_perm_refl|]. intros i j; lia. }
  destruct (at_ex xs right) as [pivot Hpiv]; [lia|].
  rewrite (GET_at list xs right pivot H ltac:(lia) Hpiv). bind_red.
  assert (pivot ∈ xs) as Hin by by eapply list_elem_of_lookup_2.
  rewrite (lr_len _ _ H). apply returns_bind. eapply returns_mono.
  { apply (partition_loop_ok pivot left right Hl (S (Z.to_nat (zlen xs))) list xs left right H Hc Hin Hr);
      [lia| |lia].
    pose proof (cmp_refl_0 c pivot).
    constructor; try lia.
    - exists right, pivot. split; [lia|]. split; [done|lia].
    - exists right, pivot. split; [lia|]. split; [done|lia].
    - by right. }
  intros [[l r] list1] (xs1 & H1 & P1 & Hpt). pose proof Hpt as [Hl1 Hr1 Hlr [Hb1 Hb2] _ _].
  apply returns_bind. eapply returns_mono.
  { apply (IH list1 xs1 left r H1); [by apply (compares_perm xs), Hc; apply P1|done| |lia|lia].
    unfold zlen. rewrite (seg_perm_length _ _ _ _ P1). unfold zlen in Hr. lia. }
  intros list2 (xs2 & H2 & P2 & S2).
  assert (seg_perm left right xs xs2) as P12.
  { eapply seg_perm_trans; [done|]. apply (seg_perm_weaken left r); [lia..|done]. }
  eapply returns_mono.
  { apply (IH list2 xs2 l right H2); [by apply (compares_perm xs), Hc; apply P12|lia| |lia|lia].
    unfold zlen. by rewrite (seg_perm_length _ _ _ _ P12). }
  intros list3 (xs3 & H3 & P3 & S3). exists xs3. split; [done|]. split.
  - eapply seg_perm_trans; [done|]. apply (seg_perm_weaken l right); [lia..|done].
  - by apply (sorted_combine pivot left right l r xs1 xs2 xs3).
Qed.

Lemma gwlist_sort_ok list xs :
  lrepr list xs -> compares xs ->
  returns (gwlist_sort cmp list) (fun list' =>
    exists ys, lrepr list' ys /\ xs ≡ₚ ys /\
      forall i j x y, (i < j)%nat -> ys !! i = Some x -> ys !! j = Some y -> c x y <= 0).
Proof.
  intros H Hc. unfold gwlist_sort. rewrite (lr_len _ _ H). destruct (Z.eqb_spec (zlen xs) 0) as [E|E].
  - apply zlen_0_inv in E as ->. simpl. exists []. split_and!; [done..|]. intros ???? _ [=].
  - eapply returns_mono; [apply (quicksort_ok _ list xs 0 (zlen xs - 1) H Hc); list_lia|].
    intros list' (ys & Hys & P & S). exists ys. split; [done|]. split; [apply P|].
    intros i j x y Hij Hx Hy. apply (S (Z.of_nat i) (Z.of_nat j)); rewrite ?Nat2Z.id; try done; [lia|].
    apply lookup_lt_Some in Hy. rewrite (seg_perm_length _ _ _ _ P) in Hy. list_lia.
Qed.

(** Sorting leaves the counts of producers alone. *)
Lemma PUT_producers list i x list' : PUT list i x = Ok list' -> num_producers list' = num_producers list.
Proof. unfold PUT. intros (j & _ & (t & _ & [= <-])%res_bind_ok)%res_bind_ok. done. Qed.

Lemma exchange_producers list i j list' :
  exchange list i j = Ok list' -> num_producers list' = num_producers list.
Proof.
  unfold exchange. intros (x & _ & (y & _ & (l1 & E1 & E2)%res_bind_ok)%res_bind_ok)%res_bind_ok.
  apply PUT_producers in E1, E2. congruence.
Qed.

Lemma partition_producers pivot (fuel : nat) : forall list l r p,
  partition_loop cmp list pivot l r fuel = Ok p -> num_producers p.2 = num_producers list.
Proof.
  induction fuel as [|fuel IH]; intros list l r p; cbn [partition_loop]; [done|].
  intros (l1 & _ & (r1 & _ & E)%res_bind_ok)%res_bind_ok. destruct (l1 <=? r1); [|by simplify_eq].
  apply res_bind_ok in E as (list' & E'%exchange_producers & E). rewrite <- E'.
  destruct (l1 + 1 <=? r1 - 1); [by apply IH in E|by simplify_eq].
Qed.

Lemma quicksort_producers (fuel : nat) : forall list left right list',
  quicksort cmp list left right fuel = Ok list' -> num_producers list' = num_producers list.
Proof.
  induction fuel as [|fuel IH]; intros list left right list'; cbn [quicksort]; [done|].
  destruct (left <? right); [|by intros [= ->]].
  intros (pivot & _ & ([[l r] l1] & E1%partition_producers & (l2 & E2%IH & E3%IH)%res_bind_ok)%res_bind_ok)%res_bind_ok.
  simpl in E1. congruence.
Qed.

Lemma gwlist_sort_producers list list' :
  gwlist_sort cmp list = Ok list' -> num_producers list' = num_producers list.
Proof. unfold gwlist_sort. destruct (_ =? _); [by intros [= ->]|apply quicksort_producers]. Qed.

(** ** Properties *)

(** [gwlist_sort] returns (no index leaves the list although the scans have
    no bound checks, and the recursion ends), and the result holds the same items
    with none greater than a later one, for any comparison callback that orders
    the items. *)
Theorem gwlist_sort_sorts list xs :
  lrepr list xs -> (forall x y, x ∈ xs -> y ∈ xs -> cmp x y = Ok (c x y)) ->
  returns (gwlist_sort cmp list) (fun list' =>
    exists ys, lrepr list' ys /\ xs ≡ₚ ys /\
      forall i j x y, (i < j)%nat -> ys !! i = Some x -> ys !! j = Some y -> c x y <= 0).
Proof. apply gwlist_sort_ok. Qed.
End sort_proofs.

Definition sample_list : List Z := mkList [Some 2; None; Some 3; Some 1] 4 2 3 0 0.

Lemma sample_list_ok : lrepr sample_list [3; 1; 2].
Proof. constructor; simpl; [done|lia|lia|done|by exists [None]]. Qed.

#[export] Instance sub_cmp_order : CmpOrder Z.sub.
Proof. constructor; intros; lia. Qed.

Lemma gwlist_sort_sorts_witness :
  returns (gwlist_sort (fun x y => Ok (x - y)) sample_list) (fun list' =>
    exists ys, lrepr list' ys /\ [3; 1; 2] ≡ₚ ys /\
      forall i j x y, (i < j)%nat -> ys !! i = Some x -> ys !! j = Some y -> x - y <= 0).
Proof.
  exact (gwlist_sort_sorts (fun x y => Ok (x - y)) Z.sub sample_list [3; 1; 2] sample_list_ok
    (fun x y _ _ => eq_refl)).
Defined.

Example gwlist_sort_sample :
  gwlist_sort (fun x y => Ok (x - y)) sample_list
    = Ok (mkList [Some 3; None; Some 1; Some 2] 4 2 3 0 0).
Proof. reflexivity. Qed.
