(* ===== verification/PrioQueue.v ===== *)
(** * The priority queue

    Models src/gwlib/gw-prioqueue.c: a binary heap in an array whose cell 0 holds
    a stop marker, ordered by a comparison function and, among equals, by the
    order of insertion.  Removal reads one cell past the live elements (the cell
    the last element was moved from); the proofs show that this is harmless.  The
    comparison function is a parameter, of which the queue requires
    [CmpOrder]. *)

From Stdlib Require Import Sorted.
From S2P Require Import Prelude Octstr GwList.

Section prioqueue.
Context {A : Type}.
Variable cmp : A -> A -> Z.

(** [item] is NULL in the stop marker only. *)
Record element := mkElement {
  item : option A;
  seq : Z
}.

Record gw_prioqueue := mkQueue {
  qtab : list (option element);
  size : Z;
  qlen : Z;
  producers : Z;
  qseq : Z
}.

(** The size of a pointer. *)
Definition PTR_SIZE : Z := 8.

Definition make_bigger_q (q : gw_prioqueue) (items : Z) : gw_prioqueue :=
  let new_size := PTR_SIZE * (qlen q + items) in
  if new_size <=? size q then q
  else mkQueue (qtab q ++ replicate (Z.to_nat (qlen q + items) - length (qtab q)) None)
         new_size (qlen q) (producers q) (qseq q).

(** [compare]; comparing the items of a stop marker would call [cmp] with
    NULL. *)
Definition compare (a b : element) : res Z :=
  match item a, item b with
  | Some x, Some y =>
      let rc := cmp x y in
      Ok (if rc =? 0 then
            if seq a <? seq b then 1 else if seq b <? seq a then -1 else rc
          else rc)
  | _, _ => Undef
  end.

Fixpoint upheap_loop (t : list (option element)) (v : element) (index : Z) (fuel : nat)
  : res (list (option element)) :=
  match fuel with
  | O => Undef
  | S fuel =>
      p ← tab_load t (index / 2);
      match item p with
      | None => tab_store t index v
      | Some _ =>
          rc ← compare p v;
          if rc <? 0 then
            t ← tab_store t index p;
            upheap_loop t v (index / 2) fuel
          else tab_store t index v
      end
  end.

Definition upheap (q : gw_prioqueue) (index : Z) : res gw_prioqueue :=
  v ← tab_load (qtab q) index;
  t ← upheap_loop (qtab q) v index (S (Z.to_nat index));
  Ok (mkQueue t (size q) (qlen q) (producers q) (qseq q)).

Fixpoint downheap_loop (t : list (option element)) (len : Z) (v : element) (index : Z)
    (fuel : nat) : res (list (option element)) :=
  match fuel with
  | O => Undef
  | S fuel =>
      if index <=? len / 2 then
        let j := 2 * index in
        j ← (if j <? len then
               a ← tab_load t j;
               b ← tab_load t (j + 1);
               rc ← compare a b;
               Ok (if rc <? 0 then j + 1 else j)
             else Ok j);
        c ← tab_load t j;
        rc ← compare v c;
        if 0 <=? rc then tab_store t index v
        else
          t ← tab_store t index c;
          downheap_loop t len v j fuel
      else tab_store t index v
  end.

Definition downheap (q : gw_prioqueue) (index : Z) : res gw_prioqueue :=
  v ← tab_load (qtab q) index;
  t ← downheap_loop (qtab q) (qlen q) v index (S (Z.to_nat (qlen q)));
  Ok (mkQueue t (size q) (qlen q) (producers q) (qseq q)).

Definition gw_prioqueue_create : res gw_prioqueue :=
  let q := make_bigger_q (mkQueue [] 0 0 0 0) 1 in
  t ← tab_store (qtab q) 0 (mkElement None (qseq q));
  Ok (mkQueue t (size q) (qlen q + 1) (producers q) (qseq q + 1)).

Definition gw_prioqueue_len (q : option gw_prioqueue) : Z :=
  match q with
  | None => 0
  | Some q => qlen q - 1
  end.

Definition gw_prioqueue_insert (q : gw_prioqueue) (x : A) : res gw_prioqueue :=
  let q := make_bigger_q q 1 in
  t ← tab_store (qtab q) (qlen q) (mkElement (Some x) (qseq q));
  let q := mkQueue t (size q) (qlen q) (producers q) (qseq q + 1) in
  q ← upheap q (qlen q);
  Ok (mkQueue (qtab q) (size q) (qlen q + 1) (producers q) (qseq q)).

(** The removal of the root, shared by [gw_prioqueue_remove] and
    [gw_prioqueue_consume]. *)
Definition remove_root (q : gw_prioqueue) : res (option A * gw_prioqueue) :=
  root ← tab_load (qtab q) 1;
  let len := qlen q - 1 in
  last ← tab_load (qtab q) len;
  t ← tab_store (qtab q) 1 last;
  q ← downheap (mkQueue t (size q) len (producers q) (qseq q)) 1;
  Ok (item root, q).

Definition gw_prioqueue_remove (q : gw_prioqueue) : res (option A * gw_prioqueue) :=
  if qlen q <=? 1 then Ok (None, q) else remove_root q.

Definition gw_prioqueue_get (q : gw_prioqueue) : res (option A) :=
  if 1 <? qlen q then root ← tab_load (qtab q) 1; Ok (item root) else Ok None.

(** [gw_prioqueue_consume] once it has the lock; [None] while it waits. *)
Definition gw_prioqueue_consume_retry (q : gw_prioqueue)
  : res (option (option A * gw_prioqueue)) :=
  if (qlen q =? 1) && (0 <? producers q) then Ok None
  else
    r ← (if 1 <? qlen q then remove_root q else Ok (None, q));
    Ok (Some r).

Definition gw_prioqueue_add_producer (q : gw_prioqueue) : gw_prioqueue :=
  mkQueue (qtab q) (size q) (qlen q) (producers q + 1) (qseq q).

Definition gw_prioqueue_remove_producer (q : gw_prioqueue) : res gw_prioqueue :=
  assert: 0 <? producers q;
  Ok (mkQueue (qtab q) (size q) (qlen q) (producers q - 1) (qseq q)).

Definition gw_prioqueue_producer_count (q : gw_prioqueue) : Z := producers q.

(** [gw_prioqueue_foreach]: the items in the order [fn] sees them. *)
Fixpoint foreach_loop (t : list (option element)) (i : Z) (n : nat)
  : res (list (option A * Z)) :=
  match n with
  | O => Ok []
  | S n => e ← tab_load t i; r ← foreach_loop t (i + 1) n; Ok ((item e, i - 1) :: r)
  end.

Definition gw_prioqueue_foreach (q : gw_prioqueue) : res (list (option A * Z)) :=
  foreach_loop (qtab q) 1 (Z.to_nat (qlen q - 1)).
End prioqueue.

Arguments element : clear implicits.
Arguments gw_prioqueue : clear implicits.

(** ** The order of the elements *)

Section order.
Context {A : Type} (cmp : A -> A -> Z) {Hcmp : CmpOrder cmp}.
Implicit Types (a b c v : element A) (E : list (element A)).

Definition live a : Prop := is_Some (item a).

(** [ge a b]: [a] leaves the queue before [b], or they are the same. *)
Definition ge a b : Prop := exists rc, compare cmp a b = Ok rc /\ 0 <= rc.

Lemma ge_iff a b :
  ge a b <-> exists x y, item a = Some x /\ item b = Some y /\
    (0 < cmp x y \/ (cmp x y = 0 /\ seq a <= seq b)).
Proof.
  unfold ge, compare. destruct (item a) as [x|], (item b) as [y|]; split.
  all: try naive_solver.
  - intros (rc & [= <-] & Hrc). exists x, y. split; [done|]. split; [done|].
    destruct (Z.eqb_spec (cmp x y) 0); [|lia].
    destruct (Z.ltb_spec (seq a) (seq b)); [lia|].
    destruct (Z.ltb_spec (seq b) (seq a)); lia.
  - intros (? & ? & [= <-] & [= <-] & Hc). eexists; split; [done|].
    destruct (Z.eqb_spec (cmp x y) 0); [|lia].
    destruct (Z.ltb_spec (seq a) (seq b)); [lia|].
    destruct (Z.ltb_spec (seq b) (seq a)); lia.
Qed.

Lemma compare_live a b :
  live a -> live b -> exists rc, compare cmp a b = Ok rc.
Proof. unfold compare. intros [x ->] [y ->]. eauto. Qed.

Lemma compare_neg a b rc : compare cmp a b = Ok rc -> rc < 0 -> ge b a.
Proof.
  intros E Hn. apply ge_iff. unfold compare in E.
  destruct (item a) as [x|], (item b) as [y|]; try done. injection E as <-.
  exists y, x. split; [done|]. split; [done|].
  pose proof (cmp_antisym (cmp:=cmp) x y). revert Hn.
  destruct (Z.eqb_spec (cmp x y) 0); [|lia].
  destruct (Z.ltb_spec (seq a) (seq b)); [lia|].
  destruct (Z.ltb_spec (seq b) (seq a)); lia.
Qed.

Lemma ge_refl a : live a -> ge a a.
Proof.
  intros [x Hx]. apply ge_iff. exists x, x. pose proof (cmp_refl_0 cmp x). split_and!; done || lia.
Qed.

Lemma ge_trans a b c : ge a b -> ge b c -> ge a c.
Proof.
  rewrite !ge_iff. intros (x & y & Ha & Hb & H1) (y' & z & Hb' & Hc & H2).
  simplify_eq. exists x, z. split; [done|]. split; [done|].
  pose proof (cmp_antisym (cmp:=cmp) x y).
  pose proof (cmp_antisym (cmp:=cmp) x z). pose proof (cmp_antisym (cmp:=cmp) y z).
  pose proof (cmp_trans (cmp:=cmp) x y z ltac:(lia) ltac:(lia)).
  destruct (Z.eq_dec (cmp x z) 0) as [E|]; [|lia].
  pose proof (cmp_trans (cmp:=cmp) z x y ltac:(lia) ltac:(lia)).
  pose proof (cmp_trans (cmp:=cmp) y z x ltac:(lia) ltac:(lia)). lia.
Qed.

(** ** Heaps

    Cell 0 is the stop marker; the parent of cell [k] is cell [k / 2]. *)

Definition heap E : Prop :=
  forall k a b, (2 <= k)%nat -> E !! (k / 2)%nat = Some a -> E !! k = Some b -> ge a b.

(** A heap but for the cell [i], where [v] is to be put on the way up ... *)
Record heap_up E (i : nat) v : Prop := {
  hu_rest : forall k a b, (2 <= k)%nat -> k <> i -> (k / 2)%nat <> i ->
    E !! (k / 2)%nat = Some a -> E !! k = Some b -> ge a b;
  hu_below : forall k b, (2 <= k)%nat -> (k / 2)%nat = i -> E !! k = Some b -> ge v b;
  hu_skip : forall k a b, (2 <= k)%nat -> (k / 2)%nat = i -> (2 <= i)%nat ->
    E !! (i / 2)%nat = Some a -> E !! k = Some b -> ge a b
}.

(** ... or on the way down. *)
Record heap_down E (i : nat) v : Prop := {
  hd_rest : forall k a b, (2 <= k)%nat -> k <> i -> (k / 2)%nat <> i ->
    E !! (k / 2)%nat = Some a -> E !! k = Some b -> ge a b;
  hd_above : forall a, (2 <= i)%nat -> E !! (i / 2)%nat = Some a -> ge a v;
  hd_skip : forall k a b, (2 <= k)%nat -> (k / 2)%nat = i -> (2 <= i)%nat ->
    E !! (i / 2)%nat = Some a -> E !! k = Some b -> ge a b
}.

Lemma half_lt (k : nat) : (1 <= k)%nat -> (k / 2 < k)%nat.
Proof. intros. apply Nat.div_lt; lia. Qed.

Lemma half_pos (k : nat) : (2 <= k)%nat -> (1 <= k / 2)%nat.
Proof. intros. pose proof (Nat.div_mod_eq k 2). pose proof (Nat.mod_upper_bound k 2). lia. Qed.

Lemma insert_cases E (i k : nat) v b :
  <[i:=v]> E !! k = Some b -> (k = i /\ b = v) \/ (k <> i /\ E !! k = Some b).
Proof. rewrite list_lookup_insert_Some. naive_solver. Qed.

(** Putting [v] in its place. *)
Lemma heap_fill E (i : nat) v :
  (forall k a b, (2 <= k)%nat -> k <> i -> (k / 2)%nat <> i ->
     E !! (k / 2)%nat = Some a -> E !! k = Some b -> ge a b) ->
  (forall k b, (2 <= k)%nat -> (k / 2)%nat = i -> E !! k = Some b -> ge v b) ->
  (forall a, (2 <= i)%nat -> E !! (i / 2)%nat = Some a -> ge a v) ->
  heap (<[i:=v]> E).
Proof.
  intros Hrest Hbelow Habove k a b Hk Ha Hb. pose proof (half_lt k ltac:(lia)).
  apply insert_cases in Ha as [[Ha ->]|[Hai Ha]], Hb as [[Hb ->]|[Hbi Hb]]; subst;
    [lia|eauto..].
Qed.

Lemma heap_up_step E (i : nat) v p :
  (2 <= i < length E)%nat -> heap_up E i v -> E !! (i / 2)%nat = Some p -> ge v p ->
  heap_up (<[i:=p]> E) (i / 2)%nat v.
Proof.
  intros Hi [Hrest Hbelow Hskip] Hp Hvp. pose proof (half_lt i ltac:(lia)).
  constructor.
  - intros k a b Hk Hki Hk2 Ha Hb. pose proof (half_lt k ltac:(lia)).
    apply insert_cases in Ha as [[Ha ->]|[Hai Ha]], Hb as [[Hb ->]|[Hbi Hb]]; subst; try lia.
    + eapply (Hskip k); eauto; lia.
    + by eapply (Hrest k); eauto.
  - intros k b Hk Hk2 Hb. apply insert_cases in Hb as [[Hb ->]|[Hbi Hb]]; [done|].
    apply (ge_trans v p); [done|]. eapply (Hrest k); eauto; [lia|by rewrite Hk2].
  - intros k a b Hk Hk2 Hi2 Ha Hb. pose proof (half_lt (i / 2)%nat ltac:(lia)).
    apply insert_cases in Ha as [[Ha ->]|[Hai Ha]]; [lia|].
    assert (ge a p) as Hap by (eapply (Hrest (i / 2)%nat); eauto; lia).
    apply insert_cases in Hb as [[Hb ->]|[Hbi Hb]]; [done|].
    apply (ge_trans a p); [done|]. eapply (Hrest k); eauto; [lia|by rewrite Hk2].
Qed.
Lemma heap_down_step E (i j : nat) v c :
  (1 <= i < length E)%nat -> heap_down E i v -> (2 <= j)%nat -> (j / 2)%nat = i ->
  E !! j = Some c -> ge c v ->
  (forall k b, (2 <= k)%nat -> (k / 2)%nat = i -> E !! k = Some b -> ge c b) ->
  heap_down (<[i:=c]> E) j v.
Proof.
  intros Hi [Hrest Habove Hskip] Hj Hj2 Hc Hcv Hmax. pose proof (half_lt j ltac:(lia)).
  constructor.
  - intros k a b Hk Hkj Hk2 Ha Hb. pose proof (half_lt k ltac:(lia)).
    apply insert_cases in Ha as [[Ha ->]|[Hai Ha]], Hb as [[Hb ->]|[Hbi Hb]]; subst; try lia.
    + eauto.
    + eapply (Hskip j); eauto; lia.
    + by eapply (Hrest k); eauto.
  - intros a _ Ha. rewrite Hj2 in Ha. apply insert_cases in Ha as [[Ha ->]|[Hai Ha]]; [done|lia].
  - intros k a b Hk Hk2 _ Ha Hb. pose proof (half_lt k ltac:(lia)). rewrite Hj2 in Ha.
    apply insert_cases in Ha as [[Ha ->]|[Hai Ha]], Hb as [[Hb ->]|[Hbi Hb]]; subst; try lia.
    eapply (Hrest k); eauto; lia.
Qed.

(** Every cell of a heap is below the root. *)
Lemma heap_root E r : heap E -> Forall live (drop 1 E) -> E !! 1%nat = Some r ->
  forall k b, (1 <= k)%nat -> E !! k = Some b -> ge r b.
Proof.
  intros HE Hl Hr. induction k as [k IH] using lt_wf_ind. intros b Hk Hb.
  destruct (decide (k = 1)%nat) as [->|].
  { simplify_eq. apply ge_refl. apply (Forall_lookup_1 _ _ 0%nat _ Hl). by rewrite lookup_drop. }
  pose proof (half_lt k Hk). pose proof (half_pos k ltac:(lia)).
  destruct (lookup_lt_is_Some_2 E (k / 2)) as [a Ha]; [apply lookup_lt_Some in Hb; lia|].
  apply (ge_trans r a); [by apply (IH (k / 2)%nat)|]. by eapply (HE k); eauto; lia.
Qed.

(** ** The loops on the array *)

Abbreviation cells E junk := ((Some <$> E) ++ junk).

Lemma cells_load E (junk : list (option (element A))) (i : Z) a :
  0 <= i -> E !! Z.to_nat i = Some a -> tab_load (cells E junk) i = Ok a.
Proof.
  intros Hi Ha. unfold tab_load. destruct (Z.leb_spec 0 i); [|lia].
  rewrite lookup_app_l by (apply lookup_lt_Some in Ha; list_lia).
  by rewrite list_lookup_fmap, Ha.
Qed.

Lemma cells_store E (junk : list (option (element A))) (i : Z) a :
  0 <= i < zlen E ->
  tab_store (cells E junk) i a = Ok (cells (<[Z.to_nat i:=a]> E) junk).
Proof.
  intros Hi. unfold tab_store. destruct (Z.leb_spec 0 i); [|lia].
  destruct (Z.ltb_spec i (zlen (cells E junk))); [|list_lia]. simpl.
  rewrite insert_app_l by list_lia. by rewrite list_fmap_insert.
Qed.

Lemma cells_live E (i : nat) a :
  (1 <= i)%nat -> Forall live (drop 1 E) -> E !! i = Some a -> live a.
Proof.
  intros Hi HE Ha. apply (Forall_lookup_1 _ _ (i - 1)%nat _ HE).
  rewrite lookup_drop. by replace (1 + (i - 1))%nat with i by lia.
Qed.

Lemma insert_live E (i : nat) a :
  (1 <= i)%nat -> Forall live (drop 1 E) -> live a -> Forall live (drop 1 (<[i:=a]> E)).
Proof.
  intros Hi HE Ha. destruct E as [|e E], i as [|i]; try done; try lia.
  simpl in *. rewrite drop_0 in *. by apply Forall_insert.
Qed.

Definition marked E : Prop := exists m, E !! 0%nat = Some m /\ item m = None.

Lemma marked_insert E (i : nat) a : (1 <= i)%nat -> marked E -> marked (<[i:=a]> E).
Proof. intros Hi (m & Hm & Hi0). exists m. by rewrite list_lookup_insert_ne by lia. Qed.

Lemma half_Z (i : nat) : Z.of_nat i / 2 = Z.of_nat (i / 2).
Proof. by rewrite Nat2Z.inj_div. Qed.

(** Moving [v] from cell [i] to cell [j], whose element takes the cell [i]. *)
Lemma insert_slide E (i j : nat) v p :
  i <> j -> (i < length E)%nat -> E !! j = Some p ->
  Permutation (<[j:=v]> (<[i:=p]> E)) (<[i:=v]> E).
Proof.
  intros Hij Hi Hp. rewrite <- (Permutation_insert_swap (<[i:=v]> E) i j v p).
  - by rewrite list_insert_insert_eq.
  - by apply list_lookup_insert_eq.
  - by rewrite list_lookup_insert_ne.
Qed.

Lemma upheap_loop_ok junk v : live v -> forall fuel E (i : nat),
  (1 <= i < length E)%nat -> (i < fuel)%nat -> marked E -> Forall live (drop 1 E) ->
  heap_up E i v ->
  exists E', upheap_loop cmp (cells E junk) v (Z.of_nat i) fuel = Ok (cells E' junk) /\
    heap E' /\ marked E' /\ Permutation E' (<[i:=v]> E).
Proof.
  intros Hv. induction fuel as [|fuel IH]; intros E i Hi Hf HE Hl Hup; [lia|]. simpl.
  pose proof (half_lt i ltac:(lia)).
  destruct (lookup_lt_is_Some_2 E (i / 2) ltac:(lia)) as [p Hp].
  rewrite half_Z, (cells_load E junk _ p) by (lia || by rewrite Nat2Z.id). bind_red.
  assert (tab_store (cells E junk) (Z.of_nat i) v = Ok (cells (<[i:=v]> E) junk)) as Hst
    by (rewrite cells_store by list_lia; by rewrite Nat2Z.id).
  destruct Hup as [Hrest Hbelow Hskip] eqn:EH. pose proof (marked_insert E i v ltac:(lia) HE) as HE'.
  destruct (decide (i = 1)%nat) as [->|].
  { destruct HE as (m & Hm & Hi0). simpl in Hp. simplify_eq. rewrite Hi0.
    eexists. split; [done|]. split; [|done]. apply heap_fill; eauto; lia. }
  pose proof (half_pos i ltac:(lia)).
  pose proof (cells_live E _ p ltac:(done) Hl Hp) as Hlp. destruct (Hlp) as [x Hx]. rewrite Hx.
  destruct (compare_live p v Hlp Hv) as [rc Hrc]. rewrite Hrc. bind_red.
  destruct (Z.ltb_spec rc 0) as [Hn|Hn].
  - rewrite cells_store, Nat2Z.id by list_lia. bind_red.
    pose proof (compare_neg p v rc Hrc Hn) as Hvp.
    destruct (IH (<[i:=p]> E) (i / 2)%nat) as (E' & -> & HhE & HmE & HpE).
    { list_lia. } { lia. } { apply marked_insert; [lia|done]. }
    { apply insert_live; [lia|done..]. } { apply heap_up_step; [lia|done..]. }
    eexists. split; [done|]. split; [done|]. split; [done|]. rewrite HpE.
    apply insert_slide; [lia..|done].
  - eexists. split; [done|]. split; [|done]. apply heap_fill; [done..|].
    intros a _ Ha. simplify_eq. by exists rc.
Qed.

Lemma half_cases (k i : nat) : (k / 2)%nat = i -> k = (2 * i)%nat \/ k = (2 * i + 1)%nat.
Proof.
  intros <-. pose proof (Nat.div_mod_eq k 2). pose proof (Nat.mod_upper_bound k 2). lia.
Qed.

(** The choice among the children of cell [i]. *)
Lemma bigger_child E junk (n i : nat) :
  length E = S n -> Forall live (drop 1 E) -> (1 <= i)%nat -> (2 * i <= n)%nat ->
  exists (j : nat) c, (j <= n)%nat /\ (j / 2)%nat = i /\ E !! j = Some c /\
    (if 2 * Z.of_nat i <? Z.of_nat n then
       a ← tab_load (cells E junk) (2 * Z.of_nat i);
       b ← tab_load (cells E junk) (2 * Z.of_nat i + 1);
       rc ← compare cmp a b;
       Ok (if rc <? 0 then 2 * Z.of_nat i + 1 else 2 * Z.of_nat i)
     else Ok (2 * Z.of_nat i)) = Ok (Z.of_nat j) /\
    (forall k b, (k / 2)%nat = i -> E !! k = Some b -> ge c b).
Proof.
  intros HlE Hl Hi Hn. destruct (lookup_lt_is_Some_2 E (2 * i) ltac:(lia)) as [a Ha].
  assert ((2 * i) / 2 = i)%nat as H0 by (rewrite Nat.mul_comm; by apply Nat.div_mul).
  assert ((2 * i + 1) / 2 = i)%nat as H1
    by (rewrite Nat.mul_comm, Nat.add_comm, Nat.div_add by lia; done).
  pose proof (cells_live E (2 * i)%nat a ltac:(lia) Hl Ha) as Hla.
  destruct (Z.ltb_spec (2 * Z.of_nat i) (Z.of_nat n)) as [Hlt|Hge].
  2: { exists (2 * i)%nat, a. split_and!; [lia|done..|f_equal; lia|].
       intros k b [-> | ->]%half_cases Hb; [simplify_eq; by apply ge_refl|].
       apply lookup_lt_Some in Hb. lia. }
  destruct (lookup_lt_is_Some_2 E (2 * i + 1) ltac:(lia)) as [b Hb].
  pose proof (cells_live E (2 * i + 1)%nat b ltac:(lia) Hl Hb) as Hlb.
  replace (2 * Z.of_nat i + 1) with (Z.of_nat (2 * i + 1)) by lia.
  replace (2 * Z.of_nat i) with (Z.of_nat (2 * i)) by lia.
  rewrite (cells_load E junk (Z.of_nat (2 * i)) a),
    (cells_load E junk (Z.of_nat (2 * i + 1)) b) by (lia || by rewrite Nat2Z.id).
  bind_red.
  destruct (compare_live a b Hla Hlb) as [rc Hrc]. rewrite Hrc. bind_red.
  destruct (Z.ltb_spec rc 0) as [Hneg|Hneg].
  - exists (2 * i + 1)%nat, b. pose proof (compare_neg a b rc Hrc Hneg).
    split_and!; [lia|done..|].
    intros k b' [-> | ->]%half_cases Hb'; simplify_eq; [done|by apply ge_refl].
  - exists (2 * i)%nat, a. split_and!; [lia|done..|].
    intros k b' [-> | ->]%half_cases Hb'; simplify_eq; [by apply ge_refl|by exists rc].
Qed.

(** The cell [n] past the live ones still holds [v] throughout. *)
Lemma downheap_loop_ok junk v (n : nat) : live v -> forall fuel E (i : nat),
  length E = S n -> (1 <= i < n)%nat -> (n - i < fuel)%nat -> marked E ->
  Forall live (drop 1 E) -> E !! n = Some v -> heap_down E i v ->
  exists E' k, downheap_loop cmp (cells E junk) (Z.of_nat n) v (Z.of_nat i) fuel
      = Ok (cells (<[k:=v]> E') junk) /\
    (k < n)%nat /\ length E' = S n /\ heap (<[k:=v]> E') /\ marked (<[k:=v]> E') /\
    E' !! n = Some v /\
    Permutation (take n (<[k:=v]> E')) (take n (<[i:=v]> E)).
Proof.
  intros Hv. induction fuel as [|fuel IH]; intros E i HlE Hi Hf HE Hl Hn Hdown; [lia|].
  simpl.
  assert (tab_store (cells E junk) (Z.of_nat i) v = Ok (cells (<[i:=v]> E) junk)) as Hst
    by (rewrite cells_store by list_lia; by rewrite Nat2Z.id).
  destruct (Z.leb_spec (Z.of_nat i) (Z.of_nat n / 2)) as [Hin|Hin].
  2: { rewrite Hst. exists E, i. split_and!; try done; try lia.
       - destruct Hdown. apply heap_fill; [done| |done].
         intros k b Hk Hk2 Hb. apply lookup_lt_Some in Hb. exfalso.
         pose proof (half_cases k i Hk2). Z.div_mod_to_equations. lia.
       - by apply marked_insert; [lia|]. }
  assert (2 * i <= n)%nat as Hin' by (Z.div_mod_to_equations; lia).
  destruct (bigger_child E junk n i HlE Hl ltac:(lia) Hin')
    as (j & c & Hj & Hj2 & Hc & -> & Hmax). bind_red.
  rewrite (cells_load E junk _ c) by (lia || by rewrite ?Nat2Z.id). bind_red.
  pose proof (half_cases j i Hj2) as Hji.
  pose proof (cells_live E j c ltac:(lia) Hl Hc) as Hlc.
  destruct (compare_live v c Hv Hlc) as [rc Hrc]. rewrite Hrc. bind_red.
  destruct (Z.leb_spec 0 rc) as [Hpos|Hneg].
  - rewrite Hst. exists E, i. split_and!; try done; try lia; [|by apply marked_insert; [lia|]].
    destruct Hdown. apply heap_fill; [done| |done].
    intros k b _ Hk2 Hb. apply (ge_trans v c); [by exists rc|eauto].
  - pose proof (compare_neg v c rc Hrc Hneg) as Hcv.
    assert (j <> n) as Hjn.
    { intros ->. simplify_eq. destruct (ge_refl v Hv) as (rc' & Hrc' & ?).
      rewrite Hrc in Hrc'. injection Hrc' as <-. lia. }
    rewrite cells_store, Nat2Z.id by list_lia. bind_red.
    destruct (IH (<[i:=c]> E) j) as (E' & k & -> & Hk & HlE' & HhE & HmE & HnE & HpE).
    { list_lia. } { lia. } { lia. } { by apply marked_insert; [lia|]. }
    { by apply insert_live; [lia|..]. } { by rewrite list_lookup_insert_ne by lia. }
    { apply (heap_down_step E i j); eauto; lia. }
    exists E', k. split_and!; try done. rewrite HpE. rewrite !take_insert_lt by lia.
    apply insert_slide; [lia|list_lia|by rewrite lookup_take_lt by lia].
Qed.
(** ** The invariant of a queue

    [qrepr q L]: the cells of [q] are the stop marker, the elements [L], which
    are a heap, and cells past the live ones.  The sequence numbers are
    distinct and below the next one, and [size] is the allocation in octets. *)
Record qrepr (q : gw_prioqueue A) (L : list (element A)) : Prop := {
  qr_tab : exists m junk, item m = None /\ heap (m :: L) /\ qtab q = cells (m :: L) junk;
  qr_len : qlen q = zlen L + 1;
  qr_size : size q = PTR_SIZE * zlen (qtab q);
  qr_live : Forall live L;
  qr_seq : Forall (fun e => seq e < qseq q) L;
  qr_nodup : NoDup (seq <$> L)
}.

Lemma marked_perm E m L :
  marked E -> item m = None -> Forall live L -> Permutation E (m :: L) ->
  exists L', E = m :: L' /\ Permutation L' L.
Proof.
  intros (m' & Hm' & Hi) Hm HL HP. destruct E as [|e L']; [done|]. simpl in Hm'. simplify_eq.
  assert (m' = m) as ->.
  { assert (m' ∈ m :: L) as [->|Hin]%elem_of_cons by (rewrite <- HP; left); [done|].
    apply list_elem_of_lookup in Hin as [k Hk]. destruct (Forall_lookup_1 _ _ _ _ HL Hk). congruence. }
  exists L'. split; [done|]. by eapply Permutation_cons_inv.
Qed.

Lemma make_bigger_q_ok (q : gw_prioqueue A) L :
  qrepr q L -> qrepr (make_bigger_q q 1) L /\ zlen L + 2 <= zlen (qtab (make_bigger_q q 1)) /\
    qseq (make_bigger_q q 1) = qseq q /\ producers (make_bigger_q q 1) = producers q.
Proof.
  intros [(m & junk & Hm & Hh & Ht) Hl Hs Hv Hq Hd]. unfold make_bigger_q.
  assert (zlen L + 1 <= zlen (qtab q)) by (rewrite Ht; list_lia).
  unfold PTR_SIZE in *. destruct (Z.leb_spec (8 * (qlen q + 1)) (size q)).
  - split_and!; [constructor; eauto|lia|done..].
  - split_and!; simpl; [constructor; simpl; try done|list_lia|done..].
    + eexists m, _. split_and!; [done..|]. by rewrite Ht, <- app_assoc.
    + unfold PTR_SIZE. list_lia.
Qed.

Lemma Forall_perm {B} (P : B -> Prop) (l k : list B) : Permutation l k -> Forall P k -> Forall P l.
Proof. by intros ->. Qed.

(** A heap with a new last cell. *)
Lemma heap_up_snoc E e : heap E -> heap_up (E ++ [e]) (length E) e.
Proof.
  intros HE. constructor.
  - intros k a b Hk Hki Hk2 Ha Hb. pose proof (half_lt k ltac:(lia)).
    assert (k < length E)%nat by (apply lookup_lt_Some in Hb; list_lia).
    rewrite lookup_app_l in Ha, Hb by lia. by eapply (HE k).
  - intros k b Hk Hk2 Hb. pose proof (half_lt k ltac:(lia)).
    apply lookup_lt_Some in Hb. list_lia.
  - intros k a b Hk Hk2 Hi Ha Hb. pose proof (half_lt k ltac:(lia)).
    apply lookup_lt_Some in Hb. list_lia.
Qed.

(** [gw_prioqueue_insert] *)
Lemma gw_prioqueue_insert_ok (q : gw_prioqueue A) L x :
  qrepr q L ->
  exists q' L', gw_prioqueue_insert cmp q x = Ok q' /\ qrepr q' L' /\
    Permutation L' (mkElement (Some x) (qseq q) :: L) /\
    qseq q' = qseq q + 1 /\ producers q' = producers q.
Proof.
  intros Hr. unfold gw_prioqueue_insert.
  destruct (make_bigger_q_ok q L Hr) as ([(m & junk & Hm & Hh & Ht) Hl Hs Hv Hq Hd] & Hroom & Es & Ep).
  set (b := make_bigger_q q 1) in *. set (e := mkElement (Some x) (qseq q)).
  destruct junk as [|g junk]; [rewrite Ht in Hroom; list_lia|].
  assert (tab_store (qtab b) (qlen b) (mkElement (Some x) (qseq b))
          = Ok (cells (m :: L ++ [e]) junk)) as ->.
  { rewrite Ht, Es, Hl. unfold tab_store.
    destruct (Z.leb_spec 0 (zlen L + 1)); [|list_lia].
    destruct (Z.ltb_spec (zlen L + 1) (zlen (cells (m :: L) (g :: junk)))); [|list_lia].
    simpl. f_equal. replace (Z.to_nat (zlen L + 1)) with (S (length (Some <$> L) + 0)) by list_lia.
    simpl. rewrite insert_app_r. simpl. by rewrite fmap_app, <- app_assoc. }
  bind_red. unfold upheap. cbn [qtab qlen].
  assert ((m :: L ++ [e]) !! S (length L) = Some e) as He
    by (simpl; by rewrite lookup_app_r, Nat.sub_diag by lia).
  replace (qlen b) with (Z.of_nat (S (length L))) by list_lia. rewrite Nat2Z.id.
  rewrite (cells_load _ junk _ e) by (lia || by rewrite Nat2Z.id). bind_red.
  assert (Forall live (L ++ [e])) as HlL
    by (apply Forall_app; split; [done|apply Forall_singleton; by exists x]).
  destruct (upheap_loop_ok junk e ltac:(by exists x) (S (S (length L))) (m :: L ++ [e]) (S (length L)))
    as (E' & -> & HhE & HmE & HpE).
  { list_lia. } { lia. } { by exists m. }
  { simpl. by rewrite drop_0. }
  { by apply (heap_up_snoc (m :: L)). }
  bind_red. rewrite list_insert_id in HpE by done.
  destruct (marked_perm E' m (L ++ [e])) as (L' & -> & HpL); [done..|].
  assert (Permutation L' (e :: L)) as HpL' by (rewrite HpL; symmetry; apply Permutation_cons_append).
  eexists _, L'. split; [done|]. split; [|split; [done|split; [simpl; lia|done]]].
  constructor; simpl.
  - by exists m, junk.
  - apply Permutation_length in HpL'. list_lia.
  - apply Permutation_length in HpL'. rewrite Hs, Ht. unfold PTR_SIZE. list_lia.
  - by apply (Forall_perm _ _ _ HpL).
  - apply (Forall_perm _ _ _ HpL'). constructor; [simpl; lia|].
    revert Hq. apply Forall_impl. intros; simpl; lia.
  - rewrite HpL'. simpl. constructor; [|done]. rewrite list_elem_of_fmap.
    intros (y & Hy & Hin). apply list_elem_of_lookup in Hin as [k Hk].
    pose proof (Forall_lookup_1 _ _ _ _ Hq Hk). simpl in *. lia.
Qed.
Lemma heap_take E (n : nat) : heap E -> heap (take n E).
Proof.
  intros HE k a b Hk Ha Hb. apply lookup_take_Some in Ha as [Ha _], Hb as [Hb _]. eauto.
Qed.

Lemma heap_down_root E v : heap E -> heap_down (<[1%nat:=v]> E) 1 v.
Proof.
  intros HE. constructor; [|lia..]. intros k a b Hk Hk1 Hk2 Ha Hb.
  rewrite list_lookup_insert_ne in Ha, Hb by done. eauto.
Qed.

(** The last element moved to the root and down: the live cells. *)
Lemma downheap_root_ok m (r v : element A) L1 junk :
  item m = None -> heap (m :: r :: L1 ++ [v]) -> Forall live (r :: L1 ++ [v]) ->
  exists L' g, downheap_loop cmp (cells (m :: v :: L1 ++ [v]) junk) (zlen L1 + 2) v 1
      (S (Z.to_nat (zlen L1 + 2))) = Ok (cells (m :: L') (Some g :: junk)) /\
    heap (m :: L') /\ Permutation L' (L1 ++ [v]).
Proof.
  intros Hm Hh Hl. set (n := S (S (length L1))).
  replace (zlen L1 + 2) with (Z.of_nat n) by list_lia. rewrite Nat2Z.id.
  change 1 with (Z.of_nat 1).
  assert (live v) as Hv by (apply (Forall_lookup_1 _ _ (S (length L1)) _ Hl);
    simpl; by rewrite lookup_app_r, Nat.sub_diag by lia).
  destruct (downheap_loop_ok junk v n Hv (S n) (m :: v :: L1 ++ [v]) 1)
    as (E' & k & -> & Hk & HlE & HhE & HmE & HnE & HpE).
  { subst n. list_lia. } { lia. } { lia. } { by exists m. }
  { simpl. constructor; [done|]. by inversion Hl. }
  { simpl. by rewrite lookup_app_r, Nat.sub_diag by lia. }
  { apply (heap_down_root (m :: r :: L1 ++ [v])). done. }
  set (E2 := <[k:=v]> E') in *.
  assert (length E2 = S n) as HlE2 by (subst E2; list_lia).
  assert (E2 !! n = Some v) as HnE2 by (subst E2; by rewrite list_lookup_insert_ne by lia).
  simpl in HpE. rewrite take_app_length' in HpE by done.
  assert (Permutation (v :: L1) (L1 ++ [v])) as HL1 by apply Permutation_cons_append.
  destruct (marked_perm (take n E2) m (v :: L1)) as (L' & HE2 & HpL).
  { destruct HmE as (m' & Hm' & ?). exists m'. by rewrite lookup_take_lt by lia. }
  { done. } { rewrite HL1. by inversion Hl. } { done. }
  exists L', v. split; [|split].
  - f_equal. rewrite <- HE2, <- (take_drop n E2) at 1.
    rewrite (drop_S _ _ _ HnE2), drop_ge by lia. by rewrite fmap_app, <- app_assoc.
  - rewrite <- HE2. by apply heap_take.
  - by rewrite HpL.
Qed.

Lemma qrepr_nil (q : gw_prioqueue A) L : qrepr q L -> qlen q <= 1 <-> L = [].
Proof.
  intros [_ Hl _ _ _ _]. destruct L; [rewrite Hl; done|split; [list_lia|done]].
Qed.

(** The removal of the root, when there is one. *)
Lemma remove_root_ok (q : gw_prioqueue A) r L0 :
  qrepr q (r :: L0) ->
  exists q' L', remove_root cmp q = Ok (item r, q') /\ qrepr q' L' /\ Permutation L' L0 /\
    producers q' = producers q.
Proof.
  intros [(m & junk & Hm & Hh & Ht) Hl Hs Hv Hq Hd]. unfold remove_root. rewrite Ht.
  rewrite (cells_load (m :: r :: L0) junk 1 r) by done. bind_red.
  assert (forall L', Permutation L' L0 -> Forall live L' /\
    Forall (fun e => seq e < qseq q) L' /\ NoDup (seq <$> L')) as Hrest.
  { intros L' HP. apply Forall_inv_tail in Hv, Hq. inversion Hd as [|? ? ? Hd0]; subst.
    split_and!; [by apply (Forall_perm _ _ L0)..|]. by rewrite (fmap_Permutation seq L' L0 HP). }
  destruct L0 as [|v L1 _] using rev_ind.
  - replace (qlen q - 1) with 1 by list_lia.
    rewrite (cells_load [m; r] junk 1 r) by done. bind_red.
    rewrite cells_store by done. bind_red.
    unfold downheap; cbn [qtab qlen size producers qseq].
    rewrite (cells_load _ junk 1 r) by done. bind_red. cbn [downheap_loop].
    rewrite (proj2 (Z.leb_gt 1 (1 / 2))) by done.
    rewrite cells_store by done. bind_red.
    eexists _, []. split; [done|]. split; [|done]. constructor; simpl; try done.
    + exists m, (Some r :: junk). split_and!; [done| |done]. intros [|[|k]]; simpl; lia || done.
    + rewrite Hs, Ht. done.
    + apply NoDup_nil_2.
  - replace (qlen q - 1) with (zlen L1 + 2) by list_lia.
    rewrite (cells_load _ junk _ v) by (list_lia ||
      (replace (Z.to_nat _) with (S (S (length L1))) by list_lia; simpl;
       by rewrite lookup_app_r, Nat.sub_diag by lia)). bind_red.
    rewrite cells_store by list_lia. bind_red.
    unfold downheap; cbn [qtab qlen size producers qseq].
    rewrite (cells_load _ junk 1 v) by done. bind_red.
    destruct (downheap_root_ok m r v L1 junk) as (L' & g & HD & HhE & HpL); [done..|].
    simpl in HD |- *. rewrite HD. bind_red.
    eexists _, L'. split; [done|]. split; [|done]. destruct (Hrest L' HpL) as (? & ? & ?).
    apply Permutation_length in HpL. constructor; simpl; try done.
    + by exists m, (Some g :: junk).
    + list_lia.
    + rewrite Hs, Ht. unfold PTR_SIZE. list_lia.
Qed.
End order.

(** ** What the queue promises: a list in the order of removal

    A new item goes behind all the items that are not smaller, so that items
    that compare equal leave in the order they came. *)

Section spec.
Context {A : Type} (cmp : A -> A -> Z) {Hcmp : CmpOrder cmp}.
Implicit Types (x y : A) (W : list (A * Z)).

Fixpoint spec_insert x (xs : list A) : list A :=
  match xs with
  | [] => [x]
  | y :: xs => if 0 <=? cmp y x then y :: spec_insert x xs else x :: y :: xs
  end.

Inductive pq_op : Type := PqInsert (x : A) | PqRemove.

Fixpoint spec_run (ops : list pq_op) (xs : list A) : list (option A) :=
  match ops with
  | [] => []
  | PqInsert x :: ops => spec_run ops (spec_insert x xs)
  | PqRemove :: ops => head xs :: spec_run ops (tail xs)
  end.

Fixpoint pq_run (ops : list pq_op) (q : gw_prioqueue A) : res (list (option A)) :=
  match ops with
  | [] => Ok []
  | PqInsert x :: ops => q ← gw_prioqueue_insert cmp q x; pq_run ops q
  | PqRemove :: ops =>
      '(r, q) ← gw_prioqueue_remove cmp q;
      rs ← pq_run ops q;
      Ok (r :: rs)
  end.

(** An item with its sequence number, the order of removal among these, and the
    insertion that follows it. *)
Definition elt (p : A * Z) : element A := mkElement (Some p.1) p.2.

Definition before (p r : A * Z) : Prop :=
  0 < cmp p.1 r.1 \/ (cmp p.1 r.1 = 0 /\ p.2 < r.2).

Fixpoint ins (p : A * Z) W : list (A * Z) :=
  match W with
  | [] => [p]
  | r :: W => if 0 <=? cmp r.1 p.1 then r :: ins p W else p :: r :: W
  end.

Lemma ins_fst p W : (ins p W).*1 = spec_insert p.1 W.*1.
Proof. induction W as [|r W IH]; [done|]. csimpl. case_match; [|done]. csimpl. by rewrite IH. Qed.

Lemma ins_perm p W : Permutation (ins p W) (p :: W).
Proof.
  induction W as [|r W IH]; simpl; [done|]. case_match; [|done].
  rewrite IH. apply Permutation_swap.
Qed.

Lemma before_ge p r : before p r -> ge cmp (elt p) (elt r).
Proof. intros H. apply (ge_iff cmp). exists p.1, r.1. unfold before in H. simpl. naive_solver lia. Qed.

Lemma before_trans p r s : before p r -> before r s -> before p s.
Proof.
  intros H1 H2. pose proof (before_ge _ _ H1) as G1. pose proof (before_ge _ _ H2) as G2.
  pose proof (ge_trans cmp _ _ _ G1 G2) as G. apply (ge_iff cmp) in G as (x & y & [= <-] & [= <-] & G).
  simpl in G. unfold before in *.
  pose proof (cmp_antisym (cmp:=cmp) p.1 s.1). pose proof (cmp_antisym (cmp:=cmp) p.1 r.1).
  pose proof (cmp_antisym (cmp:=cmp) r.1 s.1). destruct G as [G|[G _]]; [by left|].
  pose proof (cmp_trans (cmp:=cmp) s.1 p.1 r.1 ltac:(lia)).
  pose proof (cmp_trans (cmp:=cmp) r.1 s.1 p.1). lia.
Qed.

Lemma ins_sorted p W :
  StronglySorted before W -> Forall (fun r => r.2 < p.2) W -> StronglySorted before (ins p W).
Proof.
  induction 1 as [|r W HS IH Hr]; intros HF; simpl; [by repeat constructor|].
  inversion HF; subst. destruct (Z.leb_spec 0 (cmp r.1 p.1)).
  - constructor; [by apply IH|]. rewrite ins_perm. constructor; [|done].
    unfold before. lia.
  - assert (before p r) by (unfold before; pose proof (cmp_antisym (cmp:=cmp) r.1 p.1); lia).
    constructor; [by constructor|]. constructor; [done|].
    revert Hr. apply Forall_impl. intros s. by apply before_trans.
Qed.

(** [pq_model q xs]: the items of [q] in the order in which they will leave. *)
Definition pq_model (q : gw_prioqueue A) (xs : list A) : Prop :=
  exists L W, qrepr cmp q L /\ Permutation L (elt <$> W) /\ StronglySorted before W /\ xs = W.*1.

Lemma pq_create_ok : returns gw_prioqueue_create (fun q => pq_model q []).
Proof.
  exists [], []. split_and!; [|done|constructor|done]. constructor; simpl; try done.
  - exists (mkElement None 0), []. split_and!; [done| |done]. intros [|[|k]]; simpl; lia || done.
  - apply NoDup_nil_2.
Qed.

Lemma pq_insert_ok q xs x :
  pq_model q xs -> returns (gw_prioqueue_insert cmp q x) (fun q' => pq_model q' (spec_insert x xs)).
Proof.
  intros (L & W & Hr & HP & HS & ->).
  destruct (gw_prioqueue_insert_ok cmp q L x Hr) as (q' & L' & -> & Hr' & HP' & _). simpl.
  exists L', (ins (x, qseq q) W). split_and!; [done| | |by rewrite ins_fst].
  - rewrite HP', ins_perm, HP. done.
  - apply ins_sorted; [done|]. destruct Hr as [_ _ _ _ Hq _].
    apply (Forall_perm _ _ _ (symmetry HP)) in Hq. by apply Forall_fmap in Hq.
Qed.

Lemma pq_model_len q xs : pq_model q xs -> qlen q = zlen xs + 1.
Proof.
  intros (L & W & [_ Hl _ _ _ _] & HP & _ & ->). apply Permutation_length in HP. list_lia.
Qed.

(** The root of the heap is the first element in the order of removal. *)
Lemma root_first q r L0 p W :
  qrepr cmp q (r :: L0) -> Permutation (r :: L0) (elt <$> p :: W) ->
  StronglySorted before (p :: W) -> r = elt p.
Proof.
  intros [(m & junk & _ & Hh & _) _ _ Hl _ Hd] HP HW.
  assert (elt p ∈ r :: L0) as Hp by (rewrite HP; simpl; left).
  assert (r ∈ elt <$> p :: W) as Hr by (rewrite <- HP; left).
  apply list_elem_of_lookup in Hp as [k Hk].
  assert (ge cmp r (elt p)) as G.
  { apply (heap_root cmp (m :: r :: L0) r Hh) with (k := S k); [by simpl|done|lia|done]. }
  apply list_elem_of_fmap in Hr as (p' & -> & Hin).
  apply elem_of_cons in Hin as [->|Hin]; [done|]. exfalso.
  inversion HW as [|? ? _ Hb]; subst. rewrite Forall_forall in Hb.
  apply list_elem_of_In in Hin. specialize (Hb p' Hin).
  apply (ge_iff cmp) in G as (x & y & [= <-] & [= <-] & G). unfold before in Hb. simpl in G.
  pose proof (cmp_antisym (cmp:=cmp) p.1 p'.1). lia.
Qed.

Lemma pq_remove_ok q xs :
  pq_model q xs ->
  returns (gw_prioqueue_remove cmp q) (fun '(r, q') => r = head xs /\ pq_model q' (tail xs)).
Proof.
  intros (L & W & Hr & HP & HS & ->). unfold gw_prioqueue_remove.
  pose proof (qrepr_nil cmp q L Hr) as Hnil. destruct (Z.leb_spec (qlen q) 1) as [Hq|Hq].
  - apply Hnil in Hq as ->. apply Permutation_nil_l in HP. destruct W; [|done]. simpl.
    split; [done|]. exists [], []. done.
  - destruct L as [|r L0]; [naive_solver lia|].
    destruct (remove_root_ok cmp q r L0 Hr) as (q' & L' & -> & Hr' & HP' & _).
    destruct W as [|p W]; [by apply Permutation_nil_r in HP|].
    assert (r = elt p) as ->.
    { by apply (root_first q r L0 p W). }
    simpl. split; [done|]. exists L', W. split_and!; [done| |by inversion HS|done].
    rewrite HP'. by eapply Permutation_cons_inv.
Qed.

Lemma pq_run_ok ops : forall q xs,
  pq_model q xs -> pq_run ops q = Ok (spec_run ops xs).
Proof.
  induction ops as [|[x|] ops IH]; intros q xs Hq; simpl; [done| |].
  - destruct (proj1 (returns_iff _ _) (pq_insert_ok q xs x Hq)) as (q' & -> & Hq').
    bind_red. by apply IH.
  - destruct (proj1 (returns_iff _ _) (pq_remove_ok q xs Hq)) as ([r q'] & -> & -> & Hq').
    bind_red. by rewrite (IH q' _ Hq').
Qed.

(** ** Properties *)

(** C8. A queue that was just created and then got any sequence of insertions
    and removals returns from the removals exactly what the list in the order
    of removal returns: the largest item by [cmp], of equal items the one
    inserted first, and NULL when the queue is empty.  No operation panics or
    accesses the array out of bounds. *)
Theorem prioqueue_refines_sorted_list (ops : list pq_op) :
  (q ← gw_prioqueue_create; pq_run ops q) = Ok (spec_run ops []).
Proof.
  destruct (proj1 (returns_iff _ _) pq_create_ok) as (q & -> & Hq).
  bind_red. by apply pq_run_ok.
Qed.

(** [gw_prioqueue_consume] waits only while the queue is empty and has a
    producer, returns NULL only when it is empty and has none, and otherwise
    removes the first item, as [gw_prioqueue_remove] does; the length drops by
    one. *)
Theorem prioqueue_consume_behaviour (q : gw_prioqueue A) (xs : list A) :
  pq_model q xs ->
  returns (gw_prioqueue_consume_retry cmp q) (fun r =>
    match xs with
    | [] => r = if 0 <? producers q then None else Some (None, q)
    | x :: xs' => exists q', r = Some (Some x, q') /\ pq_model q' xs' /\
        gw_prioqueue_len (Some q') = zlen xs'
    end).
Proof.
  intros Hq. pose proof (pq_remove_ok q xs Hq) as Hrm. unfold gw_prioqueue_consume_retry.
  pose proof (pq_model_len q xs Hq) as Hl. unfold gw_prioqueue_remove in Hrm.
  destruct xs as [|x xs].
  - change (zlen []) with 0 in Hl. rewrite Hl. simpl.
    destruct (0 <? producers q); done.
  - assert (zlen (x :: xs) = zlen xs + 1) as Hz by list_lia. pose proof (zlen_nonneg xs).
    rewrite (proj2 (Z.eqb_neq (qlen q) 1)) by lia. rewrite (proj2 (Z.ltb_lt 1 (qlen q))) by lia.
    rewrite (proj2 (Z.leb_gt (qlen q) 1)) in Hrm by lia. simpl andb.
    apply returns_iff in Hrm as ([r q'] & -> & -> & Hq'). bind_red. simpl.
    exists q'. split; [done|]. split; [done|]. rewrite (pq_model_len q' xs Hq'). lia.
Qed.
End spec.

(** A comparison for the witnesses: numbers by their tens. *)
Definition tens_cmp (x y : Z) : Z := x / 10 - y / 10.

#[export] Instance tens_cmp_order : CmpOrder tens_cmp.
Proof. constructor; unfold tens_cmp; intros; lia. Qed.

Lemma prioqueue_refines_sorted_list_witness :
  (q ← gw_prioqueue_create; pq_run tens_cmp
     [PqInsert 11; PqInsert 25; PqInsert 21; PqInsert 12; PqInsert 33; PqRemove; PqRemove;
      PqInsert 5; PqRemove; PqRemove; PqRemove; PqRemove; PqRemove] q)
  = Ok [Some 33; Some 25; Some 21; Some 11; Some 12; Some 5; None].
Proof. apply (prioqueue_refines_sorted_list tens_cmp). Defined.

Lemma prioqueue_consume_behaviour_witness :
  returns (q ← gw_prioqueue_create; q ← gw_prioqueue_insert tens_cmp q 11;
           q ← gw_prioqueue_insert tens_cmp q 25; gw_prioqueue_consume_retry tens_cmp q)
    (fun r => exists q, r = Some (Some 25, q) /\ gw_prioqueue_len (Some q) = 1).
Proof.
  apply returns_bind. apply (returns_mono _ _ _ (pq_create_ok tens_cmp)). intros q0 H0.
  apply returns_bind. apply (returns_mono _ _ _ (pq_insert_ok tens_cmp q0 _ 11 H0)). intros q1 H1.
  apply returns_bind. apply (returns_mono _ _ _ (pq_insert_ok tens_cmp q1 _ 25 H1)). intros q2 H2.
  apply (returns_mono _ _ _ (prioqueue_consume_behaviour tens_cmp q2 [25; 11] H2)).
  intros r (q' & -> & _ & Hl). by exists q'.
Defined.
