(* ===== verification/GwTimerHeap.v ===== *)
(** * Timers: the heap

    Models the data and the heap of src/gwlib/gw-timer.c: timers kept in an array
    ordered so that element i does not elapse before element i/2.  The operations
    on timers are in GwTimer.v.

    A pointer to a timer is a number; [timers] is the memory that holds them, and
    a timer that is not there was freed.  Output lists are the lists of GwList.v.
    A data pointer is a number, 0 for NULL.  [gwthread_wakeup] writes to the pipe
    of the thread, which [woken] records. *)

From Stdlib Require Import ZifyNat.
From stdpp Require Import gmap.
From S2P Require Import Prelude Octstr GwList.

Record Timer := mkTimer {
  output : option nat;
  callback : option nat;
  elapses : Z;
  data : Z;
  elapsed_data : Z;
  tindex : Z
}.

Record TimerHeap := mkHeap {
  htab : list (option nat);
  hlen : Z;
  hsize : Z
}.

Record Timerset := mkTimerset {
  stopping : bool;
  heap : TimerHeap;
  timers : gmap nat Timer;
  outputs : gmap nat (List Z);
  woken : bool
}.

Definition set_heap (s : Timerset) (h : TimerHeap) : Timerset :=
  mkTimerset (stopping s) h (timers s) (outputs s) (woken s).
Definition set_htab (s : Timerset) (t : list (option nat)) : Timerset :=
  set_heap s (mkHeap t (hlen (heap s)) (hsize (heap s))).
Definition set_timer (s : Timerset) (id : nat) (t : Timer) : Timerset :=
  mkTimerset (stopping s) (heap s) (<[id:=t]> (timers s)) (outputs s) (woken s).
Definition set_output (s : Timerset) (o : nat) (l : List Z) : Timerset :=
  mkTimerset (stopping s) (heap s) (timers s) (<[o:=l]> (outputs s)) (woken s).
Definition free_timer (s : Timerset) (id : nat) : Timerset :=
  mkTimerset (stopping s) (heap s) (delete id (timers s)) (outputs s) (woken s).
Definition gwthread_wakeup (s : Timerset) : Timerset :=
  mkTimerset (stopping s) (heap s) (timers s) (outputs s) true.

Definition set_index (t : Timer) (i : Z) : Timer :=
  mkTimer (output t) (callback t) (elapses t) (data t) (elapsed_data t) i.
Definition set_elapses (t : Timer) (e : Z) : Timer :=
  mkTimer (output t) (callback t) e (data t) (elapsed_data t) (tindex t).
Definition set_tdata (t : Timer) (d : Z) : Timer :=
  mkTimer (output t) (callback t) (elapses t) d (elapsed_data t) (tindex t).
Definition set_elapsed_data (t : Timer) (d : Z) : Timer :=
  mkTimer (output t) (callback t) (elapses t) (data t) d (tindex t).

(** Following a pointer to a timer, and to a list. *)
Definition get_timer (s : Timerset) (id : nat) : res Timer :=
  match timers s !! id with Some t => Ok t | None => Undef end.

Definition get_output (s : Timerset) (o : nat) : res (List Z) :=
  match outputs s !! o with Some l => Ok l | None => Undef end.

Definition put_index (s : Timerset) (id : nat) (i : Z) : res Timerset :=
  t ← get_timer s id; Ok (set_timer s id (set_index t i)).

(** ** The heap *)

Definition heap_create : TimerHeap := mkHeap [None] 0 1.

Definition elapses_at (s : Timerset) (i : Z) : res Z :=
  id ← tab_load (htab (heap s)) i;
  t ← get_timer s id;
  Ok (elapses t).

Definition heap_swap (s : Timerset) (index1 index2 : Z) : res Timerset :=
  assert: 0 <=? index1; assert: index1 <? hlen (heap s);
  assert: 0 <=? index2; assert: index2 <? hlen (heap s);
  if index1 =? index2 then Ok s
  else
    t ← tab_load (htab (heap s)) index1;
    u ← tab_load (htab (heap s)) index2;
    tab ← tab_store (htab (heap s)) index1 u;
    tab ← tab_store tab index2 t;
    s ← put_index (set_htab s tab) u index1;
    put_index s t index2.

(** The loop that moves the timer [t] at [index] toward the top; returns where
    it stopped. *)
Fixpoint up_loop (s : Timerset) (t : nat) (index : Z) (fuel : nat) : res (Z * Timerset) :=
  match fuel with
  | O => Undef
  | S fuel =>
      s ← heap_swap s index (index / 2);
      let index := index / 2 in
      p ← elapses_at s (index / 2);
      tt ← get_timer s t;
      if elapses tt <? p then up_loop s t index fuel else Ok (index, s)
  end.

(** The loop that moves it toward the bottom. *)
Fixpoint down_loop (s : Timerset) (t : nat) (index : Z) (fuel : nat) : res Timerset :=
  match fuel with
  | O => Undef
  | S fuel =>
      let child_index := index * 2 in
      if hlen (heap s) <=? child_index then Ok s
      else
        tt ← get_timer s t;
        c ← elapses_at s child_index;
        if child_index =? hlen (heap s) - 1 then
          if c <? elapses tt then heap_swap s index child_index else Ok s
        else
          d ← elapses_at s (child_index + 1);
          let child_index := if d <? c then child_index + 1 else child_index in
          c ← elapses_at s child_index;
          if c <? elapses tt then
            s ← heap_swap s index child_index;
            down_loop s t child_index fuel
          else Ok s
  end.

Definition heap_adjust (s : Timerset) (index : Z) : res (bool * Timerset) :=
  assert: 0 <=? index; assert: index <? hlen (heap s);
  t ← tab_load (htab (heap s)) index;
  tt ← get_timer s t;
  p ← elapses_at s (index / 2);
  if elapses tt <? p then
    '(i, s) ← up_loop s t index (S (Z.to_nat index));
    Ok (i =? 0, s)
  else
    s ← down_loop s t index (S (Z.to_nat (hlen (heap s))));
    Ok (false, s).

Definition heap_delete (s : Timerset) (index : Z) : res Timerset :=
  assert: 0 <=? index; assert: index <? hlen (heap s);
  id ← tab_load (htab (heap s)) index;
  t ← get_timer s id;
  assert: tindex t =? index;
  let last := hlen (heap s) - 1 in
  s ← heap_swap s index last;
  id ← tab_load (htab (heap s)) last;
  s ← put_index s id (-1);
  let s := set_heap s (mkHeap (htab (heap s)) (hlen (heap s) - 1) (hsize (heap s))) in
  if index =? last then Ok s
  else '(_, s) ← heap_adjust s index; Ok s.

Definition heap_insert (s : Timerset) (id : nat) : res Timerset :=
  let len := hlen (heap s) + 1 in
  let h := if hsize (heap s) <? len
           then mkHeap (htab (heap s) ++ replicate (Z.to_nat len - length (htab (heap s))) None) len len
           else mkHeap (htab (heap s)) len (hsize (heap s)) in
  tab ← tab_store (htab h) (len - 1) id;
  s ← put_index (set_heap s (mkHeap tab (hlen h) (hsize h))) id (len - 1);
  '(_, s) ← heap_adjust s (len - 1);
  Ok s.

(** ** Invariant of the heap

    [hwf s hs]: the used part of the table holds the timers [hs], each of which
    knows its place; the others know that they are in none. *)
Record hwf (s : Timerset) (hs : list nat) : Prop := {
  hw_tab : exists junk, htab (heap s) = (Some <$> hs) ++ junk;
  hw_len : hlen (heap s) = zlen hs;
  hw_size : hsize (heap s) = zlen (htab (heap s));
  hw_in : forall i id, hs !! i = Some id ->
    exists t, timers s !! id = Some t /\ tindex t = Z.of_nat i;
  hw_out : forall id t, timers s !! id = Some t -> id ∈ hs \/ tindex t = -1
}.

(** What a set is apart from the heap: its timers without their places, and the
    rest.  [kept s s'] says that a heap operation changed nothing of it. *)
Definition erase (t : Timer) : Timer := set_index t (-1).
Definition core (s : Timerset) : gmap nat Timer := erase <$> timers s.
Definition kept (s s' : Timerset) : Prop :=
  core s' = core s /\ outputs s' = outputs s /\ woken s' = woken s /\ stopping s' = stopping s.

#[export] Instance kept_preorder : PreOrder kept.
Proof. split; [done|]. unfold kept. intros ??? (?&?&?&?) (?&?&?&?). split_and!; congruence. Qed.

Definition key (s : Timerset) (id : nat) : Z :=
  match core s !! id with Some t => elapses t | None => 0 end.

Lemma key_timer s id t : timers s !! id = Some t -> key s id = elapses t.
Proof. intros H. unfold key, core. by rewrite lookup_fmap, H. Qed.

Lemma kept_key s s' id : kept s s' -> key s' id = key s id.
Proof. intros (E & _). unfold key. by rewrite E. Qed.

Section heap_order.
Context (k : nat -> Z).

(** The order of the heap, and the order with an exception at position [p]. *)
Definition ordered (hs : list nat) : Prop :=
  forall i a b, (0 < i)%nat -> hs !! (i / 2)%nat = Some a -> hs !! i = Some b -> k a <= k b.

Record almost (hs : list nat) (p : nat) : Prop := {
  al_other : forall i a b, (0 < i)%nat -> i <> p -> (i / 2)%nat <> p ->
    hs !! (i / 2)%nat = Some a -> hs !! i = Some b -> k a <= k b;
  al_skip : forall i a b, (0 < i)%nat -> (0 < p)%nat -> (i / 2)%nat = p ->
    hs !! (p / 2)%nat = Some a -> hs !! i = Some b -> k a <= k b
}.

Lemma ordered_top hs i a b :
  ordered hs -> hs !! 0%nat = Some a -> hs !! i = Some b -> k a <= k b.
Proof.
  intros Ho Ha. revert b. induction i as [i IH] using lt_wf_ind. intros b Hb.
  destruct i as [|i]; [naive_solver lia|].
  assert (S i / 2 < S i)%nat as Hlt by (apply Nat.div_lt; lia).
  destruct (lookup_lt_is_Some_2 hs (S i / 2)) as [c Hc];
    [apply lookup_lt_Some in Hb; lia|].
  specialize (IH _ Hlt c Hc). specialize (Ho (S i) c b ltac:(lia) Hc Hb). lia.
Qed.
End heap_order.

(** [hs] with the items at [i] and [j] exchanged. *)
Definition swapped (i j : nat) (hs : list nat) : list nat :=
  match hs !! i, hs !! j with
  | Some a, Some b => <[j := a]> (<[i := b]> hs)
  | _, _ => hs
  end.

Lemma swapped_at i j hs a b x :
  hs !! i = Some a -> hs !! j = Some b ->
  swapped i j hs !! x = if decide (x = j) then Some a else if decide (x = i) then Some b else hs !! x.
Proof.
  intros Ha Hb. unfold swapped. rewrite Ha, Hb.
  pose proof (lookup_lt_Some _ _ _ Ha). pose proof (lookup_lt_Some _ _ _ Hb).
  list_lookup. list_len. repeat case_decide; naive_solver lia.
Qed.

Lemma length_swapped i j hs : length (swapped i j hs) = length hs.
Proof. unfold swapped. repeat case_match; list_len; done. Qed.

Lemma swapped_elem i j hs id : id ∈ swapped i j hs <-> id ∈ hs.
Proof.
  unfold swapped at 1. destruct (hs !! i) as [a|] eqn:Ha; [|done].
  destruct (hs !! j) as [b|] eqn:Hb; [|done].
  assert (<[j:=a]> (<[i:=b]> hs) = swapped i j hs) as -> by (unfold swapped; by rewrite Ha, Hb).
  rewrite !list_elem_of_lookup. setoid_rewrite (swapped_at _ _ _ _ _ _ Ha Hb).
  split; intros [x Hx].
  - repeat case_decide; naive_solver.
  - destruct (decide (x = i)) as [->|]; [|destruct (decide (x = j)) as [->|]].
    + exists j. rewrite decide_True by done. congruence.
    + destruct (decide (i = j)) as [->|]; [done|].
      exists i. rewrite decide_False, decide_True by done. congruence.
    + exists x. by rewrite !decide_False.
Qed.

Section heap_proofs.
Implicit Types (s : Timerset) (hs : list nat) (id : nat).

Lemma tab_load_ok s hs (i : nat) id :
  hwf s hs -> hs !! i = Some id -> tab_load (htab (heap s)) (Z.of_nat i) = Ok id.
Proof.
  intros [[junk Ht] _ _ _ _] Hi. unfold tab_load. rewrite Ht, Nat2Z.id.
  destruct (Z.leb_spec 0 (Z.of_nat i)); [|lia].
  rewrite lookup_app_l by (list_len; by eapply lookup_lt_Some).
  by rewrite list_lookup_fmap, Hi.
Qed.

Lemma get_timer_ok s hs (i : nat) id :
  hwf s hs -> hs !! i = Some id ->
  exists t, get_timer s id = Ok t /\ timers s !! id = Some t /\
            tindex t = Z.of_nat i /\ elapses t = key s id.
Proof.
  intros H Hi. destruct (hw_in _ _ H _ _ Hi) as (t & Ht & Hti). exists t.
  unfold get_timer. rewrite Ht. split_and!; try done. by rewrite (key_timer _ _ _ Ht).
Qed.

Lemma elapses_at_ok s hs (i : nat) id :
  hwf s hs -> hs !! i = Some id -> elapses_at s (Z.of_nat i) = Ok (key s id).
Proof.
  intros H Hi. unfold elapses_at. rewrite (tab_load_ok _ _ _ _ H Hi). bind_red.
  destruct (get_timer_ok _ _ _ _ H Hi) as (t & -> & _ & _ & E). bind_red. by rewrite E.
Qed.

(** A store of a place changes nothing else. *)
Lemma put_index_ok s id t (i : Z) :
  timers s !! id = Some t ->
  put_index s id i = Ok (set_timer s id (set_index t i)) /\ kept s (set_timer s id (set_index t i)).
Proof.
  intros H. unfold put_index, get_timer. rewrite H. split; [done|].
  unfold kept, core. cbn [timers set_timer outputs woken stopping]. split_and!; try done.
  apply map_eq. intros j. rewrite !lookup_fmap.
  destruct (decide (j = id)) as [->|]; [rewrite lookup_insert_eq, H|rewrite lookup_insert_ne by done]; done.
Qed.

Lemma tab_store_ok hs (i : nat) id junk :
  (i < length hs)%nat ->
  tab_store ((Some <$> hs) ++ junk) (Z.of_nat i) id = Ok ((Some <$> <[i:=id]> hs) ++ junk).
Proof.
  intros Hi. unfold tab_store. rewrite Nat2Z.id.
  destruct (Z.leb_spec 0 (Z.of_nat i)); [|lia].
  destruct (Z.ltb_spec (Z.of_nat i) (zlen ((Some <$> hs) ++ junk))); [|list_lia].
  cbn [andb]. rewrite insert_app_l by (list_len; lia). by rewrite list_fmap_insert.
Qed.

Lemma heap_swap_ok s hs (i j : nat) :
  hwf s hs -> (i < length hs)%nat -> (j < length hs)%nat ->
  returns (heap_swap s (Z.of_nat i) (Z.of_nat j)) (fun s' => hwf s' (swapped i j hs) /\ kept s s').
Proof.
  intros H Hi Hj. unfold heap_swap. pose proof (hw_len _ _ H) as Hl.
  do 4 (apply returns_assert; [list_lia|]).
  destruct (lookup_lt_is_Some_2 _ _ Hi) as [a Ha], (lookup_lt_is_Some_2 _ _ Hj) as [b Hb].
  destruct (Z.eqb_spec (Z.of_nat i) (Z.of_nat j)) as [E|E].
  { apply Nat2Z.inj in E as ->. split; [|done]. unfold swapped. rewrite Ha.
    rewrite list_insert_insert_eq. by rewrite list_insert_id. }
  assert (i <> j) as Hne by lia.
  rewrite (tab_load_ok _ _ _ _ H Ha), (tab_load_ok _ _ _ _ H Hb). bind_red.
  destruct (hw_tab _ _ H) as [junk Ht].
  rewrite Ht, tab_store_ok by done. bind_red. rewrite tab_store_ok by (list_len; lia). bind_red.
  destruct (hw_in _ _ H _ _ Ha) as (ta & Hta & Hia), (hw_in _ _ H _ _ Hb) as (tb & Htb & Hib).
  set (s1 := set_htab _ _).
  destruct (put_index_ok s1 b tb (Z.of_nat i) Htb) as [-> K1]. bind_red.
  assert (a <> b) as Hab by (intros ->; rewrite Hta in Htb; injection Htb as ->; lia).
  destruct (put_index_ok (set_timer s1 b (set_index tb (Z.of_nat i))) a ta (Z.of_nat j)) as [-> K2].
  { cbn. by rewrite lookup_insert_ne by done. }
  split; [|exact (transitivity K1 K2)].
  assert (<[j:=a]> (<[i:=b]> hs) = swapped i j hs) as Esw by (unfold swapped; by rewrite Ha, Hb).
  split; cbn [heap set_timer set_htab set_heap htab hlen hsize timers s1].
  - exists junk. by rewrite Esw.
  - by rewrite Hl, <- Esw; list_lia.
  - pose proof (hw_size _ _ H) as Hs. rewrite Ht in Hs. list_lia.
  - intros x id Hx. rewrite (swapped_at _ _ _ _ _ _ Ha Hb) in Hx.
    destruct (decide (x = j)) as [->|]; [|destruct (decide (x = i)) as [->|]]; simplify_eq.
    + rewrite lookup_insert_eq. eauto.
    + rewrite lookup_insert_ne, lookup_insert_eq by done. eauto.
    + destruct (hw_in _ _ H _ _ Hx) as (t & Hit & E'). exists t.
      rewrite !lookup_insert_ne; [done|intros <-; rewrite Hit in Htb; naive_solver lia
                                      |intros <-; rewrite Hit in Hta; naive_solver lia].
  - intros id t Hit. rewrite swapped_elem. apply lookup_insert_Some in Hit as [[<- <-]|[? Hit]].
    { left. by eapply list_elem_of_lookup_2. }
    apply lookup_insert_Some in Hit as [[<- <-]|[? Hit]];
      [left; by eapply list_elem_of_lookup_2|by eapply hw_out].
Qed.

(** Arithmetic with the halves of positions. *)
Local Ltac half_lia := zify; Z.to_euclidean_division_equations; lia.

Lemma of_nat_half (i : nat) : Z.of_nat i / 2 = Z.of_nat (i / 2).
Proof. by rewrite Nat2Z.inj_div. Qed.

Lemma almost_ordered k hs p t :
  almost k hs p -> hs !! p = Some t ->
  (forall i b, (0 < i)%nat -> (i / 2)%nat = p -> hs !! i = Some b -> k t <= k b) ->
  (forall a, (0 < p)%nat -> hs !! (p / 2)%nat = Some a -> k a <= k t) ->
  ordered k hs.
Proof.
  intros Hal Ht Hc Hp i a b Hi Ha Hb.
  destruct (decide (i = p)) as [->|]; [naive_solver|].
  destruct (decide ((i / 2)%nat = p)) as [E|]; [|by eapply al_other].
  rewrite E, Ht in Ha. injection Ha as <-. eauto.
Qed.

Lemma ordered_almost k hs p : ordered k hs -> almost k hs p.
Proof.
  intros Ho. split; [eauto|]. intros i a b Hi Hp E Ha Hb.
  destruct (lookup_lt_is_Some_2 hs p) as [c Hc]; [apply lookup_lt_Some in Hb; half_lia|].
  pose proof (Ho p a c Hp Ha Hc). pose proof (Ho i c b Hi ltac:(by rewrite E) Hb). lia.
Qed.

(** Moving the exception one step up, and one step down. *)
Lemma almost_up k hs p t q :
  almost k hs p -> hs !! p = Some t -> hs !! (p / 2)%nat = Some q -> k t < k q ->
  (forall i b, (0 < i)%nat -> (i / 2)%nat = p -> hs !! i = Some b -> k t <= k b) ->
  almost k (swapped p (p / 2) hs) (p / 2) /\
  (forall i b, (0 < i)%nat -> (i / 2)%nat = (p / 2)%nat -> swapped p (p / 2) hs !! i = Some b -> k t <= k b).
Proof.
  intros Hal Ht Hq Hlt Hc.
  assert (0 < p)%nat as Hp by (destruct p; [cbn in Hq; naive_solver lia|lia]).
  assert (p / 2 < p)%nat as Hpp by half_lia.
  pose proof (swapped_at p (p / 2) hs t q) as Hsw.
  assert (Hsib : forall i b, (0 < i)%nat -> i <> p -> (i / 2)%nat = (p / 2)%nat -> hs !! i = Some b -> k q <= k b).
  { intros i b Hi Hip E Hb. apply (al_other _ _ _ Hal i q b); [done..|half_lia|by rewrite E|done]. }
  split; [split|].
  - intros i a b Hi Hi1 Hi2 Ha Hb. rewrite Hsw in Ha, Hb by done.
    rewrite (decide_False (P := (i / 2 = p / 2)%nat)) in Ha by done.
    rewrite (decide_False (P := (i = p / 2)%nat)) in Hb by done.
    rewrite (decide_False (P := (i = p)%nat)) in Hb by (intros ->; done).
    case_decide as E; [simplify_eq; by eapply (al_skip _ _ _ Hal i)|].
    eapply (al_other _ _ _ Hal i); try done. by intros ->.
  - intros i a b Hi Hr E Ha Hb. rewrite Hsw in Ha, Hb by done.
    rewrite (decide_False (P := (p / 2 / 2 = p / 2)%nat)) in Ha by half_lia.
    rewrite decide_False in Ha by half_lia. rewrite decide_False in Hb by half_lia.
    pose proof (al_other _ _ _ Hal (p / 2) a q Hr ltac:(half_lia) ltac:(half_lia) Ha Hq).
    case_decide; [naive_solver|]. pose proof (Hsib i b Hi ltac:(done) E Hb). lia.
  - intros i b Hi E Hb. rewrite Hsw in Hb by done. rewrite decide_False in Hb by half_lia.
    case_decide; [naive_solver lia|]. pose proof (Hsib i b Hi ltac:(done) E Hb). lia.
Qed.

Lemma almost_down k hs p c t d :
  almost k hs p -> hs !! p = Some t -> hs !! c = Some d -> (0 < c)%nat -> (c / 2)%nat = p ->
  k d < k t ->
  (forall i b, (0 < i)%nat -> (i / 2)%nat = p -> hs !! i = Some b -> k d <= k b) ->
  almost k (swapped p c hs) c /\
  (forall a, swapped p c hs !! (c / 2)%nat = Some a -> k a <= k t).
Proof.
  intros Hal Ht Hd Hc Ecp Hlt Hmin. assert (p < c)%nat as Hpc by half_lia.
  pose proof (swapped_at p c hs t d) as Hsw.
  split; [split|].
  - intros i a b Hi Hi1 Hi2 Ha Hb. rewrite Hsw in Ha, Hb by done.
    rewrite decide_False in Ha by done. rewrite decide_False in Hb by done.
    destruct (decide (i = p)) as [->|].
    { rewrite decide_False in Ha by half_lia. simplify_eq. eapply (al_skip _ _ _ Hal c); [..|done|done]; done || lia. }
    case_decide as E; [simplify_eq; by eapply Hmin|]. by eapply (al_other _ _ _ Hal i).
  - intros i a b Hi _ E Ha Hb. rewrite Hsw in Ha, Hb by done. rewrite Ecp in Ha.
    rewrite decide_False in Ha by lia. rewrite decide_True in Ha by done. simplify_eq.
    rewrite decide_False in Hb by half_lia. rewrite decide_False in Hb by half_lia.
    eapply (al_other _ _ _ Hal i a b); try done; half_lia.
  - intros a Ha. rewrite Hsw, Ecp in Ha by done. rewrite decide_False in Ha by lia.
    rewrite decide_True in Ha by done. naive_solver lia.
Qed.

(** What the two loops leave: the same timers, in order. *)
Record sifted (s : Timerset) (hs : list nat) (s' : Timerset) (hs' : list nat) : Prop := {
  si_wf : hwf s' hs';
  si_kept : kept s s';
  si_elem : forall id, id ∈ hs' <-> id ∈ hs;
  si_len : length hs' = length hs
}.

Lemma sifted_swap s hs s1 i j s' hs' :
  hwf s1 (swapped i j hs) -> kept s s1 -> sifted s1 (swapped i j hs) s' hs' -> sifted s hs s' hs'.
Proof.
  intros H1 K1 [H2 K2 He Hl]. split; [done|by transitivity s1| |by rewrite Hl, length_swapped].
  intros id. by rewrite He, swapped_elem.
Qed.

Lemma sifted_refl s hs : hwf s hs -> sifted s hs s hs.
Proof. by split. Qed.

Lemma up_loop_ok fuel s hs (p : nat) t q :
  hwf s hs -> hs !! p = Some t -> hs !! (p / 2)%nat = Some q -> key s t < key s q ->
  almost (key s) hs p ->
  (forall i b, (0 < i)%nat -> (i / 2)%nat = p -> hs !! i = Some b -> key s t <= key s b) ->
  (p < fuel)%nat ->
  returns (up_loop s t (Z.of_nat p) fuel) (fun '(i, s') => exists hs' (j : nat),
    i = Z.of_nat j /\ sifted s hs s' hs' /\ ordered (key s) hs' /\ hs' !! j = Some t /\
    (j <> 0%nat -> hs' !! 0%nat = hs !! 0%nat)).
Proof.
  revert s hs p q. induction fuel as [|fuel IH]; intros s hs p q H Ht Hq Hlt Hal Hc Hf; [lia|].
  cbn [up_loop]. rewrite of_nat_half.
  assert (0 < p)%nat as Hp by (destruct p; [cbn in Hq; naive_solver lia|lia]).
  assert (p / 2 < p)%nat as Hpp by half_lia.
  eapply returns_seq;
    [apply (heap_swap_ok s hs p (p / 2) H); eauto using lookup_lt_Some|].
  intros s1 [H1 K1]. destruct (almost_up _ _ _ _ _ Hal Ht Hq Hlt Hc) as [Hal1 Hc1].
  set (hs1 := swapped p (p / 2) hs) in *.
  assert (Ht1 : hs1 !! (p / 2)%nat = Some t).
  { unfold hs1. rewrite (swapped_at _ _ _ _ _ _ Ht Hq). by rewrite decide_True. }
  destruct (lookup_lt_is_Some_2 hs1 (p / 2 / 2)) as [q1 Hq1].
  { apply lookup_lt_Some in Ht1. half_lia. }
  rewrite of_nat_half, (elapses_at_ok _ _ _ _ H1 Hq1). bind_red.
  destruct (get_timer_ok _ _ _ _ H1 Ht1) as (tt & -> & _ & _ & E). bind_red.
  rewrite E, !(kept_key _ _ _ K1).
  destruct (Z.ltb_spec (key s t) (key s q1)) as [Hlt1|Hge1].
  - eapply returns_mono; [apply (IH s1 hs1 (p / 2)%nat q1); try done|].
    + by rewrite !(kept_key _ _ _ K1).
    + by destruct Hal1; split; intros; rewrite !(kept_key _ _ _ K1); eauto.
    + intros. rewrite !(kept_key _ _ _ K1). eauto.
    + lia.
    + intros [i s'] (hs' & j & -> & Hs & Ho & Hj & Htop). exists hs', j. split_and!; [done| | |done|].
      * by eapply sifted_swap.
      * intros i a b Hi Ha Hb. rewrite <- !(kept_key _ _ _ K1). eauto.
      * intros Hj0. rewrite (Htop Hj0). unfold hs1. rewrite (swapped_at _ _ _ _ _ _ Ht Hq).
        assert (0 < p / 2)%nat by (destruct (p / 2)%nat as [|m] eqn:Em; [|lia]; cbn in Hq1; naive_solver lia).
        rewrite !decide_False by lia. done.
  - exists hs1, (p / 2)%nat. split_and!; [done| | |done|].
    + eapply sifted_swap; [done..|by apply sifted_refl].
    + eapply almost_ordered; try done. intros a _ Ha. naive_solver.
    + intros Hj0. unfold hs1. rewrite (swapped_at _ _ _ _ _ _ Ht Hq).
      rewrite !decide_False by lia. done.
Qed.

Lemma sifted_ordered s s1 hs : kept s s1 -> ordered (key s1) hs -> ordered (key s) hs.
Proof. intros K Ho i a b Hi Ha Hb. rewrite <- !(kept_key _ _ _ K). eauto. Qed.

(** The children of a position. *)
Lemma child_cases (i p : nat) : (0 < i)%nat -> (i / 2)%nat = p -> i = (2 * p)%nat \/ i = (2 * p + 1)%nat.
Proof. intros. half_lia. Qed.

Lemma down_loop_ok fuel s hs (p : nat) t :
  hwf s hs -> hs !! p = Some t -> almost (key s) hs p ->
  (forall a, (0 < p)%nat -> hs !! (p / 2)%nat = Some a -> key s a <= key s t) ->
  (length hs - p < fuel)%nat ->
  returns (down_loop s t (Z.of_nat p) fuel) (fun s' => exists hs',
    sifted s hs s' hs' /\ ordered (key s) hs' /\ ((0 < p)%nat -> hs' !! 0%nat = hs !! 0%nat)).
Proof.
  revert s hs p. induction fuel as [|fuel IH]; intros s hs p H Ht Hal Hp Hf; [lia|].
  cbn [down_loop]. pose proof (lookup_lt_Some _ _ _ Ht) as Hpl. rewrite (hw_len _ _ H).
  replace (Z.of_nat p * 2) with (Z.of_nat (2 * p)) by lia.
  assert (Hdone : (forall i b, (0 < i)%nat -> (i / 2)%nat = p -> hs !! i = Some b -> key s t <= key s b) ->
    exists hs', sifted s hs s hs' /\ ordered (key s) hs' /\ ((0 < p)%nat -> hs' !! 0%nat = hs !! 0%nat)).
  { intros Hc. exists hs. split_and!; [by apply sifted_refl|by eapply almost_ordered|done]. }
  destruct (Z.leb_spec (zlen hs) (Z.of_nat (2 * p))) as [Hno|Hyes].
  { apply Hdone. intros i b Hi E Hb. apply lookup_lt_Some in Hb. apply child_cases in E; [|done].
    list_lia. }
  destruct (get_timer_ok _ _ _ _ H Ht) as (tt & -> & _ & _ & E). bind_red. rewrite E.
  destruct (lookup_lt_is_Some_2 hs (2 * p)) as [c Hc]; [list_lia|].
  rewrite (elapses_at_ok _ _ _ _ H Hc). bind_red.
  destruct (Z.eqb_spec (Z.of_nat (2 * p)) (zlen hs - 1)) as [Hone|Htwo].
  - assert (Honly : forall i b, (0 < i)%nat -> (i / 2)%nat = p -> hs !! i = Some b -> b = c /\ (0 < p)%nat).
    { intros i b Hi Ei Hb. pose proof (lookup_lt_Some _ _ _ Hb).
      destruct (child_cases _ _ Hi Ei) as [-> | ->]; [naive_solver lia|list_lia]. }
    destruct (Z.ltb_spec (key s c) (key s t)) as [Hlt|Hge].
    + assert (0 < p)%nat as Hp0 by (destruct p; [cbn in Hc; naive_solver lia|lia]).
      destruct (almost_down (key s) hs p (2 * p) t c) as [Hal1 Hpar1]; try done; [lia|half_lia| |].
      { intros i b Hi Ei Hb. destruct (Honly _ _ Hi Ei Hb) as [-> _]. lia. }
      eapply returns_mono; [apply (heap_swap_ok s hs p (2 * p) H); list_lia|].
      intros s1 [H1 K1]. exists (swapped p (2 * p) hs). split_and!.
      * eapply sifted_swap; [done..|by apply sifted_refl].
      * eapply almost_ordered; [done| | |eauto].
        -- rewrite (swapped_at _ _ _ _ _ _ Ht Hc). by rewrite decide_True.
        -- intros i b Hi Ei Hb. apply lookup_lt_Some in Hb. rewrite length_swapped in Hb.
           apply child_cases in Ei; [|done]. list_lia.
      * intros _. rewrite (swapped_at _ _ _ _ _ _ Ht Hc). by rewrite !decide_False by lia.
    + apply Hdone. intros i b Hi Ei Hb. by destruct (Honly _ _ Hi Ei Hb) as [-> _].
  - destruct (lookup_lt_is_Some_2 hs (2 * p + 1)) as [d Hd]; [list_lia|].
    replace (Z.of_nat (2 * p) + 1) with (Z.of_nat (2 * p + 1)) by lia.
    rewrite (elapses_at_ok _ _ _ _ H Hd). bind_red.
    assert (exists (m : nat) e, (if key s d <? key s c then Z.of_nat (2 * p + 1) else Z.of_nat (2 * p)) = Z.of_nat m /\
      hs !! m = Some e /\ (m = 2 * p \/ m = 2 * p + 1)%nat /\ key s e <= key s c /\ key s e <= key s d)
      as (m & e & -> & He & Hm & Hec & Hed).
    { destruct (Z.ltb_spec (key s d) (key s c)).
      - exists (2 * p + 1)%nat, d. split_and!; auto; lia.
      - exists (2 * p)%nat, c. split_and!; auto; lia. }
    assert (Hmin : forall i b, (0 < i)%nat -> (i / 2)%nat = p -> hs !! i = Some b -> key s e <= key s b).
    { intros i b Hi Ei Hb. destruct (child_cases _ _ Hi Ei) as [-> | ->]; naive_solver. }
    cbn zeta. rewrite (elapses_at_ok _ _ _ _ H He). bind_red.
    destruct (Z.ltb_spec (key s e) (key s t)) as [Hlt|Hge].
    + assert (m <> p) as Hmp by (intros ->; naive_solver lia).
      destruct (almost_down (key s) hs p m t e) as [Hal1 Hpar1]; try done; [lia|half_lia|].
      eapply returns_seq; [apply (heap_swap_ok s hs p m H); eauto using lookup_lt_Some|].
      intros s1 [H1 K1]. eapply returns_mono.
      * apply (IH s1 (swapped p m hs) m H1).
        -- rewrite (swapped_at _ _ _ _ _ _ Ht He). by rewrite decide_True.
        -- destruct Hal1; split; intros; rewrite !(kept_key _ _ _ K1); eauto.
        -- intros a _ Ha. rewrite !(kept_key _ _ _ K1). eauto.
        -- rewrite length_swapped. apply lookup_lt_Some in He. lia.
      * intros s' (hs' & Hs & Ho & Htop). exists hs'. split_and!.
        -- by eapply sifted_swap.
        -- by eapply sifted_ordered.
        -- intros Hp0. rewrite Htop by lia. rewrite (swapped_at _ _ _ _ _ _ Ht He).
           by rewrite !decide_False by lia.
    + apply Hdone. intros i b Hi Ei Hb. specialize (Hmin _ _ Hi Ei Hb). lia.
Qed.

Lemma heap_adjust_ok s hs (p : nat) :
  hwf s hs -> (p < length hs)%nat -> almost (key s) hs p ->
  returns (heap_adjust s (Z.of_nat p)) (fun '(r, s') => exists hs',
    sifted s hs s' hs' /\ ordered (key s) hs' /\
    (r = false -> (0 < p)%nat -> hs' !! 0%nat = hs !! 0%nat)).
Proof.
  intros H Hp Hal. unfold heap_adjust. rewrite (hw_len _ _ H).
  do 2 (apply returns_assert; [list_lia|]).
  destruct (lookup_lt_is_Some_2 _ _ Hp) as [t Ht]. rewrite (tab_load_ok _ _ _ _ H Ht). bind_red.
  destruct (get_timer_ok _ _ _ _ H Ht) as (tt & -> & _ & _ & E). bind_red. rewrite E.
  destruct (lookup_lt_is_Some_2 hs (p / 2)) as [q Hq]; [half_lia|].
  rewrite of_nat_half, (elapses_at_ok _ _ _ _ H Hq). bind_red.
  destruct (Z.ltb_spec (key s t) (key s q)) as [Hlt|Hge].
  - assert (0 < p)%nat as Hp0 by (destruct p; [cbn in Hq; naive_solver lia|lia]).
    eapply returns_seq; [apply (up_loop_ok _ s hs p t q); try done; [|lia]|].
    + intros i b Hi Ei Hb. pose proof (al_skip _ _ _ Hal i q b Hi Hp0 Ei Hq Hb). lia.
    + intros [i s'] (hs' & j & -> & Hs & Ho & Hj & Htop). exists hs'. split_and!; [done..|].
      intros Hr _. apply Htop. destruct j; [cbn in Hr; done|lia].
  - eapply returns_seq; [apply (down_loop_ok _ s hs p t); try done; [naive_solver|list_lia]|].
    intros s' (hs' & Hs & Ho & Htop). exists hs'. naive_solver.
Qed.

Lemma hwf_inj s hs (i j : nat) id : hwf s hs -> hs !! i = Some id -> hs !! j = Some id -> i = j.
Proof.
  intros H Hi Hj. destruct (hw_in _ _ H _ _ Hi) as (t & Ht & E), (hw_in _ _ H _ _ Hj) as (t' & Ht' & E').
  rewrite Ht in Ht'. injection Ht' as <-. lia.
Qed.

Lemma hwf_last_not_in s hs id : hwf s (hs ++ [id]) -> id ∉ hs.
Proof.
  intros H [i Hi]%list_elem_of_lookup. pose proof (lookup_lt_Some _ _ _ Hi).
  assert (i = length hs); [|lia]. eapply (hwf_inj _ _ _ _ _ H); [by apply lookup_app_l_Some|].
  by rewrite lookup_app_r, Nat.sub_diag.
Qed.

(** Dropping the last timer of the table. *)
Lemma hwf_shrink s hs id :
  hwf s (hs ++ [id]) ->
  returns (s ← put_index s id (-1);
           Ok (set_heap s (mkHeap (htab (heap s)) (hlen (heap s) - 1) (hsize (heap s)))))
    (fun s' => hwf s' hs /\ kept s s').
Proof.
  intros H. assert ((hs ++ [id]) !! length hs = Some id) as Hid by (by rewrite lookup_app_r, Nat.sub_diag).
  destruct (hw_in _ _ H _ _ Hid) as (t & Ht & E).
  destruct (put_index_ok s id t (-1) Ht) as [-> K]. cbn [returns]. bind_red. split; [|done].
  pose proof (hwf_last_not_in _ _ _ H) as Hn.
  split; cbn.
  - destruct (hw_tab _ _ H) as [junk Hj]. exists (Some id :: junk). rewrite Hj, fmap_app, <- app_assoc. done.
  - rewrite (hw_len _ _ H). list_lia.
  - apply (hw_size _ _ H).
  - intros i x Hx. assert (id <> x) by (intros <-; apply Hn; by eapply list_elem_of_lookup_2).
    rewrite lookup_insert_ne by done. apply (hw_in _ _ H). by apply lookup_app_l_Some.
  - intros x u [[<- <-]|[Hne Hx]]%lookup_insert_Some; [by right|].
    destruct (hw_out _ _ H _ _ Hx) as [Hin|]; [|by right]. left. set_solver.
Qed.

(** The table once the timer at [p] was exchanged with the last one and dropped. *)
Definition deleted (p : nat) (hs : list nat) : list nat :=
  take (length hs - 1) (swapped p (length hs - 1) hs).

Lemma deleted_app p hs id :
  hs !! p = Some id -> swapped p (length hs - 1) hs = deleted p hs ++ [id].
Proof.
  intros Hp. pose proof (lookup_lt_Some _ _ _ Hp). unfold deleted. set (n := (length hs - 1)%nat).
  destruct (lookup_lt_is_Some_2 hs n) as [l Hl]; [lia|].
  pose proof (swapped_at _ _ _ _ _ n Hp Hl) as Hn. rewrite decide_True in Hn by done.
  rewrite <- (take_drop n (swapped p n hs)) at 1. f_equal.
  rewrite (drop_S _ _ _ Hn), drop_ge; [done|]. rewrite length_swapped. lia.
Qed.

Lemma length_deleted p hs : length (deleted p hs) = (length hs - 1)%nat.
Proof. unfold deleted. rewrite length_take, length_swapped. lia. Qed.

Lemma deleted_lookup p hs (i : nat) x :
  (p < length hs)%nat -> i <> p -> deleted p hs !! i = Some x -> hs !! i = Some x.
Proof.
  intros Hp Hi Hx. pose proof (lookup_lt_Some _ _ _ Hx) as Hil. rewrite length_deleted in Hil.
  unfold deleted in Hx. rewrite lookup_take_lt in Hx by done.
  destruct (lookup_lt_is_Some_2 _ _ Hp) as [a Ha], (lookup_lt_is_Some_2 hs (length hs - 1)) as [b Hb]; [lia|].
  rewrite (swapped_at _ _ _ _ _ _ Ha Hb) in Hx. by rewrite !decide_False in Hx by lia.
Qed.

Lemma deleted_almost k p hs : (p < length hs)%nat -> almost k hs p -> almost k (deleted p hs) p.
Proof.
  intros Hp Hal. split.
  - intros i a b Hi Hip Hip2 Ha Hb. apply deleted_lookup in Ha, Hb; try done. by eapply (al_other _ _ _ Hal i).
  - intros i a b Hi Hp0 E Ha Hb. apply deleted_lookup in Ha, Hb; [|half_lia..].
    by eapply (al_skip _ _ _ Hal i).
Qed.

Lemma deleted_last k hs :
  almost k hs (length hs - 1) -> (0 < length hs)%nat -> ordered k (deleted (length hs - 1) hs).
Proof.
  intros Hal Hl i a b Hi Ha Hb. pose proof (lookup_lt_Some _ _ _ Hb) as Hil. rewrite length_deleted in Hil.
  apply deleted_lookup in Ha, Hb; [|half_lia..].
  eapply (al_other _ _ _ Hal i a b); try done; half_lia.
Qed.

Lemma heap_delete_ok s hs (p : nat) id :
  hwf s hs -> hs !! p = Some id -> almost (key s) hs p ->
  returns (heap_delete s (Z.of_nat p)) (fun s' => exists hs',
    hwf s' hs' /\ kept s s' /\ ordered (key s) hs' /\ (forall x, x ∈ hs' <-> x ∈ hs /\ x <> id)).
Proof.
  intros H Hp Hal. unfold heap_delete. rewrite (hw_len _ _ H). pose proof (lookup_lt_Some _ _ _ Hp) as Hlt.
  do 2 (apply returns_assert; [list_lia|]). rewrite (tab_load_ok _ _ _ _ H Hp). bind_red.
  destruct (get_timer_ok _ _ _ _ H Hp) as (tt & -> & _ & E & _). bind_red.
  apply returns_assert; [lia|]. cbn zeta.
  replace (zlen hs - 1) with (Z.of_nat (length hs - 1)) by list_lia.
  eapply returns_seq; [apply (heap_swap_ok s hs p (length hs - 1) H Hlt); lia|]. intros s1 [H1 K1].
  rewrite (deleted_app _ _ _ Hp) in H1. pose proof (hwf_last_not_in _ _ _ H1) as Hni.
  assert (Hin : forall x, x ∈ deleted p hs <-> x ∈ hs /\ x <> id).
  { intros x. rewrite <- (swapped_elem p (length hs - 1) hs), (deleted_app _ _ _ Hp). set_solver. }
  assert ((deleted p hs ++ [id]) !! (length hs - 1)%nat = Some id) as Hn.
  { rewrite lookup_app_r; rewrite length_deleted; [|lia]. by rewrite Nat.sub_diag. }
  rewrite (tab_load_ok _ _ _ _ H1 Hn). bind_red. pose proof (hwf_shrink _ _ _ H1) as Hsh.
  destruct (put_index s1 id (-1)) as [s2| |]; [|done..].
  cbn [returns mbind res_bind] in Hsh |- *. destruct Hsh as [H2 K2]. set (s3 := set_heap _ _) in *.
  assert (kept s s3) as K3 by (by transitivity s1).
  destruct (Z.eqb_spec (Z.of_nat p) (Z.of_nat (length hs - 1))) as [El|El].
  - exists (deleted p hs). split_and!; try done. assert (p = length hs - 1)%nat as -> by lia.
    apply deleted_last; [done|lia].
  - eapply returns_seq; [apply (heap_adjust_ok s3 (deleted p hs) p H2)|].
    + rewrite length_deleted. lia.
    + destruct (deleted_almost _ _ _ Hlt Hal); split; intros; rewrite !(kept_key _ _ _ K3); eauto.
    + intros [r s4] (hs' & [H4 K4 He _] & Ho & _). exists hs'. split_and!; [done|by transitivity s3| |].
      * by eapply sifted_ordered.
      * intros x. by rewrite He.
Qed.

Lemma heap_insert_ok s hs id t :
  hwf s hs -> timers s !! id = Some t -> id ∉ hs -> ordered (key s) hs ->
  returns (heap_insert s id) (fun s' => exists hs',
    hwf s' hs' /\ kept s s' /\ ordered (key s) hs' /\ (forall x, x ∈ hs' <-> x = id \/ x ∈ hs)).
Proof.
  intros H Ht Hn Ho. unfold heap_insert. rewrite (hw_len _ _ H), (hw_size _ _ H). cbn zeta.
  destruct (hw_tab _ _ H) as [junk Hj].
  assert (exists c junk', htab (if zlen (htab (heap s)) <? zlen hs + 1
     then mkHeap (htab (heap s) ++ replicate (Z.to_nat (zlen hs + 1) - length (htab (heap s))) None) (zlen hs + 1) (zlen hs + 1)
     else mkHeap (htab (heap s)) (zlen hs + 1) (zlen (htab (heap s)))) = (Some <$> hs) ++ c :: junk') as (c & junk' & Etab).
  { rewrite Hj. destruct (Z.ltb_spec (zlen ((Some <$> hs) ++ junk)) (zlen hs + 1)) as [Hlt|Hge]; cbn [htab].
    - destruct junk; [|list_lia]. exists None, []. rewrite app_nil_r. do 2 f_equal.
      replace (_ - _)%nat with 1%nat by list_lia. done.
    - destruct junk as [|c junk]; [list_lia|]. by exists c, junk. }
  set (h := if _ <? _ then _ else _) in *.
  assert (hlen h = zlen hs + 1) as Ehl by (unfold h; by destruct (_ <? _)).
  assert (hsize h = zlen (htab h)) as Ehs.
  { unfold h. destruct (Z.ltb_spec (zlen (htab (heap s))) (zlen hs + 1)); cbn; [list_lia|done]. }
  replace (zlen hs + 1 - 1) with (Z.of_nat (length hs)) by list_lia.
  assert (tab_store (htab h) (Z.of_nat (length hs)) id = Ok ((Some <$> hs ++ [id]) ++ junk')) as ->.
  { rewrite Etab. unfold tab_store. destruct (Z.leb_spec 0 (Z.of_nat (length hs))); [|lia].
    destruct (Z.ltb_spec (Z.of_nat (length hs)) (zlen ((Some <$> hs) ++ c :: junk'))); [|list_lia].
    cbn [andb]. f_equal. rewrite Nat2Z.id, insert_app_r_alt by (list_len; lia).
    rewrite length_fmap, Nat.sub_diag, fmap_app, <- app_assoc. done. }
  bind_red. set (s1 := set_heap _ _).
  destruct (put_index_ok s1 id t (Z.of_nat (length hs)) Ht) as [-> K1]. bind_red.
  set (s2 := set_timer _ _ _) in *. assert (kept s s2) as K by (exact K1).
  assert (hwf s2 (hs ++ [id])) as H2.
  { split; cbn.
    - by exists junk'.
    - rewrite Ehl. list_lia.
    - rewrite Ehs, Etab. rewrite fmap_app. list_lia.
    - intros i x Hx. apply lookup_app_Some in Hx as [Hx|[Hi Hx]].
      + rewrite lookup_insert_ne; [by apply (hw_in _ _ H)|].
        intros <-. apply Hn. by eapply list_elem_of_lookup_2.
      + apply list_lookup_singleton_Some in Hx as [Hi0 <-]. rewrite lookup_insert_eq.
        eexists; split; [done|]. cbn. lia.
    - intros x u [[<- <-]|[Hne Hx]]%lookup_insert_Some; [left; set_solver|].
      destruct (hw_out _ _ H _ _ Hx); [left; set_solver|by right]. }
  eapply returns_seq; [apply (heap_adjust_ok s2 (hs ++ [id]) (length hs) H2)|].
  - list_lia.
  - split.
    + intros i a b Hi Hi1 Hi2 Ha Hb. rewrite !(kept_key _ _ _ K). pose proof (lookup_lt_Some _ _ _ Hb).
      list_len. rewrite lookup_app_l in Ha, Hb by half_lia. eauto.
    + intros i a b Hi Hp E Ha Hb. apply lookup_lt_Some in Hb. list_len. half_lia.
  - intros [r s3] (hs' & [H3 K3 He _] & Ho' & _). exists hs'. split_and!; [done|by transitivity s2| |].
    + by eapply sifted_ordered.
    + intros x. rewrite He. set_solver.
Qed.
End heap_proofs.
