(* ===== verification/GwTimer.v ===== *)
(** * Timers: starting, stopping and elapsing

    Models the rest of src/gwlib/gw-timer.c.  Every operation holds the lock of
    the set from its first to its last access and is one step; the thread that
    watches the heap takes one step per round.  The current time is an argument.

    A callback function may call the operations for callbacks on the timers of
    the set.  What the functions do is a parameter: [script cb d] is the list of
    the calls that function number [cb] makes when it gets the data [d]. *)

From Stdlib Require Import ZifyNat Sorted.
From stdpp Require Import gmap.
From S2P Require Import Prelude Octstr OctstrFormat GwList GwTimerHeap.

(** [gw_timerset_create]: the lists are those of the caller. *)
Definition gw_timerset_create (outs : gmap nat (List Z)) : Timerset :=
  mkTimerset false heap_create ∅ outs false.

Definition gw_timerset_count (s : Timerset) : Z := hlen (heap s).

(** [abort_elapsed], and what the variants do that rely on the event having been
    consumed. *)
Definition abort_elapsed (s : Timerset) (id : nat) : res Timerset :=
  t ← get_timer s id;
  if elapsed_data t =? 0 then Ok s
  else
    s ← match output t with
        | Some o =>
            l ← get_output s o;
            r ← gwlist_delete_equal l (Z.eqb (elapsed_data t));
            Ok (set_output s o r.2)
        | None => Ok s
        end;
    Ok (set_timer s id (set_elapsed_data t 0)).

Definition forget_elapsed (s : Timerset) (id : nat) : res Timerset :=
  t ← get_timer s id; Ok (set_timer s id (set_elapsed_data t 0)).

(** [gw_timer_create]; [id] is the pointer that [gw_malloc] returned. *)
Definition gw_timer_create (s : Timerset) (id : nat) (out cb : option nat) : res Timerset :=
  let s := set_timer s id (mkTimer out cb (-1) 0 0 (-1)) in
  match out with
  | Some o => l ← get_output s o; Ok (set_output s o (gwlist_add_producer l))
  | None => Ok s
  end.

(** The common body of the functions that start a timer: [settle] deals with
    the event of a timer that has elapsed.  [interval] is an [int]. *)
Definition restart_timer (s : Timerset) (id : nat) (t : Timer) (e : Z) : res (bool * Timerset) :=
  let wakeup := (e <? elapses t) && (tindex t =? 0) in
  let s := set_timer s id (set_elapses t e) in
  assert: 0 <=? tindex t;
  id' ← tab_load (htab (heap s)) (tindex t);
  assert: bool_decide (id' = id);
  r ← heap_adjust s (tindex t);
  Ok (wakeup || r.1, r.2).

Definition activate (settle : Timerset -> nat -> res Timerset) (s : Timerset) (id : nat) (e : Z)
  : res (bool * Timerset) :=
  s ← settle s id;
  t ← get_timer s id;
  assert: tindex t <? 0;
  s ← heap_insert (set_timer s id (set_elapses t e)) id;
  t ← get_timer s id;
  Ok (tindex t =? 0, s).

Definition start_with (settle : Timerset -> nat -> res Timerset)
    (s : Timerset) (id : nat) (now interval d : Z) : res Timerset :=
  t ← get_timer s id;
  let e := swrap 32 (interval + now) in
  r ← (if 0 <? elapses t then restart_timer s id t e else activate settle s id e);
  s ← (if d =? 0 then Ok r.2
       else t ← get_timer r.2 id; Ok (set_timer r.2 id (set_tdata t d)));
  Ok (if r.1 : bool then gwthread_wakeup s else s).

Definition gw_timer_start := start_with abort_elapsed.
Definition gw_timer_elapsed_start := start_with forget_elapsed.
Definition gw_timer_elapsed_start_cb := start_with forget_elapsed.

(** The common body of the functions that stop a timer. *)
Definition deactivate (s : Timerset) (id : nat) (t : Timer) : res Timerset :=
  let s := set_timer s id (set_elapses t (-1)) in
  id' ← tab_load (htab (heap s)) (tindex t);
  assert: bool_decide (id' = id);
  heap_delete s (tindex t).

Definition stop_with (settle : Timerset -> nat -> res Timerset) (s : Timerset) (id : nat) : res Timerset :=
  t ← get_timer s id;
  s ← (if 0 <? elapses t then deactivate s id t else Ok s);
  settle s id.

Definition gw_timer_stop := stop_with abort_elapsed.
Definition gw_timer_elapsed_stop := stop_with forget_elapsed.
Definition gw_timer_elapsed_stop_cb := stop_with forget_elapsed.

(** The common body of the functions that destroy a timer. *)
Definition destroy_with (stop : Timerset -> nat -> res Timerset) (s : Timerset) (id : nat) : res Timerset :=
  s ← stop s id;
  t ← get_timer s id;
  s ← match output t with
      | Some o => l ← get_output s o; l ← gwlist_remove_producer l; Ok (set_output s o l)
      | None => Ok s
      end;
  Ok (free_timer s id).

Definition gw_timer_destroy := destroy_with gw_timer_stop.
Definition gw_timer_elapsed_destroy := destroy_with gw_timer_elapsed_stop.
Definition gw_timer_elapsed_destroy_cb := destroy_with gw_timer_elapsed_stop_cb.

(** [gw_timer_break]: the timers it returns. *)
Fixpoint break_loop (s : Timerset) (ret : List nat) (fuel : nat) : res (List nat * Timerset) :=
  match fuel with
  | O => Undef
  | S fuel =>
      if hlen (heap s) <=? 0 then Ok (ret, s)
      else
        id ← tab_load (htab (heap s)) 0;
        ret ← gwlist_append ret id;
        t ← get_timer s id;
        s ← (if 0 <? elapses t then deactivate s id t else Ok s);
        s ← abort_elapsed s id;
        break_loop s ret fuel
  end.

Definition gw_timer_break (s : Timerset) : res (option (List nat) * Timerset) :=
  if hlen (heap s) =? 0 then Ok (None, s)
  else
    r ← break_loop s gwlist_create (S (Z.to_nat (hlen (heap s))));
    Ok (Some r.1, r.2).

(** [gw_timerset_destroy] and [gw_timerset_elapsed_destroy], until the thread is
    told to end. *)
Fixpoint stop_all (stop : Timerset -> nat -> res Timerset) (s : Timerset) (fuel : nat) : res Timerset :=
  match fuel with
  | O => Undef
  | S fuel =>
      if hlen (heap s) <=? 0 then Ok s
      else
        id ← tab_load (htab (heap s)) 0;
        s ← stop s id;
        stop_all stop s fuel
  end.

Definition destroy_set (stop : Timerset -> nat -> res Timerset) (s : Timerset) : res Timerset :=
  s ← stop_all stop s (S (Z.to_nat (hlen (heap s))));
  Ok (gwthread_wakeup (mkTimerset true (heap s) (timers s) (outputs s) (woken s))).

Definition gw_timerset_destroy := destroy_set gw_timer_stop.
Definition gw_timerset_elapsed_destroy := destroy_set gw_timer_elapsed_destroy.

Definition gw_timer_data (s : Timerset) (id : nat) : res Z :=
  t ← get_timer s id; Ok (data t).

(** ** The thread *)

Inductive cb_op :=
| CbStart (id : nat) (now interval d : Z)
| CbStop (id : nat)
| CbDestroy (id : nat).

Definition run_cb_op (s : Timerset) (op : cb_op) : res Timerset :=
  match op with
  | CbStart id now interval d => gw_timer_elapsed_start_cb s id now interval d
  | CbStop id => gw_timer_elapsed_stop_cb s id
  | CbDestroy id => gw_timer_elapsed_destroy_cb s id
  end.

Fixpoint run_cb_ops (s : Timerset) (ops : list cb_op) : res Timerset :=
  match ops with
  | [] => Ok s
  | op :: ops => s ← run_cb_op s op; run_cb_ops s ops
  end.

(** [elapse_timer] up to the call of the callback function. *)
Definition put_event (s : Timerset) (id : nat) : res Timerset :=
  t ← get_timer s id;
  assert: elapsed_data t =? 0;
  let s := set_timer s id (set_elapses (set_elapsed_data t (data t)) (-1)) in
  match output t with
  | Some o => l ← get_output s o; l ← gwlist_produce l (data t); Ok (set_output s o l)
  | None => Ok s
  end.

(** [gwthread_sleep] of gwthread-pthread.c turns the seconds into milliseconds for
    [poll]; a value that an [int] does not hold is undefined behaviour. *)
Definition poll_timeout (seconds : Z) : res Z :=
  let milliseconds := seconds * 1000 in
  if (milliseconds <? - 2 ^ 31) || (2 ^ 31 <=? milliseconds) then Undef
  else Ok (if milliseconds <? 0 then -1 else milliseconds).

Section thread.
Variable script : nat -> Z -> list cb_op.

Definition elapse_timer (s : Timerset) (id : nat) : res Timerset :=
  s ← put_event s id;
  t ← get_timer s id;
  match callback t with
  | Some cb => run_cb_ops s (script cb (elapsed_data t))
  | None => Ok s
  end.

(** The inner loop of [watch_timers]; the timers it elapses are reported, in
    order. *)
Fixpoint watch_loop (s : Timerset) (now : Z) (fuel : nat) : res (list nat * Timerset) :=
  match fuel with
  | O => Undef
  | S fuel =>
      if hlen (heap s) <=? 0 then Ok ([], s)
      else
        id ← tab_load (htab (heap s)) 0;
        t ← get_timer s id;
        if elapses t <=? now then
          s ← heap_delete s 0;
          s ← elapse_timer s id;
          r ← watch_loop s now fuel;
          Ok (id :: r.1, r.2)
        else Ok ([], s)
  end.

(** One round of [watch_timers], from the return of [gwthread_sleep] (which
    empties the pipe) to the [poll] in the next call of it, for the number of
    milliseconds returned. *)
Definition watch_round (s : Timerset) (now : Z) : res (list nat * Z * Timerset) :=
  let s := mkTimerset (stopping s) (heap s) (timers s) (outputs s) false in
  r ← watch_loop s now (S (Z.to_nat (hlen (heap s))));
  if hlen (heap r.2) =? 0 then
    milliseconds ← poll_timeout 1000000;
    Ok (r.1, milliseconds, r.2)
  else
    top_time ← elapses_at r.2 0;
    milliseconds ← poll_timeout (top_time - now);
    Ok (r.1, milliseconds, r.2).
End thread.

(** ** What a set of timers is

    Without the heap: the timers (their places left out) and the contents of the
    output lists. *)

Record tstate := mkTstate {
  a_timers : gmap nat Timer;
  a_outs : gmap nat (list Z)
}.

Definition upd (a : tstate) (id : nat) (f : Timer -> Timer) : tstate :=
  mkTstate (alter f id (a_timers a)) (a_outs a).

Definition upd_out (a : tstate) (o : option nat) (f : list Z -> list Z) : tstate :=
  match o with
  | Some o => mkTstate (a_timers a) (alter f o (a_outs a))
  | None => a
  end.

Definition active (t : Timer) : bool := 0 <? elapses t.

Definition spec_abort (a : tstate) (id : nat) : tstate :=
  match a_timers a !! id with
  | Some t =>
      if elapsed_data t =? 0 then a
      else upd (upd_out a (output t) (List.filter (fun d => negb (elapsed_data t =? d)))) id
             (fun t => set_elapsed_data t 0)
  | None => a
  end.

Definition spec_forget (a : tstate) (id : nat) : tstate := upd a id (fun t => set_elapsed_data t 0).

Definition spec_start (settle : tstate -> nat -> tstate) (a : tstate) (id : nat) (e d : Z) : tstate :=
  let a := match a_timers a !! id with
           | Some t => if active t then a else settle a id
           | None => a
           end in
  upd a id (fun t => let t := set_elapses t e in if d =? 0 then t else set_tdata t d).

Definition spec_stop (settle : tstate -> nat -> tstate) (a : tstate) (id : nat) : tstate :=
  settle (upd a id (fun t => if active t then set_elapses t (-1) else t)) id.

Definition spec_free (a : tstate) (id : nat) : tstate := mkTstate (delete id (a_timers a)) (a_outs a).

Definition spec_elapse (a : tstate) (id : nat) : tstate :=
  match a_timers a !! id with
  | Some t => upd (upd_out a (output t) (fun xs => xs ++ [data t])) id
                (fun t => set_elapses (set_elapsed_data t (data t)) (-1))
  | None => a
  end.

Definition spec_create (a : tstate) (id : nat) (out cb : option nat) : tstate :=
  mkTstate (<[id := mkTimer out cb (-1) 0 0 (-1)]> (a_timers a)) (a_outs a).

Definition spec_cb_op (a : tstate) (op : cb_op) : tstate :=
  match op with
  | CbStart id now interval d => spec_start spec_forget a id (swrap 32 (interval + now)) d
  | CbStop id => spec_stop spec_forget a id
  | CbDestroy id => spec_free (spec_stop spec_forget a id) id
  end.

(** The timers that use an output list. *)
Definition users (m : gmap nat Timer) (o : nat) : gset nat :=
  dom (filter (fun p => output p.2 = Some o) m).

Lemma elem_of_users m o id : id ∈ users m o <-> exists t, m !! id = Some t /\ output t = Some o.
Proof.
  unfold users. rewrite elem_of_dom. unfold is_Some. setoid_rewrite map_lookup_filter_Some. naive_solver.
Qed.

Lemma users_alter m o id f : (forall t, output (f t) = output t) -> users (alter f id m) o = users m o.
Proof.
  intros Hf. apply set_eq. intros x. rewrite !elem_of_users. destruct (decide (id = x)) as [->|].
  - rewrite lookup_alter_eq. destruct (m !! x) as [t|]; cbn; [|naive_solver].
    split; intros (u & [= <-] & E); eexists; (split; [done|]); by rewrite ?Hf in *.
  - by rewrite lookup_alter_ne.
Qed.

(** [arep s a]: the timers and lists of [s] are those of [a]; every list has at
    least as many producers as it has timers. *)
Definition out_ok (m : gmap nat Timer) (o : nat) (l : List Z) (xs : list Z) : Prop :=
  lrepr l xs /\ Z.of_nat (size (users m o)) <= num_producers l.

Record arep (s : Timerset) (a : tstate) : Prop := {
  ar_core : core s = a_timers a;
  ar_outs : map_Forall2 (out_ok (a_timers a)) (outputs s) (a_outs a);
  ar_out : forall id t o, a_timers a !! id = Some t -> output t = Some o -> is_Some (a_outs a !! o)
}.

Definition akey (a : tstate) (id : nat) : Z :=
  match a_timers a !! id with Some t => elapses t | None => 0 end.

Lemma arep_key s a id : arep s a -> key s id = akey a id.
Proof. intros H. unfold key, akey. by rewrite (ar_core _ _ H). Qed.

Lemma kept_arep s s' a : kept s s' -> arep s a -> arep s' a.
Proof. intros (E & Eo & _) [H1 H2 H3]. split; [congruence|by rewrite Eo|done]. Qed.

Lemma arep_timer s a id t :
  arep s a -> a_timers a !! id = Some t -> exists t', timers s !! id = Some t' /\ erase t' = t.
Proof.
  intros H Ht. rewrite <- (ar_core _ _ H) in Ht. unfold core in Ht. rewrite lookup_fmap in Ht.
  destruct (timers s !! id) as [t'|]; [|done]. injection Ht as <-. eauto.
Qed.

Lemma arep_lookup s a id t : arep s a -> timers s !! id = Some t -> a_timers a !! id = Some (erase t).
Proof. intros H Ht. rewrite <- (ar_core _ _ H). unfold core. by rewrite lookup_fmap, Ht. Qed.

(** Changing a timer but for its place and its output list. *)
Lemma set_timer_ok s a hs id t t' f :
  arep s a -> hwf s hs -> timers s !! id = Some t ->
  (forall u, output (f u) = output u) -> erase t' = f (erase t) -> tindex t' = tindex t ->
  arep (set_timer s id t') (upd a id f) /\ hwf (set_timer s id t') hs.
Proof.
  intros H Hw Ht Hout He Hi. pose proof (arep_lookup _ _ _ _ H Ht) as Ha. split; split; cbn.
  - unfold core. cbn. rewrite fmap_insert, He. pose proof (ar_core _ _ H) as E. unfold core in E. rewrite E.
    apply map_eq. intros j. destruct (decide (id = j)) as [->|].
    + by rewrite lookup_insert_eq, lookup_alter_eq, Ha.
    + by rewrite lookup_insert_ne, lookup_alter_ne.
  - eapply map_Forall2_impl; [apply (ar_outs _ _ H)|]. intros o l xs [Hl Hn]. split; [done|].
    by rewrite users_alter.
  - intros j u o Hj Ho. apply lookup_alter_Some in Hj as [(-> & v & Hv & ->)|[? Hj]].
    + rewrite Hout in Ho. by eapply (ar_out _ _ H).
    + by eapply (ar_out _ _ H).
  - apply (hw_tab _ _ Hw).
  - apply (hw_len _ _ Hw).
  - apply (hw_size _ _ Hw).
  - intros i x Hx. destruct (hw_in _ _ Hw _ _ Hx) as (u & Hu & E).
    destruct (decide (id = x)) as [->|]; [|rewrite lookup_insert_ne by done; eauto].
    rewrite lookup_insert_eq. exists t'. split; [done|]. rewrite Hu in Ht. injection Ht as ->. by rewrite Hi.
  - intros x u [[<- <-]|[Hne Hx]]%lookup_insert_Some; [rewrite Hi|]; by eapply (hw_out _ _ Hw).
Qed.

(** Changing an output list. *)
Lemma get_output_ok s a id t o :
  arep s a -> timers s !! id = Some t -> output t = Some o ->
  exists l xs, get_output s o = Ok l /\ outputs s !! o = Some l /\ a_outs a !! o = Some xs /\ out_ok (a_timers a) o l xs.
Proof.
  intros H Ht Ho. pose proof (arep_lookup _ _ _ _ H Ht) as Ha.
  destruct (ar_out _ _ H _ _ _ Ha Ho) as [xs Hxs]. pose proof (ar_outs _ _ H o) as R. rewrite Hxs in R.
  unfold get_output. destruct (outputs s !! o) as [l|]; inversion R; subst. eauto 10.
Qed.

Lemma set_output_ok s a hs o l' xs f :
  arep s a -> hwf s hs -> a_outs a !! o = Some xs -> out_ok (a_timers a) o l' (f xs) ->
  arep (set_output s o l') (upd_out a (Some o) f) /\ hwf (set_output s o l') hs.
Proof.
  intros H [H1 H2 H3 H4 H5] Hxs Hok. split; [|by split].
  split; cbn; [apply (ar_core _ _ H)| |].
  - assert (alter f o (a_outs a) = <[o := f xs]> (a_outs a)) as ->.
    { apply map_eq. intros j. destruct (decide (o = j)) as [->|].
      - by rewrite lookup_insert_eq, lookup_alter_eq, Hxs.
      - by rewrite lookup_insert_ne, lookup_alter_ne. }
    by apply map_Forall2_insert_2; [|apply (ar_outs _ _ H)].
  - intros j u o' Hj Ho. apply lookup_alter_is_Some. by eapply (ar_out _ _ H).
Qed.

(** The two ways of dealing with the event of a timer that has elapsed. *)
Class Settles (settle : Timerset -> nat -> res Timerset) (spec : tstate -> nat -> tstate) : Prop := {
  settle_ok s a hs id t : arep s a -> hwf s hs -> timers s !! id = Some t ->
    returns (settle s id) (fun s' => arep s' (spec a id) /\ hwf s' hs /\ woken s' = woken s);
  settle_timers a id : a_timers (spec a id) = alter (fun t => set_elapsed_data t 0) id (a_timers a)
}.

Lemma get_timer_eq s id t : timers s !! id = Some t -> get_timer s id = Ok t.
Proof. intros H. unfold get_timer. by rewrite H. Qed.

#[export] Instance forget_settles : Settles forget_elapsed spec_forget.
Proof.
  split; [|done]. intros s a hs id t H Hw Ht. unfold forget_elapsed. rewrite (get_timer_eq _ _ _ Ht).
  cbn [returns mbind res_bind].
  destruct (set_timer_ok s a hs id t (set_elapsed_data t 0) (fun t => set_elapsed_data t 0)); done.
Qed.

#[export] Instance abort_settles : Settles abort_elapsed spec_abort.
Proof.
  split.
  - intros s a hs id t H Hw Ht. unfold abort_elapsed, spec_abort.
    rewrite (get_timer_eq _ _ _ Ht), (arep_lookup _ _ _ _ H Ht). bind_red. cbn [erase set_index elapsed_data output].
    destruct (Z.eqb_spec (elapsed_data t) 0) as [E|E]; [done|].
    destruct (output t) as [o|] eqn:Ho; bind_red.
    + destruct (get_output_ok _ _ _ _ _ H Ht Ho) as (l & xs & -> & _ & Hxs & Hl & Hn). bind_red.
      unfold gwlist_delete_equal. apply returns_bind.
      eapply returns_seq; [apply (gwlist_delete_matching_ok l xs _ (Z.eqb (elapsed_data t)) Hl), decides_pure|].
      intros [c l'] (_ & Hl' & Hp & _). cbn [returns snd mbind res_bind].
      destruct (set_output_ok s a hs o l' xs (List.filter (fun d => negb (elapsed_data t =? d)))) as [H1 Hw1]; try done.
      { split; [done|]. by rewrite Hp. }
      destruct (set_timer_ok _ _ hs id t (set_elapsed_data t 0) (fun t => set_elapsed_data t 0) H1 Hw1 Ht); done.
    + destruct (set_timer_ok _ _ hs id t (set_elapsed_data t 0) (fun t => set_elapsed_data t 0) H Hw Ht); done.
  - intros a id. unfold spec_abort. destruct (a_timers a !! id) as [t|] eqn:Ht.
    + destruct (Z.eqb_spec (elapsed_data t) 0) as [E|E]; [|by destruct (output t)].
      symmetry. apply map_eq. intros j. destruct (decide (id = j)) as [->|]; [|by rewrite lookup_alter_ne].
      rewrite lookup_alter_eq, Ht. cbn. unfold set_elapsed_data. rewrite <- E. by destruct t.
    + apply map_eq. intros j. destruct (decide (id = j)) as [->|]; [|by rewrite lookup_alter_ne].
      by rewrite lookup_alter_eq, Ht.
Qed.

(** ** The invariant

    The heap holds exactly the active timers, in order, and an active timer has
    no event pending. *)
Definition live (a : tstate) (hs : list nat) : Prop :=
  forall id t, a_timers a !! id = Some t ->
    (id ∈ hs <-> active t = true) /\ (active t = true -> elapsed_data t = 0).

Record trepr_in (s : Timerset) (a : tstate) (hs : list nat) : Prop := {
  tr_wf : hwf s hs;
  tr_ordered : ordered (akey a) hs;
  tr_rep : arep s a;
  tr_live : live a hs
}.

Definition trepr (s : Timerset) (a : tstate) : Prop := exists hs, trepr_in s a hs.

(** No active timer elapses before [dl]. *)
Definition later (a : tstate) (dl : Z) : Prop :=
  forall id t, a_timers a !! id = Some t -> active t = true -> dl <= elapses t.

Lemma akey_upd a id f x :
  akey (upd a id f) x = if decide (x = id) then match a_timers a !! id with Some t => elapses (f t) | None => 0 end
                        else akey a x.
Proof.
  unfold akey, upd. cbn. case_decide as E.
  - subst. rewrite lookup_alter_eq. by destruct (a_timers a !! id).
  - by rewrite lookup_alter_ne by done.
Qed.

Lemma almost_change (k k' : nat -> Z) hs p :
  ordered k hs -> (forall i x, i <> p -> hs !! i = Some x -> k' x = k x) -> almost k' hs p.
Proof.
  intros Ho Hk. pose proof (ordered_almost k hs p Ho) as [H1 H2].
  split; intros i a b Hi Hp E Ha Hb.
  - rewrite (Hk _ _ E Ha), (Hk _ _ Hp Hb). eauto.
  - rewrite (Hk (p / 2)%nat a), (Hk i b) by (done || zify; Z.to_euclidean_division_equations; lia). eauto.
Qed.

Lemma ordered_ext (k k' : nat -> Z) hs :
  (forall x, x ∈ hs -> k' x = k x) -> ordered k hs -> ordered k' hs.
Proof.
  intros Hk Ho i a b Hi Ha Hb. rewrite !Hk by (by eapply list_elem_of_lookup_2). eauto.
Qed.

Lemma later_key a hs s dl x : trepr_in s a hs -> later a dl -> x ∈ hs -> dl <= akey a x.
Proof.
  intros H Hl [i Hi]%list_elem_of_lookup. destruct (hw_in _ _ (tr_wf _ _ _ H) _ _ Hi) as (t & Ht & _).
  pose proof (arep_lookup _ _ _ _ (tr_rep _ _ _ H) Ht) as Ha. unfold akey. rewrite Ha.
  apply (Hl _ _ Ha). apply (tr_live _ _ _ H _ _ Ha). by eapply list_elem_of_lookup_2.
Qed.

(** What the two ways of starting a timer leave. *)
Definition started (s : Timerset) (a a' : tstate) (hs : list nat) (id : nat) (e : Z) (r : bool * Timerset) : Prop :=
  exists hs', hwf r.2 hs' /\ ordered (akey a') hs' /\ arep r.2 a' /\ woken r.2 = woken s /\
    (forall x, x ∈ hs' <-> x = id \/ x ∈ hs) /\
    (r.1 = false -> forall dl, later a dl -> dl <= e).

Lemma restart_timer_ok s a hs id t e :
  trepr_in s a hs -> timers s !! id = Some t -> active t = true ->
  returns (restart_timer s id t e) (started s a (upd a id (fun t => set_elapses t e)) hs id e).
Proof.
  intros H Ht Hact. destruct H as [Hw Ho Hr Hl] eqn:EH. clear EH.
  pose proof (arep_lookup _ _ _ _ Hr Ht) as Ha.
  assert (id ∈ hs) as Hin by (by apply (Hl _ _ Ha)).
  apply list_elem_of_lookup in Hin as [p Hp].
  destruct (hw_in _ _ Hw _ _ Hp) as (t' & Ht' & Ei). rewrite Ht in Ht'. injection Ht' as <-.
  unfold restart_timer. rewrite Ei. cbn zeta. set (s1 := set_timer _ _ _).
  destruct (set_timer_ok s a hs id t (set_elapses t e) (fun t => set_elapses t e)) as [Hr1 Hw1]; try done.
  set (a1 := upd a id _) in *.
  apply returns_assert; [lia|]. rewrite (tab_load_ok s1 hs p id Hw1 Hp). bind_red.
  apply returns_assert; [by apply bool_decide_eq_true|].
  pose proof (lookup_lt_Some _ _ _ Hp) as Hpl.
  assert (Ek : forall x, key s1 x = if decide (x = id) then e else akey a x).
  { intros x. rewrite (arep_key s1 a1 x Hr1). unfold a1. rewrite akey_upd, Ha. by case_decide. }
  eapply returns_seq; [apply (heap_adjust_ok s1 hs p Hw1 Hpl)|].
  - apply (almost_change (akey a)); [done|]. intros i x Hi Hx. rewrite Ek.
    rewrite decide_False; [done|]. intros ->. by apply Hi, (hwf_inj _ _ _ _ _ Hw Hx Hp).
  - intros [r s2] (hs' & [Hw2 K2 He _] & Ho2 & Htop). exists hs'. cbn [fst snd]. split_and!.
    + done.
    + eapply ordered_ext; [|exact Ho2]. intros x _. by rewrite <- (arep_key s1 a1 x Hr1).
    + by eapply kept_arep.
    + destruct K2 as (_ & _ & -> & _). done.
    + intros x. rewrite He. assert (id ∈ hs) by (by eapply list_elem_of_lookup_2). naive_solver.
    + intros Hf dl Hdl. apply orb_false_iff in Hf as [Hf1 ->].
      pose proof (Hdl _ _ Ha Hact) as Hd0. cbn in Hd0.
      destruct p as [|p]; [lia|].
      destruct (lookup_lt_is_Some_2 hs 0) as [y Hy]; [lia|].
      assert (id ∈ hs') as [j Hj]%list_elem_of_lookup by (apply He; by eapply list_elem_of_lookup_2).
      rewrite <- (Htop eq_refl ltac:(lia)) in Hy. pose proof (ordered_top _ _ _ _ _ Ho2 Hy Hj) as Hle.
      rewrite (Htop eq_refl ltac:(lia)) in Hy. rewrite !Ek, (decide_True (P := id = id)) in Hle by done.
      rewrite decide_False in Hle by (intros ->; pose proof (hwf_inj _ _ _ _ _ Hw Hy Hp); lia).
      pose proof (later_key a hs s dl y H Hdl ltac:(by eapply list_elem_of_lookup_2)). lia.
Qed.

Lemma alter_lookup_self {B} (m : gmap nat B) id x f : m !! id = Some x -> alter f id m !! id = Some (f x).
Proof. intros E. by rewrite lookup_alter_eq, E. Qed.

Lemma activate_ok settle spec `{!Settles settle spec} s a hs id t e :
  trepr_in s a hs -> timers s !! id = Some t -> active t = false ->
  returns (activate settle s id e) (started s a (upd (spec a id) id (fun t => set_elapses t e)) hs id e).
Proof.
  intros H Ht Hact. pose proof H as [Hw Ho Hr Hl]. pose proof (arep_lookup _ _ _ _ Hr Ht) as Ha.
  assert (id ∉ hs) as Hn by (intros Hin; apply (Hl _ _ Ha) in Hin; change (active t = true) in Hin; congruence).
  unfold activate. eapply returns_seq; [by apply (settle_ok s a hs id t)|]. intros s1 (Hr1 & Hw1 & Hwk1).
  pose proof (settle_timers (spec:=spec) a id) as Est.
  destruct (arep_timer s1 (spec a id) id (set_elapsed_data (erase t) 0) Hr1) as (t1 & Ht1 & Et1).
  { rewrite Est. by rewrite lookup_alter_eq, Ha. }
  rewrite (get_timer_eq _ _ _ Ht1). bind_red.
  apply returns_assert; [destruct (hw_out _ _ Hw1 _ _ Ht1) as [| ->]; done|].
  set (s2 := set_timer _ _ _). set (a2 := upd _ _ _).
  destruct (set_timer_ok s1 (spec a id) hs id t1 (set_elapses t1 e) (fun t => set_elapses t e)) as [Hr2 Hw2]; try done.
  fold s2 a2 in Hr2, Hw2.
  assert (Ek : forall x, akey a2 x = if decide (x = id) then e else akey a x).
  { intros x. unfold a2. rewrite akey_upd, Est, (alter_lookup_self _ _ _ _ Ha). case_decide; [done|].
    unfold akey. by rewrite Est, lookup_alter_ne. }
  eapply returns_seq; [apply (heap_insert_ok s2 hs id (set_elapses t1 e) Hw2); [|done|]|].
  - unfold s2. cbn. by rewrite lookup_insert_eq.
  - eapply ordered_ext; [|exact Ho]. intros x Hx. rewrite (arep_key s2 a2 x Hr2), Ek.
    rewrite decide_False; [done|]. by intros ->.
  - intros s3 (hs' & Hw3 & K3 & Ho3 & He).
    assert (id ∈ hs') as [j Hj]%list_elem_of_lookup by (apply He; auto).
    destruct (get_timer_ok _ _ _ _ Hw3 Hj) as (t3 & -> & _ & Hj3 & _). cbn [returns mbind res_bind].
    assert (ordered (akey a2) hs') as Ho4.
    { eapply ordered_ext; [|exact Ho3]. intros x _. by rewrite <- (arep_key s2 a2 x Hr2). }
    exists hs'. cbn [fst snd]. split_and!; try done.
    + by eapply kept_arep.
    + destruct K3 as (_ & _ & -> & _). done.
    + intros Hf dl Hdl. destruct (lookup_lt_is_Some_2 hs' 0) as [y Hy];
        [apply lookup_lt_Some in Hj; lia|].
      pose proof (ordered_top _ _ _ _ _ Ho4 Hy Hj) as Hle. rewrite !Ek, (decide_True (P := id = id)) in Hle by done.
      assert (y <> id) as Hyid by (intros ->; pose proof (hwf_inj _ _ _ _ _ Hw3 Hy Hj); lia).
      rewrite decide_False in Hle by done.
      assert (y ∈ hs) as Hyin.
      { assert (y ∈ hs') as Hy' by (by eapply list_elem_of_lookup_2). apply He in Hy'. naive_solver. }
      pose proof (later_key a hs s dl y H Hdl Hyin). lia.
Qed.

(** A pending deadline of the thread is early enough, or the thread was woken. *)
Definition awake (s : Timerset) (a : tstate) (dl : Z) : Prop := woken s = true \/ later a dl.

Definition set_start (e d : Z) (t : Timer) : Timer :=
  let t := set_elapses t e in if d =? 0 then t else set_tdata t d.

Lemma live_start a b hs hs' id u e d :
  live a hs -> (forall x, x ∈ hs' <-> x = id \/ x ∈ hs) -> 0 < e ->
  (forall j, j <> id -> a_timers b !! j = a_timers a !! j) -> a_timers b !! id = Some u -> elapsed_data u = 0 ->
  live (upd b id (set_start e d)) hs'.
Proof.
  intros Hl He Hpos Hb Hu Hz j t Hj. unfold upd in Hj. cbn in Hj.
  apply lookup_alter_Some in Hj as [(-> & v & Hv & ->)|[Hne Hj]].
  - rewrite Hu in Hv. injection Hv as <-. unfold set_start, active.
    split; [rewrite He|]; destruct (d =? 0); cbn; try done; split; intros; auto; lia.
  - rewrite Hb in Hj by done. destruct (Hl _ _ Hj) as [H1 H2]. split; [|done]. rewrite <- H1, He. naive_solver.
Qed.

Lemma later_start a b id u e d dl :
  later a dl -> dl <= e -> (forall j, j <> id -> a_timers b !! j = a_timers a !! j) ->
  a_timers b !! id = Some u -> later (upd b id (set_start e d)) dl.
Proof.
  intros Hl Hd Hb Hu j t Hj Hact. unfold upd in Hj. cbn in Hj.
  apply lookup_alter_Some in Hj as [(-> & v & Hv & ->)|[Hne Hj]].
  - unfold set_start. by destruct (d =? 0).
  - rewrite Hb in Hj by done. eauto.
Qed.

Lemma upd_upd a id f g h : (forall t, h t = g (f t)) -> upd (upd a id f) id g = upd a id h.
Proof.
  intros E. unfold upd. cbn. f_equal. apply map_eq. intros j.
  destruct (decide (id = j)) as [->|]; [|by rewrite !lookup_alter_ne].
  rewrite !lookup_alter_eq. destruct (a_timers a !! j); cbn; [by rewrite E|done].
Qed.

Lemma start_with_ok settle spec `{!Settles settle spec} s a id t now interval d :
  trepr s a -> a_timers a !! id = Some t -> 0 < swrap 32 (interval + now) ->
  returns (start_with settle s id now interval d) (fun s' =>
    trepr s' (spec_start spec a id (swrap 32 (interval + now)) d) /\
    forall dl, awake s a dl -> awake s' (spec_start spec a id (swrap 32 (interval + now)) d) dl).
Proof.
  intros [hs H] Ha He. set (e := swrap 32 (interval + now)) in *. pose proof H as [Hw Ho Hr Hl].
  destruct (arep_timer _ _ _ _ Hr Ha) as (t0 & Ht0 & <-).
  unfold start_with. fold e. rewrite (get_timer_eq _ _ _ Ht0). bind_red. cbn zeta.
  set (b := if active (erase t0) then a else spec a id).
  assert (spec_start spec a id e d = upd b id (set_start e d)) as ->.
  { unfold spec_start. by rewrite Ha. }
  assert (Hb : forall j, j <> id -> a_timers b !! j = a_timers a !! j).
  { intros j Hj. unfold b. destruct (active _); [done|]. by rewrite (settle_timers (spec:=spec)), lookup_alter_ne. }
  assert (exists u, a_timers b !! id = Some u /\ elapsed_data u = 0) as (u & Hu & Hz).
  { unfold b. destruct (active (erase t0)) eqn:Hact; [exists (erase t0); split; [done|by apply (Hl _ _ Ha)]|].
    rewrite (settle_timers (spec:=spec)), lookup_alter_eq, Ha. by eexists. }
  eapply (returns_seq _ _ (started s a (upd b id (fun t => set_elapses t e)) hs id e)).
  { unfold b. change (active (erase t0)) with (active t0).
    destruct (0 <? elapses t0) eqn:Hact; fold (active t0) in Hact; rewrite Hact;
      [by apply restart_timer_ok|by eapply activate_ok]. }
  intros [w s1] (hs' & Hw1 & Ho1 & Hr1 & Hwk1 & Hin & Hdl). cbn [fst snd] in *.
  eapply (returns_seq _ _ (fun s2 => hwf s2 hs' /\ arep s2 (upd b id (set_start e d)) /\ woken s2 = woken s)).
  - destruct (Z.eqb_spec d 0) as [->|Hd]; [split_and!; done|].
    assert (id ∈ hs') as [j Hj]%list_elem_of_lookup by (apply Hin; auto).
    destruct (hw_in _ _ Hw1 _ _ Hj) as (t1 & Ht1 & _). rewrite (get_timer_eq _ _ _ Ht1). cbn [returns mbind res_bind].
    destruct (set_timer_ok s1 _ hs' id t1 (set_tdata t1 d) (fun t => set_tdata t d) Hr1 Hw1 Ht1) as [Hr2 Hw2]; try done.
    split_and!; [done| |done]. erewrite upd_upd in Hr2; [exact Hr2|].
    intros v. unfold set_start. cbn. destruct (Z.eqb_spec d 0); done.
  - intros s2 (Hw2 & Hr2 & Hwk2). cbn [returns].
    assert (trepr (if w then gwthread_wakeup s2 else s2) (upd b id (set_start e d))) as Htr.
    { exists hs'. split.
      - destruct w; [destruct Hw2; by split|done].
      - eapply ordered_ext; [|exact Ho1]. intros x _. rewrite !akey_upd. case_decide; [|done].
        rewrite Hu. unfold set_start. by destruct (d =? 0).
      - destruct w; [destruct Hr2; by split|done].
      - by eapply live_start. }
    split; [done|]. intros dl Haw. destruct w; [by left|]. destruct Haw as [Hwo|Hla]; [left; congruence|].
    right. eapply later_start; eauto.
Qed.

(** [upd] with a function that agrees on the timer there is. *)
Lemma upd_at a id t f g : a_timers a !! id = Some t -> f t = g t -> upd a id f = upd a id g.
Proof.
  intros Ha E. unfold upd. f_equal. apply map_eq. intros j.
  destruct (decide (id = j)) as [->|]; [|by rewrite !lookup_alter_ne].
  rewrite !lookup_alter_eq, Ha. cbn. by rewrite E.
Qed.

Lemma upd_id a id t f : a_timers a !! id = Some t -> f t = t -> upd a id f = a.
Proof.
  intros Ha E. destruct a as [m outs]. unfold upd. cbn in *. f_equal. apply map_eq. intros j.
  destruct (decide (id = j)) as [->|]; [|by rewrite !lookup_alter_ne].
  rewrite lookup_alter_eq, Ha. cbn. by rewrite E.
Qed.

(** A timer taken out of the heap: a step of every operation that stops one. *)
Definition stopped (s : Timerset) (a' : tstate) (hs : list nat) (id : nat) (s' : Timerset) : Prop :=
  exists hs', hwf s' hs' /\ ordered (akey a') hs' /\ arep s' a' /\ woken s' = woken s /\
    (forall x, x ∈ hs' <-> x ∈ hs /\ x <> id).

Lemma deactivate_ok s a hs id t :
  trepr_in s a hs -> timers s !! id = Some t -> active t = true ->
  returns (deactivate s id t) (stopped s (upd a id (fun t => set_elapses t (-1))) hs id).
Proof.
  intros [Hw Ho Hr Hl] Ht Hact. pose proof (arep_lookup _ _ _ _ Hr Ht) as Ha.
  assert (id ∈ hs) as [p Hp]%list_elem_of_lookup by (by apply (Hl _ _ Ha)).
  destruct (hw_in _ _ Hw _ _ Hp) as (t' & Ht' & Ei). rewrite Ht in Ht'. injection Ht' as <-.
  unfold deactivate. rewrite Ei. set (s1 := set_timer _ _ _).
  destruct (set_timer_ok s a hs id t (set_elapses t (-1)) (fun t => set_elapses t (-1))) as [Hr1 Hw1]; try done.
  set (a1 := upd a id _) in *.
  rewrite (tab_load_ok s1 hs p id Hw1 Hp). bind_red.
  apply returns_assert; [by apply bool_decide_eq_true|].
  eapply returns_mono; [apply (heap_delete_ok s1 hs p id Hw1 Hp)|].
  - apply (almost_change (akey a)); [done|]. intros i x Hi Hx. rewrite (arep_key s1 a1 x Hr1).
    unfold a1. rewrite akey_upd, decide_False; [done|]. intros ->. by apply Hi, (hwf_inj _ _ _ _ _ Hw Hx Hp).
  - intros s2 (hs' & Hw2 & K2 & Ho2 & He). exists hs'. split_and!; try done.
    + eapply ordered_ext; [|exact Ho2]. intros x _. by rewrite <- (arep_key s1 a1 x Hr1).
    + by eapply kept_arep.
    + destruct K2 as (_ & _ & -> & _). done.
Qed.

Definition set_stop (t : Timer) : Timer := if active t then set_elapses t (-1) else t.

(** The first half of [stop_with] and of a round of [gw_timer_break]. *)
Lemma take_out_ok s a hs id t :
  trepr_in s a hs -> timers s !! id = Some t ->
  returns (if 0 <? elapses t then deactivate s id t else Ok s) (stopped s (upd a id set_stop) hs id).
Proof.
  intros H Ht. pose proof H as [Hw Ho Hr Hl]. pose proof (arep_lookup _ _ _ _ Hr Ht) as Ha. fold (active t).
  destruct (active t) eqn:Hact.
  - rewrite (upd_at a id (erase t) set_stop (fun t => set_elapses t (-1)) Ha).
    + by apply deactivate_ok.
    + unfold set_stop. change (active (erase t)) with (active t). by rewrite Hact.
  - rewrite (upd_id a id (erase t) set_stop Ha).
    + exists hs. split_and!; try done. intros x. split; [|naive_solver]. intros Hx. split; [done|]. intros ->.
      apply (Hl _ _ Ha) in Hx. change (active t = true) in Hx. congruence.
    + unfold set_stop. change (active (erase t)) with (active t). by rewrite Hact.
Qed.

Lemma settled_ok settle spec `{!Settles settle spec} s s1 a hs id t :
  trepr_in s a hs -> a_timers a !! id = Some t -> stopped s (upd a id set_stop) hs id s1 ->
  returns (settle s1 id) (fun s' => woken s' = woken s /\ exists hs',
    trepr_in s' (spec_stop spec a id) hs' /\ (forall x, x ∈ hs' <-> x ∈ hs /\ x <> id)).
Proof.
  intros [_ _ _ Hl] Ha (hs' & Hw1 & Ho1 & Hr1 & Hwk & Hin).
  destruct (arep_timer s1 (upd a id set_stop) id (set_stop t) Hr1) as (t1 & Ht1 & _).
  { cbn. by rewrite lookup_alter_eq, Ha. }
  eapply returns_mono; [by apply (settle_ok s1 _ hs' id t1 Hr1 Hw1)|].
  intros s2 (Hr2 & Hw2 & Hwk2). split; [congruence|]. exists hs'. split; [|done].
  change (spec (upd a id set_stop) id) with (spec_stop spec a id) in *.
  assert (Est : a_timers (spec_stop spec a id) = alter (fun t => set_elapsed_data t 0) id (alter set_stop id (a_timers a)))
    by (apply (settle_timers (spec:=spec))).
  split; [done| |done|].
  - eapply ordered_ext; [|exact Ho1]. intros x Hx. unfold akey. rewrite Est. cbn.
    rewrite lookup_alter_ne; [done|]. apply Hin in Hx. naive_solver.
  - intros j u Hj. rewrite Est in Hj. destruct (decide (id = j)) as [<-|Hne].
    + rewrite !lookup_alter_eq, Ha in Hj. injection Hj as <-. cbn. split; [|done]. rewrite Hin.
      unfold set_stop. destruct (active t) eqn:Hact; [|change (active (set_elapsed_data t 0)) with (active t)];
        unfold active in *; cbn in *; naive_solver congruence.
    + rewrite !lookup_alter_ne in Hj by done. destruct (Hl _ _ Hj) as [H1 H2]. split; [|done].
      rewrite Hin, H1. naive_solver.
Qed.

Lemma spec_stop_lookup settle spec `{!Settles settle spec} a id j u :
  a_timers (spec_stop spec a id) !! j = Some u ->
  if decide (j = id) then active u = false /\ exists t, a_timers a !! id = Some t /\ output u = output t
  else a_timers a !! j = Some u.
Proof.
  unfold spec_stop. rewrite (settle_timers (spec:=spec)). cbn. case_decide as E.
  - subst. rewrite !lookup_alter_eq. destruct (a_timers a !! id) as [t|]; cbn; [|done].
    intros [= <-]. unfold active. destruct (0 <? elapses t) eqn:E; cbn; (split; [|by exists t]); done.
  - by rewrite !lookup_alter_ne by done.
Qed.

Lemma stop_with_ok settle spec `{!Settles settle spec} s a hs id t :
  trepr_in s a hs -> a_timers a !! id = Some t ->
  returns (stop_with settle s id) (fun s' => woken s' = woken s /\ exists hs',
    trepr_in s' (spec_stop spec a id) hs' /\ (forall x, x ∈ hs' <-> x ∈ hs /\ x <> id)).
Proof.
  intros H Ha. destruct (arep_timer _ _ _ _ (tr_rep _ _ _ H) Ha) as (t0 & Ht0 & _).
  unfold stop_with. rewrite (get_timer_eq _ _ _ Ht0). bind_red.
  eapply returns_seq; [by apply (take_out_ok s a hs)|]. intros s1 Hs1. by eapply settled_ok.
Qed.

Lemma later_stop settle spec `{!Settles settle spec} a id dl :
  later a dl -> later (spec_stop spec a id) dl.
Proof.
  intros Hl j u Hj Hact. pose proof (spec_stop_lookup settle spec a id j u Hj) as Hu.
  case_decide; [naive_solver congruence|eauto].
Qed.

Lemma users_delete m o id : users (delete id m) o = users m o ∖ {[id]}.
Proof.
  apply set_eq. intros x. rewrite elem_of_difference, !elem_of_users, elem_of_singleton.
  setoid_rewrite lookup_delete_Some. naive_solver.
Qed.

Lemma users_pos m o id t : m !! id = Some t -> output t = Some o -> (0 < size (users m o))%nat.
Proof.
  intros Ht Ho. assert (id ∈ users m o) as Hu by (apply elem_of_users; eauto).
  assert (size (users m o) <> 0%nat); [|lia]. intros E%size_empty_inv. set_solver.
Qed.

(** A change of the number of producers of a list. *)
Lemma lrepr_producers {A} (l : List A) xs n : lrepr l xs -> lrepr (set_producers l n) xs.
Proof. intros [H1 H2 H3 H4 H5]. by split. Qed.

Lemma free_ok s a hs id t s' :
  trepr_in s a hs -> timers s !! id = Some t -> id ∉ hs ->
  (match output t with
   | Some o => exists l, outputs s !! o = Some l /\
       s' = set_output s o (set_producers l (num_producers l - 1))
   | None => s' = s
   end) ->
  trepr_in (free_timer s' id) (spec_free a id) hs.
Proof.
  intros [Hw Ho Hr Hl] Ht Hn Hout. pose proof (arep_lookup _ _ _ _ Hr Ht) as Ha.
  assert (heap s' = heap s /\ timers s' = timers s) as [Eh Et] by (destruct (output t); naive_solver).
  assert (Hk : forall x, x ∈ hs -> akey (spec_free a id) x = akey a x).
  { intros x Hx. unfold akey. cbn. rewrite lookup_delete_ne; [done|]. by intros ->. }
  split.
  - destruct Hw as [H1 H2 H3 H4 H5]. split; cbn; rewrite ?Eh, ?Et; try done.
    + intros i x Hx. rewrite lookup_delete_ne; [eauto|].
      intros ->. apply Hn. by eapply list_elem_of_lookup_2.
    + intros x u [_ Hx]%lookup_delete_Some. eauto.
  - by eapply ordered_ext.
  - split; cbn.
    + unfold core. cbn. rewrite Et, fmap_delete. f_equal. apply (ar_core _ _ Hr).
    + pose proof (ar_outs _ _ Hr) as HF. intros o. specialize (HF o).
      assert (outputs s' !! o = if decide (output t = Some o)
        then (fun l => set_producers l (num_producers l - 1)) <$> outputs s !! o else outputs s !! o) as ->.
      { destruct (output t) as [o'|]; [|by rewrite Hout, decide_False].
        destruct Hout as (l & Hlo & ->). cbn. case_decide as E.
        - injection E as <-. by rewrite lookup_insert_eq, Hlo.
        - rewrite lookup_insert_ne; [done|]. congruence. }
      inversion HF as [l xs [Hlr Hn'] E1 E2|E1 E2]; [|case_decide; by constructor].
      case_decide as E; constructor.
      * split; [by apply lrepr_producers|]. cbn. rewrite users_delete, size_difference, size_singleton.
        { pose proof (users_pos _ o _ _ Ha E). lia. }
        apply singleton_subseteq_l, elem_of_users. by exists (erase t).
      * split; [done|]. rewrite users_delete, difference_disjoint_L; [done|]. apply disjoint_singleton_r.
        rewrite elem_of_users. intros (u & Hu & Eu). rewrite Ha in Hu. naive_solver.
    + intros j u o [_ Hj]%lookup_delete_Some. by eapply (ar_out _ _ Hr).
  - intros j u Hj. cbn in Hj. apply lookup_delete_Some in Hj as [_ Hj]. eauto.
Qed.

Lemma destroy_with_ok settle spec `{!Settles settle spec} s a hs id t :
  trepr_in s a hs -> a_timers a !! id = Some t ->
  returns (destroy_with (stop_with settle) s id) (fun s' => woken s' = woken s /\ exists hs',
    trepr_in s' (spec_free (spec_stop spec a id) id) hs' /\ (forall x, x ∈ hs' <-> x ∈ hs /\ x <> id)).
Proof.
  intros H Ha. unfold destroy_with.
  eapply returns_seq; [by apply (stop_with_ok settle spec s a hs id t)|].
  intros s1 (Hwk & hs' & H1 & Hin). pose proof (tr_rep _ _ _ H1) as Hr1.
  destruct (arep_timer s1 (spec_stop spec a id) id
              (set_elapsed_data (set_stop t) 0) Hr1) as (t1 & Ht1 & Et1).
  { unfold spec_stop. rewrite (settle_timers (spec:=spec)). cbn. by rewrite !lookup_alter_eq, Ha. }
  rewrite (get_timer_eq _ _ _ Ht1). bind_red.
  assert (id ∉ hs') as Hn by (rewrite Hin; naive_solver).
  destruct (output t1) as [o|] eqn:Ho.
  - destruct (get_output_ok _ _ _ _ _ Hr1 Ht1 Ho) as (l & xs & -> & Hlo & _ & Hl & Hp). bind_red.
    assert (0 < num_producers l).
    { pose proof (users_pos _ o _ _ (arep_lookup _ _ _ _ Hr1 Ht1) Ho). lia. }
    unfold gwlist_remove_producer. rewrite gw_assert_true by lia. cbn [returns mbind res_bind].
    split; [done|]. exists hs'. split; [|done].
    eapply (free_ok s1 _ hs' id t1); try done. rewrite Ho. eauto.
  - cbn [returns mbind res_bind]. split; [done|]. exists hs'. split; [|done].
    eapply (free_ok s1 _ hs' id t1); try done. by rewrite Ho.
Qed.

(** ** Stopping every timer *)

Lemma hwf_NoDup s hs : hwf s hs -> NoDup hs.
Proof. intros H. apply list.NoDup_alt. intros i j x. by apply (hwf_inj _ _ _ _ _ H). Qed.

Lemma removed_length s s' hs hs' id :
  hwf s hs -> hwf s' hs' -> id ∈ hs -> (forall x, x ∈ hs' <-> x ∈ hs /\ x <> id) ->
  length hs = S (length hs').
Proof.
  intros H H' Hid He. assert (hs ≡ₚ id :: hs') as ->; [|done].
  apply list.NoDup_Permutation; [by eapply hwf_NoDup| |].
  - apply list.NoDup_cons. split; [|by eapply hwf_NoDup]. rewrite He. naive_solver.
  - intros x. rewrite elem_of_cons, He. destruct (decide (x = id)); naive_solver.
Qed.

(** The timer at the top: active, and the first to elapse. *)
Lemma top_ok s a hs :
  trepr_in s a hs -> 0 < hlen (heap s) ->
  exists id t, tab_load (htab (heap s)) 0 = Ok id /\ timers s !! id = Some t /\ id ∈ hs /\
    a_timers a !! id = Some (erase t) /\ active t = true /\ elapsed_data t = 0 /\
    (forall x, x ∈ hs -> elapses t <= akey a x) /\ later a (elapses t) /\ hs !! 0%nat = Some id.
Proof.
  intros [Hw Ho Hr Hl] Hpos. rewrite (hw_len _ _ Hw) in Hpos.
  destruct (lookup_lt_is_Some_2 hs 0) as [id Hid]; [list_lia|].
  destruct (hw_in _ _ Hw _ _ Hid) as (t & Ht & _). pose proof (arep_lookup _ _ _ _ Hr Ht) as Ha.
  assert (id ∈ hs) as Hin by (by eapply list_elem_of_lookup_2).
  destruct (Hl _ _ Ha) as [H1 H2].
  assert (Hmin : forall x, x ∈ hs -> elapses t <= akey a x).
  { intros x [i Hx]%list_elem_of_lookup. pose proof (ordered_top _ _ _ _ _ Ho Hid Hx) as Hle.
    unfold akey at 1 in Hle. by rewrite Ha in Hle. }
  exists id, t. split_and!; try done.
  - exact (tab_load_ok s hs 0 id Hw Hid).
  - by apply H1.
  - by apply H2, H1.
  - intros x u Hx Hact. specialize (Hmin x). unfold akey in Hmin. rewrite Hx in Hmin.
    apply Hmin. by apply (Hl _ _ Hx).
Qed.

Lemma empty_heap s hs : hwf s hs -> hlen (heap s) <= 0 -> hs = [].
Proof. intros H Hle. rewrite (hw_len _ _ H) in Hle. destruct hs; [done|list_lia]. Qed.

Lemma StronglySorted_ext {A} (k k' : A -> Z) l :
  StronglySorted (fun x y => k x <= k y) l -> (forall x, x ∈ l -> k x = k' x) ->
  StronglySorted (fun x y => k' x <= k' y) l.
Proof.
  induction 1 as [|y l Hs IH HF]; intros Hk; constructor.
  - apply IH. intros x Hx. apply Hk, elem_of_cons. by right.
  - rewrite Forall_forall in *. intros z Hz. rewrite <- !Hk; [by apply HF| |by apply elem_of_cons; left].
    apply elem_of_cons. right. by apply list_elem_of_In.
Qed.

Definition spec_stop_all : tstate -> list nat -> tstate := foldl (spec_stop spec_abort).

Lemma break_loop_ok fuel s a hs ret xs :
  trepr_in s a hs -> lrepr ret xs -> (length hs < fuel)%nat ->
  returns (break_loop s ret fuel) (fun '(ret', s') => exists ids,
    lrepr ret' (xs ++ ids) /\ trepr_in s' (spec_stop_all a ids) [] /\ (forall x, x ∈ ids <-> x ∈ hs) /\
    StronglySorted (fun x y => akey a x <= akey a y) ids /\ woken s' = woken s).
Proof.
  revert s a hs ret xs. induction fuel as [|fuel IH]; intros s a hs ret xs H Hret Hf; [lia|].
  cbn [break_loop]. destruct (Z.leb_spec (hlen (heap s)) 0) as [Hz|Hpos].
  { exists []. rewrite app_nil_r. pose proof (empty_heap _ _ (tr_wf _ _ _ H) Hz) as ->.
    split_and!; try done. constructor. }
  destruct (top_ok _ _ _ H Hpos) as (id & t & -> & Ht & Hin & Ha & Hact & _ & Hmin & _ & _). bind_red.
  eapply returns_seq; [by apply gwlist_append_ok|]. intros ret1 (Hret1 & _).
  rewrite (get_timer_eq _ _ _ Ht). bind_red.
  eapply returns_seq; [by apply (take_out_ok s a hs)|]. intros s1 Hs1.
  eapply returns_seq; [by apply (settled_ok abort_elapsed spec_abort s s1 a hs id (erase t))|].
  intros s2 (Hwk & hs' & H2 & He).
  pose proof (removed_length _ _ _ _ _ (tr_wf _ _ _ H) (tr_wf _ _ _ H2) Hin He) as Hlen.
  eapply returns_mono; [apply (IH s2 _ hs' ret1 (xs ++ [id]) H2 Hret1); lia|].
  intros [ret' s'] (ids & Hret' & H' & Hids & Hs & Hwk'). exists (id :: ids).
  rewrite <- app_assoc in Hret'. split_and!; try done; [| |congruence].
  - intros x. rewrite elem_of_cons, Hids, He. destruct (decide (x = id)); naive_solver.
  - assert (Hk : forall x, x ∈ ids -> akey (spec_stop spec_abort a id) x = akey a x).
    { intros x Hx. apply Hids, He in Hx as [_ Hx]. unfold akey, spec_stop.
      rewrite (settle_timers (spec:=spec_abort)). cbn. by rewrite !lookup_alter_ne by done. }
    constructor.
    + by apply (StronglySorted_ext _ _ _ Hs).
    + apply Forall_forall. intros x Hx. apply list_elem_of_In in Hx. unfold akey at 1. rewrite Ha.
      apply Hmin. apply Hids, He in Hx. naive_solver.
Qed.

(** [gw_timerset_destroy] and its variant empty the heap and end the thread. *)
Definition takes_out (stop : Timerset -> nat -> res Timerset) : Prop :=
  forall s a hs id t, trepr_in s a hs -> a_timers a !! id = Some t ->
    returns (stop s id) (fun s' => exists a' hs', trepr_in s' a' hs' /\ (forall x, x ∈ hs' <-> x ∈ hs /\ x <> id)).

Lemma stop_takes_out : takes_out gw_timer_stop.
Proof.
  intros s a hs id t H Ha. eapply returns_mono; [by apply (stop_with_ok _ spec_abort s a hs id t)|].
  intros s' (_ & hs' & H' & He). eauto.
Qed.

Lemma elapsed_destroy_takes_out : takes_out gw_timer_elapsed_destroy.
Proof.
  intros s a hs id t H Ha. eapply returns_mono; [by apply (destroy_with_ok _ spec_forget s a hs id t)|].
  intros s' (_ & hs' & H' & He). eauto.
Qed.

Lemma stop_all_ok stop fuel s a hs :
  takes_out stop -> trepr_in s a hs -> (length hs < fuel)%nat ->
  returns (stop_all stop s fuel) (fun s' => exists a', trepr_in s' a' []).
Proof.
  intros Hstop. revert s a hs. induction fuel as [|fuel IH]; intros s a hs H Hf; [lia|].
  cbn [stop_all]. destruct (Z.leb_spec (hlen (heap s)) 0) as [Hz|Hpos].
  { exists a. by rewrite <- (empty_heap _ _ (tr_wf _ _ _ H) Hz). }
  destruct (top_ok _ _ _ H Hpos) as (id & t & -> & Ht & Hin & Ha & _). bind_red.
  eapply returns_seq; [by eapply Hstop|]. intros s1 (a1 & hs1 & H1 & He).
  pose proof (removed_length _ _ _ _ _ (tr_wf _ _ _ H) (tr_wf _ _ _ H1) Hin He).
  apply (IH _ _ _ H1). lia.
Qed.

Lemma destroy_set_ok stop s a :
  takes_out stop -> trepr s a ->
  returns (destroy_set stop s) (fun s' => hlen (heap s') = 0 /\ stopping s' = true /\ woken s' = true).
Proof.
  intros Hstop [hs H]. unfold destroy_set.
  eapply returns_seq; [apply (stop_all_ok stop _ s a hs Hstop H)|].
  - rewrite (hw_len _ _ (tr_wf _ _ _ H)). list_lia.
  - intros s' (a' & H'). cbn. split_and!; [|done..]. by rewrite (hw_len _ _ (tr_wf _ _ _ H')).
Qed.

(** ** Creating a timer *)

Lemma users_insert m o id t :
  m !! id = None ->
  users (<[id:=t]> m) o = if decide (output t = Some o) then {[id]} ∪ users m o else users m o.
Proof.
  intros Hn. apply set_eq. intros x. rewrite elem_of_users. setoid_rewrite lookup_insert_Some.
  case_decide; rewrite ?elem_of_union, ?elem_of_singleton, elem_of_users; naive_solver.
Qed.

Lemma create_ok s a hs id out cb :
  trepr_in s a hs -> a_timers a !! id = None -> (forall o, out = Some o -> is_Some (a_outs a !! o)) ->
  returns (gw_timer_create s id out cb) (fun s' =>
    trepr_in s' (spec_create a id out cb) hs /\ woken s' = woken s).
Proof.
  intros [Hw Ho Hr Hl] Hn Hout. set (t := mkTimer out cb (-1) 0 0 (-1)).
  assert (timers s !! id = None) as Hns.
  { destruct (timers s !! id) as [u|] eqn:E; [|done]. by rewrite (arep_lookup _ _ _ _ Hr E) in Hn. }
  assert (Hnin : id ∉ hs).
  { intros [i Hi]%list_elem_of_lookup. destruct (hw_in _ _ Hw _ _ Hi) as (u & Hu & _). congruence. }
  assert (Hgoal : forall s', heap s' = heap s -> timers s' = <[id:=t]> (timers s) ->
    map_Forall2 (out_ok (<[id:=t]> (a_timers a))) (outputs s') (a_outs a) ->
    trepr_in s' (spec_create a id out cb) hs).
  { intros s' Eh Et HF. split.
    - destruct Hw as [H1 H2 H3 H4 H5]. split; rewrite ?Eh, ?Et; try done.
      + intros i x Hx. rewrite lookup_insert_ne; [eauto|]. intros ->. apply Hnin. by eapply list_elem_of_lookup_2.
      + intros x u [[<- <-]|[_ Hx]]%lookup_insert_Some; [by right|eauto].
    - eapply ordered_ext; [|exact Ho]. intros x Hx. unfold akey. cbn. rewrite lookup_insert_ne; [done|].
      by intros ->.
    - split; [|done|].
      + unfold core. rewrite Et, fmap_insert. cbn. f_equal. apply (ar_core _ _ Hr).
      + intros j u o Hj Eo. cbn in Hj. apply lookup_insert_Some in Hj as [[<- <-]|[_ Hj]]; [eauto|].
        by eapply (ar_out _ _ Hr).
    - intros j u Hj. cbn in Hj. apply lookup_insert_Some in Hj as [[<- <-]|[_ Hj]]; [|eauto]. split; [|done].
      split; [naive_solver|done]. }
  assert (Hsame : forall o l xs, out <> Some o -> out_ok (a_timers a) o l xs -> out_ok (<[id:=t]> (a_timers a)) o l xs).
  { intros o l xs Hne [H1 H2]. split; [done|]. rewrite users_insert, decide_False; done. }
  unfold gw_timer_create. fold t. destruct out as [o|].
  - destruct (Hout o eq_refl) as [xs Hxs]. pose proof (ar_outs _ _ Hr o) as R. rewrite Hxs in R.
    inversion R as [l ? [H1 H2] El|]; subst.
    unfold get_output. cbn [outputs set_timer]. rewrite <- El. cbn [returns mbind res_bind].
    split; [|done]. apply Hgoal; [done..|]. cbn [outputs set_output set_timer].
    rewrite <- (insert_id (a_outs a) o xs) by done. intros o'. destruct (decide (o = o')) as [<-|Hne].
    + rewrite !lookup_insert_eq. constructor. split; [by apply lrepr_producers|].
      rewrite users_insert, decide_True, size_union_alt by done. cbn.
      assert (size (users (a_timers a) o ∖ {[id]}) <= size (users (a_timers a) o))%nat.
      { apply subseteq_size. set_solver. }
      rewrite size_singleton. lia.
    + rewrite !lookup_insert_ne by done. pose proof (ar_outs _ _ Hr o') as R'.
      inversion R'; constructor. apply Hsame; [congruence|done].
  - cbn [returns]. split; [|done]. apply Hgoal; [done..|]. cbn.
    eapply map_Forall2_impl; [apply (ar_outs _ _ Hr)|]. intros o l xs. by apply Hsame.
Qed.

(** ** Callbacks *)

Definition calls_ok (now : Z) (a : tstate) (op : cb_op) : Prop :=
  match op with
  | CbStart id n interval _ =>
      is_Some (a_timers a !! id) /\ 0 < swrap 32 (interval + n) /\ now < swrap 32 (interval + n)
  | CbStop id | CbDestroy id => is_Some (a_timers a !! id)
  end.

Definition spec_calls : tstate -> list cb_op -> tstate := foldl spec_cb_op.

Fixpoint script_ok (now : Z) (a : tstate) (ops : list cb_op) : Prop :=
  match ops with
  | [] => True
  | op :: ops => calls_ok now a op /\ script_ok now (spec_cb_op a op) ops
  end.

Lemma awake_sub s s' a a' dl :
  woken s' = woken s -> (later a dl -> later a' dl) -> awake s a dl -> awake s' a' dl.
Proof. unfold awake. intros -> H [|]; auto. Qed.

Lemma later_free a id dl : later a dl -> later (spec_free a id) dl.
Proof. intros H j u Hj. cbn in Hj. apply lookup_delete_Some in Hj as [_ Hj]. eauto. Qed.

Lemma run_cb_op_ok now s a op :
  trepr s a -> calls_ok now a op ->
  returns (run_cb_op s op) (fun s' => trepr s' (spec_cb_op a op) /\
    forall dl, awake s a dl -> awake s' (spec_cb_op a op) dl).
Proof.
  intros [hs H] Hok. destruct op as [id n interval d|id|id]; cbn in *.
  - destruct Hok as ([t Ht] & Hpos & _). by eapply (start_with_ok _ _); [exists hs| |].
  - destruct Hok as [t Ht]. eapply returns_mono; [by apply (stop_with_ok _ spec_forget s a hs id t)|].
    intros s' (Hwk & hs' & H' & _). split; [by exists hs'|]. intros dl. apply awake_sub; [done|].
    apply (later_stop _ _).
  - destruct Hok as [t Ht]. eapply returns_mono; [by apply (destroy_with_ok _ spec_forget s a hs id t)|].
    intros s' (Hwk & hs' & H' & _). split; [by exists hs'|]. intros dl. apply awake_sub; [done|].
    intros Hla. by apply later_free, (later_stop _ _).
Qed.

Lemma run_cb_ops_ok now ops s a :
  trepr s a -> script_ok now a ops ->
  returns (run_cb_ops s ops) (fun s' => trepr s' (spec_calls a ops) /\
    forall dl, awake s a dl -> awake s' (spec_calls a ops) dl).
Proof.
  revert s a. induction ops as [|op ops IH]; intros s a H Hok; cbn; [done|]. destruct Hok as [Hop Hops].
  eapply returns_seq; [by apply (run_cb_op_ok now s a)|]. intros s1 [H1 Haw].
  eapply returns_mono; [by apply IH|]. intros s2 [H2 Haw2]. split; [done|]. auto.
Qed.

(** The timers that are due. *)
Definition due (now : Z) (a : tstate) : gset nat :=
  dom (filter (fun p => active p.2 = true /\ elapses p.2 <= now) (a_timers a)).

Lemma elem_of_due now a id :
  id ∈ due now a <-> exists t, a_timers a !! id = Some t /\ active t = true /\ elapses t <= now.
Proof. unfold due. rewrite elem_of_dom. unfold is_Some. setoid_rewrite map_lookup_filter_Some. naive_solver. Qed.

(** What callbacks leave of the timers that are due. *)
Lemma due_cb_op now op a x :
  calls_ok now a op -> x ∈ due now (spec_cb_op a op) -> a_timers (spec_cb_op a op) !! x = a_timers a !! x.
Proof.
  intros Hop (u & Hu & Hact & Hle)%elem_of_due. rewrite Hu.
  assert (Hstop : forall id, a_timers (spec_stop spec_forget a id) !! x = Some u -> Some u = a_timers a !! x).
  { intros id Hs%(spec_stop_lookup _ _). case_decide; [naive_solver congruence|done]. }
  destruct op as [id n interval d|id|id]; cbn in *; [|by eapply Hstop|].
  - destruct Hop as ([t Ht] & _ & Hlt). unfold spec_start in Hu. rewrite Ht in Hu. cbn in Hu.
    apply lookup_alter_Some in Hu as [(-> & v & Hv & ->)|[Hne Hu]].
    + exfalso. destruct (d =? 0); cbn in Hle; lia.
    + destruct (active t); [done|]. cbn in Hu. by rewrite lookup_alter_ne in Hu.
  - apply lookup_delete_Some in Hu as [_ Hu]. eauto.
Qed.

Lemma due_calls now ops a x :
  script_ok now a ops -> x ∈ due now (spec_calls a ops) -> a_timers (spec_calls a ops) !! x = a_timers a !! x.
Proof.
  revert a. induction ops as [|op ops IH]; intros a Hok Hx; cbn; [done|]. destruct Hok as [Hop Hops].
  cbn in Hx. rewrite (IH _ Hops Hx). apply (due_cb_op now); [done|].
  apply elem_of_due in Hx as (t & Ht & Hd). rewrite (IH _ Hops) in Ht; [apply elem_of_due; eauto|].
  apply elem_of_due. eauto.
Qed.

Lemma spec_elapse_timers a id t :
  a_timers a !! id = Some t ->
  a_timers (spec_elapse a id) = alter (fun t => set_elapses (set_elapsed_data t (data t)) (-1)) id (a_timers a).
Proof. intros Ha. unfold spec_elapse. rewrite Ha. by destruct (output t). Qed.

(** [put_event] once the timer is out of the heap. *)
Lemma put_event_ok s a hs hs' s1 id t :
  trepr_in s a hs -> a_timers a !! id = Some t -> active t = true ->
  hwf s1 hs' -> kept s s1 -> ordered (akey a) hs' -> (forall x, x ∈ hs' <-> x ∈ hs /\ x <> id) ->
  returns (put_event s1 id) (fun s' => trepr_in s' (spec_elapse a id) hs').
Proof.
  intros [_ _ Hr Hl] Ha Hact Hw1 K Ho He. pose proof (kept_arep _ _ _ K Hr) as Hr1.
  destruct (arep_timer _ _ _ _ Hr1 Ha) as (t1 & Ht1 & <-). change (active t1 = true) in Hact.
  destruct (Hl _ _ Ha) as [_ Hz]. specialize (Hz Hact). cbn in Hz.
  unfold put_event. rewrite (get_timer_eq _ _ _ Ht1). bind_red. apply returns_assert; [lia|]. cbn zeta.
  set (f := fun t => set_elapses (set_elapsed_data t (data t)) (-1)).
  change (set_elapses (set_elapsed_data t1 (data t1)) (-1)) with (f t1).
  assert (Hfin : forall s2, hwf s2 hs' -> arep s2 (spec_elapse a id) -> trepr_in s2 (spec_elapse a id) hs').
  { intros s2 Hw2 Hr2. pose proof (spec_elapse_timers a id _ Ha) as Et. split; try done.
    - eapply ordered_ext; [|exact Ho]. intros x Hx. unfold akey. rewrite Et, lookup_alter_ne; [done|].
      apply He in Hx. naive_solver.
    - intros j u Hj. rewrite Et in Hj. apply lookup_alter_Some in Hj as [(-> & v & Hv & ->)|[Hne Hj]].
      + split; [|done]. rewrite He. split; [naive_solver|done].
      + destruct (Hl _ _ Hj) as [H1 H2]. split; [|done]. rewrite He, H1. naive_solver. }
  unfold spec_elapse in Hfin |- *. rewrite Ha in Hfin |- *. cbn [erase set_index output data] in Hfin |- *.
  destruct (set_timer_ok s1 a hs' id t1 (f t1) f Hr1 Hw1 Ht1) as [Hr2 Hw2]; try done.
  destruct (output t1) as [o|] eqn:Hout.
  - destruct (get_output_ok _ _ _ _ _ Hr1 Ht1 Hout) as (l & xs & Hg & _ & Hxs & Hlr & Hn).
    unfold get_output in Hg |- *. cbn [outputs set_timer]. rewrite Hg. bind_red.
    unfold gwlist_produce. eapply returns_seq; [by apply gwlist_append_ok|].
    intros l' (Hlr' & Hp & _). cbn [returns mbind res_bind].
    destruct (set_output_ok _ _ hs' o l' xs (fun xs => xs ++ [data t1]) Hr2 Hw2 Hxs) as [Hr3 Hw3].
    { split; [done|]. cbn. rewrite users_alter by done. lia. }
    by apply Hfin.
  - by apply Hfin.
Qed.
(** ** A round of the thread *)

Section rounds.
Variable script : nat -> Z -> list cb_op.

Definition calls (t : Timer) : list cb_op :=
  match callback t with Some cb => script cb (data t) | None => [] end.

(** The timer that elapses next. *)
Definition next_due (now : Z) (a : tstate) (id : nat) (t : Timer) : Prop :=
  a_timers a !! id = Some t /\ active t = true /\ elapses t <= now /\ later a (elapses t).

(** [fires now a ids a']: until none is due, the timer that elapses first puts its
    data on its list and its callback runs. *)
Inductive fires (now : Z) : tstate -> list nat -> tstate -> Prop :=
| fires_done a : (forall id t, a_timers a !! id = Some t -> active t = true -> now < elapses t) ->
    fires now a [] a
| fires_next a id t ids a' : next_due now a id t ->
    fires now (spec_calls (spec_elapse a id) (calls t)) ids a' -> fires now a (id :: ids) a'.

(** [safe now a]: whatever elapses, the callbacks use timers that exist and start
    them to elapse after [now]. *)
Inductive safe (now : Z) (a : tstate) : Prop :=
| safe_intro : (forall id t, next_due now a id t ->
    script_ok now (spec_elapse a id) (calls t) /\ safe now (spec_calls (spec_elapse a id) (calls t))) ->
    safe now a.

Lemma elapse_ok s a hs hs' s1 now id t :
  trepr_in s a hs -> next_due now a id t ->
  hwf s1 hs' -> kept s s1 -> ordered (akey a) hs' -> (forall x, x ∈ hs' <-> x ∈ hs /\ x <> id) ->
  script_ok now (spec_elapse a id) (calls t) ->
  returns (elapse_timer script s1 id) (fun s' => trepr s' (spec_calls (spec_elapse a id) (calls t))).
Proof.
  intros H (Ha & Hact & _) Hw1 K Ho He Hok. unfold elapse_timer.
  eapply returns_seq; [by eapply (put_event_ok s a hs hs' s1 id t)|]. intros s2 H2.
  destruct (arep_timer s2 (spec_elapse a id) id (set_elapses (set_elapsed_data t (data t)) (-1)) (tr_rep _ _ _ H2))
    as (t2 & Ht2 & E2).
  { rewrite (spec_elapse_timers _ _ _ Ha). by rewrite lookup_alter_eq, Ha. }
  rewrite (get_timer_eq _ _ _ Ht2). bind_red.
  assert (callback t2 = callback t) as -> by (by apply (f_equal callback) in E2).
  assert (elapsed_data t2 = data t) as -> by (by apply (f_equal elapsed_data) in E2).
  unfold calls in *. destruct (callback t); [|by exists hs'].
  eapply returns_mono; [by eapply (run_cb_ops_ok now); [exists hs'|]|]. naive_solver.
Qed.

(** After a timer has elapsed, the timers that are due were due before. *)
Lemma due_after now a id t x :
  next_due now a id t -> script_ok now (spec_elapse a id) (calls t) ->
  x ∈ due now (spec_calls (spec_elapse a id) (calls t)) ->
  x ∈ due now a /\ x <> id /\ a_timers (spec_calls (spec_elapse a id) (calls t)) !! x = a_timers a !! x.
Proof.
  intros (Ha & _) Hok Hx. pose proof (due_calls _ _ _ _ Hok Hx) as E.
  apply elem_of_due in Hx as (u & Hu & Hact & Hle). rewrite E in Hu |- *.
  rewrite (spec_elapse_timers _ _ _ Ha) in Hu |- *. destruct (decide (id = x)) as [<-|Hne].
  - rewrite lookup_alter_eq, Ha in Hu. injection Hu as <-. done.
  - rewrite lookup_alter_ne in Hu |- * by done. split_and!; [|done|done]. apply elem_of_due. eauto.
Qed.

Lemma watch_loop_ok now fuel s a :
  trepr s a -> safe now a -> (size (due now a) < fuel)%nat ->
  returns (watch_loop script s now fuel) (fun '(ids, s') => exists a', fires now a ids a' /\ trepr s' a').
Proof.
  revert s a. induction fuel as [|fuel IH]; intros s a [hs H] [Hsafe] Hf; [lia|].
  cbn [watch_loop]. destruct (Z.leb_spec (hlen (heap s)) 0) as [Hz|Hpos].
  { exists a. split; [|by exists hs]. constructor. intros id t Ht Hact.
    pose proof (empty_heap _ _ (tr_wf _ _ _ H) Hz) as ->. by apply (tr_live _ _ _ H _ _ Ht), elem_of_nil in Hact. }
  destruct (top_ok _ _ _ H Hpos) as (id & t & -> & Ht & Hin & Ha & Hact & _ & Hmin & Hla & H0). bind_red.
  rewrite (get_timer_eq _ _ _ Ht). bind_red. destruct (Z.leb_spec (elapses t) now) as [Hle|Hgt].
  - assert (next_due now a id (erase t)) as Hnext by (by split_and!).
    destruct (Hsafe _ _ Hnext) as [Hok Hsafe'].
    eapply returns_seq; [apply (heap_delete_ok s hs 0 id (tr_wf _ _ _ H) H0)|].
    { eapply almost_change; [apply (tr_ordered _ _ _ H)|]. intros i x _ _.
      apply (arep_key _ _ _ (tr_rep _ _ _ H)). }
    intros s1 (hs' & Hw1 & K1 & Ho1 & He).
    eapply returns_seq; [eapply (elapse_ok s a hs hs' s1 now); try done|].
    { eapply ordered_ext; [|exact Ho1]. intros x _. by rewrite (arep_key _ _ _ (tr_rep _ _ _ H)). }
    intros s2 H2. eapply returns_seq; [apply (IH _ _ H2 Hsafe')|].
    + assert (due now (spec_calls (spec_elapse a id) (calls (erase t))) ⊆ due now a ∖ {[id]}) as Hsub.
      { intros x Hx. apply (due_after _ _ _ _ _ Hnext Hok) in Hx as (Hx & Hne & _).
        by apply elem_of_difference; rewrite elem_of_singleton. }
      apply subseteq_size in Hsub. rewrite size_difference, size_singleton in Hsub; [|].
      { assert (0 < size (due now a))%nat; [|lia].
        assert (size (due now a) <> 0%nat); [|lia]. intros E%size_empty_inv.
        assert (id ∈ due now a) by (apply elem_of_due; eauto). set_solver. }
      apply singleton_subseteq_l, elem_of_due; eauto.
    + intros [ids s3] (a' & Hf' & H3). exists a'. split; [by eapply fires_next|done].
  - exists a. split; [|by exists hs]. constructor. intros x u Hx Hxact. specialize (Hla _ _ Hx Hxact). lia.
Qed.

Lemma due_heap now s a hs : trepr_in s a hs -> (size (due now a) <= length hs)%nat.
Proof.
  intros H. rewrite <- (size_list_to_set (C:=gset nat) hs) by (by eapply hwf_NoDup, tr_wf).
  apply subseteq_size. intros x (t & Ht & Hact & _)%elem_of_due. apply elem_of_list_to_set.
  by apply (tr_live _ _ _ H _ _ Ht).
Qed.

Lemma poll_timeout_near secs : 0 < secs <= 2147483 -> poll_timeout secs = Ok (secs * 1000).
Proof.
  intros. unfold poll_timeout. destruct (Z.ltb_spec (secs * 1000) (- 2 ^ 31)); [lia|].
  destruct (Z.leb_spec (2 ^ 31) (secs * 1000)); [lia|]. cbn. destruct (Z.ltb_spec (secs * 1000) 0); [lia|done].
Qed.

Lemma poll_timeout_far secs : 2147483 < secs -> poll_timeout secs = Undef.
Proof.
  intros. unfold poll_timeout. destruct (Z.leb_spec (2 ^ 31) (secs * 1000)); [|lia]. by rewrite orb_true_r.
Qed.

(** Once nothing is due: the thread sleeps until the first timer, if the milliseconds
    are in the range of [poll]. *)
Definition next_within (now d : Z) (a : tstate) : Prop :=
  (exists id t, a_timers a !! id = Some t /\ active t = true) ->
  exists id t, a_timers a !! id = Some t /\ active t = true /\ elapses t <= now + d.

Definition near (now : Z) (a : tstate) : Prop :=
  forall ids a', fires now a ids a' -> next_within now 2147483 a'.

Lemma watch_round_sleeps now s a :
  trepr s a -> safe now a ->
  exists ids secs s' a', watch_round script s now = (ms ← poll_timeout secs; Ok (ids, ms, s')) /\
    fires now a ids a' /\ trepr s' a' /\ later a' (now + secs) /\ 0 < secs /\
    ((secs = 1000000 /\ forall id t, a_timers a' !! id = Some t -> active t = false) \/ exists id t, a_timers a' !! id = Some t /\ active t = true /\ elapses t = now + secs).
Proof.
  intros [hs H] Hsafe. unfold watch_round. set (s0 := mkTimerset _ _ _ _ _).
  assert (trepr_in s0 a hs) as H0.
  { destruct H as [Hw Ho Hr Hl]. split; try done; [by destruct Hw|by destruct Hr]. }
  cbn zeta. pose proof (watch_loop_ok now (S (Z.to_nat (hlen (heap s0)))) s0 a ltac:(by exists hs) Hsafe) as HL.
  destruct (proj1 (returns_iff _ _) (HL ltac:(pose proof (due_heap now _ _ _ H0); rewrite (hw_len _ _ (tr_wf _ _ _ H0)); list_lia)))
    as ([ids s1] & -> & a' & Hf & [hs' H']). clear HL. bind_red. cbn [fst snd].
  assert (Hlate : forall id t, a_timers a' !! id = Some t -> active t = true -> now < elapses t).
  { clear - Hf. by induction Hf. }
  destruct (Z.eqb_spec (hlen (heap s1)) 0) as [Hz|Hnz].
  - exists ids, 1000000, s1, a'. assert (Hnone : forall id t, a_timers a' !! id = Some t -> active t = false).
    { intros id t Ht. apply not_true_iff_false. intros Hact. pose proof (empty_heap _ _ (tr_wf _ _ _ H') ltac:(lia)) as ->.
      by apply (tr_live _ _ _ H' _ _ Ht), elem_of_nil in Hact. }
    split_and!; [done|done|by exists hs'| |lia|by left]. intros id t Ht Hact. by rewrite (Hnone _ _ Ht) in Hact.
  - destruct (top_ok _ _ _ H') as (id & t & Hl & Ht & _ & Ha & Hact & _ & _ & Hla & _).
    { rewrite (hw_len _ _ (tr_wf _ _ _ H')) in *. list_lia. }
    unfold elapses_at. rewrite Hl. bind_red. rewrite (get_timer_eq _ _ _ Ht). bind_red.
    exists ids, (elapses t - now), s1, a'. split_and!; [done|done|by exists hs'| | |].
    + intros x u Hx Hxact. specialize (Hla _ _ Hx Hxact). lia.
    + specialize (Hlate _ _ Ha Hact). cbn in Hlate. lia.
    + right. exists id, (erase t). split_and!; try done. cbn. lia.
Qed.

Lemma watch_round_ok now s a :
  trepr s a -> safe now a -> near now a ->
  returns (watch_round script s now) (fun '(ids, ms, s') =>
    exists a', fires now a ids a' /\ trepr s' a' /\ later a' (now + ms / 1000) /\ 0 < ms < 2 ^ 31).
Proof.
  intros H Hsafe Hnear. destruct (watch_round_sleeps now s a H Hsafe) as (ids & secs & s' & a' & -> & Hf & H' & Hla & Hpos & Htop).
  assert (secs <= 2147483) as Hle.
  { destruct Htop as [[-> _]|(id & t & Ht & Hact & He)]; [lia|].
    destruct (Hnear _ _ Hf ltac:(eauto)) as (x & u & Hx & Hxact & Hxe). specialize (Hla _ _ Hx Hxact). lia. }
  rewrite poll_timeout_near by lia. cbn [returns mbind res_bind]. exists a'. rewrite Z.div_mul by lia. split_and!; try done; lia.
Qed.

(** Where the next timer is more than 2147483 seconds (24 days) away, the milliseconds
    do not fit an [int]. *)
Lemma watch_round_far now s a :
  trepr s a -> safe now a ->
  (forall ids a', fires now a ids a' -> (exists id t, a_timers a' !! id = Some t /\ active t = true) /\ later a' (now + 2147484)) ->
  watch_round script s now = Undef.
Proof.
  intros H Hsafe Hfar. destruct (watch_round_sleeps now s a H Hsafe) as (ids & secs & s' & a' & -> & Hf & _ & _ & _ & Htop).
  destruct (Hfar _ _ Hf) as [(id & t & Ht & Hact) Hla]. destruct Htop as [[_ Hn]|(x & u & Hx & Hxact & He)].
  - by rewrite (Hn _ _ Ht) in Hact.
  - specialize (Hla _ _ Hx Hxact). by rewrite poll_timeout_far by lia.
Qed.

(** What fires: timers that are due, the earliest first; all of them where no
    callback interferes. *)
Lemma fires_due now a ids a' :
  safe now a -> fires now a ids a' ->
  NoDup ids /\ (forall x, x ∈ ids -> x ∈ due now a) /\
  StronglySorted (fun x y => akey a x <= akey a y) ids /\
  ((forall x t, x ∈ ids -> a_timers a !! x = Some t -> calls t = []) -> forall x, x ∈ due now a -> x ∈ ids).
Proof.
  intros Hsafe Hf. induction Hf as [a Hnone|a id t ids a' Hnext Hf IH].
  - split_and!; [constructor|by intros x ?%elem_of_nil|constructor|].
    intros _ x (t & Ht & Hact & Hle)%elem_of_due. specialize (Hnone _ _ Ht Hact). lia.
  - destruct Hsafe as [Hsafe]. destruct (Hsafe _ _ Hnext) as [Hok Hsafe'].
    destruct (IH Hsafe') as (Hnd & Hdue & Hs & Hall). clear IH. pose proof Hnext as (Ha & Hact & Hle & Hla).
    assert (Hin : forall x, x ∈ ids -> x ∈ due now a /\ x <> id /\
      a_timers (spec_calls (spec_elapse a id) (calls t)) !! x = a_timers a !! x).
    { intros x Hx. by apply due_after, Hdue. }
    split_and!.
    + apply list.NoDup_cons. split; [|done]. intros Hx%Hin. naive_solver.
    + intros x [->|Hx]%elem_of_cons; [apply elem_of_due; eauto|]. by apply Hin.
    + constructor.
      * eapply (StronglySorted_ext _ _ _ Hs). intros x Hx. unfold akey. by destruct (Hin x Hx) as (_ & _ & ->).
      * apply Forall_forall. intros x Hx. apply list_elem_of_In, Hin in Hx as ((u & Hu & Huact & _)%elem_of_due & _).
        unfold akey. rewrite Ha, Hu. eauto.
    + intros Hc x Hx. apply elem_of_cons. destruct (decide (x = id)) as [->|Hne]; [by left|]. right.
      apply Hall.
      * intros y u Hy Hu. destruct (Hin y Hy) as (_ & _ & E). rewrite E in Hu. apply (Hc y); [|done].
        apply elem_of_cons. by right.
      * rewrite (Hc id t) by (done || apply elem_of_cons; by left). cbn.
        apply elem_of_due in Hx as (u & Hu & Hd). apply elem_of_due. exists u. split; [|done].
        rewrite (spec_elapse_timers _ _ _ Ha). by rewrite lookup_alter_ne.
Qed.
End rounds.

(** ** Sequences of operations *)

Inductive timer_op :=
| OpCreate (id : nat) (out cb : option nat)
| OpStart (id : nat) (now interval d : Z)
| OpElapsedStart (id : nat) (now interval d : Z)
| OpStop (id : nat)
| OpElapsedStop (id : nat)
| OpDestroy (id : nat)
| OpElapsedDestroy (id : nat)
| OpTake (o : nat)
| OpBreak
| OpRound (now : Z).

Section ops.
Variable script : nat -> Z -> list cb_op.

(** A set with the time at which its thread wakes by itself. *)
Definition run_timer_op (s : Timerset) (dl : Z) (op : timer_op) : res (Timerset * Z) :=
  match op with
  | OpCreate id out cb => s ← gw_timer_create s id out cb; Ok (s, dl)
  | OpStart id now interval d => s ← gw_timer_start s id now interval d; Ok (s, dl)
  | OpElapsedStart id now interval d => s ← gw_timer_elapsed_start s id now interval d; Ok (s, dl)
  | OpStop id => s ← gw_timer_stop s id; Ok (s, dl)
  | OpElapsedStop id => s ← gw_timer_elapsed_stop s id; Ok (s, dl)
  | OpDestroy id => s ← gw_timer_destroy s id; Ok (s, dl)
  | OpElapsedDestroy id => s ← gw_timer_elapsed_destroy s id; Ok (s, dl)
  | OpTake o => l ← get_output s o; r ← gwlist_extract_first l; Ok (set_output s o r.2, dl)
  | OpBreak => r ← gw_timer_break s; Ok (r.2, dl)
  | OpRound now => r ← watch_round script s now; Ok (r.2, now + r.1.2 / 1000)
  end.

Fixpoint run_timer_ops (s : Timerset) (dl : Z) (ops : list timer_op) : res (Timerset * Z) :=
  match ops with
  | [] => Ok (s, dl)
  | op :: ops => r ← run_timer_op s dl op; run_timer_ops r.1 r.2 ops
  end.

(** What an operation may rely on: timers and lists that exist, a pointer of
    [gw_malloc] that is not in use, times that an [int] holds, callbacks that start
    timers for later only, and a next timer that is not more than 24 days away when
    the thread goes to sleep. *)
Definition timer_op_ok (a : tstate) (op : timer_op) : Prop :=
  match op with
  | OpCreate id out _ => a_timers a !! id = None /\ (forall o, out = Some o -> is_Some (a_outs a !! o))
  | OpStart id now interval _ | OpElapsedStart id now interval _ =>
      is_Some (a_timers a !! id) /\ 0 < swrap 32 (interval + now)
  | OpStop id | OpElapsedStop id | OpDestroy id | OpElapsedDestroy id => is_Some (a_timers a !! id)
  | OpTake o => is_Some (a_outs a !! o)
  | OpBreak => True
  | OpRound now => safe script now a /\ near script now a
  end.

Definition is_active (a : tstate) (id : nat) : Prop := exists t, a_timers a !! id = Some t /\ active t = true.

(** What it does. *)
Definition timer_step (a : tstate) (op : timer_op) (a' : tstate) : Prop :=
  match op with
  | OpCreate id out cb => a' = spec_create a id out cb
  | OpStart id now interval d => a' = spec_start spec_abort a id (swrap 32 (interval + now)) d
  | OpElapsedStart id now interval d => a' = spec_start spec_forget a id (swrap 32 (interval + now)) d
  | OpStop id => a' = spec_stop spec_abort a id
  | OpElapsedStop id => a' = spec_stop spec_forget a id
  | OpDestroy id => a' = spec_free (spec_stop spec_abort a id) id
  | OpElapsedDestroy id => a' = spec_free (spec_stop spec_forget a id) id
  | OpTake o => a' = upd_out a (Some o) (@tail Z)
  | OpBreak => exists ids, a' = spec_stop_all a ids /\ forall x, x ∈ ids <-> is_active a x
  | OpRound now => exists ids, fires script now a ids a'
  end.

Fixpoint timer_steps (a : tstate) (ops : list timer_op) (a' : tstate) : Prop :=
  match ops with
  | [] => a' = a
  | op :: ops => exists b, timer_step a op b /\ timer_steps b ops a'
  end.

Fixpoint timer_ops_ok (a : tstate) (ops : list timer_op) : Prop :=
  match ops with
  | [] => True
  | op :: ops => timer_op_ok a op /\ forall a', timer_step a op a' -> timer_ops_ok a' ops
  end.

Lemma heap_active s a hs x : trepr_in s a hs -> x ∈ hs <-> is_active a x.
Proof.
  intros H. split.
  - intros Hx. pose proof Hx as [i Hi]%list_elem_of_lookup.
    destruct (hw_in _ _ (tr_wf _ _ _ H) _ _ Hi) as (t & Ht & _).
    pose proof (arep_lookup _ _ _ _ (tr_rep _ _ _ H) Ht) as Ha. eexists. split; [done|].
    by apply (tr_live _ _ _ H _ _ Ha).
  - intros (t & Ht & Hact). by apply (tr_live _ _ _ H _ _ Ht).
Qed.

Lemma break_ok s a hs :
  trepr_in s a hs ->
  returns (gw_timer_break s) (fun '(ret, s') => exists ids, trepr s' (spec_stop_all a ids) /\
    (forall x, x ∈ ids <-> is_active a x) /\ StronglySorted (fun x y => akey a x <= akey a y) ids /\
    match ret with Some l => lrepr l ids | None => ids = [] end /\ woken s' = woken s).
Proof.
  intros H. unfold gw_timer_break. destruct (Z.eqb_spec (hlen (heap s)) 0) as [Hz|Hnz].
  - exists []. pose proof (empty_heap _ _ (tr_wf _ _ _ H) ltac:(lia)) as ->.
    split_and!; try done; [by exists []| |constructor]. intros x. by rewrite (heap_active s a []).
  - eapply returns_seq; [apply (break_loop_ok _ s a hs gwlist_create [] H gwlist_create_ok)|].
    + rewrite (hw_len _ _ (tr_wf _ _ _ H)). list_lia.
    + intros [ret s'] (ids & Hret & H' & Hids & Hs & Hwk). exists ids.
      split_and!; try done; [by exists []|]. intros x. rewrite Hids. by apply (heap_active s).
Qed.

Lemma stop_all_later a ids dl : later a dl -> later (spec_stop_all a ids) dl.
Proof. revert a. induction ids as [|id ids IH]; intros a H; [done|]. by apply IH, (later_stop _ _). Qed.

Lemma calm_step s s' a a' hs' dl :
  woken s' = woken s -> trepr_in s' a' hs' -> (later a dl -> later a' dl) -> awake s a dl ->
  trepr s' a' /\ awake s' a' dl.
Proof. intros Hwk H Hla Haw. split; [by exists hs'|by eapply awake_sub]. Qed.

Lemma run_timer_op_ok s a dl op :
  trepr s a -> awake s a dl -> timer_op_ok a op ->
  returns (run_timer_op s dl op) (fun '(s', dl') =>
    exists a', timer_step a op a' /\ trepr s' a' /\ awake s' a' dl').
Proof.
  intros [hs H] Haw Hok. destruct op as [id out cb|id now i d|id now i d|id|id|id|id|o| |now]; cbn [run_timer_op].
  - destruct Hok as [Hn Ho]. eapply returns_seq; [by apply (create_ok s a hs)|]. intros s' [H' Hwk].
    eexists. split; [done|]. eapply calm_step; [done..| |done].
    intros Hla x u Hx. cbn in Hx. apply lookup_insert_Some in Hx as [[<- <-]|[_ Hx]]; [done|eauto].
  - destruct Hok as [[t Ht] Hpos]. eapply returns_seq; [by eapply (start_with_ok _ spec_abort); [exists hs| |]|].
    intros s' [H' Haw']. eexists. split_and!; [done|done|]. by apply Haw'.
  - destruct Hok as [[t Ht] Hpos]. eapply returns_seq; [by eapply (start_with_ok _ spec_forget); [exists hs| |]|].
    intros s' [H' Haw']. eexists. split_and!; [done|done|]. by apply Haw'.
  - destruct Hok as [t Ht]. eapply returns_seq; [by apply (stop_with_ok _ spec_abort s a hs id t)|].
    intros s' (Hwk & hs' & H' & _). eexists. split; [done|].
    by eapply calm_step; [..|apply (later_stop _ _)|].
  - destruct Hok as [t Ht]. eapply returns_seq; [by apply (stop_with_ok _ spec_forget s a hs id t)|].
    intros s' (Hwk & hs' & H' & _). eexists. split; [done|].
    by eapply calm_step; [..|apply (later_stop _ _)|].
  - destruct Hok as [t Ht]. eapply returns_seq; [by apply (destroy_with_ok _ spec_abort s a hs id t)|].
    intros s' (Hwk & hs' & H' & _). eexists. split; [done|].
    eapply calm_step; [done..| |done]. intros Hla. by apply later_free, (later_stop _ _).
  - destruct Hok as [t Ht]. eapply returns_seq; [by apply (destroy_with_ok _ spec_forget s a hs id t)|].
    intros s' (Hwk & hs' & H' & _). eexists. split; [done|].
    eapply calm_step; [done..| |done]. intros Hla. by apply later_free, (later_stop _ _).
  - destruct Hok as [xs Hxs]. pose proof (ar_outs _ _ (tr_rep _ _ _ H) o) as R. rewrite Hxs in R.
    inversion R as [l ? [Hl Hn] El|]; subst. unfold get_output. rewrite <- El. bind_red.
    eapply returns_seq; [by apply gwlist_extract_first_ok|]. intros [r l'] (_ & Hl' & Hp & _). cbn [returns snd].
    eexists. split; [done|]. destruct (set_output_ok s a hs o l' xs tail (tr_rep _ _ _ H) (tr_wf _ _ _ H) Hxs)
      as [Hr' Hw'].
    { split; [done|]. by rewrite Hp. }
    split; [|done]. exists hs. split; [done|by destruct H..|done|by destruct H].
  - eapply returns_seq; [by apply (break_ok s a hs)|]. intros [ret s'] (ids & H' & Hids & _ & _ & Hwk).
    cbn [returns snd]. exists (spec_stop_all a ids). split; [by exists ids|]. split; [done|].
    revert Haw. apply awake_sub; [done|]. apply stop_all_later.
  - destruct Hok as [Hsafe Hnear]. eapply returns_seq; [apply (watch_round_ok script now s a); [by exists hs|done..]|].
    intros [[ids ms] s'] (a' & Hf & H' & Hla & _). cbn [returns fst snd]. exists a'.
    split; [by exists ids|]. split; [done|by right].
Qed.

Lemma run_timer_ops_ok ops s a dl :
  trepr s a -> awake s a dl -> timer_ops_ok a ops ->
  returns (run_timer_ops s dl ops) (fun '(s', dl') =>
    exists a', timer_steps a ops a' /\ trepr s' a' /\ awake s' a' dl').
Proof.
  revert s a dl. induction ops as [|op ops IH]; intros s a dl H Haw Hok; [by exists a|].
  destruct Hok as [Hop Hops]. cbn [run_timer_ops].
  eapply returns_seq; [by apply (run_timer_op_ok s a dl op)|]. intros [s1 dl1] (b & Hs & H1 & Haw1).
  eapply returns_mono; [apply (IH _ _ _ H1 Haw1), (Hops _ Hs)|].
  intros [s2 dl2] (a' & Hss & H2 & Haw2). exists a'. split; [by exists b|done].
Qed.

(** C12. The heap implements a set of timers.  From a consistent set, take a sequence
    of creating, starting, stopping and destroying timers, of consuming events, of
    [gw_timer_break] and of rounds of the watching thread in which every operation
    is used within its conditions ([timer_op_ok]): the timers and lists named exist;
    a timer is started to elapse at a time that is positive as an [int] (before January
    2038); when a round begins, whatever elapses, the callbacks use timers that exist
    and start them for later than the time of the round; and when it ends, the first
    active timer, if there is one, is at most 2147483 seconds away.  Such a sequence returns normally (no
    assertion fails, no freed timer or cell outside the table is used, the
    milliseconds for [poll] fit an [int]), does to the
    timers and the output lists what the specification without the heap says, and
    leaves a consistent set; and at every moment the thread was either woken or is in
    a [poll] whose time-out ends no later than the first active timer elapses.
    Outside of the conditions on times the code fails: see [timer_after_2038_panics]
    and [watch_round_far]. *)
Theorem timers_refine ops s a dl :
  trepr s a -> awake s a dl -> timer_ops_ok a ops ->
  returns (run_timer_ops s dl ops) (fun '(s', dl') =>
    exists a', timer_steps a ops a' /\ trepr s' a' /\ awake s' a' dl').
Proof. apply run_timer_ops_ok. Qed.

(** C25. A round of the thread, where the callbacks that may run use timers that exist
    and start them for later than now ([safe]: a callback that starts its timer with
    interval 0 would keep the thread in the loop), and where the first timer that is then
    active, if there is one, is at most 2147483 seconds away ([near]: the milliseconds
    of a longer sleep do not fit the [int] of [gwthread_sleep], see [watch_round_far]).
    The round returns, and elapses only timers whose time has come,
    each once, in the order of their times; where they have no callbacks that touch
    the timers, it elapses all of them.  Afterwards no timer is due, and the thread
    calls [poll] with a positive time-out that ends no later than the next timer. *)
Theorem timer_round_fires now s a :
  trepr s a -> safe script now a -> near script now a ->
  returns (watch_round script s now) (fun '(ids, ms, s') =>
    NoDup ids /\ (forall x, x ∈ ids -> x ∈ due now a) /\
    StronglySorted (fun x y => akey a x <= akey a y) ids /\
    ((forall x t, x ∈ ids -> a_timers a !! x = Some t -> calls script t = []) -> forall x, x ∈ due now a -> x ∈ ids) /\
    exists a', fires script now a ids a' /\ trepr s' a' /\ due now a' = ∅ /\ later a' (now + ms / 1000) /\ 0 < ms < 2 ^ 31).
Proof.
  intros H Hsafe Hnear. eapply returns_mono; [by apply (watch_round_ok script now s a)|].
  intros [[ids ms] s'] (a' & Hf & H' & Hla & Hpos1 & Hpos2).
  destruct (fires_due script now a ids a' Hsafe Hf) as (H1 & H2 & H3 & H4). split_and!; try done.
  exists a'. split_and!; try done. apply set_eq. intros x. split; [|set_solver].
  intros (t & Ht & Hact & Hle)%elem_of_due. specialize (Hla _ _ Ht Hact).
  assert (now < elapses t); [|lia]. clear -Hf Ht Hact. induction Hf as [a Hn|]; eauto.
Qed.
End ops.

(** The time a timer elapses is kept in an [int]: a timer that is started to
    elapse when the time has passed 2^31 seconds gets a negative time, is put into
    the heap but counts as inactive, and starting it once more fails the assertion
    that it is not in the heap. *)
Theorem timer_after_2038_panics s a id t now interval d now' interval' d' :
  trepr s a -> a_timers a !! id = Some t -> active t = false -> 2 ^ 31 <= interval + now < 2 ^ 32 ->
  returns (gw_timer_elapsed_start s id now interval d) (fun s' =>
    gw_timer_elapsed_start s' id now' interval' d' = Panic).
Proof.
  intros [hs H] Ha Hact He. set (e := swrap 32 (interval + now)).
  assert (e <= 0) as Hneg.
  { unfold e, swrap. change (2 ^ (32 - 1)) with (2 ^ 31). change (2 ^ 32) with (2 * 2 ^ 31) in *.
    rewrite <- (Z.mod_unique (interval + now + 2 ^ 31) (2 * 2 ^ 31) 1 (interval + now - 2 ^ 31)); lia. }
  destruct (arep_timer _ _ _ _ (tr_rep _ _ _ H) Ha) as (t0 & Ht0 & <-). change (active t0 = false) in Hact.
  unfold gw_timer_elapsed_start at 1, start_with. rewrite (get_timer_eq _ _ _ Ht0). bind_red. cbn zeta. fold e.
  unfold active in Hact. rewrite Hact.
  eapply returns_seq; [by apply (activate_ok forget_elapsed spec_forget s a hs id t0 e)|].
  intros [w s1] (hs' & Hw1 & _ & Hr1 & _ & Hin & _). cbn [fst snd] in *.
  assert (id ∈ hs') as [j Hj]%list_elem_of_lookup by (apply Hin; by left).
  destruct (hw_in _ _ Hw1 _ _ Hj) as (t1 & Ht1 & Ei).
  assert (elapses t1 = e) as Ee.
  { pose proof (arep_lookup _ _ _ _ Hr1 Ht1) as E. cbn in E. rewrite !lookup_alter_eq, Ha in E.
    apply (f_equal (option_map elapses)) in E. cbn in E. congruence. }
  set (t2 := if d =? 0 then t1 else set_tdata t1 d).
  assert (exists s2, (if d =? 0 then Ok s1 else t ← get_timer s1 id; Ok (set_timer s1 id (set_tdata t d))) = Ok s2 /\
    timers s2 !! id = Some t2) as (s2 & -> & Ht2).
  { unfold t2. rewrite (get_timer_eq _ _ _ Ht1). destruct (d =? 0); [by exists s1|].
    eexists. split; [done|]. cbn. by rewrite lookup_insert_eq. }
  cbn [returns mbind res_bind]. set (s3 := if w then gwthread_wakeup s2 else s2).
  assert (timers s3 !! id = Some t2) as Ht3 by (unfold s3; by destruct w).
  assert (elapses t2 = e /\ tindex t2 = Z.of_nat j) as [E1 E2] by (unfold t2; by destruct (d =? 0)).
  unfold gw_timer_elapsed_start, start_with. rewrite (get_timer_eq _ _ _ Ht3). bind_red. cbn zeta. rewrite E1.
  destruct (Z.ltb_spec 0 e); [lia|]. unfold activate, forget_elapsed. rewrite (get_timer_eq _ _ _ Ht3). bind_red.
  unfold get_timer. cbn [timers set_timer]. rewrite lookup_insert_eq. bind_red. cbn [tindex set_elapsed_data].
  rewrite E2. destruct (Z.ltb_spec (Z.of_nat j) 0); [lia|done].
Qed.

(** ** Witnesses *)

Definition sample_timers : gmap nat (List Z) := {[ 0%nat := gwlist_create ]}.

Lemma sample_timers_ok : trepr (gw_timerset_create sample_timers) (mkTstate ∅ {[ 0%nat := [] ]}).
Proof.
  exists []. split.
  - split; cbn; try done. by exists [None].
  - intros i x y _ Hx. done.
  - split; cbn; [by apply fmap_empty| |].
    + apply map_Forall2_singleton. split; [apply gwlist_create_ok|]. cbn.
      assert (users ∅ 0 = ∅) as -> by (apply set_eq; intros x; rewrite elem_of_users; set_solver). done.
    + intros id t o Ht. by rewrite lookup_empty in Ht.
  - intros id t Ht. cbn in Ht. by rewrite lookup_empty in Ht.
Qed.

(** Two timers on a list, a callback that starts the second one again. *)
Definition sample_script (cb : nat) (d : Z) : list cb_op := [CbStart 2 100 7 0].

Definition sample_timer_ops : list timer_op :=
  [OpCreate 1 (Some 0%nat) (Some 5%nat); OpCreate 2 (Some 0%nat) None; OpStart 1 90 10 41; OpStart 2 90 5 42].

Definition sample_timer_state : tstate :=
  mkTstate (<[2%nat := mkTimer (Some 0%nat) None 95 42 0 (-1)]> {[ 1%nat := mkTimer (Some 0%nat) (Some 5%nat) 100 41 0 (-1) ]})
    {[ 0%nat := [] ]}.

Ltac lookup_cases H :=
  repeat first
    [ apply lookup_alter_Some in H as [(-> & ? & H & ->)|[? H]]
    | apply lookup_insert_Some in H as [[<- <-]|[? H]]
    | apply lookup_singleton_Some in H as [<- <-]
    | rewrite lookup_empty in H; discriminate H ].

Lemma sample_timer_ops_ok : timer_ops_ok sample_script (mkTstate ∅ {[ 0%nat := [] ]}) sample_timer_ops.
Proof.
  split; [split; [done|intros o [= <-]; by eexists]|]. intros a' ->.
  split; [split; [done|intros o [= <-]; by eexists]|]. intros a' ->.
  split; [split; [by eexists|done]|]. intros a' ->.
  split; [split; [by eexists|done]|]. intros a' _. done.
Qed.

Definition sample_set : Timerset :=
  match run_timer_ops sample_script (gw_timerset_create sample_timers) 0 sample_timer_ops with
  | Ok (s, _) => s
  | _ => gw_timerset_create ∅
  end.

Lemma sample_set_ok : trepr sample_set sample_timer_state.
Proof.
  pose proof (run_timer_ops_ok sample_script sample_timer_ops (gw_timerset_create sample_timers)
    (mkTstate ∅ {[ 0%nat := [] ]}) 0 sample_timers_ok) as H.
  unfold sample_set. destruct (run_timer_ops _ _ _ _) as [[s dl]| |].
  - destruct H as (a' & Hs & H & _); [|apply sample_timer_ops_ok|].
    + right. intros id t Ht. cbn in Ht. by rewrite lookup_empty in Ht.
    + assert (a' = sample_timer_state) as <-; [|done].
      destruct Hs as (b1 & -> & b2 & -> & b3 & -> & b4 & -> & ->). vm_compute. done.
  - exfalso. apply H; [|apply sample_timer_ops_ok]. right. intros id t Ht. cbn in Ht. by rewrite lookup_empty in Ht.
  - exfalso. apply H; [|apply sample_timer_ops_ok]. right. intros id t Ht. cbn in Ht. by rewrite lookup_empty in Ht.
Qed.

Definition sample_state_1 : tstate := mkTstate
  (<[2%nat := mkTimer (Some 0%nat) None (-1) 42 42 (-1)]> {[ 1%nat := mkTimer (Some 0%nat) (Some 5%nat) 100 41 0 (-1) ]})
  {[ 0%nat := [42] ]}.

Definition sample_state_2 : tstate := mkTstate
  (<[2%nat := mkTimer (Some 0%nat) None 107 42 0 (-1)]> {[ 1%nat := mkTimer (Some 0%nat) (Some 5%nat) (-1) 41 41 (-1) ]})
  {[ 0%nat := [42; 41] ]}.

(** The timers elapse one after the other, and then the second one is active. *)
Lemma sample_first id t : next_due 100 sample_timer_state id t ->
  id = 2%nat /\ t = mkTimer (Some 0%nat) None 95 42 0 (-1) /\
  spec_calls (spec_elapse sample_timer_state id) (calls sample_script t) = sample_state_1.
Proof.
  intros (Ha & Hact & Hle & Hla). unfold sample_timer_state in Ha. cbn in Ha. lookup_cases Ha; [by vm_compute|]. exfalso.
  specialize (Hla 2%nat (mkTimer (Some 0%nat) None 95 42 0 (-1)) eq_refl eq_refl). cbn in Hla. lia.
Qed.

Lemma sample_second id t : next_due 100 sample_state_1 id t ->
  id = 1%nat /\ t = mkTimer (Some 0%nat) (Some 5%nat) 100 41 0 (-1) /\
  spec_calls (spec_elapse sample_state_1 id) (calls sample_script t) = sample_state_2.
Proof.
  intros (Ha & Hact & Hle & Hla). cbn in Ha. lookup_cases Ha; [discriminate Hact|by vm_compute].
Qed.

Lemma sample_third id t : ~ next_due 100 sample_state_2 id t.
Proof. intros (Ha & Hact & Hle & Hla). cbn in Ha. lookup_cases Ha; cbn in *; try discriminate Hact; lia. Qed.

Lemma sample_safe : safe sample_script 100 sample_timer_state.
Proof.
  constructor. intros id t (-> & -> & ->)%sample_first. split; [done|].
  constructor. intros id t (-> & -> & ->)%sample_second. split; [split; [split; [by eexists|done]|done]|].
  constructor. intros id t []%sample_third.
Qed.

Lemma sample_near : near sample_script 100 sample_timer_state.
Proof.
  intros ids a' Hf _. inversion Hf as [? Hn|? ? ? ? ? H1 Hf1]; subst.
  { specialize (Hn 2%nat _ eq_refl eq_refl). cbn in Hn. lia. }
  apply sample_first in H1 as (-> & -> & E1). rewrite E1 in Hf1. inversion Hf1 as [? Hn|? ? ? ? ? H2 Hf2]; subst.
  { specialize (Hn 1%nat _ eq_refl eq_refl). cbn in Hn. lia. }
  apply sample_second in H2 as (-> & -> & E2). rewrite E2 in Hf2. inversion Hf2 as [? Hn|? ? ? ? ? H3 Hf3]; subst.
  - exists 2%nat, (mkTimer (Some 0%nat) None 107 42 0 (-1)). split_and!; [done..|]. cbn. lia.
  - by apply sample_third in H3.
Qed.

Lemma sample_round_ok : timer_ops_ok sample_script (mkTstate ∅ {[ 0%nat := [] ]}) (sample_timer_ops ++ [OpRound 100]).
Proof.
  split; [split; [done|intros o [= <-]; by eexists]|]. intros a' ->.
  split; [split; [done|intros o [= <-]; by eexists]|]. intros a' ->.
  split; [split; [by eexists|done]|]. intros a' ->.
  split; [split; [by eexists|done]|]. intros a' Ha'.
  assert (a' = sample_timer_state) as -> by (rewrite Ha'; by vm_compute).
  split; [split; [apply sample_safe|apply sample_near]|done].
Qed.

Lemma timers_refine_witness :
  returns (run_timer_ops sample_script (gw_timerset_create sample_timers) 0 (sample_timer_ops ++ [OpRound 100])) (fun '(s', dl') =>
    exists a', timer_steps sample_script (mkTstate ∅ {[ 0%nat := [] ]}) (sample_timer_ops ++ [OpRound 100]) a' /\ trepr s' a' /\ awake s' a' dl').
Proof.
  apply (timers_refine sample_script (sample_timer_ops ++ [OpRound 100]) (gw_timerset_create sample_timers)
    (mkTstate ∅ {[ 0%nat := [] ]}) 0 sample_timers_ok).
  - right. intros id t Ht. cbn in Ht. by rewrite lookup_empty in Ht.
  - apply sample_round_ok.
Defined.

Lemma timer_round_fires_witness :
  exists s', watch_round sample_script sample_set 100 = Ok ([2%nat; 1%nat], 7000, s') /\
    due 100 sample_timer_state = {[ 1%nat; 2%nat ]} /\ NoDup [2%nat; 1%nat].
Proof.
  pose proof (timer_round_fires sample_script 100 sample_set sample_timer_state sample_set_ok sample_safe sample_near) as H.
  assert (exists s', watch_round sample_script sample_set 100 = Ok ([2%nat; 1%nat], 7000, s')) as [s' E]
    by (eexists; vm_compute; reflexivity).
  rewrite E in H. destruct H as (Hnd & _). exists s'. split; [done|]. split; [by vm_compute|exact Hnd].
Defined.

Lemma timer_after_2038_panics_witness :
  returns (gw_timer_elapsed_start
      (match gw_timer_create (gw_timerset_create sample_timers) 3 None None with Ok s => s | _ => gw_timerset_create ∅ end)
      3 2147483640 60 9)
    (fun s' => gw_timer_elapsed_start s' 3 2147483641 60 9 = Panic).
Proof.
  eapply (timer_after_2038_panics _
    (spec_create (mkTstate ∅ {[ 0%nat := [] ]}) 3 None None) 3 (mkTimer None None (-1) 0 0 (-1))).
  - destruct sample_timers_ok as [hs H].
    pose proof (create_ok _ _ hs 3 None None H eq_refl ltac:(done)) as Hc.
    destruct (gw_timer_create _ _ _ _); [|done..]. exists hs. apply Hc.
  - done.
  - done.
  - lia.
Defined.
