(* ===== verification/Dict.v ===== *)
(** * Dictionaries

    Models src/gwlib/dict.c, the hash table from octet strings to values, and
    [octstr_hash_key] of src/gwlib/octstr.c.  The table is an array of lists of
    items ([GwList]); an item owns a copy of its key.  Values are pointers: a
    value of type [option V], of which [None] is NULL.  The values handed to the
    callback [destroy_value] are returned, so that the ownership of values is part of
    the results.  The table is shown to refine a finite map. *)

From stdpp Require Import gmap.
From S2P Require Import Prelude Octstr OctstrSearch GwList GwSort.
#[local] Open Scope Z_scope.
#[local] Open Scope kannel_scope.

(** ** The hash of a string *)

(** A plain [char] is signed. *)
Definition schar (c : Z) : Z := if c <? 128 then c else c - 256.

Definition ulong (z : Z) : Z := z mod 2 ^ 64.

Fixpoint hash_loop (str : block) (i hash a : Z) (n : nat) : res Z :=
  match n with
  | O => Ok hash
  | S n =>
      c ← rd str i;
      hash_loop str (i + 1) (ulong (hash * a + schar c)) (ulong (a * 378551)) n
  end.

Definition octstr_hash_key (ostr : Octstr) : res Z :=
  len ← octstr_len (Some ostr);
  hash ← hash_loop (os_data ostr) 0 0 63689 (Z.to_nat len);
  Ok (Z.land hash 2147483647).

(** ** The table *)

Section dict.
Context {V : Type}.

Record Item := mkItem { item_key : Octstr; item_value : V }.

(** [d_destroy]: whether there is a callback [destroy_value]. *)
Record Dict := mkDict {
  d_tab : list (option (List Item));
  d_size : Z;
  d_key_count : Z;
  d_destroy : bool
}.

Definition set_bucket (d : Dict) (i : Z) (b : option (List Item)) : Dict :=
  mkDict (<[Z.to_nat i := b]> (d_tab d)) (d_size d) (d_key_count d) (d_destroy d).

Definition set_key_count (d : Dict) (n : Z) : Dict :=
  mkDict (d_tab d) (d_size d) n (d_destroy d).

(** A call of [destroy_value], if there is one. *)
Definition destroys (d : Dict) (value : option V) : list (option V) :=
  if d_destroy d then [value] else [].

Definition item_create (key : Octstr) (value : V) : res Item :=
  k ← octstr_duplicate (Some key);
  match k with
  | Some k => Ok (mkItem k value)
  | None => Undef
  end.

Definition item_has_key (key : Octstr) (item : Item) : res bool :=
  c ← octstr_compare key (item_key item);
  Ok (c =? 0).

Definition key_to_index (d : Dict) (key : Octstr) : res Z :=
  h ← octstr_hash_key key;
  if d_size d =? 0 then Undef else Ok (h mod d_size d).

(** [dict->tab[i]]. *)
Definition tab_bucket (d : Dict) (i : Z) : res (option (List Item)) :=
  match (if 0 <=? i then d_tab d !! Z.to_nat i else None) with
  | Some b => Ok b
  | None => Undef
  end.

Definition dict_create (size_hint : Z) (destroy_value : bool) : Dict :=
  let size := size_hint * 2 in
  mkDict (replicate (Z.to_nat size) None) size 0 destroy_value.

Definition dict_get (d : Dict) (key : Octstr) : res (option V) :=
  i ← key_to_index d key;
  b ← tab_bucket d i;
  p ← match b with
      | None => Ok None
      | Some l => gwlist_search l (item_has_key key)
      end;
  Ok (option_map item_value p).

Definition dict_remove (d : Dict) (key : Octstr) : res (option V * Dict) :=
  i ← key_to_index d key;
  b ← tab_bucket d i;
  '(list, d) ← match b with
      | None => Ok (None, d)
      | Some l =>
          '(list, l) ← gwlist_extract_matching l (item_has_key key);
          Ok (list, set_bucket d i (Some l))
      end;
  assert: (match list with None => true | Some list => gwlist_len (Some list) =? 1 end);
  match list with
  | None => Ok (None, d)
  | Some list =>
      p ← gwlist_get list 0;
      Ok (Some (item_value p), set_key_count d (d_key_count d - 1))
  end.

(** The search of [dict_put] and [dict_put_true] in the list of a bucket, which
    is created when there is none.  The index found identifies the item that the
    pointer [p] points to. *)
Definition find_item (b : option (List Item)) (key : Octstr)
  : res (List Item * option (Z * Item)) :=
  match b with
  | None => Ok (gwlist_create, None)
  | Some l =>
      r ← find_loop l (item_has_key key) 0 (Z.to_nat (len l));
      Ok (l, r)
  end.

Definition dict_put (d : Dict) (key : Octstr) (value : option V)
  : res (Dict * list (option V)) :=
  match value with
  | None =>
      '(value, d) ← dict_remove d key;
      Ok (d, destroys d value)
  | Some value =>
      i ← key_to_index d key;
      b ← tab_bucket d i;
      '(l, p) ← find_item b key;
      match p with
      | None =>
          p ← item_create key value;
          l ← gwlist_append l p;
          Ok (set_key_count (set_bucket d i (Some l)) (d_key_count d + 1), [])
      | Some (j, p) =>
          l ← PUT l j (mkItem (item_key p) value);
          Ok (set_bucket d i (Some l), destroys d (Some (item_value p)))
      end
  end.

Definition handle_null_value (d : Dict) (key : Octstr) (value : option V)
  : res (bool * Dict * list (option V)) :=
  match value with
  | None =>
      '(value, d) ← dict_remove d key;
      Ok (true, d, destroys d value)
  | Some _ => Ok (false, d, [])
  end.

Definition dict_put_true (d : Dict) (key : Octstr) (value : V)
  : res (Z * Dict * list (option V)) :=
  i ← key_to_index d key;
  b ← tab_bucket d i;
  '(l, p) ← find_item b key;
  match p with
  | None =>
      p ← item_create key value;
      l ← gwlist_append l p;
      Ok (1, set_key_count (set_bucket d i (Some l)) (d_key_count d + 1), [])
  | Some _ => Ok (0, d, destroys d (Some value))
  end.

Definition dict_put_once (d : Dict) (key : Octstr) (value : option V)
  : res (Z * Dict * list (option V)) :=
  '(null, d, gone) ← handle_null_value d key value;
  match value with
  | Some value =>
      if null : bool then Ok (1, d, gone) else
      '(unique, d, gone) ← dict_put_true d key value;
      Ok (if negb (unique =? 0) then 1 else 0, d, gone)
  | None => Ok (1, d, gone)
  end.

Definition dict_key_count (d : Dict) : Z := d_key_count d.
End dict.

Arguments Item : clear implicits.
Arguments Dict : clear implicits.

(** ** Loops over all items

    [dict_keys], [dict_duplicate], [dict_traverse], [dict_traverse_sorted] and
    [dict_destroy] visit the items of each bucket in turn; [f] is the body of the
    inner loop and [s] what it works on. *)

Section traversal.
Context {V S : Type}.
Variable f : S -> Item V -> res S.

Fixpoint bucket_loop (l : List (Item V)) (j : Z) (s : S) (n : nat) : res S :=
  match n with
  | O => Ok s
  | Datatypes.S n =>
      item ← gwlist_get l j;
      s ← f s item;
      bucket_loop l (j + 1) s n
  end.

Fixpoint buckets_loop (tab : list (option (List (Item V)))) (s : S) : res S :=
  match tab with
  | [] => Ok s
  | None :: tab => buckets_loop tab s
  | Some l :: tab =>
      s ← bucket_loop l 0 s (Z.to_nat (gwlist_len (Some l)));
      buckets_loop tab s
  end.
End traversal.

Section traversals.
Context {V : Type}.

Definition dict_keys (d : Dict V) : res (List Octstr) :=
  buckets_loop (fun list item =>
    k ← octstr_duplicate (Some (item_key item));
    match k with
    | Some k => gwlist_append list k
    | None => Undef
    end) (d_tab d) gwlist_create.

(** [duplicate_value] is a parameter. *)
Definition dict_duplicate (d : Dict V) (duplicate_value : V -> option V) : res (Dict V) :=
  buckets_loop (fun dup item =>
    r ← dict_put dup (item_key item) (duplicate_value (item_value item));
    Ok r.1) (d_tab d) (dict_create (d_size d) (d_destroy d)).

(** The effect of the callback [func] on [data] is a function. *)
Definition dict_traverse {D : Type} (d : Dict V) (func : Octstr -> V -> D -> D) (data : D)
  : res (Z * D) :=
  buckets_loop (fun '(r, data) item => Ok (r + 1, func (item_key item) (item_value item) data))
    (d_tab d) (0, data).

(** [while ((item = gwlist_consume(l)) != NULL)]: nobody produces into [l]. *)
Fixpoint consume_loop {D : Type} (l : List (Item V)) (func : Octstr -> V -> D -> D) (data : D)
    (fuel : nat) : res D :=
  match fuel with
  | O => Undef
  | S fuel =>
      c ← gwlist_consume_retry (gwlist_consume_enter l);
      match c with
      | Blocked => Undef
      | Consumed None _ => Ok data
      | Consumed (Some item) l =>
          consume_loop l func (func (item_key item) (item_value item) data) fuel
      end
  end.

Definition dict_traverse_sorted {D : Type} (d : Dict V) (cmp : Item V -> Item V -> res Z)
    (func : Octstr -> V -> D -> D) (data : D) : res (Z * D) :=
  l ← buckets_loop (fun l item => gwlist_append l item) (d_tab d) gwlist_create;
  l ← gwlist_sort cmp l;
  let r := gwlist_len (Some l) in
  data ← consume_loop l func data (S (Z.to_nat r));
  Ok (r, data).

(** [dict_destroy]: the values destroyed, in order. *)
Fixpoint extract_loop (l : List (Item V)) (gone : list V) (fuel : nat) : res (list V) :=
  match fuel with
  | O => Undef
  | S fuel =>
      '(p, l) ← gwlist_extract_first l;
      match p with
      | None => Ok gone
      | Some p => extract_loop l (gone ++ [item_value p]) fuel
      end
  end.

Fixpoint destroy_loop (tab : list (option (List (Item V)))) (gone : list V) : res (list V) :=
  match tab with
  | [] => Ok gone
  | None :: tab => destroy_loop tab gone
  | Some l :: tab =>
      gone ← extract_loop l gone (S (Z.to_nat (gwlist_len (Some l))));
      destroy_loop tab gone
  end.

Definition dict_destroy (d : Dict V) : res (list V) :=
  gone ← destroy_loop (d_tab d) [];
  Ok (if d_destroy d then gone else []).
End traversals.

(** ** What the table stands for *)

Fixpoint hash_of (hash a : Z) (s : list Z) : Z :=
  match s with
  | [] => hash
  | c :: s => hash_of (ulong (hash * a + schar c)) (ulong (a * 378551)) s
  end.

Definition key_hash (s : list Z) : Z := Z.land (hash_of 0 63689 s) 2147483647.

Lemma hash_loop_ok (o : Octstr) (s : list Z) : repr o s ->
  forall (n i : nat) hash a, (i + n = length s)%nat ->
  hash_loop (os_data o) (Z.of_nat i) hash a n = Ok (hash_of hash a (drop i s)).
Proof.
  intros Ho. induction n as [|n IH]; intros i hash a Hn; simpl.
  - by rewrite drop_ge by lia.
  - destruct (lookup_lt_is_Some_2 s i) as [c Hc]; [lia|].
    assert (rd (os_data o) (Z.of_nat i) = Ok c) as ->.
    { apply rd_ok. rewrite Nat2Z.id. split; [lia|]. split; [by apply (repr_lookup _ s)|].
      pose proof (proj1 (Forall_lookup _ _) (repr_octets _ _ Ho) i c Hc) as Hoc. unfold octet in Hoc. lia. }
    bind_red. replace (Z.of_nat i + 1) with (Z.of_nat (S i)) by lia.
    rewrite IH by lia. by rewrite (drop_S _ _ _ Hc).
Qed.

Lemma octstr_hash_key_ok (o : Octstr) (s : list Z) :
  repr o s -> octstr_hash_key o = Ok (key_hash s).
Proof.
  intros Ho. unfold octstr_hash_key, octstr_len. rewrite (repr_seems_valid _ _ Ho), (repr_len _ _ Ho).
  bind_red. pose proof (hash_loop_ok o s Ho (Z.to_nat (zlen s)) 0 0 63689 ltac:(list_lia)) as E.
  change (Z.of_nat 0) with 0 in E. rewrite E. done.
Qed.

Lemma key_hash_nonneg s : 0 <= key_hash s.
Proof. unfold key_hash. apply Z.land_nonneg. right. lia. Qed.

Section items.
Context {V : Type}.
Implicit Types (items pre post : list (Item V)) (it x y : Item V) (k : list Z).

Definition kc it : list Z := bytes (item_key it).

Definition has_key k it : bool := bool_decide (kc it = k).

Definition valid_item it : Prop := repr (item_key it) (kc it).

Lemma item_has_key_ok key k it :
  repr key k -> valid_item it -> item_has_key key it = Ok (has_key k it).
Proof.
  intros Hk Hi. unfold item_has_key, has_key. rewrite (octstr_compare_ok _ _ _ _ Hk Hi). bind_red.
  f_equal. pose proof (strcmp_eq_0 k (kc it)). destruct (Z.eqb_spec (strcmp k (kc it)) 0); case_bool_decide;
    naive_solver.
Qed.

Lemma item_has_key_decides key k items :
  repr key k -> Forall valid_item items -> decides (item_has_key key) (has_key k) items.
Proof. intros Hk. apply Forall_impl. intros it. by apply item_has_key_ok. Qed.

Lemma find_none k items : List.find (has_key k) items = None <-> k ∉ kc <$> items.
Proof.
  induction items as [|x items IH]; simpl; [set_solver|]. unfold has_key at 1.
  rewrite not_elem_of_cons. case_bool_decide; naive_solver.
Qed.

Lemma find_some k items x :
  List.find (has_key k) items = Some x -> kc x = k /\ exists pre post, items = pre ++ x :: post.
Proof.
  induction items as [|y items IH]; simpl; [done|]. unfold has_key at 1. case_bool_decide.
  - intros [= ->]. split; [done|]. by exists [], items.
  - intros (Hk & pre & post & ->)%IH. split; [done|]. by exists (y :: pre), post.
Qed.

Lemma find_split k pre x post :
  NoDup (kc <$> pre ++ x :: post) ->
  List.find (has_key k) (pre ++ x :: post) =
  if decide (kc x = k) then Some x else List.find (has_key k) (pre ++ post).
Proof.
  induction pre as [|y pre IH]; simpl; intros Hnd.
  - unfold has_key at 1. case_bool_decide; by case_decide.
  - apply list.NoDup_cons in Hnd as [Hy Hnd]. rewrite IH by done. clear IH. unfold has_key at 1 3.
    case_bool_decide as E; [|done]. case_decide as E'; [|done].
    exfalso. apply Hy. rewrite fmap_app, fmap_cons. set_solver.
Qed.

Lemma find_snoc k items x :
  kc x ∉ kc <$> items ->
  List.find (has_key k) (items ++ [x]) = if decide (kc x = k) then Some x else List.find (has_key k) items.
Proof.
  intros Hx. induction items as [|y items IH]; simpl.
  - unfold has_key. case_bool_decide; by case_decide.
  - unfold has_key at 1 3. case_bool_decide as E; [|set_solver].
    case_decide as E'; [|done]. set_solver.
Qed.

Lemma filter_none k items :
  k ∉ kc <$> items ->
  List.filter (has_key k) items = [] /\ List.filter (rejects (has_key k)) items = items.
Proof.
  induction items as [|y items IH]; simpl; [done|]. rewrite not_elem_of_cons. intros [Hy Hi].
  destruct (IH Hi) as [E1 E2]. rewrite E1, E2.
  assert (has_key k y = false) as E by (unfold has_key; apply bool_decide_false; congruence).
  unfold rejects. by rewrite E.
Qed.

Lemma filter_split pre x post :
  NoDup (kc <$> pre ++ x :: post) ->
  List.filter (has_key (kc x)) (pre ++ x :: post) = [x] /\
  List.filter (rejects (has_key (kc x))) (pre ++ x :: post) = pre ++ post.
Proof.
  rewrite fmap_app, fmap_cons. intros Hnd. apply list.NoDup_app in Hnd as (_ & Hd & Hnd).
  apply list.NoDup_cons in Hnd as [Hx _].
  destruct (filter_none (kc x) pre) as [E1 E2]; [set_solver|].
  destruct (filter_none (kc x) post) as [E3 E4]; [done|].
  rewrite !List.filter_app. cbn [List.filter]. rewrite E1, E2, E3, E4. unfold rejects, has_key.
  rewrite bool_decide_true by done. done.
Qed.
End items.

Section refinement.
Context {V : Type}.
Implicit Types (d : Dict V) (m : gmap (list Z) V) (b : option (List (Item V)))
  (items : list (Item V)) (B : list (list (Item V))) (key : Octstr) (k : list Z) (v : V).

Definition bucket_items b items : Prop :=
  match b with
  | None => items = []
  | Some l => lrepr l items
  end.

Record bucket_ok (size : Z) (i : nat) items : Prop := {
  bk_valid : Forall valid_item items;
  bk_nodup : NoDup (kc <$> items);
  bk_hash : Forall (fun it => Z.to_nat (key_hash (kc it) mod size) = i) items
}.

(** The table [d], with the items [B] in its buckets, stands for the map [m]. *)
Record drepr d m B : Prop := {
  dr_size : d_size d = zlen (d_tab d);
  dr_pos : 0 < d_size d;
  dr_items : Forall2 bucket_items (d_tab d) B;
  dr_ok : forall i items, B !! i = Some items -> bucket_ok (d_size d) i items;
  dr_map : forall k,
    m !! k = item_value <$> List.find (has_key k) (B !!! Z.to_nat (key_hash k mod d_size d));
  dr_count : d_key_count d = Z.of_nat (size m)
}.

Definition dict_holds d m : Prop := exists B, drepr d m B.

(** Where the key [k] belongs. *)
Definition slot d k : nat := Z.to_nat (key_hash k mod d_size d).

Lemma slot_bound d k : 0 < d_size d -> 0 <= key_hash k mod d_size d < d_size d.
Proof. apply Z.mod_pos_bound. Qed.

Lemma locate_ok d m B key k :
  drepr d m B -> repr key k ->
  key_to_index d key = Ok (key_hash k mod d_size d) /\
  exists b items, tab_bucket d (key_hash k mod d_size d) = Ok b /\ bucket_items b items /\
    B !! slot d k = Some items /\ bucket_ok (d_size d) (slot d k) items /\
    m !! k = item_value <$> List.find (has_key k) items.
Proof.
  intros H Hk. pose proof (slot_bound d k (dr_pos _ _ _ H)) as Hb.
  split.
  - unfold key_to_index. rewrite (octstr_hash_key_ok _ _ Hk). bind_red.
    pose proof (dr_pos _ _ _ H). by destruct (Z.eqb_spec (d_size d) 0); [lia|].
  - assert (is_Some (d_tab d !! slot d k)) as [b Eb].
    { apply lookup_lt_is_Some. pose proof (dr_size _ _ _ H). unfold slot. list_lia. }
    destruct (Forall2_lookup_l _ _ _ _ _ (dr_items _ _ _ H) Eb) as (items & EB & Hi).
    exists b, items. split_and!; [|done..|by apply (dr_ok _ _ _ H)|].
    + unfold tab_bucket. destruct (Z.leb_spec 0 (key_hash k mod d_size d)); [|lia].
      unfold slot in Eb. by rewrite Eb.
    + rewrite (dr_map _ _ _ H). do 2 f_equal. by apply list_lookup_total_correct.
Qed.

(** Replacing the items of the bucket of [k]. *)
Lemma drepr_update d m m' B k l items items' n :
  drepr d m B -> B !! slot d k = Some items -> lrepr l items' ->
  bucket_ok (d_size d) (slot d k) items' ->
  (forall k', k' <> k -> List.find (has_key k') items' = List.find (has_key k') items) ->
  m' !! k = item_value <$> List.find (has_key k) items' ->
  (forall k', k' <> k -> m' !! k' = m !! k') -> n = Z.of_nat (size m') ->
  drepr (set_key_count (set_bucket d (key_hash k mod d_size d) (Some l)) n) m'
    (<[slot d k := items']> B).
Proof.
  intros H HB Hl Hok Hfind Hk Hother ->. pose proof H as [Hs Hp Hi Ho Hm _].
  constructor; simpl; [list_lia|done| | | |done].
  - by apply Forall2_insert.
  - intros i its. rewrite list_lookup_insert_Some.
    intros [(<- & <- & _)|[_ Hits]]; [done|by apply Ho].
  - intros k'. change (Z.to_nat (key_hash k' mod d_size d)) with (slot d k').
    destruct (decide (slot d k' = slot d k)) as [E|E].
    + rewrite E, list_lookup_total_insert_eq by by eapply lookup_lt_Some.
      destruct (decide (k' = k)) as [->|Hne]; [done|].
      rewrite Hfind, Hother, Hm by done. unfold slot in E, HB. rewrite E.
      by rewrite (list_lookup_total_correct _ _ _ HB).
    + rewrite list_lookup_total_insert_ne by done. rewrite Hother by (intros ->; done). apply Hm.
Qed.

Lemma dict_create_ok n destroy :
  0 < n -> drepr (dict_create n destroy) ∅ (replicate (Z.to_nat (n * 2)) []).
Proof.
  intros Hn. constructor; simpl; [list_lia|lia| | | |by rewrite map_size_empty].
  - by apply Forall2_replicate.
  - intros i items [-> _]%lookup_replicate. constructor; [apply Forall_nil_2|apply NoDup_nil_2|apply Forall_nil_2].
  - intros k. rewrite (list_lookup_total_correct _ _ []); [done|]. apply lookup_replicate. split; [done|].
    pose proof (Z.mod_pos_bound (key_hash k) (n * 2)). lia.
Qed.

Lemma dict_get_ok d m B key k : drepr d m B -> repr key k -> dict_get d key = Ok (m !! k).
Proof.
  intros H Hk. destruct (locate_ok d m B key k H Hk) as (Ei & b & items & Eb & Hb & HB & Hok & Hm).
  unfold dict_get. rewrite Ei. bind_red. rewrite Eb. bind_red. rewrite Hm.
  destruct b as [l|]; simpl in Hb; [|by subst].
  rewrite (gwlist_search_ok l items _ (has_key k) Hb); [done|].
  by apply item_has_key_decides; [|apply Hok].
Qed.

Lemma item_create_ok key k v :
  repr key k ->
  returns (item_create key v) (fun it => valid_item it /\ kc it = k /\ item_value it = v).
Proof.
  intros Hk. unfold item_create. apply returns_bind.
  apply (returns_mono _ _ _ (octstr_duplicate_ok _ _ Hk)). intros o (o' & -> & Ho & _). cbn [returns].
  assert (kc (mkItem o' v) = k) as E by by apply (repr_bytes o' k).
  split; [|done]. unfold valid_item. by rewrite E.
Qed.

Lemma find_item_ok b items key k :
  bucket_items b items -> Forall valid_item items -> repr key k ->
  returns (find_item b key) (fun '(l, p) => lrepr l items /\
    match p with
    | None => k ∉ kc <$> items
    | Some (j, x) => exists pre post, items = pre ++ x :: post /\ j = zlen pre /\ kc x = k
    end).
Proof.
  intros Hb Hv Hk. unfold find_item. destruct b as [l|]; simpl in Hb.
  2:{ subst. split; [apply gwlist_create_ok|]. apply not_elem_of_nil. }
  rewrite (lr_len _ _ Hb). apply returns_bind. eapply returns_mono;
    [apply (find_loop_ok l items (item_has_key key) (has_key k) 0); [done| |list_lia]|].
  { by apply item_has_key_decides. }
  intros r [E F]. rewrite drop_0 in E. cbn [returns]. split; [done|].
  destruct r as [[j x]|]; [|by apply find_none].
  destruct F as (Hj & Hx & _). symmetry in E. destruct (find_some _ _ _ E) as [Ek _].
  exists (take (Z.to_nat j) items), (drop (S (Z.to_nat j)) items).
  split; [by rewrite take_drop_middle|]. apply lookup_lt_Some in Hx. split; [list_lia|done].
Qed.

Section bucket.
Context (size : Z) (i : nat).

Lemma bucket_ok_snoc items (x : Item V) :
  bucket_ok size i items -> valid_item x -> kc x ∉ kc <$> items ->
  Z.to_nat (key_hash (kc x) mod size) = i -> bucket_ok size i (items ++ [x]).
Proof.
  intros [Hv Hn Hh] Hx Hk Hs. constructor.
  - apply Forall_app. by split; [|apply Forall_singleton].
  - rewrite fmap_app. apply list.NoDup_app. split; [done|]. split; [set_solver|apply NoDup_singleton].
  - apply Forall_app. by split; [|apply Forall_singleton].
Qed.

Lemma bucket_ok_replace pre (x y : Item V) post :
  bucket_ok size i (pre ++ x :: post) -> valid_item y -> kc y = kc x ->
  bucket_ok size i (pre ++ y :: post).
Proof.
  intros [Hv Hn Hh] Hy E. constructor.
  - apply Forall_app in Hv as [H1 H2]. apply Forall_cons_iff in H2 as [_ H2].
    apply Forall_app. split; [done|]. by apply Forall_cons_2.
  - revert Hn. rewrite !fmap_app, !fmap_cons. by rewrite E.
  - apply Forall_app in Hh as [H1 H2]. apply Forall_cons_iff in H2 as [H3 H2].
    apply Forall_app. split; [done|]. apply Forall_cons_2; [by rewrite E|done].
Qed.

Lemma bucket_ok_remove pre (x : Item V) post :
  bucket_ok size i (pre ++ x :: post) -> bucket_ok size i (pre ++ post).
Proof.
  intros [Hv Hn Hh]. rewrite fmap_app, fmap_cons in Hn.
  apply Forall_app in Hv as [? [_ ?]%Forall_cons_iff]. apply Forall_app in Hh as [? [_ ?]%Forall_cons_iff].
  constructor; [by apply Forall_app| |by apply Forall_app]. rewrite fmap_app.
  apply (sublist_NoDup _ _ Hn). apply sublist_app; [done|]. by apply sublist_cons.
Qed.
End bucket.

Lemma set_key_count_id d : set_key_count d (d_key_count d) = d.
Proof. by destruct d. Qed.

(** A key that is not in the table: its item is appended. *)
Lemma drepr_add d m B key k v l items :
  drepr d m B -> repr key k -> B !! slot d k = Some items -> bucket_ok (d_size d) (slot d k) items ->
  lrepr l items -> k ∉ kc <$> items -> m !! k = None ->
  returns (item_create key v ≫= gwlist_append l) (fun l' => exists B',
    drepr (set_key_count (set_bucket d (key_hash k mod d_size d) (Some l')) (d_key_count d + 1))
      (<[k := v]> m) B').
Proof.
  intros H Hk HB Hok Hl Hn Hm. apply returns_bind.
  apply (returns_mono _ _ _ (item_create_ok key k v Hk)). intros it (Hv & Ek & Ev).
  apply (returns_mono _ _ _ (gwlist_append_ok l items it Hl)). intros l' (Hl' & _).
  exists (<[slot d k := items ++ [it]]> B).
  apply (drepr_update d m _ B k l' items); try done.
  - apply bucket_ok_snoc; rewrite ?Ek; done.
  - intros k' Hne. rewrite find_snoc by by rewrite Ek. by rewrite decide_False by congruence.
  - rewrite find_snoc by by rewrite Ek. rewrite decide_True by done. simpl.
    by rewrite lookup_insert_eq, Ev.
  - intros k' Hne. by rewrite lookup_insert_ne.
  - rewrite map_size_insert_None, (dr_count _ _ _ H) by done. lia.
Qed.

(** A key that is in the table: its item gets the value. *)
Lemma drepr_assign d m B k v l pre x post :
  drepr d m B -> B !! slot d k = Some (pre ++ x :: post) -> lrepr l (pre ++ x :: post) -> kc x = k ->
  m !! k = Some (item_value x) /\
  returns (PUT l (zlen pre) (mkItem (item_key x) v)) (fun l' => exists B',
    drepr (set_bucket d (key_hash k mod d_size d) (Some l')) (<[k := v]> m) B').
Proof.
  intros H HB Hl Ek. pose proof (dr_ok _ _ _ H _ _ HB) as Hok. set (y := mkItem (item_key x) v).
  assert (bucket_ok (d_size d) (slot d k) (pre ++ y :: post)) as Hok'.
  { apply (bucket_ok_replace _ _ _ x); [done| |done]. destruct Hok as [Hv _ _].
    apply Forall_app in Hv as [_ [Hv _]%Forall_cons_iff]. exact Hv. }
  assert (m !! k = Some (item_value x)) as Hm.
  { rewrite (dr_map _ _ _ H). unfold slot in HB. rewrite (list_lookup_total_correct _ _ _ HB).
    rewrite find_split, decide_True by (done || apply Hok). done. }
  split; [done|]. eapply returns_mono;
    [apply (PUT_item_ok l _ (length pre) y Hl); list_lia|].
  intros l' Hl'. rewrite insert_app_r_alt, Nat.sub_diag in Hl' by lia. cbn [insert list_insert] in Hl'.
  exists (<[slot d k := pre ++ y :: post]> B).
  rewrite <- (set_key_count_id (set_bucket _ _ _)). change (d_key_count (set_bucket d _ _)) with (d_key_count d).
  apply (drepr_update d m _ B k l' (pre ++ x :: post)); try done.
  - intros k' Hne. rewrite !find_split by (apply Hok || apply Hok').
    rewrite !decide_False by (change (kc y) with (kc x); congruence). done.
  - rewrite find_split, decide_True, lookup_insert_eq by (done || apply Hok'). done.
  - intros k' Hne. by rewrite lookup_insert_ne.
  - rewrite map_size_insert_Some by eauto. apply (dr_count _ _ _ H).
Qed.

(** The values that are no longer in the table. *)
Definition gone d (o : option V) : list (option V) :=
  match o with Some old => destroys d (Some old) | None => [] end.

Lemma dict_put_value_ok d m B key k v :
  drepr d m B -> repr key k ->
  returns (dict_put d key (Some v)) (fun '(d', ds) =>
    dict_holds d' (<[k := v]> m) /\ d_destroy d' = d_destroy d /\ ds = gone d (m !! k)).
Proof.
  intros H Hk. destruct (locate_ok d m B key k H Hk) as (Ei & b & items & Eb & Hb & HB & Hok & Hm).
  unfold dict_put. rewrite Ei. bind_red. rewrite Eb. bind_red. apply returns_bind.
  eapply returns_mono; [apply (find_item_ok b items key k Hb (bk_valid _ _ _ Hok) Hk)|].
  intros [l [[j x]|]] [Hl F].
  - destruct F as (pre & post & -> & -> & Ek).
    destruct (drepr_assign d m B k v l pre x post H HB Hl Ek) as [Em P]. apply returns_bind.
    apply (returns_mono _ _ _ P). intros l' (B' & H'). cbn [returns]. rewrite Em. split_and!; [by exists B'|done..].
  - rewrite (proj2 (find_none k items) F) in Hm.
    pose proof (drepr_add d m B key k v l items H Hk HB Hok Hl F Hm) as P.
    destruct (item_create key v) as [it| |]; [|done..]. bind_red. apply returns_bind.
    apply (returns_mono _ _ _ P). intros l' (B' & H'). cbn [returns]. rewrite Hm. split_and!; [by exists B'|done..].
Qed.

Lemma drepr_drop d m B k l pre x post :
  drepr d m B -> B !! slot d k = Some (pre ++ x :: post) -> lrepr l (pre ++ post) -> kc x = k ->
  m !! k = Some (item_value x) /\
  drepr (set_key_count (set_bucket d (key_hash k mod d_size d) (Some l)) (d_key_count d - 1))
    (delete k m) (<[slot d k := pre ++ post]> B).
Proof.
  intros H HB Hl Ek. pose proof (dr_ok _ _ _ H _ _ HB) as Hok.
  assert (m !! k = Some (item_value x)) as Hm.
  { rewrite (dr_map _ _ _ H). unfold slot in HB. rewrite (list_lookup_total_correct _ _ _ HB).
    rewrite find_split, decide_True by (done || apply Hok). done. }
  split; [done|]. apply (drepr_update d m _ B k l (pre ++ x :: post)); try done.
  - by eapply bucket_ok_remove.
  - intros k' Hne. rewrite find_split by apply Hok. by rewrite decide_False by congruence.
  - rewrite lookup_delete_eq. symmetry. apply fmap_None, find_none.
    destruct Hok as [_ Hn _]. rewrite fmap_app, fmap_cons in Hn.
    apply list.NoDup_app in Hn as (_ & Hd & Hn). apply list.NoDup_cons in Hn as [Hx _].
    rewrite fmap_app. set_solver.
  - intros k' Hne. by rewrite lookup_delete_ne.
  - rewrite map_size_delete_Some, (dr_count _ _ _ H) by eauto.
    assert (size m <> 0%nat); [|lia]. intros E%map_size_empty_inv. subst. done.
Qed.

Lemma dict_remove_ok d m B key k :
  drepr d m B -> repr key k ->
  returns (dict_remove d key) (fun '(v, d') =>
    v = m !! k /\ dict_holds d' (delete k m) /\ d_destroy d' = d_destroy d).
Proof.
  intros H Hk. destruct (locate_ok d m B key k H Hk) as (Ei & b & items & Eb & Hb & HB & Hok & Hm).
  unfold dict_remove. rewrite Ei. bind_red. rewrite Eb. bind_red.
  destruct b as [l|]; simpl in Hb.
  2:{ subst. simpl in Hm. cbn. rewrite delete_id by done. split_and!; [done|by exists B|done]. }
  apply returns_bind, returns_bind. eapply returns_mono;
    [apply (gwlist_extract_matching_ok l items _ (has_key k) Hb);
     by apply item_has_key_decides; [|apply Hok]|].
  intros [new l'] (Hl' & _ & Hnew). cbn [returns].
  destruct (List.find (has_key k) items) as [x|] eqn:Ef.
  - destruct (find_some _ _ _ Ef) as (Ek & pre & post & ->).
    destruct (filter_split pre x post (bk_nodup _ _ _ Hok)) as [E1 E2]. rewrite Ek in E1, E2.
    rewrite E1 in Hnew. rewrite E2 in Hl'. destruct new as [new|]; [|done]. destruct Hnew as [_ Hnew].
    destruct (drepr_drop d m B k l' pre x post H HB Hl' Ek) as [Em Hd].
    unfold gwlist_len, gwlist_get. rewrite (lr_len _ _ Hnew). change (zlen [x]) with 1. cbn [gw_assert Z.eqb Pos.eqb Z.leb Z.ltb Z.compare Pos.compare].
    bind_red. rewrite (GET_at new [x] 0 x Hnew) by done. cbn. split_and!; [by rewrite Em|by eexists|done].
  - apply find_none in Ef. destruct (filter_none k items Ef) as [E1 E2].
    rewrite E1 in Hnew. rewrite E2 in Hl'. destruct new as [new|]; [naive_solver|]. cbn.
    simpl in Hm. rewrite delete_id by done. split; [done|]. split; [|done].
    exists (<[slot d k := items]> B). rewrite <- (set_key_count_id (set_bucket _ _ _)).
    apply (drepr_update d m _ B k l' items); try done.
    + by rewrite (proj2 (find_none k items) Ef).
    + apply (dr_count _ _ _ H).
Qed.

Lemma dict_put_null_ok d m B key k :
  drepr d m B -> repr key k ->
  returns (dict_put d key None) (fun '(d', ds) =>
    dict_holds d' (delete k m) /\ d_destroy d' = d_destroy d /\ ds = destroys d (m !! k)).
Proof.
  intros H Hk. unfold dict_put. apply returns_bind.
  apply (returns_mono _ _ _ (dict_remove_ok d m B key k H Hk)). intros [v d'] (-> & Hd & E). cbn [returns].
  split; [done|]. split; [done|]. unfold destroys. by rewrite E.
Qed.

(** A value for a key that has one is destroyed instead of stored. *)
Lemma dict_put_once_ok d m B key k v :
  drepr d m B -> repr key k ->
  returns (dict_put_once d key (Some v)) (fun '(r, d', ds) =>
    d_destroy d' = d_destroy d /\
    match m !! k with
    | None => r = 1 /\ dict_holds d' (<[k := v]> m) /\ ds = []
    | Some _ => r = 0 /\ dict_holds d' m /\ ds = destroys d (Some v)
    end).
Proof.
  intros H Hk. destruct (locate_ok d m B key k H Hk) as (Ei & b & items & Eb & Hb & HB & Hok & Hm).
  unfold dict_put_once, handle_null_value. bind_red. unfold dict_put_true. rewrite Ei. bind_red.
  rewrite Eb. bind_red. apply returns_bind, returns_bind.
  eapply returns_mono; [apply (find_item_ok b items key k Hb (bk_valid _ _ _ Hok) Hk)|].
  intros [l [[j x]|]] [Hl F].
  - destruct F as (pre & post & -> & -> & Ek).
    destruct (drepr_assign d m B k v l pre x post H HB Hl Ek) as [Em _]. cbn [returns]. rewrite Em.
    split_and!; [done..|by exists B|done].
  - rewrite (proj2 (find_none k items) F) in Hm.
    pose proof (drepr_add d m B key k v l items H Hk HB Hok Hl F Hm) as P.
    destruct (item_create key v) as [it| |]; [|done..]. bind_red. apply returns_bind.
    apply (returns_mono _ _ _ P). intros l' (B' & H'). cbn [returns]. rewrite Hm. cbn.
    split_and!; [done..|by exists B'|done].
Qed.

(** ** Visiting the items *)

Definition kv (it : Item V) : list Z * V := (kc it, item_value it).

Fixpoint visit {S} (f : S -> Item V -> res S) (s : S) items : res S :=
  match items with
  | [] => Ok s
  | it :: items => s ← f s it; visit f s items
  end.

Lemma visit_app {S} (f : S -> Item V -> res S) items items' (s : S) :
  visit f s (items ++ items') = (s ← visit f s items; visit f s items').
Proof.
  revert s. induction items as [|it items IH]; intros s; simpl; [done|].
  destruct (f s it); simpl; [apply IH|done..].
Qed.

Lemma bucket_loop_ok {S} (f : S -> Item V -> res S) l items :
  lrepr l items -> forall (n j : nat) s, (j + n = length items)%nat ->
  bucket_loop f l (Z.of_nat j) s n = visit f s (drop j items).
Proof.
  intros H. induction n as [|n IH]; intros j s Hj; simpl.
  - by rewrite drop_ge by lia.
  - destruct (lookup_lt_is_Some_2 items j) as [x Hx]; [lia|].
    unfold gwlist_get. rewrite (lr_len _ _ H).
    rewrite (gw_assert_true (0 <=? Z.of_nat j)), (gw_assert_true (Z.of_nat j <? zlen items)) by list_lia.
    bind_red. rewrite (GET_ok _ _ _ _ H Hx). bind_red. rewrite (drop_S _ _ _ Hx). simpl.
    destruct (f s x) as [s'| |]; [|done..]. bind_red.
    replace (Z.of_nat j + 1) with (Z.of_nat (Datatypes.S j)) by lia. by rewrite IH by lia.
Qed.

Lemma buckets_loop_ok {S} (f : S -> Item V -> res S) tab B (s : S) :
  Forall2 bucket_items tab B -> buckets_loop f tab s = visit f s (concat B).
Proof.
  intros H. revert s. induction H as [|b items tab B Hb _ IH]; intros s; simpl; [done|].
  rewrite visit_app. destruct b as [l|]; simpl in Hb; [|subst; apply IH].
  pose proof (bucket_loop_ok f l items Hb (Z.to_nat (len l)) 0 s) as E.
  rewrite (lr_len _ _ Hb) in *. change (Z.of_nat 0) with 0 in E. rewrite E by list_lia. rewrite drop_0.
  destruct (visit f s items); [apply IH|done..].
Qed.

Lemma concat_nodup (size : Z) B : forall off : nat,
  (forall i items, B !! i = Some items -> bucket_ok size (off + i) items) -> NoDup (kc <$> concat B).
Proof.
  induction B as [|items B IH]; intros off H; simpl; [apply NoDup_nil_2|].
  pose proof (H 0%nat items eq_refl) as [_ Hn Hh].
  rewrite fmap_app. apply list.NoDup_app. split; [done|]. split.
  - intros k Hk Hk'. apply list_elem_of_fmap in Hk as (it & -> & Hit).
    apply list_elem_of_fmap in Hk' as (it' & E & Hit').
    apply list_elem_of_In, in_concat in Hit' as (its & Hits & Hin).
    apply list_elem_of_In, list_elem_of_lookup in Hits as (i & Hits).
    pose proof (H (S i) its Hits) as [_ _ Hh'].
    apply list_elem_of_In in Hin. rewrite Forall_forall in Hh, Hh'.
    pose proof (Hh it ltac:(by apply list_elem_of_In)) as E1.
    pose proof (Hh' it' ltac:(by apply list_elem_of_In)) as E2. rewrite E in E1. lia.
  - apply (IH (S off)). intros i its Hi. specialize (H (S i) its Hi).
    by replace (S off + i)%nat with (off + S i)%nat by lia.
Qed.

(** The items of the table are the entries of the map. *)
Lemma drepr_entries d m B : drepr d m B -> kv <$> concat B ≡ₚ map_to_list m.
Proof.
  intros H. pose proof (concat_nodup (d_size d) B 0 (dr_ok _ _ _ H)) as Hn.
  apply list.NoDup_Permutation; [|apply NoDup_map_to_list|].
  { apply (NoDup_fmap_1 fst). rewrite <- list_fmap_compose. exact Hn. }
  intros [k v]. rewrite elem_of_map_to_list, (dr_map _ _ _ H). split.
  - intros (it & E & Hit)%list_elem_of_fmap. unfold kv in E. simplify_eq.
    apply list_elem_of_In, in_concat in Hit as (items & Hits & Hin).
    apply list_elem_of_In, list_elem_of_lookup in Hits as (i & Hi).
    pose proof (dr_ok _ _ _ H i items Hi) as [_ Hnd Hh]. rewrite Forall_forall in Hh.
    rewrite (Hh it Hin), (list_lookup_total_correct _ _ _ Hi).
    apply in_split in Hin as (pre & post & ->). rewrite find_split by done. by rewrite decide_True.
  - intros E. destruct (List.find _ _) as [it|] eqn:Ef; [|done]. simpl in E. simplify_eq.
    destruct (find_some _ _ _ Ef) as [<- (pre & post & Es)]. apply list_elem_of_fmap.
    exists it. split; [done|]. apply list_elem_of_In, in_concat.
    destruct (B !! slot d (kc it)) as [items|] eqn:EB.
    + exists items. split; [apply list_elem_of_In; by eapply list_elem_of_lookup_2|].
      unfold slot in EB. rewrite (list_lookup_total_correct _ _ _ EB) in Es. subst items.
      apply in_or_app. right. by left.
    + unfold slot in EB. rewrite list_lookup_total_alt, EB in Es. by destruct pre.
Qed.

Lemma drepr_valid d m B : drepr d m B -> Forall valid_item (concat B).
Proof.
  intros H. apply Forall_forall. intros it (items & Hits & Hin)%in_concat.
  apply list_elem_of_In, list_elem_of_lookup in Hits as (i & Hi).
  pose proof (bk_valid _ _ _ (dr_ok _ _ _ H i items Hi)) as Hv. rewrite Forall_forall in Hv. by apply Hv.
Qed.

Lemma visit_keys items : Forall valid_item items -> forall list os ks,
  lrepr list os -> Forall2 repr os ks ->
  returns (visit (fun list item =>
    k ← octstr_duplicate (Some (item_key item));
    match k with Some k => gwlist_append list k | None => Undef end) list items)
    (fun list' => num_producers list' = num_producers list /\
      exists os', lrepr list' os' /\ Forall2 repr os' (ks ++ (kc <$> items))).
Proof.
  induction 1 as [|it items Hv _ IH]; intros list os ks Hl Hos; simpl.
  - split; [done|]. exists os. by rewrite app_nil_r.
  - apply returns_bind, returns_bind. apply (returns_mono _ _ _ (octstr_duplicate_ok _ _ Hv)).
    intros o (o' & -> & Ho & _). apply (returns_mono _ _ _ (gwlist_append_ok list os o' Hl)).
    intros list' (Hl' & Hp & _). assert (Forall2 repr (os ++ [o']) (ks ++ [kc it])) as Hos'.
    { apply Forall2_app; [done|]. by apply Forall2_cons. }
    apply (returns_mono _ _ _ (IH list' _ _ Hl' Hos')).
    intros l'' (Hp' & os' & Hl'' & H''). split; [congruence|]. exists os'. rewrite <- app_assoc in H''. done.
Qed.

Lemma visit_traverse {D} (func : Octstr -> V -> D -> D) items (r : Z) (data : D) :
  visit (fun '(r, data) item => Ok (r + 1, func (item_key item) (item_value item) data)) (r, data) items =
  Ok (r + zlen items, fold_left (fun data it => func (item_key it) (item_value it) data) items data).
Proof.
  revert r data. induction items as [|it items IH]; intros r data; simpl.
  - by rewrite Z.add_0_r.
  - bind_red. rewrite IH. do 2 f_equal. list_lia.
Qed.

Lemma visit_append items list xs :
  lrepr list xs ->
  returns (visit (fun l item => gwlist_append l item) list items) (fun l' =>
    lrepr l' (xs ++ items) /\ num_producers l' = num_producers list).
Proof.
  revert list xs. induction items as [|it items IH]; intros list xs H; simpl.
  - by rewrite app_nil_r.
  - apply returns_bind. apply (returns_mono _ _ _ (gwlist_append_ok list xs it H)).
    intros l' (Hl' & Hp & _). apply (returns_mono _ _ _ (IH l' _ Hl')).
    intros l'' [Hl'' Hp']. rewrite <- app_assoc in Hl''. split; [done|congruence].
Qed.

Lemma extract_loop_ok items : forall l (fuel : nat) (ds : list V),
  lrepr l items -> (length items < fuel)%nat ->
  extract_loop l ds fuel = Ok (ds ++ (item_value <$> items)).
Proof.
  induction items as [|it items IH]; intros l [|fuel] ds H Hf; try (simpl in Hf; lia); cbn [extract_loop].
  - destruct (proj1 (returns_iff _ _) (gwlist_extract_first_ok l [] H)) as ([p l'] & -> & -> & _).
    bind_red. simpl. by rewrite app_nil_r.
  - destruct (proj1 (returns_iff _ _) (gwlist_extract_first_ok l (it :: items) H))
      as ([p l'] & -> & -> & Hl' & _). bind_red. cbn [head tail] in *.
    rewrite (IH l' fuel _ Hl') by (simpl in Hf; lia). by rewrite <- app_assoc.
Qed.

Lemma destroy_loop_ok tab B (ds : list V) :
  Forall2 bucket_items tab B -> destroy_loop tab ds = Ok (ds ++ (item_value <$> concat B)).
Proof.
  intros H. revert ds. induction H as [|b items tab B Hb _ IH]; intros ds.
  { simpl. by rewrite app_nil_r. }
  cbn [destroy_loop concat gwlist_len].
  rewrite fmap_app, app_assoc. destruct b as [l|]; simpl in Hb.
  2:{ subst. rewrite IH. by rewrite app_nil_r. }
  rewrite (lr_len _ _ Hb), (extract_loop_ok items l _ ds Hb) by list_lia. bind_red. apply IH.
Qed.

Lemma values_perm items m : kv <$> items ≡ₚ map_to_list m -> item_value <$> items ≡ₚ (map_to_list m).*2.
Proof. intros P. rewrite <- P. by rewrite <- list_fmap_compose. Qed.

Lemma keys_perm items m : kv <$> items ≡ₚ map_to_list m -> kc <$> items ≡ₚ (map_to_list m).*1.
Proof. intros P. rewrite <- P. by rewrite <- list_fmap_compose. Qed.

(** The keys, in a list without producers. *)
Lemma dict_keys_idle d m : dict_holds d m ->
  returns (dict_keys d) (fun l => num_producers l = 0 /\ exists os ks,
    lrepr l os /\ Forall2 repr os ks /\ ks ≡ₚ (map_to_list m).*1).
Proof.
  intros [B H]. unfold dict_keys. rewrite (buckets_loop_ok _ _ B) by apply H.
  eapply returns_mono; [apply (visit_keys _ (drepr_valid _ _ _ H) _ [] [] gwlist_create_ok); constructor|].
  intros l (Hp & os & Hl & Hos). split; [done|]. exists os, (kc <$> concat B). split_and!; [done..|].
  apply keys_perm. by apply (drepr_entries d).
Qed.

Lemma dict_keys_ok d m : dict_holds d m ->
  returns (dict_keys d) (fun l => exists os ks,
    lrepr l os /\ Forall2 repr os ks /\ ks ≡ₚ (map_to_list m).*1).
Proof. intros H. eapply returns_mono; [by apply dict_keys_idle|]. by intros l [_ Hl]. Qed.

Lemma consume_loop_ok {D} (func : Octstr -> V -> D -> D) items : forall l (fuel : nat) data,
  lrepr l items -> num_producers l = 0 -> (length items < fuel)%nat ->
  consume_loop l func data fuel =
  Ok (fold_left (fun data it => func (item_key it) (item_value it) data) items data).
Proof.
  induction items as [|it items IH]; intros l [|fuel] data H Hp Hf; try (simpl in Hf; lia);
    cbn [consume_loop]; destruct (consume_now l _ H Hp) as (l' & -> & Hl' & Hp'); bind_red;
    cbn [head tail] in *; [done|].
  rewrite (IH l' fuel _ Hl' Hp') by (simpl in Hf; lia). done.
Qed.

(** ** Copies *)

Section duplicate.
Variable dv : V -> option V.

Definition put_copy m (it : Item V) : gmap (list Z) V :=
  match dv (item_value it) with
  | Some v => <[kc it := v]> m
  | None => delete (kc it) m
  end.

Lemma visit_put items : Forall valid_item items -> forall d m, dict_holds d m ->
  returns (visit (fun dup item =>
    r ← dict_put dup (item_key item) (dv (item_value item)); Ok r.1) d items)
    (fun d' => dict_holds d' (fold_left put_copy items m)).
Proof.
  induction 1 as [|it items Hv _ IH]; intros d m Hd; simpl; [done|].
  apply returns_bind, returns_bind. destruct Hd as [B HB].
  assert (returns (dict_put d (item_key it) (dv (item_value it)))
    (fun r => dict_holds r.1 (put_copy m it))) as P.
  { unfold put_copy. destruct (dv (item_value it)) as [v|].
    - apply (returns_mono _ _ _ (dict_put_value_ok d m B _ _ v HB Hv)). by intros [? ?] [? _].
    - apply (returns_mono _ _ _ (dict_put_null_ok d m B _ _ HB Hv)). by intros [? ?] [? _]. }
  apply (returns_mono _ _ _ P). intros [d' ds] Hd'. cbn [returns]. by apply IH.
Qed.

Lemma put_copies_lookup items : NoDup (kc <$> items) -> forall m k,
  fold_left put_copy items m !! k =
  match List.find (has_key k) items with
  | Some it => dv (item_value it)
  | None => m !! k
  end.
Proof.
  induction items as [|it items IH]; simpl; [done|]. intros Hn m k. apply list.NoDup_cons in Hn as [Hi Hn].
  rewrite IH by done. unfold put_copy, has_key at 2. case_bool_decide as E.
  - subst k. rewrite (proj2 (find_none _ _) Hi). destruct (dv (item_value it));
      [by rewrite lookup_insert_eq|by rewrite lookup_delete_eq].
  - destruct (List.find _ items); [done|].
    destruct (dv (item_value it)); [by rewrite lookup_insert_ne|by rewrite lookup_delete_ne].
Qed.

Lemma drepr_find_all d m B k :
  drepr d m B -> m !! k = item_value <$> List.find (has_key k) (concat B).
Proof.
  intros H. pose proof (drepr_entries d m B H) as P.
  pose proof (concat_nodup (d_size d) B 0 (dr_ok _ _ _ H)) as Hn.
  destruct (List.find (has_key k) (concat B)) as [it|] eqn:E; simpl.
  - destruct (find_some _ _ _ E) as [<- (pre & post & Es)]. apply elem_of_map_to_list. rewrite <- P.
    apply list_elem_of_fmap. exists it. split; [done|]. rewrite Es. set_solver.
  - apply eq_None_not_Some. intros [v Hv%elem_of_map_to_list]. rewrite <- P in Hv.
    apply list_elem_of_fmap in Hv as (it & [= -> ->] & Hit). apply find_none in E. apply E.
    by apply list_elem_of_fmap_2.
Qed.

Lemma dict_duplicate_ok d m B :
  drepr d m B -> returns (dict_duplicate d dv) (fun d' => dict_holds d' (omap dv m)).
Proof.
  intros H. unfold dict_duplicate. rewrite (buckets_loop_ok _ _ B) by apply H.
  eapply returns_mono; [apply (visit_put _ (drepr_valid _ _ _ H) _ ∅)|].
  { eexists. apply dict_create_ok, H. }
  intros d' Hd'. replace (omap dv m) with (fold_left put_copy (concat B) ∅); [done|].
  apply map_eq. intros k. rewrite lookup_omap, (drepr_find_all d m B k H).
  rewrite put_copies_lookup by apply (concat_nodup (d_size d) B 0 (dr_ok _ _ _ H)).
  by destruct (List.find _ _).
Qed.
End duplicate.

(** ** Sequences of operations *)

Inductive dict_op :=
| DGet (key : Octstr)
| DPut (key : Octstr) (value : option V)
| DPutOnce (key : Octstr) (value : V)
| DRemove (key : Octstr)
| DKeyCount.

(** What an operation returns, and the values it destroys. *)
Inductive dict_result :=
| RValue (v : option V)
| RNumber (n : Z)
| RDone.

Definition dict_step (op : dict_op) d : res (dict_result * list (option V) * Dict V) :=
  match op with
  | DGet key => v ← dict_get d key; Ok (RValue v, [], d)
  | DPut key value => '(d, ds) ← dict_put d key value; Ok (RDone, ds, d)
  | DPutOnce key value => '(r, d, ds) ← dict_put_once d key (Some value); Ok (RNumber r, ds, d)
  | DRemove key => '(v, d) ← dict_remove d key; Ok (RValue v, [], d)
  | DKeyCount => Ok (RNumber (dict_key_count d), [], d)
  end.

(** The same operations on a finite map; [owner]: values are destroyed. *)
Definition map_step (owner : bool) (op : dict_op) m : dict_result * list (option V) * gmap (list Z) V :=
  match op with
  | DGet key => (RValue (m !! bytes key), [], m)
  | DPut key (Some v) =>
      (RDone, match m !! bytes key with Some old => if owner then [Some old] else [] | None => [] end,
       <[bytes key := v]> m)
  | DPut key None => (RDone, if owner then [m !! bytes key] else [], delete (bytes key) m)
  | DPutOnce key v =>
      match m !! bytes key with
      | None => (RNumber 1, [], <[bytes key := v]> m)
      | Some _ => (RNumber 0, if owner then [Some v] else [], m)
      end
  | DRemove key => (RValue (m !! bytes key), [], delete (bytes key) m)
  | DKeyCount => (RNumber (Z.of_nat (size m)), [], m)
  end.

Fixpoint dict_run (ops : list dict_op) d : res (list (dict_result * list (option V))) :=
  match ops with
  | [] => Ok []
  | op :: ops => '(r, ds, d) ← dict_step op d; rs ← dict_run ops d; Ok ((r, ds) :: rs)
  end.

Fixpoint map_run (owner : bool) (ops : list dict_op) m : list (dict_result * list (option V)) :=
  match ops with
  | [] => []
  | op :: ops => let '(r, ds, m) := map_step owner op m in (r, ds) :: map_run owner ops m
  end.

Definition op_key (op : dict_op) : option Octstr :=
  match op with
  | DGet key | DPut key _ | DPutOnce key _ | DRemove key => Some key
  | DKeyCount => None
  end.

Definition op_valid (op : dict_op) : Prop :=
  match op_key op with
  | Some key => repr key (bytes key)
  | None => True
  end.

Lemma dict_step_ok op d m :
  dict_holds d m -> op_valid op ->
  returns (dict_step op d) (fun '(r, ds, d') =>
    let '(r', ds', m') := map_step (d_destroy d) op m in
    r = r' /\ ds = ds' /\ dict_holds d' m' /\ d_destroy d' = d_destroy d).
Proof.
  intros [B H] Hop. destruct op as [key|key [v|]|key v|key|]; unfold op_valid in Hop; simpl in *.
  - rewrite (dict_get_ok d m B key _ H Hop). simpl. split_and!; [done..|by exists B|done].
  - apply returns_bind, (returns_mono _ _ _ (dict_put_value_ok d m B key _ v H Hop)).
    intros [d' ds] (? & ? & ->). done.
  - apply returns_bind, (returns_mono _ _ _ (dict_put_null_ok d m B key _ H Hop)).
    intros [d' ds] (? & ? & ->). done.
  - apply returns_bind, (returns_mono _ _ _ (dict_put_once_ok d m B key _ v H Hop)).
    intros [[r d'] ds] [? F]. destruct (m !! bytes key); destruct F as (-> & ? & ->); done.
  - apply returns_bind, (returns_mono _ _ _ (dict_remove_ok d m B key _ H Hop)).
    intros [v d'] (-> & ? & ?). done.
  - unfold dict_key_count. rewrite (dr_count _ _ _ H). split_and!; [done..|by exists B|done].
Qed.

Lemma dict_run_ok ops : forall d m, dict_holds d m -> Forall op_valid ops ->
  dict_run ops d = Ok (map_run (d_destroy d) ops m).
Proof.
  induction ops as [|op ops IH]; intros d m H Hv; [done|]. apply Forall_cons_iff in Hv as [Ho Hv].
  cbn [dict_run map_run].
  destruct (proj1 (returns_iff _ _) (dict_step_ok op d m H Ho)) as ([[r ds] d'] & -> & F).
  bind_red. destruct (map_step (d_destroy d) op m) as [[r' ds'] m'].
  destruct F as (-> & -> & Hd & E). rewrite (IH d' m' Hd Hv), E. done.
Qed.
End refinement.

Arguments dict_op : clear implicits.
Arguments dict_result : clear implicits.

(** ** Properties *)

(** C18. A hash table that was just created (with a positive size hint) behaves
    as a finite map from octet strings to values under any sequence of lookups,
    insertions (a NULL value removes), insertions of new keys only, removals and
    counts: each operation returns, with the result that the map gives, and
    destroys exactly the values that were replaced or refused; the order of the
    keys in memory and hash collisions have no effect. *)
Theorem dict_refines_map {V : Type} (size_hint : Z) (destroy : bool) (ops : list (dict_op V)) :
  0 < size_hint -> Forall op_valid ops ->
  dict_run ops (dict_create size_hint destroy) = Ok (map_run destroy ops ∅).
Proof.
  intros Hs Hv. apply (dict_run_ok ops (dict_create size_hint destroy) ∅); [|done].
  eexists. by apply dict_create_ok.
Qed.

(** The functions that visit a whole table visit each entry exactly once:
    [dict_keys] returns copies of all keys, [dict_traverse] calls its callback on
    a rearrangement of the entries and returns their number, [dict_duplicate]
    maps each key to the copy of its value, and [dict_destroy] destroys each
    value once, if it has to. *)
Theorem dict_visits_all {V D : Type} (d : Dict V) (m : gmap (list Z) V) (dv : V -> option V)
    (func : Octstr -> V -> D -> D) (data : D) :
  dict_holds d m ->
  returns (dict_keys d) (fun l => exists os ks,
    lrepr l os /\ Forall2 repr os ks /\ ks ≡ₚ (map_to_list m).*1) /\
  (exists items, kv <$> items ≡ₚ map_to_list m /\
    dict_traverse d func data = Ok (Z.of_nat (size m),
      fold_left (fun data it => func (item_key it) (item_value it) data) items data)) /\
  returns (dict_duplicate d dv) (fun d' => dict_holds d' (omap dv m)) /\
  returns (dict_destroy d) (fun vs => if d_destroy d then vs ≡ₚ (map_to_list m).*2 else vs = []).
Proof.
  intros [B H]. pose proof (drepr_entries d m B H) as P. split_and!.
  - apply dict_keys_ok. by exists B.
  - exists (concat B). split; [done|]. unfold dict_traverse. rewrite (buckets_loop_ok _ _ B) by apply H.
    rewrite visit_traverse. do 2 f_equal. apply Permutation_length in P.
    rewrite length_fmap in P. unfold zlen. rewrite P. rewrite length_map_to_list. lia.
  - by apply (dict_duplicate_ok dv d m B).
  - unfold dict_destroy. rewrite (destroy_loop_ok _ B []) by apply H. cbn.
    destruct (d_destroy d); [|done]. by apply values_perm.
Qed.

(** [dict_traverse_sorted] calls its callback on all entries in the order of
    the comparison, none greater than a later one, and returns their number. *)
Theorem dict_traverse_sorted_order {V D : Type} (d : Dict V) (m : gmap (list Z) V)
    (cmp : Item V -> Item V -> res Z) (c : Item V -> Item V -> Z) (func : Octstr -> V -> D -> D) (data : D) :
  CmpOrder c -> (forall x y, valid_item x -> valid_item y -> cmp x y = Ok (c x y)) -> dict_holds d m ->
  exists items, kv <$> items ≡ₚ map_to_list m /\
    (forall i j x y, (i < j)%nat -> items !! i = Some x -> items !! j = Some y -> c x y <= 0) /\
    dict_traverse_sorted d cmp func data = Ok (Z.of_nat (size m),
      fold_left (fun data it => func (item_key it) (item_value it) data) items data).
Proof.
  intros Hord Hc [B H]. pose proof (drepr_entries d m B H) as P. pose proof (drepr_valid d m B H) as Hv.
  unfold dict_traverse_sorted. rewrite (buckets_loop_ok _ _ B) by apply H.
  destruct (proj1 (returns_iff _ _) (visit_append (concat B) _ _ gwlist_create_ok)) as (l & -> & Hl & Hp).
  bind_red. rewrite app_nil_l in Hl.
  destruct (proj1 (returns_iff _ _) (gwlist_sort_ok cmp c l (concat B) Hl
    ltac:(intros x y Hx Hy; rewrite Forall_forall in Hv; apply Hc; apply Hv; by apply list_elem_of_In)))
    as (l' & E & ys & Hl' & Pys & Hs).
  rewrite E. bind_red. exists ys. split; [by rewrite <- Pys|]. split; [done|].
  unfold gwlist_len. rewrite (lr_len _ _ Hl').
  rewrite (consume_loop_ok func ys l' _ data Hl') by
    (apply gwlist_sort_producers in E; rewrite ?E; done || list_lia).
  cbn. do 2 f_equal. apply Permutation_length in P, Pys. rewrite length_fmap in P.
  unfold zlen. rewrite <- Pys, P, length_map_to_list. done.
Qed.

Definition sample_ops : list (dict_op Z) :=
  [DPut (mk_os [97]) (Some 1); DPut (mk_os [98]) (Some 2); DPut (mk_os [97]) (Some 3);
   DPutOnce (mk_os [98]) 4; DGet (mk_os [97]); DRemove (mk_os [98]); DKeyCount; DPut (mk_os [99]) None].

Lemma sample_ops_valid : Forall op_valid sample_ops.
Proof. repeat (apply Forall_cons_2; [unfold op_valid; simpl; done || apply mk_os_ok; octets_tac|]). apply Forall_nil_2. Qed.

Lemma dict_refines_map_witness :
  dict_run sample_ops (dict_create 1 true) =
  Ok [(RDone, []); (RDone, []); (RDone, [Some 1]); (RNumber 0, [Some 4]); (RValue (Some 3), []);
      (RValue (Some 2), []); (RNumber 1, []); (RDone, [None])].
Proof.
  rewrite (dict_refines_map 1 true sample_ops ltac:(lia) sample_ops_valid). vm_compute. reflexivity.
Defined.

Definition sample_dict : Dict Z :=
  match dict_put (dict_create 1 true) (mk_os [97]) (Some 5) with
  | Ok (d, _) => d
  | _ => dict_create 1 true
  end.

Lemma sample_dict_holds : dict_holds sample_dict {[ [97] := 5 ]}.
Proof.
  pose proof (dict_put_value_ok _ _ _ (mk_os [97]) [97] 5 (dict_create_ok 1 true ltac:(lia))
    (proj1 (mk_os_ok [97] ltac:(octets_tac)))) as P.
  unfold sample_dict. destruct (dict_put _ _ _) as [[d ds]| |]; [|done..]. apply P.
Qed.

Lemma dict_visits_all_witness :
  returns (dict_destroy sample_dict) (fun vs => vs ≡ₚ [5]) /\
  returns (dict_duplicate sample_dict (fun _ => None)) (fun d' => dict_holds d' ∅).
Proof.
  pose proof (dict_visits_all sample_dict {[ [97] := 5 ]} (fun _ => None) (fun _ _ x => x) tt
    sample_dict_holds) as (_ & _ & H3 & H4).
  split; [exact H4|exact H3].
Defined.

Lemma dict_traverse_sorted_order_witness :
  exists items, kv <$> items ≡ₚ map_to_list {[ [97] := 5 ]} /\
    (forall i j x y, (i < j)%nat -> items !! i = Some x -> items !! j = Some y ->
       item_value x - item_value y <= 0) /\
    dict_traverse_sorted sample_dict (fun x y => Ok (item_value x - item_value y))
      (fun _ v l => v :: l) [] = Ok (1, fold_left (fun data it => item_value it :: data) items []).
Proof.
  refine (dict_traverse_sorted_order sample_dict {[ [97] := 5 ]} (fun x y => Ok (item_value x - item_value y))
    (fun x y => item_value x - item_value y) (fun _ v l => v :: l) [] _ (fun x y _ _ => eq_refl)
    sample_dict_holds).
  constructor; intros; lia.
Defined.
