(* ===== verification/Uuid.v ===== *)
(** * UUIDs

    Models the representation part of src/gwlib/gw_uuid.c: packing, unpacking,
    printing, parsing and comparing the identifiers that messages carry.  A
    [uuid_t] is its 16 octets.  The generation of new identifiers (random
    device, clock and MAC address) is not modelled. *)

From S2P Require Import Prelude Octstr OctstrSearch OctstrCode.

(** ** The code *)

Record uuid := mkUuid {
  time_low : Z;
  time_mid : Z;
  time_hi_and_version : Z;
  clock_seq : Z;
  node : list Z
}.

(** The stores go from the low octet of each field to its high one. *)
Definition uuid_pack (uu : uuid) : list Z :=
  let tmp := time_low uu in
  let out3 := tmp mod 256 in
  let tmp := Z.shiftr tmp 8 in
  let out2 := tmp mod 256 in
  let tmp := Z.shiftr tmp 8 in
  let out1 := tmp mod 256 in
  let tmp := Z.shiftr tmp 8 in
  let out0 := tmp mod 256 in
  let tmp := time_mid uu in
  let out5 := tmp mod 256 in
  let tmp := Z.shiftr tmp 8 in
  let out4 := tmp mod 256 in
  let tmp := time_hi_and_version uu in
  let out7 := tmp mod 256 in
  let tmp := Z.shiftr tmp 8 in
  let out6 := tmp mod 256 in
  let tmp := clock_seq uu in
  let out9 := tmp mod 256 in
  let tmp := Z.shiftr tmp 8 in
  let out8 := tmp mod 256 in
  [out0; out1; out2; out3; out4; out5; out6; out7; out8; out9] ++ node uu.

(** [(tmp << 8) | *ptr++] on a 32-bit unsigned [tmp]. *)
Definition shift_in (tmp c : Z) : Z := Z.lor (Z.shiftl tmp 8 mod 2 ^ 32) c.

Definition uuid_unpack (ptr : block) : res uuid :=
  tmp ← rd ptr 0;
  c ← rd ptr 1; let tmp := shift_in tmp c in
  c ← rd ptr 2; let tmp := shift_in tmp c in
  c ← rd ptr 3; let tmp := shift_in tmp c in
  let time_low := tmp in
  tmp ← rd ptr 4;
  c ← rd ptr 5; let tmp := shift_in tmp c in
  let time_mid := tmp mod 2 ^ 16 in
  tmp ← rd ptr 6;
  c ← rd ptr 7; let tmp := shift_in tmp c in
  let time_hi := tmp mod 2 ^ 16 in
  tmp ← rd ptr 8;
  c ← rd ptr 9; let tmp := shift_in tmp c in
  let clock_seq := tmp mod 2 ^ 16 in
  node ← mem_copy (gw_malloc 6) 0 ptr 10 6;
  Ok (mkUuid time_low time_mid time_hi clock_seq node).

(** The conversion [%0wx] of [sprintf]: at least [w] lower-case digits. *)
Fixpoint print_hex (fuel : nat) (v : Z) : list Z :=
  match fuel with
  | O => []
  | S fuel =>
      if v <? 16 then [hexdig false v]
      else print_hex fuel (v / 16) ++ [hexdig false (v mod 16)]
  end.

Definition sprintf_0x (w : nat) (v : Z) : list Z :=
  let d := print_hex 16 v in
  replicate (w - length d) 48 ++ d.

Definition UUID_STR_LEN : Z := 36.

(** The string without its NUL. *)
Definition uuid_unparse (uu : block) : res (list Z) :=
  u ← uuid_unpack uu;
  Ok (sprintf_0x 8 (time_low u) ++ [45] ++ sprintf_0x 4 (time_mid u) ++ [45] ++
      sprintf_0x 4 (time_hi_and_version u) ++ [45] ++
      sprintf_0x 2 (Z.shiftr (clock_seq u) 8) ++ sprintf_0x 2 (Z.land (clock_seq u) 255) ++ [45] ++
      concat (sprintf_0x 2 <$> node u)).

(** [strtoul] in base 16 on a string that starts with digits: the value of the
    digits before the first other character. *)
Fixpoint strtoul_16 (acc : Z) (l : list Z) : Z :=
  match l with
  | [] => acc
  | c :: l => if isxdigit c then strtoul_16 (acc * 16 + H2B c) l else acc
  end.

(** The loop that checks the form; reading at index 36 gives the NUL. *)
Fixpoint uuid_check (s : list Z) (i : Z) (n : nat) : bool :=
  match n with
  | O => true
  | S n =>
      let c := default 0 (s !! Z.to_nat i) in
      if (i =? 8) || (i =? 13) || (i =? 18) || (i =? 23) then
        if c =? 45 then uuid_check s (i + 1) n else false
      else if (i =? 36) && (c =? 0) then uuid_check s (i + 1) n
      else if isxdigit c then uuid_check s (i + 1) n
      else false
  end.

(** [strtoul(buf, NULL, 16)] of each pair of digits. *)
Fixpoint parse_node (l : list Z) (n : nat) : list Z :=
  match n with
  | O => []
  | S n => strtoul_16 0 (take 2 l) mod 2 ^ 8 :: parse_node (drop 2 l) n
  end.

(** [None] is the result -1. *)
Definition uuid_parse (s : list Z) : option (list Z) :=
  if negb (zlen s =? 36) then None
  else if uuid_check s 0 37 then
    Some (uuid_pack (mkUuid (strtoul_16 0 s mod 2 ^ 32) (strtoul_16 0 (drop 9 s) mod 2 ^ 16)
                       (strtoul_16 0 (drop 14 s) mod 2 ^ 16) (strtoul_16 0 (drop 19 s) mod 2 ^ 16)
                       (parse_node (drop 24 s) 6)))
  else None.

Definition UUCMP (u1 u2 : Z) (k : res Z) : res Z :=
  if u1 =? u2 then k else Ok (if u1 <? u2 then -1 else 1).

Definition uuid_compare (uu1 uu2 : block) : res Z :=
  u1 ← uuid_unpack uu1;
  u2 ← uuid_unpack uu2;
  UUCMP (time_low u1) (time_low u2)
    (UUCMP (time_mid u1) (time_mid u2)
      (UUCMP (time_hi_and_version u1) (time_hi_and_version u2)
        (UUCMP (clock_seq u1) (clock_seq u2) (mem_cmp (node u1) 0 (node u2) 0 6)))).

Definition uuid_clear : list Z := replicate 16 0.

Definition uuid_copy (src : block) : res (list Z) := mem_copy (gw_malloc 16) 0 src 0 16.

Fixpoint uuid_is_null_loop (uu : block) (i : Z) (n : nat) : res Z :=
  match n with
  | O => Ok 1
  | S n => c ← rd uu i; if c =? 0 then uuid_is_null_loop uu (i + 1) n else Ok 0
  end.

Definition uuid_is_null (uu : block) : res Z := uuid_is_null_loop uu 0 16.

(** ** Lemmas *)

Definition is_uuid (u : list Z) : Prop := length u = 16%nat /\ octets u.

(** The value of octets, most significant first. *)
Definition be_value (l : list Z) : Z := fold_left (fun a c => a * 256 + c) l 0.

Lemma shift_in_ok (tmp c : Z) : 0 <= tmp < 2 ^ 24 -> octet c -> shift_in tmp c = tmp * 256 + c.
Proof.
  intros Ht Hc. unfold shift_in, octet in *. rewrite Z.shiftl_mul_pow2 by lia.
  rewrite Z.mod_small by lia. rewrite <- Z.shiftl_mul_pow2 by lia.
  by rewrite lor_shiftl_add by lia.
Qed.

(** The sixteen octets of a UUID, by name. *)
Lemma is_uuid_inv (u : list Z) :
  is_uuid u -> exists b0 b1 b2 b3 b4 b5 b6 b7 b8 b9 n,
    u = [b0; b1; b2; b3; b4; b5; b6; b7; b8; b9] ++ n /\ length n = 6%nat /\
    octets [b0; b1; b2; b3; b4; b5; b6; b7; b8; b9] /\ octets n.
Proof.
  intros [Hl Ho]. do 10 (destruct u as [|? u]; [done|]). simpl in Hl.
  do 10 eexists. exists u. split; [done|]. split; [lia|].
  by apply (Forall_app octet [_; _; _; _; _; _; _; _; _; _] u).
Qed.

Lemma be_pair (a b : Z) :
  octet a -> octet b -> shift_in a b mod 2 ^ 16 = be_value [a; b].
Proof.
  intros Ha Hb. unfold octet in *. rewrite shift_in_ok by (unfold octet; lia).
  unfold be_value; simpl. rewrite Z.mod_small; lia.
Qed.

Lemma uuid_unpack_ok (b0 b1 b2 b3 b4 b5 b6 b7 b8 b9 : Z) (n : list Z) :
  octets [b0; b1; b2; b3; b4; b5; b6; b7; b8; b9] -> length n = 6%nat ->
  uuid_unpack ([b0; b1; b2; b3; b4; b5; b6; b7; b8; b9] ++ n) =
  Ok (mkUuid (be_value [b0; b1; b2; b3]) (be_value [b4; b5]) (be_value [b6; b7])
        (be_value [b8; b9]) n).
Proof.
  intros Ho Hn. octets_inv. unfold uuid_unpack.
  repeat match goal with
  | |- context [rd (?l ++ n) ?i] =>
      let c := eval simpl in (default 0 (l !! Z.to_nat i)) in
      rewrite (rd_lookup (l ++ n) i c) by (done || (unfold octet in *; lia)); bind_red
  end.
  rewrite !be_pair by done.
  unfold octet in *.
  rewrite (shift_in_ok b0 b1), (shift_in_ok (b0 * 256 + b1) b2),
    (shift_in_ok ((b0 * 256 + b1) * 256 + b2) b3) by (unfold octet; lia).
  rewrite mem_copy_ok by (unfold gw_malloc; list_lia). bind_red.
  do 2 f_equal. unfold overwrite, gw_malloc, slice. change (Z.to_nat 10) with 10%nat.
  change (drop 10 (_ ++ n)) with n. rewrite (take_ge n) by lia. rewrite Hn. simpl.
  by rewrite app_nil_r.
Qed.

(** ** Printing *)

Fixpoint hexn (w : nat) (v : Z) : list Z :=
  match w with
  | O => []
  | S w => hexn w (v / 16) ++ [hexdig false (v mod 16)]
  end.

Lemma length_hexn w v : length (hexn w v) = w.
Proof. revert v. induction w; intros; simpl; [done|]. rewrite length_app, IHw. simpl. lia. Qed.

Lemma hexn_0 w : hexn w 0 = replicate w 48.
Proof.
  induction w as [|w IH]; [done|]. cbn [hexn]. change (0 / 16) with 0. rewrite IH.
  change (hexdig false (0 mod 16)) with 48. by rewrite <- replicate_S_end.
Qed.

Lemma print_hex_ok (fuel w : nat) (v : Z) :
  (w <= fuel)%nat -> (1 <= w)%nat -> 0 <= v < 16 ^ Z.of_nat w ->
  replicate (w - length (print_hex fuel v)) 48 ++ print_hex fuel v = hexn w v /\
  (length (print_hex fuel v) <= w)%nat.
Proof.
  revert w v. induction fuel as [|fuel IH]; intros w v Hf Hw Hv; [lia|].
  destruct w as [|w]; [lia|]. cbn [print_hex hexn].
  destruct (Z.ltb_spec v 16) as [Hs|Hs].
  - rewrite Z.div_small, Z.mod_small, hexn_0 by lia. simpl. split; [|lia].
    by replace (w - 0)%nat with w by lia.
  - assert (16 ^ Z.of_nat (S w) = 16 * 16 ^ Z.of_nat w) as Ep
      by (rewrite Nat2Z.inj_succ, Z.pow_succ_r; lia).
    assert (1 <= w)%nat by (destruct w; [simpl in *; lia|lia]).
    destruct (IH w (v / 16)) as [E L]; [lia|lia| |].
    { split; [apply Z.div_pos; lia|apply Z.div_lt_upper_bound; lia]. }
    rewrite length_app. simpl. split; [|lia].
    replace (S w - (length (print_hex fuel (v / 16)) + 1))%nat
      with (w - length (print_hex fuel (v / 16)))%nat by lia.
    by rewrite app_assoc, E.
Qed.

Lemma sprintf_0x_ok (w : nat) (v : Z) :
  (1 <= w <= 16)%nat -> 0 <= v < 16 ^ Z.of_nat w -> sprintf_0x w v = hexn w v.
Proof. intros Hw Hv. unfold sprintf_0x. apply print_hex_ok; lia. Qed.

Lemma be_value_snoc (l : list Z) (c : Z) : be_value (l ++ [c]) = be_value l * 256 + c.
Proof. unfold be_value. by rewrite fold_left_app. Qed.

Lemma be_value_range (l : list Z) : octets l -> 0 <= be_value l < 256 ^ zlen l.
Proof.
  induction l as [|c l IH] using rev_ind; intros Hl; [done|].
  apply Forall_app in Hl as [Hl Hc]. octets_inv. specialize (IH Hl).
  rewrite be_value_snoc, zlen_app. change (zlen [c]) with 1.
  rewrite Z.pow_add_r by (pose proof (zlen_nonneg l); lia). unfold octet in *. lia.
Qed.

(** The digits of a value are those of its octets. *)
Lemma hexn_be_value (l : list Z) :
  octets l -> hexn (length l * 2) (be_value l) = hex_encode false l.
Proof.
  induction l as [|c l IH] using rev_ind; intros Hl; [done|].
  apply Forall_app in Hl as [Hl Hc]. octets_inv. unfold octet in *.
  rewrite length_app, be_value_snoc, hex_encode_app. simpl.
  replace ((length l + 1) * 2)%nat with (S (S (length l * 2))) by lia. cbn [hexn].
  assert ((be_value l * 256 + c) / 16 = be_value l * 16 + c / 16) as ->.
  { replace (be_value l * 256 + c) with (be_value l * 16 * 16 + c) by lia.
    by rewrite Z.div_add_l by lia. }
  assert ((be_value l * 16 + c / 16) / 16 = be_value l) as ->.
  { rewrite Z.div_add_l by lia. rewrite (Z.div_small (c / 16)); Z.div_mod_to_equations; lia. }
  rewrite IH by done. rewrite <- app_assoc. simpl. do 3 f_equal.
  - rewrite Z.shiftr_div_pow2 by lia. change (2 ^ 4) with 16. Z.div_mod_to_equations; lia.
  - f_equal. change 15 with (2 ^ 4 - 1). rewrite land_mask by lia. change (2 ^ 4) with 16.
    Z.div_mod_to_equations; lia.
Qed.

Lemma sprintf_be (w : nat) (v : Z) (l : list Z) :
  octets l -> (1 <= length l <= 8)%nat -> w = (length l * 2)%nat -> v = be_value l ->
  sprintf_0x w v = hex_encode false l.
Proof.
  intros Hl Hn -> ->. rewrite sprintf_0x_ok; [by apply hexn_be_value|lia|].
  pose proof (be_value_range l Hl) as Hr. rewrite Nat2Z.inj_mul, Z.mul_comm, Z.pow_mul_r by lia.
  unfold zlen in Hr. exact Hr.
Qed.

Lemma be_value_low (l : list Z) (c : Z) :
  octet c -> be_value (l ++ [c]) mod 256 = c /\ Z.shiftr (be_value (l ++ [c])) 8 = be_value l.
Proof.
  unfold octet. intros Hc. rewrite be_value_snoc, Z.shiftr_div_pow2 by lia. change (2 ^ 8) with 256.
  split; [rewrite Z.add_comm, Z.mod_add by lia; by apply Z.mod_small|].
  rewrite Z.div_add_l, Z.div_small by lia. lia.
Qed.

(** The text form of a UUID. *)
Definition uuid_text (u : list Z) : list Z :=
  hex_encode false (take 4 u) ++ [45] ++ hex_encode false (take 2 (drop 4 u)) ++ [45] ++
  hex_encode false (take 2 (drop 6 u)) ++ [45] ++ hex_encode false (take 2 (drop 8 u)) ++ [45] ++
  hex_encode false (drop 10 u).

Lemma print_node (n : list Z) : octets n -> concat (sprintf_0x 2 <$> n) = hex_encode false n.
Proof.
  induction 1 as [|c n Hc Hn IH]; [done|]. csimpl. rewrite IH.
  by rewrite (sprintf_be 2 c [c]) by (octets_tac || done || simpl; lia).
Qed.

Lemma uuid_unparse_ok (u : list Z) : is_uuid u -> uuid_unparse u = Ok (uuid_text u).
Proof.
  intros (b0 & b1 & b2 & b3 & b4 & b5 & b6 & b7 & b8 & b9 & n & -> & Hn & Ho & Hno)%is_uuid_inv.
  unfold uuid_unparse. rewrite uuid_unpack_ok by done. bind_red.
  cbn [time_low time_mid time_hi_and_version clock_seq node]. octets_inv.
  destruct (be_value_low [b8] b9 ltac:(done)) as [E1 E2]. simpl in E1, E2. rewrite E2.
  change 255 with (2 ^ 8 - 1). rewrite land_mask by lia. change (2 ^ 8) with 256. rewrite E1.
  rewrite (sprintf_be 8 _ [b0; b1; b2; b3]), (sprintf_be 4 _ [b4; b5]), (sprintf_be 4 _ [b6; b7]),
    (sprintf_be 2 _ [b8]), (sprintf_be 2 b9 [b9]) by (octets_tac || done || simpl; lia).
  by rewrite print_node.
Qed.

(** ** Parsing *)

Lemma nibble_digits (c : Z) :
  octet c ->
  isxdigit (hexdig false (Z.shiftr c 4)) = true /\ isxdigit (hexdig false (Z.land c 15)) = true /\
  forall acc, (acc * 16 + H2B (hexdig false (Z.shiftr c 4))) * 16 + H2B (hexdig false (Z.land c 15))
    = acc * 256 + c.
Proof.
  intros Hc. destruct (nibbles c Hc) as (H1 & H2 & H3 & _).
  destruct (hexdig_ok false _ H1) as (_ & -> & -> & _).
  destruct (hexdig_ok false _ H2) as (_ & -> & -> & _). split_and!; [done..|]. intros acc.
  change 16 with (2 ^ 4) in H3 at 1. rewrite <- Z.shiftl_mul_pow2, lor_shiftl_add in H3 by lia.
  change (2 ^ 4) with 16 in H3. lia.
Qed.

Lemma strtoul_16_ok (l tail : list Z) (acc : Z) :
  octets l -> (forall c r, tail = c :: r -> isxdigit c = false) ->
  strtoul_16 acc (hex_encode false l ++ tail) = fold_left (fun a c => a * 256 + c) l acc.
Proof.
  intros Hl Ht. revert acc. induction Hl as [|c l Hc Hl IH]; intros acc.
  - simpl. destruct tail as [|c r]; [done|]. simpl. by rewrite (Ht c r).
  - change (hex_encode false (c :: l))
      with ([hexdig false (Z.shiftr c 4); hexdig false (Z.land c 15)] ++ hex_encode false l).
    destruct (nibble_digits c Hc) as (E1 & E2 & E3). cbn [app strtoul_16].
    rewrite E1. cbn [strtoul_16]. rewrite E2, E3. apply IH.
Qed.

Lemma parse_node_ok (n : list Z) : octets n -> parse_node (hex_encode false n) (length n) = n.
Proof.
  induction 1 as [|c n Hc Hn IH]; [done|]. cbn [length parse_node].
  change (take 2 (hex_encode false (c :: n))) with (hex_encode false [c] ++ []).
  change (drop 2 (hex_encode false (c :: n))) with (drop 0 (hex_encode false n)).
  rewrite drop_0, IH, strtoul_16_ok by (done || octets_tac).
  simpl. unfold octet in Hc. by rewrite Z.mod_small by lia.
Qed.

(** What [uuid_check] accepts, position by position. *)
Definition uuid_char_ok (i : nat) (c : Z) : Prop :=
  if decide (i = 8 \/ i = 13 \/ i = 18 \/ i = 23)%nat then c = 45 else isxdigit c = true.

Lemma uuid_check_ok (s : list Z) (n i : nat) :
  length s = 36%nat -> (i + n = 37)%nat ->
  (forall j c, s !! j = Some c -> uuid_char_ok j c) -> uuid_check s (Z.of_nat i) n = true.
Proof.
  intros Hl. revert i. induction n as [|n IH]; intros i Hi Hs; [done|]. cbn [uuid_check].
  rewrite Nat2Z.id. replace (Z.of_nat i + 1) with (Z.of_nat (S i)) by lia.
  rewrite (IH (S i)) by (done || lia).
  destruct (s !! i) as [c|] eqn:Ec; simpl.
  - specialize (Hs i c Ec). unfold uuid_char_ok in Hs. apply lookup_lt_Some in Ec.
    case_decide as D.
    + subst c. destruct (_ || _) eqn:E; [done|]. lia.
    + rewrite Hs. destruct (_ || _) eqn:E; [lia|]. by destruct (_ && _).
  - apply lookup_ge_None in Ec. replace i with 36%nat by lia. done.
Qed.

Lemma hex_encode_chars (l : list Z) : octets l -> Forall (fun c => isxdigit c = true) (hex_encode false l).
Proof.
  induction 1 as [|c l Hc Hl IH]; [apply Forall_nil_2|].
  destruct (nibble_digits c Hc) as (E1 & E2 & _). by do 2 (apply Forall_cons_2; [done|]).
Qed.

(** A position of the text is a dash or a digit of a group. *)
Lemma uuid_text_chars (g1 g2 g3 g4 g5 : list Z) :
  length g1 = 8%nat -> length g2 = 4%nat -> length g3 = 4%nat -> length g4 = 4%nat ->
  Forall (fun c => isxdigit c = true) (g1 ++ g2 ++ g3 ++ g4 ++ g5) ->
  forall j c, (g1 ++ [45] ++ g2 ++ [45] ++ g3 ++ [45] ++ g4 ++ [45] ++ g5) !! j = Some c ->
    uuid_char_ok j c.
Proof.
  intros L1 L2 L3 L4 HF j c Hj. rewrite !Forall_app in HF. destruct HF as (F1 & F2 & F3 & F4 & F5).
  rewrite Forall_lookup in F1, F2, F3, F4, F5. unfold uuid_char_ok. simpl in Hj.
  repeat first [rewrite lookup_app_dec in Hj | rewrite lookup_cons_dec in Hj].
  repeat (case_decide; try lia); eauto; simplify_eq; done || lia.
Qed.

Lemma uuid_parse_ok (u : list Z) : is_uuid u -> uuid_parse (uuid_text u) = Some u.
Proof.
  intros (b0 & b1 & b2 & b3 & b4 & b5 & b6 & b7 & b8 & b9 & n & -> & Hn & Ho & Hno)%is_uuid_inv.
  unfold uuid_text. octets_inv.
  change (take 4 _) with [b0; b1; b2; b3]. change (take 2 (drop 4 _)) with [b4; b5].
  change (take 2 (drop 6 _)) with [b6; b7]. change (take 2 (drop 8 _)) with [b8; b9].
  change (drop 10 _) with n.
  set (g5 := hex_encode false n).
  assert (length g5 = 12%nat) as L5 by (unfold g5; rewrite length_hex_encode; lia).
  set (s := hex_encode false [b0; b1; b2; b3] ++ _).
  assert (length s = 36%nat) as Ls.
  { unfold s. rewrite !length_app, !length_hex_encode, L5. done. }
  unfold uuid_parse. rewrite (proj2 (Z.eqb_eq _ 36)) by (unfold zlen; lia). cbn [negb].
  change 0 with (Z.of_nat 0) at 1. rewrite (uuid_check_ok s 37 0); [|done|done|].
  2: { apply uuid_text_chars; try (by rewrite length_hex_encode).
       rewrite !Forall_app. split_and!; apply hex_encode_chars; octets_tac || done. }
  change (drop 9 s) with (hex_encode false [b4; b5] ++ [45] ++ drop 14 s).
  change (drop 14 s) with (hex_encode false [b6; b7] ++ [45] ++ drop 19 s).
  change (drop 19 s) with (hex_encode false [b8; b9] ++ [45] ++ drop 24 s).
  change (drop 24 s) with g5. unfold s, g5.
  rewrite !strtoul_16_ok by (octets_tac || by intros ? ? [= <- _]).
  rewrite <- Hn at 1. rewrite parse_node_ok by done. unfold uuid_pack.
  cbn [time_low time_mid time_hi_and_version clock_seq node].
  pose proof (be_value_range [b0; b1; b2; b3] ltac:(octets_tac)) as R1.
  pose proof (be_value_range [b4; b5] ltac:(octets_tac)) as R2.
  pose proof (be_value_range [b6; b7] ltac:(octets_tac)) as R3.
  pose proof (be_value_range [b8; b9] ltac:(octets_tac)) as R4.
  fold (be_value [b0; b1; b2; b3]) (be_value [b4; b5]) (be_value [b6; b7]) (be_value [b8; b9]).
  change (256 ^ zlen _) with (2 ^ 32) in R1. change (256 ^ zlen _) with (2 ^ 16) in R2, R3, R4.
  rewrite (Z.mod_small _ _ R1), (Z.mod_small _ _ R2), (Z.mod_small _ _ R3), (Z.mod_small _ _ R4).
  destruct (be_value_low [b0; b1; b2] b3 ltac:(done)) as [E1 E2].
  destruct (be_value_low [b0; b1] b2 ltac:(done)) as [E3 E4].
  destruct (be_value_low [b0] b1 ltac:(done)) as [E5 E6].
  destruct (be_value_low [] b0 ltac:(done)) as [E7 _].
  destruct (be_value_low [b4] b5 ltac:(done)) as [E8 E9].
  destruct (be_value_low [] b4 ltac:(done)) as [E10 _].
  destruct (be_value_low [b6] b7 ltac:(done)) as [E11 E12].
  destruct (be_value_low [] b6 ltac:(done)) as [E13 _].
  destruct (be_value_low [b8] b9 ltac:(done)) as [E14 E15].
  destruct (be_value_low [] b8 ltac:(done)) as [E16 _].
  cbn [app] in *. by rewrite E2, E4, E6, E9, E12, E15, E1, E3, E5, E7, E8, E10, E11, E13, E14, E16.
Qed.

(** ** Comparison *)

Lemma be_value_acc (l : list Z) (a : Z) :
  fold_left (fun a c => a * 256 + c) l a = a * 256 ^ zlen l + be_value l.
Proof.
  revert a. induction l as [|c l IH]; intros a; [unfold be_value; simpl; change (zlen []) with 0; lia|].
  unfold be_value. simpl. rewrite !IH.
  replace (zlen (c :: l)) with (1 + zlen l) by list_lia.
  rewrite Z.pow_add_r by (pose proof (zlen_nonneg l); lia). lia.
Qed.

Lemma be_value_cons (c : Z) (l : list Z) : be_value (c :: l) = c * 256 ^ zlen l + be_value l.
Proof. unfold be_value at 1. simpl. by rewrite be_value_acc. Qed.

(** Comparing the values of fields and then the rest is comparing octets. *)
Lemma strcmp_be (l k r t : list Z) :
  length l = length k -> octets l -> octets k ->
  strcmp (l ++ r) (k ++ t) =
  if be_value l =? be_value k then strcmp r t
  else if be_value l <? be_value k then -1 else 1.
Proof.
  revert k. induction l as [|x l IH]; intros [|y k] Hlen Hl Hk; try done. octets_inv.
  simpl in Hlen. rewrite !be_value_cons. assert (zlen l = zlen k) as E by list_lia. rewrite E.
  pose proof (be_value_range l Hl) as R1. pose proof (be_value_range k Hk) as R2. rewrite E in R1.
  cbn [app strcmp]. unfold octet in *.
  destruct (Z.ltb_spec x y); [|destruct (Z.ltb_spec y x)].
  - destruct (Z.eqb_spec (x * 256 ^ zlen k + be_value l) (y * 256 ^ zlen k + be_value k)); [nia|].
    by destruct (Z.ltb_spec (x * 256 ^ zlen k + be_value l) (y * 256 ^ zlen k + be_value k)); [|nia].
  - destruct (Z.eqb_spec (x * 256 ^ zlen k + be_value l) (y * 256 ^ zlen k + be_value k)); [nia|].
    by destruct (Z.ltb_spec (x * 256 ^ zlen k + be_value l) (y * 256 ^ zlen k + be_value k)); [nia|].
  - assert (x = y) as -> by lia. rewrite IH by (done || lia).
    repeat wp_if; try done; lia.
Qed.

Lemma lex_cmp_strcmp (l k : list Z) : length l = length k -> lex_cmp l k = strcmp l k.
Proof.
  revert k. induction l as [|x l IH]; intros [|y k] H; try done. simpl in *. by rewrite IH by lia.
Qed.

Lemma mem_cmp_full (l k : list Z) (n : Z) :
  octets l -> octets k -> zlen l = n -> zlen k = n -> mem_cmp l 0 k 0 n = Ok (strcmp l k).
Proof.
  intros Hl Hk El Ek. assert (forall s, octets s -> zlen s = n -> readable s 0 n = true) as Hr.
  { intros s Hs Es. unfold readable. rewrite in_block_true by list_lia. rewrite <- Es, slice_all.
    simpl. apply forallb_forall. intros x Hx. rewrite Forall_forall in Hs.
    apply Hs in Hx. unfold octet in Hx. lia. }
  unfold mem_cmp. rewrite !Hr by done. simpl. rewrite <- Ek at 2. rewrite <- El at 1.
  rewrite !slice_all. f_equal. apply lex_cmp_strcmp. list_lia.
Qed.

Lemma uuid_is_null_loop_ok (u : list Z) (n i : nat) :
  octets u -> (i + n = length u)%nat ->
  uuid_is_null_loop u (Z.of_nat i) n = Ok (if bool_decide (drop i u = replicate n 0) then 1 else 0).
Proof.
  intros Ho. revert i. induction n as [|n IH]; intros i Hn; simpl.
  { by rewrite drop_ge by lia. }
  destruct (lookup_lt_is_Some_2 u i) as [c Hc]; [lia|].
  pose proof (proj1 (Forall_lookup _ _) Ho i c Hc) as Hoc. unfold octet in Hoc.
  rewrite (rd_lookup u (Z.of_nat i) c); [|lia|by rewrite Nat2Z.id|lia]. bind_red.
  rewrite (drop_S _ _ _ Hc). destruct (Z.eqb_spec c 0) as [->|Hne].
  - replace (Z.of_nat i + 1) with (Z.of_nat (S i)) by lia. rewrite IH by lia. f_equal.
    erewrite (bool_decide_ext (drop (S i) u = _)); [done|]. split; [by intros ->|by intros [= ->]].
  - by rewrite bool_decide_false by congruence.
Qed.

Lemma uuid_is_null_ok (u : list Z) :
  is_uuid u -> uuid_is_null u = Ok (if bool_decide (u = uuid_clear) then 1 else 0).
Proof. intros [Hl Ho]. apply (uuid_is_null_loop_ok u 16 0); [done|by rewrite Hl]. Qed.

(** ** Properties *)

(** Printing a UUID gives 36 characters, and parsing them gives the same
    16 octets. *)
Theorem uuid_roundtrip (u : list Z) :
  is_uuid u ->
  returns (uuid_unparse u) (fun s => zlen s = UUID_STR_LEN /\ uuid_parse s = Some u).
Proof.
  intros Hu. rewrite uuid_unparse_ok by done. simpl. split; [|by apply uuid_parse_ok].
  destruct Hu as [Hl _]. unfold uuid_text, UUID_STR_LEN, zlen.
  rewrite !length_app, !length_hex_encode, !length_take, !length_drop, Hl. done.
Qed.

Definition sample_uuid : list Z :=
  [18; 52; 86; 120; 154; 188; 222; 240; 0; 1; 2; 3; 4; 5; 254; 255].

Lemma sample_uuid_ok : is_uuid sample_uuid.
Proof. split; [done|]. unfold sample_uuid. octets_tac. Qed.

Lemma uuid_roundtrip_witness :
  returns (uuid_unparse sample_uuid)
    (fun s => zlen s = UUID_STR_LEN /\ uuid_parse s = Some sample_uuid).
Proof. exact (uuid_roundtrip sample_uuid sample_uuid_ok). Defined.

(** [uuid_compare] orders UUIDs as their 16 octets are ordered, from the first
    on; in particular it returns 0 exactly for equal UUIDs. *)
Theorem uuid_compare_octets (u1 u2 : list Z) :
  is_uuid u1 -> is_uuid u2 ->
  uuid_compare u1 u2 = Ok (strcmp u1 u2) /\ (uuid_compare u1 u2 = Ok 0 <-> u1 = u2).
Proof.
  intros H1 H2. assert (uuid_compare u1 u2 = Ok (strcmp u1 u2)) as E.
  2: { split; [done|]. rewrite E. split; [intros [= Hs]; by apply strcmp_eq_0|].
       intros ->. by rewrite (proj2 (strcmp_eq_0 u2 u2)). }
  apply is_uuid_inv in H1 as (a0&a1&a2&a3&a4&a5&a6&a7&a8&a9&n&->&Hn&Ho&Hno).
  apply is_uuid_inv in H2 as (b0&b1&b2&b3&b4&b5&b6&b7&b8&b9&m&->&Hm&Hp&Hmo).
  unfold uuid_compare. rewrite !uuid_unpack_ok by done. bind_red. octets_inv.
  cbn [time_low time_mid time_hi_and_version clock_seq node].
  rewrite mem_cmp_full by (done || unfold zlen; lia).
  change (strcmp ([a0; a1; a2; a3; a4; a5; a6; a7; a8; a9] ++ n)
                 ([b0; b1; b2; b3; b4; b5; b6; b7; b8; b9] ++ m))
    with (strcmp ([a0; a1; a2; a3] ++ [a4; a5] ++ [a6; a7] ++ [a8; a9] ++ n)
                 ([b0; b1; b2; b3] ++ [b4; b5] ++ [b6; b7] ++ [b8; b9] ++ m)).
  rewrite !strcmp_be by (done || octets_tac). unfold UUCMP.
  by repeat destruct (_ =? _).
Qed.

Lemma uuid_compare_octets_witness :
  uuid_compare sample_uuid uuid_clear = Ok 1 /\
  (uuid_compare sample_uuid sample_uuid = Ok 0 <-> sample_uuid = sample_uuid).
Proof.
  assert (is_uuid uuid_clear) as Hc by (split; [done|unfold uuid_clear; simpl; octets_tac]).
  split.
  - refine (proj1 (uuid_compare_octets sample_uuid uuid_clear sample_uuid_ok Hc)).
  - refine (proj2 (uuid_compare_octets sample_uuid sample_uuid sample_uuid_ok sample_uuid_ok)).
Defined.
