(* ===== verification/Msg.v ===== *)
(** * Messages between the boxes

    Models src/gw/msg.c with the declarations of src/gw/msg-decl.h: the [Msg]
    structure, and its packing to and unpacking from the octets that the
    bearerbox, the smsboxes and the message store exchange.  The source generates
    the field by field code from msg-decl.h with macros; here a structure is
    converted to the list of its fields in the declared order, and the macros
    [INTEGER], [OCTSTR], [UUID] and [VOID] are the cases of [value].  [long] is
    64 bits wide and [int] 32.  The identifiers that [uuid_generate] draws are
    arguments. *)

From S2P Require Import Prelude Octstr OctstrSearch OctstrCode Uuid.

(** ** Integers in network order: src/gwlib/utils.c *)

(** The conversion to a 32-bit [int], in two's complement. *)
Definition int32 (z : Z) : Z := (z + 2 ^ 31) mod 2 ^ 32 - 2 ^ 31.

Definition encode_network_long (value : Z) : list Z :=
  let value := value mod 2 ^ 64 in
  [Z.land (Z.shiftr value 24) 255; Z.land (Z.shiftr value 16) 255;
   Z.land (Z.shiftr value 8) 255; Z.land value 255].

Arguments encode_network_long : simpl never.

(** The shifts are of [int]s: an octet above 127 at the front gives a negative
    number. *)
Definition decode_network_long (data : block) : res Z :=
  d0 ← rd data 0;
  d1 ← rd data 1;
  d2 ← rd data 2;
  d3 ← rd data 3;
  Ok (Z.lor (Z.lor (Z.lor (int32 (Z.shiftl d0 24)) (Z.shiftl d1 16)) (Z.shiftl d2 8)) d3).

(** ** The structures of msg-decl.h *)

Record heartbeat := mkHeartbeat { heartbeat_load : Z }.

Record admin := mkAdmin {
  admin_command : Z;
  admin_boxc_id : option Octstr;
  admin_http_port : Z
}.

Record sms := mkSms {
  sms_sender : option Octstr;
  sms_receiver : option Octstr;
  sms_udhdata : option Octstr;
  sms_msgdata : option Octstr;
  sms_time : Z;
  sms_smsc_id : option Octstr;
  sms_smsc_number : option Octstr;
  sms_foreign_id : option Octstr;
  sms_service : option Octstr;
  sms_account : option Octstr;
  sms_id : list Z;
  sms_sms_type : Z;
  sms_mclass : Z;
  sms_mwi : Z;
  sms_coding : Z;
  sms_compress : Z;
  sms_validity : Z;
  sms_deferred : Z;
  sms_dlr_mask : Z;
  sms_dlr_url : option Octstr;
  sms_pid : Z;
  sms_alt_dcs : Z;
  sms_rpi : Z;
  sms_charset : option Octstr;
  sms_boxc_id : option Octstr;
  sms_binfo : option Octstr;
  sms_msg_left : Z;
  sms_split_parts : Z;
  sms_priority : Z;
  sms_resend_try : Z;
  sms_resend_time : Z;
  sms_meta_data : option Octstr
}.

Record ack := mkAck {
  ack_nack : Z;
  ack_time : Z;
  ack_id : list Z
}.

Record wdp_datagram := mkWdp {
  wdp_source_address : option Octstr;
  wdp_source_port : Z;
  wdp_destination_address : option Octstr;
  wdp_destination_port : Z;
  wdp_user_data : option Octstr
}.

(** [enum msg_type], in the order of the declarations. *)
Definition T_HEARTBEAT : Z := 0.
Definition T_ADMIN : Z := 1.
Definition T_SMS : Z := 2.
Definition T_ACK : Z := 3.
Definition T_WDP_DATAGRAM : Z := 4.

(** A [Msg] has all the structures; [type] says which one counts. *)
Record Msg := mkMsg {
  m_type : Z;
  m_heartbeat : heartbeat;
  m_admin : admin;
  m_sms : sms;
  m_ack : ack;
  m_wdp_datagram : wdp_datagram
}.

(** ** Fields *)

Inductive value : Type :=
| VInt (i : Z)
| VStr (o : option Octstr)
| VUuid (u : list Z)
| VPtr (p : Z).

Definition heartbeat_values (p : heartbeat) : list value := [VInt (heartbeat_load p)].

Definition admin_values (p : admin) : list value :=
  [VInt (admin_command p); VStr (admin_boxc_id p); VInt (admin_http_port p)].

Definition sms_values (p : sms) : list value :=
  [VStr (sms_sender p); VStr (sms_receiver p); VStr (sms_udhdata p); VStr (sms_msgdata p);
   VInt (sms_time p); VStr (sms_smsc_id p); VStr (sms_smsc_number p); VStr (sms_foreign_id p);
   VStr (sms_service p); VStr (sms_account p); VUuid (sms_id p); VInt (sms_sms_type p);
   VInt (sms_mclass p); VInt (sms_mwi p); VInt (sms_coding p); VInt (sms_compress p);
   VInt (sms_validity p); VInt (sms_deferred p); VInt (sms_dlr_mask p); VStr (sms_dlr_url p);
   VInt (sms_pid p); VInt (sms_alt_dcs p); VInt (sms_rpi p); VStr (sms_charset p);
   VStr (sms_boxc_id p); VStr (sms_binfo p); VInt (sms_msg_left p); VPtr (sms_split_parts p);
   VInt (sms_priority p); VInt (sms_resend_try p); VInt (sms_resend_time p);
   VStr (sms_meta_data p)].

Definition ack_values (p : ack) : list value :=
  [VInt (ack_nack p); VInt (ack_time p); VUuid (ack_id p)].

Definition wdp_values (p : wdp_datagram) : list value :=
  [VStr (wdp_source_address p); VInt (wdp_source_port p); VStr (wdp_destination_address p);
   VInt (wdp_destination_port p); VStr (wdp_user_data p)].

(** The fields of the structure that counts; [None] for an unknown type. *)
Definition msg_values (m : Msg) : option (list value) :=
  if m_type m =? T_HEARTBEAT then Some (heartbeat_values (m_heartbeat m))
  else if m_type m =? T_ADMIN then Some (admin_values (m_admin m))
  else if m_type m =? T_SMS then Some (sms_values (m_sms m))
  else if m_type m =? T_ACK then Some (ack_values (m_ack m))
  else if m_type m =? T_WDP_DATAGRAM then Some (wdp_values (m_wdp_datagram m))
  else None.

(** Storing the fields in the structure again. *)
Definition set_msg_values (m : Msg) (vs : list value) : Msg :=
  match vs with
  | [VInt load] =>
      mkMsg (m_type m) (mkHeartbeat load) (m_admin m) (m_sms m) (m_ack m) (m_wdp_datagram m)
  | [VInt command; VStr boxc_id; VInt http_port] =>
      mkMsg (m_type m) (m_heartbeat m) (mkAdmin command boxc_id http_port) (m_sms m) (m_ack m)
        (m_wdp_datagram m)
  | [VStr sender; VStr receiver; VStr udhdata; VStr msgdata; VInt time; VStr smsc_id;
     VStr smsc_number; VStr foreign_id; VStr service; VStr account; VUuid id; VInt sms_type;
     VInt mclass; VInt mwi; VInt coding; VInt compress; VInt validity; VInt deferred;
     VInt dlr_mask; VStr dlr_url; VInt pid; VInt alt_dcs; VInt rpi; VStr charset; VStr boxc_id;
     VStr binfo; VInt msg_left; VPtr split_parts; VInt priority; VInt resend_try;
     VInt resend_time; VStr meta_data] =>
      mkMsg (m_type m) (m_heartbeat m) (m_admin m)
        (mkSms sender receiver udhdata msgdata time smsc_id smsc_number foreign_id service account
           id sms_type mclass mwi coding compress validity deferred dlr_mask dlr_url pid alt_dcs
           rpi charset boxc_id binfo msg_left split_parts priority resend_try resend_time
           meta_data) (m_ack m) (m_wdp_datagram m)
  | [VInt nack; VInt time; VUuid id] =>
      mkMsg (m_type m) (m_heartbeat m) (m_admin m) (m_sms m) (mkAck nack time id)
        (m_wdp_datagram m)
  | [VStr source_address; VInt source_port; VStr destination_address; VInt destination_port;
     VStr user_data] =>
      mkMsg (m_type m) (m_heartbeat m) (m_admin m) (m_sms m) (m_ack m)
        (mkWdp source_address source_port destination_address destination_port user_data)
  | _ => m
  end.

(** ** Creation and duplication *)

Definition MSG_PARAM_UNDEFINED : Z := -1.

(** [msg_create_real]; [id1] and [id2] are what [uuid_generate] gives. *)
Definition msg_create (id1 id2 : list Z) (type : Z) : Msg :=
  let u := MSG_PARAM_UNDEFINED in
  mkMsg type (mkHeartbeat u) (mkAdmin u None u)
    (mkSms None None None None u None None None None None id1 u u u u u u u u None u u u
       None None None u 0 u u u None)
    (mkAck u u id2) (mkWdp None u None u None).

Definition dup_value (v : value) : res value :=
  match v with
  | VStr (Some o) => o' ← octstr_duplicate (Some o); Ok (VStr o')
  | VUuid u => u' ← uuid_copy u; Ok (VUuid u')
  | v => Ok v
  end.

Fixpoint dup_values (vs : list value) : res (list value) :=
  match vs with
  | [] => Ok []
  | v :: vs => v ← dup_value v; vs ← dup_values vs; Ok (v :: vs)
  end.

(** [msg_duplicate] copies the fields of all the structures. *)
Definition msg_duplicate (id1 id2 : list Z) (msg : Msg) : res Msg :=
  let new := msg_create id1 id2 (m_type msg) in
  hb ← dup_values (heartbeat_values (m_heartbeat msg));
  let new := set_msg_values new hb in
  ad ← dup_values (admin_values (m_admin msg));
  let new := set_msg_values new ad in
  sm ← dup_values (sms_values (m_sms msg));
  let new := set_msg_values new sm in
  ac ← dup_values (ack_values (m_ack msg));
  let new := set_msg_values new ac in
  wd ← dup_values (wdp_values (m_wdp_datagram msg));
  Ok (set_msg_values new wd).

(** ** Packing *)

Definition append_integer (os : Octstr) (i : Z) : res Octstr :=
  octstr_append_data os (encode_network_long i) 4.

Definition append_string (os : Octstr) (field : option Octstr) : res Octstr :=
  match field with
  | None => append_integer os (-1)
  | Some field =>
      n ← octstr_len (Some field);
      os ← append_integer os n;
      pos ← octstr_len (Some os);
      octstr_insert os (Some field) pos
  end.

Definition append_uuid (os : Octstr) (id : list Z) : res Octstr :=
  buf ← uuid_unparse id;
  os ← append_integer os UUID_STR_LEN;
  octstr_append_cstr os buf.

Definition append_value (os : Octstr) (v : value) : res Octstr :=
  match v with
  | VInt i => append_integer os i
  | VStr o => append_string os o
  | VUuid u => append_uuid os u
  | VPtr _ => Ok os
  end.

Fixpoint append_values (os : Octstr) (vs : list value) : res Octstr :=
  match vs with
  | [] => Ok os
  | v :: vs => os ← append_value os v; append_values os vs
  end.

Definition msg_pack (msg : Msg) : res Octstr :=
  os ← octstr_create [];
  os ← append_integer os (m_type msg);
  match msg_values msg with
  | Some vs => append_values os vs
  | None => Panic
  end.

(** ** Unpacking

    The parsers return [None] for -1 and otherwise the value and the new
    offset.  The offset is an [int]; going over its maximum in [*off + 4] is
    undefined. *)

Definition INT_MAX : Z := 2 ^ 31 - 1.

Definition parse_integer (packed : Octstr) (off : Z) : res (option (Z * Z)) :=
  assert: 0 <=? off;
  if INT_MAX <? off + 4 then Undef
  else
    n ← octstr_len (Some packed);
    if n <? off + 4 then Ok None
    else
      buf ← octstr_get_many_chars (gw_malloc 4) packed off 4;
      i ← decode_network_long buf;
      Ok (Some (i, off + 4)).

Definition parse_string (packed : Octstr) (off : Z) : res (option (option Octstr * Z)) :=
  r ← parse_integer packed off;
  match r with
  | None => Ok None
  | Some (len, off) =>
      if len =? -1 then Ok (Some (None, off))
      else
        o ← octstr_copy (Some packed) off len;
        Ok (Some (Some o, int32 (off + len)))
  end.

(** [octstr_get_cstr]: the C string up to the first NUL, ["(null)"] for NULL. *)
Definition octstr_get_cstr (o : option Octstr) : res (list Z) :=
  match o with
  | None => Ok [40; 110; 117; 108; 108; 41]
  | Some o =>
      seems_valid o ≫= fun _ =>
      if os_len o =? 0 then Ok [] else Ok (cstr (os_data o))
  end.

Definition parse_uuid (packed : Octstr) (off : Z) : res (option (list Z * Z)) :=
  r ← parse_string packed off;
  match r with
  | None => Ok None
  | Some (tmp, off) =>
      s ← octstr_get_cstr tmp;
      match uuid_parse s with
      | None => Ok None
      | Some u => Ok (Some (u, off))
      end
  end.

(** A field of the kind that [v] has; a [VOID] field keeps its value. *)
Definition parse_value (packed : Octstr) (off : Z) (v : value) : res (option (value * Z)) :=
  match v with
  | VInt _ => r ← parse_integer packed off; Ok (option_map (fun p => (VInt p.1, p.2)) r)
  | VStr _ => r ← parse_string packed off; Ok (option_map (fun p => (VStr p.1, p.2)) r)
  | VUuid _ => r ← parse_uuid packed off; Ok (option_map (fun p => (VUuid p.1, p.2)) r)
  | VPtr _ => Ok (Some (v, off))
  end.

Fixpoint parse_values (packed : Octstr) (off : Z) (vs : list value)
  : res (option (list value)) :=
  match vs with
  | [] => Ok (Some [])
  | v :: vs =>
      r ← parse_value packed off v;
      match r with
      | None => Ok None
      | Some (v, off) => r ← parse_values packed off vs; Ok (option_map (cons v) r)
      end
  end.

(** [msg_unpack_real]; [None] is NULL. *)
Definition msg_unpack (id1 id2 : list Z) (os : Octstr) : res (option Msg) :=
  r ← parse_integer os 0;
  match r with
  | None => Ok None
  | Some (i, off) =>
      let msg := msg_create id1 id2 i in
      match msg_values msg with
      | None => Ok None
      | Some vs => r ← parse_values os off vs; Ok (option_map (set_msg_values msg) r)
      end
  end.

(** ** Integers: lemmas *)

Lemma int32_range (z : Z) : - 2 ^ 31 <= int32 z < 2 ^ 31.
Proof. unfold int32. pose proof (Z.mod_pos_bound (z + 2 ^ 31) (2 ^ 32)). lia. Qed.

Lemma int32_small (z : Z) : - 2 ^ 31 <= z < 2 ^ 31 -> int32 z = z.
Proof. intros. unfold int32. rewrite Z.mod_small; lia. Qed.

Lemma int32_mod (z : Z) : int32 (z mod 2 ^ 32) = int32 z.
Proof. unfold int32. by rewrite Z.add_mod_idemp_l. Qed.

Lemma octets_encode (z : Z) : octets (encode_network_long z).
Proof.
  unfold encode_network_long. change 255 with (2 ^ 8 - 1). rewrite !land_mask by lia.
  repeat (apply Forall_cons_2; [apply octet_mod|]). apply Forall_nil_2.
Qed.

Lemma encode_be_value (z : Z) : be_value (encode_network_long z) = z mod 2 ^ 32.
Proof.
  unfold encode_network_long, be_value. change 255 with (2 ^ 8 - 1). rewrite !land_mask by lia.
  rewrite !Z.shiftr_div_pow2 by lia. cbn [fold_left].
  assert (z mod 2 ^ 32 = (z mod 2 ^ 64) mod 2 ^ 32) as ->.
  { rewrite (Z.div_mod z (2 ^ 64)) at 1 by lia.
    replace (2 ^ 64 * (z / 2 ^ 64) + z mod 2 ^ 64)
      with (z mod 2 ^ 64 + (2 ^ 32 * (z / 2 ^ 64)) * 2 ^ 32) by lia.
    by rewrite Z.mod_add by lia. }
  set (v := z mod 2 ^ 64).
  replace (v / 2 ^ 24) with (v / 2 ^ 8 / 2 ^ 8 / 2 ^ 8) by (rewrite !Z.div_div by lia; done).
  replace (v / 2 ^ 16) with (v / 2 ^ 8 / 2 ^ 8) by (rewrite !Z.div_div by lia; done).
  change (2 ^ 32) with (256 * (256 * (256 * 256))). change (2 ^ 8) with 256.
  rewrite !Z.rem_mul_r by lia. lia.
Qed.

(** A signed octet in front of unsigned ones. *)
Lemma lor_octets (a b n : Z) :
  0 <= n -> octet b -> Z.lor (Z.shiftl a (8 + n)) (Z.shiftl b n) = Z.shiftl (a * 256 + b) n.
Proof.
  intros Hn Hb. unfold octet in Hb. rewrite <- Z.shiftl_shiftl, <- Z.shiftl_lor by lia.
  by rewrite lor_shiftl_add by lia.
Qed.

Lemma decode_be_value (b0 b1 b2 b3 : Z) :
  octets [b0; b1; b2; b3] ->
  decode_network_long [b0; b1; b2; b3] = Ok (int32 (be_value [b0; b1; b2; b3])).
Proof.
  intros Ho. octets_inv. unfold decode_network_long.
  rewrite (rd_lookup _ 0 b0), (rd_lookup _ 1 b1), (rd_lookup _ 2 b2), (rd_lookup _ 3 b3)
    by (done || unfold octet in *; lia). bind_red. f_equal.
  set (a := if b0 <? 128 then b0 else b0 - 256).
  assert (int32 (Z.shiftl b0 24) = Z.shiftl a 24) as ->.
  { rewrite !Z.shiftl_mul_pow2 by lia. unfold int32, a, octet in *.
    destruct (Z.ltb_spec b0 128); [rewrite Z.mod_small; lia|].
    replace (b0 * 2 ^ 24 + 2 ^ 31) with (b0 * 2 ^ 24 - 2 ^ 31 + 1 * 2 ^ 32) by lia.
    rewrite Z.mod_add, Z.mod_small; lia. }
  change (Z.shiftl a 24) with (Z.shiftl a (8 + 16)). rewrite lor_octets by (done || lia).
  change (Z.shiftl (a * 256 + b1) 16) with (Z.shiftl (a * 256 + b1) (8 + 8)).
  rewrite lor_octets by (done || lia).
  rewrite lor_shiftl_add by (unfold octet in *; lia). change (2 ^ 8) with 256.
  unfold be_value, int32, a, octet in *. cbn [fold_left].
  destruct (Z.ltb_spec b0 128); [rewrite Z.mod_small; lia|].
  match goal with |- _ = ?x mod _ - _ =>
    replace x with (x - 2 ^ 32 + 1 * 2 ^ 32) by lia end.
  rewrite Z.mod_add, Z.mod_small; lia.
Qed.

Lemma decode_encode (z : Z) : decode_network_long (encode_network_long z) = Ok (int32 z).
Proof.
  pose proof (octets_encode z) as Ho. pose proof (encode_be_value z) as Hv.
  unfold encode_network_long in *. rewrite decode_be_value, Hv by done. by rewrite int32_mod.
Qed.

(** ** What the fields stand for *)

Inductive field : Type :=
| FInt (i : Z)
| FStr (s : option (list Z))
| FUuid (u : list Z)
| FPtr (p : Z).

#[export] Instance field_eq_dec : EqDecision field.
Proof. solve_decision. Defined.

Inductive holds : value -> field -> Prop :=
| holds_int i : holds (VInt i) (FInt i)
| holds_null : holds (VStr None) (FStr None)
| holds_str o s : repr o s -> holds (VStr (Some o)) (FStr (Some s))
| holds_uuid u : is_uuid u -> holds (VUuid u) (FUuid u)
| holds_ptr p : holds (VPtr p) (FPtr p).

(** The octets of a field in a packed message. *)
Definition wire (f : field) : list Z :=
  match f with
  | FInt i => encode_network_long i
  | FStr None => encode_network_long (-1)
  | FStr (Some s) => encode_network_long (zlen s) ++ s
  | FUuid u => encode_network_long UUID_STR_LEN ++ uuid_text u
  | FPtr _ => []
  end.

(** What comes out again: integers are truncated to 32 bits, and a field that is
    not packed is the one of a new message. *)
Definition received (f : field) : field :=
  match f with
  | FInt i => FInt (int32 i)
  | FPtr _ => FPtr 0
  | f => f
  end.

Lemma zlen_encode (i : Z) : zlen (encode_network_long i) = 4.
Proof. done. Qed.

Lemma uuid_text_Forall (P : Z -> Prop) (u : list Z) :
  (forall n, 0 <= n < 16 -> P (hexdig false n)) -> P 45 -> is_uuid u -> Forall P (uuid_text u).
Proof.
  intros Hd H45 [_ Ho]. assert (forall l, octets l -> Forall P (hex_encode false l)) as Hh.
  { induction 1 as [|c l Hc Hl IH]; [apply Forall_nil_2|].
    destruct (nibbles c Hc) as (H1 & H2 & _). by do 2 (apply Forall_cons_2; [by apply Hd|]). }
  assert (Forall P [45]) by (by apply Forall_cons_2; [|apply Forall_nil_2]).
  unfold uuid_text. rewrite !Forall_app.
  split_and!; try done; apply Hh; by auto using Forall_take, Forall_drop.
Qed.

Lemma octets_uuid_text (u : list Z) : is_uuid u -> octets (uuid_text u).
Proof. apply uuid_text_Forall; [|done]. intros n Hn. by apply (hexdig_ok false n Hn). Qed.

Lemma zlen_uuid_text (u : list Z) : is_uuid u -> zlen (uuid_text u) = 36.
Proof.
  intros [Hl _]. unfold uuid_text, zlen.
  rewrite !length_app, !length_hex_encode, !length_take, !length_drop, Hl. done.
Qed.

Lemma append_integer_ok (o : Octstr) (s : list Z) (i : Z) :
  reprm o s -> returns (append_integer o i) (fun o' => reprm o' (s ++ encode_network_long i)).
Proof.
  intros Ho. unfold append_integer. apply (octstr_append_data_ok o s (encode_network_long i) 4 Ho).
  - done.
  - apply octets_encode.
Qed.

Lemma append_value_ok (o : Octstr) (s : list Z) (v : value) (f : field) :
  reprm o s -> holds v f -> returns (append_value o v) (fun o' => reprm o' (s ++ wire f)).
Proof.
  intros Ho Hv. destruct Hv as [i| |oi si Hi|u Hu|p];
    cbn [append_value append_string octstr_len wire].
  - by apply append_integer_ok.
  - by apply append_integer_ok.
  - rewrite (repr_seems_valid _ _ Hi), (repr_len _ _ Hi). bind_red. apply returns_bind.
    apply (returns_mono _ _ _ (append_integer_ok o s (zlen si) Ho)). intros o1 H1.
    rewrite (repr_seems_valid _ _ (proj1 H1)), (repr_len _ _ (proj1 H1)). bind_red.
    rewrite app_assoc, <- (splice_end (s ++ encode_network_long (zlen si)) si).
    apply octstr_insert_ok; [done..|].
    pose proof (zlen_nonneg (s ++ encode_network_long (zlen si))). lia.
  - unfold append_uuid. rewrite uuid_unparse_ok by done. bind_red. apply returns_bind.
    apply (returns_mono _ _ _ (append_integer_ok o s UUID_STR_LEN Ho)). intros o1 H1.
    rewrite app_assoc. apply octstr_append_cstr_ok; [done|by apply octets_uuid_text].
  - by rewrite app_nil_r.
Qed.

Lemma append_values_ok (o : Octstr) (s : list Z) (vs : list value) (fs : list field) :
  reprm o s -> Forall2 holds vs fs ->
  returns (append_values o vs) (fun o' => reprm o' (s ++ concat (wire <$> fs))).
Proof.
  intros Ho Hv. revert o s Ho. induction Hv as [|v f vs fs Hf Hv IH]; intros o s Ho; simpl.
  { by rewrite app_nil_r. }
  apply returns_bind. apply (returns_mono _ _ _ (append_value_ok o s v f Ho Hf)). intros o1 H1.
  apply (returns_mono _ _ _ (IH o1 _ H1)). intros o2. by rewrite <- app_assoc.
Qed.

(** ** Reading a packed string at an offset *)

Lemma slice_mid {A} (pre mid post : list A) :
  slice (pre ++ mid ++ post) (zlen pre) (zlen mid) = mid.
Proof.
  unfold slice, zlen. rewrite !Nat2Z.id, drop_app_length, take_app_length. done.
Qed.

Section unpacking.
Variables (o : Octstr) (s : list Z).
Hypothesis Ho : repr o s.
Hypothesis Hs : zlen s < 2 ^ 31.

Lemma parse_integer_ok (pre post : list Z) (i : Z) :
  s = pre ++ encode_network_long i ++ post ->
  parse_integer o (zlen pre) = Ok (Some (int32 i, zlen pre + 4)).
Proof.
  intros E. assert (zlen s = zlen pre + 4 + zlen post) as Hl
    by (rewrite E, !zlen_app, zlen_encode; lia).
  pose proof (zlen_nonneg pre). pose proof (zlen_nonneg post). unfold parse_integer, INT_MAX.
  rewrite (proj2 (Z.leb_le 0 (zlen pre))) by lia. cbn [gw_assert]. bind_red.
  rewrite (proj2 (Z.ltb_ge (2 ^ 31 - 1) (zlen pre + 4))) by lia.
  cbn [octstr_len]. rewrite (repr_seems_valid _ _ Ho), (repr_len _ _ Ho). bind_red.
  rewrite (proj2 (Z.ltb_ge (zlen s) (zlen pre + 4))) by lia.
  rewrite (octstr_get_many_chars_ok (gw_malloc 4) o s) by (done || lia). bind_red.
  assert (slice s (zlen pre) 4 = encode_network_long i) as ->
    by (rewrite E; apply (slice_mid pre (encode_network_long i) post)).
  by rewrite decode_encode.
Qed.

Lemma parse_string_ok (pre post t : list Z) :
  s = pre ++ encode_network_long (zlen t) ++ t ++ post ->
  returns (parse_string o (zlen pre)) (fun r => exists o',
    r = Some (Some o', zlen pre + 4 + zlen t) /\ reprm o' t).
Proof.
  intros E. pose proof (zlen_nonneg pre). pose proof (zlen_nonneg t).
  assert (zlen s = zlen pre + 4 + zlen t + zlen post) as Hl
    by (rewrite E, !zlen_app, zlen_encode; lia).
  pose proof (zlen_nonneg post).
  unfold parse_string. rewrite (parse_integer_ok pre (t ++ post) (zlen t)) by done. bind_red.
  rewrite int32_small by lia. rewrite (proj2 (Z.eqb_neq (zlen t) (-1))) by lia.
  apply returns_bind. eapply returns_mono; [apply (octstr_copy_ok o s); [done|lia|lia]|].
  intros o' Ho'. simpl. exists o'. rewrite int32_small by lia. split; [done|].
  replace t with (slice s (zlen pre + 4) (zlen t)); [done|].
  rewrite E. pose proof (slice_mid (pre ++ encode_network_long (zlen t)) t post) as M.
  rewrite zlen_app, zlen_encode, <- app_assoc in M. done.
Qed.

Lemma parse_null_ok (pre post : list Z) :
  s = pre ++ encode_network_long (-1) ++ post ->
  parse_string o (zlen pre) = Ok (Some (None, zlen pre + 4)).
Proof.
  intros E. unfold parse_string. by rewrite (parse_integer_ok pre post (-1)).
Qed.

Lemma parse_uuid_ok (pre post u : list Z) :
  is_uuid u -> s = pre ++ encode_network_long UUID_STR_LEN ++ uuid_text u ++ post ->
  parse_uuid o (zlen pre) = Ok (Some (u, zlen pre + 40)).
Proof.
  intros Hu E. pose proof (zlen_uuid_text u Hu) as Hl. unfold parse_uuid.
  pose proof (parse_string_ok pre post (uuid_text u)) as P. rewrite Hl in P.
  apply returns_iff in P as (r & -> & o' & -> & [Hr _]); [|done]. bind_red.
  assert (octstr_get_cstr (Some o') = Ok (uuid_text u)) as ->.
  { assert (Forall (fun c => c <> 0) (uuid_text u)) as Hnz.
    { apply uuid_text_Forall; [|done|done]. intros n Hn. by apply (hexdig_ok false n Hn). }
    cbn [octstr_get_cstr]. rewrite (repr_seems_valid _ _ Hr), (repr_len _ _ Hr), Hl. bind_red.
    destruct Hr as [|t rest size imm Ht Hsz]; [done|]. cbn [os_data]. f_equal.
    rewrite cstr_app_nul. by apply cstr_no_nul. }
  bind_red. rewrite uuid_parse_ok by done. do 3 f_equal. lia.
Qed.

(** A value of the kind of the field. *)
Definition same_kind (v : value) (f : field) : Prop :=
  match v, f with
  | VInt _, FInt _ | VStr _, FStr _ | VUuid _, FUuid _ => True
  | VPtr p, FPtr _ => p = 0
  | _, _ => False
  end.

Definition field_ok (f : field) : Prop :=
  match f with FUuid u => is_uuid u | _ => True end.

Lemma parse_value_ok (pre post : list Z) (v : value) (f : field) :
  same_kind v f -> field_ok f -> s = pre ++ wire f ++ post ->
  returns (parse_value o (zlen pre) v) (fun r => exists v',
    r = Some (v', zlen (pre ++ wire f)) /\ holds v' (received f)).
Proof.
  intros Hk Hf E. rewrite zlen_app.
  destruct v as [i|os|u|p], f as [j|[t|]|w|q]; try done;
    cbn [parse_value wire received field_ok] in *.
  - rewrite (parse_integer_ok pre post j E). simpl. eexists. split; [done|constructor].
  - rewrite <- app_assoc in E. pose proof (parse_string_ok pre post t E) as P.
    apply returns_iff in P as (r & -> & o' & -> & [Hr _]). bind_red. cbn [returns option_map fst snd].
    eexists. rewrite zlen_app, zlen_encode. split; [f_equal; f_equal; lia|by constructor].
  - rewrite (parse_null_ok pre post E). simpl. eexists. split; [done|constructor].
  - rewrite <- app_assoc in E. rewrite (parse_uuid_ok pre post w Hf E). bind_red.
    cbn [returns option_map fst snd].
    rewrite zlen_app, zlen_encode, (zlen_uuid_text w Hf). eexists. split; [done|by constructor].
  - simpl in Hk. subst p. simpl. change (zlen []) with 0. rewrite Z.add_0_r.
    eexists. split; [done|constructor].
Qed.

Lemma parse_values_ok (pre post : list Z) (vs : list value) (fs : list field) :
  Forall2 same_kind vs fs -> Forall field_ok fs -> s = pre ++ concat (wire <$> fs) ++ post ->
  returns (parse_values o (zlen pre) vs) (fun r => exists vs',
    r = Some vs' /\ Forall2 holds vs' (received <$> fs)).
Proof.
  intros Hk. revert pre. induction Hk as [|v f vs fs Hf Hk IH]; intros pre Ho' E; simpl.
  { exists []. split; [done|constructor]. }
  apply Forall_cons_iff in Ho' as [Hfo Ho']. csimpl in E. rewrite <- app_assoc in E.
  pose proof (parse_value_ok pre _ v f Hf Hfo E) as P.
  apply returns_iff in P as (r & -> & v' & -> & Hv'). bind_red.
  rewrite app_assoc in E. specialize (IH (pre ++ wire f) Ho' E).
  apply returns_iff in IH as (r & -> & vs' & -> & Hvs'). bind_red. simpl.
  exists (v' :: vs'). split; [done|]. by constructor.
Qed.
End unpacking.

(** ** Whole messages *)

Definition kind_of (v : value) : nat :=
  match v with
  | VInt _ => 0
  | VStr _ => 1
  | VUuid _ => 2
  | VPtr _ => 3
  end.

(** The message types, one by one. *)
Lemma msg_type_cases (m : Msg) (vs : list value) :
  msg_values m = Some vs ->
  (m_type m = T_HEARTBEAT /\ vs = heartbeat_values (m_heartbeat m)) \/
  (m_type m = T_ADMIN /\ vs = admin_values (m_admin m)) \/
  (m_type m = T_SMS /\ vs = sms_values (m_sms m)) \/
  (m_type m = T_ACK /\ vs = ack_values (m_ack m)) \/
  (m_type m = T_WDP_DATAGRAM /\ vs = wdp_values (m_wdp_datagram m)).
Proof.
  unfold msg_values.
  destruct (Z.eqb_spec (m_type m) T_HEARTBEAT); [naive_solver|].
  destruct (Z.eqb_spec (m_type m) T_ADMIN); [naive_solver|].
  destruct (Z.eqb_spec (m_type m) T_SMS); [naive_solver|].
  destruct (Z.eqb_spec (m_type m) T_ACK); [naive_solver|].
  destruct (Z.eqb_spec (m_type m) T_WDP_DATAGRAM); naive_solver.
Qed.

(** Stores every field of the kinds [vs] has. *)
Lemma set_msg_values_ok (m : Msg) (vs vs' : list value) :
  msg_values m = Some vs -> kind_of <$> vs' = kind_of <$> vs ->
  msg_values (set_msg_values m vs') = Some vs' /\ m_type (set_msg_values m vs') = m_type m.
Proof.
  intros Hv Hk. unfold msg_values.
  apply msg_type_cases in Hv as [[E ->]|[[E ->]|[[E ->]|[[E ->]|[E ->]]]]].
  all: repeat (destruct vs' as [|[] vs']; try discriminate Hk).
  all: cbn [set_msg_values m_type]; rewrite E; done.
Qed.

(** A new message of the same type has fields of the same kinds. *)
Lemma msg_create_kinds (m : Msg) (vs : list value) (id1 id2 : list Z) :
  msg_values m = Some vs ->
  exists vs0, msg_values (msg_create id1 id2 (m_type m)) = Some vs0 /\
    kind_of <$> vs0 = kind_of <$> vs /\ Forall (fun v => forall p, v = VPtr p -> p = 0) vs0.
Proof.
  intros Hv. apply msg_type_cases in Hv as [[E ->]|[[E ->]|[[E ->]|[[E ->]|[E ->]]]]]; rewrite E.
  all: eexists; split; [done|]; split; [done|].
  all: repeat (apply Forall_cons_2; [by intros ? [= <-]|]); apply Forall_nil_2.
Qed.

Lemma holds_received_kind (v : value) (f : field) (w : value) :
  holds v f -> holds w (received f) -> kind_of w = kind_of v.
Proof. by destruct 1; inversion 1. Qed.

Lemma kinds_same (vs0 vs : list value) (fs : list field) :
  Forall2 holds vs fs -> kind_of <$> vs0 = kind_of <$> vs ->
  Forall (fun v => forall p, v = VPtr p -> p = 0) vs0 -> Forall2 same_kind vs0 fs.
Proof.
  intros Hh. revert vs0. induction Hh as [|v f vs fs Hv Hh IH]; intros [|v0 vs0] Hk Hp; try done.
  injection Hk as Hk1 Hk. apply Forall_cons_iff in Hp as [Hp0 Hp]. constructor; [|by apply IH].
  destruct v0, Hv; try discriminate Hk1; simpl; try done. by apply Hp0.
Qed.

Lemma holds_ok (vs : list value) (fs : list field) : Forall2 holds vs fs -> Forall field_ok fs.
Proof. induction 1 as [|v f vs fs Hv _ IH]; constructor; [by destruct Hv|done]. Qed.

Lemma received_kinds (vs ws : list value) (fs : list field) :
  Forall2 holds vs fs -> Forall2 holds ws (received <$> fs) -> kind_of <$> ws = kind_of <$> vs.
Proof.
  intros Hv. revert ws. induction Hv as [|v f vs fs Hf Hv IH]; intros ws Hw; inversion Hw; [done|].
  subst. csimpl. f_equal; [by eapply holds_received_kind|by apply IH].
Qed.

Lemma msg_type_range (m : Msg) (vs : list value) :
  msg_values m = Some vs -> 0 <= m_type m < 5.
Proof.
  intros Hv. apply msg_type_cases in Hv as [[-> _]|[[-> _]|[[-> _]|[[-> _]|[-> _]]]]]; done.
Qed.

Lemma msg_pack_ok (m : Msg) (vs : list value) (fs : list field) :
  msg_values m = Some vs -> Forall2 holds vs fs ->
  returns (msg_pack m) (fun o =>
    reprm o (encode_network_long (m_type m) ++ concat (wire <$> fs))).
Proof.
  intros Hv Hh. unfold msg_pack. apply returns_bind.
  apply (returns_mono _ _ _ (octstr_create_ok [] (Forall_nil_2 _))). intros o0 H0.
  apply returns_bind. apply (returns_mono _ _ _ (append_integer_ok o0 [] (m_type m) H0)).
  intros o1 H1. rewrite Hv. by apply append_values_ok.
Qed.

Lemma msg_unpack_ok (o : Octstr) (m : Msg) (vs : list value) (fs : list field) (id1 id2 : list Z) :
  msg_values m = Some vs -> Forall2 holds vs fs ->
  repr o (encode_network_long (m_type m) ++ concat (wire <$> fs)) ->
  zlen (encode_network_long (m_type m) ++ concat (wire <$> fs)) < 2 ^ 31 ->
  returns (msg_unpack id1 id2 o) (fun r => exists m' vs', r = Some m' /\
    m_type m' = m_type m /\ msg_values m' = Some vs' /\
    m' = set_msg_values (msg_create id1 id2 (m_type m)) vs' /\ Forall2 holds vs' (received <$> fs)).
Proof.
  intros Hv Hh Ho Hl. unfold msg_unpack.
  pose proof (parse_integer_ok o _ Ho Hl [] (concat (wire <$> fs)) (m_type m) eq_refl) as P0.
  change (zlen []) with 0 in P0. rewrite P0. bind_red.
  rewrite int32_small by (pose proof (msg_type_range m vs Hv); lia).
  destruct (msg_create_kinds m vs id1 id2 Hv) as (vs0 & Hv0 & Hk & Hp). rewrite Hv0.
  pose proof (parse_values_ok o _ Ho Hl (encode_network_long (m_type m)) [] vs0 fs
    (kinds_same vs0 vs fs Hh Hk Hp) (holds_ok vs fs Hh)) as P.
  rewrite app_nil_r in P. specialize (P eq_refl).
  apply returns_iff in P as (r & Hr & vs' & -> & Hh').
  change (0 + 4) with (zlen (encode_network_long (m_type m))). rewrite Hr. bind_red. simpl.
  destruct (set_msg_values_ok (msg_create id1 id2 (m_type m)) vs0 vs' Hv0) as [E1 E2].
  { rewrite Hk. by eapply received_kinds. }
  exists (set_msg_values (msg_create id1 id2 (m_type m)) vs'), vs'. split_and!; done.
Qed.

(** A length that the parser takes as it is, at an offset of the packet. *)
Lemma parse_string_negative (o : Octstr) (s pre post : list Z) (len : Z) :
  repr o s -> zlen s < 2 ^ 31 -> s = pre ++ encode_network_long len ++ post ->
  int32 len < -1 -> parse_string o (zlen pre) = Panic.
Proof.
  intros Ho Hs E Hn. unfold parse_string. rewrite (parse_integer_ok o s Ho Hs pre post len E).
  bind_red. rewrite (proj2 (Z.eqb_neq (int32 len) (-1))) by lia.
  cbn [octstr_copy]. rewrite (repr_seems_valid _ _ Ho). bind_red. pose proof (zlen_nonneg pre).
  rewrite (proj2 (Z.leb_le 0 (zlen pre + 4))) by lia. cbn [gw_assert]. bind_red.
  by rewrite (proj2 (Z.leb_gt 0 (int32 len))) by lia.
Qed.

(** ** Duplicates

    The fields of all the structures, in the order that [msg_duplicate] copies
    them. *)
Definition all_values (m : Msg) : list (list value) :=
  [heartbeat_values (m_heartbeat m); admin_values (m_admin m); sms_values (m_sms m);
   ack_values (m_ack m); wdp_values (m_wdp_datagram m)].

(** Storing fields of the kinds that one structure has changes that structure alone. *)
Lemma set_all_values (m p : Msg) (i : nat) (vs0 vs : list value) :
  all_values p !! i = Some vs0 -> kind_of <$> vs = kind_of <$> vs0 ->
  all_values (set_msg_values m vs) = <[i := vs]> (all_values m) /\
  m_type (set_msg_values m vs) = m_type m.
Proof.
  intros Hi Hk. unfold all_values in Hi.
  do 5 (destruct i as [|i]; [injection Hi as <-; repeat (destruct vs as [|[] vs]; try discriminate Hk); done|]).
  discriminate Hi.
Qed.

Lemma msg_values_all (m : Msg) (vs : list value) :
  msg_values m = Some vs <-> 0 <= m_type m /\ all_values m !! Z.to_nat (m_type m) = Some vs.
Proof.
  split.
  - intros Hv. pose proof (msg_type_range m vs Hv). split; [lia|].
    by apply msg_type_cases in Hv as [[-> ->]|[[-> ->]|[[-> ->]|[[-> ->]|[-> ->]]]]].
  - intros [Hp Hl]. assert (m_type m < 5) as H5 by (apply lookup_lt_Some in Hl; simpl in Hl; lia).
    unfold msg_values. rewrite <- Hl.
    assert (m_type m = 0 \/ m_type m = 1 \/ m_type m = 2 \/ m_type m = 3 \/ m_type m = 4)
      as [-> | [-> | [-> | [-> | ->]]]] by lia; done.
Qed.

Lemma uuid_copy_ok (u : list Z) : is_uuid u -> uuid_copy u = Ok u.
Proof.
  intros [Hl _]. unfold uuid_copy. rewrite mem_copy_ok by (unfold gw_malloc; list_lia).
  f_equal. unfold overwrite, slice, gw_malloc. rewrite drop_0, take_0.
  rewrite (take_ge u) by lia. rewrite drop_ge by (rewrite length_replicate; lia).
  by rewrite app_nil_r.
Qed.

(** [R] relates a field to what [dup_value] makes of it. *)
Section duplicates.
Variable R : value -> value -> Prop.
Hypothesis R_kind : forall v v', R v v' -> kind_of v' = kind_of v.

Lemma dup_values_rel (vs : list value) :
  Forall (fun v => returns (dup_value v) (R v)) vs -> returns (dup_values vs) (Forall2 R vs).
Proof.
  induction 1 as [|v vs Hv Hvs IH]; simpl; [constructor|].
  apply returns_bind, (returns_mono _ _ _ Hv). intros v' Hv'.
  apply returns_bind, (returns_mono _ _ _ IH). intros vs' Hvs'. simpl. by constructor.
Qed.

Lemma rel_kinds (vs vs' : list value) : Forall2 R vs vs' -> kind_of <$> vs' = kind_of <$> vs.
Proof. induction 1 as [|v v' vs vs' Hv _ IH]; [done|]. csimpl. f_equal; [by apply R_kind|done]. Qed.

Lemma msg_duplicate_rel (id1 id2 : list Z) (m : Msg) :
  Forall (Forall (fun v => returns (dup_value v) (R v))) (all_values m) ->
  returns (msg_duplicate id1 id2 m) (fun m' =>
    m_type m' = m_type m /\ Forall2 (Forall2 R) (all_values m) (all_values m')).
Proof.
  unfold all_values at 1. rewrite !Forall_cons_iff. intros (H1 & H2 & H3 & H4 & H5 & _).
  unfold msg_duplicate.
  apply returns_bind, (returns_mono _ _ _ (dup_values_rel _ H1)). intros hb Hhb.
  apply returns_bind, (returns_mono _ _ _ (dup_values_rel _ H2)). intros ad Had.
  apply returns_bind, (returns_mono _ _ _ (dup_values_rel _ H3)). intros sm Hsm.
  apply returns_bind, (returns_mono _ _ _ (dup_values_rel _ H4)). intros ac Hac.
  apply returns_bind, (returns_mono _ _ _ (dup_values_rel _ H5)). intros wd Hwd.
  cbv zeta. simpl.
  destruct (set_all_values (msg_create id1 id2 (m_type m)) m 0 _ hb eq_refl (rel_kinds _ _ Hhb)) as [E1 T1].
  set (n1 := set_msg_values _ hb) in *.
  destruct (set_all_values n1 m 1 _ ad eq_refl (rel_kinds _ _ Had)) as [E2 T2].
  set (n2 := set_msg_values n1 ad) in *.
  destruct (set_all_values n2 m 2 _ sm eq_refl (rel_kinds _ _ Hsm)) as [E3 T3].
  set (n3 := set_msg_values n2 sm) in *.
  destruct (set_all_values n3 m 3 _ ac eq_refl (rel_kinds _ _ Hac)) as [E4 T4].
  set (n4 := set_msg_values n3 ac) in *.
  destruct (set_all_values n4 m 4 _ wd eq_refl (rel_kinds _ _ Hwd)) as [E5 T5].
  rewrite E5, E4, E3, E2, E1, T5, T4, T3, T2, T1. split; [done|]. unfold all_values at 2. simpl.
  by repeat constructor.
Qed.
End duplicates.

(** A field that can be copied and packed; a copy stands for the same. *)
Definition sound_value (v : value) : Prop := exists f, holds v f.

Definition msg_sound (m : Msg) : Prop := Forall (Forall sound_value) (all_values m).

Lemma dup_value_holds (v : value) : sound_value v ->
  returns (dup_value v) (fun v' =>
    kind_of v' = kind_of v /\ sound_value v' /\ forall f, holds v f -> holds v' f).
Proof.
  intros [f Hf]. destruct Hf as [i| |o s Hs|u Hu|p]; simpl.
  - split_and!; [done|eexists; constructor|done].
  - split_and!; [done|eexists; constructor|done].
  - apply returns_bind, (returns_mono _ _ _ (octstr_duplicate_ok o s Hs)). intros o' (o1 & -> & H1 & _).
    cbn [returns]. split_and!; [done|exists (FStr (Some s)); by constructor|].
    intros f Hf. inversion Hf as [| |? s' Hs'| |]; subst.
    rewrite (repr_functional o s' s Hs' Hs). by constructor.
  - rewrite uuid_copy_ok by done. simpl. split_and!; [done|exists (FUuid u); by constructor|done].
  - split_and!; [done|eexists; constructor|done].
Qed.

Lemma Forall2_holds (vs vs' : list value) (fs : list field) :
  Forall2 (fun v v' => kind_of v' = kind_of v /\ sound_value v' /\ forall f, holds v f -> holds v' f) vs vs' ->
  Forall sound_value vs' /\ (Forall2 holds vs fs -> Forall2 holds vs' fs).
Proof.
  intros H. revert fs. induction H as [|v v' vs vs' (_ & Hs & Hh) _ IH]; intros fs.
  - split; [constructor|done].
  - split; [constructor; [done|by apply (IH [])]|]. inversion 1; subst. constructor; [by apply Hh|by apply IH].
Qed.

(** A duplicate has the same type and its fields stand for the same. *)
Lemma msg_duplicate_sound (id1 id2 : list Z) (m : Msg) :
  msg_sound m ->
  returns (msg_duplicate id1 id2 m) (fun m' => m_type m' = m_type m /\ msg_sound m' /\
    forall vs fs, msg_values m = Some vs -> Forall2 holds vs fs ->
      exists vs', msg_values m' = Some vs' /\ Forall2 holds vs' fs).
Proof.
  intros Hm. eapply returns_mono; [eapply msg_duplicate_rel with (R := fun v v' =>
    kind_of v' = kind_of v /\ sound_value v' /\ forall f, holds v f -> holds v' f)|].
  - by intros v v' [? _].
  - eapply Forall_impl; [|exact Hm]. intros vs Hvs. eapply Forall_impl; [|exact Hvs].
    apply dup_value_holds.
  - intros m' [Ht Hall]. split_and!; [done| |].
    + unfold msg_sound. clear -Hall. induction Hall as [|vs vs' l l' Hv _ IH]; constructor; [|done].
      by apply (Forall2_holds vs vs' []).
    + intros vs fs [Hp Hv]%msg_values_all Hf. destruct (Forall2_lookup_l _ _ _ _ _ Hall Hv) as (vs' & Hv' & HR).
      exists vs'. split; [apply msg_values_all; by rewrite Ht|]. by apply (Forall2_holds vs vs' fs).
Qed.

(** ** Properties *)

(** C9. Packing a message of any type and unpacking the octets gives a message of
    the same type whose strings have the same contents (NULL and the empty
    string told apart), whose identifiers are the same, and whose integers are
    the original ones truncated to 32 bits; the pointer of a split message does
    not travel.  No step panics or reads outside the packet. *)
Theorem msg_roundtrip (m : Msg) (vs : list value) (fs : list field) (id1 id2 : list Z) :
  msg_values m = Some vs -> Forall2 holds vs fs ->
  4 + zlen (concat (wire <$> fs)) < 2 ^ 31 ->
  returns (o ← msg_pack m; msg_unpack id1 id2 o) (fun r => exists m' vs', r = Some m' /\
    m_type m' = m_type m /\ msg_values m' = Some vs' /\ Forall2 holds vs' (received <$> fs)).
Proof.
  intros Hv Hh Hl. apply returns_bind. apply (returns_mono _ _ _ (msg_pack_ok m vs fs Hv Hh)).
  intros o [Ho _].
  eapply returns_mono; [apply (msg_unpack_ok o m vs fs); [done..|by rewrite zlen_app, zlen_encode]|].
  intros r (m' & vs' & -> & ? & ? & _ & ?). by exists m', vs'.
Qed.

Definition sample_msg (type : Z) : Msg :=
  mkMsg type (mkHeartbeat 7) (mkAdmin 3 (Some (mk_os [98; 120])) 80)
    (m_sms (msg_create sample_uuid sample_uuid 0)) (mkAck 1 5000000000 sample_uuid)
    (mkWdp None 1 None 2 (Some (mk_os []))).

Lemma msg_roundtrip_witness :
  returns (o ← msg_pack (sample_msg T_ACK); msg_unpack uuid_clear uuid_clear o) (fun r =>
    exists m' vs', r = Some m' /\ m_type m' = T_ACK /\ msg_values m' = Some vs' /\
      Forall2 holds vs' (received <$> [FInt 1; FInt 5000000000; FUuid sample_uuid])).
Proof.
  apply (msg_roundtrip (sample_msg T_ACK) [VInt 1; VInt 5000000000; VUuid sample_uuid]
    [FInt 1; FInt 5000000000; FUuid sample_uuid]); [done| |vm_compute; reflexivity].
  do 3 (constructor; [constructor; try apply sample_uuid_ok|]). constructor.
Defined.

(** C40. An octet string that is too short for a message type, or whose type is
    not one of the five declared, is refused: [msg_unpack] returns NULL. *)
Theorem msg_unpack_refuses (o : Octstr) (s : list Z) (id1 id2 : list Z) :
  repr o s -> zlen s < 2 ^ 31 ->
  (zlen s < 4 \/ exists t post, s = encode_network_long t ++ post /\ ~ 0 <= int32 t < 5) ->
  msg_unpack id1 id2 o = Ok None.
Proof.
  intros Ho Hs [Hl|(t & post & E & Ht)]; unfold msg_unpack.
  - unfold parse_integer, INT_MAX. cbn [octstr_len].
    rewrite (repr_seems_valid _ _ Ho), (repr_len _ _ Ho). bind_red.
    rewrite (proj2 (Z.ltb_lt (zlen s) (0 + 4))) by lia. done.
  - pose proof (parse_integer_ok o s Ho Hs [] post t E) as P. change (zlen []) with 0 in P.
    rewrite P. bind_red. unfold msg_values. cbn [m_type msg_create].
    unfold T_HEARTBEAT, T_ADMIN, T_SMS, T_ACK, T_WDP_DATAGRAM.
    destruct (Z.eqb_spec (int32 t) 0); [lia|]. destruct (Z.eqb_spec (int32 t) 1); [lia|].
    destruct (Z.eqb_spec (int32 t) 2); [lia|]. destruct (Z.eqb_spec (int32 t) 3); [lia|].
    by destruct (Z.eqb_spec (int32 t) 4); [lia|].
Qed.

Lemma msg_unpack_refuses_witness :
  msg_unpack uuid_clear uuid_clear (mk_os [0; 0; 0; 9; 65]) = Ok None.
Proof.
  apply (msg_unpack_refuses (mk_os [0; 0; 0; 9; 65]) [0; 0; 0; 9; 65]).
  - mk_os.
  - vm_compute. reflexivity.
  - right. exists 9, [65]. split; [vm_compute; reflexivity|]. vm_compute. intros [_ H]. discriminate H.
Defined.

(** The length of a string is not checked before it is used: a packet for an
    SMS whose first string claims a negative length other than -1 makes the
    receiving process panic instead of being refused. *)
Theorem msg_unpack_negative_length_panics (o : Octstr) (s post : list Z) (len : Z)
    (id1 id2 : list Z) :
  repr o s -> zlen s < 2 ^ 31 ->
  s = encode_network_long T_SMS ++ encode_network_long len ++ post -> int32 len < -1 ->
  msg_unpack id1 id2 o = Panic.
Proof.
  intros Ho Hs E Hn. unfold msg_unpack.
  pose proof (parse_integer_ok o s Ho Hs [] _ T_SMS E) as P. change (zlen []) with 0 in P.
  rewrite P. bind_red. change (int32 T_SMS) with T_SMS.
  change (msg_values (msg_create id1 id2 T_SMS))
    with (Some (sms_values (m_sms (msg_create id1 id2 T_SMS)))).
  cbn [sms_values parse_values parse_value sms_sender].
  change (0 + 4) with (zlen (encode_network_long T_SMS)).
  by rewrite (parse_string_negative o s _ post len Ho Hs E Hn).
Qed.

Lemma msg_unpack_negative_length_panics_witness :
  msg_unpack uuid_clear uuid_clear (mk_os [0; 0; 0; 2; 255; 255; 255; 254]) = Panic.
Proof.
  apply (msg_unpack_negative_length_panics (mk_os [0; 0; 0; 2; 255; 255; 255; 254])
    [0; 0; 0; 2; 255; 255; 255; 254] [] (-2)); [mk_os|vm_compute; reflexivity..].
Defined.
