(* ===== verification/StoreFile.v ===== *)
(** * The message store of the bearerbox on a file

    Models src/gw/bb_store_file.c.  The store keeps the messages that have not been
    acknowledged in a dictionary ([Dict]) under the text of their identifier
    ([Uuid]), and appends each message and each acknowledgement as a record, a
    length and a packed message ([Msg]), to a file.  A dump writes the messages
    that are left to a new file, which then replaces the old one; at start the
    file is read back.

    The functions that pack and unpack are pointers that [store_init] sets
    (src/gw/bb_store.c): they are the class [StoreCodec] here, with what the
    store relies on as the class [StoreCodecLaws].  The file system is the three
    files the store uses; the system calls that change it are recorded, so that
    a crash between any two of them can be stated.  Each operation runs under
    [file_mutex] and is one step. *)

From stdpp Require Import gmap.
From S2P Require Import Prelude Octstr OctstrSearch OctstrCode GwList GwSort Dict Uuid Msg.
#[local] Open Scope Z_scope.
#[local] Open Scope kannel_scope.

(** ** The file system

    [Main] is the file [filename], [New] and [Bak] are [newfile] and [bakfile]. *)

Inductive fname := Main | New | Bak.

#[export] Instance fname_eq_dec : EqDecision fname.
Proof. solve_decision. Defined.

Definition fs := fname -> option (list Z).

Definition fs_set (s : fs) (f : fname) (c : option (list Z)) : fs :=
  fun g => if decide (g = f) then c else s g.

(** [fopen(f, "w")], [fwrite] with [fflush], and [rename]. *)
Inductive fs_op :=
| Create (f : fname)
| Append (f : fname) (data : list Z)
| Rename (from to : fname).

Definition fs_step (op : fs_op) (s : fs) : fs :=
  match op with
  | Create f => fs_set s f (Some [])
  | Append f data => fs_set s f ((fun c => c ++ data) <$> s f)
  | Rename from to =>
      match s from with
      | Some c => fs_set (fs_set s to (Some c)) from None
      | None => s
      end
  end.

Definition fs_run (ops : list fs_op) (s : fs) : fs := fold_left (fun s op => fs_step op s) ops s.

(** Whether the system calls of a dump succeed. *)
Record io := mkIo { io_open : bool; io_rename_old : bool; io_rename_new : bool }.

Definition io_ok : io := mkIo true true true.

(** ** The state

    There is a [Store] once [store_file_init] has got a file name.  [st_file] is
    the open file, by the name it has at the moment.  [st_trace] are the changes
    made to the file system since the store was initialised.  [st_gen] counts the
    identifiers drawn from [uuid_generate]. *)
Record Store := mkStore {
  st_file : option fname;
  st_fs : fs;
  st_trace : list fs_op;
  st_dict : Dict Msg;
  st_loaded : List unit;
  st_last_dict_mod : Z;
  st_dump_frequency : Z;
  st_gen : nat
}.

Definition set_file (st : Store) (f : option fname) : Store :=
  mkStore f (st_fs st) (st_trace st) (st_dict st) (st_loaded st) (st_last_dict_mod st)
    (st_dump_frequency st) (st_gen st).
Definition set_dict (st : Store) (d : Dict Msg) : Store :=
  mkStore (st_file st) (st_fs st) (st_trace st) d (st_loaded st) (st_last_dict_mod st)
    (st_dump_frequency st) (st_gen st).
Definition set_loaded (st : Store) (l : List unit) : Store :=
  mkStore (st_file st) (st_fs st) (st_trace st) (st_dict st) l (st_last_dict_mod st)
    (st_dump_frequency st) (st_gen st).
Definition set_last_dict_mod (st : Store) (t : Z) : Store :=
  mkStore (st_file st) (st_fs st) (st_trace st) (st_dict st) (st_loaded st) t
    (st_dump_frequency st) (st_gen st).
Definition set_gen (st : Store) (n : nat) : Store :=
  mkStore (st_file st) (st_fs st) (st_trace st) (st_dict st) (st_loaded st)
    (st_last_dict_mod st) (st_dump_frequency st) n.

(** An open file keeps its contents when it is renamed. *)
Definition follow (op : fs_op) (f : option fname) : option fname :=
  match op with
  | Rename from to => if decide (f = Some from) then Some to else f
  | _ => f
  end.

Definition emit (op : fs_op) (st : Store) : Store :=
  mkStore (follow op (st_file st)) (fs_step op (st_fs st)) (st_trace st ++ [op]) (st_dict st)
    (st_loaded st) (st_last_dict_mod st) (st_dump_frequency st) (st_gen st).

(** ** The codec *)

Class StoreCodec := {
  store_msg_pack : Msg -> res Octstr;
  store_msg_unpack : list Z -> list Z -> Octstr -> res (option Msg)
}.

(** [msg_pack] and [msg_unpack], which the bearerbox passes to [store_init]. *)
#[export] Instance msg_codec : StoreCodec := {
  store_msg_pack := msg_pack;
  store_msg_unpack := msg_unpack
}.

Section store.
Context {codec : StoreCodec}.

(** What [uuid_generate] gives, call by call. *)
Variable gen : nat -> list Z.

(** ** Records *)

(** [octstr_print] to an open file. *)
Definition octstr_print (f : option fname) (ostr : Octstr) : res (list fs_op) :=
  match f with
  | None => Panic
  | Some f =>
      seems_valid ostr ≫= fun _ =>
      Ok (if os_len ostr =? 0 then [] else [Append f (bytes ostr)])
  end.

Definition write_msg (st : Store) (msg : Msg) : res Store :=
  pack ← store_msg_pack msg;
  n ← octstr_len (Some pack);
  pack ← octstr_insert_data pack 0 (encode_network_long n) 4;
  ops ← octstr_print (st_file st) pack;
  Ok (fold_left (fun st op => emit op st) ops st).

(** The message, or [None] for -1, and the new offset; [g] numbers the
    identifiers that [msg_create] draws. *)
Definition read_msg (g : nat) (os : Octstr) (off : Z) : res (option Msg * Z) :=
  assert: 0 <=? off;
  n ← octstr_len (Some os);
  if n <? off + 4 then Ok (None, off)
  else
    buf ← octstr_get_many_chars (gw_malloc 4) os off 4;
    i ← decode_network_long buf;
    let off := off + 4 in
    pack ← octstr_copy (Some os) off i;
    k ← octstr_len (Some pack);
    let off := off + k in
    msg ← store_msg_unpack (gen g) (gen (S g)) pack;
    Ok (msg, off).

(** ** Dumping *)

Definition open_file (ok : bool) (name : fname) (st : Store) : Z * Store :=
  if ok then (0, emit (Create name) (set_file st (Some name)))
  else (-1, set_file st None).

Definition rename_store (e : io) (st : Store) : Z * Store :=
  match st_fs st Main with
  | Some _ =>
      if io_rename_old e then
        let st := emit (Rename Main Bak) st in
        if io_rename_new e then (0, emit (Rename New Main) st) else (-1, st)
      else (-1, st)
  | None => if io_rename_new e then (0, emit (Rename New Main) st) else (-1, st)
  end.

Fixpoint dump_loop (sms_list : List Octstr) (l : Z) (st : Store) (n : nat) : res Store :=
  match n with
  | O => Ok st
  | S n =>
      key ← gwlist_get sms_list l;
      msg ← dict_get (st_dict st) key;
      st ← match msg with
           | Some msg => write_msg st msg
           | None => Ok st
           end;
      dump_loop sms_list (l + 1) st n
  end.

Definition do_dump (e : io) (st : Store) : res (Z * Store) :=
  let '(r, st) := open_file (io_open e) New st in
  if r =? -1 then Ok (-1, st)
  else
    sms_list ← dict_keys (st_dict st);
    st ← dump_loop sms_list 0 st (Z.to_nat (gwlist_len (Some sms_list)));
    Ok (rename_store e st).

(** ** The operations *)

Fixpoint for_each_loop {D : Type} (callback_fn : Msg -> D -> D) (keys : List Octstr) (l : Z)
    (d : Dict Msg) (data : D) (n : nat) : res D :=
  match n with
  | O => Ok data
  | S n =>
      key ← gwlist_get keys l;
      msg ← dict_get d key;
      for_each_loop callback_fn keys (l + 1) d
        (match msg with Some msg => callback_fn msg data | None => data end) n
  end.

Definition store_file_for_each_message {D : Type} (callback_fn : Msg -> D -> D) (data : D)
    (st : option Store) : res D :=
  match st with
  | None => Ok data
  | Some st =>
      keys ← dict_keys (st_dict st);
      for_each_loop callback_fn keys 0 (st_dict st) data (Z.to_nat (gwlist_len (Some keys)))
  end.

Definition store_file_messages (st : option Store) : Z :=
  match st with
  | Some st => dict_key_count (st_dict st)
  | None => -1
  end.

(** The fields that [store_to_dict] sets. *)
Definition with_id (m : Msg) (id : list Z) : Msg :=
  let p := m_sms m in
  mkMsg (m_type m) (m_heartbeat m) (m_admin m)
    (mkSms (sms_sender p) (sms_receiver p) (sms_udhdata p) (sms_msgdata p) (sms_time p)
       (sms_smsc_id p) (sms_smsc_number p) (sms_foreign_id p) (sms_service p) (sms_account p)
       id (sms_sms_type p) (sms_mclass p) (sms_mwi p) (sms_coding p) (sms_compress p)
       (sms_validity p) (sms_deferred p) (sms_dlr_mask p) (sms_dlr_url p) (sms_pid p)
       (sms_alt_dcs p) (sms_rpi p) (sms_charset p) (sms_boxc_id p) (sms_binfo p)
       (sms_msg_left p) (sms_split_parts p) (sms_priority p) (sms_resend_try p)
       (sms_resend_time p) (sms_meta_data p))
    (m_ack m) (m_wdp_datagram m).

Definition with_time (m : Msg) (time : Z) : Msg :=
  let p := m_sms m in
  mkMsg (m_type m) (m_heartbeat m) (m_admin m)
    (mkSms (sms_sender p) (sms_receiver p) (sms_udhdata p) (sms_msgdata p) time
       (sms_smsc_id p) (sms_smsc_number p) (sms_foreign_id p) (sms_service p) (sms_account p)
       (sms_id p) (sms_sms_type p) (sms_mclass p) (sms_mwi p) (sms_coding p) (sms_compress p)
       (sms_validity p) (sms_deferred p) (sms_dlr_mask p) (sms_dlr_url p) (sms_pid p)
       (sms_alt_dcs p) (sms_rpi p) (sms_charset p) (sms_boxc_id p) (sms_binfo p)
       (sms_msg_left p) (sms_split_parts p) (sms_priority p) (sms_resend_try p)
       (sms_resend_time p) (sms_meta_data p))
    (m_ack m) (m_wdp_datagram m).

(** The return value, the message as the caller has it afterwards, and the
    store.  [now] is the clock. *)
Definition store_to_dict (now : Z) (msg : Msg) (st : Store) : res (Z * Msg * Store) :=
  let g := st_gen st in
  let st := set_gen st (g + 3) in
  if m_type msg =? T_SMS then
    null ← uuid_is_null (sms_id (m_sms msg));
    let msg := if negb (null =? 0) then with_id msg (gen g) else msg in
    let msg := if sms_time (m_sms msg) =? MSG_PARAM_UNDEFINED then with_time msg now else msg in
    copy ← msg_duplicate (gen (g + 1)) (gen (g + 2)) msg;
    id ← uuid_unparse (sms_id (m_sms copy));
    uuid_os ← octstr_create id;
    '(d, _) ← dict_put (st_dict st) uuid_os (Some copy);
    Ok (0, msg, set_last_dict_mod (set_dict st d) now)
  else if m_type msg =? T_ACK then
    id ← uuid_unparse (ack_id (m_ack msg));
    uuid_os ← octstr_create id;
    '(copy, d) ← dict_remove (st_dict st) uuid_os;
    Ok (0, msg, match copy with
                | None => set_dict st d
                | Some _ => set_last_dict_mod (set_dict st d) now
                end)
  else Ok (-1, msg, st).

(** [None] while the caller is blocked because the store is not loaded. *)
Definition store_file_save (now : Z) (msg : Msg) (st : option Store)
  : res (option (Z * Msg * option Store)) :=
  match st with
  | None => Ok (Some (0, msg, None))
  | Some st =>
      c ← gwlist_consume_retry (gwlist_consume_enter (st_loaded st));
      match c with
      | Blocked => Ok None
      | Consumed _ l =>
          let st := set_loaded st l in
          '(r, msg, st) ← store_to_dict now msg st;
          if r =? -1 then Ok (Some (-1, msg, Some st))
          else
            st ← write_msg st msg;
            Ok (Some (0, msg, Some st))
      end
  end.

Definition store_file_save_ack (now : Z) (msg : option Msg) (status : Z) (st : option Store)
  : res (option (Z * option Store)) :=
  match msg with
  | None => Ok (Some (-1, st))
  | Some msg =>
      if negb (m_type msg =? T_SMS) then Ok (Some (-1, st))
      else
        match st with
        | None => Ok (Some (0, None))
        | Some s =>
            let mack := msg_create (gen (st_gen s)) (gen (S (st_gen s))) T_ACK in
            id ← uuid_copy (sms_id (m_sms msg));
            let mack := mkMsg (m_type mack) (m_heartbeat mack) (m_admin mack) (m_sms mack)
                          (mkAck status (sms_time (m_sms msg)) id) (m_wdp_datagram mack) in
            r ← store_file_save now mack (Some (set_gen s (st_gen s + 2)));
            Ok (option_map (fun '(r, _, st) => (r, st)) r)
        end
  end.

(** ** Loading *)

(** [octstr_read_file] of a file with the contents [data]. *)
Fixpoint read_loop (os : Octstr) (data : list Z) (fuel : nat) : res Octstr :=
  match fuel with
  | O => Undef
  | S fuel =>
      let buf := take 4096 data in
      if 0 <? zlen buf then
        os ← octstr_insert_data os (os_len os) buf (zlen buf);
        read_loop os (drop 4096 data) fuel
      else Ok os
  end.

Definition octstr_read_file (file : option (list Z)) : res (option Octstr) :=
  match file with
  | None => Ok None
  | Some data =>
      os ← octstr_create [];
      os ← read_loop os data (S (length data));
      Ok (Some os)
  end.

(** The loop over the records; [None] when it is still running after [fuel]
    rounds. *)
Fixpoint load_loop (now : Z) (store_file : Octstr) (pos end_ : Z) (st : Store) (fuel : nat)
  : res (option Store) :=
  if pos <? end_ then
    match fuel with
    | O => Ok None
    | S fuel =>
        '(msg, pos) ← read_msg (st_gen st) store_file pos;
        let st := set_gen st (st_gen st + 2) in
        match msg with
        | None => load_loop now store_file pos end_ st fuel
        | Some msg =>
            st ← (if (m_type msg =? T_SMS) || (m_type msg =? T_ACK) then
                    '(_, _, st) ← store_to_dict now msg st;
                    Ok st
                  else Ok st);
            load_loop now store_file pos end_ st fuel
        end
    end
  else Ok (Some st).

(** The loop that hands the messages left to [receive_msg]: the messages handed
    over, in order. *)
Fixpoint receive_loop (now : Z) (keys : List Octstr) (st : Store) (got : list Msg) (fuel : nat)
  : res (Store * list Msg) :=
  match fuel with
  | O => Undef
  | S fuel =>
      '(key, keys) ← gwlist_extract_first keys;
      match key with
      | None => Ok (st, got)
      | Some key =>
          '(msg, d) ← dict_remove (st_dict st) key;
          match msg with
          | None => Undef
          | Some msg =>
              '(r, msg, st) ← store_to_dict now msg (set_dict st d);
              receive_loop now keys st (if r =? -1 then got else got ++ [msg]) fuel
          end
      end
  end.

(** The first of the three files that can be read. *)
Definition find_store (s : fs) : option (list Z) :=
  match s Main with
  | Some c => Some c
  | None => match s New with
            | Some c => Some c
            | None => s Bak
            end
  end.

(** The return value, the messages received and the store; [None] while the loop
    over the records runs. *)
Definition store_file_load (e : io) (now : Z) (st : option Store) (fuel : nat)
  : res (option (Z * list Msg * option Store)) :=
  match st with
  | None => Ok (Some (0, [], None))
  | Some st =>
      let st := set_file st None in
      store_file ← octstr_read_file (find_store (st_fs st));
      match store_file with
      | None =>
          let '(retval, st) := open_file (io_open e) Main st in
          l ← gwlist_remove_producer (st_loaded st);
          Ok (Some (retval, [], Some (set_loaded st l)))
      | Some store_file =>
          end_ ← octstr_len (Some store_file);
          r ← load_loop now store_file 0 end_ st fuel;
          match r with
          | None => Ok None
          | Some st =>
              keys ← dict_keys (st_dict st);
              '(st, got) ← receive_loop now keys st [] (S (Z.to_nat (gwlist_len (Some keys))));
              '(retval, st) ← do_dump e st;
              l ← gwlist_remove_producer (st_loaded st);
              Ok (Some (retval, got, Some (set_loaded st l)))
          end
      end
  end.

(** ** The dump thread and the life of the store *)

Definition store_file_dump (e : io) (st : Store) : res (Z * Store) :=
  do_dump e (set_file st None).

(** One round of [store_dumper]: the clock is [now] when the round starts and
    [later] after the dump. *)
Definition store_dumper_round (e : io) (now later : Z) (busy : bool) (st : Store)
  : res (bool * Store) :=
  if (st_dump_frequency st <? now - st_last_dict_mod st) || busy then
    '(_, st) ← store_file_dump e st;
    Ok (false, set_last_dict_mod st (later + 3600 * 24))
  else Ok (0 <? now - st_last_dict_mod st, st).

Definition BB_STORE_DEFAULT_DUMP_FREQ : Z := 10.

Definition FILENAME_MAX : Z := 4096.

(** [store_file_init] on the file system [s]; [fname] is the length of the file
    name, if there is one. *)
Definition store_file_init (s : fs) (fname : option Z) (dump_freq : Z) : res (option Store) :=
  match fname with
  | None => Ok None
  | Some n =>
      if FILENAME_MAX - 5 <? n then Panic
      else
        Ok (Some (mkStore None s [] (dict_create 1024 true) (gwlist_add_producer gwlist_create) 0
                    (if 0 <? dump_freq then dump_freq else BB_STORE_DEFAULT_DUMP_FREQ) 0))
  end.

(** [store_file_shutdown]: the dump thread makes a last dump and frees the
    dictionary; the messages freed. *)
Definition store_file_shutdown (e : io) (st : option Store) : res (option (fs * list Msg)) :=
  match st with
  | None => Ok None
  | Some st =>
      '(_, st) ← store_file_dump e st;
      gone ← dict_destroy (st_dict st);
      Ok (Some (st_fs st, gone))
  end.
End store.

(** ** What messages and records stand for

    An entry of the store file: the type of a message and what its fields stand
    for. *)
Definition entry : Type := Z * list field.

Record stands (m : Msg) (e : entry) : Prop := {
  sd_type : m_type m = e.1;
  sd_sound : msg_sound m;
  sd_fields : exists vs, msg_values m = Some vs /\ Forall2 holds vs e.2
}.

(** An entry that some message has, and the entry as it comes back. *)
Definition realizable (e : entry) : Prop := exists m, stands m e.

Definition received_entry (e : entry) : entry := (e.1, received <$> e.2).

(** What the store relies on: a message is packed to octets that depend on its
    entry alone, and they unpack to a message with the entry received. *)
Class StoreCodecLaws `{!StoreCodec} := {
  packed : entry -> list Z;
  packs : forall m e, stands m e ->
    returns (store_msg_pack m) (fun o => reprm o (packed e));
  unpacks : forall o e id1 id2, realizable e -> is_uuid id1 -> is_uuid id2 ->
    repr o (packed e) -> zlen (packed e) < 2 ^ 31 ->
    returns (store_msg_unpack id1 id2 o) (fun r => exists m, r = Some m /\ stands m (received_entry e));
  packed_received : forall e, packed (received_entry e) = packed e
}.

Lemma msg_create_sound (id1 id2 : list Z) (t : Z) :
  is_uuid id1 -> is_uuid id2 -> msg_sound (msg_create id1 id2 t).
Proof.
  intros H1 H2. unfold msg_sound, all_values, msg_create. cbn.
  assert (forall i, sound_value (VInt i)) by (eexists; constructor).
  assert (sound_value (VStr None)) by (eexists; constructor).
  assert (sound_value (VPtr 0)) by (eexists; constructor).
  assert (sound_value (VUuid id1)) by (eexists; by constructor).
  assert (sound_value (VUuid id2)) by (eexists; by constructor).
  repeat (apply Forall_cons_2 || apply Forall_nil_2 || eauto).
Qed.

Lemma set_msg_values_sound (m p : Msg) (i : nat) (vs0 vs : list value) :
  msg_sound m -> all_values p !! i = Some vs0 -> kind_of <$> vs = kind_of <$> vs0 ->
  Forall sound_value vs -> msg_sound (set_msg_values m vs).
Proof.
  intros Hm Hi Hk Hv. unfold msg_sound. rewrite (proj1 (set_all_values m p i vs0 vs Hi Hk)).
  by apply Forall_insert.
Qed.

Lemma holds_sound (vs : list value) (fs : list field) : Forall2 holds vs fs -> Forall sound_value vs.
Proof. induction 1 as [|v f vs fs Hv _ IH]; constructor; [by exists f|done]. Qed.

(** The octets of an integer depend on its low 32 bits. *)
Lemma encode_int32 (i : Z) : encode_network_long (int32 i) = encode_network_long i.
Proof.
  assert (forall j, 0 <= j < 32 -> Z.testbit (int32 i mod 2 ^ 64) j = Z.testbit (i mod 2 ^ 64) j) as Hb.
  { intros j Hj. rewrite !Z.mod_pow2_bits_low by lia.
    rewrite <- (Z.mod_pow2_bits_low (int32 i) 32), <- (Z.mod_pow2_bits_low i 32) by lia. f_equal.
    unfold int32. rewrite Zminus_mod_idemp_l. f_equal. lia. }
  unfold encode_network_long. change 255 with (Z.ones 8).
  assert (forall k, 0 <= k <= 24 -> Z.land (Z.shiftr (int32 i mod 2 ^ 64) k) (Z.ones 8) =
                               Z.land (Z.shiftr (i mod 2 ^ 64) k) (Z.ones 8)) as He.
  { intros k Hk. apply Z.bits_inj'. intros j Hj. rewrite !Z.land_spec, !Z.shiftr_spec by lia.
    destruct (Z.ltb_spec j 8); [by rewrite Hb by lia|].
    by rewrite Z.ones_spec_high, !andb_false_r by lia. }
  pose proof (He 0 ltac:(lia)) as H0. rewrite !Z.shiftr_0_r in H0.
  by rewrite !He, H0 by lia.
Qed.

Lemma wire_received (f : field) : wire (received f) = wire f.
Proof. destruct f as [i|[]|u|p]; [apply encode_int32|done..]. Qed.

#[export] Instance msg_codec_laws : StoreCodecLaws.
Proof.
  refine {| packed e := encode_network_long e.1 ++ concat (wire <$> e.2) |}.
  - intros m [t fs] [Ht _ (vs & Hv & Hh)]. simpl in *. subst t. by apply (msg_pack_ok m vs fs).
  - intros o [t fs] id1 id2 [m [Ht _ (vs & Hv & Hh)]] H1 H2 Ho Hl. simpl in *. subst t.
    apply (returns_mono _ _ _ (msg_unpack_ok o m vs fs id1 id2 Hv Hh Ho Hl)).
    intros r (m' & vs' & -> & Ht & Hv' & E & Hh'). exists m'. split; [done|].
    split; [done| |by exists vs']. subst m'.
    destruct (msg_create_kinds m vs id1 id2 Hv) as (vs0 & Hv0 & Hk & _).
    apply (set_msg_values_sound _ (msg_create id1 id2 (m_type m)) (Z.to_nat (m_type m)) vs0).
    + by apply msg_create_sound.
    + by apply msg_values_all in Hv0 as [_ Hv0].
    + rewrite Hk. by apply (received_kinds vs vs' fs).
    + by apply (holds_sound _ (received <$> fs)).
  - intros [t fs]. cbn [received_entry fst snd]. do 2 f_equal. rewrite <- list_fmap_compose. apply list_fmap_ext.
    intros ? f _. apply wire_received.
Defined.

(** ** The store as a map

    The messages that are not acknowledged, by the text of their identifier. *)
Notation smap := (gmap (list Z) (list field)).

(** The identifier among the fields: [sms.id] is the eleventh field of an SMS,
    [ack.id] the third one of an acknowledgement. *)
Definition key_at (i : nat) (fs : list field) : list Z :=
  match fs !! i with
  | Some (FUuid u) => uuid_text u
  | _ => []
  end.

(** The effect of an entry. *)
Definition apply_entry (M : smap) (e : entry) : smap :=
  if e.1 =? T_SMS then <[key_at 10 e.2 := e.2]> M
  else if e.1 =? T_ACK then delete (key_at 2 e.2) M
  else M.

Definition replay (es : list entry) (M : smap) : smap := fold_left apply_entry es M.

(** The messages as they come back from the file. *)
Definition received_map (M : smap) : smap := fmap (fun fs : list field => received <$> fs) M.

(** The fields of a stored SMS: it has an identifier and a time. *)
Definition logged (fs : list field) : Prop :=
  exists u t, fs !! 10%nat = Some (FUuid u) /\ u <> uuid_clear /\
    fs !! 4%nat = Some (FInt t) /\ int32 t <> -1.

Definition loggable (e : entry) : Prop :=
  realizable e /\ (e.1 = T_SMS /\ logged e.2 \/ e.1 = T_ACK).

Record sms_in (k : list Z) (m : Msg) (fs : list field) : Prop := {
  si_stands : stands m (T_SMS, fs);
  si_key : k = key_at 10 fs;
  si_logged : logged fs
}.

(** The dictionary holds the map. *)
Definition store_holds (d : Dict Msg) (M : smap) : Prop :=
  exists mm, dict_holds d mm /\ map_Forall2 sms_in mm M.

(** Everything but the dictionary, its clock and the counter of identifiers. *)
Definition same_rest (st st' : Store) : Prop :=
  st_file st' = st_file st /\ st_fs st' = st_fs st /\ st_trace st' = st_trace st /\
  st_loaded st' = st_loaded st.

Lemma stands_sms (m : Msg) (fs : list field) :
  stands m (T_SMS, fs) -> Forall2 holds (sms_values (m_sms m)) fs.
Proof.
  intros [Ht _ (vs & Hv & Hh)]. simpl in *. unfold msg_values in Hv. rewrite Ht in Hv.
  by injection Hv as <-.
Qed.

Lemma stands_ack (m : Msg) (fs : list field) :
  stands m (T_ACK, fs) -> Forall2 holds (ack_values (m_ack m)) fs.
Proof.
  intros [Ht _ (vs & Hv & Hh)]. simpl in *. unfold msg_values in Hv. rewrite Ht in Hv.
  by injection Hv as <-.
Qed.

(** The identifier and the time of an SMS, and the identifier of an acknowledgement. *)
Lemma sms_id_field (m : Msg) (fs : list field) :
  stands m (T_SMS, fs) ->
  is_uuid (sms_id (m_sms m)) /\ fs !! 10%nat = Some (FUuid (sms_id (m_sms m))) /\
  fs !! 4%nat = Some (FInt (sms_time (m_sms m))).
Proof.
  intros H%stands_sms.
  destruct (Forall2_lookup_l _ _ _ 10 _ H eq_refl) as (f & E & Hf). inversion Hf; subst.
  destruct (Forall2_lookup_l _ _ _ 4 _ H eq_refl) as (f & E' & Hf'). inversion Hf'; subst. done.
Qed.

Lemma ack_id_field (m : Msg) (fs : list field) :
  stands m (T_ACK, fs) ->
  is_uuid (ack_id (m_ack m)) /\ fs !! 2%nat = Some (FUuid (ack_id (m_ack m))).
Proof.
  intros H%stands_ack.
  destruct (Forall2_lookup_l _ _ _ 2 _ H eq_refl) as (f & E & Hf). by inversion Hf; subst.
Qed.

Lemma int32_int32 (z : Z) : int32 (int32 z) = int32 z.
Proof. apply int32_small, int32_range. Qed.

Lemma received_received (f : field) : received (received f) = received f.
Proof. destruct f; simpl; [by rewrite int32_int32|done..]. Qed.

Lemma received_map_idem (M : smap) : received_map (received_map M) = received_map M.
Proof.
  unfold received_map. rewrite <- map_fmap_compose. apply map_fmap_ext. intros k fs _. simpl.
  rewrite <- list_fmap_compose. apply list_fmap_ext. intros ? f _. apply received_received.
Qed.

Lemma key_at_received (i : nat) (fs : list field) : key_at i (received <$> fs) = key_at i fs.
Proof. unfold key_at. rewrite list_lookup_fmap. by destruct (fs !! i) as [[]|]. Qed.

Lemma apply_received (M : smap) (e : entry) :
  apply_entry (received_map M) (received_entry e) = received_map (apply_entry M e).
Proof.
  unfold apply_entry, received_map. simpl. rewrite !key_at_received.
  destruct (e.1 =? T_SMS); [by rewrite fmap_insert|].
  destruct (e.1 =? T_ACK); [by rewrite fmap_delete|done].
Qed.

Lemma replay_received (es : list entry) (M : smap) :
  replay (received_entry <$> es) (received_map M) = received_map (replay es M).
Proof. revert M. induction es as [|e es IH]; intros M; [done|]. csimpl. by rewrite apply_received, IH. Qed.

Lemma logged_received (fs : list field) : logged fs -> logged (received <$> fs).
Proof.
  intros (u & t & H1 & Hu & H2 & Ht). exists u, (int32 t). rewrite !list_lookup_fmap, H1, H2. simpl.
  split_and!; [done..|by rewrite int32_int32].
Qed.

Lemma same_rest_trans (a b c : Store) : same_rest a b -> same_rest b c -> same_rest a c.
Proof. intros (? & ? & ? & ?) (? & ? & ? & ?). unfold same_rest. split_and!; congruence. Qed.

Lemma sms_in_lookup (mm : gmap (list Z) Msg) (M : smap) (k : list Z) :
  map_Forall2 sms_in mm M ->
  match mm !! k, M !! k with
  | Some m, Some fs => sms_in k m fs
  | None, None => True
  | _, _ => False
  end.
Proof. intros H. by destruct (H k). Qed.

Lemma keys_agree (mm : gmap (list Z) Msg) (M : smap) :
  map_Forall2 sms_in mm M -> (map_to_list mm).*1 ≡ₚ (map_to_list M).*1.
Proof.
  intros Hrel. apply list.NoDup_Permutation; [apply NoDup_fst_map_to_list..|]. intros k.
  rewrite !list_elem_of_fmap. pose proof (sms_in_lookup mm M k Hrel) as Hk.
  split; intros ([k' v] & -> & H%elem_of_map_to_list); simpl in *; rewrite H in Hk.
  - destruct (M !! k') as [fs|] eqn:E; [|done]. exists (k', fs). by rewrite elem_of_map_to_list.
  - destruct (mm !! k') as [fs|] eqn:E; [|done]. exists (k', fs). by rewrite elem_of_map_to_list.
Qed.

Lemma duplicate_stands (id1 id2 : list Z) (m : Msg) (e : entry) :
  stands m e -> returns (msg_duplicate id1 id2 m) (fun m' => stands m' e).
Proof.
  intros [Ht Hs (vs & Hv & Hh)]. apply (returns_mono _ _ _ (msg_duplicate_sound id1 id2 m Hs)).
  intros m' (Ht' & Hs' & Hd). split; [by rewrite Ht'|done|by apply (Hd vs)].
Qed.

(** The key of an identifier. *)
Lemma uuid_key (u : list Z) : is_uuid u ->
  returns (id ← uuid_unparse u; octstr_create id) (fun o => repr o (uuid_text u)).
Proof.
  intros Hu. rewrite uuid_unparse_ok by done. bind_red.
  apply (returns_mono _ _ _ (octstr_create_ok _ (octets_uuid_text u Hu))). by intros o [? _].
Qed.

(** ** Correctness, for any lawful codec *)

Section store_proofs.
Context {codec : StoreCodec} {laws : StoreCodecLaws}.
Variable gen : nat -> list Z.
Hypothesis gen_uuid : forall n, is_uuid (gen n).

(** The record of an entry in the file. *)
Definition record (e : entry) : list Z := encode_network_long (zlen (packed e)) ++ packed e.

Lemma zlen_record (e : entry) : 4 <= zlen (record e).
Proof. unfold record. rewrite zlen_app, zlen_encode. pose proof (zlen_nonneg (packed e)). lia. Qed.

Definition fits (e : entry) : Prop := zlen (packed e) < 2 ^ 31.

Lemma octets_packed (e : entry) : realizable e -> octets (packed e).
Proof.
  intros [m Hm]. pose proof (packs m e Hm) as P. apply returns_iff in P as (o & _ & Ho).
  by apply (reprm_octets o).
Qed.

Lemma octets_record (e : entry) : realizable e -> octets (record e).
Proof. intros H. apply octets_app; [apply octets_encode|by apply octets_packed]. Qed.

Lemma write_msg_ok (st : Store) (m : Msg) (e : entry) (f : fname) :
  stands m e -> st_file st = Some f -> write_msg st m = Ok (emit (Append f (record e)) st).
Proof.
  intros Hm Hf. assert (returns (write_msg st m) (eq (emit (Append f (record e)) st))) as R.
  2:{ by apply returns_iff in R as (? & ? & ->). }
  unfold write_msg. apply returns_bind, (returns_mono _ _ _ (packs m e Hm)). intros o Ho.
  cbn [octstr_len]. rewrite (repr_seems_valid _ _ (proj1 Ho)), (reprm_len _ _ Ho). bind_red.
  pose proof (zlen_nonneg (packed e)). apply returns_bind. eapply returns_mono.
  { apply (octstr_insert_data_ok o (packed e) (encode_network_long (zlen (packed e))) 0 4 Ho); [done..|].
    rewrite take_ge by done. apply octets_encode. }
  intros o' Ho'. cbv beta in Ho'. rewrite take_ge in Ho' by done.
  unfold octstr_print. rewrite Hf, (repr_seems_valid _ _ (proj1 Ho')), (reprm_len _ _ Ho'). bind_red.
  rewrite zlen_splice by done. rewrite (proj2 (Z.eqb_neq _ 0)) by (rewrite zlen_encode; lia).
  rewrite (repr_bytes _ _ (proj1 Ho')). done.
Qed.

Lemma read_msg_ok (g : nat) (os : Octstr) (pre post : list Z) (e : entry) :
  realizable e -> fits e -> repr os (pre ++ record e ++ post) ->
  returns (read_msg gen g os (zlen pre)) (fun '(r, off) =>
    off = zlen (pre ++ record e) /\ exists m, r = Some m /\ stands m (received_entry e)).
Proof.
  intros He Hl Ho. unfold read_msg, fits in *. pose proof (zlen_nonneg pre). pose proof (zlen_nonneg post).
  pose proof (zlen_nonneg (packed e)). wp_assert.
  cbn [octstr_len]. rewrite (repr_seems_valid _ _ Ho), (repr_len _ _ Ho). bind_red.
  unfold record in Ho |- *. rewrite <- app_assoc in Ho.
  rewrite (proj2 (Z.ltb_ge _ _)) by (rewrite !zlen_app, zlen_encode; lia).
  rewrite (octstr_get_many_chars_ok _ os _ (zlen pre) 4 Ho);
    [|lia|lia|rewrite !zlen_app, zlen_encode; lia|done].
  bind_red. change 4 with (zlen (encode_network_long (zlen (packed e)))) at 1.
  rewrite slice_mid, decode_encode, int32_small by lia. bind_red. apply returns_bind.
  eapply returns_mono; [apply (octstr_copy_ok os _ (zlen pre + 4) (zlen (packed e)) Ho); lia|].
  intros pack Hp. cbv beta in Hp.
  assert (slice (pre ++ encode_network_long (zlen (packed e)) ++ packed e ++ post) (zlen pre + 4)
            (zlen (packed e)) = packed e) as Es.
  { rewrite app_assoc. replace (zlen pre + 4) with (zlen (pre ++ encode_network_long (zlen (packed e))))
      by (rewrite zlen_app, zlen_encode; done). apply slice_mid. }
  rewrite Es in Hp. cbn [octstr_len]. rewrite (repr_seems_valid _ _ (proj1 Hp)), (reprm_len _ _ Hp). bind_red.
  apply returns_bind. eapply returns_mono;
    [by apply (unpacks pack e (gen g) (gen (S g)) He); [..|exact (proj1 Hp)|]|].
  intros r (m & -> & Hm). cbn [returns]. split; [rewrite !zlen_app, zlen_encode; lia|by exists m].
Qed.

(** An entry that is in the file already, or a prepared message. *)
Lemma store_to_dict_ok (now : Z) (m : Msg) (e : entry) (st : Store) (M : smap) :
  stands m e -> e.1 = T_SMS /\ logged e.2 \/ e.1 = T_ACK -> store_holds (st_dict st) M ->
  returns (store_to_dict gen now m st) (fun '(r, m', st') =>
    r = 0 /\ m' = m /\ store_holds (st_dict st') (apply_entry M e) /\ same_rest st st' /\
    st_gen st' = (st_gen st + 3)%nat).
Proof.
  destruct e as [t fs]. intros Hm Hcase (mm & [B HB] & Hmm). unfold store_to_dict, apply_entry. simpl in Hcase |- *.
  rewrite (sd_type _ _ Hm). simpl. destruct Hcase as [[-> Hl]| ->].
  - pose proof (sms_id_field m fs Hm) as (Hu & Hid & Htime).
    pose proof Hl as (u & tm & Hid' & Hnn & Htime' & Ht). rewrite Hid in Hid'. rewrite Htime in Htime'. simplify_eq.
    simpl. rewrite uuid_is_null_ok, bool_decide_false by done. bind_red. simpl.
    destruct (Z.eqb_spec (sms_time (m_sms m)) MSG_PARAM_UNDEFINED) as [E|_]; [by rewrite E in Ht|].
    apply returns_bind, (returns_mono _ _ _ (duplicate_stands _ _ m _ Hm)). intros c Hc.
    pose proof (sms_id_field c fs Hc) as (Huc & Hidc & _). rewrite Hid in Hidc. injection Hidc as Hidc.
    rewrite <- Hidc. rewrite uuid_unparse_ok by done. bind_red.
    apply returns_bind, (returns_mono _ _ _ (octstr_create_ok _ (octets_uuid_text _ Hu))). intros o [Ho _].
    apply returns_bind, (returns_mono _ _ _ (dict_put_value_ok _ mm B o _ c HB Ho)). intros [d ds] (Hd & _ & _).
    cbn [returns]. split_and!; [done..| |done|done]. exists (<[uuid_text (sms_id (m_sms m)) := c]> mm). split; [done|].
    unfold key_at. rewrite Hid. apply map_Forall2_insert_2; [|done].
    split; [done| |done]. unfold key_at. by rewrite Hid.
  - pose proof (ack_id_field m fs Hm) as (Hu & Hid). simpl. rewrite uuid_unparse_ok by done. bind_red.
    apply returns_bind, (returns_mono _ _ _ (octstr_create_ok _ (octets_uuid_text _ Hu))). intros o [Ho _].
    apply returns_bind, (returns_mono _ _ _ (dict_remove_ok _ mm B o _ HB Ho)). intros [v d] (_ & Hd & _).
    cbn [returns]. unfold key_at. rewrite Hid.
    split_and!; [done..| |by destruct v|by destruct v].
    exists (delete (uuid_text (ack_id (m_ack m))) mm). split; [by destruct v|by apply map_Forall2_delete].
Qed.

(** ** The loops of [store_file_load] *)

Lemma read_loop_ok (fuel : nat) (os : Octstr) (s data : list Z) :
  (length data < fuel)%nat -> reprm os s -> octets data ->
  returns (read_loop os data fuel) (fun os' => reprm os' (s ++ data)).
Proof.
  revert os s data. induction fuel as [|fuel IH]; intros os s data Hf Hos Hd; [lia|].
  cbn [read_loop]. destruct data as [|c data]; [simpl; by rewrite app_nil_r|].
  set (buf := take 4096 (c :: data)). assert (0 < zlen buf) as Hb by (unfold buf; list_lia).
  rewrite (proj2 (Z.ltb_lt 0 (zlen buf))) by done. rewrite (reprm_len _ _ Hos). pose proof (zlen_nonneg s).
  apply returns_bind. eapply returns_mono.
  { apply (octstr_insert_data_ok os s buf (zlen s) (zlen buf) Hos); [lia..|].
    unfold zlen. rewrite Nat2Z.id, firstn_all. unfold buf. by apply octets_take. }
  intros os' Ho'. cbv beta in Ho'. unfold zlen in Ho' at 2. rewrite Nat2Z.id, firstn_all, splice_end in Ho'.
  eapply returns_mono; [apply (IH os' (s ++ buf)); [|done|by apply octets_drop]|].
  { rewrite length_drop. simpl in *. lia. }
  intros o. unfold buf. by rewrite <- app_assoc, take_drop.
Qed.

Lemma octstr_read_file_ok (data : list Z) : octets data ->
  returns (octstr_read_file (Some data)) (fun r => exists os, r = Some os /\ repr os data).
Proof.
  intros Hd. unfold octstr_read_file. apply returns_bind, (returns_mono _ _ _ (octstr_create_ok [] octets_nil)).
  intros o Ho. apply returns_bind.
  apply (returns_mono _ _ _ (read_loop_ok (S (length data)) o [] data ltac:(lia) Ho Hd)).
  intros o' [Ho' _]. by exists o'.
Qed.

Definition in_file (e : entry) : Prop := loggable e /\ fits e.

Lemma octets_records (es : list entry) : Forall in_file es -> octets (concat (record <$> es)).
Proof.
  induction 1 as [|e es [[He _] _] _ IH]; [apply octets_nil|].
  rewrite fmap_cons, concat_cons. apply octets_app; [by apply octets_record|done].
Qed.

(** The replay of complete records, after which the loop goes on with [tail]. *)
Lemma load_loop_ok (now : Z) (es : list entry) (os : Octstr) (pre tail : list Z) (M : smap)
    (st : Store) (fuel : nat) :
  Forall in_file es -> repr os (pre ++ concat (record <$> es) ++ tail) ->
  store_holds (st_dict st) M -> (length es <= fuel)%nat ->
  exists st', store_holds (st_dict st') (replay (received_entry <$> es) M) /\ same_rest st st' /\
    load_loop gen now os (zlen pre) (zlen (pre ++ concat (record <$> es) ++ tail)) st fuel =
    load_loop gen now os (zlen (pre ++ concat (record <$> es)))
      (zlen (pre ++ concat (record <$> es) ++ tail)) st' (fuel - length es).
Proof.
  intros Hes. revert pre M st fuel. induction Hes as [|e es [[He Hc] Hf] _ IH]; intros pre M st fuel Hos Hd Hfuel.
  { exists st. cbn [concat fmap list_fmap length]. rewrite app_nil_r, Nat.sub_0_r. split_and!; [done..|]. done. }
  rewrite !fmap_cons, concat_cons in *. rewrite <- app_assoc in Hos. destruct fuel as [|fuel]; [simpl in Hfuel; lia|]. cbn [load_loop].
  rewrite (proj2 (Z.ltb_lt (zlen pre) _)).
  2:{ rewrite !zlen_app. pose proof (zlen_record e). pose proof (zlen_nonneg (concat (record <$> es))).
      pose proof (zlen_nonneg tail). lia. }
  pose proof (read_msg_ok (st_gen st) os pre _ e He Hf Hos) as P.
  apply returns_iff in P as ([r off] & -> & -> & m & -> & Hm). bind_red. cbv iota beta.
  assert ((m_type m =? T_SMS) || (m_type m =? T_ACK) = true) as ->.
  { rewrite (sd_type _ _ Hm). simpl. by destruct Hc as [[-> _]| ->]. }
  assert ((received_entry e).1 = T_SMS /\ logged (received_entry e).2 \/ (received_entry e).1 = T_ACK) as Hc'.
  { destruct Hc as [[E Hl]|E]; [left|by right]. split; [done|by apply logged_received]. }
  pose proof (store_to_dict_ok now m _ (set_gen st (st_gen st + 2)) M Hm Hc' Hd) as P.
  apply returns_iff in P as ([[r m'] st1] & -> & -> & -> & Hd1 & Hr1 & _). bind_red. cbv iota beta.
  destruct (IH (pre ++ record e) (apply_entry M (received_entry e)) st1 fuel) as (st2 & Hd2 & Hr2 & E).
  { by rewrite <- app_assoc. }
  { done. }
  { simpl in Hfuel. lia. }
  exists st2. split_and!; [done|by apply (same_rest_trans st st1)|].
  rewrite <- !app_assoc in E |- *. rewrite E. by rewrite <- (app_assoc pre).
Qed.

(** The entries for the keys [ks]. *)
Definition entries_of (M : smap) (ks : list (list Z)) : list entry :=
  (fun k => (T_SMS, default [] (M !! k))) <$> ks.

Definition append_all (f : fname) (es : list entry) : list fs_op := (fun e => Append f (record e)) <$> es.

Definition emits (ops : list fs_op) (st : Store) : Store := fold_left (fun st op => emit op st) ops st.

Lemma emits_app (ops ops' : list fs_op) (st : Store) : emits (ops ++ ops') st = emits ops' (emits ops st).
Proof. apply fold_left_app. Qed.

Lemma emit_appends (f : fname) (es : list entry) (st : Store) :
  st_file st = Some f ->
  st_file (emits (append_all f es) st) = Some f /\ st_dict (emits (append_all f es) st) = st_dict st.
Proof. revert st. induction es as [|e es IH]; intros st Hf; [done|]. apply (IH (emit _ st)). done. Qed.

Lemma gwlist_get_ok {A} (l : List A) (xs : list A) (i : nat) (x : A) :
  lrepr l xs -> xs !! i = Some x -> gwlist_get l (Z.of_nat i) = Ok x.
Proof.
  intros Hl Hx. pose proof (lookup_lt_Some _ _ _ Hx). unfold gwlist_get.
  apply bind_assert; [lia|]. apply bind_assert; [rewrite (lr_len _ _ Hl); list_lia|]. by apply (GET_ok l xs).
Qed.

(** Every key that is left has its message written. *)
Lemma dump_loop_ok (keys : List Octstr) (os : list Octstr) (ks : list (list Z)) (M : smap) (f : fname) :
  lrepr keys os -> Forall2 repr os ks -> Forall (fun k => is_Some (M !! k)) ks ->
  forall (n i : nat) (st : Store), (i + n = length ks)%nat -> store_holds (st_dict st) M ->
  st_file st = Some f ->
  dump_loop keys (Z.of_nat i) st n = Ok (emits (append_all f (entries_of M (drop i ks))) st).
Proof.
  intros Hk Hos Hin. induction n as [|n IH]; intros i st Hn Hd Hf.
  { by rewrite drop_ge by lia. }
  destruct (lookup_lt_is_Some_2 ks i) as [k Ek]; [lia|].
  destruct (Forall2_lookup_r _ _ _ _ _ Hos Ek) as (o & Eo & Ho).
  cbn [dump_loop]. rewrite (gwlist_get_ok keys os i o Hk Eo). bind_red. destruct Hd as (mm & [B HB] & Hmm).
  rewrite (dict_get_ok _ mm B o k HB Ho). bind_red.
  pose proof (proj1 (Forall_lookup _ _) Hin i k Ek) as [fs Hfs].
  pose proof (sms_in_lookup mm M k Hmm) as Hl. rewrite Hfs in Hl.
  destruct (mm !! k) as [m|]; [|done]. rewrite (write_msg_ok st m _ f (si_stands _ _ _ Hl) Hf). bind_red.
  replace (Z.of_nat i + 1) with (Z.of_nat (S i)) by lia.
  rewrite IH; [|lia|by exists mm; split; [exists B|]|done].
  rewrite (drop_S _ _ _ Ek). unfold entries_of. rewrite fmap_cons, Hfs. done.
Qed.

(** Storing the messages again and handing them over changes nothing. *)
Lemma receive_loop_ok (now : Z) (M : smap) (fuel : nat) :
  forall (keys : List Octstr) (os : list Octstr) (ks : list (list Z)) (st : Store) (got : list Msg),
  lrepr keys os -> Forall2 repr os ks -> Forall (fun k => is_Some (M !! k)) ks ->
  (length ks < fuel)%nat -> store_holds (st_dict st) M ->
  returns (receive_loop gen now keys st got fuel) (fun '(st', got') =>
    store_holds (st_dict st') M /\ same_rest st st' /\
    exists ms, got' = got ++ ms /\ Forall2 stands ms (entries_of M ks)).
Proof.
  induction fuel as [|fuel IH]; intros keys os ks st got Hk Hos Hin Hf Hd; [lia|]. cbn [receive_loop].
  apply returns_bind, (returns_mono _ _ _ (gwlist_extract_first_ok keys os Hk)).
  intros [key keys'] (-> & Hk' & _). destruct Hos as [|o k os ks Ho Hos]; cbn [head tail] in *.
  { split_and!; [done..|]. exists []. split; [by rewrite app_nil_r|constructor]. }
  apply Forall_cons_iff in Hin as [[fs Hfs] Hin]. destruct Hd as (mm & [B HB] & Hmm).
  apply returns_bind, (returns_mono _ _ _ (dict_remove_ok _ mm B o k HB Ho)). intros [v d] (-> & Hd & _).
  pose proof (sms_in_lookup mm M k Hmm) as Hl. rewrite Hfs in Hl.
  destruct (mm !! k) as [m|] eqn:Em; [|done]. pose proof Hl as [Hm Ek Hlog].
  assert (store_holds (st_dict (set_dict st d)) (delete k M)) as Hd'.
  { exists (delete k mm). split; [done|by apply map_Forall2_delete]. }
  apply returns_bind. eapply returns_mono;
    [apply (store_to_dict_ok now m (T_SMS, fs) (set_dict st d) (delete k M) Hm); [by left|done]|].
  intros [[r m'] st'] (-> & -> & Hst & Hr & _). cbv iota beta.
  unfold apply_entry in Hst. simpl in Hst. rewrite <- Ek, insert_delete_eq, insert_id in Hst by done.
  eapply returns_mono; [apply (IH keys' os ks st' (got ++ [m])); [done..|simpl in Hf; lia|done]|].
  intros [st2 got2] (H1 & H2 & ms & -> & Hms). split_and!; [done|by apply (same_rest_trans st st')|].
  exists (m :: ms). split; [by rewrite <- app_assoc|]. unfold entries_of. rewrite fmap_cons, Hfs. by constructor.
Qed.

(** Replaying the messages of a map gives the map. *)
Lemma replay_entries_lookup (M : smap) (ks : list (list Z)) :
  (forall k, k ∈ ks -> exists fs, M !! k = Some fs /\ k = key_at 10 fs) ->
  forall M0 k, replay (entries_of M ks) M0 !! k = if decide (k ∈ ks) then M !! k else M0 !! k.
Proof.
  induction ks as [|k' ks IH]; intros HM M0 k.
  { rewrite decide_False by apply not_elem_of_nil. done. }
  destruct (HM k') as (fs & Hfs & Ek); [set_solver|].
  unfold entries_of. rewrite fmap_cons, Hfs. cbn [replay fold_left].
  change (replay (entries_of M ks) (apply_entry M0 (T_SMS, fs)) !! k =
          if decide (k ∈ k' :: ks) then M !! k else M0 !! k).
  rewrite IH by set_solver. destruct (decide (k ∈ ks)); [by rewrite decide_True by set_solver|].
  unfold apply_entry. simpl. rewrite <- Ek. destruct (decide (k = k')) as [->|].
  - by rewrite decide_True, lookup_insert_eq by set_solver.
  - by rewrite decide_False, lookup_insert_ne by set_solver.
Qed.

Lemma elem_of_keys (M : smap) (ks : list (list Z)) (k : list Z) :
  ks ≡ₚ (map_to_list M).*1 -> k ∈ ks <-> is_Some (M !! k).
Proof.
  intros ->. rewrite list_elem_of_fmap. split.
  - intros ([k' fs] & -> & H%elem_of_map_to_list). by exists fs.
  - intros [fs H]. exists (k, fs). by rewrite elem_of_map_to_list.
Qed.

Lemma replay_entries (M : smap) (ks : list (list Z)) :
  ks ≡ₚ (map_to_list M).*1 -> (forall k fs, M !! k = Some fs -> k = key_at 10 fs) ->
  replay (entries_of M ks) ∅ = M.
Proof.
  intros Hp HM. apply map_eq. intros k. rewrite replay_entries_lookup.
  - destruct (decide (k ∈ ks)) as [_|Hk]; [done|]. rewrite lookup_empty. symmetry.
    apply eq_None_not_Some. by rewrite <- (elem_of_keys M ks k Hp).
  - intros k' [fs Hfs]%(elem_of_keys M ks k' Hp). exists fs. split; [done|by apply HM].
Qed.

(** ** Files after a dump, and after a crash during one *)

Lemma emits_state (ops : list fs_op) (st : Store) :
  st_trace (emits ops st) = st_trace st ++ ops /\ st_fs (emits ops st) = fs_run ops (st_fs st) /\
  st_dict (emits ops st) = st_dict st /\ st_loaded (emits ops st) = st_loaded st /\
  st_gen (emits ops st) = st_gen st.
Proof.
  revert st. induction ops as [|op ops IH]; intros st; [by rewrite app_nil_r|].
  destruct (IH (emit op st)) as (E1 & E2 & E3 & E4 & E5). simpl in *.
  split_and!; [by rewrite E1, <- app_assoc|done..].
Qed.

(** The records are in the file [f], and the other files are as they were. *)
Lemma appends_fs (f : fname) (es : list entry) : forall (s : fs) (c : list Z), s f = Some c ->
  fs_run (append_all f es) s f = Some (c ++ concat (record <$> es)) /\
  forall g, g <> f -> fs_run (append_all f es) s g = s g.
Proof.
  induction es as [|e es IH]; intros s c Hf.
  { split; [by rewrite app_nil_r|done]. }
  change (fs_run (append_all f (e :: es)) s) with (fs_run (append_all f es) (fs_step (Append f (record e)) s)).
  rewrite fmap_cons, concat_cons. destruct (IH (fs_step (Append f (record e)) s) (c ++ record e)) as [E1 E2].
  { simpl. unfold fs_set. by rewrite decide_True, Hf by done. }
  split; [by rewrite E1, app_assoc|]. intros g Hg. rewrite E2 by done. simpl. unfold fs_set.
  by rewrite decide_False.
Qed.

Definition renames (old : bool) : list fs_op :=
  if old then [Rename Main Bak; Rename New Main] else [Rename New Main].

(** The system calls of a dump. *)
Definition dump_ops (old : bool) (es : list entry) : list fs_op :=
  Create New :: append_all New es ++ renames old.

Definition is_file (c : option (list Z)) : bool := if c then true else false.

Lemma do_dump_run (st : Store) (M : smap) :
  store_holds (st_dict st) M ->
  exists ks, ks ≡ₚ (map_to_list M).*1 /\
    do_dump io_ok st = Ok (0, emits (dump_ops (is_file (st_fs st Main)) (entries_of M ks)) (set_file st (Some New))).
Proof.
  intros Hd. pose proof Hd as (mm & Hmm & Hrel). pose proof (dict_keys_ok _ mm Hmm) as P.
  apply returns_iff in P as (l & El & os & ks & Hl & Hos & Hks).
  rewrite (keys_agree mm M Hrel) in Hks. exists ks. split; [done|]. unfold do_dump, open_file. cbn [io_ok io_open].
  change (0 =? -1) with false. cbv iota. set (st1 := emit (Create New) (set_file st (Some New))).
  change (st_dict st1) with (st_dict st). rewrite El. bind_red. cbn [gwlist_len].
  rewrite (lr_len _ _ Hl), (dump_loop_ok l os ks M New Hl Hos) with (i := 0%nat); [|..|done|done].
  - bind_red. rewrite drop_0. f_equal. unfold rename_store.
    destruct (emits_state (append_all New (entries_of M ks)) st1) as (_ & Ef & _). rewrite Ef.
    destruct (appends_fs New (entries_of M ks) (st_fs st1) []) as [_ Eo]; [done|]. rewrite Eo by done.
    change (st_fs st1 Main) with (st_fs st Main). unfold dump_ops.
    destruct (st_fs st Main); cbn [is_file renames io_ok io_rename_old io_rename_new emits fold_left];
      by rewrite fold_left_app.
  - apply Forall_forall. intros k Hk%list_elem_of_In. by apply (elem_of_keys M ks).
  - apply Forall2_length in Hos. list_lia.
Qed.

Lemma dump_fs (s : fs) (es : list entry) :
  let s' := fs_run (dump_ops (is_file (s Main)) es) s in
  s' Main = Some (concat (record <$> es)) /\ s' New = None.
Proof.
  cbv zeta. unfold dump_ops, fs_run. cbn [fold_left]. rewrite fold_left_app.
  destruct (appends_fs New es (fs_step (Create New) s) []) as [E1 E2]; [done|].
  fold (fs_run (append_all New es) (fs_step (Create New) s)).
  set (s1 := fs_run (append_all New es) (fs_step (Create New) s)) in *. pose proof (E2 Main ltac:(done)) as Em.
  change (fs_step (Create New) s Main) with (s Main) in Em.
  destruct (s Main) as [c|] eqn:Ec; simpl; unfold fs_set; rewrite ?Em; simpl; rewrite ?E1; done.
Qed.

(** The files after a crash: the system calls were made up to some point, and a
    write may have been made in part. *)
Inductive crash : list fs_op -> fs -> fs -> Prop :=
| crash_before ops s : crash ops s s
| crash_torn f data k ops s : crash (Append f data :: ops) s (fs_step (Append f (take k data)) s)
| crash_after op ops s s' : crash ops (fs_step op s) s' -> crash (op :: ops) s s'.

(** While the new file is written, the other files stay. *)
Lemma crash_new (es : list entry) (ops : list fs_op) (s s' : fs) :
  crash (append_all New es ++ ops) s s' ->
  (s' Main = s Main) \/ crash ops (fs_run (append_all New es) s) s'.
Proof.
  revert s. induction es as [|e es IH]; intros s H; [by right|].
  unfold append_all in H. rewrite fmap_cons in H. inversion H as [| |op ops' s0 s1 H']; subst.
  - by left.
  - by left.
  - apply IH in H' as [Hm|Hc]; [by left|by right].
Qed.

(** The old records or the new ones are found, whenever a dump is interrupted,
    if the regular file is there when it starts. *)
Lemma crash_dump (s s' : fs) (c : list Z) (es : list entry) :
  s Main = Some c -> crash (dump_ops true es) s s' ->
  find_store s' = Some c \/ find_store s' = Some (concat (record <$> es)).
Proof.
  intros Hm H. inversion H as [| |? ? ? ? H1]; subst; [left; unfold find_store; by rewrite Hm|].
  apply crash_new in H1 as [E|H1].
  { left. unfold find_store. rewrite E. simpl. unfold fs_set. by rewrite decide_False, Hm. }
  destruct (appends_fs New es (fs_step (Create New) s) []) as [E1 E2]; [done|].
  set (s1 := fs_run (append_all New es) (fs_step (Create New) s)) in *. pose proof (E2 Main ltac:(done)) as Em.
  change (fs_step (Create New) s Main) with (s Main) in Em. rewrite Hm in Em. unfold find_store.
  inversion H1 as [| |? ? ? ? H2]; subst; [left; by rewrite Em|right].
  inversion H2 as [| |? ? ? ? H3]; subst.
  - simpl. rewrite Em. unfold fs_set. simpl. by rewrite E1.
  - inversion H3; subst. simpl. rewrite Em. unfold fs_set. simpl. by rewrite E1.
Qed.

(** ** The store and its file agree *)

(** The records of a file stand for the map [M], as far as they can. *)
Definition file_holds (c : option (list Z)) (M : smap) : Prop :=
  exists es, c = Some (concat (record <$> es)) /\ Forall in_file es /\
    received_map (replay es ∅) = received_map M.

Record consistent (st : Store) (M : smap) : Prop := {
  cs_dict : store_holds (st_dict st) M;
  cs_fits : map_Forall (fun _ fs => fits (T_SMS, fs)) M;
  cs_file : st_file st = Some Main;
  cs_disk : file_holds (st_fs st Main) M;
  cs_loaded : lrepr (st_loaded st) [] /\ num_producers (st_loaded st) = 0
}.

Lemma store_holds_in_file (d : Dict Msg) (M : smap) (k : list Z) (fs : list field) :
  store_holds d M -> map_Forall (fun _ fs => fits (T_SMS, fs)) M -> M !! k = Some fs ->
  in_file (T_SMS, fs) /\ k = key_at 10 fs.
Proof.
  intros (mm & _ & Hmm) Hf Hk. pose proof (sms_in_lookup mm M k Hmm) as H. rewrite Hk in H.
  destruct (mm !! k) as [m|]; [|done]. destruct H as [Hm Ek Hl]. split; [|done].
  split; [|by apply (Hf k)]. split; [by exists m|by left].
Qed.

Lemma entries_in_file (d : Dict Msg) (M : smap) (ks : list (list Z)) :
  store_holds d M -> map_Forall (fun _ fs => fits (T_SMS, fs)) M -> ks ≡ₚ (map_to_list M).*1 ->
  Forall in_file (entries_of M ks) /\ replay (entries_of M ks) ∅ = M.
Proof.
  intros Hd Hf Hks. split.
  - apply Forall_fmap, Forall_forall. intros k Hk%list_elem_of_In.
    apply (elem_of_keys M ks k Hks) in Hk as [fs Hfs]. simpl. rewrite Hfs.
    by apply (store_holds_in_file d M k).
  - apply replay_entries; [done|]. intros k fs Hk. by apply (store_holds_in_file d M k fs).
Qed.

Lemma do_dump_ok (st : Store) (M : smap) :
  store_holds (st_dict st) M -> map_Forall (fun _ fs => fits (T_SMS, fs)) M ->
  lrepr (st_loaded st) [] ->
  returns (do_dump io_ok st) (fun '(r, st') => r = 0 /\ st_file st' = Some Main /\
    st_dict st' = st_dict st /\ st_loaded st' = st_loaded st /\ st_gen st' = st_gen st /\
    file_holds (st_fs st' Main) M /\
    exists es, Forall in_file es /\ replay es ∅ = M /\
      st_trace st' = st_trace st ++ dump_ops (is_file (st_fs st Main)) es).
Proof.
  intros Hd Hf Hl. destruct (do_dump_run st M Hd) as (ks & Hks & ->). cbn [returns].
  destruct (emits_state (dump_ops (is_file (st_fs st Main)) (entries_of M ks)) (set_file st (Some New)))
    as (Etrace & Efs & Edict & Eload & Egen). rewrite Efs, Edict, Eload, Egen, Etrace.
  destruct (dump_fs (st_fs st) (entries_of M ks)) as [Em _].
  destruct (entries_in_file _ M ks Hd Hf Hks) as [He Hr]. split_and!; [done| |done..| |].
  - unfold dump_ops. cbn [emits fold_left]. fold (emits (append_all New (entries_of M ks) ++ renames (is_file (st_fs st Main))) (emit (Create New) (set_file st (Some New)))).
    rewrite emits_app.
    destruct (emit_appends New (entries_of M ks) (emit (Create New) (set_file st (Some New)))) as [Ef _]; [done|].
    set (st1 := emits _ (emit _ _)) in *. destruct (is_file _); simpl; rewrite Ef; simpl; done.
  - exists (entries_of M ks). split_and!; [done..|by rewrite Hr].
  - by exists (entries_of M ks).
Qed.

Lemma replay_forall (P : list field -> Prop) (es : list entry) : forall M : smap,
  Forall (fun e => e.1 = T_SMS -> P e.2) es -> map_Forall (fun _ fs => P fs) M ->
  map_Forall (fun _ fs => P fs) (replay es M).
Proof.
  induction es as [|e es IH]; intros M He HM; [done|]. apply Forall_cons_iff in He as [He Hes].
  apply IH; [done|]. unfold apply_entry. destruct (Z.eqb_spec e.1 T_SMS).
  - apply map_Forall_insert_2; [by apply He|done].
  - destruct (e.1 =? T_ACK); [by apply map_Forall_delete|done].
Qed.

Lemma received_fits (fs : list field) : fits (T_SMS, fs) -> fits (T_SMS, received <$> fs).
Proof. unfold fits. by rewrite <- (packed_received (T_SMS, fs)). Qed.

Lemma replay_fits (es : list entry) : Forall in_file es ->
  map_Forall (fun _ fs => fits (T_SMS, fs)) (received_map (replay es ∅)).
Proof.
  intros Hes. assert (map_Forall (fun _ fs => fits (T_SMS, fs)) (replay es ∅)) as H.
  { apply replay_forall; [|apply map_Forall_empty]. eapply Forall_impl; [|exact Hes].
    intros [t fs] [_ Hf] Ht. simpl in *. by subst t. }
  unfold received_map. intros k fs Hk. rewrite lookup_fmap in Hk.
  destruct (replay es ∅ !! k) as [fs'|] eqn:E; [|done]. injection Hk as <-. apply received_fits. by apply (H k).
Qed.

(** A store that has been initialised and not loaded. *)
Record fresh (st : Store) : Prop := {
  fr_dict : store_holds (st_dict st) ∅;
  fr_loaded : lrepr (st_loaded st) [] /\ num_producers (st_loaded st) = 1
}.

Lemma init_fresh (s : fs) (n freq : Z) : n <= FILENAME_MAX - 5 ->
  returns (store_file_init s (Some n) freq) (fun r => exists st, r = Some st /\ fresh st /\ st_fs st = s).
Proof.
  intros Hn. unfold store_file_init. rewrite (proj2 (Z.ltb_ge _ n)) by done. cbn [returns].
  eexists. split; [done|]. split; [|done]. constructor; simpl.
  - exists ∅. split; [|apply map_Forall2_empty]. eexists. by apply dict_create_ok.
  - split; [|done]. apply lrepr_set_counts, gwlist_create_ok.
Qed.

(** [store_file_load] returns with a store that holds [M] and agrees with its
    file, and it has handed over each message of [M] once. *)
Definition recovered (M : smap) (r : option (Z * list Msg * option Store)) : Prop :=
  exists got st', r = Some (0, got, Some st') /\ consistent st' M /\
    exists ks, ks ≡ₚ (map_to_list M).*1 /\ Forall2 stands got (entries_of M ks).

(** The system calls that [store_file_load] has made. *)
Definition load_traced (st : Store) (r : option (Z * list Msg * option Store)) : Prop :=
  exists p st' es, r = Some (p, Some st') /\ st_trace st' = st_trace st ++ dump_ops (is_file (st_fs st Main)) es.

Lemma load_ok (now : Z) (st : Store) (es : list entry) (fuel : nat) :
  fresh st -> find_store (st_fs st) = Some (concat (record <$> es)) -> Forall in_file es ->
  (length es <= fuel)%nat -> returns (store_file_load gen io_ok now (Some st) fuel) (fun r =>
    recovered (received_map (replay es ∅)) r /\ load_traced st r).
Proof.
  intros [Hd [Hl Hp]] Hfile Hes Hfuel. unfold store_file_load. cbn [set_file st_fs]. rewrite Hfile.
  apply returns_bind, (returns_mono _ _ _ (octstr_read_file_ok _ (octets_records es Hes))).
  intros r (os & -> & Hos). cbn [octstr_len]. rewrite (repr_seems_valid _ _ Hos), (repr_len _ _ Hos). bind_red.
  destruct (load_loop_ok now es os [] [] ∅ (set_file st None) fuel Hes) as (st1 & Hd1 & Hr1 & E);
    [by rewrite app_nil_r|done..|].
  rewrite !app_nil_r in E. cbn [app] in E. change (zlen []) with 0 in E. rewrite E. clear E.
  assert (forall fuel', load_loop gen now os (zlen (concat (record <$> es))) (zlen (concat (record <$> es))) st1 fuel'
                   = Ok (Some st1)) as ->.
  { intros fuel'. destruct fuel'; cbn [load_loop]; by rewrite Z.ltb_irrefl. }
  bind_red. replace (∅ : smap) with (received_map ∅) in Hd1 by apply fmap_empty. rewrite replay_received in Hd1.
  set (M := received_map (replay es ∅)) in *.
  pose proof Hd1 as (mm & Hmm & Hrel). apply returns_bind, (returns_mono _ _ _ (dict_keys_ok _ mm Hmm)).
  intros keys (ko & ks & Hk & Hko & Hks).
  assert (ks ≡ₚ (map_to_list M).*1) as HksM.
  { rewrite Hks. by apply (keys_agree mm M). }
  apply returns_bind. eapply returns_mono; [apply (receive_loop_ok now M _ keys ko ks); [done..| | |done]|].
  { apply Forall_forall. intros k Hin%list_elem_of_In. by apply (elem_of_keys M ks). }
  { apply Forall2_length in Hko. cbn [gwlist_len]. rewrite (lr_len _ _ Hk). list_lia. }
  intros [st2 got] (Hd2 & Hr2 & ms & -> & Hms). pose proof (same_rest_trans _ _ _ Hr1 Hr2) as (_ & Hfs & Htr & Hload).
  change (st_loaded (set_file st None)) with (st_loaded st) in Hload.
  apply returns_bind. eapply returns_mono; [apply (do_dump_ok st2 M Hd2 (replay_fits es Hes)); by rewrite Hload|].
  intros [r st3] (-> & Hfile3 & Hd3 & Hl3 & _ & Hdisk & es' & _ & _ & Htr3). unfold gwlist_remove_producer.
  rewrite Hl3, Hload, Hp. cbn.
  set (st' := set_loaded st3 (set_producers (st_loaded st) 0)). split; [exists ms, st'; split_and!|].
  - done.
  - constructor; simpl; [by rewrite Hd3|by apply replay_fits|done|done|]. split; [|done]. by apply lrepr_set_counts.
  - exists ks. done.
  - exists (0, ms), st', es'. split; [done|]. simpl. by rewrite Htr3, Htr, Hfs.
Qed.

(** ** Saving *)

Hypothesis gen_not_null : forall n, gen n <> uuid_clear.

(** The fields of an SMS once it has an identifier and a time. *)
Definition prepared (now : Z) (g : nat) (fs : list field) : list field :=
  let fs := if bool_decide (fs !! 10%nat = Some (FUuid uuid_clear)) then <[10%nat := FUuid (gen g)]> fs else fs in
  if bool_decide (fs !! 4%nat = Some (FInt MSG_PARAM_UNDEFINED)) then <[4%nat := FInt now]> fs else fs.

(** A clock that is not the undefined time, and a message whose time is not
    truncated to it. *)
Definition times_ok (now : Z) (fs : list field) : Prop :=
  int32 now <> -1 /\
  forall t, fs !! 4%nat = Some (FInt t) -> t = MSG_PARAM_UNDEFINED \/ int32 t <> -1.

Lemma stands_with (m m' : Msg) (fs : list field) (i : nat) (v : value) (f : field) :
  stands m (T_SMS, fs) -> m_type m' = m_type m ->
  all_values m' = <[2%nat := <[i := v]> (sms_values (m_sms m))]> (all_values m) -> holds v f ->
  stands m' (T_SMS, <[i := f]> fs).
Proof.
  intros Hm Ht Hall Hv. pose proof (stands_sms m fs Hm) as Hh. destruct Hm as [Ht0 Hs _].
  constructor; [by rewrite Ht| |].
  - unfold msg_sound. rewrite Hall. apply Forall_insert; [done|]. apply Forall_insert; [|by exists f].
    by apply (holds_sound _ fs).
  - exists (<[i := v]> (sms_values (m_sms m))). split; [|by apply Forall2_insert].
    apply msg_values_all. rewrite Ht, Ht0, Hall. split; done.
Qed.

(** The message that [store_to_dict] puts in the dictionary and leaves with its caller. *)
Definition prepare (now : Z) (g : nat) (m : Msg) : Msg :=
  let m := if bool_decide (sms_id (m_sms m) = uuid_clear) then with_id m (gen g) else m in
  if sms_time (m_sms m) =? MSG_PARAM_UNDEFINED then with_time m now else m.

Lemma prepare_ok (now : Z) (g : nat) (m : Msg) (fs : list field) :
  stands m (T_SMS, fs) -> times_ok now fs ->
  stands (prepare now g m) (T_SMS, prepared now g fs) /\ logged (prepared now g fs).
Proof.
  intros Hm [Hnow Ht]. unfold prepare, prepared. cbv zeta.
  set (m1 := if bool_decide (sms_id (m_sms m) = uuid_clear) then with_id m (gen g) else m).
  set (fs1 := if bool_decide (fs !! 10%nat = Some (FUuid uuid_clear)) then <[10%nat := FUuid (gen g)]> fs else fs).
  assert (stands m1 (T_SMS, fs1) /\ sms_id (m_sms m1) <> uuid_clear /\ fs1 !! 4%nat = fs !! 4%nat) as (Hm1 & Hid1 & E4).
  { pose proof (sms_id_field m fs Hm) as (_ & Hid & _). unfold m1, fs1. rewrite Hid.
    destruct (decide (sms_id (m_sms m) = uuid_clear)) as [E|E].
    - rewrite E, !bool_decide_true by done. split_and!; [|apply gen_not_null|by rewrite list_lookup_insert_ne].
      apply (stands_with m _ fs 10 (VUuid (gen g)) (FUuid (gen g)) Hm); [done..|by constructor].
    - rewrite !bool_decide_false by congruence. done. }
  pose proof (sms_id_field m1 fs1 Hm1) as (_ & Hid & Htime). rewrite Htime.
  destruct (Z.eqb_spec (sms_time (m_sms m1)) MSG_PARAM_UNDEFINED) as [E|E].
  - rewrite E, bool_decide_true by done. split.
    + apply (stands_with m1 _ fs1 4 (VInt now) (FInt now) Hm1); [done..|constructor].
    + exists (sms_id (m_sms m1)), now. rewrite list_lookup_insert_ne, list_lookup_insert_eq; [done| |done].
      by apply lookup_lt_Some in Htime.
  - rewrite bool_decide_false by congruence. split; [done|].
    exists (sms_id (m_sms m1)), (sms_time (m_sms m1)). split_and!; [done..|].
    rewrite E4 in Htime. by destruct (Ht _ Htime).
Qed.

Lemma store_to_dict_prepares (now : Z) (m : Msg) (fs : list field) (st : Store) :
  stands m (T_SMS, fs) -> times_ok now fs ->
  store_to_dict gen now m st = store_to_dict gen now (prepare now (st_gen st) m) st.
Proof.
  intros Hm Ht. pose proof (sms_id_field m fs Hm) as (Hu & _ & _).
  destruct (prepare_ok now (st_gen st) m fs Hm Ht) as [Hp Hl].
  pose proof (sms_id_field _ _ Hp) as (Hu' & Hid' & Ht'). destruct Hl as (u & t & Hid & Hn & Htime & Hu32).
  rewrite Hid in Hid'. rewrite Htime in Ht'. simplify_eq.
  unfold store_to_dict. rewrite (sd_type _ _ Hm), (sd_type _ _ Hp). simpl.
  rewrite (uuid_is_null_ok _ Hu), (uuid_is_null_ok _ Hu'), (bool_decide_false _ Hn). bind_red. simpl.
  rewrite (proj2 (Z.eqb_neq (sms_time (m_sms (prepare now (st_gen st) m))) MSG_PARAM_UNDEFINED))
    by (intros E; by rewrite E in Hu32).
  unfold prepare. by destruct (bool_decide _).
Qed.

(** Appending the record of an entry that the dictionary has taken. *)
Lemma consistent_log (st st' : Store) (M : smap) (e : entry) :
  consistent st M -> in_file e -> store_holds (st_dict st') (apply_entry M e) ->
  st_file st' = st_file st -> st_fs st' = st_fs st ->
  lrepr (st_loaded st') [] -> num_producers (st_loaded st') = 0 ->
  consistent (emit (Append Main (record e)) st') (apply_entry M e).
Proof.
  intros [_ Hfits Hf (es & Hm & Hes & Hr) _] [[Hre Hc] He] Hd Ef Efs Hl Hp.
  constructor; simpl; [done| |by rewrite Ef, Hf| |done].
  - unfold apply_entry. destruct (Z.eqb_spec e.1 T_SMS) as [E|_].
    + apply map_Forall_insert_2; [|done]. destruct e as [t fs]. simpl in *. by subst t.
    + destruct (e.1 =? T_ACK); [by apply map_Forall_delete|done].
  - unfold fs_set. simpl. rewrite Efs, Hm. exists (es ++ [e]). split_and!.
    + rewrite fmap_app, concat_app. simpl. by rewrite app_nil_r.
    + by apply Forall_app_2; [|constructor].
    + unfold replay in *. rewrite fold_left_app. simpl. by rewrite <- !apply_received, Hr.
Qed.

Lemma save_entry_ok (now : Z) (m : Msg) (e : entry) (st : Store) (M : smap) :
  consistent st M -> stands m e -> in_file e ->
  returns (store_file_save gen now m (Some st)) (fun r => exists st',
    r = Some (0, m, Some st') /\ consistent st' (apply_entry M e) /\ st_gen st' = (st_gen st + 3)%nat).
Proof.
  intros Hc Hm He. unfold store_file_save.
  destruct (cs_loaded _ _ Hc) as [Hl Hp].
  destruct (consume_now (st_loaded st) [] Hl Hp) as (l & El & Hl' & Hp'). rewrite El. bind_red. cbv iota.
  apply returns_bind. eapply returns_mono;
    [apply (store_to_dict_ok now m e (set_loaded st l) M Hm (proj2 (proj1 He))); apply Hc|].
  intros [[r m'] st1] (-> & -> & Hd1 & (Ef & Efs & _ & Eload) & Eg). change (0 =? -1) with false. cbv iota.
  cbn [set_loaded st_file st_fs st_loaded] in *.
  rewrite (write_msg_ok st1 m e Main Hm) by (rewrite Ef; apply Hc). bind_red. cbn [returns].
  eexists. split_and!; [done| |done]. apply (consistent_log st st1); try done; by rewrite Eload.
Qed.

(** The fields of the acknowledgement that [store_file_save_ack] makes. *)
Definition ack_fields (status : Z) (m : Msg) : list field :=
  [FInt status; FInt (sms_time (m_sms m)); FUuid (sms_id (m_sms m))].

(** ** Sequences of operations *)

Inductive store_op :=
| OpSave (now : Z) (m : Msg) (fs : list field)
| OpAck (now : Z) (m : Msg) (fs : list field) (status : Z)
| OpDump.

(** Running an operation; [None] if it blocks or reports an error. *)
Definition run_op (op : store_op) (st : Store) : res (option Store) :=
  match op with
  | OpSave now m _ =>
      r ← store_file_save gen now m (Some st);
      Ok (match r with Some (0, _, st) => st | _ => None end)
  | OpAck now m _ status =>
      r ← store_file_save_ack gen now (Some m) status (Some st);
      Ok (match r with Some (0, st) => st | _ => None end)
  | OpDump =>
      '(r, st) ← store_file_dump io_ok st;
      Ok (if r =? 0 then Some st else None)
  end.

Fixpoint run_ops (ops : list store_op) (st : Store) : res (option Store) :=
  match ops with
  | [] => Ok (Some st)
  | op :: ops =>
      r ← run_op op st;
      match r with
      | Some st => run_ops ops st
      | None => Ok None
      end
  end.

(** What the operations do to the map; [g] identifiers have been drawn. *)
Definition spec_op (op : store_op) (g : nat) (M : smap) : nat * smap :=
  match op with
  | OpSave now m fs => ((g + 3)%nat, <[key_at 10 (prepared now g fs) := prepared now g fs]> M)
  | OpAck _ m fs _ => ((g + 2 + 3)%nat, delete (key_at 10 fs) M)
  | OpDump => (g, M)
  end.

Fixpoint spec_ops (ops : list store_op) (g : nat) (M : smap) : smap :=
  match ops with
  | [] => M
  | op :: ops => spec_ops ops (spec_op op g M).1 (spec_op op g M).2
  end.

Definition op_ok (op : store_op) : Prop :=
  match op with
  | OpSave now m fs => stands m (T_SMS, fs) /\ times_ok now fs /\ forall g, fits (T_SMS, prepared now g fs)
  | OpAck now m fs status => stands m (T_SMS, fs) /\ fits (T_ACK, ack_fields status m)
  | OpDump => True
  end.

Lemma save_ok (now : Z) (m : Msg) (fs : list field) (st : Store) (M : smap) :
  consistent st M -> stands m (T_SMS, fs) -> times_ok now fs -> fits (T_SMS, prepared now (st_gen st) fs) ->
  returns (store_file_save gen now m (Some st)) (fun r => exists st',
    r = Some (0, prepare now (st_gen st) m, Some st') /\
    consistent st' (spec_op (OpSave now m fs) (st_gen st) M).2 /\ st_gen st' = (st_gen st + 3)%nat).
Proof.
  intros Hc Hm Ht Hf. destruct (prepare_ok now (st_gen st) m fs Hm Ht) as [Hp Hl].
  assert (store_file_save gen now m (Some st) =
          store_file_save gen now (prepare now (st_gen st) m) (Some st)) as ->.
  { unfold store_file_save. destruct (gwlist_consume_retry _) as [[|it l]| |]; bind_red; try done.
    by rewrite (store_to_dict_prepares now m fs (set_loaded st l) Hm Ht). }
  apply (save_entry_ok now _ (T_SMS, prepared now (st_gen st) fs) st M Hc Hp).
  split; [|done]. split; [by exists (prepare now (st_gen st) m)|by left].
Qed.

Lemma ack_ok (now : Z) (m : Msg) (fs : list field) (status : Z) (st : Store) (M : smap) :
  consistent st M -> stands m (T_SMS, fs) -> fits (T_ACK, ack_fields status m) ->
  returns (store_file_save_ack gen now (Some m) status (Some st)) (fun r => exists st',
    r = Some (0, Some st') /\ consistent st' (delete (key_at 10 fs) M) /\
    st_gen st' = (st_gen st + 2 + 3)%nat).
Proof.
  intros Hc Hm Hf. pose proof (sms_id_field m fs Hm) as (Hu & Hid & _).
  unfold store_file_save_ack. rewrite (sd_type _ _ Hm). cbn [fst]. rewrite Z.eqb_refl. cbn [negb].
  rewrite uuid_copy_ok by done. bind_red. cbv zeta.
  set (mack := mkMsg _ _ _ _ _ _).
  assert (stands mack (T_ACK, ack_fields status m)) as Hs.
  { pose proof (msg_create_sound (gen (st_gen st)) (gen (S (st_gen st))) T_ACK ltac:(done) ltac:(done)) as H.
    unfold msg_sound, all_values in H. rewrite !Forall_cons_iff in H. destruct H as (H1 & H2 & H3 & _ & H5 & _).
    assert (Forall2 holds (ack_values (m_ack mack)) (ack_fields status m)) as Ha
      by (unfold mack, ack_fields, ack_values; cbn; repeat (constructor; [by constructor|]); constructor).
    constructor; [done| |by exists (ack_values (m_ack mack))].
    unfold msg_sound, all_values. apply holds_sound in Ha.
    repeat (apply Forall_cons_2; [done|]). apply Forall_nil_2. }
  apply returns_bind. eapply returns_mono; [apply (save_entry_ok now mack (T_ACK, ack_fields status m) (set_gen st (st_gen st + 2)) M)|].
  - destruct Hc. by constructor.
  - exact Hs.
  - split; [|done]. split; [by exists mack|by right].
  - intros r (st' & -> & Hc' & Eg). cbn. exists st'. split_and!; [done| |done].
    unfold key_at. by rewrite Hid.
Qed.

Lemma dump_ok (st : Store) (M : smap) :
  consistent st M ->
  returns (store_file_dump io_ok st) (fun '(r, st') => r = 0 /\ consistent st' M /\ st_gen st' = st_gen st).
Proof.
  intros [Hd Hfits _ _ [Hl Hp]]. unfold store_file_dump.
  eapply returns_mono; [apply (do_dump_ok (set_file st None) M); done|].
  intros [r st'] (-> & Hf' & Hd' & Hl' & Hg' & Hdisk & _). simpl in *. split_and!; [done| |done].
  constructor; rewrite ?Hd', ?Hl'; done.
Qed.

Lemma run_ops_ok (ops : list store_op) : forall (st : Store) (M : smap),
  consistent st M -> Forall op_ok ops ->
  returns (run_ops ops st) (fun r => exists st', r = Some st' /\ consistent st' (spec_ops ops (st_gen st) M)).
Proof.
  induction ops as [|op ops IH]; intros st M Hc Hops; cbn [run_ops spec_ops].
  { by exists st. }
  apply Forall_cons_iff in Hops as [Hop Hops].
  assert (returns (run_op op st) (fun r => exists st', r = Some st' /\
    consistent st' (spec_op op (st_gen st) M).2 /\ st_gen st' = (spec_op op (st_gen st) M).1)) as P.
  { destruct op as [now m fs|now m fs status|]; cbn [run_op op_ok] in *.
    - destruct Hop as (Hm & Ht & Hf). apply returns_bind, (returns_mono _ _ _ (save_ok now m fs st M Hc Hm Ht (Hf _))).
      intros r (st' & -> & ? & ?). by exists st'.
    - destruct Hop as (Hm & Hf). apply returns_bind, (returns_mono _ _ _ (ack_ok now m fs status st M Hc Hm Hf)).
      intros r (st' & -> & ? & ?). by exists st'.
    - apply returns_bind, (returns_mono _ _ _ (dump_ok st M Hc)). intros [r st'] (-> & ? & ?). by exists st'. }
  apply returns_bind, (returns_mono _ _ _ P). intros r (st' & -> & Hc' & Eg). rewrite <- Eg. by apply IH.
Qed.

(** ** Properties *)

(** A restart: the store is initialised on the files there are, and loaded. *)
Definition restart (s : fs) (now : Z) (fuel : nat) : res (option (Z * list Msg * option Store)) :=
  st ← store_file_init s (Some 0) 10;
  store_file_load gen io_ok now st fuel.

Lemma restart_ok (s : fs) (now : Z) (es : list entry) (fuel : nat) :
  find_store s = Some (concat (record <$> es)) -> Forall in_file es -> (length es <= fuel)%nat ->
  returns (restart s now fuel) (recovered (received_map (replay es ∅))).
Proof.
  intros Hs Hes Hf. unfold restart. apply returns_bind, (returns_mono _ _ _ (init_fresh s 0 10 ltac:(done))).
  intros r (st & -> & Hst & Efs). eapply returns_mono; [by apply (load_ok now st es fuel Hst); [rewrite Efs|..]|].
  by intros r [? _].
Qed.

(** A restart recovers [M], however the loop over the records is bounded once the
    bound is large enough. *)
Definition restart_recovers (s : fs) (M : smap) : Prop :=
  exists n, forall now fuel, (n <= fuel)%nat -> returns (restart s now fuel) (recovered M).

(** C35. Loading a store file recovers exactly the messages that were not
    acknowledged: after the records of any sequence of messages and
    acknowledgements, [store_file_load] terminates with a dictionary that holds
    each message saved last under its identifier and not acknowledged later, hands
    each of them over once, and leaves a regular store file that stands for the
    same messages.  It holds for every codec that satisfies [StoreCodecLaws]. *)
Theorem store_load_recovers (s : fs) (now : Z) (es : list entry) (fuel : nat) :
  find_store s = Some (concat (record <$> es)) -> Forall in_file es -> (length es <= fuel)%nat ->
  returns (restart s now fuel) (recovered (received_map (replay es ∅))).
Proof. apply restart_ok. Qed.

(** C1. Nothing is lost between a save and a restart: after any sequence of
    [store_file_save], [store_file_save_ack] and [store_file_dump] on a loaded
    store, all of which succeed, the store holds the messages saved and not
    acknowledged, and a process that starts on the files left at that point
    recovers the same messages, integers truncated to 32 bits. *)
Theorem store_survives_restart (st : Store) (M : smap) (ops : list store_op) :
  consistent st M -> Forall op_ok ops ->
  returns (run_ops ops st) (fun r => exists st', r = Some st' /\
    consistent st' (spec_ops ops (st_gen st) M) /\
    restart_recovers (st_fs st') (received_map (spec_ops ops (st_gen st) M))).
Proof.
  intros Hc Hops. apply (returns_mono _ _ _ (run_ops_ok ops st M Hc Hops)). intros r (st' & -> & Hc').
  exists st'. split_and!; [done..|]. destruct (cs_disk _ _ Hc') as (es & Em & Hes & <-).
  exists (length es). intros now fuel Hf. apply restart_ok; [|done..]. unfold find_store. by rewrite Em.
Qed.

(** C10. A dump can be interrupted at any point: whichever of its system calls
    were made when the process dies, and however much of a record was written, a
    restart recovers all the messages of the store. *)
Theorem store_dump_crash_safe (st : Store) (M : smap) :
  consistent st M ->
  returns (store_file_dump io_ok st) (fun '(r, st') => r = 0 /\
    exists ops, st_trace st' = st_trace st ++ ops /\ st_fs st' = fs_run ops (st_fs st) /\
      forall s, crash ops (st_fs st) s -> restart_recovers s (received_map M)).
Proof.
  intros [Hd Hfits _ (es0 & Em & Hes0 & Hr0) _]. unfold store_file_dump.
  destruct (do_dump_run (set_file st None) M Hd) as (ks & Hks & ->). cbn [returns].
  change (st_fs (set_file st None) Main) with (st_fs st Main). rewrite Em. cbn [is_file].
  destruct (emits_state (dump_ops true (entries_of M ks)) (set_file (set_file st None) (Some New))) as (Et & Ef & _).
  split; [done|]. exists (dump_ops true (entries_of M ks)). split_and!; [done..|]. intros s Hs.
  destruct (entries_in_file _ M ks Hd Hfits Hks) as [He Hr].
  destruct (crash_dump (st_fs st) s _ _ Em Hs) as [E|E].
  - exists (length es0). intros now fuel Hf. rewrite <- Hr0. by apply restart_ok.
  - exists (length (entries_of M ks)). intros now fuel Hf. rewrite <- Hr at 1. by apply restart_ok.
Qed.

(** The loop does not move past fewer than four octets. *)
Lemma load_loop_stuck (now : Z) (os : Octstr) (s : list Z) (fuel : nat) : forall (pos : Z) (st : Store),
  repr os s -> 0 <= pos < zlen s -> zlen s < pos + 4 ->
  load_loop gen now os pos (zlen s) st fuel = Ok None.
Proof.
  induction fuel as [|fuel IH]; intros pos st Hos Hp H4; cbn [load_loop];
    rewrite (proj2 (Z.ltb_lt pos _)) by lia; [done|].
  assert (read_msg gen (st_gen st) os pos = Ok (None, pos)) as ->; [|bind_red; cbv iota beta; by apply IH].
  unfold read_msg. rewrite gw_assert_true by lia. bind_red. cbn [octstr_len].
  rewrite (repr_seems_valid _ _ Hos), (repr_len _ _ Hos). bind_red.
  by rewrite (proj2 (Z.ltb_lt _ _)) by lia.
Qed.

(** A record that was cut within its length field makes the next start hang: on
    a store file that ends in one, two or three octets after complete records,
    the loop of [store_file_load] runs on for every number of rounds, because
    [read_msg] refuses the rest without moving past it. *)
Theorem store_load_hangs_on_torn_length (s : fs) (now : Z) (es : list entry) (tail : list Z) (fuel : nat) :
  find_store s = Some (concat (record <$> es) ++ tail) -> Forall in_file es -> octets tail ->
  1 <= zlen tail <= 3 -> (length es <= fuel)%nat -> restart s now fuel = Ok None.
Proof.
  intros Hs Hes Ht Hl Hf. unfold restart. pose proof (init_fresh s 0 10 ltac:(done)) as P.
  apply returns_iff in P as (r & -> & st & -> & [Hd _] & <-). bind_red.
  unfold store_file_load. cbn [set_file st_fs]. rewrite Hs.
  pose proof (octstr_read_file_ok _ (octets_app _ _ (octets_records es Hes) Ht)) as P.
  apply returns_iff in P as (r & -> & os & -> & Hos). bind_red. cbn [octstr_len].
  rewrite (repr_seems_valid _ _ Hos), (repr_len _ _ Hos). bind_red.
  destruct (load_loop_ok now es os [] tail ∅ (set_file st None) fuel Hes) as (st1 & _ & _ & E); [done..|].
  cbn [app] in E. change (zlen []) with 0 in E. rewrite E, load_loop_stuck; [done..| |];
    rewrite !zlen_app; pose proof (zlen_nonneg (concat (record <$> es))); lia.
Qed.

(** A start that has to use the file of an interrupted dump is not safe: when
    the regular file is missing, the new file that the messages were read from is
    truncated by the first system call of the dump that ends the load, and a
    crash right after it leaves no message to recover. *)
Theorem store_load_from_new_unsafe (st : Store) (now : Z) (es : list entry) (fuel : nat) :
  fresh st -> st_fs st Main = None -> st_fs st New = Some (concat (record <$> es)) ->
  Forall in_file es -> (length es <= fuel)%nat ->
  returns (store_file_load gen io_ok now (Some st) fuel) (fun r =>
    recovered (received_map (replay es ∅)) r /\
    exists p st' ops s, r = Some (p, Some st') /\ st_trace st' = st_trace st ++ ops /\
      crash ops (st_fs st) s /\ restart_recovers s ∅).
Proof.
  intros Hst Hm Hn Hes Hf. eapply returns_mono.
  { apply (load_ok now st es fuel Hst); [|done..]. unfold find_store. by rewrite Hm, Hn. }
  intros r [Hr (p & st' & es' & -> & Et)]. split; [done|]. rewrite Hm in Et. cbn [is_file] in Et.
  exists p, st', (dump_ops false es'), (fs_step (Create New) (st_fs st)). split_and!; [done..| |].
  - constructor. constructor.
  - exists 0%nat. intros now' fuel' _. rewrite <- (fmap_empty (fun fs : list field => received <$> fs)).
    apply (restart_ok _ now' [] fuel'); [|apply Forall_nil_2|simpl; lia]. unfold find_store. simpl.
    unfold fs_set. simpl. by rewrite Hm.
Qed.
End store_proofs.

(** ** Examples *)

Definition sample_gen (n : nat) : list Z := sample_uuid.

Lemma sample_gen_ok : (forall n, is_uuid (sample_gen n)) /\ (forall n, sample_gen n <> uuid_clear).
Proof. split; intros n; [apply sample_uuid_ok|done]. Qed.

Definition field_of (v : value) : field :=
  match v with
  | VInt i => FInt i
  | VStr o => FStr (bytes <$> o)
  | VUuid u => FUuid u
  | VPtr p => FPtr p
  end.

Definition sample_stored (text : list Z) : Msg :=
  let m := msg_create sample_uuid sample_uuid T_SMS in
  mkMsg T_SMS (m_heartbeat m) (m_admin m)
    (mkSms None (Some (mk_os [49; 50])) None (Some (mk_os text)) 1700000000 None None None None None
       sample_uuid 1 (-1) (-1) 0 (-1) (-1) (-1) 1 None 0 0 0 None None None 0 0 0 0 0 None)
    (m_ack m) (m_wdp_datagram m).

Definition sample_entry (text : list Z) : entry :=
  (T_SMS, field_of <$> sms_values (m_sms (sample_stored text))).

Lemma sample_stands (text : list Z) : octets text -> stands (sample_stored text) (sample_entry text).
Proof.
  intros Ht. assert (forall l, octets l -> holds (VStr (Some (mk_os l))) (field_of (VStr (Some (mk_os l))))) as Hs.
  { intros l Hl. destruct (mk_os_ok l Hl) as [H _]. simpl. constructor. by rewrite (repr_bytes _ _ H). }
  assert (Forall2 holds (sms_values (m_sms (sample_stored text))) (sample_entry text).2) as Hh.
  { pose proof sample_uuid_ok. unfold sample_entry, sample_stored, sms_values. cbn [snd fmap list_fmap].
    repeat (constructor; [first [apply Hs; first [done|octets_tac]|by constructor]|]). constructor. }
  pose proof (msg_create_sound sample_uuid sample_uuid T_SMS sample_uuid_ok sample_uuid_ok) as H.
  unfold msg_sound, all_values in H. rewrite !Forall_cons_iff in H. destruct H as (H1 & H2 & _ & H4 & H5 & _).
  constructor; [done| |by exists (sms_values (m_sms (sample_stored text)))].
  unfold msg_sound, all_values. apply holds_sound in Hh.
  repeat (apply Forall_cons_2; [done|]). apply Forall_nil_2.
Qed.

Lemma sample_in_file (text : list Z) :
  octets text -> zlen (packed (sample_entry text)) < 2 ^ 31 -> in_file (sample_entry text).
Proof.
  intros Ht Hf. split; [|done]. split; [exists (sample_stored text); by apply sample_stands|].
  left. split; [done|]. exists sample_uuid, 1700000000. done.
Qed.

Definition sample_ack : entry := (T_ACK, [FInt 0; FInt 1700000000; FUuid sample_uuid]).

Definition sample_ack_msg : Msg :=
  let m := msg_create sample_uuid sample_uuid T_ACK in
  mkMsg T_ACK (m_heartbeat m) (m_admin m) (m_sms m) (mkAck 0 1700000000 sample_uuid) (m_wdp_datagram m).

Lemma sample_ack_in_file : in_file sample_ack.
Proof.
  split; [|by vm_compute]. split; [|by right]. exists sample_ack_msg. pose proof sample_uuid_ok as Hu.
  assert (Forall2 holds (ack_values (m_ack sample_ack_msg)) sample_ack.2) as Hh
    by (repeat (constructor; [by constructor|]); constructor).
  constructor; [done| |by exists (ack_values (m_ack sample_ack_msg))].
  pose proof (msg_create_sound sample_uuid sample_uuid T_ACK Hu Hu) as H.
  unfold msg_sound, all_values in *. rewrite !Forall_cons_iff in H. destruct H as (H1 & H2 & H3 & _ & H5 & _).
  apply holds_sound in Hh. repeat (apply Forall_cons_2; [done|]). apply Forall_nil_2.
Qed.

(** Two versions of a message with an acknowledgement between them. *)
Definition sample_log : list entry := [sample_entry [104; 105]; sample_ack; sample_entry [111; 107]].

Lemma sample_log_in_file : Forall in_file sample_log.
Proof.
  apply Forall_cons_2; [apply sample_in_file; [octets_tac|by vm_compute]|].
  apply Forall_cons_2; [apply sample_ack_in_file|].
  apply Forall_cons_2; [apply sample_in_file; [octets_tac|by vm_compute]|]. apply Forall_nil_2.
Qed.

Definition sample_files (f : fname) (c : list Z) : fs := fs_set (fun _ => None) f (Some c).

Lemma store_load_recovers_witness :
  returns (restart sample_gen (sample_files Main (concat (record <$> sample_log))) 1800000000 3)
    (recovered (received_map (replay sample_log ∅))).
Proof.
  apply (store_load_recovers sample_gen (proj1 sample_gen_ok) (sample_files Main (concat (record <$> sample_log)))
    1800000000 sample_log 3); [reflexivity|apply sample_log_in_file|simpl; lia].
Defined.

(** A loaded store without messages. *)
Definition sample_store : Store :=
  mkStore (Some Main) (sample_files Main []) [] (dict_create 1024 true) gwlist_create 0 10 0.

Lemma sample_store_consistent : consistent sample_store ∅.
Proof.
  constructor.
  - exists ∅. split; [|apply map_Forall2_empty]. eexists. by apply dict_create_ok.
  - apply map_Forall_empty.
  - done.
  - exists []. split_and!; [done|apply Forall_nil_2|done].
  - split; [apply gwlist_create_ok|done].
Qed.

Definition sample_ops : list store_op :=
  [OpSave 1800000000 (sample_stored [104; 105]) (sample_entry [104; 105]).2;
   OpAck 1800000001 (sample_stored [104; 105]) (sample_entry [104; 105]).2 0; OpDump;
   OpSave 1800000002 (sample_stored [111; 107]) (sample_entry [111; 107]).2].

Lemma sample_save_ok (now : Z) (text : list Z) :
  octets text -> int32 now <> -1 -> zlen (packed (sample_entry text)) < 2 ^ 31 ->
  op_ok sample_gen (OpSave now (sample_stored text) (sample_entry text).2).
Proof.
  intros Ht Hn Hf. split; [by apply sample_stands|]. split; [split; [done|]|by intros g].
  intros t [= <-]. by right.
Qed.

Lemma sample_ops_ok : Forall (op_ok sample_gen) sample_ops.
Proof.
  apply Forall_cons_2; [apply sample_save_ok; [octets_tac|done|by vm_compute]|].
  apply Forall_cons_2; [split; [apply sample_stands; octets_tac|by vm_compute]|].
  apply Forall_cons_2; [done|].
  apply Forall_cons_2; [apply sample_save_ok; [octets_tac|done|by vm_compute]|]. apply Forall_nil_2.
Qed.

Lemma store_survives_restart_witness :
  returns (run_ops sample_gen sample_ops sample_store) (fun r => exists st', r = Some st' /\
    consistent st' (spec_ops sample_gen sample_ops 0 ∅) /\
    restart_recovers sample_gen (st_fs st') (received_map (spec_ops sample_gen sample_ops 0 ∅))).
Proof.
  apply (store_survives_restart sample_gen (proj1 sample_gen_ok) (proj2 sample_gen_ok) sample_store ∅ sample_ops).
  - apply sample_store_consistent.
  - apply sample_ops_ok.
Defined.

Lemma store_dump_crash_safe_witness :
  returns (store_file_dump io_ok sample_store) (fun '(r, st') => r = 0 /\
    exists ops, st_trace st' = st_trace sample_store ++ ops /\ st_fs st' = fs_run ops (st_fs sample_store) /\
      forall s, crash ops (st_fs sample_store) s -> restart_recovers sample_gen s (received_map ∅)).
Proof.
  apply (store_dump_crash_safe sample_gen (proj1 sample_gen_ok) sample_store ∅). apply sample_store_consistent.
Defined.

Lemma store_load_hangs_on_torn_length_witness :
  restart sample_gen (sample_files Main (concat (record <$> sample_log) ++ [0; 0])) 1800000000 1000 = Ok None.
Proof.
  apply (store_load_hangs_on_torn_length sample_gen (proj1 sample_gen_ok)
    (sample_files Main (concat (record <$> sample_log) ++ [0; 0])) 1800000000 sample_log [0; 0] 1000).
  - reflexivity.
  - apply sample_log_in_file.
  - octets_tac.
  - change (zlen [0; 0]) with 2. lia.
  - apply Nat.leb_le. vm_compute. reflexivity.
Defined.

Definition sample_unloaded : Store :=
  mkStore None (sample_files New (concat (record <$> sample_log))) [] (dict_create 1024 true)
    (gwlist_add_producer gwlist_create) 0 10 0.

Lemma sample_unloaded_fresh : fresh sample_unloaded.
Proof.
  constructor.
  - exists ∅. split; [|apply map_Forall2_empty]. eexists. by apply dict_create_ok.
  - split; [|done]. apply lrepr_set_counts, gwlist_create_ok.
Qed.

Lemma store_load_from_new_unsafe_witness :
  returns (store_file_load sample_gen io_ok 1800000000 (Some sample_unloaded) 3) (fun r =>
    recovered (received_map (replay sample_log ∅)) r /\
    exists p st' ops s, r = Some (p, Some st') /\ st_trace st' = st_trace sample_unloaded ++ ops /\
      crash ops (st_fs sample_unloaded) s /\ restart_recovers sample_gen s ∅).
Proof.
  apply (store_load_from_new_unsafe sample_gen (proj1 sample_gen_ok) sample_unloaded 1800000000 sample_log 3).
  - apply sample_unloaded_fresh.
  - reflexivity.
  - reflexivity.
  - apply sample_log_in_file.
  - simpl. lia.
Defined.
