(* ===== verification/Conn.v ===== *)
(** * Buffered connections

    The model of gwlib/conn.c: a [Connection] is a file descriptor with an input
    and an output buffer.  Reads and writes never block; what the kernel answers
    to each [read(2)], [write(2)] and [poll(2)] comes from outside and is a list
    of results that the calls consume in order.  The calls made on the fdset and
    the callbacks are recorded.  Connections over SSL are not modelled, nor are
    the locks: each function below holds the lock of the direction it works on
    from its first to its last access, and the two directions share no buffer. *)

From S2P Require Import Prelude Octstr OctstrSearch Uuid Msg.

(** ** The descriptor *)

(** What [read] returns: octets (none at the end of the file), EAGAIN or EINTR,
    another error. *)
Inductive read_result := RData (l : list Z) | RAgain | RError.

(** What [write] returns: how many octets it took, EAGAIN or EINTR, an error. *)
Inductive write_result := WTook (n : Z) | WAgain | WError.

Inductive fd_call :=
| fdset_register (set events : Z)
| fdset_listen (set mask events : Z)
| fdset_unregister (set : Z)
| call_back (callback : Z) (data : option Z)
| destroy_data (destroyer data : Z).

Record Fd := mkFd {
  fd_no : Z;
  reads : list read_result;
  writes : list write_result;
  sent : list Z;
  calls : list fd_call
}.

(** When nothing more is known to arrive, [read] has nothing to return. *)
Definition sys_read (d : Fd) (size : Z) : read_result * Fd :=
  match reads d with
  | [] => (RAgain, d)
  | RData l :: rest =>
      if zlen l <=? size then (RData l, mkFd (fd_no d) rest (writes d) (sent d) (calls d))
      else (RData (take (Z.to_nat size) l),
            mkFd (fd_no d) (RData (drop (Z.to_nat size) l) :: rest) (writes d) (sent d) (calls d))
  | r :: rest => (r, mkFd (fd_no d) rest (writes d) (sent d) (calls d))
  end.

(** [write] takes a prefix of the octets offered. *)
Definition sys_write (d : Fd) (l : list Z) : write_result * Fd :=
  match writes d with
  | [] => (WAgain, d)
  | WTook n :: rest =>
      let n := Z.max 0 (Z.min n (zlen l)) in
      (WTook n, mkFd (fd_no d) (reads d) rest (sent d ++ take (Z.to_nat n) l) (calls d))
  | r :: rest => (r, mkFd (fd_no d) (reads d) rest (sent d) (calls d))
  end.

Definition record_call (d : Fd) (x : fd_call) : Fd :=
  mkFd (fd_no d) (reads d) (writes d) (sent d) (calls d ++ [x]).

(** [octstr_write_data] of gwlib/octstr.c. *)
Definition octstr_write_data (o : Octstr) (d : Fd) (from : Z) : res (Z * Fd) :=
  assert: 0 <=? fd_no d;
  assert: 0 <=? from;
  seems_valid o ≫= fun _ =>
  if os_len o <=? from then Ok (0, d)
  else if in_block (os_data o) from (os_len o - from) then
    match sys_write d (slice (os_data o) from (os_len o - from)) with
    | (WTook n, d) => Ok (n, d)
    | (WAgain, d) => Ok (0, d)
    | (WError, d) => Ok (-1, d)
    end
  else Undef.

(** ** The structure *)

Record Connection := mkConn {
  fd : Fd;
  connected : bool;
  outbuf : Octstr;
  outbufpos : Z;
  output_buffering : Z;
  inbuf : Octstr;
  inbufpos : Z;
  read_eof : Z;
  io_error : Z;
  registered : option Z;
  callback : option Z;
  callback_data : option Z;
  callback_data_destroyer : option Z;
  listening_pollin : bool;
  listening_pollout : bool
}.

Definition set_fd (c : Connection) (d : Fd) : Connection :=
  mkConn d (connected c) (outbuf c) (outbufpos c) (output_buffering c) (inbuf c) (inbufpos c)
    (read_eof c) (io_error c) (registered c) (callback c) (callback_data c)
    (callback_data_destroyer c) (listening_pollin c) (listening_pollout c).

Definition set_out (c : Connection) (b : Octstr) (pos : Z) : Connection :=
  mkConn (fd c) (connected c) b pos (output_buffering c) (inbuf c) (inbufpos c)
    (read_eof c) (io_error c) (registered c) (callback c) (callback_data c)
    (callback_data_destroyer c) (listening_pollin c) (listening_pollout c).

Definition set_in (c : Connection) (b : Octstr) (pos : Z) : Connection :=
  mkConn (fd c) (connected c) (outbuf c) (outbufpos c) (output_buffering c) b pos
    (read_eof c) (io_error c) (registered c) (callback c) (callback_data c)
    (callback_data_destroyer c) (listening_pollin c) (listening_pollout c).

Definition set_state (c : Connection) (buffering eof err : Z) : Connection :=
  mkConn (fd c) (connected c) (outbuf c) (outbufpos c) buffering (inbuf c) (inbufpos c)
    eof err (registered c) (callback c) (callback_data c)
    (callback_data_destroyer c) (listening_pollin c) (listening_pollout c).

Definition set_registration (c : Connection) (set cb data destroyer : option Z) (i o : bool)
  : Connection :=
  mkConn (fd c) (connected c) (outbuf c) (outbufpos c) (output_buffering c) (inbuf c)
    (inbufpos c) (read_eof c) (io_error c) set cb data destroyer i o.

Definition set_listening (c : Connection) (i o : bool) : Connection :=
  set_registration c (registered c) (callback c) (callback_data c) (callback_data_destroyer c) i o.

Definition set_eof (c : Connection) : Connection := set_state c (output_buffering c) 1 (io_error c).
Definition set_error (c : Connection) : Connection := set_state c (output_buffering c) (read_eof c) 1.
Definition notify (c : Connection) (x : fd_call) : Connection := set_fd c (record_call (fd c) x).

Definition POLLIN : Z := 1.
Definition POLLOUT : Z := 4.
Definition POLLERR : Z := 8.
Definition POLLHUP : Z := 16.
Definition POLLNVAL : Z := 32.
Definition DEFAULT_OUTPUT_BUFFERING : Z := 0.

(** [revents & mask] as a condition. *)
Definition has (revents mask : Z) : bool := negb (Z.land revents mask =? 0).

(** ** Inside the locks *)

Definition unlocked_outbuf_len (c : Connection) : res Z :=
  n ← octstr_len (Some (outbuf c)); Ok (n - outbufpos c).

Definition unlocked_inbuf_len (c : Connection) : res Z :=
  n ← octstr_len (Some (inbuf c)); Ok (n - inbufpos c).

Definition unlocked_register_pollin (c : Connection) (onoff : bool) : res Connection :=
  match registered c with
  | None => Panic
  | Some set =>
      Ok (if onoff && negb (listening_pollin c) then
            notify (set_listening c true (listening_pollout c)) (fdset_listen set POLLIN POLLIN)
          else if negb onoff && listening_pollin c then
            notify (set_listening c false (listening_pollout c)) (fdset_listen set POLLIN 0)
          else c)
  end.

Definition unlocked_register_pollout (c : Connection) (onoff : bool) : res Connection :=
  match registered c with
  | None => Panic
  | Some set =>
      Ok (if onoff && negb (listening_pollout c) then
            notify (set_listening c (listening_pollin c) true) (fdset_listen set POLLOUT POLLOUT)
          else if negb onoff && listening_pollout c then
            notify (set_listening c (listening_pollin c) false) (fdset_listen set POLLOUT 0)
          else c)
  end.

Definition unlocked_write (c : Connection) : res (Z * Connection) :=
  '(ret, d) ← octstr_write_data (outbuf c) (fd c) (outbufpos c);
  let c := set_fd c d in
  if ret <? 0 then Ok (-1, set_error c)
  else
    let c := set_out c (outbuf c) (outbufpos c + ret) in
    n ← octstr_len (Some (outbuf c));
    c ← (if n / 2 <? outbufpos c
         then b ← octstr_delete (outbuf c) 0 (outbufpos c); Ok (set_out c b 0)
         else Ok c);
    c ← (match registered c with
         | Some _ => n ← unlocked_outbuf_len c; unlocked_register_pollout c (0 <? n)
         | None => Ok c
         end);
    Ok (ret, c).

Definition unlocked_try_write (c : Connection) : res (Z * Connection) :=
  len ← unlocked_outbuf_len c;
  if len =? 0 then Ok (0, c)
  else if len <? output_buffering c then Ok (1, c)
  else
    '(ret, c) ← unlocked_write c;
    if ret <? 0 then Ok (-1, c)
    else
      len ← unlocked_outbuf_len c;
      Ok (if 0 <? len then 1 else 0, c).

Definition stop_reading (c : Connection) : res Connection :=
  match registered c with
  | Some _ => unlocked_register_pollin c false
  | None => Ok c
  end.

Definition unlocked_read (c : Connection) : res Connection :=
  c ← (if 0 <? inbufpos c
       then b ← octstr_delete (inbuf c) 0 (inbufpos c); Ok (set_in c b 0)
       else Ok c);
  let '(r, d) := sys_read (fd c) 4096 in
  let c := set_fd c d in
  match r with
  | RAgain => Ok c
  | RError => stop_reading (set_error c)
  | RData buf =>
      let len := zlen buf in
      if len =? 0 then stop_reading (set_eof c)
      else
        b ← octstr_append_data (inbuf c) buf len;
        Ok (set_in c b (inbufpos c))
  end.

Definition unlocked_get (c : Connection) (length : Z) : res (Octstr * Connection) :=
  n ← unlocked_inbuf_len c;
  assert: length <=? n;
  result ← octstr_copy (Some (inbuf c)) (inbufpos c) length;
  Ok (result, set_in c (inbuf c) (inbufpos c + length)).

(** ** Making and registering connections *)

(** [conn_wrap_fd] without SSL; [nonblocking] says whether the descriptor could be
    made non-blocking. *)
Definition conn_wrap_fd (d : Fd) (nonblocking : bool) : res (option Connection) :=
  if negb nonblocking then Ok None
  else
    o ← octstr_create [];
    i ← octstr_create [];
    Ok (Some (mkConn d true o 0 DEFAULT_OUTPUT_BUFFERING i 0 0 0 None None None None false false)).

Definition conn_outbuf_len (c : Connection) : res Z := unlocked_outbuf_len c.
Definition conn_inbuf_len (c : Connection) : res Z := unlocked_inbuf_len c.
Definition conn_eof (c : Connection) : Z := read_eof c.
Definition conn_error (c : Connection) : Z := io_error c.

Definition conn_set_output_buffering (c : Connection) (size : Z) : res Connection :=
  '(_, c) ← unlocked_try_write (set_state c size (read_eof c) (io_error c));
  Ok c.

(** The callback is called with the connection; what it does then is up to it. *)
Definition run_callback (c : Connection) : Connection :=
  match callback c with
  | Some f => notify c (call_back f (callback_data c))
  | None => c
  end.

(** The three parts of [poll_callback]; each also says whether the callback is due. *)
Definition poll_error (c : Connection) (revents : Z) : res (Connection * bool) :=
  if has revents (Z.lor POLLERR POLLHUP) then
    c ← (if listening_pollin c then unlocked_register_pollin c false else Ok c);
    c ← (if listening_pollout c then unlocked_register_pollout c false else Ok c);
    Ok (set_error c, true)
  else Ok (c, false).

Definition poll_out (c : Connection) (revents : Z) (do_callback : bool) : res (Connection * bool) :=
  if has revents POLLOUT then
    '(_, c) ← unlocked_write c;
    n ← unlocked_outbuf_len c;
    Ok (c, do_callback || (n =? 0))
  else Ok (c, do_callback).

Definition poll_in (c : Connection) (revents : Z) (do_callback : bool) : res (Connection * bool) :=
  if has revents POLLIN then
    c ← unlocked_read c;
    Ok (c, true)
  else Ok (c, do_callback).

Definition poll_callback (no revents : Z) (c : Connection) : res Connection :=
  if negb (fd_no (fd c) =? no) then Ok c
  else if negb (connected c) then Ok (run_callback c)
  else
    r ← poll_error c revents;
    r ← poll_out r.1 revents r.2;
    '(c, do_callback) ← poll_in r.1 revents r.2;
    Ok (if do_callback : bool then run_callback c else c).

(** The destructor called on the data of the registration that goes away. *)
Definition destroy_old (c : Connection) : Connection :=
  match callback_data c, callback_data_destroyer c with
  | Some x, Some f => notify c (destroy_data f x)
  | _, _ => c
  end.

Definition conn_register_real (c : Connection) (set : Z) (cb : Z) (data destroyer : option Z)
  : res (Z * Connection) :=
  if fd_no (fd c) <? 0 then Ok (-1, c)
  else if decide (registered c = Some set) then
    let c' := if decide (callback_data c = data) then c else destroy_old c in
    Ok (0, set_registration c' (registered c) (Some cb) data destroyer
             (listening_pollin c) (listening_pollout c))
  else match registered c with
  | Some _ => Ok (-1, c)
  | None =>
      n ← unlocked_outbuf_len c;
      let events :=
        if connected c then
          Z.lor (if (read_eof c =? 0) && (io_error c =? 0) then POLLIN else 0)
                (if 0 <? n then POLLOUT else 0)
        else Z.lor POLLIN POLLOUT in
      Ok (0, notify (set_registration c (Some set) (Some cb) data destroyer
                       (has events POLLIN) (has events POLLOUT))
               (fdset_register set events))
  end.

Definition conn_unregister (c : Connection) : Connection :=
  if fd_no (fd c) <? 0 then c
  else match registered c with
  | None => c
  | Some set =>
      let c' := notify (set_registration c None None None None false false) (fdset_unregister set) in
      match callback_data c, callback_data_destroyer c with
      | Some x, Some f => notify c' (destroy_data f x)
      | _, _ => c'
      end
  end.

(** ** Waiting and flushing *)

(** What [gwthread_pollfd] returns: -1 with EINTR or another error, or the events
    (0 when it was woken up or timed out). *)
Inductive poll_result := PollError (eintr : bool) | PollEvents (revents : Z).

(** [poll] is asked for the events computed here; [polled] is its answer to them. *)
Definition conn_wait (c : Connection) (polled : Z -> poll_result) : res (Z * Connection) :=
  '(ret, c) ← unlocked_write c;
  if ret <? 0 then Ok (-1, c)
  else if 0 <? ret then Ok (0, c)
  else
    n ← unlocked_outbuf_len c;
    let events := if 0 <? n then POLLOUT else 0 in
    let events := if ((read_eof c =? 0) && (io_error c =? 0)) || (events =? 0)
                  then Z.lor events POLLIN else events in
    match polled events with
    | PollError eintr => Ok (if eintr then 0 else -1, c)
    | PollEvents ret =>
        if ret =? 0 then Ok (1, c)
        else if has ret POLLNVAL then Ok (-1, c)
        else if has ret (Z.lor POLLERR POLLHUP) then
          c ← unlocked_read c; Ok (-1, c)
        else
          c ← (if has ret POLLOUT then '(_, c) ← unlocked_write c; Ok c else Ok c);
          c ← (if has ret POLLIN then unlocked_read c else Ok c);
          Ok (0, c)
    end.

(** The loop of [conn_flush], over the answers of [poll]; when they end, [poll] is
    woken up. *)
Fixpoint flush_loop (c : Connection) (polls : list poll_result) : res (Z * Connection) :=
  n ← unlocked_outbuf_len c;
  if n =? 0 then Ok (0, c)
  else match polls with
  | [] => Ok (1, c)
  | PollError eintr :: _ => Ok (if eintr then 1 else -1, c)
  | PollEvents revents :: polls =>
      if revents =? 0 then Ok (1, c)
      else if has revents POLLNVAL then Ok (-1, c)
      else if has revents (Z.lor POLLOUT (Z.lor POLLERR POLLHUP)) then
        '(ret, c) ← unlocked_write c;
        if ret <? 0 then Ok (-1, c) else flush_loop c polls
      else flush_loop c polls
  end.

Definition conn_flush (c : Connection) (polls : list poll_result) : res (Z * Connection) :=
  '(ret, c) ← unlocked_write c;
  if ret <? 0 then Ok (-1, c) else flush_loop c polls.

(** ** Writing *)

Definition conn_write (c : Connection) (data : option Octstr) : res (Z * Connection) :=
  b ← octstr_append (outbuf c) data;
  unlocked_try_write (set_out c b (outbufpos c)).

Definition conn_write_data (c : Connection) (data : list Z) (length : Z) : res (Z * Connection) :=
  b ← octstr_append_data (outbuf c) data length;
  unlocked_try_write (set_out c b (outbufpos c)).

Definition conn_write_withlen (c : Connection) (data : option Octstr) : res (Z * Connection) :=
  n ← octstr_len data;
  b ← octstr_append_data (outbuf c) (encode_network_long n) 4;
  b ← octstr_append b data;
  unlocked_try_write (set_out c b (outbufpos c)).

(** ** Reading *)

Definition conn_read_everything (c : Connection) : res (option Octstr * Connection) :=
  n ← unlocked_inbuf_len c;
  c ← (if n =? 0 then unlocked_read c else Ok c);
  n ← unlocked_inbuf_len c;
  if n =? 0 then Ok (None, c)
  else
    '(result, c) ← unlocked_get c n;
    Ok (Some result, c).

Definition conn_read_fixed (c : Connection) (length : Z) : res (option Octstr * Connection) :=
  if length <? 1 then Ok (None, c)
  else
    n ← unlocked_inbuf_len c;
    c ← (if n <? length then unlocked_read c else Ok c);
    n ← unlocked_inbuf_len c;
    if n <? length then Ok (None, c)
    else
      '(result, c) ← unlocked_get c length;
      Ok (Some result, c).

Definition conn_read_line (c : Connection) : res (option Octstr * Connection) :=
  pos ← octstr_search_char (inbuf c) 10 (inbufpos c);
  '(pos, c) ← (if pos <? 0 then
                 c ← unlocked_read c;
                 pos ← octstr_search_char (inbuf c) 10 (inbufpos c);
                 Ok (pos, c)
               else Ok (pos, c));
  if pos <? 0 then Ok (None, c)
  else
    '(result, c) ← unlocked_get c (pos - inbufpos c);
    let c := set_in c (inbuf c) (inbufpos c + 1) in
    n ← octstr_len (Some result);
    result ← (if 0 <? n then
                last ← octstr_get_char result (n - 1);
                if last =? 13 then octstr_delete result (n - 1) 1 else Ok result
              else Ok result);
    Ok (Some result, c).

(** The do-while loop of [conn_read_withlen]: it skips negative lengths; [length]
    is the value the variable has before. *)
Fixpoint get_length (c : Connection) (length : Z) (fuel : nat) : res (Z * Connection) :=
  match fuel with
  | O => Undef
  | S fuel =>
      n ← unlocked_inbuf_len c;
      if n <? 4 then Ok (length, c)
      else
        lengthbuf ← octstr_get_many_chars (gw_malloc 4) (inbuf c) (inbufpos c) 4;
        length ← decode_network_long lengthbuf;
        if length <? 0 then get_length (set_in c (inbuf c) (inbufpos c + 4)) 0 fuel
        else Ok (length, c)
  end.

(** One turn of the for loop after the read: [inl] goes on with the next turn. *)
Definition withlen_try (c : Connection) (length : Z)
  : res (Z * Connection + Octstr * Connection) :=
  n ← unlocked_inbuf_len c;
  '(length, c) ← get_length c length (S (Z.to_nat n));
  n ← unlocked_inbuf_len c;
  if n - 4 <? length then Ok (inl (length, c))
  else
    r ← unlocked_get (set_in c (inbuf c) (inbufpos c + 4)) length;
    Ok (inr r).

Definition conn_read_withlen (c : Connection) : res (option Octstr * Connection) :=
  t ← withlen_try c 0;
  match t with
  | inr (result, c) => Ok (Some result, c)
  | inl (length, c) =>
      c ← unlocked_read c;
      t ← withlen_try c length;
      match t with
      | inr (result, c) => Ok (Some result, c)
      | inl (_, c) => Ok (None, c)
      end
  end.

(** One turn of the loop of [conn_read_packet] after the read. *)
Definition packet_try (c : Connection) (startmark endmark : Z)
  : res (Connection + Octstr * Connection) :=
  s ← (if 0 <=? startmark then
         startpos ← octstr_search_char (inbuf c) startmark (inbufpos c);
         if startpos <? 0 then
           n ← octstr_len (Some (inbuf c));
           Ok (inl (set_in c (inbuf c) n))
         else Ok (inr (startpos, set_in c (inbuf c) startpos))
       else Ok (inr (inbufpos c, c)));
  match s with
  | inl c => Ok (inl c)
  | inr (startpos, c) =>
      endpos ← octstr_search_char (inbuf c) endmark (inbufpos c);
      if endpos <? 0 then Ok (inl c)
      else
        r ← unlocked_get c (endpos - startpos + 1);
        Ok (inr r)
  end.

Definition conn_read_packet (c : Connection) (startmark endmark : Z)
  : res (option Octstr * Connection) :=
  t ← packet_try c startmark endmark;
  match t with
  | inr (result, c) => Ok (Some result, c)
  | inl c =>
      c ← unlocked_read c;
      t ← packet_try c startmark endmark;
      match t with
      | inr (result, c) => Ok (Some result, c)
      | inl c => Ok (None, c)
      end
  end.

(** ** What a connection stands for *)

Definition read_octets (r : read_result) : list Z :=
  match r with RData l => l | RAgain | RError => [] end.

(** The octets still to be read, and the octets received but not yet handed out. *)
Definition arriving (rs : list read_result) : list Z := concat (map read_octets rs).
Definition unread (c : Connection) : list Z := drop (Z.to_nat (inbufpos c)) (bytes (inbuf c)).
Definition stream (c : Connection) : list Z := unread c ++ arriving (reads (fd c)).

(** The octets written to the connection: sent, or waiting to be. *)
Definition unsent (c : Connection) : list Z := drop (Z.to_nat (outbufpos c)) (bytes (outbuf c)).
Definition outgoing (c : Connection) : list Z := sent (fd c) ++ unsent c.

(** The events the fdset watches for, from the calls made on it. *)
Definition fd_event (m : option (Z * Z)) (x : fd_call) : option (Z * Z) :=
  match x, m with
  | fdset_register set events, _ => Some (set, events)
  | fdset_listen set mask events, Some (s, e) =>
      if s =? set then Some (s, Z.lor (Z.land e (Z.lnot mask)) (Z.land events mask)) else m
  | fdset_unregister _, _ => None
  | _, _ => m
  end.

Definition watched (c : Connection) : option (Z * Z) := fold_left fd_event (calls (fd c)) None.

Definition listening (c : Connection) : Z :=
  Z.lor (if listening_pollin c then POLLIN else 0) (if listening_pollout c then POLLOUT else 0).

(** A well-formed connection: positions within the buffers, and the fdset watching
    for what the flags say. *)
Record conn_ok (c : Connection) : Prop := {
  co_fd : 0 <= fd_no (fd c);
  co_in : reprm (inbuf c) (bytes (inbuf c));
  co_inpos : 0 <= inbufpos c <= zlen (bytes (inbuf c));
  co_out : reprm (outbuf c) (bytes (outbuf c));
  co_outpos : 0 <= outbufpos c <= zlen (bytes (outbuf c));
  co_reads : octets (arriving (reads (fd c)));
  co_watched : watched c = match registered c with Some set => Some (set, listening c) | None => None end
}.

(** The rule of conn.c: listen for input except at the end of the file, and for a
    chance to write only when something waits to be written. *)
Record polls_ok (c : Connection) : Prop := {
  po_none : registered c = None -> listening_pollin c = false /\ listening_pollout c = false;
  po_in : listening_pollin c = true -> read_eof c = 0;
  po_out : listening_pollout c = true -> unsent c <> []
}.

(** The two directions, and what neither changes. *)
Definition in_side (c : Connection) := (inbuf c, inbufpos c, reads (fd c), read_eof c).
Definition out_side (c : Connection) :=
  (outbuf c, outbufpos c, writes (fd c), sent (fd c), output_buffering c).
Definition reg_side (c : Connection) :=
  (registered c, callback c, callback_data c, callback_data_destroyer c, connected c, fd_no (fd c)).

Lemma unread_same (c c' : Connection) : in_side c' = in_side c -> unread c' = unread c.
Proof. intros [= E1 E2 _ _]. unfold unread. by rewrite E1, E2. Qed.

Lemma stream_same (c c' : Connection) : in_side c' = in_side c -> stream c' = stream c.
Proof. intros E. unfold stream. rewrite (unread_same _ _ E). by injection E as _ _ -> _. Qed.

Lemma unsent_same (c c' : Connection) : out_side c' = out_side c -> unsent c' = unsent c.
Proof. intros [= E1 E2 _ _ _]. unfold unsent. by rewrite E1, E2. Qed.

Lemma outgoing_same (c c' : Connection) : out_side c' = out_side c -> outgoing c' = outgoing c.
Proof. intros E. unfold outgoing. rewrite (unsent_same _ _ E). by injection E as _ _ _ -> _. Qed.

(** A buffer from a position on. *)
Lemma buffer_len (b : Octstr) (pos : Z) :
  reprm b (bytes b) -> 0 <= pos <= zlen (bytes b) ->
  octstr_len (Some b) = Ok (pos + zlen (drop (Z.to_nat pos) (bytes b))).
Proof.
  intros Hb Hp. rewrite (octstr_len_ok _ _ (proj1 Hb)). f_equal. list_lia.
Qed.

Lemma unlocked_inbuf_len_ok (c : Connection) :
  conn_ok c -> unlocked_inbuf_len c = Ok (zlen (unread c)).
Proof.
  intros H. unfold unlocked_inbuf_len. rewrite (buffer_len _ _ (co_in c H) (co_inpos c H)). bind_red.
  f_equal. unfold unread. lia.
Qed.

Lemma unlocked_outbuf_len_ok (c : Connection) :
  conn_ok c -> unlocked_outbuf_len c = Ok (zlen (unsent c)).
Proof.
  intros H. unfold unlocked_outbuf_len. rewrite (buffer_len _ _ (co_out c H) (co_outpos c H)). bind_red.
  f_equal. unfold unsent. lia.
Qed.

(** A new value of one of the buffers. *)
Lemma set_in_ok (c : Connection) (b : Octstr) (s : list Z) (pos : Z) :
  conn_ok c -> reprm b s -> 0 <= pos <= zlen s ->
  conn_ok (set_in c b pos) /\ unread (set_in c b pos) = drop (Z.to_nat pos) s.
Proof.
  intros H Hb Hp. pose proof (repr_bytes _ _ (proj1 Hb)) as E. split; [|by unfold unread; cbn; rewrite E].
  destruct H. by split; cbn; rewrite ?E.
Qed.

Lemma set_out_ok (c : Connection) (b : Octstr) (s : list Z) (pos : Z) :
  conn_ok c -> reprm b s -> 0 <= pos <= zlen s ->
  conn_ok (set_out c b pos) /\ unsent (set_out c b pos) = drop (Z.to_nat pos) s.
Proof.
  intros H Hb Hp. pose proof (repr_bytes _ _ (proj1 Hb)) as E. split; [|by unfold unsent; cbn; rewrite E].
  destruct H. by split; cbn; rewrite ?E.
Qed.

Lemma watched_listen (c : Connection) (i o : bool) (set mask events : Z) :
  conn_ok c -> registered c = Some set ->
  Z.lor (Z.land (listening c) (Z.lnot mask)) (Z.land events mask) =
  Z.lor (if i then POLLIN else 0) (if o then POLLOUT else 0) ->
  conn_ok (notify (set_listening c i o) (fdset_listen set mask events)).
Proof.
  intros H Hr E. destruct H as [? ? ? ? ? ? W]. split; try done. rewrite Hr in W.
  unfold watched in *. cbn. rewrite fold_left_app, W, Hr. cbn. rewrite Z.eqb_refl, E. done.
Qed.

Lemma register_pollin_off (c : Connection) (set : Z) :
  conn_ok c -> registered c = Some set ->
  exists c', unlocked_register_pollin c false = Ok c' /\ conn_ok c' /\ in_side c' = in_side c /\
    out_side c' = out_side c /\ reg_side c' = reg_side c /\ io_error c' = io_error c /\
    listening_pollin c' = false /\ listening_pollout c' = listening_pollout c.
Proof.
  intros H Hr. unfold unlocked_register_pollin. rewrite Hr. cbn [negb andb].
  destruct (listening_pollin c) eqn:E; [|by exists c].
  eexists. split; [done|]. split; [|done]. apply watched_listen; [done..|].
  unfold listening. rewrite E. by destruct (listening_pollout c).
Qed.

Lemma register_pollout_ok (c : Connection) (set : Z) (onoff : bool) :
  conn_ok c -> registered c = Some set ->
  exists c', unlocked_register_pollout c onoff = Ok c' /\ conn_ok c' /\ in_side c' = in_side c /\
    out_side c' = out_side c /\ reg_side c' = reg_side c /\ io_error c' = io_error c /\
    listening_pollin c' = listening_pollin c /\ listening_pollout c' = onoff.
Proof.
  intros H Hr. unfold unlocked_register_pollout. rewrite Hr.
  destruct (listening_pollout c) eqn:E, onoff; cbn [negb andb]; [by exists c| | |by exists c];
    (eexists; split; [done|]; split; [|done]; apply watched_listen; [done..|]);
    unfold listening; rewrite E; by destruct (listening_pollin c).
Qed.

(** ** The two directions, inside the locks *)

(** A bound on the number of [read]s that can still return something. *)
Definition read_weight (r : read_result) : nat := S (length (read_octets r)).
Definition reads_left (rs : list read_result) : nat := sum_list_with read_weight rs.

(** A calm connection: no error and no end of file so far, nor in what is coming. *)
Definition quiet (r : read_result) : Prop :=
  match r with RData l => l <> [] | RAgain => True | RError => False end.
Definition calm (c : Connection) : Prop :=
  Forall quiet (reads (fd c)) /\ io_error c = 0 /\ read_eof c = 0.

(** [reading c c']: from [c] to [c'] only the input side was worked on;
    [writing c c']: only the output side. *)
Definition reading (c c' : Connection) : Prop :=
  conn_ok c' /\ (polls_ok c -> polls_ok c') /\ out_side c' = out_side c /\ reg_side c' = reg_side c /\
  (calm c -> calm c') /\ (reads_left (reads (fd c')) <= reads_left (reads (fd c)))%nat.

Definition writing (c c' : Connection) : Prop :=
  conn_ok c' /\ (polls_ok c -> polls_ok c') /\ in_side c' = in_side c /\ reg_side c' = reg_side c.

Lemma reading_trans (c1 c2 c3 : Connection) : reading c1 c2 -> reading c2 c3 -> reading c1 c3.
Proof. intros (? & ? & ? & ? & ? & ?) (? & ? & ? & ? & ? & ?). split_and!; [done|auto|congruence..|auto|lia]. Qed.

Lemma writing_trans (c1 c2 c3 : Connection) : writing c1 c2 -> writing c2 c3 -> writing c1 c3.
Proof. intros (? & ? & ? & ?) (? & ? & ? & ?). split_and!; [done|auto|congruence..]. Qed.

Lemma reading_refl (c : Connection) : conn_ok c -> reading c c.
Proof. done. Qed.

Lemma writing_refl (c : Connection) : conn_ok c -> writing c c.
Proof. done. Qed.

#[export] Hint Resolve reading_refl writing_refl reading_trans writing_trans : kannel.

Lemma sys_read_ok (d d' : Fd) (r : read_result) :
  sys_read d 4096 = (r, d') ->
  fd_no d' = fd_no d /\ writes d' = writes d /\ sent d' = sent d /\ calls d' = calls d /\
  arriving (reads d) = read_octets r ++ arriving (reads d') /\
  (reads_left (reads d') < reads_left (reads d) \/ (reads d = [] /\ d' = d /\ r = RAgain))%nat /\
  (Forall quiet (reads d) -> quiet r /\ Forall quiet (reads d')).
Proof.
  unfold sys_read. destruct (reads d) as [|x rs] eqn:E; [intros [= <- <-]; rewrite E; split_and!; by auto|].
  destruct x as [l| |]; [destruct (Z.leb_spec (zlen l) 4096)|..]; intros [= <- <-];
    unfold arriving, reads_left, read_weight; cbn; split_and!; try done; try (left; lia);
    try (intros [Hq Hqs]%Forall_cons_iff; done).
  - by rewrite app_assoc, take_drop.
  - left. list_lia.
  - intros [Hq Hqs]%Forall_cons_iff. split; [by destruct l|]. constructor; [|done].
    cbn. intros E0%(f_equal length). list_lia.
Qed.

Lemma inside_fd (c : Connection) (d : Fd) :
  conn_ok c -> fd_no d = fd_no (fd c) -> calls d = calls (fd c) -> octets (arriving (reads d)) ->
  conn_ok (set_fd c d).
Proof.
  intros [? ? ? ? ? ? W] E1 E2 Hr. split; try done; [by cbn; rewrite E1|].
  unfold watched in *. cbn. by rewrite E2.
Qed.

Lemma stop_reading_ok (c : Connection) :
  conn_ok c ->
  exists c', stop_reading c = Ok c' /\ conn_ok c' /\ in_side c' = in_side c /\ out_side c' = out_side c /\
    reg_side c' = reg_side c /\ listening_pollout c' = listening_pollout c /\
    listening_pollin c' = (match registered c with Some _ => false | None => listening_pollin c end).
Proof.
  intros H. unfold stop_reading. destruct (registered c) as [set|] eqn:E; [|by exists c].
  destruct (register_pollin_off c set H E) as (c' & -> & Hc & Hi & Ho & Hr & _ & Hl & Hl'). by exists c'.
Qed.

(** The rule on polling is kept when reading stops. *)
Lemma polls_stopped (c c' : Connection) :
  polls_ok c -> out_side c' = out_side c -> reg_side c' = reg_side c ->
  listening_pollout c' = listening_pollout c ->
  listening_pollin c' = (match registered c with Some _ => false | None => listening_pollin c end) ->
  polls_ok c'.
Proof.
  intros [Pn Pi Po] Ho [= Er _ _ _ _ _] El Ei. split; rewrite ?El, ?Ei, ?Er, ?(unsent_same _ _ Ho).
  - intros Hn. rewrite Hn. by apply Pn.
  - destruct (registered c); [done|]. by destruct (Pn eq_refl) as [-> _].
  - done.
Qed.

(** The flags are those of [c]. *)
Definition same_flags (c c' : Connection) : Prop :=
  listening_pollin c' = listening_pollin c /\ listening_pollout c' = listening_pollout c.

Lemma polls_reading (c c' : Connection) :
  polls_ok c -> out_side c' = out_side c -> reg_side c' = reg_side c ->
  same_flags c c' -> read_eof c' = read_eof c -> polls_ok c'.
Proof.
  intros [Pn Pi Po] Ho [= Er _ _ _ _ _] [E1 E2] Ee.
  split; by rewrite ?E1, ?E2, ?Er, ?Ee, ?(unsent_same _ _ Ho).
Qed.

(** The part of the buffer already read is dropped first. *)
Lemma compact_in_ok (c : Connection) :
  conn_ok c ->
  returns (if 0 <? inbufpos c
           then b ← octstr_delete (inbuf c) 0 (inbufpos c); Ok (set_in c b 0) else Ok c) (fun c1 =>
    conn_ok c1 /\ unread c1 = unread c /\ inbufpos c1 = 0 /\ fd c1 = fd c /\ out_side c1 = out_side c /\
    reg_side c1 = reg_side c /\ same_flags c c1 /\ read_eof c1 = read_eof c /\ io_error c1 = io_error c).
Proof.
  intros H. pose proof (co_inpos c H). destruct (Z.ltb_spec 0 (inbufpos c)); [|cbn; split_and!; try done; lia].
  eapply returns_seq; [apply (octstr_delete_ok _ _ 0 (inbufpos c) (co_in c H)); long_lia|].
  intros b Hb. destruct (set_in_ok c b _ 0 H Hb) as [Hc Eu]; [split; [lia|apply zlen_nonneg]|].
  by cbn.
Qed.

Lemma stream_from (c c' : Connection) (x : list Z) :
  unread c' = unread c ++ x -> arriving (reads (fd c)) = x ++ arriving (reads (fd c')) -> stream c' = stream c.
Proof. intros E1 E2. unfold stream. by rewrite E1, E2, app_assoc. Qed.

(** A [read] was used up, or there was none left. *)
Definition progress (c c' : Connection) : Prop :=
  (reads_left (reads (fd c')) < reads_left (reads (fd c)) \/ (reads (fd c) = [] /\ reads (fd c') = []))%nat.

(** What [unlocked_read] does: octets move from the descriptor to the buffer, and
    a [read] is used up. *)
Definition read_more (c c' : Connection) : Prop :=
  reading c c' /\ stream c' = stream c /\ (exists x, unread c' = unread c ++ x) /\ progress c c'.

Lemma stop_reading_more (c c1 : Connection) :
  conn_ok c1 -> unread c1 = unread c -> out_side c1 = out_side c -> reg_side c1 = reg_side c ->
  same_flags c c1 -> arriving (reads (fd c)) = arriving (reads (fd c1)) ->
  progress c c1 -> ~ calm c -> returns (stop_reading c1) (read_more c).
Proof.
  intros H1 Eu Eo Er [F1 F2] Ea El Hcalm.
  destruct (stop_reading_ok c1 H1) as (c' & -> & Hc & Ei & Eo' & Er' & Elo & Eli).
  pose proof (unread_same _ _ Ei) as Eu'. injection Ei as _ _ Erd _. cbn. unfold read_more, progress in *. rewrite Erd.
  split; [split|split; [|split]]; try done.
  - split; [|split; [congruence|split; [congruence|split; [done|]]]].
    2:{ rewrite Erd. destruct El as [El|[-> ->]]; [lia|done]. }
    intros Hp. apply (polls_stopped c); try congruence. rewrite Eli, F1. by injection Er as -> _ _ _ _ _.
  - apply (stream_from c c' []); [by rewrite app_nil_r, Eu'|by rewrite Erd].
  - exists []. by rewrite app_nil_r, Eu'.
Qed.

Lemma unlocked_read_ok (c : Connection) : conn_ok c -> returns (unlocked_read c) (read_more c).
Proof.
  intros H. unfold unlocked_read. eapply returns_seq; [by apply compact_in_ok|].
  intros c1 (H1 & Eu & Ep & Ef & Eo & Er & El & Ee & Ei).
  destruct (sys_read (fd c1) 4096) as [r d] eqn:Es.
  destruct (sys_read_ok _ _ _ Es) as (Dn & Dw & Ds & Dc & Da & Dl & Dq). rewrite Ef in *.
  pose proof (co_reads c H) as Ho. rewrite Da in Ho. apply Forall_app in Ho as [Hro Hao].
  assert (conn_ok (set_fd c1 d)) as H2 by (apply inside_fd; by rewrite ?Ef).
  assert (out_side (set_fd c1 d) = out_side c /\ reg_side (set_fd c1 d) = reg_side c) as [Eo2 Er2].
  { revert Eo Er. unfold out_side, reg_side. cbn. rewrite Dw, Ds, Dn, Ef. by intros -> ->. }
  assert ((reads_left (reads d) < reads_left (reads (fd c)) \/ (reads (fd c) = [] /\ reads d = []))%nat) as Dl'
    by (destruct Dl as [Dl|(? & -> & _)]; auto).
  assert ((reads_left (reads d) <= reads_left (reads (fd c)))%nat) as Dle by (destruct Dl' as [?|[-> ->]]; [lia|done]).
  assert (calm c -> quiet r /\ calm (set_fd c1 d)) as Hq.
  { intros (Q & Q1 & Q2). destruct (Dq Q) as [Qr Qd]. split; [done|]. split_and!; [done|by rewrite <- Ei in Q1|by rewrite <- Ee in Q2]. }
  destruct r as [buf| |].
  - destruct (Z.eqb_spec (zlen buf) 0) as [Hz|Hz].
    + apply stop_reading_more; try done; [by destruct H2|cbn; by rewrite Da, (zlen_0_inv _ Hz)|].
      intros [Hqr _]%Hq. by rewrite (zlen_0_inv _ Hz) in Hqr.
    + eapply returns_seq; [apply (octstr_append_data_ok _ _ buf (zlen buf) (co_in _ H2))|].
      * pose proof (zlen_nonneg buf). lia.
      * by apply octets_take.
      * intros b Hb. rewrite (take_ge buf) in Hb by list_lia. cbn in Hb. cbn.
        destruct (set_in_ok (set_fd c1 d) b _ (inbufpos c1) H2 Hb) as [H3 Eu3].
        { pose proof (co_inpos _ H1). rewrite zlen_app. pose proof (zlen_nonneg buf). lia. }
        assert (unread (set_in (set_fd c1 d) b (inbufpos c1)) = unread c ++ buf) as Eu4.
        { rewrite Eu3, drop_app_le by (pose proof (co_inpos _ H1); list_lia). by rewrite <- Eu. }
        split_and!; try done; [|by apply (stream_from c _ buf)|by exists buf].
        split_and!; try done; [intros Hp; by apply (polls_reading c)|]. intros Hcalm. by destruct (Hq Hcalm).
  - cbn. split_and!; try done; [|by apply (stream_from c _ []); rewrite ?app_nil_r|by exists []; rewrite app_nil_r].
    split_and!; try done; [intros Hp; by apply (polls_reading c)|]. intros Hcalm. by destruct (Hq Hcalm).
  - apply stop_reading_more; try done; [by destruct H2|]. by intros [Hqr _]%Hq.
Qed.

(** What a step of writing does: nothing is lost, repeated or reordered. *)
Definition write_more (c : Connection) (r : Z) (c' : Connection) : Prop :=
  writing c c' /\ outgoing c' = outgoing c /\ -1 <= r /\ (r = -1 -> io_error c' = 1).

Lemma sys_write_ok (d d' : Fd) (l : list Z) (r : write_result) :
  sys_write d l = (r, d') ->
  fd_no d' = fd_no d /\ reads d' = reads d /\ calls d' = calls d /\
  match r with
  | WTook n => 0 <= n <= zlen l /\ sent d' = sent d ++ take (Z.to_nat n) l
  | _ => sent d' = sent d
  end.
Proof.
  unfold sys_write. pose proof (zlen_nonneg l).
  destruct (writes d) as [|[n| |]]; intros [= <- <-]; cbn; split_and!; try done; lia.
Qed.

Lemma octstr_write_data_ok (c : Connection) :
  conn_ok c ->
  returns (octstr_write_data (outbuf c) (fd c) (outbufpos c)) (fun '(r, d) =>
    fd_no d = fd_no (fd c) /\ reads d = reads (fd c) /\ calls d = calls (fd c) /\
    ((r = -1 /\ sent d = sent (fd c)) \/
     (0 <= r <= zlen (unsent c) /\ sent d = sent (fd c) ++ take (Z.to_nat r) (unsent c)))).
Proof.
  intros H. destruct (co_out c H) as [Ho _]. pose proof (co_outpos c H). unfold octstr_write_data.
  do 2 (apply returns_assert; [pose proof (co_fd c H); lia|]). wp_valid. rewrite (repr_len _ _ Ho).
  pose proof (zlen_nonneg (unsent c)). destruct (Z.leb_spec (zlen (bytes (outbuf c))) (outbufpos c)).
  - cbn. split_and!; try done. right. by rewrite take_0, app_nil_r.
  - destruct (repr_slice _ _ (outbufpos c) (zlen (bytes (outbuf c)) - outbufpos c) Ho) as [Es El]; [lia..|].
    rewrite in_block_true by lia. rewrite Es.
    replace (slice (bytes (outbuf c)) (outbufpos c) (zlen (bytes (outbuf c)) - outbufpos c)) with (unsent c)
      by (unfold slice, unsent; by rewrite take_ge by list_lia).
    destruct (sys_write _ _) as [r d] eqn:E. apply sys_write_ok in E as (E1 & E2 & E3 & E4).
    destruct r; cbn; split_and!; try done; [by right|right|by left]. by rewrite take_0, app_nil_r.
Qed.

Lemma compact_out_ok (c : Connection) (n : Z) :
  conn_ok c ->
  returns (if n / 2 <? outbufpos c
           then b ← octstr_delete (outbuf c) 0 (outbufpos c); Ok (set_out c b 0) else Ok c) (fun c1 =>
    conn_ok c1 /\ unsent c1 = unsent c /\ fd c1 = fd c /\ in_side c1 = in_side c /\
    reg_side c1 = reg_side c /\ same_flags c c1).
Proof.
  intros H. pose proof (co_outpos c H). destruct (_ <? _); [|done].
  eapply returns_seq; [apply (octstr_delete_ok _ _ 0 (outbufpos c) (co_out c H)); long_lia|].
  intros b Hb. destruct (set_out_ok c b _ 0 H Hb) as [Hc Eu]; [split; [lia|apply zlen_nonneg]|]. by cbn.
Qed.

(** Asking for POLLOUT when something waits to be written. *)
Lemma listen_out_ok (c c1 : Connection) :
  conn_ok c1 -> in_side c1 = in_side c -> reg_side c1 = reg_side c -> same_flags c c1 ->
  returns (match registered c1 with
           | Some _ => n ← unlocked_outbuf_len c1; unlocked_register_pollout c1 (0 <? n)
           | None => Ok c1
           end) (fun c' => writing c c' /\ out_side c' = out_side c1).
Proof.
  intros H Ei Er [F1 F2]. pose proof Er as Er1. injection Er1 as Eg _ _ _ _ _.
  injection Ei as Ei1 Ei2 Ei3 Ee. destruct (registered c1) as [set|] eqn:E.
  - rewrite unlocked_outbuf_len_ok by done. bind_red.
    destruct (register_pollout_ok c1 set (0 <? zlen (unsent c1)) H E) as (c' & -> & Hc & Hi & Ho & Hr & _ & L1 & L2).
    cbn. split; [|done]. injection Hi as Hi1 Hi2 Hi3 He. pose proof Hr as Hr1. injection Hr1 as Hg _ _ _ _ _.
    split; [done|]. split; [|split; [unfold in_side|]; congruence]. intros [Pn Pi Po]. split.
    + congruence.
    + rewrite L1, F1, He, Ee. done.
    + rewrite L2, (unsent_same _ _ Ho). intros Hl%Z.ltb_lt E0. rewrite E0 in Hl. by cbn in Hl.
  - cbn. split; [|done]. split; [done|]. split; [|split; [unfold in_side; congruence|done]].
    intros [Pn Pi Po]. destruct (Pn (eq_sym Eg)) as [N1 N2]. split; rewrite ?F1, ?F2, ?N1, ?N2; done.
Qed.

Lemma unlocked_write_ok (c : Connection) :
  conn_ok c -> returns (unlocked_write c) (fun '(r, c') => write_more c r c').
Proof.
  intros H. unfold unlocked_write. eapply returns_seq; [by apply octstr_write_data_ok|].
  intros [r d] (Dn & Dr & Dc & Ds).
  assert (conn_ok (set_fd c d)) as H1 by (apply inside_fd; rewrite ?Dr; try done; apply (co_reads c H)).
  assert (in_side (set_fd c d) = in_side c /\ reg_side (set_fd c d) = reg_side c) as [Ei Er].
  { unfold in_side, reg_side. cbn. by rewrite Dr, Dn. }
  destruct Ds as [[-> Ds]|[Hr Ds]].
  - cbn. split; [|split; [|split; [lia|done]]].
    + split; [by destruct H1|]. split; [|done]. intros [Pn Pi Po]. by split.
    + unfold outgoing. cbn. by rewrite Ds.
  - destruct (Z.ltb_spec r 0); [lia|]. pose proof (co_outpos c H).
    assert (outbufpos c + r <= zlen (bytes (outbuf c))) as Hp by (unfold unsent in Hr; list_lia).
    destruct (set_out_ok (set_fd c d) (outbuf c) _ (outbufpos c + r) H1 (co_out c H)) as [Hc2 Eu2]; [lia|].
    change (outbuf (set_fd c d)) with (outbuf c). change (outbufpos (set_fd c d)) with (outbufpos c).
    cbv zeta. rewrite (buffer_len _ _ (co_out _ Hc2) (co_outpos _ Hc2)). bind_red.
    eapply returns_seq; [by apply compact_out_ok|]. intros c3 (H3 & Eu3 & Ef3 & Ei3 & Er3 & Fl3).
    eapply returns_seq; [by apply (listen_out_ok c); [done|rewrite Ei3|rewrite Er3|]|].
    intros c' [Hw Ho]. cbn. split; [done|]. split; [|lia].
    rewrite (outgoing_same _ _ Ho). unfold outgoing. rewrite Eu3, Ef3, Eu2. cbn. rewrite Ds, <- app_assoc. f_equal.
    unfold unsent. rewrite Z2Nat.inj_add, <- drop_drop by lia. apply take_drop.
Qed.

Lemma unlocked_try_write_ok (c : Connection) :
  conn_ok c ->
  returns (unlocked_try_write c) (fun '(r, c') =>
    write_more c r c' /\ r <= 1 /\ (r = 0 -> unsent c' = [])).
Proof.
  intros H. unfold unlocked_try_write. rewrite unlocked_outbuf_len_ok by done. bind_red.
  destruct (Z.eqb_spec (zlen (unsent c)) 0) as [E|E]; [cbn; split_and!; try done; try lia; intros; by apply zlen_0_inv|].
  destruct (_ <? _); [cbn; split_and!; done || lia|].
  eapply returns_seq; [by apply unlocked_write_ok|]. intros [r c'] (Hw & Ho & Hr & He).
  destruct (Z.ltb_spec r 0); [cbn; assert (r = -1) as -> by lia; unfold write_more; split_and!; done || lia|].
  rewrite unlocked_outbuf_len_ok by apply Hw. bind_red. cbn. pose proof (zlen_nonneg (unsent c')).
  destruct (Z.ltb_spec 0 (zlen (unsent c'))); split_and!; try done; try lia. intros. apply zlen_0_inv. lia.
Qed.

(** [wrote c x r c']: the octets [x] were added to what is to be sent. *)
Definition wrote (c : Connection) (x : list Z) (r : Z) (c' : Connection) : Prop :=
  writing c c' /\ outgoing c' = outgoing c ++ x /\ -1 <= r <= 1 /\ (r = -1 -> io_error c' = 1) /\
  (r = 0 -> unsent c' = []).

Lemma append_out_ok (c : Connection) (b : Octstr) (x : list Z) :
  conn_ok c -> reprm b (bytes (outbuf c) ++ x) ->
  returns (unlocked_try_write (set_out c b (outbufpos c))) (fun '(r, c') => wrote c x r c').
Proof.
  intros H Hb. pose proof (co_outpos c H) as Hp. destruct (set_out_ok c b _ (outbufpos c) H Hb) as [H1 Eu].
  { rewrite zlen_app. pose proof (zlen_nonneg x). lia. }
  rewrite drop_app_le in Eu by list_lia. change (drop _ (bytes (outbuf c))) with (unsent c) in Eu.
  eapply returns_mono; [by apply unlocked_try_write_ok|]. intros [r c'] (((Hc & Hpo & Hi & Hr) & Ho & H0 & He) & Hr1 & Hu).
  split; [|split; [|done || lia]].
  - split; [done|]. split; [|done]. intros [Pn Pi Po]. apply Hpo. split; try done.
    intros Hl. rewrite Eu. specialize (Po Hl). by destruct (unsent c).
  - rewrite Ho. unfold outgoing. by rewrite Eu, app_assoc.
Qed.

Lemma conn_write_ok (c : Connection) (o : Octstr) (s : list Z) :
  conn_ok c -> repr o s -> returns (conn_write c (Some o)) (fun '(r, c') => wrote c s r c').
Proof.
  intros H Ho. unfold conn_write. eapply returns_seq; [by apply (octstr_append_ok _ _ _ _ (co_out c H) Ho)|].
  intros b Hb. by apply append_out_ok.
Qed.

Lemma conn_write_data_ok (c : Connection) (l : list Z) :
  conn_ok c -> octets l -> returns (conn_write_data c l (zlen l)) (fun '(r, c') => wrote c l r c').
Proof.
  intros H Hl. unfold conn_write_data. pose proof (zlen_nonneg l).
  eapply returns_seq; [apply (octstr_append_data_ok _ _ l (zlen l) (co_out c H)); [lia|by apply octets_take]|].
  intros b Hb. rewrite take_ge in Hb by list_lia. by apply append_out_ok.
Qed.

(** A message on the wire of [conn_write_withlen]. *)
Definition frame (s : list Z) : list Z := encode_network_long (zlen s) ++ s.

Lemma conn_write_withlen_ok (c : Connection) (o : Octstr) (s : list Z) :
  conn_ok c -> repr o s -> returns (conn_write_withlen c (Some o)) (fun '(r, c') => wrote c (frame s) r c').
Proof.
  intros H Ho. unfold conn_write_withlen. rewrite (octstr_len_ok _ _ Ho). bind_red.
  eapply returns_seq; [apply (octstr_append_data_ok _ _ (encode_network_long (zlen s)) 4 (co_out c H)); [by cbn|]|].
  { apply octets_take, octets_encode. }
  intros b Hb. eapply returns_seq; [by apply (octstr_append_ok _ _ _ _ Hb Ho)|].
  intros b' Hb'. apply append_out_ok; [done|]. by rewrite <- app_assoc in Hb'.
Qed.

Lemma conn_set_output_buffering_ok (c : Connection) (n : Z) :
  conn_ok c -> returns (conn_set_output_buffering c n) (fun c' => writing c c' /\ outgoing c' = outgoing c).
Proof.
  intros H. unfold conn_set_output_buffering.
  eapply returns_seq; [apply unlocked_try_write_ok; by destruct H|].
  intros [r c'] (((Hc & Hp & Hi & Hr) & Ho & _ & _) & _ & _). cbn. split; [|done].
  split; [done|]. split; [|done]. intros [Pn Pi Po]. by apply Hp.
Qed.

Lemma flush_loop_ok (polls : list poll_result) (c : Connection) :
  conn_ok c ->
  returns (flush_loop c polls) (fun '(r, c') =>
    writing c c' /\ outgoing c' = outgoing c /\ (r = 0 -> unsent c' = [])).
Proof.
  revert c. induction polls as [|p polls IH]; intros c H; cbn [flush_loop];
    rewrite unlocked_outbuf_len_ok by done; bind_red;
    (destruct (Z.eqb_spec (zlen (unsent c)) 0); [cbn; split_and!; try done; intros; by apply zlen_0_inv|]);
    [done|]. destruct p as [[]|ev]; [done..|].
  destruct (_ =? _); [done|]. destruct (has ev POLLNVAL); [done|]. destruct (has ev _); [|by apply IH].
  eapply returns_seq; [by apply unlocked_write_ok|]. intros [r c1] (Hw & Ho & Hr & He).
  destruct (Z.ltb_spec r 0); [done|].
  eapply returns_mono; [apply IH, Hw|]. intros [r' c'] (Hw' & Ho' & Hu).
  split_and!; [by eapply writing_trans|congruence|done].
Qed.

Lemma conn_flush_ok (c : Connection) (polls : list poll_result) :
  conn_ok c ->
  returns (conn_flush c polls) (fun '(r, c') =>
    writing c c' /\ outgoing c' = outgoing c /\ (r = 0 -> unsent c' = [])).
Proof.
  intros H. unfold conn_flush. eapply returns_seq; [by apply unlocked_write_ok|]. intros [r c1] (Hw & Ho & Hr & He).
  destruct (Z.ltb_spec r 0); [done|].
  eapply returns_mono; [apply flush_loop_ok, Hw|]. intros [r' c'] (Hw' & Ho' & Hu).
  split_and!; [by eapply writing_trans|congruence|done].
Qed.

(** ** Reading *)

(** [took c x c']: exactly the octets [x] were taken from the front of the stream. *)
Definition took (c : Connection) (x : list Z) (c' : Connection) : Prop :=
  reading c c' /\ stream c = x ++ stream c'.

Lemma took_trans (c1 c2 c3 : Connection) (x y : list Z) :
  took c1 x c2 -> took c2 y c3 -> took c1 (x ++ y) c3.
Proof. intros [R1 E1] [R2 E2]. split; [by eapply reading_trans|]. by rewrite E1, E2, app_assoc. Qed.

Lemma took_nil (c c' : Connection) : reading c c' -> stream c' = stream c -> took c [] c'.
Proof. by intros R E. Qed.

Lemma read_more_took (c c' : Connection) : read_more c c' -> took c [] c'.
Proof. intros (R & E & _). by apply took_nil. Qed.

(** The buffer may be moved on over its first octets. *)
Lemma skip_in_ok (c : Connection) (n : Z) :
  conn_ok c -> 0 <= n <= zlen (unread c) ->
  took c (take (Z.to_nat n) (unread c)) (set_in c (inbuf c) (inbufpos c + n)) /\
  unread (set_in c (inbuf c) (inbufpos c + n)) = drop (Z.to_nat n) (unread c).
Proof.
  intros H Hn. pose proof (co_inpos _ H).
  destruct (set_in_ok c (inbuf c) _ (inbufpos c + n) H (co_in _ H)) as [Hc Eu]; [unfold unread in Hn; list_lia|].
  rewrite Z2Nat.inj_add, <- drop_drop in Eu by lia. fold (unread c) in Eu. split; [|done]. split.
  - split_and!; try done. intros Hp. by apply (polls_reading c).
  - unfold stream. rewrite Eu. cbn. by rewrite app_assoc, take_drop.
Qed.

Lemma unlocked_get_ok (c : Connection) (n : Z) :
  conn_ok c -> 0 <= n <= zlen (unread c) ->
  returns (unlocked_get c n) (fun '(r, c') =>
    c' = set_in c (inbuf c) (inbufpos c + n) /\ reprm r (take (Z.to_nat n) (unread c)) /\
    took c (take (Z.to_nat n) (unread c)) c' /\ unread c' = drop (Z.to_nat n) (unread c)).
Proof.
  intros H Hn. unfold unlocked_get. rewrite unlocked_inbuf_len_ok by done. bind_red.
  apply returns_assert; [lia|]. pose proof (co_inpos _ H).
  eapply returns_seq; [apply (octstr_copy_ok _ _ (inbufpos c) n (proj1 (co_in _ H))); lia|]. intros r Hr. cbn.
  split; [done|]. split; [done|]. by apply skip_in_ok.
Qed.

(** A read, when the condition [b] asks for one. *)
Lemma maybe_read_ok (c : Connection) (b : bool) :
  conn_ok c -> returns (if b then unlocked_read c else Ok c) (took c []).
Proof.
  intros H. destruct b; [|by apply took_nil].
  eapply returns_mono; [by apply unlocked_read_ok|]. intros c'. apply read_more_took.
Qed.

Lemma conn_read_everything_ok (c : Connection) :
  conn_ok c ->
  returns (conn_read_everything c) (fun '(r, c') =>
    match r with
    | Some o => exists s, reprm o s /\ s <> [] /\ took c s c'
    | None => took c [] c'
    end).
Proof.
  intros H. unfold conn_read_everything. rewrite unlocked_inbuf_len_ok by done. bind_red.
  eapply returns_seq; [by apply maybe_read_ok|]. intros c1 T1. pose proof (proj1 (proj1 T1)) as H1.
  rewrite unlocked_inbuf_len_ok by done. bind_red.
  destruct (Z.eqb_spec (zlen (unread c1)) 0) as [E|E]; [done|]. pose proof (zlen_nonneg (unread c1)).
  eapply returns_seq; [apply (unlocked_get_ok c1 (zlen (unread c1)) H1); lia|]. intros [r c'] (_ & Hr & T & _). cbn.
  rewrite take_ge in Hr, T by list_lia. exists (unread c1). split; [done|].
  split; [by intros E0; rewrite E0 in E|]. by apply (took_trans _ _ _ [] _ T1).
Qed.

Lemma conn_read_fixed_ok (c : Connection) (n : Z) :
  conn_ok c ->
  returns (conn_read_fixed c n) (fun '(r, c') =>
    match r with
    | Some o => exists s, reprm o s /\ zlen s = n /\ took c s c'
    | None => took c [] c' /\ (n < 1 \/ (zlen (unread c') < n /\ progress c c'))
    end).
Proof.
  intros H. unfold conn_read_fixed. destruct (Z.ltb_spec n 1); [split; [by apply took_nil|by left]|].
  rewrite unlocked_inbuf_len_ok by done. bind_red.
  eapply (returns_seq _ _ (fun c1 => took c [] c1 /\ (zlen (unread c1) < n -> progress c c1))).
  { destruct (Z.ltb_spec (zlen (unread c)) n); [|split; [by apply took_nil|lia]].
    eapply returns_mono; [by apply unlocked_read_ok|]. intros c1 R. split; [by apply read_more_took|]. intros _. apply R. }
  intros c1 [T1 Hp]. pose proof (proj1 (proj1 T1)) as H1.
  rewrite unlocked_inbuf_len_ok by done. bind_red. destruct (Z.ltb_spec (zlen (unread c1)) n); [cbn; auto|].
  eapply returns_seq; [apply (unlocked_get_ok c1 n H1); lia|]. intros [r c'] (_ & Hr & T & _). cbn.
  eexists. split; [exact Hr|]. split; [list_lia|]. by apply (took_trans _ _ _ [] _ T1).
Qed.

(** Searching the unread part of the buffer. *)
Lemma search_unread (c : Connection) (ch : Z) :
  conn_ok c -> octet ch ->
  exists p, octstr_search_char (inbuf c) ch (inbufpos c) = Ok p /\
    ((p = -1 /\ Forall (fun x => x <> ch) (unread c)) \/
     exists l rest, unread c = l ++ ch :: rest /\ Forall (fun x => x <> ch) l /\ p = inbufpos c + zlen l).
Proof.
  intros H Hc. pose proof (co_inpos c H).
  rewrite (octstr_search_char_ok _ _ ch _ (proj1 (co_in c H)) Hc) by lia. eexists. split; [done|].
  unfold search_char. fold (unread c). destruct (list_find _ _) as [[i x]|] eqn:E.
  - right. apply list_find_Some in E as (Hi & -> & Hb). exists (take i (unread c)), (drop (S i) (unread c)).
    split; [symmetry; by apply take_drop_middle|]. pose proof (lookup_lt_Some _ _ _ Hi). split; [|list_lia].
    apply Forall_lookup. intros j y [Hy Hj]%lookup_take_Some. by apply (Hb j y).
  - left. split; [done|]. exact (proj1 (list_find_None _ _) E).
Qed.

(** A line without the CR at its end, if it has one. *)
Definition strip_cr (l : list Z) : list Z :=
  if char_at l (zlen l - 1) =? 13 then take (length l - 1) l else l.

Lemma strip_cr_ok (o : Octstr) (l : list Z) :
  reprm o l ->
  returns (if 0 <? zlen l then
             last ← octstr_get_char o (zlen l - 1);
             if last =? 13 then octstr_delete o (zlen l - 1) 1 else Ok o
           else Ok o) (fun o' => reprm o' (strip_cr l)).
Proof.
  intros Ho. unfold strip_cr. destruct (Z.ltb_spec 0 (zlen l)) as [Hl|Hl].
  - rewrite (octstr_get_char_ok _ _ _ (proj1 Ho)). bind_red. destruct (_ =? 13); [|done].
    eapply returns_mono; [apply (octstr_delete_ok _ _ _ _ Ho); long_lia|]. intros o' Ho'.
    unfold cut in Ho'. rewrite drop_ge, app_nil_r in Ho' by list_lia.
    by replace (Z.to_nat (zlen l - 1)) with (length l - 1)%nat in Ho' by list_lia.
  - pose proof (zlen_nonneg l). assert (l = []) as -> by (apply zlen_0_inv; lia). done.
Qed.

Lemma conn_read_line_ok (c : Connection) :
  conn_ok c ->
  returns (conn_read_line c) (fun '(r, c') =>
    match r with
    | Some o => exists l, Forall (fun x => x <> 10) l /\ reprm o (strip_cr l) /\ took c (l ++ [10]) c'
    | None => took c [] c' /\ Forall (fun x => x <> 10) (unread c') /\ progress c c'
    end).
Proof.
  intros H. unfold conn_read_line.
  destruct (search_unread c 10 H) as (p & -> & Hp); [done|]. bind_red. pose proof (co_inpos c H).
  eapply (returns_seq _ _ (fun '(p1, c1) => took c [] c1 /\
    ((p1 = -1 /\ Forall (fun x => x <> 10) (unread c1) /\ progress c c1) \/
     exists l rest, unread c1 = l ++ 10 :: rest /\ Forall (fun x => x <> 10) l /\ p1 = inbufpos c1 + zlen l))).
  { destruct (Z.ltb_spec p 0); [|split; [by apply took_nil|right; destruct Hp as [[-> _]|Hp]; [lia|done]]].
    eapply returns_seq; [by apply unlocked_read_ok|]. intros c1 R1. pose proof (proj1 (proj1 R1)) as Hc1.
    destruct (search_unread c1 10 Hc1) as (p1 & -> & Hp1); [done|]. bind_red. split; [by apply read_more_took|].
    destruct Hp1 as [[-> Hn]|Hp1]; [left|by right]. split_and!; [done..|apply R1]. }
  intros [p1 c1] [T1 Hp1]. pose proof (proj1 (proj1 T1)) as Hc1. pose proof (co_inpos c1 Hc1).
  destruct Hp1 as [(-> & Hn)|(l & rest & Eu & Hn & ->)]; [done|]. pose proof (zlen_nonneg l).
  destruct (Z.ltb_spec (inbufpos c1 + zlen l) 0); [lia|].
  assert (zlen l + 1 <= zlen (unread c1)) as Hl by (rewrite Eu; list_lia).
  eapply returns_seq; [apply (unlocked_get_ok c1 _ Hc1); lia|]. intros [r c2] (E2 & Hr & T2 & Eu2).
  replace (inbufpos c1 + zlen l - inbufpos c1) with (zlen l) in * by lia.
  pose proof (proj1 (proj1 T2)) as Hc2. destruct (skip_in_ok c2 1 Hc2) as [T3 _].
  { rewrite Eu2. list_lia. }
  set (c3 := set_in c2 _ _) in *. clearbody c3. unfold zlen in Hr, T2, Eu2. rewrite Nat2Z.id, Eu in Hr, T2, Eu2.
  rewrite take_app_length in Hr, T2. rewrite drop_app_length in Eu2. rewrite Eu2 in T3.
  rewrite (octstr_len_ok _ _ (proj1 Hr)). bind_red. eapply returns_seq; [by apply strip_cr_ok|].
  intros o Ho. cbn. exists l. split; [done|]. split; [done|].
  apply (took_trans _ _ _ [] _ T1), (took_trans _ _ _ _ _ T2), T3.
Qed.

(** Length words that [conn_read_withlen] passes over: the ones it takes for
    negative numbers. *)
Inductive skipped : list Z -> Prop :=
| skipped_nil : skipped []
| skipped_cons b0 b1 b2 b3 l : 128 <= b0 -> octets [b0; b1; b2; b3] -> skipped l ->
    skipped (b0 :: b1 :: b2 :: b3 :: l).

(** No whole message yet: not the four octets of the length, or fewer octets than it
    announces. *)
Definition incomplete (l : list Z) : Prop :=
  zlen l < 4 \/ exists n rest, 0 <= n < 2 ^ 31 /\ l = encode_network_long n ++ rest /\ zlen rest < n.

Lemma be_value_4 (b0 b1 b2 b3 : Z) :
  be_value [b0; b1; b2; b3] = b0 * 2 ^ 24 + b1 * 2 ^ 16 + b2 * 2 ^ 8 + b3.
Proof. unfold be_value. cbn [fold_left]. lia. Qed.

Lemma encode_word (b0 b1 b2 b3 : Z) :
  octets [b0; b1; b2; b3] -> encode_network_long (be_value [b0; b1; b2; b3]) = [b0; b1; b2; b3].
Proof.
  intros Ho. octets_inv. unfold octet in *. rewrite be_value_4. unfold encode_network_long.
  change 255 with (2 ^ 8 - 1). rewrite !land_mask, !Z.shiftr_div_pow2 by lia.
  rewrite (Z.mod_small _ (2 ^ 64)) by lia. f_equal; [|f_equal; [|f_equal; [|f_equal]]];
    Z.div_mod_to_equations; lia.
Qed.

Lemma word_value (b0 b1 b2 b3 : Z) :
  octets [b0; b1; b2; b3] -> let n := int32 (be_value [b0; b1; b2; b3]) in
  (n < 0 /\ 128 <= b0) \/ (0 <= n < 2 ^ 31 /\ b0 < 128 /\ encode_network_long n = [b0; b1; b2; b3]).
Proof.
  intros Ho n. pose proof (encode_word _ _ _ _ Ho) as E. octets_inv. unfold octet in *.
  unfold n, int32. rewrite be_value_4 in *. destruct (Z.ltb_spec b0 128) as [Hb|Hb].
  - right. rewrite Z.mod_small by lia. split; [lia|]. split; [done|]. rewrite <- E. f_equal. lia.
  - left. split; [|done].
    replace (_ + 2 ^ 31) with (b0 * 2 ^ 24 + b1 * 2 ^ 16 + b2 * 2 ^ 8 + b3 - 2 ^ 31 + 1 * 2 ^ 32) by lia.
    rewrite Z.mod_add, Z.mod_small by lia. lia.
Qed.

Lemma unread_octets (c : Connection) : conn_ok c -> octets (unread c).
Proof. intros H. apply octets_drop. apply (reprm_octets _ _ (co_in c H)). Qed.

Lemma four_octets (l : list Z) :
  4 <= zlen l -> exists b0 b1 b2 b3 r, l = b0 :: b1 :: b2 :: b3 :: r.
Proof. destruct l as [|b0 [|b1 [|b2 [|b3 r]]]]; try list_lia. intros _. by exists b0, b1, b2, b3, r. Qed.

Lemma get_length_ok (fuel : nat) (c : Connection) (len0 : Z) :
  conn_ok c -> 0 <= len0 -> (length (unread c) < fuel)%nat ->
  returns (get_length c len0 fuel) (fun '(len, c') => exists k, skipped k /\ took c k c' /\ fd c' = fd c /\ 0 <= len /\
    ((zlen (unread c') < 4) \/ (len < 2 ^ 31 /\ exists rest, unread c' = encode_network_long len ++ rest))).
Proof.
  revert c len0. induction fuel as [|fuel IH]; intros c len0 H Hl Hf; [lia|]. cbn [get_length].
  rewrite unlocked_inbuf_len_ok by done. bind_red. destruct (Z.ltb_spec (zlen (unread c)) 4) as [Hn|Hn].
  { exists []. split; [constructor|]. split; [by apply took_nil|]. auto. }
  pose proof (co_inpos c H).
  rewrite (octstr_get_many_chars_ok (gw_malloc 4) _ _ (inbufpos c) 4 (proj1 (co_in c H)))
    by (done || lia || (unfold unread in Hn; list_lia)). bind_red. unfold slice. fold (unread c).
  pose proof (unread_octets c H) as Ho. destruct (skip_in_ok c 4 H) as [T E]; [lia|].
  destruct (four_octets _ Hn) as (b0 & b1 & b2 & b3 & r & Er). rewrite Er in Ho, T, E, Hf |- *.
  cbn [take drop Z.to_nat Pos.to_nat Pos.iter_op Nat.add] in *. change (Z.to_nat 4) with 4%nat in *. cbn [take drop] in *.
  assert (octets [b0; b1; b2; b3]) as H4 by (octets_inv; octets_tac).
  rewrite decode_be_value by done. bind_red. destruct (word_value _ _ _ _ H4) as [[Hneg Hb]|(Hn0 & _ & Ew)].
  - destruct (Z.ltb_spec (int32 (be_value [b0; b1; b2; b3])) 0); [|lia].
    eapply returns_mono; [apply (IH _ 0 (proj1 (proj1 T))); [lia|rewrite E; list_lia]|].
    intros [len c'] (k & Hk & Tk & Hr). exists ([b0; b1; b2; b3] ++ k).
    split; [by constructor|]. split; [by eapply took_trans|exact Hr].
  - destruct (Z.ltb_spec (int32 (be_value [b0; b1; b2; b3])) 0); [lia|]. cbn [returns].
    exists []. split; [constructor|]. split; [by apply took_nil|]. split; [done|]. split; [lia|]. right. split; [lia|].
    exists r. rewrite Ew. exact Er.
Qed.

Lemma withlen_try_ok (c : Connection) (len0 : Z) :
  conn_ok c -> 0 <= len0 ->
  returns (withlen_try c len0) (fun t => exists k, skipped k /\
    match t with
    | inl (len, c') => 0 <= len /\ took c k c' /\ fd c' = fd c /\ incomplete (unread c')
    | inr (o, c') => exists s, reprm o s /\ zlen s < 2 ^ 31 /\ took c (k ++ frame s) c' /\ fd c' = fd c
    end).
Proof.
  intros H Hl. unfold withlen_try. rewrite unlocked_inbuf_len_ok by done. bind_red.
  eapply returns_seq; [apply get_length_ok; [done..|list_lia]|].
  intros [len c1] (k & Hk & T & Ef & Hl0 & Hu). pose proof (proj1 (proj1 T)) as H1.
  rewrite unlocked_inbuf_len_ok by done. bind_red.
  destruct (Z.ltb_spec (zlen (unread c1) - 4) len) as [Hn|Hn].
  - exists k. split; [done|]. split; [done|]. split; [done|]. split; [done|].
    destruct Hu as [Hu|(Hm & rest & Eu)]; [by left|]. right. exists len, rest.
    rewrite Eu, zlen_app, zlen_encode in Hn. split_and!; done || lia.
  - destruct Hu as [Hu|(Hm & rest & Eu)]; [lia|].
    destruct (skip_in_ok c1 4 H1) as [T4 E4]; [lia|]. rewrite Eu in T4, E4.
    change (Z.to_nat 4) with (length (encode_network_long len)) in T4, E4.
    rewrite take_app_length in T4. rewrite drop_app_length in E4.
    assert (len <= zlen rest) as Hr by (rewrite Eu, zlen_app, zlen_encode in Hn; lia).
    eapply returns_seq; [apply (unlocked_get_ok _ len (proj1 (proj1 T4))); rewrite E4; lia|].
    intros [r c'] (-> & Hr' & T' & _). cbn [returns]. rewrite E4 in Hr', T'.
    exists k. split; [done|]. exists (take (Z.to_nat len) rest). split; [done|].
    assert (zlen (take (Z.to_nat len) rest) = len) as Ez by list_lia. split; [lia|].
    split; [|done]. unfold frame. rewrite Ez. eapply took_trans; [done|]. by eapply took_trans.
Qed.

Lemma skipped_app (k l : list Z) : skipped k -> skipped l -> skipped (k ++ l).
Proof. induction 1; [done|]. intros. cbn. constructor; auto. Qed.

Lemma conn_read_withlen_ok (c : Connection) :
  conn_ok c ->
  returns (conn_read_withlen c) (fun '(r, c') => exists k, skipped k /\
    match r with
    | Some o => exists s, reprm o s /\ zlen s < 2 ^ 31 /\ took c (k ++ frame s) c'
    | None => took c k c' /\ incomplete (unread c') /\ progress c c'
    end).
Proof.
  intros H. unfold conn_read_withlen. eapply returns_seq; [by apply (withlen_try_ok c 0 H)|].
  intros [[len c1]|[o c1]] (k & Hk & Ht).
  - destruct Ht as (Hl & T1 & Ef & _). eapply returns_seq; [apply unlocked_read_ok, T1|].
    intros c2 R. pose proof (read_more_took _ _ R) as T2. destruct R as (_ & _ & _ & Hd). unfold progress in *. rewrite Ef in Hd.
    eapply returns_seq; [by apply (withlen_try_ok c2 len (proj1 (proj1 T2)))|].
    intros [[len' c']|[o c']] (k' & Hk' & Ht'); cbn [returns]; exists (k ++ k');
      (split; [by apply skipped_app|]).
    + destruct Ht' as (_ & T3 & Ef3 & Hi). rewrite Ef3. split; [|done].
      eapply took_trans; [done|]. by apply (took_trans _ _ _ [] _ T2).
    + destruct Ht' as (s & Hs & Hz & T3 & Ef3). exists s. rewrite <- app_assoc. split_and!; try done.
      eapply took_trans; [done|]. by apply (took_trans _ _ _ [] _ T2).
  - destruct Ht as (s & Hs & Hz & T & Ef). cbn [returns]. exists k. split; [done|]. by exists s.
Qed.

(** What [conn_read_packet] passes over to find the start mark, and what it returns. *)
Definition no_start (startmark : Z) (l : list Z) : Prop :=
  if 0 <=? startmark then Forall (fun x => x <> startmark) l else l = [].

Definition is_packet (startmark endmark : Z) (l : list Z) : Prop :=
  (0 <= startmark -> head l = Some startmark) /\
  exists body, l = body ++ [endmark] /\ Forall (fun x => x <> endmark) body.

Definition mark_ok (startmark : Z) : Prop := startmark < 0 \/ octet startmark.

Lemma no_start_app (m : Z) (k l : list Z) : no_start m k -> no_start m l -> no_start m (k ++ l).
Proof. unfold no_start. destruct (0 <=? m); [apply Forall_app_2|]. by intros -> ->. Qed.

(** The search for the start mark. *)
Lemma find_start_ok (c : Connection) (startmark : Z) :
  conn_ok c -> mark_ok startmark ->
  returns (if 0 <=? startmark then
             startpos ← octstr_search_char (inbuf c) startmark (inbufpos c);
             if startpos <? 0 then
               n ← octstr_len (Some (inbuf c)); Ok (inl (set_in c (inbuf c) n))
             else Ok (inr (startpos, set_in c (inbuf c) startpos))
           else Ok (inr (inbufpos c, c))) (fun s => exists k, no_start startmark k /\
    match s with
    | inl c' => took c k c'
    | inr (p, c') => took c k c' /\ p = inbufpos c' /\ (0 <= startmark -> head (unread c') = Some startmark)
    end).
Proof.
  intros H Hm. unfold no_start. destruct (Z.leb_spec 0 startmark) as [Hs|Hs].
  - destruct Hm as [Hm|Hm]; [lia|]. pose proof (co_inpos c H).
    destruct (search_unread c startmark H Hm) as (p & -> & [[-> Hn]|(l & rest & Eu & Hn & ->)]); bind_red.
    + cbn [Z.ltb Z.compare]. rewrite (buffer_len _ _ (co_in c H) (co_inpos c H)). bind_red. cbn.
      exists (unread c). split; [done|]. destruct (skip_in_ok c (zlen (unread c)) H) as [T _]; [pose proof (zlen_nonneg (unread c)); lia|].
      by rewrite take_ge in T by list_lia.
    + pose proof (zlen_nonneg l). destruct (Z.ltb_spec (inbufpos c + zlen l) 0); [lia|]. cbn.
      destruct (skip_in_ok c (zlen l) H) as [T E]; [rewrite Eu; list_lia|].
      unfold zlen in T, E |- *. rewrite Nat2Z.id, Eu in T, E. rewrite take_app_length in T. rewrite drop_app_length in E.
      exists l. split; [done|]. split; [done|]. split; [done|]. intros _. by rewrite E.
  - cbn. exists []. split; [done|]. split; [by apply took_nil|]. split; [done|lia].
Qed.

Lemma packet_try_ok (c : Connection) (startmark endmark : Z) :
  conn_ok c -> mark_ok startmark -> octet endmark ->
  returns (packet_try c startmark endmark) (fun t => exists k, no_start startmark k /\
    match t with
    | inl c' => took c k c'
    | inr (o, c') => exists s, reprm o s /\ is_packet startmark endmark s /\ took c (k ++ s) c'
    end).
Proof.
  intros H Hm He. unfold packet_try. eapply returns_seq; [by apply find_start_ok|].
  intros [c1|[p c1]] (k & Hk & T1); [by exists k|]. destruct T1 as (T1 & -> & Hh). pose proof (proj1 (proj1 T1)) as H1.
  destruct (search_unread c1 endmark H1 He) as (p & -> & [[-> Hn]|(l & rest & Eu & Hn & ->)]); bind_red; [by exists k|].
  pose proof (zlen_nonneg l). pose proof (co_inpos c1 H1). destruct (Z.ltb_spec (inbufpos c1 + zlen l) 0); [lia|].
  replace (inbufpos c1 + zlen l - inbufpos c1 + 1) with (zlen (l ++ [endmark])) by list_lia.
  replace (l ++ endmark :: rest) with ((l ++ [endmark]) ++ rest) in Eu by by rewrite <- app_assoc.
  eapply returns_seq; [apply (unlocked_get_ok c1 _ H1); rewrite Eu; list_lia|]. intros [r c'] (_ & Hr & T2 & _). cbn.
  exists k. split; [done|]. unfold zlen in Hr, T2. rewrite Nat2Z.id, Eu, take_app_length in Hr, T2.
  exists (l ++ [endmark]). split; [done|]. split; [|by eapply took_trans]. split; [|by exists l].
  intros Hs. specialize (Hh Hs). rewrite Eu in Hh. by destruct l.
Qed.

Lemma conn_read_packet_ok (c : Connection) (startmark endmark : Z) :
  conn_ok c -> mark_ok startmark -> octet endmark ->
  returns (conn_read_packet c startmark endmark) (fun '(r, c') => exists k, no_start startmark k /\
    match r with
    | Some o => exists s, reprm o s /\ is_packet startmark endmark s /\ took c (k ++ s) c'
    | None => took c k c'
    end).
Proof.
  intros H Hm He. unfold conn_read_packet. eapply returns_seq; [by apply packet_try_ok|].
  intros [c1|[o c1]] (k & Hk & T); [|by exists k].
  eapply returns_seq; [apply unlocked_read_ok, T|]. intros c2 T2%read_more_took.
  eapply returns_seq; [by apply (packet_try_ok c2 startmark endmark (proj1 (proj1 T2)))|].
  intros [c'|[o c']] (k' & Hk' & T'); cbn [returns]; exists (k ++ k'); (split; [by apply no_start_app|]).
  - eapply took_trans; [done|]. by apply (took_trans _ _ _ [] _ T2).
  - destruct T' as (s & Hs & Hp & T'). exists s. split; [done|]. split; [done|]. rewrite <- app_assoc.
    eapply took_trans; [done|]. by apply (took_trans _ _ _ [] _ T2).
Qed.

(** ** Events *)

(** A step that moves octets along but neither takes nor adds any. *)
Definition steady (c c' : Connection) : Prop :=
  conn_ok c' /\ (polls_ok c -> polls_ok c') /\ stream c' = stream c /\ outgoing c' = outgoing c /\
  connected c' = connected c /\ (reads_left (reads (fd c')) <= reads_left (reads (fd c)))%nat.

Lemma steady_trans (c1 c2 c3 : Connection) : steady c1 c2 -> steady c2 c3 -> steady c1 c3.
Proof. intros (? & ? & ? & ? & ? & ?) (? & ? & ? & ? & ? & ?). split_and!; [done|auto|congruence..|lia]. Qed.

Lemma steady_refl (c : Connection) : conn_ok c -> steady c c.
Proof. done. Qed.

Lemma read_more_steady (c c' : Connection) : read_more c c' -> steady c c'.
Proof.
  intros ((? & ? & Ho & [= _ _ _ _ Ec _] & _) & ? & _ & Hl). split_and!; try done; [by apply outgoing_same|].
  destruct Hl as [Hl|[-> ->]]; [lia|done].
Qed.

Lemma write_more_steady (c c' : Connection) (r : Z) : write_more c r c' -> steady c c'.
Proof.
  intros ((? & ? & Hi & [= _ _ _ _ Ec _]) & ? & _). split_and!; try done; [by apply stream_same|].
  by injection Hi as _ _ -> _.
Qed.

Lemma steady_read (b : bool) (c0 c : Connection) :
  steady c0 c -> returns (if b then unlocked_read c else Ok c) (steady c0).
Proof.
  intros S. destruct b; [|done]. eapply returns_mono; [apply unlocked_read_ok, S|].
  intros c' R%read_more_steady. by eapply steady_trans.
Qed.

(** What makes a wait fail, and what makes it time out. *)
Definition poll_fails (p : poll_result) : Prop :=
  match p with
  | PollError eintr => eintr = false
  | PollEvents ev => has ev (Z.lor POLLNVAL (Z.lor POLLERR POLLHUP)) = true
  end.

Lemma has_lor (ev a b : Z) : has ev (Z.lor a b) = has ev a || has ev b.
Proof.
  unfold has. rewrite Z.land_lor_distr_r. destruct (Z.eqb_spec (Z.land ev a) 0) as [->|Ha]; [done|]. cbn.
  destruct (Z.eqb_spec (Z.lor (Z.land ev a) (Z.land ev b)) 0) as [E|]; [|done]. by apply Z.lor_eq_0_iff in E as [? _].
Qed.

Lemma conn_wait_ok (c : Connection) (polled : Z -> poll_result) :
  conn_ok c -> returns (conn_wait c polled) (fun '(r, c') => steady c c' /\
    (r < 0 -> io_error c' = 1 \/ exists ev, poll_fails (polled ev)) /\
    (r = 1 -> exists ev, polled ev = PollEvents 0)).
Proof.
  intros H. unfold conn_wait. eapply returns_seq; [by apply unlocked_write_ok|].
  intros [r c1] W. pose proof (write_more_steady _ _ _ W) as S. destruct W as (_ & _ & Hr & He).
  destruct (Z.ltb_spec r 0); [cbn; split_and!; try done; intros _; left; apply He; lia|].
  destruct (_ <? _); [cbn; split_and!; done || lia|].
  rewrite unlocked_outbuf_len_ok by apply S. bind_red. set (events := if _ || _ then _ else _). clearbody events.
  destruct (polled events) as [eintr|ev] eqn:Ep.
  { cbn. split; [done|]. split; [|by destruct eintr]. destruct eintr; [done|]. right. exists events. by rewrite Ep. }
  destruct (Z.eqb_spec ev 0) as [->|_]; [cbn; split_and!; try done; by exists events|].
  destruct (has ev POLLNVAL) eqn:Ev; [cbn; split_and!; try done; right; exists events; by rewrite Ep; cbn; rewrite has_lor, Ev|].
  destruct (has ev (Z.lor POLLERR POLLHUP)) eqn:Eh.
  - eapply returns_seq; [by apply (steady_read true c c1)|]. intros c' S'. cbn. split_and!; try done. right. exists events.
    rewrite Ep. unfold poll_fails. by rewrite has_lor, Eh, orb_true_r.
  - eapply (returns_seq _ _ (steady c)).
    + destruct (has ev POLLOUT); [|done]. eapply returns_seq; [apply unlocked_write_ok, S|].
      intros [r2 c2] W2%write_more_steady. by eapply steady_trans.
    + intros c2 S2. eapply returns_seq; [by apply (steady_read _ c c2)|]. by intros c'.
Qed.

(** Calls of the callback and of the destructors change nothing here. *)
Definition foreign (x : fd_call) : Prop :=
  match x with call_back _ _ | destroy_data _ _ => True | _ => False end.

Lemma notify_foreign (c : Connection) (x : fd_call) :
  foreign x -> conn_ok c -> conn_ok (notify c x) /\ watched (notify c x) = watched c.
Proof.
  intros Hx [? ? ? ? ? ? W]. assert (watched (notify c x) = watched c) as E.
  { unfold watched. cbn. rewrite fold_left_app. by destruct x. }
  split; [|done]. split; try done. by rewrite E.
Qed.

Lemma notify_steady (c : Connection) (x : fd_call) : foreign x -> conn_ok c -> steady c (notify c x).
Proof. intros Hx H. split; [by apply notify_foreign|]. split; [|done]. intros [? ? ?]. by split. Qed.

Lemma run_callback_steady (c : Connection) : conn_ok c -> steady c (run_callback c).
Proof. intros H. unfold run_callback. destruct (callback c); [by apply notify_steady|done]. Qed.

(** A registered connection that listens is registered. *)
Lemma poll_error_ok (c : Connection) (revents : Z) :
  conn_ok c -> polls_ok c -> returns (poll_error c revents) (fun '(c', _) => steady c c').
Proof.
  intros H P. unfold poll_error. destruct (has _ _); [|done].
  eapply (returns_seq _ _ (fun c1 => steady c c1 /\ reg_side c1 = reg_side c)).
  { destruct (listening_pollin c) eqn:E; [|done]. destruct (registered c) as [set|] eqn:Er; [|by destruct (po_none c P Er); congruence].
    destruct (register_pollin_off c set H Er) as (c1 & -> & H1 & Ei & Eo & Eg & _ & L1 & L2). cbn.
    split; [|done]. split; [done|].
    split; [|split; [by apply stream_same|split; [by apply outgoing_same|split; [by injection Eg|by injection Ei as _ _ -> _]]]].
    intros _. apply (polls_stopped c); try done. by rewrite L1, Er. }
  intros c1 [S1 Eg1]. pose proof (proj1 (proj2 S1) P) as P1.
  eapply (returns_seq _ _ (fun c2 => steady c c2)).
  { destruct (listening_pollout c1) eqn:E; [|done].
    destruct (registered c1) as [set|] eqn:Er; [|by destruct (po_none c1 P1 Er); congruence].
    destruct (register_pollout_ok c1 set false (proj1 S1) Er) as (c2 & -> & H2 & Ei & Eo & Eg & _ & L1 & L2). cbn.
    eapply steady_trans; [exact S1|]. split; [done|].
    split; [|split; [by apply stream_same|split; [by apply outgoing_same|split; [by injection Eg|by injection Ei as _ _ -> _]]]].
    injection Eg as Eg _ _ _ _ _. injection Ei as _ _ _ Ee. intros [Pn Pi Po]. split; rewrite ?Eg, ?L1, ?L2, ?Ee; naive_solver. }
  intros c2 S2. cbn. eapply steady_trans; [exact S2|]. destruct S2 as ([] & _). split; [by split|].
  split; [|done]. intros [? ? ?]. by split.
Qed.

Lemma poll_callback_ok (no revents : Z) (c : Connection) :
  conn_ok c -> polls_ok c -> returns (poll_callback no revents c) (steady c).
Proof.
  intros H P. unfold poll_callback. destruct (negb _); [done|]. destruct (negb _); [by apply run_callback_steady|].
  eapply returns_seq; [by apply poll_error_ok|]. intros [c1 b1] S1. cbn [fst snd].
  eapply (returns_seq _ _ (fun '(c2, _) => steady c c2)).
  { unfold poll_out. destruct (has _ _); [|done]. eapply returns_seq; [apply unlocked_write_ok, S1|].
    intros [r c2] W%write_more_steady. rewrite unlocked_outbuf_len_ok by apply W. bind_red. by eapply steady_trans. }
  intros [c2 b2] S2. cbn [fst snd]. eapply (returns_seq _ _ (fun '(c3, _) => steady c c3)).
  { unfold poll_in. destruct (has _ _); [|done]. eapply returns_seq; [by apply (steady_read true c c2)|]. by intros c3. }
  intros [c3 b3] S3. destruct b3; [|done]. cbn. eapply steady_trans; [exact S3|]. apply run_callback_steady, S3.
Qed.

(** ** Registration *)

Lemma conn_register_ok (c : Connection) (set cb : Z) (data destroyer : option Z) :
  conn_ok c -> polls_ok c -> connected c = true ->
  returns (conn_register_real c set cb data destroyer) (fun '(r, c') =>
    steady c c' /\ (r = 0 -> registered c' = Some set)).
Proof.
  intros H P Hc. unfold conn_register_real. destruct (_ <? 0); [by split; [|lia]|].
  case_decide as Er.
  - cbn. split; [|by cbn]. eapply (steady_trans _ (if decide (callback_data c = data) then c else destroy_old c)).
    { case_decide; [done|]. unfold destroy_old. destruct (callback_data c), (callback_data_destroyer c); try done.
      by apply notify_steady. }
    set (c1 := if decide _ then c else _).
    assert (conn_ok c1 /\ watched c1 = watched c /\ fd_no (fd c1) = fd_no (fd c) /\ in_side c1 = in_side c /\
      out_side c1 = out_side c /\ same_flags c c1 /\ registered c1 = registered c) as (H1 & W & _ & _ & _ & [F1 F2] & R1).
    { unfold c1, destroy_old. case_decide; [done|]. destruct (callback_data c) as [x|], (callback_data_destroyer c) as [f|]; try done.
      by destruct (notify_foreign c (destroy_data f x) I H) as [? ?]. }
    clearbody c1. split; [|split; [|done]].
    + destruct H1 as [? ? ? ? ? ? W1]. split; try done. unfold watched in *. cbn. rewrite W1, R1. unfold listening. cbn. by rewrite F1, F2.
    + intros [Pn Pi Po]. rewrite R1, F1, F2 in Pn. rewrite F1 in Pi. rewrite F2 in Po. by split.
  - destruct (registered c) as [s|] eqn:En; [by split; [|lia]|].
    rewrite unlocked_outbuf_len_ok by done. bind_red. rewrite Hc. cbn [returns]. split; [|done].
    destruct H as [? ? ? ? ? ? W]. rewrite En in W. split; [|split; [|done]].
    + split; try done. unfold watched in *. cbn. rewrite fold_left_app, W. cbn. unfold listening. cbn.
      by destruct (_ && _), (0 <? _).
    + intros [Pn Pi Po]. split; cbn; [done|..].
      * destruct (Z.eqb_spec (read_eof c) 0); [done|]. cbn. by destruct (0 <? _).
      * destruct (Z.ltb_spec 0 (zlen (unsent c))) as [Hl|Hl]; [|by destruct (_ && _)].
        intros _ E. unfold unsent in E. cbn in E. fold (unsent c) in E. rewrite E in Hl. by cbn in Hl.
Qed.

Lemma conn_unregister_ok (c : Connection) :
  conn_ok c -> steady c (conn_unregister c) /\ registered (conn_unregister c) = None.
Proof.
  intros H. unfold conn_unregister. destruct (Z.ltb_spec (fd_no (fd c)) 0); [by destruct H; lia|].
  destruct (registered c) as [set|] eqn:Er; [|done].
  assert (steady c (notify (set_registration c None None None None false false) (fdset_unregister set))) as S.
  { destruct H as [? ? ? ? ? ? W]. split; [|split; [|done]].
    - split; try done. unfold watched in *. cbn. by rewrite fold_left_app.
    - intros _. by split. }
  destruct (callback_data c), (callback_data_destroyer c); (split; [|done]); try exact S.
  eapply steady_trans; [exact S|]. apply notify_steady; [done|apply S].
Qed.

Lemma conn_wrap_fd_ok (d : Fd) :
  0 <= fd_no d -> octets (arriving (reads d)) -> calls d = [] ->
  returns (conn_wrap_fd d true) (fun r => exists c, r = Some c /\ conn_ok c /\ polls_ok c /\ connected c = true /\
    fd c = d /\ unread c = [] /\ unsent c = []).
Proof.
  intros Hd Hr Hc. unfold conn_wrap_fd. cbn [negb].
  do 2 (eapply returns_seq; [by apply (octstr_create_ok [])|]; intros ? [? ?]).
  cbn. eexists. split; [done|].
  assert (bytes a = [] /\ bytes a0 = []) as [Ea Ea0] by (split; by apply repr_bytes).
  split; [|split; [by split|split_and!; try done; unfold unread, unsent; cbn; by rewrite ?Ea, ?Ea0]].
  split; cbn; rewrite ?Ea, ?Ea0; try done. unfold watched. cbn. by rewrite Hc.
Qed.

(** ** Connections under any use *)

Inductive conn_op :=
| OpWrite (data : Octstr)
| OpWriteData (data : list Z)
| OpWriteWithlen (data : Octstr)
| OpSetBuffering (size : Z)
| OpFlush (polls : list poll_result)
| OpWait (polled : Z -> poll_result)
| OpPoll (no revents : Z)
| OpRegister (set cb : Z) (data destroyer : option Z)
| OpUnregister
| OpReadEverything
| OpReadFixed (length : Z)
| OpReadLine
| OpReadWithlen
| OpReadPacket (startmark endmark : Z).

(** What an operation returns: a code, or an octet string or NULL. *)
Inductive conn_out := Code (r : Z) | Got (o : option Octstr).

Definition code (m : res (Z * Connection)) : res (conn_out * Connection) :=
  '(r, c) ← m; Ok (Code r, c).
Definition got (m : res (option Octstr * Connection)) : res (conn_out * Connection) :=
  '(o, c) ← m; Ok (Got o, c).
Definition done_with (m : res Connection) : res (conn_out * Connection) :=
  c ← m; Ok (Code 0, c).

Definition run_conn_op (c : Connection) (op : conn_op) : res (conn_out * Connection) :=
  match op with
  | OpWrite o => code (conn_write c (Some o))
  | OpWriteData l => code (conn_write_data c l (zlen l))
  | OpWriteWithlen o => code (conn_write_withlen c (Some o))
  | OpSetBuffering n => done_with (conn_set_output_buffering c n)
  | OpFlush polls => code (conn_flush c polls)
  | OpWait polled => code (conn_wait c polled)
  | OpPoll no revents => done_with (poll_callback no revents c)
  | OpRegister set cb data destroyer => code (conn_register_real c set cb data destroyer)
  | OpUnregister => done_with (Ok (conn_unregister c))
  | OpReadEverything => got (conn_read_everything c)
  | OpReadFixed n => got (conn_read_fixed c n)
  | OpReadLine => got (conn_read_line c)
  | OpReadWithlen => got (conn_read_withlen c)
  | OpReadPacket a b => got (conn_read_packet c a b)
  end.

Fixpoint run_conn_ops (c : Connection) (ops : list conn_op) : res (list conn_out * Connection) :=
  match ops with
  | [] => Ok ([], c)
  | op :: ops =>
      '(x, c) ← run_conn_op c op;
      '(xs, c) ← run_conn_ops c ops;
      Ok (x :: xs, c)
  end.

(** Arguments the operations accept. *)
Definition conn_op_ok (op : conn_op) : Prop :=
  match op with
  | OpWrite o | OpWriteWithlen o => repr o (bytes o)
  | OpWriteData l => octets l
  | OpReadPacket a b => mark_ok a /\ octet b
  | _ => True
  end.

(** The octets an operation adds to what is to be sent. *)
Definition op_writes (op : conn_op) : list Z :=
  match op with
  | OpWrite o => bytes o
  | OpWriteData l => l
  | OpWriteWithlen o => frame (bytes o)
  | _ => []
  end.

(** The octets [x] an operation takes from the stream, given what it returns. *)
Definition op_takes (op : conn_op) (r : conn_out) (x : list Z) : Prop :=
  match op, r with
  | OpReadEverything, Got (Some o) => reprm o x /\ x <> []
  | OpReadFixed n, Got (Some o) => reprm o x /\ zlen x = n
  | OpReadLine, Got (Some o) =>
      exists l, x = l ++ [10] /\ Forall (fun b => b <> 10) l /\ reprm o (strip_cr l)
  | OpReadWithlen, Got (Some o) => exists k s, x = k ++ frame s /\ skipped k /\ reprm o s
  | OpReadWithlen, Got None => skipped x
  | OpReadPacket a b, Got (Some o) =>
      exists k s, x = k ++ s /\ no_start a k /\ is_packet a b s /\ reprm o s
  | OpReadPacket a b, Got None => no_start a x
  | _, _ => x = []
  end.

(** An operation that reads, and one that writes, as a step of the connection. *)
Definition conn_step (c : Connection) (w x : list Z) (c' : Connection) : Prop :=
  conn_ok c' /\ polls_ok c' /\ connected c' = true /\ outgoing c' = outgoing c ++ w /\ stream c = x ++ stream c'.

Lemma took_step (c : Connection) (x : list Z) (c' : Connection) :
  polls_ok c -> connected c = true -> took c x c' -> conn_step c [] x c'.
Proof.
  intros P Hc ((H & Hp & Ho & [= _ _ _ _ Ec _] & _) & E). split_and!; auto; [congruence|].
  rewrite app_nil_r. by apply outgoing_same.
Qed.

Lemma wrote_step (c : Connection) (x : list Z) (r : Z) (c' : Connection) :
  polls_ok c -> connected c = true -> wrote c x r c' -> conn_step c x [] c'.
Proof.
  intros P Hc ((H & Hp & Hi & [= _ _ _ _ Ec _]) & E & _). split_and!; auto; [congruence|].
  symmetry. by apply stream_same.
Qed.

Lemma steady_step (c c' : Connection) :
  polls_ok c -> connected c = true -> steady c c' -> conn_step c [] [] c'.
Proof. intros P Hc (H & Hp & Es & Eo & Ec & _). split_and!; auto; [congruence|by rewrite app_nil_r]. Qed.

Lemma writing_steady (c c' : Connection) : writing c c' -> outgoing c' = outgoing c -> steady c c'.
Proof.
  intros (H & Hp & Hi & [= _ _ _ _ Ec _]) Ho. split_and!; try done; [by apply stream_same|].
  by injection Hi as _ _ -> _.
Qed.

Lemma run_conn_op_ok (c : Connection) (op : conn_op) :
  conn_ok c -> polls_ok c -> connected c = true -> conn_op_ok op ->
  returns (run_conn_op c op) (fun '(r, c') => exists x, op_takes op r x /\ conn_step c (op_writes op) x c').
Proof.
  intros H P Hc Hop. destruct op; cbn [run_conn_op conn_op_ok] in *; unfold code, got, done_with.
  - eapply returns_seq; [by apply conn_write_ok|]. intros [r c'] W. exists []. split; [done|exact (wrote_step _ _ _ _ P Hc W)].
  - eapply returns_seq; [by apply conn_write_data_ok|]. intros [r c'] W. exists []. split; [done|exact (wrote_step _ _ _ _ P Hc W)].
  - eapply returns_seq; [by apply conn_write_withlen_ok|]. intros [r c'] W. exists []. split; [done|exact (wrote_step _ _ _ _ P Hc W)].
  - eapply returns_seq; [by apply conn_set_output_buffering_ok|]. intros c' [W E]. exists [].
    split; [done|by apply steady_step, writing_steady].
  - eapply returns_seq; [by apply conn_flush_ok|]. intros [r c'] (W & E & _). exists [].
    split; [done|by apply steady_step, writing_steady].
  - eapply returns_seq; [by apply conn_wait_ok|]. intros [r c'] [S _]. exists []. split; [done|by apply steady_step].
  - eapply returns_seq; [by apply poll_callback_ok|]. intros c' S. exists []. split; [done|by apply steady_step].
  - eapply returns_seq; [by apply conn_register_ok|]. intros [r c'] [S _]. exists []. split; [done|by apply steady_step].
  - exists []. split; [done|]. by apply steady_step, conn_unregister_ok.
  - eapply returns_seq; [by apply conn_read_everything_ok|]. intros [[o|] c'] R; [|exists []; split; [done|by apply took_step]].
    destruct R as (s & Hs & Hn & T). exists s. split; [done|by apply took_step].
  - eapply returns_seq; [by apply conn_read_fixed_ok|]. intros [[o|] c'] R; [|exists []; split; [done|by apply took_step; [..|apply R]]].
    destruct R as (s & Hs & Hn & T). exists s. split; [done|by apply took_step].
  - eapply returns_seq; [by apply conn_read_line_ok|]. intros [[o|] c'] R.
    + destruct R as (l & Hn & Hs & T). exists (l ++ [10]). split; [by exists l|by apply took_step].
    + exists []. split; [done|apply took_step; [done..|apply R]].
  - eapply returns_seq; [by apply conn_read_withlen_ok|]. intros [[o|] c'] (k & Hk & R).
    + destruct R as (s & Hs & _ & T). exists (k ++ frame s). split; [by exists k, s|by apply took_step].
    + exists k. split; [done|apply took_step; [done..|apply R]].
  - destruct Hop. eapply returns_seq; [by apply conn_read_packet_ok|]. intros [[o|] c'] (k & Hk & R).
    + destruct R as (s & Hs & Hp & T). exists (k ++ s). split; [by exists k, s|by apply took_step].
    + exists k. split; [done|by apply took_step].
Qed.

Lemma run_conn_ops_ok (ops : list conn_op) (c : Connection) :
  conn_ok c -> polls_ok c -> connected c = true -> Forall conn_op_ok ops ->
  returns (run_conn_ops c ops) (fun '(rs, c') => exists xs,
    Forall2 (fun '(op, r) x => op_takes op r x) (zip ops rs) xs /\ length rs = length ops /\
    conn_step c (concat (map op_writes ops)) (concat xs) c').
Proof.
  revert c. induction ops as [|op ops IH]; intros c H P Hc Hops; cbn [run_conn_ops].
  { exists []. split; [constructor|]. split; [done|]. split_and!; try done. by rewrite app_nil_r. }
  apply Forall_cons_iff in Hops as [Hop Hops].
  eapply returns_seq; [by apply run_conn_op_ok|]. intros [r c1] (x & Hx & H1 & P1 & Hc1 & Eo1 & Es1).
  eapply returns_seq; [by apply IH|]. intros [rs c'] (xs & Hxs & Hl & H2 & P2 & Hc2 & Eo2 & Es2). cbn [returns].
  exists (x :: xs). split; [by constructor|]. split; [by cbn; rewrite Hl|].
  split_and!; try done; cbn [map concat].
  - by rewrite Eo2, Eo1, app_assoc.
  - by rewrite Es1, Es2, app_assoc.
Qed.

(** C11. A connection is a faithful pair of streams.  Start from a well-formed
    connection and run any sequence of operations (writes, flushes, waits, poll
    events, registrations and the five ways of reading), whatever [read], [write]
    and [poll] answer on the way.  Every operation returns; the octets sent
    followed by those still buffered are exactly the octets written, in order; the
    octets handed out, with the separators and the skipped octets each operation is
    meant to remove, are exactly a prefix of the octets received, in order, and
    nothing is lost of the rest; and the connection stays well-formed, with the
    fdset watching for input only before the end of the file and for output only
    when something waits to be sent. *)
Theorem conn_streams_faithful (ops : list conn_op) (c : Connection) :
  conn_ok c -> polls_ok c -> connected c = true -> Forall conn_op_ok ops ->
  returns (run_conn_ops c ops) (fun '(rs, c') => exists xs,
    Forall2 (fun '(op, r) x => op_takes op r x) (zip ops rs) xs /\ length rs = length ops /\
    conn_step c (concat (map op_writes ops)) (concat xs) c').
Proof. intros. by apply run_conn_ops_ok. Qed.

(** ** Messages with their lengths *)

(** A client that polls: it calls [conn_read_withlen] [n] times and keeps what it
    gets. *)
Fixpoint poll_withlen (c : Connection) (n : nat) : res (list Octstr * Connection) :=
  match n with
  | O => Ok ([], c)
  | S n =>
      '(r, c) ← conn_read_withlen c;
      '(rs, c) ← poll_withlen c n;
      Ok (match r with Some o => o :: rs | None => rs end, c)
  end.

Definition small (d : list Z) : Prop := zlen d < 2 ^ 31.

Definition frames (ds : list (list Z)) : list Z := concat (map frame ds).

Lemma encode_inj (a b : Z) :
  0 <= a < 2 ^ 31 -> 0 <= b < 2 ^ 31 -> encode_network_long a = encode_network_long b -> a = b.
Proof.
  intros Ha Hb E. pose proof (decode_encode a) as Da. rewrite E, decode_encode in Da.
  injection Da as Da. rewrite !int32_small in Da by lia. done.
Qed.

Lemma frame_inj (s d l m : list Z) :
  small s -> small d -> frame s ++ l = frame d ++ m -> s = d /\ l = m.
Proof.
  unfold small, frame. intros Hs Hd E. rewrite <- !app_assoc in E. apply app_inj_1 in E as [E1 E2]; [|done].
  pose proof (zlen_nonneg s). pose proof (zlen_nonneg d). apply encode_inj in E1; [|lia..].
  apply app_inj_1 in E2 as [-> ->]; [done|list_lia].
Qed.

(** A frame does not look like a negative length. *)
Lemma frames_not_skipped (ds : list (list Z)) (k l : list Z) :
  Forall small ds -> skipped k -> frames ds = k ++ l -> k = [].
Proof.
  intros Hds Hk E. destruct Hk as [|b0 b1 b2 b3 k Hb Ho _]; [done|].
  destruct ds as [|d ds]; [done|]. apply Forall_cons_iff in Hds as [Hd _]. unfold small in Hd.
  unfold frames, frame in E. cbn [map concat] in E. pose proof (zlen_nonneg d).
  rewrite <- !app_assoc in E. apply (app_inj_1 _ [b0; b1; b2; b3]) in E as [E _]; [|done].
  pose proof (decode_encode (zlen d)) as D. rewrite E, decode_be_value, (int32_small (zlen d)) in D by (done || lia).
  injection D as D. destruct (word_value _ _ _ _ Ho) as [[? _]|(_ & ? & _)]; lia.
Qed.

Lemma frames_incomplete (ds : list (list Z)) : Forall small ds -> incomplete (frames ds) -> ds = [].
Proof.
  intros Hds Hi. destruct ds as [|d ds]; [done|]. exfalso. apply Forall_cons_iff in Hds as [Hd _].
  unfold frames, frame, small in *. cbn [map concat] in Hi. rewrite <- app_assoc in Hi. pose proof (zlen_nonneg d).
  destruct Hi as [Hi|(n & rest & Hn & E & Hr)].
  - rewrite zlen_app, zlen_encode in Hi. pose proof (zlen_nonneg (d ++ concat (map (fun s => encode_network_long (zlen s) ++ s) ds))). lia.
  - apply app_inj_1 in E as [E1 E2]; [|done]. apply encode_inj in E1; [|lia..]. subst n rest. list_lia.
Qed.

(** [conn_read_withlen] on a stream that starts with a frame. *)
Lemma read_withlen_frames (c : Connection) (ds : list (list Z)) (tail : list Z) :
  conn_ok c -> Forall small ds -> frames ds = stream c ++ tail ->
  returns (conn_read_withlen c) (fun '(r, c') =>
    match r with
    | Some o => exists d ds', ds = d :: ds' /\ reprm o d /\ reading c c' /\ frames ds' = stream c' ++ tail
    | None => reading c c' /\ stream c' = stream c /\
        (reads_left (reads (fd c')) < reads_left (reads (fd c)) \/ (tail = [] -> ds = []))%nat
    end).
Proof.
  intros H Hds E. eapply returns_mono; [by apply conn_read_withlen_ok|]. intros [[o|] c1] (k & Hk & R).
  - destruct R as (s & Hs & Hz & [R1 T1]). rewrite T1, <- !app_assoc in E.
    pose proof (frames_not_skipped _ _ _ Hds Hk E) as ->. destruct ds as [|d ds]; [done|].
    apply Forall_cons_iff in Hds as [Hd Hds]. unfold frames in E. cbn [map concat app] in E. symmetry in E.
    apply frame_inj in E as [<- E]; [|done..]. by exists s, ds.
  - destruct R as ([R1 T1] & Hi & Hl). rewrite T1, <- app_assoc in E. pose proof (frames_not_skipped _ _ _ Hds Hk E) as ->.
    split; [done|]. split; [done|]. destruct Hl as [Hl|[_ Hr]]; [by left|]. right. intros ->.
    apply frames_incomplete; [done|]. rewrite E. unfold stream. by rewrite Hr, !app_nil_r.
Qed.

Lemma poll_withlen_ok (n : nat) (ds : list (list Z)) (c : Connection) (tail : list Z) :
  conn_ok c -> Forall small ds -> frames ds = stream c ++ tail ->
  returns (poll_withlen c n) (fun '(os, c') => exists k, (k <= length ds)%nat /\ Forall2 reprm os (take k ds) /\
    reading c c' /\ frames (drop k ds) = stream c' ++ tail /\
    (tail = [] -> (reads_left (reads (fd c)) + length ds < n)%nat -> k = length ds)).
Proof.
  revert ds c. induction n as [|n IH]; intros ds c H Hds E; cbn [poll_withlen].
  { exists 0%nat. split; [lia|]. split; [constructor|]. split; [done|]. split; [done|lia]. }
  eapply returns_seq; [by apply (read_withlen_frames c ds tail)|]. intros [[o|] c1] R.
  - destruct R as (d & ds' & -> & Ho & R1 & E1). pose proof (proj2 (proj2 (proj2 (proj2 (proj2 R1))))) as Hl. apply Forall_cons_iff in Hds as [Hd Hds].
    eapply returns_seq; [by apply (IH ds' c1); [apply R1|..]|].
    intros [os c'] (j & Hj & HF & R2 & E2 & Hn). cbn [returns]. exists (S j). cbn [length take drop].
    split; [lia|]. split; [by constructor|]. split; [by eapply reading_trans|]. split; [done|]. intros. f_equal. apply Hn; [done|lia].
  - destruct R as (R1 & E1 & Hl).
    eapply returns_seq; [apply (IH ds c1); [apply R1|done|by rewrite E1]|].
    intros [os c'] (j & Hj & HF & R2 & E2 & Hn). cbn [returns]. exists j. split; [done|]. split; [done|].
    split; [by eapply reading_trans|]. split; [done|]. intros Ht Hm. destruct Hl as [Hl|Hl]; [apply Hn; [done|lia]|].
    rewrite (Hl Ht) in Hj |- *. cbn in *. lia.
Qed.

(** C29. Messages cross a connection whole and in order.  One side writes messages
    (each below 2 GB) with [conn_write_withlen], among any other operations that
    write nothing; the other side polls with [conn_read_withlen].  However the
    kernel splits the writes and cuts the stream into reads, what the receiver has
    got is always a prefix of the messages written, each one unchanged; and once
    everything has been sent, a number of polls bounded by the length of the
    stream delivers them all. *)
Theorem conn_messages_delivered (ops : list conn_op) (ds : list (list Z)) (c1 c2 : Connection) (n : nat) :
  conn_ok c1 -> polls_ok c1 -> connected c1 = true -> outgoing c1 = [] ->
  Forall conn_op_ok ops -> concat (map op_writes ops) = frames ds -> Forall small ds -> conn_ok c2 ->
  returns (run_conn_ops c1 ops) (fun '(_, c1') =>
    stream c2 = sent (fd c1') ->
    returns (poll_withlen c2 n) (fun '(os, _) => exists k, Forall2 reprm os (take k ds) /\
      (unsent c1' = [] -> (reads_left (reads (fd c2)) + length ds < n)%nat -> Forall2 reprm os ds))).
Proof.
  intros H P Hc E0 Hops Ew Hds H2. eapply returns_mono; [by apply run_conn_ops_ok|].
  intros [rs c1'] (xs & _ & _ & _ & _ & _ & Eo & _) Es. rewrite E0, Ew in Eo. unfold outgoing in Eo.
  rewrite <- Es in Eo. eapply returns_mono; [by apply (poll_withlen_ok n ds c2 (unsent c1'))|].
  intros [os c'] (k & Hk & HF & _ & _ & Hn). exists k. split; [done|]. intros Hu Hm.
  rewrite (Hn Hu Hm), firstn_all in HF. done.
Qed.

(** ** Witnesses *)

Definition sample_conn (rs : list read_result) (ws : list write_result) : Connection :=
  mkConn (mkFd 5 rs ws [] []) true (mk_os []) 0 0 (mk_os []) 0 0 0 None None None None false false.

Lemma sample_conn_ok (rs : list read_result) (ws : list write_result) :
  octets (arriving rs) -> conn_ok (sample_conn rs ws) /\ polls_ok (sample_conn rs ws).
Proof. intros. split; [|by split]. split; try done; by apply mk_os_ok. Qed.

(** A line cut in two by the network, a packet after noise, and a message that the
    kernel takes in two pieces. *)
Definition sample_conn_ops : list conn_op :=
  [OpRegister 1 2 None None; OpReadLine; OpReadLine; OpReadPacket 2 3; OpWriteWithlen (mk_os [104; 105]);
   OpPoll 5 POLLOUT; OpReadWithlen].

Definition sample_reads : list read_result := [RData [72; 105]; RAgain; RData [13; 10; 0; 2; 65]; RData [3]; RData []].

Lemma conn_streams_faithful_witness :
  returns (run_conn_ops (sample_conn sample_reads [WTook 3; WTook 99]) sample_conn_ops) (fun '(rs, c') => exists xs,
    Forall2 (fun '(op, r) x => op_takes op r x) (zip sample_conn_ops rs) xs /\ length rs = length sample_conn_ops /\
    conn_step (sample_conn sample_reads [WTook 3; WTook 99]) (concat (map op_writes sample_conn_ops)) (concat xs) c').
Proof.
  apply (conn_streams_faithful sample_conn_ops (sample_conn sample_reads [WTook 3; WTook 99])).
  - apply sample_conn_ok. repeat constructor; unfold octet; lia.
  - apply sample_conn_ok. repeat constructor; unfold octet; lia.
  - reflexivity.
  - repeat (apply Forall_cons_2; [try exact I|]); [..|apply Forall_nil_2].
    + split; [right|]; unfold octet; lia.
    + apply (mk_os_ok [104; 105]). octets_tac.
Defined.

(** Three messages, the last one empty, sent in three pieces and read in four. *)
Definition sample_messages : list (list Z) := [[104; 105]; [7]; []].

Definition sample_receiver : Connection :=
  sample_conn [RData [0; 0]; RData [0]; RData [2; 104; 105; 0; 0; 0]; RData [1; 7; 0; 0; 0; 0]] [].

Lemma conn_messages_delivered_witness :
  returns (run_conn_ops (sample_conn [] [WTook 1; WTook 5; WTook 99])
             (map (fun d => OpWriteWithlen (mk_os d)) sample_messages)) (fun '(_, c1') =>
    stream sample_receiver = sent (fd c1') ->
    returns (poll_withlen sample_receiver 30)
      (fun '(os, _) => exists k, Forall2 reprm os (take k sample_messages) /\
        (unsent c1' = [] -> (reads_left (reads (fd sample_receiver)) + length sample_messages < 30)%nat -> Forall2 reprm os sample_messages))).
Proof.
  apply (conn_messages_delivered _ sample_messages (sample_conn [] [WTook 1; WTook 5; WTook 99])
    sample_receiver 30).
  - apply sample_conn_ok. constructor.
  - apply sample_conn_ok. constructor.
  - reflexivity.
  - reflexivity.
  - repeat (apply Forall_cons_2; [cbn [conn_op_ok]|]); [apply (mk_os_ok [104; 105])|apply (mk_os_ok [7])|apply (mk_os_ok [])|apply Forall_nil_2];
      octets_tac.
  - reflexivity.
  - repeat constructor.
  - apply sample_conn_ok. repeat constructor; unfold octet; lia.
Defined.

Example sample_messages_sent :
  (r ← run_conn_ops (sample_conn [] [WTook 1; WTook 5; WTook 99]) (map (fun d => OpWriteWithlen (mk_os d)) sample_messages);
   Ok (sent (fd r.2), unsent r.2)) = Ok ([0; 0; 0; 2; 104; 105; 0; 0; 0; 1; 7; 0; 0; 0; 0], []).
Proof. vm_compute. reflexivity. Qed.
