(* ===== verification/BoxLink.v ===== *)
(** * The link between the boxes

    The model of gw/shared.c: how a box and the bearerbox exchange messages over a
    connection. *)

From S2P Require Import Prelude Octstr OctstrFormat Uuid Msg Conn.

(** ** The operations *)

(** Whether the message was written; the message itself is destroyed. *)
Definition write_to_bearerbox_real (c : Connection) (pmsg : Msg) : res Connection :=
  pack ← msg_pack pmsg;
  '(_, c) ← conn_write_withlen c (Some pack);
  Ok c.

(** The message is kept by the caller when -1 is returned. *)
Definition deliver_to_bearerbox_real (c : Connection) (msg : Msg) : res (Z * Connection) :=
  pack ← msg_pack msg;
  '(r, c) ← conn_write_withlen c (Some pack);
  Ok (if r =? -1 then -1 else 0, c).

(** The loop runs as long as the program is not shutting down: once for each element
    of [polls], which answers the [poll] of that turn.  [id1] and [id2] are the
    identifiers [msg_unpack] generates on the way. *)
Fixpoint read_from_bearerbox_real (id1 id2 : list Z) (c : Connection) (polls : list (Z -> poll_result))
  : res (Z * option Msg * Connection) :=
  match polls with
  | [] => Ok (-1, None, c)
  | polled :: polls =>
      '(pack, c) ← conn_read_withlen c;
      match pack with
      | Some pack =>
          msg ← msg_unpack id1 id2 pack;
          Ok (match msg with None => -1 | Some _ => 0 end, msg, c)
      | None =>
          if negb (conn_error c =? 0) then Ok (-1, None, c)
          else if negb (conn_eof c =? 0) then Ok (-1, None, c)
          else
            '(ret, c) ← conn_wait c polled;
            if ret <? 0 then Ok (-1, None, c)
            else if ret =? 1 then Ok (1, None, c)
            else read_from_bearerbox_real id1 id2 c polls
      end
  end.

(** ** What travels *)

(** The message [m] is of type [t] and its fields stand for [fs]. *)
Definition stands_for (m : Msg) (p : Z * list field) : Prop :=
  m_type m = p.1 /\ exists vs, msg_values m = Some vs /\ Forall2 holds vs p.2.

(** The octets of a packed message, and what the other side makes of them. *)
Definition packed (p : Z * list field) : list Z := encode_network_long p.1 ++ concat (wire <$> p.2).
Definition arrives (p : Z * list field) : Z * list field := (p.1, received <$> p.2).

Fixpoint write_all (c : Connection) (ms : list Msg) : res Connection :=
  match ms with
  | [] => Ok c
  | m :: ms => c ← write_to_bearerbox_real c m; write_all c ms
  end.

(** Calls of [read_from_bearerbox] one after the other, each with the answers to its
    polls; the messages read. *)
Fixpoint read_all (id1 id2 : list Z) (c : Connection) (calls : list (list (Z -> poll_result)))
  : res (list Msg * Connection) :=
  match calls with
  | [] => Ok ([], c)
  | polls :: calls =>
      '(_, m, c) ← read_from_bearerbox_real id1 id2 c polls;
      '(ms, c) ← read_all id1 id2 c calls;
      Ok (match m with Some m => m :: ms | None => ms end, c)
  end.

(** ** Lemmas *)

Lemma pack_stands (m : Msg) (p : Z * list field) :
  stands_for m p -> returns (msg_pack m) (fun o => reprm o (packed p)).
Proof. unfold packed. intros (<- & vs & Hv & Hh). by apply (msg_pack_ok m vs). Qed.

Lemma unpack_stands (o : Octstr) (m : Msg) (p : Z * list field) (id1 id2 : list Z) :
  stands_for m p -> repr o (packed p) -> small (packed p) ->
  returns (msg_unpack id1 id2 o) (fun r => exists m', r = Some m' /\ stands_for m' (arrives p)).
Proof.
  intros (E & vs & Hv & Hh) Ho Hs. unfold packed in *. rewrite <- E in *.
  eapply returns_mono; [by apply (msg_unpack_ok o m vs p.2 id1 id2)|].
  intros r (m' & vs' & -> & Et & Hv' & _ & Hh'). exists m'. split; [done|]. split; [by rewrite Et|]. by exists vs'.
Qed.

Lemma write_to_bearerbox_ok (c : Connection) (m : Msg) (p : Z * list field) :
  conn_ok c -> stands_for m p ->
  returns (write_to_bearerbox_real c m) (fun c' => exists r, wrote c (frame (packed p)) r c').
Proof.
  intros H Hm. unfold write_to_bearerbox_real. eapply returns_seq; [by apply pack_stands|]. intros o [Ho _].
  eapply returns_seq; [by apply conn_write_withlen_ok|]. intros [r c'] W. by exists r.
Qed.

Lemma write_all_ok (ms : list Msg) (ps : list (Z * list field)) (c : Connection) :
  conn_ok c -> Forall2 stands_for ms ps ->
  returns (write_all c ms) (fun c' => writing c c' /\ outgoing c' = outgoing c ++ frames (map packed ps)).
Proof.
  intros H HF. revert c H. induction HF as [|m p ms ps Hm _ IH]; intros c H; cbn [write_all].
  { split; [done|]. by rewrite app_nil_r. }
  eapply returns_seq; [by apply write_to_bearerbox_ok|]. intros c1 (r & W1 & E1 & _).
  eapply returns_mono; [apply IH, W1|]. intros c' [W2 E2]. split; [by eapply writing_trans|].
  rewrite E2, E1, <- app_assoc. done.
Qed.


(** Why a read may give nothing although a message is there. *)
Definition read_failed (polls : list (Z -> poll_result)) (ret : Z) (c' : Connection) : Prop :=
  (ret = -1 /\ (io_error c' <> 0 \/ read_eof c' <> 0 \/ Exists (fun polled => exists ev, poll_fails (polled ev)) polls)) \/
  (ret = 1 /\ Exists (fun polled => exists ev, polled ev = PollEvents 0) polls).

Lemma read_failed_cons (polled : Z -> poll_result) (polls : list (Z -> poll_result)) (ret : Z) (c' : Connection) :
  read_failed polls ret c' -> read_failed (polled :: polls) ret c'.
Proof. unfold read_failed. intros [(? & [?|[?|?]])|[? ?]]; auto 10 using Exists_cons_tl. Qed.

Lemma read_from_bearerbox_ok (id1 id2 : list Z) (polls : list (Z -> poll_result)) (c : Connection)
    (ms : list Msg) (ps : list (Z * list field)) (tail : list Z) :
  conn_ok c -> Forall2 stands_for ms ps -> Forall small (map packed ps) -> frames (map packed ps) = stream c ++ tail ->
  returns (read_from_bearerbox_real id1 id2 c polls) (fun '(ret, om, c') => conn_ok c' /\
    match om with
    | Some m' => ret = 0 /\ exists p ps', ps = p :: ps' /\ stands_for m' (arrives p) /\
        frames (map packed ps') = stream c' ++ tail
    | None => stream c' = stream c /\ (read_failed polls ret c' \/
        (ret = -1 /\ (tail = [] -> ps <> [] -> (length polls <= reads_left (reads (fd c)))%nat)))
    end).
Proof.
  intros H HF Hs. revert c H. induction polls as [|polled polls IH]; intros c H E; cbn [read_from_bearerbox_real].
  { split; [done|]. split; [done|]. right. split; [done|]. cbn. lia. }
  eapply returns_seq; [by apply (read_withlen_frames c (map packed ps) tail)|]. intros [[o|] c1] R.
  - destruct R as (d & ds' & Ed & Ho & R1 & E1). destruct HF as [|m p ms ps Hm HF]; [done|].
    injection Ed as <- <-. apply Forall_cons_iff in Hs as [Hp Hs].
    eapply returns_seq; [by apply (unpack_stands o m p id1 id2 Hm (proj1 Ho))|].
    intros r (m' & -> & Hm'). cbn [returns]. split; [apply R1|]. split; [done|]. by exists p, ps.
  - destruct R as (R1 & E1 & Hl). unfold conn_error, conn_eof.
    destruct (Z.eqb_spec (io_error c1) 0) as [_|He]; cbn [negb].
    2:{ cbn. split; [apply R1|]. split; [done|]. left. left. auto. }
    destruct (Z.eqb_spec (read_eof c1) 0) as [_|He]; cbn [negb].
    2:{ cbn. split; [apply R1|]. split; [done|]. left. left. auto. }
    eapply returns_seq; [apply conn_wait_ok, R1|]. intros [ret c2] ((H2 & _ & E2 & _ & _ & L2) & Hneg & Hto).
    destruct (Z.ltb_spec ret 0) as [Hr|Hr].
    { cbn. split; [done|]. split; [congruence|]. left. left. split; [done|].
      destruct (Hneg Hr) as [Hi|Hi]; [left; lia|right; right; by constructor]. }
    destruct (Z.eqb_spec ret 1) as [Hr1|Hr1].
    { cbn. split; [done|]. split; [congruence|]. left. right. split; [done|]. constructor. by apply Hto. }
    eapply returns_mono; [apply (IH c2 H2); by rewrite E2, E1|]. intros [[ret' om] c'] [Hc Hom]. split; [done|].
    destruct om as [m'|]; [done|]. destruct Hom as [Es Hf]. split; [congruence|].
    destruct Hf as [Hf|[-> Hn]]; [left; by apply read_failed_cons|]. right. split; [done|].
    intros Ht Hps. specialize (Hn Ht Hps). cbn [length]. destruct Hl as [Hl|Hl]; [lia|].
    specialize (Hl Ht). by destruct ps.
Qed.

Lemma read_all_ok (id1 id2 : list Z) (calls : list (list (Z -> poll_result))) (c : Connection)
    (ms : list Msg) (ps : list (Z * list field)) (tail : list Z) :
  conn_ok c -> Forall2 stands_for ms ps -> Forall small (map packed ps) -> frames (map packed ps) = stream c ++ tail ->
  returns (read_all id1 id2 c calls) (fun '(got, c') => exists k, Forall2 stands_for got (arrives <$> take k ps)).
Proof.
  revert c ms ps. induction calls as [|polls calls IH]; intros c ms ps H HF Hs E; cbn [read_all].
  { exists 0%nat. constructor. }
  eapply returns_seq; [by apply (read_from_bearerbox_ok id1 id2 polls c ms ps tail)|].
  intros [[ret [m'|]] c1] [H1 R].
  - destruct R as (_ & p & ps' & -> & Hm' & E1). apply Forall_cons_iff in Hs as [Hp Hs].
    apply Forall2_cons_inv_r in HF as (m & ms' & Hm & HF & ->).
    eapply returns_seq; [by apply (IH c1 ms' ps')|]. intros [got c'] [k Hk]. exists (S k). by constructor.
  - destruct R as [E1 _]. rewrite <- E1 in E.
    eapply returns_seq; [by apply (IH c1 ms ps)|]. intros [got c'] [k Hk]. by exists k.
Qed.

(** C14. The next message is read, or there is a reason.  If the stream of the
    connection is a sequence of packed messages (each below 2 GB) and the program
    keeps running for more turns of the loop than there are reads left, then
    [read_from_bearerbox] returns 0 with the first message, its integers truncated
    to 32 bits, and leaves exactly the rest of the stream; or it returns -1 because
    the connection failed, ended or could not be polled, or 1 because a poll timed
    out, and then no octet of the stream is lost. *)
Theorem bearerbox_read_next (id1 id2 : list Z) (polls : list (Z -> poll_result)) (c : Connection)
    (ms : list Msg) (p : Z * list field) (ps : list (Z * list field)) :
  conn_ok c -> Forall2 stands_for ms (p :: ps) -> Forall small (map packed (p :: ps)) ->
  stream c = frames (map packed (p :: ps)) -> (reads_left (reads (fd c)) < length polls)%nat ->
  returns (read_from_bearerbox_real id1 id2 c polls) (fun '(ret, om, c') =>
    (ret = 0 /\ stream c' = frames (map packed ps) /\ exists m', om = Some m' /\ stands_for m' (arrives p)) \/
    (om = None /\ stream c' = stream c /\ read_failed polls ret c')).
Proof.
  intros H Hm Hs E Hl. eapply returns_mono.
  - apply (read_from_bearerbox_ok id1 id2 polls c ms (p :: ps) []); [done..|]. by rewrite E, app_nil_r.
  - intros [[ret [m'|]] c'] [Hc R].
    + destruct R as (-> & p' & ps' & [= <- <-] & Hm' & E1). left. split; [done|]. split; [|by exists m'].
      by rewrite app_nil_r in E1.
    + destruct R as [E1 [Hf|[_ Hn]]]; [by right|]. specialize (Hn eq_refl ltac:(done)). lia.
Qed.

(** C30. Messages between the boxes arrive in order and unchanged.  One box writes a
    list of messages; the other calls [read_from_bearerbox] any number of times, on
    whatever part of what was written has been sent, cut into reads in any way.
    The messages it gets are the first ones written, in order, each of the same
    type and with the same fields (integers truncated to 32 bits): none is lost in
    between, repeated or mixed up with another. *)
Theorem bearerbox_link_in_order (id1 id2 : list Z) (calls : list (list (Z -> poll_result)))
    (c1 c2 : Connection) (ms : list Msg) (ps : list (Z * list field)) :
  conn_ok c1 -> outgoing c1 = [] -> conn_ok c2 -> Forall2 stands_for ms ps -> Forall small (map packed ps) ->
  returns (write_all c1 ms) (fun c1' =>
    stream c2 = sent (fd c1') ->
    returns (read_all id1 id2 c2 calls) (fun '(got, _) => exists k, Forall2 stands_for got (arrives <$> take k ps))).
Proof.
  intros H1 E0 H2 HF Hs. eapply returns_mono; [by apply write_all_ok|]. intros c1' [_ Eo] E.
  rewrite E0 in Eo. unfold outgoing in Eo. rewrite <- E in Eo.
  by apply (read_all_ok id1 id2 calls c2 ms ps (unsent c1')).
Qed.

(** ** Witnesses *)

Definition sample_sent : list Msg := [sample_msg T_HEARTBEAT; sample_msg T_ACK].
Definition sample_fields : list (Z * list field) :=
  [(T_HEARTBEAT, [FInt 7]); (T_ACK, [FInt 1; FInt 5000000000; FUuid sample_uuid])].

Lemma sample_sent_stands : Forall2 stands_for sample_sent sample_fields.
Proof.
  constructor; [|constructor; [|constructor]].
  - split; [done|]. exists [VInt 7]. split; [done|]. by repeat constructor.
  - split; [done|]. exists [VInt 1; VInt 5000000000; VUuid sample_uuid]. split; [done|].
    do 3 (constructor; [constructor; try apply sample_uuid_ok|]). constructor.
Qed.

Lemma sample_sent_small : Forall small (map packed sample_fields).
Proof. constructor; [|constructor; [|constructor]]; vm_compute; reflexivity. Qed.

Definition sample_stream : list Z := Eval vm_compute in frames (map packed sample_fields).

(** The stream in pieces of an uneven size. *)
Definition sample_link : Connection :=
  sample_conn [RData (take 3 sample_stream); RAgain; RData (take 20 (drop 3 sample_stream)); RData (drop 23 sample_stream)] [].

Lemma sample_stream_octets : octets sample_stream.
Proof. unfold sample_stream. octets_tac. Qed.

Lemma sample_link_ok : conn_ok sample_link.
Proof. apply sample_conn_ok. exact sample_stream_octets. Qed.

Lemma bearerbox_read_next_witness :
  returns (read_from_bearerbox_real uuid_clear uuid_clear sample_link (repeat (fun _ => PollEvents POLLIN) 100))
    (fun '(ret, om, c') =>
      (ret = 0 /\ stream c' = frames (map packed [(T_ACK, [FInt 1; FInt 5000000000; FUuid sample_uuid])]) /\
        exists m', om = Some m' /\ stands_for m' (T_HEARTBEAT, [FInt 7])) \/
      (om = None /\ stream c' = stream sample_link /\ read_failed (repeat (fun _ => PollEvents POLLIN) 100) ret c')).
Proof.
  apply (bearerbox_read_next uuid_clear uuid_clear (repeat (fun _ => PollEvents POLLIN) 100) sample_link sample_sent
    (T_HEARTBEAT, [FInt 7]) [(T_ACK, [FInt 1; FInt 5000000000; FUuid sample_uuid])]).
  - exact sample_link_ok.
  - exact sample_sent_stands.
  - exact sample_sent_small.
  - vm_compute. reflexivity.
  - vm_compute. lia.
Defined.

Lemma bearerbox_link_in_order_witness :
  returns (write_all (sample_conn [] [WTook 30; WTook 1; WTook 500]) sample_sent) (fun c1' =>
    stream sample_link = sent (fd c1') ->
    returns (read_all uuid_clear uuid_clear sample_link (repeat (repeat (fun _ => PollEvents POLLIN) 9) 2))
      (fun '(got, _) => exists k, Forall2 stands_for got (arrives <$> take k sample_fields))).
Proof.
  apply (bearerbox_link_in_order uuid_clear uuid_clear (repeat (repeat (fun _ => PollEvents POLLIN) 9) 2)
    (sample_conn [] [WTook 30; WTook 1; WTook 500]) sample_link sample_sent sample_fields).
  - apply sample_conn_ok. constructor.
  - reflexivity.
  - exact sample_link_ok.
  - exact sample_sent_stands.
  - exact sample_sent_small.
Defined.

(** Both messages do arrive. *)
Example sample_link_delivers :
  (r ← read_all uuid_clear uuid_clear sample_link (repeat (repeat (fun _ => PollEvents POLLIN) 9) 2);
   Ok (map m_type r.1)) = Ok [T_HEARTBEAT; T_ACK].
Proof. vm_compute. reflexivity. Qed.
