(* ===== verification/HttpHeaders.v ===== *)
(** * HTTP headers

    The header lists of gwlib/http.c: looking headers up by name, taking them apart,
    removing, duplicating and combining them.  A header is one line
    [Name: value]; names are compared without regard to case.  The lists are given
    by their contents, in order. *)

From S2P Require Import Prelude Octstr OctstrSearch OctstrParts.

Notation headers := (list Octstr).

(** ** The operations *)

(** [strncasecmp(a, b, n) == 0] on C strings; their ends read as NUL. *)
Fixpoint strncasecmp_eq (a b : list Z) (n : nat) : bool :=
  match n with
  | O => true
  | S n =>
      let x := default 0 (head a) in
      let y := default 0 (head b) in
      (tolower x =? tolower y) && ((x =? 0) || strncasecmp_eq (tail a) (tail b) n)
  end.

Definition header_is_called (header : Octstr) (name : list Z) : res bool :=
  colon ← octstr_search_char header 58 0;
  Ok (if colon =? -1 then false
      else if negb (zlen name =? colon) then false
      else strncasecmp_eq (os_data header) name (Z.to_nat colon)).

Definition http_create_empty_headers : headers := [].

(** The name and the value; a header without a colon is given the name
    [X-Unknown]. *)
Definition http_header_get (hs : headers) (i : Z) : res (Octstr * option Octstr) :=
  assert: 0 <=? i;
  let os := hs !! Z.to_nat i in
  colon ← (match os with None => Ok (-1) | Some os => octstr_search_char os 58 0 end);
  match os with
  | Some o =>
      if colon =? -1 then
        name ← octstr_create [88; 45; 85; 110; 107; 110; 111; 119; 110];
        value ← octstr_duplicate (Some o);
        Ok (name, value)
      else
        name ← octstr_copy (Some o) 0 colon;
        n ← octstr_len (Some o);
        value ← octstr_copy (Some o) (colon + 1) (n - colon - 1);
        value ← octstr_strip_blanks value;
        Ok (name, Some value)
  | None =>
      name ← octstr_create [88; 45; 85; 110; 107; 110; 111; 119; 110];
      value ← octstr_duplicate None;
      Ok (name, value)
  end.

(** The search stops at a header without a colon. *)
Fixpoint http_header_value (hs : headers) (name : Octstr) : res (option Octstr) :=
  match hs with
  | [] => Ok None
  | os :: hs =>
      colon ← octstr_search_char os 58 0;
      if colon =? -1 then Ok None
      else
        current_name ← octstr_copy (Some os) 0 colon;
        c ← octstr_case_compare current_name name;
        if c =? 0 then
          n ← octstr_len (Some os);
          value ← octstr_copy (Some os) (colon + 1) (n - colon - 1);
          value ← octstr_strip_blanks value;
          Ok (Some value)
        else http_header_value hs name
  end.

Fixpoint http_header_duplicate (hs : headers) : res headers :=
  match hs with
  | [] => Ok []
  | h :: hs =>
      o ← octstr_duplicate (Some h);
      hs ← http_header_duplicate hs;
      Ok (match o with Some o => o :: hs | None => hs end)
  end.

Definition http_append_headers (to from : headers) : res headers :=
  hs ← http_header_duplicate from; Ok (to ++ hs).

Fixpoint http_header_find_first (hs : headers) (name : list Z) : res (option Octstr) :=
  match hs with
  | [] => Ok None
  | h :: hs =>
      b ← header_is_called h name;
      if b : bool then
        n ← octstr_len (Some h);
        value ← octstr_copy (Some h) (zlen name + 1) n;
        value ← octstr_strip_blanks value;
        Ok (Some value)
      else http_header_find_first hs name
  end.

Fixpoint http_header_find_all (hs : headers) (name : list Z) : res headers :=
  match hs with
  | [] => Ok []
  | h :: hs =>
      b ← header_is_called h name;
      found ← (if b : bool then octstr_duplicate (Some h) else Ok None);
      rest ← http_header_find_all hs name;
      Ok (match found with Some o => o :: rest | None => rest end)
  end.

(** What is left, and how many were removed. *)
Fixpoint http_header_remove_all (hs : headers) (name : list Z) : res (headers * Z) :=
  match hs with
  | [] => Ok ([], 0)
  | h :: hs =>
      b ← header_is_called h name;
      '(rest, count) ← http_header_remove_all hs name;
      Ok (if b : bool then (rest, count + 1) else (h :: rest, count))
  end.

(** The loop of [http_header_combine] over the new headers; the name is passed as a
    C string. *)
Fixpoint combine_loop (old new : headers) (i : Z) (n : nat) : res headers :=
  match n with
  | O => Ok old
  | S n =>
      '(name, _) ← http_header_get new i;
      '(old, _) ← http_header_remove_all old (cstr (os_data name));
      combine_loop old new (i + 1) n
  end.

Definition http_header_combine (old_headers new_headers : headers) : res headers :=
  old ← (if 0 <? zlen old_headers then combine_loop old_headers new_headers 0 (length new_headers)
         else Ok old_headers);
  http_append_headers old new_headers.

(** ** Headers as texts *)

(** The name and the rest of a header, around its first colon. *)
Definition header_parts (s : list Z) : option (list Z * list Z) :=
  match list_find (fun c => c = 58) s with
  | Some (i, _) => Some (take i s, drop (S i) s)
  | None => None
  end.

Definition same_name (a b : list Z) : Prop := fold_case a = fold_case b.

#[export] Instance same_name_dec a b : Decision (same_name a b).
Proof. unfold same_name. apply _. Defined.

#[export] Instance same_name_equiv : Equivalence same_name.
Proof. split; unfold same_name; intros ?; congruence. Qed.

Definition is_called (name s : list Z) : bool :=
  match header_parts s with
  | Some (n, _) => bool_decide (same_name n name)
  | None => false
  end.

(** The value of the first header of that name. *)
Definition lookup_header (hs : list (list Z)) (name : list Z) : option (list Z) :=
  match list_find (fun s => is_called name s) hs with
  | Some (_, s) => (fun p => trim isspace p.2) <$> header_parts s
  | None => None
  end.

(** A C string that can be a name. *)
Definition c_name (name : list Z) : Prop := Forall (fun c => octet c /\ c <> 0) name.

Lemma header_parts_Some (s n v : list Z) :
  header_parts s = Some (n, v) <-> s = n ++ 58 :: v /\ Forall (fun c => c <> 58) n.
Proof.
  unfold header_parts. split.
  - destruct (list_find _ s) as [[i c]|] eqn:E; [|done]. intros [= <- <-].
    apply list_find_Some in E as (Hi & -> & Hb). split; [symmetry; by apply take_drop_middle|].
    apply Forall_lookup. intros j y [Hy Hj]%lookup_take_Some. by apply (Hb j y).
  - intros [-> Hn]. rewrite list_find_app_r by (apply list_find_None; exact Hn). cbn.
    rewrite decide_True by done. cbn. rewrite take_app_length. do 2 f_equal.
    replace (S (length n)) with (length (n ++ [58])) by list_lia.
    replace (n ++ 58 :: v) with ((n ++ [58]) ++ v) by by rewrite <- app_assoc. by rewrite drop_app_length.
Qed.

Lemma header_parts_None (s : list Z) : header_parts s = None <-> Forall (fun c => c <> 58) s.
Proof.
  unfold header_parts. rewrite <- (list_find_None (fun c => c = 58)). by destruct (list_find _ s) as [[i c]|].
Qed.

Lemma search_colon (h : Octstr) (s : list Z) :
  repr h s ->
  octstr_search_char h 58 0 = Ok (match header_parts s with Some (n, _) => zlen n | None => -1 end).
Proof.
  intros Hh. rewrite (octstr_search_char_ok h s) by done. f_equal.
  destruct (header_parts s) as [[n v]|] eqn:E.
  - apply header_parts_Some in E as [-> Hn]. apply (search_char_at 58 [] n v Hn).
  - apply header_parts_None in E. apply (search_char_none 58 [] s E).
Qed.

Lemma tolower_toupper (x y : Z) : tolower x = tolower y <-> toupper x = toupper y.
Proof. unfold tolower, toupper, isupper, islower. repeat case_match; lia. Qed.

Lemma strncasecmp_ok (n name rest : list Z) :
  length name = length n -> c_name name ->
  strncasecmp_eq (n ++ rest) name (length n) = bool_decide (same_name n name).
Proof.
  revert name. induction n as [|x n IH]; intros [|y name] Hl Hn; try done. cbn [app length strncasecmp_eq head tail default].
  apply Forall_cons_iff in Hn as [[Hy Hy0] Hn]. cbn. injection Hl as Hl. rewrite IH by done.
  assert (bool_decide (same_name (x :: n) (y :: name)) = bool_decide (toupper x = toupper y /\ same_name n name)) as ->.
  { apply bool_decide_ext. split; [intros E; by injection E|]. intros [E1 E2]. unfold same_name in *. cbn. by f_equal. }
  rewrite bool_decide_and. assert ((tolower x =? tolower y) = bool_decide (toupper x = toupper y)) as ->.
  { apply eq_true_iff_eq. rewrite Z.eqb_eq, bool_decide_eq_true. apply tolower_toupper. }
  destruct (Z.eqb_spec x 0) as [->|]; [|done]. destruct (bool_decide (toupper 0 = toupper y)) eqn:E; [|done].
  apply bool_decide_eq_true in E. exfalso. revert E. unfold toupper, islower. cbn. unfold octet in *. case_match; lia.
Qed.

Lemma repr_data (o : Octstr) (s : list Z) : repr o s -> s <> [] -> exists rest, os_data o = s ++ 0 :: rest.
Proof. destruct 1; [done|]. intros _. by exists rest. Qed.

Lemma header_is_called_ok (h : Octstr) (s name : list Z) :
  repr h s -> c_name name -> header_is_called h name = Ok (is_called name s).
Proof.
  intros Hh Hn. unfold header_is_called, is_called. rewrite (search_colon h s Hh). bind_red. f_equal.
  destruct (header_parts s) as [[n v]|] eqn:E; [|done]. pose proof (zlen_nonneg n).
  destruct (Z.eqb_spec (zlen n) (-1)); [lia|]. destruct (Z.eqb_spec (zlen name) (zlen n)) as [El|El]; cbn [negb].
  - apply header_parts_Some in E as [-> _]. destruct (repr_data _ _ Hh) as [rest ->]; [by destruct n|].
    unfold zlen at 1. rewrite Nat2Z.id, <- app_assoc. apply strncasecmp_ok; [list_lia|done].
  - symmetry. apply bool_decide_eq_false. intros Es. apply (f_equal length) in Es. unfold fold_case in Es. list_lia.
Qed.

(** ** What the operations do *)

Notation hrepr := (Forall2 reprm).

Lemma same_name_length (a b : list Z) : same_name a b -> length a = length b.
Proof. intros E%(f_equal length). unfold fold_case in E. by rewrite !length_fmap in E. Qed.

(** Copying from after a colon to the end. *)
Lemma slice_after (n v : list Z) (len : Z) :
  zlen v <= len -> slice (n ++ 58 :: v) (zlen n + 1) len = v.
Proof.
  intros Hl. pose proof (zlen_nonneg v). unfold slice.
  replace (Z.to_nat (zlen n + 1)) with (length (n ++ [58])) by list_lia.
  replace (n ++ 58 :: v) with ((n ++ [58]) ++ v) by by rewrite <- app_assoc.
  rewrite drop_app_length. apply take_ge. list_lia.
Qed.

Lemma http_header_find_first_ok (hs : headers) (ss : list (list Z)) (name : list Z) :
  hrepr hs ss -> c_name name ->
  returns (http_header_find_first hs name) (fun r =>
    match lookup_header ss name with
    | Some v => exists o, r = Some o /\ reprm o v
    | None => r = None
    end).
Proof.
  intros HF Hn. induction HF as [|h s hs ss Hh HF IH]; [done|]. cbn [http_header_find_first].
  rewrite (header_is_called_ok h s name (proj1 Hh) Hn). bind_red. unfold lookup_header in *. cbn [list_find].
  destruct (is_called name s) eqn:E.
  - rewrite decide_True by done. unfold is_called in E. destruct (header_parts s) as [[n v]|] eqn:Ep; [|done].
    apply bool_decide_eq_true, same_name_length in E. pose proof Ep as [-> _]%header_parts_Some.
    rewrite (octstr_len_ok _ _ (proj1 Hh)). bind_red. pose proof (zlen_nonneg name). pose proof (zlen_nonneg n).
    eapply returns_seq; [apply (octstr_copy_ok _ _ _ _ (proj1 Hh)); [lia|apply zlen_nonneg]|]. intros o Ho.
    replace (zlen name + 1) with (zlen n + 1) in Ho by list_lia. rewrite slice_after in Ho by list_lia.
    eapply returns_seq; [by apply strip_both_ok|]. intros o' Ho'. cbn [returns]. cbn. by exists o'.
  - rewrite decide_False by naive_solver. eapply returns_mono; [exact IH|]. intros r.
    by destruct (list_find _ ss) as [[i x]|].
Qed.

Lemma http_header_remove_all_ok (hs : headers) (ss : list (list Z)) (name : list Z) :
  hrepr hs ss -> c_name name ->
  returns (http_header_remove_all hs name) (fun '(hs', count) =>
    hrepr hs' (filter (fun s => is_called name s = false) ss) /\
    count = zlen ss - zlen (filter (fun s => is_called name s = false) ss)).
Proof.
  intros HF Hn. induction HF as [|h s hs ss Hh HF IH]; [by split|]. cbn [http_header_remove_all].
  rewrite (header_is_called_ok h s name (proj1 Hh) Hn). bind_red.
  eapply returns_seq; [exact IH|]. intros [hs' count] [HF' ->]. cbn [returns]. rewrite filter_cons.
  destruct (is_called name s); case_decide; try done; (split; [try done; by constructor|list_lia]).
Qed.

Lemma http_header_find_all_ok (hs : headers) (ss : list (list Z)) (name : list Z) :
  hrepr hs ss -> c_name name ->
  returns (http_header_find_all hs name) (fun hs' => hrepr hs' (filter (fun s => is_called name s = true) ss)).
Proof.
  intros HF Hn. induction HF as [|h s hs ss Hh HF IH]; [constructor|]. cbn [http_header_find_all].
  rewrite (header_is_called_ok h s name (proj1 Hh) Hn). bind_red. rewrite filter_cons.
  destruct (is_called name s); case_decide; try done.
  - eapply returns_seq; [apply (octstr_duplicate_ok _ _ (proj1 Hh))|]. intros r (o & -> & Ho).
    eapply returns_seq; [exact IH|]. intros hs' HF'. by constructor.
  - bind_red. eapply returns_seq; [exact IH|]. done.
Qed.

Lemma http_header_duplicate_ok (hs : headers) (ss : list (list Z)) :
  hrepr hs ss -> returns (http_header_duplicate hs) (fun hs' => hrepr hs' ss).
Proof.
  induction 1 as [|h s hs ss Hh HF IH]; [constructor|]. cbn [http_header_duplicate].
  eapply returns_seq; [apply (octstr_duplicate_ok _ _ (proj1 Hh))|]. intros r (o & -> & Ho).
  eapply returns_seq; [exact IH|]. intros hs' HF'. by constructor.
Qed.

Definition X_UNKNOWN : list Z := [88; 45; 85; 110; 107; 110; 111; 119; 110].

(** The name [http_header_get] gives to a header. *)
Definition name_of (s : list Z) : list Z :=
  match header_parts s with Some (n, _) => n | None => X_UNKNOWN end.

Lemma http_header_get_ok (hs : headers) (ss : list (list Z)) (i : nat) (s : list Z) :
  hrepr hs ss -> ss !! i = Some s ->
  returns (http_header_get hs (Z.of_nat i)) (fun '(name, value) => reprm name (name_of s) /\
    exists v, value = Some v /\
      reprm v (match header_parts s with Some (_, v) => trim isspace v | None => s end)).
Proof.
  intros HF Hi. destruct (Forall2_lookup_r _ _ _ _ _ HF Hi) as (h & Eh & Hh). unfold http_header_get, name_of.
  apply returns_assert; [lia|]. cbv zeta. rewrite Nat2Z.id, !Eh, (search_colon h s (proj1 Hh)). bind_red.
  destruct (header_parts s) as [[n v]|] eqn:E.
  - pose proof (zlen_nonneg n). destruct (Z.eqb_spec (zlen n) (-1)); [lia|].
    eapply returns_seq; [apply (octstr_copy_ok _ _ 0 (zlen n) (proj1 Hh)); lia|]. intros name Hname.
    rewrite (octstr_len_ok _ _ (proj1 Hh)). bind_red. apply header_parts_Some in E as [-> Hn].
    assert (zlen (n ++ 58 :: v) - zlen n - 1 = zlen v) as -> by list_lia. pose proof (zlen_nonneg v).
    eapply returns_seq; [apply (octstr_copy_ok _ _ _ _ (proj1 Hh)); lia|]. intros o Ho. rewrite slice_after in Ho by lia.
    eapply returns_seq; [by apply strip_both_ok|]. intros o' Ho'. cbn [returns]. split; [|by exists o'].
    unfold slice, zlen in Hname. by rewrite Nat2Z.id, drop_0, take_app_length in Hname.
  - cbn [Z.eqb]. eapply returns_seq; [apply (octstr_create_ok X_UNKNOWN); unfold X_UNKNOWN; octets_tac|]. intros name Hname.
    eapply returns_seq; [apply (octstr_duplicate_ok _ _ (proj1 Hh))|]. intros r (o & -> & Ho). cbn. split; [done|]. by exists o.
Qed.

(** The headers after [http_header_combine]: those of [old] that no header of [new]
    overrides, then [new]. *)
Definition overridden (new : list (list Z)) (s : list Z) : bool := existsb (fun t => is_called (name_of t) s) new.
Definition combined (old new : list (list Z)) : list (list Z) :=
  filter (fun s => overridden new s = false) old ++ new.

(** A header with a name that is a C string. *)
Definition named (s : list Z) : Prop := exists n v, header_parts s = Some (n, v) /\ c_name n.

Lemma named_c_name (s : list Z) : named s -> c_name (name_of s).
Proof. intros (n & v & E & Hn). unfold name_of. by rewrite E. Qed.

Lemma cstr_of_name (o : Octstr) (n : list Z) : reprm o n -> c_name n -> cstr (os_data o) = n.
Proof.
  intros [Ho _] Hn. destruct Ho as [|s rest size imm Hs Hsz]; [done|]. cbn [os_data].
  rewrite cstr_app_nul. apply cstr_no_nul. eapply Forall_impl; [|exact Hn]. by intros x [_ ?].
Qed.

Lemma filter_keep (P : list Z -> Prop) `{!forall x, Decision (P x)} (l : list (list Z)) :
  (forall x, P x) -> filter P l = l.
Proof. intros HP. induction l as [|x l IH]; [done|]. rewrite filter_cons_True by done. by rewrite IH. Qed.

Lemma combine_loop_ok (new : headers) (ts : list (list Z)) (n i : nat) (old : headers) (ss : list (list Z)) :
  hrepr new ts -> Forall named ts -> (i + n = length ts)%nat -> hrepr old ss ->
  returns (combine_loop old new (Z.of_nat i) n) (fun old' =>
    hrepr old' (filter (fun s => overridden (drop i ts) s = false) ss)).
Proof.
  intros HN Hts. revert i old ss. induction n as [|n IH]; intros i old ss Hi HF; cbn [combine_loop].
  { rewrite (drop_ge ts i) by lia. cbn [returns]. by rewrite filter_keep. }
  destruct (lookup_lt_is_Some_2 ts i ltac:(lia)) as [t Et]. rewrite (drop_S _ _ _ Et).
  eapply returns_seq; [apply (http_header_get_ok new ts i t HN Et)|]. intros [name value] [Hname _].
  assert (c_name (name_of t)) as Hc by (apply named_c_name; rewrite Forall_lookup in Hts; eauto).
  rewrite (cstr_of_name _ _ Hname Hc).
  eapply returns_seq; [by apply (http_header_remove_all_ok old ss (name_of t))|]. intros [old' k] [HF' _].
  replace (Z.of_nat i + 1) with (Z.of_nat (S i)) by lia.
  eapply returns_mono; [apply (IH (S i) old' _ ltac:(lia) HF')|]. intros old'' HF''.
  rewrite list_filter_filter in HF''. erewrite list_filter_iff; [exact HF''|]. intros s. cbn [overridden existsb].
  unfold overridden. rewrite orb_false_iff. tauto.
Qed.

Lemma http_header_combine_ok (old new : headers) (ss ts : list (list Z)) :
  hrepr old ss -> hrepr new ts -> Forall named ts ->
  returns (http_header_combine old new) (fun hs => hrepr hs (combined ss ts)).
Proof.
  intros HO HN Hts. unfold http_header_combine, http_append_headers.
  eapply (returns_seq _ _ (fun old' => hrepr old' (filter (fun s => overridden ts s = false) ss))).
  - destruct (Z.ltb_spec 0 (zlen old)).
    + rewrite (Forall2_length HN). by apply (combine_loop_ok new ts (length ts) 0).
    + pose proof (Forall2_length HO). destruct HO; [constructor|list_lia].
  - intros old' HO'. eapply returns_seq; [by apply http_header_duplicate_ok|]. intros hs Hhs. by apply Forall2_app.
Qed.

Lemma is_called_proper (n m s : list Z) : same_name n m -> is_called n s = is_called m s.
Proof.
  intros E. unfold is_called. destruct (header_parts s) as [[k v]|]; [|done]. apply bool_decide_ext. by rewrite E.
Qed.

(** A lookup in two lists one after the other. *)
Lemma lookup_header_app (ss ts : list (list Z)) (name : list Z) :
  lookup_header (ss ++ ts) name =
  match lookup_header ss name with Some v => Some v | None => lookup_header ts name end.
Proof.
  unfold lookup_header. induction ss as [|s ss IH]; [done|]. cbn [app list_find].
  destruct (decide (is_called name s)) as [Hc|Hc].
  - unfold is_called in Hc. destruct (header_parts s) as [[n v]|]; done.
  - destruct (list_find (fun s => is_called name s) (ss ++ ts)) as [[i x]|], (list_find (fun s => is_called name s) ss) as [[j y]|];
      cbn in *; exact IH.
Qed.

Lemma lookup_header_none (ss : list (list Z)) (name : list Z) :
  lookup_header ss name = None <-> Forall (fun s => is_called name s = false) ss.
Proof.
  unfold lookup_header. destruct (list_find _ ss) as [[i x]|] eqn:E.
  - apply list_find_Some in E as (Hi & Hx & _). split.
    + unfold is_called in Hx. by destruct (header_parts x).
    + intros HF. rewrite Forall_lookup in HF. specialize (HF i x Hi). by rewrite HF in Hx.
  - apply list_find_None in E. split; [|done]. intros _. eapply Forall_impl; [|exact E]. intros s Hs. cbv beta in *.
    destruct (is_called name s); [by destruct Hs|done].
Qed.

(** Only the headers that [P] keeps matter when it keeps all of that name. *)
Lemma lookup_header_filter (P : list Z -> Prop) `{!forall x, Decision (P x)} (ss : list (list Z)) (name : list Z) :
  (forall s, is_called name s = true -> P s) -> lookup_header (filter P ss) name = lookup_header ss name.
Proof.
  intros HP. induction ss as [|s ss IH]; [done|]. change (s :: ss) with ([s] ++ ss) at 2.
  rewrite lookup_header_app, filter_cons, <- IH. destruct (decide (P s)) as [Hs|Hs].
  - change (s :: filter P ss) with ([s] ++ filter P ss). by rewrite lookup_header_app.
  - assert (lookup_header [s] name = None) as ->; [|done]. apply lookup_header_none. constructor; [|constructor].
    destruct (is_called name s) eqn:E; [|done]. destruct Hs. by apply HP.
Qed.

(** ** The properties *)

(** [http_header_combine] overrides headers.  Whatever the order and the case of
    the names, looking a name up afterwards gives what the new headers say, and
    what the old ones said where the new ones are silent; the result is the list
    of the old headers that no new one overrides, followed by the new ones. *)
Theorem http_headers_combine (old new : headers) (ss ts : list (list Z)) (name : list Z) :
  hrepr old ss -> hrepr new ts -> Forall named ts -> c_name name ->
  returns (hs ← http_header_combine old new; v ← http_header_find_first hs name; Ok (hs, v)) (fun '(hs, v) =>
    hrepr hs (combined ss ts) /\
    match (match lookup_header ts name with Some v => Some v | None => lookup_header ss name end), v with
    | Some t, Some o => reprm o t
    | None, None => True
    | _, _ => False
    end).
Proof.
  intros HO HN Hts Hn. eapply returns_seq; [by apply http_header_combine_ok|]. intros hs Hhs.
  eapply returns_seq; [by apply (http_header_find_first_ok hs (combined ss ts) name)|]. intros r Hr. cbn [returns].
  split; [done|]. unfold combined in Hr. rewrite lookup_header_app in Hr.
  destruct (lookup_header ts name) as [v|] eqn:Et.
  - assert (lookup_header (filter (fun s => overridden ts s = false) ss) name = None) as E0.
    { apply lookup_header_none, Forall_forall. intros s Hs%list_elem_of_In. apply list_elem_of_filter in Hs as [Hs _].
      destruct (is_called name s) eqn:Ec; [|done]. exfalso. rewrite <- not_true_iff_false in Hs. apply Hs.
      unfold lookup_header in Et. destruct (list_find _ ts) as [[i t]|] eqn:Ef; [|done].
      apply list_find_Some in Ef as (Hi & Ht & _). apply existsb_exists. exists t.
      split; [apply list_elem_of_In; by eapply list_elem_of_lookup_2|].
      rewrite <- Ec. apply is_called_proper. unfold is_called in Ht. unfold name_of.
      destruct (header_parts t) as [[n w]|]; [|done]. by apply bool_decide_unpack in Ht. }
    rewrite E0 in Hr. destruct Hr as (o & -> & Ho). done.
  - rewrite lookup_header_filter in Hr.
    + destruct (lookup_header ss name); [by destruct Hr as (o & -> & ?)|by subst].
    + intros s Hs. apply not_true_iff_false. intros (t & Hin & Hc)%existsb_exists.
      rewrite lookup_header_none, Forall_forall in Et. specialize (Et t Hin).
      rewrite Forall_forall in Hts. destruct (Hts t Hin) as (n & w & Ep & _).
      unfold name_of in Hc. unfold is_called in Et, Hc, Hs. rewrite Ep in Et, Hc.
      destruct (header_parts s) as [[k x]|]; [|done]. apply bool_decide_eq_true in Hc, Hs.
      apply bool_decide_eq_false in Et. destruct Et. by rewrite <- Hc.
Qed.

(** Two old headers, one of which is overridden under another spelling of its name. *)
Definition sample_old : list (list Z) := [[65; 58; 32; 49]; [66; 58; 50]].
Definition sample_new : list (list Z) := [[97; 58; 32; 51; 32]].

Lemma sample_headers_ok (ss : list (list Z)) : Forall (fun s => octets s) ss -> hrepr (map mk_os ss) ss.
Proof. induction 1; constructor; [by apply mk_os_ok|done]. Qed.

Lemma http_headers_combine_witness :
  returns (hs ← http_header_combine (map mk_os sample_old) (map mk_os sample_new);
           v ← http_header_find_first hs [65]; Ok (hs, v)) (fun '(hs, v) =>
    hrepr hs (combined sample_old sample_new) /\ match v with Some o => reprm o [51] | None => False end).
Proof.
  refine (http_headers_combine (map mk_os sample_old) (map mk_os sample_new) sample_old sample_new [65] _ _ _ _).
  - apply sample_headers_ok. repeat (apply Forall_cons_2; [octets_tac|]). apply Forall_nil_2.
  - apply sample_headers_ok. repeat (apply Forall_cons_2; [octets_tac|]). apply Forall_nil_2.
  - apply Forall_cons_2; [|apply Forall_nil_2]. exists [97], [32; 51; 32]. split; [reflexivity|].
    apply Forall_cons_2; [unfold octet; lia|apply Forall_nil_2].
  - apply Forall_cons_2; [unfold octet; lia|apply Forall_nil_2].
Defined.

Example sample_combined : combined sample_old sample_new = [[66; 58; 50]; [97; 58; 32; 51; 32]].
Proof. vm_compute. reflexivity. Qed.
