(* ===== verification/HttpEntity.v ===== *)
(** * HTTP entities: headers and bodies from a connection

    The state machine of gwlib/http.c that reads the headers and the body of a
    request or response as octets arrive: [read_some_headers], the states of an
    [HTTPEntity] and [entity_read]; and [build_response], which writes such a
    message.  It works on the connections of Conn.v. *)

From S2P Require Import Prelude Octstr OctstrSearch OctstrFormat OctstrParts Conn HttpHeaders.

(** ** Headers *)

(** The loop reads a line per turn; it ends at an empty line, or when there is no
    whole line (yet).  [fuel] bounds the number of lines. *)
Fixpoint headers_loop (conn : Connection) (hs : headers) (fuel : nat) : res (Z * headers * Connection) :=
  match fuel with
  | O => Undef
  | S fuel =>
      '(line, conn) ← conn_read_line conn;
      match line with
      | None =>
          Ok (if negb (conn_eof conn =? 0) || negb (conn_error conn =? 0) then -1 else 1, hs, conn)
      | Some line =>
          n ← octstr_len (Some line);
          if n =? 0 then Ok (0, hs, conn)
          else
            c ← octstr_get_char line 0;
            match list.last hs with
            | Some prev =>
                if isspace c then
                  prev ← octstr_append prev (Some line);
                  headers_loop conn (<[pred (length hs) := prev]> hs) fuel
                else headers_loop conn (hs ++ [line]) fuel
            | None => headers_loop conn (hs ++ [line]) fuel
            end
      end
  end.

Definition read_some_headers (conn : Connection) (hs : headers) : res (Z * headers * Connection) :=
  headers_loop conn hs (S (length (stream conn))).

Definition parse_http_version (version : Octstr) : res Z :=
  let prefix := octstr_imm [72; 84; 84; 80; 47; 49; 46] in
  prefix_len ← octstr_len (Some prefix);
  c ← octstr_ncompare version prefix prefix_len;
  if negb (c =? 0) then Ok (-1)
  else
    n ← octstr_len (Some version);
    if negb (n =? prefix_len + 1) then Ok (-1)
    else
      digit ← octstr_get_char version prefix_len;
      Ok (if negb (isdigit digit) then -1 else if digit =? 48 then 0 else 1).

(** ** Entities *)

Inductive body_expectation := expect_no_body | expect_body_if_indicated | expect_body.

Inductive entity_state :=
| reading_headers
| reading_chunked_body_len
| reading_chunked_body_data
| reading_chunked_body_crlf
| reading_chunked_body_trailer
| reading_body_until_eof
| reading_body_with_length
| body_error
| entity_done.

#[export] Instance entity_state_eq_dec : EqDecision entity_state.
Proof. solve_decision. Defined.

Record HTTPEntity := mkEntity {
  e_headers : headers;
  e_body : Octstr;
  expect_state : body_expectation;
  e_state : entity_state;
  chunked_body_chunk_len : Z;
  expected_body_len : Z
}.

Definition set_estate (ent : HTTPEntity) (st : entity_state) : HTTPEntity :=
  mkEntity (e_headers ent) (e_body ent) (expect_state ent) st (chunked_body_chunk_len ent) (expected_body_len ent).

Definition set_headers (ent : HTTPEntity) (hs : headers) : HTTPEntity :=
  mkEntity hs (e_body ent) (expect_state ent) (e_state ent) (chunked_body_chunk_len ent) (expected_body_len ent).

Definition set_body (ent : HTTPEntity) (b : Octstr) : HTTPEntity :=
  mkEntity (e_headers ent) b (expect_state ent) (e_state ent) (chunked_body_chunk_len ent) (expected_body_len ent).

Definition set_chunk_len (ent : HTTPEntity) (n : Z) : HTTPEntity :=
  mkEntity (e_headers ent) (e_body ent) (expect_state ent) (e_state ent) n (expected_body_len ent).

Definition set_expected (ent : HTTPEntity) (n : Z) : HTTPEntity :=
  mkEntity (e_headers ent) (e_body ent) (expect_state ent) (e_state ent) (chunked_body_chunk_len ent) n.

Definition TRANSFER_ENCODING : list Z := [84; 114; 97; 110; 115; 102; 101; 114; 45; 69; 110; 99; 111; 100; 105; 110; 103].
Definition CONTENT_LENGTH : list Z := [67; 111; 110; 116; 101; 110; 116; 45; 76; 101; 110; 103; 116; 104].
Definition CHUNKED : list Z := [99; 104; 117; 110; 107; 101; 100].

Definition deduce_body_state (ent : HTTPEntity) : res HTTPEntity :=
  match expect_state ent with
  | expect_no_body => Ok (set_estate ent entity_done)
  | exp =>
      h ← http_header_find_first (e_headers ent) TRANSFER_ENCODING;
      match h with
      | Some h =>
          h ← octstr_strip_blanks h;
          c ← octstr_str_compare h (Some CHUNKED);
          Ok (set_estate ent (if negb (c =? 0) then body_error else reading_chunked_body_len))
      | None =>
          h ← http_header_find_first (e_headers ent) CONTENT_LENGTH;
          match h with
          | Some h =>
              r ← octstr_parse_long h 0 10;
              Ok (match r with
                  | None => set_estate ent body_error
                  | Some (n, _) =>
                      set_estate (set_expected ent n)
                        (if n <? 0 then body_error else if n =? 0 then entity_done else reading_body_with_length)
                  end)
          | None =>
              Ok (set_estate ent (match exp with expect_body => reading_body_until_eof | _ => entity_done end))
          end
      end
  end.

Definition entity_create (exp : body_expectation) : res HTTPEntity :=
  b ← octstr_create [];
  Ok (mkEntity http_create_empty_headers b exp reading_headers (-1) (-1)).

(** The state after nothing could be read. *)
Definition stalled (ent : HTTPEntity) (conn : Connection) : HTTPEntity :=
  if negb (conn_error conn =? 0) || negb (conn_eof conn =? 0) then set_estate ent body_error else ent.

Definition read_chunked_body_len (ent : HTTPEntity) (conn : Connection) : res (HTTPEntity * Connection) :=
  '(os, conn) ← conn_read_line conn;
  match os with
  | None => Ok (stalled ent conn, conn)
  | Some os =>
      r ← octstr_parse_long os 0 16;
      Ok (match r with
          | None => set_estate ent body_error
          | Some (len, _) =>
              if len =? 0 then set_estate ent reading_chunked_body_trailer
              else set_chunk_len (set_estate ent reading_chunked_body_data) len
          end, conn)
  end.

Definition read_chunked_body_data (ent : HTTPEntity) (conn : Connection) : res (HTTPEntity * Connection) :=
  '(os, conn) ← conn_read_fixed conn (chunked_body_chunk_len ent);
  match os with
  | None => Ok (stalled ent conn, conn)
  | Some os =>
      b ← octstr_append (e_body ent) (Some os);
      Ok (set_estate (set_body ent b) reading_chunked_body_crlf, conn)
  end.

Definition read_chunked_body_crlf (ent : HTTPEntity) (conn : Connection) : res (HTTPEntity * Connection) :=
  '(os, conn) ← conn_read_line conn;
  match os with
  | None => Ok (stalled ent conn, conn)
  | Some _ => Ok (set_estate ent reading_chunked_body_len, conn)
  end.

Definition read_chunked_body_trailer (ent : HTTPEntity) (conn : Connection) : res (HTTPEntity * Connection) :=
  '(ret, hs, conn) ← read_some_headers conn (e_headers ent);
  let ent := set_headers ent hs in
  Ok (if ret =? -1 then set_estate ent body_error
      else if ret =? 0 then set_estate ent entity_done else ent, conn).

Fixpoint until_eof_loop (body : Octstr) (conn : Connection) (fuel : nat) : res (Octstr * Connection) :=
  match fuel with
  | O => Undef
  | S fuel =>
      '(os, conn) ← conn_read_everything conn;
      match os with
      | None => Ok (body, conn)
      | Some os => body ← octstr_append body (Some os); until_eof_loop body conn fuel
      end
  end.

Definition read_body_until_eof (ent : HTTPEntity) (conn : Connection) : res (HTTPEntity * Connection) :=
  '(b, conn) ← until_eof_loop (e_body ent) conn (S (length (stream conn)));
  let ent := set_body ent b in
  let ent := if negb (conn_error conn =? 0) then set_estate ent body_error else ent in
  Ok (if negb (conn_eof conn =? 0) then set_estate ent entity_done else ent, conn).

Definition read_body_with_length (ent : HTTPEntity) (conn : Connection) : res (HTTPEntity * Connection) :=
  '(os, conn) ← conn_read_fixed conn (expected_body_len ent);
  match os with
  | None => Ok (stalled ent conn, conn)
  | Some os => Ok (set_estate (set_body ent os) entity_done, conn)
  end.

(** One turn of the loop of [entity_read]; [inl] is a return from within it. *)
Definition entity_step (ent : HTTPEntity) (conn : Connection)
  : res ((Z * HTTPEntity * Connection) + (HTTPEntity * Connection)) :=
  match e_state ent with
  | reading_headers =>
      '(ret, hs, conn) ← read_some_headers conn (e_headers ent);
      let ent := set_headers ent hs in
      ent ← (if ret =? 0 then deduce_body_state ent else Ok ent);
      Ok (if ret <? 0 then inl (-1, ent, conn) else inr (ent, conn))
  | reading_chunked_body_len => r ← read_chunked_body_len ent conn; Ok (inr r)
  | reading_chunked_body_data => r ← read_chunked_body_data ent conn; Ok (inr r)
  | reading_chunked_body_crlf => r ← read_chunked_body_crlf ent conn; Ok (inr r)
  | reading_chunked_body_trailer => r ← read_chunked_body_trailer ent conn; Ok (inr r)
  | reading_body_until_eof => r ← read_body_until_eof ent conn; Ok (inr r)
  | reading_body_with_length => r ← read_body_with_length ent conn; Ok (inr r)
  | body_error => Ok (inl (-1, ent, conn))
  | entity_done => Ok (inl (0, ent, conn))
  end.

(** The loop goes on as long as the state changes. *)
Fixpoint entity_loop (ent : HTTPEntity) (conn : Connection) (fuel : nat) : res (Z * HTTPEntity * Connection) :=
  match fuel with
  | O => Undef
  | S fuel =>
      r ← entity_step ent conn;
      match r with
      | inl r => Ok r
      | inr (ent', conn') =>
          if decide (e_state ent' = e_state ent) then Ok (1, ent', conn') else entity_loop ent' conn' fuel
      end
  end.

(** Every change of state but one to [body_error] takes an octet, so this is enough. *)
Definition entity_read (ent : HTTPEntity) (conn : Connection) : res (Z * HTTPEntity * Connection) :=
  entity_loop ent conn (length (stream conn) + 3).

(** ** Writing *)

Fixpoint append_lines (response : Octstr) (hs : headers) : res Octstr :=
  match hs with
  | [] => Ok response
  | h :: hs =>
      response ← octstr_append response (Some h);
      response ← octstr_append response (Some (octstr_imm [13; 10]));
      append_lines response hs
  end.

Definition build_response (hs : headers) (body : option Octstr) : res Octstr :=
  response ← octstr_create [];
  response ← append_lines response hs;
  response ← octstr_append response (Some (octstr_imm [13; 10]));
  match body with
  | Some body => octstr_append response (Some body)
  | None => Ok response
  end.

(** ** What a message says *)

(** A header line joins the previous header when it starts with a blank. *)
Definition add_line (hs : list (list Z)) (l : list Z) : list (list Z) :=
  match list.last hs with
  | Some prev => if isspace (char_at l 0) then <[pred (length hs) := prev ++ l]> hs else hs ++ [l]
  | None => hs ++ [l]
  end.

Definition no_lf (l : list Z) : Prop := Forall (fun c => c <> 10) l.

(** [reads_headers hs s hs' s']: the lines at the front of [s], up to an empty one,
    extend the headers [hs] to [hs'] and leave [s']. *)
Inductive reads_headers : list (list Z) -> list Z -> list (list Z) -> list Z -> Prop :=
| rh_end hs l s : no_lf l -> strip_cr l = [] -> reads_headers hs (l ++ 10 :: s) hs s
| rh_line hs l s hs' s' : no_lf l -> strip_cr l <> [] -> reads_headers (add_line hs (strip_cr l)) s hs' s' ->
    reads_headers hs (l ++ 10 :: s) hs' s'.

(** The number at the start of a text, as [octstr_parse_long] reads it. *)
Definition leading_number (s : list Z) (base : Z) : option Z :=
  if zlen s <=? 0 then None
  else let '(number, used, erange) := strtol (cstr s) base in
    if erange : bool then None else if used =? 0 then None else Some number.

(** An entity by its contents. *)
Record entity_text := mkText {
  t_headers : list (list Z);
  t_body : list Z;
  t_expect : body_expectation;
  t_state : entity_state;
  t_chunk : Z;
  t_length : Z
}.

(** The state after the headers, and the length of the body. *)
Definition deduced (t : entity_text) : entity_text :=
  let go st n := mkText (t_headers t) (t_body t) (t_expect t) st (t_chunk t) n in
  match t_expect t with
  | expect_no_body => go entity_done (t_length t)
  | exp =>
      match lookup_header (t_headers t) TRANSFER_ENCODING with
      | Some v =>
          go (if decide (cstr (trim isspace v) = CHUNKED) then reading_chunked_body_len else body_error) (t_length t)
      | None =>
          match lookup_header (t_headers t) CONTENT_LENGTH with
          | Some v =>
              match leading_number v 10 with
              | None => go body_error (t_length t)
              | Some n => go (if n <? 0 then body_error else if n =? 0 then entity_done else reading_body_with_length) n
              end
          | None => go (match exp with expect_body => reading_body_until_eof | _ => entity_done end) (t_length t)
          end
      end
  end.

(** [reads_entity t s f rest]: reading [s] from the state [t] ends in the complete
    entity [f] and leaves [rest]. *)
Inductive reads_entity : entity_text -> list Z -> entity_text -> list Z -> Prop :=
| re_done hs b x n m s : reads_entity (mkText hs b x entity_done n m) s (mkText hs b x entity_done n m) s
| re_headers hs b x n m s hs' s' f rest :
    reads_headers hs s hs' s' -> reads_entity (deduced (mkText hs' b x reading_headers n m)) s' f rest ->
    reads_entity (mkText hs b x reading_headers n m) s f rest
| re_chunk hs b x n m l k s f rest :
    no_lf l -> leading_number (strip_cr l) 16 = Some k -> k <> 0 ->
    reads_entity (mkText hs b x reading_chunked_body_data k m) s f rest ->
    reads_entity (mkText hs b x reading_chunked_body_len n m) (l ++ 10 :: s) f rest
| re_last hs b x n m l s f rest :
    no_lf l -> leading_number (strip_cr l) 16 = Some 0 ->
    reads_entity (mkText hs b x reading_chunked_body_trailer n m) s f rest ->
    reads_entity (mkText hs b x reading_chunked_body_len n m) (l ++ 10 :: s) f rest
| re_data hs b x n m d s f rest :
    zlen d = n -> 1 <= n -> reads_entity (mkText hs (b ++ d) x reading_chunked_body_crlf n m) s f rest ->
    reads_entity (mkText hs b x reading_chunked_body_data n m) (d ++ s) f rest
| re_crlf hs b x n m l s f rest :
    no_lf l -> reads_entity (mkText hs b x reading_chunked_body_len n m) s f rest ->
    reads_entity (mkText hs b x reading_chunked_body_crlf n m) (l ++ 10 :: s) f rest
| re_trailer hs b x n m s hs' s' f rest :
    reads_headers hs s hs' s' -> reads_entity (mkText hs' b x entity_done n m) s' f rest ->
    reads_entity (mkText hs b x reading_chunked_body_trailer n m) s f rest
| re_length hs b x n m d s f rest :
    zlen d = m -> 1 <= m -> reads_entity (mkText hs d x entity_done n m) s f rest ->
    reads_entity (mkText hs b x reading_body_with_length n m) (d ++ s) f rest.

(** The entity in memory stands for a text. *)
Record erepr (ent : HTTPEntity) (t : entity_text) : Prop := {
  er_headers : hrepr (e_headers ent) (t_headers t);
  er_body : reprm (e_body ent) (t_body t);
  er_expect : expect_state ent = t_expect t;
  er_state : e_state ent = t_state t;
  er_chunk : chunked_body_chunk_len ent = t_chunk t;
  er_length : expected_body_len ent = t_length t
}.

(** ** Reading lines and blocks from a calm connection *)

Lemma line_unique (l k s t : list Z) : no_lf l -> no_lf k -> l ++ 10 :: s = k ++ 10 :: t -> l = k /\ s = t.
Proof.
  revert k. induction l as [|c l IH]; intros [|d k] Hl Hk; cbn [app].
  - by intros [= ->].
  - intros [= <- _]. by apply Forall_cons_iff in Hk as [? _].
  - intros [= -> _]. by apply Forall_cons_iff in Hl as [? _].
  - intros [= -> E]. apply Forall_cons_iff in Hl as [_ Hl]. apply Forall_cons_iff in Hk as [_ Hk].
    by destruct (IH k Hl Hk E) as [-> ->].
Qed.

Lemma calm_flags (c : Connection) :
  calm c -> negb (conn_error c =? 0) || negb (conn_eof c =? 0) = false /\
            negb (conn_eof c =? 0) || negb (conn_error c =? 0) = false.
Proof. intros (_ & E1 & E2). unfold conn_error, conn_eof. by rewrite E1, E2. Qed.

Lemma stalled_calm (ent : HTTPEntity) (c : Connection) : calm c -> stalled ent c = ent.
Proof. intros H. unfold stalled. by rewrite (proj1 (calm_flags c H)). Qed.

(** With a line at the front of the stream, [conn_read_line] gives it, or uses up a
    [read] that brought too little. *)
Lemma read_line_calm (c : Connection) (l s : list Z) :
  conn_ok c -> calm c -> stream c = l ++ 10 :: s -> no_lf l ->
  returns (conn_read_line c) (fun '(r, c') => reading c c' /\
    match r with
    | Some o => reprm o (strip_cr l) /\ stream c' = s
    | None => stream c' = stream c /\ (reads_left (reads (fd c')) < reads_left (reads (fd c)))%nat
    end).
Proof.
  intros H Hc E Hl. eapply returns_mono; [by apply conn_read_line_ok|]. intros [[o|] c'] R.
  - destruct R as (k & Hk & Ho & [R1 T1]). split; [done|]. rewrite E in T1. rewrite <- app_assoc in T1.
    by destruct (line_unique _ _ _ _ Hl Hk T1) as [-> ->].
  - destruct R as ([R1 T1] & Hn & Hp). split; [done|]. split; [by rewrite T1|].
    destruct Hp as [Hp|[_ Hp]]; [done|]. exfalso. cbn [app] in T1.
    assert (stream c' = unread c') as E' by (unfold stream; by rewrite Hp, app_nil_r).
    rewrite T1, E' in E. rewrite E in Hn. apply Forall_app in Hn as [_ Hn]. by apply Forall_cons_iff in Hn as [? _].
Qed.

Lemma read_fixed_calm (c : Connection) (d s : list Z) :
  conn_ok c -> calm c -> stream c = d ++ s -> 1 <= zlen d ->
  returns (conn_read_fixed c (zlen d)) (fun '(r, c') => reading c c' /\
    match r with
    | Some o => reprm o d /\ stream c' = s
    | None => stream c' = stream c /\ (reads_left (reads (fd c')) < reads_left (reads (fd c)))%nat
    end).
Proof.
  intros H Hc E Hl. eapply returns_mono; [by apply conn_read_fixed_ok|]. intros [[o|] c'] R.
  - destruct R as (k & Ho & Hk & [R1 T1]). split; [done|]. rewrite E in T1.
    apply app_inj_1 in T1 as [-> ->]; [done|list_lia].
  - destruct R as ([R1 T1] & [Hn|[Hn Hp]]); [lia|]. split; [done|]. split; [by rewrite T1|].
    destruct Hp as [Hp|[_ Hp]]; [done|]. exfalso. cbn [app] in T1.
    assert (stream c' = unread c') as E' by (unfold stream; by rewrite Hp, app_nil_r).
    rewrite T1, E' in E. rewrite E, zlen_app in Hn. pose proof (zlen_nonneg s). lia.
Qed.

(** ** Headers *)

Lemma add_line_ok (hs : headers) (ss : list (list Z)) (line : Octstr) (l : list Z) :
  hrepr hs ss -> reprm line l ->
  match list.last hs with
  | Some prev =>
      if isspace (char_at l 0) then
        returns (octstr_append prev (Some line)) (fun o => hrepr (<[pred (length hs) := o]> hs) (add_line ss l))
      else hrepr (hs ++ [line]) (add_line ss l)
  | None => hrepr (hs ++ [line]) (add_line ss l)
  end.
Proof.
  intros HF Hl. assert (hrepr (hs ++ [line]) (ss ++ [l])) as HA by (apply Forall2_app; [done|by constructor]).
  unfold add_line. pose proof (Forall2_length HF) as Hn. rewrite !last_lookup, Hn.
  destruct (hs !! pred (length ss)) as [prev|] eqn:E.
  - destruct (Forall2_lookup_l _ _ _ _ _ HF E) as (p & Ep & Hp). rewrite Ep.
    destruct (isspace (char_at l 0)); [|done].
    eapply returns_mono; [apply (octstr_append_ok _ _ _ _ Hp (proj1 Hl))|]. intros o Ho. by apply Forall2_insert.
  - destruct (ss !! pred (length ss)) as [p|] eqn:Ep; [|done].
    destruct (Forall2_lookup_r _ _ _ _ _ HF Ep) as (x & Ex & _). congruence.
Qed.

Lemma headers_loop_ok (fuel : nat) (c : Connection) (hs : headers) (ss ss' : list (list Z)) (s' : list Z) :
  conn_ok c -> calm c -> hrepr hs ss -> reads_headers ss (stream c) ss' s' -> (length (stream c) < fuel)%nat ->
  returns (headers_loop c hs fuel) (fun '(ret, hs', c') => reading c c' /\
    ((ret = 0 /\ hrepr hs' ss' /\ stream c' = s' /\ (length s' < length (stream c))%nat) \/
     (ret = 1 /\ (reads_left (reads (fd c')) < reads_left (reads (fd c)))%nat /\
      exists ss1, hrepr hs' ss1 /\ reads_headers ss1 (stream c') ss' s'))).
Proof.
  intros H Hc HF HR. remember (stream c) as st eqn:Est. revert fuel c hs H Hc HF Est.
  induction HR as [ss l s Hl He|ss l s ss' s' Hl He HR IH]; intros fuel c hs H Hc HF Est Hf;
    (destruct fuel as [|fuel]; [lia|]); cbn [headers_loop];
    (eapply returns_seq; [by apply (read_line_calm c l s)|]); intros [[o|] c1] [R1 R].
  - destruct R as [Ho E1]. rewrite (octstr_len_ok _ _ (proj1 Ho)), He. bind_red. cbn [returns zlen].
    change (zlen [] =? 0) with true. cbn [returns]. split; [done|]. left. rewrite E1. split_and!; try done. list_lia.
  - destruct R as [E1 Hlt]. rewrite (proj2 (calm_flags c1 (proj1 (proj2 (proj2 (proj2 (proj2 R1)))) Hc))). cbn [returns].
    split; [done|]. right. split; [done|]. split; [done|]. exists ss. split; [done|]. rewrite E1, <- Est. by constructor.
  - destruct R as [Ho E1]. rewrite (octstr_len_ok _ _ (proj1 Ho)). bind_red.
    destruct (Z.eqb_spec (zlen (strip_cr l)) 0) as [E0|_]; [by apply zlen_0_inv in E0|].
    rewrite (octstr_get_char_ok _ _ _ (proj1 Ho)). bind_red.
    assert (forall hs1, hrepr hs1 (add_line ss (strip_cr l)) -> returns (headers_loop c1 hs1 fuel) (fun '(ret, hs', c') =>
      reading c c' /\ ((ret = 0 /\ hrepr hs' ss' /\ stream c' = s' /\ (length s' < length (l ++ 10%Z :: s))%nat) \/
      (ret = 1 /\ (reads_left (reads (fd c')) < reads_left (reads (fd c)))%nat /\
       exists ss1, hrepr hs' ss1 /\ reads_headers ss1 (stream c') ss' s')))) as Hgo.
    { intros hs1 HF1. destruct R1 as (H1 & ? & ? & ? & Hc1 & Hle).
      eapply returns_mono; [apply (IH fuel c1 hs1 H1 (Hc1 Hc) HF1); [done|list_lia]|].
      intros [[ret hs'] c'] [R2 HX]. split; [by eapply reading_trans|].
      destruct HX as [(? & ? & ? & ?)|(? & ? & ?)]; [left|right]; split_and!; try done; [list_lia|lia]. }
    pose proof (add_line_ok hs ss o (strip_cr l) HF Ho) as HA. destruct (list.last hs); [|by apply Hgo].
    destruct (isspace _); [|by apply Hgo]. eapply returns_seq; [exact HA|]. intros prev Hprev. by apply Hgo.
  - destruct R as [E1 Hlt]. rewrite (proj2 (calm_flags c1 (proj1 (proj2 (proj2 (proj2 (proj2 R1)))) Hc))). cbn [returns].
    split; [done|]. right. split; [done|]. split; [done|]. exists ss. split; [done|]. rewrite E1, <- Est. by apply rh_line.
Qed.

(** ** The state after the headers *)

Lemma parse_long_ok (o : Octstr) (s : list Z) (base : Z) :
  repr o s -> base = 0 \/ 2 <= base <= 36 ->
  exists r, octstr_parse_long o 0 base = Ok r /\ (fst <$> r) = leading_number s base.
Proof.
  intros Ho Hb. rewrite (octstr_parse_long_ok o s 0 base Ho ltac:(lia) Hb). eexists. split; [done|].
  unfold leading_number. destruct (zlen s <=? 0); [done|]. rewrite drop_0. destruct (strtol _ _) as [[n u] [|]]; [done|].
  by destruct (u =? 0).
Qed.

Lemma transfer_encoding_name : c_name TRANSFER_ENCODING.
Proof. unfold TRANSFER_ENCODING. repeat (apply Forall_cons_2; [unfold octet; lia|]). apply Forall_nil_2. Qed.

Lemma content_length_name : c_name CONTENT_LENGTH.
Proof. unfold CONTENT_LENGTH. repeat (apply Forall_cons_2; [unfold octet; lia|]). apply Forall_nil_2. Qed.

Lemma deduce_ok (ent : HTTPEntity) (t : entity_text) :
  erepr ent t -> returns (deduce_body_state ent) (fun ent' => erepr ent' (deduced t)).
Proof.
  intros [H1 H2 H3 H4 H5 H6]. unfold deduce_body_state, deduced. rewrite H3.
  destruct (t_expect t) eqn:Ex; [by split; cbn; congruence|..];
  (eapply returns_seq; [by apply (http_header_find_first_ok _ _ TRANSFER_ENCODING H1 transfer_encoding_name)|]);
  (intros r Hr; destruct (lookup_header (t_headers t) TRANSFER_ENCODING) as [v|];
   [destruct Hr as (o & -> & Ho);
    eapply returns_seq; [by apply strip_both_ok|]; intros o' Ho';
    destruct (str_compare_eq _ _ CHUNKED (proj1 Ho')) as (k & -> & Hk); bind_red; cbn [returns];
    split; cbn; try congruence; destruct (Z.eqb_spec k 0); case_decide; naive_solver|subst r]);
  (eapply returns_seq; [by apply (http_header_find_first_ok _ _ CONTENT_LENGTH H1 content_length_name)|]);
  (intros r Hr; destruct (lookup_header (t_headers t) CONTENT_LENGTH) as [v|];
   [destruct Hr as (o & -> & Ho);
    destruct (parse_long_ok o v 10 (proj1 Ho)) as (k & -> & Hk); [lia|]; bind_red; cbn [returns];
    rewrite <- Hk; destruct k as [[n q]|]; cbn; split; cbn; congruence|subst r; split; cbn; congruence]).
Qed.

Lemma deduced_moves (t : entity_text) : t_state (deduced t) <> reading_headers.
Proof. unfold deduced. repeat case_match; done. Qed.

(** ** A turn of the loop, and a call *)

Definition advanced (ent : HTTPEntity) (c : Connection) (f : entity_text) (rest : list Z)
    (ent' : HTTPEntity) (c' : Connection) : Prop :=
  reading c c' /\ exists t', erepr ent' t' /\ reads_entity t' (stream c') f rest /\
    ((e_state ent' = e_state ent /\ (reads_left (reads (fd c')) < reads_left (reads (fd c)))%nat) \/
     (e_state ent' <> e_state ent /\ (length (stream c') < length (stream c))%nat)).

(** The states that read a line; [t'] is the state after it. *)
Lemma line_advances (ent : HTTPEntity) (c : Connection) (t : entity_text) (l s : list Z) (f : entity_text) (rest : list Z)
    (k : Octstr -> Connection -> res (HTTPEntity * Connection)) (t' : entity_text) :
  conn_ok c -> calm c -> erepr ent t -> stream c = l ++ 10 :: s -> no_lf l ->
  reads_entity t (stream c) f rest -> reads_entity t' s f rest -> t_state t' <> t_state t ->
  (forall o c1, reprm o (strip_cr l) -> returns (k o c1) (fun '(ent', c') => c' = c1 /\ erepr ent' t')) ->
  returns ('(os, conn) ← conn_read_line c;
           match os with
           | None => Ok (stalled ent conn, conn)
           | Some os => k os conn
           end) (fun '(ent', c') => advanced ent c f rest ent' c').
Proof.
  intros H Hc He E Hl HR HR' Hst Hk. eapply returns_seq; [by apply (read_line_calm c l s)|].
  intros [[o|] c1] [R1 R].
  - destruct R as [Ho E1]. eapply returns_mono; [by apply Hk|]. intros [ent' c'] [-> He']. split; [done|].
    exists t'. rewrite E1. split_and!; try done. right.
    rewrite (er_state _ _ He), (er_state _ _ He'). split; [done|]. rewrite E. list_lia.
  - destruct R as [E1 Hlt]. rewrite stalled_calm by (by apply R1). cbn [returns]. split; [done|]. exists t. rewrite E1. auto.
Qed.

(** The states that read a block of [d]. *)
Lemma block_advances (ent : HTTPEntity) (c : Connection) (t : entity_text) (d s : list Z) (f : entity_text) (rest : list Z)
    (k : Octstr -> Connection -> res (HTTPEntity * Connection)) (t' : entity_text) :
  conn_ok c -> calm c -> erepr ent t -> stream c = d ++ s -> 1 <= zlen d ->
  reads_entity t (stream c) f rest -> reads_entity t' s f rest -> t_state t' <> t_state t ->
  (forall o c1, reprm o d -> returns (k o c1) (fun '(ent', c') => c' = c1 /\ erepr ent' t')) ->
  returns ('(os, conn) ← conn_read_fixed c (zlen d);
           match os with
           | None => Ok (stalled ent conn, conn)
           | Some os => k os conn
           end) (fun '(ent', c') => advanced ent c f rest ent' c').
Proof.
  intros H Hc He E Hl HR HR' Hst Hk. eapply returns_seq; [by apply (read_fixed_calm c d s)|].
  intros [[o|] c1] [R1 R].
  - destruct R as [Ho E1]. eapply returns_mono; [by apply Hk|]. intros [ent' c'] [-> He']. split; [done|].
    exists t'. rewrite E1. split_and!; try done. right.
    rewrite (er_state _ _ He), (er_state _ _ He'). split; [done|]. rewrite E. list_lia.
  - destruct R as [E1 Hlt]. rewrite stalled_calm by (by apply R1). cbn [returns]. split; [done|]. exists t. rewrite E1. auto.
Qed.

Lemma entity_step_ok (ent : HTTPEntity) (c : Connection) (t f : entity_text) (rest : list Z) :
  conn_ok c -> calm c -> erepr ent t -> reads_entity t (stream c) f rest ->
  returns (entity_step ent c) (fun r =>
    match r with
    | inl (ret, ent', c') => ret = 0 /\ erepr ent' f /\ stream c' = rest /\ c' = c
    | inr (ent', c') => advanced ent c f rest ent' c'
    end).
Proof.
  intros H Hc He HR. unfold entity_step. rewrite (er_state _ _ He). pose proof HR as HR0.
  inversion HR as [hs b x n m s|hs b x n m s hs' s' f' rest' Hh HR'|hs b x n m l k s f' rest' Hl Hk Hk0 HR'
    |hs b x n m l s f' rest' Hl Hk HR'|hs b x n m d s f' rest' Hd Hd1 HR'|hs b x n m l s f' rest' Hl HR'
    |hs b x n m s hs' s' f' rest' Hh HR'|hs b x n m d s f' rest' Hd Hd1 HR']; subst; cbn [t_state].
  - cbn. split_and!; done.
  - eapply returns_seq; [apply (headers_loop_ok _ c _ hs hs' s' H Hc (er_headers _ _ He) Hh); lia|].
    intros [[ret hs1] c1] [R1 [(-> & HF & E1 & Hlt)|(-> & Hlt & ss1 & HF & HR1)]].
    + cbn [Z.eqb]. eapply returns_seq; [apply (deduce_ok _ (mkText hs' b x reading_headers n m)); destruct He; by split|].
      intros ent' He'. cbn. split; [done|]. eexists. split; [exact He'|]. rewrite E1. split; [done|]. right.
      rewrite (er_state _ _ He), (er_state _ _ He'). split; [apply deduced_moves|done].
    + cbn. split; [done|]. exists (mkText ss1 b x reading_headers n m). split; [destruct He; by split|].
      split; [by eapply re_headers|]. by left.
  - unfold read_chunked_body_len. eapply (returns_seq _ _ (fun '(ent', c') => advanced ent c f rest ent' c')); [|by intros [ent' c']].
    eapply (line_advances ent c _ l s f rest); try done. intros o c1 Ho.
    destruct (parse_long_ok o _ 16 (proj1 Ho)) as (r & -> & Er); [lia|]. rewrite Hk in Er. bind_red.
    destruct r as [[v q]|]; [|done]. injection Er as ->. cbn. destruct (Z.eqb_spec k 0); [done|].
    split; [done|]. destruct He; by split.
  - unfold read_chunked_body_len. eapply (returns_seq _ _ (fun '(ent', c') => advanced ent c f rest ent' c')); [|by intros [ent' c']].
    eapply (line_advances ent c _ l s f rest); try done. intros o c1 Ho.
    destruct (parse_long_ok o _ 16 (proj1 Ho)) as (r & -> & Er); [lia|]. rewrite Hk in Er. bind_red.
    destruct r as [[v q]|]; [|done]. injection Er as ->. cbn. split; [done|]. destruct He; by split.
  - unfold read_chunked_body_data. rewrite (er_chunk _ _ He). cbn [t_chunk]. eapply (returns_seq _ _ (fun '(ent', c') => advanced ent c f rest ent' c')); [|by intros [ent' c']].
    eapply (block_advances ent c _ d s f rest); try done. intros o c1 Ho.
    eapply returns_seq; [apply (octstr_append_ok _ _ _ _ (er_body _ _ He) (proj1 Ho))|]. intros b' Hb'. cbn.
    split; [done|]. destruct He; by split.
  - unfold read_chunked_body_crlf. eapply (returns_seq _ _ (fun '(ent', c') => advanced ent c f rest ent' c')); [|by intros [ent' c']].
    eapply (line_advances ent c _ l s f rest); try done. intros o c1 Ho. cbn. split; [done|]. destruct He; by split.
  - unfold read_chunked_body_trailer, read_some_headers. eapply (returns_seq _ _ (fun '(ent', c') => advanced ent c f rest ent' c')); [|by intros [ent' c']].
    eapply returns_seq; [apply (headers_loop_ok _ c _ hs hs' s' H Hc (er_headers _ _ He) Hh); lia|].
    intros [[ret hs1] c1] [R1 [(-> & HF & E1 & Hlt)|(-> & Hlt & ss1 & HF & HR1)]]; cbn; (split; [done|]).
    + eexists. split; [|rewrite E1; split; [exact HR'|]]; [destruct He; by split|]. right. split; [|done].
      by rewrite (er_state _ _ He).
    + exists (mkText ss1 b x reading_chunked_body_trailer n m). split; [destruct He; by split|].
      split; [by eapply re_trailer|]. by left.
  - unfold read_body_with_length. rewrite (er_length _ _ He). cbn [t_length]. eapply (returns_seq _ _ (fun '(ent', c') => advanced ent c f rest ent' c')); [|by intros [ent' c']].
    eapply (block_advances ent c _ d s f rest); try done. intros o c1 Ho. cbn. split; [done|]. destruct He; by split.
Qed.

Lemma entity_loop_ok (fuel : nat) (ent : HTTPEntity) (c : Connection) (t f : entity_text) (rest : list Z) :
  conn_ok c -> calm c -> erepr ent t -> reads_entity t (stream c) f rest -> (length (stream c) < fuel)%nat ->
  returns (entity_loop ent c fuel) (fun '(ret, ent', c') => reading c c' /\
    ((ret = 0 /\ erepr ent' f /\ stream c' = rest) \/
     (ret = 1 /\ (reads_left (reads (fd c')) < reads_left (reads (fd c)))%nat /\
      exists t', erepr ent' t' /\ reads_entity t' (stream c') f rest))).
Proof.
  revert ent c t. induction fuel as [|fuel IH]; intros ent c t H Hc He HR Hf; [lia|]. cbn [entity_loop].
  eapply returns_seq; [by apply (entity_step_ok ent c t f rest)|].
  intros [[[ret ent'] c']|[ent' c']]; [intros (-> & ? & ? & ->); cbn; split; [by apply reading_refl|by left]|].
  intros (R & t' & He' & HR' & Hst). case_decide as Hd.
  - destruct Hst as [[_ Hlt]|[Hne _]]; [|done]. cbn. split; [done|]. right. split; [done|]. split; [done|]. by exists t'.
  - destruct Hst as [[He1 _]|[_ Hlt]]; [done|]. destruct (R) as (H1 & _ & _ & _ & Hc1 & Hle).
    eapply returns_mono; [apply (IH ent' c' t' H1 (Hc1 Hc) He' HR'); lia|].
    intros [[ret ent''] c''] [R2 HX]. split; [by eapply reading_trans|].
    destruct HX as [HX|(-> & Hlt2 & HX)]; [by left|]. right. split; [done|]. split; [lia|done].
Qed.

(** The caller: [entity_read] is called again, at most [n] times, while it wants more
    input. *)
Fixpoint entity_calls (ent : HTTPEntity) (conn : Connection) (n : nat) : res (Z * HTTPEntity * Connection) :=
  '(ret, ent, conn) ← entity_read ent conn;
  match n with
  | O => Ok (ret, ent, conn)
  | S n => if ret =? 1 then entity_calls ent conn n else Ok (ret, ent, conn)
  end.

Lemma entity_calls_ok (n : nat) (ent : HTTPEntity) (c : Connection) (t f : entity_text) (rest : list Z) :
  conn_ok c -> calm c -> erepr ent t -> reads_entity t (stream c) f rest ->
  (reads_left (reads (fd c)) <= n)%nat ->
  returns (entity_calls ent c n) (fun '(ret, ent', c') =>
    ret = 0 /\ erepr ent' f /\ stream c' = rest /\ reading c c').
Proof.
  revert ent c t. induction n as [|n IH]; intros ent c t H Hc He HR Hn; cbn [entity_calls];
    (eapply returns_seq; [apply (entity_loop_ok _ ent c t f rest H Hc He HR); lia|]);
    intros [[ret ent'] c'] [R [(-> & He' & E)|(-> & Hlt & t' & He' & HR')]].
  - done.
  - lia.
  - cbn. done.
  - cbn [Z.eqb Pos.eqb]. destruct (R) as (H1 & _ & _ & _ & Hc1 & Hle).
    eapply returns_mono; [apply (IH ent' c' t' H1 (Hc1 Hc) He' HR'); lia|].
    intros [[ret ent''] c''] (-> & He'' & E & R2). split_and!; try done. by eapply reading_trans.
Qed.

(** ** Building a message *)

(** A header that is one line of its own. *)
Definition header_line (s : list Z) : Prop :=
  s <> [] /\ octets s /\ no_lf s /\ list.last s <> Some 13 /\ isspace (char_at s 0) = false.

Definition http_text (hs : list (list Z)) (body : list Z) : list Z :=
  concat (map (fun h => h ++ [13; 10]) hs) ++ [13; 10] ++ body.

Lemma append_lines_ok (hs : headers) (ss : list (list Z)) (o : Octstr) (s : list Z) :
  reprm o s -> hrepr hs ss ->
  returns (append_lines o hs) (fun o' => reprm o' (s ++ concat (map (fun h => h ++ [13; 10]) ss))).
Proof.
  intros Ho HF. revert o s Ho. induction HF as [|h t hs ss Hh HF IH]; intros o s Ho; cbn [append_lines].
  { by rewrite app_nil_r. }
  eapply returns_seq; [apply (octstr_append_ok _ _ _ _ Ho (proj1 Hh))|]. intros o1 Ho1.
  eapply returns_seq; [apply (octstr_append_ok _ _ _ _ Ho1 (octstr_imm_ok [13; 10] ltac:(octets_tac)))|]. intros o2 Ho2.
  eapply returns_mono; [apply (IH o2 _ Ho2)|]. intros o' Ho'. cbn [map concat].
  rewrite <- !app_assoc in Ho'. by rewrite <- !app_assoc.
Qed.

Lemma build_response_ok (hs : headers) (ss : list (list Z)) (b : Octstr) (body : list Z) :
  hrepr hs ss -> repr b body -> returns (build_response hs (Some b)) (fun o => reprm o (http_text ss body)).
Proof.
  intros HF Hb. unfold build_response, http_text.
  eapply returns_seq; [apply (octstr_create_ok []); constructor|]. intros o Ho.
  eapply returns_seq; [by apply (append_lines_ok hs ss o [])|]. intros o1 Ho1.
  eapply returns_seq; [apply (octstr_append_ok _ _ _ _ Ho1 (octstr_imm_ok [13; 10] ltac:(octets_tac)))|]. intros o2 Ho2.
  eapply returns_mono; [apply (octstr_append_ok _ _ _ _ Ho2 Hb)|]. intros o' Ho'. by rewrite <- app_assoc in Ho'.
Qed.

Lemma strip_cr_line (s : list Z) : strip_cr (s ++ [13]) = s.
Proof.
  unfold strip_cr. replace (zlen (s ++ [13]) - 1) with (zlen s) by list_lia. rewrite char_at_mid. cbn [Z.eqb Pos.eqb].
  replace (length (s ++ [13%Z]) - 1)%nat with (length s) by list_lia. by rewrite take_app_length.
Qed.

Lemma add_line_new (hs : list (list Z)) (s : list Z) : isspace (char_at s 0) = false -> add_line hs s = hs ++ [s].
Proof. intros E. unfold add_line. rewrite E. by destruct (list.last hs). Qed.

Lemma http_text_headers (ss hs0 : list (list Z)) (s : list Z) :
  Forall header_line ss -> reads_headers hs0 (concat (map (fun h => h ++ [13; 10]) ss) ++ [13; 10] ++ s) (hs0 ++ ss) s.
Proof.
  intros Hs. revert hs0. induction Hs as [|h ss (Hne & Ho & Hlf & Hcr & Hsp) Hs IH]; intros hs0.
  - rewrite app_nil_r. cbn. apply (rh_end hs0 [13] s); [by repeat constructor|done].
  - cbn [map concat]. rewrite <- !app_assoc.
    replace (h ++ [13; 10] ++ concat (map (fun h => h ++ [13; 10]) ss) ++ [13; 10] ++ s)
      with ((h ++ [13]) ++ 10 :: (concat (map (fun h => h ++ [13; 10]) ss) ++ [13; 10] ++ s)) by by rewrite <- app_assoc.
    apply rh_line; [apply Forall_app_2; [done|by repeat constructor]|by rewrite strip_cr_line|].
    rewrite strip_cr_line, add_line_new by done. specialize (IH (hs0 ++ [h])). by rewrite <- app_assoc in IH.
Qed.

Lemma entity_create_ok (exp : body_expectation) :
  returns (entity_create exp) (fun ent => erepr ent (mkText [] [] exp reading_headers (-1) (-1))).
Proof.
  eapply returns_seq; [apply (octstr_create_ok []), octets_nil|]. intros b Hb. cbn. by split; [constructor|..].
Qed.

Lemma http_text_reads (ss : list (list Z)) (body rest v : list Z) :
  Forall header_line ss -> lookup_header ss TRANSFER_ENCODING = None ->
  lookup_header ss CONTENT_LENGTH = Some v -> leading_number v 10 = Some (zlen body) ->
  reads_entity (mkText [] [] expect_body reading_headers (-1) (-1)) (http_text ss body ++ rest)
    (mkText ss body expect_body entity_done (-1) (zlen body)) rest.
Proof.
  intros Hss Ht Hl Hn. unfold http_text. rewrite <- !app_assoc.
  eapply re_headers; [by apply (http_text_headers ss [] (body ++ rest))|].
  unfold deduced. cbn [t_expect t_headers t_body t_chunk t_length app]. rewrite Ht, Hl, Hn.
  pose proof (zlen_nonneg body). destruct (Z.ltb_spec (zlen body) 0); [lia|].
  destruct (Z.eqb_spec (zlen body) 0) as [E|E].
  - rewrite E. apply zlen_0_inv in E. subst body. constructor.
  - apply re_length; [done|lia|constructor].
Qed.

(** ** The properties *)

(** C13. An HTTP message is decoded from any sequence of arrivals.  If the octets that
    have arrived and will arrive on a calm connection begin with the rest of a
    message (in whatever state its reading is: headers with continuation lines, a
    body of a given length, or chunks and a trailer), then calling [entity_read]
    again whenever it asks for more input ends, after at most as many calls as
    there are reads left, with result 0 and the complete entity, and leaves the
    octets after the message on the connection. *)
Theorem http_entity_read (n : nat) (ent : HTTPEntity) (c : Connection) (t f : entity_text) (rest : list Z) :
  conn_ok c -> calm c -> erepr ent t -> reads_entity t (stream c) f rest ->
  (reads_left (reads (fd c)) <= n)%nat ->
  returns (entity_calls ent c n) (fun '(ret, ent', c') =>
    ret = 0 /\ erepr ent' f /\ stream c' = rest /\ reading c c').
Proof. intros. by apply (entity_calls_ok n ent c t f rest). Qed.

(** C31. What [build_response] writes is read back.  For header lines that need no
    continuation, of which one gives the length of the body and none another
    transfer encoding, the message built from the headers and the body is decoded
    by [entity_read], however it is cut on the way, into exactly these headers and
    this body, and what follows it on the connection stays there. *)
Theorem http_response_roundtrip (hs : headers) (ss : list (list Z)) (b : Octstr) (body rest v : list Z) (c : Connection) (n : nat) :
  hrepr hs ss -> Forall header_line ss -> repr b body -> lookup_header ss TRANSFER_ENCODING = None ->
  lookup_header ss CONTENT_LENGTH = Some v -> leading_number v 10 = Some (zlen body) ->
  conn_ok c -> calm c -> (reads_left (reads (fd c)) <= n)%nat ->
  returns (build_response hs (Some b)) (fun o => exists s, reprm o s /\
    (stream c = s ++ rest ->
     returns (ent ← entity_create expect_body; entity_calls ent c n) (fun '(ret, ent', c') =>
       ret = 0 /\ hrepr (e_headers ent') ss /\ reprm (e_body ent') body /\ stream c' = rest))).
Proof.
  intros HF Hss Hb Ht Hl Hn H Hc Hr. eapply returns_mono; [by apply (build_response_ok hs ss b body)|].
  intros o Ho. exists (http_text ss body). split; [done|]. intros E.
  eapply returns_seq; [apply entity_create_ok|]. intros ent He.
  eapply returns_mono; [apply (entity_calls_ok n ent c _ (mkText ss body expect_body entity_done (-1) (zlen body)) rest H Hc He); [|done]|].
  - rewrite E. by apply (http_text_reads ss body rest v).
  - intros [[ret ent'] c'] (-> & [] & E' & _). done.
Qed.

(** A chunked message with a continuation line and a trailer, in three arrivals. *)
Definition sample_chunked : list Z :=
  [65; 58; 49; 13; 10] ++ [32; 50; 13; 10] ++ TRANSFER_ENCODING ++ [58; 32] ++ CHUNKED ++ [13; 10; 13; 10] ++
  [51; 13; 10; 97; 98; 99; 13; 10] ++ [48; 13; 10] ++ [66; 58; 51; 13; 10] ++ [13; 10].

Definition sample_http_conn (s : list Z) : Connection :=
  sample_conn [RData (take 7 s); RAgain; RData (take 20 (drop 7 s)); RData (drop 27 s)] [].

Definition sample_final : entity_text :=
  mkText [[65; 58; 49; 32; 50]; TRANSFER_ENCODING ++ [58; 32] ++ CHUNKED; [66; 58; 51]] [97; 98; 99] expect_body entity_done 3 (-1).

Definition sample_entity : HTTPEntity := mkEntity [] (mk_os []) expect_body reading_headers (-1) (-1).

Ltac no_lf_tac := repeat (apply Forall_cons_2; [lia|]); apply Forall_nil_2.

Lemma sample_chunked_reads :
  reads_entity (mkText [] [] expect_body reading_headers (-1) (-1)) (sample_chunked ++ [71]) sample_final [71].
Proof.
  eapply re_headers.
  - apply (rh_line [] [65; 58; 49; 13]); [no_lf_tac|done|]. apply (rh_line _ [32; 50; 13]); [no_lf_tac|done|].
    apply (rh_line _ (TRANSFER_ENCODING ++ [58; 32] ++ CHUNKED ++ [13])); [no_lf_tac|done|].
    apply (rh_end _ [13]); [no_lf_tac|done].
  - apply (re_chunk _ _ _ _ _ [51; 13] 3); [no_lf_tac|reflexivity|done|].
    apply (re_data _ _ _ _ _ [97; 98; 99]); [reflexivity|done|]. apply (re_crlf _ _ _ _ _ [13]); [no_lf_tac|].
    apply (re_last _ _ _ _ _ [48; 13]); [no_lf_tac|reflexivity|].
    eapply re_trailer; [|apply re_done]. apply (rh_line _ [66; 58; 51; 13]); [no_lf_tac|done|]. apply (rh_end _ [13]); [no_lf_tac|done].
Qed.

Lemma sample_http_conn_ok (s : list Z) :
  octets s -> (27 < length s)%nat -> conn_ok (sample_http_conn s) /\ calm (sample_http_conn s) /\ stream (sample_http_conn s) = s.
Proof.
  intros Hs Hl. assert (stream (sample_http_conn s) = s) as E.
  { unfold stream, arriving. cbn [sample_http_conn sample_conn fd reads map concat read_octets].
    change (unread _) with (@nil Z). cbn [app]. rewrite app_nil_r.
    replace 27%nat with (7 + 20)%nat by lia. by rewrite <- drop_drop, !take_drop. }
  split; [|split; [|done]].
  - apply sample_conn_ok. change (octets (arriving (reads (fd (sample_http_conn s))))). revert E. unfold stream. change (unread (sample_http_conn s)) with (@nil Z). cbn [app]. by intros ->.
  - split; [|done]. repeat (apply Forall_cons_2; [cbn; try done; intros E0%(f_equal length); list_lia|]). apply Forall_nil_2.
Qed.

Lemma sample_chunked_octets : octets (sample_chunked ++ [71]).
Proof. unfold sample_chunked, TRANSFER_ENCODING, CHUNKED. cbn [app]. octets_tac. Qed.

Lemma http_entity_read_witness :
  returns (entity_calls sample_entity (sample_http_conn (sample_chunked ++ [71])) 200) (fun '(ret, ent', c') =>
    ret = 0 /\ erepr ent' sample_final /\ stream c' = [71] /\ reading (sample_http_conn (sample_chunked ++ [71])) c').
Proof.
  destruct (sample_http_conn_ok (sample_chunked ++ [71]) sample_chunked_octets ltac:(cbn; lia)) as (H1 & H2 & H3).
  apply (http_entity_read 200 sample_entity (sample_http_conn (sample_chunked ++ [71]))
    (mkText [] [] expect_body reading_headers (-1) (-1)) sample_final [71]).
  - exact H1.
  - exact H2.
  - split; try reflexivity; [constructor|]. apply (mk_os_ok []). apply octets_nil.
  - rewrite H3. exact sample_chunked_reads.
  - vm_compute. lia.
Defined.

(** A response of two headers and a body. *)
Definition sample_lines : list (list Z) := [[65; 58; 49; 48; 48; 48; 48; 48; 48; 48; 48; 48]; CONTENT_LENGTH ++ [58; 32; 51]].

Lemma sample_lines_ok : Forall header_line sample_lines.
Proof.
  unfold sample_lines, CONTENT_LENGTH. cbn [app].
  repeat (apply Forall_cons_2; [split_and!; [done|octets_tac|no_lf_tac|done|done]|]). apply Forall_nil_2.
Qed.

Lemma http_response_roundtrip_witness :
  returns (build_response (map mk_os sample_lines) (Some (mk_os [120; 121; 122]))) (fun o => exists s, reprm o s /\
    (stream (sample_http_conn (http_text sample_lines [120; 121; 122] ++ [71; 69; 84; 32])) = s ++ [71; 69; 84; 32] ->
     returns (ent ← entity_create expect_body;
              entity_calls ent (sample_http_conn (http_text sample_lines [120; 121; 122] ++ [71; 69; 84; 32])) 200) (fun '(ret, ent', c') =>
       ret = 0 /\ hrepr (e_headers ent') sample_lines /\ reprm (e_body ent') [120; 121; 122] /\ stream c' = [71; 69; 84; 32]))).
Proof.
  destruct (sample_http_conn_ok (http_text sample_lines [120; 121; 122] ++ [71; 69; 84; 32])) as (H1 & H2 & _).
  { unfold http_text, sample_lines, CONTENT_LENGTH. cbn [map concat app]. octets_tac. }
  { cbn. lia. }
  apply (http_response_roundtrip (map mk_os sample_lines) sample_lines (mk_os [120; 121; 122]) [120; 121; 122] [71; 69; 84; 32]
    [51] (sample_http_conn (http_text sample_lines [120; 121; 122] ++ [71; 69; 84; 32])) 200).
  - apply sample_headers_ok. eapply Forall_impl; [|exact sample_lines_ok]. by intros s (_ & ? & _).
  - exact sample_lines_ok.
  - apply (mk_os_ok [120; 121; 122]). octets_tac.
  - vm_compute. reflexivity.
  - vm_compute. reflexivity.
  - vm_compute. reflexivity.
  - exact H1.
  - exact H2.
  - vm_compute. lia.
Defined.

(** ** A chunk of negative length *)

(** A chunk whose length is written as a negative number stops a message without
    refusing it: [read_chunked_body_len] takes any number, and with a length below
    one [conn_read_fixed] returns NULL without reading, so on a calm connection
    every later call of [entity_read] returns 1 and takes nothing, whatever
    arrives. *)
Theorem http_negative_chunk_stalls (ent : HTTPEntity) (c : Connection) :
  e_state ent = reading_chunked_body_data -> chunked_body_chunk_len ent < 1 -> calm c ->
  entity_read ent c = Ok (1, ent, c).
Proof.
  intros Hst Hn Hc. unfold entity_read. replace (length (stream c) + 3)%nat with (S (length (stream c) + 2)) by lia.
  cbn [entity_loop]. unfold entity_step. rewrite Hst. unfold read_chunked_body_data, conn_read_fixed.
  destruct (Z.ltb_spec (chunked_body_chunk_len ent) 1); [|lia]. bind_red. rewrite stalled_calm by done. bind_red.
  by rewrite decide_True by done.
Qed.

Lemma http_negative_chunk_stalls_witness :
  leading_number [45; 53] 16 = Some (-5) /\
  entity_read (mkEntity [] (mk_os []) expect_body reading_chunked_body_data (-5) (-1)) (sample_conn [RData [97]] []) =
  Ok (1, mkEntity [] (mk_os []) expect_body reading_chunked_body_data (-5) (-1), sample_conn [RData [97]] []).
Proof.
  split; [vm_compute; reflexivity|].
  apply (http_negative_chunk_stalls (mkEntity [] (mk_os []) expect_body reading_chunked_body_data (-5) (-1)) (sample_conn [RData [97]] [])).
  - reflexivity.
  - vm_compute. reflexivity.
  - split; [|split; reflexivity]. apply Forall_cons_2; [discriminate|apply Forall_nil_2].
Defined.
