(* ===== verification/MetaData.v ===== *)
(** * Meta data of messages

    Models src/gw/meta_data.c: groups of keys and values in one text,
    [?group?key=value&key=value&?group?...], each part URL encoded.  The text is read
    by a state machine into a chain of groups with dictionaries ([Dict]), changed
    there and written again.  A chain is a list; NULL is the empty one.  The functions
    also return at once where an argument is NULL; here the arguments are there
    (except for [meta_data_merge], which treats NULL as an empty text). *)

From stdpp Require Import gmap.
From S2P Require Import Prelude Octstr OctstrSearch OctstrCode OctstrFormat GwList Dict.
#[local] Open Scope Z_scope.
#[local] Open Scope kannel_scope.

(** [octstr_str_case_compare] of src/gwlib/octstr.c. *)
Definition octstr_str_case_compare (ostr : Octstr) (str : list Z) : res Z :=
  seems_valid ostr ≫= fun _ =>
  Ok (strcmp (tolower <$> cstr (os_data ostr)) (tolower <$> str)).

Record meta_data := mkMeta { m_group : Octstr; m_values : Dict Octstr }.

(** ** Reading *)

(** The variables of the loop of [meta_data_unpack]; [curr] is the last group. *)
Record scan := mkScan {
  sc_groups : list meta_data;
  sc_key : option Octstr;
  sc_type : Z;
  sc_next : Z;
  sc_start : Z;
  sc_end : Z
}.

Definition holds_key (s : scan) : bool := match sc_key s with Some _ => true | None => false end.
Definition holds_group (s : scan) : bool := match sc_groups s with [] => false | _ => true end.

Definition sc_set_start (s : scan) (pos type : Z) : scan :=
  mkScan (sc_groups s) (sc_key s) type (sc_next s) pos (sc_end s).
Definition sc_set_end (s : scan) (pos next_type : Z) : scan :=
  mkScan (sc_groups s) (sc_key s) (sc_type s) next_type (sc_start s) pos.

(** The [switch] on the character; [None] where the code fails. *)
Definition mark (s : scan) (c pos : Z) : option scan :=
  if c =? 63 then
    if sc_start s =? -1 then Some (sc_set_start s pos 0)
    else if sc_type s =? 0 then Some (sc_set_end s pos 1)
    else if (sc_type s =? 2) && holds_key s then Some (sc_set_end s pos 0)
    else if negb (holds_key s) then Some (sc_set_start s pos 0)
    else None
  else if c =? 61 then
    if (sc_type s =? 1) && holds_group s && negb (holds_key s) then Some (sc_set_end s pos 2) else None
  else if c =? 38 then
    if (sc_type s =? 2) && holds_group s && holds_key s then Some (sc_set_end s pos 1)
    else if (sc_type s =? 1) && negb (holds_key s) then Some (sc_set_start s pos (sc_type s))
    else None
  else if c =? 0 then
    Some (if sc_type s =? 2 then sc_set_end s pos (sc_next s) else s)
  else Some s.

Definition url_decoded (tmp : Octstr) : res Octstr :=
  r ← octstr_url_decode (Some tmp);
  match r.2 with
  | Some tmp => Ok tmp
  | None => Undef
  end.

(** The part after the [switch]: a group, a key or a value ends here. *)
Definition take_part (str : block) (s : scan) (pos : Z) : res scan :=
  if (0 <=? sc_start s) && (0 <=? sc_end s) then
    let n := sc_end s - sc_start s - 1 in
    tmp ← (if n =? 0 then octstr_create [] else octstr_create_from_data str (pos - sc_end s + sc_start s + 1) n);
    tmp ← url_decoded tmp;
    '(groups, key) ←
      (if sc_type s =? 0 then Ok (sc_groups s ++ [mkMeta tmp (dict_create 1024 true)], sc_key s)
       else if sc_type s =? 1 then Ok (sc_groups s, Some tmp)
       else if sc_type s =? 2 then
         match list.last (sc_groups s), sc_key s with
         | Some curr, Some key =>
             '(values, _) ← dict_put (m_values curr) key (Some tmp);
             Ok (removelast (sc_groups s) ++ [mkMeta (m_group curr) values], None)
         | _, _ => Undef
         end
       else Ok (sc_groups s, sc_key s));
    Ok (mkScan groups key (sc_next s) (-1) (sc_end s) (-1))
  else Ok s.

Fixpoint unpack_loop (str : block) (pos : Z) (s : scan) (n : nat) : res (option scan) :=
  match n with
  | O => Ok (Some s)
  | S n =>
      c ← rd str pos;
      match mark s c pos with
      | None => Ok None
      | Some s =>
          s ← take_part str s pos;
          unpack_loop str (pos + 1) s n
      end
  end.

Definition meta_data_unpack (data : Octstr) : res (list meta_data) :=
  len ← octstr_len (Some data);
  r ← unpack_loop (cstr_block data) 0 (mkScan [] None (-1) (-1) (-1) (-1)) (Z.to_nat (len + 1));
  Ok (match r with Some s => sc_groups s | None => [] end).

(** ** Writing *)

Section meta.
Context `{!Printf}.

Fixpoint pack_values (data : Octstr) (values : Dict Octstr) (l : List Octstr) (fuel : nat) : res Octstr :=
  match fuel with
  | O => Undef
  | S fuel =>
      '(tmp, l) ← gwlist_extract_first l;
      match tmp with
      | None => Ok data
      | Some tmp =>
          v ← dict_get values tmp;
          data ← octstr_format_append data [37; 69; 61; 37; 69; 38] [AOct (Some tmp); AOct v];
          pack_values data values l fuel
      end
  end.

Fixpoint pack_groups (data : Octstr) (mdata : list meta_data) : res Octstr :=
  match mdata with
  | [] => Ok data
  | m :: mdata =>
      data ← octstr_format_append data [63; 37; 69; 63] [AOct (Some (m_group m))];
      l ← dict_keys (m_values m);
      data ← pack_values data (m_values m) l (S (Z.to_nat (gwlist_len (Some l))));
      pack_groups data mdata
  end.

(** The result and the text. *)
Definition meta_data_pack (mdata : list meta_data) (data : Octstr) : res (Z * Octstr) :=
  match mdata with
  | [] => Ok (-1, data)
  | _ =>
      len ← octstr_len (Some data);
      data ← octstr_delete data 0 len;
      data ← pack_groups data mdata;
      Ok (0, data)
  end.

(** ** Access *)

(** The loop over the groups: those before the group, the group and those after it. *)
Fixpoint find_group (mdata : list meta_data) (group : list Z)
  : res (option (list meta_data * meta_data * list meta_data)) :=
  match mdata with
  | [] => Ok None
  | curr :: mdata =>
      c ← octstr_str_case_compare (m_group curr) group;
      if c =? 0 then Ok (Some ([], curr, mdata))
      else
        r ← find_group mdata group;
        Ok (match r with
            | Some (pre, m, post) => Some (curr :: pre, m, post)
            | None => None
            end)
  end.

(** A new group goes behind the first one. *)
Definition add_group (mdata : list meta_data) (m : meta_data) : list meta_data :=
  match mdata with
  | first :: rest => first :: m :: rest
  | [] => [m]
  end.

Definition meta_data_get_values (data : Octstr) (group : list Z) : res (option (Dict Octstr)) :=
  mdata ← meta_data_unpack data;
  r ← find_group mdata group;
  Ok (match r with Some (_, curr, _) => Some (m_values curr) | None => None end).

Definition dup (o : Octstr) : res Octstr :=
  n ← octstr_duplicate (Some o);
  match n with
  | Some n => Ok n
  | None => Undef
  end.

(** The old values go to the new dictionary, unless it has the key. *)
Fixpoint keep_old (old dict : Dict Octstr) (keys : List Octstr) (fuel : nat) : res (Dict Octstr) :=
  match fuel with
  | O => Undef
  | S fuel =>
      '(key, keys) ← gwlist_extract_first keys;
      match key with
      | None => Ok dict
      | Some key =>
          v ← dict_get old key;
          v ← octstr_duplicate v;
          '(_, dict, _) ← dict_put_once dict key v;
          keep_old old dict keys fuel
      end
  end.

(** [meta_data_set_values]: the result, the text and the dictionary of the caller. *)
Definition meta_data_set_values (data : Octstr) (dict : Dict Octstr) (group : list Z) (replace : bool)
  : res (Z * Octstr * Dict Octstr) :=
  mdata ← meta_data_unpack data;
  r ← find_group mdata group;
  '(mdata, dict) ← match r with
      | Some (pre, curr, post) =>
          dict ← (if replace then Ok dict
                  else keys ← dict_keys (m_values curr);
                       keep_old (m_values curr) dict keys (S (Z.to_nat (gwlist_len (Some keys)))));
          Ok (pre ++ mkMeta (m_group curr) dict :: post, dict)
      | None =>
          g ← octstr_create group;
          Ok (add_group mdata (mkMeta g dict), dict)
      end;
  '(i, data) ← meta_data_pack mdata data;
  Ok (i, data, dict).

Definition set_key_value (values : Dict Octstr) (key value : Octstr) (replace : bool) : res (Dict Octstr) :=
  if replace then
    '(values, _) ← dict_put values key None;
    v ← dup value;
    '(values, _) ← dict_put values key (Some v);
    Ok values
  else
    old ← dict_get values key;
    match old with
    | None => v ← dup value; '(values, _) ← dict_put values key (Some v); Ok values
    | Some _ => Ok values
    end.

Definition meta_data_set_value (data : Octstr) (group : list Z) (key value : Octstr) (replace : bool)
  : res (Z * Octstr) :=
  mdata ← meta_data_unpack data;
  r ← find_group mdata group;
  mdata ← match r with
      | Some (pre, curr, post) =>
          values ← set_key_value (m_values curr) key value replace;
          Ok (pre ++ mkMeta (m_group curr) values :: post)
      | None =>
          g ← octstr_create group;
          values ← set_key_value (dict_create 10 true) key value replace;
          Ok (add_group mdata (mkMeta g values))
      end;
  meta_data_pack mdata data.

Definition meta_data_get_value (data : Octstr) (group : list Z) (key : Octstr) : res (option Octstr) :=
  mdata ← meta_data_unpack data;
  r ← find_group mdata group;
  match r with
  | Some (_, curr, _) => '(v, _) ← dict_remove (m_values curr) key; Ok v
  | None => Ok None
  end.

Definition meta_data_remove_value (data : Octstr) (group : list Z) (key : Octstr) : res (Z * Octstr) :=
  mdata ← meta_data_unpack data;
  r ← find_group mdata group;
  match r with
  | None => Ok (-1, data)
  | Some (pre, curr, post) =>
      '(values, _) ← dict_put (m_values curr) key None;
      meta_data_pack (pre ++ mkMeta (m_group curr) values :: post) data
  end.

(** ** Merging *)

Fixpoint merge_values (curr new : Dict Octstr) (keys : List Octstr) (replace : bool) (fuel : nat) : res (Dict Octstr) :=
  match fuel with
  | O => Undef
  | S fuel =>
      c ← gwlist_consume_retry (gwlist_consume_enter keys);
      match c with
      | Blocked => Undef
      | Consumed None _ => Ok curr
      | Consumed (Some key) keys =>
          curr ← (if replace then
                    '(curr, _) ← dict_put curr key None;
                    v ← dict_get new key;
                    v ← octstr_duplicate v;
                    '(curr, _) ← dict_put curr key v;
                    Ok curr
                  else
                    v ← dict_get new key;
                    v ← octstr_duplicate v;
                    '(_, curr, _) ← dict_put_once curr key v;
                    Ok curr);
          merge_values curr new keys replace fuel
      end
  end.

(** The inner loop: a group that is not there is added at the end, empty, where the
    loop finds it next. *)
Fixpoint merge_group (mdata : list meta_data) (new_curr : meta_data) (replace : bool) (fuel : nat)
  : res (list meta_data) :=
  match fuel with
  | O => Undef
  | S fuel =>
      match mdata with
      | [] => Ok []
      | curr :: next =>
          c ← octstr_compare (m_group curr) (m_group new_curr);
          if c =? 0 then
            keys ← dict_keys (m_values new_curr);
            values ← merge_values (m_values curr) (m_values new_curr) keys replace
                       (S (Z.to_nat (gwlist_len (Some keys))));
            Ok (mkMeta (m_group curr) values :: next)
          else
            next ← match next with
                   | [] => g ← dup (m_group new_curr); Ok [mkMeta g (dict_create 10 true)]
                   | _ => Ok next
                   end;
            next ← merge_group next new_curr replace fuel;
            Ok (curr :: next)
      end
  end.

Fixpoint merge_groups (mdata new_mdata : list meta_data) (replace : bool) : res (list meta_data) :=
  match new_mdata with
  | [] => Ok mdata
  | new_curr :: new_mdata =>
      mdata ← merge_group mdata new_curr replace (S (S (length mdata)));
      merge_groups mdata new_mdata replace
  end.

Definition meta_data_merge (data new_data : option Octstr) (replace : bool) : res (option Octstr) :=
  len ← octstr_len data;
  if len <? 1 then octstr_duplicate new_data
  else
    new_len ← octstr_len new_data;
    if new_len <? 1 then octstr_duplicate data
    else
      match data, new_data with
      | Some o, Some new =>
          mdata ← meta_data_unpack o;
          match mdata with
          | [] => octstr_duplicate new_data
          | _ =>
              new_mdata ← meta_data_unpack new;
              match new_mdata with
              | [] => octstr_duplicate data
              | _ =>
                  mdata ← merge_groups mdata new_mdata replace;
                  ret ← octstr_create [];
                  '(i, ret) ← meta_data_pack mdata ret;
                  Ok (if i =? -1 then None else Some ret)
              end
          end
      | _, _ => Undef
      end.
End meta.
