(* ===== verification/MetaDataProofs.v ===== *)
(** * Meta data: what the operations do

    Reading meta data (MetaData.v) is safe on any text; what is written is read back;
    each operation changes the groups as it should. *)

From stdpp Require Import gmap.
From S2P Require Import Prelude Octstr OctstrSearch OctstrCode OctstrFormat GwList Dict MetaData.
#[local] Open Scope Z_scope.
#[local] Open Scope kannel_scope.

(** ** Decoding any text *)

Lemma rd_tail (d tail rest : list Z) (si : Z) (i : nat) c :
  0 <= si -> drop (Z.to_nat si) d = tail ++ rest -> tail !! i = Some c -> octet c -> rd d (si + Z.of_nat i) = Ok c.
Proof.
  intros Hsi Hd Hi Hc. apply rd_ok. split_and!; [lia| |by destruct Hc].
  replace (Z.to_nat (si + Z.of_nat i)) with (Z.to_nat si + i)%nat by lia.
  rewrite <- lookup_drop, Hd, lookup_app_l; [done|]. by eapply lookup_lt_Some.
Qed.

Lemma octets_store (d : list Z) (di : Z) c :
  0 <= di < zlen d -> octets (take (Z.to_nat di) d) -> octet c ->
  octets (take (Z.to_nat (di + 1)) (<[Z.to_nat di := c]> d)).
Proof.
  intros Hdi Ho Hc. replace (Z.to_nat (di + 1)) with (S (Z.to_nat di)) by lia.
  rewrite take_store by list_lia. apply Forall_app. split; [done|by apply Forall_singleton].
Qed.

(** One store of the decoder, behind what it reads. *)
Lemma store_ok (d : list Z) (di si x : Z) :
  0 <= di < si -> si <= zlen d -> octets (take (Z.to_nat di) d) ->
  wr d di x = Ok (<[Z.to_nat di := x mod 256]> d) /\
  drop (Z.to_nat si) (<[Z.to_nat di := x mod 256]> d) = drop (Z.to_nat si) d /\
  octets (take (Z.to_nat (di + 1)) (<[Z.to_nat di := x mod 256]> d)).
Proof.
  intros Hdi Hsi Ho. split_and!.
  - by rewrite wr_ok by lia.
  - apply drop_insert_lt. lia.
  - apply octets_store; [lia|done|apply octet_mod].
Qed.

(** The decoder is at [si] in the text [tail] and has written [di] octets. *)
Record decoding (d : list Z) (si di : Z) (tail rest : list Z) : Prop := {
  de_pos : 0 <= di <= si;
  de_tail : drop (Z.to_nat si) d = tail ++ 0 :: rest;
  de_octets : octets tail;
  de_done : octets (take (Z.to_nat di) d)
}.

Definition decoded (n : nat) (top : Z) (r : list Z * Z * Z) : Prop :=
  length r.1.1 = n /\ 0 <= r.1.2 <= top /\ octets (take (Z.to_nat r.1.2) r.1.1).

Lemma decoding_rd d si di tail rest (i : nat) c :
  decoding d si di tail rest -> (tail ++ [0]) !! i = Some c -> rd d (si + Z.of_nat i) = Ok c.
Proof.
  intros [Hp Ht Ho _] Hi. apply (rd_tail d (tail ++ [0]) rest); [lia|by rewrite Ht, <- app_assoc|done|].
  apply (Forall_lookup_1 octet (tail ++ [0]) i); [|done]. apply Forall_app. split; [done|].
  apply Forall_singleton. unfold octet. lia.
Qed.

Lemma decoding_length d si di tail rest : decoding d si di tail rest -> si + zlen tail < zlen d.
Proof. intros [Hp Ht _ _]. apply (f_equal length) in Ht. list_lia. Qed.

(** The octets [pre] are read and [x] is written. *)
Lemma decoding_step d si di pre tail rest x :
  decoding d si di (pre ++ tail) rest -> pre <> [] ->
  exists d', wr d di x = Ok d' /\ decoding d' (si + zlen pre) (di + 1) tail rest /\ length d' = length d.
Proof.
  intros H Hpre. pose proof (decoding_length _ _ _ _ _ H) as Hl. destruct H as [Hp Ht Ho Hd].
  assert (0 < zlen pre) by (destruct pre; [done|list_lia]).
  destruct (store_ok d di (si + zlen pre) x) as (E & Ed & Eo); [lia|list_lia|done|].
  eexists. split; [done|]. split; [|by rewrite length_insert]. apply Forall_app in Ho as [_ Ho]. constructor; [lia| |done|done].
  rewrite Ed. replace (Z.to_nat (si + zlen pre)) with (Z.to_nat si + length pre)%nat by list_lia.
  rewrite <- drop_drop, Ht, <- app_assoc. by rewrite drop_app_length.
Qed.

Lemma url_decode_any (fuel : nat) : forall d si di ret tail rest,
  decoding d si di tail rest -> tail <> [] -> (length tail <= fuel)%nat ->
  returns (url_decode_loop d si di ret fuel) (decoded (length d) (si + zlen tail)).
Proof.
  induction fuel as [|fuel IH]; intros d si di ret tail rest H Hne Hf; [destruct tail; [done|cbn in Hf; lia]|].
  assert (Hnext : forall d' si' di' ret' tail', decoding d' si' di' tail' rest -> length d' = length d ->
    si' + zlen tail' = si + zlen tail -> (length tail' <= fuel)%nat ->
    returns (c ← rd d' si'; if c =? 0 then Ok (d', di', ret') else url_decode_loop d' si' di' ret' fuel)
      (decoded (length d) (si + zlen tail))).
  { intros d' si' di' ret' tail' H' Hl Ht Hf'. assert (decoded (length d) (si + zlen tail) (d', di', ret')) as Hstop.
    { split_and!; cbn; [done|destruct H'; list_lia|destruct H'; list_lia|apply H']. }
    pose proof (decoding_rd _ _ _ _ _ 0 (default 0 (head tail')) H') as E. rewrite Z.add_0_r in E.
    rewrite E by (by destruct tail'). bind_red. destruct tail' as [|c t]; [done|]. cbn [head default].
    destruct (_ =? 0); [done|]. rewrite <- Ht, <- Hl. by apply (IH _ _ _ _ _ rest). }
  destruct tail as [|c tail]; [done|]. cbn [url_decode_loop].
  pose proof (decoding_rd _ _ _ _ _ 0 c H eq_refl) as E0. rewrite Z.add_0_r in E0. rewrite E0. bind_red.
  pose proof (de_octets _ _ _ _ _ H) as Ho. apply Forall_cons_iff in Ho as [Hc Ho].
  assert (Hput : forall x ret', returns (d ← wr d di x; c ← rd d (si + 1);
    if c =? 0 then Ok (d, di + 1, ret') else url_decode_loop d (si + 1) (di + 1) ret' fuel)
      (decoded (length d) (si + zlen (c :: tail)))).
  { intros x ret'. destruct (decoding_step d si di [c] tail rest x H ltac:(done)) as (d' & -> & H' & Hl). bind_red.
    apply (Hnext _ _ _ _ tail H'); [done|list_lia|cbn in Hf; lia]. }
  destruct (Z.eqb_spec c 37) as [->|].
  2:{ destruct (Z.eqb_spec c 43); by apply Hput. }
  destruct tail as [|c1 tail].
  { rewrite (decoding_rd _ _ _ _ _ 1 0 H eq_refl : rd d (si + 1) = Ok 0). cbn.
    split_and!; cbn; [done|destruct H; list_lia|destruct H; list_lia|apply H]. }
  rewrite (decoding_rd _ _ _ _ _ 1 c1 H eq_refl : rd d (si + 1) = Ok c1). bind_red.
  assert (decoded (length d) (si + zlen (37 :: c1 :: tail)) (d, di, -1)) as Hstop.
  { split_and!; cbn; [done|destruct H; list_lia|destruct H; list_lia|apply H]. }
  destruct (Z.eqb_spec c1 0); [by bind_red|].
  destruct tail as [|c2 tail].
  { rewrite (decoding_rd _ _ _ _ _ 2 0 H eq_refl : rd d (si + 2) = Ok 0). by bind_red. }
  rewrite (decoding_rd _ _ _ _ _ 2 c2 H eq_refl : rd d (si + 2) = Ok c2). bind_red.
  destruct (Z.eqb_spec c2 0); [done|]. cbn [orb]. destruct (_ || _).
  - destruct (decoding_step d si di [37] (c1 :: c2 :: tail) rest 37 H ltac:(done)) as (d1 & -> & H1 & L1). bind_red.
    pose proof (decoding_rd _ _ _ _ _ 0 c1 H1 eq_refl) as R1. rewrite Z.add_0_r in R1. change (zlen [37]) with 1 in *. rewrite R1. bind_red.
    destruct (decoding_step d1 _ _ [c1] (c2 :: tail) rest c1 H1 ltac:(done)) as (d2 & -> & H2 & L2). bind_red.
    pose proof (decoding_rd _ _ _ _ _ 0 c2 H2 eq_refl) as R2. rewrite Z.add_0_r in R2.
    change (zlen [c1]) with 1 in *. replace (si + 1 + 1) with (si + 2) in * by lia.
    replace (di + 1 + 1) with (di + 2) in * by lia. rewrite R2. bind_red.
    destruct (decoding_step d2 _ _ [c2] tail rest c2 H2 ltac:(done)) as (d3 & -> & H3 & L3). bind_red.
    change (zlen [c2]) with 1 in *. replace (si + 2 + 1) with (si + 3) in * by lia.
    replace (di + 2 + 1) with (di + 3) in * by lia. apply (Hnext _ _ _ _ tail H3); [lia|list_lia|cbn in Hf; lia].
  - destruct (decoding_step d si di [37; c1; c2] tail rest (Z.lor (Z.shiftl (H2B c1) 4) (H2B c2)) H ltac:(done))
      as (d1 & -> & H1 & L1). bind_red.
    change (zlen [37; c1; c2]) with 3 in *. apply (Hnext _ _ _ _ tail H1); [lia|list_lia|cbn in Hf; lia].
Qed.

(** Any text can be decoded. *)
Lemma octstr_url_decode_any (o : Octstr) (s : list Z) :
  reprm o s -> returns (octstr_url_decode (Some o)) (fun r => exists o' s', r.2 = Some o' /\ reprm o' s').
Proof.
  intros [Hr Hm]. unfold octstr_url_decode. rewrite (repr_seems_valid _ _ Hr). bind_red. rewrite Hm. cbn [negb gw_assert]. bind_red.
  rewrite (repr_len _ _ Hr). destruct (Z.eqb_spec (zlen s) 0); [cbn; eexists _, _; split; [done|by split]|].
  destruct Hr as [|s rest size imm Hs ->]; [done|]. cbn [os_data os_len os_immutable] in *. subst imm.
  assert (decoding (s ++ 0 :: rest) 0 0 s rest) as Hd by (constructor; [lia|done|done|apply Forall_nil_2]).
  eapply returns_seq; [apply (url_decode_any _ _ _ _ _ s rest Hd); [by intros ->|list_lia]|].
  intros [[d di] ret] (Hl & Hdi & Ho). cbn [fst snd] in *. rewrite length_app in Hl. cbn [length] in Hl.
  apply returns_wr; [list_lia|]. unfold set_len, set_data. cbn [os_data os_len os_size os_immutable].
  assert (reprm (mkOctstr (<[Z.to_nat di := 0]> d) di (zlen (s ++ 0 :: rest)) false) (take (Z.to_nat di) d)) as Hrep.
  { eapply (repr_intro _ _ (drop (S (Z.to_nat di)) d)); [done| |list_lia|list_lia].
    rewrite <- (take_drop (Z.to_nat di) d) at 1. rewrite insert_app_r_alt by list_lia.
    by rewrite insert_drop_head by list_lia. }
  change (0 mod 256) with 0. rewrite (repr_seems_valid _ _ (proj1 Hrep)). cbn. eauto.
Qed.

(** ** What a chain of groups stands for *)

Notation group_text := (list Z * gmap (list Z) (list Z))%type.

Definition values_are (M : gmap (list Z) Octstr) (g : gmap (list Z) (list Z)) : Prop :=
  forall k, option_Forall2 reprm (M !! k) (g !! k).

Definition dict_is (d : Dict Octstr) (g : gmap (list Z) (list Z)) : Prop :=
  exists M, dict_holds d M /\ values_are M g.

Definition holds (m : meta_data) (g : group_text) : Prop := repr (m_group m) g.1 /\ dict_is (m_values m) g.2.

Lemma values_insert M g k o v : values_are M g -> reprm o v -> values_are (<[k := o]> M) (<[k := v]> g).
Proof.
  intros H Ho k'. destruct (decide (k = k')) as [->|]; [rewrite !lookup_insert_eq; by constructor|].
  rewrite !lookup_insert_ne by done. apply H.
Qed.

Lemma values_delete M g k : values_are M g -> values_are (delete k M) (delete k g).
Proof.
  intros H k'. destruct (decide (k = k')) as [->|]; [rewrite !lookup_delete_eq; by constructor|].
  rewrite !lookup_delete_ne by done. apply H.
Qed.

Lemma values_empty : values_are ∅ ∅.
Proof. intros k. rewrite !lookup_empty. constructor. Qed.

Lemma dict_new n : 0 < n -> dict_is (dict_create n true) ∅.
Proof.
  intros Hn. exists ∅. split; [|apply values_empty]. eexists. apply dict_create_ok. lia.
Qed.

Lemma dict_put_is d g key k o v : dict_is d g -> repr key k -> reprm o v ->
  returns (dict_put d key (Some o)) (fun r => dict_is r.1 (<[k := v]> g)).
Proof.
  intros (M & [B HB] & Hv) Hk Ho. eapply returns_mono; [by apply (dict_put_value_ok d M B key k)|].
  intros [d' ds] (Hd & _ & _). exists (<[k := o]> M). split; [done|by apply values_insert].
Qed.

Lemma dict_drop_is d g key k : dict_is d g -> repr key k ->
  returns (dict_put d key None) (fun r => dict_is r.1 (delete k g)).
Proof.
  intros (M & [B HB] & Hv) Hk. eapply returns_mono; [by apply (dict_put_null_ok d M B key k)|].
  intros [d' ds] (Hd & _ & _). exists (delete k M). split; [done|by apply values_delete].
Qed.

Lemma dict_get_is d g key k : dict_is d g -> repr key k ->
  exists r, dict_get d key = Ok r /\ option_Forall2 reprm r (g !! k).
Proof.
  intros (M & [B HB] & Hv) Hk. exists (M !! k). split; [by eapply dict_get_ok|apply Hv].
Qed.

(** ** Parts of the text *)

Lemma part_ok (str : block) (off n : Z) :
  0 <= off -> 0 <= n -> off + n <= zlen str -> octets (slice str off n) ->
  returns (tmp ← (if n =? 0 then octstr_create [] else octstr_create_from_data str off n); url_decoded tmp)
    (fun o => exists t, reprm o t /\ forall x, octets x -> slice str off n = url_encode x -> t = x).
Proof.
  intros Hoff Hn Hl Ho. apply returns_bind. apply (returns_mono _ (fun o => reprm o (slice str off n))).
  { destruct (Z.eqb_spec n 0) as [->|].
    - unfold slice. rewrite take_0. apply octstr_create_ok, Forall_nil_2.
    - by apply octstr_create_from_data_ok. }
  intros tmp Ht. unfold url_decoded. pose proof (octstr_url_decode_any tmp _ Ht) as Hd.
  apply returns_iff in Hd as ([c r] & E & o' & s' & Hr & Ho'). cbn in Hr. subst r. rewrite E. bind_red.
  cbn [snd returns]. exists s'. split; [exact Ho'|]. intros x Hx Ex. rewrite Ex in Ht.
  pose proof (octstr_url_decode_encoded tmp x Hx Ht) as Hd. rewrite E in Hd. cbn in Hd.
  destruct Hd as (_ & o'' & [= <-] & Ho''). by eapply repr_functional; [apply Ho'|apply Ho''].
Qed.

(** The variables of the loop, between two parts. *)
Record ascan := mkAscan {
  a_groups : list group_text;
  a_key : option (list Z);
  a_type : Z;
  a_start : Z
}.

Record scan_is (s : scan) (a : ascan) : Prop := {
  si_groups : Forall2 holds (sc_groups s) (a_groups a);
  si_key : option_Forall2 repr (sc_key s) (a_key a);
  si_type : sc_type s = a_type a;
  si_start : sc_start s = a_start a;
  si_next : sc_next s = -1;
  si_end : sc_end s = -1
}.

(** The part [t] ends at [pos]; the next part is of the type [nt]. *)
Definition atake (a : ascan) (t : list Z) (pos nt : Z) : ascan :=
  if a_type a =? 0 then mkAscan (a_groups a ++ [(t, ∅)]) (a_key a) nt pos
  else if a_type a =? 1 then mkAscan (a_groups a) (Some t) nt pos
  else if a_type a =? 2 then
    match list.last (a_groups a), a_key a with
    | Some g, Some k => mkAscan (removelast (a_groups a) ++ [(g.1, <[k := t]> g.2)]) None nt pos
    | _, _ => a
    end
  else mkAscan (a_groups a) (a_key a) nt pos.

Lemma holds_last ms gs g : Forall2 holds ms gs -> list.last gs = Some g ->
  exists m, list.last ms = Some m /\ holds m g /\ Forall2 holds (removelast ms) (removelast gs).
Proof.
  intros H Hg. destruct (exists_last (l := gs)) as (gs' & g' & ->); [by intros ->|].
  rewrite last_snoc in Hg. injection Hg as ->. apply Forall2_app_inv_r in H as (ms' & l & H & Hl & ->).
  apply Forall2_cons_inv_r in Hl as (m & l' & Hm & Hl & ->). apply Forall2_nil_inv_r in Hl as ->.
  exists m. rewrite last_snoc, !removelast_last. done.
Qed.

Lemma take_part_ok (str : block) s a pos nt :
  scan_is s a -> 0 <= a_start a < pos -> pos <= zlen str -> octets (slice str (a_start a + 1) (pos - a_start a - 1)) ->
  (a_type a = 2 -> is_Some (list.last (a_groups a)) /\ is_Some (a_key a)) ->
  returns (take_part str (sc_set_end s pos nt) pos) (fun s' => exists t,
    (forall x, octets x -> slice str (a_start a + 1) (pos - a_start a - 1) = url_encode x -> t = x) /\
    scan_is s' (atake a t pos nt)).
Proof.
  intros [Hg Hk Ht Hst _ _] Hs Hl Ho H2. unfold take_part. cbn [sc_set_end sc_groups sc_key sc_type sc_next sc_start sc_end].
  rewrite Hst, Ht. destruct (Z.leb_spec 0 (a_start a)); [|lia]. destruct (Z.leb_spec 0 pos); [|lia]. cbn [andb]. cbn zeta.
  replace (pos - pos + a_start a + 1) with (a_start a + 1) by lia.
  pose proof (part_ok str (a_start a + 1) (pos - a_start a - 1) ltac:(lia) ltac:(lia) ltac:(lia) Ho) as Hp.
  apply returns_iff in Hp as (tmp & E & t & Htmp & Hx).
  match goal with |- returns (?m ≫= ?f) _ => destruct m as [o1| |] eqn:Eo; [|discriminate E..] end. cbn [mbind res_bind] in E |- *.
  rewrite E. bind_red. unfold atake.
  destruct (Z.eqb_spec (a_type a) 0) as [E0|]; [|destruct (Z.eqb_spec (a_type a) 1) as [E1|];
    [|destruct (Z.eqb_spec (a_type a) 2) as [E2|]]].
  - cbn. exists t. split; [done|]. constructor; cbn; try done. apply Forall2_app; [done|].
    apply Forall2_cons; [|by apply Forall2_nil]. split; [apply Htmp|]. by apply dict_new.
  - cbn. exists t. split; [done|]. constructor; cbn; try done. constructor. apply Htmp.
  - destruct (H2 E2) as [[g Eg] [k Ek]]. destruct (holds_last _ _ _ Hg Eg) as (m & Em & [Hmg Hmv] & Hrest).
    rewrite Em, Eg. rewrite Ek in Hk |- *. inversion Hk as [ko k' Hko Eko|]; subst.
    pose proof (dict_put_is _ _ ko k tmp t Hmv Hko Htmp) as Hput.
    apply returns_iff in Hput as ([d' gone] & Ed & Hd). rewrite Ed. cbn in Hd |- *. exists t. split; [done|].
    constructor; cbn; try done; [|constructor]. apply Forall2_app; [done|].
    apply Forall2_cons; [|by apply Forall2_nil]. done.
  - cbn. exists t. split; [done|]. by constructor.
Qed.

(** What the [switch] does: fail, go on, begin a part of a type here, end the part
    here, the next one being of a type. *)
Inductive action := AFail | ASame | AStart (type : Z) | AStop (next : Z).

Definition a_has_key (a : ascan) : bool := match a_key a with Some _ => true | None => false end.
Definition a_has_group (a : ascan) : bool := match a_groups a with [] => false | _ => true end.

Definition act (a : ascan) (c : Z) : action :=
  if c =? 63 then
    if a_start a =? -1 then AStart 0
    else if a_type a =? 0 then AStop 1
    else if (a_type a =? 2) && a_has_key a then AStop 0
    else if negb (a_has_key a) then AStart 0
    else AFail
  else if c =? 61 then
    if (a_type a =? 1) && a_has_group a && negb (a_has_key a) then AStop 2 else AFail
  else if c =? 38 then
    if (a_type a =? 2) && a_has_group a && a_has_key a then AStop 1
    else if (a_type a =? 1) && negb (a_has_key a) then AStart (a_type a)
    else AFail
  else if c =? 0 then (if a_type a =? 2 then AStop (-1) else ASame)
  else ASame.

Lemma mark_act s a c pos : scan_is s a -> mark s c pos =
  match act a c with
  | AFail => None
  | ASame => Some s
  | AStart ty => Some (sc_set_start s pos ty)
  | AStop nt => Some (sc_set_end s pos nt)
  end.
Proof.
  intros [Hg Hk Ht Hs Hn He].
  assert (holds_key s = a_has_key a) as Ek by (unfold holds_key, a_has_key; by inversion Hk).
  assert (holds_group s = a_has_group a) as Eg by (unfold holds_group, a_has_group; by inversion Hg).
  unfold mark, act. rewrite Ht, Hs, Ek, Eg, Hn.
  repeat match goal with |- context [if ?b then _ else _] => destruct b end; done.
Qed.

Lemma start_is s a pos ty : scan_is s a -> scan_is (sc_set_start s pos ty) (mkAscan (a_groups a) (a_key a) ty pos).
Proof. by intros [? ? ? ? ? ?]. Qed.

Lemma take_part_none str s a pos : scan_is s a -> take_part str s pos = Ok s.
Proof. intros [? ? ? ? ? He]. unfold take_part. rewrite He. by destruct (0 <=? sc_start s). Qed.

(** One character. *)
Lemma unpack_next str s a pos c n : scan_is s a -> rd str pos = Ok c ->
  unpack_loop str pos s (S n) =
    match act a c with
    | AFail => Ok None
    | ASame => unpack_loop str (pos + 1) s n
    | AStart ty => unpack_loop str (pos + 1) (sc_set_start s pos ty) n
    | AStop nt => s ← take_part str (sc_set_end s pos nt) pos; unpack_loop str (pos + 1) s n
    end.
Proof.
  intros Hs Hc. cbn [unpack_loop]. rewrite Hc. bind_red. rewrite (mark_act _ _ _ _ Hs).
  destruct (act a c) as [| |ty|nt]; [done| | |done].
  - by rewrite (take_part_none _ _ _ _ Hs).
  - by rewrite (take_part_none _ _ _ _ (start_is _ _ pos ty Hs)).
Qed.

(** ** Any text can be read *)

Record ainv (a : ascan) (pos : Z) : Prop := {
  ai_start : -1 <= a_start a < pos;
  ai_type : 0 <= a_type a -> 0 <= a_start a;
  ai_key : is_Some (a_key a) <-> a_type a = 2;
  ai_group : a_type a = 2 -> a_groups a <> []
}.

Lemma ainv_start a pos ty : ainv a pos -> 0 <= pos -> ty <> 2 -> a_type a <> 2 -> ainv (mkAscan (a_groups a) (a_key a) ty pos) (pos + 1).
Proof.
  intros [H1 H2 H3 H4] Hp Hty Hne. constructor; cbn; [lia|lia| |done]. rewrite H3. lia.
Qed.

Lemma ainv_key a pos : ainv a pos -> a_has_key a = (a_type a =? 2).
Proof.
  intros [_ _ H3 _]. unfold a_has_key. destruct (a_key a) as [k|].
  - destruct H3 as [H3 _]. specialize (H3 ltac:(by eexists)). lia.
  - destruct (Z.eqb_spec (a_type a) 2) as [E|]; [|done]. by apply H3 in E as [? ?].
Qed.

(** What a part that ends can be. *)
Definition stop_ok (a : ascan) (nt : Z) : Prop :=
  0 <= a_type a <= 2 /\ if nt =? 2 then a_type a = 1 /\ a_groups a <> [] else a_type a <> 1.

Lemma act_inv a pos c : ainv a pos ->
  match act a c with
  | AFail | ASame => True
  | AStart ty => ty <> 2 /\ a_type a <> 2
  | AStop nt => stop_ok a nt
  end.
Proof.
  intros H. pose proof (ainv_key _ _ H) as Ek. destruct H as [H1 H2 _ _]. unfold act, stop_ok. rewrite Ek.
  assert (a_has_group a = true -> a_groups a <> []) as Hg by (unfold a_has_group; by destruct (a_groups a)).
  destruct (Z.eqb_spec (a_type a) 0), (Z.eqb_spec (a_type a) 1), (Z.eqb_spec (a_type a) 2); try lia; cbn [andb negb];
    destruct (Z.eqb_spec (a_start a) (-1)); try lia;
    repeat match goal with |- context [if ?b then _ else _] => destruct b eqn:? end; cbn [Z.eqb Pos.eqb]; auto with lia.
Qed.

Lemma ainv_take a t pos nt : ainv a pos -> 0 <= pos -> stop_ok a nt -> ainv (atake a t pos nt) (pos + 1).
Proof.
  intros [H1 H2 H3 H4] Hp [Ht Hn]. unfold atake.
  assert (a_type a = 2 -> exists g k, list.last (a_groups a) = Some g /\ a_key a = Some k) as H5.
  { intros E. destruct (proj2 H3 E) as [k Ek]. specialize (H4 E).
    destruct (exists_last (l := a_groups a) H4) as (l & g & El). exists g, k. split; [by rewrite El, last_snoc|done]. }
  destruct (Z.eqb_spec (a_type a) 0) as [E0|]; [|destruct (Z.eqb_spec (a_type a) 1) as [E1|];
    [|destruct (Z.eqb_spec (a_type a) 2) as [E2|]]]; [..|lia].
  - destruct (Z.eqb_spec nt 2); [lia|]. constructor; cbn; [lia|lia|rewrite H3; lia|lia].
  - destruct (Z.eqb_spec nt 2) as [->|]; [|lia]. constructor; cbn; [lia|lia| |by intros _; apply Hn].
    split; [done|]. by eexists.
  - destruct (Z.eqb_spec nt 2); [lia|]. destruct (H5 E2) as (g & k & -> & ->).
    constructor; cbn; [lia|lia| |lia]. split; [by intros [? ?]|lia].
Qed.

Lemma slice_octets (str : list Z) (off n : Z) (k : nat) :
  0 <= off -> 0 <= n -> off + n <= Z.of_nat k -> octets (take k str) -> octets (slice str off n).
Proof.
  intros Hoff Hn Hk Ho. unfold slice. rewrite take_drop_commute. apply Forall_drop.
  replace (take (Z.to_nat off + Z.to_nat n) str) with (take (Z.to_nat off + Z.to_nat n) (take k str)); [by apply Forall_take|].
  rewrite take_take. f_equal. lia.
Qed.

Lemma unpack_loop_total str (n : nat) : forall pos s a,
  scan_is s a -> ainv a pos -> 0 <= pos -> pos + Z.of_nat n <= zlen str -> octets (take (Z.to_nat pos + n) str) ->
  returns (unpack_loop str pos s n) (fun r => match r with Some s' => exists a', scan_is s' a' | None => True end).
Proof.
  induction n as [|n IH]; intros pos s a Hs Ha Hp Hl Ho; [cbn; by exists a|].
  destruct (lookup_lt_is_Some_2 str (Z.to_nat pos)) as [c Hc]; [list_lia|].
  assert (octet c) as Hoc.
  { eapply (Forall_lookup_1 _ _ (Z.to_nat pos) _ Ho). rewrite lookup_take_lt by lia. done. }
  rewrite (unpack_next str s a pos c n Hs) by (apply rd_ok; destruct Hoc; split_and!; [lia|done|lia]).
  assert (octets (take (Z.to_nat (pos + 1) + n) str)) as Ho'.
  { by replace (Z.to_nat (pos + 1) + n)%nat with (Z.to_nat pos + S n)%nat by lia. }
  pose proof (act_inv a pos c Ha) as Hact. destruct (act a c) as [| |ty|nt].
  - done.
  - apply (IH _ _ a Hs); [|lia|lia|done]. destruct Ha. constructor; [lia|done..].
  - destruct Hact as [H1 H2]. eapply (IH _ _ _ (start_is _ _ pos ty Hs)); [by apply ainv_start|lia|lia|done].
  - pose proof (ai_type _ _ Ha (proj1 (proj1 Hact))). pose proof (ai_start _ _ Ha).
    eapply returns_seq; [eapply (take_part_ok str s a pos nt Hs); [lia|lia| |]|].
    + apply (slice_octets str _ _ (Z.to_nat pos + S n)); [lia|lia|lia|done].
    + intros E. split; [|by apply (ai_key _ _ Ha)]. pose proof (ai_group _ _ Ha E).
      destruct (exists_last (l := a_groups a) ltac:(done)) as (l & g & ->). exists g. apply last_snoc.
    + intros s' (t & _ & Hs'). eapply (IH _ _ _ Hs'); [by apply ainv_take|lia|lia|done].
Qed.

Definition scan0 : scan := mkScan [] None (-1) (-1) (-1) (-1).
Definition ascan0 : ascan := mkAscan [] None (-1) (-1).

Lemma scan0_is : scan_is scan0 ascan0.
Proof. constructor; done || apply Forall2_nil_2 || constructor. Qed.

(** The groups that a text holds. *)
Definition decodes (o : Octstr) (gs : list group_text) : Prop :=
  returns (meta_data_unpack o) (fun ms => Forall2 holds ms gs).

Lemma meta_unpack_total o s : repr o s -> exists gs, decodes o gs.
Proof.
  intros Ho. destruct (cstr_block_ok o s Ho) as (rest & Et & Hs).
  assert (ainv ascan0 0) as Ha by (constructor; cbn; [lia|lia|split; [by intros [? ?]|lia]|lia]).
  pose proof (unpack_loop_total (cstr_block o) (Z.to_nat (zlen s + 1)) 0 scan0 ascan0 scan0_is Ha ltac:(lia)) as H.
  rewrite Et in H. pose proof (zlen_nonneg s).
  assert (returns (unpack_loop (s ++ 0 :: rest) 0 scan0 (Z.to_nat (zlen s + 1)))
    (fun r => match r with Some s' => exists a', scan_is s' a' | None => True end)) as Hr.
  { apply H; [list_lia|]. change (Z.to_nat 0) with 0%nat. rewrite Nat.add_0_l.
    replace (Z.to_nat (zlen s + 1)) with (length (s ++ [0])) by list_lia.
    replace (s ++ 0 :: rest) with ((s ++ [0]) ++ rest) by (by rewrite <- app_assoc). rewrite take_app_length.
    apply Forall_app. split; [done|]. octets_tac. }
  apply returns_iff in Hr as (r & Er & Hr). unfold decodes, meta_data_unpack.
  rewrite (octstr_len_ok _ _ Ho), Et. bind_red. fold scan0. rewrite Er. cbn.
  destruct r as [s'|]; [|exists []; by apply Forall2_nil]. destruct Hr as [a' Hs']. exists (a_groups a'). apply Hs'.
Qed.

(** Reading meta data is total and safe: for every text, however malformed,
    [meta_data_unpack] returns a chain of groups with dictionaries (an empty one for
    NULL), reading only the text and its NUL. *)
Theorem meta_data_unpack_total (o : Octstr) (s : list Z) :
  repr o s -> exists ms gs, meta_data_unpack o = Ok ms /\ Forall2 holds ms gs.
Proof.
  intros Ho. destruct (meta_unpack_total o s Ho) as [gs H]. apply returns_iff in H as (ms & E & H). by exists ms, gs.
Qed.

(** A value without a key, an escape that is cut off, two question marks. *)
Lemma meta_data_unpack_total_witness :
  exists o ms gs, octstr_create [63; 63; 97; 61; 37; 63; 61] = Ok o /\ meta_data_unpack o = Ok ms /\ Forall2 holds ms gs.
Proof.
  assert (octets [63; 63; 97; 61; 37; 63; 61]) as Hs by octets_tac.
  pose proof (octstr_create_ok _ Hs) as H. apply returns_iff in H as (o & E & [Ho _]). exists o.
  destruct (meta_data_unpack_total o [63; 63; 97; 61; 37; 63; 61] Ho) as (ms & gs & Em & Hm). by exists ms, gs.
Defined.
