(* ===== verification/MetaDataPack.v ===== *)
(** * Meta data: writing, reading back and changing

    What [meta_data_pack] writes is what [meta_data_unpack] reads (MetaData.v), so
    the operations on a text are operations on its groups. *)

From stdpp Require Import gmap.
From S2P Require Import Prelude Octstr OctstrSearch OctstrCode OctstrFormat GwList Dict MetaData MetaDataProofs.
#[local] Open Scope Z_scope.
#[local] Open Scope kannel_scope.

(** ** The text *)

Notation pairs := (list (list Z * list Z)).

Definition pair_text (kv : list Z * list Z) : list Z := url_encode kv.1 ++ 61 :: url_encode kv.2 ++ [38].
Definition group_pack (g : list Z * pairs) : list Z := 63 :: url_encode g.1 ++ 63 :: concat (pair_text <$> g.2).
Definition chain_text (L : list (list Z * pairs)) : list Z := concat (group_pack <$> L).

(** The pairs in some order. *)
Definition listed (l : list Z * pairs) (g : group_text) : Prop := l.1 = g.1 /\ l.2 ≡ₚ map_to_list g.2.

(** A part never holds a character that ends it. *)
Definition inert (c : Z) : Prop := c <> 63 /\ c <> 61 /\ c <> 38 /\ c <> 0.

Lemma url_encode_inert s : octets s -> Forall inert (url_encode s).
Proof.
  assert (forallb (fun c => forallb (fun x => negb (bool_decide (x ∈ [63; 61; 38; 0]))) (url_enc1 c)) (seqZ 0 256) = true)
    as Hall by by vm_compute.
  rewrite forallb_forall in Hall. induction 1 as [|c s Hc _ IH]; [apply Forall_nil_2|]. rewrite url_encode_cons.
  apply Forall_app. split; [|done]. specialize (Hall c). rewrite <- list_elem_of_In, elem_of_seqZ in Hall.
  specialize (Hall ltac:(destruct Hc; lia)). rewrite forallb_forall in Hall.
  apply Forall_forall. intros x Hx. specialize (Hall x Hx).
  apply negb_true_iff, bool_decide_eq_false in Hall. unfold inert. set_solver.
Qed.

(** ** Reading what was written *)

Lemma act_inert a c : inert c -> act a c = ASame.
Proof. intros (H1 & H2 & H3 & H4). unfold act. by rewrite !(proj2 (Z.eqb_neq _ _)) by done. Qed.

Lemma rd_next (str w rest : list Z) (pos c : Z) : 0 <= pos -> drop (Z.to_nat pos) str = c :: rest -> octet c -> rd str pos = Ok c.
Proof.
  intros Hp Hd Hc. rewrite <- (Z.add_0_r pos). by apply (rd_tail str [c] rest pos 0).
Qed.

Lemma drop_next (str : list Z) pos c rest :
  0 <= pos -> drop (Z.to_nat pos) str = c :: rest -> drop (Z.to_nat (pos + 1)) str = rest.
Proof.
  intros Hp Hd. replace (Z.to_nat (pos + 1)) with (Z.to_nat pos + 1)%nat by lia. by rewrite <- drop_drop, Hd.
Qed.

Lemma drop_word (str : list Z) pos w rest :
  0 <= pos -> drop (Z.to_nat pos) str = w ++ rest -> drop (Z.to_nat (pos + zlen w)) str = rest.
Proof.
  intros Hp Hd. replace (Z.to_nat (pos + zlen w)) with (Z.to_nat pos + length w)%nat by list_lia.
  by rewrite <- drop_drop, Hd, drop_app_length.
Qed.

Lemma unpack_word str w : forall pos s a rest n,
  scan_is s a -> 0 <= pos -> Forall inert w -> octets w -> drop (Z.to_nat pos) str = w ++ rest ->
  unpack_loop str pos s (length w + n) = unpack_loop str (pos + zlen w) s n.
Proof.
  induction w as [|c w IH]; intros pos s a rest n Hs Hp Hw Ho Hd; [by rewrite Z.add_0_r|].
  apply Forall_cons_iff in Hw as [Hc Hw]. apply Forall_cons_iff in Ho as [Hoc Ho].
  change (length (c :: w) + n)%nat with (S (length w + n)).
  rewrite (unpack_next str s a pos c _ Hs) by (by eapply (rd_next str [])). rewrite act_inert by done.
  rewrite (IH _ _ a rest) by (done || lia || by eapply drop_next). f_equal. list_lia.
Qed.

(** One part and the character that ends it. *)
Lemma unpack_part str x c nt s a pos rest n (P : option scan -> Prop) :
  scan_is s a -> octets x -> octet c -> 0 <= a_start a -> pos = a_start a + 1 ->
  drop (Z.to_nat pos) str = url_encode x ++ c :: rest -> act a c = AStop nt ->
  (a_type a = 2 -> is_Some (list.last (a_groups a)) /\ is_Some (a_key a)) ->
  (forall s', scan_is s' (atake a x (pos + zlen (url_encode x)) nt) ->
    returns (unpack_loop str (pos + zlen (url_encode x) + 1) s' n) P) ->
  returns (unpack_loop str pos s (length (url_encode x) + S n)) P.
Proof.
  intros Hs Hx Hc Hst -> Hd Hact H2 Hcont. set (w := url_encode x) in *. pose proof (zlen_nonneg w).
  assert (octets w) as Ho by by apply octets_url_encode.
  pose proof (f_equal length Hd) as Hl. rewrite length_drop, length_app in Hl. cbn [length] in Hl.
  rewrite (unpack_word str w _ s a (c :: rest)) by (done || lia || by apply url_encode_inert).
  pose proof (drop_word str (a_start a + 1) w _ ltac:(lia) Hd) as Hd'.
  rewrite (unpack_next str s a _ c n Hs) by (eapply (rd_next str []); [lia|exact Hd'|done]). rewrite Hact.
  assert (slice str (a_start a + 1) (a_start a + 1 + zlen w - a_start a - 1) = w) as Ew.
  { unfold slice. rewrite Hd. replace (Z.to_nat _) with (length w) by list_lia. apply take_app_length. }
  eapply returns_seq; [apply (take_part_ok str s a _ nt Hs); [lia|list_lia|by rewrite Ew|done]|].
  intros s' (t & Ht & Hs'). rewrite (Ht x Hx Ew) in Hs'. by apply Hcont.
Qed.

Definition put_pair (m : gmap (list Z) (list Z)) (kv : list Z * list Z) := <[kv.1 := kv.2]> m.

Definition pairs_octets (kvs : pairs) : Prop := Forall (fun kv => octets kv.1 /\ octets kv.2) kvs.

Lemma length_pair_text k v n :
  (length (pair_text (k, v)) + n = length (url_encode k) + S (length (url_encode v) + S n))%nat.
Proof. unfold pair_text. cbn [fst snd]. rewrite length_app. cbn [length]. rewrite length_app. cbn [length]. lia. Qed.

Lemma unpack_pairs str kvs : forall s gs g m pos rest n (P : option scan -> Prop),
  pairs_octets kvs -> 1 <= pos -> scan_is s (mkAscan (gs ++ [(g, m)]) None 1 (pos - 1)) ->
  drop (Z.to_nat pos) str = concat (pair_text <$> kvs) ++ rest ->
  (forall s', scan_is s' (mkAscan (gs ++ [(g, foldl put_pair m kvs)]) None 1 (pos + zlen (concat (pair_text <$> kvs)) - 1)) ->
    returns (unpack_loop str (pos + zlen (concat (pair_text <$> kvs))) s' n) P) ->
  returns (unpack_loop str pos s (length (concat (pair_text <$> kvs)) + n)) P.
Proof.
  induction kvs as [|[k v] kvs IH]; intros s gs g m pos rest n P Ho Hp Hs Hd Hcont.
  { cbn in *. rewrite Z.add_0_r in Hcont. by apply Hcont. }
  apply Forall_cons_iff in Ho as [[Hk Hv] Ho]. cbn [fst snd] in Hk, Hv.
  cbn [fmap list_fmap concat] in *. rewrite length_app, <- Nat.add_assoc, length_pair_text.
  assert (drop (Z.to_nat pos) str =
    url_encode k ++ 61 :: url_encode v ++ 38 :: concat (pair_text <$> kvs) ++ rest) as Hd1.
  { rewrite Hd. unfold pair_text. cbn [fst snd]. rewrite <- !app_assoc. cbn [app]. by rewrite <- !app_assoc. }
  assert (zlen (pair_text (k, v) ++ concat (pair_text <$> kvs)) =
    zlen (url_encode k) + 1 + zlen (url_encode v) + 1 + zlen (concat (pair_text <$> kvs))) as El.
  { unfold pair_text. cbn [fst snd]. list_lia. }
  pose proof (zlen_nonneg (url_encode k)). pose proof (zlen_nonneg (url_encode v)).
  eapply (unpack_part str k 61 2 s _ pos); [exact Hs|done|unfold octet; lia|cbn; lia|cbn; lia|exact Hd1| |cbn; lia|].
  { unfold act, a_has_group. cbn. by destruct gs. }
  intros s1 Hs1. unfold atake in Hs1. cbn [a_type a_groups a_key Z.eqb Pos.eqb] in Hs1.
  apply drop_word in Hd1; [|lia]. apply drop_next in Hd1; [|lia].
  eapply (unpack_part str v 38 1 s1); [exact Hs1|done|unfold octet; lia|cbn; lia|cbn; lia|exact Hd1| | |].
  { unfold act, a_has_group. cbn. by destruct gs. }
  { intros _. cbn. rewrite last_snoc. by split; eexists. }
  intros s2 Hs2. unfold atake in Hs2. cbn [a_type a_groups a_key Z.eqb Pos.eqb] in Hs2.
  rewrite last_snoc, removelast_last in Hs2. cbn [fst snd] in Hs2.
  apply drop_word in Hd1; [|lia]. apply drop_next in Hd1; [|lia].
  eapply (IH s2 gs g (<[k := v]> m)); [done|lia| |exact Hd1|].
  { replace (pos + zlen (url_encode k) + 1 + zlen (url_encode v) + 1 - 1)
      with (pos + zlen (url_encode k) + 1 + zlen (url_encode v)) by lia. exact Hs2. }
  intros s3 Hs3. rewrite El in Hcont.
  replace (pos + (zlen (url_encode k) + 1 + zlen (url_encode v) + 1 + zlen (concat (pair_text <$> kvs))))
    with (pos + zlen (url_encode k) + 1 + zlen (url_encode v) + 1 + zlen (concat (pair_text <$> kvs))) in Hcont by lia.
  by apply Hcont.
Qed.

(** What the pairs of a group become. *)
Definition read_group (g : list Z * pairs) : group_text := (g.1, foldl put_pair ∅ g.2).

Definition chain_octets (L : list (list Z * pairs)) : Prop := Forall (fun g => octets g.1 /\ pairs_octets g.2) L.

(** Between two groups. *)
Definition at_group (a : ascan) (pos : Z) : Prop :=
  a_key a = None /\ (a = mkAscan [] None (-1) (-1) \/ a_type a = 1 /\ 0 <= a_start a).

Lemma act_group a pos : at_group a pos -> act a 63 = AStart 0.
Proof.
  intros [Hk H]. unfold act, a_has_key. rewrite Hk. cbn [Z.eqb Pos.eqb negb].
  destruct H as [-> | [-> H]]; [done|]. destruct (Z.eqb_spec (a_start a) (-1)); [lia|done].
Qed.

Lemma unpack_groups str L : forall s a pos rest,
  chain_octets L -> 0 <= pos -> scan_is s a -> at_group a pos ->
  drop (Z.to_nat pos) str = chain_text L ++ 0 :: rest ->
  returns (unpack_loop str pos s (length (chain_text L) + 1)) (fun r => exists s' a',
    r = Some s' /\ scan_is s' a' /\ a_groups a' = a_groups a ++ (read_group <$> L)).
Proof.
  induction L as [|[g kvs] L IH]; intros s a pos rest Ho Hp Hs Ha Hd.
  - cbn [chain_text fmap list_fmap concat app length Nat.add] in *.
    rewrite (unpack_next str s a pos 0 0 Hs) by (eapply (rd_next str []); [lia|exact Hd|unfold octet; lia]).
    assert (act a 0 = ASame) as -> by (unfold act; destruct Ha as [_ [-> | [-> _]]]; done).
    cbn. exists s, a. by rewrite app_nil_r.
  - apply Forall_cons_iff in Ho as [[Hg Hkv] Ho]. cbn [fst snd] in Hg, Hkv.
    set (body := concat (pair_text <$> kvs)).
    assert (chain_text ((g, kvs) :: L) = 63 :: url_encode g ++ 63 :: body ++ chain_text L) as Et.
    { unfold chain_text, group_pack. cbn [fmap list_fmap concat fst snd app]. rewrite <- app_assoc. by cbn [app]. }
    rewrite Et in Hd |- *. cbn [app] in Hd. rewrite <- app_assoc in Hd. cbn [app] in Hd. rewrite <- app_assoc in Hd.
    replace (length (63 :: url_encode g ++ 63 :: body ++ chain_text L)%Z + 1)%nat
      with (S (length (url_encode g) + S (length body + (length (chain_text L) + 1))))
      by (cbn [length]; rewrite length_app; cbn [length]; rewrite length_app; lia).
    rewrite (unpack_next str s a pos 63 _ Hs) by (eapply (rd_next str []); [lia|exact Hd|unfold octet; lia]).
    rewrite (act_group a pos Ha). apply drop_next in Hd; [|lia]. pose proof (zlen_nonneg (url_encode g)).
    pose proof (start_is s a pos 0 Hs) as Hs1. rewrite (proj1 Ha) in Hs1.
    eapply (unpack_part str g 63 1); [exact Hs1|done|unfold octet; lia|cbn; lia|cbn; lia|exact Hd| |cbn; lia|].
    { unfold act. cbn. by destruct (Z.eqb_spec pos (-1)); [lia|]. }
    intros s2 Hs2. unfold atake in Hs2. cbn [a_type a_groups a_key Z.eqb Pos.eqb] in Hs2.
    apply drop_word in Hd; [|lia]. apply drop_next in Hd; [|lia].
    eapply (unpack_pairs str kvs s2 (a_groups a) g ∅); [done|lia| |exact Hd|].
    { replace (pos + 1 + zlen (url_encode g) + 1 - 1) with (pos + 1 + zlen (url_encode g)) by lia. exact Hs2. }
    fold body. intros s3 Hs3. pose proof (zlen_nonneg body). apply drop_word in Hd; [|lia].
    eapply returns_mono; [eapply (IH s3 _ _ rest); [done|lia|exact Hs3| |exact Hd]|].
    { split; [done|]. right. cbn. lia. }
    intros r (s' & a' & -> & Hs' & Eg). exists s', a'. split; [done|]. split; [done|]. rewrite Eg. cbn [a_groups].
    by rewrite <- app_assoc.
Qed.

Lemma put_pairs_all (m : gmap (list Z) (list Z)) kvs : kvs ≡ₚ map_to_list m -> foldl put_pair ∅ kvs = m.
Proof.
  intros Hp. replace (foldl put_pair ∅ kvs) with (list_to_map (M := gmap (list Z) (list Z)) (reverse kvs)).
  - rewrite <- (list_to_map_to_list m). apply list_to_map_proper; [|by rewrite reverse_Permutation].
    rewrite reverse_Permutation, Hp. apply NoDup_fst_map_to_list.
  - rewrite <- (reverse_involutive kvs) at 2. generalize (reverse kvs). intros l.
    induction l as [|[k v] l IH]; [done|]. rewrite reverse_cons, foldl_snoc, <- IH. done.
Qed.

(** The text of the groups [gs], in some order of the keys. *)
Definition writes (s : list Z) (gs : list group_text) : Prop :=
  exists L, Forall2 listed L gs /\ chain_octets L /\ s = chain_text L.

Lemma unpack_written o s gs : repr o s -> writes s gs -> decodes o gs.
Proof.
  intros Ho (L & HL & HO & ->). destruct (cstr_block_ok o _ Ho) as (rest & Et & Hs).
  unfold decodes, meta_data_unpack. rewrite (octstr_len_ok _ _ Ho), Et. bind_red. fold scan0.
  replace (Z.to_nat (zlen (chain_text L) + 1)) with (length (chain_text L) + 1)%nat by list_lia.
  eapply returns_seq; [eapply (unpack_groups _ L scan0 ascan0 0 rest); [done|lia|apply scan0_is|by split; [|left]|done]|].
  intros r (s' & a' & -> & Hs' & Eg). cbn [returns]. pose proof (si_groups _ _ Hs') as Hg. rewrite Eg in Hg.
  cbn [a_groups ascan0 app] in Hg. replace (read_group <$> L) with gs in Hg; [done|].
  clear -HL. induction HL as [|[g kvs] [g' m] L gs [E P] _ IH]; [done|]. cbn in *. subst g'. f_equal; [|exact IH].
  unfold read_group. cbn [fst snd]. by rewrite (put_pairs_all m kvs P).
Qed.

(** ** Writing *)

Lemma key_listed (m : gmap (list Z) (list Z)) k : k ∈ (map_to_list m).*1 <-> is_Some (m !! k).
Proof.
  rewrite list_elem_of_fmap. split.
  - intros ([k' v] & -> & H%elem_of_map_to_list). by eexists.
  - intros [v H]. exists (k, v). split; [done|]. by apply elem_of_map_to_list.
Qed.

Lemma same_keys M m : values_are M m -> (map_to_list M).*1 ≡ₚ (map_to_list m).*1.
Proof.
  intros Hv. apply NoDup_Permutation; [apply NoDup_fst_map_to_list..|]. intros k. rewrite key_listed, list_elem_of_fmap.
  specialize (Hv k). split.
  - intros ([k' o] & -> & H%elem_of_map_to_list). cbn in *. rewrite H in Hv. by inversion Hv.
  - intros [v Hk]. rewrite Hk in Hv. inversion Hv as [o v' Ho E|]; subst. exists (k, o). split; [done|].
    by apply elem_of_map_to_list.
Qed.

Definition with_value (m : gmap (list Z) (list Z)) (k : list Z) : list Z * list Z := (k, m !!! k).

Lemma with_values_all m ks : ks ≡ₚ (map_to_list m).*1 -> with_value m <$> ks ≡ₚ map_to_list m.
Proof.
  intros ->. rewrite <- list_fmap_compose. erewrite list_fmap_ext with (g := id); [by rewrite list_fmap_id|].
  intros i [k v] H%list_elem_of_lookup_2%elem_of_map_to_list. cbn. unfold with_value. by rewrite (lookup_total_correct _ _ _ H).
Qed.

Lemma keys_octets M m os ks : values_are M m -> Forall2 repr os ks -> pairs_octets (with_value m <$> ks).
Proof.
  intros Hv. induction 1 as [|o k os ks Hk _ IH]; [apply Forall_nil_2|]. cbn [fmap list_fmap]. apply Forall_cons_2; [|done].
  split; [by eapply repr_octets|]. cbn. specialize (Hv k). unfold lookup_total, map_lookup_total.
  inversion Hv as [vo v Hvo|]; cbn; [by eapply reprm_octets|apply Forall_nil_2].
Qed.

Section pack.
Context `{!Printf}.

Lemma append_group_ok os s o t : reprm os s -> repr o t ->
  returns (octstr_format_append os [63; 37; 69; 63] [AOct (Some o)])
    (fun os' => reprm os' (s ++ 63 :: url_encode t ++ [63])).
Proof.
  intros Hos Ho. apply (octstr_format_append_ok os s [mkSegment [63] (plain_dir 0 69) (AOct (Some o))] [63]);
    [done| |literal_tac|done|done|].
  - apply Forall_singleton, plain_seg_ok; [literal_tac|by apply (bool_decide_unpack _)..| |by eexists].
    cbn. by rewrite (repr_bytes _ _ Ho).
  - cbn -[url_encode]. by rewrite app_nil_r, (repr_bytes _ _ Ho).
Qed.

Lemma append_pair_ok os s ko k vo v : reprm os s -> repr ko k -> repr vo v ->
  returns (octstr_format_append os [37; 69; 61; 37; 69; 38] [AOct (Some ko); AOct (Some vo)])
    (fun os' => reprm os' (s ++ pair_text (k, v))).
Proof.
  intros Hos Hk Hv.
  apply (octstr_format_append_ok os s [mkSegment [] (plain_dir 0 69) (AOct (Some ko)); mkSegment [61] (plain_dir 0 69) (AOct (Some vo))] [38]);
    [done| |literal_tac|done|done|].
  - apply Forall_cons_2; [|apply Forall_singleton]; (apply plain_seg_ok; [literal_tac|by apply (bool_decide_unpack _)..| |by eexists]).
    + cbn. by rewrite (repr_bytes _ _ Hk).
    + cbn. by rewrite (repr_bytes _ _ Hv).
  - unfold pair_text. cbn -[url_encode]. rewrite (repr_bytes _ _ Hk), (repr_bytes _ _ Hv), app_nil_r.
    rewrite <- app_assoc. done.
Qed.

Lemma pack_values_ok values m (fuel : nat) : forall data s l os ks,
  dict_is values m -> reprm data s -> lrepr l os -> Forall2 repr os ks -> Forall (fun k => is_Some (m !! k)) ks ->
  (length os < fuel)%nat ->
  returns (pack_values data values l fuel)
    (fun data' => reprm data' (s ++ concat (pair_text <$> (with_value m <$> ks)))).
Proof.
  induction fuel as [|fuel IH]; intros data s l os ks Hm Hd Hl Hos Hks Hf; [lia|]. cbn [pack_values].
  eapply returns_seq; [by apply (gwlist_extract_first_ok l os)|]. intros [tmp l'] (-> & Hl' & _).
  destruct Hos as [|o k os ks Hk Hos]; cbn [head tl] in *; [cbn; by rewrite app_nil_r|].
  apply Forall_cons_iff in Hks as [[v Hv] Hks].
  destruct (dict_get_is values m o k Hm Hk) as (r & -> & Hr). rewrite Hv in Hr. inversion Hr as [vo v' Hvo E|]; subst. bind_red.
  eapply returns_seq; [apply (append_pair_ok data s o k vo v); [done|done|apply Hvo]|]. intros data' Hd'. cbn beta in Hd'.
  eapply returns_mono; [eapply (IH data' _ l' os ks); [done..|cbn in Hf; lia]|]. intros data'' H''. cbn [fmap list_fmap concat].
  unfold with_value at 1. rewrite (lookup_total_correct _ _ _ Hv). by rewrite app_assoc.
Qed.

Lemma pack_group_ok data s m g : reprm data s -> holds m g ->
  returns (data ← octstr_format_append data [63; 37; 69; 63] [AOct (Some (m_group m))];
           l ← dict_keys (m_values m);
           pack_values data (m_values m) l (S (Z.to_nat (gwlist_len (Some l)))))
    (fun data' => exists l, listed l g /\ (octets l.1 /\ pairs_octets l.2) /\ reprm data' (s ++ group_pack l)).
Proof.
  intros Hd [Hg Hm]. eapply returns_seq; [by apply (append_group_ok data s (m_group m) g.1)|]. intros data1 H1. cbn beta in H1.
  pose proof Hm as (M & HM & Hv). eapply returns_seq; [by apply (dict_keys_ok (m_values m) M)|].
  intros l (os & ks & Hl & Hos & Hks). rewrite (same_keys M g.2 Hv) in Hks.
  eapply returns_mono; [eapply (pack_values_ok (m_values m) g.2 _ data1 _ l os ks); [done..| |]|].
  - rewrite Hks. apply Forall_forall. intros k Hk. apply key_listed. by apply list_elem_of_In.
  - unfold gwlist_len. rewrite (lr_len _ _ Hl). list_lia.
  - intros data2 H2. exists (g.1, with_value g.2 <$> ks). split; [split; [done|by apply with_values_all]|].
    split; [split; [by eapply repr_octets|by eapply keys_octets]|].
    unfold group_pack. cbn [fst snd]. rewrite <- app_assoc in H2. cbn [app] in H2. by rewrite <- app_assoc in H2.
Qed.

Lemma pack_groups_ok ms gs : Forall2 holds ms gs -> forall data s,
  reprm data s ->
  returns (pack_groups data ms) (fun data' => exists L,
    Forall2 listed L gs /\ chain_octets L /\ reprm data' (s ++ chain_text L)).
Proof.
  induction 1 as [|m g ms gs Hm _ IH]; intros data s Hd.
  { cbn. exists []. split; [by apply Forall2_nil|]. split; [apply Forall_nil_2|]. unfold chain_text. cbn. by rewrite app_nil_r. }
  cbn [pack_groups]. pose proof (pack_group_ok data s m g Hd Hm) as Hg.
  apply returns_iff in Hg as (data2 & E & l & Hl & Hlo & H2).
  destruct (octstr_format_append data [63; 37; 69; 63] [AOct (Some (m_group m))]) as [data1| |]; [|discriminate E..].
  cbn [mbind res_bind] in E |- *. destruct (dict_keys (m_values m)) as [ks| |]; [|discriminate E..].
  cbn [mbind res_bind] in E |- *. rewrite E. bind_red.
  eapply returns_mono; [by apply (IH data2)|]. intros data3 (L & HL & HO & H3). exists (l :: L).
  split; [by apply Forall2_cons|]. split; [by apply Forall_cons_2|]. unfold chain_text in *. cbn [fmap list_fmap concat]. by rewrite app_assoc.
Qed.

Lemma meta_data_pack_ok ms gs data s :
  Forall2 holds ms gs -> ms <> [] -> reprm data s ->
  returns (meta_data_pack ms data) (fun r => r.1 = 0 /\ exists t, reprm r.2 t /\ writes t gs).
Proof.
  intros Hms Hne Hd. unfold meta_data_pack. destruct ms as [|m ms']; [done|]. set (ms := m :: ms') in *.
  rewrite (octstr_len_ok _ _ (proj1 Hd)). bind_red.
  eapply returns_seq; [apply (octstr_delete_ok data s 0 (zlen s) Hd); long_lia|].
  intros data1 H1. cbn beta in H1. unfold cut in H1. rewrite take_0, drop_ge in H1 by list_lia. cbn [app] in H1.
  eapply returns_seq; [by apply (pack_groups_ok ms gs Hms data1)|]. intros data2 (L & HL & HO & H2). cbn [app] in H2.
  cbn. split; [done|]. exists (chain_text L). split; [done|]. by exists L.
Qed.
End pack.
