(* ===== verification/MetaDataOps.v ===== *)
(** * Meta data: the operations on a text

    The groups of a text are found by their names, without regard to case; setting,
    removing and getting a value of a text (MetaData.v) are the same operations on its
    groups. *)

From stdpp Require Import gmap.
From S2P Require Import Prelude Octstr OctstrSearch OctstrCode OctstrFormat GwList Dict MetaData MetaDataProofs MetaDataPack.
#[local] Open Scope Z_scope.
#[local] Open Scope kannel_scope.

(** ** Operations on groups *)

Definition lower (s : list Z) : list Z := tolower <$> s.

Definition nul_free (s : list Z) : Prop := Forall (fun c => c <> 0) s.

(** The group [g] is called [name]. *)
Definition called (name : list Z) (g : group_text) : bool := bool_decide (lower (cstr g.1) = lower name).

Notation table := (gmap (list Z) (list Z)).

(** The values of the first group of that name. *)
Definition values_of (gs : list group_text) (name : list Z) : option table :=
  snd <$> List.find (called name) gs.

Definition value_of (gs : list group_text) (name k : list Z) : option (list Z) :=
  values_of gs name ≫= lookup k.

(** The first group of that name changed; a new group goes behind the first one. *)
Fixpoint change (gs : list group_text) (name : list Z) (f : table -> table) : list group_text :=
  match gs with
  | [] => []
  | g :: gs => if called name g then (g.1, f g.2) :: gs else g :: change gs name f
  end.

Definition add_behind (gs : list group_text) (g : group_text) : list group_text :=
  match gs with
  | [] => [g]
  | first :: rest => first :: g :: rest
  end.

Definition change_or_add (gs : list group_text) (name : list Z) (f : table -> table) : list group_text :=
  match values_of gs name with
  | Some _ => change gs name f
  | None => add_behind gs (name, f ∅)
  end.

Lemma values_of_cons g gs name :
  values_of (g :: gs) name = if called name g then Some g.2 else values_of gs name.
Proof. unfold values_of. cbn. by destruct (called name g). Qed.

Lemma called_other name name' g : lower name' <> lower name -> called name g = true -> called name' g = false.
Proof. unfold called. rewrite bool_decide_eq_true, bool_decide_eq_false. congruence. Qed.

Lemma called_same name name' g : lower name' = lower name -> called name' g = called name g.
Proof. unfold called. by intros ->. Qed.

Lemma values_of_same gs name name' : lower name' = lower name -> values_of gs name' = values_of gs name.
Proof.
  intros E. induction gs as [|g gs IH]; [done|]. rewrite !values_of_cons, (called_same name name') by done. by rewrite IH.
Qed.

Lemma values_of_change gs name f : values_of (change gs name f) name = f <$> values_of gs name.
Proof.
  induction gs as [|g gs IH]; [done|]. cbn [change]. rewrite !values_of_cons.
  destruct (called name g) eqn:E; rewrite values_of_cons.
  - assert (called name (g.1, f g.2) = called name g) as -> by done. by rewrite E.
  - by rewrite E.
Qed.

Lemma values_of_change_other gs name name' f :
  lower name' <> lower name -> values_of (change gs name f) name' = values_of gs name'.
Proof.
  intros Hne. induction gs as [|g gs IH]; [done|]. cbn [change]. destruct (called name g) eqn:E; rewrite !values_of_cons.
  - assert (called name' (g.1, f g.2) = called name' g) as -> by done. by rewrite (called_other name) by done.
  - by rewrite IH.
Qed.

Lemma called_self name m : nul_free name -> called name (name, m) = true.
Proof. intros H. apply bool_decide_eq_true. cbn. by rewrite cstr_no_nul. Qed.

Lemma change_or_add_same gs name f : nul_free name ->
  values_of (change_or_add gs name f) name = Some (f (default ∅ (values_of gs name))).
Proof.
  intros H0. unfold change_or_add. destruct (values_of gs name) as [m|] eqn:E.
  - by rewrite values_of_change, E.
  - destruct gs as [|g gs]; cbn [add_behind]; rewrite !values_of_cons, called_self by done; [done|].
    rewrite values_of_cons in E. destruct (called name g); [done|]. done.
Qed.

Lemma change_or_add_other gs name name' f : lower name' <> lower name -> nul_free name ->
  values_of (change_or_add gs name f) name' = values_of gs name'.
Proof.
  intros Hne H0. unfold change_or_add. destruct (values_of gs name) as [m|]; [by apply values_of_change_other|].
  assert (called name' (name, f ∅) = false) as E by by apply (called_other name); [|apply called_self].
  destruct gs as [|g gs]; cbn [add_behind]; rewrite !values_of_cons, E; [done|]. done.
Qed.

(** ** Finding a group *)

Lemma case_compare_eq (o : Octstr) (s str : list Z) :
  repr o s -> exists c, octstr_str_case_compare o str = Ok c /\ (c = 0 <-> lower (cstr s) = lower str).
Proof.
  intros Ho. unfold octstr_str_case_compare. rewrite (repr_seems_valid _ _ Ho). bind_red. eexists. split; [done|].
  destruct Ho as [|s rest size imm Hs Hz]; cbn [os_data]; [apply strcmp_eq_0|]. rewrite cstr_app_nul. apply strcmp_eq_0.
Qed.

Lemma find_group_ok ms gs name : Forall2 holds ms gs ->
  returns (find_group ms name) (fun r =>
    match r with
    | Some (pre, m, post) => exists gpre g gpost,
        ms = pre ++ m :: post /\ gs = gpre ++ g :: gpost /\ Forall2 holds pre gpre /\ holds m g /\ Forall2 holds post gpost /\
        values_of gs name = Some g.2 /\ forall f, change gs name f = gpre ++ (g.1, f g.2) :: gpost
    | None => values_of gs name = None
    end).
Proof.
  induction 1 as [|m g ms gs Hm Hms IH]; [done|]. cbn [find_group].
  destruct (case_compare_eq (m_group m) g.1 name (proj1 Hm)) as (c & -> & Hc). bind_red.
  destruct (Z.eqb_spec c 0) as [E|Hne].
  - assert (called name g = true) as Ec by (apply bool_decide_eq_true; by apply Hc).
    cbn [returns]. exists [], g, gs. rewrite values_of_cons, Ec.
    split_and!; [done|done|by apply Forall2_nil|done|done|done|]. intros f. cbn [change]. by rewrite Ec.
  - assert (called name g = false) as Ec by (apply bool_decide_eq_false; by rewrite <- Hc).
    eapply returns_seq; [exact IH|]. intros [[[pre m'] post]|]; cbn [returns].
    + intros (gpre & g' & gpost & -> & -> & Hpre & Hm' & Hpost & Hv & Hf). exists (g :: gpre), g', gpost.
      split_and!; [done|done|by apply Forall2_cons|done|done|by rewrite values_of_cons, Ec|].
      intros f. cbn [change]. by rewrite Ec, Hf.
    + by rewrite values_of_cons, Ec.
Qed.

(** Reading, then finding a group. *)
Lemma unpack_find_ok {A} o gs name (f : list meta_data -> option (list meta_data * meta_data * list meta_data) -> res A) P :
  decodes o gs ->
  (forall ms pre m post gpre g gpost, ms = pre ++ m :: post -> gs = gpre ++ g :: gpost ->
     Forall2 holds pre gpre -> holds m g -> Forall2 holds post gpost -> values_of gs name = Some g.2 ->
     (forall h, change gs name h = gpre ++ (g.1, h g.2) :: gpost) -> returns (f ms (Some (pre, m, post))) P) ->
  (forall ms, Forall2 holds ms gs -> values_of gs name = None -> returns (f ms None) P) ->
  returns (ms ← meta_data_unpack o; r ← find_group ms name; f ms r) P.
Proof.
  intros Ho Hs Hn. eapply returns_seq; [exact Ho|]. intros ms Hms. cbn beta in Hms.
  eapply returns_seq; [by apply find_group_ok|]. intros [[[pre m] post]|].
  - intros (gpre & g & gpost & E & Eg & ? & ? & ? & ? & ?). by eapply Hs.
  - intros H. by apply Hn.
Qed.

Lemma holds_mid pre m post gpre g gpost values v :
  Forall2 holds pre gpre -> holds m g -> Forall2 holds post gpost -> dict_is values v ->
  Forall2 holds (pre ++ mkMeta (m_group m) values :: post) (gpre ++ (g.1, v) :: gpost).
Proof. intros Hp [Hg _] Hq Hv. apply Forall2_app; [done|]. by apply Forall2_cons. Qed.

Lemma add_group_ok ms gs m g : Forall2 holds ms gs -> holds m g -> Forall2 holds (add_group ms m) (add_behind gs g).
Proof.
  intros [|m' g' ms' gs' Hm Hms] H; cbn; [by apply Forall2_cons; [|apply Forall2_nil]|].
  by apply Forall2_cons; [|apply Forall2_cons].
Qed.

(** ** Getting and setting *)

Lemma meta_data_get_value_ok o gs name key k : decodes o gs -> repr key k ->
  returns (meta_data_get_value o name key) (fun r => option_Forall2 reprm r (value_of gs name k)).
Proof.
  intros Ho Hk. apply (unpack_find_ok o gs name (fun _ r => match r with
    | Some (_, curr, _) => '(v, _) ← dict_remove (m_values curr) key; Ok v
    | None => Ok None
    end) _ Ho).
  - intros ms pre m post gpre g gpost _ _ _ [_ (M & [B HB] & Hv)] _ E _.
    eapply returns_seq; [by apply (dict_remove_ok (m_values m) M B key k)|]. intros [v d'] (-> & _).
    cbn. unfold value_of. rewrite E. apply Hv.
  - intros ms _ E. cbn. unfold value_of. rewrite E. constructor.
Qed.

Definition set_table (k v : list Z) (replace : bool) (m : table) : table :=
  if replace then <[k := v]> m else match m !! k with Some _ => m | None => <[k := v]> m end.

Lemma dup_ok o s : repr o s -> returns (dup o) (fun o' => reprm o' s).
Proof.
  intros Ho. unfold dup. eapply returns_seq; [by apply octstr_duplicate_ok|]. intros r (o' & -> & Ho'). exact Ho'.
Qed.

Lemma put_copy_ok d m key k value v : dict_is d m -> repr key k -> repr value v ->
  returns (v ← dup value; '(values, _) ← dict_put d key (Some v); Ok values) (fun d' => dict_is d' (<[k := v]> m)).
Proof.
  intros Hd Hk Hv. eapply returns_seq; [by apply dup_ok|]. intros v' Hv'. cbn beta in Hv'.
  eapply returns_seq; [by apply (dict_put_is d m key k v' v)|]. by intros [d' gone] H.
Qed.

Lemma set_key_value_ok d m key k value v replace : dict_is d m -> repr key k -> repr value v ->
  returns (set_key_value d key value replace) (fun d' => dict_is d' (set_table k v replace m)).
Proof.
  intros Hd Hk Hv. unfold set_key_value, set_table. destruct replace.
  - eapply returns_seq; [by apply (dict_drop_is d m key k)|]. intros [d1 gone] H1. cbn [fst] in H1.
    rewrite <- (insert_delete_eq m). by apply put_copy_ok.
  - destruct (dict_get_is d m key k Hd Hk) as (r & -> & Hr). bind_red.
    inversion Hr; [done|]. by apply put_copy_ok.
Qed.

Section ops.
Context `{!Printf}.

(** A text with other groups. *)
Definition rewritten (gs : list group_text) (r : Z * Octstr) : Prop :=
  r.1 = 0 /\ (exists t, reprm r.2 t) /\ decodes r.2 gs.

Lemma repack_ok ms gs o s : Forall2 holds ms gs -> ms <> [] -> reprm o s ->
  returns (meta_data_pack ms o) (rewritten gs).
Proof.
  intros Hms Hne Ho. eapply returns_mono; [by apply (meta_data_pack_ok ms gs o s)|].
  intros [i d] (Ei & t & Ht & Hw). split; [done|]. split; [by exists t|]. eapply unpack_written; [apply Ht|done].
Qed.

Lemma meta_data_set_value_ok o s gs name key k value v replace :
  reprm o s -> decodes o gs -> octets name -> repr key k -> repr value v ->
  returns (meta_data_set_value o name key value replace) 
    (rewritten (change_or_add gs name (set_table k v replace))).
Proof.
  intros Ho Hgs Hn Hk Hv.
  unfold change_or_add.
  apply (unpack_find_ok o gs name (fun ms r => mdata ← match r with
      | Some (pre, curr, post) =>
          values ← set_key_value (m_values curr) key value replace;
          Ok (pre ++ mkMeta (m_group curr) values :: post)
      | None =>
          g ← octstr_create name;
          values ← set_key_value (dict_create 10 true) key value replace;
          Ok (add_group ms (mkMeta g values))
      end; meta_data_pack mdata o) _ Hgs).
  - intros ms pre m post gpre g gpost _ _ Hpre Hm Hpost E Ef. rewrite E, Ef. apply returns_bind.
    eapply returns_seq; [by apply (set_key_value_ok (m_values m) g.2); [apply Hm|..]|]. intros values Hval.
    cbn [returns]. apply (repack_ok _ _ o s); [by apply holds_mid|by destruct pre|done].
  - intros ms Hms E. rewrite E. apply returns_bind. eapply returns_seq; [by apply octstr_create_ok|].
    intros g [Hg _]. eapply returns_seq; [apply (set_key_value_ok _ ∅ key k value v); [by apply dict_new|done|done]|].
    intros values Hval. cbn [returns]. apply (repack_ok _ _ o s); [by apply add_group_ok; [|by split]|by destruct ms|done].
Qed.

Lemma meta_data_remove_value_ok o s gs name key k :
  reprm o s -> decodes o gs -> repr key k ->
  returns (meta_data_remove_value o name key) (fun r =>
    match values_of gs name with
    | Some _ => rewritten (change gs name (delete k)) r
    | None => r = (-1, o)
    end).
Proof.
  intros Ho Hgs Hk.
  apply (unpack_find_ok o gs name (fun _ r => match r with
      | None => Ok (-1, o)
      | Some (pre, curr, post) =>
          '(values, _) ← dict_put (m_values curr) key None;
          meta_data_pack (pre ++ mkMeta (m_group curr) values :: post) o
      end) _ Hgs).
  - intros ms pre m post gpre g gpost _ _ Hpre Hm Hpost E Ef. rewrite E, Ef.
    eapply returns_seq; [by apply (dict_drop_is (m_values m) g.2 key k); [apply Hm|]|]. intros [values gone] Hval.
    apply (repack_ok _ _ o s); [by apply holds_mid|by destruct pre|done].
  - intros ms _ E. by rewrite E.
Qed.

(** ** Setting many values *)

Lemma put_once_is d m key k o v : dict_is d m -> repr key k -> reprm o v ->
  returns (dict_put_once d key (Some o)) (fun r => dict_is r.1.2 (set_table k v false m)).
Proof.
  intros (M & [B HB] & Hv) Hk Ho. eapply returns_mono; [by apply (dict_put_once_ok d M B key k)|].
  intros [[r d'] gone] (_ & H1). cbn [fst snd]. unfold set_table. pose proof (Hv k) as Hvk.
  inversion Hvk as [x y Hxy Ex Ey|Ex Ey]; rewrite <- Ex in H1.
  - destruct H1 as (_ & H1 & _). by exists M.
  - destruct H1 as (_ & H1 & _). exists (<[k := o]> M). split; [done|by apply values_insert].
Qed.

(** The old values that the new table does not have. *)
Definition keep_table (old : table) (m : table) (k : list Z) : table := set_table k (old !!! k) false m.

Lemma keep_old_ok old mo (fuel : nat) : forall d m l os ks,
  dict_is old mo -> dict_is d m -> lrepr l os -> Forall2 repr os ks -> Forall (fun k => is_Some (mo !! k)) ks ->
  (length os < fuel)%nat ->
  returns (keep_old old d l fuel) (fun d' => dict_is d' (foldl (keep_table mo) m ks)).
Proof.
  induction fuel as [|fuel IH]; intros d m l os ks Hold Hd Hl Hos Hks Hf; [lia|]. cbn [keep_old].
  eapply returns_seq; [by apply (gwlist_extract_first_ok l os)|]. intros [tmp l'] (-> & Hl' & _).
  destruct Hos as [|o k os ks Hk Hos]; cbn [head tl] in *; [done|].
  apply Forall_cons_iff in Hks as [[v Hv] Hks].
  destruct (dict_get_is old mo o k Hold Hk) as (r & -> & Hr). rewrite Hv in Hr. inversion Hr as [vo v' Hvo E|]; subst. bind_red.
  eapply returns_seq; [apply octstr_duplicate_ok, Hvo|]. intros r' (vo' & -> & Hvo').
  eapply returns_seq; [by apply (put_once_is d m o k vo' v)|]. intros [[r1 d'] gone] Hd'. cbn [fst snd] in Hd'.
  apply (IH d' _ l' os ks); try done; [|cbn in Hf; lia]. unfold keep_table. by rewrite (lookup_total_correct _ _ _ Hv).
Qed.

Lemma keep_lookup old ks : forall m k, foldl (keep_table old) m ks !! k =
  match m !! k with Some v => Some v | None => if bool_decide (k ∈ ks) then Some (old !!! k) else None end.
Proof.
  induction ks as [|k0 ks IH]; intros m k; cbn [foldl]; [by destruct (m !! k)|]. rewrite IH. unfold keep_table, set_table.
  destruct (decide (k0 = k)) as [->|Hne].
  - rewrite (bool_decide_true (k ∈ k :: ks)) by set_solver. destruct (m !! k) as [v|] eqn:E; [by rewrite E|].
    by rewrite lookup_insert_eq.
  - rewrite (bool_decide_ext (k ∈ k0 :: ks) (k ∈ ks)) by set_solver. destruct (m !! k0) eqn:E; [done|].
    by rewrite lookup_insert_ne.
Qed.

Lemma keep_all old m ks : ks ≡ₚ (map_to_list old).*1 -> foldl (keep_table old) m ks = m ∪ old.
Proof.
  intros P. apply map_eq. intros k. rewrite keep_lookup, lookup_union. destruct (m !! k) as [v|]; [by destruct (old !! k)|].
  rewrite (bool_decide_ext (k ∈ ks) (is_Some (old !! k))) by (by rewrite P, key_listed).
  destruct (old !! k) as [v|] eqn:E; cbn.
  - by rewrite (lookup_total_correct _ _ _ E).
  - done.
Qed.

Definition set_tables (new : table) (replace : bool) (old : table) : table := if replace then new else new ∪ old.

Lemma meta_data_set_values_ok o s gs d new name replace :
  reprm o s -> decodes o gs -> octets name -> dict_is d new ->
  returns (meta_data_set_values o d name replace) (fun r =>
    rewritten (change_or_add gs name (set_tables new replace)) r.1).
Proof.
  intros Ho Hgs Hn Hd. unfold change_or_add.
  apply (unpack_find_ok o gs name (fun ms r => '(mdata, dict) ← match r with
      | Some (pre, curr, post) =>
          dict ← (if replace then Ok d
                  else keys ← dict_keys (m_values curr);
                       keep_old (m_values curr) d keys (S (Z.to_nat (gwlist_len (Some keys)))));
          Ok (pre ++ mkMeta (m_group curr) dict :: post, dict)
      | None =>
          g ← octstr_create name;
          Ok (add_group ms (mkMeta g d), d)
      end; '(i, data) ← meta_data_pack mdata o; Ok (i, data, dict)) _ Hgs).
  - intros ms pre m post gpre g gpost _ _ Hpre Hm Hpost E Ef. rewrite E, Ef. apply returns_bind, returns_bind.
    apply (returns_mono _ (fun d' => dict_is d' (set_tables new replace g.2))).
    + destruct replace; [done|]. destruct Hm as [_ Hm]. pose proof Hm as (M & HM & Hv).
      eapply returns_seq; [by apply (dict_keys_ok (m_values m) M)|]. intros l (os & ks & Hl & Hos & Hks).
      rewrite (same_keys M g.2 Hv) in Hks. unfold set_tables. rewrite <- (keep_all g.2 new ks Hks).
      apply (keep_old_ok (m_values m) g.2 _ d new l os ks); try done.
      * rewrite Hks. apply Forall_forall. intros k Hk. apply key_listed. by apply list_elem_of_In.
      * unfold gwlist_len. rewrite (lr_len _ _ Hl). list_lia.
    + intros d' Hd'. cbn [returns]. eapply returns_seq; [eapply (repack_ok _ _ o s); [by apply holds_mid|by destruct pre|done]|].
      by intros [i data] H'.
  - intros ms Hms E. rewrite E. apply returns_bind. eapply returns_seq; [by apply octstr_create_ok|].
    intros g [Hg _]. cbn [returns]. eapply returns_seq; [apply (repack_ok _ (add_behind gs (name, set_tables new replace ∅)) o s)|].
    + apply add_group_ok; [done|]. split; [done|]. cbn [snd m_values]. unfold set_tables.
      destruct replace; [done|]. by rewrite (right_id_L ∅ (∪)).
    + by destruct ms.
    + done.
    + by intros [i data] H'.
Qed.

(** ** Properties *)

(** The value that a text has for a key of a group. *)
Definition reads_value (o : Octstr) (name : list Z) (key : Octstr) (x : option (list Z)) : Prop :=
  exists r, meta_data_get_value o name key = Ok r /\ option_Forall2 repr r x.

Lemma reads_value_ok o gs name key k : decodes o gs -> repr key k -> reads_value o name key (value_of gs name k).
Proof.
  intros Ho Hk. apply returns_iff. apply (returns_mono _ _ _ (meta_data_get_value_ok o gs name key k Ho Hk)).
  intros r Hr. destruct Hr as [x y [Hx _]|]; by constructor.
Qed.

Lemma reads_unique o name key x y : reads_value o name key x -> reads_value o name key y -> x = y.
Proof.
  intros (r & E & H1) (r' & E' & H2). rewrite E in E'. injection E' as <-.
  inversion H1; subst; inversion H2; subst; [|done]. f_equal. by eapply repr_functional.
Qed.

(** Another group or another key. *)
Definition elsewhere (name k name' k' : list Z) : Prop := lower name' <> lower name \/ k' <> k.

Lemma value_of_same gs name name' k : lower name' = lower name -> value_of gs name' k = value_of gs name k.
Proof. intros E. unfold value_of. by rewrite (values_of_same gs name name' E). Qed.

Lemma value_of_set gs name k v name' k' : nul_free name ->
  value_of (change_or_add gs name (<[k := v]>)) name k = Some v /\
  (elsewhere name k name' k' ->
   value_of (change_or_add gs name (<[k := v]>)) name' k' = value_of gs name' k').
Proof.
  intros Hn. unfold value_of. rewrite change_or_add_same by done. split; [cbn; apply lookup_insert_eq|].
  intros He. destruct (decide (lower name' = lower name)) as [E|E].
  - destruct He as [He|He]; [done|]. rewrite !(values_of_same _ name name') by done.
    rewrite change_or_add_same by done. cbn. rewrite lookup_insert_ne by done.
    destruct (values_of gs name); cbn; [done|apply lookup_empty].
  - by rewrite change_or_add_other.
Qed.

Lemma value_of_remove gs name k name' k' :
  value_of (change gs name (delete k)) name k = None /\
  (elsewhere name k name' k' -> value_of (change gs name (delete k)) name' k' = value_of gs name' k').
Proof.
  unfold value_of. rewrite values_of_change. split; [destruct (values_of gs name); [cbn; apply lookup_delete_eq|done]|].
  intros He. destruct (decide (lower name' = lower name)) as [E|E].
  - destruct He as [He|He]; [done|]. rewrite !(values_of_same _ name name') by done. rewrite values_of_change.
    destruct (values_of gs name); [|done]. cbn. by rewrite lookup_delete_ne.
  - by rewrite values_of_change_other.
Qed.

Lemma set_get_ok (o : Octstr) (s name : list Z) (key value : Octstr) (k v : list Z) :
  reprm o s -> octets name -> nul_free name -> repr key k -> repr value v ->
  exists o' t, meta_data_set_value o name key value true = Ok (0, o') /\ reprm o' t /\
    (forall name', lower name' = lower name -> reads_value o' name' key (Some v)) /\
    forall name' key' k' x, repr key' k' -> elsewhere name k name' k' -> reads_value o name' key' x -> reads_value o' name' key' x.
Proof.
  intros Ho Hn H0 Hk Hv. destruct (meta_unpack_total o s (proj1 Ho)) as [gs Hgs].
  pose proof (meta_data_set_value_ok o s gs name key k value v true Ho Hgs Hn Hk Hv) as H1.
  apply returns_iff in H1 as ([i o'] & E & Ei & [t Ht] & Hd). cbn [fst snd] in *. subst i. exists o', t.
  change (set_table k v true) with (insert (M := table) k v) in Hd.
  split_and!; [done|done| |].
  - intros name' En. rewrite <- (proj1 (value_of_set gs name k v [] [] H0)), <- (value_of_same _ name name') by done.
    by apply reads_value_ok.
  - intros name' key' k' x Hk' He Hx. rewrite (reads_unique _ _ _ _ _ Hx (reads_value_ok o gs name' key' k' Hgs Hk')).
    rewrite <- (proj2 (value_of_set gs name k v name' k' H0) He). by apply reads_value_ok.
Qed.

(** C34. Setting a value of the meta data, on any text (a malformed one has no values):
    [meta_data_set_value] with [replace] succeeds, afterwards [meta_data_get_value]
    gives the value for the key in that group (the name in any case), and every other
    key and group reads as before. *)
Theorem meta_data_set_get (o : Octstr) (s name : list Z) (key value : Octstr) (k v : list Z) :
  reprm o s -> octets name -> nul_free name -> repr key k -> repr value v ->
  exists o' t, meta_data_set_value o name key value true = Ok (0, o') /\ reprm o' t /\
    (forall name', lower name' = lower name -> reads_value o' name' key (Some v)) /\
    forall name' key' k' x, repr key' k' -> elsewhere name k name' k' -> reads_value o name' key' x -> reads_value o' name' key' x.
Proof. apply set_get_ok. Qed.

(** Removing a value: it is gone and every other key and group reads as before; the
    result says whether the group exists. *)
Theorem meta_data_remove_get (o : Octstr) (s name : list Z) (key : Octstr) (k : list Z) :
  reprm o s -> repr key k ->
  exists i o' t, meta_data_remove_value o name key = Ok (i, o') /\ reprm o' t /\ (i = 0 \/ i = -1 /\ o' = o) /\
    reads_value o' name key None /\
    forall name' key' k' x, repr key' k' -> elsewhere name k name' k' -> reads_value o name' key' x -> reads_value o' name' key' x.
Proof.
  intros Ho Hk. destruct (meta_unpack_total o s (proj1 Ho)) as [gs Hgs].
  pose proof (meta_data_remove_value_ok o s gs name key k Ho Hgs Hk) as H1.
  apply returns_iff in H1 as ([i o'] & E & H1). destruct (values_of gs name) as [m|] eqn:Ev.
  - destruct H1 as (Ei & [t Ht] & Hd). cbn [fst snd] in *. subst i. exists 0, o', t. split_and!; [done|done|by left| |].
    + rewrite <- (proj1 (value_of_remove gs name k [] [])). by apply reads_value_ok.
    + intros name' key' k' x Hk' He Hx. rewrite (reads_unique _ _ _ _ _ Hx (reads_value_ok o gs name' key' k' Hgs Hk')).
      rewrite <- (proj2 (value_of_remove gs name k name' k') He). by apply reads_value_ok.
  - injection H1 as -> ->. exists (-1), o, s. split_and!; [done|done|by right| |done].
    assert (value_of gs name k = None) as <- by (unfold value_of; by rewrite Ev). by apply reads_value_ok.
Qed.
End ops.

#[local] Instance meta_no_doubles : Printf := {
  double := Empty_set;
  sprintf_double := fun _ _ _ => [];
  sprintf_p := fun _ => []
}.

(** The value v of the key k in the group dlr, on ?smpp?a=b& *)
Lemma meta_data_set_get_witness :
  exists o key value o' t, octstr_create [63; 115; 109; 112; 112; 63; 97; 61; 98; 38] = Ok o /\
    octstr_create [107] = Ok key /\ octstr_create [118] = Ok value /\
    meta_data_set_value o [100; 108; 114] key value true = Ok (0, o') /\ reprm o' t /\
    reads_value o' [68; 76; 82] key (Some [118]).
Proof.
  assert (octets [63; 115; 109; 112; 112; 63; 97; 61; 98; 38]) as Hs by octets_tac.
  assert (octets [107]) as Hk by octets_tac. assert (octets [118]) as Hv by octets_tac.
  pose proof (octstr_create_ok _ Hs) as Ho. apply returns_iff in Ho as (o & Eo & Ho).
  pose proof (octstr_create_ok _ Hk) as Hko. apply returns_iff in Hko as (key & Ek & [Hko _]).
  pose proof (octstr_create_ok _ Hv) as Hvo. apply returns_iff in Hvo as (value & Ev & [Hvo _]).
  assert (octets [100; 108; 114]) as Hn by octets_tac.
  assert (nul_free [100; 108; 114]) as H0 by (repeat (apply Forall_cons_2; [lia|]); apply Forall_nil_2).
  destruct (meta_data_set_get o [63; 115; 109; 112; 112; 63; 97; 61; 98; 38] [100; 108; 114] key value [107] [118] Ho Hn H0 Hko Hvo)
    as (o' & t & E & Ht & Hr & _).
  exists o, key, value, o', t. split_and!; [done..|]. apply Hr. done.
Defined.
