(* ===== verification/MetaDataMerge.v ===== *)
(** * Meta data: merging two texts

    [meta_data_merge] of MetaData.v joins the groups of the same name, the values of
    one side winning, and adds the others at the end. *)

From stdpp Require Import gmap.
From S2P Require Import Prelude Octstr OctstrSearch OctstrCode OctstrFormat GwList Dict MetaData MetaDataProofs MetaDataPack MetaDataOps.
#[local] Open Scope Z_scope.
#[local] Open Scope kannel_scope.

(** ** Operations on groups *)

Definition join_tables (replace : bool) (old new : table) : table := if replace then new ∪ old else old ∪ new.

Fixpoint join_group (replace : bool) (gs : list group_text) (n : group_text) : list group_text :=
  match gs with
  | [] => [n]
  | g :: gs => if bool_decide (g.1 = n.1) then (g.1, join_tables replace g.2 n.2) :: gs else g :: join_group replace gs n
  end.

Definition join_groups (replace : bool) (gs new : list group_text) : list group_text := foldl (join_group replace) gs new.

(** ** The values *)

Definition merge_table (replace : bool) (new m : table) (k : list Z) : table := set_table k (new !!! k) replace m.

Lemma merge_lookup new ks : forall m k, foldl (merge_table true new) m ks !! k =
  if bool_decide (k ∈ ks) then Some (new !!! k) else m !! k.
Proof.
  induction ks as [|k0 ks IH]; intros m k; cbn [foldl]; [done|]. rewrite IH. unfold merge_table, set_table.
  destruct (decide (k0 = k)) as [->|Hne].
  - rewrite (bool_decide_true (k ∈ k :: ks)) by set_solver. rewrite lookup_insert_eq. by destruct (bool_decide _).
  - rewrite (bool_decide_ext (k ∈ k0 :: ks) (k ∈ ks)) by set_solver. by rewrite lookup_insert_ne.
Qed.

Lemma merge_all replace new m ks : ks ≡ₚ (map_to_list new).*1 -> foldl (merge_table replace new) m ks = join_tables replace m new.
Proof.
  intros P. destruct replace; [|exact (keep_all new m ks P)]. apply map_eq. intros k. rewrite merge_lookup. cbn [join_tables].
  rewrite lookup_union, (bool_decide_ext (k ∈ ks) (is_Some (new !! k))) by (by rewrite P, key_listed).
  destruct (new !! k) as [v|] eqn:E; cbn.
  - rewrite (lookup_total_correct _ _ _ E). by destruct (m !! k).
  - by destruct (m !! k).
Qed.

Lemma merge_values_ok new mn replace (fuel : nat) : forall d m l os ks,
  dict_is new mn -> dict_is d m -> lrepr l os -> num_producers l = 0 -> Forall2 repr os ks ->
  Forall (fun k => is_Some (mn !! k)) ks -> (length os < fuel)%nat ->
  returns (merge_values d new l replace fuel) (fun d' => dict_is d' (foldl (merge_table replace mn) m ks)).
Proof.
  induction fuel as [|fuel IH]; intros d m l os ks Hn Hd Hl Hp Hos Hks Hf; [lia|]. cbn [merge_values].
  destruct (consume_now l os Hl Hp) as (l' & -> & Hl' & Hp'). bind_red.
  destruct Hos as [|o k os ks Hk Hos]; cbn [head tl] in *; [done|].
  apply Forall_cons_iff in Hks as [[v Hv] Hks].
  destruct (dict_get_is new mn o k Hn Hk) as (r & E & Hr). rewrite Hv in Hr. inversion Hr as [vo v' Hvo Ev|]; subst.
  assert (set_table k v replace m = merge_table replace mn m k) as Em
    by (unfold merge_table; by rewrite (lookup_total_correct _ _ _ Hv)).
  apply returns_bind. apply (returns_mono _ (fun d' => dict_is d' (merge_table replace mn m k))).
  - rewrite <- Em. destruct replace.
    + eapply returns_seq; [by apply (dict_drop_is d m o k)|]. intros [d1 gone] H1. cbn [fst] in H1. rewrite E. bind_red.
      eapply returns_seq; [apply octstr_duplicate_ok, Hvo|]. intros r' (vo' & -> & Hvo').
      cbn [set_table]. rewrite <- (insert_delete_eq m).
      eapply returns_seq; [by apply (dict_put_is d1 (delete k m) o k vo' v)|]. by intros [d2 gone2] H2.
    + rewrite E. bind_red. eapply returns_seq; [apply octstr_duplicate_ok, Hvo|]. intros r' (vo' & -> & Hvo').
      eapply returns_seq; [by apply (put_once_is d m o k vo' v)|]. by intros [[r1 d1] gone] H1.
  - intros d' Hd'. apply (IH d' _ l' os ks); try done. cbn in Hf. lia.
Qed.

Lemma merge_match_ok d m new mn replace : dict_is d m -> dict_is new mn ->
  returns (keys ← dict_keys new; merge_values d new keys replace (S (Z.to_nat (gwlist_len (Some keys)))))
    (fun d' => dict_is d' (join_tables replace m mn)).
Proof.
  intros Hd Hn. pose proof Hn as (M & HM & Hv). eapply returns_seq; [by apply (dict_keys_idle new M)|].
  intros l (Hp & os & ks & Hl & Hos & Hks). rewrite (same_keys M mn Hv) in Hks. rewrite <- (merge_all replace mn m ks Hks).
  apply (merge_values_ok new mn replace _ d m l os ks); try done.
  - rewrite Hks. apply Forall_forall. intros k Hk. apply key_listed. by apply list_elem_of_In.
  - unfold gwlist_len. rewrite (lr_len _ _ Hl). list_lia.
Qed.

(** ** The groups *)

Lemma join_empty replace m : join_tables replace ∅ m = m.
Proof. unfold join_tables. destruct replace; [apply (right_id_L ∅ (∪))|apply (left_id_L ∅ (∪))]. Qed.

Lemma merge_found_ok m g ms n gn replace (fuel : nat) : holds m g -> holds n gn -> g.1 = gn.1 ->
  returns (merge_group (m :: ms) n replace (S fuel)) (fun ms' => exists m',
    ms' = m' :: ms /\ holds m' (g.1, join_tables replace g.2 gn.2)).
Proof.
  intros Hm Hn E. cbn [merge_group]. rewrite (octstr_compare_ok _ _ _ _ (proj1 Hm) (proj1 Hn)). bind_red.
  rewrite (proj2 (strcmp_eq_0 g.1 gn.1) E). cbn [Z.eqb].
  pose proof (merge_match_ok _ _ _ _ replace (proj2 Hm) (proj2 Hn)) as Hv. apply returns_iff in Hv as (d & Ed & Hd).
  destruct (dict_keys (m_values n)) as [keys| |]; [|discriminate Ed..]. cbn [mbind res_bind] in Ed |- *. rewrite Ed. cbn.
  eexists. split; [done|]. split; [apply Hm|done].
Qed.

Lemma merge_group_ok n gn replace (fuel : nat) : holds n gn -> forall ms gs,
  Forall2 holds ms gs -> ms <> [] -> (length ms < fuel)%nat ->
  returns (merge_group ms n replace fuel) (fun ms' => Forall2 holds ms' (join_group replace gs gn) /\ ms' <> []).
Proof.
  intros Hn. induction fuel as [|fuel IH]; intros ms gs Hms Hne Hf; [lia|].
  destruct Hms as [|m g ms gs Hm Hms]; [done|]. cbn [join_group]. destruct (decide (g.1 = gn.1)) as [E|Hd].
  - rewrite bool_decide_true by done. eapply returns_mono; [by apply (merge_found_ok m g ms n gn)|].
    intros ms' (m' & -> & Hm'). split; [|done]. by apply Forall2_cons.
  - rewrite bool_decide_false by done. cbn [merge_group]. rewrite (octstr_compare_ok _ _ _ _ (proj1 Hm) (proj1 Hn)). bind_red.
    destruct (Z.eqb_spec (strcmp g.1 gn.1) 0) as [E|_]; [by apply strcmp_eq_0 in E|].
    destruct Hms as [|m' g' ms gs Hm' Hms].
    + apply returns_bind. eapply returns_seq; [apply (dup_ok (m_group n) gn.1), Hn|]. intros o [Ho _]. cbn [returns].
      destruct fuel as [|fuel]; [cbn in Hf; lia|].
      eapply returns_seq; [apply (merge_found_ok _ (gn.1, ∅) [] n gn)|]; [split; [done|by apply dict_new]|done|done|].
      intros next (m' & -> & Hm'). cbn [fst snd] in Hm'. rewrite join_empty in Hm'. cbn. split; [|done].
      apply Forall2_cons; [done|]. apply Forall2_cons; [by destruct gn|by apply Forall2_nil].
    + bind_red. eapply returns_seq; [apply (IH (m' :: ms) (g' :: gs)); [by apply Forall2_cons|done|cbn in *; lia]|].
      intros next [H4 _]. cbn. split; [|done]. by apply Forall2_cons.
Qed.

Lemma merge_groups_ok replace ns gns : Forall2 holds ns gns -> forall ms gs,
  Forall2 holds ms gs -> ms <> [] ->
  returns (merge_groups ms ns replace) (fun ms' => Forall2 holds ms' (join_groups replace gs gns) /\ ms' <> []).
Proof.
  induction 1 as [|n gn ns gns Hn _ IH]; intros ms gs Hms Hne; [done|]. cbn [merge_groups].
  eapply returns_seq; [apply (merge_group_ok n gn replace _ Hn ms gs); [done|done|lia]|].
  intros ms' [H1 H2]. by apply IH.
Qed.

Section merge.
Context `{!Printf}.

Lemma empty_decodes o : repr o [] -> decodes o [].
Proof. intros Ho. apply (unpack_written o []); [done|]. exists []. split_and!; [by apply Forall2_nil|apply Forall_nil_2|done]. Qed.

Lemma copy_ok o s : repr o s -> exists r, octstr_duplicate (Some o) = Ok (Some r) /\ reprm r s.
Proof.
  intros Ho. pose proof (octstr_duplicate_ok o s Ho) as Hd. apply returns_iff in Hd as (r & E & o' & -> & Ho'). eauto.
Qed.

Lemma merge_pack_ok ms gs ns gns replace : Forall2 holds ms gs -> ms <> [] -> Forall2 holds ns gns ->
  returns (mdata ← merge_groups ms ns replace; ret ← octstr_create []; '(i, ret) ← meta_data_pack mdata ret;
           Ok (if i =? -1 then None else Some ret))
    (fun r => exists o u, r = Some o /\ reprm o u /\ decodes o (join_groups replace gs gns)).
Proof.
  intros Hms Hne Hns. eapply returns_seq; [by apply (merge_groups_ok replace ns gns Hns ms gs)|]. intros ms' [H1 H2].
  eapply returns_seq; [apply (octstr_create_ok [] (Forall_nil_2 _))|]. intros ret Hret.
  eapply returns_seq; [by apply (repack_ok ms' (join_groups replace gs gns) ret [])|]. intros [i o] (Ei & [u Hu] & Hd). cbn [fst snd] in *. subst i. cbn.
  by exists o, u.
Qed.

(** Merging the meta data of two texts: where both have groups, [meta_data_merge]
    returns a text that reads as the groups of the first, those of a name that the
    second has too joined with its values (which win exactly with [replace]), and the
    other groups of the second behind them, in their order; otherwise a copy of the
    text that has groups, and of the second, unless that is empty, where none has. *)
Theorem meta_data_merge_joins (o new : Octstr) (s t : list Z) (replace : bool) :
  repr o s -> repr new t ->
  exists gs gns r u, decodes o gs /\ decodes new gns /\
    meta_data_merge (Some o) (Some new) replace = Ok (Some r) /\ reprm r u /\
    match gs, gns with
    | [], _ => u = match t with [] => s | _ :: _ => t end
    | _, [] => u = s
    | _, _ => decodes r (join_groups replace gs gns)
    end.
Proof.
  intros Ho Hn. destruct (meta_unpack_total o s Ho) as [gs Hgs]. destruct (meta_unpack_total new t Hn) as [gns Hgns].
  unfold meta_data_merge. rewrite (octstr_len_ok _ _ Ho), (octstr_len_ok _ _ Hn). bind_red.
  destruct (Z.ltb_spec (zlen s) 1) as [Hs|Hs].
  { assert (s = []) as -> by (apply zlen_0_inv; pose proof (zlen_nonneg s); lia).
    destruct (copy_ok new t Hn) as (r & -> & Hr). exists [], gns, r, t. split_and!; [by apply empty_decodes|done|done|done|].
    by destruct t. }
  destruct (Z.ltb_spec (zlen t) 1) as [Ht|Ht].
  { assert (t = []) as -> by (apply zlen_0_inv; pose proof (zlen_nonneg t); lia).
    destruct (copy_ok o s Ho) as (r & -> & Hr). exists gs, [], r, s. split_and!; [done|by apply empty_decodes|done|done|].
    by destruct gs. }
  pose proof (proj1 (returns_iff _ _) Hgs) as (ms & Em & Hms). rewrite Em. bind_red.
  pose proof (proj1 (returns_iff _ _) Hgns) as (ns & En & Hns).
  destruct Hms as [|m g ms gs' Hm Hms].
  { destruct (copy_ok new t Hn) as (r & -> & Hr). exists [], gns, r, t. split_and!; [done..|]. by destruct t. }
  rewrite En. bind_red. destruct Hns as [|n gn ns gns' Hn' Hns].
  { destruct (copy_ok o s Ho) as (r & -> & Hr). exists (g :: gs'), [], r, s. split_and!; done. }
  pose proof (merge_pack_ok (m :: ms) (g :: gs') (n :: ns) (gn :: gns') replace) as Hp.
  apply returns_iff in Hp as (r & -> & o' & u & -> & Hu & Hd); [|by apply Forall2_cons|done|by apply Forall2_cons].
  by exists (g :: gs'), (gn :: gns'), o', u.
Qed.
End merge.

#[local] Instance merge_no_doubles : Printf := {
  double := Empty_set;
  sprintf_double := fun _ _ _ => [];
  sprintf_p := fun _ => []
}.

(** ?a?x=1& and ?a?x=2&?b?, with [replace]. *)
Lemma meta_data_merge_joins_witness :
  exists o new gs gns r u, octstr_create [63; 97; 63; 120; 61; 49; 38] = Ok o /\
    octstr_create [63; 97; 63; 120; 61; 50; 38; 63; 98; 63] = Ok new /\ decodes o gs /\ decodes new gns /\
    meta_data_merge (Some o) (Some new) true = Ok (Some r) /\ reprm r u.
Proof.
  assert (octets [63; 97; 63; 120; 61; 49; 38]) as Hs by octets_tac.
  assert (octets [63; 97; 63; 120; 61; 50; 38; 63; 98; 63]) as Ht by octets_tac.
  pose proof (octstr_create_ok _ Hs) as Ho. apply returns_iff in Ho as (o & Eo & [Ho _]).
  pose proof (octstr_create_ok _ Ht) as Hn. apply returns_iff in Hn as (new & En & [Hn _]).
  destruct (meta_data_merge_joins o new [63; 97; 63; 120; 61; 49; 38] [63; 97; 63; 120; 61; 50; 38; 63; 98; 63] true Ho Hn)
    as (gs & gns & r & u & H1 & H2 & H3 & H4 & _).
  by exists o, new, gs, gns, r, u.
Defined.

(** The value of the key y in the group A of the second text and of the two merged. *)
Definition merged_case : res (option (list Z) * option (list Z)) :=
  o ← octstr_create [63; 97; 63; 120; 61; 49; 38];
  new ← octstr_create [63; 65; 63; 121; 61; 50; 38];
  key ← octstr_create [121];
  r ← meta_data_merge (Some o) (Some new) true;
  before ← meta_data_get_value new [65] key;
  after ← match r with Some r => meta_data_get_value r [65] key | None => Undef end;
  Ok (option_map bytes before, option_map bytes after).

(** The names of groups differ by case for a merge, and for nothing else: the groups
    of ?a?x=1& and ?A?y=2& stay two, and the value of the second cannot be got. *)
Lemma meta_data_merge_case : merged_case = Ok (Some [50], None).
Proof. vm_compute. reflexivity. Qed.
