(* ===== verification/Charset.v ===== *)
(** * Character sets

    Models the conversions of src/gwlib/charset.c between the GSM 03.38 alphabet,
    ISO Latin 1 and UTF-8, with their tables (src/gwlib/latin1_to_gsm.h).  The
    conversions through [iconv] are not modelled. *)

From S2P Require Import Prelude Octstr OctstrSearch OctstrCode.

(** ** The tables *)

Definition NRP : Z := 63.

Definition latin1_to_gsm : list Z :=
  [63; 63; 63; 63; 63; 63; 63; 63; 63; 63; 10; 63; -10; 13; 63; 63;
   63; 63; 63; 63; 63; 63; 63; 63; 63; 63; 63; 63; 63; 63; 63; 63;
   32; 33; 34; 35; 2; 37; 38; 39; 40; 41; 42; 43; 44; 45; 46; 47;
   48; 49; 50; 51; 52; 53; 54; 55; 56; 57; 58; 59; 60; 61; 62; 63;
   0; 65; 66; 67; 68; 69; 70; 71; 72; 73; 74; 75; 76; 77; 78; 79;
   80; 81; 82; 83; 84; 85; 86; 87; 88; 89; 90; -60; -47; -62; -20; 17;
   63; 97; 98; 99; 100; 101; 102; 103; 104; 105; 106; 107; 108; 109; 110; 111;
   112; 113; 114; 115; 116; 117; 118; 119; 120; 121; 122; -40; -64; -41; -61; 63;
   63; 63; 63; 63; 63; 63; 63; 63; 63; 63; 63; 63; 63; 63; 63; 63;
   63; 63; 63; 63; 63; 63; 63; 63; 63; 63; 63; 63; 63; 63; 63; 63;
   63; 64; 63; 1; 36; 3; 63; 95; 63; 63; 63; 63; 63; 63; 63; 63;
   63; 63; 63; 63; 63; 63; 63; 63; 63; 63; 63; 63; 63; 63; 63; 96;
   63; 63; 63; 63; 91; 14; 28; 9; 63; 31; 63; 63; 63; 63; 63; 63;
   63; 93; 63; 63; 63; 63; 92; 63; 11; 63; 63; 63; 94; 63; 63; 30;
   127; 63; 63; 63; 123; 15; 29; 9; 4; 5; 63; 63; 7; 63; 63; 63;
   63; 125; 8; 63; 63; 63; 124; 63; 12; 6; 63; 63; 126; 63; 63; 63].

(** The pairs before the final one, which is (-1, -1). *)
Definition gsm_esctolatin1 : list (Z * Z) :=
  [(10, 12); (20, 94); (40, 123); (41, 125); (47, 92); (60, 91); (61, 126); (62, 93);
   (64, 124); (101, 128)].

Definition gsm_esctouni : list (Z * Z) :=
  [(10, 12); (20, 94); (40, 123); (41, 125); (47, 92); (60, 91); (61, 126); (62, 93);
   (64, 124); (101, 8364)].

Definition gsm_to_latin1 : list Z :=
  [64; 163; 36; 165; 232; 233; 249; 236; 242; 199; 10; 216; 248; 13; 197; 229;
   63; 95; 63; 63; 63; 63; 63; 63; 63; 63; 63; 32; 198; 230; 223; 201;
   32; 33; 34; 35; 164; 37; 38; 39; 40; 41; 42; 43; 44; 45; 46; 47;
   48; 49; 50; 51; 52; 53; 54; 55; 56; 57; 58; 59; 60; 61; 62; 63;
   161; 65; 66; 67; 68; 69; 70; 71; 72; 73; 74; 75; 76; 77; 78; 79;
   80; 81; 82; 83; 84; 85; 86; 87; 88; 89; 90; 196; 214; 209; 220; 167;
   191; 97; 98; 99; 100; 101; 102; 103; 104; 105; 106; 107; 108; 109; 110; 111;
   112; 113; 114; 115; 116; 117; 118; 119; 120; 121; 122; 228; 246; 241; 252; 224].

Definition gsm_to_unicode : list Z :=
  [64; 163; 36; 165; 232; 233; 249; 236; 242; 199; 10; 216; 248; 13; 197; 229;
   916; 95; 934; 915; 923; 937; 928; 936; 931; 920; 926; 63; 198; 230; 223; 201;
   32; 33; 34; 35; 164; 37; 38; 39; 40; 41; 42; 43; 44; 45; 46; 47;
   48; 49; 50; 51; 52; 53; 54; 55; 56; 57; 58; 59; 60; 61; 62; 63;
   161; 65; 66; 67; 68; 69; 70; 71; 72; 73; 74; 75; 76; 77; 78; 79;
   80; 81; 82; 83; 84; 85; 86; 87; 88; 89; 90; 196; 214; 209; 220; 167;
   191; 97; 98; 99; 100; 101; 102; 103; 104; 105; 106; 107; 108; 109; 110; 111;
   112; 113; 114; 115; 116; 117; 118; 119; 120; 121; 122; 228; 246; 241; 252; 224].

(** [tab[i]] for a constant array. *)
Definition tab_at (t : list Z) (i : Z) : res Z :=
  if 0 <=? i then match t !! Z.to_nat i with Some v => Ok v | None => Undef end else Undef.

(** The loop over a table of pairs, up to the pair for [c] or the last one. *)
Fixpoint esc_find (t : list (Z * Z)) (c : Z) : option Z :=
  match t with
  | [] => None
  | (esc, v) :: t => if esc =? c then Some v else esc_find t c
  end.

(** ** GSM and UTF-8 *)

(** The tail of the loop body of [charset_gsm_to_utf8]: a code point in UTF-8. *)
Definition append_utf8 (new : Octstr) (c : Z) : res Octstr :=
  if c <? 128 then octstr_append_char new c
  else if c <? 2048 then
    new ← octstr_append_char new (Z.land (Z.lor (Z.shiftr c 6) 192) 255);
    octstr_append_char new (Z.lor (Z.land c 63) 128)
  else
    new ← octstr_append_char new (Z.land (Z.lor (Z.shiftr c 12) 224) 255);
    new ← octstr_append_char new (Z.land (Z.lor (Z.land (Z.shiftr c 6) 63) 128) 255);
    octstr_append_char new (Z.land (Z.lor (Z.land c 63) 128) 255).

Fixpoint gsm_to_utf8_loop (o new : Octstr) (pos len : Z) (fuel : nat) : res Octstr :=
  match fuel with
  | O => Undef
  | S fuel =>
      if pos <? len then
        c ← octstr_get_char o pos;
        if 127 <? c then gsm_to_utf8_loop o new (pos + 1) len fuel
        else
          '(c, pos) ←
            (if (c =? 27) && (pos + 1 <? len) then
               c ← octstr_get_char o (pos + 1);
               match esc_find gsm_esctouni c with
               | Some u => Ok (u, pos + 1)
               | None => c ← tab_at gsm_to_unicode 27; Ok (c, pos)
               end
             else if c <? 128 then c ← tab_at gsm_to_unicode c; Ok (c, pos)
             else Ok (c, pos));
          new ← append_utf8 new c;
          gsm_to_utf8_loop o new (pos + 1) len fuel
      else Ok new
  end.

(** The end of both conversions: the string becomes the new one. *)
Definition replace_content (o new : Octstr) : res (option Octstr) :=
  o ← octstr_truncate (Some o) 0;
  match o with
  | None => Ok None
  | Some o => o ← octstr_append o (Some new); Ok (Some o)
  end.

Definition charset_gsm_to_utf8 (o : option Octstr) : res (option Octstr) :=
  match o with
  | None => Ok None
  | Some o =>
      new ← octstr_create [];
      len ← octstr_len (Some o);
      new ← gsm_to_utf8_loop o new 0 len (S (Z.to_nat len));
      replace_content o new
  end.

(** The [switch] of [charset_utf8_to_gsm]: the GSM character, after an escape or
    not. *)
Definition uni_to_gsm (c : Z) : bool * Z :=
  if c =? 916 then (false, 16)
  else if c =? 934 then (false, 18)
  else if c =? 915 then (false, 19)
  else if c =? 923 then (false, 20)
  else if c =? 937 then (false, 21)
  else if c =? 928 then (false, 22)
  else if c =? 936 then (false, 23)
  else if c =? 931 then (false, 24)
  else if c =? 920 then (false, 25)
  else if c =? 926 then (false, 26)
  else if c =? 8364 then (true, 101)
  else (false, NRP).

Definition append_gsm (new : Octstr) (val1 : Z) : res Octstr :=
  if val1 <=? 255 then
    g ← tab_at latin1_to_gsm val1;
    if g <? 0 then
      new ← octstr_append_char new 27;
      octstr_append_char new (- g)
    else octstr_append_char new g
  else
    let '(esc, g) := uni_to_gsm val1 in
    new ← (if esc : bool then octstr_append_char new 27 else Ok new);
    octstr_append_char new g.

(** [val1 & ~0xC0] and [val1 & ~0xE0] on octets are [val1 & 0x3F] and
    [val1 & 0x1F]. *)
Fixpoint utf8_to_gsm_loop (o new : Octstr) (pos len : Z) (fuel : nat) : res Octstr :=
  match fuel with
  | O => Undef
  | S fuel =>
      if pos <? len then
        val1 ← octstr_get_char o pos;
        if (val1 <? 0) || (255 <? val1) then utf8_to_gsm_loop o new (pos + 1) len fuel
        else if Z.land val1 224 =? 192 then
          if pos + 1 <? len then
            val2 ← octstr_get_char o (pos + 1);
            let val1 := Z.lor (Z.shiftl (Z.land val1 63) 6) (Z.land val2 63) in
            new ← append_gsm new val1;
            utf8_to_gsm_loop o new (pos + 2) len fuel
          else utf8_to_gsm_loop o new (pos + 2) len fuel
        else if Z.land val1 240 =? 224 then
          if pos + 2 <? len then
            val2 ← octstr_get_char o (pos + 1);
            let val1 := Z.lor (Z.shiftl (Z.land val1 31) 6) (Z.land val2 63) in
            val2 ← octstr_get_char o (pos + 2);
            let val1 := Z.lor (Z.shiftl val1 6) (Z.land val2 63) in
            new ← append_gsm new val1;
            utf8_to_gsm_loop o new (pos + 3) len fuel
          else utf8_to_gsm_loop o new (pos + 3) len fuel
        else
          new ← append_gsm new val1;
          utf8_to_gsm_loop o new (pos + 1) len fuel
      else Ok new
  end.

Definition charset_utf8_to_gsm (o : option Octstr) : res (option Octstr) :=
  match o with
  | None => Ok None
  | Some o =>
      new ← octstr_create [];
      len ← octstr_len (Some o);
      new ← utf8_to_gsm_loop o new 0 len (S (Z.to_nat len));
      replace_content o new
  end.

Definition charset_gsm_truncate (gsm : Octstr) (max : Z) : res (Z * Octstr) :=
  n ← octstr_len (Some gsm);
  if max <? n then
    c ← octstr_get_char gsm (max - 1);
    o ← (if c =? 27 then octstr_truncate (Some gsm) (max - 1)
         else octstr_truncate (Some gsm) max);
    Ok (1, default gsm o)
  else Ok (0, gsm).

(** ** GSM and Latin 1, in place *)

Fixpoint gsm_to_latin1_loop (o : Octstr) (pos len : Z) (fuel : nat) : res Octstr :=
  match fuel with
  | O => Undef
  | S fuel =>
      if pos <? len then
        c ← octstr_get_char o pos;
        if (c =? 27) && (pos + 1 <? len) then
          o ← octstr_delete o pos 1;
          let len := len - 1 in
          c ← octstr_get_char o pos;
          match esc_find gsm_esctolatin1 c with
          | Some new =>
              o ← (if negb (new =? c) then octstr_set_char o pos new else Ok o);
              gsm_to_latin1_loop o (pos + 1) len fuel
          | None =>
              if c <? 128 then
                new ← tab_at gsm_to_latin1 c;
                o ← (if negb (new =? c) then octstr_set_char o pos new else Ok o);
                gsm_to_latin1_loop o (pos + 1) len fuel
              else gsm_to_latin1_loop o (pos + 1) len fuel
          end
        else if c <? 128 then
          new ← tab_at gsm_to_latin1 c;
          o ← (if negb (new =? c) then octstr_set_char o pos new else Ok o);
          gsm_to_latin1_loop o (pos + 1) len fuel
        else gsm_to_latin1_loop o (pos + 1) len fuel
      else Ok o
  end.

Definition charset_gsm_to_latin1 (o : Octstr) : res Octstr :=
  len ← octstr_len (Some o);
  gsm_to_latin1_loop o 0 len (S (Z.to_nat len)).

Fixpoint latin1_to_gsm_loop (o : Octstr) (pos len : Z) (fuel : nat) : res Octstr :=
  match fuel with
  | O => Undef
  | S fuel =>
      if pos <? len then
        c ← octstr_get_char o pos;
        assert: 0 <=? c;
        assert: c <=? 256;
        new ← tab_at latin1_to_gsm c;
        '(o, pos, len, new) ←
          (if new <? 0 then
             o ← octstr_insert_data o pos [27] 1;
             Ok (o, pos + 1, len + 1, - new)
           else Ok (o, pos, len, new));
        o ← (if negb (new =? c) then octstr_set_char o pos new else Ok o);
        latin1_to_gsm_loop o (pos + 1) len fuel
      else Ok o
  end.

Definition charset_latin1_to_gsm (o : Octstr) : res Octstr :=
  len ← octstr_len (Some o);
  latin1_to_gsm_loop o 0 len (S (Z.to_nat len)).

(** ** What the conversions compute *)

Definition utf8_of (c : Z) : list Z :=
  if c <? 128 then [c]
  else if c <? 2048 then [Z.land (Z.lor (Z.shiftr c 6) 192) 255; Z.lor (Z.land c 63) 128]
  else [Z.land (Z.lor (Z.shiftr c 12) 224) 255; Z.land (Z.lor (Z.land (Z.shiftr c 6) 63) 128) 255;
        Z.land (Z.lor (Z.land c 63) 128) 255].

Definition unicode_of_gsm (c : Z) : Z := default 0 (gsm_to_unicode !! Z.to_nat c).

Fixpoint gsm_utf8 (l : list Z) : list Z :=
  match l with
  | [] => []
  | c :: l =>
      if 127 <? c then gsm_utf8 l
      else if c =? 27 then
        match l with
        | [] => utf8_of NRP
        | d :: l' =>
            match esc_find gsm_esctouni d with
            | Some u => utf8_of u ++ gsm_utf8 l'
            | None => utf8_of NRP ++ gsm_utf8 l
            end
        end
      else utf8_of (unicode_of_gsm c) ++ gsm_utf8 l
  end.

Definition gsm_of (v : Z) : list Z :=
  if v <=? 255 then
    let g := default 0 (latin1_to_gsm !! Z.to_nat v) in
    if g <? 0 then [27; - g] else [g]
  else
    let '(esc, g) := uni_to_gsm v in if (esc : bool) then [27; g] else [g].

Definition utf8_two (c d : Z) : Z := Z.lor (Z.shiftl (Z.land c 63) 6) (Z.land d 63).

Definition utf8_three (c d e : Z) : Z :=
  Z.lor (Z.shiftl (Z.lor (Z.shiftl (Z.land c 31) 6) (Z.land d 63)) 6) (Z.land e 63).

Fixpoint utf8_gsm (l : list Z) : list Z :=
  match l with
  | [] => []
  | c :: l =>
      if Z.land c 224 =? 192 then
        match l with
        | d :: l => gsm_of (utf8_two c d) ++ utf8_gsm l
        | [] => []
        end
      else if Z.land c 240 =? 224 then
        match l with
        | d :: e :: l => gsm_of (utf8_three c d e) ++ utf8_gsm l
        | _ => []
        end
      else gsm_of c ++ utf8_gsm l
  end.

(** ** Refinement *)

Lemma append_chars_ok (o : Octstr) (s : list Z) (c : Z) :
  reprm o s -> octet c ->
  exists o', octstr_append_char o c = Ok o' /\ reprm o' (s ++ [c]).
Proof. intros Ho Hc. by apply returns_iff, octstr_append_char_ok. Qed.

(** Appends an octet of a conversion. *)
Ltac append_step :=
  match goal with
  | Ho : reprm ?o ?s |- context [octstr_append_char ?o ?c] =>
      let o' := fresh "o" in let H := fresh "H" in
      destruct (append_chars_ok o s c Ho) as (o' & -> & H);
      [done|bind_red; clear Ho]
  end.

Lemma append_utf8_ok (new : Octstr) (t : list Z) (c : Z) :
  reprm new t -> octets (utf8_of c) ->
  returns (append_utf8 new c) (fun o => reprm o (t ++ utf8_of c)).
Proof.
  intros Hn Ho. unfold append_utf8, utf8_of in *.
  destruct (c <? 128); [|destruct (c <? 2048)]; octets_inv;
    repeat append_step; simpl; rewrite <- ?app_assoc in *; done.
Qed.

Lemma unicode_octets (c : Z) : 0 <= c < 128 -> octets (utf8_of (unicode_of_gsm c)).
Proof.
  intros Hc. assert (octet c) as Hc' by (unfold octet; lia). revert c Hc' Hc.
  apply (octet_ind (fun c => 0 <= c < 128 -> octets (utf8_of (unicode_of_gsm c)))).
  vm_compute. reflexivity.
Qed.

Lemma esc_octets (d u : Z) : esc_find gsm_esctouni d = Some u -> octets (utf8_of u).
Proof.
  unfold gsm_esctouni, esc_find.
  repeat (case_match; [intros [= <-]; vm_compute; repeat constructor; done|]). done.
Qed.

Lemma char_at_drop (s : list Z) (i : nat) (c : Z) (r : list Z) :
  drop i s = c :: r -> char_at s (Z.of_nat i) = c.
Proof. intros E. apply char_at_lookup. by eapply lookup_drop_cons. Qed.

Lemma tab_at_ok (t : list Z) (c : Z) :
  0 <= c < zlen t -> tab_at t c = Ok (default 0 (t !! Z.to_nat c)).
Proof.
  intros Hc. unfold tab_at. rewrite (proj2 (Z.leb_le 0 c)) by lia.
  by destruct (lookup_lt_is_Some_2 t (Z.to_nat c)) as [v ->]; [list_lia|].
Qed.

Lemma gsm_to_utf8_loop_ok (o : Octstr) (s : list Z) (fuel : nat) :
  repr o s -> forall (i : nat) (new : Octstr) (t : list Z),
  reprm new t -> (i <= length s)%nat -> (length s - i < fuel)%nat ->
  returns (gsm_to_utf8_loop o new (Z.of_nat i) (zlen s) fuel)
    (fun o' => reprm o' (t ++ gsm_utf8 (drop i s))).
Proof.
  intros Ho. pose proof (repr_octets _ _ Ho) as Hs.
  induction fuel as [|fuel IH]; intros i new t Hn Hi Hf; [lia|]. cbn [gsm_to_utf8_loop].
  destruct (Z.ltb_spec (Z.of_nat i) (zlen s)) as [Hlt|Hge].
  2: { rewrite drop_ge by list_lia. simpl. by rewrite app_nil_r. }
  destruct (drop i s) as [|c r] eqn:Ed.
  { apply (f_equal length) in Ed. rewrite length_drop in Ed. simpl in Ed. list_lia. }
  assert (octet c) as Hc.
  { rewrite Forall_lookup in Hs. apply (Hs i). by eapply lookup_drop_cons. }
  rewrite (octstr_get_char_ok o s (Z.of_nat i)), (char_at_drop s i c r Ed) by done. bind_red.
  pose proof (drop_cons_S s i c r Ed) as Er. unfold octet in Hc.
  replace (Z.of_nat i + 1) with (Z.of_nat (S i)) by lia. cbn [gsm_utf8].
  destruct (Z.ltb_spec 127 c).
  { rewrite <- Er. apply IH; [done|list_lia..]. }
  (* the rest of the body, for a code point [u] and the next position *)
  assert (forall (u : Z) (j : nat), octets (utf8_of u) -> (i < j <= length s)%nat ->
    returns (new ← append_utf8 new u; gsm_to_utf8_loop o new (Z.of_nat j) (zlen s) fuel)
      (fun o' => reprm o' (t ++ utf8_of u ++ gsm_utf8 (drop j s)))) as Hrest.
  { intros u j Hu Hj. apply returns_bind.
    apply (returns_mono _ _ _ (append_utf8_ok new t u Hn Hu)). intros n' Hn'.
    rewrite app_assoc. apply IH; [done|list_lia..]. }
  destruct (Z.eqb_spec c 27) as [->|Hne]; cbn [andb].
  - destruct r as [|d r].
    + assert (zlen s = Z.of_nat (S i)) as El.
      { apply (f_equal length) in Er. rewrite length_drop in Er. simpl in Er. list_lia. }
      rewrite (proj2 (Z.ltb_ge (Z.of_nat (S i)) (zlen s))) by lia.
      change (27 <? 128) with true. rewrite tab_at_ok by done. bind_red.
      replace (Z.of_nat i + 1) with (Z.of_nat (S i)) by lia.
      specialize (Hrest NRP (S i) (unicode_octets 27 ltac:(done)) ltac:(list_lia)).
      rewrite drop_ge, app_nil_r in Hrest by list_lia. exact Hrest.
    + assert (S i < length s)%nat as Hi2.
      { apply (f_equal length) in Er. rewrite length_drop in Er. simpl in Er. lia. }
      rewrite (proj2 (Z.ltb_lt (Z.of_nat (S i)) (zlen s))) by list_lia.
      rewrite (octstr_get_char_ok o s), (char_at_drop s (S i) d r Er) by done. bind_red.
      destruct (esc_find gsm_esctouni d) as [u|] eqn:Ee; bind_red.
      * replace (Z.of_nat (S i) + 1) with (Z.of_nat (S (S i))) by lia.
        rewrite <- (drop_cons_S s (S i) d r Er). apply Hrest; [by eapply esc_octets|lia].
      * rewrite tab_at_ok by done. bind_red.
        replace (Z.of_nat i + 1) with (Z.of_nat (S i)) by lia.
        rewrite <- Er. apply (Hrest NRP); [apply (unicode_octets 27); done|lia].
  - rewrite (proj2 (Z.ltb_lt c 128)) by lia.
    rewrite tab_at_ok by (unfold zlen, gsm_to_unicode; simpl; lia). bind_red.
    replace (Z.of_nat i + 1) with (Z.of_nat (S i)) by lia.
    rewrite <- Er. apply Hrest; [apply unicode_octets; lia|list_lia].
Qed.

(** A character of the GSM alphabet. *)
Definition septet (c : Z) : Prop := 0 <= c < 128.

#[export] Instance septet_dec c : Decision (septet c).
Proof. unfold septet. apply _. Defined.

Lemma uni_to_gsm_septet (v : Z) : septet (uni_to_gsm v).2.
Proof. unfold uni_to_gsm. repeat (case_match; [done|]). done. Qed.

Lemma gsm_of_septets (v : Z) : 0 <= v -> Forall septet (gsm_of v).
Proof.
  intros Hv. destruct (Z.leb_spec v 255) as [Hl|Hl].
  - assert (octet v) as Ho by (unfold octet; lia). clear Hv Hl. revert v Ho.
    apply (octet_ind (fun v => Forall septet (gsm_of v))). vm_compute. reflexivity.
  - unfold gsm_of. rewrite (proj2 (Z.leb_gt v 255)) by lia. pose proof (uni_to_gsm_septet v) as Hu.
    destruct (uni_to_gsm v) as [[] g]; simpl in Hu.
    + apply Forall_cons_2; [done|]. by apply Forall_cons_2; [|apply Forall_nil_2].
    + by apply Forall_cons_2; [|apply Forall_nil_2].
Qed.

Lemma septets_octets (l : list Z) : Forall septet l -> octets l.
Proof. apply Forall_impl. unfold septet, octet. lia. Qed.

Lemma append_gsm_ok (new : Octstr) (t : list Z) (v : Z) :
  reprm new t -> 0 <= v -> returns (append_gsm new v) (fun o => reprm o (t ++ gsm_of v)).
Proof.
  intros Hn Hv. pose proof (septets_octets _ (gsm_of_septets v Hv)) as Ho.
  unfold append_gsm, gsm_of in *. destruct (Z.leb_spec v 255).
  - rewrite tab_at_ok by (unfold zlen, latin1_to_gsm; simpl; lia). bind_red. cbv zeta in Ho |- *.
    destruct (_ <? 0); octets_inv; repeat append_step; simpl; by rewrite <- ?app_assoc in *.
  - destruct (uni_to_gsm v) as [[] g]; octets_inv; bind_red; repeat append_step; simpl;
      by rewrite <- ?app_assoc in *.
Qed.

Lemma utf8_to_gsm_loop_ok (o : Octstr) (s : list Z) (fuel : nat) :
  repr o s -> forall (i : nat) (new : Octstr) (t : list Z),
  reprm new t -> (length s - i < fuel)%nat ->
  returns (utf8_to_gsm_loop o new (Z.of_nat i) (zlen s) fuel)
    (fun o' => reprm o' (t ++ utf8_gsm (drop i s))).
Proof.
  intros Ho. pose proof (repr_octets _ _ Ho) as Hs.
  induction fuel as [|fuel IH]; intros i new t Hn Hf; [lia|]. cbn [utf8_to_gsm_loop].
  destruct (Z.ltb_spec (Z.of_nat i) (zlen s)) as [Hlt|Hge].
  2: { rewrite drop_ge by list_lia. simpl. by rewrite app_nil_r. }
  destruct (drop i s) as [|c r] eqn:Ed.
  { apply (f_equal length) in Ed. rewrite length_drop in Ed. simpl in Ed. list_lia. }
  assert (octet c) as Hc.
  { rewrite Forall_lookup in Hs. apply (Hs i). by eapply lookup_drop_cons. }
  rewrite (octstr_get_char_ok o s (Z.of_nat i)), (char_at_drop s i c r Ed) by done. bind_red.
  pose proof (drop_cons_S s i c r Ed) as Er. unfold octet in Hc.
  assert (zlen s = Z.of_nat (S i) + zlen r) as El.
  { apply (f_equal length) in Er. rewrite length_drop in Er. list_lia. }
  assert (forall (v : Z) (j : nat), 0 <= v -> (i < j)%nat ->
    returns (new ← append_gsm new v; utf8_to_gsm_loop o new (Z.of_nat j) (zlen s) fuel)
      (fun o' => reprm o' (t ++ gsm_of v ++ utf8_gsm (drop j s)))) as Hrest.
  { intros v j Hv Hj. apply returns_bind.
    apply (returns_mono _ _ _ (append_gsm_ok new t v Hn Hv)). intros n' Hn'.
    rewrite app_assoc. apply IH; [done|list_lia]. }
  assert (forall j, (length s <= j)%nat -> (i < j)%nat ->
    returns (utf8_to_gsm_loop o new (Z.of_nat j) (zlen s) fuel) (fun o' => reprm o' (t ++ []))) as Hend.
  { intros j Hj Hij. specialize (IH j new t Hn ltac:(list_lia)). by rewrite drop_ge in IH by lia. }
  rewrite (proj2 (Z.ltb_ge c 0)), (proj2 (Z.ltb_ge 255 c)) by lia. cbn [orb utf8_gsm].
  replace (Z.of_nat i + 1) with (Z.of_nat (S i)) by lia.
  replace (Z.of_nat i + 2) with (Z.of_nat (S (S i))) by lia.
  replace (Z.of_nat i + 3) with (Z.of_nat (S (S (S i)))) by lia.
  destruct (Z.land c 224 =? 192); [|destruct (Z.land c 240 =? 224)].
  - destruct r as [|d r].
    + change (zlen []) with 0 in El. rewrite (proj2 (Z.ltb_ge (Z.of_nat (S i)) (zlen s))) by lia.
      apply Hend; list_lia.
    + rewrite (proj2 (Z.ltb_lt (Z.of_nat (S i)) (zlen s))) by list_lia.
      rewrite (octstr_get_char_ok o s), (char_at_drop s (S i) d r Er) by done. bind_red.
      rewrite <- (drop_cons_S s (S i) d r Er). apply Hrest; [|lia].
      apply Z.lor_nonneg. split; [apply Z.shiftl_nonneg|]; apply Z.land_nonneg; lia.
  - destruct r as [|d [|e r]].
    + change (zlen []) with 0 in El. rewrite (proj2 (Z.ltb_ge (Z.of_nat (S (S i))) (zlen s))) by lia.
      apply Hend; list_lia.
    + change (zlen [d]) with 1 in El. rewrite (proj2 (Z.ltb_ge (Z.of_nat (S (S i))) (zlen s))) by lia.
      apply Hend; list_lia.
    + rewrite (proj2 (Z.ltb_lt (Z.of_nat (S (S i))) (zlen s))) by list_lia.
      pose proof (drop_cons_S s (S i) d _ Er) as Er2.
      rewrite (octstr_get_char_ok o s (Z.of_nat (S i))), (char_at_drop s (S i) d _ Er) by done. bind_red.
      rewrite (octstr_get_char_ok o s (Z.of_nat (S (S i)))), (char_at_drop s (S (S i)) e _ Er2) by done.
      bind_red. rewrite <- (drop_cons_S s (S (S i)) e r Er2). apply Hrest; [|lia].
      apply Z.lor_nonneg. split; [|apply Z.land_nonneg; lia].
      apply Z.shiftl_nonneg, Z.lor_nonneg. split; [apply Z.shiftl_nonneg|]; apply Z.land_nonneg; lia.
  - rewrite <- Er. apply Hrest; lia.
Qed.

Lemma replace_content_ok (o new : Octstr) (s t : list Z) :
  reprm o s -> repr new t ->
  returns (replace_content o new) (fun r => exists o', r = Some o' /\ reprm o' t).
Proof.
  intros Ho Hn. unfold replace_content. apply returns_bind.
  apply (returns_mono _ _ _ (octstr_truncate_ok o s 0 Ho ltac:(done))). intros r (o1 & -> & H1).
  apply returns_bind. apply (returns_mono _ _ _ (octstr_append_ok o1 new _ t H1 Hn)).
  intros o2 H2. simpl. eauto.
Qed.

Lemma charset_gsm_to_utf8_ok (o : Octstr) (s : list Z) :
  reprm o s ->
  returns (charset_gsm_to_utf8 (Some o)) (fun r => exists o', r = Some o' /\ reprm o' (gsm_utf8 s)).
Proof.
  intros Ho. unfold charset_gsm_to_utf8. apply returns_bind.
  apply (returns_mono _ _ _ (octstr_create_ok [] (Forall_nil_2 _))). intros new Hn.
  cbn [octstr_len]. rewrite (repr_seems_valid _ _ (proj1 Ho)), (repr_len _ _ (proj1 Ho)). bind_red.
  apply returns_bind. change 0 with (Z.of_nat 0).
  eapply returns_mono; [apply (gsm_to_utf8_loop_ok o s); [apply Ho|done|lia|list_lia]|].
  intros new' [Hn' _]. rewrite drop_0 in Hn'. by eapply replace_content_ok.
Qed.

Lemma charset_utf8_to_gsm_ok (o : Octstr) (s : list Z) :
  reprm o s ->
  returns (charset_utf8_to_gsm (Some o)) (fun r => exists o', r = Some o' /\ reprm o' (utf8_gsm s)).
Proof.
  intros Ho. unfold charset_utf8_to_gsm. apply returns_bind.
  apply (returns_mono _ _ _ (octstr_create_ok [] (Forall_nil_2 _))). intros new Hn.
  cbn [octstr_len]. rewrite (repr_seems_valid _ _ (proj1 Ho)), (repr_len _ _ (proj1 Ho)). bind_red.
  apply returns_bind. change 0 with (Z.of_nat 0).
  eapply returns_mono; [apply (utf8_to_gsm_loop_ok o s); [apply Ho|done|list_lia]|].
  intros new' [Hn' _]. rewrite drop_0 in Hn'. by eapply replace_content_ok.
Qed.

(** ** Round trips *)

(** Text of the GSM alphabet: every escape is followed by a character of the
    extension table. *)
Fixpoint gsm_text (l : list Z) : bool :=
  match l with
  | [] => true
  | c :: l =>
      if c =? 27 then
        match l with
        | [] => false
        | d :: l => bool_decide (is_Some (esc_find gsm_esctouni d)) && gsm_text l
        end
      else bool_decide (septet c) && gsm_text l
  end.

Lemma utf8_gsm_plain (c : Z) (k : list Z) :
  septet c -> c <> 27 -> utf8_gsm (utf8_of (unicode_of_gsm c) ++ k) = c :: utf8_gsm k.
Proof.
  assert (Forall (fun c => c <> 27 -> forall k,
    utf8_gsm (utf8_of (unicode_of_gsm c) ++ k) = c :: utf8_gsm k) (seqZ 0 128)) as HF.
  { cbn. repeat (apply Forall_cons_2; [intros ? ?; done|]). apply Forall_nil_2. }
  intros Hc Hne. rewrite Forall_forall in HF. apply HF; [|done].
  apply list_elem_of_In, elem_of_seqZ. unfold septet in Hc. lia.
Qed.

Lemma utf8_gsm_escaped (d u : Z) (k : list Z) :
  esc_find gsm_esctouni d = Some u -> utf8_gsm (utf8_of u ++ k) = 27 :: d :: utf8_gsm k.
Proof.
  unfold gsm_esctouni, esc_find.
  repeat (match goal with |- (if ?x =? d then _ else _) = _ -> _ =>
    destruct (Z.eqb_spec x d) as [<-|]; [intros [= <-]; done|] end). done.
Qed.

Lemma utf8_gsm_gsm_utf8 (l : list Z) : gsm_text l = true -> utf8_gsm (gsm_utf8 l) = l.
Proof.
  induction l as [l IH] using (induction_ltof1 _ (@length Z)); unfold ltof in IH.
  destruct l as [|c l]; [done|]. cbn [gsm_text gsm_utf8]. intros H.
  destruct (Z.eqb_spec c 27) as [->|Hne].
  - destruct l as [|d l]; [done|]. apply andb_prop in H as [Hd Hl].
    apply bool_decide_eq_true in Hd as [u Hu]. rewrite Hu.
    change (127 <? 27) with false. cbv iota. rewrite (utf8_gsm_escaped d u) by done.
    by rewrite IH by (done || (simpl; lia)).
  - apply andb_prop in H as [Hc Hl]. apply bool_decide_eq_true in Hc.
    rewrite (proj2 (Z.ltb_ge 127 c)) by (unfold septet in Hc; lia).
    rewrite utf8_gsm_plain by done. by rewrite IH by (done || (simpl; lia)).
Qed.

Lemma utf8_gsm_septets (l : list Z) : octets l -> Forall septet (utf8_gsm l).
Proof.
  induction l as [l IH] using (induction_ltof1 _ (@length Z)); unfold ltof in IH.
  intros Hl. destruct l as [|c l]; [apply Forall_nil_2|]. cbn [utf8_gsm]. octets_inv.
  destruct (Z.land c 224 =? 192); [|destruct (Z.land c 240 =? 224)].
  - destruct l as [|d l]; [apply Forall_nil_2|]. octets_inv. apply Forall_app. split.
    + apply gsm_of_septets. unfold utf8_two, octet in *.
      apply Z.lor_nonneg. split; [apply Z.shiftl_nonneg|]; apply Z.land_nonneg; lia.
    + apply IH; [simpl; lia|done].
  - destruct l as [|d [|e l]]; try apply Forall_nil_2. octets_inv. apply Forall_app. split.
    + apply gsm_of_septets. unfold utf8_three, octet in *. apply Z.lor_nonneg.
      split; [|apply Z.land_nonneg; lia]. apply Z.shiftl_nonneg, Z.lor_nonneg.
      split; [apply Z.shiftl_nonneg|]; apply Z.land_nonneg; lia.
    + apply IH; [simpl; lia|done].
  - apply Forall_app. split; [apply gsm_of_septets; unfold octet in *; lia|]. apply IH; [simpl; lia|done].
Qed.

Lemma gsm_of_length (v : Z) : zlen (gsm_of v) <= 2.
Proof. unfold gsm_of. cbv zeta. repeat case_match; done. Qed.

Lemma utf8_gsm_length (l : list Z) : zlen (utf8_gsm l) <= 2 * zlen l.
Proof.
  induction l as [l IH] using (induction_ltof1 _ (@length Z)); unfold ltof in IH.
  destruct l as [|c l]; [done|]. cbn [utf8_gsm].
  assert (forall v (k : list Z) n, zlen k <= 2 * n -> zlen (gsm_of v ++ k) <= 2 * (n + 1)) as Hstep.
  { intros v k n Hk. rewrite zlen_app. pose proof (gsm_of_length v). lia. }
  destruct (_ =? 192); [|destruct (_ =? 224)].
  - destruct l as [|d l]; [done|]. pose proof (IH l ltac:(simpl; lia)).
    pose proof (Hstep (utf8_two c d) (utf8_gsm l) (zlen l) ltac:(done)). list_lia.
  - destruct l as [|d [|e l]]; [done..|]. pose proof (IH l ltac:(simpl; lia)).
    pose proof (Hstep (utf8_three c d e) (utf8_gsm l) (zlen l) ltac:(done)). list_lia.
  - pose proof (IH l ltac:(simpl; lia)).
    pose proof (Hstep c (utf8_gsm l) (zlen l) ltac:(done)). list_lia.
Qed.

(** ** In place *)

Lemma insert_mid {A} (pre r : list A) (c x : A) :
  <[length pre := x]> (pre ++ c :: r) = pre ++ x :: r.
Proof.
  rewrite <- (Nat.add_0_r (length pre)), insert_app_r. done.
Qed.

(** Storing an octet unless it is the one there. *)
Lemma store_if_ok (o : Octstr) (pre r : list Z) (c x : Z) :
  reprm o (pre ++ c :: r) -> octet x ->
  returns (if negb (x =? c) then octstr_set_char o (zlen pre) x else Ok o)
    (fun o' => reprm o' (pre ++ x :: r)).
Proof.
  intros Ho Hx. destruct (Z.eqb_spec x c) as [->|]; simpl; [done|].
  apply (returns_mono _ _ _ (octstr_set_char_ok o _ (zlen pre) x Ho (zlen_nonneg pre))).
  intros o'. unfold zlen. by rewrite Nat2Z.id, insert_mid, octet_mod_small.
Qed.

Lemma splice_mid {A} (pre r k : list A) : splice (pre ++ r) (zlen pre) k = pre ++ k ++ r.
Proof. unfold splice, zlen. by rewrite Nat2Z.id, take_app_length, drop_app_length. Qed.

Lemma latin1_to_gsm_loop_ok (fuel : nat) (r : list Z) :
  forall (o : Octstr) (pre : list Z), reprm o (pre ++ r) -> octets r -> (length r < fuel)%nat ->
  returns (latin1_to_gsm_loop o (zlen pre) (zlen (pre ++ r)) fuel)
    (fun o' => reprm o' (pre ++ concat (gsm_of <$> r))).
Proof.
  revert r. induction fuel as [|fuel IH]; intros r o pre Ho Hr Hf; [lia|].
  cbn [latin1_to_gsm_loop]. pose proof (zlen_nonneg pre). destruct r as [|c r].
  { rewrite (proj2 (Z.ltb_ge _ _)) by list_lia. done. }
  rewrite (proj2 (Z.ltb_lt _ _)) by list_lia.
  rewrite (octstr_get_char_ok o _ _ (proj1 Ho)), char_at_mid. bind_red. octets_inv.
  pose proof (gsm_of_septets c ltac:(unfold octet in *; lia)) as Hg.
  apply septets_octets in Hg. unfold octet in H0.
  do 2 wp_assert. rewrite tab_at_ok by (unfold zlen, latin1_to_gsm; simpl; lia). bind_red.
  csimpl. unfold gsm_of in Hg |- * at 1. rewrite (proj2 (Z.leb_le c 255)) in Hg |- * by lia.
  cbv zeta in *. destruct (_ <? 0) eqn:Eg; octets_inv; bind_red.
  - set (g := - default 0 _) in *. apply returns_bind.
    pose proof (octstr_insert_data_ok o _ [27] (zlen pre) 1 Ho ltac:(list_lia) ltac:(done)
      ltac:(octets_tac)) as Hi.
    apply returns_iff in Hi as (o1 & -> & H1'). bind_red. rewrite splice_mid in H1'.
    change (take (Z.to_nat 1) [27]) with [27] in H1'.
    replace (pre ++ [27] ++ c :: r) with ((pre ++ [27]) ++ c :: r) in H1' by (by rewrite <- app_assoc).
    replace (zlen pre + 1) with (zlen (pre ++ [27])) by list_lia.
    apply returns_bind. apply (returns_mono _ _ _ (store_if_ok o1 _ r c g H1' ltac:(done))).
    intros o2 H2'.
    replace (zlen (pre ++ [27]) + 1) with (zlen ((pre ++ [27]) ++ [g])) by list_lia.
    replace (zlen (pre ++ c :: r) + 1) with (zlen (((pre ++ [27]) ++ [g]) ++ r)) by list_lia.
    replace (pre ++ [27; g] ++ concat (gsm_of <$> r))
      with (((pre ++ [27]) ++ [g]) ++ concat (gsm_of <$> r)) by (by rewrite <- !app_assoc).
    apply IH; [by rewrite <- app_assoc|done|simpl in Hf; lia].
  - set (g := default 0 _) in *. apply returns_bind.
    apply (returns_mono _ _ _ (store_if_ok o pre r c g Ho ltac:(done))). intros o2 H2'.
    replace (zlen pre + 1) with (zlen (pre ++ [g])) by list_lia.
    replace (zlen (pre ++ c :: r)) with (zlen ((pre ++ [g]) ++ r)) by list_lia.
    rewrite app_assoc. apply IH; [by rewrite <- app_assoc|done|simpl in Hf; lia].
Qed.

Definition latin1_of_gsm (c : Z) : Z :=
  if c <? 128 then default 0 (gsm_to_latin1 !! Z.to_nat c) else c.

Definition latin1_of_esc (d : Z) : Z := default (latin1_of_gsm d) (esc_find gsm_esctolatin1 d).

Fixpoint gsm_latin1 (l : list Z) : list Z :=
  match l with
  | [] => []
  | c :: l =>
      if c =? 27 then
        match l with
        | [] => [latin1_of_gsm 27]
        | d :: l => latin1_of_esc d :: gsm_latin1 l
        end
      else latin1_of_gsm c :: gsm_latin1 l
  end.

Lemma latin1_octets (c : Z) : octet c -> octet (latin1_of_gsm c) /\ octet (latin1_of_esc c).
Proof. revert c. apply (octet_ind _). vm_compute. reflexivity. Qed.

Lemma cut_mid {A} (pre r : list A) (c : A) : cut (pre ++ c :: r) (zlen pre) 1 = pre ++ r.
Proof.
  unfold cut, zlen. rewrite Nat2Z.id, take_app_length. f_equal.
  change (Z.to_nat 1) with 1%nat. rewrite <- drop_drop, drop_app_length. simpl. by rewrite drop_0.
Qed.

Section gsm_to_latin1_loop.
Variable fuel : nat.
Hypothesis IH : forall (o : Octstr) (pre r : list Z),
  reprm o (pre ++ r) -> octets r -> (length r < fuel)%nat ->
  returns (gsm_to_latin1_loop o (zlen pre) (zlen (pre ++ r)) fuel)
    (fun o' => reprm o' (pre ++ gsm_latin1 r)).

(** One character converted, and the rest. *)
Lemma gsm_to_latin1_char (o : Octstr) (pre r : list Z) (c x : Z) :
  reprm o (pre ++ c :: r) -> octet x -> octets r -> (length r < fuel)%nat ->
  returns (o ← (if negb (x =? c) then octstr_set_char o (zlen pre) x else Ok o);
           gsm_to_latin1_loop o (zlen pre + 1) (zlen (pre ++ c :: r)) fuel)
    (fun o' => reprm o' (pre ++ x :: gsm_latin1 r)).
Proof.
  intros Ho Hx Hr Hf. apply returns_bind.
  apply (returns_mono _ _ _ (store_if_ok o pre r c x Ho Hx)). intros o' Ho'.
  replace (zlen pre + 1) with (zlen (pre ++ [x])) by list_lia.
  replace (zlen (pre ++ c :: r)) with (zlen ((pre ++ [x]) ++ r)) by list_lia.
  replace (pre ++ x :: gsm_latin1 r) with ((pre ++ [x]) ++ gsm_latin1 r) by (by rewrite <- app_assoc).
  apply IH; [by rewrite <- app_assoc|done..].
Qed.

Lemma gsm_to_latin1_kept (o : Octstr) (pre r : list Z) (c : Z) :
  reprm o (pre ++ c :: r) -> octets r -> (length r < fuel)%nat ->
  returns (gsm_to_latin1_loop o (zlen pre + 1) (zlen (pre ++ c :: r)) fuel)
    (fun o' => reprm o' (pre ++ c :: gsm_latin1 r)).
Proof.
  intros Ho Hr Hf. pose proof (repr_octets _ _ (proj1 Ho)) as Hs.
  apply Forall_app in Hs as [_ Hs]. octets_inv.
  pose proof (gsm_to_latin1_char o pre r c c Ho) as P. rewrite Z.eqb_refl in P. by apply P.
Qed.

Lemma gsm_to_latin1_step (o : Octstr) (pre r : list Z) :
  reprm o (pre ++ r) -> octets r -> (length r < S fuel)%nat ->
  returns (gsm_to_latin1_loop o (zlen pre) (zlen (pre ++ r)) (S fuel))
    (fun o' => reprm o' (pre ++ gsm_latin1 r)).
Proof.
  intros Ho Hr Hf. cbn [gsm_to_latin1_loop]. pose proof (zlen_nonneg pre).
  destruct r as [|c r]; [by rewrite (proj2 (Z.ltb_ge _ _)) by list_lia|].
  rewrite (proj2 (Z.ltb_lt (zlen pre) _)) by list_lia.
  rewrite (octstr_get_char_ok o _ (zlen pre) (proj1 Ho)), char_at_mid. bind_red. octets_inv.
  simpl in Hf. assert (forall c, octet c -> c < 128 -> tab_at gsm_to_latin1 c = Ok (latin1_of_gsm c)) as Htab.
  { intros d Hd Hl. unfold latin1_of_gsm. rewrite (proj2 (Z.ltb_lt d 128)) by lia.
    apply tab_at_ok. unfold octet in Hd. unfold zlen, gsm_to_latin1; simpl; lia. }
  assert (forall c, ~ c < 128 -> latin1_of_gsm c = c) as Hhi.
  { intros d Hd. unfold latin1_of_gsm. by rewrite (proj2 (Z.ltb_ge d 128)) by lia. }
  cbn [gsm_latin1]. destruct (Z.eqb_spec c 27) as [->|Hne]; cbn [andb].
  - destruct r as [|d r].
    + rewrite (proj2 (Z.ltb_ge (zlen pre + 1) _)) by list_lia. change (27 <? 128) with true.
      rewrite Htab by done. bind_red. apply (gsm_to_latin1_char o pre [] 27); [done|done|done|].
      simpl in *; lia.
    + octets_inv. rewrite (proj2 (Z.ltb_lt (zlen pre + 1) _)) by list_lia. apply returns_bind.
      eapply returns_mono; [apply (octstr_delete_ok o _ (zlen pre) 1 Ho); [apply zlen_nonneg|lia|long_lia]|].
      intros o1 H1'. rewrite cut_mid in H1'.
      rewrite (octstr_get_char_ok o1 _ (zlen pre) (proj1 H1')), char_at_mid. bind_red.
      replace (zlen (pre ++ 27 :: d :: r) - 1) with (zlen (pre ++ d :: r)) by list_lia.
      destruct (latin1_octets d) as [Hd1 Hd2]; [done|]. unfold latin1_of_esc in *.
      simpl in Hf. destruct (esc_find gsm_esctolatin1 d) as [x|]; simpl in Hd2 |- *.
      * apply gsm_to_latin1_char; [done..|lia].
      * destruct (Z.ltb_spec d 128).
        -- rewrite Htab by done. bind_red. apply gsm_to_latin1_char; [done..|lia].
        -- rewrite Hhi by lia. apply gsm_to_latin1_kept; [done..|lia].
  - destruct (latin1_octets c) as [Hc1 _]; [done|]. destruct (Z.ltb_spec c 128).
    + rewrite Htab by done. bind_red. apply gsm_to_latin1_char; [done..|lia].
    + rewrite Hhi by lia. apply gsm_to_latin1_kept; [done..|lia].
Qed.
End gsm_to_latin1_loop.

Lemma gsm_to_latin1_loop_ok (fuel : nat) : forall (o : Octstr) (pre r : list Z),
  reprm o (pre ++ r) -> octets r -> (length r < fuel)%nat ->
  returns (gsm_to_latin1_loop o (zlen pre) (zlen (pre ++ r)) fuel)
    (fun o' => reprm o' (pre ++ gsm_latin1 r)).
Proof. induction fuel as [|fuel IH]; intros; [lia|]. by apply gsm_to_latin1_step. Qed.

(** ** Truncation *)

Lemma gsm_text_take (l : list Z) (n : nat) (c : Z) :
  gsm_text l = true -> l !! n = Some c -> c <> 27 -> gsm_text (take (S n) l) = true.
Proof.
  revert n. induction l as [l IH] using (induction_ltof1 _ (@length Z)); unfold ltof in IH.
  intros n Hl Hn Hc. destruct l as [|x l]; [done|]. cbn [gsm_text] in Hl.
  destruct n as [|n]; simpl in Hn.
  { simplify_eq. cbn [take gsm_text]. rewrite (proj2 (Z.eqb_neq c 27)) in Hl |- * by done.
    by apply andb_prop in Hl as [-> _]. }
  change (take (S (S n)) (x :: l)) with (x :: take (S n) l). cbn [gsm_text].
  destruct (Z.eqb_spec x 27) as [->|].
  - destruct l as [|d l]; [done|]. apply andb_prop in Hl as [Hd Hl].
    destruct n as [|n]; cbn [take]; rewrite Hd; [by rewrite take_0|].
    apply (IH l); [simpl; lia|done..].
  - apply andb_prop in Hl as [-> Hl]. apply (IH l); [simpl; lia|done..].
Qed.

Lemma gsm_text_before_escape (l : list Z) (n : nat) :
  gsm_text l = true -> l !! n = Some 27 -> gsm_text (take n l) = true.
Proof.
  revert n. induction l as [l IH] using (induction_ltof1 _ (@length Z)); unfold ltof in IH.
  intros n Hl Hn. destruct l as [|x l]; [done|]. cbn [gsm_text] in Hl.
  destruct n as [|n]; [done|]. simpl in Hn. change (take (S n) (x :: l)) with (x :: take n l).
  cbn [gsm_text]. destruct (Z.eqb_spec x 27) as [->|].
  - destruct l as [|d l]; [done|]. apply andb_prop in Hl as [Hd Hl].
    destruct n as [|n]; simpl in Hn; [simplify_eq; vm_compute in Hd; discriminate|].
    cbn [take]. rewrite Hd. apply (IH l); [simpl; lia|done..].
  - apply andb_prop in Hl as [-> Hl]. apply (IH l); [simpl; lia|done..].
Qed.

(** ** Latin 1 and back *)

(** The Latin 1 characters that the GSM alphabet has; the small c with cedilla is
    sent as the capital one. *)
Definition in_gsm (c : Z) : Prop :=
  (latin1_to_gsm !! Z.to_nat c <> Some NRP \/ c = NRP) /\ c <> 231.

#[export] Instance in_gsm_dec c : Decision (in_gsm c).
Proof. unfold in_gsm. apply _. Defined.

(** A character of the GSM alphabet is one septet that is not an escape, or an
    escape and a septet of the table, and stands for the character. *)
Definition gsm_of_good (c : Z) : Prop :=
  match gsm_of c with
  | [g] => g <> 27 /\ (in_gsm c -> latin1_of_gsm g = c)
  | [e; g] => e = 27 /\ (in_gsm c -> latin1_of_esc g = c)
  | _ => False
  end.

#[local] Instance gsm_of_good_dec c : Decision (gsm_of_good c).
Proof. unfold gsm_of_good. repeat case_match; apply _. Defined.

Lemma gsm_of_good_all (c : Z) : octet c -> gsm_of_good c.
Proof. revert c. apply (octet_ind _). vm_compute. reflexivity. Qed.

Lemma gsm_latin1_back (s : list Z) :
  octets s -> Forall in_gsm s -> gsm_latin1 (concat (gsm_of <$> s)) = s.
Proof.
  induction 1 as [|c s Hc Hs IH]; intros Hg; [done|].
  apply Forall_cons_iff in Hg as [Hgc Hg]. csimpl. pose proof (gsm_of_good_all c Hc) as G.
  unfold gsm_of_good in G. destruct (gsm_of c) as [|e [|g [|]]]; try done; destruct G as [G1 G2].
  - cbn [app gsm_latin1]. rewrite (proj2 (Z.eqb_neq e 27)) by done. by rewrite G2, IH.
  - subst e. cbn [app gsm_latin1]. change (27 =? 27) with true. cbv iota. by rewrite G2, IH.
Qed.

(** ** Properties *)

(** Text in the GSM alphabet (any of its characters, with escapes followed by
    a character of the extension table) is converted to UTF-8 and back without
    loss. *)
Theorem gsm_utf8_roundtrip (o : Octstr) (s : list Z) :
  reprm o s -> gsm_text s = true ->
  returns (u ← charset_gsm_to_utf8 (Some o); charset_utf8_to_gsm u)
    (fun r => exists o', r = Some o' /\ reprm o' s).
Proof.
  intros Ho Hs. apply returns_bind. apply (returns_mono _ _ _ (charset_gsm_to_utf8_ok o s Ho)).
  intros u (o1 & -> & H1). apply (returns_mono _ _ _ (charset_utf8_to_gsm_ok o1 _ H1)).
  intros r (o2 & -> & H2). exists o2. by rewrite utf8_gsm_gsm_utf8 in H2.
Qed.

Lemma gsm_utf8_roundtrip_witness :
  returns (u ← charset_gsm_to_utf8 (Some (mk_os [27; 101; 16; 97])); charset_utf8_to_gsm u)
    (fun r => exists o', r = Some o' /\ reprm o' [27; 101; 16; 97]).
Proof. apply (gsm_utf8_roundtrip (mk_os [27; 101; 16; 97]) [27; 101; 16; 97]); [mk_os|done]. Defined.

(** Converting any octets as UTF-8 to the GSM alphabet succeeds and gives
    septets only, at most two for each octet; what is not in the alphabet becomes
    a question mark, and an incomplete character at the end is dropped. *)
Theorem utf8_to_gsm_septets (o : Octstr) (s : list Z) :
  reprm o s ->
  returns (charset_utf8_to_gsm (Some o)) (fun r => exists o' t, r = Some o' /\ reprm o' t /\
    Forall septet t /\ zlen t <= 2 * zlen s).
Proof.
  intros Ho. apply (returns_mono _ _ _ (charset_utf8_to_gsm_ok o s Ho)).
  intros r (o1 & -> & H1). exists o1, (utf8_gsm s). split_and!; [done..| |].
  - apply utf8_gsm_septets, (repr_octets o s), Ho.
  - apply utf8_gsm_length.
Qed.

Lemma utf8_to_gsm_septets_witness :
  returns (charset_utf8_to_gsm (Some (mk_os [226; 130; 172; 255; 195]))) (fun r =>
    exists o' t, r = Some o' /\ reprm o' t /\ Forall septet t /\
      zlen t <= 2 * zlen [226; 130; 172; 255; 195]).
Proof.
  apply (utf8_to_gsm_septets (mk_os [226; 130; 172; 255; 195]) [226; 130; 172; 255; 195]). mk_os.
Defined.

(** Latin 1 text whose characters all exist in the GSM alphabet is converted
    to GSM and back, in place, without loss. *)
Theorem latin1_gsm_roundtrip (o : Octstr) (s : list Z) :
  reprm o s -> Forall in_gsm s ->
  returns (g ← charset_latin1_to_gsm o; charset_gsm_to_latin1 g) (fun o' => reprm o' s).
Proof.
  intros Ho Hg. pose proof (repr_octets _ _ (proj1 Ho)) as Hs.
  unfold charset_latin1_to_gsm, charset_gsm_to_latin1. cbn [octstr_len].
  rewrite (repr_seems_valid _ _ (proj1 Ho)), (repr_len _ _ (proj1 Ho)). bind_red.
  apply returns_bind.
  eapply returns_mono; [apply (latin1_to_gsm_loop_ok _ s o []); [done|done|list_lia]|].
  cbn [app]. intros o1 H1. pose proof (repr_octets _ _ (proj1 H1)) as H1s.
  rewrite (repr_seems_valid _ _ (proj1 H1)), (repr_len _ _ (proj1 H1)). bind_red.
  eapply returns_mono; [apply (gsm_to_latin1_loop_ok _ o1 [] (concat (gsm_of <$> s))); [done|done|list_lia]|].
  cbn [app]. intros o2 H2. by rewrite gsm_latin1_back in H2.
Qed.

Lemma latin1_gsm_roundtrip_witness :
  returns (g ← charset_latin1_to_gsm (mk_os [91; 97; 228]); charset_gsm_to_latin1 g)
    (fun o' => reprm o' [91; 97; 228]).
Proof.
  apply (latin1_gsm_roundtrip (mk_os [91; 97; 228]) [91; 97; 228]); [mk_os|].
  apply (bool_decide_unpack (Forall in_gsm [91; 97; 228])). vm_compute. exact I.
Defined.

(** Truncating GSM text to [max] septets leaves a prefix of it of at most
    that length which is GSM text again: an escape is never separated from its
    character.  It tells whether anything was cut. *)
Theorem gsm_truncate_text (o : Octstr) (s : list Z) (max : Z) :
  reprm o s -> gsm_text s = true -> 1 <= max ->
  returns (charset_gsm_truncate o max) (fun '(r, o') => exists t k,
    reprm o' t /\ s = t ++ k /\ gsm_text t = true /\ zlen t <= max /\
    (r = 1 /\ max < zlen s \/ r = 0 /\ k = [])).
Proof.
  intros Ho Hs Hm. unfold charset_gsm_truncate. cbn [octstr_len].
  rewrite (repr_seems_valid _ _ (proj1 Ho)), (repr_len _ _ (proj1 Ho)). bind_red.
  destruct (Z.ltb_spec max (zlen s)) as [Hl|Hl].
  2: { exists s, []. rewrite app_nil_r. split_and!; try done. by right. }
  rewrite (octstr_get_char_ok o s _ (proj1 Ho)). bind_red.
  destruct (lookup_lt_is_Some_2 s (Z.to_nat (max - 1))) as [c Hc]; [list_lia|].
  assert (char_at s (max - 1) = c) as ->.
  { rewrite <- (Z2Nat.id (max - 1)) by lia. by apply char_at_lookup. }
  assert (forall n, 0 <= n <= max -> gsm_text (take (Z.to_nat n) s) = true ->
    returns (o' ← octstr_truncate (Some o) n; Ok (1, default o o')) (fun '(r, o') => exists t k,
      reprm o' t /\ s = t ++ k /\ gsm_text t = true /\ zlen t <= max /\
      (r = 1 /\ max < zlen s \/ r = 0 /\ k = []))) as Hcut.
  { intros n Hn Ht. apply returns_bind.
    apply (returns_mono _ _ _ (octstr_truncate_ok o s n Ho ltac:(lia))). intros o' (o1 & -> & H1).
    exists (take (Z.to_nat n) s), (drop (Z.to_nat n) s). rewrite take_drop.
    split_and!; [done..|list_lia|by left]. }
  destruct (Z.eqb_spec c 27) as [->|Hne]; apply Hcut; try lia.
  - by apply gsm_text_before_escape.
  - replace (Z.to_nat max) with (S (Z.to_nat (max - 1))) by lia. by eapply gsm_text_take.
Qed.

Lemma gsm_truncate_text_witness :
  returns (charset_gsm_truncate (mk_os [97; 27; 101; 98]) 2) (fun '(r, o') => exists t k,
    reprm o' t /\ [97; 27; 101; 98] = t ++ k /\ gsm_text t = true /\ zlen t <= 2 /\
    (r = 1 /\ 2 < zlen [97; 27; 101; 98] \/ r = 0 /\ k = [])).
Proof.
  apply (gsm_truncate_text (mk_os [97; 27; 101; 98]) [97; 27; 101; 98] 2); [mk_os|done|done].
Defined.
