(* ===== verification/Sms.v ===== *)
(** * Short messages

    Models src/gw/sms.c: the data coding scheme, the length of a message, and the
    splitting of a long message into parts with the user data headers that let
    the phone join them again; and the order in which the SMS queues are served.
    The functions work on the [sms] structure of a message; where the source
    generates a new identifier for a part, it is an argument.  [sms_split] takes a
    bound on the number of parts it makes, since the source can loop without end
    when a part has no room for text. *)

From S2P Require Import Prelude Octstr OctstrSearch OctstrCode GwList PrioQueue Uuid Msg Charset.

(** ** Stores to the fields *)

Definition set_sender (p : sms) (v : option Octstr) : sms :=
  mkSms v (sms_receiver p) (sms_udhdata p) (sms_msgdata p) (sms_time p) (sms_smsc_id p)
    (sms_smsc_number p) (sms_foreign_id p) (sms_service p) (sms_account p) (sms_id p)
    (sms_sms_type p) (sms_mclass p) (sms_mwi p) (sms_coding p) (sms_compress p) (sms_validity p)
    (sms_deferred p) (sms_dlr_mask p) (sms_dlr_url p) (sms_pid p) (sms_alt_dcs p) (sms_rpi p)
    (sms_charset p) (sms_boxc_id p) (sms_binfo p) (sms_msg_left p) (sms_split_parts p)
    (sms_priority p) (sms_resend_try p) (sms_resend_time p) (sms_meta_data p).

Definition set_receiver (p : sms) (v : option Octstr) : sms :=
  mkSms (sms_sender p) v (sms_udhdata p) (sms_msgdata p) (sms_time p) (sms_smsc_id p)
    (sms_smsc_number p) (sms_foreign_id p) (sms_service p) (sms_account p) (sms_id p)
    (sms_sms_type p) (sms_mclass p) (sms_mwi p) (sms_coding p) (sms_compress p) (sms_validity p)
    (sms_deferred p) (sms_dlr_mask p) (sms_dlr_url p) (sms_pid p) (sms_alt_dcs p) (sms_rpi p)
    (sms_charset p) (sms_boxc_id p) (sms_binfo p) (sms_msg_left p) (sms_split_parts p)
    (sms_priority p) (sms_resend_try p) (sms_resend_time p) (sms_meta_data p).

Definition set_udhdata (p : sms) (v : option Octstr) : sms :=
  mkSms (sms_sender p) (sms_receiver p) v (sms_msgdata p) (sms_time p) (sms_smsc_id p)
    (sms_smsc_number p) (sms_foreign_id p) (sms_service p) (sms_account p) (sms_id p)
    (sms_sms_type p) (sms_mclass p) (sms_mwi p) (sms_coding p) (sms_compress p) (sms_validity p)
    (sms_deferred p) (sms_dlr_mask p) (sms_dlr_url p) (sms_pid p) (sms_alt_dcs p) (sms_rpi p)
    (sms_charset p) (sms_boxc_id p) (sms_binfo p) (sms_msg_left p) (sms_split_parts p)
    (sms_priority p) (sms_resend_try p) (sms_resend_time p) (sms_meta_data p).

Definition set_msgdata (p : sms) (v : option Octstr) : sms :=
  mkSms (sms_sender p) (sms_receiver p) (sms_udhdata p) v (sms_time p) (sms_smsc_id p)
    (sms_smsc_number p) (sms_foreign_id p) (sms_service p) (sms_account p) (sms_id p)
    (sms_sms_type p) (sms_mclass p) (sms_mwi p) (sms_coding p) (sms_compress p) (sms_validity p)
    (sms_deferred p) (sms_dlr_mask p) (sms_dlr_url p) (sms_pid p) (sms_alt_dcs p) (sms_rpi p)
    (sms_charset p) (sms_boxc_id p) (sms_binfo p) (sms_msg_left p) (sms_split_parts p)
    (sms_priority p) (sms_resend_try p) (sms_resend_time p) (sms_meta_data p).

Definition set_id (p : sms) (v : list Z) : sms :=
  mkSms (sms_sender p) (sms_receiver p) (sms_udhdata p) (sms_msgdata p) (sms_time p)
    (sms_smsc_id p) (sms_smsc_number p) (sms_foreign_id p) (sms_service p) (sms_account p) v
    (sms_sms_type p) (sms_mclass p) (sms_mwi p) (sms_coding p) (sms_compress p) (sms_validity p)
    (sms_deferred p) (sms_dlr_mask p) (sms_dlr_url p) (sms_pid p) (sms_alt_dcs p) (sms_rpi p)
    (sms_charset p) (sms_boxc_id p) (sms_binfo p) (sms_msg_left p) (sms_split_parts p)
    (sms_priority p) (sms_resend_try p) (sms_resend_time p) (sms_meta_data p).

Definition set_mclass (p : sms) (v : Z) : sms :=
  mkSms (sms_sender p) (sms_receiver p) (sms_udhdata p) (sms_msgdata p) (sms_time p)
    (sms_smsc_id p) (sms_smsc_number p) (sms_foreign_id p) (sms_service p) (sms_account p)
    (sms_id p) (sms_sms_type p) v (sms_mwi p) (sms_coding p) (sms_compress p) (sms_validity p)
    (sms_deferred p) (sms_dlr_mask p) (sms_dlr_url p) (sms_pid p) (sms_alt_dcs p) (sms_rpi p)
    (sms_charset p) (sms_boxc_id p) (sms_binfo p) (sms_msg_left p) (sms_split_parts p)
    (sms_priority p) (sms_resend_try p) (sms_resend_time p) (sms_meta_data p).

Definition set_mwi (p : sms) (v : Z) : sms :=
  mkSms (sms_sender p) (sms_receiver p) (sms_udhdata p) (sms_msgdata p) (sms_time p)
    (sms_smsc_id p) (sms_smsc_number p) (sms_foreign_id p) (sms_service p) (sms_account p)
    (sms_id p) (sms_sms_type p) (sms_mclass p) v (sms_coding p) (sms_compress p)
    (sms_validity p) (sms_deferred p) (sms_dlr_mask p) (sms_dlr_url p) (sms_pid p)
    (sms_alt_dcs p) (sms_rpi p) (sms_charset p) (sms_boxc_id p) (sms_binfo p) (sms_msg_left p)
    (sms_split_parts p) (sms_priority p) (sms_resend_try p) (sms_resend_time p)
    (sms_meta_data p).

Definition set_coding (p : sms) (v : Z) : sms :=
  mkSms (sms_sender p) (sms_receiver p) (sms_udhdata p) (sms_msgdata p) (sms_time p)
    (sms_smsc_id p) (sms_smsc_number p) (sms_foreign_id p) (sms_service p) (sms_account p)
    (sms_id p) (sms_sms_type p) (sms_mclass p) (sms_mwi p) v (sms_compress p) (sms_validity p)
    (sms_deferred p) (sms_dlr_mask p) (sms_dlr_url p) (sms_pid p) (sms_alt_dcs p) (sms_rpi p)
    (sms_charset p) (sms_boxc_id p) (sms_binfo p) (sms_msg_left p) (sms_split_parts p)
    (sms_priority p) (sms_resend_try p) (sms_resend_time p) (sms_meta_data p).

Definition set_compress (p : sms) (v : Z) : sms :=
  mkSms (sms_sender p) (sms_receiver p) (sms_udhdata p) (sms_msgdata p) (sms_time p)
    (sms_smsc_id p) (sms_smsc_number p) (sms_foreign_id p) (sms_service p) (sms_account p)
    (sms_id p) (sms_sms_type p) (sms_mclass p) (sms_mwi p) (sms_coding p) v (sms_validity p)
    (sms_deferred p) (sms_dlr_mask p) (sms_dlr_url p) (sms_pid p) (sms_alt_dcs p) (sms_rpi p)
    (sms_charset p) (sms_boxc_id p) (sms_binfo p) (sms_msg_left p) (sms_split_parts p)
    (sms_priority p) (sms_resend_try p) (sms_resend_time p) (sms_meta_data p).

Definition set_dlr_mask (p : sms) (v : Z) : sms :=
  mkSms (sms_sender p) (sms_receiver p) (sms_udhdata p) (sms_msgdata p) (sms_time p)
    (sms_smsc_id p) (sms_smsc_number p) (sms_foreign_id p) (sms_service p) (sms_account p)
    (sms_id p) (sms_sms_type p) (sms_mclass p) (sms_mwi p) (sms_coding p) (sms_compress p)
    (sms_validity p) (sms_deferred p) v (sms_dlr_url p) (sms_pid p) (sms_alt_dcs p) (sms_rpi p)
    (sms_charset p) (sms_boxc_id p) (sms_binfo p) (sms_msg_left p) (sms_split_parts p)
    (sms_priority p) (sms_resend_try p) (sms_resend_time p) (sms_meta_data p).

Definition set_dlr_url (p : sms) (v : option Octstr) : sms :=
  mkSms (sms_sender p) (sms_receiver p) (sms_udhdata p) (sms_msgdata p) (sms_time p)
    (sms_smsc_id p) (sms_smsc_number p) (sms_foreign_id p) (sms_service p) (sms_account p)
    (sms_id p) (sms_sms_type p) (sms_mclass p) (sms_mwi p) (sms_coding p) (sms_compress p)
    (sms_validity p) (sms_deferred p) (sms_dlr_mask p) v (sms_pid p) (sms_alt_dcs p) (sms_rpi p)
    (sms_charset p) (sms_boxc_id p) (sms_binfo p) (sms_msg_left p) (sms_split_parts p)
    (sms_priority p) (sms_resend_try p) (sms_resend_time p) (sms_meta_data p).

Definition set_alt_dcs (p : sms) (v : Z) : sms :=
  mkSms (sms_sender p) (sms_receiver p) (sms_udhdata p) (sms_msgdata p) (sms_time p)
    (sms_smsc_id p) (sms_smsc_number p) (sms_foreign_id p) (sms_service p) (sms_account p)
    (sms_id p) (sms_sms_type p) (sms_mclass p) (sms_mwi p) (sms_coding p) (sms_compress p)
    (sms_validity p) (sms_deferred p) (sms_dlr_mask p) (sms_dlr_url p) (sms_pid p) v (sms_rpi p)
    (sms_charset p) (sms_boxc_id p) (sms_binfo p) (sms_msg_left p) (sms_split_parts p)
    (sms_priority p) (sms_resend_try p) (sms_resend_time p) (sms_meta_data p).

Definition set_msg_left (p : sms) (v : Z) : sms :=
  mkSms (sms_sender p) (sms_receiver p) (sms_udhdata p) (sms_msgdata p) (sms_time p)
    (sms_smsc_id p) (sms_smsc_number p) (sms_foreign_id p) (sms_service p) (sms_account p)
    (sms_id p) (sms_sms_type p) (sms_mclass p) (sms_mwi p) (sms_coding p) (sms_compress p)
    (sms_validity p) (sms_deferred p) (sms_dlr_mask p) (sms_dlr_url p) (sms_pid p)
    (sms_alt_dcs p) (sms_rpi p) (sms_charset p) (sms_boxc_id p) (sms_binfo p) v
    (sms_split_parts p) (sms_priority p) (sms_resend_try p) (sms_resend_time p)
    (sms_meta_data p).

Definition set_split_parts (p : sms) (v : Z) : sms :=
  mkSms (sms_sender p) (sms_receiver p) (sms_udhdata p) (sms_msgdata p) (sms_time p)
    (sms_smsc_id p) (sms_smsc_number p) (sms_foreign_id p) (sms_service p) (sms_account p)
    (sms_id p) (sms_sms_type p) (sms_mclass p) (sms_mwi p) (sms_coding p) (sms_compress p)
    (sms_validity p) (sms_deferred p) (sms_dlr_mask p) (sms_dlr_url p) (sms_pid p)
    (sms_alt_dcs p) (sms_rpi p) (sms_charset p) (sms_boxc_id p) (sms_binfo p) (sms_msg_left p) v
    (sms_priority p) (sms_resend_try p) (sms_resend_time p) (sms_meta_data p).

Definition set_sms_time (p : sms) (v : Z) : sms :=
  mkSms (sms_sender p) (sms_receiver p) (sms_udhdata p) (sms_msgdata p) v (sms_smsc_id p)
    (sms_smsc_number p) (sms_foreign_id p) (sms_service p) (sms_account p) (sms_id p)
    (sms_sms_type p) (sms_mclass p) (sms_mwi p) (sms_coding p) (sms_compress p) (sms_validity p)
    (sms_deferred p) (sms_dlr_mask p) (sms_dlr_url p) (sms_pid p) (sms_alt_dcs p) (sms_rpi p)
    (sms_charset p) (sms_boxc_id p) (sms_binfo p) (sms_msg_left p) (sms_split_parts p)
    (sms_priority p) (sms_resend_try p) (sms_resend_time p) (sms_meta_data p).

Definition set_smsc_id (p : sms) (v : option Octstr) : sms :=
  mkSms (sms_sender p) (sms_receiver p) (sms_udhdata p) (sms_msgdata p) (sms_time p) v
    (sms_smsc_number p) (sms_foreign_id p) (sms_service p) (sms_account p) (sms_id p)
    (sms_sms_type p) (sms_mclass p) (sms_mwi p) (sms_coding p) (sms_compress p) (sms_validity p)
    (sms_deferred p) (sms_dlr_mask p) (sms_dlr_url p) (sms_pid p) (sms_alt_dcs p) (sms_rpi p)
    (sms_charset p) (sms_boxc_id p) (sms_binfo p) (sms_msg_left p) (sms_split_parts p)
    (sms_priority p) (sms_resend_try p) (sms_resend_time p) (sms_meta_data p).

Definition set_foreign_id (p : sms) (v : option Octstr) : sms :=
  mkSms (sms_sender p) (sms_receiver p) (sms_udhdata p) (sms_msgdata p) (sms_time p)
    (sms_smsc_id p) (sms_smsc_number p) v (sms_service p) (sms_account p) (sms_id p)
    (sms_sms_type p) (sms_mclass p) (sms_mwi p) (sms_coding p) (sms_compress p) (sms_validity p)
    (sms_deferred p) (sms_dlr_mask p) (sms_dlr_url p) (sms_pid p) (sms_alt_dcs p) (sms_rpi p)
    (sms_charset p) (sms_boxc_id p) (sms_binfo p) (sms_msg_left p) (sms_split_parts p)
    (sms_priority p) (sms_resend_try p) (sms_resend_time p) (sms_meta_data p).

Definition set_service (p : sms) (v : option Octstr) : sms :=
  mkSms (sms_sender p) (sms_receiver p) (sms_udhdata p) (sms_msgdata p) (sms_time p)
    (sms_smsc_id p) (sms_smsc_number p) (sms_foreign_id p) v (sms_account p) (sms_id p)
    (sms_sms_type p) (sms_mclass p) (sms_mwi p) (sms_coding p) (sms_compress p) (sms_validity p)
    (sms_deferred p) (sms_dlr_mask p) (sms_dlr_url p) (sms_pid p) (sms_alt_dcs p) (sms_rpi p)
    (sms_charset p) (sms_boxc_id p) (sms_binfo p) (sms_msg_left p) (sms_split_parts p)
    (sms_priority p) (sms_resend_try p) (sms_resend_time p) (sms_meta_data p).

Definition set_sms_type (p : sms) (v : Z) : sms :=
  mkSms (sms_sender p) (sms_receiver p) (sms_udhdata p) (sms_msgdata p) (sms_time p)
    (sms_smsc_id p) (sms_smsc_number p) (sms_foreign_id p) (sms_service p) (sms_account p)
    (sms_id p) v (sms_mclass p) (sms_mwi p) (sms_coding p) (sms_compress p) (sms_validity p)
    (sms_deferred p) (sms_dlr_mask p) (sms_dlr_url p) (sms_pid p) (sms_alt_dcs p) (sms_rpi p)
    (sms_charset p) (sms_boxc_id p) (sms_binfo p) (sms_msg_left p) (sms_split_parts p)
    (sms_priority p) (sms_resend_try p) (sms_resend_time p) (sms_meta_data p).

Definition set_boxc_id (p : sms) (v : option Octstr) : sms :=
  mkSms (sms_sender p) (sms_receiver p) (sms_udhdata p) (sms_msgdata p) (sms_time p)
    (sms_smsc_id p) (sms_smsc_number p) (sms_foreign_id p) (sms_service p) (sms_account p)
    (sms_id p) (sms_sms_type p) (sms_mclass p) (sms_mwi p) (sms_coding p) (sms_compress p)
    (sms_validity p) (sms_deferred p) (sms_dlr_mask p) (sms_dlr_url p) (sms_pid p)
    (sms_alt_dcs p) (sms_rpi p) (sms_charset p) v (sms_binfo p) (sms_msg_left p)
    (sms_split_parts p) (sms_priority p) (sms_resend_try p) (sms_resend_time p)
    (sms_meta_data p).

Definition set_meta_data (p : sms) (v : option Octstr) : sms :=
  mkSms (sms_sender p) (sms_receiver p) (sms_udhdata p) (sms_msgdata p) (sms_time p)
    (sms_smsc_id p) (sms_smsc_number p) (sms_foreign_id p) (sms_service p) (sms_account p)
    (sms_id p) (sms_sms_type p) (sms_mclass p) (sms_mwi p) (sms_coding p) (sms_compress p)
    (sms_validity p) (sms_deferred p) (sms_dlr_mask p) (sms_dlr_url p) (sms_pid p)
    (sms_alt_dcs p) (sms_rpi p) (sms_charset p) (sms_boxc_id p) (sms_binfo p) (sms_msg_left p)
    (sms_split_parts p) (sms_priority p) (sms_resend_try p) (sms_resend_time p) v.

Definition with_sms (m : Msg) (p : sms) : Msg :=
  mkMsg (m_type m) (m_heartbeat m) (m_admin m) p (m_ack m) (m_wdp_datagram m).

(** ** Constants: src/gw/sms.h and src/gw/dlr.h *)

Definition UNDEF : Z := MSG_PARAM_UNDEFINED.
Definition DC_7BIT : Z := 0.
Definition DC_8BIT : Z := 1.
Definition DC_UCS2 : Z := 2.
Definition COMPRESS_ON : Z := 1.

(** [DLR_IS_ENABLED]; the union of the bits is 0x7F. *)
Definition DLR_IS_ENABLED (dlr : Z) : bool :=
  negb (dlr =? UNDEF) && negb (Z.land dlr 127 =? 0).

(** ** The data coding scheme *)

(** The coding is decided and stored in the message first. *)
Definition fields_to_dcs (p : sms) (mode : Z) : res (Z * sms) :=
  p ← (if sms_coding p =? UNDEF then
         n ← octstr_len (sms_udhdata p);
         Ok (set_coding p (if negb (n =? 0) then DC_8BIT else DC_7BIT))
       else Ok p);
  dcs ← (if negb (sms_mwi p =? UNDEF) then
           let dcs := sms_mwi p in
           if negb (Z.land dcs 4 =? 0) then Ok (Z.lor (Z.land dcs 3) 192)
           else
             let dcs := Z.lor (Z.land dcs 3) 8 in
             n ← octstr_len (sms_msgdata p);
             Ok (if n =? 0 then Z.lor dcs 192
                 else if sms_coding p =? DC_7BIT then Z.lor dcs 208
                 else Z.lor dcs 224)
         else if (mode =? 0) || (mode =? UNDEF) || (sms_coding p =? DC_UCS2)
                 || (sms_compress p =? COMPRESS_ON) then
           let dcs := 0 in
           let dcs := if sms_compress p =? COMPRESS_ON then Z.lor dcs 32 else dcs in
           let dcs := if negb (sms_mclass p =? UNDEF)
                      then Z.lor dcs (Z.lor 16 (sms_mclass p)) else dcs in
           Ok (if negb (sms_coding p =? UNDEF)
               then Z.lor dcs (Z.shiftl (sms_coding p) 2) else dcs)
         else
           let dcs := 240 in
           let dcs := if negb (sms_coding p =? UNDEF)
                      then Z.lor dcs (Z.shiftl (sms_coding p) 2) else dcs in
           Ok (if sms_mclass p =? UNDEF then Z.lor dcs 1 else Z.lor dcs (sms_mclass p)));
  Ok (int32 dcs, p).

Definition dcs_to_fields (p : sms) (dcs : Z) : Z * sms :=
  if Z.land dcs 240 =? 240 then
    let dcs := Z.land dcs 7 in
    let p := set_coding p (if negb (Z.land dcs 4 =? 0) then DC_8BIT else DC_7BIT) in
    let p := set_mclass p (Z.land dcs 3) in
    (1, set_alt_dcs p 1)
  else if Z.land dcs 192 =? 0 then
    let p := set_alt_dcs p 0 in
    let p := set_compress p (if Z.land dcs 32 =? 32 then 1 else 0) in
    let p := set_mclass p (if Z.land dcs 16 =? 16 then Z.land dcs 3 else UNDEF) in
    (1, set_coding p (Z.shiftr (Z.land dcs 12) 2))
  else if Z.land dcs 192 =? 192 then
    let p := set_alt_dcs p 0 in
    let p := set_coding p (if Z.land dcs 48 =? 48 then DC_UCS2 else DC_7BIT) in
    let dcs := if Z.land dcs 8 =? 0 then Z.lor dcs 4 else dcs in
    (1, set_mwi p (Z.land dcs 7))
  else (0, p).

(** ** Length and addresses *)

Definition sms_msgdata_len (p : sms) : res Z :=
  match sms_msgdata p with
  | None => Ok (-1)
  | Some d =>
      if sms_coding p =? DC_7BIT then
        d ← octstr_duplicate (Some d);
        d ← charset_utf8_to_gsm d;
        octstr_len d
      else octstr_len (Some d)
  end.

Definition sms_swap (p : sms) : Z * sms :=
  match sms_sender p, sms_receiver p with
  | Some sender, Some receiver => (1, set_receiver (set_sender p (Some receiver)) (Some sender))
  | _, _ => (0, p)
  end.

(** ** Splitting *)

Definition CATENATE_UDH_LEN : Z := 5.

(** [octstr_format_append] of the format ["%c\3%c%c%c"]: a [%c] appends its
    argument as a [char], and the whole is appended in the end. *)
Definition format_append_c3ccc (os : Octstr) (c0 c1 c2 c3 : Z) : res Octstr :=
  temp ← octstr_create [];
  new ← octstr_create_from_data [c0 mod 256] 0 1;
  temp ← octstr_append temp (Some new);
  temp ← octstr_append_data temp [3] 1;
  new ← octstr_create_from_data [c1 mod 256] 0 1;
  temp ← octstr_append temp (Some new);
  new ← octstr_create_from_data [c2 mod 256] 0 1;
  temp ← octstr_append temp (Some new);
  new ← octstr_create_from_data [c3 mod 256] 0 1;
  temp ← octstr_append temp (Some new);
  octstr_append os (Some temp).

Definition prepend_catenation_udh (p : sms) (part_no num_messages msg_sequence : Z) : res sms :=
  udh ← match sms_udhdata p with
        | None => octstr_create []
        | Some udh => Ok udh
        end;
  n ← octstr_len (Some udh);
  udh ← (if n =? 0 then octstr_append_char udh CATENATE_UDH_LEN else Ok udh);
  udh ← format_append_c3ccc udh 0 msg_sequence num_messages part_no;
  let p := set_msg_left p (if part_no <? num_messages then num_messages - part_no else 0) in
  n ← octstr_len (Some udh);
  udh ← octstr_set_char udh 0 (n - 1);
  Ok (set_udhdata p (Some udh)).

(** The loop that looks for the last split character, from [i] = [n] down. *)
Fixpoint find_split (msgdata split_chars : Octstr) (n : nat) : res (option Z) :=
  match n with
  | O => Ok None
  | S i =>
      c ← octstr_get_char msgdata (Z.of_nat i);
      r ← octstr_search_char split_chars c 0;
      if negb (r =? -1) then Ok (Some (Z.of_nat n)) else find_split msgdata split_chars i
  end.

(** The part and what is left; deleting from NULL is a failed assertion. *)
Definition extract_msgdata_part (msgdata : option Octstr) (split_chars : option Octstr)
    (max_part_len : Z) : res (Octstr * Octstr) :=
  n ← octstr_len msgdata;
  len ← match split_chars, msgdata with
        | Some sc, Some md =>
            if max_part_len <? n then
              r ← find_split md sc (Z.to_nat max_part_len);
              Ok (default max_part_len r)
            else Ok max_part_len
        | _, _ => Ok max_part_len
        end;
  part ← octstr_copy msgdata 0 len;
  match msgdata with
  | None => Panic
  | Some md => md ← octstr_delete md 0 len; Ok (part, md)
  end.

(** [charset_gsm_truncate] of a string that may be NULL. *)
Definition gsm_truncate_opt (gsm : option Octstr) (max : Z) : res (option Octstr) :=
  match gsm with
  | None => if max <? 0 then Panic else Ok None
  | Some gsm => r ← charset_gsm_truncate gsm max; Ok (Some r.2)
  end.

Definition extract_msgdata_part_by_coding (p : sms) (split_chars : option Octstr)
    (max_part_len : Z) : res (Octstr * sms) :=
  if (sms_coding p =? DC_8BIT) || (sms_coding p =? DC_UCS2) then
    r ← extract_msgdata_part (sms_msgdata p) split_chars max_part_len;
    Ok (r.1, set_msgdata p (Some r.2))
  else
    md ← charset_utf8_to_gsm (sms_msgdata p);
    md ← charset_gsm_to_utf8 md;
    temp ← octstr_duplicate md;
    temp ← charset_utf8_to_gsm temp;
    temp ← gsm_truncate_opt temp max_part_len;
    temp_utf ← octstr_duplicate temp;
    temp_utf ← charset_gsm_to_utf8 temp_utf;
    max_part_len ← octstr_len temp_utf;
    r ← extract_msgdata_part md split_chars max_part_len;
    Ok (r.1, set_msgdata p (Some r.2)).

(** The octets of text that fit in one part; the division is of C. *)
Definition part_len (p : sms) (max_octets udh_len hf_len : Z) : Z :=
  if (sms_coding p =? DC_8BIT) || (sms_coding p =? DC_UCS2) then max_octets - udh_len - hf_len
  else Z.quot ((max_octets - udh_len) * 8) 7 - hf_len.

(** One round of the loop of [sms_split]: whether it is the last one, the part, and
    the message with what is left.  [newid] is what [uuid_generate] gives. *)
Definition split_part (orig temp : Msg) (header footer nonlast_suffix split_chars : option Octstr)
    (max_part_len nlsuf_len msgno max_messages : Z) (newid : list Z) : res (bool * Msg * Msg) :=
  part ← msg_duplicate newid newid orig;
  let p := m_sms part in
  let p := if (1 <? msgno) && DLR_IS_ENABLED (sms_dlr_mask p)
           then set_dlr_mask (set_dlr_url p None) 0 else p in
  n ← sms_msgdata_len (m_sms temp);
  let last := (n <=? max_part_len) || (msgno =? max_messages) in
  '(md, t) ← extract_msgdata_part_by_coding (m_sms temp) split_chars (max_part_len - nlsuf_len);
  let p := if last then p else set_id p newid in
  md ← match header with Some _ => octstr_insert md header 0 | None => Ok md end;
  md ← match footer with Some _ => octstr_append md footer | None => Ok md end;
  md ← (if negb last then octstr_append md nonlast_suffix else Ok md);
  Ok (last, with_sms part (set_msgdata p (Some md)), with_sms temp t).

(** The loop; [ids] gives the new identifiers. *)
Fixpoint split_loop (orig temp : Msg) (header footer nonlast_suffix split_chars : option Octstr)
    (max_part_len nlsuf_len msgno max_messages : Z) (ids : Z -> list Z) (list : List Msg)
    (fuel : nat) : res (Z * List Msg) :=
  match fuel with
  | O => Undef
  | S fuel =>
      let msgno := msgno + 1 in
      '(last, part, temp) ← split_part orig temp header footer nonlast_suffix split_chars
                              max_part_len nlsuf_len msgno max_messages (ids msgno);
      list ← gwlist_append list part;
      if last : bool then Ok (msgno, list)
      else split_loop orig temp header footer nonlast_suffix split_chars
             max_part_len nlsuf_len msgno max_messages ids list fuel
  end.

(** The headers of the parts, from part [msgno] on; a part is changed where it is. *)
Fixpoint catenate_loop (list : List Msg) (msgno total_messages msg_sequence : Z) (n : nat)
  : res (List Msg) :=
  match n with
  | O => Ok list
  | S n =>
      part ← gwlist_get list (msgno - 1);
      p ← prepend_catenation_udh (m_sms part) msgno total_messages msg_sequence;
      list ← PUT list (msgno - 1) (with_sms part p);
      catenate_loop list (msgno + 1) total_messages msg_sequence n
  end.

Definition sms_split (orig : Msg) (header footer nonlast_suffix split_chars : option Octstr)
    (catenate : bool) (msg_sequence max_messages max_octets : Z) (ids : Z -> list Z)
    (fuel : nat) : res (List Msg) :=
  nh ← octstr_len header;
  nf ← octstr_len footer;
  let hf_len := nh + nf in
  nlsuf_len ← octstr_len nonlast_suffix;
  udh_len ← octstr_len (sms_udhdata (m_sms orig));
  let max_part_len := part_len (m_sms orig) max_octets udh_len hf_len in
  n ← sms_msgdata_len (m_sms orig);
  let max_part_len :=
    if (max_part_len <? n) && catenate then
      let udh_len := if udh_len =? 0 then 1 else udh_len in
      part_len (m_sms orig) max_octets (udh_len + CATENATE_UDH_LEN) hf_len
    else max_part_len in
  let max_part_len := if 0 <? max_part_len then max_part_len else 0 in
  temp ← msg_duplicate (ids 0) (ids 0) orig;
  '(total_messages, list) ← split_loop orig temp header footer nonlast_suffix split_chars
                              max_part_len nlsuf_len 0 max_messages ids gwlist_create fuel;
  if catenate && (1 <? total_messages) then
    catenate_loop list 1 total_messages msg_sequence (Z.to_nat total_messages)
  else Ok list.

(** ** Queue order *)

Definition sms_priority_compare (msg1 msg2 : Msg) : res Z :=
  assert: m_type msg1 =? T_SMS;
  assert: m_type msg2 =? T_SMS;
  let p1 := m_sms msg1 in
  let p2 := m_sms msg2 in
  Ok (if sms_priority p2 <? sms_priority p1 then 1
      else if sms_priority p1 <? sms_priority p2 then -1
      else if sms_time p2 <? sms_time p1 then 1
      else if sms_time p1 <? sms_time p2 then -1
      else 0).

(** ** The data coding scheme: lemmas *)

(** The alternative scheme is used for plain text only. *)
Definition uses_alt (p : sms) (mode : Z) : bool :=
  negb ((mode =? 0) || (mode =? UNDEF) || (sms_coding p =? DC_UCS2) || (sms_compress p =? COMPRESS_ON)).

Lemma fields_to_dcs_coded (p : sms) (mode : Z) :
  0 <= sms_coding p <= 2 -> sms_mwi p = UNDEF ->
  fields_to_dcs p mode =
  Ok (int32 (if uses_alt p mode then
               Z.lor (Z.lor 240 (Z.shiftl (sms_coding p) 2))
                 (if sms_mclass p =? UNDEF then 1 else sms_mclass p)
             else
               Z.lor (Z.lor (if sms_compress p =? COMPRESS_ON then 32 else 0)
                        (if sms_mclass p =? UNDEF then 0 else Z.lor 16 (sms_mclass p)))
                 (Z.shiftl (sms_coding p) 2)), p).
Proof.
  intros Hc Hm. unfold fields_to_dcs, uses_alt, UNDEF, MSG_PARAM_UNDEFINED in *.
  assert ((sms_coding p =? -1) = false) as Ec by lia. rewrite Ec. bind_red.
  rewrite Ec, Hm, Z.eqb_refl. cbn [negb].
  destruct (_ || _ || _ || _); cbn [negb]; bind_red; do 3 f_equal.
  - destruct (sms_compress p =? COMPRESS_ON), (sms_mclass p =? -1); simpl negb; cbv iota zeta;
      by rewrite ?Z.lor_0_l, ?Z.lor_0_r.
  - destruct (sms_mclass p =? -1); done.
Qed.

(** ** Queue order: lemmas *)

Definition sms_order (m1 m2 : Msg) : Z :=
  let p1 := m_sms m1 in
  let p2 := m_sms m2 in
  if sms_priority p2 <? sms_priority p1 then 1
  else if sms_priority p1 <? sms_priority p2 then -1
  else if sms_time p2 <? sms_time p1 then 1
  else if sms_time p1 <? sms_time p2 then -1
  else 0.

#[export] Instance sms_order_ok : CmpOrder sms_order.
Proof. constructor; unfold sms_order; intros; repeat case_match; lia. Qed.

(** ** Duplicates of a message *)

(** What a string field holds; NULL counts as the empty string. *)
Definition content (o : option Octstr) (s : list Z) : Prop :=
  match o with
  | None => s = []
  | Some o => reprm o s
  end.

Lemma content_len (o : option Octstr) (s : list Z) : content o s -> octstr_len o = Ok (zlen s).
Proof.
  destruct o as [o|]; simpl; [|by intros ->]. intros [Ho _].
  by rewrite (repr_seems_valid _ _ Ho), (repr_len _ _ Ho).
Qed.

(** A field that can be copied, and its copy. *)
Inductive valid_value : value -> Prop :=
| vv_int i : valid_value (VInt i)
| vv_str o s : content o s -> valid_value (VStr o)
| vv_uuid u : is_uuid u -> valid_value (VUuid u)
| vv_ptr p : valid_value (VPtr p).

Inductive copy_of : value -> value -> Prop :=
| co_int i : copy_of (VInt i) (VInt i)
| co_str o o' : (forall s, content o s -> content o' s) -> (o = None <-> o' = None) ->
    copy_of (VStr o) (VStr o')
| co_uuid u : copy_of (VUuid u) (VUuid u)
| co_ptr p : copy_of (VPtr p) (VPtr p).

Lemma dup_value_ok (v : value) : valid_value v -> returns (dup_value v) (copy_of v).
Proof.
  destruct 1 as [i|[o|] s Hs|u Hu|p]; simpl.
  - constructor.
  - apply returns_bind. apply (returns_mono _ _ _ (octstr_duplicate_ok o s (proj1 Hs))).
    intros o' (o1 & -> & H1). constructor; [|done]. intros s' Hs'.
    by rewrite (repr_functional o s' s (proj1 Hs') (proj1 Hs)).
  - by constructor.
  - rewrite uuid_copy_ok by done. simpl. constructor.
  - constructor.
Qed.

Lemma copy_kind (v v' : value) : copy_of v v' -> kind_of v' = kind_of v.
Proof. by destruct 1. Qed.

Definition msg_valid (m : Msg) : Prop := Forall (Forall valid_value) (all_values m).

Lemma msg_duplicate_ok (id1 id2 : list Z) (m : Msg) :
  msg_valid m ->
  returns (msg_duplicate id1 id2 m) (fun m' =>
    m_type m' = m_type m /\ Forall2 copy_of (sms_values (m_sms m)) (sms_values (m_sms m'))).
Proof.
  intros Hm. eapply returns_mono; [apply (msg_duplicate_rel copy_of copy_kind)|].
  - eapply Forall_impl; [|exact Hm]. intros vs Hvs. eapply Forall_impl; [|exact Hvs]. apply dup_value_ok.
  - intros m' [Ht Hall]. split; [done|].
    by destruct (Forall2_lookup_l _ _ _ 2 _ Hall eq_refl) as (vs' & [= <-] & Hv).
Qed.

(** ** Extracting a part *)

Lemma find_split_ok (md sc : Octstr) (s cs : list Z) (n : nat) :
  repr md s -> repr sc cs -> (n <= length s)%nat ->
  returns (find_split md sc n) (fun r => match r with Some i => 1 <= i <= Z.of_nat n | None => True end).
Proof.
  intros Hm Hc. induction n as [|n IH]; intros Hn; [done|]. cbn [find_split].
  destruct (lookup_lt_is_Some_2 s n ltac:(lia)) as [c Ec].
  rewrite (octstr_get_char_ok md s), (char_at_lookup s n c) by done. bind_red.
  assert (octet c) as Ho.
  { pose proof (repr_octets _ _ Hm) as Hs. rewrite Forall_lookup in Hs. by eapply Hs. }
  rewrite (octstr_search_char_ok sc cs) by done. bind_red.
  destruct (negb _); [simpl; lia|]. apply (returns_mono _ _ _ (IH ltac:(lia))).
  intros [i|]; simpl; lia.
Qed.

(** What the two kinds of split characters allow. *)
Definition split_chars_ok (split_chars : option Octstr) : Prop :=
  match split_chars with
  | None => True
  | Some sc => exists cs, repr sc cs
  end.

Lemma extract_msgdata_part_ok (md : Octstr) (s : list Z) (split_chars : option Octstr) (max : Z) :
  reprm md s -> split_chars_ok split_chars -> 0 <= max <= MAX_BLOCK ->
  returns (extract_msgdata_part (Some md) split_chars max) (fun '(part, md') => exists t r,
    s = t ++ r /\ reprm part t /\ reprm md' r /\ zlen t <= max /\
    (0 < max -> s <> [] -> t <> []) /\ (zlen s <= max -> r = [])).
Proof.
  intros Hm Hsc Hmax. unfold extract_msgdata_part.
  rewrite (content_len (Some md) s Hm). bind_red.
  assert (forall len, 0 <= len <= max -> (0 < max -> 0 < len) -> (zlen s <= max -> len = max) ->
    returns (part ← octstr_copy (Some md) 0 len; md ← octstr_delete md 0 len; Ok (part, md))
      (fun '(part, md') => exists t r,
        s = t ++ r /\ reprm part t /\ reprm md' r /\ zlen t <= max /\
        (0 < max -> s <> [] -> t <> []) /\ (zlen s <= max -> r = []))) as Hcut.
  { intros len Hlen Hpos Hall. apply returns_bind.
    apply (returns_mono _ _ _ (octstr_copy_ok md s 0 len (proj1 Hm) ltac:(done) ltac:(lia))).
    intros part Hp. apply returns_bind.
    apply (returns_mono _ _ _ (octstr_delete_ok md s 0 len Hm ltac:(done) ltac:(lia) ltac:(long_lia))).
    intros md' Hmd'. exists (take (Z.to_nat len) s), (drop (Z.to_nat len) s).
    rewrite slice_0 in Hp. rewrite take_drop. split_and!; [done|done| |list_lia| |].
    - by unfold cut in Hmd'.
    - intros Hx Hs Ht. apply (f_equal length) in Ht. rewrite length_take in Ht. simpl in Ht.
      destruct s; [done|]. simpl in Ht. lia.
    - intros Hs. rewrite Hall by done. by rewrite drop_ge by list_lia. }
  destruct split_chars as [sc|]; [|bind_red; by apply Hcut; lia].
  destruct Hsc as [cs Hcs]. destruct (Z.ltb_spec max (zlen s)); [|bind_red; by apply Hcut; lia].
  pose proof (find_split_ok md sc s cs (Z.to_nat max) (proj1 Hm) Hcs ltac:(list_lia)) as F.
  apply returns_iff in F as (r & -> & Hr). bind_red.
  apply Hcut; destruct r; simpl in *; lia.
Qed.

(** Two fields of a copy. *)
Lemma copy_fields (p p' : sms) :
  Forall2 copy_of (sms_values p) (sms_values p') ->
  (forall u, content (sms_udhdata p) u -> content (sms_udhdata p') u) /\
  (forall u, content (sms_msgdata p) u -> content (sms_msgdata p') u) /\
  (sms_msgdata p = None <-> sms_msgdata p' = None) /\
  sms_coding p' = sms_coding p /\ sms_dlr_mask p' = sms_dlr_mask p.
Proof.
  intros HF. rewrite Forall2_lookup in HF.
  pose proof (HF 2%nat) as H2. pose proof (HF 3%nat) as H3.
  pose proof (HF 14%nat) as H14. pose proof (HF 18%nat) as H18. simpl in *.
  inversion H2 as [? ? C2|]; inversion H3 as [? ? C3|]; inversion H14 as [? ? C14|];
    inversion H18 as [? ? C18|]; subst.
  inversion C2; inversion C3; inversion C14; inversion C18; subst. done.
Qed.

(** ** Splitting 8-bit and UCS-2 messages *)

Section split_binary.
Variables (orig : Msg) (header footer suffix split_chars : option Octstr) (h f x u : list Z).
Variables (M max_messages : Z) (ids : Z -> list Z).
Hypothesis Hvalid : msg_valid orig.
Hypothesis Hcoding : sms_coding (m_sms orig) = DC_8BIT \/ sms_coding (m_sms orig) = DC_UCS2.
Hypothesis Hh : content header h.
Hypothesis Hf : content footer f.
Hypothesis Hx : content suffix x.
Hypothesis Hsc : split_chars_ok split_chars.
Hypothesis Hu : content (sms_udhdata (m_sms orig)) u.
Hypothesis HM : zlen x < M <= MAX_BLOCK.

(** What is left to send is [s]. *)
Definition leaves (temp : Msg) (s : list Z) : Prop :=
  sms_coding (m_sms temp) = sms_coding (m_sms orig) /\
  exists md, sms_msgdata (m_sms temp) = Some md /\ reprm md s.

(** What comes after the footer of a part: the suffix, unless the part is the last. *)
Definition tail_of (last : bool) : list Z := if last then [] else x.

(** Part number [msgno], with the piece [t] of the text. *)
Definition is_part (msgno : Z) (last : bool) (part : Msg) (t : list Z) : Prop :=
  zlen t <= M - zlen x /\ content (sms_msgdata (m_sms part)) (h ++ t ++ f ++ tail_of last) /\
  content (sms_udhdata (m_sms part)) u /\ m_type part = m_type orig /\
  sms_dlr_mask (m_sms part) =
    (if (1 <? msgno) && DLR_IS_ENABLED (sms_dlr_mask (m_sms orig)) then 0
     else sms_dlr_mask (m_sms orig)).

Lemma add_around (md : Octstr) (t : list Z) :
  reprm md t ->
  returns (md ← match header with Some _ => octstr_insert md header 0 | None => Ok md end;
           md ← match footer with Some _ => octstr_append md footer | None => Ok md end;
           Ok md) (fun md' => reprm md' (h ++ t ++ f)).
Proof.
  intros Hmd. apply returns_bind.
  apply (returns_mono _ (fun md' => reprm md' (h ++ t))).
  { destruct header as [oh|]; simpl in Hh; [|by rewrite Hh].
    pose proof (octstr_insert_ok md oh t h 0 Hmd (proj1 Hh)) as P.
    unfold splice in P. simpl in P. rewrite drop_0 in P. apply P. pose proof (zlen_nonneg t). lia. }
  intros md1 H1. apply returns_bind.
  destruct footer as [fo|]; simpl in Hf.
  - apply (returns_mono _ _ _ (octstr_append_ok md1 fo _ f H1 (proj1 Hf))).
    intros md2. by rewrite <- app_assoc.
  - simpl. by rewrite Hf, app_nil_r.
Qed.

Lemma add_suffix (md : Octstr) (t : list Z) (last : bool) : reprm md t ->
  returns (if negb last then octstr_append md suffix else Ok md) (fun md' => reprm md' (t ++ tail_of last)).
Proof.
  intros Hmd. destruct last; cbn; [by rewrite app_nil_r|]. destruct suffix as [o|]; simpl in Hx; [by apply octstr_append_ok, Hx|].
  by rewrite Hx, app_nil_r.
Qed.

Lemma split_part_ok (temp : Msg) (s : list Z) (msgno : Z) :
  leaves temp s ->
  returns (split_part orig temp header footer suffix split_chars M (zlen x) msgno max_messages (ids msgno))
    (fun '(last, part, temp') => exists t r,
      s = t ++ r /\ is_part msgno last part t /\ leaves temp' r /\ (s <> [] -> t <> []) /\
      last = (zlen s <=? M) || (msgno =? max_messages) /\ (zlen s <= M - zlen x -> r = [])).
Proof.
  intros (Hc & md & Emd & Hmd). unfold split_part. apply returns_bind.
  apply (returns_mono _ _ _ (msg_duplicate_ok _ _ orig Hvalid)). intros part [Ht Hcopy].
  destruct (copy_fields _ _ Hcopy) as (Cu & _ & _ & _ & Cm).
  unfold sms_msgdata_len. rewrite Emd, Hc.
  assert ((sms_coding (m_sms orig) =? DC_7BIT) = false) as -> by (destruct Hcoding as [-> | ->]; done).
  rewrite (content_len (Some md) s Hmd). bind_red.
  unfold extract_msgdata_part_by_coding. rewrite Emd, Hc.
  assert ((sms_coding (m_sms orig) =? DC_8BIT) || (sms_coding (m_sms orig) =? DC_UCS2) = true) as ->
    by (destruct Hcoding as [-> | ->]; done).
  pose proof (zlen_nonneg x). pose proof (extract_msgdata_part_ok md s split_chars (M - zlen x) Hmd Hsc ltac:(lia)) as X.
  apply returns_iff in X as ([pt md'] & -> & t & r & Es & Hpt & Hmd' & Hlen & Hne & Hall). bind_red. cbn [fst snd].
  pose proof (add_around pt t Hpt) as X.
  apply returns_iff in X as (md2 & X & Hmd2). apply res_bind_ok in X as (md1 & -> & X). bind_red.
  apply res_bind_ok in X as (md3 & -> & [= ->]). bind_red.
  destruct (proj1 (returns_iff _ _) (add_suffix md2 (h ++ t ++ f) ((zlen s <=? M) || (msgno =? max_messages)) Hmd2)) as (md4 & -> & Hmd4).
  rewrite <- !app_assoc in Hmd4.
  bind_red. simpl. exists t, r. split_and!; try done; [|split; [done|by exists md']|apply Hne; lia].
  unfold is_part. destruct (_ || _), (_ && _) eqn:Ed; simpl; rewrite Cm in Ed; rewrite ?Ed;
    split_and!; auto.
Qed.

(** The numbered parts with their pieces. *)
Inductive is_parts : Z -> list Msg -> list (list Z) -> Prop :=
| is_parts_nil n : is_parts n [] []
| is_parts_cons n m ms t ts : is_part n (bool_decide (ms = [])) m t -> is_parts (n + 1) ms ts -> is_parts n (m :: ms) (t :: ts).

(** What may be left of the text after the last part: nothing, unless there is a
    suffix; then less than a part holds. *)
Definition left_out (rest : list Z) : Prop := (x = [] -> rest = []) /\ zlen rest <= M.

Lemma split_loop_ok (fuel : nat) : forall (temp : Msg) (s : list Z) (l : List Msg) (parts : list Msg),
  leaves temp s -> lrepr l parts -> (length s < fuel)%nat ->
  returns (split_loop orig temp header footer suffix split_chars M (zlen x) (zlen parts) max_messages ids l fuel)
    (fun '(total, l') => exists parts' pieces rest,
      lrepr l' (parts ++ parts') /\ total = zlen (parts ++ parts') /\ s = concat pieces ++ rest /\
      (left_out rest \/ total = max_messages) /\ (1 <= length parts')%nat /\
      (zlen s <= M -> length parts' = 1%nat) /\ is_parts (zlen parts + 1) parts' pieces).
Proof.
  induction fuel as [|fuel IH]; intros temp s l parts Ht Hl Hfuel; [lia|]. cbn [split_loop].
  pose proof (split_part_ok temp s (zlen parts + 1) Ht) as X.
  apply returns_iff in X as ([[last part] temp'] & -> & t & r & Es & Hp & Ht' & Hne & -> & Hall).
  bind_red. apply returns_bind, (returns_mono _ _ _ (gwlist_append_ok l parts part Hl)).
  intros l' (Hl' & _). assert (zlen (parts ++ [part]) = zlen parts + 1) as El by list_lia.
  destruct (_ || _) eqn:Elast; simpl.
  - exists [part], [t], r. simpl. rewrite app_nil_r. split_and!; [done|done|done| |lia|done|].
    + apply orb_prop in Elast as [E|E]; [left|right; lia]. split; [intros Ex; apply Hall; assert (zlen x = 0) by (by rewrite Ex); lia|].
      rewrite Es in E. pose proof (zlen_nonneg t). list_lia.
    + apply is_parts_cons; [done|apply is_parts_nil].
  - apply orb_false_iff in Elast as [E1 E2]. pose proof (zlen_nonneg x).
    assert (length r < fuel)%nat as Hr.
    { assert (s <> []) as Hs by (intros ->; change (zlen []) with 0 in E1; lia).
      specialize (Hne Hs). subst s. destruct t; [done|]. rewrite length_app in Hfuel. simpl in Hfuel. lia. }
    rewrite <- El. apply (returns_mono _ _ _ (IH temp' r l' _ Ht' Hl' Hr)).
    intros [total l''] (parts' & pieces & rest & H1 & H2 & H3 & H4 & H5 & _ & H6).
    exists (part :: parts'), (t :: pieces), rest.
    replace (parts ++ part :: parts') with ((parts ++ [part]) ++ parts') by (by rewrite <- app_assoc).
    split_and!; [done|done| |done|simpl; lia|lia|].
    + rewrite Es, H3. simpl. by rewrite app_assoc.
    + constructor; [|done]. rewrite bool_decide_false by (intros ->; cbn in H5; lia). rewrite El. exact Hp.
Qed.
Lemma is_parts_lookup (n : Z) (ms : list Msg) (ts : list (list Z)) (i : nat) (m : Msg) :
  is_parts n ms ts -> ms !! i = Some m ->
  exists t, ts !! i = Some t /\ is_part (n + Z.of_nat i) (S i =? length ms)%nat m t.
Proof.
  intros HP. revert i. induction HP as [n|n m0 ms t ts Hp HP IH]; intros [|i] Hi; try done.
  - exists t. simpl in *. simplify_eq. rewrite Z.add_0_r. split; [done|]. by destruct ms.
  - destruct (IH i Hi) as (t' & Ht & Hp'). exists t'. split; [done|].
    by replace (n + Z.of_nat (S i)) with (n + 1 + Z.of_nat i) by lia.
Qed.

Lemma is_parts_udh (n : Z) (ms : list Msg) (ts : list (list Z)) :
  is_parts n ms ts -> Forall (fun m => content (sms_udhdata (m_sms m)) u) ms /\
  length ms = length ts.
Proof.
  induction 1 as [n|n m ms t ts Hp HP [IH1 IH2]]; [done|]. simpl. split; [|lia].
  constructor; [|done]. apply Hp.
Qed.
End split_binary.


(** ** The headers of the parts *)

Definition catenation_udh (u : list Z) (seq total i : Z) : list Z :=
  let v := (if zlen u =? 0 then [CATENATE_UDH_LEN] else u) ++
           [0; 3; seq mod 256; total mod 256; i mod 256] in
  <[0%nat := (zlen v - 1) mod 256]> v.

Lemma format_append_ok (os : Octstr) (s : list Z) (c0 c1 c2 c3 : Z) :
  reprm os s ->
  returns (format_append_c3ccc os c0 c1 c2 c3)
    (fun o => reprm o (s ++ [c0 mod 256; 3; c1 mod 256; c2 mod 256; c3 mod 256])).
Proof.
  intros Ho. unfold format_append_c3ccc.
  assert (forall c, returns (octstr_create_from_data [c mod 256] 0 1) (fun o => reprm o [c mod 256])) as Hc.
  { intros c. apply (octstr_create_from_data_ok [c mod 256] 0 1); [done..|].
    by apply Forall_cons_2; [apply octet_mod|apply Forall_nil_2]. }
  apply returns_bind, (returns_mono _ _ _ (octstr_create_ok [] (Forall_nil_2 _))). intros t0 H0.
  apply returns_bind, (returns_mono _ _ _ (Hc c0)). intros n0 [N0 _].
  apply returns_bind, (returns_mono _ _ _ (octstr_append_ok t0 n0 _ _ H0 N0)). intros t1 H1.
  apply returns_bind.
  apply (returns_mono _ _ _ (octstr_append_data_ok t1 _ [3] 1 H1 ltac:(done) ltac:(octets_tac))). intros t2 H2.
  apply returns_bind, (returns_mono _ _ _ (Hc c1)). intros n1 [N1 _].
  apply returns_bind, (returns_mono _ _ _ (octstr_append_ok t2 n1 _ _ H2 N1)). intros t3 H3.
  apply returns_bind, (returns_mono _ _ _ (Hc c2)). intros n2 [N2 _].
  apply returns_bind, (returns_mono _ _ _ (octstr_append_ok t3 n2 _ _ H3 N2)). intros t4 H4.
  apply returns_bind, (returns_mono _ _ _ (Hc c3)). intros n3 [N3 _].
  apply returns_bind, (returns_mono _ _ _ (octstr_append_ok t4 n3 _ _ H4 N3)). intros t5 [H5 _].
  apply (returns_mono _ _ _ (octstr_append_ok os t5 s _ Ho H5)). done.
Qed.

Lemma prepend_catenation_udh_ok (p : sms) (u : list Z) (i total seq : Z) :
  content (sms_udhdata p) u ->
  returns (prepend_catenation_udh p i total seq) (fun p' =>
    content (sms_udhdata p') (catenation_udh u seq total i) /\
    sms_msgdata p' = sms_msgdata p /\ sms_dlr_mask p' = sms_dlr_mask p /\
    sms_msg_left p' = if i <? total then total - i else 0).
Proof.
  intros Hu. unfold prepend_catenation_udh. apply returns_bind.
  apply (returns_mono _ (fun o => reprm o u)).
  { destruct (sms_udhdata p) as [o|]; simpl in Hu; [done|]. subst u.
    apply octstr_create_ok, Forall_nil_2. }
  intros o Ho. rewrite (content_len (Some o) u Ho). bind_red. apply returns_bind.
  set (v := if zlen u =? 0 then [CATENATE_UDH_LEN] else u).
  apply (returns_mono _ (fun o => reprm o v)).
  { unfold v. destruct (Z.eqb_spec (zlen u) 0) as [E|]; [|done]. apply zlen_0_inv in E as ->.
    by apply (octstr_append_char_ok o [] CATENATE_UDH_LEN). }
  intros o1 H1. apply returns_bind, (returns_mono _ _ _ (format_append_ok o1 v 0 seq total i H1)).
  intros o2 H2. change (0 mod 256) with 0 in H2. rewrite (content_len (Some o2) _ H2). bind_red.
  apply returns_bind. apply (returns_mono _ _ _ (octstr_set_char_ok o2 _ 0 _ H2 ltac:(done))).
  intros o3 H3. simpl. split_and!; done.
Qed.

(** [m'] is [m] with the header of part [i]. *)
Definition catenated (u : list Z) (seq total i : Z) (m m' : Msg) : Prop :=
  content (sms_udhdata (m_sms m')) (catenation_udh u seq total i) /\
  sms_msgdata (m_sms m') = sms_msgdata (m_sms m) /\ m_type m' = m_type m /\
  sms_dlr_mask (m_sms m') = sms_dlr_mask (m_sms m) /\
  sms_msg_left (m_sms m') = if i <? total then total - i else 0.

Inductive all_catenated (u : list Z) (seq total : Z) : Z -> list Msg -> list Msg -> Prop :=
| all_cat_nil i : all_catenated u seq total i [] []
| all_cat_cons i m ms m' ms' :
    catenated u seq total i m m' -> all_catenated u seq total (i + 1) ms ms' ->
    all_catenated u seq total i (m :: ms) (m' :: ms').

Lemma catenate_loop_ok (u : list Z) (total seq : Z) (ms : list Msg) :
  Forall (fun m => content (sms_udhdata (m_sms m)) u) ms ->
  forall (l : List Msg) (pre : list Msg), lrepr l (pre ++ ms) ->
  returns (catenate_loop l (zlen pre + 1) total seq (length ms)) (fun l' => exists ms',
    lrepr l' (pre ++ ms') /\ all_catenated u seq total (zlen pre + 1) ms ms').
Proof.
  induction 1 as [|m ms Hm Hms IH]; intros l pre Hl; simpl.
  { exists []. split; [done|constructor]. }
  pose proof (zlen_nonneg pre).
  assert (zlen pre + 1 - 1 = Z.of_nat (length pre)) as Ei by list_lia. rewrite Ei.
  assert (gwlist_get l (Z.of_nat (length pre)) = Ok m) as ->.
  { unfold gwlist_get. rewrite (lr_len _ _ Hl).
    rewrite (proj2 (Z.leb_le 0 _)), (proj2 (Z.ltb_lt (Z.of_nat (length pre)) _)) by list_lia.
    bind_red. simpl. apply (GET_ok l (pre ++ m :: ms)); [done|]. by apply list_lookup_middle. }
  bind_red. apply returns_bind.
  apply (returns_mono _ _ _ (prepend_catenation_udh_ok (m_sms m) u (zlen pre + 1) total seq Hm)).
  intros p (P1 & P2 & P3 & P4). apply returns_bind.
  eapply returns_mono; [apply (PUT_item_ok l (pre ++ m :: ms)); [done|list_lia]|].
  intros l' Hl'. rewrite insert_mid in Hl'.
  replace (zlen pre + 1) with (zlen (pre ++ [with_sms m p])) in * by list_lia.
  replace (pre ++ with_sms m p :: ms) with ((pre ++ [with_sms m p]) ++ ms) in Hl'
    by (by rewrite <- app_assoc).
  apply (returns_mono _ _ _ (IH l' _ Hl')). intros l'' (ms' & Hl'' & Hms').
  exists (with_sms m p :: ms'). split; [by rewrite <- app_assoc in Hl''|].
  constructor; [done|]. replace (zlen (pre ++ [with_sms m p]) + 1)
    with (zlen (pre ++ [with_sms m p]) + 1) by lia. done.
Qed.

Lemma all_catenated_lookup (u : list Z) (seq total n : Z) (ms ms' : list Msg) (i : nat) (m' : Msg) :
  all_catenated u seq total n ms ms' -> ms' !! i = Some m' ->
  exists m, ms !! i = Some m /\ catenated u seq total (n + Z.of_nat i) m m'.
Proof.
  intros HP. revert i. induction HP as [n|n m ms m0' ms' Hc HP IH]; intros [|i] Hi; try done.
  - exists m. simpl in *. simplify_eq. by rewrite Z.add_0_r.
  - destruct (IH i Hi) as (m1 & Hm & Hc'). exists m1. split; [done|].
    by replace (n + Z.of_nat (S i)) with (n + 1 + Z.of_nat i) by lia.
Qed.

Lemma all_catenated_length (u : list Z) (seq total n : Z) (ms ms' : list Msg) :
  all_catenated u seq total n ms ms' -> length ms' = length ms.
Proof. induction 1; simpl; lia. Qed.

Lemma zlen_catenation_udh (u : list Z) (seq total i : Z) :
  zlen (catenation_udh u seq total i) = (if zlen u =? 0 then 1 else zlen u) + CATENATE_UDH_LEN.
Proof.
  unfold catenation_udh, CATENATE_UDH_LEN. cbv zeta. unfold zlen at 1. rewrite length_insert, length_app.
  destruct (zlen u =? 0); list_lia.
Qed.

(** The room for text in a part of an 8-bit or UCS-2 message of [n] octets. *)
Definition split_room (n udh_len hf_len max_octets : Z) (catenate : bool) : Z :=
  let room := max_octets - udh_len - hf_len in
  if (room <? n) && catenate
  then max_octets - ((if udh_len =? 0 then 1 else udh_len) + CATENATE_UDH_LEN) - hf_len
  else room.

Lemma room_plain n u hf max_octets catenate piece : 0 <= u -> piece <= split_room n u hf max_octets catenate -> u + (hf + piece) <= max_octets.
Proof. intros Hu Hp. unfold split_room, CATENATE_UDH_LEN in Hp. cbv zeta in Hp. repeat case_match; lia. Qed.

(** With several parts and catenation, the header element has room too. *)
Lemma room_catenated n u hf max_octets piece : n > split_room n u hf max_octets true -> piece <= split_room n u hf max_octets true ->
  (if u =? 0 then 1 else u) + CATENATE_UDH_LEN + (hf + piece) <= max_octets.
Proof. intros Hn Hp. unfold split_room in *. cbv zeta in *. destruct (_ <? n) eqn:E; cbn [andb] in *; lia. Qed.

Lemma split_room_small n u hf max_octets catenate : 0 <= u -> 0 <= hf -> max_octets < 2 ^ 31 -> split_room n u hf max_octets catenate <= MAX_BLOCK.
Proof. intros Hu Hhf Hm. pose proof MAX_BLOCK_large. unfold split_room, CATENATE_UDH_LEN. cbv zeta. repeat case_match; lia. Qed.

Lemma tail_of_length (x : list Z) last : zlen (tail_of x last) <= zlen x.
Proof. destruct last; cbn; [list_lia|done]. Qed.

Lemma duplicate_leaves id1 id2 orig md s : msg_valid orig -> sms_msgdata (m_sms orig) = Some md -> reprm md s ->
  returns (msg_duplicate id1 id2 orig) (fun temp => leaves orig temp s).
Proof.
  intros Hv Emd Hmd. apply (returns_mono _ _ _ (msg_duplicate_ok id1 id2 orig Hv)). intros temp [_ Hcopy].
  destruct (copy_fields _ _ Hcopy) as (_ & Cd & Cn & Cc & _). split; [done|]. specialize (Cd s). rewrite Emd in Cd, Cn.
  destruct (sms_msgdata (m_sms temp)) as [md'|]; [|naive_solver]. exists md'. split; [done|]. by apply Cd.
Qed.

(** ** Properties *)

(** Decoding the data coding scheme made from the fields of a message without
    a waiting indication gives the fields back: the coding always; the class in
    the general scheme, where it may be absent, and in the alternative scheme,
    where an absent class is sent as class 1; and the compression flag in the
    general scheme, which is the one used for compressed text and for UCS-2.  The
    value is an octet. *)
Theorem dcs_roundtrip (p q : sms) (mode : Z) :
  0 <= sms_coding p <= 2 -> -1 <= sms_mclass p <= 3 -> sms_mwi p = UNDEF ->
  returns (fields_to_dcs p mode) (fun '(dcs, p') =>
    p' = p /\ octet dcs /\
    let '(r, q') := dcs_to_fields q dcs in
    r = 1 /\ sms_coding q' = sms_coding p /\
    if uses_alt p mode then
      sms_alt_dcs q' = 1 /\ sms_mclass q' = (if sms_mclass p =? UNDEF then 1 else sms_mclass p)
    else
      sms_alt_dcs q' = 0 /\ sms_mclass q' = sms_mclass p /\
      sms_compress q' = (if sms_compress p =? COMPRESS_ON then 1 else 0)).
Proof.
  intros Hc Hm Hw. rewrite fields_to_dcs_coded by done. simpl. split; [done|].
  assert (uses_alt p mode = true -> sms_coding p <> 2) as Ha.
  { unfold uses_alt, DC_UCS2. lia. }
  generalize dependent (uses_alt p mode). intros alt Ha.
  generalize dependent (sms_compress p =? COMPRESS_ON). intros comp.
  generalize dependent (sms_coding p). generalize dependent (sms_mclass p).
  intros mc Hmc cd Hcd Ha.
  assert (mc = -1 \/ mc = 0 \/ mc = 1 \/ mc = 2 \/ mc = 3) as [->|[->|[->|[->| ->]]]] by lia;
  (assert (cd = 0 \/ cd = 1 \/ cd = 2) as [->|[->| ->]] by lia);
  destruct alt, comp; try (by destruct Ha); vm_compute; done.
Qed.


(** A message for the witnesses: twelve octets of 8-bit text. *)
Definition sample_text : list Z := [1; 2; 3; 4; 5; 6; 7; 8; 9; 10; 11; 12].

Definition sample_sms : Msg :=
  mkMsg T_SMS (mkHeartbeat 0) (mkAdmin 0 None 0)
    (mkSms None None None (Some (mk_os sample_text)) 0 None None None None None sample_uuid
       0 (-1) (-1) DC_8BIT (-1) (-1) (-1) 1 None 0 0 0 None None None 0 0 0 0 0 None)
    (mkAck 0 0 sample_uuid) (mkWdp None 0 None 0 None).

Lemma sample_sms_valid : msg_valid sample_sms.
Proof.
  pose proof sample_uuid_ok.
  assert (valid_value (VStr (Some (mk_os sample_text)))) by
    (apply (vv_str _ sample_text); unfold sample_text; mk_os).
  assert (valid_value (VStr None)) by (by apply (vv_str _ [])).
  unfold msg_valid, all_values, sample_sms. cbn.
  repeat (apply conj || apply Forall_cons_2 || apply Forall_nil_2 || apply vv_int || apply vv_ptr ||
          assumption || (apply vv_uuid; assumption)).
Qed.


(** The last part of a message without header and footer. *)
Lemma split_part_last (orig temp : Msg) (suffix : option Octstr) (s : list Z)
    (M k msgno max_messages : Z) (id : list Z) :
  msg_valid orig ->
  (sms_coding (m_sms orig) =? DC_8BIT) || (sms_coding (m_sms orig) =? DC_UCS2) = true ->
  (sms_coding (m_sms orig) =? DC_7BIT) = false ->
  sms_coding (m_sms temp) = sms_coding (m_sms orig) ->
  match sms_msgdata (m_sms temp) with Some md => reprm md s | None => False end ->
  zlen s <= M -> 0 <= M - k <= MAX_BLOCK ->
  returns (split_part orig temp None None suffix None M k msgno max_messages id)
    (fun '(last, part, _) => last = true /\
      content (sms_msgdata (m_sms part)) (take (Z.to_nat (M - k)) s)).
Proof.
  intros Hv E8 E7 Hc Hmd Hs Hk. destruct (sms_msgdata (m_sms temp)) as [md|] eqn:Emd; [|done].
  unfold split_part. apply returns_bind.
  apply (returns_mono _ _ _ (msg_duplicate_ok _ _ orig Hv)). intros part _.
  unfold sms_msgdata_len, extract_msgdata_part_by_coding. rewrite Emd, Hc, E7, E8.
  rewrite (content_len (Some md) s Hmd). bind_red.
  rewrite (proj2 (Z.leb_le (zlen s) M)) by done. cbn [orb negb].
  unfold extract_msgdata_part. rewrite (content_len (Some md) s Hmd). bind_red.
  pose proof (octstr_copy_ok md s 0 (M - k) (proj1 Hmd) ltac:(done) ltac:(lia)) as P.
  apply returns_iff in P as (pt & -> & Hp). bind_red.
  pose proof (octstr_delete_ok md s 0 (M - k) Hmd ltac:(done) ltac:(lia) ltac:(long_lia)) as P.
  apply returns_iff in P as (md' & -> & _). bind_red. rewrite slice_0 in Hp. simpl. done.
Qed.

(** A message that fits in one part loses its last octets when a suffix for
    the parts before the last is configured: the room for the suffix is taken from
    the last part too, although it gets no suffix, and what does not fit is
    dropped. *)
Theorem sms_split_suffix_cuts_last (orig : Msg) (md : Octstr) (suffix : Octstr) (s x : list Z)
    (catenate : bool) (seq max_messages max_octets : Z) (ids : Z -> list Z) (fuel : nat) :
  msg_valid orig ->
  sms_coding (m_sms orig) = DC_8BIT \/ sms_coding (m_sms orig) = DC_UCS2 ->
  sms_msgdata (m_sms orig) = Some md -> reprm md s -> reprm suffix x ->
  content (sms_udhdata (m_sms orig)) [] -> 0 < zlen s <= max_octets -> zlen x <= max_octets < 2 ^ 31 ->
  returns (sms_split orig None None (Some suffix) None catenate seq max_messages max_octets ids (S fuel))
    (fun l => exists part, lrepr l [part] /\
      content (sms_msgdata (m_sms part)) (take (Z.to_nat (max_octets - zlen x)) s)).
Proof.
  intros Hv Hc Emd Hmd Hx Hu Hs Hxl. unfold sms_split. cbn [octstr_len]. bind_red.
  rewrite (content_len _ [] Hu). change (zlen []) with 0.
  rewrite (repr_seems_valid _ _ (proj1 Hx)), (repr_len _ _ (proj1 Hx)). bind_red.
  assert ((sms_coding (m_sms orig) =? DC_7BIT) = false) as E7 by (destruct Hc as [-> | ->]; done).
  assert ((sms_coding (m_sms orig) =? DC_8BIT) || (sms_coding (m_sms orig) =? DC_UCS2) = true) as E8
    by (destruct Hc as [-> | ->]; done).
  unfold sms_msgdata_len at 1, part_len. rewrite Emd, E7, E8.
  rewrite (content_len (Some md) s Hmd). bind_red. cbv zeta.
  rewrite (proj2 (Z.ltb_ge (max_octets - 0 - (0 + 0)) (zlen s))) by lia. cbn [andb].
  rewrite (proj2 (Z.ltb_lt 0 (max_octets - 0 - (0 + 0)))) by lia. apply returns_bind.
  apply (returns_mono _ _ _ (msg_duplicate_ok _ _ orig Hv)). intros temp [_ Hcopy].
  destruct (copy_fields _ _ Hcopy) as (_ & Cd & Cn & Cc & _).
  specialize (Cd s). rewrite Emd in Cd, Cn.
  destruct (sms_msgdata (m_sms temp)) as [md'|] eqn:Et; [|naive_solver].
  cbn [split_loop].
  pose proof (split_part_last orig temp (Some suffix) s (max_octets - 0 - (0 + 0)) (zlen x) (0 + 1)
    max_messages (ids (0 + 1)) Hv E8 E7 Cc) as P. rewrite Et in P.
  specialize (P (Cd Hmd) ltac:(lia) ltac:(long_lia)).
  apply returns_iff in P as ([[last part] temp'] & -> & -> & Hp). bind_red.
  replace (max_octets - 0 - (0 + 0) - zlen x) with (max_octets - zlen x) in Hp by lia.
  pose proof (gwlist_append_ok gwlist_create [] part gwlist_create_ok) as P.
  apply returns_iff in P as (l & -> & Hl & _). bind_red.
  change (1 <? 0 + 1) with false. rewrite andb_false_r. simpl. by exists part.
Qed.

Lemma sms_split_suffix_cuts_last_witness :
  returns (sms_split sample_sms None None (Some (mk_os [46; 46])) None true 0 3 12
             (fun _ => sample_uuid) 1)
    (fun l => exists part, lrepr l [part] /\
      content (sms_msgdata (m_sms part)) [1; 2; 3; 4; 5; 6; 7; 8; 9; 10]).
Proof.
  apply (sms_split_suffix_cuts_last sample_sms (mk_os sample_text) (mk_os [46; 46]) sample_text [46; 46]
    true 0 3 12 (fun _ => sample_uuid) 0).
  - apply sample_sms_valid.
  - left. reflexivity.
  - reflexivity.
  - unfold sample_text. mk_os.
  - mk_os.
  - reflexivity.
  - vm_compute. split; [reflexivity|discriminate].
  - split; [vm_compute; discriminate|lia].
Defined.

(** A message waiting indication survives encoding and decoding, but the
    coding does not: the text of an indication is always decoded as 7-bit, also
    when it was encoded as UCS-2, because the test for UCS-2 asks for both bits 5
    and 4, which are taken by the class scheme. *)
Theorem dcs_mwi_loses_ucs2 (p q : sms) (s : list Z) (mode : Z) :
  0 <= sms_coding p <= 2 -> 0 <= sms_mwi p <= 7 -> content (sms_msgdata p) s ->
  returns (fields_to_dcs p mode) (fun '(dcs, p') =>
    p' = p /\ octet dcs /\
    let '(r, q') := dcs_to_fields q dcs in
    r = 1 /\ sms_mwi q' = sms_mwi p /\ sms_alt_dcs q' = 0 /\ sms_coding q' = DC_7BIT).
Proof.
  intros Hc Hw Hs. unfold fields_to_dcs, UNDEF, MSG_PARAM_UNDEFINED.
  assert ((sms_coding p =? -1) = false) as Ec by lia. rewrite Ec. bind_red.
  rewrite (proj2 (Z.eqb_neq (sms_mwi p) (-1))) by lia. cbn [negb].
  rewrite (content_len _ s Hs). clear Hs.
  generalize dependent (sms_coding p). generalize dependent (sms_mwi p). intros w Hw cd Hcd _.
  destruct q as [q1 q2 q3 q4 q5 q6 q7 q8 q9 q10 q11 q12 q13 q14 q15 q16 q17 q18 q19 q20 q21 q22 q23 q24 q25 q26 q27 q28 q29 q30 q31 q32].
  assert (w = 0 \/ w = 1 \/ w = 2 \/ w = 3 \/ w = 4 \/ w = 5 \/ w = 6 \/ w = 7)
    as [->|[->|[->|[->|[->|[->|[->| ->]]]]]]] by lia;
  (assert (cd = 0 \/ cd = 1 \/ cd = 2) as [->|[->| ->]] by lia);
  cbn [negb Z.eqb mbind res_bind Z.land]; destruct (zlen s =? 0); vm_compute; done.
Qed.

Lemma dcs_mwi_loses_ucs2_witness :
  returns (fields_to_dcs (set_mwi (set_coding (m_sms sample_sms) DC_UCS2) 1) 0) (fun '(dcs, p') =>
    p' = set_mwi (set_coding (m_sms sample_sms) DC_UCS2) 1 /\ octet dcs /\
    let '(r, q') := dcs_to_fields (m_sms sample_sms) dcs in
    r = 1 /\ sms_mwi q' = 1 /\ sms_alt_dcs q' = 0 /\ sms_coding q' = DC_7BIT).
Proof.
  apply (dcs_mwi_loses_ucs2 (set_mwi (set_coding (m_sms sample_sms) DC_UCS2) 1) (m_sms sample_sms)
    sample_text 0).
  - vm_compute. split; discriminate.
  - vm_compute. split; discriminate.
  - cbn. unfold sample_text. mk_os.
Defined.

Lemma dcs_roundtrip_witness :
  returns (fields_to_dcs (m_sms sample_sms) 1) (fun '(dcs, p') =>
    p' = m_sms sample_sms /\ octet dcs /\
    let '(r, q') := dcs_to_fields (m_sms sample_sms) dcs in
    r = 1 /\ sms_coding q' = DC_8BIT /\
    if uses_alt (m_sms sample_sms) 1 then sms_alt_dcs q' = 1 /\ sms_mclass q' = 1
    else
      sms_alt_dcs q' = 0 /\ sms_mclass q' = -1 /\
      sms_compress q' = (if sms_compress (m_sms sample_sms) =? COMPRESS_ON then 1 else 0)).
Proof.
  apply (dcs_roundtrip (m_sms sample_sms) (m_sms sample_sms) 1).
  - vm_compute. split; discriminate.
  - vm_compute. split; discriminate.
  - reflexivity.
Defined.

(** The order in which an SMS queue is served: a message with a higher
    priority leaves first; among equal priorities the one with the later time
    leaves first; among equal times the one inserted first.  For SMS messages
    [sms_priority_compare] computes this order and does not panic, and a queue
    with this order returns the messages in it. *)
Theorem sms_queue_order (ops : list (@pq_op Msg)) (m1 m2 : Msg) :
  m_type m1 = T_SMS -> m_type m2 = T_SMS ->
  sms_priority_compare m1 m2 = Ok (sms_order m1 m2) /\
  (0 < sms_order m1 m2 <->
     sms_priority (m_sms m2) < sms_priority (m_sms m1) \/
     sms_priority (m_sms m1) = sms_priority (m_sms m2) /\ sms_time (m_sms m2) < sms_time (m_sms m1)) /\
  (q ← gw_prioqueue_create; pq_run sms_order ops q) = Ok (spec_run sms_order ops []).
Proof.
  intros H1 H2. split_and!.
  - unfold sms_priority_compare. rewrite H1, H2. done.
  - unfold sms_order. repeat case_match; lia.
  - destruct (proj1 (returns_iff _ _) (pq_create_ok sms_order)) as (q & -> & Hq).
    bind_red. apply (pq_run_ok sms_order ops q [] Hq).
Qed.

Lemma sms_queue_order_witness :
  sms_priority_compare sample_sms sample_sms = Ok 0 /\
  (q ← gw_prioqueue_create; pq_run sms_order [PqInsert sample_sms; PqRemove; PqRemove] q)
    = Ok [Some sample_sms; None].
Proof.
  destruct (sms_queue_order [PqInsert sample_sms; PqRemove; PqRemove] sample_sms sample_sms eq_refl eq_refl)
    as (E1 & _ & E2).
  split; [exact E1|exact E2].
Defined.

(** [sms_swap] exchanges sender and receiver when both are set, and then
    swapping again restores the message; otherwise it changes nothing. *)
Theorem sms_swap_involutive (p : sms) :
  match sms_sender p, sms_receiver p with
  | Some a, Some b =>
      exists p', sms_swap p = (1, p') /\ sms_sender p' = Some b /\ sms_receiver p' = Some a /\
        sms_swap p' = (1, p)
  | _, _ => sms_swap p = (0, p)
  end.
Proof.
  destruct p as [[a|] [b|]]; cbn [sms_sender sms_receiver]; try done. eexists. split; [done|]. done.
Qed.
