(* ===== verification/Route.v ===== *)
(** * Routing to the SMS centres

    Models how the bearerbox chooses a connection for a message: [smscconn_usable] and
    [smscconn_send] of src/gw/smscconn.c and [smsc2_rout] of src/gw/bb_smscconn.c.
    Regular expressions are the class [Regex], since [regexec] belongs to the C
    library.  The drivers of the centres run in threads of their own: the answer of a
    driver to a message, the clock and the random number are arguments, and a
    connection is a record of what the router reads of it.  What the router does to
    others is a list of events. *)

From stdpp Require Import list.
From S2P Require Import Prelude Octstr OctstrSearch OctstrCode OctstrParts Prefix GwList PrioQueue Uuid Msg Charset Sms Numhash.

Class Regex := {
  regex_t : Type;
  regexec : regex_t -> list Z -> Z
}.

(** ** Connections: src/gw/smscconn_p.h *)

Inductive smscconn_status :=
| SMSCCONN_CONNECTING
| SMSCCONN_ACTIVE
| SMSCCONN_ACTIVE_RECV
| SMSCCONN_RECONNECTING
| SMSCCONN_DISCONNECTED
| SMSCCONN_DEAD.

#[export] Instance smscconn_status_eq : EqDecision smscconn_status.
Proof. solve_decision. Defined.

Inductive smscconn_killed :=
| SMSCCONN_ALIVE
| SMSCCONN_KILLED_WRONG_PASSWORD
| SMSCCONN_KILLED_CANNOT_CONNECT
| SMSCCONN_KILLED_SHUTDOWN.

#[export] Instance smscconn_killed_eq : EqDecision smscconn_killed.
Proof. solve_decision. Defined.

(** [enum] of src/gw/bb_smscconn_cb.h. *)
Definition SMSCCONN_SUCCESS : Z := 0.
Definition SMSCCONN_QUEUED : Z := 1.
Definition SMSCCONN_FAILED_SHUTDOWN : Z := 2.
Definition SMSCCONN_FAILED_REJECTED : Z := 3.
Definition SMSCCONN_FAILED_MALFORMED : Z := 4.
Definition SMSCCONN_FAILED_TEMPORARILY : Z := 5.
Definition SMSCCONN_FAILED_DISCARDED : Z := 6.
Definition SMSCCONN_FAILED_QFULL : Z := 7.
Definition SMSCCONN_FAILED_EXPIRED : Z := 8.

(** [struct split_parts] of src/gw/msg.h. *)
Record split_parts := mkSplit {
  sp_orig : Msg;
  parts_left : Z;
  sp_status : Z;
  sp_smsc_conn : Z
}.

Section route.
Context `{!Regex}.

(** [sc_ptr] is the address of the structure, [sc_queued] what its function [queued]
    gives, where it has one. *)
Record SMSCConn := mkConn {
  sc_ptr : Z;
  sc_status : smscconn_status;
  sc_load : Z;
  sc_why_killed : smscconn_killed;
  sc_queued : option Z;
  sc_allowed_smsc_id : option (List Octstr);
  sc_denied_smsc_id : option (List Octstr);
  sc_preferred_smsc_id : option (List Octstr);
  sc_allowed_smsc_id_regex : option regex_t;
  sc_denied_smsc_id_regex : option regex_t;
  sc_preferred_smsc_id_regex : option regex_t;
  sc_allowed_prefix : option Octstr;
  sc_allowed_prefix_regex : option regex_t;
  sc_denied_prefix : option Octstr;
  sc_denied_prefix_regex : option regex_t;
  sc_preferred_prefix : option Octstr;
  sc_preferred_prefix_regex : option regex_t;
  sc_unified_prefix : option Octstr;
  sc_max_sms_octets : Z
}.

(** [gw_regex_match_pre] of src/gwlib/gw-regex.c; [regexec] on NULL is undefined. *)
Definition gw_regex_match_pre (re : regex_t) (os : option Octstr) : res Z :=
  match os with
  | None => Undef
  | Some os =>
      seems_valid os ≫= fun _ =>
      Ok (if regexec re (cstr (cstr_block os)) =? 0 then 1 else 0)
  end.

(** [a || b] and [a && b] of C, on conditions that are calls. *)
Definition or_else (a b : res bool) : res bool := x ← a; if x : bool then Ok true else b.
Definition and_also (a b : res bool) : res bool := x ← a; if x : bool then b else Ok false.

Definition list_has (l : List Octstr) (id : Octstr) : res bool :=
  r ← gwlist_search l (fun item => octstr_item_match item id);
  Ok (match r with Some _ => true | None => false end).

(** [does_prefix_match] asserts that there is a number. *)
Definition prefix_has (prefix : Octstr) (number : option Octstr) : res bool :=
  match number with
  | Some number => m ← does_prefix_match prefix number; Ok (m =? 1)
  | None => Panic
  end.

Definition regex_has (re : regex_t) (os : option Octstr) : res bool := m ← gw_regex_match_pre re os; Ok (m =? 1).

Definition negate (a : res bool) : res bool := x ← a; Ok (negb x).

Definition id_refused (conn : SMSCConn) (smsc_id : option Octstr) : res bool :=
  or_else
    (match sc_allowed_smsc_id conn with
     | Some l => match smsc_id with None => Ok true | Some id => negate (list_has l id) end
     | None => Ok false
     end)
    (match sc_denied_smsc_id conn, smsc_id with
     | Some l, Some id => list_has l id
     | _, _ => Ok false
     end).

Definition id_regex_refused (conn : SMSCConn) (smsc_id : option Octstr) : res bool :=
  match sc_allowed_smsc_id_regex conn with
  | Some re => match smsc_id with None => Ok true | Some _ => negate (regex_has re smsc_id) end
  | None =>
      match sc_denied_smsc_id_regex conn, smsc_id with
      | Some re, Some _ => regex_has re smsc_id
      | _, _ => Ok false
      end
  end.

Definition prefix_refused (conn : SMSCConn) (receiver : option Octstr) : res bool :=
  or_else (match sc_allowed_prefix conn, sc_denied_prefix conn with
           | Some a, None => negate (prefix_has a receiver)
           | _, _ => Ok false
           end)
  (or_else (match sc_allowed_prefix_regex conn, sc_denied_prefix_regex conn with
            | Some a, None => negate (regex_has a receiver)
            | _, _ => Ok false
            end)
  (or_else (match sc_denied_prefix conn, sc_allowed_prefix conn with
            | Some d, None => prefix_has d receiver
            | _, _ => Ok false
            end)
  (or_else (match sc_denied_prefix_regex conn, sc_allowed_prefix_regex conn with
            | Some d, None => regex_has d receiver
            | _, _ => Ok false
            end)
  (or_else (match sc_denied_prefix conn, sc_allowed_prefix conn with
            | Some d, Some a => and_also (negate (prefix_has a receiver)) (prefix_has d receiver)
            | _, _ => Ok false
            end)
           (match sc_allowed_prefix_regex conn, sc_denied_prefix_regex conn with
            | Some a, Some d => and_also (negate (regex_has a receiver)) (regex_has d receiver)
            | _, _ => Ok false
            end))))).

Definition is_preferred (conn : SMSCConn) (p : sms) : res bool :=
  or_else (match sc_preferred_smsc_id conn, sms_smsc_id p with
           | Some l, Some id => list_has l id
           | _, _ => Ok false
           end)
  (or_else (match sc_preferred_prefix conn with
            | Some x => prefix_has x (sms_receiver p)
            | None => Ok false
            end)
           (match sc_preferred_prefix_regex conn with
            | Some re => regex_has re (sms_receiver p)
            | None => Ok false
            end)).

(** Dead, receiving only, or told to die. *)
Definition unfit (conn : SMSCConn) : bool :=
  bool_decide (sc_status conn = SMSCCONN_DEAD) || bool_decide (sc_status conn = SMSCCONN_ACTIVE_RECV) ||
  negb (bool_decide (sc_why_killed conn = SMSCCONN_ALIVE)).

(** 1 for a preferred connection, 0 for another one that may be used, -1 for none. *)
Definition smscconn_usable (conn : SMSCConn) (msg : Msg) : res Z :=
  assert: m_type msg =? T_SMS;
  let p := m_sms msg in
  if unfit conn then Ok (-1)
  else
    refused ← or_else (id_refused conn (sms_smsc_id p))
                (or_else (id_regex_refused conn (sms_smsc_id p)) (prefix_refused conn (sms_receiver p)));
    if refused : bool then Ok (-1)
    else
      preferred ← is_preferred conn p;
      Ok (if preferred : bool then 1 else 0).

(** ** Handing a message to a connection *)

(** [normalize_number] of the receiver; a NULL is read as the text (null), and no list
    of prefixes that holds that is modelled. *)
Definition normalize_receiver (uf : option Octstr) (msg : Msg) : res Msg :=
  let dial := option_map (fun o => cstr (cstr_block o)) uf in
  match sms_receiver (m_sms msg) with
  | Some number =>
      '(_, number) ← normalize_number dial number;
      Ok (with_sms msg (set_receiver (m_sms msg) (Some number)))
  | None =>
      '(r, _) ← normalize_number dial (octstr_imm [40; 110; 117; 108; 108; 41]);
      if r =? 0 then Ok msg else Undef
  end.

(** The loop over the parts of a split message: the last result of the driver, the
    parts that it was given and the number of those it took. *)
Fixpoint send_parts (drv : Msg -> Z) (split : Z) (parts : list Msg) (ret : Z) (given : list Msg) (i : Z) : Z * list Msg * Z :=
  match parts with
  | [] => (ret, given, i)
  | msg :: parts =>
      let msg := with_sms msg (set_split_parts (m_sms msg) split) in
      let ret := drv msg in
      if ret <? 0 then (ret, given ++ [msg], i)
      else send_parts drv split parts ret (given ++ [msg]) (i + 1)
  end.

(** The items of a list, read one by one. *)
Fixpoint items {A} (l : List A) (i : Z) (n : nat) : res (list A) :=
  match n with
  | O => Ok []
  | S n => x ← gwlist_get l i; xs ← items l (i + 1) n; Ok (x :: xs)
  end.

(** [drv] is the driver's [send_msg]; [split] the address of a new [split_parts]
    structure.  The result, the message (whose receiver may have changed), what the
    driver was given, and the structure, if one is left. *)
Definition smscconn_send (drv : Msg -> Z) (split counter : Z) (ids : Z -> list Z) (id1 id2 : list Z) (fuel : nat)
    (conn : SMSCConn) (msg : Msg) : res (Z * Msg * list Msg * option split_parts) :=
  if bool_decide (sc_status conn = SMSCCONN_DEAD) || negb (bool_decide (sc_why_killed conn = SMSCCONN_ALIVE))
  then Ok (-1, msg, [], None)
  else if negb (sms_split_parts (m_sms msg) =? 0) then Ok (drv msg, msg, [msg], None)
  else
    msg ← normalize_receiver (sc_unified_prefix conn) msg;
    parts ← sms_split msg None None None None true (Z.land counter 255) 255 (sc_max_sms_octets conn) ids fuel;
    if gwlist_len (Some parts) =? 1 then Ok (drv msg, msg, [msg], None)
    else
      let parts_len := gwlist_len (Some parts) in
      orig ← msg_duplicate id1 id2 msg;
      ps ← items parts 0 (Z.to_nat parts_len);
      let '(ret, given, i) := send_parts drv split ps (-1) [] 0 in
      if (ret <? 0) && (0 <? parts_len) then
        Ok (ret, msg, given,
            if i =? 0 then None else Some (mkSplit orig (parts_len + - (parts_len - i)) SMSCCONN_FAILED_REJECTED (sc_ptr conn)))
      else Ok (ret, msg, given, Some (mkSplit orig parts_len SMSCCONN_SUCCESS (sc_ptr conn))).

(** ** [smsc2_rout] *)

Record router := mkRouter {
  smsc_list : List SMSCConn;
  outgoing_sms : List Msg;
  unified_prefix : option Octstr;
  white_list_sender : option Numhash;
  white_list_sender_regex : option regex_t;
  black_list_sender : option Numhash;
  black_list_sender_regex : option regex_t;
  white_list_receiver : option Numhash;
  white_list_receiver_regex : option regex_t;
  black_list_receiver : option Numhash;
  black_list_receiver_regex : option regex_t;
  max_outgoing_sms_qlength : Z;
  bb_shutdown : bool
}.

Definition set_outgoing (r : router) (q : List Msg) : router :=
  mkRouter (smsc_list r) q (unified_prefix r) (white_list_sender r) (white_list_sender_regex r) (black_list_sender r)
    (black_list_sender_regex r) (white_list_receiver r) (white_list_receiver_regex r) (black_list_receiver r)
    (black_list_receiver_regex r) (max_outgoing_sms_qlength r) (bb_shutdown r).

(** A copy of the message goes to [bb_smscconn_send_failed] with a reason, or the
    message to a connection (the parts that its driver was given, and the structure
    that the parts of a long message share). *)
Inductive route_event :=
| Failed (reason : Z) (msg : Msg)
| Given (conn : Z) (msgs : list Msg) (split : option split_parts).

(** Whether the lists refuse a message. *)
Definition on_list (l : option Numhash) (nro : option Octstr) (white : bool) : res bool :=
  match l with
  | None => Ok false
  | Some l => n ← numhash_find_number l nro; Ok (if white then n <? 1 else n =? 1)
  end.

Definition on_regex (re : option regex_t) (nro : option Octstr) (white : bool) : res bool :=
  match re with
  | None => Ok false
  | Some re => n ← gw_regex_match_pre re nro; Ok (if white then n =? 0 else negb (n =? 0))
  end.

Definition screened_out (r : router) (p : sms) : res bool :=
  or_else (on_list (white_list_sender r) (sms_sender p) true)
  (or_else (on_regex (white_list_sender_regex r) (sms_sender p) true)
  (or_else (on_list (black_list_sender r) (sms_sender p) false)
  (or_else (on_regex (black_list_sender_regex r) (sms_sender p) false)
  (or_else (on_list (white_list_receiver r) (sms_receiver p) true)
  (or_else (on_regex (white_list_receiver_regex r) (sms_receiver p) true)
  (or_else (on_list (black_list_receiver r) (sms_receiver p) false)
           (on_regex (black_list_receiver_regex r) (sms_receiver p) false))))))).

(** The variables of the loop over the connections. *)
Record choice := mkChoice {
  best_preferred : option SMSCConn;
  best_ok : option SMSCConn;
  bad_found : bool;
  full_found : bool;
  queue_length : Z
}.

(** [best == NULL || stat.load < best_load]. *)
Definition lighter (conn : SMSCConn) (best : option SMSCConn) : bool :=
  match best with
  | None => true
  | Some b => sc_load conn <? sc_load b
  end.

Definition queued_of (conn : SMSCConn) : Z := match sc_queued conn with Some q => q | None => -1 end.

Definition consider (msg : Msg) (max_queue : Z) (c : choice) (conn : SMSCConn) : res choice :=
  let queued := queued_of conn in
  let c := mkChoice (best_preferred c) (best_ok c) (bad_found c) (full_found c)
             (queue_length c + (if 0 <? queued then queued else 0)) in
  ret ← smscconn_usable conn msg;
  if ret =? -1 then Ok c
  else if negb (ret =? 1) && match best_preferred c with Some _ => true | None => false end then Ok c
  else if negb (bool_decide (sc_status conn = SMSCCONN_ACTIVE)) then
    Ok (mkChoice (best_preferred c) (best_ok c) true (full_found c) (queue_length c))
  else if max_queue <? queued then
    Ok (mkChoice (best_preferred c) (best_ok c) (bad_found c) true (queue_length c))
  else if (ret =? 1) && lighter conn (best_preferred c) then
    Ok (mkChoice (Some conn) (best_ok c) (bad_found c) (full_found c) (queue_length c))
  else if lighter conn (best_ok c) then
    Ok (mkChoice (best_preferred c) (Some conn) (bad_found c) (full_found c) (queue_length c))
  else Ok c.

Fixpoint choose_loop (l : List SMSCConn) (msg : Msg) (max_queue s i : Z) (c : choice) (n : nat) : res choice :=
  match n with
  | O => Ok c
  | S n =>
      conn ← gwlist_get l (Z.rem (i + s) (gwlist_len (Some l)));
      c ← consider msg max_queue c conn;
      choose_loop l msg max_queue s (i + 1) c n
  end.

Definition no_choice : choice := mkChoice None None false false 0.

(** 80% for new messages while old ones wait; the product is of a [double]. *)
Definition queue_room (r : router) (resend : bool) : Z :=
  if 0 <? gwlist_len (Some (outgoing_sms r)) then
    if resend then max_outgoing_sms_qlength r else Z.quot (4 * max_outgoing_sms_qlength r) 5
  else max_outgoing_sms_qlength r.

(** The choice, or [None] where all queues together are too long. *)
Definition choose (r : router) (msg : Msg) (resend : bool) (rand : Z) : res (option choice) :=
  let l := smsc_list r in
  let n := gwlist_len (Some l) in
  c ← choose_loop l msg (queue_room r resend) (Z.rem rand n) 0 no_choice (Z.to_nat n);
  let total := queue_length c + gwlist_len (Some (outgoing_sms r)) in
  if (0 <? max_outgoing_sms_qlength r) && negb resend && (n * max_outgoing_sms_qlength r <? total)
  then Ok None else Ok (Some c).

Inductive answer := Code (ret : Z) | Again.

(** What [smsc2_rout] does with the choice. *)
Definition act_on (r : router) (send : SMSCConn -> Msg -> res (Z * Msg * list Msg * option split_parts)) (msg : Msg) (c : choice)
  : res (answer * router * Msg * list route_event) :=
  match (match best_preferred c with Some b => Some b | None => best_ok c end) with
  | Some conn =>
      '(ret, msg, given, split) ← send conn msg;
      Ok (if ret =? -1 then Again else Code SMSCCONN_SUCCESS, r, msg, [Given (sc_ptr conn) given split])
  | None =>
      if bad_found c then
        if (max_outgoing_sms_qlength r <? 0) || (gwlist_len (Some (outgoing_sms r)) <? max_outgoing_sms_qlength r) then
          q ← gwlist_append (outgoing_sms r) msg;
          Ok (Code SMSCCONN_QUEUED, set_outgoing r q, msg, [])
        else Ok (Code SMSCCONN_FAILED_QFULL, r, msg, [])
      else if full_found c then Ok (Code SMSCCONN_FAILED_QFULL, r, msg, [])
      else if bb_shutdown r then Ok (Code SMSCCONN_QUEUED, r, msg, [])
      else Ok (Code SMSCCONN_FAILED_DISCARDED, r, msg, [Failed SMSCCONN_FAILED_DISCARDED msg])
  end.

(** One pass of [smsc2_rout]: [Again] where the connection refused the message, and
    the function calls itself.  [send] is [smscconn_send] on a connection, [now] the
    time, and [split_conn] the connection that the parts of a split message go to. *)
Definition rout_pass (r : router) (now rand split_conn : Z) (send : SMSCConn -> Msg -> res (Z * Msg * list Msg * option split_parts))
    (msg : Msg) (resend : bool) : res (answer * router * Msg * list route_event) :=
  if negb (m_type msg =? T_SMS) then Ok (Code SMSCCONN_FAILED_DISCARDED, r, msg, [])
  else if negb (sms_validity (m_sms msg) =? UNDEF) && (sms_validity (m_sms msg) <? now) then
    Ok (Code SMSCCONN_FAILED_EXPIRED, r, msg, [Failed SMSCCONN_FAILED_EXPIRED msg])
  else
    msg ← normalize_receiver (unified_prefix r) msg;
    out ← screened_out r (m_sms msg);
    if out : bool then Ok (Code SMSCCONN_FAILED_REJECTED, r, msg, [Failed SMSCCONN_FAILED_REJECTED msg])
    else if gwlist_len (Some (smsc_list r)) =? 0 then Ok (Code SMSCCONN_FAILED_DISCARDED, r, msg, [])
    else
      c ← (if sms_split_parts (m_sms msg) =? 0 then choose r msg resend rand
           else
             x ← gwlist_search (smsc_list r) (fun conn => Ok (sc_ptr conn =? split_conn));
             Ok (Some (mkChoice x None false false 0)));
      match c with
      | None => Ok (Code SMSCCONN_FAILED_QFULL, r, msg, [])
      | Some c => act_on r send msg c
      end.

(** [smsc2_rout]: pass after pass, each with the connections, the time and the random
    number of that moment. *)
Fixpoint smsc2_rout (env : nat -> router * Z * Z) (split_conn : Z) (send : nat -> SMSCConn -> Msg -> res (Z * Msg * list Msg * option split_parts))
    (msg : Msg) (resend : bool) (events : list route_event) (i fuel : nat) : res (Z * router * Msg * list route_event) :=
  match fuel with
  | O => Undef
  | S fuel =>
      let '(r, now, rand) := env i in
      '(a, r, msg, es) ← rout_pass r now rand split_conn (send i) msg resend;
      match a with
      | Code ret => Ok (ret, r, msg, events ++ es)
      | Again => smsc2_rout env split_conn send msg resend (events ++ es) (S i) fuel
      end
  end.
End route.
