(* ===== verification/RouteProofs.v ===== *)
(** * Routing: which connection a message goes to

    The verdict of [smscconn_usable] is that of a policy on texts; the loop of
    [smsc2_rout] finds the best connection, wherever it starts; a pass of the router
    sends the message there, queues it or refuses it as it should (Route.v). *)

From stdpp Require Import list sets.
From S2P Require Import Prelude Octstr OctstrSearch OctstrCode OctstrParts Prefix PrefixProofs GwList PrioQueue Uuid Msg Charset Sms Numhash Route.

(** ** The policy of a connection *)

Section policy.
Context {RX : Regex}.

Record policy := mkPolicy {
  allowed_ids : option (list (list Z));
  denied_ids : option (list (list Z));
  preferred_ids : option (list (list Z));
  allowed_prefixes : option (list Z);
  denied_prefixes : option (list Z);
  preferred_prefixes : option (list Z)
}.

Definition texts_are (l : option (List Octstr)) (ts : option (list (list Z))) : Prop :=
  option_Forall2 (fun l ts => exists os, lrepr l os /\ Forall2 repr os ts) l ts.

Record has_policy (conn : SMSCConn) (p : policy) : Prop := {
  hp_allowed : texts_are (sc_allowed_smsc_id conn) (allowed_ids p);
  hp_denied : texts_are (sc_denied_smsc_id conn) (denied_ids p);
  hp_preferred : texts_are (sc_preferred_smsc_id conn) (preferred_ids p);
  hp_aprefix : option_Forall2 repr (sc_allowed_prefix conn) (allowed_prefixes p);
  hp_dprefix : option_Forall2 repr (sc_denied_prefix conn) (denied_prefixes p);
  hp_pprefix : option_Forall2 repr (sc_preferred_prefix conn) (preferred_prefixes p)
}.

(** Something is let through by a test that is allowed, by a test that is denied and
    by both: what is allowed is never denied. *)
Definition passes {A : Type} (allowed denied : option A) (test : A -> bool) : bool :=
  match allowed, denied with
  | None, None => true
  | Some a, None => test a
  | None, Some d => negb (test d)
  | Some a, Some d => test a || negb (test d)
  end.

Definition has_id (id : list Z) (ids : list (list Z)) : bool := bool_decide (id ∈ ids).
Definition has_prefix (n s : list Z) : bool := prefix_matches (cstr s) (cstr n).
Definition has_match (t : list Z) (re : regex_t) : bool := regexec re (cstr t) =? 0.

(** A message without an id passes where no id is asked for; one with an id has to be
    allowed and must not be denied. *)
Definition id_passes (p : policy) (id : option (list Z)) : bool :=
  match id with
  | Some id => from_option (has_id id) true (allowed_ids p) && negb (from_option (has_id id) false (denied_ids p))
  | None => negb (bool_decide (is_Some (allowed_ids p)))
  end.

Definition id_regex_passes (conn : SMSCConn) (id : option (list Z)) : bool :=
  match id, sc_allowed_smsc_id_regex conn with
  | Some id, Some re => has_match id re
  | Some id, None => negb (from_option (has_match id) false (sc_denied_smsc_id_regex conn))
  | None, Some _ => false
  | None, None => true
  end.

Definition prefers (conn : SMSCConn) (p : policy) (id : option (list Z)) (n : list Z) : bool :=
  match id with Some id => from_option (has_id id) false (preferred_ids p) | None => false end ||
  from_option (has_prefix n) false (preferred_prefixes p) ||
  from_option (has_match n) false (sc_preferred_prefix_regex conn).

Definition verdict (conn : SMSCConn) (p : policy) (id : option (list Z)) (n : list Z) : Z :=
  if unfit conn then -1
  else if id_passes p id && id_regex_passes conn id &&
          passes (allowed_prefixes p) (denied_prefixes p) (has_prefix n) &&
          passes (sc_allowed_prefix_regex conn) (sc_denied_prefix_regex conn) (has_match n)
  then (if prefers conn p id n then 1 else 0)
  else -1.

(** ** The tests *)

Lemma list_has_ok l os ts o id : lrepr l os -> Forall2 repr os ts -> repr o id -> list_has l o = Ok (has_id id ts).
Proof.
  intros Hl Hos Ho. unfold list_has. set (p := fun item => bool_decide (bytes item = id)).
  rewrite (gwlist_search_ok l os _ p Hl).
  - bind_red. f_equal. unfold has_id. clear Hl. induction Hos as [|x t os ts Hx _ IH]; [done|]. cbn [List.find].
    unfold p at 1. rewrite (repr_bytes _ _ Hx). destruct (decide (t = id)) as [->|Hne].
    + rewrite bool_decide_true by done. symmetry. apply bool_decide_eq_true. set_solver.
    + rewrite bool_decide_false by done. rewrite IH. apply bool_decide_ext. set_solver.
  - clear Hl. induction Hos as [|x t os ts Hx _ IH]; [apply Forall_nil_2|]. apply Forall_cons_2; [|done].
    unfold octstr_item_match, p. rewrite (octstr_compare_ok _ _ _ _ Hx Ho), (repr_bytes _ _ Hx). bind_red. f_equal.
    apply eq_true_iff_eq. rewrite Z.eqb_eq, bool_decide_eq_true. apply strcmp_eq_0.
Qed.

Lemma prefix_has_ok x s o n : repr x s -> repr o n -> prefix_has x (Some o) = Ok (has_prefix n s).
Proof.
  intros Hx Ho. unfold prefix_has. rewrite (does_prefix_match_ok x o s n Hx Ho). bind_red. unfold has_prefix.
  by destruct (prefix_matches (cstr s) (cstr n)).
Qed.

Lemma regex_has_ok re o t : repr o t -> regex_has re (Some o) = Ok (has_match t re).
Proof.
  intros Ho. unfold regex_has, gw_regex_match_pre. rewrite (repr_seems_valid _ _ Ho). bind_red.
  destruct (cstr_block_ok o t Ho) as (rest & -> & _). rewrite cstr_app_nul. unfold has_match. by destruct (_ =? 0).
Qed.

Lemma id_refused_ok conn p id t : has_policy conn p -> option_Forall2 repr id t ->
  id_refused conn id = Ok (negb (id_passes p t)).
Proof.
  intros [Ha Hd _ _ _ _] Hid. unfold id_refused, id_passes, or_else, negate.
  destruct Ha as [l ts (os & Hl & Hos)|], Hd as [l' ts' (os' & Hl' & Hos')|], Hid as [o i Ho|]; cbn [from_option];
    rewrite ?(list_has_ok l os ts o i Hl Hos Ho), ?(list_has_ok l' os' ts' o i Hl' Hos' Ho); bind_red;
    repeat match goal with |- context [has_id ?i ?s] => destruct (has_id i s); cbn [negb andb orb]; bind_red end; done.
Qed.

Lemma id_regex_refused_ok conn id t : option_Forall2 repr id t ->
  id_regex_refused conn id = Ok (negb (id_regex_passes conn t)).
Proof.
  intros Hid. unfold id_regex_refused, id_regex_passes, negate.
  destruct Hid as [o i Ho|], (sc_allowed_smsc_id_regex conn) as [re|], (sc_denied_smsc_id_regex conn) as [re'|];
    cbn [from_option]; rewrite ?(regex_has_ok _ o i Ho); bind_red; try done; by rewrite negb_involutive.
Qed.

Lemma prefix_refused_ok conn p o n : has_policy conn p -> repr o n ->
  prefix_refused conn (Some o) =
    Ok (negb (passes (allowed_prefixes p) (denied_prefixes p) (has_prefix n) &&
              passes (sc_allowed_prefix_regex conn) (sc_denied_prefix_regex conn) (has_match n))).
Proof.
  intros [_ _ _ Ha Hd _] Ho. unfold prefix_refused, passes, or_else, and_also, negate.
  destruct Ha as [x s Hx|], Hd as [x' s' Hx'|];
    destruct (sc_allowed_prefix_regex conn) as [re|], (sc_denied_prefix_regex conn) as [re'|];
    rewrite ?(prefix_has_ok x s o n Hx Ho), ?(prefix_has_ok x' s' o n Hx' Ho), ?(regex_has_ok re o n Ho), ?(regex_has_ok re' o n Ho);
    bind_red;
    repeat match goal with
    | |- context [has_prefix n ?s] => destruct (has_prefix n s); cbn [negb andb orb]; bind_red
    | |- context [has_match n ?s] => destruct (has_match n s); cbn [negb andb orb]; bind_red
    end; done.
Qed.

Lemma is_preferred_ok conn p m id t o n : has_policy conn p -> sms_smsc_id m = id -> option_Forall2 repr id t ->
  sms_receiver m = Some o -> repr o n -> is_preferred conn m = Ok (prefers conn p t n).
Proof.
  intros [_ _ Hp _ _ Hx] Ei Hid Er Ho. unfold is_preferred, prefers, or_else. rewrite Ei, Er.
  destruct Hp as [l ts (os & Hl & Hos)|], Hid as [oi i Hoi|], Hx as [x s Hxs|]; cbn [from_option];
    destruct (sc_preferred_prefix_regex conn) as [re|]; cbn [from_option];
    rewrite ?(list_has_ok l os ts oi i Hl Hos Hoi), ?(prefix_has_ok x s o n Hxs Ho), ?(regex_has_ok re o n Ho); bind_red;
    repeat match goal with
    | |- context [has_id ?i ?s] => destruct (has_id i s); cbn [negb andb orb]; bind_red
    | |- context [has_prefix n ?s] => destruct (has_prefix n s); cbn [negb andb orb]; bind_red
    end; done.
Qed.

Lemma smscconn_usable_ok conn p m t o n : m_type m = T_SMS -> has_policy conn p -> option_Forall2 repr (sms_smsc_id (m_sms m)) t ->
  sms_receiver (m_sms m) = Some o -> repr o n -> smscconn_usable conn m = Ok (verdict conn p t n).
Proof.
  intros Em Hp Hid Er Ho. unfold smscconn_usable, verdict. rewrite Em. cbn [Z.eqb Pos.eqb T_SMS gw_assert]. bind_red. cbn zeta.
  destruct (unfit conn); [done|]. unfold or_else.
  rewrite (id_refused_ok conn p _ t Hp Hid), (id_regex_refused_ok conn _ t Hid), Er, (prefix_refused_ok conn p o n Hp Ho).
  bind_red. destruct (id_passes p t); cbn [negb andb]; [|done]. bind_red.
  destruct (id_regex_passes conn t); cbn [negb andb]; [|done]. bind_red.
  destruct (_ && _); cbn [negb]; [|done]. rewrite (is_preferred_ok conn p _ _ t o n Hp eq_refl Hid Er Ho). done.
Qed.

Lemma verdict_range conn p t n : verdict conn p t n = -1 \/ verdict conn p t n = 0 \/ verdict conn p t n = 1.
Proof. unfold verdict. repeat case_match; auto. Qed.

(** ** The best connection *)

Fixpoint consider_all (msg : Msg) (max_queue : Z) (c : choice) (cs : list SMSCConn) : res choice :=
  match cs with
  | [] => Ok c
  | conn :: cs => c ← consider msg max_queue c conn; consider_all msg max_queue c cs
  end.

Definition rotated {A} (s : nat) (xs : list A) : list A := drop s xs ++ take s xs.

Lemma rotated_lookup {A} (s i : nat) (xs : list A) : (s < length xs)%nat -> (i < length xs)%nat ->
  rotated s xs !! i = xs !! Z.to_nat (Z.rem (Z.of_nat i + Z.of_nat s) (zlen xs)).
Proof.
  intros Hs Hi. unfold rotated. rewrite Z.rem_mod_nonneg by list_lia. destruct (decide (i < length xs - s)%nat) as [Hlt|Hge].
  - rewrite lookup_app_l by (rewrite length_drop; lia). rewrite lookup_drop, Z.mod_small by list_lia. f_equal. lia.
  - rewrite lookup_app_r by (rewrite length_drop; lia). rewrite length_drop, lookup_take_lt by lia.
    replace (Z.of_nat i + Z.of_nat s) with (Z.of_nat (i - (length xs - s)) + 1 * zlen xs) by list_lia.
    rewrite Z.mod_add by list_lia. rewrite Z.mod_small by list_lia. f_equal. lia.
Qed.

Lemma gwlist_get_item {A} (l : List A) xs (i : Z) x : lrepr l xs -> 0 <= i -> xs !! Z.to_nat i = Some x -> gwlist_get l i = Ok x.
Proof.
  intros Hl Hi Hx. unfold gwlist_get. pose proof (lookup_lt_Some _ _ _ Hx). rewrite (lr_len _ _ Hl).
  destruct (Z.leb_spec 0 i); [|lia]. destruct (Z.ltb_spec i (zlen xs)); [|list_lia]. cbn [gw_assert]. bind_red.
  rewrite <- (Z2Nat.id i) by done. by apply (GET_ok l xs).
Qed.

Lemma choose_loop_ok l cs msg max_queue (s : nat) (n : nat) : forall (i : nat) c,
  lrepr l cs -> (s < length cs)%nat -> (i + n = length cs)%nat ->
  choose_loop l msg max_queue (Z.of_nat s) (Z.of_nat i) c n = consider_all msg max_queue c (drop i (rotated s cs)).
Proof.
  induction n as [|n IH]; intros i c Hl Hs Hi; cbn [choose_loop].
  { rewrite drop_ge; [done|]. unfold rotated. rewrite length_app, length_drop, length_take. lia. }
  unfold gwlist_len at 1. rewrite (lr_len _ _ Hl).
  destruct (lookup_lt_is_Some_2 (rotated s cs) i) as [conn Hc].
  { unfold rotated. rewrite length_app, length_drop, length_take. lia. }
  pose proof Hc as Hc'. rewrite rotated_lookup in Hc' by lia.
  rewrite (gwlist_get_item l cs _ conn Hl) by (done || (apply Z.rem_nonneg; list_lia)). bind_red.
  rewrite (drop_S _ conn i Hc). cbn [consider_all]. destruct (consider msg max_queue c conn) as [c'| |]; [|done..].
  bind_red. replace (Z.of_nat i + 1) with (Z.of_nat (S i)) by lia. apply IH; [done|done|lia].
Qed.

Section best.
Context (msg : Msg) (max_queue : Z) (u : SMSCConn -> Z).

(** A connection that can take the message now. *)
Definition ready (c : SMSCConn) : Prop := u c <> -1 /\ sc_status c = SMSCCONN_ACTIVE /\ queued_of c <= max_queue.

Definition not_up (c : SMSCConn) : Prop := u c <> -1 /\ sc_status c <> SMSCCONN_ACTIVE.
Definition too_full (c : SMSCConn) : Prop := u c <> -1 /\ sc_status c = SMSCCONN_ACTIVE /\ max_queue < queued_of c.

Definition lightest (P : SMSCConn -> Prop) (cs : list SMSCConn) (b : SMSCConn) : Prop :=
  b ∈ cs /\ P b /\ forall x, x ∈ cs -> P x -> sc_load b <= sc_load x.

Definition favoured (c : SMSCConn) : Prop := u c = 1 /\ ready c.

(** What the choice is among the connections [cs]. *)
Definition chosen (cs : list SMSCConn) (c : choice) : Prop :=
  match best_preferred c with
  | Some b => lightest favoured cs b
  | None =>
      (forall x, x ∈ cs -> ~ favoured x) /\
      match best_ok c with
      | Some b => lightest ready cs b
      | None => forall x, x ∈ cs -> ~ ready x
      end /\
      (bad_found c = true <-> exists x, x ∈ cs /\ not_up x) /\
      (full_found c = true <-> exists x, x ∈ cs /\ too_full x)
  end.

Definition total_queued (cs : list SMSCConn) : Z := foldr (fun c n => Z.max 0 (queued_of c) + n) 0 cs.

Lemma lightest_keep P cs b x : lightest P cs b -> (P x -> sc_load b <= sc_load x) -> lightest P (cs ++ [x]) b.
Proof.
  intros (H1 & H2 & H3) Hx. split_and!; [apply elem_of_app; by left|done|].
  intros y Hy HPy. apply elem_of_app in Hy as [Hy|Hy]; [by apply H3|]. apply list_elem_of_singleton in Hy as ->. by apply Hx.
Qed.

Lemma lightest_new P cs x best : P x ->
  match best with Some b => lightest P cs b | None => forall y, y ∈ cs -> ~ P y end ->
  lighter x best = true -> lightest P (cs ++ [x]) x.
Proof.
  intros HPx Hb Hl. split_and!; [apply elem_of_app; right; by apply list_elem_of_singleton|done|].
  intros y Hy HPy. apply elem_of_app in Hy as [Hy|Hy]; [|apply list_elem_of_singleton in Hy as ->; lia].
  destruct best as [b|]; [|by destruct (Hb y Hy)]. destruct Hb as (_ & _ & Hb). specialize (Hb y Hy HPy).
  cbn in Hl. lia.
Qed.

Lemma none_snoc (P : SMSCConn -> Prop) cs x : (forall y, y ∈ cs -> ~ P y) -> ~ P x -> forall y, y ∈ cs ++ [x] -> ~ P y.
Proof.
  intros H Hx y Hy. apply elem_of_app in Hy as [Hy|Hy]; [by apply H|]. by apply list_elem_of_singleton in Hy as ->.
Qed.

Lemma exists_snoc (P : SMSCConn -> Prop) cs x : (exists y, y ∈ cs ++ [x] /\ P y) <-> (exists y, y ∈ cs /\ P y) \/ P x.
Proof.
  split.
  - intros (y & Hy & HP). apply elem_of_app in Hy as [Hy|Hy]; [left; eauto|]. apply list_elem_of_singleton in Hy as ->. by right.
  - intros [(y & Hy & HP)|HP]; [exists y; split; [apply elem_of_app; by left|done]|].
    exists x. split; [apply elem_of_app; right; by apply list_elem_of_singleton|done].
Qed.

(** A connection that the loop passes over changes nothing. *)
Lemma chosen_skip cs c x : chosen cs c -> (best_preferred c = None \/ u x = 1 -> u x = -1) -> u x <> 1 -> chosen (cs ++ [x]) c.
Proof.
  unfold chosen. intros Hc Hn Hx. destruct (best_preferred c) as [b|].
  - apply lightest_keep; [done|]. intros [E _]. done.
  - assert (u x = -1) as Eu by (apply Hn; by left). destruct Hc as (H1 & H2 & H3 & H4). split_and!.
    + apply none_snoc; [done|]. by intros [E _].
    + destruct (best_ok c); [apply lightest_keep; [done|]; by intros [? _]|apply none_snoc; [done|]; by intros [? _]].
    + rewrite H3, exists_snoc. split; [by left|]. intros [?|[? _]]; done.
    + rewrite H4, exists_snoc. split; [by left|]. intros [?|[? _]]; done.
Qed.

Lemma chosen_bad cs c x : chosen cs c -> (best_preferred c = None \/ u x = 1) -> u x <> -1 -> sc_status x <> SMSCCONN_ACTIVE ->
  chosen (cs ++ [x]) (mkChoice (best_preferred c) (best_ok c) true (full_found c) (queue_length c)).
Proof.
  unfold chosen. cbn [best_preferred best_ok bad_found full_found]. intros Hc _ Hx Hst. destruct (best_preferred c) as [b|].
  - apply lightest_keep; [done|]. by intros [_ (_ & ? & _)].
  - destruct Hc as (H1 & H2 & H3 & H4). split_and!.
    + apply none_snoc; [done|]. by intros [_ (_ & ? & _)].
    + destruct (best_ok c); [apply lightest_keep; [done|]; by intros (_ & ? & _)|apply none_snoc; [done|]; by intros (_ & ? & _)].
    + split; [|done]. intros _. apply exists_snoc. by right.
    + rewrite H4, exists_snoc. split; [by left|]. intros [?|(_ & ? & _)]; done.
Qed.

Lemma chosen_full cs c x : chosen cs c -> u x <> -1 -> sc_status x = SMSCCONN_ACTIVE -> max_queue < queued_of x ->
  chosen (cs ++ [x]) (mkChoice (best_preferred c) (best_ok c) (bad_found c) true (queue_length c)).
Proof.
  unfold chosen. cbn [best_preferred best_ok bad_found full_found]. intros Hc Hx Hst Hq. destruct (best_preferred c) as [b|].
  - apply lightest_keep; [done|]. intros [_ (_ & _ & ?)]. lia.
  - destruct Hc as (H1 & H2 & H3 & H4). split_and!.
    + apply none_snoc; [done|]. intros [_ (_ & _ & ?)]. lia.
    + destruct (best_ok c); [apply lightest_keep; [done|]; intros (_ & _ & ?); lia|apply none_snoc; [done|]; intros (_ & _ & ?); lia].
    + rewrite H3, exists_snoc. split; [by left|]. intros [?|[_ ?]]; done.
    + split; [|done]. intros _. apply exists_snoc. by right.
Qed.

Lemma chosen_preferred cs c x q : chosen cs c -> favoured x -> lighter x (best_preferred c) = true ->
  chosen (cs ++ [x]) (mkChoice (Some x) (best_ok c) (bad_found c) (full_found c) q).
Proof.
  unfold chosen. cbn [best_preferred]. intros Hc Hx Hl. apply (lightest_new favoured cs x (best_preferred c) Hx); [|done].
  destruct (best_preferred c); [done|]. apply Hc.
Qed.

Lemma chosen_ready cs c x (new : bool) : chosen cs c -> ready x -> (best_preferred c = None -> u x <> 1) ->
  (match best_preferred c with Some b => u x = 1 -> sc_load b <= sc_load x | None => True end) ->
  new = lighter x (best_ok c) ->
  chosen (cs ++ [x]) (mkChoice (best_preferred c) (if new then Some x else best_ok c) (bad_found c) (full_found c) (queue_length c)).
Proof.
  unfold chosen. cbn [best_preferred best_ok bad_found full_found]. intros Hc Hx Hn Hp ->. destruct (best_preferred c) as [b|].
  - apply lightest_keep; [done|]. intros [E _]. by apply Hp.
  - destruct Hc as (H1 & H2 & H3 & H4). split_and!.
    + apply none_snoc; [done|]. intros [E _]. by apply Hn.
    + destruct (lighter x (best_ok c)) eqn:El.
      * by apply (lightest_new ready cs x (best_ok c)).
      * destruct (best_ok c) as [b|]; [|done]. cbn in El. apply lightest_keep; [done|]. intros _. lia.
    + rewrite H3, exists_snoc. split; [by left|]. intros [?|[_ ?]]; [done|]. by destruct Hx as (_ & ? & _).
    + rewrite H4, exists_snoc. split; [by left|]. intros [?|(_ & _ & ?)]; [done|]. destruct Hx as (_ & _ & ?). lia.
Qed.

Definition with_queue (c : choice) (n : Z) : choice := mkChoice (best_preferred c) (best_ok c) (bad_found c) (full_found c) n.

Lemma consider_ok cs c x : chosen cs c -> smscconn_usable x msg = Ok (u x) -> u x = -1 \/ u x = 0 \/ u x = 1 ->
  exists c', consider msg max_queue c x = Ok c' /\ chosen (cs ++ [x]) c' /\
    queue_length c' = queue_length c + Z.max 0 (queued_of x).
Proof.
  intros Hc Hu Hr. unfold consider. cbn zeta. rewrite Hu. bind_red.
  assert ((if 0 <? queued_of x then queued_of x else 0) = Z.max 0 (queued_of x)) as -> by (destruct (Z.ltb_spec 0 (queued_of x)); lia).
  set (n := queue_length c + Z.max 0 (queued_of x)). change (mkChoice _ _ _ _ n) with (with_queue c n).
  assert (chosen cs (with_queue c n)) as Hc' by exact Hc. assert (queue_length (with_queue c n) = n) as En by done.
  clearbody n. revert Hc' En. generalize (with_queue c n). clear c Hc. intros c Hc En.
  destruct (Z.eqb_spec (u x) (-1)) as [Eu|Hne].
  { exists c. split; [done|]. split; [|done]. apply chosen_skip; [done|done|lia]. }
  destruct (negb (u x =? 1) && match best_preferred c with Some _ => true | None => false end) eqn:Es.
  { apply andb_true_iff in Es as [E1 E2]. exists c. split; [done|]. split; [|done].
    assert (u x <> 1) by (destruct (Z.eqb_spec (u x) 1); done). apply chosen_skip; [done| |done].
    intros [E|E]; [by rewrite E in E2|done]. }
  assert (best_preferred c = None \/ u x = 1) as Hp.
  { destruct (Z.eqb_spec (u x) 1); [by right|]. left. by destruct (best_preferred c). }
  destruct (decide (sc_status x = SMSCCONN_ACTIVE)) as [Ha|Ha].
  2:{ rewrite bool_decide_false by done. cbn [negb]. eexists. split; [done|]. split; [by apply chosen_bad|done]. }
  rewrite bool_decide_true by done. cbn [negb]. destruct (Z.ltb_spec max_queue (queued_of x)) as [Hq|Hq].
  { eexists. split; [done|]. split; [by apply chosen_full|done]. }
  assert (ready x) as Hx by (split_and!; done).
  destruct ((u x =? 1) && lighter x (best_preferred c)) eqn:Ef.
  { apply andb_true_iff in Ef as [E1 E2]. apply Z.eqb_eq in E1. eexists. split; [done|]. split; [by apply chosen_preferred|done]. }
  pose proof (chosen_ready cs c x (lighter x (best_ok c)) Hc Hx) as Hf.
  assert (chosen (cs ++ [x]) (mkChoice (best_preferred c) (if lighter x (best_ok c) then Some x else best_ok c) (bad_found c)
    (full_found c) (queue_length c))) as Hfin.
  { apply Hf; [| |done].
    - intros E E1. by rewrite E1, E in Ef.
    - destruct (best_preferred c) as [b|]; [|done]. intros E1. rewrite E1 in Ef. cbn in Ef. lia. }
  destruct (lighter x (best_ok c)); eexists; (split; [done|]); (split; [|done]); [done|by destruct c].
Qed.

Lemma consider_all_ok cs : (forall x, x ∈ cs -> smscconn_usable x msg = Ok (u x) /\ (u x = -1 \/ u x = 0 \/ u x = 1)) ->
  forall done c, chosen done c -> exists c', consider_all msg max_queue c cs = Ok c' /\ chosen (done ++ cs) c' /\
    queue_length c' = queue_length c + total_queued cs.
Proof.
  induction cs as [|x cs IH]; intros Hcs ds c Hc; cbn [consider_all].
  { exists c. rewrite app_nil_r. cbn. split_and!; [done|done|lia]. }
  destruct (Hcs x ltac:(set_solver)) as [Hu Hr]. destruct (consider_ok ds c x Hc Hu Hr) as (c1 & -> & H1 & E1). bind_red.
  destruct (IH ltac:(set_solver) (ds ++ [x]) c1 H1) as (c2 & -> & H2 & E2). exists c2. rewrite <- app_assoc in H2.
  cbn [total_queued foldr]. split_and!; [done|done|]. unfold total_queued in *. lia.
Qed.

Lemma chosen_perm cs cs' c : cs ≡ₚ cs' -> chosen cs c -> chosen cs' c.
Proof.
  intros P. unfold chosen, lightest. destruct (best_preferred c) as [b|].
  - setoid_rewrite P. done.
  - destruct (best_ok c); setoid_rewrite P; done.
Qed.
End best.

Lemma rotated_perm {A} (s : nat) (xs : list A) : rotated s xs ≡ₚ xs.
Proof. unfold rotated. by rewrite Permutation_app_comm, take_drop. Qed.

Lemma total_queued_perm cs cs' : cs ≡ₚ cs' -> total_queued cs = total_queued cs'.
Proof. unfold total_queued. induction 1; cbn [foldr]; lia. Qed.

Definition over_limit (r : router) (cs : list SMSCConn) (ms : list Msg) (resend : bool) : Prop :=
  0 < max_outgoing_sms_qlength r /\ resend = false /\
  zlen cs * max_outgoing_sms_qlength r < total_queued cs + zlen ms.

Lemma choose_ok r cs ms msg resend rand u : lrepr (smsc_list r) cs -> lrepr (outgoing_sms r) ms -> cs <> [] -> 0 <= rand ->
  (forall x, x ∈ cs -> smscconn_usable x msg = Ok (u x) /\ (u x = -1 \/ u x = 0 \/ u x = 1)) ->
  exists c, choose r msg resend rand = Ok c /\
    match c with
    | None => over_limit r cs ms resend
    | Some c => ~ over_limit r cs ms resend /\ chosen (queue_room r resend) u cs c
    end.
Proof.
  intros Hl Hq Hne Hrand Hu. unfold choose. cbn zeta. unfold gwlist_len. rewrite (lr_len _ _ Hl), (lr_len _ _ Hq).
  assert (0 < zlen cs) as Hpos by (destruct cs; [done|list_lia]).
  pose proof (Z.rem_bound_pos rand (zlen cs) Hrand Hpos) as Hs. rewrite <- (Z2Nat.id (Z.rem rand (zlen cs))) by lia.
  set (s := Z.to_nat (Z.rem rand (zlen cs))). 
  pose proof (choose_loop_ok (smsc_list r) cs msg (queue_room r resend) s (Z.to_nat (zlen cs)) 0 no_choice Hl ltac:(list_lia) ltac:(list_lia)) as L.
  change (Z.of_nat 0) with 0 in L. rewrite L, drop_0. clear L.
  destruct (consider_all_ok msg (queue_room r resend) u (rotated s cs)) with (done := @nil SMSCConn) (c := no_choice)
    as (c & -> & Hc & Ec).
  { intros x Hx. apply Hu. by rewrite rotated_perm in Hx. }
  { unfold chosen, no_choice. cbn. split_and!; try set_solver; split; try done; intros (x & Hx & _); set_solver. }
  bind_red. cbn [no_choice queue_length app] in *. rewrite (total_queued_perm _ cs (rotated_perm s cs)) in Ec.
  apply (chosen_perm _ _ _ cs c (rotated_perm s cs)) in Hc. rewrite Ec, Z.add_0_l. unfold over_limit.
  destruct (Z.ltb_spec 0 (max_outgoing_sms_qlength r)), resend, (Z.ltb_spec (zlen cs * max_outgoing_sms_qlength r) (total_queued cs + zlen ms));
    cbn [andb negb]; eexists; (split; [reflexivity|]); cbn; try (split; [|done]); intuition (lia || done).
Qed.

(** ** A pass of the router *)

Definition official (uf : option (list Z)) (n : list Z) : list Z :=
  match uf with
  | Some s => if bool_decide (cstr s = []) then n else default n (normalized (cstr s) n)
  | None => n
  end.

Lemma normalize_receiver_ok uf s msg o n : option_Forall2 repr uf s -> sms_receiver (m_sms msg) = Some o -> repr o n ->
  exists o', normalize_receiver uf msg = Ok (with_sms msg (set_receiver (m_sms msg) (Some o'))) /\ repr o' (official s n).
Proof.
  intros Hf Er Ho. unfold normalize_receiver. cbn zeta. rewrite Er. destruct Hf as [x s Hx|]; cbn [option_map]; [|by exists o].
  destruct (cstr_block_ok x s Hx) as (rest & -> & Hs). rewrite cstr_app_nul.
  pose proof (normalize_number_ok (cstr s) o n (cstr_ctext s Hs) Ho) as H. apply returns_iff in H as ([b o'] & -> & H). bind_red.
  exists o'. split; [done|]. unfold norm_result in H. cbn [official]. case_bool_decide; [by injection H as _ ->|].
  destruct (normalized (cstr s) n) as [m|]; cbn [default]; [apply H|by injection H as _ ->].
Qed.

(** What a pass may answer for the message [msg], whose receiver is in its official
    form: [ms] are the messages that wait. *)
Inductive routed (r : router) (cs : list SMSCConn) (ms : list Msg) (u : SMSCConn -> Z) (resend : bool)
    (send : SMSCConn -> Msg -> res (Z * Msg * list Msg * option split_parts)) (msg : Msg) : answer * router * Msg * list route_event -> Prop :=
| routed_sum : over_limit r cs ms resend -> routed r cs ms u resend send msg (Code SMSCCONN_FAILED_QFULL, r, msg, [])
| routed_sent b ret msg' given split :
    ~ over_limit r cs ms resend ->
    lightest (favoured (queue_room r resend) u) cs b \/
    ((forall x, x ∈ cs -> ~ favoured (queue_room r resend) u x) /\ lightest (ready (queue_room r resend) u) cs b) ->
    send b msg = Ok (ret, msg', given, split) ->
    routed r cs ms u resend send msg (if ret =? -1 then Again else Code SMSCCONN_SUCCESS, r, msg', [Given (sc_ptr b) given split])
| routed_waits q :
    (forall x, x ∈ cs -> ~ ready (queue_room r resend) u x) -> (exists x, x ∈ cs /\ not_up u x) ->
    max_outgoing_sms_qlength r < 0 \/ zlen ms < max_outgoing_sms_qlength r -> lrepr q (ms ++ [msg]) ->
    routed r cs ms u resend send msg (Code SMSCCONN_QUEUED, set_outgoing r q, msg, [])
| routed_full :
    (forall x, x ∈ cs -> ~ ready (queue_room r resend) u x) ->
    (exists x, x ∈ cs /\ not_up u x) /\ 0 <= max_outgoing_sms_qlength r <= zlen ms \/
    (forall x, x ∈ cs -> ~ not_up u x) /\ (exists x, x ∈ cs /\ too_full (queue_room r resend) u x) ->
    routed r cs ms u resend send msg (Code SMSCCONN_FAILED_QFULL, r, msg, [])
| routed_nowhere :
    (forall x, x ∈ cs -> u x = -1) ->
    routed r cs ms u resend send msg
      (if bb_shutdown r then (Code SMSCCONN_QUEUED, r, msg, [])
       else (Code SMSCCONN_FAILED_DISCARDED, r, msg, [Failed SMSCCONN_FAILED_DISCARDED msg])).

Lemma refuses max_queue u x : ~ ready max_queue u x -> ~ not_up u x -> ~ too_full max_queue u x -> u x = -1.
Proof.
  intros H1 H2 H3. destruct (Z.eq_dec (u x) (-1)) as [|Hu]; [done|].
  destruct (decide (sc_status x = SMSCCONN_ACTIVE)) as [Ha|Ha]; [|by destruct H2].
  destruct (Z.le_gt_cases (queued_of x) max_queue); [by destruct H1|destruct H3; split_and!; [done..|lia]].
Qed.

(** The tail of a pass, after the choice. *)
Lemma answer_routed r cs ms u resend send msg c : lrepr (outgoing_sms r) ms ->
  (forall c m, exists x, send c m = Ok x) ->
  ~ over_limit r cs ms resend -> chosen (queue_room r resend) u cs c ->
  returns (act_on r send msg c) (routed r cs ms u resend send msg).
Proof.
  intros Hq Hsend Ho Hc. unfold chosen in Hc. unfold act_on.
  assert (forall b, lightest (favoured (queue_room r resend) u) cs b \/
    ((forall x, x ∈ cs -> ~ favoured (queue_room r resend) u x) /\ lightest (ready (queue_room r resend) u) cs b) ->
    returns ('(ret, msg, given, split) ← send b msg; Ok (if ret =? -1 then Again else Code SMSCCONN_SUCCESS, r, msg, [Given (sc_ptr b) given split]))
      (routed r cs ms u resend send msg)) as Hsent.
  { intros b Hb. destruct (Hsend b msg) as [[[[ret m] g] sp] E]. rewrite E. bind_red. cbn [returns]. by eapply routed_sent. }
  destruct (best_preferred c) as [b|]; [apply Hsent; by left|]. destruct Hc as (H1 & H2 & H3 & H4).
  destruct (best_ok c) as [b|]; [apply Hsent; by right|]. clear Hsent. unfold gwlist_len. rewrite (lr_len _ _ Hq).
  destruct (bad_found c).
  - destruct (Z.ltb_spec (max_outgoing_sms_qlength r) 0), (Z.ltb_spec (zlen ms) (max_outgoing_sms_qlength r)); cbn [orb];
      try (pose proof (gwlist_append_ok (outgoing_sms r) ms msg Hq) as L; apply returns_iff in L as (q & -> & L & _); bind_red;
           cbn [returns]; apply routed_waits; [done|by apply H3|lia|done]).
    cbn [returns]. apply routed_full; [done|]. left. split; [by apply H3|lia].
  - assert (forall x, x ∈ cs -> ~ not_up u x) as Hn by (intros x Hx Hb; by assert (false = true) by (apply H3; eauto)).
    destruct (full_found c); [cbn [returns]; apply routed_full; [done|]; right; split; [done|by apply H4]|].
    assert (forall x, x ∈ cs -> u x = -1) as Hall.
    { intros x Hx. apply (refuses (queue_room r resend)); [by apply H2|by apply Hn|].
      intros Hf. by assert (false = true) by (apply H4; eauto). }
    pose proof (routed_nowhere r cs ms u resend send msg Hall) as L. by destruct (bb_shutdown r).
Qed.

(** ** The lists of senders and receivers *)

Lemma or_else_pass x y : or_else (Ok (negb x)) (Ok (negb y)) = Ok (negb (x && y)).
Proof. by destruct x. Qed.

Lemma on_list_ok l K o n white : option_Forall2 nh_ok l K -> repr o n -> 0 <= key_of n ->
  on_list l (Some o) white = Ok (negb (from_option (fun l => if white then bool_decide (key_of n ∈ l) else negb (bool_decide (key_of n ∈ l))) true K)).
Proof.
  intros Hl Ho Hk. unfold on_list. destruct Hl as [l K Hl|]; [|done]. unfold numhash_find_number. rewrite (numhash_get_key_ok o n Ho). bind_red.
  destruct (Z.ltb_spec (key_of n) 0); [lia|]. rewrite (find_key_ok l K _ Hl Hk). bind_red. cbn [from_option]. by destruct (bool_decide _), white.
Qed.

Lemma on_regex_ok re o n white : repr o n ->
  on_regex re (Some o) white = Ok (negb (if white then from_option (has_match n) true re else negb (from_option (has_match n) false re))).
Proof.
  intros Ho. unfold on_regex. destruct re as [re|]; [|by destruct white]. pose proof (regex_has_ok re o n Ho) as H. unfold regex_has in H.
  unfold gw_regex_match_pre in *. rewrite (repr_seems_valid _ _ Ho) in *. cbn [from_option] in *.
  destruct (regexec re _ =? 0); injection H as <-; by destruct white.
Qed.

(** The numbers that the lists of the bearerbox hold, by their keys. *)
Record listed := mkListed {
  white_senders : option (list Z);
  black_senders : option (list Z);
  white_receivers : option (list Z);
  black_receivers : option (list Z)
}.

Record has_lists (r : router) (l : listed) : Prop := {
  hl_ws : option_Forall2 nh_ok (white_list_sender r) (white_senders l);
  hl_bs : option_Forall2 nh_ok (black_list_sender r) (black_senders l);
  hl_wr : option_Forall2 nh_ok (white_list_receiver r) (white_receivers l);
  hl_br : option_Forall2 nh_ok (black_list_receiver r) (black_receivers l)
}.

(** A number has to be on the white list and to match its expression, and must not be
    on the black list or match the expression of that, where there are such. *)
Definition accepted (white black : option (list Z)) (white_re black_re : option regex_t) (n : list Z) : bool :=
  from_option (fun l => bool_decide (key_of n ∈ l)) true white && from_option (has_match n) true white_re &&
  from_option (fun l => negb (bool_decide (key_of n ∈ l))) true black && negb (from_option (has_match n) false black_re).

Definition acceptable (r : router) (l : listed) (from to : list Z) : bool :=
  accepted (white_senders l) (black_senders l) (white_list_sender_regex r) (black_list_sender_regex r) from &&
  accepted (white_receivers l) (black_receivers l) (white_list_receiver_regex r) (black_list_receiver_regex r) to.

Lemma screened_out_ok r l p os from ot to : has_lists r l -> sms_sender p = Some os -> repr os from -> 0 <= key_of from ->
  sms_receiver p = Some ot -> repr ot to -> 0 <= key_of to -> screened_out r p = Ok (negb (acceptable r l from to)).
Proof.
  intros [H1 H2 H3 H4] Es Hs Ks Er Hr Kr. unfold screened_out. rewrite Es, Er.
  rewrite !(on_list_ok _ _ os from _ H1 Hs Ks), !(on_list_ok _ _ os from _ H2 Hs Ks), !(on_list_ok _ _ ot to _ H3 Hr Kr),
    !(on_list_ok _ _ ot to _ H4 Hr Kr), !(on_regex_ok _ os from _ Hs), !(on_regex_ok _ ot to _ Hr).
  rewrite !or_else_pass. unfold acceptable, accepted. by rewrite !andb_assoc.
Qed.

(** A part of a split message goes to the connection of the other parts, as long as
    that is there. *)
Definition part_routed (r : router) (cs : list SMSCConn) (split_conn : Z)
    (send : SMSCConn -> Msg -> res (Z * Msg * list Msg * option split_parts)) (msg : Msg) (a : answer * router * Msg * list route_event) : Prop :=
  match List.find (fun c => sc_ptr c =? split_conn) cs with
  | Some b => exists ret msg' given split, send b msg = Ok (ret, msg', given, split) /\
      a = (if ret =? -1 then Again else Code SMSCCONN_SUCCESS, r, msg', [Given (sc_ptr b) given split])
  | None => a = (if bb_shutdown r then (Code SMSCCONN_QUEUED, r, msg, [])
                 else (Code SMSCCONN_FAILED_DISCARDED, r, msg, [Failed SMSCCONN_FAILED_DISCARDED msg]))
  end.

Lemma part_routed_ok r cs split_conn send msg : lrepr (smsc_list r) cs -> (forall c m, exists x, send c m = Ok x) ->
  exists a, (x ← gwlist_search (smsc_list r) (fun conn => Ok (sc_ptr conn =? split_conn)); act_on r send msg (mkChoice x None false false 0)) = Ok a /\
    part_routed r cs split_conn send msg a.
Proof.
  intros Hl Hsend. rewrite (gwlist_search_ok _ cs _ (fun c => sc_ptr c =? split_conn) Hl) by (apply list.Forall_forall; done). bind_red.
  unfold part_routed, act_on. cbn [best_preferred best_ok bad_found full_found].
  destruct (List.find _ cs) as [b|]; [|by destruct (bb_shutdown r); eexists].
  destruct (Hsend b msg) as [[[[ret m] g] sp] E]. rewrite E. bind_red. eexists. split; [done|]. by exists ret, m, g, sp.
Qed.

Lemma whole_routed r cs ms pol rand send msg resend id o n :
  lrepr (smsc_list r) cs -> lrepr (outgoing_sms r) ms -> cs <> [] -> Forall (fun c => has_policy c (pol c)) cs -> 0 <= rand ->
  m_type msg = T_SMS -> option_Forall2 repr (sms_smsc_id (m_sms msg)) id -> sms_receiver (m_sms msg) = Some o -> repr o n ->
  (forall c m, exists x, send c m = Ok x) ->
  exists a, (c ← choose r msg resend rand;
             match c with None => Ok (Code SMSCCONN_FAILED_QFULL, r, msg, []) | Some c => act_on r send msg c end) = Ok a /\
    routed r cs ms (fun c => verdict c (pol c) id n) resend send msg a.
Proof.
  intros Hl Hq Hne Hp Hrand Em Hid Er Ho Hsend. set (u := fun c => verdict c (pol c) id n).
  destruct (choose_ok r cs ms msg resend rand u Hl Hq Hne Hrand) as (c & -> & Hc).
  { intros x Hx. split; [|apply verdict_range]. pose proof (proj1 (list.Forall_forall _ _) Hp x Hx) as Hpx. by apply (smscconn_usable_ok x (pol x) msg id o n). }
  bind_red. destruct c as [c|]; [|eexists; split; [done|by apply routed_sum]].
  destruct Hc as [Hov Hc]. apply returns_iff. by apply answer_routed.
Qed.

(** The expression for preferred ids makes no difference. *)
Definition with_preferred_id_regex (c : SMSCConn) (re : option regex_t) : SMSCConn :=
  mkConn (sc_ptr c) (sc_status c) (sc_load c) (sc_why_killed c) (sc_queued c) (sc_allowed_smsc_id c) (sc_denied_smsc_id c)
    (sc_preferred_smsc_id c) (sc_allowed_smsc_id_regex c) (sc_denied_smsc_id_regex c) re (sc_allowed_prefix c)
    (sc_allowed_prefix_regex c) (sc_denied_prefix c) (sc_denied_prefix_regex c) (sc_preferred_prefix c) (sc_preferred_prefix_regex c)
    (sc_unified_prefix c) (sc_max_sms_octets c).

Theorem preferred_id_regex_unused c re msg : smscconn_usable (with_preferred_id_regex c re) msg = smscconn_usable c msg.
Proof. reflexivity. Qed.

Lemma with_value_of {A B} (m : res A) (P : B -> Prop) (Q : A -> B -> Prop) b : P b ->
  (exists a, m = Ok a /\ Q a b) -> exists a, m = Ok a /\ exists b, P b /\ Q a b.
Proof. naive_solver. Qed.

(** ** Claims *)


End policy.

(** A regular expression that matches one text, and two connections: the second has
    more load, but prefers the numbers that begin with 0. *)
Definition one_text : Regex := {| regex_t := list Z; regexec := fun re s => if bool_decide (re = s) then 0 else 1 |}.

Definition sample_route_conn (ptr load : Z) (prefix : option Octstr) : @SMSCConn one_text :=
  @mkConn one_text ptr SMSCCONN_ACTIVE load SMSCCONN_ALIVE (Some 3) None None None None None None None None None None prefix None None 140.

Definition sample_prefix (c : @SMSCConn one_text) : policy :=
  mkPolicy None None None None None (if sc_ptr c =? 2 then Some [48] else None).

Definition sample_router : @router one_text :=
  @mkRouter one_text (mkList [Some (sample_route_conn 1 5 None); Some (sample_route_conn 2 9 (Some (octstr_imm [48])))] 2 0 2 0 0)
    gwlist_create None None None None None None None None None 10 false.

Definition sample_to : Msg :=
  with_sms sample_sms (set_sender (set_receiver (m_sms sample_sms) (Some (octstr_imm [48; 52]))) (Some (octstr_imm [49]))).

Lemma sample_conns_ok : lrepr (smsc_list sample_router) [sample_route_conn 1 5 None; sample_route_conn 2 9 (Some (octstr_imm [48]))].
Proof. constructor; cbn; [done|lia|lia|done|by exists []]. Qed.

Lemma sample_policy_ok (ptr load : Z) (prefix : option Octstr) : prefix = (if ptr =? 2 then Some (octstr_imm [48]) else None) ->
  has_policy (sample_route_conn ptr load prefix) (sample_prefix (sample_route_conn ptr load prefix)).
Proof.
  intros ->. unfold sample_prefix. cbn [sample_route_conn sc_ptr]. constructor; [constructor..|].
  change (option_Forall2 repr (if ptr =? 2 then Some (octstr_imm [48]) else None) (if ptr =? 2 then Some [48] else None)).
  destruct (ptr =? 2); constructor. apply octstr_imm_ok. octets_tac.
Qed.


