(* ===== verification/Concat.v ===== *)
(** * Incoming concatenated messages

    Models the part of src/gw/bb_smscconn.c that puts the parts of a long message from
    a phone together: the dictionary of the messages that wait for parts, and
    [concat_handling_check_and_handle], which every received message goes through.
    The dictionary holds pointers: the structures live in a heap of addresses.  The
    store is an argument, the function [save], which may fill in fields of the message
    it saves; what the handler asks of the store is a list of events in order.  The
    clock, new identifiers and the address of a new structure are arguments too. *)

From stdpp Require Import gmap.
From S2P Require Import Prelude Octstr OctstrSearch OctstrCode OctstrFormat GwList Dict Uuid Msg Charset Sms.
#[local] Open Scope Z_scope.
#[local] Open Scope kannel_scope.

Definition concat_error : Z := -1.
Definition concat_complete : Z := 0.
Definition concat_pending : Z := 1.
Definition concat_none : Z := 2.

Definition ack_success : Z := 0.

Record ConcatMsg := mkConcatMsg {
  refnum : Z;
  total_parts : Z;
  num_parts : Z;
  cm_udh : option Octstr;
  trecv : Z;
  cm_key : Octstr;
  cm_ack : Z;
  cm_parts : list (option Msg);
  cm_smsc_id : Octstr
}.

Definition set_cm_parts (c : ConcatMsg) (ps : list (option Msg)) (n now : Z) : ConcatMsg :=
  mkConcatMsg (refnum c) (total_parts c) n (cm_udh c) now (cm_key c) (cm_ack c) ps (cm_smsc_id c).

Definition set_cm_udh (c : ConcatMsg) (udh : option Octstr) : ConcatMsg :=
  mkConcatMsg (refnum c) (total_parts c) (num_parts c) udh (trecv c) (cm_key c) (cm_ack c) (cm_parts c) (cm_smsc_id c).

Record concat_state := mkConcat {
  handle_concatenated_mo : bool;
  incoming_concat_msgs : option (Dict Z);
  cmsgs : gmap Z ConcatMsg
}.

(** [store_save] and [store_save_ack]. *)
Inductive store_event := Saved (m : Msg) | Acked (m : Msg) (status : Z).

(** [concat_handling_init]: the structures are destroyed with the dictionary. *)
Definition concat_handling_init (max_incoming_sms_qlength : Z) (st : concat_state) : concat_state :=
  match incoming_concat_msgs st with
  | Some _ => st
  | None =>
      mkConcat (handle_concatenated_mo st)
        (Some (dict_create (if 0 <? max_incoming_sms_qlength then max_incoming_sms_qlength else 1024) true)) (cmsgs st)
  end.

(** The acknowledgements of [destroy_concatMsg], part by part. *)
Fixpoint ack_parts (ack : Z) (parts : list (option Msg)) (i n : nat) : res (list store_event) :=
  match n with
  | O => Ok []
  | S n =>
      match parts !! i with
      | None => Undef
      | Some p =>
          es ← ack_parts ack parts (S i) n;
          Ok (match p with Some m => Acked m ack :: es | None => es end)
      end
  end.

(** [destroy_concatMsg] of the structure at an address; it is asserted not to be NULL. *)
Definition destroy_concatMsg (heap : gmap Z ConcatMsg) (p : option Z) : res (gmap Z ConcatMsg * list store_event) :=
  match p with
  | None => Panic
  | Some p =>
      match heap !! p with
      | None => Undef
      | Some c =>
          es ← ack_parts (cm_ack c) (cm_parts c) 0 (Z.to_nat (total_parts c));
          Ok (delete p heap, es)
      end
  end.

(** The values that the dictionary destroys. *)
Fixpoint destroy_values (heap : gmap Z ConcatMsg) (ps : list (option Z)) : res (gmap Z ConcatMsg * list store_event) :=
  match ps with
  | [] => Ok (heap, [])
  | p :: ps =>
      '(heap, es) ← destroy_concatMsg heap p;
      '(heap, es') ← destroy_values heap ps;
      Ok (heap, es ++ es')
  end.

(** The [for] loop over the elements of the user data header: [pos], [c] and [iel]. *)
Fixpoint find_concat_udh (udh : Octstr) (l pos c iel : Z) (fuel : nat) : res (Z * Z * Z) :=
  match fuel with
  | O => Undef
  | S fuel =>
      if pos <? l - 1 then
        iel ← octstr_get_char udh (pos + 1);
        c ← octstr_get_char udh pos;
        if (c =? 0) || (c =? 8) then Ok (pos, c, iel)
        else find_concat_udh udh l (pos + iel + 2) c iel fuel
      else Ok (pos, c, iel)
  end.

(** The header without the element at [pos]. *)
Definition normalize_udh (udhdata : Octstr) (pos iel : Z) : res Octstr :=
  udh ← octstr_duplicate (Some udhdata);
  match udh with
  | None => Undef
  | Some udh =>
      udh ← octstr_delete udh pos (iel + 2);
      n ← octstr_len (Some udh);
      if n <=? 1 then octstr_delete udh 0 n
      else octstr_set_char udh 0 (n - 1)
  end.

(** The rest of the parts after the first. *)
Fixpoint append_parts (md : option Octstr) (parts : list (option Msg)) (i n : nat) : res (option Octstr) :=
  match n with
  | O => Ok md
  | S n =>
      match parts !! i, md with
      | Some (Some m), Some md =>
          md ← octstr_append md (sms_msgdata (m_sms m));
          append_parts (Some md) parts (S i) n
      | _, _ => Undef
      end
  end.

Section concat.
Context `{!Printf}.
Context (save : Msg -> Z * Msg) (now : Z) (id1 id2 id : list Z).

(** '%S' '%S' '%S' '%d' '%d' '%H' *)
Definition key_format : list Z :=
  [39; 37; 83; 39; 32; 39; 37; 83; 39; 32; 39; 37; 83; 39; 32; 39; 37; 100; 39; 32; 39; 37; 100; 39; 32; 39; 37; 72; 39].

Definition concat_key (p : sms) (smscid : Octstr) (refnum totalparts : Z) (udh : Octstr) : res Octstr :=
  octstr_format key_format
    [AOct (sms_sender p); AOct (sms_receiver p); AOct (Some smscid); AInt refnum; AInt totalparts; AOct (Some udh)].

(** The structure for a key, made if there is none: its address [p]. *)
Definition get_cmsg (d : Dict Z) (heap : gmap Z ConcatMsg) (fresh_p : Z) (key smscid udh : Octstr) (refnum totalparts : Z)
  : res (Z * Dict Z * gmap Z ConcatMsg * list store_event) :=
  p ← dict_get d key;
  match p with
  | Some p => Ok (p, d, heap, [])
  | None =>
      k ← octstr_duplicate (Some key);
      s ← octstr_duplicate (Some smscid);
      match k, s with
      | Some k, Some s =>
          let c := mkConcatMsg refnum totalparts 0 (Some udh) 0 k ack_success (replicate (Z.to_nat totalparts) None) s in
          '(d, gone) ← dict_put d key (Some fresh_p);
          '(heap, es) ← destroy_values heap gone;
          Ok (fresh_p, d, <[fresh_p := c]> heap, es)
      | _, _ => Undef
      end
  end.

(** All the parts are there: the whole message, and the structure goes. *)
Definition complete_cmsg (st : concat_state) (d : Dict Z) (heap : gmap Z ConcatMsg) (p : Z) (c : ConcatMsg)
  : res (Z * option Msg * concat_state * list store_event) :=
  match cm_parts c !! 0%nat with
  | Some (Some first) =>
      msg ← msg_duplicate id1 id2 first;
      let msg := with_sms msg (set_id (m_sms msg) id) in
      md ← append_parts (sms_msgdata (m_sms msg)) (cm_parts c) 1 (Z.to_nat (total_parts c) - 1);
      let msg := with_sms msg (set_msgdata (m_sms msg) md) in
      let '(ret, msg) := save msg in
      if ret =? -1 then Ok (concat_error, None, mkConcat (handle_concatenated_mo st) (Some d) heap, [Saved msg])
      else
        let msg' := with_sms msg (set_udhdata (m_sms msg) (cm_udh c)) in
        let heap := <[p := set_cm_udh c None]> heap in
        '(d, gone) ← dict_put d (cm_key c) None;
        '(heap, es) ← destroy_values heap gone;
        Ok (concat_complete, Some msg', mkConcat (handle_concatenated_mo st) (Some d) heap, Saved msg :: es)
  | _ => Undef
  end.

(** The part takes its place in the structure at [p], unless it is there already. *)
Definition put_part (st : concat_state) (d : Dict Z) (heap : gmap Z ConcatMsg) (p part : Z) (msg : Msg) (es : list store_event)
  : res (Z * option Msg * concat_state * list store_event) :=
  match heap !! p with
  | None => Undef
  | Some cmsg =>
      match cm_parts cmsg !! Z.to_nat (part - 1) with
      | None => Undef
      | Some (Some _) =>
          Ok (concat_pending, None, mkConcat (handle_concatenated_mo st) (Some d) heap, es ++ [Acked msg ack_success])
      | Some None =>
          let cmsg := set_cm_parts cmsg (<[Z.to_nat (part - 1) := Some msg]> (cm_parts cmsg)) (num_parts cmsg + 1) now in
          let heap := <[p := cmsg]> heap in
          if num_parts cmsg <? total_parts cmsg then
            Ok (concat_pending, None, mkConcat (handle_concatenated_mo st) (Some d) heap, es)
          else
            '(ret, msg, st, es') ← complete_cmsg st d heap p cmsg;
            Ok (ret, msg, st, es ++ es')
      end
  end.

(** [concat_handling_check_and_handle] on the message [msg]: its result, the message
    that [*pmsg] is afterwards, and what the store was asked. *)
Definition concat_handling_check_and_handle (fresh_p : Z) (msg : Msg) (smscid : option Octstr) (st : concat_state)
  : res (Z * option Msg * concat_state * list store_event) :=
  let none := Ok (concat_none, Some msg, st, []) in
  if negb (handle_concatenated_mo st) then none
  else
    match incoming_concat_msgs st with
    | None => none
    | Some d =>
        l ← octstr_len (sms_udhdata (m_sms msg));
        match sms_udhdata (m_sms msg), smscid with
        | Some udhdata, Some smscid =>
            if l =? 0 then none
            else
              '(pos, c, iel) ← find_concat_udh udhdata l 1 (-1) 0 (S (Z.to_nat l));
              if l <=? pos then none
              else
                let sixteenbit := if c =? 8 then 1 else 0 in
                c2 ← octstr_get_char udhdata (pos + 2);
                c3 ← octstr_get_char udhdata (pos + 3);
                let refnum := if sixteenbit =? 0 then c2 else Z.lor (Z.shiftl c2 8) c3 in
                totalparts ← octstr_get_char udhdata (pos + 3 + sixteenbit);
                part ← octstr_get_char udhdata (pos + 4 + sixteenbit);
                if (part <? 1) || (totalparts <? part) then none
                else
                  udh ← normalize_udh udhdata pos iel;
                  key ← concat_key (m_sms msg) smscid refnum totalparts udh;
                  '(p, d, heap, es) ← get_cmsg d (cmsgs st) fresh_p key smscid udh refnum totalparts;
                  put_part st d heap p part msg es
        | _, _ => none
        end
    end.
End concat.
