(* ===== verification/ConcatProofs.v ===== *)
(** * Concatenated messages: what is proved

    The handler of Concat.v refines a map from keys to the parts that are there, and
    the parts of a message, in whatever order they come and with whatever traffic in
    between, give the message again. *)

From stdpp Require Import gmap.
From S2P Require Import Prelude Octstr OctstrSearch OctstrCode OctstrFormat GwList Dict Uuid Msg Charset Sms Concat.
#[local] Open Scope Z_scope.
#[local] Open Scope kannel_scope.

(** ** The element of the user data header *)

Fixpoint scan_udh (v : list Z) (pos c iel : Z) (fuel : nat) : Z * Z * Z :=
  match fuel with
  | O => (pos, c, iel)
  | S fuel =>
      if pos <? zlen v - 1 then
        let iel := char_at v (pos + 1) in
        let c := char_at v pos in
        if (c =? 0) || (c =? 8) then (pos, c, iel) else scan_udh v (pos + iel + 2) c iel fuel
      else (pos, c, iel)
  end.

(** Where the element is, its length, and the number, the parts and the part in it. *)
Definition concat_header (v : list Z) : option (Z * Z * (Z * Z * Z)) :=
  if zlen v =? 0 then None
  else
    let '(pos, c, iel) := scan_udh v 1 (-1) 0 (S (length v)) in
    if zlen v <=? pos then None
    else
      let s := if c =? 8 then 1 else 0 in
      let ref := if s =? 0 then char_at v (pos + 2) else Z.lor (Z.shiftl (char_at v (pos + 2)) 8) (char_at v (pos + 3)) in
      let total := char_at v (pos + 3 + s) in
      let part := char_at v (pos + 4 + s) in
      if (part <? 1) || (total <? part) then None else Some (pos, iel, (ref, total, part)).


Lemma char_at_in v i : octets v -> 0 <= i < zlen v -> 0 <= char_at v i < 256.
Proof.
  intros Hv Hi. unfold char_at. destruct (Z.leb_spec 0 i); [|lia].
  destruct (lookup_lt_is_Some_2 v (Z.to_nat i)) as [c E]; [list_lia|]. rewrite E. cbn. by apply (Forall_lookup_1 _ _ _ _ Hv E).
Qed.

Lemma char_at_out v i : zlen v <= i -> char_at v i = -1.
Proof.
  intros Hi. unfold char_at. destruct (0 <=? i); [|done]. by rewrite lookup_ge_None_2 by list_lia.
Qed.

Lemma find_concat_udh_ok o v (fuel : nat) : repr o v -> forall pos c iel, 1 <= pos -> zlen v - pos < Z.of_nat fuel -> (0 < fuel)%nat ->
  find_concat_udh o (zlen v) pos c iel fuel = Ok (scan_udh v pos c iel fuel).
Proof.
  intros Ho. induction fuel as [|fuel IH]; intros pos c iel Hp Hf H0; [lia|]. cbn [find_concat_udh scan_udh].
  destruct (Z.ltb_spec pos (zlen v - 1)) as [Hl|]; [|done]. rewrite !(octstr_get_char_ok o v) by done. bind_red.
  destruct ((char_at v pos =? 0) || (char_at v pos =? 8)); [done|].
  pose proof (char_at_in v (pos + 1) (repr_octets _ _ Ho) ltac:(lia)). apply IH; lia.
Qed.

Lemma scan_udh_pos v (fuel : nat) : octets v -> forall pos c iel, 1 <= pos -> 0 <= iel < 256 ->
  let '(pos', _, iel') := scan_udh v pos c iel fuel in 1 <= pos' /\ 0 <= iel' < 256.
Proof.
  intros Hv. induction fuel as [|fuel IH]; intros pos c iel Hp Hi; cbn [scan_udh]; [done|].
  destruct (Z.ltb_spec pos (zlen v - 1)); [|done]. pose proof (char_at_in v (pos + 1) Hv ltac:(lia)).
  cbn zeta. destruct (_ || _); [lia|]. apply IH; lia.
Qed.

Lemma char_at_some v i : octets v -> 0 <= char_at v i -> 0 <= i < zlen v.
Proof.
  intros Hv Hc. destruct (Z.lt_ge_cases i 0); [unfold char_at in Hc; destruct (Z.leb_spec 0 i); lia|].
  destruct (Z.lt_ge_cases i (zlen v)); [lia|]. rewrite char_at_out in Hc by done. lia.
Qed.

Lemma concat_header_range v pos iel ref total part : octets v -> concat_header v = Some (pos, iel, (ref, total, part)) ->
  1 <= pos /\ 0 <= iel < 256 /\ 0 <= ref < 65536 /\ 1 <= part <= total /\ total < 256.
Proof.
  intros Hv. unfold concat_header. destruct (zlen v =? 0); [done|]. pose proof (scan_udh_pos v (S (length v)) Hv 1 (-1) 0) as Hs.
  destruct (scan_udh v 1 (-1) 0 (S (length v))) as [[pos' c] iel']. destruct (Hs ltac:(lia) ltac:(lia)) as [Hp Hi].
  destruct (zlen v <=? pos'); [done|]. cbn zeta. set (s := if c =? 8 then 1 else 0).
  destruct (Z.ltb_spec (char_at v (pos' + 4 + s)) 1); [done|].
  destruct (Z.ltb_spec (char_at v (pos' + 3 + s)) (char_at v (pos' + 4 + s))); [done|]. intros [= <- <- <- <- <-].
  pose proof (char_at_some v (pos' + 4 + s) Hv ltac:(lia)) as Hl. assert (0 <= s <= 1) as Hs1 by (unfold s; destruct (c =? 8); lia).
  pose proof (char_at_in v (pos' + 2) Hv ltac:(lia)). pose proof (char_at_in v (pos' + 3) Hv ltac:(lia)).
  pose proof (char_at_in v (pos' + 3 + s) Hv ltac:(lia)).
  destruct (s =? 0); [lia|]. rewrite lor_shiftl_add by lia. lia.
Qed.

(** ** The key *)

Section key.
Context `{!Printf}.

Definition key_end (ref total : Z) (rest : list Z) : list Z :=
  39 :: sprintf_ld ref ++ 39 :: 32 :: 39 :: sprintf_ld total ++ 39 :: 32 :: 39 :: hex_encode true rest ++ [39].

Definition key_text (sender receiver smsc : list Z) (ref total : Z) (rest : list Z) : list Z :=
  [39] ++ sender ++ [39; 32; 39] ++ receiver ++ [39; 32; 39] ++ smsc ++ [39; 32] ++ key_end ref total rest.

Definition string_ok (o : option Octstr) : Prop := match o with Some o => repr o (bytes o) | None => True end.

Lemma concat_key_ok p smscid s ref total udh rest : string_ok (sms_sender p) -> string_ok (sms_receiver p) -> repr smscid s ->
  0 <= ref < 65536 -> 0 <= total < 256 -> repr udh rest ->
  returns (concat_key p smscid ref total udh) (fun key => reprm key (key_text (oct_text (sms_sender p)) (oct_text (sms_receiver p)) s ref total rest)).
Proof.
  intros Hs Hr Hi Href Ht Hu. unfold concat_key.
  set (segs := [mkSegment [39] (plain_dir 0 83) (AOct (sms_sender p)); mkSegment [39; 32; 39] (plain_dir 0 83) (AOct (sms_receiver p));
    mkSegment [39; 32; 39] (plain_dir 0 83) (AOct (Some smscid)); mkSegment [39; 32; 39] (plain_dir 0 100) (AInt ref);
    mkSegment [39; 32; 39] (plain_dir 0 100) (AInt total); mkSegment [39; 32; 39] (plain_dir 0 72) (AOct (Some udh))]).
  assert (Forall seg_ok segs) as Hsegs.
  { unfold segs. repeat (apply Forall_cons_2; [apply plain_seg_ok; [literal_tac|by apply (bool_decide_unpack _)..| |by eexists]|]);
      [done|done| |done|done| |apply Forall_nil_2]; cbn; by rewrite ?(repr_bytes _ _ Hi), ?(repr_bytes _ _ Hu). }
  pose proof (octstr_format_ok segs [39] Hsegs ltac:(literal_tac)) as L. apply (returns_mono _ _ _ L). intros o Ho.
  assert (forall n, 0 <= n < 65536 -> render_conv (plain_dir 0 100) (AInt n) = Some (sprintf_ld n)) as Hn.
  { intros n Hn. unfold render_conv. cbn -[sprintf_ld swrap]. unfold signed_arg. cbn -[sprintf_ld swrap].
    by rewrite swrap_small by lia. }
  unfold segs in Ho. cbn [fmap list_fmap concat] in Ho.
  rewrite (plain_render [39] 0 83 (AOct (sms_sender p)) (oct_text (sms_sender p)) eq_refl),
    (plain_render _ 0 83 (AOct (sms_receiver p)) (oct_text (sms_receiver p)) eq_refl),
    (plain_render _ 0 83 (AOct (Some smscid)) (bytes smscid) eq_refl), (plain_render _ 0 100 (AInt ref) (sprintf_ld ref) (Hn _ Href)),
    (plain_render _ 0 100 (AInt total) (sprintf_ld total) (Hn total ltac:(lia))),
    (plain_render _ 0 72 (AOct (Some udh)) (hex_encode true (bytes udh)) eq_refl), (repr_bytes _ _ Hi), (repr_bytes _ _ Hu) in Ho.
  unfold key_text, key_end. rewrite app_nil_r in Ho. repeat (rewrite <- ?app_assoc in *; cbn [app] in * ). exact Ho.
Qed.
End key.

(** The end of a key tells the number of parts and the rest of the header. *)
Lemma last_quote (a b h k : list Z) : 39 ∉ h -> 39 ∉ k -> a ++ 39 :: h = b ++ 39 :: k -> a = b /\ h = k.
Proof.
  intros Hh Hk E. apply app_eq_inv in E as [(l & -> & E)|(l & -> & E)]; destruct l as [|x l]; cbn [app] in E; simplify_eq;
    rewrite ?app_nil_r; try done; [destruct Hk|destruct Hh]; apply elem_of_app; right; apply elem_of_cons; by left.
Qed.

Lemma decimal_no_quote n : 0 <= n -> 39 ∉ sprintf_ld n.
Proof.
  intros Hn Hin. unfold sprintf_ld in Hin. destruct (Z.ltb_spec n 0); [lia|].
  pose proof (print_base_digits 10 false ltac:(lia) 20 n Hn) as Hd. rewrite list.Forall_forall in Hd.
  destruct (Hd _ Hin) as (d & Hd' & E). assert (d = 0 \/ d = 1 \/ d = 2 \/ d = 3 \/ d = 4 \/ d = 5 \/ d = 6 \/ d = 7 \/ d = 8 \/ d = 9) as Hc by lia.
  by destruct Hc as [-> | [-> | [-> | [-> | [-> | [-> | [-> | [-> | [-> | ->]]]]]]]]].
Qed.

Lemma hex_no_quote s : octets s -> 39 ∉ hex_encode true s.
Proof.
  intros Hs Hin. pose proof (hex_encode_xdigits true s Hs) as H. rewrite forallb_forall in H.
  apply list_elem_of_In in Hin. by apply H in Hin.
Qed.

Lemma decimal_inj n m : 0 <= n < 65536 -> 0 <= m < 65536 -> sprintf_ld n = sprintf_ld m -> n = m.
Proof.
  intros Hn Hm E. pose proof (strtol_sprintf_ld n [] ltac:(unfold LONG_MIN, LONG_MAX; lia) I) as H1.
  pose proof (strtol_sprintf_ld m [] ltac:(unfold LONG_MIN, LONG_MAX; lia) I) as H2. rewrite E in H1. congruence.
Qed.

Lemma key_end_inj (a b u v : list Z) r t r' t' : octets u -> octets v ->
  0 <= r < 65536 -> 0 <= t < 65536 -> 0 <= r' < 65536 -> 0 <= t' < 65536 ->
  a ++ key_end r t u = b ++ key_end r' t' v -> t = t' /\ u = v.
Proof.
  intros Hu Hv Hr Ht Hr' Ht' E. unfold key_end in E. 
  set (ra := sprintf_ld r) in *. set (rb := sprintf_ld r') in *. set (ta := sprintf_ld t) in *. set (tb := sprintf_ld t') in *.
  assert (forall x p q h, x ++ 39 :: p ++ 39 :: 32 :: 39 :: q ++ 39 :: 32 :: 39 :: h ++ [39] =
    ((x ++ 39 :: p ++ [39; 32]) ++ 39 :: q ++ [39; 32]) ++ 39 :: h ++ [39]) as Ha.
  { intros. repeat (rewrite <- ?app_assoc; cbn [app]). done. }
  rewrite !Ha in E.
  assert (forall x (h : list Z), x ++ 39 :: h ++ [39] = (x ++ 39 :: h) ++ [39]) as Hb by (intros; by rewrite <- app_assoc).
  rewrite !Hb in E. apply app_inj_tail in E as [E _]. apply last_quote in E as [E Eh]; [|by apply hex_no_quote..].
  split; [|by rewrite <- (hex_decode_encode true u Hu), Eh, hex_decode_encode].
  assert (forall x (q : list Z), x ++ 39 :: q ++ [39; 32] = (x ++ 39 :: q) ++ [39; 32]) as Hc by (intros; by rewrite <- app_assoc).
  rewrite !Hc in E. apply app_inj_2 in E as [E _]; [|done].
  apply last_quote in E as [_ E]; [by apply decimal_inj|by apply decimal_no_quote; lia..].
Qed.

Definition without (v : list Z) (pos iel : Z) : list Z :=
  let w := cut v pos (iel + 2) in
  if zlen w <=? 1 then [] else <[0%nat := (zlen w - 1) mod 256]> w.

Lemma normalize_udh_ok o v pos iel : repr o v -> 0 <= pos -> 0 <= iel < 256 ->
  returns (normalize_udh o pos iel) (fun u => reprm u (without v pos iel)).
Proof.
  intros Ho Hp Hi. unfold normalize_udh. apply returns_bind, (returns_mono _ _ _ (octstr_duplicate_ok o v Ho)).
  intros o1 (u & -> & Hu). apply returns_bind, (returns_mono _ _ _ (octstr_delete_ok u v pos (iel + 2) Hu Hp ltac:(lia) ltac:(long_lia))).
  intros u1 Hu1. rewrite (octstr_len_ok u1 _ (proj1 Hu1)). bind_red. unfold without. cbn zeta.
  set (w := cut v pos (iel + 2)) in *. destruct (Z.leb_spec (zlen w) 1).
  - apply (returns_mono _ _ _ (octstr_delete_ok u1 w 0 (zlen w) Hu1 ltac:(lia) (zlen_nonneg w) ltac:(long_lia))). intros u2 Hu2.
    assert (cut w 0 (zlen w) = []) as E; [|by rewrite E in Hu2]. unfold cut. cbn. apply drop_ge. list_lia.
  - apply (octstr_set_char_ok u1 w 0 (zlen w - 1) Hu1). lia.
Qed.

(** ** The parts that are there *)

Definition present (ps : list (option Msg)) : list Msg := omap (fun p => p) ps.
Definition filled (ps : list (option Msg)) : Z := zlen (present ps).

Lemma filled_insert ps i m : ps !! i = Some None -> filled (<[i := Some m]> ps) = filled ps + 1.
Proof.
  intros Hi. pose proof (take_drop_middle ps i None Hi) as E. pose proof (lookup_lt_Some _ _ _ Hi) as Hl.
  rewrite insert_take_drop by done. unfold filled, present. rewrite <- E at 3. rewrite !omap_app. cbn. list_lia.
Qed.

Lemma filled_le ps : filled ps <= zlen ps.
Proof. unfold filled, present. induction ps as [|[m|] ps IH]; cbn [omap list_omap]; list_lia. Qed.

Lemma filled_all ps : filled ps = zlen ps -> ps = Some <$> present ps.
Proof.
  unfold filled, present. induction ps as [|[m|] ps IH]; intros E; [done| |].
  - cbn [omap list_omap fmap list_fmap]. f_equal. apply IH. cbn [omap list_omap] in E. list_lia.
  - cbn [omap list_omap] in E. pose proof (filled_le ps) as L. unfold filled, present in L. list_lia.
Qed.

Lemma present_all ms : present (Some <$> ms) = ms.
Proof. unfold present. induction ms as [|m ms IH]; [done|]. cbn. by f_equal. Qed.

Lemma present_replicate (n : nat) : present (replicate n None) = [].
Proof. unfold present. by induction n. Qed.

Lemma present_elem m ps : m ∈ present ps <-> Some m ∈ ps.
Proof.
  unfold present. rewrite list_elem_of_omap. split; [by intros (x & Hx & ->)|]. intros H. by exists (Some m).
Qed.

Definition text (m : Msg) : list Z := match sms_msgdata (m_sms m) with Some o => bytes o | None => [] end.

Definition part_ok (m : Msg) : Prop :=
  m_type m = T_SMS /\ msg_valid m /\ exists o, sms_msgdata (m_sms m) = Some o /\ reprm o (text m).

Lemma ack_parts_ok ack ps : forall (i n : nat), (i + n = length ps)%nat ->
  ack_parts ack ps i n = Ok ((fun m => Acked m ack) <$> present (drop i ps)).
Proof.
  intros i n. revert i. induction n as [|n IH]; intros i Hi; cbn [ack_parts]; [by rewrite drop_ge by lia|].
  destruct (lookup_lt_is_Some_2 ps i) as [p Hp]; [lia|]. rewrite Hp, (IH (S i)) by lia. bind_red.
  rewrite (drop_S _ _ _ Hp). unfold present. by destruct p.
Qed.

Lemma append_parts_ok (ms : list Msg) : Forall part_ok ms -> forall (n i : nat) md s, (i + n = length ms)%nat -> reprm md s ->
  returns (append_parts (Some md) (Some <$> ms) i n) (fun md' => exists o, md' = Some o /\ reprm o (s ++ concat (text <$> drop i ms))).
Proof.
  intros Hms. induction n as [|n IH]; intros i md s Hi Hmd; cbn [append_parts].
  { exists md. split; [done|]. rewrite drop_ge by lia. cbn. by rewrite app_nil_r. }
  destruct (lookup_lt_is_Some_2 ms i) as [m Hm]; [lia|]. rewrite list_lookup_fmap, Hm. cbn [fmap option_fmap option_map].
  destruct (Forall_lookup_1 _ _ _ _ Hms Hm) as (_ & _ & o & Eo & Ho). rewrite Eo. apply returns_bind.
  apply (returns_mono _ _ _ (octstr_append_ok md o s (text m) Hmd (proj1 Ho))). intros md' Hmd'.
  apply (returns_mono _ _ _ (IH (S i) md' _ ltac:(lia) Hmd')). intros r (o' & -> & Ho'). exists o'. split; [done|].
  rewrite (drop_S _ _ _ Hm). cbn [fmap list_fmap concat]. by rewrite app_assoc.
Qed.

(** ** What the dictionary stands for: for each key, the parts that are there *)

Record waiting := mkWaiting { w_rest : list Z; w_parts : list (option Msg) }.

Record cm_is (c : ConcatMsg) (k : list Z) (w : waiting) : Prop := {
  ci_total : total_parts c = zlen (w_parts w);
  ci_num : num_parts c = filled (w_parts w);
  ci_udh : exists o, cm_udh c = Some o /\ reprm o (w_rest w);
  ci_key : repr (cm_key c) k;
  ci_ack : cm_ack c = ack_success;
  ci_parts : cm_parts c = w_parts w;
  ci_text : exists a ref, k = a ++ key_end ref (zlen (w_parts w)) (w_rest w) /\ 0 <= ref < 65536;
  ci_size : 0 < zlen (w_parts w) < 256;
  ci_octets : octets (w_rest w);
  ci_ok : Forall part_ok (present (w_parts w))
}.

Record table_ok (d : Dict Z) (heap : gmap Z ConcatMsg) (m : gmap (list Z) Z) (A : gmap (list Z) waiting) : Prop := {
  to_dict : dict_holds d m;
  to_destroy : d_destroy d = true;
  to_in : forall k p, m !! k = Some p -> exists c w, heap !! p = Some c /\ A !! k = Some w /\ cm_is c k w;
  to_out : forall k, m !! k = None -> A !! k = None;
  to_heap : forall p c, heap !! p = Some c -> exists k, m !! k = Some p
}.

Lemma table_key_inj d heap m A k k' p : table_ok d heap m A -> m !! k = Some p -> m !! k' = Some p -> k = k'.
Proof.
  intros H Hk Hk'. destruct (to_in _ _ _ _ H k p Hk) as (c & w & E & _ & Hc). destruct (to_in _ _ _ _ H k' p Hk') as (c' & w' & E' & _ & Hc').
  simplify_eq. exact (repr_functional _ _ _ (ci_key _ _ _ Hc) (ci_key _ _ _ Hc')).
Qed.

Lemma table_update d heap m A k p c w : table_ok d heap m A -> m !! k = Some p -> cm_is c k w ->
  table_ok d (<[p := c]> heap) m (<[k := w]> A).
Proof.
  intros H Hk Hc. pose proof (table_key_inj d heap m A) as Hinj. pose proof H as [H1 H2 H3 H4 H5]. constructor; [done|done| | |].
  - intros k' p' Hk'. destruct (decide (k' = k)) as [->|Hne].
    + replace p' with p by congruence. exists c, w. by rewrite !lookup_insert_eq.
    + destruct (H3 k' p' Hk') as (c' & w' & E1 & E2 & Hc'). exists c', w'. rewrite !lookup_insert_ne; [done|done|].
      intros ->. by apply Hne, (Hinj k' k p' H).
  - intros k' Hk'. rewrite lookup_insert_ne by (intros ->; congruence). by apply H4.
  - intros p' c' E. destruct (decide (p' = p)) as [->|Hne]; [by exists k|]. rewrite lookup_insert_ne in E by done. by apply (H5 p' c').
Qed.

Lemma table_new d heap m A k p c w d' : table_ok d heap m A -> m !! k = None -> heap !! p = None -> cm_is c k w ->
  dict_holds d' (<[k := p]> m) -> d_destroy d' = true -> table_ok d' (<[p := c]> heap) (<[k := p]> m) (<[k := w]> A).
Proof.
  intros [H1 H2 H3 H4 H5] Hk Hp Hc Hd Hdd. constructor; [done|done| | |].
  - intros k' p' Hk'. destruct (decide (k' = k)) as [->|Hne].
    + rewrite lookup_insert_eq in Hk'. injection Hk' as <-. exists c, w. by rewrite !lookup_insert_eq.
    + rewrite lookup_insert_ne in Hk' by done. destruct (H3 k' p' Hk') as (c' & w' & E1 & E2 & Hc'). exists c', w'.
      rewrite !lookup_insert_ne; [done|done|congruence].
  - intros k' Hk'. destruct (decide (k' = k)) as [->|Hne]; [by rewrite lookup_insert_eq in Hk'|].
    rewrite lookup_insert_ne in Hk' by done. rewrite lookup_insert_ne by done. by apply H4.
  - intros p' c' E. destruct (decide (p' = p)) as [->|Hne]; [exists k; by rewrite lookup_insert_eq|].
    rewrite lookup_insert_ne in E by done. destruct (H5 p' c' E) as [k' Hk']. exists k'. rewrite lookup_insert_ne; [done|congruence].
Qed.

Lemma table_drop d heap m A k p d' : table_ok d heap m A -> m !! k = Some p ->
  dict_holds d' (delete k m) -> d_destroy d' = true -> table_ok d' (delete p heap) (delete k m) (delete k A).
Proof.
  intros H Hk Hd Hdd. pose proof (table_key_inj d heap m A) as Hinj. pose proof H as [H1 H2 H3 H4 H5]. constructor; [done|done| | |].
  - intros k' p' Hk'. apply lookup_delete_Some in Hk' as [Hne Hk']. destruct (H3 k' p' Hk') as (c' & w' & E1 & E2 & Hc').
    exists c', w'. rewrite !lookup_delete_ne; [done|done|]. intros ->. by apply Hne, (Hinj k k' p' H).
  - intros k' Hk'. destruct (decide (k' = k)) as [->|Hne]; [by rewrite lookup_delete_eq|].
    rewrite lookup_delete_ne in Hk' by done. rewrite lookup_delete_ne by done. by apply H4.
  - intros p' c' E. apply lookup_delete_Some in E as [Hne E]. destruct (H5 p' c' E) as [k' Hk']. exists k'.
    rewrite lookup_delete_ne; [done|congruence].
Qed.

Definition concat_holds (st : concat_state) (A : gmap (list Z) waiting) : Prop :=
  handle_concatenated_mo st = true /\ exists d m, incoming_concat_msgs st = Some d /\ table_ok d (cmsgs st) m A.

(** What waits for a key, or an empty place for all the parts. *)
Definition waiting_for (A : gmap (list Z) waiting) (k : list Z) (total : Z) (rest : list Z) : waiting :=
  default (mkWaiting rest (replicate (Z.to_nat total) None)) (A !! k).

(** The store may fill in the identifier and the time of what it saves. *)
Definition fills_in (save : Msg -> Z * Msg) : Prop :=
  forall m, exists i t, (save m).2 = with_sms m (set_sms_time (set_id (m_sms m) i) t).

Definition same_content (a b : option Octstr) : Prop := forall s, content a s -> content b s.

(** The message [m] says what the parts [ms] say together, from and to where the
    first part was. *)
Definition says (ms : list Msg) (m : Msg) : Prop :=
  m_type m = T_SMS /\ content (sms_msgdata (m_sms m)) (concat (text <$> ms)) /\
  exists first tail, ms = first :: tail /\
    same_content (sms_sender (m_sms first)) (sms_sender (m_sms m)) /\
    same_content (sms_receiver (m_sms first)) (sms_receiver (m_sms m)).

Lemma copy_numbers (p p' : sms) : Forall2 copy_of (sms_values p) (sms_values p') ->
  same_content (sms_sender p) (sms_sender p') /\ same_content (sms_receiver p) (sms_receiver p').
Proof.
  intros HF. rewrite Forall2_lookup in HF. pose proof (HF 0%nat) as H0. pose proof (HF 1%nat) as H1. simpl in *.
  inversion H0 as [? ? C0|]; inversion H1 as [? ? C1|]; subst. inversion C0; inversion C1; subst. done.
Qed.

(** What a message is to the handler: a part, with its key, the number of parts, its
    own number and the rest of its header; or [None]. *)
Definition classify (msg : Msg) (smscid : option Octstr) : option (list Z * Z * Z * list Z) :=
  match sms_udhdata (m_sms msg), smscid with
  | Some o, Some s =>
      match concat_header (bytes o) with
      | Some (pos, iel, (ref, total, part)) =>
          let rest := without (bytes o) pos iel in
          Some (key_text (oct_text (sms_sender (m_sms msg))) (oct_text (sms_receiver (m_sms msg))) (bytes s) ref total rest, total, part, rest)
      | None => None
      end
  | _, _ => None
  end.

Definition with_part (w : waiting) (part : Z) (msg : Msg) : waiting :=
  mkWaiting (w_rest w) (<[Z.to_nat (part - 1) := Some msg]> (w_parts w)).

(** A step on the map: the new map, the result, the message that goes on, and what
    the store is asked. *)
Inductive concat_step (A : gmap (list Z) waiting) (msg : Msg) (smscid : option Octstr)
    : gmap (list Z) waiting -> Z -> option Msg -> list store_event -> Prop :=
| step_other : classify msg smscid = None -> concat_step A msg smscid A concat_none (Some msg) []
| step_again k total part rest m0 :
    classify msg smscid = Some (k, total, part, rest) ->
    w_parts (waiting_for A k total rest) !! Z.to_nat (part - 1) = Some (Some m0) ->
    concat_step A msg smscid A concat_pending None [Acked msg ack_success]
| step_part k total part rest :
    classify msg smscid = Some (k, total, part, rest) ->
    let w := waiting_for A k total rest in
    w_parts w !! Z.to_nat (part - 1) = Some None ->
    filled (w_parts (with_part w part msg)) < zlen (w_parts w) ->
    concat_step A msg smscid (<[k := with_part w part msg]> A) concat_pending None []
| step_last k total part rest ms saved u :
    classify msg smscid = Some (k, total, part, rest) ->
    let w := waiting_for A k total rest in
    w_parts w !! Z.to_nat (part - 1) = Some None -> w_parts (with_part w part msg) = Some <$> ms ->
    says ms saved -> reprm u rest ->
    concat_step A msg smscid (delete k A) concat_complete (Some (with_sms saved (set_udhdata (m_sms saved) (Some u))))
      (Saved saved :: ((fun x => Acked x ack_success) <$> ms))
| step_unsaved k total part rest ms saved :
    classify msg smscid = Some (k, total, part, rest) ->
    let w := waiting_for A k total rest in
    w_parts w !! Z.to_nat (part - 1) = Some None -> w_parts (with_part w part msg) = Some <$> ms ->
    says ms saved ->
    concat_step A msg smscid (<[k := with_part w part msg]> A) concat_error None [Saved saved].

Lemma valid_strings m : msg_valid m ->
  string_ok (sms_sender (m_sms m)) /\ string_ok (sms_receiver (m_sms m)) /\ string_ok (sms_udhdata (m_sms m)).
Proof.
  intros Hm. assert (Forall valid_value (sms_values (m_sms m))) as Hv by (by apply (Forall_lookup_1 _ _ 2%nat _ Hm)).
  assert (forall (i : nat) o, sms_values (m_sms m) !! i = Some (VStr o) -> string_ok o) as Hs.
  { intros i o E. pose proof (Forall_lookup_1 _ _ _ _ Hv E) as Ho. inversion Ho as [|o' s Hc| |]; subst.
    destruct o as [o|]; cbn in *; [|done]. rewrite (repr_bytes _ _ (proj1 Hc)). apply Hc. }
  split_and!; [by apply (Hs 0%nat)|by apply (Hs 1%nat)|by apply (Hs 2%nat)].
Qed.

Lemma waiting_consistent d heap m A k total rest a ref : table_ok d heap m A -> k = a ++ key_end ref total rest ->
  0 <= ref < 65536 -> 0 < total < 256 -> octets rest ->
  zlen (w_parts (waiting_for A k total rest)) = total /\ w_rest (waiting_for A k total rest) = rest.
Proof.
  intros H Ek Href Ht Ho. unfold waiting_for. destruct (A !! k) as [w|] eqn:EA; cbn [default w_parts w_rest]; [|split; [list_lia|done]].
  destruct (m !! k) as [p|] eqn:Em; [|by rewrite (to_out _ _ _ _ H k Em) in EA].
  destruct (to_in _ _ _ _ H k p Em) as (c & w' & _ & EA' & Hc). simplify_eq.
  destruct (ci_text _ _ _ Hc) as (a' & ref' & E & Href'). pose proof (ci_size _ _ _ Hc).
  destruct (key_end_inj a a' rest (w_rest w) ref total ref' (zlen (w_parts w)) Ho (ci_octets _ _ _ Hc)) as [-> ->]; [lia..|done|].
  unfold from_option, id. done.
Qed.

Section handler.
Context {PF : Printf}.

Lemma get_cmsg_ok d heap m A fresh_p key k smscid s udh rest a ref total : table_ok d heap m A -> heap !! fresh_p = None ->
  reprm key k -> repr smscid s -> reprm udh rest -> k = a ++ key_end ref total rest -> 0 <= ref < 65536 -> 0 < total < 256 ->
  returns (get_cmsg d heap fresh_p key smscid udh ref total) (fun '(p, d', heap', es) => exists m',
    es = [] /\ m' !! k = Some p /\ table_ok d' heap' m' (<[k := waiting_for A k total rest]> A)).
Proof.
  intros H Hf Hk Hs Hu Ek Href Ht. unfold get_cmsg, waiting_for. destruct (to_dict _ _ _ _ H) as [B HB].
  rewrite (dict_get_ok d m B key k HB (proj1 Hk)). bind_red. destruct (m !! k) as [p|] eqn:Em.
  - destruct (to_in _ _ _ _ H k p Em) as (c & w & E & EA & _). rewrite EA. cbn. exists m. by rewrite insert_id.
  - rewrite (to_out _ _ _ _ H k Em). cbn [default]. apply returns_bind, (returns_mono _ _ _ (octstr_duplicate_ok key k (proj1 Hk))).
    intros o1 (k1 & -> & Hk1). apply returns_bind, (returns_mono _ _ _ (octstr_duplicate_ok smscid s Hs)). intros o2 (s1 & -> & Hs1).
    apply returns_bind, (returns_mono _ _ _ (dict_put_value_ok d m B key k fresh_p HB (proj1 Hk))). intros [d' gone'] (Hd' & Edd & ->).
    unfold gone. rewrite Em. rewrite (to_destroy _ _ _ _ H) in Edd. cbn [destroy_values]. bind_red. cbn [returns].
    exists (<[k := fresh_p]> m). split; [done|]. split; [apply lookup_insert_eq|]. apply (table_new d heap m A); try done.
    constructor; cbn; [list_lia|unfold filled; by rewrite present_replicate|by exists udh|apply Hk1|done|done| |list_lia| |].
    + exists a, ref. split; [|done]. by replace (zlen (replicate (Z.to_nat total) (@None Msg))) with total by list_lia.
    + apply (repr_octets _ _ (proj1 Hu)).
    + rewrite present_replicate. apply Forall_nil_2.
Qed.

Context (save : Msg -> Z * Msg) (Hsave : fills_in save) (now : Z) (id1 id2 id : list Z).

Lemma complete_cmsg_ok st d heap m A k p c w ms : table_ok d heap m A -> m !! k = Some p -> heap !! p = Some c -> cm_is c k w ->
  A !! k = Some w -> w_parts w = Some <$> ms ->
  returns (complete_cmsg save id1 id2 id st d heap p c) (fun '(ret, r, st', es) => exists saved,
    says ms saved /\
    (exists first, head ms = Some first /\ same_content (sms_udhdata (m_sms first)) (sms_udhdata (m_sms saved))) /\
    (ret = concat_error /\ r = None /\ es = [Saved saved] /\ st' = mkConcat (handle_concatenated_mo st) (Some d) heap /\
       (exists x, (save x).1 = -1) \/
     exists u d' heap', ret = concat_complete /\ r = Some (with_sms saved (set_udhdata (m_sms saved) (Some u))) /\
       reprm u (w_rest w) /\ es = Saved saved :: ((fun x => Acked x ack_success) <$> ms) /\
       st' = mkConcat (handle_concatenated_mo st) (Some d') heap' /\ table_ok d' heap' (delete k m) (delete k A))).
Proof.
  intros H Hk Hp Hc HA Ems. pose proof (ci_ok _ _ _ Hc) as Hok. rewrite Ems, present_all in Hok.
  pose proof (ci_size _ _ _ Hc) as Hsz. rewrite Ems in Hsz. destruct ms as [|first tl]; [list_lia|].
  unfold complete_cmsg. rewrite (ci_parts _ _ _ Hc), Ems. cbn [fmap list_fmap lookup list_lookup].
  pose proof Hok as Hok'. apply Forall_cons_iff in Hok' as [(Et & Hv & o & Eo & Ho) Htl].
  apply returns_bind, (returns_mono _ _ _ (msg_duplicate_ok id1 id2 first Hv)). intros dup [Ed Hd].
  destruct (copy_fields _ _ Hd) as (Cu & Cm & Cn & _). destruct (copy_numbers _ _ Hd) as [Cs Cr].
  destruct (sms_msgdata (m_sms dup)) as [md|] eqn:Emd; [|by destruct Cn as [_ Cn]; rewrite Eo in Cn; specialize (Cn eq_refl)].
  assert (reprm md (text first)) as Hmd by (apply (Cm (text first)); by rewrite Eo). cbn zeta.
  change (sms_msgdata (m_sms (with_sms dup (set_id (m_sms dup) id)))) with (sms_msgdata (m_sms dup)). rewrite Emd.
  apply returns_bind. change (Some first :: _) with (Some <$> first :: tl).
  assert (Z.to_nat (total_parts c) - 1 = length tl)%nat as -> by (rewrite (ci_total _ _ _ Hc), Ems; list_lia).
  apply (returns_mono _ _ _ (append_parts_ok (first :: tl) Hok (length tl) 1 md (text first) eq_refl Hmd)).
  intros r (o' & -> & Ho'). set (msg := with_sms _ (set_msgdata _ _)). destruct (Hsave msg) as (i & t & Esv).
  destruct (save msg) as [ret saved] eqn:Es. cbn [snd] in Esv. subst saved. set (saved := with_sms msg _) in *.
  assert (says (first :: tl) saved) as Hsays.
  { split; [by rewrite <- Et, <- Ed|]. split; [exact Ho'|]. exists first, tl. done. }
  destruct (Z.eqb_spec ret (-1)) as [->|Hne].
  { cbn [returns]. exists saved. split; [done|]. split; [by exists first|]. left. split_and!; [done..|]. exists msg. by rewrite Es. }
  apply returns_bind. destruct (to_dict _ _ _ _ H) as [B HB].
  apply (returns_mono _ _ _ (dict_put_null_ok d m B (cm_key c) k HB (ci_key _ _ _ Hc))). intros [d' gone'] (Hd' & Edd & ->).
  rewrite (to_destroy _ _ _ _ H) in Edd. unfold destroys. rewrite (to_destroy _ _ _ _ H), Hk. cbn [destroy_values destroy_concatMsg].
  rewrite lookup_insert_eq. cbn [set_cm_udh cm_ack cm_parts total_parts].
  rewrite (ack_parts_ok (cm_ack c) (cm_parts c) 0) by (rewrite (ci_total _ _ _ Hc), (ci_parts _ _ _ Hc); list_lia). bind_red.
  rewrite drop_0, (ci_parts _ _ _ Hc), Ems, present_all, (ci_ack _ _ _ Hc), app_nil_r, delete_insert_eq. cbn [returns].
  exists saved. split; [done|]. split; [by exists first|]. right. destruct (ci_udh _ _ _ Hc) as (u & -> & Hu).
  exists u, d', (delete p heap). split_and!; try done. by apply (table_drop d).
Qed.

(** A part that was not there takes its place. *)
Lemma cm_is_part c k w part msg : cm_is c k w -> part_ok msg -> w_parts w !! Z.to_nat (part - 1) = Some None ->
  cm_is (set_cm_parts c (<[Z.to_nat (part - 1) := Some msg]> (cm_parts c)) (num_parts c + 1) now) k (with_part w part msg).
Proof.
  intros [H1 H2 H3 H4 H5 H6 H7 H8 H9 H10] Hm Hp. assert (zlen (w_parts (with_part w part msg)) = zlen (w_parts w)) as El.
  { unfold with_part, zlen. cbn. by rewrite length_insert. }
  constructor; rewrite ?El; cbn [set_cm_parts total_parts num_parts cm_udh cm_key cm_ack cm_parts with_part w_parts w_rest]; try done.
  - by rewrite filled_insert, H2.
  - by rewrite H6.
  - apply list.Forall_forall. intros x Hx. apply present_elem, list_elem_of_lookup in Hx as [i Hi].
    apply list_lookup_insert_Some in Hi as [(_ & [= <-] & _)|[_ Hi]]; [done|].
    apply (proj1 (list.Forall_forall _ _) H10). apply present_elem. by apply list_elem_of_lookup_2 with i.
Qed.

Definition step_result (A : gmap (list Z) waiting) (msg : Msg) (smscid : option Octstr)
    (x : Z * option Msg * concat_state * list store_event) : Prop :=
  let '(ret, r, st', es) := x in
  exists A', concat_step A msg smscid A' ret r es /\ concat_holds st' A' /\ (ret = concat_error -> exists x, (save x).1 = -1).

(** The handler once it knows the part. *)
Lemma put_part_ok st d heap m A msg smscid k total part rest p : handle_concatenated_mo st = true ->
  classify msg smscid = Some (k, total, part, rest) -> part_ok msg -> 1 <= part <= total ->
  zlen (w_parts (waiting_for A k total rest)) = total -> w_rest (waiting_for A k total rest) = rest ->
  table_ok d heap m (<[k := waiting_for A k total rest]> A) -> m !! k = Some p ->
  returns (put_part save now id1 id2 id st d heap p part msg []) (step_result A msg smscid).
Proof.
  intros Hh Hcl Hm Hpart Et Er H Hk. unfold put_part. set (w := waiting_for A k total rest) in *.
  destruct (to_in _ _ _ _ H k p Hk) as (c & w0 & Ec & Ew & Hc). rewrite lookup_insert_eq in Ew. injection Ew as <-. rewrite Ec.
  rewrite (ci_parts _ _ _ Hc). destruct (lookup_lt_is_Some_2 (w_parts w) (Z.to_nat (part - 1))) as [x Hx]; [list_lia|]. rewrite Hx.
  destruct x as [m0|].
  { cbn [returns step_result app]. exists A. split; [by eapply step_again|]. split; [|done]. split; [done|]. exists d, m. split; [done|].
    assert (A !! k = Some w) as EA.
    { unfold w, waiting_for in Hx |- *. destruct (A !! k) as [w'|]; [done|]. cbn in Hx.
      apply lookup_replicate_1 in Hx as [? _]. done. }
    by rewrite insert_id in H. }
  cbn zeta. pose proof (cm_is_part c k w part msg Hc Hm Hx) as Hc'. rewrite (ci_parts _ _ _ Hc) in Hc'.
  set (c' := set_cm_parts _ _ _ _) in *. set (w' := with_part w part msg) in *.
  pose proof (table_update d heap m _ k p c' w' H Hk Hc') as H'. rewrite insert_insert_eq in H'.
  rewrite (ci_num _ _ _ Hc'), (ci_total _ _ _ Hc'). assert (zlen (w_parts w') = zlen (w_parts w)) as El by (unfold w', with_part, zlen; cbn; by rewrite length_insert).
  destruct (Z.ltb_spec (filled (w_parts w')) (zlen (w_parts w'))) as [Hlt|Hge].
  { cbn [returns step_result]. exists (<[k := w']> A). split; [apply (step_part A msg smscid k total part rest Hcl Hx); fold w w'; lia|].
    split; [|done]. split; [done|]. by exists d, m. }
  pose proof (filled_le (w_parts w')). pose proof (filled_all (w_parts w') ltac:(lia)) as Eall.
  apply returns_bind. eapply returns_mono;
    [apply (complete_cmsg_ok st d (<[p := c']> heap) m (<[k := w']> A) k p c' w' (present (w_parts w')) H' Hk);
       [by rewrite lookup_insert_eq|done|by rewrite lookup_insert_eq|done]|].
  intros [[[ret r] st'] es] (saved & Hs & _ & [(-> & -> & -> & -> & Hx0)|(u & d' & heap' & -> & -> & Hu & -> & -> & Hd')]);
    cbn [returns step_result app].
  - exists (<[k := w']> A). split; [exact (step_unsaved A msg smscid k total part rest _ saved Hcl Hx Eall Hs)|]. split; [|done]. split; [done|]. by exists d, m.
  - exists (delete k A). split; [|split; [|done]; split; [done|]; exists d', (delete k m); split; [done|]; by rewrite delete_insert_eq in Hd'].
    apply (step_last A msg smscid k total part rest _ saved u Hcl Hx Eall Hs). unfold w' in Hu. cbn [with_part w_rest] in Hu. by rewrite Er in Hu.
Qed.

Lemma handle_ok st A fresh_p msg smscid : concat_holds st A -> cmsgs st !! fresh_p = None -> part_ok msg -> string_ok smscid ->
  returns (concat_handling_check_and_handle save now id1 id2 id fresh_p msg smscid st) (step_result A msg smscid).
Proof.
  intros Hst Hf Hm Hs. pose proof Hst as (Hh & d & m & Ed & H). pose proof Hm as (_ & Hv & _).
  destruct (valid_strings msg Hv) as (Hsnd & Hrcv & Hudh). unfold concat_handling_check_and_handle. rewrite Hh, Ed. cbn [negb].
  assert (classify msg smscid = None -> returns (Ok (concat_none, Some msg, st, [])) (step_result A msg smscid)) as Hnone.
  { intros Hc. cbn. exists A. split; [by apply step_other|]. done. }
  destruct (sms_udhdata (m_sms msg)) as [o|] eqn:Eu; [|cbn; bind_red; apply Hnone; unfold classify; by rewrite Eu].
  cbn [string_ok] in Hudh. set (v := bytes o) in *. rewrite (octstr_len_ok o v Hudh). bind_red.
  destruct smscid as [smscid|]; [|apply Hnone; unfold classify; by rewrite Eu].
  pose proof (Hnone) as Hn. unfold classify in Hn. rewrite Eu in Hn. fold v in Hn.
  destruct (zlen v =? 0) eqn:E0; [apply Hn; unfold concat_header; by rewrite E0|].
  replace (Z.to_nat (zlen v)) with (length v) by list_lia.
  rewrite (find_concat_udh_ok o v) by (done || list_lia). bind_red.
  destruct (scan_udh v 1 (-1) 0 (S (length v))) as [[pos c] iel] eqn:Es.
  destruct (zlen v <=? pos) eqn:El; [apply Hn; unfold concat_header; by rewrite E0, Es, El|].
  rewrite !(octstr_get_char_ok o v) by done. bind_red. cbn zeta.
  destruct (concat_header v) as [[[pos' iel'] [[ref total] part]]|] eqn:Eh; pose proof Eh as Eh0; unfold concat_header in Eh0;
    rewrite E0, Es, El in Eh0; cbn zeta in Eh0; [|destruct (_ || _); [by apply Hn|done]].
  destruct (_ || _); [done|]. injection Eh0 as -> -> Eref Etot Epart. rewrite Eref, Etot, Epart. clear Hn Hnone Eref Etot Epart Es.
  destruct (concat_header_range v pos' iel' ref total part (repr_octets _ _ Hudh) Eh) as (Hp & Hi & Href & Hpt & Htot).
  apply returns_bind, (returns_mono _ _ _ (normalize_udh_ok o v pos' iel' Hudh ltac:(lia) Hi)). intros udh Hu.
  set (rest := without v pos' iel') in *. cbn [string_ok] in Hs. set (s := bytes smscid) in *. apply returns_bind.
  apply (returns_mono _ _ _ (concat_key_ok (m_sms msg) smscid s ref total udh rest Hsnd Hrcv Hs Href ltac:(lia) (proj1 Hu))).
  intros key Hkey. set (k := key_text _ _ _ _ _ _) in *.
  assert (classify msg (Some smscid) = Some (k, total, part, rest)) as Hcl by (unfold classify; rewrite Eu; fold v; by rewrite Eh).
  assert (exists a, k = a ++ key_end ref total rest) as [a Ek].
  { unfold k, key_text. rewrite !app_assoc. by eexists. }
  apply returns_bind. eapply returns_mono;
    [apply (get_cmsg_ok d (cmsgs st) m A fresh_p key k smscid s udh rest a ref total H Hf Hkey Hs Hu Ek Href ltac:(lia))|].
  intros [[[p d'] heap'] es] (m' & -> & Hk & H').
  destruct (waiting_consistent d (cmsgs st) m A k total rest a ref H Ek Href ltac:(lia) (repr_octets _ _ (proj1 Hu))) as [E1 E2].
  by apply (put_part_ok st d' heap' m' A msg (Some smscid) k total part rest p).
Qed.
End handler.

(** ** The headers that [sms_split] writes *)

(** Elements of a header of which none is about concatenation. *)
Inductive udh_elements : list Z -> Prop :=
| udh_elements_nil : udh_elements []
| udh_elements_cons id n data els : id <> 0 -> id <> 8 -> zlen data = n -> udh_elements els -> udh_elements (id :: n :: data ++ els).

Definition plain_udh (u : list Z) : Prop :=
  u = [] \/ exists els, u = zlen els :: els /\ els <> [] /\ udh_elements els /\ zlen els <= 250.

Lemma scan_elements els : udh_elements els -> forall pre tail c iel (fuel : nat), (length els < fuel)%nat -> tail <> [] ->
  scan_udh (pre ++ els ++ 0 :: 3 :: tail) (zlen pre) c iel fuel = (zlen pre + zlen els, 0, 3).
Proof.
  induction 1 as [|id n data els H0 H8 Hn Hels IH]; intros pre tail c iel fuel Hf Ht;
    (destruct fuel as [|fuel]; [cbn in Hf; lia|]); cbn [scan_udh].
  - destruct tail as [|x tail]; [done|]. destruct (Z.ltb_spec (zlen pre) (zlen (pre ++ [] ++ 0 :: 3 :: x :: tail) - 1)); [|list_lia].
    replace (zlen pre + 1) with (zlen (pre ++ [0])) by list_lia. cbn [app].
    assert (char_at (pre ++ 0 :: 3 :: x :: tail) (zlen (pre ++ [0])) = 3) as ->.
    { replace (pre ++ 0 :: 3 :: x :: tail) with ((pre ++ [0]) ++ 3 :: x :: tail) by (by rewrite <- app_assoc).
      apply char_at_lookup. by apply list_lookup_middle. }
    assert (char_at (pre ++ 0 :: 3 :: x :: tail) (zlen pre) = 0) as -> by (apply char_at_lookup; by apply list_lookup_middle).
    cbn. f_equal. f_equal. list_lia.
  - set (v := pre ++ (id :: n :: data ++ els) ++ 0 :: 3 :: tail).
    assert (v = (pre ++ [id]) ++ n :: data ++ els ++ 0 :: 3 :: tail) as E1 by (unfold v; rewrite <- !app_assoc; cbn; by rewrite <- app_assoc).
    assert (v = (pre ++ id :: n :: data) ++ els ++ 0 :: 3 :: tail) as E2 by (unfold v; rewrite <- !app_assoc; cbn; by rewrite <- app_assoc).
    destruct (Z.ltb_spec (zlen pre) (zlen v - 1)); [|rewrite E1 in *; list_lia].
    assert (char_at v (zlen pre + 1) = n) as ->.
    { replace (zlen pre + 1) with (zlen (pre ++ [id])) by list_lia. rewrite E1. apply char_at_lookup. by apply list_lookup_middle. }
    assert (char_at v (zlen pre) = id) as -> by (apply char_at_lookup; by apply list_lookup_middle). cbn zeta.
    destruct (Z.eqb_spec id 0), (Z.eqb_spec id 8); try done. cbn [orb]. rewrite E2.
    replace (zlen pre + n + 2) with (zlen (pre ++ id :: n :: data)) by list_lia.
    rewrite IH; [|cbn in Hf; rewrite length_app in Hf; lia|done]. f_equal. f_equal. list_lia.
Qed.

Definition elements_of (u : list Z) : list Z := drop 1 u.

Lemma catenation_shape u seq total i : plain_udh u ->
  catenation_udh u seq total i =
    [(zlen (elements_of u) + 5) mod 256] ++ elements_of u ++ [0; 3; seq mod 256; total mod 256; i mod 256].
Proof.
  intros [->|(els & -> & Hne & _)]; [done|]. unfold catenation_udh, elements_of. cbn zeta.
  destruct (Z.eqb_spec (zlen (zlen els :: els)) 0); [list_lia|]. cbn [drop app]. rewrite drop_0. cbn [insert list_insert]. f_equal. f_equal. list_lia.
Qed.

Lemma plain_elements u : plain_udh u -> udh_elements (elements_of u) /\ zlen (elements_of u) <= 250.
Proof. intros [->|(els & -> & _ & He & Hl)]; [split; [constructor|done]|done]. Qed.

Lemma concat_header_catenation u seq total i : plain_udh u -> 1 <= i <= total -> total < 256 ->
  concat_header (catenation_udh u seq total i) = Some (1 + zlen (elements_of u), 3, (seq mod 256, total, i)) /\
  without (catenation_udh u seq total i) (1 + zlen (elements_of u)) 3 = u.
Proof.
  intros Hu Hi Ht. destruct (plain_elements u Hu) as [He Hl]. rewrite (catenation_shape u seq total i Hu).
  rewrite (Z.mod_small total), (Z.mod_small i) by lia. pose proof (zlen_nonneg (elements_of u)) as H0. set (els := elements_of u) in *.
  set (b := (zlen els + 5) mod 256). set (tl := [seq mod 256; total; i]).
  set (v := [b] ++ els ++ 0 :: 3 :: tl). assert (zlen v = zlen els + 6) as Ev by (unfold v, tl; list_lia).
  assert (forall (j : nat) c, tl !! j = Some c -> char_at v (1 + zlen els + 2 + Z.of_nat j) = c) as Hc.
  { intros j c Hj. replace (1 + zlen els + 2 + Z.of_nat j) with (Z.of_nat (length ([b] ++ els ++ [0; 3]) + j)) by (rewrite !length_app; cbn; list_lia).
    apply char_at_lookup. replace v with (([b] ++ els ++ [0; 3]) ++ tl) by (unfold v; by rewrite <- !app_assoc).
    rewrite lookup_app_r by lia. by rewrite Nat.add_comm, Nat.add_sub. }
  split.
  - unfold concat_header. rewrite Ev. destruct (Z.eqb_spec (zlen els + 6) 0); [lia|].
    pose proof (scan_elements els He [b] tl (-1) 0 (S (length v)) ltac:(unfold v; cbn; rewrite length_app; lia) ltac:(done)) as Hs.
    fold v in Hs. change (zlen [b]) with 1 in Hs. rewrite Hs. destruct (Z.leb_spec (zlen els + 6) (1 + zlen els)); [lia|].
    cbn [Z.eqb]. cbn zeta. pose proof (Hc 0%nat _ eq_refl) as C0. pose proof (Hc 1%nat _ eq_refl) as C1. pose proof (Hc 2%nat _ eq_refl) as C2.
    replace (1 + zlen els + 2 + Z.of_nat 0) with (1 + zlen els + 2) in C0 by lia.
    replace (1 + zlen els + 2 + Z.of_nat 1) with (1 + zlen els + 3 + 0) in C1 by lia.
    replace (1 + zlen els + 2 + Z.of_nat 2) with (1 + zlen els + 4 + 0) in C2 by lia. rewrite C0, C1, C2.
    destruct (Z.ltb_spec i 1), (Z.ltb_spec total i); (lia || done).
  - unfold without, cut. cbn zeta.
    assert (take (Z.to_nat (1 + zlen els)) v ++ drop (Z.to_nat (1 + zlen els) + Z.to_nat (3 + 2)) v = [b] ++ els) as ->.
    { replace v with (([b] ++ els) ++ 0 :: 3 :: tl) by (unfold v; by rewrite <- app_assoc). rewrite take_app_length' by (cbn; list_lia).
      rewrite drop_ge, app_nil_r; [done|]. rewrite length_app. cbn. list_lia. }
    destruct Hu as [->|(els' & -> & Hne & _ & _)]; [done|]. assert (els = els') as -> by done.
    destruct els' as [|x els']; [done|]. destruct (Z.leb_spec (zlen ([b] ++ x :: els')) 1); [list_lia|]. cbn [app insert list_insert]. f_equal.
    rewrite Z.mod_small by list_lia. list_lia.
Qed.
