(* ===== verification/ConcatJoin.v ===== *)
(** * Concatenated messages: runs of the handler

    Sequences of received messages, in whatever order: the handler of Concat.v refines
    the map of ConcatProofs.v, and the parts of a message are put together when the
    last of them comes. *)

From stdpp Require Import gmap sets.
From S2P Require Import Prelude Octstr OctstrSearch OctstrCode OctstrFormat OctstrParts GwList Dict Uuid Msg Charset Sms Concat ConcatProofs.
#[local] Open Scope Z_scope.
#[local] Open Scope kannel_scope.

(** A message and the id of the connection it came from; what the handler answered. *)
Definition arrival : Type := Msg * option Octstr.
Definition outcome : Type := Z * option Msg * list store_event.

Section run.
Context {PF : Printf} (save : Msg -> Z * Msg) (alloc : gmap Z ConcatMsg -> Z) (env : nat -> Z * list Z * list Z * list Z).

(** Message after message; [env] has the clock and the identifiers of each. *)
Fixpoint concat_run (st : concat_state) (arrivals : list arrival) (i : nat) : res (list outcome * concat_state) :=
  match arrivals with
  | [] => Ok ([], st)
  | (msg, smscid) :: arrivals =>
      let '(now, id1, id2, id) := env i in
      '(ret, m, st, es) ← concat_handling_check_and_handle save now id1 id2 id (alloc (cmsgs st)) msg smscid st;
      '(outs, st) ← concat_run st arrivals (S i);
      Ok ((ret, m, es) :: outs, st)
  end.
End run.

Inductive concat_steps : gmap (list Z) waiting -> list arrival -> list outcome -> gmap (list Z) waiting -> Prop :=
| steps_nil A : concat_steps A [] [] A
| steps_cons A msg smscid ret m es A1 arrivals outs A2 :
    concat_step A msg smscid A1 ret m es -> concat_steps A1 arrivals outs A2 ->
    concat_steps A ((msg, smscid) :: arrivals) ((ret, m, es) :: outs) A2.

Definition arrival_ok (a : arrival) : Prop := part_ok a.1 /\ string_ok a.2.

Lemma run_ok {PF : Printf} save alloc env : fills_in save -> (forall h, h !! alloc h = None) ->
  forall arrivals st A i, concat_holds st A -> Forall arrival_ok arrivals ->
  exists outs st' A', concat_run save alloc env st arrivals i = Ok (outs, st') /\ concat_steps A arrivals outs A' /\ concat_holds st' A' /\
    (Exists (fun o => o.1.1 = concat_error) outs -> exists x, (save x).1 = -1).
Proof.
  intros Hs Ha. induction arrivals as [|[msg smscid] arrivals IH]; intros st A i Hst Hall.
  { exists [], st, A. split_and!; [done|constructor|done|]. by intros ?%Exists_nil. }
  apply Forall_cons_iff in Hall as [[Hm Hi] Hall]. cbn [concat_run]. destruct (env i) as [[[now id1] id2] id].
  pose proof (handle_ok save Hs now id1 id2 id st A (alloc (cmsgs st)) msg smscid Hst (Ha _) Hm Hi) as L.
  apply returns_iff in L as ([[[ret m] st1] es] & -> & A1 & H1 & Hst1 & Herr). bind_red.
  destruct (IH st1 A1 (S i) Hst1 Hall) as (outs & st' & A' & -> & H2 & Hst' & Herr'). bind_red.
  exists ((ret, m, es) :: outs), st', A'. split_and!; [done|by econstructor|done|].
  intros [E|E]%Exists_cons; [by apply Herr|by apply Herr'].
Qed.

(** ** The parts of one message *)

(** The parts [ms] with the numbers [S] are there. *)
Definition parts_at (ms : list Msg) (S : list Z) : list (option Msg) :=
  imap (fun i m => if bool_decide (Z.of_nat i + 1 ∈ S) then Some m else None) ms.

Lemma parts_at_lookup ms S (i : nat) : parts_at ms S !! i = (fun m => if bool_decide (Z.of_nat i + 1 ∈ S) then Some m else None) <$> ms !! i.
Proof. apply list_lookup_imap. Qed.

Lemma parts_at_nil ms : parts_at ms [] = replicate (length ms) None.
Proof.
  apply list_eq. intros i. rewrite parts_at_lookup. destruct (ms !! i) as [m|] eqn:E; cbn [fmap option_fmap option_map].
  - rewrite bool_decide_false by set_solver. symmetry. apply lookup_replicate_2. by eapply lookup_lt_Some.
  - symmetry. apply lookup_replicate_None. by apply lookup_ge_None_1 in E.
Qed.

Lemma parts_at_insert ms S part m : 1 <= part -> ms !! Z.to_nat (part - 1) = Some m ->
  <[Z.to_nat (part - 1) := Some m]> (parts_at ms S) = parts_at ms (part :: S).
Proof.
  intros Hp Hm. apply list_eq. intros i. rewrite parts_at_lookup. destruct (decide (i = Z.to_nat (part - 1))) as [->|Hne].
  - rewrite list_lookup_insert_eq.
    + rewrite Hm. cbn. rewrite bool_decide_true; [done|]. apply elem_of_cons. left. lia.
    + unfold parts_at. rewrite length_imap. by eapply lookup_lt_Some.
  - rewrite list_lookup_insert_ne by done. rewrite parts_at_lookup. destruct (ms !! i); [|done]. cbn. f_equal.
    rewrite (bool_decide_ext (Z.of_nat i + 1 ∈ S) (Z.of_nat i + 1 ∈ part :: S)); [done|].
    rewrite elem_of_cons. split; [by right|]. intros [E|]; [lia|done].
Qed.

Lemma parts_at_all ms S : (forall q, 1 <= q <= zlen ms -> q ∈ S) -> parts_at ms S = Some <$> ms.
Proof.
  intros H. apply list_eq. intros i. rewrite parts_at_lookup, list_lookup_fmap. destruct (ms !! i) as [m|] eqn:E; [|done]. cbn.
  rewrite bool_decide_true; [done|]. apply H. apply lookup_lt_Some in E. list_lia.
Qed.

Lemma zlen_parts_at ms S : zlen (parts_at ms S) = zlen ms.
Proof. unfold zlen, parts_at. by rewrite length_imap. Qed.

Definition part_no (k : list Z) (a : arrival) : option Z :=
  match classify a.1 a.2 with
  | Some (k', _, part, _) => if bool_decide (k' = k) then Some part else None
  | None => None
  end.

(** What comes with the key [k] is a part of [ms]. *)
Definition is_part_of (k rest : list Z) (ms : list Msg) (a : arrival) : Prop :=
  forall total part r, classify a.1 a.2 = Some (k, total, part, r) ->
    total = zlen ms /\ r = rest /\ 1 <= part /\ ms !! Z.to_nat (part - 1) = Some a.1.

Lemma step_elsewhere A msg smscid A' ret m es k total rest : concat_step A msg smscid A' ret m es -> part_no k (msg, smscid) = None ->
  waiting_for A' k total rest = waiting_for A k total rest.
Proof.
  intros Hs Hk. unfold part_no in Hk. cbn in Hk. unfold waiting_for.
  assert (forall k' t p r, classify msg smscid = Some (k', t, p, r) -> k' <> k) as Hne.
  { intros k' t p r E. rewrite E in Hk. by case_bool_decide. }
  destruct Hs as [| |k' t p r Hc|k' t p r ? ? ? Hc|k' t p r ? ? Hc]; try done.
  - rewrite lookup_insert_ne; [done|by eapply Hne].
  - rewrite lookup_delete_ne; [done|by eapply Hne].
  - rewrite lookup_insert_ne; [done|by eapply Hne].
Qed.

(** A part that was not there comes: it waits, or it was the last. *)
Lemma step_here A msg smscid A' ret m es k rest ms part S : concat_step A msg smscid A' ret m es ->
  classify msg smscid = Some (k, zlen ms, part, rest) -> 1 <= part -> ms !! Z.to_nat (part - 1) = Some msg -> part ∉ S ->
  waiting_for A k (zlen ms) rest = mkWaiting rest (parts_at ms S) -> ret <> concat_error ->
  if bool_decide (Forall (fun q => q ∈ part :: S) (seqZ 1 (zlen ms)))
  then exists saved u, ret = concat_complete /\ m = Some (with_sms saved (set_udhdata (m_sms saved) (Some u))) /\
         es = Saved saved :: ((fun x => Acked x ack_success) <$> ms) /\ says ms saved /\ reprm u rest /\ A' !! k = None
  else ret = concat_pending /\ m = None /\ es = [] /\ waiting_for A' k (zlen ms) rest = mkWaiting rest (parts_at ms (part :: S)).
Proof.
  intros Hs Hcl Hp Hm Hnew Hw Herr.
  assert (w_parts (with_part (waiting_for A k (zlen ms) rest) part msg) = parts_at ms (part :: S)) as Ew.
  { rewrite Hw. cbn [with_part w_parts]. by apply parts_at_insert. }
  assert (forall ms', parts_at ms (part :: S) = Some <$> ms' -> ms' = ms /\ Forall (fun q => q ∈ part :: S) (seqZ 1 (zlen ms))) as Hall.
  { intros ms' E. assert (Forall (fun q => q ∈ part :: S) (seqZ 1 (zlen ms))) as HF.
    - apply list.Forall_forall. intros q Hq. apply elem_of_seqZ in Hq. pose proof (parts_at_lookup ms (part :: S) (Z.to_nat (q - 1))) as L.
      rewrite E, list_lookup_fmap in L. destruct (lookup_lt_is_Some_2 ms (Z.to_nat (q - 1))) as [x Hx]; [list_lia|]. rewrite Hx in L. cbn in L.
      replace (Z.of_nat (Z.to_nat (q - 1)) + 1) with q in L by lia. case_bool_decide; [done|]. by destruct (ms' !! _).
    - split; [|done]. rewrite parts_at_all in E by (intros q Hq; apply (proj1 (list.Forall_forall _ _) HF), elem_of_seqZ; lia).
      apply (f_equal present) in E. rewrite !present_all in E. done. }
  destruct Hs as [Hc|k' t p r m0 Hc Hx|k' t p r Hc w Hx Hlt|k' t p r ms' saved u Hc w Hx E Hsay Hu|k' t p r ms' saved Hc w Hx E Hsay];
    rewrite Hcl in Hc; try discriminate Hc; injection Hc as <- <- <- <-; [| | |by destruct Herr].
  - rewrite Hw in Hx. cbn [w_parts] in Hx. rewrite parts_at_lookup, Hm in Hx. cbn in Hx. exfalso.
    rewrite bool_decide_false in Hx; [done|]. by replace (Z.of_nat (Z.to_nat (part - 1)) + 1) with part by lia.
  - unfold w in *. rewrite Ew in Hlt. rewrite Hw in Hlt. cbn [w_parts] in Hlt. rewrite zlen_parts_at in Hlt. case_bool_decide as HF.
    + exfalso. rewrite parts_at_all in Hlt by (intros q Hq; apply (proj1 (list.Forall_forall _ _) HF), elem_of_seqZ; lia).
      unfold filled in Hlt. rewrite present_all in Hlt. lia.
    + split_and!; [done|done|done|]. unfold waiting_for at 1. rewrite lookup_insert_eq. cbn [default].
      rewrite Hw in *. unfold with_part in *. cbn [w_rest w_parts from_option id] in *. by rewrite Ew.
  - unfold w in E. rewrite Ew in E. destruct (Hall ms' E) as [-> HF]. rewrite bool_decide_true by done.
    exists saved, u. split_and!; try done. apply lookup_delete_eq.
Qed.

Lemma part_no_some k a part : part_no k a = Some part <-> exists total r, classify a.1 a.2 = Some (k, total, part, r).
Proof.
  unfold part_no. destruct (classify a.1 a.2) as [[[[k' t] p] r]|]; [|split; [done|by intros (? & ? & ?)]].
  case_bool_decide as E; [subst|]; (split; [|by intros (? & ? & ?); simplify_eq]); [intros [= ->]; eauto|done].
Qed.

(** While a part is missing, the parts that come wait. *)
Lemma steps_pending k rest ms q : forall arrivals A outs A' S,
  concat_steps A arrivals outs A' -> Forall (is_part_of k rest ms) arrivals -> Forall (fun o => o.1.1 <> concat_error) outs ->
  waiting_for A k (zlen ms) rest = mkWaiting rest (parts_at ms S) -> NoDup (omap (part_no k) arrivals ++ S) ->
  1 <= q <= zlen ms -> q ∉ omap (part_no k) arrivals ++ S ->
  Forall2 (fun a o => is_Some (part_no k a) -> o = (concat_pending, None, [])) arrivals outs /\
  exists S', S' ≡ₚ omap (part_no k) arrivals ++ S /\ waiting_for A' k (zlen ms) rest = mkWaiting rest (parts_at ms S').
Proof.
  induction arrivals as [|[msg smscid] arrivals IH]; intros A outs A' S Hs Hp He Hw Hnd Hq Hqn.
  { inversion Hs; subst. split; [constructor|]. by exists S. }
  inversion Hs as [|? ? ? ret m es A1 ? outs1 ? H1 H2]; subst. apply Forall_cons_iff in Hp as [Hpa Hp]. apply Forall_cons_iff in He as [Hea He].
  destruct (part_no k (msg, smscid)) as [part|] eqn:Ep; cbn [omap list_omap] in Hnd, Hqn |- *; rewrite Ep in Hnd, Hqn |- *.
  - apply part_no_some in Ep as (total & r & Hcl). destruct (Hpa total part r Hcl) as (-> & -> & Hpos & Hm). cbn [app] in *.
    apply list.NoDup_cons in Hnd as [Hn1 Hnd].
    pose proof (step_here A msg smscid A1 ret m es k rest ms part S H1 Hcl Hpos Hm ltac:(set_solver) Hw Hea) as L.
    rewrite bool_decide_false in L; [|intros HF; apply Hqn; pose proof (proj1 (list.Forall_forall _ _) HF q) as X; rewrite elem_of_seqZ in X; set_solver by lia].
    destruct L as (-> & -> & -> & Hw1).
    destruct (IH A1 outs1 A' (part :: S) H2 Hp He Hw1) as [L1 (S' & HS & Hw')].
    + apply list.NoDup_app in Hnd as (N1 & N2 & N3). apply list.NoDup_app. split_and!; [done|set_solver|apply list.NoDup_cons; set_solver].
    + done.
    + set_solver.
    + split; [by constructor|]. exists S'. split; [|done]. by rewrite HS, <- Permutation_middle.
  - destruct (IH A1 outs1 A' S H2 Hp He) as [L1 (S' & HS & Hw')]; [|done|done|done|].
    + by rewrite (step_elsewhere A msg smscid A1 ret m es k (zlen ms) rest H1 Ep).
    + split; [|by exists S']. constructor; [rewrite Ep; by intros [? ?]|done].
Qed.

Lemma steps_app_inv A pre last outs A' : concat_steps A (pre ++ [last]) outs A' ->
  exists outs1 A1 ret m es, outs = outs1 ++ [(ret, m, es)] /\ concat_steps A pre outs1 A1 /\ concat_step A1 last.1 last.2 A' ret m es.
Proof.
  revert A outs. induction pre as [|[msg smscid] pre IH]; intros A outs H; cbn [app] in H.
  - inversion H as [|? msg smscid ret m es A1 ? ? ? H1 H2]; subst. inversion H2; subst. exists [], A, ret, m, es. split_and!; [done|constructor|done].
  - inversion H as [|? ? ? ret m es A1 ? outs1 ? H1 H2]; subst. destruct (IH A1 outs1 H2) as (outs2 & A2 & ret' & m' & es' & -> & H3 & H4).
    exists ((ret, m, es) :: outs2), A2, ret', m', es'. split_and!; [done|by econstructor|done].
Qed.

Lemma steps_join k rest ms pre last A outs A' : concat_steps A (pre ++ [last]) outs A' -> Forall (is_part_of k rest ms) (pre ++ [last]) ->
  Forall (fun o => o.1.1 <> concat_error) outs -> A !! k = None -> omap (part_no k) (pre ++ [last]) ≡ₚ seqZ 1 (zlen ms) ->
  is_Some (part_no k last) ->
  exists outs1 saved u, outs = outs1 ++ [(concat_complete, Some (with_sms saved (set_udhdata (m_sms saved) (Some u))),
      Saved saved :: ((fun x => Acked x ack_success) <$> ms))] /\
    says ms saved /\ reprm u rest /\ A' !! k = None /\
    Forall2 (fun a o => is_Some (part_no k a) -> o = (concat_pending, None, [])) pre outs1.
Proof.
  intros Hs Hp He HA Hperm [part Hpart]. destruct (steps_app_inv A pre last outs A' Hs) as (outs1 & A1 & ret & m & es & -> & H1 & H2).
  apply Forall_app in Hp as [Hp Hl]. apply Forall_cons_iff in Hl as [Hl _]. apply Forall_app in He as [He Hel]. apply Forall_cons_iff in Hel as [Hel _].
  rewrite omap_app in Hperm. cbn [omap list_omap] in Hperm. rewrite Hpart in Hperm.
  assert (NoDup (omap (part_no k) pre ++ [part])) as Hnd by (rewrite Hperm; apply NoDup_seqZ).
  assert (forall x, x ∈ omap (part_no k) pre ++ [part] <-> 1 <= x <= zlen ms) as Hin by (intros x; rewrite Hperm, elem_of_seqZ; lia).
  apply list.NoDup_app in Hnd as (N1 & N2 & _). pose proof (proj1 (Hin part) ltac:(set_solver)) as Hr.
  apply part_no_some in Hpart as (total & r & Hcl). destruct (Hl total part r Hcl) as (-> & -> & Hpos & Hm).
  destruct (steps_pending k rest ms part pre A outs1 A1 [] H1 Hp He) as [L1 (S' & HS & Hw')].
  { unfold waiting_for. rewrite HA. cbn [default]. rewrite parts_at_nil. do 2 f_equal. list_lia. }
  { by rewrite app_nil_r. }
  { done. }
  { rewrite app_nil_r. set_solver. }
  rewrite app_nil_r in HS. pose proof (step_here A1 last.1 last.2 A' ret m es k rest ms part S' H2 Hcl Hpos Hm) as L.
  rewrite bool_decide_true in L.
  - destruct L as (saved & u & -> & -> & -> & Hsay & Hu & HA'); [rewrite HS; set_solver|done|done|]. exists outs1, saved, u. done.
  - apply list.Forall_forall. intros x Hx. apply elem_of_seqZ in Hx. assert (x ∈ omap (part_no k) pre ++ [part]) as Hx' by (apply Hin; lia).
    rewrite <- HS in Hx'. set_solver.
Qed.

(** ** Parts as [sms_split] makes them *)

Definition arrival_key (a : arrival) : option (list Z) := (fun x => x.1.1.1) <$> classify a.1 a.2.

(** The parts [ms], numbered from 1 in their headers, after the elements of [u]. *)
Definition numbered (u : list Z) (seq : Z) (ms : list Msg) : Prop :=
  forall (i : nat) m, ms !! i = Some m -> content (sms_udhdata (m_sms m)) (catenation_udh u seq (zlen ms) (Z.of_nat i + 1)).

Definition no_of (m : Msg) : Z :=
  match sms_udhdata (m_sms m) with
  | Some o => match concat_header (bytes o) with Some (_, _, (_, _, part)) => part | None => 0 end
  | None => 0
  end.

Lemma numbered_classify u seq ms (i : nat) m smscid k total part r : numbered u seq ms -> plain_udh u -> zlen ms < 256 -> ms !! i = Some m ->
  no_of m = Z.of_nat i + 1 /\ (classify m smscid = Some (k, total, part, r) -> total = zlen ms /\ part = Z.of_nat i + 1 /\ r = u).
Proof.
  intros Hn Hu Hl Hi. pose proof (Hn i m Hi) as Hc. pose proof (lookup_lt_Some _ _ _ Hi) as Hlt.
  destruct (concat_header_catenation u seq (zlen ms) (Z.of_nat i + 1) Hu ltac:(list_lia) Hl) as [E1 E2].
  unfold no_of, classify. destruct (sms_udhdata (m_sms m)) as [o|]; cbn in Hc.
  - rewrite (repr_bytes _ _ (proj1 Hc)), E1. split; [done|]. destruct smscid as [s|]; [|done]. rewrite E2. by intros [= <- <- <- <-].
  - rewrite Hc in E1. done.
Qed.

Lemma part_no_key k a : is_Some (part_no k a) <-> arrival_key a = Some k.
Proof.
  unfold part_no, arrival_key. destruct (classify a.1 a.2) as [[[[k' t] p] r]|]; cbn; [|split; [by intros [? ?]|done]].
  case_bool_decide as E; [subst; split; eauto|]. split; [by intros [? ?]|congruence].
Qed.

Lemma part_numbers k arrivals : (forall a part, a ∈ arrivals -> part_no k a = Some part -> no_of a.1 = part) ->
  omap (part_no k) arrivals = no_of <$> (filter (fun a => arrival_key a = Some k) arrivals).*1.
Proof.
  induction arrivals as [|a arrivals IH]; intros H; [done|]. rewrite filter_cons. cbn [omap list_omap].
  pose proof (IH ltac:(set_solver)) as IH'. destruct (part_no k a) as [part|] eqn:E.
  - rewrite decide_True by (apply part_no_key; by rewrite E). cbn [fmap list_fmap]. rewrite (H a part ltac:(set_solver) E). by f_equal.
  - rewrite decide_False; [done|]. intros X. apply part_no_key in X as [? X]. congruence.
Qed.

Lemma join_ok k u seq ms arrivals : numbered u seq ms -> plain_udh u -> zlen ms < 256 ->
  (filter (fun a => arrival_key a = Some k) arrivals).*1 ≡ₚ ms ->
  Forall (is_part_of k u ms) arrivals /\ omap (part_no k) arrivals ≡ₚ seqZ 1 (zlen ms).
Proof.
  intros Hn Hu Hl Hperm.
  assert (forall a, a ∈ arrivals -> arrival_key a = Some k -> exists i : nat, ms !! i = Some a.1) as Hin.
  { intros a Ha Hk. apply list_elem_of_lookup. rewrite <- Hperm. apply list_elem_of_fmap. exists a. split; [done|]. by apply list_elem_of_filter. }
  assert (forall a total part r, a ∈ arrivals -> classify a.1 a.2 = Some (k, total, part, r) ->
    total = zlen ms /\ r = u /\ 1 <= part /\ ms !! Z.to_nat (part - 1) = Some a.1 /\ no_of a.1 = part) as Hcl.
  { intros a total part r Ha E. destruct (Hin a Ha) as [i Hi]; [unfold arrival_key; by rewrite E|].
    destruct (numbered_classify u seq ms i a.1 a.2 k total part r Hn Hu Hl Hi) as [E1 E2]. destruct (E2 E) as (-> & -> & ->).
    split_and!; [done|done|lia| |done]. by replace (Z.to_nat (Z.of_nat i + 1 - 1)) with i by lia. }
  split; [apply list.Forall_forall; intros a Ha total part r E; destruct (Hcl a total part r Ha E) as (? & ? & ? & ? & ?); done|].
  rewrite part_numbers; [|intros a part Ha E; apply part_no_some in E as (total & r & E); by apply (Hcl a total part r Ha E)].
  rewrite Hperm. enough (no_of <$> ms = seqZ 1 (zlen ms)) as -> by done. apply list_eq. intros i. rewrite list_lookup_fmap. destruct (ms !! i) as [m|] eqn:E; cbn.
  - destruct (numbered_classify u seq ms i m None [] 0 0 [] Hn Hu Hl E) as [-> _]. symmetry. apply lookup_lt_Some in E.
    apply lookup_seqZ. split; [lia|list_lia].
  - symmetry. apply lookup_ge_None_2. apply lookup_ge_None_1 in E. rewrite length_seqZ. list_lia.
Qed.

Lemma concat_init_ok n : concat_holds (concat_handling_init n (mkConcat true None ∅)) ∅.
Proof.
  split; [done|]. pose proof (dict_create_ok (V := Z) (if 0 <? n then n else 1024) true ltac:(destruct (Z.ltb_spec 0 n); lia)) as H.
  eexists _, ∅. split; [done|]. constructor; [by eexists|done|set_solver|set_solver|set_solver].
Qed.

(** ** Claims *)

(** C23. The handler of concatenated messages does what a map from keys to the parts that
    are there does: whatever SMS with a text come, in whatever order, no assertion
    fails and no memory is misused; a message that is no part goes on as it is ([concat_none], which
    the comment on the function calls complete); a part that is there already is
    acknowledged and dropped ([concat_pending]); any other part takes its place and waits, and the last
    missing one gives the whole message ([concat_complete]).  That one is saved before its parts are
    acknowledged, and if it cannot be saved ([concat_error]), all the parts are kept.  Nothing is left
    in memory of a message that went on. *)
Theorem concat_refines_map {PF : Printf} save alloc env st A arrivals :
  fills_in save -> (forall h, h !! alloc h = None) -> concat_holds st A -> Forall arrival_ok arrivals ->
  exists outs st' A', concat_run save alloc env st arrivals 0 = Ok (outs, st') /\ concat_steps A arrivals outs A' /\ concat_holds st' A'.
Proof.
  intros Hs Ha Hst Hall. destruct (run_ok save alloc env Hs Ha arrivals st A 0 Hst Hall) as (outs & st' & A' & H1 & H2 & H3 & _). by exists outs, st', A'.
Qed.

(** C3. The parts of a long message, with the headers that [sms_split] writes, are put
    together again in whatever order they come, and whatever other messages come in
    between: every part but the last to come is kept back, and with the last one the
    message goes on, with the texts of the parts in the order of their numbers, the
    numbers of sender and receiver and the rest of the header; the whole message was
    saved and then each of its parts was acknowledged, once. *)
Theorem concat_parts_join {PF : Printf} save alloc env st A pre last k u seq ms :
  fills_in save -> (forall m, (save m).1 <> -1) -> (forall h, h !! alloc h = None) -> concat_holds st A -> A !! k = None ->
  Forall arrival_ok (pre ++ [last]) -> numbered u seq ms -> plain_udh u -> zlen ms < 256 ->
  (filter (fun a => arrival_key a = Some k) (pre ++ [last])).*1 ≡ₚ ms -> arrival_key last = Some k ->
  exists outs m saved st' A',
    concat_run save alloc env st (pre ++ [last]) 0 =
      Ok (outs ++ [(concat_complete, Some m, Saved saved :: ((fun x => Acked x ack_success) <$> ms))], st') /\
    Forall2 (fun a o => arrival_key a = Some k -> o = (concat_pending, None, [])) pre outs /\
    says ms m /\ content (sms_udhdata (m_sms m)) u /\ says ms saved /\ concat_holds st' A' /\ A' !! k = None.
Proof.
  intros Hs Hnf Ha Hst HA Hall Hn Hu Hl Hperm Hlast. destruct (join_ok k u seq ms (pre ++ [last]) Hn Hu Hl Hperm) as [Hp Hno].
  destruct (run_ok save alloc env Hs Ha (pre ++ [last]) st A 0 Hst Hall) as (outs & st' & A' & Er & Hsteps & Hst' & Herr).
  assert (Forall (fun o => o.1.1 <> concat_error) outs) as He.
  { apply not_Exists_Forall; [intros x; apply _|]. intros X. destruct (Herr X) as [x Hx]. by destruct (Hnf x). }
  destruct (steps_join k u ms pre last A outs A' Hsteps Hp He HA Hno) as (outs1 & saved & o & -> & Hsay & Ho & HA' & Hpre).
  { by apply part_no_key. }
  exists outs1, (with_sms saved (set_udhdata (m_sms saved) (Some o))), saved, st', A'. split_and!; try done.
  eapply list.Forall2_impl; [exact Hpre|]. intros a x H Hk. apply H. by apply part_no_key.
Qed.

(** Two parts, the second of which comes first, and another message in between. *)
Definition no_doubles_here : Printf := {| double := Empty_set; sprintf_double := fun _ _ _ => []; sprintf_p := fun _ => [] |}.

Definition sample_part (i : Z) (s : list Z) : Msg :=
  with_sms sample_sms (set_msgdata (set_udhdata (m_sms sample_sms) (Some (mk_os (catenation_udh [] 7 2 i)))) (Some (mk_os s))).

Definition sample_arrivals : list arrival :=
  [(sample_part 2 [33], Some (octstr_imm [65])); (sample_sms, Some (octstr_imm [65]))].

Definition sample_last : arrival := (sample_part 1 [72; 105], Some (octstr_imm [65])).

Definition sample_key : list Z := default [] (arrival_key sample_last).

Lemma sample_part_ok i s : 0 <= i < 256 -> octets s -> part_ok (sample_part i s).
Proof.
  intros Hi Hs. assert (reprm (mk_os (catenation_udh [] 7 2 i)) (catenation_udh [] 7 2 i)) as Hu.
  { apply mk_os_ok. unfold catenation_udh. cbn. repeat (apply Forall_cons_2; [unfold octet; try lia; apply Z.mod_pos_bound; lia|]). apply Forall_nil_2. }
  split; [done|]. split.
  - pose proof sample_uuid_ok. assert (valid_value (VStr (Some (mk_os s)))) by (by apply (vv_str _ s), mk_os_ok).
    assert (valid_value (VStr (Some (mk_os (catenation_udh [] 7 2 i))))) by (by eapply vv_str).
    assert (valid_value (VStr None)) by (by apply (vv_str _ [])). unfold msg_valid, all_values, sample_part, sample_sms.
    cbn -[catenation_udh mk_os].
    repeat (apply conj || apply Forall_cons_2 || apply Forall_nil_2 || apply vv_int || apply vv_ptr || assumption || (apply vv_uuid; assumption)).
  - exists (mk_os s). split; [done|]. pose proof (mk_os_ok s Hs) as H. unfold text. cbn -[mk_os]. by rewrite (repr_bytes _ _ (proj1 H)).
Qed.

Lemma sample_arrivals_ok : Forall arrival_ok (sample_arrivals ++ [sample_last]).
Proof.
  assert (string_ok (Some (octstr_imm [65]))) as Hi by (apply (octstr_imm_ok [65]); octets_tac).
  repeat apply Forall_cons_2; [| | |apply Forall_nil_2]; (split; [|exact Hi]).
  - apply sample_part_ok; [lia|octets_tac].
  - split; [done|]. split; [apply sample_sms_valid|]. eexists. split; [done|]. apply (mk_os_ok sample_text). unfold sample_text. octets_tac.
  - apply sample_part_ok; [lia|octets_tac].
Qed.

Definition keep (m : Msg) : Z * Msg := (0, m).

Lemma keep_fills : fills_in keep.
Proof. intros m. exists (sms_id (m_sms m)), (sms_time (m_sms m)). by destruct m as [? ? ? [] ? ?]. Qed.

Definition new_address (h : gmap Z ConcatMsg) : Z := fresh (dom h : gset Z).

Lemma new_address_free h : h !! new_address h = None.
Proof. apply (not_elem_of_dom (D := gset Z)). unfold new_address. apply is_fresh. Qed.

Definition sample_env (i : nat) : Z * list Z * list Z * list Z := (0, sample_uuid, sample_uuid, sample_uuid).

Lemma concat_refines_map_witness :
  exists outs st' A', @concat_run no_doubles_here keep new_address sample_env (concat_handling_init 10 (mkConcat true None ∅)) sample_arrivals 0
      = Ok (outs, st') /\ concat_steps ∅ sample_arrivals outs A' /\ concat_holds st' A'.
Proof.
  apply (@concat_refines_map no_doubles_here keep new_address sample_env); [apply keep_fills|apply new_address_free|apply concat_init_ok|].
  pose proof sample_arrivals_ok as H. by apply Forall_app in H as [H _].
Defined.

Lemma concat_parts_join_witness :
  exists outs m saved st', @concat_run no_doubles_here keep new_address sample_env (concat_handling_init 10 (mkConcat true None ∅))
      (sample_arrivals ++ [sample_last]) 0 =
    Ok (outs ++ [(concat_complete, Some m,
      Saved saved :: ((fun x => Acked x ack_success) <$> [sample_part 1 [72; 105]; sample_part 2 [33]]))], st') /\
    content (sms_msgdata (m_sms m)) [72; 105; 33] /\ content (sms_udhdata (m_sms m)) [].
Proof.
  destruct (@concat_parts_join no_doubles_here keep new_address sample_env (concat_handling_init 10 (mkConcat true None ∅)) ∅ sample_arrivals sample_last
    sample_key [] 7 [sample_part 1 [72; 105]; sample_part 2 [33]]) as (outs & m & saved & st' & A' & E & _ & (_ & Hm & _) & Hu & _).
  - apply keep_fills.
  - intros m. by vm_compute.
  - apply new_address_free.
  - apply concat_init_ok.
  - apply lookup_empty.
  - apply sample_arrivals_ok.
  - intros [|[|i]] m H; [injection H as <-..|done]; (apply mk_os_ok; vm_compute; repeat constructor; discriminate).
  - by left.
  - done.
  - assert ((filter (fun a => arrival_key a = Some sample_key) (sample_arrivals ++ [sample_last])).*1 = [sample_part 2 [33]; sample_part 1 [72; 105]]) as ->
      by (vm_compute; reflexivity).
    apply perm_swap.
  - vm_compute. reflexivity.
  - exists outs, m, saved, st'. split; [exact E|]. split; [exact Hm|exact Hu].
Defined.

(** The message that is saved has still the header of its first part, the one that
    goes on has not. *)
Definition udh_of (m : Msg) : list Z := oct_text (sms_udhdata (m_sms m)).

Definition headers_of (o : outcome) : option (list Z * list Z) :=
  match o with
  | (_, Some m, Saved saved :: _) => Some (udh_of m, udh_of saved)
  | _ => None
  end.

Example concat_saves_first_header :
  match @concat_run no_doubles_here keep new_address sample_env (concat_handling_init 10 (mkConcat true None ∅)) (sample_arrivals ++ [sample_last]) 0 with
  | Ok (outs, _) => headers_of <$> list.last outs
  | _ => None
  end = Some (Some ([], [5; 0; 3; 7; 2; 1])).
Proof. vm_compute. reflexivity. Qed.
