(* ===== verification/Dlr.v ===== *)
(** * Delivery reports

    Models src/gw/dlr.c and its storage in memory, src/gw/dlr_mem.c.  A message that
    asks for reports leaves an entry in the storage; a report from an SMS centre is
    matched with its entry by the centre, the time stamp and, for some centres, the end
    of the destination, and becomes a message for the box that sent the original.
    [struct dlr_storage] is the record [dlr_storage] of functions on a state;
    the functions that [dlr_init] requires are there, the others are optional.  The
    time and the identifiers of new messages are arguments. *)

From stdpp Require Import gmap.
From S2P Require Import Prelude Octstr OctstrSearch OctstrCode OctstrFormat OctstrParts GwList PrioQueue Dict Uuid Msg MetaData Charset Sms.
#[local] Open Scope Z_scope.
#[local] Open Scope kannel_scope.

(** ** Masks: src/gw/dlr.h *)

Definition DLR_SUCCESS : Z := 1.
Definition DLR_FAIL : Z := 2.
Definition DLR_BUFFERED : Z := 4.
Definition DLR_SMSC_SUCCESS : Z := 8.
Definition DLR_SMSC_FAIL : Z := 16.
Definition DLR_EXPIRED : Z := Z.lor 32 DLR_FAIL.
Definition DLR_UNKNOWN : Z := Z.lor 64 DLR_FAIL.

Definition DLR_IS_DEFINED (dlr : Z) : bool := negb (dlr =? -1).

Definition DLR_IS_NOT_FINAL (dlr : Z) : bool :=
  DLR_IS_DEFINED dlr && negb (Z.land dlr (Z.lor DLR_BUFFERED DLR_SMSC_SUCCESS) =? 0).

Definition DLR_IS_SUCCESS_OR_FAIL (dlr : Z) : bool :=
  DLR_IS_DEFINED dlr &&
  negb (Z.land dlr (Z.lor (Z.lor (Z.lor DLR_SUCCESS DLR_FAIL) DLR_EXPIRED) DLR_UNKNOWN) =? 0).

Definition MIN_DST_LEN : Z := 7.
Definition report_mo : Z := 3.

(** ** Entries *)

Record dlr_entry := mkEntry {
  dlr_smsc : option Octstr;
  dlr_timestamp : option Octstr;
  dlr_source : option Octstr;
  dlr_destination : option Octstr;
  dlr_service : option Octstr;
  dlr_url : option Octstr;
  dlr_boxc_id : option Octstr;
  dlr_mask : Z;
  dlr_use_dst : Z
}.

(** The copy does not get the [use_dst] of the entry. *)
Definition dlr_entry_duplicate (dlr : dlr_entry) : res dlr_entry :=
  smsc ← octstr_duplicate (dlr_smsc dlr);
  timestamp ← octstr_duplicate (dlr_timestamp dlr);
  source ← octstr_duplicate (dlr_source dlr);
  destination ← octstr_duplicate (dlr_destination dlr);
  service ← octstr_duplicate (dlr_service dlr);
  url ← octstr_duplicate (dlr_url dlr);
  boxc_id ← octstr_duplicate (dlr_boxc_id dlr);
  Ok (mkEntry smsc timestamp source destination service url boxc_id (dlr_mask dlr) 0).

Record dlr_storage (S : Type) := mkStorage {
  st_add : S -> dlr_entry -> res S;
  st_get : S -> option Octstr -> option Octstr -> option Octstr -> res (option dlr_entry);
  st_remove : S -> option Octstr -> option Octstr -> option Octstr -> res S;
  st_update : option (S -> option Octstr -> option Octstr -> option Octstr -> Z -> res S);
  st_messages : option (S -> res Z);
  st_flush : option (S -> res S)
}.
Arguments st_add {S}. Arguments st_get {S}. Arguments st_remove {S}.
Arguments st_update {S}. Arguments st_messages {S}. Arguments st_flush {S}.

(** ** In memory: src/gw/dlr_mem.c *)

(** A function that asserts its argument not to be NULL. *)
Definition some_octstr (o : option Octstr) : res Octstr :=
  match o with
  | Some o => Ok o
  | None => Panic
  end.

Definition compare_opt (a b : option Octstr) : res Z :=
  a ← some_octstr a; b ← some_octstr b; octstr_compare a b.

Definition same_smsc_ts (dlr : dlr_entry) (smsc ts : option Octstr) : res bool :=
  c ← compare_opt (dlr_smsc dlr) smsc;
  if c =? 0 then c ← compare_opt (dlr_timestamp dlr) ts; Ok (c =? 0) else Ok false.

(** 0 for a match, 1 for none. *)
Definition dlr_mem_entry_match (dlr : dlr_entry) (smsc ts dst : option Octstr) : res Z :=
  match dst with
  | Some dst =>
      l1 ← octstr_len (dlr_destination dlr);
      l2 ← octstr_len (Some dst);
      let pos := l1 - l2 in
      if pos <? 0 then Ok 1
      else
        b ← same_smsc_ts dlr smsc ts;
        if negb b then Ok 1
        else
          d ← some_octstr (dlr_destination dlr);
          r ← octstr_search d dst pos;
          Ok (if negb (r =? -1) then 0 else 1)
  | None =>
      b ← same_smsc_ts dlr smsc ts;
      Ok (if b : bool then 0 else 1)
  end.

Notation waiting_list := (List dlr_entry).

Definition dlr_mem_messages (l : waiting_list) : res Z := Ok (gwlist_len (Some l)).

Fixpoint mem_flush_loop (l : waiting_list) (n : nat) : res waiting_list :=
  match n with
  | O => Ok l
  | S n =>
      dlr ← gwlist_get l 0;
      l ← gwlist_delete l 0 1;
      mem_flush_loop l n
  end.

Definition dlr_mem_flush (l : waiting_list) : res waiting_list :=
  mem_flush_loop l (Z.to_nat (gwlist_len (Some l))).

Definition dlr_mem_add (l : waiting_list) (dlr : dlr_entry) : res waiting_list := gwlist_append l dlr.

Fixpoint get_loop_mem (l : waiting_list) (i : Z) (smsc ts dst : option Octstr) (n : nat) : res (option dlr_entry) :=
  match n with
  | O => Ok None
  | S n =>
      dlr ← gwlist_get l i;
      m ← dlr_mem_entry_match dlr smsc ts dst;
      if m =? 0 then ret ← dlr_entry_duplicate dlr; Ok (Some ret)
      else get_loop_mem l (i + 1) smsc ts dst n
  end.

Definition dlr_mem_get (l : waiting_list) (smsc ts dst : option Octstr) : res (option dlr_entry) :=
  get_loop_mem l 0 smsc ts dst (Z.to_nat (gwlist_len (Some l))).

Fixpoint remove_loop_mem (l : waiting_list) (i : Z) (smsc ts dst : option Octstr) (n : nat) : res waiting_list :=
  match n with
  | O => Ok l
  | S n =>
      dlr ← gwlist_get l i;
      m ← dlr_mem_entry_match dlr smsc ts dst;
      if m =? 0 then gwlist_delete l i 1
      else remove_loop_mem l (i + 1) smsc ts dst n
  end.

Definition dlr_mem_remove (l : waiting_list) (smsc ts dst : option Octstr) : res waiting_list :=
  remove_loop_mem l 0 smsc ts dst (Z.to_nat (gwlist_len (Some l))).

(** [handles] of dlr_mem.c. *)
Definition dlr_mem : dlr_storage waiting_list :=
  mkStorage _ dlr_mem_add dlr_mem_get dlr_mem_remove None (Some dlr_mem_messages) (Some dlr_mem_flush).

(** ** Reports: src/gw/dlr.c *)

Section dlr.
Context `{!Printf} {S : Type}.
Variable handles : option (dlr_storage S).
Implicit Types st : S.

Definition dlr_messages st : res Z :=
  match handles with
  | Some h => match st_messages h with Some f => f st | None => Ok (-1) end
  | None => Ok (-1)
  end.

Definition dlr_flush st : res S :=
  match handles with
  | Some h => match st_flush h with Some f => f st | None => Ok st end
  | None => Ok st
  end.

Definition copy_or_empty (o : option Octstr) : res (option Octstr) :=
  match o with
  | Some o => octstr_duplicate (Some o)
  | None => e ← octstr_create []; Ok (Some e)
  end.

(** [orig] is the message that was split, where [msg] is a part of one; both get the
    time stamp as their foreign id. *)
Definition dlr_add st (smsc ts : option Octstr) (msg : sms) (orig : option sms) (use_dst : Z)
  : res (S * sms * option sms) :=
  id ← octstr_duplicate ts;
  let msg := set_foreign_id msg id in
  orig ← match orig with
         | Some orig => id ← octstr_duplicate ts; Ok (Some (set_foreign_id orig id))
         | None => Ok None
         end;
  n ← octstr_len smsc;
  if n =? 0 then Ok (st, msg, orig)
  else
    match handles with
    | None => Ok (st, msg, orig)
    | Some h =>
        if negb (DLR_IS_ENABLED (sms_dlr_mask msg)) then Ok (st, msg, orig)
        else
          e_smsc ← copy_or_empty smsc;
          e_ts ← copy_or_empty ts;
          e_source ← copy_or_empty (sms_sender msg);
          e_destination ← copy_or_empty (sms_receiver msg);
          e_service ← copy_or_empty (sms_service msg);
          e_url ← copy_or_empty (sms_dlr_url msg);
          e_boxc ← copy_or_empty (sms_boxc_id msg);
          st ← st_add h st (mkEntry e_smsc e_ts e_source e_destination e_service e_url e_boxc
                              (int32 (sms_dlr_mask msg)) use_dst);
          Ok (st, msg, orig)
    end.

(** [O_SET]: a value that is not empty is moved to the message. *)
Definition o_set (x val : option Octstr) : res (option Octstr) :=
  n ← octstr_len val; Ok (if 0 <? n then val else x).

Definition METADATA_ORIG_MSG_GROUP : list Z := [111; 114; 105; 103; 95; 109; 115; 103].
Definition METADATA_ORIG_MSG_GROUP_DLR_MASK : list Z := [100; 108; 114; 95; 109; 97; 115; 107].

Definition set_orig_mask (meta_data : Octstr) (mask : Z) : res Octstr :=
  dlr_mask ← octstr_format [37; 108; 100] [AInt mask];
  '(_, meta_data) ← meta_data_set_value meta_data METADATA_ORIG_MSG_GROUP
                      (octstr_imm METADATA_ORIG_MSG_GROUP_DLR_MASK) dlr_mask true;
  Ok meta_data.

Definition report_msg (id1 id2 : list Z) (dlr : dlr_entry) (ts : option Octstr) (typ now : Z) : res Msg :=
  let msg := msg_create id1 id2 T_SMS in
  let p := set_dlr_mask (set_sms_type (m_sms msg) report_mo) typ in
  service ← o_set (sms_service p) (dlr_service dlr);
  smsc ← o_set (sms_smsc_id p) (dlr_smsc dlr);
  receiver ← o_set (sms_receiver p) (dlr_destination dlr);
  sender ← o_set (sms_sender p) (dlr_source dlr);
  url ← o_set (sms_dlr_url p) (dlr_url dlr);
  id ← octstr_duplicate ts;
  boxc_id ← o_set (sms_boxc_id p) (dlr_boxc_id dlr);
  meta_data ← octstr_create [];
  meta_data ← set_orig_mask meta_data (dlr_mask dlr);
  let p := set_sender (set_receiver (set_smsc_id (set_service p service) smsc) receiver) sender in
  let p := set_msgdata (set_foreign_id (set_dlr_url p url) id) None in
  Ok (with_sms msg (set_sms_time (set_meta_data (set_boxc_id p boxc_id) (Some meta_data)) now)).

(** The end of the destination. *)
Definition min_dst (dst : option Octstr) (use_dst : bool) : res (option Octstr) :=
  match dst with
  | Some d =>
      if use_dst then
        dst_min ← octstr_duplicate (Some d);
        dst_min ← some_octstr dst_min;
        len ← octstr_len (Some d);
        dst_min ← (if MIN_DST_LEN <? len then octstr_delete dst_min 0 (len - MIN_DST_LEN) else Ok dst_min);
        Ok (Some dst_min)
      else Ok None
  | None => Ok None
  end.

Definition dlr_find st (id1 id2 : list Z) (now : Z) (smsc ts dst : option Octstr) (typ : Z) (use_dst : bool)
  : res (option Msg * S) :=
  n ← octstr_len smsc;
  if n =? 0 then Ok (None, st)
  else
    match handles with
    | None => Ok (None, st)
    | Some h =>
        dst_min ← min_dst dst use_dst;
        dlr ← st_get h st smsc ts dst_min;
        match dlr with
        | None => Ok (None, st)
        | Some dlr =>
            msg ← (if 0 <? Z.land typ (dlr_mask dlr) then
                     m ← report_msg id1 id2 dlr ts typ now; Ok (Some m)
                   else Ok None);
            st ← (if DLR_IS_NOT_FINAL typ && DLR_IS_SUCCESS_OR_FAIL (dlr_mask dlr) then
                    match st_update h with
                    | Some f => f st smsc ts dst_min typ
                    | None => Ok st
                    end
                  else st_remove h st smsc ts dst_min);
            Ok (msg, st)
        end
    end.

(** [create_dlr_from_msg]: a report on a message that is here. *)
Definition create_dlr_from_msg (id1 id2 : list Z) (now : Z) (smsc : option Octstr) (msg : sms) (reply : option Octstr)
    (stat : Z) : res Msg :=
  let dlrmsg := msg_create id1 id2 T_SMS in
  service ← octstr_duplicate (sms_service msg);
  let p := set_sms_type (set_dlr_mask (set_service (m_sms dlrmsg) service) stat) report_mo in
  smsc_id ← octstr_duplicate (match smsc with Some _ => smsc | None => sms_smsc_id msg end);
  sender ← octstr_duplicate (sms_sender msg);
  receiver ← octstr_duplicate (sms_receiver msg);
  url ← octstr_duplicate (sms_dlr_url msg);
  msgdata ← octstr_duplicate reply;
  boxc_id ← octstr_duplicate (sms_boxc_id msg);
  foreign_id ← octstr_duplicate (sms_foreign_id msg);
  meta_data ← octstr_duplicate (sms_meta_data msg);
  meta_data ← (if DLR_IS_ENABLED (sms_dlr_mask msg) then
                 m ← match meta_data with Some m => Ok m | None => octstr_create [] end;
                 m ← set_orig_mask m (sms_dlr_mask msg);
                 Ok (Some m)
               else Ok meta_data);
  let p := set_receiver (set_sender (set_smsc_id p smsc_id) sender) receiver in
  let p := set_boxc_id (set_msgdata (set_dlr_url p url) msgdata) boxc_id in
  Ok (with_sms dlrmsg (set_meta_data (set_sms_time (set_foreign_id p foreign_id) now) meta_data)).
End dlr.
