(* ===== verification/DlrProofs.v ===== *)
(** * Delivery reports: what they promise

    What dlr.c requires of a storage is the class [DlrStorageLaws]: a sequence of
    entries, of which the first that matches is found and removed.  The storage in
    memory keeps it, and for every storage that does, a report becomes the message it
    should and its entry goes away with the last report (Dlr.v). *)

From stdpp Require Import gmap.
From S2P Require Import Prelude Octstr OctstrSearch OctstrCode OctstrFormat OctstrParts GwList PrioQueue Dict Uuid Msg MetaData MetaDataProofs MetaDataPack MetaDataOps Charset Sms Dlr.
#[local] Open Scope Z_scope.
#[local] Open Scope kannel_scope.

(** ** Entries as texts *)

Record wait_entry := mkE {
  e_smsc : list Z;
  e_ts : list Z;
  e_source : list Z;
  e_destination : list Z;
  e_service : list Z;
  e_url : list Z;
  e_boxc_id : list Z;
  e_mask : Z
}.

Definition is_text (o : option Octstr) (s : list Z) : Prop := exists x, o = Some x /\ repr x s.

Record entry_is (d : dlr_entry) (e : wait_entry) : Prop := {
  ei_smsc : is_text (dlr_smsc d) (e_smsc e);
  ei_ts : is_text (dlr_timestamp d) (e_ts e);
  ei_source : is_text (dlr_source d) (e_source e);
  ei_destination : is_text (dlr_destination d) (e_destination e);
  ei_service : is_text (dlr_service d) (e_service e);
  ei_url : is_text (dlr_url d) (e_url e);
  ei_boxc_id : is_text (dlr_boxc_id d) (e_boxc_id e);
  ei_mask : dlr_mask d = e_mask e;
  ei_int : - 2 ^ 31 <= e_mask e < 2 ^ 31
}.

(** The centre and the time stamp agree, and the destination ends with [dst]. *)
Definition matches (smsc ts : list Z) (dst : option (list Z)) (e : wait_entry) : bool :=
  bool_decide (e_smsc e = smsc) && bool_decide (e_ts e = ts) &&
  match dst with
  | Some d => bool_decide (d `suffix_of` e_destination e)
  | None => true
  end.

Fixpoint remove_first (p : wait_entry -> bool) (l : list wait_entry) : list wait_entry :=
  match l with
  | [] => []
  | e :: l => if p e then l else e :: remove_first p l
  end.

(** What dlr.c requires of a storage, [view st l] saying that [st] holds the entries
    [l] in their order. *)
Class DlrStorageLaws {S : Type} (h : dlr_storage S) (view : S -> list wait_entry -> Prop) : Prop := {
  law_add : forall st l d e, view st l -> entry_is d e ->
    returns (st_add h st d) (fun st' => view st' (l ++ [e]));
  law_get : forall st l smsc a ts b dst t, view st l -> repr smsc a -> repr ts b -> option_Forall2 repr dst t ->
    returns (st_get h st (Some smsc) (Some ts) dst)
      (fun r => option_Forall2 entry_is r (List.find (matches a b t) l));
  law_remove : forall st l smsc a ts b dst t, view st l -> repr smsc a -> repr ts b -> option_Forall2 repr dst t ->
    returns (st_remove h st (Some smsc) (Some ts) dst) (fun st' => view st' (remove_first (matches a b t) l));
  law_update : forall f, st_update h = Some f -> forall st l smsc a ts b dst t typ,
    view st l -> repr smsc a -> repr ts b -> option_Forall2 repr dst t ->
    returns (f st (Some smsc) (Some ts) dst typ) (fun st' => view st' l);
  law_flush : forall f, st_flush h = Some f -> forall st l, view st l -> returns (f st) (fun st' => view st' []);
  law_messages : forall f, st_messages h = Some f -> forall st l, view st l -> f st = Ok (zlen l)
}.

(** ** Matching *)

Lemma compare_opt_ok o s x t : is_text o s -> repr x t -> compare_opt o (Some x) = Ok (strcmp s t).
Proof. intros (y & -> & Hy) Hx. cbn. by apply octstr_compare_ok. Qed.

Lemma same_smsc_ts_ok d e smsc a ts b : entry_is d e -> repr smsc a -> repr ts b ->
  same_smsc_ts d (Some smsc) (Some ts) = Ok (bool_decide (e_smsc e = a) && bool_decide (e_ts e = b)).
Proof.
  intros He Ha Hb. unfold same_smsc_ts. rewrite (compare_opt_ok _ _ _ _ (ei_smsc _ _ He) Ha). bind_red.
  destruct (Z.eqb_spec (strcmp (e_smsc e) a) 0) as [E|E].
  - rewrite (compare_opt_ok _ _ _ _ (ei_ts _ _ He) Hb). bind_red. rewrite bool_decide_true by by apply strcmp_eq_0.
    cbn [andb]. f_equal. apply eq_true_iff_eq. rewrite Z.eqb_eq, bool_decide_eq_true. apply strcmp_eq_0.
  - rewrite bool_decide_false; [done|]. intros H. by apply E, strcmp_eq_0.
Qed.

(** Searching from where the needle would end with the text. *)
Lemma search_suffix oh h on n : repr oh h -> repr on n -> zlen n <= zlen h ->
  exists r, octstr_search oh on (zlen h - zlen n) = Ok r /\ (r <> -1 <-> n `suffix_of` h).
Proof.
  intros Hh Hn Hl. destruct (decide (n = [])) as [->|Hne].
  { exists 0. unfold octstr_search. rewrite (repr_seems_valid _ _ Hh), (repr_seems_valid _ _ Hn), (repr_len _ _ Hn). bind_red.
    destruct (Z.leb_spec 0 (zlen h - zlen (@nil Z))); [|list_lia]. cbn. split; [done|].
    split; [|lia]. intros _. exists h. by rewrite app_nil_r. }
  pose proof (octstr_search_ok oh on h n (zlen h - zlen n) Hh Hn Hne ltac:(lia)) as Hs.
  apply returns_iff in Hs as (r & E & Hr). exists r. split; [done|].
  assert (forall i, zlen h - zlen n <= i -> occurs_at h n i <-> i = zlen h - zlen n /\ n `suffix_of` h) as Ho.
  { intros i Hi. unfold occurs_at, slice. split.
    - intros [H0 Hs]. assert (i = zlen h - zlen n) as ->.
      { apply (f_equal length) in Hs. rewrite length_take, length_drop in Hs.
        assert (0 < zlen n) by (destruct n; [done|list_lia]). list_lia. }
      split; [done|]. rewrite <- Hs. rewrite take_ge by (rewrite length_drop; list_lia).
      exists (take (Z.to_nat (zlen h - zlen n)) h). by rewrite take_drop.
    - intros [-> [k ->]]. split; [lia|]. replace (Z.to_nat (zlen (k ++ n) - zlen n)) with (length k) by list_lia.
      rewrite drop_app_length. apply take_ge. list_lia. }
  destruct Hr as [[-> Hno] | (H1 & H2 & _)].
  - split; [done|]. intros Hs _. apply (Hno (zlen h - zlen n)); [lia|]. by apply Ho.
  - split; [|lia]. intros _. by apply Ho in H2 as [_ H2].
Qed.

Lemma dlr_mem_entry_match_ok d e smsc a ts b dst t :
  entry_is d e -> repr smsc a -> repr ts b -> option_Forall2 repr dst t ->
  dlr_mem_entry_match d (Some smsc) (Some ts) dst = Ok (if matches a b t e then 0 else 1).
Proof.
  intros He Ha Hb Hd. unfold dlr_mem_entry_match, matches. destruct Hd as [x t Hx|].
  2:{ rewrite (same_smsc_ts_ok d e smsc a ts b) by done. bind_red. by rewrite andb_true_r. }
  destruct (ei_destination _ _ He) as (y & Ey & Hy). rewrite Ey, (octstr_len_ok _ _ Hy), (octstr_len_ok _ _ Hx). bind_red.
  rewrite (same_smsc_ts_ok d e smsc a ts b) by done.
  destruct (Z.ltb_spec (zlen (e_destination e) - zlen t) 0) as [Hl|Hl].
  { rewrite (bool_decide_false (t `suffix_of` _)); [by rewrite andb_false_r|].
    intros [k E]. rewrite E in Hl. list_lia. }
  bind_red. destruct (_ && _); [|done]. cbn [negb some_octstr andb]. bind_red.
  destruct (search_suffix y _ x t Hy Hx ltac:(lia)) as (r & -> & Hr). bind_red. f_equal.
  destruct (Z.eqb_spec r (-1)) as [->|Hne]; cbn [negb].
  - rewrite bool_decide_false; [done|]. intros Hs. by apply Hr in Hs.
  - by rewrite bool_decide_true by by apply Hr.
Qed.

(** ** The storage in memory *)

Definition mem_view (l : waiting_list) (es : list wait_entry) : Prop := exists ds, lrepr l ds /\ Forall2 entry_is ds es.

Lemma is_text_dup o s : is_text o s -> returns (octstr_duplicate o) (fun o' => is_text o' s).
Proof.
  intros (x & -> & Hx). eapply returns_mono; [by apply octstr_duplicate_ok|]. intros r (o & -> & Ho). exists o. by split; [|apply Ho].
Qed.

Lemma dlr_entry_duplicate_ok d e : entry_is d e -> returns (dlr_entry_duplicate d) (fun d' => entry_is d' e).
Proof.
  intros [H1 H2 H3 H4 H5 H6 H7 H8 H9]. unfold dlr_entry_duplicate.
  do 7 (eapply returns_seq; [by apply is_text_dup|]; intros ? ?; cbn beta in *). by constructor.
Qed.

Lemma gwlist_get_nth {A} (l : List A) xs (i : nat) x : lrepr l xs -> xs !! i = Some x -> gwlist_get l (Z.of_nat i) = Ok x.
Proof.
  intros Hl Hx. unfold gwlist_get. pose proof (lookup_lt_Some _ _ _ Hx). rewrite (lr_len _ _ Hl).
  destruct (Z.leb_spec 0 (Z.of_nat i)); [|lia]. destruct (Z.ltb_spec (Z.of_nat i) (zlen xs)); [|list_lia]. cbn [gw_assert]. bind_red.
  by apply (GET_ok l xs).
Qed.

Section mem.
Context (smsc ts : Octstr) (a b : list Z) (dst : option Octstr) (t : option (list Z)).
Hypothesis Ha : repr smsc a.
Hypothesis Hb : repr ts b.
Hypothesis Hd : option_Forall2 repr dst t.

Lemma get_loop_mem_ok l ds0 (n : nat) : forall (i : nat) ds es,
  lrepr l ds0 -> drop i ds0 = ds -> Forall2 entry_is ds es -> n = length ds ->
  returns (get_loop_mem l (Z.of_nat i) (Some smsc) (Some ts) dst n)
    (fun r => option_Forall2 entry_is r (List.find (matches a b t) es)).
Proof.
  induction n as [|n IH]; intros i ds es Hl Hi Hes Hn.
  { destruct Hes; [constructor|done]. }
  destruct Hes as [|d e ds es He Hes]; [done|]. cbn [get_loop_mem List.find].
  assert (ds0 !! i = Some d) as Hx by (rewrite <- (Nat.add_0_r i), <- lookup_drop, Hi; done).
  rewrite (gwlist_get_nth l ds0 i d Hl Hx). bind_red.
  rewrite (dlr_mem_entry_match_ok d e smsc a ts b dst t) by done. bind_red. destruct (matches a b t e); cbn [Z.eqb].
  - eapply returns_seq; [by apply dlr_entry_duplicate_ok|]. intros d' Hd'. by constructor.
  - replace (Z.of_nat i + 1) with (Z.of_nat (S i)) by lia. apply (IH (S i) ds es); [done| |done|by injection Hn].
    by eapply drop_cons_S.
Qed.

Lemma remove_loop_mem_ok l ds0 es0 (n : nat) : forall (i : nat) ds es,
  lrepr l ds0 -> Forall2 entry_is ds0 es0 -> drop i ds0 = ds -> drop i es0 = es -> n = length ds ->
  returns (remove_loop_mem l (Z.of_nat i) (Some smsc) (Some ts) dst n)
    (fun l' => mem_view l' (take i es0 ++ remove_first (matches a b t) es)).
Proof.
  induction n as [|n IH]; intros i ds es Hl H0 Hi Hie Hn.
  all: pose proof (Forall2_drop _ _ _ i H0) as Hes; rewrite Hi, Hie in Hes.
  { destruct Hes; [|done]. cbn. exists ds0. split; [done|]. rewrite app_nil_r.
    rewrite take_ge; [done|]. apply (f_equal length) in Hie. rewrite length_drop in Hie. cbn in Hie. lia. }
  destruct Hes as [|d e ds es He Hes]; [done|]. cbn [remove_loop_mem remove_first].
  assert (ds0 !! i = Some d) as Hx by (rewrite <- (Nat.add_0_r i), <- lookup_drop, Hi; done).
  rewrite (gwlist_get_nth l ds0 i d Hl Hx). bind_red.
  rewrite (dlr_mem_entry_match_ok d e smsc a ts b dst t) by done. bind_red. destruct (matches a b t e); cbn [Z.eqb].
  - unfold gwlist_delete. pose proof (lookup_lt_Some _ _ _ Hx).
    eapply returns_mono; [apply (delete_items_ok l ds0 (Z.of_nat i) 1 Hl); list_lia|].
    intros l' [Hl' _]. rewrite (cut_one _ _ _ Hx) in Hl'. eexists. split; [done|].
    apply Forall2_app; [by apply Forall2_take|]. by rewrite (drop_cons_S _ _ _ _ Hi).
  - replace (Z.of_nat i + 1) with (Z.of_nat (S i)) by lia.
    eapply returns_mono; [apply (IH (S i) ds es); [done|done|by apply (drop_cons_S _ _ d)|by apply (drop_cons_S _ _ e)|by injection Hn]|].
    intros l' Hv. rewrite (take_S_r es0 i e), <- app_assoc in Hv; [done|]. rewrite <- (Nat.add_0_r i), <- lookup_drop, Hie. done.
Qed.
End mem.

Lemma mem_flush_ok (n : nat) : forall l (ds : list dlr_entry), lrepr l ds -> n = length ds ->
  returns (mem_flush_loop l n) (fun l' => lrepr l' []).
Proof.
  induction n as [|n IH]; intros l ds Hl Hn; [by destruct ds|]. destruct ds as [|d ds]; [done|]. cbn [mem_flush_loop].
  rewrite (gwlist_get_nth l (d :: ds) 0 d Hl eq_refl : gwlist_get l 0 = _). bind_red. unfold gwlist_delete.
  eapply returns_seq; [apply (delete_items_ok l (d :: ds) 0 1 Hl); list_lia|]. intros l' [Hl' _].
  apply (IH l' ds); [|by injection Hn]. unfold cut in Hl'. exact Hl'.
Qed.

#[export] Instance dlr_mem_laws : DlrStorageLaws dlr_mem mem_view.
Proof.
  split.
  - intros st l d e (ds & Hl & Hes) He. cbn. eapply returns_mono; [by apply (gwlist_append_ok st ds)|].
    intros st' (H' & _). exists (ds ++ [d]). split; [done|]. apply Forall2_app; [done|]. by apply Forall2_cons; [|apply Forall2_nil].
  - intros st l smsc a ts b dst t (ds & Hl & Hes) Ha Hb Hd. cbn. unfold dlr_mem_get, gwlist_len. rewrite (lr_len _ _ Hl).
    apply (get_loop_mem_ok smsc ts a b dst t Ha Hb Hd st ds _ 0 ds l); [done|done|done|list_lia].
  - intros st l smsc a ts b dst t (ds & Hl & Hes) Ha Hb Hd. cbn. unfold dlr_mem_remove, gwlist_len. rewrite (lr_len _ _ Hl).
    apply (remove_loop_mem_ok smsc ts a b dst t Ha Hb Hd st ds l _ 0 ds l); [done..|list_lia].
  - done.
  - intros f [= <-] st l (ds & Hl & Hes). unfold dlr_mem_flush, gwlist_len. rewrite (lr_len _ _ Hl).
    eapply returns_mono; [apply (mem_flush_ok _ st ds Hl); list_lia|]. intros st' H'. exists []. split; [done|by apply Forall2_nil].
  - intros f [= <-] st l (ds & Hl & Hes). unfold dlr_mem_messages, gwlist_len. rewrite (lr_len _ _ Hl).
    unfold zlen. by rewrite (Forall2_length Hes).
Qed.

(** ** Reports *)

(** A field of a message: empty and NULL are the same. *)
Definition field_is (o : option Octstr) (s : list Z) : Prop :=
  match o with
  | Some x => repr x s
  | None => s = []
  end.

Lemma o_set_ok o s : is_text o s -> exists r, o_set None o = Ok r /\ field_is r s.
Proof.
  intros (x & -> & Hx). unfold o_set. rewrite (octstr_len_ok _ _ Hx). bind_red. eexists. split; [done|].
  destruct (Z.ltb_spec 0 (zlen s)); [done|]. apply zlen_0_inv. pose proof (zlen_nonneg s). lia.
Qed.

Lemma int_long n : - 2 ^ 31 <= n < 2 ^ 31 -> LONG_MIN <= n <= LONG_MAX.
Proof. unfold LONG_MIN, LONG_MAX. lia. Qed.

(** The end of a destination that counts. *)
Definition tail_of (dst : list Z) : list Z := drop (Z.to_nat (zlen dst - MIN_DST_LEN)) dst.

Definition dst_of (dst : option (list Z)) (use_dst : bool) : option (list Z) :=
  if use_dst then option_map tail_of dst else None.

Lemma min_dst_ok dst t use_dst : option_Forall2 repr dst t ->
  returns (min_dst dst use_dst) (fun r => option_Forall2 repr r (dst_of t use_dst)).
Proof.
  intros [x s Hx|]; unfold min_dst, dst_of; [|destruct use_dst; constructor]. destruct use_dst; [|constructor].
  eapply returns_seq; [by apply octstr_duplicate_ok|]. intros r (o & -> & Ho). cbn [some_octstr]. bind_red.
  rewrite (octstr_len_ok _ _ Hx). bind_red. apply returns_bind. unfold tail_of, MIN_DST_LEN. cbn [option_map].
  destruct (Z.ltb_spec 7 (zlen s)).
  - eapply returns_mono; [apply (octstr_delete_ok o s 0 (zlen s - 7) Ho); long_lia|]. intros o' [Ho' _]. constructor.
    unfold cut in Ho'. rewrite take_0 in Ho'. exact Ho'.
  - cbn. constructor. replace (Z.to_nat (zlen s - 7)) with 0%nat by lia. apply Ho.
Qed.

Section reports.
Context `{!Printf}.

Lemma format_long_ok n : LONG_MIN <= n <= LONG_MAX ->
  returns (octstr_format [37; 108; 100] [AInt n]) (fun o => reprm o (sprintf_ld n)).
Proof.
  intros Hn. pose proof (octstr_format_ok [mkSegment [] (plain_dir 108 100) (AInt n)] []) as Hf.
  eapply returns_mono; [apply Hf|].
  - apply Forall_singleton, plain_seg_ok; [literal_tac|by apply (bool_decide_unpack _)..|done|by eexists].
  - literal_tac.
  - intros o Ho. cbn [fmap list_fmap concat] in Ho. rewrite (plain_render _ _ _ _ (sprintf_ld n)) in Ho; [by rewrite !app_nil_r in Ho|].
    unfold render_conv. cbn -[sprintf_ld swrap]. unfold signed_arg. cbn -[sprintf_ld swrap].
    by rewrite swrap_small by (unfold LONG_MIN, LONG_MAX in *; lia).
Qed.

Lemma imm_mask : repr (octstr_imm METADATA_ORIG_MSG_GROUP_DLR_MASK) METADATA_ORIG_MSG_GROUP_DLR_MASK.
Proof. apply octstr_imm_ok. octets_tac. Qed.

(** The meta data hold the mask that was asked for. *)
Definition tells_mask (md : Octstr) (mask : Z) : Prop :=
  reads_value md METADATA_ORIG_MSG_GROUP (octstr_imm METADATA_ORIG_MSG_GROUP_DLR_MASK) (Some (sprintf_ld mask)).

Lemma set_orig_mask_ok md s mask : reprm md s -> LONG_MIN <= mask <= LONG_MAX ->
  returns (set_orig_mask md mask) (fun md' => (exists t, reprm md' t) /\ tells_mask md' mask).
Proof.
  intros Hmd Hm. unfold set_orig_mask. eapply returns_seq; [by apply format_long_ok|]. intros v [Hv _].
  destruct (set_get_ok md s METADATA_ORIG_MSG_GROUP (octstr_imm METADATA_ORIG_MSG_GROUP_DLR_MASK) v
    METADATA_ORIG_MSG_GROUP_DLR_MASK (sprintf_ld mask) Hmd) as (md' & t & -> & Ht & Hr & _).
  - octets_tac.
  - repeat (apply Forall_cons_2; [lia|]); apply Forall_nil_2.
  - apply imm_mask.
  - done.
  - bind_red. cbn [returns]. split; [by exists t|]. by apply Hr.
Qed.

(** The message for a report of the type [typ] on the entry [e]. *)
Record report_is (m : Msg) (e : wait_entry) (ts : list Z) (typ now : Z) : Prop := {
  ri_type : m_type m = T_SMS /\ sms_sms_type (m_sms m) = report_mo;
  ri_typ : sms_dlr_mask (m_sms m) = typ;
  ri_time : sms_time (m_sms m) = now;
  ri_service : field_is (sms_service (m_sms m)) (e_service e);
  ri_smsc : field_is (sms_smsc_id (m_sms m)) (e_smsc e);
  ri_receiver : field_is (sms_receiver (m_sms m)) (e_destination e);
  ri_sender : field_is (sms_sender (m_sms m)) (e_source e);
  ri_url : field_is (sms_dlr_url (m_sms m)) (e_url e);
  ri_boxc_id : field_is (sms_boxc_id (m_sms m)) (e_boxc_id e);
  ri_foreign_id : is_text (sms_foreign_id (m_sms m)) ts;
  ri_msgdata : sms_msgdata (m_sms m) = None;
  ri_meta_data : exists md, sms_meta_data (m_sms m) = Some md /\ tells_mask md (e_mask e)
}.

Lemma report_msg_ok id1 id2 d e ts b typ now : entry_is d e -> repr ts b ->
  returns (report_msg id1 id2 d (Some ts) typ now) (fun m => report_is m e b typ now).
Proof.
  intros He Hts. pose proof He as [H1 H2 H3 H4 H5 H6 H7 H8 H9]. unfold report_msg.
  destruct (o_set_ok _ _ H5) as (service & E5 & F5). destruct (o_set_ok _ _ H1) as (smsc & E1 & F1).
  destruct (o_set_ok _ _ H4) as (receiver & E4 & F4). destruct (o_set_ok _ _ H3) as (sender & E3 & F3).
  destruct (o_set_ok _ _ H6) as (url & E6 & F6). destruct (o_set_ok _ _ H7) as (boxc & E7 & F7).
  cbn zeta. cbn [set_dlr_mask set_sms_type m_sms msg_create sms_service sms_smsc_id sms_receiver sms_sender sms_dlr_url sms_boxc_id].
  rewrite E5. bind_red. rewrite E1. bind_red. rewrite E4. bind_red. rewrite E3. bind_red. rewrite E6. bind_red.
  eapply returns_seq; [by apply (is_text_dup (Some ts) b); exists ts|]. intros id Hid. cbn beta in Hid. rewrite E7. bind_red.
  eapply returns_seq; [apply (octstr_create_ok [] (Forall_nil_2 _))|]. intros md0 Hmd0. cbn beta in Hmd0. rewrite H8.
  eapply returns_seq; [apply (set_orig_mask_ok md0 [] _ Hmd0), int_long, H9|]. intros md (_ & Hmd).
  cbn [returns]. constructor; cbn; try done. by exists md.
Qed.
End reports.

(** ** Finding and adding, on any storage *)

(** More reports are to come. *)
Definition waits (typ mask : Z) : bool := DLR_IS_NOT_FINAL typ && DLR_IS_SUCCESS_OR_FAIL mask.

Definition text_of (o : option Octstr) : list Z := match o with Some x => bytes x | None => [] end.
Definition opt_ok (o : option Octstr) : Prop := match o with Some x => repr x (bytes x) | None => True end.

(** The fields that dlr.c reads. *)
Definition sms_ok (p : sms) : Prop :=
  Forall opt_ok [sms_sender p; sms_receiver p; sms_service p; sms_dlr_url p; sms_boxc_id p].

(** The entry of a message. *)
Definition entry_of (smsc ts : list Z) (p : sms) : wait_entry :=
  mkE smsc ts (text_of (sms_sender p)) (text_of (sms_receiver p)) (text_of (sms_service p)) (text_of (sms_dlr_url p))
    (text_of (sms_boxc_id p)) (sms_dlr_mask p).

Lemma copy_or_empty_ok o : opt_ok o -> returns (copy_or_empty o) (fun r => is_text r (text_of o)).
Proof.
  intros Ho. destruct o as [x|]; cbn [copy_or_empty text_of]; [by apply is_text_dup; exists x|].
  eapply returns_seq; [apply (octstr_create_ok [] (Forall_nil_2 _))|]. intros e [He _]. cbn. by exists e.
Qed.

Lemma copy_given_ok o s : repr o s -> returns (copy_or_empty (Some o)) (fun r => is_text r s).
Proof. intros Ho. apply is_text_dup. by exists o. Qed.

Lemma remove_first_snoc p l e : Forall (fun x => p x = false) l -> p e = true ->
  List.find p (l ++ [e]) = Some e /\ remove_first p (l ++ [e]) = l.
Proof.
  induction 1 as [|x l Hx _ IH]; intros He; cbn; [by rewrite He|]. rewrite Hx. destruct (IH He) as [-> ->]. done.
Qed.

Section any_storage.
Context `{!Printf} {S : Type} (h : dlr_storage S) (view : S -> list wait_entry -> Prop) `{!DlrStorageLaws h view}.
Context (smsc ts : Octstr) (a b : list Z).
Hypothesis Ha : repr smsc a.
Hypothesis Hne : a <> [].
Hypothesis Hb : repr ts b.

Lemma smsc_len : exists n, octstr_len (Some smsc) = Ok n /\ n <> 0.
Proof.
  exists (zlen a). split; [by apply octstr_len_ok|]. intros E. by apply Hne, zlen_0_inv.
Qed.

Lemma dlr_find_ok st l id1 id2 now dst t typ use_dst : view st l -> option_Forall2 repr dst t ->
  returns (dlr_find (Some h) st id1 id2 now (Some smsc) (Some ts) dst typ use_dst) (fun r =>
    match List.find (matches a b (dst_of t use_dst)) l with
    | None => r.1 = None /\ view r.2 l
    | Some e =>
        match r.1 with
        | Some m => 0 < Z.land typ (e_mask e) /\ report_is m e b typ now
        | None => Z.land typ (e_mask e) <= 0
        end /\
        view r.2 (if waits typ (e_mask e) then l else remove_first (matches a b (dst_of t use_dst)) l)
    end).
Proof.
  intros Hv Hd. unfold dlr_find. destruct smsc_len as (n & -> & Hn). bind_red. destruct (Z.eqb_spec n 0); [done|].
  eapply returns_seq; [by apply (min_dst_ok dst t use_dst)|]. intros dm Hdm. cbn beta in Hdm.
  eapply returns_seq; [by apply (law_get st l smsc a ts b dm)|]. intros r Hr. cbn beta in Hr.
  inversion Hr as [d e He Er Ee|Er Ee]; [|done]. pose proof (ei_mask _ _ He) as Em. rewrite Em. apply returns_bind.
  apply (returns_mono _ (fun m => match m with
    | Some m => 0 < Z.land typ (e_mask e) /\ report_is m e b typ now
    | None => Z.land typ (e_mask e) <= 0
    end)).
  { destruct (Z.ltb_spec 0 (Z.land typ (e_mask e))); [|done].
    eapply returns_seq; [by apply (report_msg_ok id1 id2 d e ts b typ now)|]. intros m Hm. done. }
  intros m Hm. fold (waits typ (e_mask e)). apply returns_bind.
  apply (returns_mono _ (fun st' => view st' (if waits typ (e_mask e) then l else
    remove_first (matches a b (dst_of t use_dst)) l))); [|done].
  destruct (waits typ (e_mask e)).
  - destruct (st_update h) as [f|] eqn:Ef; [|done]. by apply (law_update f Ef st l smsc a ts b dm (dst_of t use_dst)).
  - by apply (law_remove st l smsc a ts b dm).
Qed.

(** The message, or the one that it is a part of, with the time stamp as foreign id. *)
Definition identified (m m' : sms) : Prop := exists id, m' = set_foreign_id m (Some id) /\ repr id b.

Lemma dlr_add_ok st l msg orig use_dst : view st l -> sms_ok msg -> - 2 ^ 31 <= sms_dlr_mask msg < 2 ^ 31 ->
  returns (dlr_add (Some h) st (Some smsc) (Some ts) msg orig use_dst) (fun '(st', msg', orig') =>
    identified msg msg' /\ option_Forall2 identified orig orig' /\
    view st' (if DLR_IS_ENABLED (sms_dlr_mask msg) then l ++ [entry_of a b msg] else l)).
Proof.
  intros Hv Hok Hm. unfold dlr_add. eapply returns_seq; [by apply (is_text_dup (Some ts) b); exists ts|].
  intros id (x & -> & Hx). cbn zeta. apply returns_bind. apply (returns_mono _ (option_Forall2 identified orig)).
  { destruct orig as [m|]; [|constructor]. eapply returns_seq; [by apply (is_text_dup (Some ts) b); exists ts|].
    intros id (y & -> & Hy). constructor. by exists y. }
  intros orig' Ho'. destruct smsc_len as (n & -> & Hn). bind_red. destruct (Z.eqb_spec n 0); [done|].
  cbn [set_foreign_id sms_dlr_mask sms_sender sms_receiver sms_service sms_dlr_url sms_boxc_id].
  destruct (DLR_IS_ENABLED (sms_dlr_mask msg)); cbn [negb]; [|cbn; split; [by exists x|done]].
  repeat (apply Forall_cons_iff in Hok as [? Hok]).
  do 2 (eapply returns_seq; [by apply copy_given_ok|]; intros ? ?; cbn beta in * ).
  do 5 (eapply returns_seq; [by apply copy_or_empty_ok|]; intros ? ?; cbn beta in * ).
  rewrite int32_small by done.
  eapply returns_seq; [apply (law_add st l _ (entry_of a b msg) Hv); by constructor|]. intros st' Hv'.
  cbn. split; [by exists x|done].
Qed.
End any_storage.

Lemma dup_field_ok o : opt_ok o -> returns (octstr_duplicate o) (fun r => field_is r (text_of o)).
Proof.
  destruct o as [x|]; [|done]. intros Hx. eapply returns_mono; [by apply octstr_duplicate_ok|].
  intros r (y & -> & Hy). apply Hy.
Qed.

Lemma dup_meta_ok o : opt_ok o ->
  returns (octstr_duplicate o) (fun r => match r with Some y => exists s, reprm y s /\ text_of o = s | None => text_of o = [] end).
Proof.
  destruct o as [x|]; [|done]. intros Hx. eapply returns_mono; [by apply octstr_duplicate_ok|].
  intros r (y & -> & Hy). by exists (bytes x).
Qed.

(** A report made from the message itself has its fields and, where reports were asked
    for, the mask in its meta data. *)
Lemma create_dlr_from_msg_ok `{!Printf} id1 id2 now smsc msg reply stat :
  Forall opt_ok [smsc; reply; sms_smsc_id msg; sms_foreign_id msg; sms_meta_data msg] -> sms_ok msg ->
  LONG_MIN <= sms_dlr_mask msg <= LONG_MAX ->
  returns (create_dlr_from_msg id1 id2 now smsc msg reply stat) (fun m =>
    m_type m = T_SMS /\ sms_sms_type (m_sms m) = report_mo /\ sms_dlr_mask (m_sms m) = stat /\ sms_time (m_sms m) = now /\
    field_is (sms_smsc_id (m_sms m)) (text_of (match smsc with Some _ => smsc | None => sms_smsc_id msg end)) /\
    field_is (sms_sender (m_sms m)) (text_of (sms_sender msg)) /\
    field_is (sms_receiver (m_sms m)) (text_of (sms_receiver msg)) /\
    field_is (sms_service (m_sms m)) (text_of (sms_service msg)) /\
    field_is (sms_dlr_url (m_sms m)) (text_of (sms_dlr_url msg)) /\
    field_is (sms_boxc_id (m_sms m)) (text_of (sms_boxc_id msg)) /\
    field_is (sms_foreign_id (m_sms m)) (text_of (sms_foreign_id msg)) /\
    field_is (sms_msgdata (m_sms m)) (text_of reply) /\
    if DLR_IS_ENABLED (sms_dlr_mask msg)
    then exists md, sms_meta_data (m_sms m) = Some md /\ tells_mask md (sms_dlr_mask msg)
    else field_is (sms_meta_data (m_sms m)) (text_of (sms_meta_data msg))).
Proof.
  intros H1 H2 Hm. repeat (apply Forall_cons_iff in H1 as [? H1]). repeat (apply Forall_cons_iff in H2 as [? H2]).
  unfold create_dlr_from_msg. cbn zeta.
  eapply returns_seq; [by apply dup_field_ok|]; intros service ?; cbn beta in *.
  eapply returns_seq; [apply (dup_field_ok (match smsc with Some _ => smsc | None => sms_smsc_id msg end)); by destruct smsc|].
  intros smsc_id ?; cbn beta in *.
  do 6 (eapply returns_seq; [by apply dup_field_ok|]; intros ? ?; cbn beta in * ).
  eapply returns_seq; [by apply dup_meta_ok|]. intros md0 Hmd0. cbn beta in Hmd0.
  destruct (DLR_IS_ENABLED (sms_dlr_mask msg)).
  - apply returns_bind. apply (returns_seq _ _ (fun md => exists s, reprm md s)).
    { destruct md0 as [md0|]; [by destruct Hmd0 as (s & Hs & _); exists s|].
      eapply returns_mono; [apply (octstr_create_ok [] (Forall_nil_2 _))|]. intros md Hmd. by exists []. }
    intros md (s & Hs). eapply returns_seq; [by apply (set_orig_mask_ok md s)|]. intros md' [_ Hmd'].
    cbn. split_and!; try done. by exists md'.
  - bind_red. cbn. split_and!; try done. destruct md0 as [md0|]; [|done]. destruct Hmd0 as (s & Hs & ->). apply Hs.
Qed.

(** ** Properties *)

(** C32. What a report does, on every storage that keeps the laws: [dlr_find] finds the
    first entry of that centre and time stamp (whose destination ends with the last
    seven digits given, where that is asked for); it returns a message exactly where
    the report is of a type that was asked for, with the fields of the entry, for the
    box that sent the original and with the mask that it asked for; and it removes the
    entry unless a final report is still to come. *)
Theorem dlr_find_reports `{!Printf} {S : Type} (h : dlr_storage S) (view : S -> list wait_entry -> Prop)
    (Hlaws : DlrStorageLaws h view) (st : S) (l : list wait_entry) (smsc ts : Octstr) (a b : list Z)
    (dst : option Octstr) (t : option (list Z)) (id1 id2 : list Z) (now typ : Z) (use_dst : bool) :
  view st l -> repr smsc a -> a <> [] -> repr ts b -> option_Forall2 repr dst t ->
  returns (dlr_find (Some h) st id1 id2 now (Some smsc) (Some ts) dst typ use_dst) (fun r =>
    match List.find (matches a b (dst_of t use_dst)) l with
    | None => r.1 = None /\ view r.2 l
    | Some e =>
        match r.1 with
        | Some m => 0 < Z.land typ (e_mask e) /\ report_is m e b typ now
        | None => Z.land typ (e_mask e) <= 0
        end /\
        view r.2 (if waits typ (e_mask e) then l else remove_first (matches a b (dst_of t use_dst)) l)
    end).
Proof. intros Hv Ha Hne Hb Hd. by apply dlr_find_ok. Qed.

(** Reports on one message, one after the other. *)
Record dlr_report := mkDlrReport { rp_id1 : list Z; rp_id2 : list Z; rp_now : Z; rp_type : Z }.

Section reports.
Context `{!Printf} {S : Type} (h : dlr_storage S) (view : S -> list wait_entry -> Prop) (Hlaws : DlrStorageLaws h view).
Context (smsc ts : Octstr) (a b : list Z) (dst : option Octstr) (t : option (list Z)) (use_dst : bool).
Context (Ha : repr smsc a) (Hne : a <> []) (Hb : repr ts b) (Hd : option_Forall2 repr dst t).

Fixpoint find_all (st : S) (rs : list dlr_report) : res (list (option Msg) * S) :=
  match rs with
  | [] => Ok ([], st)
  | r :: rs =>
      '(m, st) ← dlr_find (Some h) st (rp_id1 r) (rp_id2 r) (rp_now r) (Some smsc) (Some ts) dst (rp_type r) use_dst;
      '(ms, st) ← find_all st rs;
      Ok (m :: ms, st)
  end.

(** A report becomes a message if and only if it was asked for. *)
Definition reported (e : wait_entry) (r : dlr_report) (m : option Msg) : Prop :=
  match m with
  | Some m => 0 < Z.land (rp_type r) (e_mask e) /\ report_is m e b (rp_type r) (rp_now r)
  | None => Z.land (rp_type r) (e_mask e) <= 0
  end.

Lemma find_all_app rs rs' : forall st, find_all st (rs ++ rs') =
  ('(ms, st) ← find_all st rs; '(ms', st) ← find_all st rs'; Ok (ms ++ ms', st)).
Proof.
  induction rs as [|r rs IH]; intros st; cbn [app find_all].
  - bind_red. by destruct (find_all st rs') as [[ms' st']| |].
  - destruct (dlr_find _ _ _ _ _ _ _ _ _ _) as [[m st1]| |]; [|done..]. bind_red. rewrite IH.
    destruct (find_all st1 rs) as [[ms st2]| |]; [|done..]. bind_red. by destruct (find_all st2 rs') as [[ms' st3]| |].
Qed.

Lemma find_no_more rs st l : view st l -> Forall (fun e => matches a b (dst_of t use_dst) e = false) l ->
  exists ms st', find_all st rs = Ok (ms, st') /\ Forall (fun m => m = None) ms /\ length ms = length rs /\ view st' l.
Proof.
  intros Hv Hl. revert st Hv. induction rs as [|r rs IH]; intros st Hv; [by exists [], st|]. cbn [find_all].
  pose proof (dlr_find_ok h view smsc ts a b Ha Hne Hb st l (rp_id1 r) (rp_id2 r) (rp_now r) dst t (rp_type r) use_dst Hv Hd) as Hf.
  replace (List.find (matches a b (dst_of t use_dst)) l) with (@None wait_entry) in Hf by (clear -Hl; induction Hl as [|e l He _ IH]; [done|]; cbn; by rewrite He).
  apply returns_iff in Hf as ([m st1] & -> & E & Hv1). cbn [fst snd] in E, Hv1. subst m. bind_red.
  destruct (IH st1 Hv1) as (ms & st2 & -> & H1 & H2 & H3). bind_red. exists (None :: ms), st2. split; [done|].
  split; [by apply Forall_cons_2|]. split; [cbn; by rewrite H2|done].
Qed.

Section entry.
Context (l : list wait_entry) (e : wait_entry).
Context (Hno : Forall (fun e => matches a b (dst_of t use_dst) e = false) l) (Hyes : matches a b (dst_of t use_dst) e = true).

Lemma find_one r st : view st (l ++ [e]) ->
  exists m st', dlr_find (Some h) st (rp_id1 r) (rp_id2 r) (rp_now r) (Some smsc) (Some ts) dst (rp_type r) use_dst = Ok (m, st') /\
    reported e r m /\ view st' (if waits (rp_type r) (e_mask e) then l ++ [e] else l).
Proof.
  intros Hv. destruct (remove_first_snoc _ l _ Hno Hyes) as [Ef Er].
  pose proof (dlr_find_ok h view smsc ts a b Ha Hne Hb st (l ++ [e]) (rp_id1 r) (rp_id2 r) (rp_now r) dst t (rp_type r) use_dst Hv Hd) as Hf.
  rewrite Ef, Er in Hf. apply returns_iff in Hf as ([m st1] & E & Hr & Hv1). by exists m, st1.
Qed.

Lemma find_waiting rs : forall st, view st (l ++ [e]) -> Forall (fun r => waits (rp_type r) (e_mask e) = true) rs ->
  exists ms st', find_all st rs = Ok (ms, st') /\ Forall2 (reported e) rs ms /\ view st' (l ++ [e]).
Proof.
  induction rs as [|r rs IH]; intros st Hv Hw; [exists [], st; split; [done|by split; [apply Forall2_nil|]]|].
  apply Forall_cons_iff in Hw as [Hr Hw]. cbn [find_all]. destruct (find_one r st Hv) as (m & st1 & -> & Hm & Hv1). rewrite Hr in Hv1. bind_red.
  destruct (IH st1 Hv1 Hw) as (ms & st2 & -> & H1 & H2). bind_red. exists (m :: ms), st2. split; [done|]. split; [by apply Forall2_cons|done].
Qed.
End entry.
End reports.

(** C33. The reports on a message that asks for reports, where no other message that
    waits has the centre and the time stamp of this one (and a receiver that ends like
    the one of the report, if that is compared): the message leaves an entry ([dlr_add]),
    and the message, and the one that it is a part of, if it is a part, get the time
    stamp as foreign id.  Then every report ([dlr_find]), up to and including the first that
    is final (or for which no final one is asked for), becomes a message with the fields of
    the sent one exactly where it was asked for; every report after that gives nothing,
    and the storage holds what it held before the message was sent. *)
Theorem dlr_report_once `{!Printf} {S : Type} (h : dlr_storage S) (view : S -> list wait_entry -> Prop)
    (Hlaws : DlrStorageLaws h view) (st : S) (l : list wait_entry) (smsc ts : Octstr) (a b : list Z) (msg : sms) (orig : option sms)
    (dst : option Octstr) (t : option (list Z)) (ud : Z) (use_dst : bool) (early : list dlr_report) (final : dlr_report) (late : list dlr_report) :
  view st l -> repr smsc a -> a <> [] -> repr ts b -> option_Forall2 repr dst t ->
  sms_ok msg -> - 2 ^ 31 <= sms_dlr_mask msg < 2 ^ 31 -> DLR_IS_ENABLED (sms_dlr_mask msg) = true ->
  Forall (fun e => matches a b (dst_of t use_dst) e = false) l ->
  matches a b (dst_of t use_dst) (entry_of a b msg) = true ->
  Forall (fun r => waits (rp_type r) (sms_dlr_mask msg) = true) early -> waits (rp_type final) (sms_dlr_mask msg) = false ->
  exists st1 msg' orig' ms m more st2,
    dlr_add (Some h) st (Some smsc) (Some ts) msg orig ud = Ok (st1, msg', orig') /\
    identified b msg msg' /\ option_Forall2 (identified b) orig orig' /\
    find_all h smsc ts dst use_dst st1 (early ++ final :: late) = Ok (ms ++ m :: more, st2) /\
    Forall2 (reported b (entry_of a b msg)) (early ++ [final]) (ms ++ [m]) /\
    Forall (fun m => m = None) more /\ length more = length late /\ view st2 l.
Proof.
  intros Hv Ha Hne Hb Hd Hok Hm Hen Hno Hyes Hearly Hfinal.
  pose proof (dlr_add_ok h view smsc ts a b Ha Hne Hb st l msg orig ud Hv Hok Hm) as Hadd. rewrite Hen in Hadd.
  apply returns_iff in Hadd as ([[st1 msg'] orig'] & E1 & Hid & Horig & Hv1).
  destruct (find_waiting h view Hlaws smsc ts a b dst t use_dst Ha Hne Hb Hd l (entry_of a b msg) Hno Hyes early st1 Hv1 Hearly) as (ms & st2 & E2 & H2 & Hv2).
  destruct (find_one h view Hlaws smsc ts a b dst t use_dst Ha Hne Hb Hd l (entry_of a b msg) Hno Hyes final st2 Hv2) as (m & st3 & E3 & H3 & Hv3).
  cbn [e_mask entry_of] in Hv3. rewrite Hfinal in Hv3.
  destruct (find_no_more h view Hlaws smsc ts a b dst t use_dst Ha Hne Hb Hd late st3 l Hv3 Hno) as (more & st4 & E4 & H4 & H5 & Hv4).
  exists st1, msg', orig', ms, m, more, st4. split_and!; try done.
  - rewrite find_all_app, E2. bind_red. cbn [find_all]. rewrite E3. bind_red. by rewrite E4.
  - apply Forall2_app; [done|]. apply Forall2_cons; [done|apply Forall2_nil].
Qed.

#[local] Instance dlr_no_doubles : Printf := {
  double := Empty_set;
  sprintf_double := fun _ _ _ => [];
  sprintf_p := fun _ => []
}.

Definition sample_dlr : dlr_entry :=
  let o := Some (octstr_imm [65]) in mkEntry o o o o o o o 3 0.

Lemma sample_dlr_is : entry_is sample_dlr (mkE [65] [65] [65] [65] [65] [65] [65] 3).
Proof.
  assert (is_text (Some (octstr_imm [65])) [65]) as Ho by (eexists; split; [done|]; apply octstr_imm_ok; octets_tac).
  constructor; [exact Ho..|done|cbn; lia].
Qed.

Lemma mem_empty : mem_view gwlist_create [].
Proof. exists []. split; [apply gwlist_create_ok|by apply Forall2_nil]. Qed.

(** One entry in memory, and a report of success on it. *)
Lemma dlr_find_reports_witness :
  exists st m st', dlr_mem_add gwlist_create sample_dlr = Ok st /\
    dlr_find (Some dlr_mem) st [] [] 0 (Some (octstr_imm [65])) (Some (octstr_imm [65])) (Some (octstr_imm [65])) 1 true
      = Ok (Some m, st') /\ mem_view st' [].
Proof.
  pose proof (law_add (h := dlr_mem) gwlist_create [] _ _ mem_empty sample_dlr_is) as H.
  apply returns_iff in H as (st & E & Hv). exists st.
  assert (repr (octstr_imm [65]) [65]) as Ho by (apply octstr_imm_ok; octets_tac).
  pose proof (dlr_find_reports dlr_mem mem_view dlr_mem_laws st _ (octstr_imm [65]) (octstr_imm [65]) [65] [65]
    (Some (octstr_imm [65])) (Some [65]) [] [] 0 1 true Hv Ho ltac:(done) Ho (Some_Forall2 _ _ _ Ho)) as Hf.
  apply returns_iff in Hf as ([m st'] & E' & Hf). vm_compute in Hf. destruct Hf as [Hm Hv'].
  destruct m as [m|]; [|by destruct Hm]. by exists m, st'.
Defined.

Definition sample_request : sms := set_dlr_mask (set_receiver (m_sms (msg_create [] [] T_SMS)) (Some (octstr_imm [49; 50]))) 3.

Lemma dlr_report_once_witness :
  exists st1 msg' orig' ms m more st2,
    dlr_add (Some dlr_mem) gwlist_create (Some (octstr_imm [65])) (Some (octstr_imm [66])) sample_request None 1 = Ok (st1, msg', orig') /\
    identified [66] sample_request msg' /\ option_Forall2 (identified [66]) None orig' /\
    find_all dlr_mem (octstr_imm [65]) (octstr_imm [66]) (Some (octstr_imm [50])) true st1
      ([mkDlrReport [] [] 0 4] ++ mkDlrReport [] [] 1 2 :: [mkDlrReport [] [] 2 2]) = Ok (ms ++ m :: more, st2) /\
    Forall2 (reported [66] (entry_of [65] [66] sample_request)) ([mkDlrReport [] [] 0 4] ++ [mkDlrReport [] [] 1 2]) (ms ++ [m]) /\
    Forall (fun m => m = None) more /\ length more = 1%nat /\ mem_view st2 [].
Proof.
  apply (dlr_report_once dlr_mem mem_view dlr_mem_laws gwlist_create [] (octstr_imm [65]) (octstr_imm [66]) [65] [66]
    sample_request None (Some (octstr_imm [50])) (Some [50]) 1 true [mkDlrReport [] [] 0 4] (mkDlrReport [] [] 1 2) [mkDlrReport [] [] 2 2]).
  - apply mem_empty.
  - apply octstr_imm_ok. octets_tac.
  - done.
  - apply octstr_imm_ok. octets_tac.
  - constructor. apply octstr_imm_ok. octets_tac.
  - assert (opt_ok (Some (octstr_imm [49; 50]))) as Ho by (apply (octstr_imm_ok [49; 50]); octets_tac).
    repeat (apply Forall_cons_2; [exact I || exact Ho|]); apply Forall_nil_2.
  - vm_compute. split; discriminate || reflexivity.
  - vm_compute. reflexivity.
  - apply Forall_nil_2.
  - vm_compute. reflexivity.
  - apply Forall_cons_2; [vm_compute; reflexivity|apply Forall_nil_2].
  - vm_compute. reflexivity.
Defined.
