(* ===== verification/Settle.v ===== *)
(** * What becomes of a message that was handed to a centre

    Models the callbacks of src/gw/bb_smscconn.c that the drivers of the centres call
    when a message was sent or failed: [bb_smscconn_sent], [bb_smscconn_send_failed]
    and [handle_split], which counts the parts of a split message.  The structures of
    split messages live in a heap of addresses, and a message points to its own.  Of a
    connection the callbacks read its status and its names ([link]).  What they do to
    others is a list of effects in order: the acknowledgements to the store, the lines
    of the access log, the counters (the loads that go with them are left out) and the
    reports given to [bb_smscconn_receive]. *)

From Stdlib Require Import String.
From stdpp Require Import gmap.
From S2P Require Import Prelude Octstr OctstrSearch OctstrCode OctstrFormat OctstrParts Prefix GwList PrioQueue Uuid Msg Charset Sms Numhash Route MetaData Dlr.
#[local] Open Scope Z_scope.
#[local] Open Scope kannel_scope.

Definition report_mt : Z := 4.

Definition DLR_IS_FAIL (dlr : Z) : bool :=
  DLR_IS_DEFINED dlr && negb (Z.land dlr (Z.lor (Z.lor DLR_FAIL DLR_EXPIRED) DLR_UNKNOWN) =? 0).
Definition DLR_IS_SMSC_SUCCESS (dlr : Z) : bool := DLR_IS_DEFINED dlr && negb (Z.land dlr DLR_SMSC_SUCCESS =? 0).
Definition DLR_IS_SMSC_FAIL (dlr : Z) : bool := DLR_IS_DEFINED dlr && negb (Z.land dlr DLR_SMSC_FAIL =? 0).

(** [conn->status], [conn->id] and [conn->name]. *)
Record link := mkLink {
  l_status : smscconn_status;
  l_id : option Octstr;
  l_name : option Octstr
}.

Inductive counter := outgoing_sms_counter | outgoing_dlr_counter | conn_sent | conn_sent_dlr | conn_failed.

(** [ack_status_t] of src/gw/msg.h. *)
Inductive ack_status := ack_success | ack_failed.

Inductive effect :=
| Ack (m : Msg) (status : ack_status)
| Alog (text : string) (m : Msg)
| Count (c : counter)
| Receive (m : Msg).

Record bb := mkBb {
  splits : gmap Z split_parts;
  outgoing : List Msg
}.

Definition set_resend (p : sms) (try time : Z) : sms :=
  mkSms (sms_sender p) (sms_receiver p) (sms_udhdata p) (sms_msgdata p) (sms_time p)
    (sms_smsc_id p) (sms_smsc_number p) (sms_foreign_id p) (sms_service p) (sms_account p)
    (sms_id p) (sms_sms_type p) (sms_mclass p) (sms_mwi p) (sms_coding p) (sms_compress p)
    (sms_validity p) (sms_deferred p) (sms_dlr_mask p) (sms_dlr_url p) (sms_pid p)
    (sms_alt_dcs p) (sms_rpi p) (sms_charset p) (sms_boxc_id p) (sms_binfo p) (sms_msg_left p) (sms_split_parts p)
    (sms_priority p) try time (sms_meta_data p).

Section settle.
Context `{!Printf}.
Context (sms_resend_retry now : Z) (id1 id2 : list Z).

(** The report that goes back, with [text] before the reply. *)
Definition relay (smsc : option Octstr) (msg : Msg) (reply : option Octstr) (text : list Z) (stat : Z) : res (list effect) :=
  reply ← match reply with Some r => Ok r | None => octstr_create [] end;
  reply ← octstr_insert_data reply 0 text (zlen text);
  dlrmsg ← create_dlr_from_msg id1 id2 now smsc (m_sms msg) (Some reply) stat;
  Ok [Receive dlrmsg].

Definition link_name (conn : link) : option Octstr := match l_id conn with Some id => Some id | None => l_name conn end.

Definition is_sms (msg : Msg) : bool := negb (sms_sms_type (m_sms msg) =? report_mt).

(** [bb_smscconn_sent] of a message that is no part.  The report reads [conn]. *)
Definition sent_whole (conn : option link) (msg : Msg) (reply : option Octstr) : res (list effect) :=
  let counted :=
    if is_sms msg then
      [Alog "Sent SMS" msg; Count outgoing_sms_counter] ++ (match conn with Some _ => [Count conn_sent] | None => [] end)
    else [Alog "Sent DLR" msg; Count outgoing_dlr_counter] ++ (match conn with Some _ => [Count conn_sent_dlr] | None => [] end) in
  dlr ← (if DLR_IS_SMSC_SUCCESS (sms_dlr_mask (m_sms msg)) then
           match conn with
           | Some conn => relay (link_name conn) msg reply [65; 67; 75; 47] DLR_SMSC_SUCCESS
           | None => Undef
           end
         else Ok []);
  Ok (Ack msg ack_success :: counted ++ dlr).

Definition failed_text (reason : Z) (is_sms : bool) : string :=
  if reason =? SMSCCONN_FAILED_DISCARDED then if is_sms then "DISCARDED SMS" else "DISCARDED DLR"
  else if reason =? SMSCCONN_FAILED_EXPIRED then if is_sms then "EXPIRED SMS" else "EXPIRED DLR"
  else if reason =? SMSCCONN_FAILED_REJECTED then if is_sms then "REJECTED Send SMS" else "REJECTED Send DLR"
  else if is_sms then "FAILED Send SMS" else "FAILED Send DLR".

(** The [default] case of [bb_smscconn_send_failed]. *)
Definition give_up_on (conn : option link) (msg : Msg) (reason : Z) (reply : option Octstr) : res (list effect) :=
  let mask := sms_dlr_mask (m_sms msg) in
  dlr ← (if DLR_IS_SMSC_FAIL mask || DLR_IS_FAIL mask then
           relay (match conn with Some conn => link_name conn | None => None end) msg reply [78; 65; 67; 75; 47] DLR_SMSC_FAIL
         else Ok []);
  Ok ([Ack msg ack_failed] ++ (match conn with Some _ => [Count conn_failed] | None => [] end) ++
      [Alog (failed_text reason (is_sms msg)) msg] ++ dlr).

(** Retries Exceeded *)
Definition retries_exceeded : list Z := [82; 101; 116; 114; 105; 101; 115; 32; 69; 120; 99; 101; 101; 100; 101; 100].

(** Whether the limit of retries is reached. *)
Definition exceeded (msg : Msg) : bool := (0 <=? sms_resend_retry) && (sms_resend_retry <=? sms_resend_try (m_sms msg)).

Definition try_again (msg : Msg) : Msg :=
  let try := sms_resend_try (m_sms msg) in
  with_sms msg (set_resend (m_sms msg) (if 0 <? try then try + 1 else 1) now).

Definition link_active (conn : link) : bool := bool_decide (l_status conn = SMSCCONN_ACTIVE).

Definition requeue (b : bb) (msg : Msg) : res (bb * list effect) :=
  q ← gwlist_produce (outgoing b) msg;
  Ok (mkBb (splits b) q, []).

(** [bb_smscconn_send_failed] of a message that is no part. *)
Definition failed_whole (b : bb) (conn : option link) (msg : Msg) (reason : Z) (reply : option Octstr) : res (bb * list effect) :=
  if reason =? SMSCCONN_FAILED_TEMPORARILY then
    match conn with
    | Some c =>
        if link_active c then
          if exceeded msg then
            es ← (r ← octstr_create retries_exceeded; give_up_on None msg SMSCCONN_FAILED_DISCARDED (Some r));
            Ok (b, es)
          else requeue b (try_again msg)
        else requeue b msg
    | None => requeue b msg
    end
  else if reason =? SMSCCONN_FAILED_SHUTDOWN then requeue b msg
  else
    es ← give_up_on conn msg reason reply;
    Ok (b, es).

(** The status of a split message after a part: some reasons replace it, the others
    only a success. *)
Definition split_status (status reason : Z) : Z :=
  if (reason =? SMSCCONN_FAILED_DISCARDED) || (reason =? SMSCCONN_FAILED_REJECTED) || (reason =? SMSCCONN_FAILED_MALFORMED) then reason
  else if reason =? SMSCCONN_SUCCESS then status
  else if status =? SMSCCONN_SUCCESS then reason
  else status.

(** [handle_split] after its [switch]; [counter_decrease] gives the old value and stays
    at 0. *)
Definition part_done (b : bb) (conn : option link) (msg : Msg) (reason : Z) (reply : option Octstr) : res (bb * list effect) :=
  let p := sms_split_parts (m_sms msg) in
  match splits b !! p with
  | None => Undef
  | Some split =>
      let status := split_status (sp_status split) reason in
      let left := parts_left split in
      if left <=? 1 then
        let orig := with_sms (sp_orig split) (set_split_parts (m_sms (sp_orig split)) 0) in
        let b := mkBb (delete p (splits b)) (outgoing b) in
        if status =? SMSCCONN_SUCCESS then
          es ← sent_whole conn orig reply;
          Ok (b, es)
        else failed_whole b conn orig status reply
      else Ok (mkBb (<[p := mkSplit (sp_orig split) (left - 1) status (sp_smsc_conn split)]> (splits b)) (outgoing b), [])
  end.

(** [handle_split]; [smscconn_status] asserts that there is a connection. *)
Definition handle_split (b : bb) (conn : option link) (msg : Msg) (reason : Z) (reply : option Octstr) : res (bb * list effect) :=
  if reason =? SMSCCONN_FAILED_TEMPORARILY then
    match conn with
    | None => Panic
    | Some c =>
        if link_active c then
          if exceeded msg then
            r ← octstr_create retries_exceeded;
            part_done b None msg SMSCCONN_FAILED_DISCARDED (Some r)
          else requeue b (try_again msg)
        else requeue b msg
    end
  else part_done b conn msg reason reply.

Definition is_split_part (msg : Msg) : bool := negb (sms_split_parts (m_sms msg) =? 0).

Definition bb_smscconn_sent (b : bb) (conn : option link) (msg : Msg) (reply : option Octstr) : res (bb * list effect) :=
  if is_split_part msg then handle_split b conn msg SMSCCONN_SUCCESS reply
  else es ← sent_whole conn msg reply; Ok (b, es).

Definition bb_smscconn_send_failed (b : bb) (conn : option link) (msg : Msg) (reason : Z) (reply : option Octstr)
  : res (bb * list effect) :=
  if is_split_part msg then handle_split b conn msg reason reply
  else failed_whole b conn msg reason reply.
End settle.
