(* ===== verification/SettleProofs.v ===== *)
(** * What becomes of a message: what is proved

    A split message is settled exactly once, when the last of its parts is (Settle.v). *)

From stdpp Require Import gmap sets.
From S2P Require Import Prelude Octstr OctstrSearch OctstrCode OctstrFormat OctstrParts Prefix GwList PrioQueue Uuid Msg Charset Sms Numhash Route MetaData Dlr DlrProofs Settle.
#[local] Open Scope Z_scope.
#[local] Open Scope kannel_scope.

(** What a driver reports on a message. *)
Record report := mkReport {
  r_conn : link;
  r_msg : Msg;
  r_reason : Z;
  r_reply : option Octstr;
  r_now : Z
}.

Section runs.
Context {PF : Printf} (retry : Z) (id1 id2 : list Z).

Definition handle_report (b : bb) (r : report) : res (bb * list effect) :=
  if r_reason r =? SMSCCONN_SUCCESS then bb_smscconn_sent retry (r_now r) id1 id2 b (Some (r_conn r)) (r_msg r) (r_reply r)
  else bb_smscconn_send_failed retry (r_now r) id1 id2 b (Some (r_conn r)) (r_msg r) (r_reason r) (r_reply r).

Fixpoint handle_reports (b : bb) (rs : list report) : res (bb * list effect) :=
  match rs with
  | [] => Ok (b, [])
  | r :: rs =>
      '(b, es) ← handle_report b r;
      '(b, es') ← handle_reports b rs;
      Ok (b, es ++ es')
  end.

(** The part is not tried again. *)
Definition settles (r : report) : bool :=
  negb (r_reason r =? SMSCCONN_FAILED_TEMPORARILY) || (link_active (r_conn r) && exceeded retry (r_msg r)).

(** Why it is settled. *)
Definition settled_by (r : report) : Z :=
  if r_reason r =? SMSCCONN_FAILED_TEMPORARILY then SMSCCONN_FAILED_DISCARDED else r_reason r.

(** What goes back to the queue. *)
Definition queued_again (r : report) : Msg := if link_active (r_conn r) then try_again (r_now r) (r_msg r) else r_msg r.

Definition final_status (s : Z) (rs : list report) : Z := foldl split_status s (settled_by <$> filter (fun r => settles r = true) rs).

Definition of_split (p : Z) (r : report) : Prop := sms_split_parts (m_sms (r_msg r)) = p.

Lemma handle_part b p r : p <> 0 -> of_split p r ->
  handle_report b r = handle_split retry (r_now r) id1 id2 b (Some (r_conn r)) (r_msg r) (r_reason r) (r_reply r).
Proof.
  intros Hp Hr. unfold handle_report, bb_smscconn_sent, bb_smscconn_send_failed, is_split_part. unfold of_split in Hr. rewrite !Hr.
  destruct (Z.eqb_spec p 0); [done|]. cbn [negb]. destruct (Z.eqb_spec (r_reason r) SMSCCONN_SUCCESS) as [E|]; [by rewrite E|done].
Qed.

(** A report that does not settle the part puts it into the queue. *)
Lemma report_requeues b p r ms : p <> 0 -> of_split p r -> settles r = false -> lrepr (outgoing b) ms ->
  exists q, handle_report b r = Ok (mkBb (splits b) q, []) /\ lrepr q (ms ++ [queued_again r]).
Proof.
  intros Hp Hr Hs Hq. rewrite (handle_part b p r Hp Hr). unfold handle_split. unfold settles in Hs. apply orb_false_iff in Hs as [H1 H2].
  destruct (r_reason r =? SMSCCONN_FAILED_TEMPORARILY); [|done]. cbn [negb] in *.
  assert (forall m, exists q, requeue b m = Ok (mkBb (splits b) q, []) /\ lrepr q (ms ++ [m])) as Hrq.
  { intros m. unfold requeue, gwlist_produce. pose proof (gwlist_append_ok (outgoing b) ms m Hq) as L. apply returns_iff in L as (q & -> & L & _).
    bind_red. by exists q. }
  unfold queued_again. destruct (link_active (r_conn r)); [|apply Hrq]. cbn [andb] in H2. rewrite H2. apply Hrq.
Qed.

(** Another one counts. *)
Lemma report_settles b p r : p <> 0 -> of_split p r -> settles r = true ->
  exists conn reply, handle_report b r = part_done retry (r_now r) id1 id2 b conn (r_msg r) (settled_by r) reply /\
    ((conn, reply) = (Some (r_conn r), r_reply r) \/
     settled_by r = SMSCCONN_FAILED_DISCARDED /\ conn = None /\ exists o, reply = Some o /\ reprm o retries_exceeded).
Proof.
  intros Hp Hr Hs. rewrite (handle_part b p r Hp Hr). unfold handle_split, settled_by. unfold settles in Hs.
  destruct (r_reason r =? SMSCCONN_FAILED_TEMPORARILY); [|by eexists _, _; split; [done|left]]. cbn [negb orb] in Hs.
  apply andb_true_iff in Hs as [-> ->].
  pose proof (octstr_create_ok retries_exceeded ltac:(unfold retries_exceeded; octets_tac)) as L. apply returns_iff in L as (o & -> & Ho). bind_red.
  eexists None, (Some o). split; [done|]. right. split; [done|]. split; [done|]. by exists o.
Qed.

Definition open_split (b : bb) (p : Z) (orig : Msg) (n s c : Z) : Prop := splits b !! p = Some (mkSplit orig n s c).

(** As long as parts are left, nothing is done but to count and to queue. *)
Lemma reports_pending p orig c : p <> 0 -> forall rs b n s ms, open_split b p orig n s c -> lrepr (outgoing b) ms ->
  Forall (of_split p) rs -> zlen (filter (fun r => settles r = true) rs) < n ->
  exists q, handle_reports b rs = Ok (mkBb (<[p := mkSplit orig (n - zlen (filter (fun r => settles r = true) rs)) (final_status s rs) c]> (splits b)) q, []) /\
    lrepr q (ms ++ (queued_again <$> filter (fun r => settles r = false) rs)).
Proof.
  intros Hp. induction rs as [|r rs IH]; intros b n s ms Ho Hq Hrs Hn.
  { cbn. exists (outgoing b). rewrite app_nil_r. split; [|done]. change (zlen []) with 0. rewrite Z.sub_0_r. unfold final_status. cbn.
    rewrite insert_id by exact Ho. by destruct b. }
  apply Forall_cons_iff in Hrs as [Hr Hrs]. cbn [handle_reports]. rewrite filter_cons in Hn. unfold final_status in *. rewrite !filter_cons.
  destruct (settles r) eqn:Es.
  - rewrite decide_True in Hn |- * by done. rewrite decide_False by done.
    set (F := filter (fun r => settles r = true) rs) in *. assert (zlen (r :: F) = 1 + zlen F) as EF by list_lia.
    rewrite EF in Hn |- *. pose proof (zlen_nonneg F) as HF.
    destruct (report_settles b p r Hp Hr Es) as (conn & reply & -> & _). unfold part_done. cbn zeta. rewrite Hr, Ho.
    cbn [parts_left sp_status sp_orig sp_smsc_conn]. destruct (Z.leb_spec n 1); [lia|]. bind_red.
    destruct (IH (mkBb (<[p := mkSplit orig (n - 1) (split_status s (settled_by r)) c]> (splits b)) (outgoing b)) (n - 1)
      (split_status s (settled_by r)) ms) as (q & -> & Hq'); [apply lookup_insert_eq|done|done|lia|]. bind_red. exists q. split; [|done].
    cbn [splits fmap list_fmap foldl]. rewrite insert_insert_eq. by replace (n - 1 - zlen F) with (n - (1 + zlen F)) by lia.
  - rewrite decide_False in Hn |- * by done. rewrite decide_True by done.
    destruct (report_requeues b p r ms Hp Hr Es Hq) as (q & -> & Hq'). bind_red.
    destruct (IH (mkBb (splits b) q) n s _ Ho Hq' Hrs Hn) as (q' & -> & Hq''). bind_red. exists q'. split; [done|].
    cbn [fmap list_fmap]. by rewrite <- app_assoc in Hq''.
Qed.
End runs.

(** ** Settling a whole message *)

Definition acks (es : list effect) : list (Msg * ack_status) :=
  omap (fun e => match e with Ack m s => Some (m, s) | _ => None end) es.

Definition receives (es : list effect) : list Msg := omap (fun e => match e with Receive m => Some m | _ => None end) es.

(** The message can be reported on. *)
Definition reportable (p : sms) : Prop :=
  sms_ok p /\ Forall opt_ok [sms_smsc_id p; sms_foreign_id p; sms_meta_data p] /\ LONG_MIN <= sms_dlr_mask p <= LONG_MAX.

Definition link_ok (c : link) : Prop := opt_ok (l_id c) /\ opt_ok (l_name c).

(** A report on [msg] with the text [t]. *)
Definition relays (msg m : Msg) (stat : Z) (t : list Z) : Prop :=
  sms_sms_type (m_sms m) = report_mo /\ sms_dlr_mask (m_sms m) = stat /\ field_is (sms_msgdata (m_sms m)) t /\
  field_is (sms_sender (m_sms m)) (text_of (sms_sender (m_sms msg))) /\
  field_is (sms_receiver (m_sms m)) (text_of (sms_receiver (m_sms msg))) /\
  field_is (sms_dlr_url (m_sms m)) (text_of (sms_dlr_url (m_sms msg))).

(** Where a report was asked for, it is the only one. *)
Definition relayed (asked : bool) (msg : Msg) (stat : Z) (t : list Z) (es : list effect) : Prop :=
  if asked then exists m, receives es = [m] /\ relays msg m stat t else receives es = [].

Section whole.
Context {PF : Printf} (retry now : Z) (id1 id2 : list Z).

Lemma relay_ok smsc msg reply s t stat : opt_ok smsc -> reportable (m_sms msg) -> content reply s -> octets t ->
  returns (relay now id1 id2 smsc msg reply t stat) (fun es => exists m, es = [Receive m] /\ relays msg m stat (t ++ s)).
Proof.
  intros Hs (Hok & Hf & Hm) Hr Ht. unfold relay. apply (returns_seq _ _ (fun o => reprm o s)).
  { destruct reply as [o|]; [done|]. cbn in Hr. subst s. apply (octstr_create_ok [] (Forall_nil_2 _)). }
  intros o Ho. eapply returns_seq.
  { apply (octstr_insert_data_ok o s t 0 (zlen t) Ho); [pose proof (zlen_nonneg s); lia|pose proof (zlen_nonneg t); lia|].
    by rewrite take_ge by list_lia. }
  intros o' Ho'. cbn beta in Ho'. rewrite take_ge in Ho' by list_lia. unfold splice in Ho'. cbn in Ho'. rewrite drop_0 in Ho'.
  repeat (apply Forall_cons_iff in Hf as [? Hf]).
  eapply returns_seq; [apply (create_dlr_from_msg_ok id1 id2 now smsc (m_sms msg) (Some o') stat)|].
  - repeat (apply Forall_cons_2; [done || (cbn; rewrite (repr_bytes _ _ (proj1 Ho')); apply Ho')|]); apply Forall_nil_2.
  - done.
  - done.
  - intros m (_ & R1 & R2 & _ & _ & R3 & R4 & _ & R5 & _ & _ & R6 & _). cbn [returns]. exists m. split; [done|].
    split_and!; [done|done| |done|done|done]. cbn [text_of] in R6. by rewrite (repr_bytes _ _ (proj1 Ho')) in R6.
Qed.

Lemma acks_app es es' : acks (es ++ es') = acks es ++ acks es'.
Proof. apply omap_app. Qed.

Lemma receives_app es es' : receives (es ++ es') = receives es ++ receives es'.
Proof. apply omap_app. Qed.

Lemma sent_whole_ok conn msg reply s : link_ok conn -> reportable (m_sms msg) -> content reply s ->
  returns (sent_whole now id1 id2 (Some conn) msg reply) (fun es => acks es = [(msg, ack_success)] /\
    relayed (DLR_IS_SMSC_SUCCESS (sms_dlr_mask (m_sms msg))) msg DLR_SMSC_SUCCESS ([65; 67; 75; 47] ++ s) es).
Proof.
  intros [Hi Hn] Hm Hr. unfold sent_whole, relayed. cbn zeta. destruct (DLR_IS_SMSC_SUCCESS _).
  - eapply returns_seq; [apply (relay_ok (link_name conn) msg reply s); [by unfold link_name; destruct (l_id conn)|done|done|octets_tac]|].
    intros es (m & -> & H). cbn [returns]. destruct (is_sms msg); (split; [done|by exists m]).
  - bind_red. cbn [returns]. by destruct (is_sms msg).
Qed.

Lemma give_up_on_ok conn msg reason reply s : match conn with Some c => link_ok c | None => True end -> reportable (m_sms msg) -> content reply s ->
  returns (give_up_on now id1 id2 conn msg reason reply) (fun es => acks es = [(msg, ack_failed)] /\
    relayed (DLR_IS_SMSC_FAIL (sms_dlr_mask (m_sms msg)) || DLR_IS_FAIL (sms_dlr_mask (m_sms msg))) msg DLR_SMSC_FAIL
      ([78; 65; 67; 75; 47] ++ s) es).
Proof.
  intros Hc Hm Hr. unfold give_up_on, relayed. cbn zeta. destruct (_ || _).
  - eapply returns_seq.
    { apply (relay_ok (match conn with Some conn => link_name conn | None => None end) msg reply s); [|done|done|octets_tac].
      destruct conn as [c|]; [|done]. destruct Hc. by unfold link_name; destruct (l_id c). }
    intros es (m & -> & H). cbn [returns]. destruct conn; (split; [done|by exists m]).
  - bind_red. cbn [returns]. by destruct conn.
Qed.
End whole.

Lemma split_status_success s r : split_status s r = SMSCCONN_SUCCESS <-> s = SMSCCONN_SUCCESS /\ r = SMSCCONN_SUCCESS.
Proof. unfold split_status. repeat case_match; unfold SMSCCONN_SUCCESS, SMSCCONN_FAILED_DISCARDED, SMSCCONN_FAILED_REJECTED, SMSCCONN_FAILED_MALFORMED in *; lia. Qed.

Lemma split_status_or s r : split_status s r = s \/ split_status s r = r.
Proof. unfold split_status. repeat case_match; auto. Qed.

Section once.
Context {PF : Printf} (retry : Z) (id1 id2 : list Z).

Lemma settled_by_not_temporary r : settled_by r <> SMSCCONN_FAILED_TEMPORARILY.
Proof. unfold settled_by. by destruct (Z.eqb_spec (r_reason r) SMSCCONN_FAILED_TEMPORARILY). Qed.

Lemma final_status_not_temporary rs : forall s, s <> SMSCCONN_FAILED_TEMPORARILY -> final_status retry s rs <> SMSCCONN_FAILED_TEMPORARILY.
Proof.
  unfold final_status. induction (filter _ rs) as [|r l IH]; intros s Hs; [done|]. cbn. apply IH.
  destruct (split_status_or s (settled_by r)) as [-> | ->]; [done|apply settled_by_not_temporary].
Qed.

Lemma final_status_success rs : forall s, final_status retry s rs = SMSCCONN_SUCCESS <->
  s = SMSCCONN_SUCCESS /\ Forall (fun r => settles retry r = true -> settled_by r = SMSCCONN_SUCCESS) rs.
Proof.
  unfold final_status. induction rs as [|r rs IH]; intros s; [cbn; split; [by intros ->|by intros [-> _]]|].
  rewrite filter_cons, Forall_cons_iff. case_decide as E.
  - cbn [fmap list_fmap foldl]. rewrite IH, split_status_success. naive_solver.
  - rewrite IH. naive_solver.
Qed.

(** What becomes of a message whose parts ended for the reasons [rs], in this order: the
    last of the reasons that mean that a part can never be sent, if there is one; else
    the first failure, if there is one. *)
Definition hopeless (r : Z) : Prop := r = SMSCCONN_FAILED_DISCARDED \/ r = SMSCCONN_FAILED_REJECTED \/ r = SMSCCONN_FAILED_MALFORMED.

#[local] Instance hopeless_dec r : Decision (hopeless r).
Proof. unfold hopeless. apply _. Defined.

Definition outcome (rs : list Z) : Z :=
  match list.last (filter hopeless rs) with
  | Some r => r
  | None => default SMSCCONN_SUCCESS (head (filter (fun r => r <> SMSCCONN_SUCCESS) rs))
  end.

Lemma split_status_hopeless s r : hopeless r -> split_status s r = r.
Proof. by intros [-> | [-> | ->]]. Qed.

Lemma split_status_other s r : ~ hopeless r -> split_status s r = if decide (s = SMSCCONN_SUCCESS) then r else s.
Proof.
  unfold hopeless, split_status. intros Hr. destruct (Z.eqb_spec r SMSCCONN_FAILED_DISCARDED), (Z.eqb_spec r SMSCCONN_FAILED_REJECTED),
    (Z.eqb_spec r SMSCCONN_FAILED_MALFORMED); try tauto. cbn [orb].
  destruct (Z.eqb_spec r SMSCCONN_SUCCESS) as [->|]; [by case_decide|]. by destruct (Z.eqb_spec s SMSCCONN_SUCCESS); case_decide.
Qed.

Lemma outcome_snoc rs r : outcome (rs ++ [r]) = split_status (outcome rs) r.
Proof.
  unfold outcome. rewrite !list.filter_app, !filter_cons, !filter_nil. destruct (decide (hopeless r)) as [Hr|Hr].
  - by rewrite last_snoc, split_status_hopeless.
  - rewrite app_nil_r, split_status_other by done. destruct (list.last (filter hopeless rs)) as [x|] eqn:El.
    + assert (hopeless x) as Hx.
      { apply last_Some in El as [l El]. assert (x ∈ filter hopeless rs) as Hin by (rewrite El; apply elem_of_app; right; by left).
        by apply list_elem_of_filter in Hin as [Hin _]. }
      case_decide as E; [|done]. subst x. unfold hopeless, SMSCCONN_SUCCESS in Hx. by destruct Hx as [|[|]].
    + set (l := filter (fun r => r <> SMSCCONN_SUCCESS) rs).
      assert (Forall (fun r => r <> SMSCCONN_SUCCESS) l) as Hl
        by (apply list.Forall_forall; intros x Hx; by apply list_elem_of_filter in Hx as [Hx _]).
      destruct l as [|x l]; cbn [head default app].
      { by repeat case_decide; subst. }
      apply Forall_cons_iff in Hl as [Hx _]. by rewrite decide_False.
Qed.

Lemma final_status_outcome s rs : s = SMSCCONN_SUCCESS \/ s = SMSCCONN_FAILED_REJECTED ->
  final_status retry s rs = outcome (s :: (settled_by <$> filter (fun r => settles retry r = true) rs)).
Proof.
  intros Hs. unfold final_status. induction (settled_by <$> filter _ rs) as [|r l IH] using rev_ind; [by destruct Hs as [-> | ->]|].
  by rewrite foldl_app, app_comm_cons, outcome_snoc, <- IH.
Qed.

Lemma handle_reports_app rs : forall b rs', handle_reports retry id1 id2 b (rs ++ rs') =
  ('(b, es) ← handle_reports retry id1 id2 b rs; '(b, es') ← handle_reports retry id1 id2 b rs'; Ok (b, es ++ es')).
Proof.
  induction rs as [|r rs IH]; intros b rs'; cbn [app handle_reports].
  { bind_red. by destruct (handle_reports retry id1 id2 b rs') as [[? ?]| |]. }
  destruct (handle_report retry id1 id2 b r) as [[b1 es1]| |]; [|done..]. bind_red. rewrite IH.
  destruct (handle_reports retry id1 id2 b1 rs) as [[b2 es2]| |]; [|done..]. bind_red.
  destruct (handle_reports retry id1 id2 b2 rs') as [[b3 es3]| |]; [|done..]. bind_red. by rewrite app_assoc.
Qed.

Definition unsplit (orig : Msg) : Msg := with_sms orig (set_split_parts (m_sms orig) 0).

(** How a whole message ends with a status: the acknowledgement, and whether it goes
    back to the queue. *)
Definition ends (orig : Msg) (status : Z) (es : list effect) (again : list Msg) : Prop :=
  if status =? SMSCCONN_SUCCESS then
    acks es = [(orig, ack_success)] /\ again = [] /\
    exists t, relayed (DLR_IS_SMSC_SUCCESS (sms_dlr_mask (m_sms orig))) orig DLR_SMSC_SUCCESS ([65; 67; 75; 47] ++ t) es
  else if status =? SMSCCONN_FAILED_SHUTDOWN then es = [] /\ again = [orig]
  else
    acks es = [(orig, ack_failed)] /\ again = [] /\
    exists t, relayed (DLR_IS_SMSC_FAIL (sms_dlr_mask (m_sms orig)) || DLR_IS_FAIL (sms_dlr_mask (m_sms orig))) orig DLR_SMSC_FAIL
      ([78; 65; 67; 75; 47] ++ t) es.

Lemma last_part_ok b p orig s c r ms t : open_split b p orig 1 s c -> lrepr (outgoing b) ms -> p <> 0 -> of_split p r -> settles retry r = true ->
  s <> SMSCCONN_FAILED_TEMPORARILY -> reportable (m_sms orig) -> link_ok (r_conn r) -> content (r_reply r) t ->
  exists b' es again, handle_report retry id1 id2 b r = Ok (b', es) /\ splits b' = delete p (splits b) /\
    lrepr (outgoing b') (ms ++ again) /\ ends (unsplit orig) (split_status s (settled_by r)) es again.
Proof.
  intros Ho Hq Hp Hr Hs Hst Hok Hl Ht. destruct (report_settles retry id1 id2 b p r Hp Hr Hs) as (conn & reply & -> & Hc).
  unfold part_done. cbn zeta. rewrite Hr, Ho. cbn [parts_left sp_status sp_orig sp_smsc_conn Z.leb Z.compare Pos.compare Pos.compare_cont].
  fold (unsplit orig). assert (reportable (m_sms (unsplit orig))) as Hok' by exact Hok. set (b1 := mkBb _ _).
  assert (exists s', content reply s' /\ match conn with Some c => link_ok c | None => True end) as (s' & Hrep & Hlink).
  { destruct Hc as [[= -> ->]|(_ & -> & o & -> & Hx)]; [by exists t|]. by exists retries_exceeded. }
  unfold ends. set (st := split_status s (settled_by r)).
  assert (st <> SMSCCONN_FAILED_TEMPORARILY) as Hnt
    by (unfold st; destruct (split_status_or s (settled_by r)) as [-> | ->]; [done|apply settled_by_not_temporary]).
  destruct (Z.eqb_spec st SMSCCONN_SUCCESS) as [E|Hne].
  - apply split_status_success in E as [_ E].
    assert (conn = Some (r_conn r)) as -> by (destruct Hc as [[= -> ->]|(E' & _)]; [done|by rewrite E' in E]).
    pose proof (sent_whole_ok (r_now r) id1 id2 (r_conn r) (unsplit orig) reply s' Hl Hok' Hrep) as L. apply returns_iff in L as (es & -> & L1 & L2).
    bind_red. exists b1, es, []. rewrite app_nil_r. split_and!; try done. by exists s'.
  - unfold failed_whole. destruct (Z.eqb_spec st SMSCCONN_FAILED_TEMPORARILY); [done|]. destruct (Z.eqb_spec st SMSCCONN_FAILED_SHUTDOWN).
    + unfold requeue, gwlist_produce. pose proof (gwlist_append_ok (outgoing b1) ms (unsplit orig) Hq) as L. apply returns_iff in L as (q & -> & L & _).
      bind_red. by exists (mkBb (splits b1) q), [], [unsplit orig].
    + pose proof (give_up_on_ok (r_now r) id1 id2 conn (unsplit orig) st reply s' Hlink Hok' Hrep) as L. apply returns_iff in L as (es & -> & L1 & L2).
      bind_red. exists b1, es, []. rewrite app_nil_r. split_and!; try done. by exists s'.
Qed.
End once.

(** ** Claims *)

(** C5. A split message is settled exactly once, with the report that settles the last of
    its parts: until then the reports only count, and put the parts that failed for a
    while back into the queue (those whose retries are used up count as discarded).
    What becomes of it is told by the reasons of its parts, in the order of the reports,
    after the status that the structure had ([SMSCCONN_SUCCESS] or, where a part was
    refused when it was handed over, [SMSCCONN_FAILED_REJECTED]): the last reason that
    means discarded, rejected or malformed, if there is one, else the first failure.  It is
    acknowledged to the store as sent if and only if there is no failure; it is queued
    whole where that reason is a shutdown (also if another failure that is not of those
    three came later); otherwise it is acknowledged as failed.  The report that the
    sender asked for is made once, and the structure of the split message is gone. *)
Theorem split_settled_once {PF : Printf} (retry : Z) (id1 id2 : list Z) b p orig n s c ms pre last t :
  open_split b p orig n s c -> p <> 0 -> s = SMSCCONN_SUCCESS \/ s = SMSCCONN_FAILED_REJECTED ->
  lrepr (outgoing b) ms -> reportable (m_sms orig) -> Forall (of_split p) (pre ++ [last]) ->
  zlen (filter (fun r => settles retry r = true) pre) = n - 1 -> settles retry last = true ->
  link_ok (r_conn last) -> content (r_reply last) t ->
  let rs := s :: (settled_by <$> filter (fun r => settles retry r = true) (pre ++ [last])) in
  exists b' es again, handle_reports retry id1 id2 b (pre ++ [last]) = Ok (b', es) /\
    splits b' = delete p (splits b) /\
    lrepr (outgoing b') (ms ++ (queued_again <$> filter (fun r => settles retry r = false) pre) ++ again) /\
    ends (unsplit orig) (outcome rs) es again /\
    (outcome rs = SMSCCONN_SUCCESS <-> Forall (fun r => r = SMSCCONN_SUCCESS) rs).
Proof.
  intros Ho Hp Hs Hq Hok Hall Hn Hlast Hl Ht rs. apply Forall_app in Hall as [Hpre Hl']. apply Forall_cons_iff in Hl' as [Hl' _].
  destruct (reports_pending retry id1 id2 p orig c Hp pre b n s ms Ho Hq Hpre ltac:(lia)) as (q & E & Hq').
  assert (s <> SMSCCONN_FAILED_TEMPORARILY) as Hst by (by destruct Hs as [-> | ->]).
  rewrite handle_reports_app, E. bind_red. cbn [handle_reports]. rewrite Hn. replace (n - (n - 1)) with 1 by lia.
  set (b1 := mkBb _ q). assert (open_split b1 p orig 1 (final_status retry s pre) c) as Ho1 by apply lookup_insert_eq.
  destruct (last_part_ok retry id1 id2 b1 p orig _ c last _ t Ho1 Hq' Hp Hl' Hlast (final_status_not_temporary retry pre s Hst) Hok Hl Ht)
    as (b' & es & again & -> & H1 & H2 & H3). bind_red. exists b', es, again. rewrite app_nil_r.
  split; [done|]. split; [by rewrite H1; cbn; rewrite delete_insert_eq|]. split; [by rewrite <- app_assoc in H2|].
  assert (final_status retry s (pre ++ [last]) = outcome rs) as Eo by by apply final_status_outcome. rewrite <- Eo. split.
  - unfold final_status in *. rewrite list.filter_app, fmap_app, foldl_app, filter_cons, filter_nil, decide_True by done. exact H3.
  - rewrite final_status_success. unfold rs. rewrite Forall_cons_iff, Forall_fmap, !list.Forall_forall.
    setoid_rewrite list_elem_of_filter. naive_solver.
Qed.

(** A message of two parts: the first part fails for a while, then both are sent. *)
Definition printf_none : Printf := {| double := Empty_set; sprintf_double := fun _ _ _ => []; sprintf_p := fun _ => [] |}.

Definition sample_orig : Msg := with_sms sample_sms (set_dlr_mask (m_sms sample_sms) DLR_SMSC_SUCCESS).
Definition sample_of_split : Msg := with_sms sample_sms (set_split_parts (m_sms sample_sms) 5).
Definition sample_link_up : link := mkLink SMSCCONN_ACTIVE (Some (octstr_imm [65])) None.
Definition sample_report (reason : Z) : report := mkReport sample_link_up sample_of_split reason None 7.
Definition sample_bb : bb := mkBb {[ 5 := mkSplit sample_orig 2 SMSCCONN_SUCCESS 1 ]} gwlist_create.
Definition sample_pre : list report := [sample_report SMSCCONN_FAILED_TEMPORARILY; sample_report SMSCCONN_SUCCESS].

Lemma split_settled_once_witness :
  exists b' es, @handle_reports printf_none (-1) [] [] sample_bb (sample_pre ++ [sample_report SMSCCONN_SUCCESS]) = Ok (b', es) /\
    splits b' = ∅ /\ acks es = [(unsplit sample_orig, ack_success)] /\ lrepr (outgoing b') [try_again 7 sample_of_split].
Proof.
  destruct (@split_settled_once printf_none (-1) [] [] sample_bb 5 sample_orig 2 SMSCCONN_SUCCESS 1 [] sample_pre (sample_report SMSCCONN_SUCCESS) [])
    as (b' & es & again & E & Hs & Hq & He & _).
  - vm_compute. reflexivity.
  - done.
  - by left.
  - apply gwlist_create_ok.
  - split_and!; [repeat (apply Forall_cons_2; [exact I|]); apply Forall_nil_2|
      repeat (apply Forall_cons_2; [exact I|]); apply Forall_nil_2|vm_compute; discriminate|vm_compute; discriminate].
  - repeat (apply Forall_cons_2; [reflexivity|]). apply Forall_nil_2.
  - vm_compute. reflexivity.
  - reflexivity.
  - split; [apply (octstr_imm_ok [65]); octets_tac|exact I].
  - reflexivity.
  - exists b', es. vm_compute (outcome _) in He.
    unfold ends in He. cbn [Z.eqb SMSCCONN_SUCCESS] in He. destruct He as (Ha & -> & _). split; [exact E|].
    split; [rewrite Hs; apply delete_singleton_eq|]. split; [exact Ha|exact Hq].
Defined.

(** A driver that takes the first part and refuses the second: [smscconn_send] returns
    -1, on which [smsc2_rout] routes the whole message once more, although a part of it
    was taken and the structure will report it as failed. *)
Definition no_regex : Regex := {| regex_t := Empty_set; regexec := fun _ _ => 1 |}.

Definition sample_small_conn : @SMSCConn no_regex :=
  @mkConn no_regex 1 SMSCCONN_ACTIVE 0 SMSCCONN_ALIVE None None None None None None None None None None None None None None 10.

Definition refuses_second (m : Msg) : Z :=
  match sms_udhdata (m_sms m) with Some o => if bool_decide (list.last (bytes o) = Some 2) then -1 else 0 | None => 0 end.

Definition partly_sent : res (Z * nat * option (Z * Z)) :=
  match @smscconn_send no_regex refuses_second 5 7 (fun _ => sample_uuid) sample_uuid sample_uuid 20 sample_small_conn
      (with_sms sample_sms (set_receiver (m_sms sample_sms) (Some (octstr_imm [49])))) with
  | Ok (ret, _, given, split) => Ok (ret, length given, (fun s => (parts_left s, sp_status s)) <$> split)
  | Panic => Panic
  | Undef => Undef
  end.

Example smscconn_send_partly : partly_sent = Ok (-1, 2%nat, Some (1, SMSCCONN_FAILED_REJECTED)).
Proof. vm_compute. reflexivity. Qed.
