(* ===== verification/Emi.v ===== *)
(** * EMI/UCP messages

    Models src/gw/smsc/emimsg.c: the messages of the EMI protocol, their text
    form with length and checksum, and its parser.  [emi_strerror] only chooses a
    text for the log; [emimsg_send] writes the text form to a connection. *)

From S2P Require Import Prelude Octstr OctstrSearch OctstrCode OctstrFormat OctstrNumber.

(** The field [or] is [o_r] here. *)
Record emimsg := mkEmi {
  trn : Z;
  o_r : Z;
  ot : Z;
  num_fields : Z;
  fields : list (option Octstr)
}.

Definition SZ01 : Z := 5.
Definition SZ50 : Z := 33.
Definition SZ60 : Z := 12.

Definition field_count_op (ot : Z) : Z :=
  if ot =? 1 then SZ01
  else if ot =? 31 then 2
  else if (ot =? 51) || (ot =? 52) || (ot =? 53) then SZ50
  else if ot =? 60 then SZ60
  else -1.

Definition field_count_reply (ot : Z) (posit : bool) : Z :=
  if ot =? 1 then if posit then 2 else 3
  else if ot =? 31 then if posit then 2 else 3
  else if (ot =? 51) || (ot =? 52) || (ot =? 53) then 3
  else if ot =? 60 then if posit then 2 else 3
  else -1.

(** The other members are set by the callers. *)
Definition emimsg_create_withlen (trn o_r ot len : Z) : emimsg :=
  mkEmi trn o_r ot len (replicate (Z.to_nat len) None).

Definition emimsg_create_op (ot trn : Z) : option emimsg :=
  let len := field_count_op ot in
  if len <? 0 then None else Some (emimsg_create_withlen trn 79 ot len).

Definition emimsg_create_reply_s (ot trn : Z) (positive : bool) : option emimsg :=
  let len := field_count_reply ot positive in
  if len <? 0 then None else Some (emimsg_create_withlen trn 82 ot len).

(** [ret->fields[i] = o]. *)
Definition set_field (m : emimsg) (i : Z) (o : option Octstr) : emimsg :=
  mkEmi (trn m) (o_r m) (ot m) (num_fields m) (<[Z.to_nat i := o]> (fields m)).

Definition emimsg_create_reply (ot trn : Z) (positive : bool) : res (option emimsg) :=
  match emimsg_create_reply_s ot trn positive with
  | Some ret =>
      o ← octstr_create (if positive then [65] else [78]);
      Ok (Some (set_field ret 0 (Some o)))
  | None => Ok None
  end.

(** The loop of [emimsg_duplicate] runs from the last field to the first; the
    order does not show. *)
Fixpoint duplicate_fields (l : list (option Octstr)) : res (list (option Octstr)) :=
  match l with
  | [] => Ok []
  | o :: l => l ← duplicate_fields l; o ← octstr_duplicate o; Ok (o :: l)
  end.

Definition emimsg_duplicate (m : emimsg) : res (option emimsg) :=
  if num_fields m <? 0 then Ok None
  else
    l ← duplicate_fields (fields m);
    Ok (Some (mkEmi (trn m) (o_r m) (ot m) (num_fields m) l)).

(** The loop of [calculate_checksum], [n] octets from [i] on. *)
Fixpoint checksum_loop (message : Octstr) (i checksum : Z) (n : nat) : res Z :=
  match n with
  | O => Ok checksum
  | S n => c ← octstr_get_char message i; checksum_loop message (i + 1) (checksum + c) n
  end.

Definition calculate_checksum (message : Octstr) : res Z :=
  e ← octstr_len (Some message);
  c ← octstr_get_char message (e - 1);
  let e := if c =? 3 then e - 3 else e in
  checksum ← checksum_loop message 1 0 (Z.to_nat (e - 1));
  Ok (Z.land checksum 255).

(** The loop that joins the fields. *)
Fixpoint join_fields (data : Octstr) (l : list (option Octstr)) : res Octstr :=
  match l with
  | [] => Ok data
  | f :: l =>
      data ← (match f with Some f => octstr_append data (Some f) | None => Ok data end);
      data ← octstr_append_char data 47;
      join_fields data l
  end.

(** "\02%02d/%05d/%c/%02d/%S" *)
Definition emi_format : list Z :=
  [2; 37; 48; 50; 100; 47; 37; 48; 53; 100; 47; 37; 99; 47; 37; 48; 50; 100; 47; 37; 83].

Definition emimsg_tostring `{!Printf} (m : emimsg) : res Octstr :=
  data ← octstr_create [];
  data ← join_fields data (take (Z.to_nat (num_fields m)) (fields m));
  n ← octstr_len (Some data);
  result ← octstr_format emi_format
    [AInt (trn m); AInt (n + 16); AInt (o_r m); AInt (ot m); AOct (Some data)];
  checksum ← calculate_checksum result;
  h ← rd (hexits true) (Z.land (Z.shiftr checksum 4) 15);
  result ← octstr_append_char result h;
  h ← rd (hexits true) (Z.land checksum 15);
  result ← octstr_append_char result h;
  octstr_append_char result 3.

(** ** The parser

    [None] is NULL; every [goto error] leads there. *)

(** The loop that cuts the fields: the fields and the last separator. *)
Fixpoint cut_fields (message : Octstr) (pos2 : Z) (n : nat) : res (option (list (option Octstr) * Z)) :=
  match n with
  | O => Ok (Some ([], pos2))
  | S n =>
      let pos := pos2 + 1 in
      pos2 ← octstr_search_char message 47 pos;
      if pos2 =? -1 then Ok None
      else
        f ← (if pos <? pos2 then
               c ← octstr_copy (Some message) pos (pos2 - pos); Ok (Some c)
             else Ok None);
        r ← cut_fields message pos2 n;
        Ok (match r with
            | Some (l, p) => Some (f :: l, p)
            | None => None
            end)
  end.

(** The loop over the extra fields: the last separator. *)
Fixpoint skip_extra (message : Octstr) (pos2 : Z) (fuel : nat) : res Z :=
  match fuel with
  | O => Undef
  | S fuel =>
      pos ← octstr_search_char message 47 (pos2 + 1);
      if pos =? -1 then Ok pos2 else skip_extra message pos fuel
  end.

(** [octstr_get_char] of a field, which may be NULL. *)
Definition field_char (f : option (option Octstr)) (pos : Z) : res Z :=
  match f with
  | Some (Some o) => octstr_get_char o pos
  | Some None => Panic
  | None => Undef
  end.

(** The empty message that the header asks for. *)
Definition create_result (message : Octstr) (or ot trn : Z) : res (option emimsg) :=
  if or =? 79 then Ok (emimsg_create_op ot trn)
  else
    posit ← octstr_get_char message 15;
    Ok (if posit =? 65 then emimsg_create_reply_s ot trn true
        else if posit =? 78 then emimsg_create_reply_s ot trn false
        else None).

(** The check of a negative reply: whether it is well formed. *)
Definition check_negative (result : emimsg) : res bool :=
  if o_r result =? 82 then
    c ← field_char (fields result !! 0%nat) 0;
    if c =? 78 then
      match fields result !! 1%nat with
      | Some (Some f) => e ← parse_to f 0 10 2; Ok (match e with Some _ => true | None => false end)
      | Some None => Ok false
      | None => Undef
      end
    else Ok true
  else Ok true.

(** From the field list to the end. *)
Definition get_fields_tail (message : Octstr) (result : emimsg) : res (option emimsg) :=
  r ← cut_fields message 14 (Z.to_nat (num_fields result));
  match r with
  | None => Ok None
  | Some (l, pos2) =>
      let result := mkEmi (trn result) (o_r result) (ot result) (num_fields result) l in
      len ← octstr_len (Some message);
      pos2 ← skip_extra message pos2 (S (Z.to_nat len));
      checksum ← parse_to message (pos2 + 1) 16 (len - 1);
      match checksum with
      | None => Ok None
      | Some checksum =>
          sum ← calculate_checksum message;
          if negb (checksum =? sum) then Ok None
          else
            ok ← check_negative result;
            Ok (if ok : bool then Some result else None)
      end
  end.

Definition get_fields (message : Octstr) : res (option emimsg) :=
  c ← octstr_get_char message 0;
  mlen ← octstr_len (Some message);
  e ← octstr_get_char message (mlen - 1);
  if negb (c =? 2) || negb (e =? 3) then Ok None
  else
    t ← parse_to message 1 10 3;
    match t with None => Ok None | Some trn =>
    l ← parse_to message 4 10 9;
    match l with None => Ok None | Some len =>
    if negb (mlen =? len + 2) then Ok None
    else
      or ← octstr_get_char message 10;
      if negb (or =? 79) && negb (or =? 82) then Ok None
      else
        o ← parse_to message 12 10 14;
        match o with None => Ok None | Some ot =>
        result ← create_result message or (swrap 32 ot) (swrap 32 trn);
        match result with
        | None => Ok None
        | Some result => get_fields_tail message result
        end end
    end end.

(** ** Texts *)

Definition sum (l : list Z) : Z := fold_right Z.add 0 l.

Lemma checksum_loop_ok (o : Octstr) (s : list Z) : repr o s -> forall (n i : nat) acc,
  (i + n <= length s)%nat ->
  checksum_loop o (Z.of_nat i) acc n = Ok (acc + sum (take n (drop i s))).
Proof.
  intros Ho. induction n as [|n IH]; intros i acc Hn; simpl; [f_equal; lia|].
  destruct (lookup_lt_is_Some_2 s i) as [c Hc]; [lia|].
  rewrite (octstr_get_char_ok o s _ Ho). bind_red. unfold char_at.
  destruct (Z.leb_spec 0 (Z.of_nat i)); [|lia]. rewrite Nat2Z.id, Hc, (drop_S _ _ _ Hc). simpl.
  replace (Z.of_nat i + 1) with (Z.of_nat (S i)) by lia. rewrite IH by lia. f_equal. unfold id. lia.
Qed.

(** The checksum of a text. *)
Definition checksum_of (s : list Z) : Z :=
  let e := if char_at s (zlen s - 1) =? 3 then zlen s - 3 else zlen s in
  Z.land (sum (take (Z.to_nat (e - 1)) (drop 1 s))) 255.

Lemma calculate_checksum_ok (o : Octstr) (s : list Z) :
  repr o s -> calculate_checksum o = Ok (checksum_of s).
Proof.
  intros Ho. unfold calculate_checksum, octstr_len. rewrite (repr_seems_valid _ _ Ho), (repr_len _ _ Ho).
  bind_red. rewrite (octstr_get_char_ok o s _ Ho). bind_red. unfold checksum_of.
  set (e := if char_at s (zlen s - 1) =? 3 then zlen s - 3 else zlen s). assert (e <= zlen s) as He by (unfold e; case_match; lia).
  destruct (decide (zlen s = 0)) as [E0|Hn].
  - apply zlen_0_inv in E0 as ->. unfold e. simpl. done.
  - pose proof (checksum_loop_ok o s Ho (Z.to_nat (e - 1)) 1 0) as E.
    change (Z.of_nat 1) with 1 in E. rewrite E by list_lia. done.
Qed.

(** What a field holds; NULL stands for an empty one. *)
Definition field_holds (f : option Octstr) (c : list Z) : Prop :=
  match f with
  | None => c = []
  | Some o => reprm o c
  end.

(** The fields of a text, cut at the separators. *)
Fixpoint cut_text (s : list Z) (pos2 : Z) (n : nat) : option (list (list Z) * Z) :=
  match n with
  | O => Some ([], pos2)
  | S n =>
      let p := search_char s 47 (pos2 + 1) in
      if p =? -1 then None
      else match cut_text s p n with
           | Some (l, q) => Some (slice s (pos2 + 1) (p - (pos2 + 1)) :: l, q)
           | None => None
           end
  end.

Lemma search_char_bounds (s : list Z) (pos : Z) :
  0 <= pos -> search_char s 47 pos = -1 \/ pos <= search_char s 47 pos < zlen s.
Proof.
  intros Hp. unfold search_char. destruct (list_find _ _) as [[i c]|] eqn:E; [right|by left].
  apply list_find_Some in E as (Hl & _). apply lookup_lt_Some in Hl. list_lia.
Qed.

Lemma cut_fields_ok (o : Octstr) (s : list Z) : repr o s -> forall (n : nat) pos2, 0 <= pos2 ->
  returns (cut_fields o pos2 n) (fun r =>
    match r, cut_text s pos2 n with
    | Some (l, p), Some (cs, q) => p = q /\ pos2 <= p /\ Forall2 field_holds l cs
    | None, None => True
    | _, _ => False
    end).
Proof.
  intros Ho. induction n as [|n IH]; intros pos2 Hp; simpl; [split_and!; [done|lia|constructor]|].
  rewrite (octstr_search_char_ok o s 47) by (done || lia). bind_red.
  destruct (search_char_bounds s (pos2 + 1) ltac:(lia)) as [E|Hb].
  { rewrite E. done. }
  set (p := search_char s 47 (pos2 + 1)) in *. destruct (Z.eqb_spec p (-1)); [lia|].
  apply returns_bind. apply (returns_mono _ (fun f => field_holds f (slice s (pos2 + 1) (p - (pos2 + 1))))).
  - destruct (Z.ltb_spec (pos2 + 1) p).
    + apply returns_bind. eapply returns_mono; [apply (octstr_copy_ok o s); done || lia|]. done.
    + simpl. replace (p - (pos2 + 1)) with 0 by lia. done.
  - intros f Hf. apply returns_bind, (returns_mono _ _ _ (IH p ltac:(lia))).
    intros [[l q]|] F; destruct (cut_text s p n) as [[cs q']|]; try done. cbn [returns].
    destruct F as (-> & ? & F). split_and!; [done|lia|by constructor].
Qed.

Lemma skip_extra_ok (o : Octstr) (s : list Z) : repr o s -> forall (fuel : nat) pos2,
  -1 <= pos2 -> zlen s - pos2 < Z.of_nat fuel -> (0 < fuel)%nat ->
  returns (skip_extra o pos2 fuel) (fun p => pos2 <= p /\ (search_char s 47 (pos2 + 1) = -1 -> p = pos2)).
Proof.
  intros Ho. induction fuel as [|fuel IH]; intros pos2 Hp Hf Hpos; [lia|].
  cbn [skip_extra]. rewrite (octstr_search_char_ok o s 47) by (done || lia). bind_red.
  destruct (search_char_bounds s (pos2 + 1) ltac:(lia)) as [E|Hb].
  { rewrite E. simpl. split; [lia|done]. }
  destruct (Z.eqb_spec (search_char s 47 (pos2 + 1)) (-1)); [lia|].
  eapply returns_mono; [apply IH; lia|]. intros p [? _]. split; [lia|]. intros; lia.
Qed.

Lemma cut_text_length s (n : nat) : forall pos2 cs q, cut_text s pos2 n = Some (cs, q) -> length cs = n.
Proof.
  induction n as [|n IH]; intros pos2 cs q; simpl; [by intros [= <- _]|].
  destruct (_ =? -1); [done|]. destruct (cut_text s _ n) as [[l q']|] eqn:E; [|done].
  intros [= <- _]. simpl. f_equal. by eapply IH.
Qed.

(** The first field starts with the octet after the header. *)
Lemma cut_text_first s pos2 (n : nat) c0 cs q :
  0 <= pos2 -> cut_text s pos2 (S n) = Some (c0 :: cs, q) -> char_at s (pos2 + 1) <> 47 ->
  char_at c0 0 = char_at s (pos2 + 1).
Proof.
  intros Hp E Hc. cbn [cut_text] in E. pose proof (search_char_first s 47 (pos2 + 1) ltac:(lia)) as F.
  destruct F as [[F _]|(Hge & Hat & _)]; [by rewrite F in E|].
  set (p := search_char s 47 (pos2 + 1)) in *. destruct (Z.eqb_spec p (-1)); [done|].
  destruct (cut_text s p n) as [[l q']|]; [|done]. injection E as <- <- <-.
  assert (pos2 + 1 <> p) as Hne.
  { intros E. rewrite <- E in Hat. apply Hc. unfold char_at.
    destruct (Z.leb_spec 0 (pos2 + 1)); [|lia]. by rewrite Hat. }
  unfold char_at. change (0 <=? 0) with true. destruct (Z.leb_spec 0 (pos2 + 1)); [|lia].
  unfold slice. rewrite lookup_take_lt, lookup_drop by lia. do 2 f_equal. lia.
Qed.

(** Whether the fields of a reply have the form that a refusal must have: its second field
    begins with a number of two characters, the error code. *)
Definition negative_ok (or : Z) (cs : list (list Z)) : bool :=
  if (or =? 82) && (char_at (default [] (cs !! 0%nat)) 0 =? 78)
  then match number_at (default [] (cs !! 1%nat)) 0 10 2 with Some _ => true | None => false end
  else true.

Lemma check_negative_ok (m : emimsg) (cs : list (list Z)) :
  Forall2 field_holds (fields m) cs ->
  (o_r m = 82 -> (2 <= length cs)%nat /\ char_at (default [] (cs !! 0%nat)) 0 <> -1) ->
  check_negative m = Ok (negative_ok (o_r m) cs).
Proof.
  intros HF H82. unfold check_negative, negative_ok. destruct (Z.eqb_spec (o_r m) 82) as [E|]; [|done].
  destruct (H82 E) as [Hlen Hc]. destruct (fields m) as [|f0 [|f1 l]]; inversion HF as [|? c0 ? cs0 H0 HF0];
    subst; [simpl in Hlen; lia|inversion HF0; subst; simpl in Hlen; lia|].
  inversion HF0 as [|? c1 ? cs1 H1 _]; subst. simpl in Hc |- *. unfold id in *.
  destruct f0 as [o0|]; simpl in H0; [|by subst]. rewrite (octstr_get_char_ok o0 c0 0 (proj1 H0)). bind_red.
  destruct (char_at c0 0 =? 78); [|done]. destruct f1 as [o1|]; simpl in H1; [|by subst].
  rewrite (parse_to_ok o1 c1 0 10 2 (proj1 H1)) by lia. done.
Qed.

(** What makes the end of a message right: the fields, no further separator, the
    checksum. *)
Definition tail_right (s : list Z) (m : emimsg) (cs : list (list Z)) (q : Z) : Prop :=
  cut_text s 14 (Z.to_nat (num_fields m)) = Some (cs, q) /\ search_char s 47 (q + 1) = -1 /\
  number_at s (q + 1) 16 (zlen s - 1) = Some (checksum_of s).

Lemma get_fields_tail_ok (o : Octstr) (s : list Z) (m : emimsg) :
  repr o s -> (o_r m = 82 -> 2 <= num_fields m /\ (char_at s 15 = 65 \/ char_at s 15 = 78)) ->
  returns (get_fields_tail o m) (fun r =>
    match r with
    | Some m' => exists cs p, m' = mkEmi (trn m) (o_r m) (ot m) (num_fields m) (fields m') /\
        option_map fst (cut_text s 14 (Z.to_nat (num_fields m))) = Some cs /\
        Forall2 field_holds (fields m') cs /\
        number_at s p 16 (zlen s - 1) = Some (checksum_of s) /\ negative_ok (o_r m) cs = true
    | None => forall cs q, tail_right s m cs q -> negative_ok (o_r m) cs = false
    end).
Proof.
  intros Ho H82. unfold get_fields_tail.
  apply returns_bind, (returns_mono _ _ _ (cut_fields_ok o s Ho _ 14 ltac:(lia))).
  unfold tail_right. intros [[l p]|] F; destruct (cut_text s 14 _) as [[cs q]|] eqn:Ec; try done.
  2:{ simpl. intros cs q (? & _). done. }
  destruct F as (-> & Hq & HF). unfold octstr_len. rewrite (repr_seems_valid _ _ Ho), (repr_len _ _ Ho). bind_red.
  apply returns_bind. eapply returns_mono; [apply (skip_extra_ok o s Ho); lia|].
  intros p [Hp Hextra]. rewrite (parse_to_ok o s (p + 1) 16) by (done || lia). bind_red.
  destruct (number_at s (p + 1) 16 (zlen s - 1)) as [ck|] eqn:En.
  2:{ simpl. intros cs' q' (E & Hs & Hn). injection E as <- <-. rewrite (Hextra Hs) in En. congruence. }
  rewrite (calculate_checksum_ok o s Ho). bind_red.
  destruct (Z.eqb_spec ck (checksum_of s)) as [->|Hne]; cbn [negb].
  2:{ simpl. intros cs' q' (E & Hs & Hn). injection E as <- <-. rewrite (Hextra Hs) in En. congruence. }
  rewrite (check_negative_ok _ cs).
  - bind_red. cbn [o_r]. destruct (negative_ok (o_r m) cs) eqn:Eneg; cbn [returns fields].
    + exists cs, (p + 1). done.
    + intros cs' q' (E & _ & _). by injection E as <- <-.
  - exact HF.
  - cbn [o_r]. intros E82. destruct (H82 E82) as [Hn Hc]. pose proof (cut_text_length _ _ _ _ _ Ec) as Hl.
    split; [lia|]. destruct (Z.to_nat (num_fields m)) as [|k] eqn:Ek; [lia|].
    destruct cs as [|c0 cs]; [done|]. simpl. unfold id.
    rewrite (cut_text_first s 14 k c0 cs q ltac:(lia) Ec) by (change (14 + 1) with 15; lia).
    change (14 + 1) with 15. lia.
Qed.

Lemma create_result_ok (o : Octstr) (s : list Z) (or ot trn : Z) :
  repr o s -> or = 79 \/ or = 82 ->
  exists r, create_result o or ot trn = Ok r /\
    match r with
    | Some m => m = emimsg_create_withlen trn or ot (num_fields m) /\ 0 <= num_fields m /\
        (or = 82 -> 2 <= num_fields m /\ (char_at s 15 = 65 \/ char_at s 15 = 78))
    | None => True
    end.
Proof.
  intros Ho Hor. unfold create_result. rewrite (octstr_get_char_ok o s 15 Ho).
  assert (forall b, field_count_reply ot b = -1 \/ 2 <= field_count_reply ot b) as Hr.
  { intros b. unfold field_count_reply. repeat case_match; lia. }
  assert (forall b m, emimsg_create_reply_s ot trn b = Some m ->
    m = emimsg_create_withlen trn 82 ot (num_fields m) /\ 2 <= num_fields m) as Hc.
  { intros b m. unfold emimsg_create_reply_s. destruct (Z.ltb_spec (field_count_reply ot b) 0); [done|].
    intros [= <-]. simpl. split; [done|]. destruct (Hr b); lia. }
  destruct Hor as [-> | ->]; cbn [Z.eqb Pos.eqb]; bind_red.
  - eexists. split; [done|]. unfold emimsg_create_op. destruct (Z.ltb_spec (field_count_op ot) 0); [done|].
    simpl. split; [done|]. split; [lia|done].
  - eexists. split; [done|]. destruct (Z.eqb_spec (char_at s 15) 65) as [E|].
    + destruct (emimsg_create_reply_s ot trn true) as [m|] eqn:E'; [|done].
      destruct (Hc true m E'). split; [done|]. split; [lia|]. auto.
    + destruct (Z.eqb_spec (char_at s 15) 78) as [E|]; [|done].
      destruct (emimsg_create_reply_s ot trn false) as [m|] eqn:E'; [|done].
      destruct (Hc false m E'). split; [done|]. split; [lia|]. auto.
Qed.

(** The EMI parser is safe on any input: for every string it returns, with a
    message or NULL; no index is out of range and no missing field is
    dereferenced.  A message that it accepts has the start and end markers, the
    length field counts its octets, the checksum at its end is the checksum of its
    text, and it has as many fields as its count says. *)
Theorem emi_get_fields_checked (o : Octstr) (s : list Z) :
  repr o s ->
  returns (get_fields o) (fun r =>
    match r with
    | None => True
    | Some m =>
        char_at s 0 = 2 /\ char_at s (zlen s - 1) = 3 /\ number_at s 4 10 9 = Some (zlen s - 2) /\
        (o_r m = 79 \/ o_r m = 82) /\ char_at s 10 = o_r m /\ zlen (fields m) = num_fields m /\
        exists p, number_at s p 16 (zlen s - 1) = Some (checksum_of s)
    end).
Proof.
  intros Ho. unfold get_fields, octstr_len. rewrite (octstr_get_char_ok o s 0 Ho).
  rewrite (repr_seems_valid _ _ Ho), (repr_len _ _ Ho). bind_red.
  rewrite (octstr_get_char_ok o s (zlen s - 1) Ho). bind_red.
  destruct (Z.eqb_spec (char_at s 0) 2) as [E0|]; [|exact I].
  destruct (Z.eqb_spec (char_at s (zlen s - 1)) 3) as [E1|]; [|exact I]. cbn [negb orb].
  rewrite (parse_to_ok o s 1 10 3) by (done || lia). bind_red.
  destruct (number_at s 1 10 3) as [t|]; [|exact I].
  rewrite (parse_to_ok o s 4 10 9) by (done || lia). bind_red.
  destruct (number_at s 4 10 9) as [n|]; [|exact I].
  destruct (Z.eqb_spec (zlen s) (n + 2)) as [En|]; [|exact I]. cbn [negb].
  rewrite (octstr_get_char_ok o s 10 Ho). bind_red.
  destruct (negb (char_at s 10 =? 79) && negb (char_at s 10 =? 82)) eqn:Eor; [exact I|].
  assert (char_at s 10 = 79 \/ char_at s 10 = 82) as Hor by lia.
  rewrite (parse_to_ok o s 12 10 14) by (done || lia). bind_red.
  destruct (number_at s 12 10 14) as [k|]; [|exact I].
  destruct (create_result_ok o s (char_at s 10) (swrap 32 k) (swrap 32 t) Ho Hor) as (r & -> & Hr). bind_red.
  destruct r as [m|]; [|done]. destruct Hr as (Em & Hn & H82).
  assert (o_r m = char_at s 10) as Em' by by rewrite Em.
  eapply returns_mono; [apply (get_fields_tail_ok o s m Ho); rewrite Em'; exact H82|].
  intros [m'|]; [|done]. intros (cs & p & Em2 & Ec & HF & Hck & _). rewrite Em2. cbn [o_r num_fields fields].
  split; [done|]. split; [done|]. split; [f_equal; lia|]. split; [rewrite Em'; exact Hor|].
  split; [by rewrite Em'|]. split; [|by exists p].
  unfold zlen. rewrite (Forall2_length HF). destruct (cut_text s 14 _) as [[cs' q]|] eqn:E; [|done].
  injection Ec as ->. rewrite (cut_text_length _ _ _ _ _ E). lia.
Qed.

Lemma emi_get_fields_checked_witness :
  returns (get_fields (mk_os [2; 3])) (fun r => match r with None => True | Some _ => False end).
Proof.
  pose proof (emi_get_fields_checked (mk_os [2; 3]) [2; 3] (proj1 (mk_os_ok [2; 3] ltac:(octets_tac)))) as H.
  vm_compute in H. exact H.
Defined.

(** ** The text form *)

(** Two digits of a checksum. *)
Lemma strtol_checksum (c : Z) :
  octet c -> strtol [hexdig true (c / 16); hexdig true (c mod 16); 3] 16 = (c, 2, false).
Proof.
  revert c. apply (octet_ind (fun c => strtol [hexdig true (c / 16); hexdig true (c mod 16); 3] 16 = (c, 2, false))).
  vm_compute. reflexivity.
Qed.

Definition join (cs : list (list Z)) : list Z := concat ((fun c => c ++ [47]) <$> cs).

Lemma join_fields_ok l cs : Forall2 field_holds l cs -> forall data s, reprm data s ->
  returns (join_fields data l) (fun o => reprm o (s ++ join cs)).
Proof.
  induction 1 as [|f c l cs Hf _ IH]; intros data s Hd; simpl; [by rewrite app_nil_r|].
  apply returns_bind. apply (returns_mono _ (fun o => reprm o (s ++ c))).
  - destruct f as [f|]; simpl in Hf; [|subst; by rewrite app_nil_r].
    apply (octstr_append_ok data f s c Hd (proj1 Hf)).
  - intros data' Hd'. apply returns_bind.
    apply (returns_mono _ _ _ (octstr_append_char_ok data' _ 47 Hd' ltac:(unfold octet; lia))).
    intros data'' Hd''. apply (returns_mono _ _ _ (IH data'' _ Hd'')).
    intros o Ho. unfold join in *. rewrite fmap_cons. cbn [concat]. by rewrite <- !app_assoc in *.
Qed.

Record emi_ok (m : emimsg) (cs : list (list Z)) : Prop := {
  eo_trn : 0 <= trn m <= 99;
  eo_fields : Forall2 field_holds (fields m) cs;
  eo_sep : Forall (Forall (fun c => c <> 47)) cs;
  eo_num : num_fields m = zlen cs;
  eo_size : zlen (join cs) + 16 <= 99999;
  eo_kind :
    o_r m = 79 /\ num_fields m = field_count_op (ot m) \/
    o_r m = 82 /\ exists positive : bool, num_fields m = field_count_reply (ot m) positive /\
      char_at (default [] (cs !! 0%nat)) 0 = if positive then 65 else 78
}.

Lemma emi_ok_ot m cs : emi_ok m cs -> 0 <= ot m <= 99.
Proof.
  intros [_ _ _ Hn _ Hk]. pose proof (zlen_nonneg cs) as Hz. rewrite <- Hn in Hz.
  destruct Hk as [[_ E]|[_ (b & E & _)]]; rewrite E in Hz;
    unfold field_count_op, field_count_reply in Hz; destruct (decide (0 <= ot m <= 99)); [done| |done|];
    repeat case_match; lia.
Qed.

(** The text without its checksum. *)
Definition emi_body (m : emimsg) (cs : list (list Z)) : list Z :=
  2 :: digits 2 (trn m) ++ 47 :: digits 5 (zlen (join cs) + 16) ++ 47 :: o_r m :: 47 ::
  digits 2 (ot m) ++ 47 :: join cs.

Definition emi_text (m : emimsg) (cs : list (list Z)) : list Z :=
  let c := checksum_of (emi_body m cs) in
  emi_body m cs ++ [hexdig true (c / 16); hexdig true (c mod 16); 3].

Section text.
Context `{!Printf}.

Definition emi_segments (m : emimsg) (n : Z) (data : Octstr) : list segment :=
  [mkSegment [2] (mkDirective false true 2 None 0 100) (AInt (trn m));
   mkSegment [47] (mkDirective false true 5 None 0 100) (AInt n);
   mkSegment [47] (mkDirective false false 0 None 0 99) (AInt (o_r m));
   mkSegment [47] (mkDirective false true 2 None 0 100) (AInt (ot m));
   mkSegment [47] (mkDirective false false 0 None 0 83) (AOct (Some data))].

Lemma emi_segments_text m n data :
  concat (seg_text <$> emi_segments m n data) ++ [] = emi_format.
Proof. reflexivity. Qed.

Lemma emi_segments_ok m n (data : Octstr) (s : list Z) :
  reprm data s -> Forall seg_ok (emi_segments m n data).
Proof.
  intros [Hd _]. pose proof (repr_bytes _ _ Hd) as E.
  repeat apply Forall_cons_2; [..|apply Forall_nil_2]; (split; [|split; [|split]]);
    try (apply Forall_singleton; lia);
    try (constructor; simpl; [unfold LONG_MAX; lia|done|by apply elem_of_cons; left|
      repeat (apply elem_of_cons; (by left) || right)]);
    try (by eexists); simpl; try done. by rewrite E.
Qed.

Lemma emi_rendered m cs (data : Octstr) :
  reprm data (join cs) -> emi_ok m cs ->
  concat (seg_render <$> emi_segments m (zlen (join cs) + 16) data) ++ [] = emi_body m cs.
Proof.
  intros [Hd _] Hm. pose proof (repr_bytes _ _ Hd) as E. pose proof (emi_ok_ot m cs Hm).
  pose proof (eo_trn _ _ Hm). pose proof (eo_size _ _ Hm). pose proof (zlen_nonneg (join cs)).
  assert (o_r m = 79 \/ o_r m = 82) as Hor by (destruct (eo_kind _ _ Hm) as [[-> _]|[-> _]]; auto).
  unfold emi_segments, emi_body. rewrite !fmap_cons, fmap_nil. cbn [concat]. rewrite !app_nil_r.
  unfold seg_render, render, render_conv, signed_arg. cbn [s_lit s_dir s_arg d_conv d_minus d_zero d_width d_prec
    dir_format f_type Z.eqb Pos.eqb orb limited oct_text].
  rewrite !(swrap_small 32) by lia. rewrite E.
  assert (o_r m mod 256 = o_r m) as -> by (destruct Hor as [-> | ->]; reflexivity).
  change (Z.of_nat 2) with 2. unfold digits, padded, id. cbn [Z.to_nat length Nat.sub replicate app default].
  by rewrite <- !app_assoc.
Qed.

Lemma char_at_last (s : list Z) : char_at s (zlen s - 1) = default (-1) (list.last s).
Proof.
  unfold char_at. rewrite last_lookup. destruct s as [|x s]; [done|].
  destruct (Z.leb_spec 0 (zlen (x :: s) - 1)); [|list_lia]. do 2 f_equal. list_lia.
Qed.

Lemma join_last cs : list.last (join cs) = None /\ join cs = [] \/ list.last (join cs) = Some 47.
Proof.
  destruct cs as [|c cs] using rev_ind; [by left|]. right. unfold join.
  rewrite fmap_app, concat_app. simpl. rewrite app_nil_r, app_assoc. apply last_snoc.
Qed.

Lemma emi_body_last m cs : list.last (emi_body m cs) = Some 47.
Proof.
  unfold emi_body.
  repeat (rewrite last_cons || rewrite last_app); destruct (join_last cs) as [[-> _]| ->]; done.
Qed.

(** The checksum leaves out the digits at the end. *)
Lemma checksum_of_whole (b : list Z) (h1 h2 : Z) :
  list.last b = Some 47 -> checksum_of (b ++ [h1; h2; 3]) = checksum_of b.
Proof.
  intros Hb. unfold checksum_of. rewrite !char_at_last, Hb.
  rewrite last_app. simpl. unfold id. cbn [Z.eqb Pos.eqb].
  rewrite zlen_app. change (zlen [h1; h2; 3]) with 3. do 2 f_equal.
  destruct b as [|x b]; [done|]. cbn [app drop]. rewrite !drop_0. rewrite take_app_le by list_lia. f_equal. lia.
Qed.

Lemma checksum_octet (s : list Z) : octet (checksum_of s).
Proof.
  unfold checksum_of, octet. change 255 with (2 ^ 8 - 1). rewrite land_mask by lia. apply Z.mod_pos_bound. lia.
Qed.

Lemma checksum_digits (c : Z) : octet c -> Z.land (Z.shiftr c 4) 15 = c / 16 /\ Z.land c 15 = c mod 16.
Proof.
  intros Hc. unfold octet in Hc. change 15 with (2 ^ 4 - 1). rewrite !land_mask, Z.shiftr_div_pow2 by lia.
  change (2 ^ 4) with 16. split; [|done]. apply Z.mod_small. split; [apply Z.div_pos; lia|].
  apply Z.div_lt_upper_bound; lia.
Qed.

Lemma emimsg_tostring_ok m cs :
  emi_ok m cs -> returns (emimsg_tostring m) (fun o => reprm o (emi_text m cs)).
Proof.
  intros Hm. unfold emimsg_tostring.
  apply returns_bind, (returns_mono _ _ _ (octstr_create_ok [] (Forall_nil_2 _))). intros d0 Hd0.
  rewrite take_ge by (rewrite (eo_num _ _ Hm), (Forall2_length (eo_fields _ _ Hm)); list_lia).
  apply returns_bind, (returns_mono _ _ _ (join_fields_ok _ _ (eo_fields _ _ Hm) d0 [] Hd0)). intros data Hd.
  cbn [app] in Hd. unfold octstr_len. rewrite (repr_seems_valid _ _ (proj1 Hd)), (repr_len _ _ (proj1 Hd)). bind_red.
  pose proof (octstr_format_ok (emi_segments m (zlen (join cs) + 16) data) [] (emi_segments_ok m _ data _ Hd)
    (Forall_nil_2 _)) as P.
  rewrite emi_segments_text, (emi_rendered m cs data Hd Hm) in P.
  apply returns_bind, (returns_mono _ _ _ P). intros o Ho.
  rewrite (calculate_checksum_ok o _ (proj1 Ho)). bind_red.
  unfold emi_text. cbv zeta. set (c := checksum_of (emi_body m cs)).
  destruct (checksum_digits c (checksum_octet _)) as [-> ->].
  pose proof (checksum_octet (emi_body m cs)) as Hc. fold c in Hc. unfold octet in Hc.
  pose proof (Z.div_lt_upper_bound c 16 16 ltac:(lia) ltac:(lia)). pose proof (Z.div_pos c 16 ltac:(lia) ltac:(lia)).
  pose proof (Z.mod_pos_bound c 16 ltac:(lia)).
  destruct (hexdig_ok true (c / 16) ltac:(lia)) as (-> & _ & _ & Ho1 & _). bind_red.
  destruct (hexdig_ok true (c mod 16) ltac:(lia)) as (E2 & _ & _ & Ho2 & _).
  apply returns_bind, (returns_mono _ _ _ (octstr_append_char_ok o _ _ Ho Ho1)). intros o1 Hr1. rewrite E2. bind_red.
  apply returns_bind, (returns_mono _ _ _ (octstr_append_char_ok o1 _ _ Hr1 Ho2)). intros o2 Hr2.
  apply (returns_mono _ _ _ (octstr_append_char_ok o2 _ 3 Hr2 ltac:(unfold octet; lia))).
  intros o3 Hr3. by rewrite <- !app_assoc in Hr3.
Qed.
End text.

(** ** Reading the text back *)

Lemma cut_text_join (rest : list Z) cs : Forall (Forall (fun c => c <> 47)) cs -> forall pre p,
  p = zlen pre - 1 ->
  cut_text (pre ++ join cs ++ rest) p (length cs) = Some (cs, zlen pre + zlen (join cs) - 1).
Proof.
  induction 1 as [|c cs Hc _ IH]; intros pre p ->.
  - change (join []) with (@nil Z). change (zlen []) with 0. simpl. do 2 f_equal. lia.
  - assert (pre ++ join (c :: cs) ++ rest = pre ++ c ++ 47 :: join cs ++ rest) as E.
    { unfold join. rewrite fmap_cons. cbn [concat]. by rewrite <- !app_assoc. }
    rewrite E. cbn [length cut_text]. replace (zlen pre - 1 + 1) with (zlen pre) by lia.
    rewrite search_char_at by done. pose proof (zlen_nonneg pre). pose proof (zlen_nonneg c).
    destruct (Z.eqb_spec (zlen pre + zlen c) (-1)); [lia|].
    pose proof (IH (pre ++ c ++ [47]) (zlen pre + zlen c)) as P.
    rewrite <- !app_assoc in P. cbn [app] in P. rewrite P by list_lia.
    assert (slice (pre ++ c ++ 47 :: join cs ++ rest) (zlen pre) (zlen pre + zlen c - zlen pre) = c) as ->.
    { unfold slice. rewrite drop_app_ge by list_lia.
      replace (Z.to_nat (zlen pre) - length pre)%nat with 0%nat by list_lia.
      rewrite drop_0, take_app_le, take_ge by list_lia. done. }
    do 2 f_equal. unfold join. rewrite fmap_cons. cbn [concat]. list_lia.
Qed.

Lemma char_at_app (pre rest : list Z) (c : Z) : char_at (pre ++ c :: rest) (zlen pre) = c.
Proof.
  unfold char_at. destruct (Z.leb_spec 0 (zlen pre)); [|pose proof (zlen_nonneg pre); lia].
  rewrite lookup_app_r by list_lia. replace (Z.to_nat (zlen pre) - length pre)%nat with 0%nat by list_lia. done.
Qed.

Lemma join_first (cs : list (list Z)) :
  char_at (default [] (cs !! 0%nat)) 0 <> -1 -> exists l, join cs = char_at (default [] (cs !! 0%nat)) 0 :: l.
Proof.
  intros Hc. destruct cs as [|[|c c0] cs]; [done|done|]. unfold join. rewrite fmap_cons. by eexists.
Qed.

Section text_back.
Context (m : emimsg) (cs : list (list Z)) (Hm : emi_ok m cs).

Let N := zlen (join cs) + 16.
Let ck := checksum_of (emi_body m cs).
Let tail3 := [hexdig true (ck / 16); hexdig true (ck mod 16); 3].
Let s := emi_text m cs.

Definition emi_header : list Z :=
  2 :: digits 2 (trn m) ++ 47 :: digits 5 N ++ 47 :: o_r m :: 47 :: digits 2 (ot m) ++ [47].

Lemma digits_length (w : nat) (v : Z) : (0 < w <= 18)%nat -> 0 <= v < 10 ^ Z.of_nat w -> zlen (digits w v) = Z.of_nat w.
Proof. intros Hw Hv. destruct (digits_ok w v Hw Hv) as (k & E & Hk). rewrite E. list_lia. Qed.

Lemma emi_ranges : 0 <= trn m < 10 ^ Z.of_nat 2 /\ 0 <= N < 10 ^ Z.of_nat 5 /\ 0 <= ot m < 10 ^ Z.of_nat 2.
Proof.
  pose proof (emi_ok_ot m cs Hm). pose proof (eo_trn _ _ Hm). pose proof (eo_size _ _ Hm).
  pose proof (zlen_nonneg (join cs)). unfold N. change (10 ^ Z.of_nat 2) with 100. change (10 ^ Z.of_nat 5) with 100000.
  lia.
Qed.

Lemma emi_lengths : zlen (digits 2 (trn m)) = 2 /\ zlen (digits 5 N) = 5 /\ zlen (digits 2 (ot m)) = 2.
Proof. destruct emi_ranges as (H1 & H2 & H3). split_and!; apply digits_length; lia || done. Qed.

Lemma emi_header_length : zlen emi_header = 15.
Proof. destruct emi_lengths as (H1 & H2 & H3). unfold emi_header. list_lia. Qed.

Lemma emi_text_split : s = emi_header ++ join cs ++ tail3.
Proof.
  unfold s, emi_text, emi_body, emi_header, tail3, ck, N. cbn [app].
  by repeat (rewrite <- !app_assoc; cbn [app]).
Qed.

Lemma emi_text_length : zlen s = N + 2.
Proof. rewrite emi_text_split, !zlen_app, emi_header_length. unfold tail3, N. list_lia. Qed.

Lemma emi_text_numbers :
  number_at s 1 10 3 = Some (trn m) /\ number_at s 4 10 9 = Some N /\ number_at s 12 10 14 = Some (ot m).
Proof.
  destruct emi_ranges as (H1 & H2 & H3). destruct emi_lengths as (L1 & L2 & L3).
  rewrite emi_text_split. unfold emi_header.
  split_and!.
  - pose proof (number_at_digits [2] (digits 5 N ++ 47 :: o_r m :: 47 :: digits 2 (ot m) ++ 47 :: join cs ++ tail3)
      2 (trn m) 47 1 ltac:(lia) H1 I ltac:(lia) eq_refl) as P.
    change (1 + Z.of_nat 2) with 3 in P. rewrite <- P. f_equal. cbn [app]. by repeat (rewrite <- !app_assoc; cbn [app]).
  - pose proof (number_at_digits (2 :: digits 2 (trn m) ++ [47])
      (o_r m :: 47 :: digits 2 (ot m) ++ 47 :: join cs ++ tail3) 5 N 47 4 ltac:(lia) H2 I ltac:(lia) ltac:(list_lia)) as P.
    change (4 + Z.of_nat 5) with 9 in P. rewrite <- P. f_equal. cbn [app]. by repeat (rewrite <- !app_assoc; cbn [app]).
  - pose proof (number_at_digits (2 :: digits 2 (trn m) ++ 47 :: digits 5 N ++ [47; o_r m; 47])
      (join cs ++ tail3) 2 (ot m) 47 12 ltac:(lia) H3 I ltac:(lia) ltac:(list_lia)) as P.
    change (12 + Z.of_nat 2) with 14 in P. rewrite <- P. f_equal. cbn [app]. by repeat (rewrite <- !app_assoc; cbn [app]).
Qed.

Lemma emi_text_chars : char_at s 0 = 2 /\ char_at s (zlen s - 1) = 3 /\ char_at s 10 = o_r m.
Proof.
  destruct emi_lengths as (L1 & L2 & L3). split_and!.
  - by rewrite emi_text_split.
  - rewrite char_at_last, emi_text_split, !last_app. done.
  - assert (s = (2 :: digits 2 (trn m) ++ 47 :: digits 5 N ++ [47]) ++ o_r m :: 47 :: digits 2 (ot m) ++ 47 ::
      join cs ++ tail3) as -> by (rewrite emi_text_split; unfold emi_header; cbn [app];
        by repeat (rewrite <- !app_assoc; cbn [app])).
    replace 10 with (zlen (2 :: digits 2 (trn m) ++ 47 :: digits 5 N ++ [47])) by list_lia. apply char_at_app.
Qed.

Lemma emi_text_tail : tail_right s (mkEmi (trn m) (o_r m) (ot m) (num_fields m) []) cs (14 + zlen (join cs)).
Proof.
  pose proof emi_header_length as HL. pose proof (checksum_octet (emi_body m cs)) as Hc. fold ck in Hc.
  assert (checksum_of s = ck) as Es.
  { unfold s, emi_text. cbv zeta. apply checksum_of_whole, emi_body_last. }
  assert (0 <= ck / 16 < 16 /\ 0 <= ck mod 16 < 16) as [Hd1 Hd2].
  { unfold octet in Hc. split; [split; [apply Z.div_pos; lia|apply Z.div_lt_upper_bound; lia]|].
    apply Z.mod_pos_bound. lia. }
  destruct (hexdig_ok true (ck / 16) ltac:(lia)) as (_ & _ & X1 & _ & Z1 & _).
  destruct (hexdig_ok true (ck mod 16) ltac:(lia)) as (_ & _ & X2 & _ & Z2 & _).
  assert (forall x, isxdigit x = true -> x <> 47) as Hx47 by (unfold isxdigit, isdigit; lia).
  unfold tail_right. cbn [num_fields o_r]. split_and!.
  - rewrite emi_text_split, (eo_num _ _ Hm). replace (Z.to_nat (zlen cs)) with (length cs) by list_lia.
    rewrite (cut_text_join tail3 cs (eo_sep _ _ Hm) emi_header 14) by lia. do 2 f_equal. lia.
  - rewrite emi_text_split, app_assoc.
    replace (14 + zlen (join cs) + 1) with (zlen (emi_header ++ join cs)) by (rewrite zlen_app; lia).
    apply search_char_none. unfold tail3. repeat apply Forall_cons_2; [auto..|done|apply Forall_nil_2].
  - rewrite Es, emi_text_length. unfold number_at. rewrite emi_text_length.
    destruct (Z.leb_spec (N + 2) (14 + zlen (join cs) + 1)); [unfold N in *; lia|].
    assert (drop (Z.to_nat (14 + zlen (join cs) + 1)) s = tail3) as ->.
    { rewrite emi_text_split, app_assoc. rewrite drop_app_ge by (rewrite length_app; list_lia).
      replace (_ - _)%nat with 0%nat by list_lia. done. }
    rewrite cstr_no_nul by (unfold tail3; repeat apply Forall_cons_2; [done..|apply Forall_nil_2]).
    unfold tail3. rewrite (strtol_checksum ck Hc). cbn [Z.eqb].
    destruct (Z.eqb_spec (14 + zlen (join cs) + 1 + 2) (N + 2 - 1)); [done|unfold N in *; lia].
Qed.

(** A reply starts with its answer. *)
Lemma emi_text_answer :
  char_at (default [] (cs !! 0%nat)) 0 <> -1 -> char_at s 15 = char_at (default [] (cs !! 0%nat)) 0.
Proof.
  intros Hc. destruct (join_first cs Hc) as (l & E). rewrite emi_text_split, E. cbn [app].
  rewrite <- emi_header_length. apply char_at_app.
Qed.
End text_back.

(** ** The round trip *)

(** Parsing a text whose header and end are right. *)
Lemma get_fields_accepts (o : Octstr) (s : list Z) (t k : Z) (m : emimsg) (cs : list (list Z)) (q : Z) :
  repr o s -> char_at s 0 = 2 -> char_at s (zlen s - 1) = 3 -> number_at s 1 10 3 = Some t ->
  number_at s 4 10 9 = Some (zlen s - 2) -> char_at s 10 = 79 \/ char_at s 10 = 82 ->
  number_at s 12 10 14 = Some k -> create_result o (char_at s 10) (swrap 32 k) (swrap 32 t) = Ok (Some m) ->
  tail_right s m cs q ->
  returns (get_fields o) (fun r =>
    if negative_ok (o_r m) cs then exists m', r = Some m' /\
      m' = mkEmi (trn m) (o_r m) (ot m) (num_fields m) (fields m') /\ Forall2 field_holds (fields m') cs
    else r = None).
Proof.
  intros Ho E0 E1 Et En Hor Ek Ec Htail. unfold get_fields, octstr_len. rewrite (octstr_get_char_ok o s 0 Ho).
  rewrite (repr_seems_valid _ _ Ho), (repr_len _ _ Ho). bind_red.
  rewrite (octstr_get_char_ok o s (zlen s - 1) Ho). bind_red. rewrite E0, E1. cbn [Z.eqb Pos.eqb negb orb].
  rewrite (parse_to_ok o s 1 10 3) by (done || lia). bind_red. rewrite Et.
  rewrite (parse_to_ok o s 4 10 9) by (done || lia). bind_red. rewrite En.
  destruct (Z.eqb_spec (zlen s) (zlen s - 2 + 2)); [|lia]. cbn [negb].
  rewrite (octstr_get_char_ok o s 10 Ho). bind_red.
  assert (negb (char_at s 10 =? 79) && negb (char_at s 10 =? 82) = false) as -> by lia.
  rewrite (parse_to_ok o s 12 10 14) by (done || lia). bind_red. rewrite Ek, Ec. bind_red.
  destruct (create_result_ok o s (char_at s 10) (swrap 32 k) (swrap 32 t) Ho Hor) as (r & Er & Hr).
  rewrite Ec in Er. injection Er as <-. destruct Hr as (Em & Hn & H82).
  eapply returns_mono; [apply (get_fields_tail_ok o s m Ho); rewrite Em; exact H82|].
  intros [m'|] F; [|by rewrite (F cs q Htail)]. destruct F as (cs' & p & Em' & Ecs & HF & _ & Hneg).
  destruct Htail as (E & _). rewrite E in Ecs. injection Ecs as <-. rewrite Hneg. by exists m'.
Qed.

Lemma emi_create_again (o : Octstr) (m : emimsg) (cs : list (list Z)) :
  emi_ok m cs -> repr o (emi_text m cs) ->
  exists m0, create_result o (o_r m) (ot m) (trn m) = Ok (Some m0) /\
    trn m0 = trn m /\ o_r m0 = o_r m /\ ot m0 = ot m /\ num_fields m0 = num_fields m.
Proof.
  intros Hm Ho. pose proof (zlen_nonneg cs) as Hn. rewrite <- (eo_num _ _ Hm) in Hn. unfold create_result.
  destruct (eo_kind _ _ Hm) as [[-> E]|[-> (positive & E & Hc)]]; cbn [Z.eqb Pos.eqb].
  - unfold emimsg_create_op. rewrite <- E. destruct (Z.ltb_spec (num_fields m) 0); [lia|]. by eexists.
  - assert (char_at (default [] (cs !! 0%nat)) 0 <> -1) as Hne by (rewrite Hc; by destruct positive).
    rewrite (octstr_get_char_ok o _ 15 Ho), (emi_text_answer m cs Hm Hne), Hc. bind_red.
    unfold emimsg_create_reply_s.
    destruct positive; cbn [Z.eqb Pos.eqb]; rewrite <- E; (destruct (Z.ltb_spec (num_fields m) 0); [lia|]);
      by eexists.
Qed.

(** C36. Printing an EMI message and parsing the text.  The message has the fields that
    its type and kind have (for a reply, those of the answer in its first field,
    which begins with A or N), no field contains a separator, the transaction number has
    at most two digits and the length at most five.  Then parsing gives the same
    transaction number, kind, type and fields, where an empty field becomes NULL;
    except that a negative reply whose second field does not begin with a number of
    two characters (the error code) is refused.  The replies of [emimsg_create_reply] to refuse a
    request are such, as it leaves that field NULL ([emi_refusal_refused]). *)
Theorem emi_roundtrip `{!Printf} (m : emimsg) (cs : list (list Z)) :
  emi_ok m cs ->
  returns (o ← emimsg_tostring m; get_fields o) (fun r =>
    if negative_ok (o_r m) cs then
      exists m', r = Some m' /\ trn m' = trn m /\ o_r m' = o_r m /\ ot m' = ot m /\
        num_fields m' = num_fields m /\ Forall2 field_holds (fields m') cs
    else r = None).
Proof.
  intros Hm. apply returns_bind, (returns_mono _ _ _ (emimsg_tostring_ok m cs Hm)). intros o [Ho _].
  destruct (emi_text_numbers m cs Hm) as (Et & En & Ek). destruct (emi_text_chars m cs Hm) as (E0 & E1 & E10).
  destruct (emi_create_again o m cs Hm Ho) as (m0 & Ec & F1 & F2 & F3 & F4).
  pose proof (emi_ok_ot m cs Hm). pose proof (eo_trn _ _ Hm).
  eapply returns_mono.
  - apply (get_fields_accepts o _ (trn m) (ot m) m0 cs (14 + zlen (join cs)) Ho E0 E1 Et).
    + rewrite En, (emi_text_length m cs Hm). f_equal. lia.
    + rewrite E10. destruct (eo_kind _ _ Hm) as [[-> _]|[-> _]]; auto.
    + exact Ek.
    + rewrite !(swrap_small 32) by lia. by rewrite E10.
    + pose proof (emi_text_tail m cs Hm) as T. unfold tail_right in *. cbn [num_fields o_r] in T. by rewrite F4.
  - rewrite F2. intros r. destruct (negative_ok (o_r m) cs); [|done]. intros (m' & -> & E & HF).
    exists m'. split; [done|]. rewrite E. cbn [trn o_r ot num_fields].
    split_and!; congruence || exact HF.
Qed.

Definition sample_emi : emimsg :=
  mkEmi 7 79 1 5 [Some (mk_os [49; 50]); None; None; Some (mk_os [51]); Some (mk_os [54; 49])].

Lemma sample_emi_ok : emi_ok sample_emi [[49; 50]; []; []; [51]; [54; 49]].
Proof.
  constructor; simpl; try done; try lia.
  - repeat (constructor; [first [done | apply (mk_os_ok [49; 50]) | apply (mk_os_ok [51]) | apply (mk_os_ok [54; 49])]; octets_tac|]).
    constructor.
  - repeat (apply Forall_cons_2 || apply Forall_nil_2); lia.
  - by left.
Qed.

#[local] Instance no_doubles_emi : Printf := {
  double := Empty_set;
  sprintf_double := fun _ _ _ => [];
  sprintf_p := fun _ => []
}.

Lemma emi_roundtrip_witness :
  returns (o ← emimsg_tostring sample_emi; get_fields o) (fun r =>
    exists m', r = Some m' /\ trn m' = 7 /\ o_r m' = 79 /\ ot m' = 1 /\
      num_fields m' = 5 /\ Forall2 field_holds (fields m') [[49; 50]; []; []; [51]; [54; 49]]).
Proof. exact (emi_roundtrip sample_emi _ sample_emi_ok). Defined.

(** The negative reply to an operation of type 1, as it is created. *)
Example emi_refusal_refused :
  (m ← emimsg_create_reply 1 7 false; match m with Some m => o ← emimsg_tostring m; get_fields o | None => Undef end) = Ok None.
Proof. vm_compute. reflexivity. Qed.
