(* ===== verification/SmppDef.v ===== *)
(** * The PDUs of SMPP: src/gw/smsc/smpp_pdu.def

    The source declares the PDUs once, with the macros [PDU], [INTEGER],
    [NULTERMINATED], [OCTETS] and [TLV_*], and generates the structures and the
    code that creates, packs and unpacks them by defining the macros differently.
    Here the declarations are data, in the order of the file, and the generated
    code is a set of functions on them (SmppPdu.v). *)

From stdpp Require Import strings sets.
From S2P Require Import Prelude.
#[local] Open Scope Z_scope.

(** A field that is always there: an integer of so many octets, a string that ends
    with a NUL and has at most so many octets with it, and octets whose number is in
    another field. *)
Inductive mfield :=
| INTEGER (name : string) (octets : Z)
| NULTERMINATED (name : string) (max_octets : Z)
| OCTETS (name : string) (field_giving_octets : string).

#[export] Instance mfield_eq_dec : EqDecision mfield.
Proof. solve_decision. Defined.

(** An optional parameter, a tag, a length and a value on the wire. *)
Inductive ofield :=
| TLV_INTEGER (name : string) (octets : Z)
| TLV_NULTERMINATED (name : string) (max_len : Z)
| TLV_OCTETS (name : string) (min_len max_len : Z).

Record pdu_desc := PDU {
  pd_name : string;
  pd_id : Z;
  pd_fields : list mfield;
  pd_opts : option (list ofield)
}.

Definition mf_name (f : mfield) : string :=
  match f with INTEGER n _ | NULTERMINATED n _ | OCTETS n _ => n end.

Definition of_name (f : ofield) : string :=
  match f with TLV_INTEGER n _ | TLV_NULTERMINATED n _ | TLV_OCTETS n _ _ => n end.

#[local] Open Scope string_scope.
#[local] Open Scope list_scope.

Definition HEADER : list mfield :=
  [INTEGER "command_id" 4; INTEGER "command_status" 4; INTEGER "sequence_number" 4].

(** [SMPP_<name>] of smpp_pdu_opt.def. *)
Definition smpp_tags : list (string * Z) :=
  [("dest_addr_subunit", 5); ("dest_network_type", 6); ("dest_bearer_type", 7);
   ("dest_telematics_id", 8); ("source_addr_subunit", 13); ("source_network_type", 14);
   ("source_bearer_type", 15); ("source_telematics_id", 16); ("qos_time_to_live", 23);
   ("payload_type", 25); ("additional_status_info_text", 29); ("receipted_message_id", 30);
   ("ms_msg_wait_facilities", 48); ("privacy_indicator", 513); ("source_subaddress", 514);
   ("dest_subaddress", 515); ("user_message_reference", 516); ("user_response_code", 517);
   ("source_port", 522); ("destination_port", 523); ("sar_msg_ref_num", 524);
   ("language_indicator", 525); ("sar_total_segments", 526); ("sar_segment_seqnum", 527);
   ("sc_interface_version", 528); ("callback_num_pres_ind", 770); ("callback_num_atag", 771);
   ("number_of_messages", 772); ("callback_num", 897); ("dpf_result", 1056); ("set_dpf", 1057);
   ("ms_availability_status", 1058); ("network_error_code", 1059); ("message_payload", 1060);
   ("delivery_failure_reason", 1061); ("more_messages_to_send", 1062); ("message_state", 1063);
   ("congestion_state", 1064); ("ussd_service_op", 1281); ("broadcast_channel_indicator", 1536);
   ("broadcast_content_type", 1537); ("broadcast_content_type_info", 1538);
   ("broadcast_message_class", 1539); ("broadcast_rep_num", 1540);
   ("broadcast_frequency_interval", 1541); ("broadcast_area_identifier", 1542);
   ("failed_broadcast_area_identifier", 1542); ("broadcast_error_status", 1543);
   ("broadcast_area_success", 1544); ("broadcast_end_time", 1545);
   ("broadcast_service_group", 1546); ("billing_identification", 1547);
   ("source_network_id", 1549); ("dest_network_id", 1550); ("source_node_id", 1551);
   ("dest_node_id", 1552); ("dest_addr_np_resolution", 1553);
   ("dest_addr_np_information", 1554); ("dest_addr_np_country", 1555); ("display_time", 4609);
   ("sms_signal", 4611); ("ms_validity", 4612); ("alert_on_message_delivery", 4876);
   ("its_reply_type", 4992); ("its_session_info", 4995)].

(** The PDUs of smpp_pdu.def, in its order. *)
Definition smpp_pdus : list pdu_desc :=
  [
   PDU "bind_transmitter" 2 (HEADER ++
      [NULTERMINATED "system_id" 16; NULTERMINATED "password" 9; NULTERMINATED "system_type" 13;
       INTEGER "interface_version" 1; INTEGER "addr_ton" 1; INTEGER "addr_npi" 1;
       NULTERMINATED "address_range" 41]) None;
   PDU "bind_transmitter_resp" 2147483650 (HEADER ++
      [NULTERMINATED "system_id" 16]) (Some [
       TLV_INTEGER "sc_interface_version" 1]);
   PDU "bind_receiver" 1 (HEADER ++
      [NULTERMINATED "system_id" 16; NULTERMINATED "password" 9; NULTERMINATED "system_type" 13;
       INTEGER "interface_version" 1; INTEGER "addr_ton" 1; INTEGER "addr_npi" 1;
       NULTERMINATED "address_range" 41]) None;
   PDU "bind_receiver_resp" 2147483649 (HEADER ++
      [NULTERMINATED "system_id" 16]) (Some [
       TLV_INTEGER "sc_interface_version" 1]);
   PDU "bind_transceiver" 9 (HEADER ++
      [NULTERMINATED "system_id" 16; NULTERMINATED "password" 9; NULTERMINATED "system_type" 13;
       INTEGER "interface_version" 1; INTEGER "addr_ton" 1; INTEGER "addr_npi" 1;
       NULTERMINATED "address_range" 41]) None;
   PDU "bind_transceiver_resp" 2147483657 (HEADER ++
      [NULTERMINATED "system_id" 16]) (Some [
       TLV_INTEGER "sc_interface_version" 1]);
   PDU "outbind" 11 (HEADER ++
      [NULTERMINATED "system_id" 16; NULTERMINATED "password" 9]) None;
   PDU "unbind" 6 HEADER None;
   PDU "unbind_resp" 2147483654 HEADER None;
   PDU "generic_nack" 2147483648 HEADER None;
   PDU "submit_sm" 4 (HEADER ++
      [NULTERMINATED "service_type" 6; INTEGER "source_addr_ton" 1; INTEGER "source_addr_npi" 1;
       NULTERMINATED "source_addr" 21; INTEGER "dest_addr_ton" 1; INTEGER "dest_addr_npi" 1;
       NULTERMINATED "destination_addr" 21; INTEGER "esm_class" 1; INTEGER "protocol_id" 1;
       INTEGER "priority_flag" 1; NULTERMINATED "schedule_delivery_time" 17;
       NULTERMINATED "validity_period" 17; INTEGER "registered_delivery" 1;
       INTEGER "replace_if_present_flag" 1; INTEGER "data_coding" 1;
       INTEGER "sm_default_msg_id" 1; INTEGER "sm_length" 1; OCTETS "short_message" "sm_length"]) (Some [
       TLV_INTEGER "user_message_reference" 2; TLV_INTEGER "source_port" 2;
       TLV_INTEGER "source_addr_subunit" 1; TLV_INTEGER "destination_port" 2;
       TLV_INTEGER "dest_addr_subunit" 1; TLV_INTEGER "sar_msg_ref_num" 2;
       TLV_INTEGER "sar_total_segments" 1; TLV_INTEGER "sar_segment_seqnum" 1;
       TLV_INTEGER "more_messages_to_send" 1; TLV_INTEGER "payload_type" 1;
       TLV_OCTETS "message_payload" 0 65536; TLV_INTEGER "privacy_indicator" 1;
       TLV_OCTETS "callback_num" 4 19; TLV_INTEGER "callback_num_pres_ind" 1;
       TLV_OCTETS "callback_num_atag" 0 65; TLV_OCTETS "source_subaddress" 2 23;
       TLV_OCTETS "dest_subaddress" 2 23; TLV_INTEGER "user_response_code" 1;
       TLV_INTEGER "display_time" 1; TLV_INTEGER "sms_signal" 2; TLV_INTEGER "ms_validity" 1;
       TLV_INTEGER "ms_msg_wait_facilities" 1; TLV_INTEGER "number_of_messages" 1;
       TLV_INTEGER "alert_on_message_delivery" 0; TLV_INTEGER "language_indicator" 1;
       TLV_INTEGER "its_reply_type" 1; TLV_OCTETS "its_session_info" 2 2;
       TLV_OCTETS "ussd_service_op" 1 1; TLV_OCTETS "billing_identification" 1 1024;
       TLV_INTEGER "dest_addr_np_country" 5; TLV_OCTETS "dest_addr_np_information" 10 10;
       TLV_INTEGER "dest_addr_np_resolution" 1; TLV_INTEGER "dest_bearer_type" 1;
       TLV_NULTERMINATED "dest_network_id" 65; TLV_INTEGER "dest_network_type" 1;
       TLV_OCTETS "dest_node_id" 6 6; TLV_INTEGER "dest_telematics_id" 2;
       TLV_INTEGER "qos_time_to_live" 4; TLV_INTEGER "set_dpf" 1;
       TLV_INTEGER "source_bearer_type" 1; TLV_NULTERMINATED "source_network_id" 65;
       TLV_INTEGER "source_network_type" 1; TLV_OCTETS "source_node_id" 6 6;
       TLV_INTEGER "source_telematics_id" 1]);
   PDU "submit_sm_resp" 2147483652 (HEADER ++
      [NULTERMINATED "message_id" 65]) (Some [
       TLV_NULTERMINATED "additional_status_info_text" 256;
       TLV_INTEGER "delivery_failure_reason" 1; TLV_INTEGER "dpf_result" 1;
       TLV_OCTETS "network_error_code" 3 3]);
   PDU "submit_multi" 33 (HEADER ++
      [NULTERMINATED "service_type" 6; INTEGER "source_addr_ton" 1; INTEGER "source_addr_npi" 1;
       NULTERMINATED "source_addr" 21; INTEGER "number_of_dests" 1;
       NULTERMINATED "dest_address_es" 6096; INTEGER "esm_class" 1; INTEGER "protocol_id" 1;
       INTEGER "priority_flag" 1; NULTERMINATED "schedule_delivery_time" 17;
       NULTERMINATED "validity_period" 17; INTEGER "registered_delivery" 1;
       INTEGER "replace_if_present_flag" 1; INTEGER "data_coding" 1;
       INTEGER "sm_default_msg_id" 1; INTEGER "sm_length" 1; OCTETS "short_message" "sm_length"]) (Some [
       TLV_INTEGER "user_message_reference" 2; TLV_INTEGER "source_port" 2;
       TLV_INTEGER "source_addr_subunit" 1; TLV_INTEGER "destination_port" 2;
       TLV_INTEGER "dest_addr_subunit" 1; TLV_INTEGER "sar_msg_ref_num" 2;
       TLV_INTEGER "sar_total_segments" 1; TLV_INTEGER "sar_segment_seqnum" 1;
       TLV_INTEGER "payload_type" 1; TLV_OCTETS "message_payload" 0 65536;
       TLV_INTEGER "privacy_indicator" 1; TLV_OCTETS "callback_num" 4 19;
       TLV_INTEGER "callback_num_pres_ind" 1; TLV_OCTETS "callback_num_atag" 0 65;
       TLV_OCTETS "source_subaddress" 2 23; TLV_OCTETS "dest_subaddress" 2 23;
       TLV_INTEGER "display_time" 1; TLV_INTEGER "sms_signal" 2; TLV_INTEGER "ms_validity" 1;
       TLV_INTEGER "ms_msg_wait_facilities" 1; TLV_INTEGER "alert_on_message_delivery" 0;
       TLV_INTEGER "language_indicator" 1; TLV_OCTETS "billing_identification" 1 1024;
       TLV_INTEGER "dest_addr_np_country" 5; TLV_OCTETS "dest_addr_np_information" 10 10;
       TLV_INTEGER "dest_addr_np_resolution" 1; TLV_INTEGER "dest_bearer_type" 1;
       TLV_NULTERMINATED "dest_network_id" 65; TLV_INTEGER "dest_network_type" 1;
       TLV_OCTETS "dest_node_id" 6 6; TLV_INTEGER "dest_telematics_id" 2;
       TLV_INTEGER "its_reply_type" 1; TLV_OCTETS "its_session_info" 2 2;
       TLV_INTEGER "more_messages_to_send" 1; TLV_INTEGER "number_of_messages" 1;
       TLV_INTEGER "qos_time_to_live" 4; TLV_INTEGER "set_dpf" 1;
       TLV_INTEGER "source_bearer_type" 1; TLV_NULTERMINATED "source_network_id" 65;
       TLV_INTEGER "source_network_type" 1; TLV_OCTETS "source_node_id" 6 6;
       TLV_INTEGER "source_telematics_id" 1; TLV_INTEGER "user_response_code" 1]);
   PDU "submit_multi_resp" 2147483681 (HEADER ++
      [NULTERMINATED "message_id" 65; INTEGER "no_unsuccess" 1]) (Some [
       TLV_NULTERMINATED "additional_status_info_text" 256;
       TLV_INTEGER "delivery_failure_reason" 1; TLV_INTEGER "dpf_result" 1;
       TLV_OCTETS "network_error_code" 3 3]);
   PDU "deliver_sm" 5 (HEADER ++
      [NULTERMINATED "service_type" 6; INTEGER "source_addr_ton" 1; INTEGER "source_addr_npi" 1;
       NULTERMINATED "source_addr" 21; INTEGER "dest_addr_ton" 1; INTEGER "dest_addr_npi" 1;
       NULTERMINATED "destination_addr" 21; INTEGER "esm_class" 1; INTEGER "protocol_id" 1;
       INTEGER "priority_flag" 1; NULTERMINATED "schedule_delivery_time" 17;
       NULTERMINATED "validity_period" 17; INTEGER "registered_delivery" 1;
       INTEGER "replace_if_present_flag" 1; INTEGER "data_coding" 1;
       INTEGER "sm_default_msg_id" 1; INTEGER "sm_length" 1; OCTETS "short_message" "sm_length"]) (Some [
       TLV_INTEGER "user_message_reference" 2; TLV_INTEGER "source_port" 2;
       TLV_INTEGER "destination_port" 2; TLV_INTEGER "sar_msg_ref_num" 2;
       TLV_INTEGER "sar_total_segments" 1; TLV_INTEGER "sar_segment_seqnum" 1;
       TLV_INTEGER "user_response_code" 1; TLV_INTEGER "privacy_indicator" 1;
       TLV_INTEGER "payload_type" 1; TLV_OCTETS "message_payload" 0 65536;
       TLV_OCTETS "callback_num" 4 19; TLV_OCTETS "source_subaddress" 2 23;
       TLV_OCTETS "dest_subaddress" 2 23; TLV_INTEGER "language_indicator" 1;
       TLV_OCTETS "its_session_info" 2 2; TLV_OCTETS "network_error_code" 3 3;
       TLV_INTEGER "message_state" 1; TLV_NULTERMINATED "receipted_message_id" 65;
       TLV_OCTETS "callback_num_atag" 0 65; TLV_INTEGER "callback_num_pres_ind" 1;
       TLV_INTEGER "dest_addr_np_country" 5; TLV_OCTETS "dest_addr_np_information" 10 10;
       TLV_INTEGER "dest_addr_np_resolution" 1; TLV_INTEGER "dest_addr_subunit" 1;
       TLV_NULTERMINATED "dest_network_id" 65; TLV_INTEGER "dpf_result" 1;
       TLV_INTEGER "its_reply_type" 1; TLV_INTEGER "source_addr_subunit" 1;
       TLV_NULTERMINATED "source_network_id" 65; TLV_OCTETS "source_node_id" 6 6;
       TLV_OCTETS "ussd_service_op" 1 1]);
   PDU "deliver_sm_resp" 2147483653 (HEADER ++
      [NULTERMINATED "message_id" 1]) (Some [
       TLV_NULTERMINATED "additional_status_info_text" 256;
       TLV_INTEGER "delivery_failure_reason" 1; TLV_OCTETS "network_error_code" 3 3]);
   PDU "data_sm" 259 (HEADER ++
      [NULTERMINATED "service_type" 6; INTEGER "source_addr_ton" 1; INTEGER "source_addr_npi" 1;
       NULTERMINATED "source_addr" 65; INTEGER "dest_addr_ton" 1; INTEGER "dest_addr_npi" 1;
       NULTERMINATED "destination_addr" 65; INTEGER "esm_class" 1;
       INTEGER "registered_delivery" 1; INTEGER "data_coding" 1]) (Some [
       TLV_INTEGER "source_port" 2; TLV_INTEGER "source_addr_subunit" 1;
       TLV_INTEGER "source_network_type" 1; TLV_INTEGER "source_bearer_type" 1;
       TLV_INTEGER "source_telematics_id" 1; TLV_INTEGER "destination_port" 2;
       TLV_INTEGER "dest_addr_subunit" 1; TLV_INTEGER "dest_network_type" 1;
       TLV_INTEGER "dest_bearer_type" 1; TLV_INTEGER "dest_telematics_id" 2;
       TLV_INTEGER "sar_msg_ref_num" 2; TLV_INTEGER "sar_total_segments" 1;
       TLV_INTEGER "sar_segment_seqnum" 1; TLV_INTEGER "more_messages_to_send" 1;
       TLV_INTEGER "qos_time_to_live" 4; TLV_INTEGER "payload_type" 1;
       TLV_OCTETS "message_payload" 0 65536; TLV_INTEGER "set_dpf" 1;
       TLV_NULTERMINATED "receipted_message_id" 65; TLV_INTEGER "message_state" 1;
       TLV_OCTETS "network_error_code" 3 3; TLV_INTEGER "user_message_reference" 2;
       TLV_INTEGER "privacy_indicator" 1; TLV_OCTETS "callback_num" 4 19;
       TLV_INTEGER "callback_num_pres_ind" 1; TLV_OCTETS "callback_num_atag" 0 65;
       TLV_OCTETS "source_subaddress" 2 23; TLV_OCTETS "dest_subaddress" 2 23;
       TLV_INTEGER "user_response_code" 1; TLV_INTEGER "display_time" 1;
       TLV_INTEGER "sms_signal" 2; TLV_INTEGER "ms_validity" 1;
       TLV_INTEGER "ms_msg_wait_facilities" 1; TLV_INTEGER "number_of_messages" 1;
       TLV_INTEGER "alert_on_message_delivery" 0; TLV_INTEGER "language_indicator" 1;
       TLV_INTEGER "its_reply_type" 1; TLV_OCTETS "its_session_info" 2 2;
       TLV_OCTETS "billing_identification" 1 1024; TLV_INTEGER "dest_addr_np_country" 5;
       TLV_OCTETS "dest_addr_np_information" 10 10; TLV_INTEGER "dest_addr_np_resolution" 1;
       TLV_NULTERMINATED "dest_network_id" 65; TLV_OCTETS "dest_node_id" 6 6;
       TLV_NULTERMINATED "source_network_id" 65; TLV_OCTETS "source_node_id" 6 6;
       TLV_OCTETS "ussd_service_op" 1 1]);
   PDU "data_sm_resp" 2147483907 (HEADER ++
      [NULTERMINATED "message_id" 65]) (Some [
       TLV_NULTERMINATED "additional_status_info_text" 256;
       TLV_INTEGER "delivery_failure_reason" 1; TLV_INTEGER "dpf_result" 1;
       TLV_OCTETS "network_error_code" 3 3]);
   PDU "query_sm" 3 (HEADER ++
      [NULTERMINATED "message_id" 65; INTEGER "source_addr_ton" 1; INTEGER "source_addr_npi" 1;
       NULTERMINATED "source_addr" 21]) None;
   PDU "query_sm_resp" 2147483651 (HEADER ++
      [NULTERMINATED "message_id" 65; NULTERMINATED "final_date" 17; INTEGER "message_state" 1;
       INTEGER "error_code" 1]) None;
   PDU "cancel_sm" 8 (HEADER ++
      [NULTERMINATED "service_type" 6; NULTERMINATED "message_id" 65;
       INTEGER "source_addr_ton" 1; INTEGER "source_addr_npi" 1; NULTERMINATED "source_addr" 21;
       INTEGER "dest_addr_ton" 1; INTEGER "dest_addr_npi" 1; NULTERMINATED "destination_addr" 65]) None;
   PDU "cancel_sm_resp" 2147483656 HEADER None;
   PDU "replace_sm" 7 (HEADER ++
      [NULTERMINATED "service_type" 6; NULTERMINATED "message_id" 65;
       INTEGER "source_addr_ton" 1; INTEGER "source_addr_npi" 1; NULTERMINATED "source_addr" 21;
       NULTERMINATED "schedule_delivery_time" 17; NULTERMINATED "validity_period" 17;
       INTEGER "registered_delivery" 1; INTEGER "sm_default_msg_id" 1; INTEGER "sm_length" 1;
       OCTETS "short_message" "sm_length"]) (Some [
       TLV_OCTETS "message_payload" 0 65536]);
   PDU "replace_sm_resp" 2147483655 HEADER None;
   PDU "enquire_link" 21 HEADER None;
   PDU "enquire_link_resp" 2147483669 HEADER None;
   PDU "alert_notification" 258 (HEADER ++
      [INTEGER "source_addr_ton" 1; INTEGER "source_addr_npi" 1; NULTERMINATED "source_addr" 21;
       INTEGER "esme_addr_ton" 1; INTEGER "esme_addr_npi" 1; NULTERMINATED "esme_addr" 65]) (Some [
       TLV_INTEGER "ms_availability_status" 1]);
   PDU "broadcast_sm" 273 (HEADER ++
      [NULTERMINATED "service_type" 6; INTEGER "source_addr_ton" 1; INTEGER "source_addr_npi" 1;
       NULTERMINATED "source_addr" 21; NULTERMINATED "message_id" 65; INTEGER "priority_flag" 1;
       NULTERMINATED "schedule_delivery_time" 17; NULTERMINATED "validity_period" 17;
       INTEGER "registered_delivery" 1; INTEGER "replace_if_present_flag" 1;
       INTEGER "data_coding" 1; INTEGER "sm_default_msg_id" 1]) (Some [
       TLV_OCTETS "broadcast_area_identifier" 1 101; TLV_OCTETS "broadcast_content_type" 3 3;
       TLV_OCTETS "broadcast_rep_num" 3 3; TLV_OCTETS "broadcast_frequency_interval" 3 3;
       TLV_INTEGER "alert_on_message_delivery" 0; TLV_INTEGER "broadcast_channel_indicator" 1;
       TLV_OCTETS "broadcast_content_type_info" 1 254; TLV_INTEGER "broadcast_message_class" 1;
       TLV_OCTETS "broadcast_service_group" 1 254; TLV_OCTETS "callback_num" 4 19;
       TLV_OCTETS "callback_num_atag" 0 65; TLV_INTEGER "callback_num_pres_ind" 1;
       TLV_INTEGER "dest_addr_subunit" 1; TLV_OCTETS "dest_subaddress" 2 23;
       TLV_INTEGER "destination_port" 2; TLV_INTEGER "display_time" 1;
       TLV_INTEGER "language_indicator" 1; TLV_OCTETS "message_payload" 0 65536;
       TLV_INTEGER "ms_validity" 1; TLV_INTEGER "payload_type" 1;
       TLV_INTEGER "privacy_indicator" 1; TLV_INTEGER "sms_signal" 2;
       TLV_INTEGER "source_addr_subunit" 1; TLV_INTEGER "source_port" 2;
       TLV_OCTETS "source_subaddress" 2 23; TLV_INTEGER "user_message_reference" 2]);
   PDU "broadcast_sm_resp" 2147483921 (HEADER ++
      [NULTERMINATED "message_id" 65]) (Some [
       TLV_INTEGER "broadcast_error_status" 4;
       TLV_OCTETS "failed_broadcast_area_identifier" 1 101]);
   PDU "query_broadcast_sm" 274 (HEADER ++
      [NULTERMINATED "message_id" 65; INTEGER "source_addr_ton" 1; INTEGER "source_addr_npi" 1;
       NULTERMINATED "source_addr" 21]) (Some [
       TLV_INTEGER "user_message_reference" 2]);
   PDU "query_broadcast_sm_resp" 2147483922 (HEADER ++
      [NULTERMINATED "message_id" 65]) (Some [
       TLV_INTEGER "message_state" 1; TLV_OCTETS "broadcast_area_identifier" 1 101;
       TLV_INTEGER "broadcast_area_success" 1; TLV_NULTERMINATED "broadcast_end_time" 16;
       TLV_INTEGER "user_message_reference" 2]);
   PDU "cancel_broadcast_sm" 275 (HEADER ++
      [NULTERMINATED "service_type" 6; NULTERMINATED "message_id" 65;
       INTEGER "source_addr_ton" 1; INTEGER "source_addr_npi" 1; NULTERMINATED "source_addr" 21]) (Some [
       TLV_OCTETS "broadcast_content_type" 3 3; TLV_INTEGER "user_message_reference" 2]);
   PDU "cancel_broadcast_sm_resp" 2147483923 HEADER None].

#[local] Close Scope string_scope.
#[local] Open Scope Z_scope.

Definition SMPP_tag (name : string) : Z :=
  match list_find (fun p => p.1 = name) smpp_tags with
  | Some (_, (_, tag)) => tag
  | None => 0
  end.

Definition of_tag (f : ofield) : Z := SMPP_tag (of_name f).

(** [switch (type)]. *)
Definition find_pdu (type : Z) : option pdu_desc :=
  match list_find (fun d => pd_id d = type) smpp_pdus with
  | Some (_, d) => Some d
  | None => None
  end.

(** The position of a field in its structure. *)
Definition field_index (fields : list mfield) (name : string) : option nat :=
  fst <$> list_find (fun f => mf_name f = name) fields.

(** ** What the declarations keep to *)

Definition mfield_ok (f : mfield) : bool :=
  match f with
  | INTEGER _ n => (0 <=? n) && (n <=? 7)
  | NULTERMINATED _ n => 1 <=? n
  | OCTETS _ _ => true
  end.

Definition ofield_ok (f : ofield) : bool :=
  match f with
  | TLV_INTEGER _ n => (0 <=? n) && (n <=? 7)
  | TLV_NULTERMINATED _ n => (1 <=? n) && (n <=? 65535)
  | TLV_OCTETS _ m n => (0 <=? m) && (m <=? n)
  end.

Definition no_octets (fields : list mfield) : bool :=
  forallb (fun f => match f with OCTETS _ _ => false | _ => true end) fields.

(** At most one field gives a length: one octet, right before the octets that it
    counts, and no field before it has its name. *)
Fixpoint giver_ok (names : list string) (fields : list mfield) : bool :=
  match fields with
  | [] => true
  | OCTETS _ _ :: _ => false
  | f :: rest =>
      match f, rest with
      | INTEGER g n, OCTETS _ g' :: post =>
          (n =? 1) && bool_decide (g = g') && bool_decide (g ∉ names) && no_octets post
      | _, _ => giver_ok (mf_name f :: names) rest
      end
  end.

Definition pdu_ok (d : pdu_desc) : bool :=
  forallb mfield_ok (pd_fields d) && giver_ok [] (pd_fields d) &&
  bool_decide (take 3 (pd_fields d) = HEADER) &&
  (0 <=? pd_id d) && (pd_id d <? 2 ^ 32) &&
  match pd_opts d with
  | None => true
  | Some opts =>
      forallb ofield_ok opts && bool_decide (NoDup (of_tag <$> opts)) &&
      forallb (fun f => (0 <=? of_tag f) && (of_tag f <? 65536)) opts
  end.

Lemma smpp_pdus_ok : forallb pdu_ok smpp_pdus = true /\ NoDup (pd_id <$> smpp_pdus).
Proof. split; [vm_compute; reflexivity|]. apply (bool_decide_unpack _). vm_compute. reflexivity. Qed.

(** The two shapes of the fields. *)
Lemma giver_ok_cases (names : list string) (fields : list mfield) :
  giver_ok names fields = true ->
  no_octets fields = true \/
  exists pre g n post, fields = pre ++ INTEGER g 1 :: OCTETS n g :: post /\
    no_octets pre = true /\ no_octets post = true /\ g ∉ mf_name <$> pre /\ g ∉ names.
Proof.
  revert names. induction fields as [|f fields IH]; intros names H; [by left|].
  assert (giver_ok (mf_name f :: names) fields = true ->
          (match f with OCTETS _ _ => false | _ => true end) = true ->
    no_octets (f :: fields) = true \/
    exists pre g n post, f :: fields = pre ++ INTEGER g 1 :: OCTETS n g :: post /\
      no_octets pre = true /\ no_octets post = true /\ g ∉ mf_name <$> pre /\ g ∉ names) as Hskip.
  { intros H' Hf. destruct (IH _ H') as [Hn|(pre & g & n & post & -> & H1 & H2 & H3 & H4)].
    - left. simpl. by rewrite Hf, Hn.
    - right. exists (f :: pre), g, n, post. split_and!; [done|simpl; by rewrite Hf, H1|done|set_solver|set_solver]. }
  destruct f as [nm n|nm n|nm g]; cbn [giver_ok] in H; [|by apply Hskip|done].
  destruct fields as [|[nm' n'|nm' n'|nm' g'] post]; try by apply Hskip.
  apply andb_prop in H as [H Hp]. apply andb_prop in H as [H Hn]. apply andb_prop in H as [H1 Hg].
  apply Z.eqb_eq in H1. apply bool_decide_eq_true in Hn, Hg. subst.
  right. exists [], g', nm', post. split_and!; [done|done|done|set_solver|done].
Qed.

Lemma find_pdu_ok (type : Z) (d : pdu_desc) :
  find_pdu type = Some d -> pd_id d = type /\ pdu_ok d = true.
Proof.
  unfold find_pdu. destruct (list_find _ _) as [[i d']|] eqn:E; [|done]. intros [= ->].
  apply list_find_Some in E as (Hi & Hd & _). split; [done|].
  pose proof (proj1 smpp_pdus_ok) as H. rewrite forallb_forall in H. apply H.
  apply list_elem_of_In. by apply (list_elem_of_lookup_2 _ i).
Qed.
