(* ===== verification/SmppPdu.v ===== *)
(** * SMPP PDUs

    Models src/gw/smsc/smpp_pdu.c: the structures, their creation, packing to and
    unpacking from the octets of a connection, with the optional parameters, the
    parameters that the configuration adds ([smpp-tlv]), and the length check of
    the reader.  The functions that the source generates from smpp_pdu.def are
    functions on its declarations (SmppDef.v). *)

From stdpp Require Import gmap strings.
From S2P Require Import Prelude Octstr OctstrSearch OctstrCode OctstrFormat GwList GwSort Dict Uuid Msg SmppDef.
#[local] Open Scope Z_scope.
#[local] Open Scope kannel_scope.

(** ** The structures *)

(** A member of a structure: [long] or [unsigned long], or [Octstr *]. *)
Inductive pval :=
| PInt (i : Z)
| POct (o : option Octstr).

(** [pdu_fields] and [pdu_opts] are the members in the order of the declaration. *)
Record SMPP_PDU := mkPdu {
  pdu_type : Z;
  pdu_fields : list pval;
  pdu_opts : list pval;
  pdu_tlv : option (Dict Octstr)
}.

Inductive tlv_type := SMPP_TLV_OCTETS | SMPP_TLV_NULTERMINATED | SMPP_TLV_INTEGER.

Record smpp_tlv := mkTlv {
  tlv_name : Octstr;
  tlv_tag : Z;
  tlv_length : Z;
  tlv_constant : option Octstr;
  tlv_ty : tlv_type
}.

(** The configured parameters, by SMSC and then by name or by tag; [None] before
    [smpp_pdu_init]. *)
Record tlv_config := mkConfig {
  tlvs_by_name : Dict (Dict smpp_tlv);
  tlvs_by_tag : Dict (Dict smpp_tlv)
}.

(** ["def;ault"] *)
Definition DEFAULT_SMSC_ID : list Z := [100; 101; 102; 59; 97; 117; 108; 116].

Section smpp.
Context {pf : Printf}.
Variable cfg : option tlv_config.
Variable smsc_id : option Octstr.

(** ** Configured parameters *)

Definition tlv_in (d : Dict (Dict smpp_tlv)) (id key : Octstr) : res (option smpp_tlv) :=
  tmp ← dict_get d id;
  match tmp with
  | None => Ok None
  | Some tmp => dict_get tmp key
  end.

(** The SMSC's own parameters first, then the ones for all. *)
Definition tlv_lookup (d : Dict (Dict smpp_tlv)) (key : Octstr) : res (option smpp_tlv) :=
  r ← match smsc_id with
      | None => Ok None
      | Some id => tlv_in d id key
      end;
  match r with
  | Some tlv => Ok (Some tlv)
  | None =>
      def ← octstr_create DEFAULT_SMSC_ID;
      tlv_in d def key
  end.

Definition smpp_tlv_get_by_name (name : Octstr) : res (option smpp_tlv) :=
  match cfg with
  | None => Ok None
  | Some c => tlv_lookup (tlvs_by_name c) name
  end.

(** ["%ld"] *)
Definition format_ld (n : Z) : res Octstr := octstr_format [37; 108; 100] [AInt n].

Definition smpp_tlv_get_by_tag (tag : Z) : res (option smpp_tlv) :=
  match cfg with
  | None => Ok None
  | Some c =>
      tmp ← format_ld tag;
      tlv_lookup (tlvs_by_tag c) tmp
  end.

(** ** Integers *)

(** -1 when the string is too short.  The result is a [long]. *)
Fixpoint decode_loop (os : Octstr) (pos u : Z) (n : nat) : res Z :=
  match n with
  | O => Ok (swrap 64 u)
  | S n =>
      c ← octstr_get_char os pos;
      decode_loop os (pos + 1) (Z.lor (ulong (Z.shiftl u 8)) (ulong c)) n
  end.

Definition decode_integer (os : Octstr) (pos octets : Z) : res Z :=
  n ← octstr_len (Some os);
  if n <? pos + octets then Ok (-1) else decode_loop os pos 0 (Z.to_nat octets).

(** A shift by 64 bits or more is undefined. *)
Fixpoint append_loop (os : Octstr) (u i : Z) (n : nat) : res Octstr :=
  match n with
  | O => Ok os
  | S n =>
      if 64 <=? i * 8 then Undef
      else
        os ← octstr_append_char os (Z.land (Z.shiftr u (i * 8)) 255);
        append_loop os u (i - 1) n
  end.

Definition append_encoded_integer (os : Octstr) (u octets : Z) : res Octstr :=
  append_loop os (ulong u) (octets - 1) (Z.to_nat octets).

(** The return value, [*data] and [*pos]. *)
Definition copy_until_nul (os : Octstr) (pos max_octets : Z) : res (Z * option Octstr * Z) :=
  nul ← octstr_search_char os 0 pos;
  if nul =? -1 then Ok (-1, None, pos)
  else if pos + max_octets <? nul then Ok (-1, None, pos)
  else
    data ← (if 0 <? nul - pos
            then o ← octstr_copy (Some os) pos (nul - pos); Ok (Some o)
            else Ok None);
    Ok (0, data, nul + 1).

(** ** Creation *)

Definition mfield_init (f : mfield) : pval :=
  match f with
  | INTEGER _ _ => PInt 0
  | NULTERMINATED _ _ => POct None
  | OCTETS _ _ => POct None
  end.

Definition ofield_init (f : ofield) : pval :=
  match f with
  | TLV_INTEGER _ _ => PInt (-1)
  | TLV_NULTERMINATED _ _ => POct None
  | TLV_OCTETS _ _ _ => POct None
  end.

(** [command_id] and [sequence_number] are the first and the third field. *)
Definition smpp_pdu_create (type seq_no : Z) : option SMPP_PDU :=
  match find_pdu type with
  | None => None
  | Some d =>
      let fields := mfield_init <$> pd_fields d in
      Some (mkPdu type (<[2%nat := PInt seq_no]> (<[0%nat := PInt type]> fields))
              (match pd_opts d with Some opts => ofield_init <$> opts | None => [] end)
              (match pd_opts d with Some _ => Some (dict_create 1024 true) | None => None end))
  end.

(** ** Packing *)

(** The lengths of the octet strings are stored in the fields that give them. *)
Fixpoint fix_lengths (all : list mfield) (fields : list mfield) (i : nat) (vals : list pval)
  : res (list pval) :=
  match fields with
  | [] => Ok vals
  | OCTETS _ g :: fields =>
      match vals !! i, field_index all g with
      | Some (POct o), Some j =>
          n ← octstr_len o;
          fix_lengths all fields (S i) (<[j := PInt n]> vals)
      | _, _ => Undef
      end
  | _ :: fields => fix_lengths all fields (S i) vals
  end.

Definition append_nulterminated (os : Octstr) (o : option Octstr) (max_octets : Z) : res Octstr :=
  os ← match o with
       | None => Ok os
       | Some o =>
           n ← octstr_len (Some o);
           temp ← (if max_octets <=? n
                   then t ← octstr_copy (Some o) 0 (max_octets - 1); Ok (Some t)
                   else octstr_duplicate (Some o));
           octstr_append os temp
       end;
  octstr_append_char os 0.

Definition pack_field (os : Octstr) (f : mfield) (v : pval) : res Octstr :=
  match f, v with
  | INTEGER _ octets, PInt i => append_encoded_integer os i octets
  | NULTERMINATED _ max_octets, POct o => append_nulterminated os o max_octets
  | OCTETS _ _, POct None => Ok os
  | OCTETS _ _, POct (Some o) => octstr_append os (Some o)
  | _, _ => Undef
  end.

Fixpoint pack_fields (os : Octstr) (fields : list mfield) (vals : list pval) : res Octstr :=
  match fields, vals with
  | [], _ => Ok os
  | f :: fields, v :: vals => os ← pack_field os f v; pack_fields os fields vals
  | _ :: _, [] => Undef
  end.

Definition TL (os : Octstr) (tag len : Z) : res Octstr :=
  os ← append_encoded_integer os tag 2;
  append_encoded_integer os len 2.

Definition pack_opt (os : Octstr) (f : ofield) (v : pval) : res Octstr :=
  match f, v with
  | TLV_INTEGER _ octets, PInt i =>
      if 0 <=? i then
        os ← TL os (of_tag f) octets;
        append_encoded_integer os i octets
      else Ok os
  | TLV_NULTERMINATED _ max_len, POct (Some o) =>
      n ← octstr_len (Some o);
      os ← TL os (of_tag f) (if max_len <? n then max_len else n + 1);
      append_nulterminated os (Some o) max_len
  | TLV_OCTETS _ min_len max_len, POct (Some o) =>
      n ← octstr_len (Some o);
      if (max_len <? n) || (n <? min_len) then Ok os
      else
        os ← TL os (of_tag f) n;
        octstr_append os (Some o)
  | TLV_NULTERMINATED _ _, POct None => Ok os
  | TLV_OCTETS _ _ _, POct None => Ok os
  | _, _ => Undef
  end.

Fixpoint pack_opts (os : Octstr) (opts : list ofield) (vals : list pval) : res Octstr :=
  match opts, vals with
  | [], _ => Ok os
  | f :: opts, v :: vals => os ← pack_opt os f v; pack_opts os opts vals
  | _ :: _, [] => Undef
  end.

(** A configured parameter with the value [val]; [atol] is [strtol] in base 10. *)
Definition pack_tlv (os : Octstr) (tlv : smpp_tlv) (val : option Octstr) : res Octstr :=
  match tlv_ty tlv with
  | SMPP_TLV_INTEGER =>
      s ← octstr_get_cstr val;
      let '(v, _, _) := strtol s 10 in
      os ← append_encoded_integer os (tlv_tag tlv) 2;
      os ← append_encoded_integer os (tlv_length tlv) 2;
      append_encoded_integer os v (tlv_length tlv)
  | ty =>
      n ← octstr_len val;
      if ulong (tlv_length tlv) <? n then Ok os
      else
        os ← append_encoded_integer os (tlv_tag tlv) 2;
        os ← append_encoded_integer os (match ty with SMPP_TLV_NULTERMINATED => n + 1 | _ => n end) 2;
        os ← octstr_append os val;
        match ty with
        | SMPP_TLV_NULTERMINATED => octstr_append_char os 0
        | _ => Ok os
        end
  end.

Fixpoint tlvs_loop (os : Octstr) (tlvs : Dict Octstr) (keys : List Octstr) (fuel : nat) : res Octstr :=
  match fuel with
  | O => Undef
  | S fuel =>
      '(key, keys) ← gwlist_extract_first keys;
      match key with
      | None => Ok os
      | Some key =>
          tlv ← smpp_tlv_get_by_name key;
          os ← match tlv with
               | None => Ok os
               | Some tlv => val ← dict_get tlvs key; pack_tlv os tlv val
               end;
          tlvs_loop os tlvs keys fuel
      end
  end.

Definition pack_tlvs (os : Octstr) (tlvs : option (Dict Octstr)) : res Octstr :=
  match tlvs with
  | None => Ok os
  | Some tlvs =>
      keys ← dict_keys tlvs;
      tlvs_loop os tlvs keys (S (Z.to_nat (gwlist_len (Some keys))))
  end.

(** The packed PDU, and the PDU with its lengths fixed. *)
Definition smpp_pdu_pack (pdu : SMPP_PDU) : res (Octstr * SMPP_PDU) :=
  os ← octstr_create [];
  '(os, pdu) ← match find_pdu (pdu_type pdu) with
       | None => Ok (os, pdu)
       | Some d =>
           fields ← fix_lengths (pd_fields d) (pd_fields d) 0 (pdu_fields pdu);
           os ← pack_fields os (pd_fields d) fields;
           os ← match pd_opts d with
                | None => Ok os
                | Some opts =>
                    os ← pack_opts os opts (pdu_opts pdu);
                    pack_tlvs os (pdu_tlv pdu)
                end;
           Ok (os, mkPdu (pdu_type pdu) fields (pdu_opts pdu) (pdu_tlv pdu))
       end;
  temp ← octstr_create [];
  n ← octstr_len (Some os);
  temp ← append_encoded_integer temp (n + 4) 4;
  os ← octstr_insert os (Some temp) 0;
  Ok (os, pdu).

(** ** Unpacking *)

(** What a field gives, from the members read so far ([env], by name; the others
    are 0), and the new position; [None] is [goto err]. *)
Definition int_in (env : list (string * pval)) (name : string) : Z :=
  match list_find (fun p => p.1 = name) env with
  | Some (_, (_, PInt i)) => i
  | _ => 0
  end.

Definition unpack_field (os : Octstr) (pos : Z) (f : mfield) (env : list (string * pval))
  : res (option (pval * Z)) :=
  match f with
  | INTEGER _ octets =>
      i ← decode_integer os pos octets;
      if i =? -1 then Ok None else Ok (Some (PInt i, pos + octets))
  | NULTERMINATED _ max_octets =>
      '(_, data, pos) ← copy_until_nul os pos max_octets;
      Ok (Some (POct data, pos))
  | OCTETS _ g =>
      let n := int_in env g in
      o ← octstr_copy (Some os) pos n;
      k ← octstr_len (Some o);
      if n =? k then Ok (Some (POct (Some o), pos + n)) else Ok None
  end.

Fixpoint unpack_fields (os : Octstr) (pos : Z) (fields : list mfield) (env : list (string * pval))
  : res (option (list pval * Z)) :=
  match fields with
  | [] => Ok (Some ([], pos))
  | f :: fields =>
      r ← unpack_field os pos f env;
      match r with
      | None => Ok None
      | Some (v, pos) =>
          r ← unpack_fields os pos fields ((mf_name f, v) :: env);
          Ok (match r with None => None | Some (vs, pos) => Some (v :: vs, pos) end)
      end
  end.

(** [dict_put(p->tlv, tlv->name, val)] if a parameter is configured for the tag. *)
Definition put_tlv (tlvs : Dict Octstr) (tlv : option smpp_tlv) (val : option Octstr) : res (Dict Octstr) :=
  match tlv with
  | None => Ok tlvs
  | Some tlv => r ← dict_put tlvs (tlv_name tlv) val; Ok r.1
  end.

(** One optional parameter that is declared: the new value (or the old one), the
    position and the dictionary; [None] is [goto err]. *)
Definition unpack_opt (os : Octstr) (len pos opt_len : Z) (f : ofield) (v : pval)
    (tlv : option smpp_tlv) (tlvs : Dict Octstr) : res (option (pval * Z * Dict Octstr)) :=
  match f with
  | TLV_INTEGER _ octets =>
      if octets <? opt_len then Ok (Some (v, pos + opt_len, tlvs))
      else
        i ← decode_integer os pos opt_len;
        if i =? -1 then Ok None
        else
          tlvs ← match tlv with
                 | None => Ok tlvs
                 | Some _ => val ← format_ld i; put_tlv tlvs tlv (Some val)
                 end;
          Ok (Some (PInt i, pos + opt_len, tlvs))
  | TLV_NULTERMINATED _ max_len =>
      if (max_len <? opt_len) || (len <? pos + opt_len) then Ok (Some (v, pos + opt_len, tlvs))
      else
        '(_, data, pos) ← copy_until_nul os pos opt_len;
        val ← octstr_duplicate data;
        tlvs ← put_tlv tlvs tlv val;
        Ok (Some (POct data, pos, tlvs))
  | TLV_OCTETS _ min_len max_len =>
      if (opt_len <? min_len) || (max_len <? opt_len) || (len <? pos + opt_len)
      then Ok (Some (v, pos + opt_len, tlvs))
      else
        o ← octstr_copy (Some os) pos opt_len;
        val ← octstr_duplicate (Some o);
        tlvs ← put_tlv tlvs tlv val;
        Ok (Some (POct (Some o), pos + opt_len, tlvs))
  end.

(** A parameter that is not declared: a configured one goes to the dictionary,
    another one is skipped with a warning. *)
Definition unpack_tlv (os : Octstr) (pos opt_len : Z) (tlv : option smpp_tlv) (tlvs : Dict Octstr)
  : res (option (Z * Dict Octstr)) :=
  match tlv with
  | None =>
      val ← octstr_copy (Some os) pos opt_len;
      _ ← octstr_binary_to_hex val false;
      Ok (Some (pos + opt_len, tlvs))
  | Some t =>
      if ulong (tlv_length t) <? opt_len then Ok (Some (pos + opt_len, tlvs))
      else
        match tlv_ty t with
        | SMPP_TLV_INTEGER =>
            i ← decode_integer os pos opt_len;
            if i =? -1 then Ok None
            else
              val ← format_ld i;
              tlvs ← put_tlv tlvs tlv (Some val);
              Ok (Some (pos + opt_len, tlvs))
        | SMPP_TLV_OCTETS =>
            val ← octstr_copy (Some os) pos opt_len;
            tlvs ← put_tlv tlvs tlv (Some val);
            Ok (Some (pos + opt_len, tlvs))
        | SMPP_TLV_NULTERMINATED =>
            '(r, val, pos) ← copy_until_nul os pos opt_len;
            tlvs ← (if r =? 0 then put_tlv tlvs tlv val else Ok tlvs);
            Ok (Some (pos, tlvs))
        end
  end.

(** [while (pos + 4 <= len)]. *)
Fixpoint unpack_opts (os : Octstr) (len pos : Z) (opts : list ofield) (vals : list pval)
    (tlvs : Dict Octstr) (fuel : nat) : res (option (list pval * Dict Octstr)) :=
  match fuel with
  | O => Undef
  | S fuel =>
      if pos + 4 <=? len then
        opt_tag ← decode_integer os pos 2;
        opt_len ← decode_integer os (pos + 2) 2;
        let pos := pos + 4 in
        tlv ← smpp_tlv_get_by_tag opt_tag;
        match list_find (fun f => of_tag f = opt_tag) opts with
        | Some (i, f) =>
            match vals !! i with
            | None => Undef
            | Some v =>
                r ← unpack_opt os len pos opt_len f v tlv tlvs;
                match r with
                | None => Ok None
                | Some (v, pos, tlvs) => unpack_opts os len pos opts (<[i := v]> vals) tlvs fuel
                end
            end
        | None =>
            r ← unpack_tlv os pos opt_len tlv tlvs;
            match r with
            | None => Ok None
            | Some (pos, tlvs) => unpack_opts os len pos opts vals tlvs fuel
            end
        end
      else Ok (Some (vals, tlvs))
  end.

Definition smpp_pdu_unpack (os : Octstr) : res (option SMPP_PDU) :=
  len ← octstr_len (Some os);
  if len <? 4 then Ok None
  else
    type ← decode_integer os 0 4;
    if type =? -1 then Ok None
    else
      match find_pdu type with
      | None => Ok None
      | Some d =>
          r ← unpack_fields os 0 (pd_fields d) [];
          match r with
          | None => Ok None
          | Some (fields, pos) =>
              match pd_opts d with
              | None => Ok (Some (mkPdu type fields [] None))
              | Some opts =>
                  r ← unpack_opts os len pos opts (ofield_init <$> opts) (dict_create 1024 true)
                        (S (Z.to_nat len));
                  Ok (match r with
                      | None => None
                      | Some (vals, tlvs) => Some (mkPdu type fields vals (Some tlvs))
                      end)
              end
          end
      end.
End smpp.

(** ** Reading from a connection *)

Definition MIN_SMPP_PDU_LEN : Z := 16.
Definition MAX_SMPP_PDU_LEN : Z := 7424.

(** [smpp_pdu_read_len]: [os] is what [conn_read_fixed(conn, 4)] gives. *)
Definition smpp_pdu_read_len (os : option Octstr) : res Z :=
  match os with
  | None => Ok 0
  | Some os =>
      buf ← octstr_get_many_chars (gw_malloc 4) os 0 4;
      len ← decode_network_long buf;
      Ok (if len <? MIN_SMPP_PDU_LEN then -1
          else if MAX_SMPP_PDU_LEN <? len then -1
          else len)
  end.

(** ** Integers on the wire *)

Fixpoint be_bytes (n : nat) (u : Z) : list Z :=
  match n with
  | O => []
  | S n => (u / 256 ^ Z.of_nat n) mod 256 :: be_bytes n u
  end.

Lemma length_be_bytes (n : nat) (u : Z) : length (be_bytes n u) = n.
Proof. induction n; simpl; by f_equal. Qed.

Lemma zlen_be_bytes (n : nat) (u : Z) : zlen (be_bytes n u) = Z.of_nat n.
Proof. unfold zlen. by rewrite length_be_bytes. Qed.

Lemma octets_be_bytes (n : nat) (u : Z) : octets (be_bytes n u).
Proof. induction n; simpl; auto with kannel. Qed.

Lemma be_value_bytes (n : nat) (u : Z) : be_value (be_bytes n u) = u mod 256 ^ Z.of_nat n.
Proof.
  induction n as [|n IH]; cbn [be_bytes]; [by rewrite Z.mod_1_r|].
  rewrite be_value_cons, zlen_be_bytes, IH. rewrite Nat2Z.inj_succ, Z.pow_succ_r by lia.
  rewrite (Z.mul_comm 256), Z.rem_mul_r by (pose proof (Z.pow_pos_nonneg 256 (Z.of_nat n)); lia). lia.
Qed.

Lemma append_loop_ok (n : nat) : forall (os : Octstr) (s : list Z) (u : Z),
  reprm os s -> (n <= 8)%nat ->
  returns (append_loop os u (Z.of_nat n - 1) n) (fun o => reprm o (s ++ be_bytes n u)).
Proof.
  induction n as [|n IH]; intros os s u Hos Hn; cbn [append_loop be_bytes]; [by rewrite app_nil_r|].
  rewrite (proj2 (Z.leb_gt _ _)) by lia.
  assert (Z.land (Z.shiftr u ((Z.of_nat (S n) - 1) * 8)) 255 = (u / 256 ^ Z.of_nat n) mod 256) as ->.
  { change 255 with (2 ^ 8 - 1). rewrite land_mask, Z.shiftr_div_pow2 by lia.
    change (2 ^ 8) with 256. replace (2 ^ ((Z.of_nat (S n) - 1) * 8)) with (256 ^ Z.of_nat n); [reflexivity|].
    replace ((Z.of_nat (S n) - 1) * 8) with (8 * Z.of_nat n) by lia. by rewrite Z.pow_mul_r by lia. }
  apply returns_bind, (returns_mono _ _ _ (octstr_append_char_ok os s _ Hos (octet_mod _))). intros o Ho.
  replace (Z.of_nat (S n) - 1 - 1) with (Z.of_nat n - 1) by lia.
  apply (returns_mono _ _ _ (IH o _ u Ho ltac:(lia))). intros o'. by rewrite <- app_assoc.
Qed.

Lemma append_encoded_ok (os : Octstr) (s : list Z) (u n : Z) :
  reprm os s -> 0 <= n <= 8 -> 0 <= u < 2 ^ 64 ->
  returns (append_encoded_integer os u n) (fun o => reprm o (s ++ be_bytes (Z.to_nat n) u)).
Proof.
  intros Hos Hn Hu. unfold append_encoded_integer, ulong. rewrite Z.mod_small by done.
  replace (n - 1) with (Z.of_nat (Z.to_nat n) - 1) by lia. apply append_loop_ok; [done|lia].
Qed.

Lemma decode_loop_ok (os : Octstr) (s l : list Z) : forall (pre post : list Z) (u : Z),
  repr os s -> s = pre ++ l ++ post -> octets l -> 0 <= u -> u * 256 ^ zlen l + be_value l < 2 ^ 64 ->
  decode_loop os (zlen pre) u (length l) = Ok (swrap 64 (u * 256 ^ zlen l + be_value l)).
Proof.
  induction l as [|c l IH]; intros pre post u Hos E Hl Hu Hb; cbn [decode_loop length].
  { change (256 ^ zlen []) with 1. change (be_value []) with 0. by rewrite Z.mul_1_r, Z.add_0_r. }
  octets_inv. rename H into Hc. unfold octet in Hc. pose proof (be_value_range l Hl) as Hr.
  rewrite (octstr_get_char_ok os s _ Hos). bind_red.
  assert (char_at s (zlen pre) = c) as ->.
  { unfold char_at. rewrite (proj2 (Z.leb_le 0 _)) by apply zlen_nonneg.
    subst s. rewrite lookup_app_r by list_lia.
    by replace (Z.to_nat (zlen pre) - length pre)%nat with 0%nat by list_lia. }
  assert (zlen (c :: l) = zlen l + 1) as Ez by list_lia. pose proof (zlen_nonneg l).
  rewrite be_value_cons, Ez, Z.pow_add_r in Hb |- * by lia. change (256 ^ 1) with 256 in *.
  set (w := 256 ^ zlen l) in *. assert (0 < w) by (apply Z.pow_pos_nonneg; lia).
  assert (Z.lor (ulong (Z.shiftl u 8)) (ulong c) = u * 256 + c) as ->.
  { unfold ulong. rewrite Z.shiftl_mul_pow2 by lia. change (2 ^ 8) with 256.
    rewrite !Z.mod_small by nia. change 256 with (2 ^ 8). rewrite <- Z.shiftl_mul_pow2 by lia.
    by rewrite lor_shiftl_add, Z.shiftl_mul_pow2 by lia. }
  replace (zlen pre + 1) with (zlen (pre ++ [c])) by list_lia.
  rewrite (IH (pre ++ [c]) post (u * 256 + c)); [|done| |done|lia|nia].
  - do 2 f_equal. nia.
  - rewrite <- app_assoc. done.
Qed.

Lemma pow256_7 (n : Z) : 0 <= n <= 7 -> 0 < 256 ^ n <= 2 ^ 56.
Proof.
  intros Hn. split; [apply Z.pow_pos_nonneg; lia|].
  change (2 ^ 56) with (256 ^ 7). apply Z.pow_le_mono_r; lia.
Qed.

Lemma decode_integer_ok (os : Octstr) (pre post : list Z) (u n : Z) :
  repr os (pre ++ be_bytes (Z.to_nat n) u ++ post) -> 0 <= n <= 7 -> 0 <= u < 256 ^ n ->
  decode_integer os (zlen pre) n = Ok u.
Proof.
  intros Hos Hn Hu. unfold decode_integer. cbn [octstr_len].
  rewrite (repr_seems_valid _ _ Hos), (repr_len _ _ Hos). bind_red. pose proof (zlen_nonneg post).
  rewrite (proj2 (Z.ltb_ge _ _)) by (rewrite !zlen_app, zlen_be_bytes; lia).
  pose proof (decode_loop_ok os _ (be_bytes (Z.to_nat n) u) pre post 0 Hos eq_refl (octets_be_bytes _ _) ltac:(lia)) as E.
  rewrite length_be_bytes, zlen_be_bytes, be_value_bytes, Z2Nat.id, Z.mod_small in E by lia.
  pose proof (pow256_7 n Hn). rewrite E by lia. by rewrite swrap_small by lia.
Qed.

Lemma copy_until_nul_ok (os : Octstr) (pre l post : list Z) (max : Z) :
  repr os (pre ++ l ++ 0 :: post) -> Forall (fun c => c <> 0) l -> zlen l <= max ->
  returns (copy_until_nul os (zlen pre) max) (fun '(r, data, pos) =>
    r = 0 /\ pos = zlen (pre ++ l ++ [0]) /\
    match data with None => l = [] | Some o => l <> [] /\ reprm o l end).
Proof.
  intros Hos Hl Hm. unfold copy_until_nul. pose proof (zlen_nonneg pre). pose proof (zlen_nonneg l).
  rewrite (octstr_search_char_ok os _ 0 _ Hos) by (done || lia). bind_red.
  rewrite search_char_at by done. rewrite (proj2 (Z.eqb_neq _ (-1))) by lia.
  rewrite (proj2 (Z.ltb_ge _ _)) by lia.
  assert (zlen pre + zlen l + 1 = zlen (pre ++ l ++ [0])) as <- by list_lia.
  destruct l as [|c l].
  - change (zlen []) with 0. rewrite (proj2 (Z.ltb_ge 0 _)) by lia. simpl. split_and!; [done|done|done].
  - rewrite (proj2 (Z.ltb_lt 0 _)) by list_lia. apply returns_bind, returns_bind.
    replace (zlen pre + zlen (c :: l) - zlen pre) with (zlen (c :: l)) by lia.
    eapply returns_mono; [apply (octstr_copy_ok os _ _ _ Hos); lia|]. intros o Ho. cbv beta in Ho.
    rewrite slice_mid in Ho. simpl. split_and!; [done|done|done|done].
Qed.

(** ** What the members stand for *)

Inductive sval :=
| SInt (i : Z)
| SOct (s : option (list Z)).

Inductive holdsv : pval -> sval -> Prop :=
| hv_int i : holdsv (PInt i) (SInt i)
| hv_null : holdsv (POct None) (SOct None)
| hv_oct o s : repr o s -> holdsv (POct (Some o)) (SOct (Some s)).

Definition no_nul (s : list Z) : Prop := Forall (fun c => c <> 0) s.

(** A value that its field can carry. *)
Definition mfits (f : mfield) (v : sval) : Prop :=
  match f, v with
  | INTEGER _ n, SInt i => 0 <= i < 256 ^ n
  | NULTERMINATED _ n, SOct (Some s) => no_nul s /\ zlen s < n
  | NULTERMINATED _ _, SOct None => True
  | OCTETS _ _, SOct _ => True
  | _, _ => False
  end.

(** The empty string: NULL and the string of no octets are the same on the wire. *)
Definition nul_received (s : option (list Z)) : option (list Z) :=
  match s with
  | Some [] => None
  | s => s
  end.

Definition mreceived (f : mfield) (v : sval) : sval :=
  match f, v with
  | NULTERMINATED _ _, SOct s => SOct (nul_received s)
  | OCTETS _ _, SOct s => SOct (Some (default [] s))
  | _, v => v
  end.

Definition mwire (f : mfield) (v : sval) : list Z :=
  match f, v with
  | INTEGER _ n, SInt i => be_bytes (Z.to_nat n) i
  | NULTERMINATED _ _, SOct s => default [] s ++ [0]
  | OCTETS _ _, SOct s => default [] s
  | _, _ => []
  end.

Lemma append_nulterminated_ok (os : Octstr) (s : list Z) (o : option Octstr) (t : option (list Z)) (n : Z) :
  reprm os s -> holdsv (POct o) (SOct t) -> zlen (default [] t) < n ->
  returns (append_nulterminated os o n) (fun os' => reprm os' (s ++ default [] t ++ [0])).
Proof.
  intros Hos Ho Hn. unfold append_nulterminated. apply returns_bind.
  assert (returns (match o with
       | None => Ok os
       | Some o =>
           k ← octstr_len (Some o);
           temp ← (if n <=? k then t ← octstr_copy (Some o) 0 (n - 1); Ok (Some t)
                   else octstr_duplicate (Some o));
           octstr_append os temp
       end) (fun os' => reprm os' (s ++ default [] t))) as P.
  { inversion Ho as [| |o' s' Hr]; subst; cbn [default from_option id] in *; [by rewrite app_nil_r|].
    cbn [octstr_len]. rewrite (repr_seems_valid _ _ Hr), (repr_len _ _ Hr). bind_red.
    rewrite (proj2 (Z.leb_gt n _)) by lia.
    apply returns_bind, (returns_mono _ _ _ (octstr_duplicate_ok o' s' Hr)). intros t' (o2 & -> & [H2 _]).
    by apply octstr_append_ok. }
  apply (returns_mono _ _ _ P). intros os1 H1.
  apply (returns_mono _ _ _ (octstr_append_char_ok os1 _ 0 H1 ltac:(unfold octet; lia))).
  intros os2. by rewrite <- app_assoc.
Qed.

Lemma pack_field_ok (os : Octstr) (s : list Z) (f : mfield) (p : pval) (v : sval) :
  reprm os s -> holdsv p v -> mfits f v -> mfield_ok f = true ->
  returns (pack_field os f p) (fun os' => reprm os' (s ++ mwire f v)).
Proof.
  intros Hos Hp Hf Hok. destruct f as [nm n|nm n|nm g]; destruct Hp as [i| |o t Ho]; try done;
    cbn [pack_field mwire mfits mfield_ok] in *.
  - pose proof (pow256_7 n ltac:(lia)). apply append_encoded_ok; [done|lia|lia].
  - apply (append_nulterminated_ok os s None None n Hos); [constructor|]. change (zlen (default [] None)) with 0. lia.
  - apply (append_nulterminated_ok os s (Some o) (Some t) n Hos); [by constructor|]. simpl. lia.
  - simpl. by rewrite app_nil_r.
  - by apply octstr_append_ok.
Qed.

Lemma pack_fields_ok (fields : list mfield) : forall (os : Octstr) (s : list Z) (ps : list pval) (vs : list sval),
  reprm os s -> Forall2 holdsv ps vs -> Forall2 mfits fields vs -> forallb mfield_ok fields = true ->
  returns (pack_fields os fields ps) (fun os' => reprm os' (s ++ concat (zip_with mwire fields vs))).
Proof.
  induction fields as [|f fields IH]; intros os s ps vs Hos Hp Hf Hok.
  { inversion Hf; subst. inversion Hp; subst. simpl. by rewrite app_nil_r. }
  inversion Hf as [|? v ? vs' Hfv Hf']; subst. inversion Hp as [|p ? ps' ? Hpv Hp']; subst.
  simpl in Hok. apply andb_prop in Hok as [Hok1 Hok]. cbn [pack_fields zip_with concat].
  apply returns_bind, (returns_mono _ _ _ (pack_field_ok os s f p v Hos Hpv Hfv Hok1)). intros o Ho.
  apply (returns_mono _ _ _ (IH o _ ps' vs' Ho Hp' Hf' Hok)). intros o'. by rewrite <- app_assoc.
Qed.

(** The octets that come next are as many as an earlier field says. *)
Definition given (env : list (string * pval)) (f : mfield) (v : sval) : Prop :=
  match f, v with
  | OCTETS _ g, SOct s => int_in env g = zlen (default [] s)
  | _, _ => True
  end.

Lemma unpack_field_ok (os : Octstr) (pre post : list Z) (f : mfield) (v : sval) (env : list (string * pval)) :
  repr os (pre ++ mwire f v ++ post) -> mfits f v -> mfield_ok f = true -> given env f v ->
  returns (unpack_field os (zlen pre) f env) (fun r => exists p,
    r = Some (p, zlen (pre ++ mwire f v)) /\ holdsv p (mreceived f v)).
Proof.
  intros Hos Hf Hok Hg. destruct f as [nm n|nm n|nm g]; destruct v as [i|t]; try done;
    cbn [unpack_field mwire mfits mfield_ok mreceived given] in *.
  - rewrite (decode_integer_ok os pre post i n Hos ltac:(lia) Hf). bind_red.
    rewrite (proj2 (Z.eqb_neq i (-1))) by lia. simpl. exists (PInt i).
    split; [|constructor]. rewrite zlen_app, zlen_be_bytes. do 3 f_equal. lia.
  - rewrite <- app_assoc in Hos. cbn [app] in Hos. apply returns_bind.
    eapply returns_mono; [apply (copy_until_nul_ok os pre (default [] t) post n Hos)|].
    + destruct t as [t|]; [by destruct Hf|constructor].
    + destruct t as [t|]; [simpl; lia|]. change (zlen (default [] None)) with 0. lia.
    + intros [[r data] pos] (_ & -> & Hd). simpl. exists (POct data). split; [done|].
      destruct data as [o|].
      * destruct Hd as [Hne [Ho _]]. destruct t as [[|c t]|]; try done. by constructor.
      * destruct t as [[|c t]|]; try done; constructor.
  - rewrite Hg. apply returns_bind. pose proof (zlen_nonneg pre). pose proof (zlen_nonneg (default [] t)).
    eapply returns_mono; [apply (octstr_copy_ok os _ _ _ Hos); lia|]. intros o Ho. cbv beta in Ho.
    rewrite slice_mid in Ho. cbn [octstr_len].
    rewrite (repr_seems_valid _ _ (proj1 Ho)), (reprm_len _ _ Ho). bind_red. rewrite Z.eqb_refl. cbn [returns].
    exists (POct (Some o)). split; [by rewrite zlen_app|constructor; apply Ho].
Qed.

(** ** All the fields of a PDU *)

(** The values with the length field set. *)
Fixpoint fixed (fields : list mfield) (vs : list sval) : list sval :=
  match fields, vs with
  | f :: fields', v :: vs' =>
      match fields', vs' with
      | OCTETS _ _ :: _, SOct s :: _ => SInt (zlen (default [] s)) :: vs'
      | _, _ => v :: fixed fields' vs'
      end
  | _, _ => vs
  end.

Lemma fixed_app (pre fields : list mfield) : forall (vpre vs : list sval),
  no_octets pre = true -> length vpre = length pre ->
  (match fields with OCTETS _ _ :: _ => false | _ => true end) = true ->
  fixed (pre ++ fields) (vpre ++ vs) = vpre ++ fixed fields vs.
Proof.
  induction pre as [|f pre IH]; intros [|v vpre] vs Hn Hl Hf; try done.
  simpl in Hn. apply andb_prop in Hn as [_ Hn]. injection Hl as Hl.
  specialize (IH vpre vs Hn Hl Hf). cbn [app fixed]. rewrite IH.
  destruct pre as [|f' pre]; [|destruct f'; try done].
  destruct vpre; [|done]. cbn [app]. by destruct fields as [|[] fields].
Qed.

Lemma fixed_none (fields : list mfield) : forall vs,
  no_octets fields = true -> fixed fields vs = vs.
Proof.
  induction fields as [|f fields IH]; intros [|v vs] Hn; try done.
  simpl in Hn. apply andb_prop in Hn as [_ Hn]. cbn [fixed]. rewrite IH by done.
  destruct fields as [|[] fields]; try done.
Qed.

Lemma length_fixed (fields : list mfield) : forall vs, length (fixed fields vs) = length vs.
Proof.
  induction fields as [|f fields IH]; intros [|v vs]; try done. cbn [fixed].
  destruct fields as [|[] fields], vs as [|[] vs]; cbn [length]; rewrite ?IH; done.
Qed.

Lemma fixed_split (n : nat) (vs : list sval) : (n + 2 <= length vs)%nat ->
  exists vpre v w vpost, vs = vpre ++ v :: w :: vpost /\ length vpre = n.
Proof.
  intros Hn. exists (take n vs).
  destruct (drop n vs) as [|v [|w vpost]] eqn:E; apply (f_equal length) in E as E';
    rewrite length_drop in E'; simpl in E'; try lia.
  exists v, w, vpost. rewrite <- E, take_drop. split; [done|]. rewrite length_take. lia.
Qed.

Lemma fix_lengths_skip (all pre rest : list mfield) (ps : list pval) : forall i,
  no_octets pre = true ->
  fix_lengths all (pre ++ rest) i ps = fix_lengths all rest (i + length pre) ps.
Proof.
  induction pre as [|f pre IH]; intros i Hn; [by rewrite Nat.add_0_r|].
  simpl in Hn. apply andb_prop in Hn as [Hf Hn]. cbn [app fix_lengths length].
  destruct f; try done; rewrite IH by done; f_equal; lia.
Qed.

(** The index of the field after [pre]. *)
Lemma field_index_mid (pre post : list mfield) (f : mfield) :
  mf_name f ∉ mf_name <$> pre -> field_index (pre ++ f :: post) (mf_name f) = Some (length pre).
Proof.
  intros Hn. unfold field_index. rewrite list_find_app_r.
  - cbn. by rewrite decide_True by done.
  - apply list_find_None, Forall_forall. intros f' Hf' E. apply Hn. rewrite <- E.
    apply list_elem_of_fmap. exists f'. split; [done|by apply list_elem_of_In].
Qed.

Lemma fix_lengths_ok (fields : list mfield) (ps : list pval) (vs : list sval) :
  giver_ok [] fields = true -> Forall2 holdsv ps vs -> Forall2 mfits fields (fixed fields vs) ->
  returns (fix_lengths fields fields 0 ps) (fun ps' => Forall2 holdsv ps' (fixed fields vs)).
Proof.
  intros Hg Hp Hf. destruct (giver_ok_cases [] fields Hg) as [Hn|(pre & g & n & post & -> & H1 & H2 & H3 & _)].
  - rewrite (fixed_none fields vs Hn) in *. pose proof (fix_lengths_skip fields fields [] ps 0 Hn) as E.
    rewrite app_nil_r in E. by rewrite E.
  - assert (exists vpre v w vpost, vs = vpre ++ v :: w :: vpost /\ length vpre = length pre)
      as (vpre & v & w & vpost & -> & Hl).
    { apply fixed_split. pose proof (Forall2_length Hf) as L. rewrite length_fixed, length_app in L. simpl in L. lia. }
    rewrite fixed_app in * by done. cbn [fixed] in *.
    apply Forall2_app_inv in Hf as [_ Hf]; [|by rewrite Hl].
    assert (exists t, w = SOct t) as [t ->].
    { destruct w as [i|t]; [|by exists t]. inversion Hf as [|? ? ? ? _ Hf']; subst.
      destruct post as [|[] ?]; try discriminate H2; by inversion Hf'. }
    apply Forall2_app_inv_r in Hp as (ppre & prest & Hppre & Hprest & ->).
    inversion Hprest as [|p ? pr ? Hpv Hpr]; subst. inversion Hpr as [|q ? pq ? Hqv Hq]; subst.
    pose proof (Forall2_length Hppre) as Lp.
    rewrite fix_lengths_skip by done. cbn [fix_lengths]. rewrite Nat.add_0_l.
    rewrite (lookup_app_r ppre) by lia.
    replace (S (length pre) - length ppre)%nat with 1%nat by lia. cbn [lookup list_lookup].
    inversion Hqv as [|E1|o s' Ho E1]; subst;
      rewrite (field_index_mid pre _ (INTEGER g 1)) by done.
    all: cbn [octstr_len].
    + bind_red. rewrite <- (app_nil_r post), fix_lengths_skip by done. cbn [fix_lengths returns].
      rewrite insert_app_r_alt by lia. replace (length pre - length ppre)%nat with 0%nat by lia.
      apply Forall2_app; [done|]. constructor; [constructor|done].
    + rewrite (repr_seems_valid _ _ Ho), (repr_len _ _ Ho). bind_red.
      rewrite <- (app_nil_r post), fix_lengths_skip by done. cbn [fix_lengths returns].
      rewrite insert_app_r_alt by lia. replace (length pre - length ppre)%nat with 0%nat by lia.
      apply Forall2_app; [done|]. constructor; [constructor|done].
Qed.

Fixpoint all_given (env : list (string * pval)) (fields : list mfield) (vs : list sval) : Prop :=
  match fields, vs with
  | f :: fields, v :: vs =>
      given env f v /\
      forall p, holdsv p (mreceived f v) -> all_given ((mf_name f, p) :: env) fields vs
  | _, _ => True
  end.

Lemma all_given_skip (pre fields : list mfield) (vs : list sval) : forall (env : list (string * pval)) (vpre : list sval),
  no_octets pre = true -> length vpre = length pre ->
  (forall env, all_given env fields vs) -> all_given env (pre ++ fields) (vpre ++ vs).
Proof.
  induction pre as [|f pre IH]; intros env [|v vpre] Hn Hl H; try done.
  simpl in Hn. apply andb_prop in Hn as [Hf Hn]. injection Hl as Hl. split; [by destruct f|].
  intros p _. by apply IH.
Qed.

Lemma all_given_none (fields : list mfield) (vs : list sval) (env : list (string * pval)) :
  no_octets fields = true -> all_given env fields vs.
Proof.
  revert vs env. induction fields as [|f fields IH]; intros [|v vs] env Hn; try done.
  simpl in Hn. apply andb_prop in Hn as [Hf Hn]. split; [by destruct f|]. intros p _. by apply IH.
Qed.

Lemma fixed_given (fields : list mfield) (vs : list sval) :
  giver_ok [] fields = true -> Forall2 mfits fields (fixed fields vs) -> all_given [] fields (fixed fields vs).
Proof.
  intros Hg Hf. destruct (giver_ok_cases [] fields Hg) as [Hn|(pre & g & n & post & -> & H1 & H2 & H3 & _)];
    [by apply all_given_none|].
  assert (exists vpre v w vpost, vs = vpre ++ v :: w :: vpost /\ length vpre = length pre)
    as (vpre & v & w & vpost & -> & Hl).
  { apply fixed_split. pose proof (Forall2_length Hf) as L. rewrite length_fixed, length_app in L. simpl in L. lia. }
  rewrite fixed_app in * by done. apply all_given_skip; [done..|]. intros env.
  apply Forall2_app_inv in Hf as [_ Hf]; [|by rewrite Hl]. cbn [fixed] in *.
  assert (exists t, w = SOct t) as [t ->].
  { destruct w as [i|t]; [|by exists t]. inversion Hf as [|? ? ? ? _ Hf']; subst.
    destruct post as [|[] ?]; try discriminate H2; by inversion Hf'. }
  split; [done|]. intros p Hp. cbn [mreceived] in Hp. inversion Hp; subst. split.
  - cbn [given]. unfold int_in. cbn. by rewrite decide_True.
  - intros q _. by apply all_given_none.
Qed.

Lemma unpack_fields_ok (os : Octstr) (post : list Z) (fields : list mfield) :
  forall (pre : list Z) (vs : list sval) (env : list (string * pval)),
  repr os (pre ++ concat (zip_with mwire fields vs) ++ post) -> Forall2 mfits fields vs ->
  forallb mfield_ok fields = true -> all_given env fields vs ->
  returns (unpack_fields os (zlen pre) fields env) (fun r => exists ps,
    r = Some (ps, zlen (pre ++ concat (zip_with mwire fields vs))) /\
    Forall2 holdsv ps (zip_with mreceived fields vs)).
Proof.
  induction fields as [|f fields IH]; intros pre vs env Hos Hf Hok Hg.
  { inversion Hf; subst. exists []. cbn. rewrite app_nil_r. split; [done|constructor]. }
  inversion Hf as [|? v ? vs' Hfv Hf']; subst. simpl in Hok. apply andb_prop in Hok as [Hok1 Hok].
  destruct Hg as [Hg1 Hg]. cbn [unpack_fields zip_with concat] in *. rewrite <- app_assoc in Hos.
  apply returns_bind, (returns_mono _ _ _ (unpack_field_ok os pre _ f v env Hos Hfv Hok1 Hg1)).
  intros r (p & -> & Hp). apply returns_bind.
  eapply returns_mono; [apply (IH (pre ++ mwire f v) vs'); [by rewrite <- app_assoc|done|done|by apply Hg]|].
  intros r (ps & -> & Hps). simpl. exists (p :: ps). rewrite <- app_assoc. split; [done|by constructor].
Qed.

(** ** Optional parameters *)

Definition ofits (f : ofield) (v : sval) : Prop :=
  match f, v with
  | TLV_INTEGER _ n, SInt i => i < 256 ^ n
  | TLV_NULTERMINATED _ n, SOct (Some s) => no_nul s /\ zlen s < n
  | TLV_NULTERMINATED _ _, SOct None => True
  | TLV_OCTETS _ _ _, SOct (Some s) => zlen s < 65536
  | TLV_OCTETS _ _ _, SOct None => True
  | _, _ => False
  end.

(** What a parameter puts on the wire, with its tag and its length; [None] if
    it is not sent. *)
Definition ovalue (f : ofield) (v : sval) : option (list Z) :=
  match f, v with
  | TLV_INTEGER _ n, SInt i => if 0 <=? i then Some (be_bytes (Z.to_nat n) i) else None
  | TLV_NULTERMINATED _ _, SOct (Some s) => Some (s ++ [0])
  | TLV_OCTETS _ min_len max_len, SOct (Some s) =>
      if (max_len <? zlen s) || (zlen s <? min_len) then None else Some s
  | _, _ => None
  end.

Definition owire (f : ofield) (v : sval) : list Z :=
  match ovalue f v with
  | None => []
  | Some l => be_bytes 2 (of_tag f) ++ be_bytes 2 (zlen l) ++ l
  end.

(** What arrives: a parameter that is not sent is the one of a new PDU. *)
Definition oreceived (f : ofield) (v : sval) : sval :=
  match f, v with
  | TLV_INTEGER _ _, SInt i => if 0 <=? i then SInt i else SInt (-1)
  | TLV_NULTERMINATED _ _, SOct s => SOct (nul_received s)
  | TLV_OCTETS _ _ _, SOct s => SOct (match ovalue f v with Some _ => s | None => None end)
  | _, v => v
  end.

Lemma TL_ok (os : Octstr) (s : list Z) (tag n : Z) :
  reprm os s -> 0 <= tag < 65536 -> 0 <= n < 65536 ->
  returns (TL os tag n) (fun o => reprm o (s ++ be_bytes 2 tag ++ be_bytes 2 n)).
Proof.
  intros Hos Ht Hn. unfold TL.
  apply returns_bind, (returns_mono _ _ _ (append_encoded_ok os s tag 2 Hos ltac:(lia) ltac:(lia))). intros o Ho.
  apply (returns_mono _ _ _ (append_encoded_ok o _ n 2 Ho ltac:(lia) ltac:(lia))). intros o'. by rewrite <- app_assoc.
Qed.

Lemma pack_opt_ok (os : Octstr) (s : list Z) (f : ofield) (p : pval) (v : sval) :
  reprm os s -> holdsv p v -> ofits f v -> ofield_ok f = true -> 0 <= of_tag f < 65536 ->
  returns (pack_opt os f p) (fun os' => reprm os' (s ++ owire f v)).
Proof.
  intros Hos Hp Hf Hok Ht. unfold owire.
  destruct f as [nm n|nm n|nm mn mx]; destruct Hp as [i| |o t Ho]; try done;
    cbn [pack_opt ovalue ofits ofield_ok] in *; try (by rewrite app_nil_r).
  - destruct (Z.leb_spec 0 i); [|by rewrite app_nil_r]. pose proof (pow256_7 n ltac:(lia)).
    apply returns_bind, (returns_mono _ _ _ (TL_ok os s _ n Hos Ht ltac:(lia))). intros o1 H1.
    rewrite zlen_be_bytes, Z2Nat.id by lia. rewrite !app_assoc, <- (app_assoc s).
    apply append_encoded_ok; [done|lia|lia].
  - cbn [octstr_len]. rewrite (repr_seems_valid _ _ Ho), (repr_len _ _ Ho). bind_red.
    destruct Hf as [Hn Hl]. rewrite (proj2 (Z.ltb_ge n _)) by lia. pose proof (zlen_nonneg t).
    apply returns_bind, (returns_mono _ _ _ (TL_ok os s _ (zlen t + 1) Hos Ht ltac:(lia))). intros o1 H1.
    replace (zlen (t ++ [0])) with (zlen t + 1) by list_lia. rewrite !app_assoc, <- (app_assoc s), <- app_assoc.
    apply (append_nulterminated_ok o1 _ (Some o) (Some t) n H1); [by constructor|simpl; lia].
  - cbn [octstr_len]. rewrite (repr_seems_valid _ _ Ho), (repr_len _ _ Ho). bind_red.
    destruct ((mx <? zlen t) || (zlen t <? mn)); [by rewrite app_nil_r|]. pose proof (zlen_nonneg t).
    apply returns_bind, (returns_mono _ _ _ (TL_ok os s _ (zlen t) Hos Ht ltac:(lia))). intros o1 H1.
    rewrite !app_assoc, <- (app_assoc s). by apply octstr_append_ok.
Qed.

Definition tags_ok (opts : list ofield) : Prop := Forall (fun f => 0 <= of_tag f < 65536) opts.

Lemma pack_opts_ok (opts : list ofield) : forall (os : Octstr) (s : list Z) (ps : list pval) (vs : list sval),
  reprm os s -> Forall2 holdsv ps vs -> Forall2 ofits opts vs -> forallb ofield_ok opts = true -> tags_ok opts ->
  returns (pack_opts os opts ps) (fun os' => reprm os' (s ++ concat (zip_with owire opts vs))).
Proof.
  induction opts as [|f opts IH]; intros os s ps vs Hos Hp Hf Hok Ht.
  { inversion Hf; subst. inversion Hp; subst. simpl. by rewrite app_nil_r. }
  inversion Hf as [|? v ? vs' Hfv Hf']; subst. inversion Hp as [|p ? ps' ? Hpv Hp']; subst.
  simpl in Hok. apply andb_prop in Hok as [Hok1 Hok]. apply Forall_cons_iff in Ht as [Ht1 Ht].
  cbn [pack_opts zip_with concat].
  apply returns_bind, (returns_mono _ _ _ (pack_opt_ok os s f p v Hos Hpv Hfv Hok1 Ht1)). intros o Ho.
  apply (returns_mono _ _ _ (IH o _ ps' vs' Ho Hp' Hf' Hok Ht)). intros o'. by rewrite <- app_assoc.
Qed.

(** ** The configuration *)

Definition tlv_ok (t : smpp_tlv) : Prop := exists s, repr (tlv_name t) s.

Definition found_ok (r : option smpp_tlv) : Prop :=
  match r with None => True | Some t => tlv_ok t end.

Definition tlv_dict_ok (d : Dict (Dict smpp_tlv)) : Prop :=
  exists m, dict_holds d m /\
    forall k d', m !! k = Some d' -> exists m', dict_holds d' m' /\ forall k t, m' !! k = Some t -> tlv_ok t.

Definition id_ok (smsc_id : option Octstr) : Prop :=
  match smsc_id with
  | None => True
  | Some o => exists s, repr o s
  end.

Definition config_ok (cfg : option tlv_config) (smsc_id : option Octstr) : Prop :=
  match cfg with
  | None => True
  | Some c => tlv_dict_ok (tlvs_by_name c) /\ tlv_dict_ok (tlvs_by_tag c)
  end /\ id_ok smsc_id.

(** ["%ld"] gives the decimal digits. *)
Lemma format_ld_ok {pf : Printf} (n : Z) : returns (format_ld n) (fun o => exists s, reprm o s).
Proof.
  pose proof (octstr_format_ok [mkSegment [] (mkDirective false false 0 None 108 100) (AInt n)] []) as P.
  eapply returns_mono; [apply P|].
  - apply Forall_cons_2; [|apply Forall_nil_2]. split_and!; [apply Forall_nil_2| |done|by eexists].
    constructor; simpl; [unfold LONG_MAX; lia|done|set_solver|set_solver].
  - apply Forall_nil_2.
  - intros o Ho. eexists. exact Ho.
Qed.

Lemma tlv_in_ok (d : Dict (Dict smpp_tlv)) (id key : Octstr) (i k : list Z) :
  tlv_dict_ok d -> repr id i -> repr key k -> returns (tlv_in d id key) found_ok.
Proof.
  intros (m & [B HB] & Hm) Hi Hk. unfold tlv_in. rewrite (dict_get_ok d m B id i HB Hi). bind_red.
  destruct (m !! i) as [d'|] eqn:E; [|done]. destruct (Hm i d' E) as (m' & [B' HB'] & Hm').
  rewrite (dict_get_ok d' m' B' key k HB' Hk). cbn [returns]. destruct (m' !! k) eqn:E'; [|done]. by apply (Hm' k).
Qed.

Lemma tlv_lookup_ok (smsc_id : option Octstr) (d : Dict (Dict smpp_tlv)) (key : Octstr) (k : list Z) :
  id_ok smsc_id -> tlv_dict_ok d -> repr key k -> returns (tlv_lookup smsc_id d key) found_ok.
Proof.
  intros Hid Hd Hk. unfold tlv_lookup. apply returns_bind.
  assert (returns (match smsc_id with None => Ok None | Some id => tlv_in d id key end) found_ok) as P.
  { destruct smsc_id as [id|]; [|done]. destruct Hid as [i Hi]. by apply (tlv_in_ok d id key i k). }
  apply (returns_mono _ _ _ P). intros [t|] Ht; [done|].
  apply returns_bind, (returns_mono _ _ _ (octstr_create_ok DEFAULT_SMSC_ID ltac:(unfold DEFAULT_SMSC_ID; octets_tac))).
  intros def [Hdef _]. by apply (tlv_in_ok d def key DEFAULT_SMSC_ID k).
Qed.

Lemma get_by_tag_ok {pf : Printf} (cfg : option tlv_config) (smsc_id : option Octstr) (tag : Z) :
  config_ok cfg smsc_id -> returns (smpp_tlv_get_by_tag cfg smsc_id tag) found_ok.
Proof.
  intros [Hc Hid]. unfold smpp_tlv_get_by_tag. destruct cfg as [c|]; [|done].
  apply returns_bind, (returns_mono _ _ _ (format_ld_ok tag)). intros o (s & Ho & _).
  apply (tlv_lookup_ok _ _ _ s); [done|by destruct Hc|done].
Qed.

Section options.
Context {pf : Printf}.

Definition tlvs_ok (d : Dict Octstr) : Prop := exists m, dict_holds d m.

Lemma put_tlv_ok (d : Dict Octstr) (t : option smpp_tlv) (val : option Octstr) :
  tlvs_ok d -> found_ok t -> returns (put_tlv d t val) tlvs_ok.
Proof.
  intros (m & B & HB) Ht. unfold put_tlv. destruct t as [t|]; [|cbn; by exists m, B]. destruct Ht as [s Hs].
  apply returns_bind. destruct val as [v|].
  - apply (returns_mono _ _ _ (dict_put_value_ok d m B _ _ v HB Hs)). intros [d' ds] (H & _). cbn. by eexists.
  - apply (returns_mono _ _ _ (dict_put_null_ok d m B _ _ HB Hs)). intros [d' ds] (H & _). cbn. by eexists.
Qed.

Definition sinit (f : ofield) : sval :=
  match f with TLV_INTEGER _ _ => SInt (-1) | _ => SOct None end.

Lemma oreceived_absent (f : ofield) (v : sval) : ofits f v -> ovalue f v = None -> oreceived f v = sinit f.
Proof.
  destruct f, v as [i|[s|]]; try done; cbn [ovalue oreceived sinit].
  - by destruct (0 <=? i).
  - by intros _ ->.
Qed.

Lemma unpack_opt_ok (os : Octstr) (pre l post : list Z) (f : ofield) (v : sval) (p : pval)
    (t : option smpp_tlv) (d : Dict Octstr) :
  repr os (pre ++ l ++ post) -> ofits f v -> ofield_ok f = true -> ovalue f v = Some l ->
  found_ok t -> tlvs_ok d ->
  returns (unpack_opt os (zlen (pre ++ l ++ post)) (zlen pre) (zlen l) f p t d) (fun r => exists p' d',
    r = Some (p', zlen (pre ++ l), d') /\ holdsv p' (oreceived f v) /\ tlvs_ok d').
Proof.
  intros Hos Hf Hok Hl Ht Hd. pose proof (zlen_nonneg pre). pose proof (zlen_nonneg post).
  assert (zlen (pre ++ l ++ post) <? zlen pre + zlen l = false) as Elen.
  { apply Z.ltb_ge. rewrite !zlen_app. lia. }
  rewrite (zlen_app pre l). destruct f as [nm n|nm n|nm mn mx]; destruct v as [i|[s|]]; try done;
    cbn [unpack_opt ovalue ofits ofield_ok oreceived] in *.
  - destruct (Z.leb_spec 0 i) as [Hi|]; [|done]. injection Hl as <-.
    rewrite zlen_be_bytes, Z2Nat.id by lia. rewrite (proj2 (Z.ltb_ge n n)) by lia.
    rewrite (decode_integer_ok os pre post i n Hos ltac:(lia) ltac:(lia)). bind_red.
    rewrite (proj2 (Z.eqb_neq i (-1))) by lia. apply returns_bind.
    assert (returns (match t with None => Ok d | Some _ => val ← format_ld i; put_tlv d t (Some val) end) tlvs_ok) as P.
    { destruct t as [t|]; [|done]. apply returns_bind, (returns_mono _ _ _ (format_ld_ok i)). intros o _.
      by apply put_tlv_ok. }
    apply (returns_mono _ _ _ P). intros d' Hd'. cbn [returns]. exists (PInt i), d'. split_and!; [done|constructor|done].
  - injection Hl as <-. destruct Hf as [Hn Hs]. rewrite Elen, orb_false_r.
    assert (zlen (s ++ [0]) = zlen s + 1) as Ez by list_lia. rewrite Ez, (proj2 (Z.ltb_ge n _)) by lia.
    rewrite <- app_assoc in Hos. cbn [app] in Hos. apply returns_bind.
    eapply returns_mono; [apply (copy_until_nul_ok os pre s post _ Hos Hn); lia|].
    intros [[r data] pos] (_ & -> & Hdata). apply returns_bind.
    assert (returns (octstr_duplicate data) (fun _ => True)) as P.
    { destruct data as [o|]; [|done]. destruct Hdata as [_ [Ho _]].
      by apply (returns_mono _ _ _ (octstr_duplicate_ok o s Ho)). }
    apply (returns_mono _ _ _ P). intros val _. apply returns_bind, (returns_mono _ _ _ (put_tlv_ok d t val Hd Ht)).
    intros d' Hd'. cbn [returns]. exists (POct data), d'. split_and!; [do 3 f_equal; list_lia| |done].
    destruct data as [o|].
    + destruct Hdata as [Hne [Ho _]]. destruct s as [|c s]; [done|]. by constructor.
    + subst s. constructor.
  - rewrite (orb_comm (mx <? zlen s)) in Hl. destruct ((zlen s <? mn) || (mx <? zlen s)) eqn:Eb; [done|].
    injection Hl as <-. rewrite Eb, Elen. cbn [orb]. pose proof (zlen_nonneg s).
    apply returns_bind. eapply returns_mono; [apply (octstr_copy_ok os _ _ _ Hos); lia|]. intros o Ho. cbv beta in Ho.
    rewrite slice_mid in Ho. apply returns_bind, (returns_mono _ _ _ (octstr_duplicate_ok o s (proj1 Ho))).
    intros val _. apply returns_bind, (returns_mono _ _ _ (put_tlv_ok d t val Hd Ht)). intros d' Hd'. cbn [returns].
    exists (POct (Some o)), d'. split_and!; [done| |done].
    rewrite (orb_comm (mx <? zlen s)), Eb. constructor. apply Ho.
Qed.
End options.

Lemma owire_length (f : ofield) (v : sval) (l : list Z) :
  ovalue f v = Some l -> (4 <= length (owire f v))%nat.
Proof. intros E. unfold owire. rewrite E, !length_app, !length_be_bytes. lia. Qed.

(** The tag of a parameter finds the parameter. *)
Lemma find_tag (done_ rest : list ofield) (f : ofield) :
  NoDup (of_tag <$> (done_ ++ f :: rest)) ->
  list_find (fun g => of_tag g = of_tag f) (done_ ++ f :: rest) = Some (length done_, f).
Proof.
  rewrite fmap_app. intros (_ & Hn & _)%list.NoDup_app. rewrite list_find_app_r.
  - cbn. rewrite decide_True by done. done.
  - apply list_find_None, Forall_forall. intros g Hg%list_elem_of_In E. apply (Hn (of_tag g)).
    + by apply list_elem_of_fmap_2.
    + rewrite E. simpl. set_solver.
Qed.

Lemma holdsv_init (opts : list ofield) : Forall2 holdsv (ofield_init <$> opts) (sinit <$> opts).
Proof. induction opts as [|[] opts IH]; csimpl; constructor; try done; constructor. Qed.

Section unpack_loop.
Context {pf : Printf}.
Variables (cfg : option tlv_config) (smsc_id : option Octstr).
Hypothesis Hcfg : config_ok cfg smsc_id.
Variables (os : Octstr) (s : list Z) (opts : list ofield).
Hypothesis Hos : repr os s.
Hypothesis Hopts : forallb ofield_ok opts = true.
Hypothesis Htags : tags_ok opts.
Hypothesis Hnodup : NoDup (of_tag <$> opts).

(** One parameter that is sent. *)
Lemma unpack_opts_step (fuel : nat) (pre post l : list Z) (done_ rest : list ofield) (f : ofield)
    (v : sval) (vals : list pval) (d : Dict Octstr) (Q : option (list pval * Dict Octstr) -> Prop) :
  opts = done_ ++ f :: rest -> (length done_ < length vals)%nat -> ofits f v -> ovalue f v = Some l ->
  zlen l < 65536 -> s = pre ++ owire f v ++ post -> tlvs_ok d ->
  (forall p d', holdsv p (oreceived f v) -> tlvs_ok d' ->
     returns (unpack_opts cfg smsc_id os (zlen s) (zlen (pre ++ owire f v)) opts (<[length done_ := p]> vals) d' fuel) Q) ->
  returns (unpack_opts cfg smsc_id os (zlen s) (zlen pre) opts vals d (S fuel)) Q.
Proof.
  intros Eo Hlen Hf Hl Hl2 Es Hd HQ. cbn [unpack_opts]. unfold owire in Es, HQ. rewrite Hl in Es, HQ.
  pose proof (zlen_nonneg l). pose proof (zlen_nonneg post).
  assert (In f opts) as Hin by (rewrite Eo; apply in_elt).
  assert (0 <= of_tag f < 65536) as Ht by (unfold tags_ok in Htags; rewrite Forall_forall in Htags; by apply Htags).
  assert (ofield_ok f = true) as Hok by (rewrite forallb_forall in Hopts; by apply Hopts).
  rewrite (proj2 (Z.leb_le _ _)) by (rewrite Es, !zlen_app, !zlen_be_bytes; lia).
  pose proof Hos as Hos'. rewrite Es, <- !app_assoc in Hos'.
  rewrite (decode_integer_ok os pre _ (of_tag f) 2 Hos' ltac:(lia) ltac:(lia)). bind_red.
  assert (zlen pre + 2 = zlen (pre ++ be_bytes 2 (of_tag f))) as -> by (rewrite zlen_app, zlen_be_bytes; lia).
  rewrite app_assoc in Hos'. rewrite (decode_integer_ok os _ _ (zlen l) 2 Hos' ltac:(lia) ltac:(lia)). bind_red.
  apply returns_bind, (returns_mono _ _ _ (get_by_tag_ok cfg smsc_id (of_tag f) Hcfg)). intros t Ht'.
  rewrite Eo, (find_tag done_ rest f) by (by rewrite <- Eo).
  destruct (lookup_lt_is_Some_2 vals (length done_) Hlen) as [p Hp]. rewrite Hp. rewrite <- Eo.
  assert (zlen pre + 4 = zlen ((pre ++ be_bytes 2 (of_tag f)) ++ be_bytes 2 (zlen l))) as ->
    by (rewrite !zlen_app, !zlen_be_bytes; lia).
  rewrite app_assoc in Hos'. apply returns_bind.
  pose proof (unpack_opt_ok os _ l post f v p t d Hos' Hf Hok Hl Ht' Hd) as P.
  assert (zlen (((pre ++ be_bytes 2 (of_tag f)) ++ be_bytes 2 (zlen l)) ++ l ++ post) = zlen s) as Ez
    by (rewrite Es, !zlen_app; lia).
  rewrite Ez in P. apply (returns_mono _ _ _ P). intros r (p' & d' & -> & Hp' & Hd').
  rewrite <- !app_assoc. by apply HQ.
Qed.

Lemma unpack_opts_ok (rest : list ofield) : forall (done_ : list ofield) (vdone vrest : list sval) (pre : list Z)
    (vals : list pval) (d : Dict Octstr) (fuel : nat),
  opts = done_ ++ rest -> length vdone = length done_ -> Forall2 ofits rest vrest ->
  Forall2 (fun f v => forall l, ovalue f v = Some l -> zlen l < 65536) rest vrest ->
  s = pre ++ concat (zip_with owire rest vrest) ->
  Forall2 holdsv vals (vdone ++ (sinit <$> rest)) -> tlvs_ok d ->
  (length (concat (zip_with owire rest vrest)) < fuel)%nat ->
  returns (unpack_opts cfg smsc_id os (zlen s) (zlen pre) opts vals d fuel) (fun r => exists vals' d',
    r = Some (vals', d') /\ Forall2 holdsv vals' (vdone ++ zip_with oreceived rest vrest) /\ tlvs_ok d').
Proof.
  induction rest as [|f rest IH]; intros done_ vdone vrest pre vals d fuel Eo Hvd Hf Hsz Es Hv Hd Hfuel.
  { inversion Hf; subst vrest. destruct fuel as [|fuel]; [simpl in Hfuel; lia|]. cbn [unpack_opts zip_with concat] in *.
    rewrite app_nil_r in Es. rewrite (proj2 (Z.leb_gt _ _)) by (rewrite Es; lia). cbn [returns]. by exists vals, d. }
  apply Forall2_cons_inv_l in Hf as (v & vs & Hfv & Hf' & ->). apply Forall2_cons_1 in Hsz as [Hszv Hsz'].
  cbn [zip_with concat] in *. pose proof (Forall2_length Hv) as Lv. rewrite length_app, length_fmap in Lv. cbn [length] in Lv.
  destruct (ovalue f v) as [l|] eqn:El.
  - destruct fuel as [|fuel]; [lia|].
    eapply (unpack_opts_step fuel pre (concat (zip_with owire rest vs)) l done_ rest f v); [done|lia|done|done|by apply Hszv|done|done|].
    intros p d' Hp Hd'.
    eapply returns_mono; [apply (IH (done_ ++ [f]) (vdone ++ [oreceived f v]) vs (pre ++ owire f v))|].
    + by rewrite <- app_assoc.
    + rewrite !length_app. simpl. lia.
    + done.
    + done.
    + by rewrite <- app_assoc.
    + rewrite <- app_assoc. cbn [app]. apply Forall2_app_inv_r in Hv as (p1 & p2 & H1 & H2 & ->).
      pose proof (Forall2_length H1) as L1. apply Forall2_cons_inv_r in H2 as (p0 & p2' & _ & H2' & ->).
      rewrite insert_app_r_alt by lia. replace (length done_ - length p1)%nat with 0%nat by lia.
      apply Forall2_app; [done|]. by constructor.
    + done.
    + rewrite length_app in Hfuel. pose proof (owire_length f v l El). lia.
    + intros r (vals' & d2 & -> & Hvals & Hd2). exists vals', d2. split_and!; [done| |done].
      rewrite <- app_assoc in Hvals. exact Hvals.
  - assert (owire f v = []) as Ew by (unfold owire; by rewrite El). rewrite Ew in *. cbn [app] in *.
    rewrite (oreceived_absent f v Hfv El).
    eapply returns_mono; [apply (IH (done_ ++ [f]) (vdone ++ [sinit f]) vs pre)|]; try done.
    + by rewrite <- app_assoc.
    + rewrite !length_app. simpl. lia.
    + by rewrite <- app_assoc.
    + intros r (vals' & d2 & -> & Hvals & Hd2). exists vals', d2. split_and!; [done| |done].
      rewrite <- app_assoc in Hvals. exact Hvals.
Qed.
End unpack_loop.

(** ** Whole PDUs *)

(** A PDU of the type [d] whose members stand for [vs] and [ws], without
    configured parameters. *)
Record pdu_holds (pdu : SMPP_PDU) (d : pdu_desc) (vs ws : list sval) : Prop := {
  ph_type : find_pdu (pdu_type pdu) = Some d;
  ph_id : vs !! 0%nat = Some (SInt (pdu_type pdu));
  ph_fields : Forall2 holdsv (pdu_fields pdu) vs;
  ph_opts : Forall2 holdsv (pdu_opts pdu) ws;
  ph_tlv : match pd_opts d with
           | None => True
           | Some _ => exists t, pdu_tlv pdu = Some t /\ dict_holds t ∅
           end
}.

Definition pdu_body (d : pdu_desc) (vs ws : list sval) : list Z :=
  concat (zip_with mwire (pd_fields d) (fixed (pd_fields d) vs)) ++
  concat (zip_with owire (default [] (pd_opts d)) ws).

(** What [pdu_ok] says. *)
Lemma pdu_ok_inv (d : pdu_desc) : pdu_ok d = true ->
  forallb mfield_ok (pd_fields d) = true /\ giver_ok [] (pd_fields d) = true /\
  (exists rest, pd_fields d = HEADER ++ rest) /\ 0 <= pd_id d < 2 ^ 32 /\
  forallb ofield_ok (default [] (pd_opts d)) = true /\ NoDup (of_tag <$> default [] (pd_opts d)) /\
  tags_ok (default [] (pd_opts d)).
Proof.
  unfold pdu_ok. rewrite !andb_true_iff. intros (((((H1 & H2) & H3) & H4) & H5) & H6).
  apply bool_decide_eq_true in H3. split_and!; [done|done| |lia|lia|..].
  - exists (drop 3 (pd_fields d)). by rewrite <- H3, take_drop.
  - destruct (pd_opts d) as [opts|]; [|done]. rewrite !andb_true_iff in H6. by destruct H6 as [[? _] _].
  - destruct (pd_opts d) as [opts|]; [|apply NoDup_nil_2]. rewrite !andb_true_iff in H6.
    destruct H6 as [[_ H6] _]. by apply bool_decide_eq_true in H6.
  - destruct (pd_opts d) as [opts|]; [|apply Forall_nil_2]. rewrite !andb_true_iff in H6. destruct H6 as [_ H6].
    apply Forall_forall. intros f Hf. rewrite forallb_forall in H6. specialize (H6 f Hf). lia.
Qed.

(** The header alone has twelve octets. *)
Lemma pdu_body_min (pdu : SMPP_PDU) (d : pdu_desc) (vs ws : list sval) :
  pdu_holds pdu d (fixed (pd_fields d) vs) ws -> Forall2 mfits (pd_fields d) (fixed (pd_fields d) vs) ->
  12 <= zlen (pdu_body d vs ws).
Proof.
  intros [Ht _ _ _ _] Hm. destruct (find_pdu_ok _ _ Ht) as [_ Hok].
  destruct (pdu_ok_inv d Hok) as (_ & _ & [rest Hrest] & _). unfold pdu_body. rewrite Hrest in *.
  generalize dependent (fixed (HEADER ++ rest) vs). intros fv Hm. cbn [HEADER app] in *.
  apply Forall2_cons_inv_l in Hm as (v0 & fv0 & M0 & Hm & ->). apply Forall2_cons_inv_l in Hm as (v1 & fv1 & M1 & Hm & ->).
  apply Forall2_cons_inv_l in Hm as (v2 & fv2 & M2 & Hm & ->).
  destruct v0, v1, v2; try done. cbn [zip_with concat mwire]. rewrite !zlen_app, !zlen_be_bytes.
  pose proof (zlen_nonneg (concat (zip_with mwire rest fv2))).
  pose proof (zlen_nonneg (concat (zip_with owire (default [] (pd_opts d)) ws))). lia.
Qed.

(** The length in front of a PDU is accepted and is its own length. *)
Lemma read_len_ok (o : Octstr) (body : list Z) :
  repr o (be_bytes 4 (zlen body + 4) ++ body) -> 16 <= zlen body + 4 <= MAX_SMPP_PDU_LEN ->
  smpp_pdu_read_len (Some o) = Ok (zlen body + 4).
Proof.
  intros Ho Hl. unfold MAX_SMPP_PDU_LEN in Hl. unfold smpp_pdu_read_len.
  rewrite (octstr_get_many_chars_ok _ o _ 0 4 Ho); [|lia|lia|rewrite zlen_app, zlen_be_bytes; lia|done]. bind_red.
  pose proof (slice_mid [] (be_bytes 4 (zlen body + 4)) body) as Es. change (zlen []) with 0 in Es.
  rewrite zlen_be_bytes in Es. cbn [app] in Es. change (Z.of_nat 4) with 4 in Es. rewrite Es.
  pose proof (be_value_bytes 4 (zlen body + 4)) as Ev. pose proof (octets_be_bytes 4 (zlen body + 4)) as Hoct.
  cbn [be_bytes] in *. rewrite decode_be_value by exact Hoct. bind_red. rewrite Ev.
  rewrite Z.mod_small by (change (256 ^ Z.of_nat 4) with (2 ^ 32); lia). rewrite int32_small by lia.
  unfold MIN_SMPP_PDU_LEN, MAX_SMPP_PDU_LEN.
  rewrite (proj2 (Z.ltb_ge _ 16)), (proj2 (Z.ltb_ge 7424 _)) by lia. done.
Qed.

Section whole.
Context {pf : Printf}.
Variables (cfg : option tlv_config) (smsc_id : option Octstr).

Lemma pack_tlvs_empty (os : Octstr) (t : Dict Octstr) :
  dict_holds t ∅ -> pack_tlvs cfg smsc_id os (Some t) = Ok os.
Proof.
  intros Ht. pose proof (dict_keys_ok t ∅ Ht) as P. apply returns_iff in P as (l & El & o & ks & Hl & Ho & Hk).
  rewrite map_to_list_empty in Hk. apply Permutation_sym, Permutation_nil in Hk. subst ks. inversion Ho; subst o.
  unfold pack_tlvs. rewrite El. bind_red. cbn [tlvs_loop]. unfold gwlist_extract_first.
  rewrite (lr_len _ _ Hl). done.
Qed.

Lemma pack_body_ok (pdu : SMPP_PDU) (d : pdu_desc) (vs ws : list sval) :
  pdu_holds pdu d vs ws -> Forall2 mfits (pd_fields d) (fixed (pd_fields d) vs) ->
  Forall2 ofits (default [] (pd_opts d)) ws -> zlen (pdu_body d vs ws) + 4 < 2 ^ 32 ->
  returns (smpp_pdu_pack cfg smsc_id pdu) (fun '(o, pdu') =>
    reprm o (be_bytes 4 (zlen (pdu_body d vs ws) + 4) ++ pdu_body d vs ws) /\
    pdu_holds pdu' d (fixed (pd_fields d) vs) ws).
Proof.
  intros [Ht Hid Hf Ho Htlv] Hm Hw Hlen. destruct (find_pdu_ok _ _ Ht) as [Hpid Hok].
  destruct (pdu_ok_inv d Hok) as (Hok1 & Hg & [rest Hrest] & Hr & Hok2 & _ & Htags).
  unfold smpp_pdu_pack. apply returns_bind, (returns_mono _ _ _ (octstr_create_ok [] octets_nil)). intros os Hos.
  rewrite Ht. apply returns_bind, returns_bind.
  apply (returns_mono _ _ _ (fix_lengths_ok _ _ vs Hg Hf Hm)). intros ps Hps. apply returns_bind.
  apply (returns_mono _ _ _ (pack_fields_ok _ os [] ps _ Hos Hps Hm Hok1)). intros os1 H1. apply returns_bind.
  assert (returns (match pd_opts d with
                   | None => Ok os1
                   | Some opts => os ← pack_opts os1 opts (pdu_opts pdu); pack_tlvs cfg smsc_id os (pdu_tlv pdu)
                   end) (fun o => reprm o (pdu_body d vs ws))) as P.
  { unfold pdu_body. destruct (pd_opts d) as [opts|]; cbn [default from_option id] in *.
    - apply returns_bind, (returns_mono _ _ _ (pack_opts_ok opts os1 _ _ ws H1 Ho Hw Hok2 Htags)). intros os2 H2.
      destruct Htlv as (t & -> & Ht'). by rewrite (pack_tlvs_empty os2 t Ht').
    - inversion Hw; subst ws. cbn. rewrite app_nil_r. exact H1. }
  apply (returns_mono _ _ _ P). intros os2 H2. cbn [returns].
  apply returns_bind, (returns_mono _ _ _ (octstr_create_ok [] octets_nil)). intros t0 Ht0.
  cbn [octstr_len]. rewrite (repr_seems_valid _ _ (proj1 H2)), (reprm_len _ _ H2). bind_red.
  pose proof (zlen_nonneg (pdu_body d vs ws)).
  apply returns_bind, (returns_mono _ _ _ (append_encoded_ok t0 [] (zlen (pdu_body d vs ws) + 4) 4 Ht0 ltac:(lia) ltac:(lia))).
  intros t1 [Ht1 _]. apply returns_bind.
  apply (returns_mono _ _ _ (octstr_insert_ok os2 t1 _ _ 0 H2 Ht1 ltac:(lia))). intros os3 H3.
  cbn [returns]. split; [exact H3|]. constructor; cbn [pdu_type pdu_fields pdu_opts pdu_tlv]; try done.
  rewrite Hrest. destruct vs as [|v vs]; [done|]. exact Hid.
Qed.

Lemma ovalue_size (f : ofield) (v : sval) (l : list Z) :
  ofits f v -> ofield_ok f = true -> ovalue f v = Some l -> zlen l < 65536.
Proof.
  destruct f as [nm n|nm n|nm mn mx]; destruct v as [i|[s|]]; try done; cbn [ofits ofield_ok ovalue].
  - intros _ Hn. destruct (0 <=? i); [|done]. intros [= <-]. rewrite zlen_be_bytes. lia.
  - intros [_ Hs] Hn [= <-]. list_lia.
  - intros Hs _. destruct ((mx <? zlen s) || (zlen s <? mn)); [done|]. by intros [= <-].
Qed.

Lemma unpack_body_ok (pdu : SMPP_PDU) (os : Octstr) (d : pdu_desc) (vs ws : list sval) :
  config_ok cfg smsc_id -> pdu_holds pdu d (fixed (pd_fields d) vs) ws ->
  Forall2 mfits (pd_fields d) (fixed (pd_fields d) vs) -> Forall2 ofits (default [] (pd_opts d)) ws ->
  repr os (pdu_body d vs ws) ->
  returns (smpp_pdu_unpack cfg smsc_id os) (fun r => exists pdu', r = Some pdu' /\
    pdu_type pdu' = pdu_type pdu /\
    Forall2 holdsv (pdu_fields pdu') (zip_with mreceived (pd_fields d) (fixed (pd_fields d) vs)) /\
    Forall2 holdsv (pdu_opts pdu') (zip_with oreceived (default [] (pd_opts d)) ws)).
Proof.
  intros Hcfg [Ht Hid _ _ _] Hm Hw Hos. destruct (find_pdu_ok _ _ Ht) as [Hpid Hok].
  destruct (pdu_ok_inv d Hok) as (Hok1 & Hg & [rest Hrest] & Hr & Hok2 & Hnd & Htags).
  pose proof (fixed_given _ vs Hg Hm) as Hgiven. unfold smpp_pdu_unpack, pdu_body in *. cbn [octstr_len].
  set (fv := fixed (pd_fields d) vs) in *. set (ow := concat (zip_with owire (default [] (pd_opts d)) ws)) in *.
  rewrite (repr_seems_valid _ _ Hos), (repr_len _ _ Hos). bind_red.
  assert (exists tl, concat (zip_with mwire (pd_fields d) fv) = be_bytes 4 (pdu_type pdu) ++ tl) as [tl Etl].
  { rewrite Hrest. destruct fv as [|v fv']; [done|]. injection Hid as ->. cbn [app HEADER zip_with concat mwire]. by eexists. }
  assert (4 <= zlen (concat (zip_with mwire (pd_fields d) fv) ++ ow)) as H4.
  { rewrite Etl, !zlen_app, zlen_be_bytes. pose proof (zlen_nonneg tl). pose proof (zlen_nonneg ow). lia. }
  rewrite (proj2 (Z.ltb_ge _ 4)) by lia.
  assert (decode_integer os 0 4 = Ok (pdu_type pdu)) as ->.
  { apply (decode_integer_ok os [] (tl ++ ow)); [|lia|rewrite <- Hpid; lia].
    change (repr os (be_bytes 4 (pdu_type pdu) ++ tl ++ ow)). by rewrite app_assoc, <- Etl. }
  bind_red. rewrite (proj2 (Z.eqb_neq _ (-1))) by lia. rewrite Ht. apply returns_bind.
  eapply returns_mono; [apply (unpack_fields_ok os ow (pd_fields d) [] fv [] Hos Hm Hok1 Hgiven)|].
  intros r (ps & -> & Hps). cbn [app].
  destruct (pd_opts d) as [opts|] eqn:Eo; cbn [default from_option id] in *.
  2:{ inversion Hw; subst ws. cbn [returns]. eexists. split_and!; [done..|constructor]. }
  apply returns_bind. eapply returns_mono.
  { apply (unpack_opts_ok cfg smsc_id Hcfg os _ opts Hos Hok2 Htags Hnd opts [] [] ws
      (concat (zip_with mwire (pd_fields d) fv))); try done.
    - clear -Hw Hok2. induction Hw as [|f v opts ws Hf _ IH]; [constructor|]. simpl in Hok2.
      apply andb_prop in Hok2 as [Hf2 Hok2]. constructor; [|by apply IH]. intros l. by apply ovalue_size.
    - apply holdsv_init.
    - eexists. eexists. by apply dict_create_ok.
    - fold ow. unfold zlen. rewrite Nat2Z.id, length_app. lia. }
  intros r (vals & dd & -> & Hvals & _). cbn [returns]. eexists. split_and!; [done..|]. exact Hvals.
Qed.
End whole.

(** ** Arbitrary octets *)

Section robust.
Context {pf : Printf}.
Variables (cfg : option tlv_config) (smsc_id : option Octstr).
Hypothesis Hcfg : config_ok cfg smsc_id.
Variables (os : Octstr) (s : list Z).
Hypothesis Hos : repr os s.

Lemma char_at_range (pos : Z) : -1 <= char_at s pos < 256.
Proof.
  unfold char_at. destruct (0 <=? pos); [|lia]. destruct (s !! Z.to_nat pos) as [c|] eqn:E; simpl; [|lia].
  pose proof (proj1 (Forall_lookup _ _) (repr_octets _ _ Hos) _ _ E) as Hc. unfold octet in Hc. lia.
Qed.

Lemma decode_loop_total (n : nat) : forall pos u, is_ok (decode_loop os pos u n).
Proof.
  induction n as [|n IH]; intros pos u; cbn [decode_loop]; [by eexists|].
  rewrite (octstr_get_char_ok os s pos Hos). bind_red. apply IH.
Qed.

(** An integer of a few octets is -1 or not negative. *)
Lemma decode_integer_total (pos n : Z) : 0 <= pos -> 0 <= n ->
  returns (decode_integer os pos n) (fun i => n <= 7 -> -1 <= i /\ (pos + n <= zlen s -> 0 <= i < 256 ^ n)).
Proof.
  intros Hp Hn. unfold decode_integer. cbn [octstr_len].
  rewrite (repr_seems_valid _ _ Hos), (repr_len _ _ Hos). bind_red.
  destruct (Z.ltb_spec (zlen s) (pos + n)) as [Hl|Hl]; [cbn; lia|].
  destruct (Z.leb_spec n 7) as [H7|H7].
  - set (l := slice s pos n). assert (zlen l = n) as El by (by apply zlen_slice).
    assert (octets l) as Ho by (apply octets_slice, (repr_octets _ _ Hos)).
    pose proof (be_value_range l Ho) as Hr. rewrite El in Hr. pose proof (pow256_7 n ltac:(lia)).
    assert (s = take (Z.to_nat pos) s ++ l ++ drop (Z.to_nat (pos + n)) s) as Es.
    { unfold l, slice. rewrite Z2Nat.inj_add, <- drop_drop, !take_drop by lia. done. }
    pose proof (decode_loop_ok os s l (take (Z.to_nat pos) s) (drop (Z.to_nat (pos + n)) s) 0 Hos Es Ho ltac:(lia)) as E.
    rewrite El in E. replace (zlen (take (Z.to_nat pos) s)) with pos in E by list_lia.
    replace (length l) with (Z.to_nat n) in E by list_lia. rewrite E by lia. cbn [returns].
    rewrite swrap_small by lia. lia.
  - destruct (decode_loop_total (Z.to_nat n) pos 0) as [i ->]. cbn. lia.
Qed.

Lemma copy_total (pos n : Z) : 0 <= pos -> 0 <= n ->
  returns (octstr_copy (Some os) pos n) (fun o => exists t, reprm o t).
Proof. intros Hp Hn. apply (returns_mono _ _ _ (octstr_copy_ok os s pos n Hos Hp Hn)). intros o Ho. by eexists. Qed.

Lemma search_char_after (ch pos : Z) : 0 <= pos -> search_char s ch pos = -1 \/ pos <= search_char s ch pos.
Proof. intros Hp. unfold search_char. destruct (list_find _ _) as [[i c]|]; [right; lia|by left]. Qed.

Lemma copy_until_nul_total (pos n : Z) : 0 <= pos ->
  returns (copy_until_nul os pos n) (fun '(_, data, pos') => pos <= pos' /\
    match data with None => True | Some o => exists t, reprm o t end).
Proof.
  intros Hp. unfold copy_until_nul. rewrite (octstr_search_char_ok os s 0 pos Hos) by (done || lia). bind_red.
  destruct (Z.eqb_spec (search_char s 0 pos) (-1)); [cbn; split; [lia|done]|].
  destruct (search_char_after 0 pos Hp) as [|Hge]; [done|].
  destruct (_ <? _); [cbn; split; [lia|done]|]. apply returns_bind.
  destruct (Z.ltb_spec 0 (search_char s 0 pos - pos)); [|cbn; split; [lia|done]].
  apply returns_bind, (returns_mono _ _ _ (copy_total pos (search_char s 0 pos - pos) Hp ltac:(lia))).
  intros o Ho. cbn. split; [lia|done].
Qed.

(** The integers read so far are not negative. *)
Definition env_ok (env : list (string * pval)) : Prop :=
  Forall (fun p => match p.2 with PInt i => 0 <= i | POct _ => True end) env.

Lemma int_in_nonneg (env : list (string * pval)) (g : string) : env_ok env -> 0 <= int_in env g.
Proof.
  intros H. unfold int_in. destruct (list_find _ _) as [[i [nm [v|o]]]|] eqn:E; try lia.
  apply list_find_Some in E as (E & _). by apply (proj1 (Forall_lookup _ _) H _ _ E).
Qed.

Lemma unpack_fields_total (fields : list mfield) : forall (pos : Z) (env : list (string * pval)),
  0 <= pos -> env_ok env -> forallb mfield_ok fields = true ->
  returns (unpack_fields os pos fields env) (fun r =>
    match r with None => True | Some (_, pos') => pos <= pos' end).
Proof.
  induction fields as [|f fields IH]; intros pos env Hp He Hok; cbn [unpack_fields]; [cbn; lia|].
  simpl in Hok. apply andb_prop in Hok as [Hf Hok].
  assert (returns (unpack_field os pos f env) (fun r => match r with
    | None => True
    | Some (v, pos') => pos <= pos' /\ match v with PInt i => 0 <= i | POct _ => True end end)) as P.
  { destruct f as [nm n|nm n|nm g]; cbn [unpack_field mfield_ok] in *.
    - apply returns_bind, (returns_mono _ _ _ (decode_integer_total pos n Hp ltac:(lia))). intros i Hi.
      destruct (Z.eqb_spec i (-1)); [done|]. cbn. specialize (Hi ltac:(lia)). lia.
    - apply returns_bind, (returns_mono _ _ _ (copy_until_nul_total pos n Hp)). intros [[r data] pos'] [? _]. cbn. lia.
    - pose proof (int_in_nonneg env g He). apply returns_bind.
      apply (returns_mono _ _ _ (copy_total pos (int_in env g) Hp ltac:(lia))). intros o (t & Ho).
      cbn [octstr_len]. rewrite (repr_seems_valid _ _ (proj1 Ho)), (reprm_len _ _ Ho). bind_red.
      destruct (_ =? _); cbn; [lia|done]. }
  apply returns_bind, (returns_mono _ _ _ P). intros [[v pos']|] Hv; [|done]. destruct Hv as [Hpos Hv].
  apply returns_bind. eapply returns_mono; [apply (IH pos' ((mf_name f, v) :: env)); [lia| |done]|].
  - apply Forall_cons_2; [by destruct v|done].
  - intros [[vs pos2]|]; cbn; [lia|done].
Qed.

(** A parameter moves on, or is refused. *)
Definition moved (pos : Z) {A : Type} (r : option (A * Z * Dict Octstr)) : Prop :=
  match r with
  | None => True
  | Some (_, pos', d) => pos <= pos' /\ tlvs_ok d
  end.

Lemma duplicate_total (data : option Octstr) :
  match data with None => True | Some o => exists t, reprm o t end ->
  returns (octstr_duplicate data) (fun _ => True).
Proof.
  destruct data as [o|]; [|done]. intros (t & Ho & _). by apply (returns_mono _ _ _ (octstr_duplicate_ok o t Ho)).
Qed.

Lemma unpack_opt_total (len pos n : Z) (f : ofield) (v : pval) (t : option smpp_tlv) (d : Dict Octstr) :
  0 <= pos -> 0 <= n -> found_ok t -> tlvs_ok d ->
  returns (unpack_opt os len pos n f v t d) (moved pos).
Proof.
  intros Hp Hn Ht Hd. destruct f as [nm k|nm k|nm mn mx]; cbn [unpack_opt].
  - destruct (k <? n); [cbn; split; [lia|done]|].
    apply returns_bind, (returns_mono _ _ _ (decode_integer_total pos n Hp Hn)). intros i _.
    destruct (i =? -1); [done|]. apply returns_bind.
    assert (returns (match t with None => Ok d | Some _ => val ← format_ld i; put_tlv d t (Some val) end) tlvs_ok) as P.
    { destruct t as [t|]; [|done]. apply returns_bind, (returns_mono _ _ _ (format_ld_ok i)). intros o _.
      by apply put_tlv_ok. }
    apply (returns_mono _ _ _ P). intros d' Hd'. cbn. split; [lia|done].
  - destruct (_ || _); [cbn; split; [lia|done]|].
    apply returns_bind, (returns_mono _ _ _ (copy_until_nul_total pos n Hp)). intros [[r data] pos'] [Hpos Hdata].
    apply returns_bind, (returns_mono _ _ _ (duplicate_total data Hdata)). intros val _.
    apply returns_bind, (returns_mono _ _ _ (put_tlv_ok d t val Hd Ht)). intros d' Hd'. cbn. done.
  - destruct (_ || _); [cbn; split; [lia|done]|].
    apply returns_bind, (returns_mono _ _ _ (copy_total pos n Hp Hn)). intros o Ho.
    apply returns_bind, (returns_mono _ _ _ (duplicate_total (Some o) Ho)). intros val _.
    apply returns_bind, (returns_mono _ _ _ (put_tlv_ok d t val Hd Ht)). intros d' Hd'. cbn. split; [lia|done].
Qed.

Lemma unpack_tlv_total (pos n : Z) (t : option smpp_tlv) (d : Dict Octstr) :
  0 <= pos -> 0 <= n -> found_ok t -> tlvs_ok d ->
  returns (unpack_tlv os pos n t d) (fun r => moved pos (option_map (fun p => (tt, p.1, p.2)) r)).
Proof.
  intros Hp Hn Ht Hd. destruct t as [t|]; cbn [unpack_tlv].
  - destruct (_ <? _); [cbn; split; [lia|done]|]. destruct (tlv_ty t).
    + apply returns_bind, (returns_mono _ _ _ (copy_total pos n Hp Hn)). intros o Ho.
      apply returns_bind, (returns_mono _ _ _ (put_tlv_ok d (Some t) (Some o) Hd Ht)). intros d' Hd'. cbn. split; [lia|done].
    + apply returns_bind, (returns_mono _ _ _ (copy_until_nul_total pos n Hp)). intros [[r data] pos'] [Hpos _].
      apply returns_bind. assert (returns (if r =? 0 then put_tlv d (Some t) data else Ok d) tlvs_ok) as P.
      { destruct (r =? 0); [by apply put_tlv_ok|done]. }
      apply (returns_mono _ _ _ P). intros d' Hd'. cbn. done.
    + apply returns_bind, (returns_mono _ _ _ (decode_integer_total pos n Hp Hn)). intros i _.
      destruct (i =? -1); [done|]. apply returns_bind, (returns_mono _ _ _ (format_ld_ok i)). intros o _.
      apply returns_bind, (returns_mono _ _ _ (put_tlv_ok d (Some t) (Some o) Hd Ht)). intros d' Hd'. cbn. split; [lia|done].
  - apply returns_bind, (returns_mono _ _ _ (copy_total pos n Hp Hn)). intros o (u & Ho).
    apply returns_bind, (returns_mono _ _ _ (octstr_binary_to_hex_ok o u false Ho)). intros _ _. cbn. split; [lia|done].
Qed.

Lemma unpack_opts_total (opts : list ofield) (fuel : nat) : forall (pos : Z) (vals : list pval) (d : Dict Octstr),
  0 <= pos -> zlen s - pos < Z.of_nat fuel -> (0 < fuel)%nat -> length vals = length opts -> tlvs_ok d ->
  returns (unpack_opts cfg smsc_id os (zlen s) pos opts vals d fuel) (fun _ => True).
Proof.
  induction fuel as [|fuel IH]; intros pos vals d Hp Hfuel H0 Hv Hd; [lia|]. cbn [unpack_opts].
  destruct (Z.leb_spec (pos + 4) (zlen s)) as [H4|]; [|done].
  apply returns_bind, (returns_mono _ _ _ (decode_integer_total pos 2 Hp ltac:(lia))). intros tag _.
  apply returns_bind, (returns_mono _ _ _ (decode_integer_total (pos + 2) 2 ltac:(lia) ltac:(lia))). intros n Hn.
  destruct (Hn ltac:(lia)) as [_ Hn']. specialize (Hn' ltac:(lia)).
  apply returns_bind, (returns_mono _ _ _ (get_by_tag_ok cfg smsc_id tag Hcfg)). intros t Ht.
  destruct (list_find _ _) as [[i f]|] eqn:E.
  - apply list_find_Some in E as (Ei & _). apply lookup_lt_Some in Ei. rewrite <- Hv in Ei.
    destruct (lookup_lt_is_Some_2 vals i Ei) as [v ->].
    apply returns_bind, (returns_mono _ _ _ (unpack_opt_total (zlen s) (pos + 4) n f v t d ltac:(lia) ltac:(lia) Ht Hd)).
    intros [[[v' pos'] d']|]; [|done]. intros [Hpos Hd']. apply IH; [lia|lia|lia|by rewrite length_insert|done].
  - apply returns_bind, (returns_mono _ _ _ (unpack_tlv_total (pos + 4) n t d ltac:(lia) ltac:(lia) Ht Hd)).
    intros [[pos' d']|]; [|done]. intros [Hpos Hd']. cbn [fst snd] in Hpos. apply IH; [lia|lia|lia|done|done].
Qed.

Lemma unpack_total : returns (smpp_pdu_unpack cfg smsc_id os) (fun _ => True).
Proof.
  unfold smpp_pdu_unpack. cbn [octstr_len]. rewrite (repr_seems_valid _ _ Hos), (repr_len _ _ Hos). bind_red.
  destruct (zlen s <? 4); [done|].
  apply returns_bind, (returns_mono _ _ _ (decode_integer_total 0 4 ltac:(lia) ltac:(lia))). intros type _.
  destruct (type =? -1); [done|]. destruct (find_pdu type) as [d|] eqn:E; [|done].
  destruct (find_pdu_ok _ _ E) as [_ Hok]. destruct (pdu_ok_inv d Hok) as (Hok1 & _).
  apply returns_bind, (returns_mono _ _ _ (unpack_fields_total (pd_fields d) 0 [] ltac:(lia) ltac:(apply Forall_nil_2) Hok1)).
  intros [[fields pos]|] Hpos; [|done]. destruct (pd_opts d) as [opts|]; [|done].
  pose proof (zlen_nonneg s). apply returns_bind.
  eapply returns_mono; [apply unpack_opts_total; [done|lia|lia|by rewrite length_fmap|]|].
  - eexists. eexists. by apply dict_create_ok.
  - done.
Qed.
End robust.

(** ** Properties *)

(** C2. A PDU of any declared type that is packed, read from a connection by its
    length and unpacked again, where
    - the message carries no values for the parameters that the configuration
      declares (the dictionary of these is empty; the configuration itself may
      declare parameters, with any names and tags);
    - every value fits its field ([mfits], [ofits]): a mandatory integer is not negative and
      fits the octets of its field, a string that ends in NUL has no NUL inside
      and is shorter than its field, a short message has less than 256 octets, the
      octets of an optional parameter are less than 65536;
    - the packed PDU has at most 7424 octets with its length.
    The PDU that arrives has the same type; its integers and strings are those
    sent, the field for the length of the short message is the length of it, a NUL
    terminated string that is empty arrives as NULL, a short message that is NULL
    arrives as an empty string; an optional parameter arrives as sent if it is
    set and has an admitted length, and otherwise is not set.  (Of the values that do
    not fit, strings are cut, and [smpp_tlv_string_overstated] shows the receiver
    losing its place.) *)
Theorem smpp_pdu_roundtrip {pf : Printf} (cfg : option tlv_config) (smsc_id : option Octstr)
    (pdu : SMPP_PDU) (d : pdu_desc) (vs ws : list sval) :
  config_ok cfg smsc_id -> pdu_holds pdu d vs ws ->
  Forall2 mfits (pd_fields d) (fixed (pd_fields d) vs) -> Forall2 ofits (default [] (pd_opts d)) ws ->
  zlen (pdu_body d vs ws) + 4 <= MAX_SMPP_PDU_LEN ->
  returns ('(o, _) ← smpp_pdu_pack cfg smsc_id pdu;
           n ← smpp_pdu_read_len (Some o);
           data ← octstr_copy (Some o) 4 (n - 4);
           smpp_pdu_unpack cfg smsc_id data) (fun r => exists pdu', r = Some pdu' /\
    pdu_type pdu' = pdu_type pdu /\
    Forall2 holdsv (pdu_fields pdu') (zip_with mreceived (pd_fields d) (fixed (pd_fields d) vs)) /\
    Forall2 holdsv (pdu_opts pdu') (zip_with oreceived (default [] (pd_opts d)) ws)).
Proof.
  intros Hcfg Hpdu Hm Hw Hlen. unfold MAX_SMPP_PDU_LEN in Hlen.
  apply returns_bind, (returns_mono _ _ _ (pack_body_ok cfg smsc_id pdu d vs ws Hpdu Hm Hw ltac:(lia))).
  intros [o pdu'] [Ho Hpdu']. pose proof (pdu_body_min pdu' d vs ws Hpdu' Hm) as Hmin.
  set (body := pdu_body d vs ws) in *. rewrite (read_len_ok o body (proj1 Ho) ltac:(unfold MAX_SMPP_PDU_LEN; lia)). bind_red.
  apply returns_bind.
  eapply returns_mono; [apply (octstr_copy_ok o _ 4 (zlen body + 4 - 4) (proj1 Ho)); lia|].
  intros data Hd. cbv beta in Hd. pose proof (slice_mid (be_bytes 4 (zlen body + 4)) body []) as Es.
  rewrite app_nil_r, zlen_be_bytes in Es. change (Z.of_nat 4) with 4 in Es.
  replace (zlen body + 4 - 4) with (zlen body) in Hd by lia. rewrite Es in Hd.
  assert (pdu_type pdu = pdu_type pdu') as -> .
  { pose proof (ph_type _ _ _ _ Hpdu) as [H1 _]%find_pdu_ok. pose proof (ph_type _ _ _ _ Hpdu') as [H2 _]%find_pdu_ok. congruence. }
  by apply (unpack_body_ok cfg smsc_id pdu' data d vs ws Hcfg Hpdu' Hm Hw), Hd.
Qed.

(** C37. Unpacking is safe on whatever a peer sends: for any octets, any valid
    configuration and any PDU type, [smpp_pdu_unpack] returns, with a PDU or with
    NULL; it neither panics, nor reads outside the data, nor loops. *)
Theorem smpp_unpack_total {pf : Printf} (cfg : option tlv_config) (smsc_id : option Octstr)
    (os : Octstr) (s : list Z) :
  config_ok cfg smsc_id -> repr os s -> returns (smpp_pdu_unpack cfg smsc_id os) (fun _ => True).
Proof. intros Hcfg Hos. by apply (unpack_total cfg smsc_id Hcfg os s). Qed.

(** The length of an optional string is overstated when the string is one octet
    too long for its field: for a string of exactly the maximal length the tag is
    followed by the maximal length plus one, while only the maximal number of
    octets, the last one a NUL, are appended. *)
Theorem smpp_tlv_string_overstated (os o : Octstr) (s t : list Z) (nm : string) (n : Z) :
  reprm os s -> repr o t -> zlen t = n -> 1 <= n < 65535 -> 0 <= SMPP_tag nm < 65536 ->
  returns (pack_opt os (TLV_NULTERMINATED nm n) (POct (Some o))) (fun os' =>
    exists data, zlen data = n /\
      reprm os' (s ++ be_bytes 2 (SMPP_tag nm) ++ be_bytes 2 (n + 1) ++ data)).
Proof.
  intros Hos Ho Hl Hn Ht. cbn [pack_opt octstr_len]. rewrite (repr_seems_valid _ _ Ho), (repr_len _ _ Ho), Hl. bind_red.
  rewrite (proj2 (Z.ltb_ge n n)) by lia. change (of_tag (TLV_NULTERMINATED nm n)) with (SMPP_tag nm).
  apply returns_bind, (returns_mono _ _ _ (TL_ok os s _ (n + 1) Hos Ht ltac:(lia))). intros o1 H1.
  unfold append_nulterminated. cbn [octstr_len]. rewrite (repr_seems_valid _ _ Ho), (repr_len _ _ Ho), Hl. bind_red.
  rewrite (proj2 (Z.leb_le n n)) by lia. apply returns_bind, returns_bind, returns_bind.
  apply (returns_mono _ _ _ (octstr_copy_ok o t 0 (n - 1) Ho ltac:(lia) ltac:(lia))). intros tmp [Htmp _]. cbn [returns].
  apply (returns_mono _ _ _ (octstr_append_ok o1 tmp _ _ H1 Htmp)). intros o2 H2.
  apply (returns_mono _ _ _ (octstr_append_char_ok o2 _ 0 H2 ltac:(unfold octet; lia))). intros o3 H3.
  exists (slice t 0 (n - 1) ++ [0]). split; [|by rewrite <- !app_assoc in H3].
  rewrite zlen_app, zlen_slice by lia. change (zlen [0]) with 1. lia.
Qed.

(** ** Examples *)

Definition lift_value (v : sval) : pval :=
  match v with
  | SInt i => PInt i
  | SOct s => POct (mk_os <$> s)
  end.

Definition sval_octets (v : sval) : Prop :=
  match v with SOct (Some s) => octets s | _ => True end.

Lemma lift_holds (vs : list sval) : Forall sval_octets vs -> Forall2 holdsv (lift_value <$> vs) vs.
Proof.
  induction 1 as [|v vs Hv _ IH]; csimpl; constructor; [|done].
  destruct v as [i|[s|]]; simpl; constructor. by apply mk_os_ok.
Qed.

(** A [submit_sm] with the message ["hi"] to ["12"] and two optional parameters. *)
Definition sample_submit : list sval :=
  [SInt 4; SInt 0; SInt 7; SOct None; SInt 1; SInt 1; SOct (Some [51; 52]); SInt 1; SInt 1;
   SOct (Some [49; 50]); SInt 3; SInt 0; SInt 0; SOct None; SOct None; SInt 1; SInt 0; SInt 0;
   SInt 0; SInt 0; SOct (Some [104; 105])].

Definition sample_submit_opts : list sval :=
  SInt 258 :: (sinit <$> drop 1 (take 33 (default [] (find_pdu 4 ≫= pd_opts)))) ++
  SOct (Some [110; 101; 116]) :: (sinit <$> drop 34 (default [] (find_pdu 4 ≫= pd_opts))).

Definition sample_pdu : SMPP_PDU :=
  mkPdu 4 (lift_value <$> sample_submit) (lift_value <$> sample_submit_opts) (Some (dict_create 1024 true)).

Definition submit_sm : pdu_desc := default (PDU EmptyString 0 [] None) (find_pdu 4).

Lemma sample_pdu_holds : pdu_holds sample_pdu submit_sm sample_submit sample_submit_opts.
Proof.
  constructor.
  - vm_compute. reflexivity.
  - reflexivity.
  - apply lift_holds. unfold sample_submit. repeat (apply Forall_cons_2; [simpl; try done; octets_tac|]). apply Forall_nil_2.
  - apply lift_holds. vm_compute. repeat (apply Forall_cons_2; [simpl; try done; octets_tac|]). apply Forall_nil_2.
  - exists (dict_create 1024 true). split; [done|]. eexists. by apply dict_create_ok.
Qed.

Lemma sample_fits :
  Forall2 mfits (pd_fields submit_sm) (fixed (pd_fields submit_sm) sample_submit) /\
  Forall2 ofits (default [] (pd_opts submit_sm)) sample_submit_opts.
Proof.
  split.
  - let l := eval vm_compute in (pd_fields submit_sm) in change (pd_fields submit_sm) with l.
    unfold sample_submit. cbn [fixed].
    repeat (apply Forall2_cons; [cbn [mfits]; first [exact I | split; unfold zlen; simpl; lia | split; [unfold no_nul; repeat (apply Forall_cons_2; [lia|]); apply Forall_nil_2|list_lia]]|]).
    apply Forall2_nil.
  - let l := eval vm_compute in (default [] (pd_opts submit_sm)) in change (default [] (pd_opts submit_sm)) with l.
    let l := eval vm_compute in sample_submit_opts in change sample_submit_opts with l.
    repeat (apply Forall2_cons; [cbn [ofits]; first [exact I | lia | split; [unfold no_nul; repeat (apply Forall_cons_2; [lia|]); apply Forall_nil_2|list_lia]]|]).
    apply Forall2_nil.
Qed.

Lemma smpp_pdu_roundtrip_witness :
  returns ('(o, _) ← smpp_pdu_pack None None sample_pdu;
           n ← smpp_pdu_read_len (Some o);
           data ← octstr_copy (Some o) 4 (n - 4);
           smpp_pdu_unpack (pf := no_doubles) None None data) (fun r => exists pdu', r = Some pdu' /\
    pdu_type pdu' = 4 /\
    Forall2 holdsv (pdu_fields pdu') (zip_with mreceived (pd_fields submit_sm) (fixed (pd_fields submit_sm) sample_submit)) /\
    Forall2 holdsv (pdu_opts pdu') (zip_with oreceived (default [] (pd_opts submit_sm)) sample_submit_opts)).
Proof.
  apply (smpp_pdu_roundtrip (pf := no_doubles) None None sample_pdu submit_sm sample_submit sample_submit_opts).
  - done.
  - apply sample_pdu_holds.
  - apply sample_fits.
  - apply sample_fits.
  - vm_compute. intros H. discriminate H.
Defined.

Lemma smpp_unpack_total_witness :
  returns (smpp_pdu_unpack (pf := no_doubles) None None (mk_os [0; 0; 0; 4; 0; 0])) (fun _ => True).
Proof.
  apply (smpp_unpack_total (pf := no_doubles) None None (mk_os [0; 0; 0; 4; 0; 0]) [0; 0; 0; 4; 0; 0]); [done|mk_os].
Defined.

Lemma smpp_tlv_string_overstated_witness :
  returns (pack_opt (mk_os []) (TLV_NULTERMINATED "broadcast_end_time" 2) (POct (Some (mk_os [49; 50])))) (fun os' =>
    exists data, zlen data = 2 /\
      reprm os' ([] ++ be_bytes 2 (SMPP_tag "broadcast_end_time") ++ be_bytes 2 (2 + 1) ++ data)).
Proof.
  apply (smpp_tlv_string_overstated (mk_os []) (mk_os [49; 50]) [] [49; 50] "broadcast_end_time" 2).
  - mk_os.
  - mk_os.
  - reflexivity.
  - lia.
  - vm_compute. split; [intros H; discriminate H|reflexivity].
Defined.
