(* ===== verification/At.v ===== *)
(** * Messages of GSM modems

    Models the PDUs of src/gw/smsc/smsc_at.c: the hexadecimal text that a modem reads
    and writes, the packing of septets into octets, numbers in semi-octets, the
    SUBMIT PDU that is sent and the DELIVER and STATUS-REPORT PDUs that are received.
    Of the driver's data the fields that these functions read are the record
    [PrivAT2data].  [at2_pdu_decode_deliver_sm] leaves the field [offset_sec] of its
    time unset: its value is the argument [junk]. *)

From stdpp Require Import list.
From S2P Require Import Prelude Octstr OctstrSearch OctstrCode OctstrFormat OctstrParts Date GwList PrioQueue Uuid Msg Charset Sms MetaData Dlr.
#[local] Open Scope Z_scope.
#[local] Open Scope kannel_scope.

Definition AT_DELIVER_SM : Z := 0.
Definition AT_STATUS_REPORT_SM : Z := 2.
Definition SMS_7BIT_MAX_LEN : Z := 160.
Definition SMS_8BIT_MAX_LEN : Z := 140.

(** [broken] and [no_smsc] are fields of the modem. *)
Record PrivAT2data := mkPriv {
  validityperiod : option Octstr;
  my_number : option Octstr;
  at_alt_dcs : Z;
  at_conn_id : option Octstr;
  broken : bool;
  no_smsc : bool
}.

Definition DLR_IS_ENABLED_DEVICE (dlr : Z) : bool :=
  DLR_IS_DEFINED dlr &&
  negb (Z.land dlr (Z.lor (Z.lor (Z.lor (Z.lor DLR_SUCCESS DLR_FAIL) DLR_BUFFERED) DLR_EXPIRED) DLR_UNKNOWN) =? 0).

Definition set_pid (p : sms) (v : Z) : sms :=
  mkSms (sms_sender p) (sms_receiver p) (sms_udhdata p) (sms_msgdata p) (sms_time p)
    (sms_smsc_id p) (sms_smsc_number p) (sms_foreign_id p) (sms_service p) (sms_account p)
    (sms_id p) (sms_sms_type p) (sms_mclass p) (sms_mwi p) (sms_coding p) (sms_compress p)
    (sms_validity p) (sms_deferred p) (sms_dlr_mask p) (sms_dlr_url p) v
    (sms_alt_dcs p) (sms_rpi p) (sms_charset p) (sms_boxc_id p) (sms_binfo p) (sms_msg_left p) (sms_split_parts p)
    (sms_priority p) (sms_resend_try p) (sms_resend_time p) (sms_meta_data p).

(** ** Hexadecimal *)

Definition at2_hexchar (hexc : Z) : Z :=
  let hexc := toupper hexc - 48 in
  if 9 <? hexc then hexc - 7 else hexc.

Fixpoint convert_loop (pdutext pdu : Octstr) (i len : Z) (fuel : nat) : res Octstr :=
  match fuel with
  | O => Undef
  | S fuel =>
      if i <? len then
        a ← octstr_get_char pdutext i;
        b ← octstr_get_char pdutext (i + 1);
        pdu ← octstr_append_char pdu (at2_hexchar a * 16 + at2_hexchar b);
        convert_loop pdutext pdu (i + 2) len fuel
      else Ok pdu
  end.

Definition at2_convertpdu (pdutext : Octstr) : res Octstr :=
  len ← octstr_len (Some pdutext);
  pdu ← octstr_create [];
  convert_loop pdutext pdu 0 len (S (Z.to_nat len)).

Definition at2_numtext (num : Z) : Z := if 9 <? num then num + 55 else num + 48.

Fixpoint hex_loop (input out : Octstr) (i : Z) (n : nat) : res Octstr :=
  match n with
  | O => Ok out
  | S n =>
      c ← octstr_get_char input i;
      out ← octstr_append_char out (at2_numtext (Z.shiftr (Z.land c 240) 4));
      out ← octstr_append_char out (at2_numtext (Z.land c 15));
      hex_loop input out (i + 1) n
  end.

Definition at2_encode8bituncompressed (input : Octstr) : res Octstr :=
  out ← octstr_create [];
  len ← octstr_len (Some input);
  hex_loop input out 0 (Z.to_nat len).

(** ** Septets *)

Definition at2_rmask : list Z := [0; 1; 3; 7; 15; 31; 63; 127].
Definition at2_lmask : list Z := [0; 128; 192; 224; 240; 248; 252; 254].
Definition LSBmask : list Z := [0; 1; 3; 7; 15; 31; 63; 127].
Definition MSBmask : list Z := [0; 64; 96; 112; 120; 124; 126; 127].

(** An entry of one of the arrays. *)
Definition mask (t : list Z) (i : Z) : res Z :=
  match (if 0 <=? i then t !! Z.to_nat i else None) with
  | Some m => Ok m
  | None => Undef
  end.

(** The loop that shifts the buffer by [offset] bits. *)
Fixpoint shift_loop (data : block) (offset i len : Z) (n : nat) : res block :=
  match n with
  | O => Ok data
  | S n =>
      c ← rd data i;
      v ← (if i =? len - 1 then Ok (Z.shiftr c offset)
           else d ← rd data (i + 1); Ok (Z.lor (Z.shiftr c offset) (Z.shiftl d (8 - offset))));
      data ← wr data i v;
      shift_loop data offset (i + 1) len n
  end.

Fixpoint decode7_loop (input decoded : Octstr) (len i r c pos octet prevoctet : Z) (fuel : nat) : res Octstr :=
  match fuel with
  | O => Undef
  | S fuel =>
      if i <? len then
        rm ← mask at2_rmask c;
        lm ← mask at2_lmask r;
        decoded ← octstr_append_char decoded ((Z.shiftl (Z.land octet rm) (r - 1) + prevoctet) mod 256);
        let prevoctet := Z.shiftr (Z.land octet lm) c in
        '(i, decoded, prevoctet) ←
          (if (r =? 7) && (i <? len - 1) then
             decoded ← octstr_append_char decoded prevoctet;
             Ok (i + 1, decoded, 0)
           else Ok (i, decoded, prevoctet));
        octet ← octstr_get_char input (pos + 1);
        decode7_loop input decoded len (i + 1) (if 6 <? r then 1 else r + 1) (if c <? 2 then 7 else c - 1) (pos + 1)
          (octet mod 256) prevoctet fuel
      else Ok decoded
  end.

(** The input is of no more use after the call, so only [decoded] is returned. *)
Definition at2_decode7bituncompressed (input : Octstr) (len : Z) (decoded : Octstr) (offset : Z) : res Octstr :=
  n ← octstr_len (Some input);
  input ← (if 0 <? offset then
             data ← shift_loop (os_data input) offset 0 n (Z.to_nat n);
             Ok (set_data input data)
           else Ok input);
  octet ← octstr_get_char input 0;
  decoded ← decode7_loop input decoded len 0 1 7 0 (octet mod 256) 0 (S (Z.to_nat len));
  d ← charset_gsm_to_utf8 (Some decoded);
  match d with
  | Some d => Ok d
  | None => Undef
  end.

Fixpoint encode7_loop (source target : Octstr) (destRemain i iStore posS target_chr : Z) (fuel : nat) : res (Octstr * Z * Z) :=
  match fuel with
  | O => Undef
  | S fuel =>
      source_chr ← octstr_get_char source posS;
      if source_chr =? -1 then Ok (target, destRemain, target_chr)
      else
        lm ← mask LSBmask i;
        let target_chr := Z.lor target_chr (Z.shiftl (Z.land source_chr lm) iStore) in
        '(target, destRemain, target_chr) ←
          (if negb (iStore =? 0) then
             target ← octstr_append_char target target_chr;
             Ok (target, destRemain - 1, 0)
           else Ok (target, destRemain, target_chr));
        mm ← mask MSBmask (7 - i);
        let target_chr := Z.lor target_chr (Z.shiftr (Z.land source_chr mm) (Z.rem (8 - iStore) 8)) in
        let iStore := if iStore - 1 <? 0 then 7 else iStore - 1 in
        let i := if negb (iStore =? 0) then (if 7 <? i + 1 then 1 else i + 1) else i in
        encode7_loop source target destRemain i iStore (posS + 1) target_chr fuel
  end.

(** [destRemain] is the exact [ceil] of a quotient by 8. *)
Definition at2_encode7bituncompressed (source : Octstr) (offset : Z) : res Octstr :=
  n ← octstr_len (Some source);
  let destRemain := (n * 7 + offset + 7) / 8 in
  target ← octstr_create [];
  '(target, destRemain, target_chr) ←
    encode7_loop source target destRemain (if negb (offset =? 0) then 8 - offset else 7) offset 0 0 (S (Z.to_nat n));
  if 0 <? destRemain then octstr_append_char target target_chr else Ok target.

(** ** Numbers *)

(** The argument is an [unsigned char]. *)
Definition swap_nibbles (byte : Z) : Z := let byte := byte mod 256 in Z.land byte 15 * 10 + Z.shiftr byte 4.

Fixpoint semi_octets (temp out : Octstr) (fuel : nat) : res (option Octstr) :=
  match fuel with
  | O => Undef
  | S fuel =>
      n ← octstr_len (Some temp);
      if 0 <? n then
        a ← octstr_get_char temp 0;
        b ← octstr_get_char temp 1;
        let digit1 := a - 48 in
        let digit2 := if b - 48 <? 0 then 15 else b - 48 in
        if (0 <=? digit1) && (digit1 <? 16) && (digit2 <? 16) then
          out ← octstr_append_char out (Z.lor (Z.shiftl digit2 4) digit1);
          temp ← octstr_delete temp 0 2;
          semi_octets temp out fuel
        else Ok None
      else Ok (Some out)
  end.

(** [strncmp] with a literal on its length. *)
Definition begins_with (s p : list Z) : bool := bool_decide (take (length p) s = p).

Definition at2_format_address_field (msisdn : option Octstr) : res (option Octstr) :=
  match msisdn with
  | None => Panic
  | Some msisdn =>
      out ← octstr_create [];
      temp ← octstr_duplicate (Some msisdn);
      match temp with
      | None => Undef
      | Some temp =>
          temp ← octstr_strip_blanks temp;
          let s := cstr (cstr_block msisdn) in
          '(temp, inter) ←
            (if begins_with s [43] then temp ← octstr_delete temp 0 1; Ok (temp, true)
             else if begins_with s [48; 48] then temp ← octstr_delete temp 0 2; Ok (temp, true)
             else Ok (temp, false));
          n ← octstr_len (Some temp);
          out ← octstr_append_char out n;
          out ← octstr_append_char out (Z.lor (Z.lor 128 1) (if inter : bool then 16 else 0));
          semi_octets temp out (S (Z.to_nat n))
      end
  end.

Definition nibble2hex (b : Z) : Z := (if b <? 10 then 48 + b else 65 + b - 10) mod 256.

Fixpoint gsm2number_loop (pdu tmp : Octstr) (pos : Z) (n : nat) : res Octstr :=
  match n with
  | O => Ok tmp
  | S k =>
      c ← octstr_get_char pdu pos;
      let c := c mod 256 in
      let a := Z.land c 15 in
      let b := Z.shiftr (Z.land c 240) 4 in
      tmp ← octstr_append_char tmp (nibble2hex a);
      tmp ← (if (b =? 15) && (n <? 2)%nat then Ok tmp else octstr_append_char tmp (nibble2hex b));
      gsm2number_loop pdu tmp (pos + 1) k
  end.

Definition gsm2number (pdu : Octstr) : res Octstr :=
  len ← octstr_len (Some pdu);
  if len <=? 0 then octstr_create []
  else
    ton ← octstr_get_char pdu 0;
    let ton := Z.land (Z.shiftr ton 4) 7 in
    tmp ← octstr_create (if ton =? 1 then [43] else if ton =? 2 then [48] else []);
    gsm2number_loop pdu tmp 1 (Z.to_nat (len - 1)).

(** ** The PDU in a line of the modem *)

(** Where the length is: after "+CDS:", or after the comma of "+CMT:" or the second
    one of "+CMGR:". *)
Definition find_length (privdata : PrivAT2data) (buffer : Octstr) : res (option Z) :=
  pos ← octstr_search buffer (octstr_imm [43; 67; 68; 83; 58]) 0;
  if negb (pos =? -1) then Ok (Some (pos + 5))
  else
    pos ← octstr_search buffer (octstr_imm [43; 67; 77; 84; 58]) 0;
    pos ← (if negb (pos =? -1) then Ok (Some (pos + 5))
           else
             pos ← octstr_search buffer (octstr_imm [43; 67; 77; 71; 82; 58]) 0;
             if negb (pos =? -1) then
               pos ← octstr_search buffer (octstr_imm [44]) (pos + 6);
               Ok (if negb (pos =? -1) then Some (pos + 1) else None)
             else Ok None);
    match pos with
    | None => Ok None
    | Some pos =>
        tmp ← octstr_search buffer (octstr_imm [44]) pos;
        Ok (if negb (broken privdata) && (tmp =? -1) then None
            else if negb (tmp =? -1) then Some (tmp + 1) else Some pos)
    end.

Fixpoint skip_spaces (buffer : Octstr) (pos : Z) (fuel : nat) : res Z :=
  match fuel with
  | O => Undef
  | S fuel =>
      c ← octstr_get_char buffer pos;
      if isspace c then skip_spaces buffer (pos + 1) fuel else Ok pos
  end.

(** The number of the centre at [pos], and the position after it. *)
Definition read_smsc (buffer smsc_number : Octstr) (pos : Z) : res (option (Octstr * Z)) :=
  a ← octstr_get_char buffer pos;
  b ← octstr_get_char buffer (pos + 1);
  let tmp := at2_hexchar a * 16 + at2_hexchar b in
  if tmp <? 0 then Ok None
  else
    numtmp ← octstr_create_from_data (cstr_block buffer) (pos + 2) (tmp * 2);
    '(_, numtmp) ← octstr_hex_to_binary numtmp;
    tmp2 ← gsm2number numtmp;
    smsc_number ← octstr_append smsc_number (Some tmp2);
    Ok (Some (smsc_number, pos + (2 + tmp * 2))).

(** [at2_pdu_extract]: the PDU, [None] for no message, and the number of the centre. *)
Definition at2_pdu_extract (privdata : PrivAT2data) (line smsc_number : Octstr) : res (option Octstr * Octstr) :=
  b ← octstr_duplicate (Some line);
  match b with
  | None => Undef
  | Some buffer =>
      pos ← find_length privdata buffer;
      match pos with
      | None => Ok (None, smsc_number)
      | Some pos =>
          r ← octstr_parse_long buffer pos 10;
          match r with
          | None => Ok (None, smsc_number)
          | Some (len, pos) =>
              if len =? 0 then Ok (None, smsc_number)
              else
                n ← octstr_len (Some buffer);
                pos ← skip_spaces buffer pos (S (Z.to_nat n));
                t ← octstr_truncate (Some smsc_number) 0;
                match t with
                | None => Undef
                | Some smsc_number =>
                    r ← (if negb (no_smsc privdata) then read_smsc buffer smsc_number pos else Ok (Some (smsc_number, pos)));
                    match r with
                    | None => Ok (None, smsc_number)
                    | Some (smsc_number, pos) =>
                        if negb (broken privdata) && (n <? len * 2 + pos) then Ok (None, smsc_number)
                        else if broken privdata && (n <? len * 2) then Ok (None, smsc_number)
                        else
                          pdu ← octstr_copy (Some buffer) pos (len * 2);
                          Ok (Some pdu, smsc_number)
                    end
                end
          end
      end
  end.

(** ** SUBMIT *)

(** The relative validity period for [val] minutes: the tests of the code in their
    order, each of which may set the value again. *)
Definition relative_validity (val : Z) : Z :=
  let v := 0 in
  let v := if 635040 <? val then 255 else v in
  let v := if (50400 <=? val) && (val <=? 635040) then Z.quot (Z.quot (Z.quot (val - 1) 7) 24) 60 + 192 + 1 else v in
  let v := if (43200 <? val) && (val <? 50400) then 197 else v in
  let v := if (2880 <=? val) && (val <=? 43200) then Z.quot (Z.quot (val - 1) 24) 60 + 166 + 1 else v in
  let v := if (1440 <? val) && (val <? 2880) then 168 else v in
  let v := if (750 <=? val) && (val <=? 1440) then Z.quot (val - 720 - 1) 30 + 143 + 1 else v in
  let v := if (720 <? val) && (val <? 750) then 144 else v in
  let v := if (5 <=? val) && (val <=? 720) then Z.quot (val - 1) 5 - 1 + 1 else v in
  if val <? 5 then 0 else v.

Definition atoi (s : list Z) : Z := swrap 32 (strtol s 10).1.1.

Definition set_validity (p : sms) (privdata : PrivAT2data) (now : Z) : Z :=
  if negb (sms_validity p =? MSG_PARAM_UNDEFINED) then relative_validity (Z.quot (sms_validity p - now) 60)
  else match validityperiod privdata with
       | Some v => atoi (cstr (cstr_block v))
       | None => 167
       end.

(** The length in the PDU, and the message, whose text may be cut. *)
Definition user_data_length (p : sms) : res (Z * sms) :=
  len ← sms_msgdata_len p;
  u ← octstr_len (sms_udhdata p);
  if u =? 0 then Ok (len, p)
  else
    let octets := (sms_coding p =? DC_8BIT) || (sms_coding p =? DC_UCS2) in
    let head := if octets then u else Z.quot (8 * u + 6) 7 in
    let max := if octets then SMS_8BIT_MAX_LEN else SMS_7BIT_MAX_LEN in
    let len := len + head in
    if max <? len then
      match sms_msgdata p with
      | None => Panic
      | Some md =>
          md ← octstr_delete md (max - head) 9999;
          Ok (max, set_msgdata p (Some md))
      end
    else Ok (len, p).

(** The fill bits after a header of [n] octets. *)
Definition fill_bits (n : Z) : Z := let nbits := n * 8 in Z.rem ((Z.quot nbits 7 + 1) * 7 - nbits) 7.

(** The text, as it follows the header. *)
Definition append_user_data (buffer : Octstr) (p : sms) : res Octstr :=
  if (sms_coding p =? DC_8BIT) || (sms_coding p =? DC_UCS2) then octstr_append buffer (sms_msgdata p)
  else
    u ← octstr_len (sms_udhdata p);
    let offset := if u =? 0 then 0 else fill_bits u in
    msgdata ← octstr_duplicate (sms_msgdata p);
    msgdata ← charset_utf8_to_gsm msgdata;
    match msgdata with
    | None => Panic
    | Some msgdata =>
        temp ← at2_encode7bituncompressed msgdata offset;
        octstr_append buffer (Some temp)
    end.

(** The first octet. *)
Definition submit_type (p : sms) (udh : bool) : Z :=
  Z.lor (Z.lor (Z.lor (Z.lor (Z.shiftl (if 0 <? sms_rpi p then 1 else 0) 7) (Z.shiftl (if udh then 1 else 0) 6))
    (Z.shiftl (if DLR_IS_ENABLED_DEVICE (sms_dlr_mask p) then 1 else 0) 5)) 16) 1.

(** [at2_pdu_encode]: the text of the PDU, and the message, which may have changed. *)
Definition at2_pdu_encode (p : sms) (privdata : PrivAT2data) (now : Z) : res (option Octstr * sms) :=
  buffer ← octstr_create [];
  u ← octstr_len (sms_udhdata p);
  buffer ← octstr_append_char buffer (submit_type p (negb (u =? 0)));
  buffer ← octstr_append_char buffer 0;
  temp ← at2_format_address_field (sms_receiver p);
  match temp with
  | None => Ok (None, p)
  | Some temp =>
      buffer ← octstr_append buffer (Some temp);
      buffer ← octstr_append_char buffer (if sms_pid p =? UNDEF then 0 else sms_pid p);
      '(dcs, p) ← fields_to_dcs p (if negb (sms_alt_dcs p =? UNDEF) then sms_alt_dcs p else at_alt_dcs privdata);
      buffer ← octstr_append_char buffer dcs;
      buffer ← octstr_append_char buffer (set_validity p privdata now);
      '(len, p) ← user_data_length p;
      buffer ← octstr_append_char buffer len;
      buffer ← (if u =? 0 then Ok buffer else octstr_append buffer (sms_udhdata p));
      buffer ← append_user_data buffer p;
      pdu ← at2_encode8bituncompressed buffer;
      Ok (Some pdu, p)
  end.

(** ** DELIVER and STATUS-REPORT *)

(** The digits of an address of [len] semi-octets from [pos] on. *)
Fixpoint address_digits (pdu origin : Octstr) (i len pos : Z) (fuel : nat) : res (Octstr * Z) :=
  match fuel with
  | O => Undef
  | S fuel =>
      if i <? len then
        c ← octstr_get_char pdu pos;
        origin ← octstr_append_char origin (Z.land c 15 + 48);
        origin ← (if i + 1 <? len then octstr_append_char origin (Z.shiftr c 4 + 48) else Ok origin);
        address_digits pdu origin (i + 2) len (pos + 1) fuel
      else Ok (origin, pos)
  end.

(** An address: [copied] octets are copied for an alphanumeric one.  Its text, and the
    position after it. *)
Definition read_address (pdu : Octstr) (ntype len pos copied : Z) : res (Octstr * Z) :=
  origin ← octstr_create [];
  if Z.land ntype 208 =? 208 then
    tmpstr ← octstr_copy (Some pdu) pos copied;
    origin ← at2_decode7bituncompressed tmpstr (Z.quot ((len - 1) * 4 - 3) 7 + 1) origin 0;
    Ok (origin, pos + Z.quot (len + 1) 2)
  else
    origin ← (if Z.land ntype 144 =? 144 then octstr_append_char origin 43 else Ok origin);
    address_digits pdu origin 0 len pos (S (Z.to_nat len)).

(** The time zone in quarters of an hour, of the octet [c]. *)
Definition at2_timezone (c : Z) : Z :=
  let timezone := swap_nibbles c in
  (if Z.shiftr timezone 7 =? 0 then 1 else -1) * Z.land timezone 127.

(** The time stamp of seven octets at [pos]. *)
Definition read_timestamp (pdu : Octstr) (pos junk : Z) : res Z :=
  y ← octstr_get_char pdu pos;
  mo ← octstr_get_char pdu (pos + 1);
  d ← octstr_get_char pdu (pos + 2);
  h ← octstr_get_char pdu (pos + 3);
  mi ← octstr_get_char pdu (pos + 4);
  s ← octstr_get_char pdu (pos + 5);
  z ← octstr_get_char pdu (pos + 6);
  let year := swap_nibbles y in
  let timezone := at2_timezone z in
  date_convert_universal (mkTime (swap_nibbles d) (swap_nibbles mo - 1) (year + (if year <? 70 then 2000 else 1900))
    (swap_nibbles h - Z.quot timezone 4) (swap_nibbles mi - 15 * Z.rem timezone 4) (swap_nibbles s) junk).

(** The text of a message without its header; [udhlen] is used where [udhi] is set. *)
Definition read_user_data (pdu : Octstr) (coding : Z) (udhi : bool) (udhlen pos len : Z) : res Octstr :=
  tmpstr ← octstr_copy (Some pdu) pos len;
  if (coding =? DC_8BIT) || (coding =? DC_UCS2) then
    t ← octstr_duplicate (Some tmpstr);
    match t with
    | Some t => Ok t
    | None => Undef
    end
  else
    text ← octstr_create [];
    let '(offset, len) :=
      if udhi && (coding =? DC_7BIT) then (fill_bits (udhlen + 1), len + udhlen + 1 - Z.quot (8 * (udhlen + 1) + 6) 7)
      else (0, len) in
    at2_decode7bituncompressed tmpstr len text offset.

(** The header: whether there is one, its length without the first octet, the header,
    and what is left. *)
Definition read_udh (pdu : Octstr) (udhi : bool) (pos len : Z) : res (option (bool * Z * option Octstr * Z * Z)) :=
  if udhi && (0 <? len) then
    udhlen ← octstr_get_char pdu pos;
    if len <? udhlen + 1 then Ok None
    else
      udh ← octstr_copy (Some pdu) pos (udhlen + 1);
      Ok (Some (true, udhlen, Some udh, pos + 1 + udhlen, len - (udhlen + 1)))
  else Ok (Some (udhi && negb (len <=? 0), 0, None, pos, len)).

Definition at2_pdu_decode_deliver_sm (data : Octstr) (privdata : PrivAT2data) (id1 id2 : list Z) (junk : Z) : res (option Msg) :=
  pdu ← at2_convertpdu data;
  c0 ← octstr_get_char pdu 0;
  let udhi := negb (Z.land c0 64 =? 0) in
  len ← octstr_get_char pdu 1;
  if 20 <? len then Ok None
  else
    ntype ← octstr_get_char pdu 2;
    '(origin, pos) ← read_address pdu ntype len 3 len;
    n ← octstr_len (Some pdu);
    if n <? pos then Ok None
    else
      pid ← octstr_get_char pdu pos;
      dcs ← octstr_get_char pdu (pos + 1);
      stime ← read_timestamp pdu (pos + 2) junk;
      len ← octstr_get_char pdu (pos + 9);
      h ← read_udh pdu udhi (pos + 10) len;
      match h with
      | None => Ok None
      | Some (udhi, udhlen, udh, pos, len) =>
          if (n <? pos) || (len <? 0) then Ok None
          else
            let message := msg_create id1 id2 T_SMS in
            let '(ok, p) := dcs_to_fields (m_sms message) dcs in
            let p := if ok =? 0 then (dcs_to_fields p 0).2 else p in
            let p := set_pid p pid in
            text ← read_user_data pdu (sms_coding p) udhi udhlen pos len;
            n ← octstr_len (my_number privdata);
            receiver ← (if n =? 0 then octstr_create [49; 50; 51; 52]
                        else o ← octstr_duplicate (my_number privdata); match o with Some o => Ok o | None => Undef end);
            let p := set_receiver (set_sender p (Some origin)) (Some receiver) in
            let p := if udhi : bool then set_udhdata p udh else p in
            Ok (Some (with_sms message (set_sms_time (set_msgdata p (Some text)) stime)))
      end.

(** The type of a report, and its text. *)
Definition report_type (c : Z) : Z * list Z :=
  let c := Z.land c 224 in
  if c =? 0 then (DLR_SUCCESS, [83; 117; 99; 99; 101; 115; 115])
  else if c =? 32 then (DLR_BUFFERED, [66; 117; 102; 102; 101; 114; 101; 100])
  else (DLR_FAIL, [70; 97; 105; 108; 101; 100]).

Section reports_at.
Context `{!Printf} {S : Type} (handles : option (dlr_storage S)).

Definition at2_pdu_decode_report_sm (st : S) (data : Octstr) (privdata : PrivAT2data) (id1 id2 : list Z) (now : Z)
  : res (option Msg * S) :=
  pdu ← at2_convertpdu data;
  tp_mr ← octstr_get_char pdu 1;
  msg_id ← octstr_format [37; 100] [AInt tp_mr];
  len ← octstr_get_char pdu 2;
  ntype ← octstr_get_char pdu 3;
  '(receiver, pos) ← read_address pdu ntype len 4 (Z.quot (len + 1) 2);
  type ← octstr_get_char pdu (pos + 14);
  if type =? -1 then Ok (None, st)
  else
    let '(type, text) := report_type type in
    '(dlrmsg, st) ← dlr_find handles st id1 id2 now (at_conn_id privdata) (Some msg_id) (Some receiver) type false;
    match dlrmsg with
    | None => Ok (None, st)
    | Some m =>
        t ← octstr_create text;
        Ok (Some (with_sms m (set_msgdata (m_sms m) (Some t))), st)
    end.

Definition at2_pdu_decode (st : S) (data : Octstr) (privdata : PrivAT2data) (id1 id2 : list Z) (now junk : Z) : res (option Msg * S) :=
  c ← octstr_get_char data 1;
  let type := Z.land c 3 in
  if type =? AT_DELIVER_SM then m ← at2_pdu_decode_deliver_sm data privdata id1 id2 junk; Ok (m, st)
  else if type =? AT_STATUS_REPORT_SM then at2_pdu_decode_report_sm st data privdata id1 id2 now
  else Ok (None, st).
End reports_at.
