(* ===== verification/AtSeptets.v ===== *)
(** * Septets of GSM modems

    The packing of septets into octets of At.v is that of a number written in two
    bases: the septets are its digits to the base 128, the octets its digits to the
    base 256, after the fill bits. *)

From stdpp Require Import list.
From S2P Require Import Prelude Octstr OctstrSearch OctstrCode OctstrFormat OctstrParts Date GwList PrioQueue Uuid Msg Charset Sms MetaData Dlr At.
#[local] Open Scope Z_scope.
#[local] Open Scope kannel_scope.

(** ** Digits, least significant first *)

Definition le_value (base : Z) (ds : list Z) : Z := foldr (fun d v => d + base * v) 0 ds.

Fixpoint le_digits (base : Z) (n : nat) (v : Z) : list Z :=
  match n with
  | O => []
  | S n => v mod base :: le_digits base n (v / base)
  end.

Definition is_digit (base d : Z) : Prop := 0 <= d < base.

Section digits.
Context (base : Z) (Hbase : 1 < base).

Lemma le_value_app ds es : le_value base (ds ++ es) = le_value base ds + base ^ zlen ds * le_value base es.
Proof.
  induction ds as [|d ds IH]; [change (zlen []) with 0; rewrite Z.pow_0_r; change (le_value base []) with 0; cbn [app]; lia|].
  change (d + base * le_value base (ds ++ es) = d + base * le_value base ds + base ^ zlen (d :: ds) * le_value base es). rewrite IH. replace (zlen (d :: ds)) with (1 + zlen ds) by list_lia.
  rewrite Z.pow_add_r by (pose proof (zlen_nonneg ds); lia). lia.
Qed.

Lemma le_value_range ds : Forall (is_digit base) ds -> 0 <= le_value base ds < base ^ zlen ds.
Proof.
  induction 1 as [|d ds Hd _ IH]; [change (zlen []) with 0; rewrite Z.pow_0_r; cbn; lia|]. cbn [le_value foldr]. fold (le_value base ds).
  replace (zlen (d :: ds)) with (1 + zlen ds) by list_lia. rewrite Z.pow_add_r by (pose proof (zlen_nonneg ds); lia).
  unfold is_digit in Hd. nia.
Qed.

Lemma le_digits_value ds : Forall (is_digit base) ds -> le_digits base (length ds) (le_value base ds) = ds.
Proof.
  induction 1 as [|d ds Hd _ IH]; [done|]. cbn [length le_digits le_value foldr]. fold (le_value base ds). unfold is_digit in Hd.
  rewrite Z.mul_comm, Z.mod_add, Z.mod_small, Z.div_add, Z.div_small, Z.add_0_l by lia. by f_equal.
Qed.

Lemma le_digits_length (n : nat) : forall v, length (le_digits base n v) = n.
Proof. induction n; intros v; cbn; auto. Qed.

Lemma le_digits_lookup (n : nat) : forall (i : nat) v, (i < n)%nat -> le_digits base n v !! i = Some (v / base ^ Z.of_nat i mod base).
Proof.
  induction n as [|n IH]; intros i v Hi; [lia|]. destruct i as [|i]; cbn [le_digits lookup list_lookup].
  - by rewrite Z.pow_0_r, Z.div_1_r.
  - rewrite IH by lia. rewrite Nat2Z.inj_succ, Z.pow_succ_r by lia. by rewrite Z.div_div by lia.
Qed.

Lemma le_digits_ok (n : nat) : forall v, Forall (is_digit base) (le_digits base n v).
Proof. induction n; intros v; cbn; [apply Forall_nil_2|]. apply Forall_cons_2; [apply Z.mod_pos_bound; lia|done]. Qed.

Lemma le_value_digits (n : nat) : forall v, 0 <= v < base ^ Z.of_nat n -> le_value base (le_digits base n v) = v.
Proof.
  induction n as [|n IH]; intros v Hv; [cbn in *; lia|]. cbn [le_digits le_value foldr]. fold (le_value base (le_digits base n (v / base))).
  rewrite IH; [pose proof (Z.div_mod v base); lia|]. rewrite Nat2Z.inj_succ, Z.pow_succ_r in Hv by lia.
  split; [apply Z.div_pos; lia|apply Z.div_lt_upper_bound; lia].
Qed.

(** Digits above the first [n] do not matter. *)
Lemma le_digits_above (n : nat) : forall v w, le_digits base n (v + base ^ Z.of_nat n * w) = le_digits base n v.
Proof.
  induction n as [|n IH]; intros v w; [done|]. cbn [le_digits]. rewrite Nat2Z.inj_succ, Z.pow_succ_r by lia.
  replace (v + base * base ^ Z.of_nat n * w) with (v + base ^ Z.of_nat n * w * base) by lia.
  rewrite Z.mod_add, Z.div_add by lia. by rewrite IH.
Qed.
End digits.

(** The octets of the septets [ss] after [off] fill bits. *)
Definition packed_septets (off : Z) (ss : list Z) : list Z :=
  le_digits 256 (Z.to_nat ((7 * zlen ss + off + 7) / 8)) (le_value 128 ss * 2 ^ off).

(** ** The encoder *)

Definition mask_index (iStore : Z) : Z := if iStore =? 0 then 7 else 8 - iStore.

Lemma masks_ok : forallb (fun k => forallb (fun s =>
  (Z.land s (default 0 (LSBmask !! Z.to_nat k)) =? s mod 2 ^ k) &&
  (Z.shiftr (Z.land s (default 0 (MSBmask !! Z.to_nat (7 - k)))) (Z.rem k 8) =? s / 2 ^ k)) (seqZ 0 128)) (seqZ 1 7) = true.
Proof. vm_compute. reflexivity. Qed.

Lemma mask_some t i : 0 <= i < zlen t -> mask t i = Ok (default 0 (t !! Z.to_nat i)).
Proof.
  intros Hi. unfold mask. destruct (Z.leb_spec 0 i); [|lia]. destruct (lookup_lt_is_Some_2 t (Z.to_nat i)) as [m Hm]; [list_lia|]. by rewrite Hm.
Qed.

Lemma masks_split k s : 1 <= k <= 7 -> 0 <= s < 128 ->
  Z.land s (default 0 (LSBmask !! Z.to_nat k)) = s mod 2 ^ k /\
  Z.shiftr (Z.land s (default 0 (MSBmask !! Z.to_nat (7 - k)))) (Z.rem k 8) = s / 2 ^ k.
Proof.
  intros Hk Hs. pose proof masks_ok as H. rewrite forallb_forall in H. specialize (H k). rewrite <- list_elem_of_In, elem_of_seqZ in H.
  specialize (H ltac:(lia)). rewrite forallb_forall in H. specialize (H s). rewrite <- list_elem_of_In, elem_of_seqZ in H.
  specialize (H ltac:(lia)). apply andb_true_iff in H as [H1 H2]. lia.
Qed.

(** After the septets [done]: the octets [out] are written, and [t] has the [k] bits
    that wait. *)
Record packing (off : Z) (done out : list Z) (t k : Z) : Prop := {
  pk_bits : 8 * zlen out + k = 7 * zlen done + off;
  pk_k : 0 <= k < 8;
  pk_t : 0 <= t < 2 ^ k;
  pk_out : Forall (is_digit 256) out;
  pk_value : le_value 256 out + t * 256 ^ zlen out = le_value 128 done * 2 ^ off
}.

Lemma packing_start off : 0 <= off < 8 -> packing off [] [] 0 off.
Proof.
  intros Ho. constructor; [change (zlen []) with 0; lia|done|pose proof (Z.pow_pos_nonneg 2 off); lia|apply Forall_nil_2|done].
Qed.

Lemma packing_value off done out t k s : 0 <= off -> packing off done out t k ->
  le_value 128 (done ++ [s]) * 2 ^ off = le_value 256 out + 256 ^ zlen out * (t + s * 2 ^ k).
Proof.
  intros Hoff [Hb Hk Ht Ho Hv]. rewrite le_value_app. change (le_value 128 [s]) with (s + 128 * 0).
  rewrite Z.mul_add_distr_r, <- Hv. pose proof (zlen_nonneg out). pose proof (zlen_nonneg done).
  replace (128 ^ zlen done) with (2 ^ (7 * zlen done)) by (by rewrite Z.pow_mul_r by lia).
  replace (256 ^ zlen out) with (2 ^ (8 * zlen out)) by (by rewrite Z.pow_mul_r by lia).
  replace (2 ^ (7 * zlen done) * (s + 128 * 0) * 2 ^ off) with (s * (2 ^ (8 * zlen out) * 2 ^ k)); [lia|].
  rewrite <- Z.pow_add_r by lia. rewrite Hb, Z.pow_add_r by lia. lia.
Qed.

Lemma packing_wait off done out t s : 0 <= off -> packing off done out t 0 -> 0 <= s < 128 -> packing off (done ++ [s]) out s 7.
Proof.
  intros Hoff H Hs. pose proof (packing_value off done out t 0 s Hoff H) as Hv. destruct H as [Hb _ Ht Ho _]. rewrite Z.pow_0_r in Ht.
  constructor; [list_lia|lia|lia|done|]. rewrite Hv, Z.pow_0_r. replace t with 0 by lia. lia.
Qed.

Lemma store_identity L t m q P K W s : P * K = 256 -> s = P * q + m ->
  L + W * (t + m * K + 256 * 0) + q * (256 ^ 1 * W) = L + W * (t + s * K).
Proof. intros E ->. change (256 ^ 1) with 256. rewrite <- E. ring. Qed.

Lemma packing_store off done out t k s : 0 <= off -> packing off done out t k -> k <> 0 -> 0 <= s < 128 ->
  packing off (done ++ [s]) (out ++ [t + s mod 2 ^ (8 - k) * 2 ^ k]) (s / 2 ^ (8 - k)) (k - 1).
Proof.
  intros Hoff H Hk0 Hs. pose proof (packing_value off done out t k s Hoff H) as Hv. destruct H as [Hb Hk Ht Ho _].
  assert (2 ^ (8 - k) * 2 ^ k = 256) as E8 by (rewrite <- Z.pow_add_r by lia; by replace (8 - k + k) with 8 by lia).
  assert (2 ^ (8 - k) * 2 ^ (k - 1) = 128) as E7 by (rewrite <- Z.pow_add_r by lia; by replace (8 - k + (k - 1)) with 7 by lia).
  pose proof (Z.pow_pos_nonneg 2 (8 - k) ltac:(lia) ltac:(lia)) as Hp. pose proof (Z.mod_pos_bound s (2 ^ (8 - k)) Hp) as Hm.
  pose proof (Z.div_mod s (2 ^ (8 - k)) ltac:(lia)) as Hd. constructor; [list_lia|lia| | |].
  - split; [apply Z.div_pos; lia|]. apply Z.div_lt_upper_bound; lia.
  - apply Forall_app. split; [done|]. apply Forall_cons_2; [|apply Forall_nil_2]. unfold is_digit. nia.
  - rewrite le_value_app. change (le_value 256 [?x]) with (x + 256 * 0). replace (zlen (out ++ [_])) with (1 + zlen out) by list_lia.
    rewrite (Z.pow_add_r 256 1) by (pose proof (zlen_nonneg out); lia). rewrite Hv.
    by apply (store_identity _ t _ _ (2 ^ (8 - k))).
Qed.

(** ** The loop *)

Lemma encode7_loop_ok off D (fuel : nat) : 0 <= off -> forall rest source done target out t k,
  repr source (done ++ rest) -> Forall (is_digit 128) rest -> reprm target out -> packing off done out t k -> (length rest < fuel)%nat ->
  returns (encode7_loop source target (D - zlen out) (mask_index k) k (zlen done) t fuel) (fun '(target', D', t') => exists out' k',
    reprm target' out' /\ D' = D - zlen out' /\ packing off (done ++ rest) out' t' k').
Proof.
  intros Hoff. induction fuel as [|fuel IH]; intros rest source done target out t k Hsrc Hrest Htg Hp Hf; [lia|]. cbn [encode7_loop].
  rewrite (octstr_get_char_ok source _ _ Hsrc). bind_red. destruct rest as [|s rest].
  - rewrite app_nil_r in *. rewrite char_at_end by done. cbn. exists out, k. done.
  - apply Forall_cons_iff in Hrest as [Hs Hrest]. unfold is_digit in Hs.
    rewrite char_at_mid.
    destruct (Z.eqb_spec s (-1)); [lia|]. replace (done ++ s :: rest) with ((done ++ [s]) ++ rest) in * by (by rewrite <- app_assoc).
    replace (zlen done + 1) with (zlen (done ++ [s])) by list_lia. pose proof (pk_k _ _ _ _ _ Hp) as Hk.
    remember (mask_index k) as mi eqn:Emi. unfold mask_index in Emi. destruct (Z.eqb_spec k 0) as [->|Hk0]; subst mi.
    + rewrite mask_some by done. bind_red. cbn [negb]. bind_red. rewrite mask_some by done. bind_red. cbn zeta.
      destruct (masks_split 7 s ltac:(lia) ltac:(lia)) as [-> _]. change (7 - 7) with 0. change (default 0 (MSBmask !! Z.to_nat 0)) with 0.
      rewrite Z.land_0_r, Z.shiftr_0_l, Z.lor_0_r, Z.shiftl_0_r. rewrite (Z.mod_small s (2 ^ 7)) by lia.
      pose proof (pk_t _ _ _ _ _ Hp) as Ht. rewrite Z.pow_0_r in Ht. replace t with 0 in * by lia. rewrite Z.lor_0_l.
      apply (IH rest source (done ++ [s]) target out s 7); [done|done|done|by apply (packing_wait off done out 0 s)|cbn in Hf; lia].
    + pose proof (packing_store off done out t k s Hoff Hp Hk0 ltac:(lia)) as Hp'. pose proof (pk_t _ _ _ _ _ Hp) as Ht.
      rewrite (mask_some LSBmask) by (change (zlen LSBmask) with 8; lia). bind_red. destruct (masks_split (8 - k) s ltac:(lia) ltac:(lia)) as [-> Hmsb].
      cbn [negb]. rewrite (Z.lor_comm t), lor_shiftl_add by lia. rewrite (Z.add_comm _ t).
      apply returns_bind. apply returns_bind. pose proof (pk_out _ _ _ _ _ Hp') as Ho. apply Forall_app in Ho as [_ Ho]. apply Forall_cons_iff in Ho as [Ho _].
      apply (returns_mono _ _ _ (octstr_append_char_ok target out _ Htg Ho)). intros target' Htg'. cbn [returns].
      rewrite (mask_some MSBmask) by (change (zlen MSBmask) with 8; lia). bind_red. cbn zeta. rewrite Hmsb, Z.lor_0_l.
      destruct (Z.ltb_spec (k - 1) 0); [lia|].
      replace (if negb (k - 1 =? 0) then if 7 <? 8 - k + 1 then 1 else 8 - k + 1 else 8 - k) with (mask_index (k - 1))
        by (unfold mask_index; destruct (Z.eqb_spec (k - 1) 0), (Z.ltb_spec 7 (8 - k + 1)); cbn [negb]; lia).
      replace (D - zlen out - 1) with (D - zlen (out ++ [t + s mod 2 ^ (8 - k) * 2 ^ k])) by list_lia.
      apply IH; [done|done|done|done|cbn in Hf; lia].
Qed.

Lemma packing_end off ss out t k : packing off ss out t k ->
  packed_septets off ss = if 0 <? (zlen ss * 7 + off + 7) / 8 - zlen out then out ++ [t] else out.
Proof.
  intros [Hb Hk Ht Ho Hv]. unfold packed_septets. replace (7 * zlen ss + off + 7) with (k + 7 + zlen out * 8) by lia.
  replace (zlen ss * 7 + off + 7) with (k + 7 + zlen out * 8) by lia. rewrite Z.div_add, <- Hv by lia.
  pose proof (Z.pow_le_mono_r 2 k 8 ltac:(lia) ltac:(lia)) as H8. destruct (decide (k = 0)) as [->|Hk0].
  - change ((0 + 7) / 8) with 0. destruct (Z.ltb_spec 0 (0 + zlen out - zlen out)); [lia|]. rewrite Z.pow_0_r in Ht. replace t with 0 by lia.
    rewrite Z.mul_0_l, Z.add_0_r. replace (Z.to_nat (0 + zlen out)) with (length out) by list_lia. by apply le_digits_value.
  - replace ((k + 7) / 8) with 1 by (apply (Z.div_unique _ _ _ (k - 1)); lia). destruct (Z.ltb_spec 0 (1 + zlen out - zlen out)); [|lia].
    assert (le_value 256 out + t * 256 ^ zlen out = le_value 256 (out ++ [t])) as ->
      by (rewrite le_value_app; change (le_value 256 [t]) with (t + 256 * 0); lia).
    replace (Z.to_nat (1 + zlen out)) with (length (out ++ [t])) by list_lia. apply le_digits_value; [done|].
    apply Forall_app. split; [done|]. apply Forall_cons_2; [unfold is_digit; lia|apply Forall_nil_2].
Qed.

Lemma at2_encode7bituncompressed_ok source ss off : repr source ss -> Forall (is_digit 128) ss -> 0 <= off < 8 ->
  returns (at2_encode7bituncompressed source off) (fun o => reprm o (packed_septets off ss)).
Proof.
  intros Hs Hd Ho. unfold at2_encode7bituncompressed. rewrite (octstr_len_ok source ss Hs). bind_red. apply returns_bind.
  apply (returns_mono _ _ _ (octstr_create_ok [] (Forall_nil_2 _))). intros target Ht. apply returns_bind.
  replace (if negb (off =? 0) then 8 - off else 7) with (mask_index off) by (unfold mask_index; by destruct (off =? 0)).
  eapply returns_mono.
  { replace ((zlen ss * 7 + off + 7) / 8) with ((zlen ss * 7 + off + 7) / 8 - zlen (@nil Z)) by (change (zlen []) with 0; lia).
    apply (encode7_loop_ok off _ _ (proj1 Ho) ss source [] target [] 0 off); [done|done|done|by apply packing_start|list_lia]. }
  intros [[target' D'] t] (out & k & Ho' & -> & Hp). cbn [app] in Hp. rewrite (packing_end _ _ _ _ _ Hp).
  destruct (_ <? _); [|done]. apply octstr_append_char_ok; [done|]. pose proof (pk_t _ _ _ _ _ Hp). pose proof (pk_k _ _ _ _ _ Hp).
  pose proof (Z.pow_le_mono_r 2 k 8 ltac:(lia) ltac:(lia)). unfold octet. lia.
Qed.

(** ** The decoder *)

Lemma decode_masks_ok : forallb (fun c => forallb (fun o =>
  (Z.land o (default 0 (at2_rmask !! Z.to_nat c)) =? o mod 2 ^ c) &&
  (Z.shiftr (Z.land o (default 0 (at2_lmask !! Z.to_nat (8 - c)))) c =? o / 2 ^ c)) (seqZ 0 256)) (seqZ 1 7) = true.
Proof. vm_compute. reflexivity. Qed.

Lemma decode_masks_split c o : 1 <= c <= 7 -> 0 <= o < 256 ->
  Z.land o (default 0 (at2_rmask !! Z.to_nat c)) = o mod 2 ^ c /\
  Z.shiftr (Z.land o (default 0 (at2_lmask !! Z.to_nat (8 - c)))) c = o / 2 ^ c.
Proof.
  intros Hc Ho. pose proof decode_masks_ok as H. rewrite forallb_forall in H. specialize (H c). rewrite <- list_elem_of_In, elem_of_seqZ in H.
  specialize (H ltac:(lia)). rewrite forallb_forall in H. specialize (H o). rewrite <- list_elem_of_In, elem_of_seqZ in H.
  specialize (H ltac:(lia)). apply andb_true_iff in H as [H1 H2]. lia.
Qed.

(** An octet of a string in its number. *)
Lemma octet_at s pos : octets s -> 0 <= pos < zlen s -> char_at s pos = le_value 256 s / 2 ^ (8 * pos) mod 256.
Proof.
  intros Hs Hp. rewrite Z.pow_mul_r by lia. change (2 ^ 8) with 256. rewrite <- (Z2Nat.id pos) by lia. apply char_at_lookup.
  rewrite <- le_digits_lookup with (n := length s) by (lia || list_lia). f_equal. symmetry. by apply le_digits_value.
Qed.

(** The bits of [v] from [a] on, [b] of them, then [n] more. *)
Lemma bits_split v a b n : 0 <= a -> 0 <= b -> 0 <= n ->
  v / 2 ^ a mod 2 ^ (b + n) = v / 2 ^ a mod 2 ^ b + 2 ^ b * (v / 2 ^ (a + b) mod 2 ^ n).
Proof.
  intros Ha Hb Hn. pose proof (Z.pow_pos_nonneg 2 a). pose proof (Z.pow_pos_nonneg 2 b). pose proof (Z.pow_pos_nonneg 2 n).
  rewrite !Z.pow_add_r, Z.rem_mul_r by lia. by rewrite Z.div_div by lia.
Qed.

Lemma bits_low v a m n : 0 <= a -> 0 <= n <= m -> (v / 2 ^ a mod 2 ^ m) mod 2 ^ n = v / 2 ^ a mod 2 ^ n.
Proof.
  intros Ha Hn. replace m with (n + (m - n)) by lia. rewrite bits_split by lia. rewrite Z.mul_comm, Z.mod_add.
  - apply Z.mod_mod. pose proof (Z.pow_pos_nonneg 2 n). lia.
  - pose proof (Z.pow_pos_nonneg 2 n). lia.
Qed.

Lemma bits_high v a m n : 0 <= a -> 0 <= n <= m -> (v / 2 ^ a mod 2 ^ m) / 2 ^ n = v / 2 ^ (a + n) mod 2 ^ (m - n).
Proof.
  intros Ha Hn. replace m with (n + (m - n)) at 1 by lia. rewrite bits_split by lia. pose proof (Z.pow_pos_nonneg 2 n).
  rewrite Z.mul_comm, Z.div_add by lia. rewrite Z.div_small; [lia|]. apply Z.mod_pos_bound. lia.
Qed.

(** One round of the loop: the septet that it writes, and the bits that it keeps. *)
Lemma decode_round s i r pos : octets s -> 1 <= r <= 7 -> 0 <= i -> 7 * i + (r - 1) = 8 * pos -> pos < zlen s ->
  let v := le_value 256 s in let o := char_at s pos in
  (o mod 2 ^ (8 - r)) * 2 ^ (r - 1) + v / 2 ^ (7 * i) mod 2 ^ (r - 1) = v / 2 ^ (7 * i) mod 128 /\
  o / 2 ^ (8 - r) = v / 2 ^ (7 * (i + 1)) mod 2 ^ r.
Proof.
  intros Hs Hr Hi Hb Hp v o. subst o. rewrite (octet_at s pos) by (done || lia). fold v. change 256 with (2 ^ 8). split.
  - rewrite bits_low by lia. replace 128 with (2 ^ (r - 1 + (8 - r))) by (by replace (r - 1 + (8 - r)) with 7 by lia).
    rewrite (bits_split v (7 * i) (r - 1) (8 - r)) by lia. replace (7 * i + (r - 1)) with (8 * pos) by lia. lia.
  - rewrite bits_high by lia. f_equal; f_equal; f_equal; lia.
Qed.

Lemma le_digits_next len i v : i < len -> 0 <= i ->
  le_digits 128 (Z.to_nat (len - i)) (v / 2 ^ (7 * i)) =
  v / 2 ^ (7 * i) mod 128 :: le_digits 128 (Z.to_nat (len - (i + 1))) (v / 2 ^ (7 * (i + 1))).
Proof.
  intros Hi H0. replace (Z.to_nat (len - i)) with (S (Z.to_nat (len - (i + 1)))) by lia. cbn [le_digits]. f_equal. f_equal.
  pose proof (Z.pow_pos_nonneg 2 (7 * i)). rewrite Z.div_div by lia. f_equal. rewrite (Z.mul_add_distr_l 7), Z.pow_add_r by lia. done.
Qed.

Lemma decode7_loop_ok input s len (fuel : nat) : repr input s -> 7 * len <= 8 * zlen s -> forall i r pos decoded d,
  reprm decoded d -> 1 <= r <= 7 -> 0 <= i -> i <= len -> (i < len -> 7 * i + (r - 1) = 8 * pos) -> (Z.to_nat (len - i) < fuel)%nat ->
  returns (decode7_loop input decoded len i r (8 - r) pos (char_at s pos mod 256) (le_value 256 s / 2 ^ (7 * i) mod 2 ^ (r - 1)) fuel)
    (fun o => reprm o (d ++ le_digits 128 (Z.to_nat (len - i)) (le_value 256 s / 2 ^ (7 * i)))).
Proof.
  intros Hin Hlen. pose proof (repr_octets _ _ Hin) as Hs. induction fuel as [|fuel IH]; intros i r pos decoded d Hd Hr Hi Hil Hb Hf; [lia|].
  cbn [decode7_loop]. destruct (Z.ltb_spec i len) as [Hlt|Hge].
  2:{ cbn [returns]. replace (Z.to_nat (len - i)) with 0%nat by lia. cbn [le_digits]. by rewrite app_nil_r. }
  specialize (Hb Hlt). assert (0 <= pos < zlen s) as Hp by lia. destruct (decode_round s i r pos Hs Hr Hi Hb ltac:(lia)) as [E1 E2]. cbn zeta in E1, E2.
  assert (0 <= char_at s pos < 256) as Hc by (rewrite octet_at by done; apply Z.mod_pos_bound; lia).
  rewrite (Z.mod_small (char_at s pos)) by done. rewrite (mask_some at2_rmask) by (change (zlen at2_rmask) with 8; lia). bind_red.
  rewrite (mask_some at2_lmask) by (change (zlen at2_lmask) with 8; lia). bind_red.
  destruct (decode_masks_split (8 - r) (char_at s pos) ltac:(lia) Hc) as [-> E3]. replace (8 - (8 - r)) with r in E3 by lia. rewrite E3.
  rewrite Z.shiftl_mul_pow2 by lia. rewrite E1, E2. set (v := le_value 256 s) in *.
  pose proof (Z.mod_pos_bound (v / 2 ^ (7 * i)) 128 ltac:(lia)) as Hm. rewrite (Z.mod_small (v / 2 ^ (7 * i) mod 128) 256) by lia.
  assert (octet (v / 2 ^ (7 * i) mod 128)) as Hoc by (unfold octet; lia).
  apply returns_bind. apply (returns_mono _ _ _ (octstr_append_char_ok decoded d _ Hd Hoc)). intros decoded1 Hd1.
  rewrite (le_digits_next len i v) by lia. rewrite cons_middle, app_assoc. destruct (Z.eqb_spec r 7) as [->|Hr7]; cbn [andb]; [destruct (Z.ltb_spec i (len - 1)) as [Hl|Hl]|].
  - pose proof (Z.mod_pos_bound (v / 2 ^ (7 * (i + 1))) 128 ltac:(lia)) as Hm2. change (2 ^ 7) with 128.
    assert (octet (v / 2 ^ (7 * (i + 1)) mod 128)) as Hoc2 by (unfold octet; lia).
    apply returns_bind, returns_bind. apply (returns_mono _ _ _ (octstr_append_char_ok _ _ _ Hd1 Hoc2)). intros decoded2 Hd2.
    cbn [returns]. rewrite (octstr_get_char_ok input s _ Hin). bind_red. change (6 <? 7) with true. change (8 - 7 <? 2) with true. cbn iota.
    rewrite (le_digits_next len (i + 1) v) by lia. rewrite cons_middle, app_assoc.
    pose proof (IH (i + 1 + 1) 1 (pos + 1) decoded2 _ Hd2 ltac:(lia) ltac:(lia) ltac:(lia) ltac:(lia) ltac:(lia)) as H.
    change (1 - 1) with 0 in H. rewrite Z.pow_0_r, Z.mod_1_r in H. exact H.
  - bind_red. rewrite (octstr_get_char_ok input s _ Hin). bind_red. change (6 <? 7) with true. change (8 - 7 <? 2) with true. cbn iota.
    destruct fuel as [|fuel]; [lia|]. cbn [decode7_loop]. destruct (Z.ltb_spec (i + 1) len); [lia|]. cbn [returns].
    replace (Z.to_nat (len - (i + 1))) with 0%nat by lia. cbn [le_digits]. by rewrite app_nil_r.
  - bind_red. rewrite (octstr_get_char_ok input s _ Hin). bind_red. destruct (Z.ltb_spec 6 r); [lia|]. destruct (Z.ltb_spec (8 - r) 2); [lia|].
    replace (8 - r - 1) with (8 - (r + 1)) by lia. replace (2 ^ r) with (2 ^ (r + 1 - 1)) by (f_equal; lia). apply IH; done || lia.
Qed.

(** The first [n] septets of a string of octets. *)
Definition unpacked (n : nat) (s : list Z) : list Z := le_digits 128 n (le_value 256 s).

Lemma shift_value c V off : 0 < off < 8 -> 0 <= c < 256 -> 0 <= V ->
  (c + 256 * V) / 2 ^ off = c / 2 ^ off + V * 2 ^ (8 - off) /\ (c + 256 * V) / 2 ^ off / 256 = V / 2 ^ off.
Proof.
  intros Ho Hc HV. pose proof (Z.pow_pos_nonneg 2 off ltac:(lia) ltac:(lia)). split.
  - replace (256 * V) with (V * 2 ^ (8 - off) * 2 ^ off); [by rewrite Z.div_add by lia|].
    rewrite <- Z.mul_assoc, <- Z.pow_add_r by lia. replace (8 - off + off) with 8 by lia. lia.
  - rewrite Z.div_div, (Z.mul_comm (2 ^ off)), <- Z.div_div by lia.
    by rewrite (Z.mul_comm 256), Z.div_add, (Z.div_small c 256), Z.add_0_l by lia.
Qed.

Lemma shift_octet c d V off : 0 < off < 8 -> 0 <= c < 256 -> 0 <= d -> 0 <= V ->
  Z.lor (Z.shiftr c off) (Z.shiftl d (8 - off)) mod 256 = (c + 256 * (d + 256 * V)) / 2 ^ off mod 256.
Proof.
  intros Ho Hc Hd HV. destruct (shift_value c (d + 256 * V) off Ho Hc ltac:(lia)) as [-> _].
  rewrite Z.lor_comm, Z.shiftr_div_pow2 by lia. rewrite lor_shiftl_add.
  - replace (c / 2 ^ off + (d + 256 * V) * 2 ^ (8 - off)) with (d * 2 ^ (8 - off) + c / 2 ^ off + V * 2 ^ (8 - off) * 256) by lia.
    by rewrite Z.mod_add by lia.
  - lia.
  - split; [apply Z.div_pos; lia|]. apply Z.div_lt_upper_bound; [lia|]. rewrite <- Z.pow_add_r by lia. replace (off + (8 - off)) with 8 by lia. exact (proj2 Hc).
Qed.

Lemma shift_loop_ok off rest suf : 0 < off < 8 -> octets suf -> forall pre,
  shift_loop (pre ++ suf ++ rest) off (zlen pre) (zlen pre + zlen suf) (length suf) =
  Ok (pre ++ le_digits 256 (length suf) (le_value 256 suf / 2 ^ off) ++ rest).
Proof.
  intros Ho. induction suf as [|c suf IH]; intros Hs pre; [done|]. apply Forall_cons_iff in Hs as [Hc Hs]. unfold octet in Hc.
  pose proof (le_value_range 256 ltac:(lia) suf Hs) as HV. cbn [length shift_loop].
  assert (rd (pre ++ (c :: suf) ++ rest) (zlen pre) = Ok c) as ->
    by (apply rd_ok; split; [list_lia|split; [apply list_lookup_middle; list_lia|lia]]).
  bind_red. set (v := le_value 256 (c :: suf)). assert (v = c + 256 * le_value 256 suf) as Ev by done.
  destruct (shift_value c (le_value 256 suf) off Ho Hc ltac:(lia)) as [_ Etl]. rewrite <- Ev in Etl.
  match goal with |- context [(?a ≫= _)] => assert (exists w, a = Ok w /\ w mod 256 = v / 2 ^ off mod 256) as (w & -> & Ew) end.
  { destruct suf as [|d suf].
    - destruct (Z.eqb_spec (zlen pre) (zlen pre + zlen [c] - 1)); [|list_lia]. eexists. split; [done|]. rewrite Z.shiftr_div_pow2 by lia.
      rewrite Ev. f_equal. f_equal. cbn. lia.
    - destruct (Z.eqb_spec (zlen pre) (zlen pre + zlen (c :: d :: suf) - 1)); [list_lia|]. apply Forall_cons_iff in Hs as [Hd Hs]. unfold octet in Hd.
      assert (rd (pre ++ (c :: d :: suf) ++ rest) (zlen pre + 1) = Ok d) as ->.
      { apply rd_ok. split; [list_lia|split; [|lia]]. cbn [app]. rewrite cons_middle, app_assoc. apply list_lookup_middle. list_lia. }
      eexists. split; [reflexivity|]. pose proof (le_value_range 256 ltac:(lia) suf Hs). by apply (shift_octet c d (le_value 256 suf) off Ho Hc ltac:(lia) ltac:(lia)). }
  bind_red. rewrite wr_ok by list_lia. bind_red. rewrite Ew. replace (Z.to_nat (zlen pre)) with (length pre + 0)%nat by list_lia.
  rewrite insert_app_r. cbn [app insert list_insert le_digits length]. rewrite Etl.
  pose proof (IH Hs (pre ++ [v / 2 ^ off mod 256])) as H. rewrite <- !app_assoc in H. cbn [app] in H.
  replace (zlen (pre ++ [_])) with (zlen pre + 1) in H by list_lia. replace (zlen pre + zlen (c :: suf)) with (zlen pre + 1 + zlen suf) by list_lia. done.
Qed.

(** The octets of the string shifted by [off] bits. *)
Lemma shift_input_ok input s off : repr input s -> 0 < off < 8 -> exists data,
  shift_loop (os_data input) off 0 (zlen s) (length s) = Ok data /\
  repr (set_data input data) (le_digits 256 (length s) (le_value 256 s / 2 ^ off)).
Proof.
  intros H Ho. destruct H as [imm|s rest size imm Hs Hsize]; [eexists; split; [reflexivity|constructor]|].
  eexists. split; [apply (shift_loop_ok off (0 :: rest) s Ho Hs [])|]. cbn [app set_data os_data os_len os_size os_immutable].
  pose proof (le_digits_length 256 (length s) (le_value 256 s / 2 ^ off)) as El.
  replace (zlen s) with (zlen (le_digits 256 (length s) (le_value 256 s / 2 ^ off))) by (unfold zlen; by rewrite El).
  apply repr_block; [apply le_digits_ok; lia|]. rewrite Hsize. unfold zlen. by rewrite !length_app, El.
Qed.

Lemma shifted_value s off : octets s -> 0 <= off -> le_value 256 (le_digits 256 (length s) (le_value 256 s / 2 ^ off)) = le_value 256 s / 2 ^ off.
Proof.
  intros Hs Ho. pose proof (le_value_range 256 ltac:(lia) s Hs) as Hv. pose proof (Z.pow_pos_nonneg 2 off ltac:(lia) ltac:(lia)).
  apply le_value_digits; [lia|]. fold (zlen s). split; [apply Z.div_pos; lia|]. apply Z.div_lt_upper_bound; nia.
Qed.

Lemma at2_decode7bituncompressed_ok input s decoded d len off :
  repr input s -> reprm decoded d -> 0 <= off < 8 -> 0 <= len -> 7 * len <= 8 * zlen s ->
  returns (at2_decode7bituncompressed input len decoded off) (fun o =>
    reprm o (gsm_utf8 (d ++ le_digits 128 (Z.to_nat len) (le_value 256 s / 2 ^ off)))).
Proof.
  intros Hin Hd Ho Hl Hlen. unfold at2_decode7bituncompressed. rewrite (octstr_len_ok input s Hin). bind_red.
  pose proof (repr_octets _ _ Hin) as Hs.
  assert (exists input' s', (if 0 <? off then data ← shift_loop (os_data input) off 0 (zlen s) (Z.to_nat (zlen s)); Ok (set_data input data) else Ok input)
    = Ok input' /\ repr input' s' /\ zlen s' = zlen s /\ le_value 256 s' = le_value 256 s / 2 ^ off) as (input' & s' & -> & Hin' & El & Ev).
  { destruct (Z.ltb_spec 0 off).
    - destruct (shift_input_ok input s off Hin ltac:(lia)) as (data & E & Hr). replace (Z.to_nat (zlen s)) with (length s) by list_lia. rewrite E.
      eexists _, _. split; [reflexivity|]. split; [exact Hr|]. split; [unfold zlen; by rewrite le_digits_length|]. apply shifted_value; done || lia.
    - exists input, s. split; [done|]. replace off with 0 by lia. by rewrite Z.pow_0_r, Z.div_1_r. }
  bind_red. rewrite (octstr_get_char_ok input' s' _ Hin'). bind_red. apply returns_bind. rewrite <- Ev.
  pose proof (decode7_loop_ok input' s' len (S (Z.to_nat len)) Hin' ltac:(lia) 0 1 0 decoded d Hd ltac:(lia) ltac:(lia) ltac:(lia) ltac:(lia) ltac:(lia)) as H.
  change (1 - 1) with 0 in H. change (2 ^ (7 * 0)) with 1 in H. rewrite Z.pow_0_r, Z.mod_1_r, Z.div_1_r, Z.sub_0_r in H.
  apply (returns_mono _ _ _ H). intros o Hro. apply returns_bind. apply (returns_mono _ _ _ (charset_gsm_to_utf8_ok o _ Hro)).
  intros r (o' & -> & Hr). done.
Qed.

(** ** The round trip *)

Lemma packed_length off ss : 0 <= off -> zlen (packed_septets off ss) = (7 * zlen ss + off + 7) / 8.
Proof. intros Ho. unfold packed_septets, zlen at 1. rewrite le_digits_length. pose proof (zlen_nonneg ss). apply Z2Nat.id. apply Z.div_pos; lia. Qed.

Lemma packed_value off ss : Forall (is_digit 128) ss -> 0 <= off -> le_value 256 (packed_septets off ss) = le_value 128 ss * 2 ^ off.
Proof.
  intros Hs Ho. pose proof (le_value_range 128 ltac:(lia) ss Hs) as Hv. pose proof (zlen_nonneg ss). unfold packed_septets.
  pose proof (Z.div_mod (7 * zlen ss + off + 7) 8 ltac:(lia)) as Hd. pose proof (Z.mod_pos_bound (7 * zlen ss + off + 7) 8 ltac:(lia)).
  apply le_value_digits; [lia|]. rewrite Z2Nat.id by lia. pose proof (Z.pow_pos_nonneg 2 off ltac:(lia) ltac:(lia)). split; [nia|].
  apply Z.lt_le_trans with (2 ^ (7 * zlen ss + off)).
  - rewrite Z.pow_add_r, Z.pow_mul_r by lia. change (2 ^ 7) with 128. nia.
  - change 256 with (2 ^ 8). rewrite <- Z.pow_mul_r by lia. apply Z.pow_le_mono_r; lia.
Qed.

Lemma packed_octets off ss : octets (packed_septets off ss).
Proof. apply le_digits_ok. lia. Qed.

Lemma unpack_packed off ss junk : Forall (is_digit 128) ss -> 0 <= off ->
  le_digits 128 (length ss) (le_value 256 (packed_septets off ss ++ junk) / 2 ^ off) = ss.
Proof.
  intros Hs Ho. pose proof (Z.pow_pos_nonneg 2 off ltac:(lia) ltac:(lia)). pose proof (zlen_nonneg ss).
  pose proof (packed_length off ss Ho) as El. pose proof (Z.div_mod (7 * zlen ss + off + 7) 8 ltac:(lia)) as Hd.
  pose proof (Z.mod_pos_bound (7 * zlen ss + off + 7) 8 ltac:(lia)). rewrite le_value_app, packed_value by done. set (n := zlen (packed_septets off ss)) in *.
  replace (256 ^ n) with (128 ^ zlen ss * 2 ^ (8 * n - 7 * zlen ss - off) * 2 ^ off).
  - replace (le_value 128 ss * 2 ^ off + 128 ^ zlen ss * 2 ^ (8 * n - 7 * zlen ss - off) * 2 ^ off * le_value 256 junk)
      with ((le_value 128 ss + 128 ^ zlen ss * (2 ^ (8 * n - 7 * zlen ss - off) * le_value 256 junk)) * 2 ^ off) by lia.
    rewrite Z.div_mul by lia. unfold zlen at 1. rewrite le_digits_above by lia. by apply le_digits_value.
  - change 128 with (2 ^ 7). change 256 with (2 ^ 8). rewrite <- !Z.pow_mul_r, <- !Z.pow_add_r by lia. f_equal. lia.
Qed.
