(* ===== verification/AtProofs.v ===== *)
(** * Properties of the PDUs of GSM modems

    The hexadecimal text, the numbers and the validity period of At.v, and the user
    data of a message, which the functions for DELIVER read as those for SUBMIT wrote
    it. *)

From stdpp Require Import list.
From S2P Require Import Prelude Octstr OctstrSearch OctstrCode OctstrFormat OctstrParts Date GwList PrioQueue Uuid Msg Charset Sms MetaData Dlr At AtSeptets.
#[local] Open Scope Z_scope.
#[local] Open Scope kannel_scope.

(** A string with one more character, and what is done with it. *)
Lemma append_char_then {B} (o : Octstr) (s : list Z) (ch : Z) (f : Octstr -> res B) Q : reprm o s -> octet ch ->
  (forall o', reprm o' (s ++ [ch]) -> returns (f o') Q) -> returns (octstr_append_char o ch ≫= f) Q.
Proof. intros Ho Hc Hf. apply returns_bind. by apply (returns_mono _ _ _ (octstr_append_char_ok _ _ _ Ho Hc)). Qed.

(** ** Hexadecimal *)

Definition hex_octet (c : Z) : list Z := [at2_numtext (c / 16); at2_numtext (c mod 16)].
Definition hex_text (s : list Z) : list Z := s ≫= hex_octet.

Lemma hex_octet_ok : forallb (fun c =>
  (at2_numtext (Z.shiftr (Z.land c 240) 4) =? at2_numtext (c / 16)) && (at2_numtext (Z.land c 15) =? at2_numtext (c mod 16)) &&
  (at2_hexchar (at2_numtext (c / 16)) * 16 + at2_hexchar (at2_numtext (c mod 16)) =? c) &&
  forallb (fun d => (0 <=? d) && (d <? 256)) (hex_octet c)) (seqZ 0 256) = true.
Proof. vm_compute. reflexivity. Qed.

Lemma hex_octet_spec c : octet c ->
  at2_numtext (Z.shiftr (Z.land c 240) 4) = at2_numtext (c / 16) /\ at2_numtext (Z.land c 15) = at2_numtext (c mod 16) /\
  at2_hexchar (at2_numtext (c / 16)) * 16 + at2_hexchar (at2_numtext (c mod 16)) = c /\ octets (hex_octet c).
Proof.
  intros Hc. pose proof hex_octet_ok as H. rewrite forallb_forall in H. specialize (H c). rewrite <- list_elem_of_In, elem_of_seqZ in H.
  specialize (H ltac:(unfold octet in Hc; lia)). rewrite !andb_true_iff in H. destruct H as (((H1 & H2) & H3) & H4).
  repeat split; [lia|lia|lia|]. cbn [forallb hex_octet] in H4. unfold hex_octet. octets_tac.
Qed.

Lemma hex_loop_ok input : forall suf pre out t, repr input (pre ++ suf) -> reprm out t ->
  returns (hex_loop input out (zlen pre) (length suf)) (fun o => reprm o (t ++ hex_text suf)).
Proof.
  induction suf as [|c suf IH]; intros pre out t Hin Ht; cbn [length hex_loop]; [cbn; by rewrite app_nil_r|].
  pose proof (repr_octets _ _ Hin) as Hs. apply Forall_app in Hs as [_ Hs]. apply Forall_cons_iff in Hs as [Hc _].
  rewrite (octstr_get_char_ok input _ _ Hin), char_at_mid. bind_red.
  destruct (hex_octet_spec c Hc) as (E1 & E2 & _ & Ho). rewrite E1, E2. apply Forall_cons_iff in Ho as [Ha Ho]. apply Forall_cons_iff in Ho as [Hb _].
  apply (append_char_then _ _ _ _ _ Ht Ha). intros o1 Ho1.
  apply (append_char_then _ _ _ _ _ Ho1 Hb). intros o2 Ho2.
  replace (zlen pre + 1) with (zlen (pre ++ [c])) by list_lia. rewrite cons_middle, app_assoc in Hin.
  apply (returns_mono _ _ _ (IH (pre ++ [c]) o2 _ Hin Ho2)). intros o3 Ho3. by rewrite <- !app_assoc in Ho3.
Qed.

Lemma at2_encode8bituncompressed_ok input s : repr input s -> returns (at2_encode8bituncompressed input) (fun o => reprm o (hex_text s)).
Proof.
  intros Hin. unfold at2_encode8bituncompressed. apply returns_bind. apply (returns_mono _ _ _ (octstr_create_ok [] (Forall_nil_2 _))). intros out Ho.
  rewrite (octstr_len_ok input s Hin). bind_red. replace (Z.to_nat (zlen s)) with (length s) by list_lia. by apply (hex_loop_ok input s [] out []).
Qed.

Lemma hex_text_length s : zlen (hex_text s) = 2 * zlen s.
Proof. induction s as [|c s IH]; [done|]. change (hex_text (c :: s)) with (hex_octet c ++ hex_text s). unfold hex_octet. list_lia. Qed.

Lemma hex_text_octets s : octets s -> octets (hex_text s).
Proof.
  induction 1 as [|c s Hc _ IH]; [apply Forall_nil_2|]. change (hex_text (c :: s)) with (hex_octet c ++ hex_text s).
  apply Forall_app. split; [by apply hex_octet_spec|done].
Qed.

Lemma convert_loop_ok input n (fuel : nat) : forall suf pre pdu t, repr input (pre ++ hex_text suf) -> octets suf -> reprm pdu t ->
  n = zlen (pre ++ hex_text suf) -> (length suf < fuel)%nat ->
  returns (convert_loop input pdu (zlen pre) n fuel) (fun o => reprm o (t ++ suf)).
Proof.
  induction fuel as [|fuel IH]; intros suf pre pdu t Hin Hs Ht Hn Hf; [lia|]. cbn [convert_loop]. destruct suf as [|c suf].
  - cbn [hex_text mbind list_bind] in *. rewrite !app_nil_r in *. destruct (Z.ltb_spec (zlen pre) n); [lia|]. done.
  - apply Forall_cons_iff in Hs as [Hc Hs]. destruct (hex_octet_spec c Hc) as (_ & _ & E & _).
    change (hex_text (c :: suf)) with (hex_octet c ++ hex_text suf) in *. unfold hex_octet in *. cbn [app] in *.
    destruct (Z.ltb_spec (zlen pre) n); [|subst n; list_lia]. rewrite (octstr_get_char_ok input _ (zlen pre) Hin), char_at_mid. bind_red.
    rewrite (cons_middle _ pre), app_assoc in Hin. replace (zlen pre + 1) with (zlen (pre ++ [at2_numtext (c / 16)])) by list_lia.
    rewrite (octstr_get_char_ok input _ _ Hin), char_at_mid. bind_red. rewrite E. apply (append_char_then _ _ _ _ _ Ht Hc). intros o1 Ho1. rewrite cons_middle, app_assoc in Hin.
    replace (zlen pre + 2) with (zlen ((pre ++ [at2_numtext (c / 16)]) ++ [at2_numtext (c mod 16)])) by list_lia.
    apply (returns_mono _ _ _ (IH suf _ o1 _ Hin Hs Ho1 ltac:(subst n; list_lia) ltac:(cbn in Hf; lia))). intros o2 Ho2. by rewrite <- app_assoc in Ho2.
Qed.

Lemma at2_convertpdu_ok input s : repr input (hex_text s) -> octets s -> returns (at2_convertpdu input) (fun o => reprm o s).
Proof.
  intros Hin Hs. unfold at2_convertpdu. rewrite (octstr_len_ok input _ Hin). bind_red. apply returns_bind.
  apply (returns_mono _ _ _ (octstr_create_ok [] (Forall_nil_2 _))). intros out Ho.
  apply (convert_loop_ok input _ _ s [] out []); [done|done|done|done|]. rewrite hex_text_length. list_lia.
Qed.

(** ** Numbers *)

Definition digit (c : Z) : Prop := 48 <= c <= 57.

(** The semi-octets of digits, least significant first, the last one filled. *)
Fixpoint semi (ds : list Z) : list Z :=
  match ds with
  | [] => []
  | [a] => [240 + (a - 48)]
  | a :: b :: ds => ((b - 48) * 16 + (a - 48)) :: semi ds
  end.

(** Induction by two digits. *)
Lemma pairs_ind (P : list Z -> Prop) : P [] -> (forall a, P [a]) -> (forall a b l, P l -> P (a :: b :: l)) -> forall l, P l.
Proof. intros H0 H1 H2. fix IH 1. intros [|a [|b l]]; [done|apply H1|apply H2, IH]. Qed.

Lemma semi_length ds : zlen (semi ds) = (zlen ds + 1) / 2.
Proof.
  induction ds as [|a|a b ds IH] using pairs_ind; [done|done|]. cbn [semi]. replace (zlen (_ :: semi ds)) with (1 + zlen (semi ds)) by list_lia.
  rewrite IH. replace (zlen (a :: b :: ds) + 1) with (zlen ds + 1 + 1 * 2) by list_lia. rewrite Z.div_add by lia. lia.
Qed.

Lemma semi_octets_are ds : Forall digit ds -> octets (semi ds).
Proof.
  induction ds as [|a|a b ds IH] using pairs_ind; intros H; cbn [semi]; [apply Forall_nil_2| |]; repeat (apply Forall_cons_iff in H as [? H]);
    unfold digit in *; (apply Forall_cons_2; [unfold octet; lia|]); [apply Forall_nil_2|by apply IH].
Qed.

(** Two digits in an octet, as it is written and as it is read. *)
Lemma semi_octet_ok : forallb (fun a => forallb (fun b =>
  (Z.lor (Z.shiftl b 4) a =? b * 16 + a) && (Z.land (b * 16 + a) 15 =? a) && (Z.shiftr (b * 16 + a) 4 =? b)) (seqZ 0 16)) (seqZ 0 16) = true.
Proof. vm_compute. reflexivity. Qed.

Lemma semi_octet_spec a b : 0 <= a < 16 -> 0 <= b < 16 ->
  Z.lor (Z.shiftl b 4) a = b * 16 + a /\ Z.land (b * 16 + a) 15 = a /\ Z.shiftr (b * 16 + a) 4 = b.
Proof.
  intros Ha Hb. pose proof semi_octet_ok as H. rewrite forallb_forall in H. specialize (H a). rewrite <- list_elem_of_In, elem_of_seqZ in H.
  specialize (H ltac:(lia)). rewrite forallb_forall in H. specialize (H b). rewrite <- list_elem_of_In, elem_of_seqZ in H.
  specialize (H ltac:(lia)). rewrite !andb_true_iff in H. lia.
Qed.

Lemma semi_octets_ok (fuel : nat) : forall ds temp out t, reprm temp ds -> Forall digit ds -> reprm out t -> (length ds < fuel)%nat ->
  returns (semi_octets temp out fuel) (fun r => exists o, r = Some o /\ reprm o (t ++ semi ds)).
Proof.
  induction fuel as [|fuel IH]; intros ds temp out t Htmp Hd Ht Hf; [lia|]. cbn [semi_octets].
  rewrite (octstr_len_ok temp ds (proj1 Htmp)). bind_red. destruct ds as [|a ds].
  - change (0 <? zlen []) with false. cbn iota. cbn. exists out. by rewrite app_nil_r.
  - destruct (Z.ltb_spec 0 (zlen (a :: ds))); [|list_lia]. rewrite !(octstr_get_char_ok temp _ _ (proj1 Htmp)). bind_red.
    change (char_at (a :: ds) 0) with a. apply Forall_cons_iff in Hd as [Ha Hd]. unfold digit in Ha.
    set (b2 := if char_at (a :: ds) 1 - 48 <? 0 then 15 else char_at (a :: ds) 1 - 48).
    assert (0 <= b2 < 16 /\ semi (a :: ds) = (b2 * 16 + (a - 48)) :: semi (drop 1 ds)) as [Hb Es].
    { subst b2. destruct ds as [|b ds]; [change (char_at [a] 1) with (-1); split; [done|reflexivity]|]. change (char_at (a :: b :: ds) 1) with b. apply Forall_cons_iff in Hd as [Hb _]. unfold digit in Hb.
      destruct (Z.ltb_spec (b - 48) 0); [lia|]. split; [lia|done]. }
    clearbody b2. destruct (semi_octet_spec (a - 48) b2 ltac:(lia) Hb) as [-> _].
    destruct (Z.leb_spec 0 (a - 48)), (Z.ltb_spec (a - 48) 16), (Z.ltb_spec b2 16); try lia. cbn [andb].
    assert (octet (b2 * 16 + (a - 48))) as Ho by (unfold octet; lia).
    apply (append_char_then _ _ _ _ _ Ht Ho). intros o1 Ho1.
    apply returns_bind. apply (returns_mono _ _ _ (octstr_delete_ok temp _ 0 2 Htmp ltac:(lia) ltac:(lia) ltac:(long_lia))). intros temp1 Ht1.
    change (cut (a :: ds) 0 2) with (drop 1 ds) in Ht1. rewrite Es.
    apply (returns_mono _ _ _ (IH (drop 1 ds) temp1 o1 _ Ht1 ltac:(by apply Forall_drop) Ho1 ltac:(rewrite length_drop; cbn in Hf; lia))).
    intros r (o & -> & Hr). exists o. split; [done|]. by rewrite <- app_assoc in Hr.
Qed.

(** A number: its digits, after the prefix of an international number. *)
Inductive number_of : list Z -> bool -> list Z -> Prop :=
| number_plus ds : number_of (43 :: ds) true ds
| number_zeros ds : number_of (48 :: 48 :: ds) true ds
| number_local ds : begins_with ds [48; 48] = false -> number_of ds false ds.

Definition address_field (inter : bool) (ds : list Z) : list Z := zlen ds :: (if inter then 145 else 129) :: semi ds.

Lemma trim_none p s : Forall (fun c => p c = false) s -> trim p s = s.
Proof.
  assert (forall l, Forall (fun c => p c = false) l -> drop_while p l = l) as Hd.
  { intros [|c l] Hl; [done|]. apply Forall_cons_iff in Hl as [Hc _]. by apply drop_while_head. }
  intros H. unfold trim. rewrite (Hd s H), (Hd (reverse s)); [apply reverse_involutive|by apply Forall_reverse].
Qed.

Lemma number_of_chars s inter ds : number_of s inter ds -> Forall digit ds -> Forall (fun c => isspace c = false /\ c <> 0) s.
Proof.
  intros Hn Hd. assert (Forall (fun c => isspace c = false /\ c <> 0) ds) as H.
  { revert Hd. apply Forall_impl. intros c Hc. unfold digit in Hc. unfold isspace. split; lia. }
  destruct Hn; [| |done]; repeat (apply Forall_cons_2; [done|]); done.
Qed.

Lemma cstr_of_contents o s : repr o s -> Forall (fun c => c <> 0) s -> cstr (cstr_block o) = s.
Proof. intros Ho Hs. destruct (cstr_block_ok o s Ho) as (rest & -> & _). rewrite cstr_app_nul. by apply cstr_no_nul. Qed.

Lemma digits_begin ds p : Forall digit ds -> ~ digit p -> begins_with ds [p] = false.
Proof.
  intros Hd Hp. unfold begins_with. apply bool_decide_eq_false. cbn [length]. destruct ds as [|c ds]; [done|]. apply Forall_cons_iff in Hd as [Hc _].
  cbn [take firstn]. rewrite take_0. intros E. injection E as ->. done.
Qed.

(** What is left of the number when its prefix is taken off. *)
Lemma number_prefix s inter ds temp : number_of s inter ds -> Forall digit ds -> reprm temp s ->
  returns (if begins_with s [43] then temp ← octstr_delete temp 0 1; Ok (temp, true)
           else if begins_with s [48; 48] then temp ← octstr_delete temp 0 2; Ok (temp, true)
           else Ok (temp, false)) (fun '(temp', i) => reprm temp' ds /\ i = inter).
Proof.
  intros Hn Hd Ht. destruct Hn as [ds|ds|ds Hb].
  - change (begins_with (43 :: ds) [43]) with (bool_decide (43 :: take 0 ds = [43])). rewrite take_0, bool_decide_eq_true_2 by done.
    apply returns_bind. apply (returns_mono _ _ _ (octstr_delete_ok temp _ 0 1 Ht ltac:(lia) ltac:(lia) ltac:(long_lia))). done.
  - change (begins_with (48 :: 48 :: ds) [43]) with (bool_decide (48 :: take 0 (48 :: ds) = [43])). rewrite bool_decide_eq_false_2 by done.
    change (begins_with (48 :: 48 :: ds) [48; 48]) with (bool_decide (48 :: 48 :: take 0 ds = [48; 48])). rewrite take_0, bool_decide_eq_true_2 by done.
    apply returns_bind. apply (returns_mono _ _ _ (octstr_delete_ok temp _ 0 2 Ht ltac:(lia) ltac:(lia) ltac:(long_lia))). done.
  - rewrite (digits_begin ds 43 Hd) by (unfold digit; lia). rewrite Hb. done.
Qed.

Lemma at2_format_address_field_ok msisdn s inter ds : repr msisdn s -> number_of s inter ds -> Forall digit ds -> zlen ds < 256 ->
  returns (at2_format_address_field (Some msisdn)) (fun r => exists o, r = Some o /\ reprm o (address_field inter ds)).
Proof.
  intros Hm Hn Hd Hl. pose proof (number_of_chars s inter ds Hn Hd) as Hc. unfold at2_format_address_field. apply returns_bind.
  apply (returns_mono _ _ _ (octstr_create_ok [] (Forall_nil_2 _))). intros out Ho.
  apply returns_bind. apply (returns_mono _ _ _ (octstr_duplicate_ok _ _ Hm)). intros r (temp & -> & Ht).
  apply returns_bind. apply (returns_mono _ _ _ (strip_both_ok isspace _ _ Ht)). intros temp1 Ht1.
  rewrite trim_none in Ht1 by (revert Hc; apply Forall_impl; naive_solver). rewrite (cstr_of_contents _ _ Hm) by (revert Hc; apply Forall_impl; naive_solver).
  apply returns_bind. apply (returns_mono _ _ _ (number_prefix s inter ds temp1 Hn Hd Ht1)). intros [temp2 i] [Ht2 ->].
  rewrite (octstr_len_ok temp2 _ (proj1 Ht2)). bind_red. pose proof (zlen_nonneg ds).
  apply (append_char_then _ _ _ _ _ Ho); [unfold octet; lia|]. intros o1 Ho1. replace (Z.lor (Z.lor 128 1) (if inter then 16 else 0)) with (if inter then 145 else 129) by (by destruct inter).
  apply (append_char_then _ _ _ _ _ Ho1); [destruct inter; unfold octet; lia|].
  intros o2 Ho2. apply (semi_octets_ok _ ds temp2 o2 _ Ht2 Hd Ho2). list_lia.
Qed.

(** The digits of an address are read. *)
Lemma address_digits_ok pdu len (fuel : nat) : forall ds pre rest origin t i, repr pdu (pre ++ semi ds ++ rest) -> Forall digit ds -> reprm origin t ->
  i + zlen ds = len -> (length ds < fuel)%nat ->
  returns (address_digits pdu origin i len (zlen pre) fuel) (fun '(o, pos) => reprm o (t ++ ds) /\ pos = zlen pre + zlen (semi ds)).
Proof.
  induction fuel as [|fuel IH]; intros ds pre rest origin t i Hp Hd Ht Hl Hf; [lia|]. cbn [address_digits]. destruct ds as [|a ds].
  - destruct (Z.ltb_spec i len); [list_lia|]. cbn. rewrite app_nil_r. split; [done|]. unfold zlen. cbn. lia.
  - destruct (Z.ltb_spec i len); [|list_lia]. apply Forall_cons_iff in Hd as [Ha Hd]. unfold digit in Ha.
    rewrite (octstr_get_char_ok pdu _ _ Hp). bind_red. destruct ds as [|b ds].
    + cbn [semi app]. rewrite char_at_mid. destruct (semi_octet_spec (a - 48) 15 ltac:(lia) ltac:(lia)) as (_ & E1 & _).
      change (15 * 16) with 240 in E1. rewrite E1. replace (a - 48 + 48) with a by lia. apply (append_char_then _ _ _ _ _ Ht); [unfold octet; lia|]. intros o1 Ho1.
      destruct (Z.ltb_spec (i + 1) len); [list_lia|]. bind_red. destruct fuel as [|fuel]; [cbn in Hf; lia|]. cbn [address_digits].
      destruct (Z.ltb_spec (i + 2) len); [list_lia|]. cbn. split; [done|]. list_lia.
    + cbn [semi app] in *. rewrite char_at_mid. apply Forall_cons_iff in Hd as [Hb Hd]. unfold digit in Hb.
      destruct (semi_octet_spec (a - 48) (b - 48) ltac:(lia) ltac:(lia)) as (_ & E1 & E2). rewrite E1, E2.
      replace (a - 48 + 48) with a by lia. replace (b - 48 + 48) with b by lia. apply (append_char_then _ _ _ _ _ Ht); [unfold octet; lia|]. intros o1 Ho1.
      destruct (Z.ltb_spec (i + 1) len); [|list_lia]. apply (append_char_then _ _ _ _ _ Ho1); [unfold octet; lia|]. intros o2 Ho2.
      rewrite cons_middle, app_assoc in Hp. replace (zlen pre + 1) with (zlen (pre ++ [(b - 48) * 16 + (a - 48)])) by list_lia.
      apply (returns_mono _ _ _ (IH ds _ rest o2 _ (i + 2) Hp Hd Ho2 ltac:(list_lia) ltac:(cbn in Hf; lia))). intros [o pos] [Ho ->].
      rewrite <- !app_assoc in Ho. split; [done|list_lia].
Qed.

Lemma read_address_ok pdu pre rest (inter : bool) ds : repr pdu (pre ++ semi ds ++ rest) -> Forall digit ds ->
  returns (read_address pdu (if inter then 145 else 129) (zlen ds) (zlen pre) (zlen ds)) (fun '(o, pos) =>
    reprm o ((if inter then [43] else []) ++ ds) /\ pos = zlen pre + zlen (semi ds)).
Proof.
  intros Hp Hd. unfold read_address. apply returns_bind. apply (returns_mono _ _ _ (octstr_create_ok [] (Forall_nil_2 _))). intros o Ho.
  destruct inter; cbn iota.
  - change (Z.land 145 208 =? 208) with false. change (Z.land 145 144 =? 144) with true. cbn iota.
    apply (append_char_then _ _ _ _ _ Ho); [done|]. intros o1 Ho1. apply (address_digits_ok pdu _ _ ds pre rest o1 _ 0 Hp Hd Ho1); list_lia.
  - change (Z.land 129 208 =? 208) with false. change (Z.land 129 144 =? 144) with false. cbn iota. bind_red.
    apply (address_digits_ok pdu _ _ ds pre rest o _ 0 Hp Hd Ho); list_lia.
Qed.

(** ** The validity period *)

(** The minutes that an octet of a relative validity period stands for. *)
Definition validity_minutes (v : Z) : Z :=
  if v <=? 143 then (v + 1) * 5
  else if v <=? 167 then 720 + (v - 143) * 30
  else if v <=? 196 then (v - 166) * 1440
  else (v - 192) * 10080.

Lemma quot_bounds a b : 0 <= a -> 0 < b -> b * Z.quot a b <= a < b * Z.quot a b + b.
Proof. intros Ha Hb. pose proof (Z.quot_rem' a b). pose proof (Z.rem_bound_pos a b). lia. Qed.

(** The value in each range. *)
Lemma relative_validity_cases val :
  (val <= 5 /\ relative_validity val = 0) \/
  (5 < val <= 720 /\ 5 * relative_validity val < val <= 5 * (relative_validity val + 1)) \/
  (720 < val <= 1440 /\ 30 * (relative_validity val - 144) < val - 720 <= 30 * (relative_validity val - 143)) \/
  (1440 < val <= 43200 /\ (val < 2880 /\ relative_validity val = 168 \/ 1440 * (relative_validity val - 167) < val <= 1440 * (relative_validity val - 166))) \/
  (43200 < val <= 635040 /\ (val < 50400 /\ relative_validity val = 197 \/ 10080 * (relative_validity val - 193) < val <= 10080 * (relative_validity val - 192))) \/
  (635040 < val /\ relative_validity val = 255).
Proof.
  unfold relative_validity.
  repeat match goal with
  | |- context [?a <? ?b] => destruct (Z.ltb_spec a b); cbn [andb]; try lia
  | |- context [?a <=? ?b] => destruct (Z.leb_spec a b); cbn [andb]; try lia
  end.
  all: repeat match goal with
  | |- context [Z.quot ?a ?b] =>
      lazymatch a with context [Z.quot _ _] => fail | _ => idtac end;
      pose proof (quot_bounds a b ltac:(lia) ltac:(lia)); generalize dependent (Z.quot a b); intros
  end; lia.
Qed.

(** The relative validity period that is written for a message: it is an octet,
    and for every period up to the longest one of 63 weeks it is the least octet
    whose period is long enough, so that a message never expires early and not later
    than the format makes necessary. *)
Theorem at2_validity_least (val : Z) :
  0 <= relative_validity val <= 255 /\
  (val <= 635040 -> val <= validity_minutes (relative_validity val) /\
    forall v, 0 <= v <= 255 -> val <= validity_minutes v -> relative_validity val <= v).
Proof.
  pose proof (relative_validity_cases val) as H. split; [lia|]. intros Hv.
  split; [|intros v Hr]; unfold validity_minutes;
    repeat match goal with |- context [?a <=? ?b] => destruct (Z.leb_spec a b) end; lia.
Qed.

Lemma at2_validity_least_witness :
  0 <= relative_validity 61 <= 255 /\ 61 <= validity_minutes (relative_validity 61) /\
  forall v, 0 <= v <= 255 -> 61 <= validity_minutes v -> relative_validity 61 <= v.
Proof.
  split; [apply (at2_validity_least 61)|]. apply (at2_validity_least 61). lia.
Defined.

(** ** User data *)

(** The septets that a header of [n] octets takes. *)
Definition head_septets (n : Z) : Z := (8 * n + 6) / 7.

Lemma fill_bits_ok n : 0 < n -> 8 * n + fill_bits n = 7 * head_septets n /\ 0 <= fill_bits n < 7.
Proof.
  intros Hn. unfold fill_bits, head_septets. pose proof (quot_bounds (n * 8) 7 ltac:(lia) ltac:(lia)) as Hq.
  set (q := Z.quot (n * 8) 7) in *. rewrite Z.rem_mod_nonneg by lia. destruct (decide (n * 8 = 7 * q)) as [E|E].
  - replace ((q + 1) * 7 - n * 8) with 7 by lia. change (7 mod 7) with 0. rewrite <- (Z.div_unique (8 * n + 6) 7 q 6) by lia. lia.
  - rewrite Z.mod_small by lia. rewrite <- (Z.div_unique (8 * n + 6) 7 (q + 1) (8 * n + 6 - 7 * (q + 1))) by lia. lia.
Qed.

(** The header of a message, [[]] for none, and the fill bits after it. *)
Definition header (p : sms) (h : list Z) : Prop :=
  match sms_udhdata p with
  | Some u => repr u h
  | None => h = []
  end.

Definition header_ok (h : list Z) : Prop := h = [] \/ exists k, h !! 0%nat = Some k /\ zlen h = k + 1.
Definition fill (h : list Z) : Z := if zlen h =? 0 then 0 else fill_bits (zlen h).

Lemma header_len p h : header p h -> octstr_len (sms_udhdata p) = Ok (zlen h).
Proof. unfold header. destruct (sms_udhdata p) as [u|]; [apply octstr_len_ok|]. by intros ->. Qed.

Lemma fill_ok h : 8 * zlen h + fill h = 7 * head_septets (zlen h) /\ 0 <= fill h < 7.
Proof.
  unfold fill. pose proof (zlen_nonneg h). destruct (Z.eqb_spec (zlen h) 0) as [->|]; [by unfold head_septets|]. apply fill_bits_ok. lia.
Qed.

(** A text of the default alphabet. *)
Record gsm_message (p : sms) (h g : list Z) : Prop := {
  gm_coding : sms_coding p = DC_7BIT;
  gm_header : header p h;
  gm_header_ok : header_ok h;
  gm_text : gsm_text g = true;
  gm_msgdata : exists md, sms_msgdata p = Some md /\ repr md (gsm_utf8 g);
  gm_fits : h = [] \/ zlen g + head_septets (zlen h) <= SMS_7BIT_MAX_LEN
}.

Lemma to_gsm_ok md g : repr md (gsm_utf8 g) -> gsm_text g = true ->
  returns (d ← octstr_duplicate (Some md); charset_utf8_to_gsm d) (fun r => exists o, r = Some o /\ reprm o g).
Proof.
  intros Hm Hg. apply returns_bind. apply (returns_mono _ _ _ (octstr_duplicate_ok _ _ Hm)). intros r (o & -> & Ho).
  apply (returns_mono _ _ _ (charset_utf8_to_gsm_ok _ _ Ho)). intros r (o' & -> & Ho'). rewrite utf8_gsm_gsm_utf8 in Ho' by done. eauto.
Qed.

Lemma user_data_length_ok p h g : gsm_message p h g -> user_data_length p = Ok (zlen g + head_septets (zlen h), p).
Proof.
  intros [Hc Hh _ Hg (md & Emd & Hmd) Hf]. unfold user_data_length, sms_msgdata_len. rewrite Emd, Hc.
  change (DC_7BIT =? DC_7BIT) with true. change ((DC_7BIT =? DC_8BIT) || (DC_7BIT =? DC_UCS2)) with false. cbn iota.
  destruct (proj1 (returns_iff _ _) (to_gsm_ok md g Hmd Hg)) as (r & E & o & -> & Ho). apply res_bind_ok in E as (d & -> & E). bind_red. rewrite E. bind_red.
  rewrite (octstr_len_ok o g (proj1 Ho)). bind_red. rewrite (header_len p h Hh). bind_red. destruct (Z.eqb_spec (zlen h) 0) as [->|Hne].
  - unfold head_septets. rewrite Z.add_0_r. done.
  - cbn zeta. pose proof (zlen_nonneg h). rewrite Z.quot_div_nonneg by lia. fold (head_septets (zlen h)).
    destruct Hf as [->|Hf]; [done|]. destruct (Z.ltb_spec SMS_7BIT_MAX_LEN (zlen g + head_septets (zlen h))); [lia|done].
Qed.

Lemma gsm_text_septets md g : repr md (gsm_utf8 g) -> gsm_text g = true -> Forall (is_digit 128) g.
Proof. intros Hm Hg. rewrite <- (utf8_gsm_gsm_utf8 g Hg). by apply utf8_gsm_septets, (repr_octets md). Qed.

Lemma append_user_data_ok p h g buffer b : gsm_message p h g -> reprm buffer b ->
  returns (append_user_data buffer p) (fun o => reprm o (b ++ packed_septets (fill h) g)).
Proof.
  intros [Hc Hh _ Hg (md & Emd & Hmd) Hf] Hb. unfold append_user_data. rewrite Hc.
  change ((DC_7BIT =? DC_8BIT) || (DC_7BIT =? DC_UCS2)) with false. cbn iota. rewrite (header_len p h Hh), Emd. bind_red. cbn zeta. fold (fill h).
  destruct (proj1 (returns_iff _ _) (to_gsm_ok md g Hmd Hg)) as (r & E & o & -> & Ho). apply res_bind_ok in E as (d & -> & E). bind_red. rewrite E. bind_red.
  pose proof (proj2 (fill_ok h)). apply returns_bind.
  apply (returns_mono _ _ _ (at2_encode7bituncompressed_ok o g (fill h) (proj1 Ho) (gsm_text_septets md g Hmd Hg) ltac:(lia))). intros t Ht.
  apply (octstr_append_ok _ _ _ _ Hb (proj1 Ht)).
Qed.

Definition header_read (udh : option Octstr) (h : list Z) : Prop :=
  match udh with
  | Some u => reprm u h
  | None => h = []
  end.

Lemma slice_at {A} (pre s : list A) n : slice (pre ++ s) (zlen pre) n = take (Z.to_nat n) s.
Proof. unfold slice, zlen. rewrite Nat2Z.id. by rewrite drop_app_length. Qed.

(** The copy of [len] octets holds the septets: there is an octet for each septet
    that the header does not use. *)
Lemma read_septets tmp h g rest len : Forall (is_digit 128) g -> len = zlen g + head_septets (zlen h) - zlen h ->
  repr tmp (take (Z.to_nat len) (packed_septets (fill h) g ++ rest)) ->
  returns (text ← octstr_create []; at2_decode7bituncompressed tmp (zlen g) text (fill h)) (fun o => reprm o (gsm_utf8 g)).
Proof.
  intros Hg -> Ht. destruct (fill_ok h) as [Hf Hr]. pose proof (packed_length (fill h) g ltac:(lia)) as El.
  pose proof (Z.div_mod (7 * zlen g + fill h + 7) 8 ltac:(lia)) as Hd. pose proof (Z.mod_pos_bound (7 * zlen g + fill h + 7) 8 ltac:(lia)).
  pose proof (zlen_nonneg g). pose proof (zlen_nonneg h).
  assert (zlen (packed_septets (fill h) g) <= zlen g + head_septets (zlen h) - zlen h) as Hn by lia.
  rewrite take_app_ge in Ht by list_lia. set (junk := take _ rest) in Ht. apply returns_bind.
  apply (returns_mono _ _ _ (octstr_create_ok [] (Forall_nil_2 _))). intros text Htext. pose proof (zlen_nonneg junk).
  apply (returns_mono _ _ _ (at2_decode7bituncompressed_ok tmp _ text [] (zlen g) (fill h) Ht Htext ltac:(lia) ltac:(lia) ltac:(list_lia))).
  intros o Ho. replace (Z.to_nat (zlen g)) with (length g) in Ho by list_lia. cbn [app] in Ho. by rewrite unpack_packed in Ho by (done || lia).
Qed.

Lemma read_udh_at pdu pre h (s : list Z) len : repr pdu (pre ++ h ++ s) -> header_ok h -> zlen h <= len ->
  returns (read_udh pdu (negb (zlen h =? 0)) (zlen pre) len) (fun r => exists udh k,
    r = Some (negb (zlen h =? 0), k, udh, zlen (pre ++ h), len - zlen h) /\ header_read udh h /\ (zlen h <> 0 -> k + 1 = zlen h)).
Proof.
  intros Hp Hh Hlen. unfold read_udh. pose proof (zlen_nonneg pre). destruct Hh as [->|(k & Ek & Hk)].
  - change (negb (zlen [] =? 0)) with false. cbn [andb]. cbn [returns]. exists None, 0. change (zlen []) with 0. rewrite app_nil_r.
    by replace (len - 0) with len by lia.
  - pose proof (zlen_nonneg h). destruct (Z.eqb_spec (zlen h) 0) as [E|Hne]; [by rewrite (zlen_0_inv h E) in Ek|].
    cbn [negb]. destruct (Z.ltb_spec 0 len); [|lia]. cbn [andb].
    rewrite (octstr_get_char_ok pdu _ _ Hp). bind_red. destruct h as [|k' h]; [done|]. injection Ek as ->. cbn [app] in *. rewrite char_at_mid.
    destruct (Z.ltb_spec len (k + 1)); [lia|]. apply returns_bind.
    apply (returns_mono _ _ _ (octstr_copy_ok pdu _ (zlen pre) (k + 1) Hp ltac:(lia) ltac:(lia))). intros udh Hudh.
    rewrite slice_at, app_comm_cons, take_app_le, take_ge in Hudh by list_lia. cbn [returns]. exists (Some udh), k. rewrite <- Hk.
    by replace (zlen pre + 1 + k) with (zlen (pre ++ k :: h)) by list_lia.
Qed.

Lemma read_udh_ok pdu pre h (g s : list Z) : repr pdu (pre ++ h ++ s) -> header_ok h ->
  returns (read_udh pdu (negb (zlen h =? 0)) (zlen pre) (zlen g + head_septets (zlen h))) (fun r => exists udh k,
    r = Some (negb (zlen h =? 0), k, udh, zlen (pre ++ h), zlen g + head_septets (zlen h) - zlen h) /\
    header_read udh h /\ (zlen h <> 0 -> k + 1 = zlen h)).
Proof.
  intros Hp Hh. destruct (fill_ok h). pose proof (zlen_nonneg g). pose proof (zlen_nonneg h). apply (read_udh_at pdu pre h s); [done|done|lia].
Qed.

Lemma read_user_data_ok pdu pre h g rest k : repr pdu (pre ++ packed_septets (fill h) g ++ rest) -> Forall (is_digit 128) g -> (zlen h <> 0 -> k + 1 = zlen h) ->
  returns (read_user_data pdu DC_7BIT (negb (zlen h =? 0)) k (zlen pre) (zlen g + head_septets (zlen h) - zlen h)) (fun t => reprm t (gsm_utf8 g)).
Proof.
  intros Hp Hg Hk. unfold read_user_data. destruct (fill_ok h) as [Hf Hr]. pose proof (zlen_nonneg pre). pose proof (zlen_nonneg g). pose proof (zlen_nonneg h).
  change ((DC_7BIT =? DC_8BIT) || (DC_7BIT =? DC_UCS2)) with false. change (DC_7BIT =? DC_7BIT) with true. rewrite andb_true_r. cbn iota.
  apply returns_bind. apply (returns_mono _ _ _ (octstr_copy_ok pdu _ (zlen pre) (zlen g + head_septets (zlen h) - zlen h) Hp ltac:(lia) ltac:(lia))).
  intros tmp [Ht _]. rewrite slice_at in Ht. pose proof (read_septets tmp h g rest _ Hg eq_refl Ht) as H3. unfold fill in H3.
  destruct (Z.eqb_spec (zlen h) 0) as [E|Hne]; cbn [negb].
  - rewrite E. change (head_septets 0) with 0. by replace (zlen g + 0 - 0) with (zlen g) by lia.
  - specialize (Hk Hne). replace (zlen g + head_septets (zlen h) - zlen h + k + 1) with (zlen g + head_septets (zlen h)) by lia. rewrite Hk.
    rewrite Z.quot_div_nonneg by lia. fold (head_septets (zlen h)). by replace (zlen g + head_septets (zlen h) - head_septets (zlen h)) with (zlen g) by lia.
Qed.

(** A text of octets: eight bit data or UCS-2. *)
Record octet_message (p : sms) (h m : list Z) : Prop := {
  om_coding : sms_coding p = DC_8BIT \/ sms_coding p = DC_UCS2;
  om_header : header p h;
  om_header_ok : header_ok h;
  om_msgdata : exists md, sms_msgdata p = Some md /\ repr md m;
  om_fits : zlen h + zlen m <= SMS_8BIT_MAX_LEN
}.

(** The user data of a message that fits a PDU: its text, the length that the PDU gives
    and the octets after the header. *)
Inductive user_data (p : sms) (h : list Z) : list Z -> Z -> list Z -> Prop :=
| ud_septets g : gsm_message p h g -> zlen g <= SMS_7BIT_MAX_LEN ->
    user_data p h (gsm_utf8 g) (zlen g + head_septets (zlen h)) (packed_septets (fill h) g)
| ud_octets m : octet_message p h m -> user_data p h m (zlen m + zlen h) m.

Lemma octets_coding c : c = DC_8BIT \/ c = DC_UCS2 -> (c =? DC_8BIT) || (c =? DC_UCS2) = true /\ (c =? DC_7BIT) = false.
Proof. by intros [-> | ->]. Qed.

Lemma user_data_header p h t l d : user_data p h t l d -> header p h /\ header_ok h.
Proof. by intros [g [] _|m []]. Qed.

Lemma user_data_range p h t l d : user_data p h t l d -> octet l /\ zlen h <= l.
Proof.
  unfold octet. pose proof (zlen_nonneg h). destruct (fill_ok h). intros [g [_ _ _ _ _ Hf] Hg|m [_ _ _ _ Hf]].
  - pose proof (zlen_nonneg g). unfold SMS_7BIT_MAX_LEN in *. destruct Hf as [->|Hf]; [change (head_septets (zlen [])) with 0; list_lia|lia].
  - pose proof (zlen_nonneg m). unfold SMS_8BIT_MAX_LEN in *. lia.
Qed.

Lemma user_data_octets p h t l d : user_data p h t l d -> octets d.
Proof. intros [g _ _|m [_ _ _ (md & _ & Hmd) _]]; [apply packed_octets|by apply (repr_octets md)]. Qed.

Lemma user_data_length_is p h t l d : user_data p h t l d -> user_data_length p = Ok (l, p).
Proof.
  intros [g Hg _|m [Hc Hh _ (md & Emd & Hmd) Hf]]; [by apply user_data_length_ok|]. destruct (octets_coding _ Hc) as [E1 E2].
  unfold user_data_length, sms_msgdata_len. rewrite Emd, E1, E2, (octstr_len_ok md m Hmd), (header_len p h Hh). cbn iota. bind_red.
  destruct (Z.eqb_spec (zlen h) 0) as [->|]; [by rewrite Z.add_0_r|]. cbn zeta. destruct (Z.ltb_spec SMS_8BIT_MAX_LEN (zlen m + zlen h)); [lia|done].
Qed.

Lemma append_user_data_is p h t l d buffer b : user_data p h t l d -> reprm buffer b ->
  returns (append_user_data buffer p) (fun o => reprm o (b ++ d)).
Proof.
  intros [g Hg _|m [Hc Hh _ (md & Emd & Hmd) Hf]] Hb; [by apply append_user_data_ok|]. destruct (octets_coding _ Hc) as [E1 _].
  unfold append_user_data. rewrite E1, Emd. by apply octstr_append_ok.
Qed.

Lemma read_user_data_is p h t l d pdu pre k : user_data p h t l d -> repr pdu (pre ++ d) -> (zlen h <> 0 -> k + 1 = zlen h) ->
  returns (read_user_data pdu (sms_coding p) (negb (zlen h =? 0)) k (zlen pre) (l - zlen h)) (fun o => reprm o t).
Proof.
  intros [g [Hc _ _ Hg (md & Emd & Hmd) _] _|m [Hc _ _ _ _]] Hp Hk.
  - rewrite Hc. apply (read_user_data_ok pdu pre h g [] k); [by rewrite app_nil_r|by apply (gsm_text_septets md)|done].
  - destruct (octets_coding _ Hc) as [E1 _]. unfold read_user_data. rewrite E1. pose proof (zlen_nonneg pre). pose proof (zlen_nonneg m).
    replace (zlen m + zlen h - zlen h) with (zlen m) by lia. apply returns_bind.
    apply (returns_mono _ _ _ (octstr_copy_ok pdu _ (zlen pre) (zlen m) Hp ltac:(lia) ltac:(lia))). intros tmp [Ht _].
    rewrite slice_at, take_ge in Ht by list_lia. apply returns_bind. apply (returns_mono _ _ _ (octstr_duplicate_ok tmp m Ht)). by intros r (o & -> & Ho).
Qed.

(** ** SUBMIT *)

Lemma char_at_skip (pre s : list Z) (i : Z) : 0 <= i -> char_at (pre ++ s) (zlen pre + i) = char_at s i.
Proof.
  intros Hi. unfold char_at. pose proof (zlen_nonneg pre). destruct (Z.leb_spec 0 (zlen pre + i)), (Z.leb_spec 0 i); try lia.
  rewrite lookup_app_r by list_lia. by replace (Z.to_nat (zlen pre + i) - length pre)%nat with (Z.to_nat i) by list_lia.
Qed.

(** The message with the coding that [fields_to_dcs] settles. *)
Definition coded (p : sms) (h : list Z) : sms :=
  if sms_coding p =? UNDEF then set_coding p (if zlen h =? 0 then DC_7BIT else DC_8BIT) else p.

(** A message that can be sent: the receiver has the digits [ds], the header is [h], the
    text [t], and the user data [d] have the length [l]. *)
Record submit_ready (p : sms) (privdata : PrivAT2data) (now : Z) (inter : bool) (ds : list Z) (dcs : Z) (h t : list Z) (l : Z) (d : list Z) : Prop := {
  sr_receiver : exists r s, sms_receiver p = Some r /\ repr r s /\ number_of s inter ds;
  sr_digits : Forall digit ds /\ zlen ds < 256;
  sr_pid : sms_pid p = UNDEF \/ octet (sms_pid p);
  sr_dcs : exists p', fields_to_dcs p (if negb (sms_alt_dcs p =? UNDEF) then sms_alt_dcs p else at_alt_dcs privdata) = Ok (dcs, p');
  sr_dcs_octet : octet dcs;
  sr_validity : octet (set_validity p privdata now);
  sr_message : user_data (coded p h) h t l d
}.

Definition submit_pid (p : sms) : Z := if sms_pid p =? UNDEF then 0 else sms_pid p.

(** The octets of the PDU. *)
Definition submit_pdu (p : sms) (privdata : PrivAT2data) (now : Z) (inter : bool) (ds : list Z) (dcs : Z) (h : list Z) (l : Z) (d : list Z) : list Z :=
  [submit_type p (negb (zlen h =? 0)); 0] ++ address_field inter ds ++
  [submit_pid p; dcs; set_validity p privdata now; l] ++ h ++ d.

Lemma submit_type_ok p udh : octet (submit_type p udh) /\ negb (Z.land (submit_type p udh) 64 =? 0) = udh.
Proof. unfold submit_type. destruct (0 <? sms_rpi p), udh, (DLR_IS_ENABLED_DEVICE (sms_dlr_mask p)); by split. Qed.

Lemma header_octets p h : header p h -> octets h.
Proof. unfold header. destruct (sms_udhdata p); [apply repr_octets|]. intros ->. apply Forall_nil_2. Qed.

Lemma header_append p h buffer b : header p h -> reprm buffer b ->
  returns (if zlen h =? 0 then Ok buffer else octstr_append buffer (sms_udhdata p)) (fun o => reprm o (b ++ h)).
Proof.
  intros Hh Hb. destruct (Z.eqb_spec (zlen h) 0) as [E|Hne]; [rewrite (zlen_0_inv h E); cbn; by rewrite app_nil_r|].
  unfold header in Hh. destruct (sms_udhdata p) as [u|]; [|by subst h]. by apply octstr_append_ok.
Qed.

Lemma coded_fields p h : sms_udhdata (coded p h) = sms_udhdata p /\ set_validity (coded p h) = set_validity p.
Proof. unfold coded. by destruct (sms_coding p =? UNDEF). Qed.

Lemma coded_header p h : header (coded p h) h -> header p h.
Proof. unfold header. by rewrite (proj1 (coded_fields p h)). Qed.

Lemma dcs_settles_coding p mode dcs p' h : header p h -> fields_to_dcs p mode = Ok (dcs, p') -> p' = coded p h.
Proof.
  intros Hh E. unfold fields_to_dcs in E. rewrite (header_len p h Hh) in E. unfold coded.
  destruct (sms_coding p =? UNDEF); apply res_bind_ok in E as (p1 & E1 & E); apply res_bind_ok in E as (x & _ & E).
  - cbn [mbind res_bind] in E1. destruct (zlen h =? 0); cbn [negb] in E1; congruence.
  - congruence.
Qed.

Lemma at2_pdu_encode_ok p privdata now inter ds dcs h t l d : submit_ready p privdata now inter ds dcs h t l d ->
  returns (at2_pdu_encode p privdata now) (fun '(r, p') => exists o, r = Some o /\ reprm o (hex_text (submit_pdu p privdata now inter ds dcs h l d)) /\ p' = coded p h).
Proof.
  intros [(r & s & Er & Hr & Hn) [Hd Hdl] Hpid [p' Edcs] Hdcs Hval Hm]. destruct (user_data_header _ _ _ _ _ Hm) as [Hh' _].
  pose proof (coded_header p h Hh') as Hh. destruct (coded_fields p h) as [Eu Ev]. unfold at2_pdu_encode. apply returns_bind.
  apply (returns_mono _ _ _ (octstr_create_ok [] (Forall_nil_2 _))). intros b0 H0. rewrite (header_len p h Hh). bind_red.
  apply (append_char_then _ _ _ _ _ H0 (proj1 (submit_type_ok p _))). intros b1 H1.
  apply (append_char_then _ _ _ _ _ H1); [done|]. intros b2 H2. rewrite Er. apply returns_bind.
  apply (returns_mono _ _ _ (at2_format_address_field_ok r s inter ds Hr Hn Hd Hdl)). intros ra (a & -> & Ha). apply returns_bind.
  apply (returns_mono _ _ _ (octstr_append_ok _ _ _ _ H2 (proj1 Ha))). intros b3 H3. fold (submit_pid p).
  assert (octet (submit_pid p)) as Hp8 by (unfold submit_pid; destruct (Z.eqb_spec (sms_pid p) UNDEF); [done|by destruct Hpid]).
  apply (append_char_then _ _ _ _ _ H3 Hp8). intros b4 H4. rewrite Edcs. rewrite (dcs_settles_coding p _ dcs p' h Hh Edcs). bind_red.
  rewrite <- Ev in Hval. apply (append_char_then _ _ _ _ _ H4 Hdcs). intros b5 H5. apply (append_char_then _ _ _ _ _ H5 Hval). intros b6 H6.
  rewrite (user_data_length_is _ _ _ _ _ Hm). bind_red. apply (append_char_then _ _ _ _ _ H6 (proj1 (user_data_range _ _ _ _ _ Hm))). intros b7 H7.
  apply returns_bind. apply (returns_mono _ _ _ (header_append _ h b7 _ Hh' H7)). intros b8 H8.
  apply returns_bind. apply (returns_mono _ _ _ (append_user_data_is _ h t l d b8 _ Hm H8)). intros b9 H9.
  apply returns_bind. apply (returns_mono _ _ _ (at2_encode8bituncompressed_ok b9 _ (proj1 H9))). intros o Ho.
  cbn [returns]. exists o. split; [done|]. split; [|done]. unfold submit_pdu. rewrite Ev in Ho. rewrite <- !app_assoc in Ho. exact Ho.
Qed.

Lemma submit_pdu_octets p privdata now inter ds dcs h t l d : submit_ready p privdata now inter ds dcs h t l d ->
  octets (submit_pdu p privdata now inter ds dcs h l d).
Proof.
  intros [_ [Hd Hdl] Hpid _ Hdcs Hval Hm]. pose proof (zlen_nonneg ds). unfold submit_pdu, address_field. cbn [app].
  apply Forall_cons_2; [apply submit_type_ok|]. apply Forall_cons_2; [done|]. apply Forall_cons_2; [unfold octet; lia|].
  apply Forall_cons_2; [by destruct inter|]. apply Forall_app. split; [by apply semi_octets_are|].
  apply Forall_cons_2; [unfold submit_pid; destruct (Z.eqb_spec (sms_pid p) UNDEF); [done|by destruct Hpid]|].
  apply Forall_cons_2; [done|]. apply Forall_cons_2; [done|]. apply Forall_cons_2; [by apply (user_data_range _ _ _ _ _ Hm)|].
  apply Forall_app. split; [apply (header_octets (coded p h)), (user_data_header _ _ _ _ _ Hm)|by apply (user_data_octets _ _ _ _ _ Hm)].
Qed.

(** What the functions that read a PDU get from the octets: the number from octet 4 on, and
    from [pos] on, where it ends, after four octets the header and the text. *)
Definition reads_back (pdu : Octstr) (coding : Z) (inter : bool) (ds h t : list Z) (l : Z) : Prop :=
  returns (read_address pdu (if inter then 145 else 129) (zlen ds) 4 (zlen ds)) (fun '(number, pos) =>
    reprm number ((if inter then [43] else []) ++ ds) /\
    returns (read_udh pdu (negb (zlen h =? 0)) (pos + 4) l) (fun r => exists udhi k udh pos' len,
      r = Some (udhi, k, udh, pos', len) /\ header_read udh h /\
      returns (read_user_data pdu coding udhi k pos' len) (fun text => reprm text t))).

Lemma submit_reads_back p privdata now inter ds dcs h t l d pdu : submit_ready p privdata now inter ds dcs h t l d ->
  repr pdu (submit_pdu p privdata now inter ds dcs h l d) -> reads_back pdu (sms_coding (coded p h)) inter ds h t l.
Proof.
  intros [_ [Hd _] _ _ _ _ Hm] Hpdu. unfold submit_pdu, address_field in Hpdu.
  set (pre := [submit_type p (negb (zlen h =? 0)); 0; zlen ds; if inter then 145 else 129]).
  set (fields := [submit_pid p; dcs; set_validity p privdata now; l]) in *.
  change (repr pdu (pre ++ semi ds ++ fields ++ h ++ d)) in Hpdu.
  apply (returns_mono _ _ _ (read_address_ok pdu pre _ inter ds Hpdu Hd)). intros [number pos] [Hnum ->]. split; [exact Hnum|].
  assert (repr pdu ((pre ++ semi ds ++ fields) ++ h ++ d)) as Hp by (rewrite <- !app_assoc; exact Hpdu).
  replace (zlen pre + zlen (semi ds) + 4) with (zlen (pre ++ semi ds ++ fields)) by (unfold fields; list_lia).
  destruct (user_data_header _ _ _ _ _ Hm) as [_ Hh].
  apply (returns_mono _ _ _ (read_udh_at pdu _ h d l Hp Hh (proj2 (user_data_range _ _ _ _ _ Hm)))). intros r (udh & k & -> & Hu & Hk).
  rewrite app_assoc in Hp. eexists _, _, _, _, _. split; [done|]. split; [done|]. by apply (read_user_data_is _ h t l d pdu _ k Hm Hp Hk).
Qed.

(** ** Claims *)

(** C22. The packing of septets: for any text of septets and any number of fill bits
    [at2_encode7bituncompressed] returns the octets that are the base 256 digits of
    the number whose base 128 digits the septets are, shifted by the fill bits, and
    [at2_decode7bituncompressed] reads the text from them again. *)
Theorem at2_septets_pack (source : Octstr) (ss : list Z) (off : Z) :
  repr source ss -> Forall (is_digit 128) ss -> 0 <= off < 8 ->
  returns (at2_encode7bituncompressed source off) (fun o => reprm o (packed_septets off ss) /\
    returns (text ← octstr_create []; at2_decode7bituncompressed o (zlen ss) text off) (fun t => reprm t (gsm_utf8 ss))).
Proof.
  intros Hs Hd Ho. apply (returns_mono _ _ _ (at2_encode7bituncompressed_ok source ss off Hs Hd Ho)). intros o Hpk. split; [done|].
  apply returns_bind. apply (returns_mono _ _ _ (octstr_create_ok [] (Forall_nil_2 _))). intros text Htext. pose proof (zlen_nonneg ss).
  pose proof (packed_length off ss ltac:(lia)). pose proof (Z.div_mod (7 * zlen ss + off + 7) 8 ltac:(lia)).
  pose proof (Z.mod_pos_bound (7 * zlen ss + off + 7) 8 ltac:(lia)).
  apply (returns_mono _ _ _ (at2_decode7bituncompressed_ok o _ text [] (zlen ss) off (proj1 Hpk) Htext Ho ltac:(lia) ltac:(lia))).
  intros t Ht. pose proof (unpack_packed off ss [] Hd ltac:(lia)) as E. rewrite app_nil_r in E.
  replace (Z.to_nat (zlen ss)) with (length ss) in Ht by list_lia. cbn [app] in Ht. by rewrite E in Ht.
Qed.

Lemma at2_septets_pack_witness :
  returns (at2_encode7bituncompressed (mk_os [104; 101; 108; 108; 111]) 1) (fun o => reprm o [208; 101; 54; 251; 13] /\
    returns (text ← octstr_create []; at2_decode7bituncompressed o 5 text 1) (fun t => reprm t [104; 101; 108; 108; 111])).
Proof.
  apply (at2_septets_pack (mk_os [104; 101; 108; 108; 111]) [104; 101; 108; 108; 111] 1); [apply mk_os_ok; octets_tac| |lia].
  repeat (apply Forall_cons_2; [unfold is_digit; lia|]). apply Forall_nil_2.
Defined.

(** C6. A message that is sent to a modem ([submit_ready]): the receiver is digits, or "+" or
    "00" and digits, fewer than 256; the protocol id, the data coding scheme and the validity
    period give one octet each; the message has a header or none (the first octet of the header is the
    number of those after it); and either the coding is seven bit, the text is the
    UTF-8 form of at most 160 septets of the GSM alphabet, with those that the header
    takes, or the coding is eight bit or UCS-2 and header and text have at most 140
    octets (a coding that is not set is eight bit for a message with a header and
    seven bit otherwise).  [at2_pdu_encode] returns the hexadecimal text of a SUBMIT
    with its fields in their places, and changes nothing but the coding; the functions that read PDUs then get,
    from the octets of the text, the number (with "+" where it is international, also for
    "00"), the header and the text of the message again: the fill bits and the
    lengths in septets agree on both sides, whatever the length of the header. *)
Theorem at2_submit_roundtrip p privdata now inter ds dcs h t l d :
  submit_ready p privdata now inter ds dcs h t l d ->
  returns (at2_pdu_encode p privdata now) (fun '(r, p') => p' = coded p h /\
    exists data, r = Some data /\ reprm data (hex_text (submit_pdu p privdata now inter ds dcs h l d)) /\
      returns (at2_convertpdu data) (fun pdu => reprm pdu (submit_pdu p privdata now inter ds dcs h l d) /\
        reads_back pdu (sms_coding p') inter ds h t l)).
Proof.
  intros Hs. apply (returns_mono _ _ _ (at2_pdu_encode_ok _ _ _ _ _ _ _ _ _ _ Hs)). intros [r p'] (o & -> & Ho & ->). split; [done|].
  exists o. split; [done|]. split; [done|]. apply (returns_mono _ _ _ (at2_convertpdu_ok o _ (proj1 Ho) (submit_pdu_octets _ _ _ _ _ _ _ _ _ _ Hs))).
  intros pdu Hpdu. split; [done|]. by apply (submit_reads_back _ _ _ _ _ _ _ _ _ _ pdu Hs), Hpdu.
Qed.

(** "+995" with a header of seven octets and the text "hi{". *)
Definition submit_sms : sms :=
  set_coding (set_udhdata (set_msgdata (set_receiver (m_sms (msg_create [] [] T_SMS)) (Some (mk_os [43; 57; 57; 53])))
    (Some (mk_os [104; 105; 123]))) (Some (mk_os [6; 5; 4; 0; 1; 0; 2]))) DC_7BIT.

Definition submit_modem : PrivAT2data := mkPriv None None 0 None false false.

Definition submit_text : list Z := [104; 105; 27; 40].
Definition submit_header : list Z := [6; 5; 4; 0; 1; 0; 2].

Lemma submit_sms_ready : submit_ready submit_sms submit_modem 0 true [57; 57; 53] 0 submit_header [104; 105; 123] 12
  (packed_septets (fill submit_header) submit_text).
Proof.
  constructor.
  - exists (mk_os [43; 57; 57; 53]), [43; 57; 57; 53]. split; [done|]. split; [apply mk_os_ok; octets_tac|apply number_plus].
  - split; [repeat (apply Forall_cons_2; [unfold digit; lia|]); apply Forall_nil_2|done].
  - by left.
  - by eexists.
  - done.
  - done.
  - replace [104; 105; 123] with (gsm_utf8 submit_text) by (by vm_compute).
    change 12 with (zlen submit_text + head_septets (zlen submit_header)). apply ud_septets; [|done].
    constructor; [done|apply mk_os_ok; octets_tac|right; by exists 6|done| |by right].
    exists (mk_os [104; 105; 123]). split; [done|]. apply (mk_os_ok [104; 105; 123]). octets_tac.
Qed.

Lemma at2_submit_roundtrip_witness :
  returns (at2_pdu_encode submit_sms submit_modem 0) (fun '(r, p') => p' = submit_sms /\
    exists data, r = Some data /\ reprm data (hex_text (submit_pdu submit_sms submit_modem 0 true [57; 57; 53] 0 submit_header 12
        (packed_septets (fill submit_header) submit_text))) /\
      returns (at2_convertpdu data) (fun pdu => reprm pdu (submit_pdu submit_sms submit_modem 0 true [57; 57; 53] 0 submit_header 12
          (packed_septets (fill submit_header) submit_text)) /\
        reads_back pdu (sms_coding p') true [57; 57; 53] submit_header [104; 105; 123] 12)).
Proof.
  apply (at2_submit_roundtrip submit_sms submit_modem 0 true [57; 57; 53] 0 submit_header [104; 105; 123] 12
    (packed_septets (fill submit_header) submit_text) submit_sms_ready).
Defined.
