(* ===== verification/AtDeliver.v ===== *)
(** * Messages from GSM modems

    The DELIVER PDU of At.v: what [at2_pdu_decode_deliver_sm] makes of it. *)

From stdpp Require Import list.
From S2P Require Import Prelude Octstr OctstrSearch OctstrCode OctstrFormat OctstrParts Date DateProofs GwList PrioQueue Uuid Msg Charset Sms MetaData Dlr At AtSeptets AtProofs.
#[local] Open Scope Z_scope.
#[local] Open Scope kannel_scope.

(** ** The time stamp *)

(** Two decimal digits in semi-octets, the tens in the lower one. *)
Definition two (n : Z) : Z := (n mod 10) * 16 + n / 10.

Lemma two_ok : forallb (fun n => (swap_nibbles (two n) =? n) && (0 <=? two n) && (two n <? 256)) (seqZ 0 100) = true.
Proof. vm_compute. reflexivity. Qed.

Lemma two_spec n : 0 <= n < 100 -> swap_nibbles (two n) = n /\ octet (two n).
Proof.
  intros Hn. pose proof two_ok as H. rewrite forallb_forall in H. specialize (H n). rewrite <- list_elem_of_In, elem_of_seqZ in H.
  specialize (H ltac:(lia)). rewrite !andb_true_iff in H. unfold octet. lia.
Qed.

Lemma timezone_ok : forallb (fun q => at2_timezone (two q) =? q) (seqZ 0 80) = true.
Proof. vm_compute. reflexivity. Qed.

Lemma timezone_spec q : 0 <= q < 80 -> at2_timezone (two q) = q.
Proof.
  intros Hq. pose proof timezone_ok as H. rewrite forallb_forall in H. specialize (H q). rewrite <- list_elem_of_In, elem_of_seqZ in H.
  specialize (H ltac:(lia)). lia.
Qed.

(** A time stamp: the local time, and the zone in quarters of an hour east of
    Greenwich. *)
Record stamp := mkStamp { st_year : Z; st_month : nat; st_day : Z; st_hour : Z; st_minute : Z; st_second : Z; st_zone : Z }.

Definition stamp_ok (s : stamp) : Prop :=
  0 <= st_year s < 100 /\ (st_month s < 12)%nat /\ 0 <= st_day s < 100 /\ 0 <= st_hour s < 100 /\
  0 <= st_minute s < 100 /\ 0 <= st_second s < 100 /\ 0 <= st_zone s < 80.

Definition stamp_octets (s : stamp) : list Z :=
  [two (st_year s); two (Z.of_nat (st_month s) + 1); two (st_day s); two (st_hour s); two (st_minute s); two (st_second s); two (st_zone s)].

Definition century (y : Z) : Z := y + (if y <? 70 then 2000 else 1900).

(** The seconds since 1970. *)
Definition stamp_time (s : stamp) : Z :=
  DAY * count_days (century (st_year s)) (st_month s) (st_day s) + HOUR * st_hour s + MINUTE * st_minute s + st_second s - 15 * MINUTE * st_zone s.

Lemma stamp_octets_ok s : stamp_ok s -> octets (stamp_octets s).
Proof. intros (?&?&?&?&?&?&?). unfold stamp_octets. repeat (apply Forall_cons_2; [apply two_spec; lia|]). apply Forall_nil_2. Qed.

Lemma read_timestamp_ok pdu pre s rest junk : repr pdu (pre ++ stamp_octets s ++ rest) -> stamp_ok s ->
  read_timestamp pdu (zlen pre) junk = Ok (stamp_time s - junk).
Proof.
  intros Hp (Hy & Hm & Hd & Hh & Hmi & Hs & Hz). unfold read_timestamp. rewrite <- (Z.add_0_r (zlen pre)) at 1.
  rewrite !(octstr_get_char_ok pdu _ _ Hp), !char_at_skip by lia. unfold stamp_octets. cbn [app]. bind_red.
  repeat match goal with |- context [char_at (?a :: ?l) ?i] => let x := eval cbv in (Z.to_nat i) in
    match eval cbn in ((a :: l) !! x) with Some ?c => change (char_at (a :: l) i) with c end end.
  repeat match goal with |- context [swap_nibbles (two ?n)] => rewrite (proj1 (two_spec n ltac:(lia))) end.
  rewrite timezone_spec by lia. fold (century (st_year s)).
  rewrite (convert_counted _ (st_month s)); [|unfold century; cbn [year]; destruct (Z.ltb_spec (st_year s) 70); lia|done|cbn [month]; lia].
  cbn [year month day hour minute second offset_sec]. unfold stamp_time. f_equal.
  rewrite Z.quot_div_nonneg, Z.rem_mod_nonneg by lia. pose proof (Z.div_mod (st_zone s) 4 ltac:(lia)). unfold HOUR, MINUTE. lia.
Qed.

(** ** The message *)

(** The parts of a DELIVER PDU with a text of the default alphabet; [rest] is what the
    modem adds to it. *)
Record deliver := mkDeliver {
  dl_type : Z;
  dl_inter : bool;
  dl_sender : list Z;
  dl_pid : Z;
  dl_dcs : Z;
  dl_stamp : stamp;
  dl_header : list Z;
  dl_text : list Z;
  dl_rest : list Z
}.

Definition deliver_ok (d : deliver) : Prop :=
  octet (dl_type d) /\ negb (Z.land (dl_type d) 64 =? 0) = negb (zlen (dl_header d) =? 0) /\
  Forall digit (dl_sender d) /\ zlen (dl_sender d) <= 20 /\ octet (dl_pid d) /\ octet (dl_dcs d) /\ stamp_ok (dl_stamp d) /\
  header_ok (dl_header d) /\ octets (dl_header d) /\ Forall (is_digit 128) (dl_text d) /\
  zlen (dl_text d) + head_septets (zlen (dl_header d)) < 256 /\ octets (dl_rest d).

Definition user_part (d : deliver) : list Z := dl_header d ++ packed_septets (fill (dl_header d)) (dl_text d) ++ dl_rest d.

Definition deliver_pdu (d : deliver) : list Z :=
  [dl_type d] ++ address_field (dl_inter d) (dl_sender d) ++ [dl_pid d; dl_dcs d] ++ stamp_octets (dl_stamp d) ++
  [zlen (dl_text d) + head_septets (zlen (dl_header d))] ++ user_part d.

Lemma deliver_pdu_octets d : deliver_ok d -> octets (deliver_pdu d).
Proof.
  intros (Ht & _ & Hs & Hl & Hp & Hd & Hst & _ & Hh & _ & Hlen & Hr). unfold deliver_pdu, address_field, user_part. cbn [app].
  pose proof (zlen_nonneg (dl_sender d)). pose proof (zlen_nonneg (dl_text d)). pose proof (zlen_nonneg (dl_header d)). destruct (fill_ok (dl_header d)).
  apply Forall_cons_2; [done|]. apply Forall_cons_2; [unfold octet; lia|]. apply Forall_cons_2; [by destruct (dl_inter d)|].
  apply Forall_app. split; [by apply semi_octets_are|]. apply Forall_cons_2; [done|]. apply Forall_cons_2; [done|].
  apply Forall_app. split; [by apply stamp_octets_ok|]. apply Forall_cons_2; [unfold octet; lia|].
  apply Forall_app. split; [done|]. apply Forall_app. split; [apply packed_octets|done].
Qed.

Lemma dcs_to_fields_udh p dcs : sms_udhdata (dcs_to_fields p dcs).2 = sms_udhdata p.
Proof. unfold dcs_to_fields. by repeat match goal with |- context [if ?b then _ else _] => destruct b end. Qed.

(** The receiver: the number of the modem, "1234" without one. *)
Definition receiver_ok (privdata : PrivAT2data) (t : list Z) : Prop :=
  match my_number privdata with
  | Some n => exists s, repr n s /\ t = if zlen s =? 0 then [49; 50; 51; 52] else s
  | None => t = [49; 50; 51; 52]
  end.

Lemma deliver_receiver privdata t : receiver_ok privdata t -> exists n, octstr_len (my_number privdata) = Ok n /\
  returns (if n =? 0 then octstr_create [49; 50; 51; 52]
           else o ← octstr_duplicate (my_number privdata); match o with Some o => Ok o | None => Undef end) (fun o => reprm o t).
Proof.
  unfold receiver_ok. destruct (my_number privdata) as [n|].
  - intros (s & Hs & ->). exists (zlen s). split; [by apply octstr_len_ok|]. destruct (Z.eqb_spec (zlen s) 0).
    + apply octstr_create_ok. octets_tac.
    + apply returns_bind. apply (returns_mono _ _ _ (octstr_duplicate_ok n s Hs)). intros r (o & -> & Ho). done.
  - intros ->. exists 0. split; [done|]. apply octstr_create_ok. octets_tac.
Qed.

(** What the message says. *)
Definition delivered (d : deliver) (receiver : list Z) (junk : Z) (p : sms) : Prop :=
  (exists o, sms_sender p = Some o /\ reprm o ((if dl_inter d then [43] else []) ++ dl_sender d)) /\
  (exists o, sms_receiver p = Some o /\ reprm o receiver) /\
  header_read (sms_udhdata p) (dl_header d) /\
  (exists o, sms_msgdata p = Some o /\ reprm o (gsm_utf8 (dl_text d))) /\
  sms_coding p = DC_7BIT /\ sms_pid p = dl_pid d /\ sms_time p = stamp_time (dl_stamp d) - junk.

Lemma deliver_fields d receiver junk m p origin rcv udh text : sms_udhdata p = None -> sms_coding p = DC_7BIT ->
  reprm origin ((if dl_inter d then [43] else []) ++ dl_sender d) -> reprm rcv receiver -> header_read udh (dl_header d) -> reprm text (gsm_utf8 (dl_text d)) ->
  let q := set_receiver (set_sender (set_pid p (dl_pid d)) (Some origin)) (Some rcv) in
  delivered d receiver junk (m_sms (with_sms m (set_sms_time (set_msgdata
    (if negb (zlen (dl_header d) =? 0) then set_udhdata q udh else q) (Some text)) (stamp_time (dl_stamp d) - junk)))).
Proof.
  intros Hn Hc Ho Hr Hu Ht q. unfold delivered, q. destruct (Z.eqb_spec (zlen (dl_header d)) 0) as [E|Hne]; cbn [negb].
  - split; [by exists origin|]. split; [by exists rcv|]. split; [change (header_read (sms_udhdata p) (dl_header d)); rewrite Hn; by apply zlen_0_inv|].
    split; [by exists text|]. done.
  - split; [by exists origin|]. split; [by exists rcv|]. split; [done|]. split; [by exists text|]. done.
Qed.

(** C21. A text message that a modem hands over, as it is in its hexadecimal PDU:
    [at2_pdu_decode_deliver_sm] returns a message with the number of the sender, the
    header and the text, whatever the header's length and whatever follows the text,
    and the number of the modem as the receiver.  The time is that of the time stamp,
    with its zone east of Greenwich taken off, less the field [offset_sec], which the
    function does not set. *)
Theorem at2_deliver_reads (d : deliver) (data : Octstr) (privdata : PrivAT2data) (id1 id2 receiver : list Z) (junk : Z) :
  deliver_ok d -> repr data (hex_text (deliver_pdu d)) -> receiver_ok privdata receiver ->
  (let '(ok, p) := dcs_to_fields (m_sms (msg_create id1 id2 T_SMS)) (dl_dcs d) in ok <> 0 /\ sms_coding p = DC_7BIT) ->
  returns (at2_pdu_decode_deliver_sm data privdata id1 id2 junk) (fun r => exists m, r = Some m /\ delivered d receiver junk (m_sms m)).
Proof.
  intros Hok Hdata Hrcv Hdcs. pose proof (deliver_pdu_octets d Hok) as Ho. destruct Hok as (_ & Hudhi & Hs & Hl & _ & _ & Hst & Hh & _ & Hg & _ & _).
  unfold at2_pdu_decode_deliver_sm. apply returns_bind. apply (returns_mono _ _ _ (at2_convertpdu_ok data _ Hdata Ho)). intros pdu [Hp _].
  set (ds := dl_sender d) in *. set (ton := if dl_inter d then 145 else 129). set (udl := zlen (dl_text d) + head_septets (zlen (dl_header d))).
  set (tail := [dl_pid d; dl_dcs d] ++ stamp_octets (dl_stamp d) ++ [udl] ++ user_part d).
  change (repr pdu ([dl_type d; zlen ds; ton] ++ semi ds ++ tail)) in Hp. rewrite !(octstr_get_char_ok pdu _ _ Hp). bind_red.
  change (char_at ([dl_type d; zlen ds; ton] ++ semi ds ++ tail) 0) with (dl_type d). change (char_at ([dl_type d; zlen ds; ton] ++ semi ds ++ tail) 1) with (zlen ds).
  change (char_at ([dl_type d; zlen ds; ton] ++ semi ds ++ tail) 2) with ton. destruct (Z.ltb_spec 20 (zlen ds)); [lia|].
  apply returns_bind. apply (returns_mono _ _ _ (read_address_ok pdu [dl_type d; zlen ds; ton] tail (dl_inter d) ds Hp Hs)). intros [origin pos] [Horig ->].
  rewrite (octstr_len_ok pdu _ Hp). bind_red. rewrite app_assoc in Hp. set (pre := [dl_type d; zlen ds; ton] ++ semi ds) in *.
  replace (zlen [dl_type d; zlen ds; ton] + zlen (semi ds)) with (zlen pre) by (unfold pre; list_lia). rewrite app_assoc. fold pre.
  destruct (Z.ltb_spec (zlen (pre ++ tail)) (zlen pre)); [list_lia|]. rewrite <- (Z.add_0_r (zlen pre)) at 1.
  rewrite !(octstr_get_char_ok pdu _ _ Hp), !char_at_skip by lia. bind_red. change (char_at tail 0) with (dl_pid d). change (char_at tail 1) with (dl_dcs d).
  change (char_at tail 9) with udl. assert (repr pdu ((pre ++ [dl_pid d; dl_dcs d]) ++ stamp_octets (dl_stamp d) ++ [udl] ++ user_part d)) as Hp2
    by (rewrite <- app_assoc; exact Hp). replace (zlen pre + 2) with (zlen (pre ++ [dl_pid d; dl_dcs d])) by list_lia.
  rewrite (read_timestamp_ok pdu _ _ _ junk Hp2 Hst). bind_red. set (pre3 := pre ++ [dl_pid d; dl_dcs d] ++ stamp_octets (dl_stamp d) ++ [udl]).
  assert (repr pdu (pre3 ++ dl_header d ++ packed_septets (fill (dl_header d)) (dl_text d) ++ dl_rest d)) as Hp3 by (unfold pre3; rewrite <- !app_assoc; exact Hp).
  replace (zlen pre + 10) with (zlen pre3) by (unfold pre3, stamp_octets; list_lia). rewrite Hudhi. apply returns_bind.
  apply (returns_mono _ _ _ (read_udh_ok pdu pre3 _ (dl_text d) _ Hp3 Hh)). intros r (udh & k & -> & Hu & Hk).
  destruct (Z.ltb_spec (zlen (pre ++ tail)) (zlen (pre3 ++ dl_header d))); [unfold pre3, tail, user_part in *; list_lia|].
  pose proof (zlen_nonneg (dl_text d)). pose proof (zlen_nonneg (dl_header d)). destruct (fill_ok (dl_header d)).
  destruct (Z.ltb_spec (zlen (dl_text d) + head_septets (zlen (dl_header d)) - zlen (dl_header d)) 0); [lia|]. cbn [orb].
  pose proof (dcs_to_fields_udh (m_sms (msg_create id1 id2 T_SMS)) (dl_dcs d)) as Eudh.
  destruct (dcs_to_fields (m_sms (msg_create id1 id2 T_SMS)) (dl_dcs d)) as [ok p]. destruct Hdcs as [Hok Hc]. destruct (Z.eqb_spec ok 0); [done|].
  change (sms_coding (set_pid p (dl_pid d))) with (sms_coding p). rewrite Hc. rewrite app_assoc in Hp3. apply returns_bind.
  apply (returns_mono _ _ _ (read_user_data_ok pdu _ _ _ _ k Hp3 Hg Hk)). intros text Htext. destruct (deliver_receiver privdata receiver Hrcv) as (len & -> & Hr).
  bind_red. apply returns_bind. apply (returns_mono _ _ _ Hr). intros rcv Hrcv2. cbn [returns]. eexists. split; [reflexivity|].
  by apply deliver_fields.
Qed.

(** "hi{" from +995 with a header of seven octets, at 10:20:30 on the third of February
    2024, one hour east of Greenwich. *)
Definition sample_deliver : deliver :=
  mkDeliver 68 true [57; 57; 53] 0 0 (mkStamp 24 1 3 10 20 30 4) [6; 5; 4; 0; 1; 0; 2] [104; 105; 27; 40] [].

Lemma sample_deliver_ok : deliver_ok sample_deliver.
Proof.
  split; [done|]. split; [done|]. split; [repeat (apply Forall_cons_2; [unfold digit; lia|]); apply Forall_nil_2|].
  split; [done|]. split; [done|]. split; [done|]. split; [unfold stamp_ok; cbn; lia|]. split; [right; by exists 6|]. split; [octets_tac|].
  split; [repeat (apply Forall_cons_2; [unfold is_digit; lia|]); apply Forall_nil_2|]. split; [done|apply Forall_nil_2].
Qed.

Lemma at2_deliver_reads_witness :
  returns (at2_pdu_decode_deliver_sm (mk_os (hex_text (deliver_pdu sample_deliver))) submit_modem [] [] 0) (fun r => exists m, r = Some m /\
    delivered sample_deliver [49; 50; 51; 52] 0 (m_sms m)).
Proof.
  apply (at2_deliver_reads sample_deliver (mk_os (hex_text (deliver_pdu sample_deliver))) submit_modem [] [] [49; 50; 51; 52] 0);
    [apply sample_deliver_ok|apply mk_os_ok, hex_text_octets, deliver_pdu_octets, sample_deliver_ok|done|done].
Defined.

Example sample_deliver_time : stamp_time (dl_stamp sample_deliver) = 1706952030.
Proof. vm_compute. reflexivity. Qed.

(** ** What the functions do not check *)

(** A PDU of one octet has no length of the sender: -1 octets are copied. *)
Example deliver_short : at2_pdu_decode_deliver_sm (mk_os [48; 48]) submit_modem [] [] 0 = Panic.
Proof. vm_compute. reflexivity. Qed.

(** A character that is not a hexadecimal digit. *)
Example convert_not_hex : at2_convertpdu (mk_os [43; 48]) = Panic.
Proof. vm_compute. reflexivity. Qed.

(** One hour west of Greenwich is read as 21 hours east of it. *)
Example zone_west : at2_timezone (two 4 + 8) = 84.
Proof. vm_compute. reflexivity. Qed.

(** A month of zero is read as an index of -1. *)
Example stamp_month_zero : read_timestamp (mk_os [two 24; 0; two 3; 0; 0; 0; 0]) 0 0 = Undef.
Proof. vm_compute. reflexivity. Qed.

(** A line that ends after the length 255 of the centre's number: octets after the
    buffer are read. *)
Example extract_after_buffer : at2_pdu_extract submit_modem (mk_os [43; 67; 77; 84; 58; 32; 44; 50; 51; 10; 70; 70]) (mk_os []) = Undef.
Proof. vm_compute. reflexivity. Qed.

(** A negative length. *)
Example extract_negative : at2_pdu_extract submit_modem (mk_os [43; 67; 77; 84; 58; 32; 44; 45; 50; 10; 48; 48; 48; 48]) (mk_os []) = Panic.
Proof. vm_compute. reflexivity. Qed.

(** A blank before the number: the prefix is not found. *)
Example number_after_blank : at2_format_address_field (Some (mk_os [32; 43; 57])) = Ok None.
Proof. vm_compute. reflexivity. Qed.

(** A header of 7 octets and 100 characters of two septets: the length is cut to 160
    septets, and the text is not cut. *)
Definition long_sms : sms := set_msgdata submit_sms (Some (mk_os (replicate 100 123))).

Example cut_in_octets :
  ('(len, p) ← user_data_length long_sms; o ← append_user_data (mk_os []) p; Ok (len, os_len o)) = Ok (160, 175).
Proof. vm_compute. reflexivity. Qed.
