(* ===== verification/UrlEscape.v ===== *)
(** * Escape codes of services

    Models [urltrans_fill_escape_codes_ex], [urltrans_get_pattern] and [strip_keyword]
    of src/gw/urltrans.c, which make the URL, the command or the text of a service from
    its pattern and a message, and [octstr_split_words] of src/gwlib/octstr.c.  The
    time is an argument. *)

From stdpp Require Import list.
From S2P Require Import Prelude Octstr OctstrSearch OctstrCode OctstrFormat OctstrParts Date GwList PrioQueue Dict Uuid Msg MetaData Charset Sms Dlr.
#[local] Open Scope Z_scope.
#[local] Open Scope kannel_scope.

(** ** Words *)

(** [while (i < ostr->len && f( *p ))]. *)
Fixpoint skip_class (f : Z -> bool) (ostr : Octstr) (i : Z) (fuel : nat) : res Z :=
  match fuel with
  | O => Undef
  | S fuel =>
      if i <? os_len ostr then
        c ← rd (os_data ostr) i;
        if f c then skip_class f ostr (i + 1) fuel else Ok i
      else Ok i
  end.

Fixpoint words_loop (ostr : Octstr) (i : Z) (fuel : nat) : res (list Octstr) :=
  match fuel with
  | O => Undef
  | S fuel =>
      start ← skip_class isspace ostr i (S (Z.to_nat (os_len ostr)));
      end_ ← skip_class (fun c => negb (isspace c)) ostr start (S (Z.to_nat (os_len ostr)));
      if start =? end_ then Ok []
      else
        word ← octstr_create_from_data (os_data ostr) start (end_ - start);
        words ← words_loop ostr end_ fuel;
        Ok (word :: words)
  end.

Definition octstr_split_words (ostr : Octstr) : res (list Octstr) :=
  seems_valid ostr ≫= fun _ => words_loop ostr 0 (S (Z.to_nat (os_len ostr))).

(** [strip_keyword]: the loops end at the end of the text, where [octstr_get_char] is
    -1. *)
Fixpoint skip_chars (f : Z -> bool) (ostr : Octstr) (pos : Z) (fuel : nat) : res Z :=
  match fuel with
  | O => Undef
  | S fuel =>
      ch ← octstr_get_char ostr pos;
      if (0 <=? ch) && f ch then skip_chars f ostr (pos + 1) fuel else Ok pos
  end.

Definition strip_keyword (request : sms) : res sms :=
  match sms_msgdata request with
  | None => Panic
  | Some d =>
      n ← octstr_len (Some d);
      pos ← skip_chars (fun c => negb (isspace c)) d 0 (S (Z.to_nat n));
      pos ← skip_chars isspace d pos (S (Z.to_nat n));
      d ← octstr_delete d 0 pos;
      Ok (set_msgdata request (Some d))
  end.

(** ** Escape codes *)

Definition URLTRANS_ESCAPE_URL : Z := 0.
Definition URLTRANS_ESCAPE_SHELL : Z := 1.

(** [DO_ESCAPE]. *)
Definition do_escape (escape_type : Z) (enc : option Octstr) : res (option Octstr) :=
  if escape_type =? URLTRANS_ESCAPE_SHELL then octstr_shell_escape enc else octstr_url_encode enc.

Section fill.
Context `{!Printf} (escape_type : Z).

Definition append_escaped (result : Octstr) (src : option Octstr) : res Octstr :=
  enc ← octstr_duplicate src;
  enc ← do_escape escape_type enc;
  octstr_append result enc.

Definition append_filled (result : Octstr) (src : option Octstr) : res Octstr :=
  n ← octstr_len src;
  if n =? 0 then Ok result else append_escaped result src.

Definition append_number (result : Octstr) (value : Z) : res Octstr :=
  enc ← octstr_create [];
  enc ← octstr_append_decimal enc value;
  enc ← do_escape escape_type (Some enc);
  octstr_append result enc.

Definition append_hex (result : Octstr) (src : option Octstr) : res Octstr :=
  n ← octstr_len src;
  if n =? 0 then Ok result
  else
    enc ← octstr_duplicate src;
    match enc with
    | None => Undef
    | Some enc => enc ← octstr_binary_to_hex enc true; octstr_append result (Some enc)
    end.

(** The loops of %a and %r: words separated by "+". *)
Fixpoint append_words (result : Octstr) (words : list Octstr) (first : bool) : res Octstr :=
  match words with
  | [] => Ok result
  | w :: words =>
      enc ← octstr_duplicate (Some w);
      enc ← do_escape escape_type enc;
      result ← (if first then Ok result else octstr_append_char result 43);
      result ← octstr_append result enc;
      append_words result words false
  end.

(** The loop of %S. *)
Fixpoint append_tilde (result temp : Octstr) (i : Z) (n : nat) : res Octstr :=
  match n with
  | O => Ok result
  | S n =>
      c ← octstr_get_char temp i;
      result ← (if c =? 42 then octstr_append_char result 126 else octstr_append_char result c);
      append_tilde result temp (i + 1) n
  end.

(** %q and %Q; [octstr_get_cstr] of NULL panics. *)
Definition append_international (result : Octstr) (number : option Octstr) : res Octstr :=
  match number with
  | None => Panic
  | Some number =>
      if bool_decide (take 2 (cstr (cstr_block number)) = [48; 48]) then
        n ← octstr_len (Some number);
        enc ← octstr_copy (Some number) 2 n;
        enc ← do_escape escape_type (Some enc);
        octstr_format_append result [37; 37; 50; 66; 37; 83] [AOct enc]
      else append_escaped result (Some number)
  end.

(** %C. *)
Definition append_charset (result : Octstr) (request : sms) : res Octstr :=
  n ← octstr_len (sms_charset request);
  if negb (n =? 0) then octstr_append result (sms_charset request)
  else if (sms_coding request =? UNDEF) || (sms_coding request =? DC_7BIT) then
    octstr_append result (Some (octstr_imm [85; 84; 70; 45; 56]))
  else if sms_coding request =? DC_8BIT then
    octstr_append result (Some (octstr_imm [56; 45; 66; 73; 84]))
  else if sms_coding request =? DC_UCS2 then
    octstr_append result (Some (octstr_imm [85; 84; 70; 45; 49; 54; 66; 69]))
  else Ok result.

(** %t. *)
Definition append_time (result : Octstr) (time : Z) : res Octstr :=
  tm ← gw_gmtime time;
  octstr_format_append result
    [37; 48; 52; 100; 45; 37; 48; 50; 100; 45; 37; 48; 50; 100; 43; 37; 48; 50; 100; 58; 37; 48; 50; 100; 58; 37; 48; 50; 100]
    [AInt (tm_year tm + 1900); AInt (tm_mon tm + 1); AInt (tm_mday tm); AInt (tm_hour tm); AInt (tm_min tm); AInt (tm_sec tm)].

(** %v and %V: the minutes until a time. *)
Definition append_minutes (result : Octstr) (time now : Z) : res Octstr :=
  if negb (time =? MSG_PARAM_UNDEFINED) then octstr_format_append result [37; 108; 100] [AInt (Z.quot (time - now) 60)]
  else Ok result.

(** %I. *)
Definition append_id (result : Octstr) (id : list Z) : res Octstr :=
  null ← uuid_is_null id;
  if null =? 0 then text ← uuid_unparse id; octstr_append_cstr result text else Ok result.

(** The codes for fields of the message. *)
Definition fill_field (result : Octstr) (p : sms) (words : list Octstr) (nextarg now c : Z) : res Octstr :=
  if c =? 97 then append_words result words true
  else if c =? 65 then append_escaped result (sms_msgdata p)
  else if c =? 98 then append_escaped result (sms_msgdata p)
  else if c =? 66 then append_filled result (sms_binfo p)
  else if c =? 99 then octstr_append_decimal result (sms_coding p)
  else if c =? 67 then append_charset result p
  else if c =? 100 then append_number result (sms_dlr_mask p)
  else if c =? 68 then append_filled result (sms_meta_data p)
  else if c =? 101 then append_hex result (sms_msgdata p)
  else if c =? 102 then append_filled result (sms_smsc_number p)
  else if c =? 70 then append_escaped result (sms_foreign_id p)
  else if c =? 105 then append_escaped result (sms_smsc_id p)
  else if c =? 73 then append_id result (sms_id p)
  else if c =? 107 then (match words with [] => Ok result | w :: _ => append_escaped result (Some w) end)
  else if c =? 109 then append_number result (sms_mclass p)
  else if c =? 77 then append_number result (sms_mwi p)
  else if c =? 110 then append_escaped result (sms_service p)
  else if c =? 111 then append_filled result (sms_account p)
  else if c =? 80 then append_escaped result (sms_sender p)
  else if c =? 112 then append_escaped result (sms_receiver p)
  else if c =? 113 then append_international result (sms_receiver p)
  else if c =? 81 then append_international result (sms_sender p)
  else if c =? 114 then append_words result (drop (Z.to_nat nextarg) words) true
  else if c =? 82 then append_filled result (sms_dlr_url p)
  else if c =? 116 then append_time result (sms_time p)
  else if c =? 84 then
    (if sms_time p =? MSG_PARAM_UNDEFINED then Ok result else octstr_format_append result [37; 108; 100] [AInt (sms_time p)])
  else if c =? 117 then append_filled result (sms_udhdata p)
  else if c =? 85 then append_hex result (sms_udhdata p)
  else if c =? 118 then append_minutes result (sms_validity p) now
  else if c =? 86 then append_minutes result (sms_deferred p) now
  else if c =? 121 then append_number result (sms_priority p)
  else if c =? 120 then append_filled result (sms_boxc_id p)
  else if c =? 37 then octstr_format_append result [37; 37] []
  else octstr_format_append result [37; 37; 37; 99] [AInt c].

(** %#group#parameter#: the text, and the new position. *)
Definition fill_meta (pattern result : Octstr) (p : sms) (pos : Z) : res (Octstr * Z) :=
  k ← octstr_search_char pattern 35 (pos + 2);
  if 0 <=? k then
    let pos := pos + 2 in
    meta_group ← octstr_copy (Some pattern) pos (k - pos);
    let pos := k + 1 in
    k ← octstr_search_char pattern 35 pos;
    if 0 <=? k then
      meta_param ← octstr_copy (Some pattern) pos (k - pos);
      let pos := k - 1 in
      match sms_meta_data p with
      | Some md =>
          enc ← meta_data_get_value md (cstr (cstr_block meta_group)) meta_param;
          enc ← do_escape escape_type enc;
          result ← octstr_append result enc;
          Ok (result, pos)
      | None => Ok (result, pos)
      end
    else Ok (result, pos + 1)
  else Ok (result, pos).

(** The [switch]: the result, the next word, the position and the message, which
    [fields_to_dcs] may change. *)
Definition fill_code (pattern result : Octstr) (p : sms) (words : list Octstr) (nextarg now pos : Z) : res (Octstr * Z * Z * sms) :=
  c ← octstr_get_char pattern (pos + 1);
  if c =? 79 then
    '(dcs, p) ← fields_to_dcs p (sms_alt_dcs p);
    result ← octstr_format_append result [37; 48; 50; 100] [AInt dcs];
    Ok (result, nextarg, pos, p)
  else if c =? 115 then
    match words !! Z.to_nat nextarg with
    | None => Ok (result, nextarg, pos, p)
    | Some w => result ← append_escaped result (Some w); Ok (result, nextarg + 1, pos, p)
    end
  else if c =? 83 then
    match words !! Z.to_nat nextarg with
    | None => Ok (result, nextarg, pos, p)
    | Some temp =>
        n ← octstr_len (Some temp);
        result ← append_tilde result temp 0 (Z.to_nat n);
        Ok (result, nextarg + 1, pos, p)
    end
  else if c =? 35 then '(result, pos) ← fill_meta pattern result p pos; Ok (result, nextarg, pos, p)
  else result ← fill_field result p words nextarg now c; Ok (result, nextarg, pos, p).

(** Up to the next "%" that is not the last character. *)
Fixpoint copy_plain (pattern result : Octstr) (pos pattern_len : Z) (fuel : nat) : res (Octstr * Z) :=
  match fuel with
  | O => Undef
  | S fuel =>
      if pos <? pattern_len then
        c ← octstr_get_char pattern pos;
        if (c =? 37) && (pos + 1 <? pattern_len) then Ok (result, pos)
        else
          result ← octstr_append_char result c;
          copy_plain pattern result (pos + 1) pattern_len fuel
      else Ok (result, pos)
  end.

Fixpoint fill_loop (pattern result : Octstr) (p : sms) (words : list Octstr) (nextarg now pos pattern_len : Z) (fuel : nat)
  : res (Octstr * sms) :=
  match fuel with
  | O => Undef
  | S fuel =>
      '(result, pos) ← copy_plain pattern result pos pattern_len (S (Z.to_nat pattern_len));
      if pos =? pattern_len then Ok (result, p)
      else
        '(result, nextarg, pos, p) ← fill_code pattern result p words nextarg now pos;
        fill_loop pattern result p words nextarg now (pos + 2) pattern_len fuel
  end.

Definition urltrans_fill_escape_codes_ex (pattern : Octstr) (request : sms) (now : Z) : res (Octstr * sms) :=
  result ← octstr_create [];
  words ← (match sms_msgdata request with Some d => octstr_split_words d | None => Ok [] end);
  pattern_len ← octstr_len (Some pattern);
  fill_loop pattern result request words 1 now 0 pattern_len (S (Z.to_nat pattern_len)).
End fill.
