(* ===== verification/UrlEscapeProofs.v ===== *)
(** * Properties of the escape codes

    What [urltrans_fill_escape_codes_ex] of UrlEscape.v makes of a pattern: the texts of
    its pieces, one after the other. *)

From stdpp Require Import gmap.
From S2P Require Import Prelude Octstr OctstrSearch OctstrCode OctstrFormat OctstrNumber OctstrParts Date GwList PrioQueue Dict Uuid Msg MetaData MetaDataProofs MetaDataPack MetaDataOps Charset Sms Dlr UrlEscape.
#[local] Open Scope Z_scope.
#[local] Open Scope kannel_scope.

(** ** Words *)

Definition flush (w : list Z) : list (list Z) := match w with [] => [] | _ => [w] end.

(** The words of a text, [cur] being the part of a word that was read. *)
Fixpoint words_from (cur s : list Z) : list (list Z) :=
  match s with
  | [] => flush cur
  | c :: s => if isspace c then flush cur ++ words_from [] s else words_from (cur ++ [c]) s
  end.

Definition words_of (s : list Z) : list (list Z) := words_from [] s.

Fixpoint take_while (f : Z -> bool) (s : list Z) : list Z :=
  match s with
  | c :: s => if f c then c :: take_while f s else []
  | [] => []
  end.

Lemma take_drop_while f s : take_while f s ++ drop_while f s = s.
Proof. induction s as [|c s IH]; [done|]. cbn. destruct (f c); cbn; [by rewrite IH|done]. Qed.

Lemma drop_while_stop f s c r : drop_while f s = c :: r -> f c = false.
Proof. induction s as [|d s IH]; [done|]. cbn. destruct (f d) eqn:E; [done|]. by intros [= -> _]. Qed.

Lemma take_while_octets f s : octets s -> octets (take_while f s).
Proof. induction 1 as [|c s Hc _ IH]; cbn; [apply Forall_nil_2|]. destruct (f c); [by apply Forall_cons_2|apply Forall_nil_2]. Qed.

Lemma words_blanks s : words_from [] (drop_while isspace s) = words_from [] s.
Proof. induction s as [|c s IH]; [done|]. cbn. destruct (isspace c) eqn:E; [done|]. cbn. by rewrite E. Qed.

Lemma words_word s : forall cur, words_from cur s =
  flush (cur ++ take_while (fun c => negb (isspace c)) s) ++ words_from [] (drop_while (fun c => negb (isspace c)) s).
Proof.
  induction s as [|c s IH]; intros cur; [cbn; by rewrite !app_nil_r|]. cbn. destruct (isspace c) eqn:E; cbn [negb].
  - rewrite app_nil_r. cbn. by rewrite E.
  - rewrite IH, <- app_assoc. done.
Qed.

Lemma skip_class_ok f o s (fuel : nat) : repr o s -> forall suf pre, s = pre ++ suf -> (length suf < fuel)%nat ->
  skip_class f o (zlen pre) fuel = Ok (zlen pre + zlen (take_while f suf)).
Proof.
  intros Ho. induction fuel as [|fuel IH]; intros suf pre E Hf; [lia|]. cbn [skip_class]. rewrite (repr_len _ _ Ho). destruct suf as [|c suf].
  - destruct (Z.ltb_spec (zlen pre) (zlen s)); [subst s; list_lia|]. f_equal. cbn. list_lia.
  - destruct (Z.ltb_spec (zlen pre) (zlen s)); [|subst s; list_lia].
    assert (rd (os_data o) (zlen pre) = Ok c) as ->.
    { pose proof (repr_octets _ _ Ho) as Hs. destruct Ho as [|s rest size imm Hs' Hsz]; [by destruct pre|]. subst s. apply rd_ok.
      apply Forall_app in Hs as [_ Hs]. apply Forall_cons_iff in Hs as [Hc _]. unfold octet in Hc. split; [list_lia|]. split; [|lia].
      cbn [os_data]. rewrite <- app_assoc. apply list_lookup_middle. list_lia. }
    bind_red. cbn [take_while]. destruct (f c) eqn:Ef; [|f_equal; cbn; list_lia].
    replace (zlen pre + 1) with (zlen (pre ++ [c])) by list_lia.
    rewrite (IH suf (pre ++ [c])); [f_equal; list_lia|by rewrite <- app_assoc|cbn in Hf; lia].
Qed.

Lemma words_loop_ok o s (fuel : nat) : repr o s -> forall suf pre, s = pre ++ suf -> (length suf < fuel)%nat ->
  returns (words_loop o (zlen pre) fuel) (fun ws => Forall2 reprm ws (words_from [] suf)).
Proof.
  intros Ho. pose proof (repr_octets _ _ Ho) as Hs. induction fuel as [|fuel IH]; intros suf pre E Hf; [lia|]. cbn [words_loop]. rewrite (repr_len _ _ Ho).
  rewrite (skip_class_ok isspace o s _ Ho suf pre E) by (subst s; list_lia). bind_red.
  set (b := take_while isspace suf). set (r := drop_while isspace suf). assert (suf = b ++ r) as Eb by (symmetry; apply take_drop_while).
  replace (zlen pre + zlen b) with (zlen (pre ++ b)) by list_lia.
  rewrite (skip_class_ok _ o s _ Ho r (pre ++ b)) by (subst s; rewrite Eb, ?app_assoc; done || list_lia). bind_red.
  set (w := take_while (fun c => negb (isspace c)) r). set (r2 := drop_while (fun c => negb (isspace c)) r).
  assert (r = w ++ r2) as Er by (symmetry; apply take_drop_while).
  rewrite <- words_blanks. fold r. rewrite words_word. cbn [app]. fold w r2. destruct (Z.eqb_spec (zlen (pre ++ b)) (zlen (pre ++ b) + zlen w)) as [Ew|Hne].
  - assert (w = []) as Hw by (apply zlen_0_inv; lia). rewrite Hw. cbn [flush app returns]. assert (r = []) as Er0.
    { destruct (drop_while isspace suf) as [|c r'] eqn:Ed; [done|]. pose proof (drop_while_stop _ _ _ _ Ed) as Ec.
      exfalso. revert Hw. unfold w, r. cbn [take_while]. rewrite Ec. done. }
    unfold r2. rewrite Er0. cbn. by apply Forall2_nil.
  - assert (w <> []) as Hw by (intros ->; apply Hne; list_lia). assert (s = (pre ++ b) ++ w ++ r2) as Es by (rewrite E, Eb, Er, <- app_assoc; done).
    destruct (repr_slice o s (zlen (pre ++ b)) (zlen w) Ho) as [Esl Hb]; [list_lia|list_lia|rewrite Es; list_lia|].
    replace (zlen (pre ++ b) + zlen w - zlen (pre ++ b)) with (zlen w) by lia. apply returns_bind.
    eapply returns_mono; [apply octstr_create_from_data_ok; [list_lia|list_lia|exact Hb|rewrite Esl; by apply octets_slice]|].
    intros word Hword. rewrite Esl in Hword. assert (slice s (zlen (pre ++ b)) (zlen w) = w) as Ews.
    { rewrite Es. unfold slice, zlen. rewrite !Nat2Z.id, drop_app_length. by rewrite take_app_length. }
    rewrite Ews in Hword. apply returns_bind. replace (zlen (pre ++ b) + zlen w) with (zlen ((pre ++ b) ++ w)) by list_lia.
    apply (returns_mono _ _ _ (IH r2 ((pre ++ b) ++ w) ltac:(by rewrite <- app_assoc) ltac:(rewrite Eb, Er in Hf; destruct w; [done|]; rewrite !length_app in Hf; cbn in Hf; lia))).
    intros ws Hws. cbn [returns]. destruct w; [done|]. cbn [flush app]. by apply Forall2_cons.
Qed.

Lemma octstr_split_words_ok o s : repr o s -> returns (octstr_split_words o) (fun ws => Forall2 reprm ws (words_of s)).
Proof.
  intros Ho. unfold octstr_split_words. wp_valid. rewrite (repr_len _ _ Ho). apply (words_loop_ok o s _ Ho s []); [done|list_lia].
Qed.

(** ** Texts *)

(** The contents of a field. *)
Definition fld (o : option Octstr) : option (list Z) := bytes <$> o.
Definition ok_field (o : option Octstr) : Prop := match o with Some o => repr o (bytes o) | None => True end.

Definition in_long (v : Z) : Prop := LONG_MIN <= v <= LONG_MAX.

Section texts.
Context (et : Z).

(** A value, as the target of the pattern needs it. *)
Definition quote (v : list Z) : list Z := if et =? URLTRANS_ESCAPE_SHELL then shell_quote v else url_encode v.

Definition quoted (o : option (list Z)) : list Z := from_option quote [] o.

(** Empty like absent. *)
Definition quoted_filled (o : option (list Z)) : list Z :=
  match o with
  | Some (c :: v) => quote (c :: v)
  | _ => []
  end.

Definition hex_text_of (o : option (list Z)) : list Z := from_option (hex_encode true) [] o.

Fixpoint join_plus (ws : list (list Z)) (first : bool) : list Z :=
  match ws with
  | [] => []
  | w :: ws => (if first then [] else [43]) ++ quote w ++ join_plus ws false
  end.

Definition tilde (c : Z) : Z := if c =? 42 then 126 else c.

Definition international_text (number : list Z) : list Z :=
  if bool_decide (take 2 (cstr number) = [48; 48]) then [37; 50; 66] ++ quote (drop 2 number) else quote number.

Definition charset_text (p : sms) : list Z :=
  match fld (sms_charset p) with
  | Some (c :: v) => c :: v
  | _ =>
      if (sms_coding p =? UNDEF) || (sms_coding p =? DC_7BIT) then [85; 84; 70; 45; 56]
      else if sms_coding p =? DC_8BIT then [56; 45; 66; 73; 84]
      else if sms_coding p =? DC_UCS2 then [85; 84; 70; 45; 49; 54; 66; 69]
      else []
  end.

Definition time_text (t : Z) : list Z :=
  match gw_gmtime t with
  | Ok tm =>
      digits 4 (swrap 32 (tm_year tm + 1900)) ++ [45] ++ digits 2 (swrap 32 (tm_mon tm + 1)) ++ [45] ++ digits 2 (swrap 32 (tm_mday tm)) ++
      [43] ++ digits 2 (swrap 32 (tm_hour tm)) ++ [58] ++ digits 2 (swrap 32 (tm_min tm)) ++ [58] ++ digits 2 (swrap 32 (tm_sec tm))
  | _ => []
  end.

Definition minutes_text (time now : Z) : list Z :=
  if time =? MSG_PARAM_UNDEFINED then [] else sprintf_ld (swrap 64 (Z.quot (time - now) 60)).

Definition id_text (u : list Z) : list Z := if bool_decide (u = uuid_clear) then [] else uuid_text u.

(** The text of a code, but for those that change the state. *)
Definition field_text (p : sms) (ws : list (list Z)) (nextarg : nat) (now c : Z) : list Z :=
  if c =? 97 then join_plus ws true
  else if c =? 65 then quoted (fld (sms_msgdata p))
  else if c =? 98 then quoted (fld (sms_msgdata p))
  else if c =? 66 then quoted_filled (fld (sms_binfo p))
  else if c =? 99 then sprintf_ld (sms_coding p)
  else if c =? 67 then charset_text p
  else if c =? 100 then quote (sprintf_ld (sms_dlr_mask p))
  else if c =? 68 then quoted_filled (fld (sms_meta_data p))
  else if c =? 101 then hex_text_of (fld (sms_msgdata p))
  else if c =? 102 then quoted_filled (fld (sms_smsc_number p))
  else if c =? 70 then quoted (fld (sms_foreign_id p))
  else if c =? 105 then quoted (fld (sms_smsc_id p))
  else if c =? 73 then id_text (sms_id p)
  else if c =? 107 then quoted (head ws)
  else if c =? 109 then quote (sprintf_ld (sms_mclass p))
  else if c =? 77 then quote (sprintf_ld (sms_mwi p))
  else if c =? 110 then quoted (fld (sms_service p))
  else if c =? 111 then quoted_filled (fld (sms_account p))
  else if c =? 80 then quoted (fld (sms_sender p))
  else if c =? 112 then quoted (fld (sms_receiver p))
  else if c =? 113 then from_option international_text [] (fld (sms_receiver p))
  else if c =? 81 then from_option international_text [] (fld (sms_sender p))
  else if c =? 114 then join_plus (drop nextarg ws) true
  else if c =? 82 then quoted_filled (fld (sms_dlr_url p))
  else if c =? 116 then time_text (sms_time p)
  else if c =? 84 then (if sms_time p =? MSG_PARAM_UNDEFINED then [] else sprintf_ld (swrap 64 (sms_time p)))
  else if c =? 117 then quoted_filled (fld (sms_udhdata p))
  else if c =? 85 then hex_text_of (fld (sms_udhdata p))
  else if c =? 118 then minutes_text (sms_validity p) now
  else if c =? 86 then minutes_text (sms_deferred p) now
  else if c =? 121 then quote (sprintf_ld (sms_priority p))
  else if c =? 120 then quoted_filled (fld (sms_boxc_id p))
  else if c =? 37 then [37]
  else [37; c].

(** ** Each code appends its text *)

Context {PF : Printf}.

Lemma do_escape_ok o v : reprm o v -> returns (do_escape et (Some o)) (fun r => exists o', r = Some o' /\ reprm o' (quote v)).
Proof.
  intros Ho. unfold do_escape, quote. destruct (et =? URLTRANS_ESCAPE_SHELL); [by apply octstr_shell_escape_ok|by apply octstr_url_encode_ok].
Qed.

Lemma escape_append o v result s : reprm o v -> reprm result s ->
  returns (enc ← do_escape et (Some o); octstr_append result enc) (fun r => reprm r (s ++ quote v)).
Proof.
  intros Ho Hr. apply returns_bind. apply (returns_mono _ _ _ (do_escape_ok o v Ho)). intros r (o' & -> & Ho').
  apply octstr_append_ok; [done|apply Ho'].
Qed.

Lemma append_escaped_ok result s src : reprm result s -> ok_field src ->
  returns (append_escaped et result src) (fun r => reprm r (s ++ quoted (fld src))).
Proof.
  intros Hr Hs. unfold append_escaped. destruct src as [o|].
  - apply returns_bind. apply (returns_mono _ _ _ (octstr_duplicate_ok o _ Hs)). intros r (o' & -> & Ho'). by apply escape_append.
  - cbn [octstr_duplicate]. bind_red. unfold do_escape. destruct (et =? URLTRANS_ESCAPE_SHELL); cbn; by rewrite app_nil_r.
Qed.

Lemma field_len src : ok_field src -> octstr_len src = Ok (zlen (default [] (fld src))).
Proof. destruct src as [o|]; [|done]. cbn [ok_field fld fmap option_fmap option_map default]. apply octstr_len_ok. Qed.

Lemma append_filled_ok result s src : reprm result s -> ok_field src ->
  returns (append_filled et result src) (fun r => reprm r (s ++ quoted_filled (fld src))).
Proof.
  intros Hr Hs. unfold append_filled. rewrite (field_len src Hs). bind_red. pose proof (append_escaped_ok result s src Hr Hs) as H.
  destruct src as [o|]; [|cbn; by rewrite app_nil_r]. cbn [fld fmap option_fmap option_map default quoted quoted_filled from_option] in *.
  destruct (bytes o) as [|c v]; [cbn; by rewrite app_nil_r|]. destruct (Z.eqb_spec (zlen (c :: v)) 0); [list_lia|done].
Qed.

Lemma append_number_ok result s v : reprm result s -> in_long v -> returns (append_number et result v) (fun r => reprm r (s ++ quote (sprintf_ld v))).
Proof.
  intros Hr Hv. unfold append_number. apply returns_bind. apply (returns_mono _ _ _ (octstr_create_ok [] (Forall_nil_2 _))). intros o Ho.
  destruct (sprintf_ld_ok v Hv) as [Hoct _]. apply returns_bind. apply (returns_mono _ _ _ (octstr_append_cstr_ok _ _ _ Ho Hoct)). intros o1 Ho1.
  by apply (escape_append o1 (sprintf_ld v)).
Qed.

Lemma append_hex_ok result s src : reprm result s -> ok_field src ->
  returns (append_hex result src) (fun r => reprm r (s ++ hex_text_of (fld src))).
Proof.
  intros Hr Hs. unfold append_hex. rewrite (field_len src Hs). bind_red. destruct src as [o|]; [|cbn; by rewrite app_nil_r].
  cbn [fld fmap option_fmap option_map default hex_text_of from_option ok_field] in *. unfold default, id. destruct (Z.eqb_spec (zlen (bytes o)) 0) as [E|].
  - rewrite (zlen_0_inv _ E). cbn. by rewrite app_nil_r.
  - apply returns_bind. apply (returns_mono _ _ _ (octstr_duplicate_ok o _ Hs)). intros r (o' & -> & Ho').
    apply returns_bind. apply (returns_mono _ _ _ (octstr_binary_to_hex_ok o' _ true Ho')). intros o2 Ho2. apply octstr_append_ok; [done|apply Ho2].
Qed.

Lemma append_words_ok words ws : Forall2 reprm words ws -> forall result s first, reprm result s ->
  returns (append_words et result words first) (fun r => reprm r (s ++ join_plus ws first)).
Proof.
  induction 1 as [|w v words ws Hw _ IH]; intros result s first Hr; cbn [append_words join_plus]; [cbn; by rewrite app_nil_r|].
  apply returns_bind. apply (returns_mono _ _ _ (octstr_duplicate_ok w v (proj1 Hw))). intros r (o & -> & Ho).
  apply returns_bind. apply (returns_mono _ _ _ (do_escape_ok o v Ho)). intros r (o' & -> & Ho').
  apply returns_bind. apply (returns_mono _ (fun r => reprm r (s ++ (if first then [] else [43])))).
  { destruct first; [cbn; by rewrite app_nil_r|]. by apply octstr_append_char_ok. }
  intros r1 Hr1. apply returns_bind. apply (returns_mono _ _ _ (octstr_append_ok _ _ _ _ Hr1 (proj1 Ho'))). intros r2 Hr2.
  apply (returns_mono _ _ _ (IH r2 _ false Hr2)). intros r3 Hr3. by rewrite <- !app_assoc in Hr3.
Qed.

Lemma append_tilde_ok temp v : forall suf pre result s, repr temp v -> v = pre ++ suf -> reprm result s ->
  returns (append_tilde result temp (zlen pre) (length suf)) (fun r => reprm r (s ++ (tilde <$> suf))).
Proof.
  induction suf as [|c suf IH]; intros pre result s Ht Ev Hr; cbn [append_tilde length]; [cbn; by rewrite app_nil_r|].
  pose proof (repr_octets _ _ Ht) as Ho. rewrite Ev in Ho. apply Forall_app in Ho as [_ Ho]. apply Forall_cons_iff in Ho as [Hc _].
  rewrite (octstr_get_char_ok temp v _ Ht), Ev, char_at_mid. bind_red. apply returns_bind.
  apply (returns_mono _ (fun r => reprm r (s ++ [tilde c]))).
  { unfold tilde. destruct (c =? 42); by apply octstr_append_char_ok. }
  intros r1 Hr1. replace (zlen pre + 1) with (zlen (pre ++ [c])) by list_lia.
  apply (returns_mono _ _ _ (IH (pre ++ [c]) r1 _ Ht ltac:(by rewrite <- app_assoc) Hr1)). intros r2 Hr2. by rewrite <- app_assoc in Hr2.
Qed.

(** A format that begins with "%%". *)
Lemma percent_format_ok result s segs last args : reprm result s -> Forall seg_ok segs -> literal last -> args = s_arg <$> segs ->
  returns (octstr_format_append result (37 :: 37 :: concat (seg_text <$> segs) ++ last) args)
    (fun r => reprm r (s ++ 37 :: concat (seg_render <$> segs) ++ last)).
Proof.
  intros Hr Hg Hl ->. unfold octstr_format_append, octstr_format. apply returns_bind, returns_bind.
  apply (returns_mono _ _ _ (octstr_create_ok [] (Forall_nil_2 _))). intros os Hos. apply returns_bind. cbn [length]. set (R := concat (seg_text <$> segs) ++ last).
  remember (S (S (S (length R)))) as fuel eqn:Ef. cbn [format_loop]. change (strcspn_percent (37 :: 37 :: R)) with 0%nat. apply returns_bind.
  pose proof (octstr_append_data_ok os [] (37 :: 37 :: R) (Z.of_nat 0) Hos ltac:(list_lia) (Forall_nil_2 _)) as Ha. cbn [Z.to_nat take app] in Ha.
  apply (returns_mono _ _ _ Ha). intros os1 Hos1. change (drop 0 (37 :: 37 :: R)) with (37 :: 37 :: R). change (at_fmt (37 :: 37 :: R)) with 37.
  cbn [Z.eqb Pos.eqb orb gw_assert]. bind_red. change (drop 1 (37 :: 37 :: R)) with (37 :: R).
  change (format_flags no_format (37 :: R)) with (no_format, 37 :: R). cbn iota.
  change (format_width no_format (37 :: R) (s_arg <$> segs)) with (Ok (no_format, 37 :: R, s_arg <$> segs)). bind_red.
  change (format_prec no_format (37 :: R) (s_arg <$> segs)) with (Ok (no_format, 37 :: R, s_arg <$> segs)). bind_red.
  change (format_type no_format (37 :: R)) with (no_format, 37 :: R). cbn iota. unfold convert. apply returns_bind, returns_bind.
  change (convert_new no_format (at_fmt (37 :: R)) (s_arg <$> segs)) with (new ← octstr_create [37]; Ok (new, s_arg <$> segs)). apply returns_bind.
  apply (returns_mono _ _ _ (octstr_create_ok [37] ltac:(octets_tac))). intros new Hn. cbn [returns]. apply returns_bind.
  eapply returns_mono; [apply (pad_loop_ok (f_minus no_format) 32 (f_min_width no_format) _ ltac:(done) new [37] Hn); [done|lia]|]. intros new2 Hn2.
  apply returns_bind. apply (returns_mono _ _ _ (octstr_append_ok _ _ _ _ Hos1 (proj1 Hn2))). intros os2 Hos2. cbn [returns].
  change (drop 1 (37 :: R)) with R. pose proof (seg_texts_length segs last).
  eapply returns_mono; [apply (format_loop_ok last Hl segs os2 _ _ Hg Hos2); subst fuel; unfold R; lia|]. intros os3 Hos3.
  rewrite (repr_seems_valid _ _ (proj1 Hos3)). cbn [returns mbind res_bind]. apply octstr_append_ok; [done|]. exact (proj1 Hos3).
Qed.

Lemma plain_int_seg lit n : literal lit -> seg_ok (mkSegment lit (plain_dir 108 100) (AInt n)).
Proof. intros Hl. apply plain_seg_ok; [done|by apply (bool_decide_unpack _)|by apply (bool_decide_unpack _)|done|by eexists]. Qed.

(** "%ld". *)
Lemma append_ld_ok result s n : reprm result s -> returns (octstr_format_append result [37; 108; 100] [AInt n]) (fun r => reprm r (s ++ sprintf_ld (swrap 64 n))).
Proof.
  intros Hr. apply (octstr_format_append_ok result s [mkSegment [] (plain_dir 108 100) (AInt n)] []); [done| |by apply Forall_nil_2|done|done|].
  - apply Forall_cons_2; [apply plain_int_seg, Forall_nil_2|apply Forall_nil_2].
  - cbn [fmap list_fmap concat]. rewrite !app_nil_r. by rewrite (plain_render [] 108 100 _ (sprintf_ld (swrap 64 n))).
Qed.

Lemma append_minutes_ok result s time now : reprm result s -> returns (append_minutes result time now) (fun r => reprm r (s ++ minutes_text time now)).
Proof.
  intros Hr. unfold append_minutes, minutes_text. destruct (time =? MSG_PARAM_UNDEFINED); cbn [negb]; [cbn; by rewrite app_nil_r|]. by apply append_ld_ok.
Qed.

(** "%0wd". *)
Definition zero_seg (lit : list Z) (w n : Z) : segment := mkSegment lit (mkDirective false true w None 0 100) (AInt n).

Lemma zero_seg_ok lit w n : literal lit -> 0 <= w <= LONG_MAX -> seg_ok (zero_seg lit w n).
Proof.
  intros Hl Hw. split_and!; [done| |done|by eexists].
  constructor; [done|done|by apply (bool_decide_unpack _)|by apply (bool_decide_unpack _)].
Qed.

Lemma append_time_ok result s t tm : reprm result s -> gw_gmtime t = Ok tm -> returns (append_time result t) (fun r => reprm r (s ++ time_text t)).
Proof.
  intros Hr E. unfold append_time, time_text. rewrite E. bind_red.
  apply (octstr_format_append_ok result s [zero_seg [] 4 (tm_year tm + 1900); zero_seg [45] 2 (tm_mon tm + 1); zero_seg [45] 2 (tm_mday tm);
    zero_seg [43] 2 (tm_hour tm); zero_seg [58] 2 (tm_min tm); zero_seg [58] 2 (tm_sec tm)] []); [done| |by apply Forall_nil_2|done|done|].
  - repeat (apply Forall_cons_2; [apply zero_seg_ok; [literal_tac|unfold LONG_MAX; lia]|]). apply Forall_nil_2.
  - cbn [fmap list_fmap concat]. by rewrite !app_nil_r.
Qed.

Lemma append_id_ok result s u : reprm result s -> is_uuid u -> returns (append_id result u) (fun r => reprm r (s ++ id_text u)).
Proof.
  intros Hr Hu. unfold append_id, id_text. rewrite (uuid_is_null_ok u Hu). bind_red. destruct (bool_decide (u = uuid_clear)).
  - cbn. by rewrite app_nil_r.
  - change (0 =? 0) with true. cbn iota. rewrite (uuid_unparse_ok u Hu). bind_red. apply octstr_append_cstr_ok; [done|by apply octets_uuid_text].
Qed.

Lemma append_international_ok result s o : reprm result s -> repr o (bytes o) ->
  returns (append_international et result (Some o)) (fun r => reprm r (s ++ international_text (bytes o))).
Proof.
  intros Hr Ho. unfold append_international, international_text. destruct (cstr_block_ok o _ Ho) as (rest & Eb & _). rewrite Eb, cstr_app_nul.
  destruct (bool_decide_reflect (take 2 (cstr (bytes o)) = [48; 48])) as [E|_]; [|by apply (append_escaped_ok result s (Some o))].
  rewrite (octstr_len_ok o _ Ho). bind_red. apply returns_bind.
  apply (returns_mono _ _ _ (octstr_copy_ok o _ 2 (zlen (bytes o)) Ho ltac:(lia) ltac:(apply zlen_nonneg))). intros enc Henc.
  assert (slice (bytes o) 2 (zlen (bytes o)) = drop 2 (bytes o)) as Es by (unfold slice; rewrite take_ge; [done|rewrite length_drop; list_lia]).
  rewrite Es in Henc. apply returns_bind. apply (returns_mono _ _ _ (do_escape_ok enc _ Henc)). intros r (e & -> & He).
  pose proof (percent_format_ok result s [mkSegment [50; 66] (plain_dir 0 83) (AOct (Some e))] [] [AOct (Some e)] Hr) as H.
  apply (returns_mono _ _ _ (H ltac:(apply Forall_cons_2; [apply plain_seg_ok; [literal_tac|by apply (bool_decide_unpack _)|by apply (bool_decide_unpack _)|
    cbn; by rewrite (repr_bytes _ _ (proj1 He)); apply He|by eexists]|apply Forall_nil_2]) ltac:(apply Forall_nil_2) eq_refl)).
  intros r Hres. cbn [fmap list_fmap concat] in Hres. rewrite !app_nil_r in Hres. by rewrite (plain_render [50; 66] 0 83 _ (quote (drop 2 (bytes o)))) in Hres
    by (cbn; by rewrite (repr_bytes _ _ (proj1 He))).
Qed.

Lemma append_charset_ok result s p : reprm result s -> ok_field (sms_charset p) ->
  returns (append_charset result p) (fun r => reprm r (s ++ charset_text p)).
Proof.
  intros Hr Hf. unfold append_charset, charset_text. rewrite (field_len _ Hf). bind_red.
  assert (forall t, octets t -> returns (octstr_append result (Some (octstr_imm t))) (fun r => reprm r (s ++ t))) as Himm
    by (intros t Ht; apply octstr_append_ok; [done|by apply octstr_imm_ok]).
  assert (returns (if (sms_coding p =? UNDEF) || (sms_coding p =? DC_7BIT) then octstr_append result (Some (octstr_imm [85; 84; 70; 45; 56]))
    else if sms_coding p =? DC_8BIT then octstr_append result (Some (octstr_imm [56; 45; 66; 73; 84]))
    else if sms_coding p =? DC_UCS2 then octstr_append result (Some (octstr_imm [85; 84; 70; 45; 49; 54; 66; 69])) else Ok result)
    (fun r => reprm r (s ++ (if (sms_coding p =? UNDEF) || (sms_coding p =? DC_7BIT) then [85; 84; 70; 45; 56]
      else if sms_coding p =? DC_8BIT then [56; 45; 66; 73; 84]
      else if sms_coding p =? DC_UCS2 then [85; 84; 70; 45; 49; 54; 66; 69] else [])))) as Hdef.
  { repeat match goal with |- context [if ?b then _ else _] => destruct b end; try (apply Himm; octets_tac). cbn. by rewrite app_nil_r. }
  destruct (sms_charset p) as [o|]; [|exact Hdef]. cbn [fld fmap option_fmap option_map default ok_field] in *. unfold default, id.
  destruct (bytes o) as [|c v] eqn:E; [exact Hdef|]. destruct (Z.eqb_spec (zlen (c :: v)) 0); [list_lia|]. cbn [negb]. by apply octstr_append_ok.
Qed.

(** ** The message *)

Definition text_fields (p : sms) : list (option Octstr) :=
  [sms_msgdata p; sms_binfo p; sms_charset p; sms_meta_data p; sms_smsc_number p; sms_foreign_id p; sms_smsc_id p; sms_service p;
   sms_account p; sms_sender p; sms_receiver p; sms_dlr_url p; sms_udhdata p; sms_boxc_id p].

(** A message whose fields are valid, with a sender and a receiver. *)
Record escapable (p : sms) : Prop := {
  es_fields : Forall ok_field (text_fields p);
  es_numbers : Forall in_long [sms_coding p; sms_dlr_mask p; sms_mclass p; sms_mwi p; sms_priority p];
  es_id : is_uuid (sms_id p);
  es_time : exists tm, gw_gmtime (sms_time p) = Ok tm;
  es_sender : is_Some (sms_sender p);
  es_receiver : is_Some (sms_receiver p)
}.

Ltac fill_field_tac tm :=
  lazymatch goal with
  | |- returns (append_words _ _ _ _) _ => apply append_words_ok
  | |- returns (append_escaped _ _ _) _ => apply append_escaped_ok
  | |- returns (append_filled _ _ _) _ => apply append_filled_ok
  | |- returns (append_number _ _ _) _ => apply append_number_ok
  | |- returns (append_hex _ _) _ => apply append_hex_ok
  | |- returns (append_id _ _) _ => apply append_id_ok
  | |- returns (append_time _ _) _ => apply (append_time_ok _ _ _ tm)
  | |- returns (append_minutes _ _ _) _ => apply append_minutes_ok
  | |- returns (append_charset _ _) _ => apply append_charset_ok
  end; assumption.

Lemma fill_field_ok result s p words ws nextarg now c : reprm result s -> escapable p -> Forall2 reprm words ws -> octet c ->
  returns (fill_field et result p words (Z.of_nat nextarg) now c) (fun r => reprm r (s ++ field_text p ws nextarg now c)).
Proof.
  intros Hr [Hf Hn Hid [tm Htm] [snd_ Esnd] [rcv Ercv]] Hw Hc. unfold fill_field, field_text. rewrite Nat2Z.id.
  unfold text_fields in Hf. repeat (apply Forall_cons_iff in Hn as [? Hn]). repeat (apply Forall_cons_iff in Hf as [? Hf]).
  repeat match goal with |- context [c =? ?k] => destruct (Z.eqb_spec c k); [try fill_field_tac tm|] end.
  - apply octstr_append_cstr_ok; [done|by apply sprintf_ld_ok].
  - destruct Hw as [|w v words ws [Hw _] _]; [cbn; by rewrite app_nil_r|]. pose proof (append_escaped_ok result s (Some w) Hr) as H'.
    cbn in H'. rewrite (repr_bytes _ _ Hw) in H'. by apply H'.
  - rewrite Ercv in *. by apply append_international_ok.
  - rewrite Esnd in *. by apply append_international_ok.
  - apply append_words_ok; [by apply Forall2_drop|done].
  - destruct (sms_time p =? MSG_PARAM_UNDEFINED); [cbn; by rewrite app_nil_r|]. by apply append_ld_ok.
  - by apply (percent_format_ok result s [] [] [] Hr (Forall_nil_2 _) (Forall_nil_2 _)).
  - pose proof (percent_format_ok result s [mkSegment [] (plain_dir 0 99) (AInt c)] [] [AInt c] Hr) as Hp.
    assert (seg_ok (mkSegment [] (plain_dir 0 99) (AInt c))) as Hs
      by (apply plain_seg_ok; [apply Forall_nil_2|by apply (bool_decide_unpack _)|by apply (bool_decide_unpack _)|done|by eexists]).
    specialize (Hp (Forall_cons_2 _ _ _ Hs (Forall_nil_2 _)) (Forall_nil_2 _) eq_refl). cbn [fmap list_fmap concat] in Hp. rewrite !app_nil_r in Hp.
    rewrite (plain_render [] 0 99 (AInt c) [c mod 256]) in Hp by done. unfold octet in Hc. rewrite Z.mod_small in Hp by lia. exact Hp.
Qed.
End texts.
