(* ===== verification/UrlFill.v ===== *)
(** * Patterns of services

    A pattern of UrlEscape.v is a sequence of pieces, and filling it gives the texts of
    the pieces; for commands they are inert in a shell, with two exceptions; a pattern
    that ends in the middle of a code for meta data is never filled. *)

From stdpp Require Import gmap.
From S2P Require Import Prelude Octstr OctstrSearch OctstrCode OctstrFormat OctstrNumber OctstrParts Date GwList PrioQueue Dict Uuid Msg MetaData MetaDataProofs MetaDataPack MetaDataOps Charset Sms Dlr UrlEscape UrlEscapeProofs.
#[local] Open Scope Z_scope.
#[local] Open Scope kannel_scope.

(** ** Pieces *)

Inductive piece :=
| Lit (c : Z)
| Code (c : Z)
| MetaCode (group param : list Z).

Definition no_hash (s : list Z) : Prop := Forall (fun c => c <> 35) s.

(** How a pattern is read.  A "%" at the end is a character; "%#" without another "#"
    is dropped; with one "#" after it only, it is dropped with the group and the three
    characters after it. *)
Inductive pieces : list Z -> list piece -> Prop :=
| pieces_end : pieces [] []
| pieces_last c : pieces [c] [Lit c]
| pieces_plain c d rest ps : c <> 37 -> pieces (d :: rest) ps -> pieces (c :: d :: rest) (Lit c :: ps)
| pieces_code c rest ps : c <> 35 -> pieces rest ps -> pieces (37 :: c :: rest) (Code c :: ps)
| pieces_meta g k rest ps : no_hash g -> no_hash k -> pieces rest ps -> pieces (37 :: 35 :: g ++ 35 :: k ++ 35 :: rest) (MetaCode g k :: ps)
| pieces_hash rest ps : no_hash rest -> pieces rest ps -> pieces (37 :: 35 :: rest) ps
| pieces_open g k rest ps : no_hash g -> no_hash (k ++ rest) -> length k = 3%nat -> pieces rest ps -> pieces (37 :: 35 :: g ++ 35 :: k ++ rest) ps.

(** The groups of the meta data. *)
Definition meta_groups (o : option Octstr) (gs : list (list Z * gmap (list Z) (list Z))) : Prop :=
  match o with
  | Some md => decodes md gs
  | None => gs = []
  end.

Section expansion.
Context (et : Z) (ws : list (list Z)) (now : Z) (gs : list (list Z * gmap (list Z) (list Z))).

Definition dcs_of (p : sms) : Z * sms :=
  match fields_to_dcs p (sms_alt_dcs p) with
  | Ok r => r
  | _ => (0, p)
  end.

(** The text of a piece, the number of the next word, and the message. *)
Definition piece_text (nextarg : nat) (p : sms) (x : piece) : list Z * nat * sms :=
  match x with
  | Lit c => ([c], nextarg, p)
  | Code c =>
      if c =? 79 then (digits 2 (swrap 32 (dcs_of p).1), nextarg, (dcs_of p).2)
      else if c =? 115 then match ws !! nextarg with Some w => (quote et w, S nextarg, p) | None => ([], nextarg, p) end
      else if c =? 83 then match ws !! nextarg with Some w => (tilde <$> w, S nextarg, p) | None => ([], nextarg, p) end
      else (field_text et p ws nextarg now c, nextarg, p)
  | MetaCode g k => (quoted et (value_of gs (cstr g) k), nextarg, p)
  end.

Fixpoint expand (nextarg : nat) (p : sms) (ps : list piece) : list (list Z) * sms :=
  match ps with
  | [] => ([], p)
  | x :: ps =>
      let '(t, nextarg, p) := piece_text nextarg p x in
      let '(ts, p) := expand nextarg p ps in (t :: ts, p)
  end.

(** ** One piece *)

Context {PF : Printf}.

Lemma dcs_of_ok p : escapable p -> fields_to_dcs p (sms_alt_dcs p) = Ok (dcs_of p) /\ escapable (dcs_of p).2 /\ sms_meta_data (dcs_of p).2 = sms_meta_data p.
Proof.
  intros Hp. unfold dcs_of, fields_to_dcs. pose proof (es_fields _ Hp) as Hf. unfold text_fields in Hf. repeat (apply Forall_cons_iff in Hf as [? Hf]).
  rewrite !field_len by done. bind_red.
  assert (exists q, (if sms_coding p =? UNDEF then Ok (set_coding p (if negb (zlen (default [] (fld (sms_udhdata p))) =? 0) then DC_8BIT else DC_7BIT)) else Ok p) = Ok q
    /\ escapable q /\ sms_meta_data q = sms_meta_data p /\ sms_msgdata q = sms_msgdata p /\ sms_mwi q = sms_mwi p /\ sms_alt_dcs q = sms_alt_dcs p)
    as (q & -> & Hq & Em & Emd & _).
  { destruct (sms_coding p =? UNDEF); eexists; (split; [reflexivity|]); [|done]. split; [|done]. destruct Hp as [Hpf Hn Hi Ht Hs Hr].
    constructor; [exact Hpf| |exact Hi|exact Ht|exact Hs|exact Hr]. apply Forall_cons_iff in Hn as [_ Hn]. apply Forall_cons_2; [|exact Hn].
    cbn. unfold in_long, LONG_MIN, LONG_MAX, DC_8BIT, DC_7BIT. destruct (negb _); lia. }
  bind_red. rewrite Emd. rewrite field_len by done. bind_red.
  destruct (negb (sms_mwi q =? UNDEF)); [destruct (negb (Z.land (sms_mwi q) 4 =? 0))|]; bind_red; try done.
  destruct (_ || _); bind_red; done.
Qed.

Lemma word_at words (n : nat) : Forall2 reprm words ws ->
  match words !! n with
  | Some w => exists v, ws !! n = Some v /\ reprm w v
  | None => ws !! n = None
  end.
Proof.
  intros Hw. destruct (words !! n) as [w|] eqn:Ew; [by apply (Forall2_lookup_l _ _ _ _ _ Hw Ew)|].
  apply lookup_ge_None. rewrite <- (Forall2_length Hw). by apply lookup_ge_None.
Qed.

Lemma fill_code_ok pattern pre c rest result s p words (nextarg : nat) : repr pattern (pre ++ 37 :: c :: rest) -> c <> 35 ->
  reprm result s -> escapable p -> Forall2 reprm words ws ->
  returns (fill_code et pattern result p words (Z.of_nat nextarg) now (zlen pre)) (fun '(r, n, pos, p') =>
    reprm r (s ++ (piece_text nextarg p (Code c)).1.1) /\ n = Z.of_nat (piece_text nextarg p (Code c)).1.2 /\ pos = zlen pre /\
    p' = (piece_text nextarg p (Code c)).2).
Proof.
  intros Hpat Hc Hr Hp Hw. pose proof (repr_octets _ _ Hpat) as Ho. apply Forall_app in Ho as [_ Ho]. apply Forall_cons_iff in Ho as [_ Ho].
  apply Forall_cons_iff in Ho as [Hoc _]. unfold fill_code, piece_text. rewrite (octstr_get_char_ok pattern _ _ Hpat). bind_red.
  replace (char_at (pre ++ 37 :: c :: rest) (zlen pre + 1)) with c.
  2:{ rewrite cons_middle, app_assoc. replace (zlen pre + 1) with (zlen (pre ++ [37])) by list_lia. by rewrite char_at_mid. }
  destruct (Z.eqb_spec c 79) as [->|].
  - destruct (dcs_of_ok p Hp) as (-> & _). destruct (dcs_of p) as [dcs q]. bind_red. apply returns_bind.
    eapply returns_mono; [apply (octstr_format_append_ok result s [zero_seg [] 2 dcs] [] _ [AInt dcs] (digits 2 (swrap 32 dcs)) Hr)|].
    + apply Forall_cons_2; [apply zero_seg_ok; [apply Forall_nil_2|unfold LONG_MAX; lia]|apply Forall_nil_2].
    + apply Forall_nil_2.
    + done.
    + done.
    + cbn [fmap list_fmap concat]. by rewrite !app_nil_r.
    + intros r Hres. cbn [returns fst snd]. done.
  - rewrite Nat2Z.id. destruct (Z.eqb_spec c 115) as [->|]; [|destruct (Z.eqb_spec c 83) as [->|]].
    + pose proof (word_at words nextarg Hw) as Hat. destruct (words !! nextarg) as [w|].
      * destruct Hat as (v & -> & [Hv _]). apply returns_bind.
        apply (returns_mono _ _ _ (append_escaped_ok et result s (Some w) Hr ltac:(cbn; by rewrite (repr_bytes _ _ Hv)))). intros r Hres.
        cbn [fld fmap option_fmap option_map quoted from_option] in Hres. rewrite (repr_bytes _ _ Hv) in Hres. cbn [returns fst snd].
        split; [exact Hres|]. split; [lia|done].
      * rewrite Hat. cbn. by rewrite app_nil_r.
    + pose proof (word_at words nextarg Hw) as Hat. destruct (words !! nextarg) as [w|].
      * destruct Hat as (v & -> & [Hv _]). rewrite (octstr_len_ok w v Hv). bind_red. apply returns_bind.
        replace (Z.to_nat (zlen v)) with (length v) by list_lia.
        apply (returns_mono _ _ _ (append_tilde_ok w v v [] result s Hv eq_refl Hr)). intros r Hres. cbn [returns fst snd]. split; [exact Hres|]. split; [lia|done].
      * rewrite Hat. cbn. by rewrite app_nil_r.
    + destruct (Z.eqb_spec c 35); [done|]. apply returns_bind.
      apply (returns_mono _ _ _ (fill_field_ok et result s p words ws nextarg now c Hr Hp Hw Hoc)). intros r Hres. cbn [returns fst snd]. done.
Qed.

(** %#: the text and the position, for the three ways to go on. *)
Lemma fill_meta_ok pattern pre g k rest result s p : repr pattern (pre ++ 37 :: 35 :: g ++ 35 :: k ++ 35 :: rest) -> no_hash g -> no_hash k ->
  reprm result s -> escapable p -> meta_groups (sms_meta_data p) gs ->
  returns (fill_meta et pattern result p (zlen pre)) (fun '(r, pos) =>
    reprm r (s ++ quoted et (value_of gs (cstr g) k)) /\ pos + 2 = zlen (pre ++ 37 :: 35 :: g ++ 35 :: k ++ [35])).
Proof.
  intros Hpat Hg Hk Hr Hp Hm. unfold fill_meta. pose proof (zlen_nonneg pre).
  assert (pre ++ 37 :: 35 :: g ++ 35 :: k ++ 35 :: rest = (pre ++ [37; 35]) ++ g ++ 35 :: k ++ 35 :: rest) as E1 by (by rewrite <- app_assoc).
  assert (pre ++ 37 :: 35 :: g ++ 35 :: k ++ 35 :: rest = (pre ++ [37; 35] ++ g ++ [35]) ++ k ++ 35 :: rest) as E2 by (by rewrite <- !app_assoc).
  pose proof (search_char_at 35 (pre ++ [37; 35]) g (k ++ 35 :: rest) Hg) as E1s. rewrite <- E1 in E1s.
  pose proof (search_char_at 35 (pre ++ [37; 35] ++ g ++ [35]) k rest Hk) as E2s. rewrite <- E2 in E2s.
  rewrite (octstr_search_char_ok pattern _ 35 _ Hpat) by (done || lia). bind_red. replace (zlen pre + 2) with (zlen (pre ++ [37; 35])) by list_lia.
  rewrite E1s. destruct (Z.leb_spec 0 (zlen (pre ++ [37; 35]) + zlen g)); [|list_lia]. apply returns_bind.
  replace (zlen (pre ++ [37; 35]) + zlen g - zlen (pre ++ [37; 35])) with (zlen g) by lia.
  apply (returns_mono _ _ _ (octstr_copy_ok pattern _ (zlen (pre ++ [37; 35])) (zlen g) Hpat ltac:(list_lia) ltac:(list_lia))). intros mg Hmg.
  rewrite E1 in Hmg. unfold slice, zlen in Hmg. rewrite !Nat2Z.id, drop_app_length, take_app_length in Hmg.
  rewrite (octstr_search_char_ok pattern _ 35 _ Hpat) by (done || list_lia). bind_red.
  replace (zlen (pre ++ [37; 35]) + zlen g + 1) with (zlen (pre ++ [37; 35] ++ g ++ [35])) by list_lia. rewrite E2s.
  destruct (Z.leb_spec 0 (zlen (pre ++ [37; 35] ++ g ++ [35]) + zlen k)); [|list_lia].
  replace (zlen (pre ++ [37; 35] ++ g ++ [35]) + zlen k - zlen (pre ++ [37; 35] ++ g ++ [35])) with (zlen k) by lia. apply returns_bind.
  apply (returns_mono _ _ _ (octstr_copy_ok pattern _ (zlen (pre ++ [37; 35] ++ g ++ [35])) (zlen k) Hpat ltac:(list_lia) ltac:(list_lia))). intros mp Hmp.
  rewrite E2 in Hmp. unfold slice, zlen in Hmp. rewrite !Nat2Z.id, drop_app_length, take_app_length in Hmp.
  unfold meta_groups in Hm. destruct (sms_meta_data p) as [md|].
  - destruct (cstr_block_ok mg g (proj1 Hmg)) as (r & -> & _). rewrite cstr_app_nul. apply returns_bind.
    apply (returns_mono _ _ _ (meta_data_get_value_ok md gs (cstr g) mp k Hm (proj1 Hmp))). intros v Hv. apply returns_bind.
    inversion Hv as [vo vt Hvo Eo Et|Eo Et].
    + apply (returns_mono _ _ _ (do_escape_ok et vo vt Hvo)). intros r1 (e & -> & He). apply returns_bind.
      apply (returns_mono _ _ _ (octstr_append_ok _ _ _ _ Hr (proj1 He))). intros r2 Hr2. cbn [returns]. split; [done|list_lia].
    + apply (returns_mono _ (fun e => e = None)); [unfold do_escape; by destruct (et =? URLTRANS_ESCAPE_SHELL)|]. intros e ->. cbn.
      rewrite app_nil_r. split; [done|list_lia].
  - cbn [returns]. subst gs. cbn. rewrite app_nil_r. split; [done|list_lia].
Qed.

Lemma fill_meta_hash pattern pre rest result p : repr pattern (pre ++ 37 :: 35 :: rest) -> no_hash rest ->
  fill_meta et pattern result p (zlen pre) = Ok (result, zlen pre).
Proof.
  intros Hpat Hn. unfold fill_meta. pose proof (zlen_nonneg pre). rewrite (octstr_search_char_ok pattern _ 35 _ Hpat) by (done || lia). bind_red.
  replace (zlen pre + 2) with (zlen (pre ++ [37; 35])) by list_lia. replace (pre ++ 37 :: 35 :: rest) with ((pre ++ [37; 35]) ++ rest) by (by rewrite <- app_assoc).
  rewrite search_char_none by done. done.
Qed.

Lemma fill_meta_open pattern pre g k result p : repr pattern (pre ++ 37 :: 35 :: g ++ 35 :: k) -> no_hash g -> no_hash k ->
  fill_meta et pattern result p (zlen pre) = Ok (result, zlen (pre ++ 37 :: 35 :: g ++ [35]) + 1).
Proof.
  intros Hpat Hg Hk. unfold fill_meta. pose proof (zlen_nonneg pre).
  assert (pre ++ 37 :: 35 :: g ++ 35 :: k = (pre ++ [37; 35]) ++ g ++ 35 :: k) as E1 by (by rewrite <- app_assoc).
  assert (pre ++ 37 :: 35 :: g ++ 35 :: k = (pre ++ 37 :: 35 :: g ++ [35]) ++ k) as E2 by (rewrite <- app_assoc; cbn; by rewrite <- app_assoc).
  pose proof (search_char_at 35 (pre ++ [37; 35]) g k Hg) as E1s. rewrite <- E1 in E1s.
  pose proof (search_char_none 35 (pre ++ 37 :: 35 :: g ++ [35]) k Hk) as E2s. rewrite <- E2 in E2s.
  rewrite (octstr_search_char_ok pattern _ 35 _ Hpat) by (done || lia). bind_red. replace (zlen pre + 2) with (zlen (pre ++ [37; 35])) by list_lia.
  rewrite E1s. destruct (Z.leb_spec 0 (zlen (pre ++ [37; 35]) + zlen g)); [|list_lia].
  replace (zlen (pre ++ [37; 35]) + zlen g - zlen (pre ++ [37; 35])) with (zlen g) by lia.
  destruct (proj1 (returns_iff _ _) (octstr_copy_ok pattern _ (zlen (pre ++ [37; 35])) (zlen g) Hpat ltac:(list_lia) ltac:(list_lia))) as (mg & -> & _). bind_red.
  rewrite (octstr_search_char_ok pattern _ 35 _ Hpat) by (done || list_lia). bind_red.
  replace (zlen (pre ++ [37; 35]) + zlen g + 1) with (zlen (pre ++ 37 :: 35 :: g ++ [35])) by list_lia. by rewrite E2s.
Qed.

(** The plain characters up to the next code. *)
Lemma copy_plain_ok pattern pat ps : pieces pat ps -> forall pre result s (fuel : nat),
  repr pattern (pre ++ pat) -> reprm result s -> (length pat < fuel)%nat ->
  returns (copy_plain pattern result (zlen pre) (zlen (pre ++ pat)) fuel) (fun '(r, pos) => exists l pat' ps',
    pat = l ++ pat' /\ ps = (Lit <$> l) ++ ps' /\ reprm r (s ++ l) /\ pos = zlen (pre ++ l) /\ pieces pat' ps' /\
    (pat' = [] \/ exists c rest, pat' = 37 :: c :: rest)).
Proof.
  assert (forall pre c rest result s fuel ps, pieces (37 :: c :: rest) ps -> repr pattern (pre ++ 37 :: c :: rest) -> reprm result s -> (0 < fuel)%nat ->
    returns (copy_plain pattern result (zlen pre) (zlen (pre ++ 37 :: c :: rest)) fuel) (fun '(r, pos) => exists l pat' ps',
      37 :: c :: rest = l ++ pat' /\ ps = (Lit <$> l) ++ ps' /\ reprm r (s ++ l) /\ pos = zlen (pre ++ l) /\ pieces pat' ps' /\
      (pat' = [] \/ exists c rest, pat' = 37 :: c :: rest))) as Hstop.
  { intros pre c rest result s fuel ps0 Hps Hpat Hr Hf. destruct fuel as [|fuel]; [lia|]. cbn [copy_plain].
    destruct (Z.ltb_spec (zlen pre) (zlen (pre ++ 37 :: c :: rest))); [|list_lia]. rewrite (octstr_get_char_ok pattern _ _ Hpat), char_at_mid. bind_red.
    destruct (Z.ltb_spec (zlen pre + 1) (zlen (pre ++ 37 :: c :: rest))); [|list_lia]. cbn.
    exists [], (37 :: c :: rest), ps0. rewrite !app_nil_r. split_and!; try done. right. by exists c, rest. }
  assert (forall pre c d result s, repr pattern (pre ++ c :: d) -> reprm result s -> returns (octstr_append_char result c) (fun r => reprm r (s ++ [c]))) as Happ.
  { intros pre c d result s Hpat Hr. apply octstr_append_char_ok; [done|]. pose proof (repr_octets _ _ Hpat) as Ho. apply Forall_app in Ho as [_ Ho].
    by apply Forall_cons_iff in Ho as [Ho _]. }
  induction 1 as [|c|c d rest ps Hc Hps IH|c rest ps Hc Hps IH|g k rest ps Hg Hk Hps IH|rest ps Hn Hps IH|g k rest ps Hg Hk Hl Hps IH];
    intros pre result s fuel Hpat Hr Hf.
  - destruct fuel as [|fuel]; [lia|]. cbn [copy_plain]. destruct (Z.ltb_spec (zlen pre) (zlen (pre ++ []))); [list_lia|]. cbn.
    exists [], [], []. rewrite !app_nil_r. split_and!; try done; [apply pieces_end|by left].
  - destruct fuel as [|[|fuel]]; [lia|cbn in Hf; lia|]. remember (S fuel) as fuel1. cbn [copy_plain].
    destruct (Z.ltb_spec (zlen pre) (zlen (pre ++ [c]))); [|list_lia]. rewrite (octstr_get_char_ok pattern _ _ Hpat), char_at_mid. bind_red.
    destruct (Z.ltb_spec (zlen pre + 1) (zlen (pre ++ [c]))); [list_lia|]. rewrite andb_false_r. apply returns_bind.
    apply (returns_mono _ _ _ (Happ pre c [] result s Hpat Hr)). intros r Hres. subst fuel1. cbn [copy_plain].
    destruct (Z.ltb_spec (zlen pre + 1) (zlen (pre ++ [c]))); [list_lia|]. cbn. exists [c], [], []. rewrite !app_nil_r.
    split_and!; try done; [list_lia|apply pieces_end|by left].
  - destruct fuel as [|fuel]; [lia|]. cbn [copy_plain]. destruct (Z.ltb_spec (zlen pre) (zlen (pre ++ c :: d :: rest))); [|list_lia].
    rewrite (octstr_get_char_ok pattern _ _ Hpat), char_at_mid. bind_red. destruct (Z.eqb_spec c 37); [done|]. cbn [andb]. apply returns_bind.
    apply (returns_mono _ _ _ (Happ pre c _ result s Hpat Hr)). intros r Hres. rewrite cons_middle, app_assoc in Hpat |- *.
    replace (zlen pre + 1) with (zlen (pre ++ [c])) by list_lia. apply (returns_mono _ _ _ (IH (pre ++ [c]) r _ fuel Hpat Hres ltac:(cbn in Hf |- *; lia))).
    intros [r2 pos] (l & pat' & ps' & El & Ep & H2 & -> & Hps' & Hend). exists (c :: l), pat', ps'. rewrite <- app_assoc in H2. rewrite <- app_assoc.
    split_and!; try done; [by rewrite El|by rewrite Ep].
  - apply Hstop; [by apply pieces_code|done|done|lia].
  - apply Hstop; [by apply pieces_meta|done|done|lia].
  - apply Hstop; [by apply pieces_hash|done|done|lia].
  - apply Hstop; [by apply pieces_open|done|done|lia].
Qed.

Lemma expand_lits nextarg p l ps : expand nextarg p ((Lit <$> l) ++ ps) =
  (((fun c => [c]) <$> l) ++ (expand nextarg p ps).1, (expand nextarg p ps).2).
Proof. induction l as [|c l IH]; cbn; [by destruct (expand nextarg p ps)|]. by rewrite IH. Qed.

Lemma concat_lits (l : list Z) : concat ((fun c => [c]) <$> l) = l.
Proof. induction l as [|c l IH]; [done|]. cbn. by rewrite IH. Qed.

Lemma expand_cons nextarg p x ps : expand nextarg p (x :: ps) =
  let '(t, n, q) := piece_text nextarg p x in (t :: (expand n q ps).1, (expand n q ps).2).
Proof. cbn. destruct (piece_text nextarg p x) as [[t n] q]. by destruct (expand n q ps). Qed.

Lemma piece_text_msg nextarg p x : escapable p -> escapable (piece_text nextarg p x).2 /\ sms_meta_data (piece_text nextarg p x).2 = sms_meta_data p.
Proof.
  intros Hp. destruct x as [c|c|g k]; cbn; [done| |done]. destruct (c =? 79); [cbn; apply (dcs_of_ok p Hp)|].
  by destruct (c =? 115), (c =? 83), (ws !! nextarg).
Qed.

Definition fills (nextarg : nat) (p : sms) (ps : list piece) (s : list Z) (x : Octstr * sms) : Prop :=
  reprm x.1 (s ++ concat (expand nextarg p ps).1) /\ x.2 = (expand nextarg p ps).2.

Lemma fill_loop_ok pattern words (fuel : nat) : Forall2 reprm words ws -> forall pat ps pre result s p (nextarg : nat),
  pieces pat ps -> repr pattern (pre ++ pat) -> reprm result s -> escapable p -> meta_groups (sms_meta_data p) gs -> (length pat < fuel)%nat ->
  returns (fill_loop et pattern result p words (Z.of_nat nextarg) now (zlen pre) (zlen (pre ++ pat)) fuel) (fills nextarg p ps s).
Proof.
  intros Hw. induction fuel as [|fuel IH]; intros pat ps pre result s p nextarg Hps Hpat Hr Hp Hm Hf; [lia|]. cbn [fill_loop]. apply returns_bind.
  apply (returns_mono _ _ _ (copy_plain_ok pattern pat ps Hps pre result s (S (Z.to_nat (zlen (pre ++ pat)))) Hpat Hr ltac:(list_lia))).
  intros [r pos] (l & pat' & ps' & -> & -> & Hr' & -> & Hps' & Hend).
  assert (forall x, fills nextarg p ps' (s ++ l) x -> fills nextarg p ((Lit <$> l) ++ ps') s x) as Hlits.
  { intros x [H1 H2]. split; rewrite expand_lits; [|done]. cbn [fst]. by rewrite concat_app, concat_lits, app_assoc. }
  apply (returns_mono _ (fills nextarg p ps' (s ++ l))); [|exact Hlits]. rewrite app_assoc in Hpat |- *. set (pre1 := pre ++ l) in *.
  destruct Hend as [->|(c & rest & ->)].
  - inversion Hps'; subst. destruct (Z.eqb_spec (zlen pre1) (zlen (pre1 ++ []))); [|list_lia]. split; [cbn; by rewrite app_nil_r|done].
  - destruct (Z.eqb_spec (zlen pre1) (zlen (pre1 ++ 37 :: c :: rest))); [list_lia|]. apply returns_bind. rewrite length_app in Hf. cbn [length] in Hf.
    assert (forall g, returns (fill_meta et pattern r p (zlen pre1)) g -> c = 35 ->
      returns (fill_code et pattern r p words (Z.of_nat nextarg) now (zlen pre1)) (fun '(r, n, pos, q) => g (r, pos) /\ n = Z.of_nat nextarg /\ q = p)) as Hmeta.
    { intros g Hg ->. unfold fill_code. rewrite (octstr_get_char_ok pattern _ _ Hpat). bind_red.
      replace (char_at (pre1 ++ 37 :: 35 :: rest) (zlen pre1 + 1)) with 35.
      2:{ rewrite cons_middle, app_assoc. replace (zlen pre1 + 1) with (zlen (pre1 ++ [37])) by list_lia. by rewrite char_at_mid. }
      cbn [Z.eqb Pos.eqb]. apply returns_bind. apply (returns_mono _ _ _ Hg). intros [r1 pos1] H1. done. }
    assert (forall pat2 ps2 pre2 r2 s2 p2 n2, pieces pat2 ps2 -> pre1 ++ 37 :: c :: rest = pre2 ++ pat2 -> (length pat2 <= length rest)%nat -> reprm r2 s2 ->
      escapable p2 -> sms_meta_data p2 = sms_meta_data p ->
      returns (fill_loop et pattern r2 p2 words (Z.of_nat n2) now (zlen pre2) (zlen (pre1 ++ 37 :: c :: rest)) fuel) (fills n2 p2 ps2 s2)) as Hgo.
    { intros pat2 ps2 pre2 r2 s2 p2 n2 H1 H2 H3 H4 H5 H6. rewrite H2 in Hpat |- *. apply IH; [done..|by rewrite H6|lia]. }
    inversion Hps' as [| |? ? ? ? Hne|c' rest' ps'' Hc Hrest E|g k rest' ps'' Hg Hk Hrest E|rest' ps'' Hn Hrest E|g k rest' ps'' Hg Hk Hl3 Hrest E]; subst; [done| | | |].
    + apply (returns_mono _ _ _ (fill_code_ok pattern pre1 c rest r _ p words nextarg Hpat Hc Hr' Hp Hw)). intros [[[r1 n1] pos1] p1] (H1 & -> & -> & ->).
      destruct (piece_text_msg nextarg p (Code c) Hp) as [Hp1 Hm1]. replace (zlen pre1 + 2) with (zlen (pre1 ++ [37; c])) by list_lia.
      eapply returns_mono; [apply (Hgo rest ps''); [done|by rewrite <- app_assoc|lia|exact H1|exact Hp1|exact Hm1]|]. intros [o q] [H2 H3]. cbn [fst snd] in H2, H3.
      split; rewrite expand_cons; destruct (piece_text nextarg p (Code c)) as [[t n2] q2]; cbn [fst snd] in *; [|done]. cbn [concat]. by rewrite app_assoc.
    + pose proof (fill_meta_ok pattern pre1 g k rest' r _ p Hpat Hg Hk Hr' Hp Hm) as HM. apply (returns_mono _ _ _ (Hmeta _ HM eq_refl)).
      intros [[[r1 n1] pos1] p1] ((H1 & ->) & -> & ->).
      eapply returns_mono; [apply (Hgo rest' ps''); [done|by repeat (rewrite <- app_assoc; cbn [app])|rewrite length_app; cbn; rewrite length_app; cbn; lia|exact H1|done|done]|].
      intros [o q] [H2 H3]. cbn [fst snd] in H2, H3. split; rewrite expand_cons; cbn [piece_text fst snd concat]; [|done]. by rewrite app_assoc.
    + apply (returns_mono _ _ _ (Hmeta (fun x => x = (r, zlen pre1)) ltac:(by rewrite (fill_meta_hash pattern pre1 rest) by done) eq_refl)).
      intros [[[r1 n1] pos1] p1] ([= -> ->] & -> & ->). replace (zlen pre1 + 2) with (zlen (pre1 ++ [37; 35])) by list_lia.
      apply (Hgo rest ps'); [done|by rewrite <- app_assoc|lia|done|done|done].
    + apply (returns_mono _ _ _ (Hmeta (fun x => x = (r, zlen (pre1 ++ 37 :: 35 :: g ++ [35]) + 1)) ltac:(by rewrite (fill_meta_open pattern pre1 g (k ++ rest')) by done) eq_refl)).
      intros [[[r1 n1] pos1] p1] ([= -> ->] & -> & ->).
      replace (zlen (pre1 ++ 37 :: 35 :: g ++ [35]) + 1 + 2) with (zlen (pre1 ++ 37 :: 35 :: g ++ 35 :: k)) by (unfold zlen; rewrite !length_app; cbn; rewrite !length_app; cbn; lia).
      apply (Hgo rest' ps'); [done|by repeat (rewrite <- app_assoc; cbn [app])|rewrite length_app; cbn; rewrite length_app; lia|done|done|done].
Qed.
End expansion.

(** ** The whole pattern *)

(** The words of the message. *)
Definition words_in (p : sms) : list (list Z) := from_option words_of [] (fld (sms_msgdata p)).

Lemma fill_pattern_ok `{PF : Printf} et pattern pat ps p now gs : repr pattern pat -> pieces pat ps -> escapable p -> meta_groups (sms_meta_data p) gs ->
  returns (urltrans_fill_escape_codes_ex et pattern p now) (fills et (words_in p) now gs 1 p ps []).
Proof.
  intros Hpat Hps Hp Hm. unfold urltrans_fill_escape_codes_ex. apply returns_bind. apply (returns_mono _ _ _ (octstr_create_ok [] (Forall_nil_2 _))). intros result Hr.
  apply returns_bind. apply (returns_mono _ (fun words => Forall2 reprm words (words_in p))).
  { pose proof (es_fields _ Hp) as Hf. apply Forall_cons_iff in Hf as [Hf _]. unfold words_in. destruct (sms_msgdata p) as [o|].
    - by apply octstr_split_words_ok.
    - by apply Forall2_nil. }
  intros words Hw. rewrite (octstr_len_ok pattern pat Hpat). bind_red.
  apply (fill_loop_ok et (words_in p) now gs pattern words _ Hw pat ps [] result [] p 1); [done..|list_lia].
Qed.


(** ** Patterns that are not filled *)

Lemma fill_beyond `{PF : Printf} et pattern words now len pat (fuel : nat) : repr pattern pat -> len = zlen pat -> forall result p nextarg pos,
  len < pos -> ~ is_ok (fill_loop et pattern result p words nextarg now pos len fuel).
Proof.
  intros Hpat Hlen. induction fuel as [|fuel IH]; intros result p nextarg pos Hpos; [by intros [x Hx]|]. cbn [fill_loop copy_plain].
  destruct (Z.ltb_spec pos len); [lia|]. bind_red. destruct (Z.eqb_spec pos len); [lia|].
  unfold fill_code. rewrite (octstr_get_char_ok pattern pat _ Hpat), char_at_end by lia. bind_red. cbn [Z.eqb Pos.eqb].
  unfold fill_field. cbn [Z.eqb Pos.eqb]. destruct (octstr_format_append result [37; 37; 37; 99] [AInt (-1)]) as [r| |]; bind_red; [|by intros [x Hx]..].
  apply IH. lia.
Qed.

(** A pattern that ends in a code for meta data of which only the group is there, with
    fewer than three characters after it, is never filled: the position goes past the
    end, and the loop goes on for ever. *)
Theorem urltrans_fill_runs_away `{PF : Printf} et pattern pre g k words now result p nextarg (fuel : nat) :
  repr pattern (pre ++ 37 :: 35 :: g ++ 35 :: k) -> no_hash g -> no_hash k -> zlen k < 3 ->
  ~ is_ok (fill_loop et pattern result p words nextarg now (zlen pre) (zlen (pre ++ 37 :: 35 :: g ++ 35 :: k)) fuel).
Proof.
  intros Hpat Hg Hk Hl. destruct fuel as [|fuel]; [by intros [x Hx]|]. cbn [fill_loop copy_plain].
  destruct (Z.ltb_spec (zlen pre) (zlen (pre ++ 37 :: 35 :: g ++ 35 :: k))); [|list_lia]. rewrite (octstr_get_char_ok pattern _ _ Hpat), char_at_mid. bind_red.
  destruct (Z.ltb_spec (zlen pre + 1) (zlen (pre ++ 37 :: 35 :: g ++ 35 :: k))); [|list_lia]. cbn [Z.eqb Pos.eqb andb]. bind_red.
  destruct (Z.eqb_spec (zlen pre) (zlen (pre ++ 37 :: 35 :: g ++ 35 :: k))); [list_lia|].
  unfold fill_code. rewrite (octstr_get_char_ok pattern _ _ Hpat). bind_red. replace (char_at (pre ++ 37 :: 35 :: g ++ 35 :: k) (zlen pre + 1)) with 35.
  2:{ rewrite cons_middle, app_assoc. replace (zlen pre + 1) with (zlen (pre ++ [37])) by list_lia. by rewrite char_at_mid. }
  cbn [Z.eqb Pos.eqb]. rewrite (fill_meta_open et pattern pre g k) by done. bind_red. apply (fill_beyond et pattern words now _ _ _ Hpat eq_refl). list_lia.
Qed.

(** The message "k `id`" from 00123 to 456. *)
Definition sample_request : sms :=
  set_sms_time (set_sender (set_receiver (set_msgdata (m_sms (msg_create uuid_clear [] T_SMS)) (Some (mk_os [107; 32; 96; 105; 100; 96])))
    (Some (mk_os [52; 53; 54]))) (Some (mk_os [48; 48; 49; 50; 51]))) 0.

Lemma sample_escapable : escapable sample_request.
Proof.
  assert (forall l, octets l -> ok_field (Some (mk_os l))) as Hok by (intros l Hl; cbn; rewrite (repr_bytes _ _ (proj1 (mk_os_ok l Hl))); apply mk_os_ok, Hl).
  constructor.
  - unfold text_fields, sample_request. cbn. repeat (apply Forall_cons_2; [first [exact I | apply (Hok [107; 32; 96; 105; 100; 96]); octets_tac
      | apply (Hok [52; 53; 54]); octets_tac | apply (Hok [48; 48; 49; 50; 51]); octets_tac]|]). apply Forall_nil_2.
  - repeat (apply Forall_cons_2; [split; vm_compute; discriminate|]). apply Forall_nil_2.
  - split; [done|]. unfold sample_request, uuid_clear. cbn. octets_tac.
  - exists (mkTm 0 0 0 1 0 70 4). vm_compute. reflexivity.
  - by eexists.
  - by eexists.
Qed.


(** %S puts a word into a command as it is. *)
Example fill_raw_word :
  ('(o, _) ← @urltrans_fill_escape_codes_ex no_doubles URLTRANS_ESCAPE_SHELL (mk_os [108; 115; 32; 37; 83]) sample_request 0; Ok (bytes o)) =
  Ok [108; 115; 32; 96; 105; 100; 96].
Proof. vm_compute. reflexivity. Qed.

(** "%#a#": the fuel of the model does not suffice, as no other does. *)
Example fill_open_code : @urltrans_fill_escape_codes_ex no_doubles URLTRANS_ESCAPE_URL (mk_os [37; 35; 97; 35]) sample_request 0 = Undef.
Proof. vm_compute. reflexivity. Qed.
