(* ===== verification/UrlShell.v ===== *)
(** * Commands of services

    What [urltrans_fill_escape_codes_ex] puts into a command outside of quotes is inert in
    a shell, but for the codes %S and %C. *)

From stdpp Require Import gmap.
From S2P Require Import Prelude Octstr OctstrSearch OctstrCode OctstrFormat OctstrNumber OctstrParts Date GwList PrioQueue Dict Uuid Msg MetaData MetaDataProofs MetaDataPack MetaDataOps Charset Sms Dlr UrlEscape UrlEscapeProofs UrlFill.
#[local] Open Scope Z_scope.
#[local] Open Scope kannel_scope.

(** Letters, digits, "+", "-", ":" and "%". *)
Definition plain_char (c : Z) : Prop := isalnum c = true \/ c ∈ [43; 45; 58; 37].

(** How a shell reads a command that has no double quotes, backquotes, "$", "#" or "<"
    outside of single quotes: text between single quotes and a character after a
    backslash are literal, all others may mean something to the shell. *)
Inductive shell_char :=
| Bare (c : Z)
| Quoted (c : Z).

Inductive shell_state := Outside | InQuotes | Escaped.

Definition special : list Z := [34; 35; 36; 60; 96].

Fixpoint shell_lex (st : shell_state) (l : list Z) : option (list shell_char) :=
  match l with
  | [] => match st with Outside => Some [] | _ => None end
  | c :: l =>
      match st with
      | Outside =>
          if c =? 39 then shell_lex InQuotes l
          else if c =? 92 then shell_lex Escaped l
          else if bool_decide (c ∈ special) then None
          else cons (Bare c) <$> shell_lex Outside l
      | InQuotes => if c =? 39 then shell_lex Outside l else cons (Quoted c) <$> shell_lex InQuotes l
      | Escaped => cons (Quoted c) <$> shell_lex Outside l
      end
  end.

Lemma shell_lex_app s t : forall st cs, shell_lex st s = Some cs -> shell_lex st (s ++ t) = app cs <$> shell_lex Outside t.
Proof.
  assert (forall (x : shell_char) cs (o : option (list shell_char)), cons x <$> (app cs <$> o) = app (x :: cs) <$> o) as Hc by (intros x cs [o|]; done).
  assert (forall o : option (list shell_char), app [] <$> o = o) as Hn by (intros [o|]; done).
  induction s as [|c s IH]; intros st cs E; cbn [shell_lex app] in *.
  - destruct st; [|done..]. injection E as <-. by rewrite Hn.
  - destruct st; [destruct (c =? 39); [by apply IH|destruct (c =? 92); [by apply IH|destruct (bool_decide _); [done|]]]|destruct (c =? 39); [by apply IH|]|];
      apply fmap_Some in E as (cs' & E & ->); by rewrite (IH _ _ E), Hc.
Qed.

(** What a code may put into a command: literal text, and plain characters. *)
Definition harmless (x : shell_char) : Prop := match x with Bare c => plain_char c | Quoted _ => True end.

Definition inert (t : list Z) : Prop := exists cs, shell_lex Outside t = Some cs /\ Forall harmless cs.

Lemma inert_nil : inert [].
Proof. by exists []. Qed.

Lemma inert_app s t : inert s -> inert t -> inert (s ++ t).
Proof.
  intros (cs & E & Hs) (ds & F & Ht). exists (cs ++ ds). rewrite (shell_lex_app _ _ _ _ E), F. split; [done|]. by apply Forall_app.
Qed.

Lemma plain_not_special c : plain_char c -> c <> 39 /\ c <> 92 /\ c ∉ special.
Proof.
  intros Hc. assert (forall k, k ∈ [39; 92; 34; 35; 36; 60; 96] -> c <> k) as H.
  { intros k Hk ->. destruct Hc as [Hc|Hc]; unfold plain_char in *; repeat (apply elem_of_cons in Hk as [->|Hk]; [revert Hc; first [by vm_compute|by apply (bool_decide_unpack _)]|]);
      by apply elem_of_nil in Hk. }
  split_and!; [apply H; by apply (bool_decide_unpack _)..|]. intros Hk. unfold special in Hk. assert (c ∈ [39; 92; 34; 35; 36; 60; 96]) as Hi by (do 2 (apply elem_of_cons; right); done). by apply (H c Hi).
Qed.

Lemma shell_lex_bare c : c <> 39 -> c <> 92 -> c ∉ special -> shell_lex Outside [c] = Some [Bare c].
Proof.
  intros H1 H2 H3. cbn [shell_lex]. destruct (Z.eqb_spec c 39); [done|]. destruct (Z.eqb_spec c 92); [done|]. by rewrite bool_decide_false.
Qed.

Lemma inert_char c t : plain_char c -> inert t -> inert (c :: t).
Proof.
  intros Hc Ht. apply (inert_app [c] t); [|done]. exists [Bare c]. destruct (plain_not_special c Hc) as (H1 & H2 & H3). split; [by apply shell_lex_bare|].
  by apply Forall_cons_2; [|apply Forall_nil_2].
Qed.

Lemma inert_plain s : Forall plain_char s -> inert s.
Proof. induction 1 as [|c s Hc _ IH]; [apply inert_nil|by apply inert_char]. Qed.

(** A quoted value is read as its own octets, all of them literal. *)
Lemma shell_lex_quote v : shell_lex Outside (shell_quote v) = Some (Quoted <$> v).
Proof.
  unfold shell_quote. cbn [shell_lex Z.eqb Pos.eqb]. induction v as [|c v IH]; [done|].
  rewrite shell_body_cons. unfold shell_esc1. destruct (Z.eqb_spec c 39) as [->|Hne]; cbn [app shell_lex Z.eqb Pos.eqb].
  - by rewrite IH.
  - destruct (Z.eqb_spec c 39); [done|]. by rewrite IH.
Qed.

Lemma inert_quoted v : inert (quote URLTRANS_ESCAPE_SHELL v).
Proof. exists (Quoted <$> v). split; [apply shell_lex_quote|]. apply Forall_fmap, list.Forall_true. by intros. Qed.

Lemma inert_option o : inert (quoted URLTRANS_ESCAPE_SHELL o).
Proof. destruct o as [v|]; [apply inert_quoted|apply inert_nil]. Qed.

Lemma inert_filled o : inert (quoted_filled URLTRANS_ESCAPE_SHELL o).
Proof. destruct o as [[|c v]|]; [apply inert_nil|apply inert_quoted|apply inert_nil]. Qed.

(** ** Digits are plain *)

Lemma hexdig_plain up n : 0 <= n < 16 -> plain_char (hexdig up n).
Proof.
  intros Hn. left. assert (forallb (fun i => isalnum (hexdig up i)) (seqZ 0 16) = true) as H by (by destruct up).
  rewrite forallb_forall in H. apply H. apply list_elem_of_In, elem_of_seqZ. lia.
Qed.

Lemma hex_plain up s : octets s -> Forall plain_char (hex_encode up s).
Proof.
  induction 1 as [|c s Hc _ IH]; [apply Forall_nil_2|]. change (hex_encode up (c :: s)) with ([hexdig up (Z.shiftr c 4); hexdig up (Z.land c 15)] ++ hex_encode up s).
  apply Forall_app. split; [|done]. unfold octet in Hc. rewrite Z.shiftr_div_pow2 by lia. change 15 with (Z.ones 4). rewrite Z.land_ones by lia.
  repeat (apply Forall_cons_2; [apply hexdig_plain|]); [|pose proof (Z.mod_pos_bound c (2 ^ 4)); lia|apply Forall_nil_2].
  split; [apply Z.div_pos; lia|apply Z.div_lt_upper_bound; lia].
Qed.

Lemma print_plain (fuel : nat) : forall v, 0 <= v -> Forall plain_char (print_base 10 false fuel v).
Proof.
  induction fuel as [|fuel IH]; intros v Hv; cbn [print_base]; [apply Forall_nil_2|]. destruct (Z.ltb_spec v 10).
  - apply Forall_cons_2; [apply hexdig_plain; lia|apply Forall_nil_2].
  - apply Forall_app. split; [apply IH, Z.div_pos; lia|]. apply Forall_cons_2; [apply hexdig_plain; pose proof (Z.mod_pos_bound v 10); lia|apply Forall_nil_2].
Qed.

Lemma number_plain v : Forall plain_char (sprintf_ld v).
Proof.
  unfold sprintf_ld. destruct (Z.ltb_spec v 0); [|apply print_plain; lia]. apply Forall_cons_2; [right; by apply (bool_decide_unpack _)|apply print_plain; lia].
Qed.

Lemma digits_plain w v : Forall plain_char (digits w v).
Proof. unfold digits, padded. apply Forall_app. split; [|apply number_plain]. apply list.Forall_replicate. by left. Qed.

Ltac plain_tac := right; by apply (bool_decide_unpack _).

Lemma time_plain t : Forall plain_char (time_text t).
Proof.
  unfold time_text. destruct (gw_gmtime t) as [tm| |]; [|apply Forall_nil_2..].
  repeat (apply Forall_app; split; [first [apply digits_plain|apply Forall_cons_2; [plain_tac|apply Forall_nil_2]]|]). apply digits_plain.
Qed.

Lemma id_plain u : is_uuid u -> Forall plain_char (id_text u).
Proof.
  intros [_ Hu]. unfold id_text, uuid_text. destruct (bool_decide _); [apply Forall_nil_2|].
  repeat (apply Forall_app; split; [first [apply hex_plain; repeat first [apply Forall_take|apply Forall_drop]; exact Hu
    |apply Forall_cons_2; [plain_tac|apply Forall_nil_2]]|]). apply hex_plain, Forall_drop, Hu.
Qed.

Lemma join_inert ws : forall first, inert (join_plus URLTRANS_ESCAPE_SHELL ws first).
Proof.
  induction ws as [|w ws IH]; intros first; cbn [join_plus]; [apply inert_nil|]. apply inert_app; [|apply inert_app; [apply inert_quoted|apply IH]].
  destruct first; [apply inert_nil|]. apply inert_char; [plain_tac|apply inert_nil].
Qed.

Lemma international_inert v : inert (international_text URLTRANS_ESCAPE_SHELL v).
Proof.
  unfold international_text. destruct (bool_decide _); [|apply inert_quoted]. apply inert_app; [|apply inert_quoted].
  apply inert_plain. repeat (apply Forall_cons_2; [first [by left|plain_tac]|]). apply Forall_nil_2.
Qed.

Lemma hex_inert o : ok_field o -> inert (hex_text_of (fld o)).
Proof. intros Ho. destruct o as [o|]; [|apply inert_nil]. apply inert_plain, hex_plain, (repr_octets o), Ho. Qed.

(** ** Codes *)

(** The codes that are known, but for %S and %C. *)
Definition safe_codes : list Z :=
  [97; 65; 98; 66; 99; 100; 68; 101; 102; 70; 105; 73; 107; 109; 77; 110; 111; 80; 112; 113; 81; 114; 82; 116; 84; 117; 85; 118; 86; 121; 120; 37; 79; 115].

(** A pattern for a command: such codes, outside of quotes. *)
Definition safe_piece (x : piece) : Prop :=
  match x with
  | Lit c => c <> 39 /\ c <> 92 /\ c ∉ special
  | Code c => c ∈ safe_codes
  | MetaCode _ _ => True
  end.

(** What the shell reads for a piece. *)
Definition shell_reads (x : piece) (cs : list shell_char) : Prop :=
  match x with
  | Lit c => cs = [Bare c]
  | _ => Forall harmless cs
  end.

Definition lexed (x : piece) (t : list Z) : Prop := exists cs, shell_lex Outside t = Some cs /\ shell_reads x cs.

Lemma lexed_concat ps ts : Forall2 lexed ps ts -> exists css, shell_lex Outside (concat ts) = Some (concat css) /\ Forall2 shell_reads ps css.
Proof.
  induction 1 as [|x t ps ts (cs & E & Hx) _ (css & F & Hps)]; [by exists []|]. exists (cs :: css). cbn [concat].
  rewrite (shell_lex_app _ _ _ _ E), F. split; [done|by apply Forall2_cons].
Qed.

Ltac inert_tac :=
  first [apply join_inert | apply inert_option | apply inert_filled | apply inert_quoted | apply inert_plain, number_plain
    | apply inert_plain, time_plain | (apply inert_plain, id_plain; assumption) | (apply hex_inert; assumption)].

Lemma field_inert p ws nextarg now c : escapable p -> c ∈ safe_codes -> c <> 79 -> c <> 115 -> inert (field_text URLTRANS_ESCAPE_SHELL p ws nextarg now c).
Proof.
  intros [Hf _ Hid _ _ _] Hc H79 H115. unfold text_fields in Hf. repeat (apply Forall_cons_iff in Hf as [? Hf]). unfold safe_codes in Hc.
  repeat (apply elem_of_cons in Hc as [->|Hc]; [cbn [field_text Z.eqb Pos.eqb]; try inert_tac|]).
  - destruct (fld (sms_receiver p)); [apply international_inert|apply inert_nil].
  - destruct (fld (sms_sender p)); [apply international_inert|apply inert_nil].
  - destruct (sms_time p =? MSG_PARAM_UNDEFINED); [apply inert_nil|apply inert_plain, number_plain].
  - unfold minutes_text. destruct (_ =? _); [apply inert_nil|apply inert_plain, number_plain].
  - unfold minutes_text. destruct (_ =? _); [apply inert_nil|apply inert_plain, number_plain].
  - apply inert_char; [plain_tac|apply inert_nil].
  - done.
  - done.
  - by apply elem_of_nil in Hc.
Qed.

Lemma piece_inert ws now gs nextarg p x : escapable p -> safe_piece x ->
  lexed x (piece_text URLTRANS_ESCAPE_SHELL ws now gs nextarg p x).1.1.
Proof.
  intros Hp Hx. destruct x as [c|c|g k]; cbn [safe_piece] in Hx.
  - destruct Hx as (H1 & H2 & H3). exists [Bare c]. split; [by apply shell_lex_bare|done].
  - change (inert (piece_text URLTRANS_ESCAPE_SHELL ws now gs nextarg p (Code c)).1.1). cbn [piece_text].
    destruct (Z.eqb_spec c 79); [apply inert_plain, digits_plain|]. destruct (Z.eqb_spec c 115); [destruct (ws !! nextarg); [apply inert_quoted|apply inert_nil]|].
  destruct (Z.eqb_spec c 83) as [->|]; [|by apply field_inert]. exfalso. revert Hx. by apply (bool_decide_unpack _).
  - apply inert_option.
Qed.

Lemma expand_inert ws now gs ps : Forall safe_piece ps -> forall nextarg p, escapable p ->
  Forall2 lexed ps (expand URLTRANS_ESCAPE_SHELL ws now gs nextarg p ps).1.
Proof.
  induction 1 as [|x ps Hx _ IH]; intros nextarg p Hp; [by apply Forall2_nil|]. rewrite expand_cons.
  pose proof (piece_inert ws now gs nextarg p x Hp Hx) as H1. destruct (piece_text_msg URLTRANS_ESCAPE_SHELL ws now gs nextarg p x Hp) as [H2 _].
  destruct (piece_text URLTRANS_ESCAPE_SHELL ws now gs nextarg p x) as [[t n] q]. cbn [fst snd] in *. apply Forall2_cons; [done|by apply IH].
Qed.

(** ** Claims *)

(** C20. What a message can do to the command of a service, where the codes of the
    pattern are in places that a shell reads unquoted: the characters of the pattern are
    none of the quotes, the backslash, the backquote, "$", "#" and "<", and the codes are
    %k, %s, %r, %a, %A, %b, %e, %t, %T, %p, %P, %q, %Q, %i, %I, %d, %D, %F, %f, %n, %c,
    %m, %M, %y, %u, %U, %B, %o, %O, %R, %v, %V, %x, %%, and those for meta data; that is,
    not %S and %C, nor a character that is no code.
    Whatever the fields, words and meta data of a message with a sender and a receiver hold
    (see [escapable]), a shell that reads the
    command finds no quote left open; the characters of the pattern stand as they are; and
    what a code gives is literal, up to letters, digits, "+", "-", ":" and "%".  (These are the octets of the
    command; if a value has a NUL, [popen] gets them up to it, and the quotes stay open.  In
    a pattern with double quotes around a code the single quotes that
    [octstr_shell_escape] puts around a value do not protect it, see
    [fill_in_double_quotes].) *)
Theorem urltrans_shell_inert `{PF : Printf} (pattern : Octstr) (pat : list Z) (ps : list piece) (p : sms) (now : Z) gs :
  repr pattern pat -> pieces pat ps -> escapable p -> meta_groups (sms_meta_data p) gs -> Forall safe_piece ps ->
  returns (urltrans_fill_escape_codes_ex URLTRANS_ESCAPE_SHELL pattern p now) (fun '(o, _) => exists s css,
    reprm o s /\ shell_lex Outside s = Some (concat css) /\ Forall2 shell_reads ps css).
Proof.
  intros Hpat Hps Hp Hm Hsafe. apply (returns_mono _ _ _ (fill_pattern_ok _ pattern pat ps p now gs Hpat Hps Hp Hm)). intros [o q] [Ho _].
  cbn [fst] in Ho. destruct (lexed_concat _ _ (expand_inert (words_in p) now gs ps Hsafe 1 p Hp)) as (css & E & Hcss). eexists _, css. by split_and!.
Qed.

Lemma urltrans_shell_inert_witness :
  returns (@urltrans_fill_escape_codes_ex no_doubles URLTRANS_ESCAPE_SHELL (mk_os [108; 32; 37; 115]) sample_request 0) (fun '(o, _) => exists s css,
    reprm o s /\ shell_lex Outside s = Some (concat css) /\ Forall2 shell_reads [Lit 108; Lit 32; Code 115] css).
Proof.
  apply (urltrans_shell_inert (PF := no_doubles) (mk_os [108; 32; 37; 115]) [108; 32; 37; 115] [Lit 108; Lit 32; Code 115]
    sample_request 0 []); [apply mk_os_ok; octets_tac| |apply sample_escapable|done|].
  - apply pieces_plain; [done|]. apply pieces_plain; [done|]. apply pieces_code; [done|]. apply pieces_end.
  - repeat (apply Forall_cons_2; [first [by apply (bool_decide_unpack _)|split_and!; by apply (bool_decide_unpack _)]|]). apply Forall_nil_2.
Defined.

(** The pattern l "%s" with the message of above: the backquotes are between double quotes,
    where a shell runs what is between them. *)
Example fill_in_double_quotes :
  ('(o, _) ← @urltrans_fill_escape_codes_ex no_doubles URLTRANS_ESCAPE_SHELL (mk_os [108; 32; 34; 37; 115; 34]) sample_request 0; Ok (bytes o)) =
  Ok [108; 32; 34; 39; 96; 105; 100; 96; 39; 34].
Proof. vm_compute. reflexivity. Qed.
