(* ===== verification/UrlTrans.v ===== *)
(** * Services

    Models the choice of a service for a message and of a user for a request by
    src/gw/urltrans.c, and [urltrans_get_pattern].  A translation is a record of the
    fields that these functions read; a list that is made and destroyed in a function is
    a list of Rocq. *)

From stdpp Require Import list.
From S2P Require Import Prelude Octstr OctstrSearch OctstrCode OctstrFormat OctstrParts Prefix Numhash GwList PrioQueue Dict Uuid Msg MetaData Charset Sms Dlr Route UrlEscape.
#[local] Open Scope Z_scope.
#[local] Open Scope kannel_scope.

Definition TRANSTYPE_POST_URL : Z := 1.
Definition TRANSTYPE_POST_XML : Z := 2.
Definition TRANSTYPE_EXECUTE : Z := 5.
Definition TRANSTYPE_SENDSMS : Z := 6.

Section services.
Context {RX : Regex}.

Record URLTranslation := mkTrans {
  t_type : Z;
  t_pattern : option Octstr;
  accepted_smsc : option (List Octstr);
  accepted_account : option (List Octstr);
  t_username : option Octstr;
  api_token : option Octstr;
  allowed_prefix : option Octstr;
  denied_prefix : option Octstr;
  allowed_recv_prefix : option Octstr;
  denied_recv_prefix : option Octstr;
  white_list : option Numhash;
  black_list : option Numhash;
  strips_keyword : bool;
  t_args : Z;
  has_catchall_arg : bool;
  catch_all : bool;
  t_dlr_url : option Octstr;
  keyword_regex : option regex_t;
  accepted_smsc_regex : option regex_t;
  accepted_account_regex : option regex_t;
  allowed_prefix_regex : option regex_t;
  denied_prefix_regex : option regex_t;
  allowed_receiver_prefix_regex : option regex_t;
  denied_receiver_prefix_regex : option regex_t;
  white_list_regex : option regex_t;
  black_list_regex : option regex_t
}.

Record URLTranslationList := mkTransList {
  tl_list : List URLTranslation;
  tl_defaults : List URLTranslation;
  tl_names : Dict (List URLTranslation)
}.

(** ** Whether a service may be used *)

Definition check_num_args (t : URLTranslation) (words : list Octstr) : Z :=
  let n := zlen words in
  if catch_all t then 0
  else if n - 1 =? t_args t then 0
  else if has_catchall_arg t && (t_args t <=? n - 1) then 0
  else -1.

(** [id && list && !gwlist_search(...)], and the same for a regular expression. *)
Definition not_listed (id : option Octstr) (l : option (List Octstr)) : res bool :=
  match id, l with
  | Some id, Some l => negate (list_has l id)
  | _, _ => Ok false
  end.

Definition not_matched (id : option Octstr) (re : option regex_t) : res bool :=
  match id, re with
  | Some _, Some re => negate (regex_has re id)
  | _, _ => Ok false
  end.

(** The three ways in which an allowing and a denying test refuse: the first without
    the second, the second without the first, both. *)
Definition only_allowed {A} (test : A -> res bool) (allowed denied : option A) : res bool :=
  match allowed, denied with
  | Some a, None => negate (test a)
  | _, _ => Ok false
  end.

Definition only_denied {A} (test : A -> res bool) (allowed denied : option A) : res bool :=
  match allowed, denied with
  | None, Some d => test d
  | _, _ => Ok false
  end.

Definition both_given {A} (test : A -> res bool) (allowed denied : option A) : res bool :=
  match allowed, denied with
  | Some a, Some d => and_also (negate (test a)) (test d)
  | _, _ => Ok false
  end.

Definition check_allowed_translation (t : URLTranslation) (smsc sender receiver account : option Octstr) : res Z :=
  let has p := prefix_has p sender in
  let matches re := regex_has re sender in
  let recv_has p := prefix_has p receiver in
  let recv_matches re := regex_has re receiver in
  refused ←
    or_else (not_listed smsc (accepted_smsc t))
    (or_else (not_matched smsc (accepted_smsc_regex t))
    (or_else (not_listed account (accepted_account t))
    (or_else (not_matched account (accepted_account_regex t))
    (or_else (only_allowed has (allowed_prefix t) (denied_prefix t))
    (or_else (only_allowed matches (allowed_prefix_regex t) (denied_prefix_regex t))
    (or_else (only_denied has (allowed_prefix t) (denied_prefix t))
    (or_else (only_denied matches (allowed_prefix_regex t) (denied_prefix_regex t))
    (or_else (only_allowed recv_has (allowed_recv_prefix t) (denied_recv_prefix t))
    (or_else (only_allowed recv_matches (allowed_receiver_prefix_regex t) (denied_receiver_prefix_regex t))
    (or_else (only_denied recv_has (allowed_recv_prefix t) (denied_recv_prefix t))
    (or_else (only_denied (fun re => negate (recv_matches re)) (allowed_receiver_prefix_regex t) (denied_receiver_prefix_regex t))
    (or_else (on_list (white_list t) sender true)
    (or_else (on_regex (white_list_regex t) sender true)
    (or_else (on_list (black_list t) sender false)
    (or_else (on_regex (black_list_regex t) sender false)
    (or_else (both_given has (allowed_prefix t) (denied_prefix t))
             (both_given matches (allowed_prefix_regex t) (denied_prefix_regex t))))))))))))))))));
  Ok (if refused : bool then -1 else 0).

(** ** The service for a message *)

(** [get_matching_translations]: from the index [i] on. *)
Fixpoint matching_loop (l : List URLTranslation) (msg : Octstr) (i : Z) (n : nat) : res (list URLTranslation) :=
  match n with
  | O => Ok []
  | S n =>
      t ← gwlist_get l i;
      found ← (match keyword_regex t with Some re => regex_has re (Some msg) | None => Ok false end);
      rest ← matching_loop l msg (i + 1) n;
      Ok (if found : bool then t :: rest else rest)
  end.

Definition get_matching_translations (trans : URLTranslationList) (msg : option Octstr) : res (list URLTranslation) :=
  match msg with
  | None => Panic
  | Some msg => matching_loop (tl_list trans) msg 0 (Z.to_nat (gwlist_len (Some (tl_list trans))))
  end.

(** NULs, but for one at the end, are taken out. *)
Fixpoint drop_nuls (data : Octstr) (i : Z) (fuel : nat) : res Octstr :=
  match fuel with
  | O => Undef
  | S fuel =>
      i ← octstr_search_char data 0 i;
      n ← octstr_len (Some data);
      if negb (i =? -1) && (i <? n - 1) then data ← octstr_delete data i 1; drop_nuls data i fuel
      else Ok data
  end.

Fixpoint first_allowed (l : list URLTranslation) (p : sms) (words : list Octstr) : res (option URLTranslation) :=
  match l with
  | [] => Ok None
  | t :: l =>
      a ← check_allowed_translation t (sms_smsc_id p) (sms_sender p) (sms_receiver p) (sms_account p);
      if (a =? 0) && (check_num_args t words =? 0) then Ok (Some t) else first_allowed l p words
  end.

Definition find_translation (trans : URLTranslationList) (p : sms) : res (option URLTranslation) :=
  data ← octstr_duplicate (sms_msgdata p);
  match data with
  | None => Panic
  | Some data =>
      n ← octstr_len (Some data);
      data ← drop_nuls data 0 (S (Z.to_nat n));
      l ← get_matching_translations trans (Some data);
      words ← octstr_split_words data;
      first_allowed l p words
  end.

Fixpoint default_loop (l : List URLTranslation) (smsc sender receiver account : option Octstr) (i : Z) (n : nat) : res (option URLTranslation) :=
  match n with
  | O => Ok None
  | S n =>
      t ← gwlist_get l i;
      a ← check_allowed_translation t smsc sender receiver account;
      if a =? 0 then Ok (Some t) else default_loop l smsc sender receiver account (i + 1) n
  end.

Definition find_default_translation (trans : URLTranslationList) (smsc sender receiver account : option Octstr) : res (option URLTranslation) :=
  default_loop (tl_defaults trans) smsc sender receiver account 0 (Z.to_nat (gwlist_len (Some (tl_defaults trans)))).

Definition urltrans_find (trans : URLTranslationList) (p : sms) : res (option URLTranslation) :=
  t ← find_translation trans p;
  match t with
  | Some t => Ok (Some t)
  | None => find_default_translation trans (sms_smsc_id p) (sms_sender p) (sms_receiver p) (sms_account p)
  end.

(** [dict_get] of NULL panics. *)
Definition urltrans_find_service (trans : URLTranslationList) (p : sms) : res (option URLTranslation) :=
  match sms_service p with
  | None => Panic
  | Some service =>
      l ← dict_get (tl_names trans) service;
      match l with
      | Some l => t ← gwlist_get l 0; Ok (Some t)
      | None => Ok None
      end
  end.

(** ** The user of a request *)

(** [octstr_compare] asserts that there are two strings. *)
Definition same_text (a : Octstr) (b : option Octstr) : res bool :=
  match b with
  | None => Panic
  | Some b => c ← octstr_compare a b; Ok (c =? 0)
  end.

Fixpoint user_loop (l : List URLTranslation) (test : URLTranslation -> res bool) (i : Z) (n : nat) : res (option URLTranslation) :=
  match n with
  | O => Ok None
  | S n =>
      t ← gwlist_get l i;
      found ← test t;
      if found : bool then Ok (Some t) else user_loop l test (i + 1) n
  end.

Definition urltrans_find_username (trans : URLTranslationList) (name : option Octstr) : res (option URLTranslation) :=
  match name with
  | None => Panic
  | Some name =>
      user_loop (tl_list trans) (fun t => if t_type t =? TRANSTYPE_SENDSMS then same_text name (t_username t) else Ok false)
        0 (Z.to_nat (gwlist_len (Some (tl_list trans))))
  end.

Definition urltrans_find_token (trans : URLTranslationList) (token : option Octstr) : res (option URLTranslation) :=
  match token with
  | None => Ok None
  | Some token =>
      user_loop (tl_list trans) (fun t => if t_type t =? TRANSTYPE_SENDSMS then
                                            match api_token t with Some k => same_text token (Some k) | None => Ok false end
                                          else Ok false)
        0 (Z.to_nat (gwlist_len (Some (tl_list trans))))
  end.

(** ** The pattern for a message *)

Context {PF : Printf}.

(** What is filled in for a delivery report: its own URL, else that of the service. *)
Definition choose_pattern (t : option URLTranslation) (p : sms) : res (option Octstr) :=
  if negb (sms_sms_type p =? report_mo) then
    match t with
    | Some t => Ok (t_pattern t)
    | None => Undef
    end
  else
    n ← octstr_len (sms_dlr_url p);
    if n =? 0 then
      match t with
      | Some t => m ← octstr_len (t_dlr_url t); Ok (if m =? 0 then None else t_dlr_url t)
      | None => Ok None
      end
    else Ok (sms_dlr_url p).

(** [urltrans_get_pattern]: the text, and the message, which may have lost its keyword.
    A report with no URL gives the empty text and nothing else happens; a message whose
    service has no pattern goes on, a pattern of NULL having no character to read. *)
Definition urltrans_get_pattern (t : option URLTranslation) (p : sms) (now : Z) : res (Octstr * sms) :=
  let mo := sms_sms_type p =? report_mo in
  let of_type ty := match t with Some t => t_type t =? ty | None => false end in
  skip ← (if negb mo then match t with Some t => Ok (t_type t =? TRANSTYPE_SENDSMS) | None => Undef end else Ok false);
  if skip : bool then o ← octstr_create []; Ok (o, p)
  else
    pattern ← choose_pattern t p;
    match pattern, mo with
    | None, true => o ← octstr_create []; Ok (o, p)
    | _, _ =>
        '(result, p) ← (match pattern with
                        | Some pattern =>
                            urltrans_fill_escape_codes_ex (if of_type TRANSTYPE_EXECUTE then URLTRANS_ESCAPE_SHELL else URLTRANS_ESCAPE_URL) pattern p now
                        | None => o ← octstr_create []; Ok (o, p)
                        end);
        p ← (if (of_type TRANSTYPE_POST_URL || of_type TRANSTYPE_POST_XML)
                && match t with Some t => strips_keyword t | None => false end
             then strip_keyword p else Ok p);
        Ok (result, p)
    end.
End services.
