(* ===== verification/UrlTransProofs.v ===== *)
(** * Which service answers a message

    The verdict of [check_allowed_translation] is that of a policy on texts;
    [urltrans_find] chooses the first service that the message asks for and that may
    answer it (UrlTrans.v). *)

From stdpp Require Import list sets.
From S2P Require Import Prelude Octstr OctstrSearch OctstrCode OctstrFormat OctstrParts Prefix PrefixProofs Numhash GwList PrioQueue Dict Uuid Msg MetaData MetaDataOps Charset Sms Dlr Route RouteProofs UrlEscape UrlEscapeProofs UrlFill UrlTrans.
#[local] Open Scope Z_scope.
#[local] Open Scope kannel_scope.

Section permission.
Context {RX : Regex}.

(** ** The terms of a service *)

Record terms := mkTerms {
  tm_smscs : option (list (list Z));
  tm_accounts : option (list (list Z));
  tm_allowed : option (list Z);
  tm_denied : option (list Z);
  tm_recv_allowed : option (list Z);
  tm_recv_denied : option (list Z);
  tm_white : option (list Z);
  tm_black : option (list Z)
}.

Record has_terms (t : URLTranslation) (s : terms) : Prop := {
  ht_smscs : texts_are (accepted_smsc t) (tm_smscs s);
  ht_accounts : texts_are (accepted_account t) (tm_accounts s);
  ht_allowed : option_Forall2 repr (allowed_prefix t) (tm_allowed s);
  ht_denied : option_Forall2 repr (denied_prefix t) (tm_denied s);
  ht_recv_allowed : option_Forall2 repr (allowed_recv_prefix t) (tm_recv_allowed s);
  ht_recv_denied : option_Forall2 repr (denied_recv_prefix t) (tm_recv_denied s);
  ht_white : option_Forall2 nh_ok (white_list t) (tm_white s);
  ht_black : option_Forall2 nh_ok (black_list t) (tm_black s)
}.

(** What is asked of an id is asked only of a message that has one. *)
Definition asked {A} (id : option (list Z)) (what : option A) (test : list Z -> A -> bool) : bool :=
  match id, what with
  | Some id, Some a => test id a
  | _, _ => true
  end.

(** The tests of the receiver: there is none where both are given. *)
Definition only_one {A} (allowed denied : option A) (may may_not : A -> bool) : bool :=
  match allowed, denied with
  | Some a, None => may a
  | None, Some d => may_not d
  | _, _ => true
  end.

(** A regular expression that denies receivers lets those pass that it matches. *)
Definition permits (t : URLTranslation) (s : terms) (id account : option (list Z)) (from to : list Z) : bool :=
  asked id (tm_smscs s) has_id && asked id (accepted_smsc_regex t) has_match &&
  asked account (tm_accounts s) has_id && asked account (accepted_account_regex t) has_match &&
  passes (tm_allowed s) (tm_denied s) (has_prefix from) &&
  passes (allowed_prefix_regex t) (denied_prefix_regex t) (has_match from) &&
  only_one (tm_recv_allowed s) (tm_recv_denied s) (has_prefix to) (fun d => negb (has_prefix to d)) &&
  only_one (allowed_receiver_prefix_regex t) (denied_receiver_prefix_regex t) (has_match to) (has_match to) &&
  from_option (fun l => bool_decide (key_of from ∈ l)) true (tm_white s) && from_option (has_match from) true (white_list_regex t) &&
  from_option (fun l => negb (bool_decide (key_of from ∈ l))) true (tm_black s) &&
  negb (from_option (has_match from) false (black_list_regex t)).

(** ** Each test *)

Lemma not_listed_ok o id l ts : option_Forall2 repr o id -> texts_are l ts -> not_listed o l = Ok (negb (asked id ts has_id)).
Proof.
  intros Ho Hl. unfold not_listed, asked, negate. destruct Ho as [o i Ho|], Hl as [l ts (os & Hl & Hos)|]; try done.
  by rewrite (list_has_ok l os ts o i Hl Hos Ho).
Qed.

Lemma not_matched_ok o id re : option_Forall2 repr o id -> not_matched o re = Ok (negb (asked id re has_match)).
Proof. intros Ho. unfold not_matched, asked, negate. destruct Ho as [o i Ho|], re; try done. by rewrite (regex_has_ok _ o i Ho). Qed.

Section tests.
Context {A B : Type} (R : A -> B -> Prop) (test : A -> res bool) (spec : B -> bool) (Htest : forall a b, R a b -> test a = Ok (spec b)).

Lemma only_allowed_ok a d b c : option_Forall2 R a b -> option_Forall2 R d c ->
  only_allowed test a d = Ok (negb (only_one b c spec (fun _ => true))).
Proof. intros Ha Hd. unfold only_allowed, only_one, negate. destruct Ha as [x y Hx|], Hd as [x' y' Hx'|]; try done. by rewrite (Htest x y Hx). Qed.

Lemma only_denied_ok a d b c : option_Forall2 R a b -> option_Forall2 R d c ->
  only_denied test a d = Ok (negb (only_one b c (fun _ => true) (fun x => negb (spec x)))).
Proof. intros Ha Hd. unfold only_denied, only_one. destruct Ha as [x' y' Hx'|], Hd as [x y Hx|]; try done. by rewrite (Htest x y Hx), negb_involutive. Qed.

Lemma both_given_ok a d b c : option_Forall2 R a b -> option_Forall2 R d c ->
  both_given test a d = Ok (negb match b, c with Some a, Some d => spec a || negb (spec d) | _, _ => true end).
Proof.
  intros Ha Hd. unfold both_given, and_also, negate. destruct Ha as [x y Hx|], Hd as [x' y' Hx'|]; try done.
  rewrite (Htest x y Hx), (Htest x' y' Hx'). bind_red. by destruct (spec y), (spec y').
Qed.
End tests.

Lemma same_refl {A} (x : option A) : option_Forall2 eq x x.
Proof. destruct x; constructor; done. Qed.

Lemma passes_split {A} (a d : option A) f : passes a d f =
  only_one a d f (fun _ => true) && only_one a d (fun _ => true) (fun x => negb (f x)) && match a, d with Some a, Some d => f a || negb (f d) | _, _ => true end.
Proof. destruct a, d; cbn; by rewrite ?andb_true_r. Qed.

Lemma only_one_split {A} (a d : option A) f g : only_one a d f g = only_one a d f (fun _ => true) && only_one a d (fun _ => true) g.
Proof. destruct a, d; cbn; by rewrite ?andb_true_r. Qed.

Lemma only_one_double {A} (a d : option A) f : only_one a d (fun _ => true) (fun x => negb (negb (f x))) = only_one a d (fun _ => true) f.
Proof. destruct a, d; cbn; by rewrite ?negb_involutive. Qed.

Lemma split_nul (s : list Z) : ~ Forall (fun c => c <> 0) s -> exists a b, s = a ++ 0 :: b /\ Forall (fun c => c <> 0) a.
Proof.
  induction s as [|c s IH]; intros H; [by destruct H|]. destruct (decide (c = 0)) as [->|Hc]; [by exists [], s|].
  destruct IH as (a & b & -> & Ha); [intros Hs; apply H; by apply Forall_cons_2|]. exists (c :: a), b. split; [done|]. by apply Forall_cons_2.
Qed.

Lemma check_allowed_ok t s id i from f to r account a : has_terms t s ->
  option_Forall2 repr id i -> option_Forall2 repr account a -> repr from f -> repr to r -> 0 <= key_of f ->
  check_allowed_translation t id (Some from) (Some to) account = Ok (if permits t s i a f r then 0 else -1).
Proof.
  intros [H1 H2 H3 H4 H5 H6 H7 H8] Hid Ha Hf Hr Hk. unfold check_allowed_translation.
  pose proof (fun p x (Hp : repr p x) => prefix_has_ok p x from f Hp Hf) as P1. pose proof (fun p x (Hp : repr p x) => prefix_has_ok p x to r Hp Hr) as P2.
  assert (forall x y : regex_t, x = y -> regex_has x (Some from) = Ok (has_match f y)) as M1 by (intros x y ->; by apply regex_has_ok).
  assert (forall x y : regex_t, x = y -> regex_has x (Some to) = Ok (has_match r y)) as M2 by (intros x y ->; by apply regex_has_ok).
  assert (forall x y : regex_t, x = y -> negate (regex_has x (Some to)) = Ok (negb (has_match r y))) as M3 by (intros x y ->; unfold negate; by rewrite (regex_has_ok y to r Hr)).
  rewrite (not_listed_ok _ _ _ _ Hid H1), (not_listed_ok _ _ _ _ Ha H2), (not_matched_ok _ _ _ Hid), (not_matched_ok _ _ _ Ha).
  rewrite (only_allowed_ok _ _ _ P1 _ _ _ _ H3 H4), (only_denied_ok _ _ _ P1 _ _ _ _ H3 H4), (both_given_ok _ _ _ P1 _ _ _ _ H3 H4).
  rewrite (only_allowed_ok _ _ _ P2 _ _ _ _ H5 H6), (only_denied_ok _ _ _ P2 _ _ _ _ H5 H6).
  rewrite (only_allowed_ok _ _ _ M1 _ _ _ _ (same_refl _) (same_refl _)), (only_denied_ok _ _ _ M1 _ _ _ _ (same_refl _) (same_refl _)),
    (both_given_ok _ _ _ M1 _ _ _ _ (same_refl _) (same_refl _)).
  rewrite (only_allowed_ok _ _ _ M2 _ _ _ _ (same_refl _) (same_refl _)), (only_denied_ok _ _ _ M3 _ _ _ _ (same_refl _) (same_refl _)).
  rewrite !(on_list_ok _ _ from f _ H7 Hf Hk), !(on_list_ok _ _ from f _ H8 Hf Hk), !(on_regex_ok _ from f _ Hf).
  rewrite !or_else_pass. bind_red. f_equal.
  match goal with |- context [negb ?x] => replace x with (permits t s i a f r) end; [by destruct (permits t s i a f r)|].
  unfold permits. rewrite !passes_split, (only_one_split (tm_recv_allowed s)), (only_one_split (allowed_receiver_prefix_regex t)).
  rewrite (only_one_double _ _ (has_match r)). apply eq_true_iff_eq. rewrite !andb_true_iff. tauto.
Qed.

(** ** The service for a message *)

(** NULs do not count, but for one at the end. *)
Fixpoint sans_nuls (s : list Z) : list Z :=
  match s with
  | [] => []
  | [c] => [c]
  | c :: s => if c =? 0 then sans_nuls s else c :: sans_nuls s
  end.

Lemma sans_nuls_plain pre s : Forall (fun c => c <> 0) pre -> sans_nuls (pre ++ s) = pre ++ sans_nuls s.
Proof.
  induction 1 as [|c pre Hc Hp IH]; [done|]. rewrite <- app_comm_cons. cbn [sans_nuls]. rewrite IH. destruct (Z.eqb_spec c 0); [done|].
  destruct (pre ++ s) as [|d l] eqn:E; [|done]. apply app_eq_nil in E as [-> ->]. done.
Qed.

Lemma drop_nuls_ok (fuel : nat) : forall data pre s, reprm data (pre ++ s) -> Forall (fun c => c <> 0) pre -> (length s < fuel)%nat ->
  returns (drop_nuls data (zlen pre) fuel) (fun o => reprm o (pre ++ sans_nuls s)).
Proof.
  induction fuel as [|fuel IH]; intros data pre s Hd Hpre Hf; [lia|]. cbn [drop_nuls].
  rewrite (octstr_search_char_ok data _ 0 _ (proj1 Hd)) by (unfold octet; list_lia). bind_red. rewrite (octstr_len_ok data _ (proj1 Hd)). bind_red.
  destruct (decide (Forall (fun c => c <> 0) s)) as [Hn|Hn].
  - rewrite search_char_none by done. cbn [Z.eqb negb andb]. change (reprm data (pre ++ sans_nuls s)). pose proof (sans_nuls_plain s [] Hn) as E. rewrite app_nil_r in E. cbn [sans_nuls] in E. by rewrite E, app_nil_r.
  - destruct (split_nul s Hn) as (a & b & -> & Ha). rewrite search_char_at by done. rewrite (sans_nuls_plain a (0 :: b) Ha).
    destruct (Z.eqb_spec (zlen pre + zlen a) (-1)); [list_lia|]. cbn [negb andb].
    destruct b as [|c b]; [destruct (Z.ltb_spec (zlen pre + zlen a) (zlen (pre ++ a ++ [0]) - 1)); [list_lia|done]|].
    destruct (Z.ltb_spec (zlen pre + zlen a) (zlen (pre ++ a ++ 0 :: c :: b) - 1)); [|list_lia]. apply returns_bind.
    rewrite app_assoc in Hd. replace (zlen pre + zlen a) with (zlen (pre ++ a)) by list_lia.
    apply (returns_mono _ _ _ (octstr_delete_ok data ((pre ++ a) ++ 0 :: c :: b) (zlen (pre ++ a)) 1 Hd (zlen_nonneg _) ltac:(lia) ltac:(long_lia))). intros d1 Hd1. rewrite cut_mid in Hd1.
    apply (returns_mono _ _ _ (IH d1 (pre ++ a) (c :: b) Hd1 ltac:(by apply Forall_app) ltac:(rewrite length_app in Hf; cbn in *; lia))).
    intros o Ho. rewrite <- app_assoc in Ho. exact Ho.
Qed.

(** The keyword of a service is in the text; its number of words is one that the
    service takes. *)
Definition answers (text : list Z) (t : URLTranslation) : bool :=
  from_option (has_match text) false (keyword_regex t).

Definition takes_words (n : Z) (t : URLTranslation) : bool :=
  catch_all t || (n =? t_args t + 1) || (has_catchall_arg t && (t_args t + 1 <=? n)).

Lemma check_num_args_ok t (words : list Octstr) : (check_num_args t words =? 0) = takes_words (zlen words) t.
Proof.
  unfold check_num_args, takes_words. destruct (catch_all t); [done|]. cbn [orb].
  replace (zlen words =? t_args t + 1) with (zlen words - 1 =? t_args t) by (apply eq_true_iff_eq; rewrite !Z.eqb_eq; lia).
  replace (t_args t + 1 <=? zlen words) with (t_args t <=? zlen words - 1) by (apply eq_true_iff_eq; rewrite !Z.leb_le; lia).
  destruct (zlen words - 1 =? t_args t); [done|]. by destruct (has_catchall_arg t && _).
Qed.

Lemma matching_loop_ok l ts msg text (n : nat) : forall (i : nat), lrepr l ts -> repr msg text -> (i + n = length ts)%nat ->
  matching_loop l msg (Z.of_nat i) n = Ok (List.filter (answers text) (drop i ts)).
Proof.
  induction n as [|n IH]; intros i Hl Hm Hi; cbn [matching_loop]; [by rewrite drop_ge by lia|].
  destruct (lookup_lt_is_Some_2 ts i) as [t Ht]; [lia|]. rewrite (gwlist_get_item l ts _ t Hl) by (lia || by rewrite Nat2Z.id). bind_red.
  rewrite (drop_S _ t i Ht). cbn [List.filter]. replace (Z.of_nat i + 1) with (Z.of_nat (S i)) by lia. rewrite (IH (S i) Hl Hm ltac:(lia)).
  unfold answers at 2. destruct (keyword_regex t) as [re|]; [rewrite (regex_has_ok re msg text Hm)|]; bind_red; cbn [from_option]; [by destruct (has_match text re)|done].
Qed.

(** ** The choice *)

Record asks (p : sms) (id account : option (list Z)) (from to text : list Z) : Prop := {
  ask_id : option_Forall2 repr (sms_smsc_id p) id;
  ask_account : option_Forall2 repr (sms_account p) account;
  ask_sender : option_Forall2 repr (sms_sender p) (Some from);
  ask_receiver : option_Forall2 repr (sms_receiver p) (Some to);
  ask_text : option_Forall2 reprm (sms_msgdata p) (Some text);
  ask_key : 0 <= key_of from
}.

Section choice.
Context (p : sms) (id account : option (list Z)) (from to text : list Z) (Hp : asks p id account from to text).
Context (tm : URLTranslation -> terms).

Definition may (t : URLTranslation) : bool := permits t (tm t) id account from to.

Definition serves (t : URLTranslation) : bool :=
  answers (sans_nuls text) t && may t && takes_words (zlen (words_of (sans_nuls text))) t.

Lemma check_may t : has_terms t (tm t) ->
  check_allowed_translation t (sms_smsc_id p) (sms_sender p) (sms_receiver p) (sms_account p) = Ok (if may t then 0 else -1).
Proof.
  intros Ht. destruct Hp as [H1 H2 H3 H4 _ H6]. inversion H3 as [f ? Hf E1 E2|]. inversion H4 as [r ? Hr E3 E4|]. by apply check_allowed_ok.
Qed.

Lemma first_allowed_ok ts words : Forall (fun t => has_terms t (tm t)) ts ->
  first_allowed ts p words = Ok (List.find (fun t => may t && takes_words (zlen words) t) ts).
Proof.
  induction 1 as [|t ts Ht _ IH]; [done|]. cbn [first_allowed List.find]. rewrite (check_may t Ht). bind_red. rewrite check_num_args_ok.
  destruct (may t); cbn [Z.eqb andb]; [|done]. by destruct (takes_words _ t).
Qed.

Lemma find_filter {A} (f g : A -> bool) l : List.find g (List.filter f l) = List.find (fun x => f x && g x) l.
Proof. induction l as [|x l IH]; [done|]. cbn. destruct (f x); cbn; [by destruct (g x)|done]. Qed.

Lemma find_translation_ok trans ts : lrepr (tl_list trans) ts -> Forall (fun t => has_terms t (tm t)) ts ->
  find_translation trans p = Ok (List.find serves ts).
Proof.
  intros Hl Ht. unfold find_translation. destruct Hp as [_ _ _ _ H5 _]. inversion H5 as [d ? Hd E1 E2|]. subst.
  destruct (proj1 (returns_iff _ _) (octstr_duplicate_ok d text (proj1 Hd))) as (x & -> & (o & -> & Ho)). bind_red. rewrite (octstr_len_ok o text (proj1 Ho)). bind_red.
  destruct (proj1 (returns_iff _ _) (drop_nuls_ok (S (Z.to_nat (zlen text))) o [] text Ho (Forall_nil_2 _) ltac:(list_lia))) as (o1 & E & Ho1).
  change (zlen []) with 0 in E. rewrite E. bind_red. cbn [app] in Ho1. unfold get_matching_translations, gwlist_len. rewrite (lr_len _ _ Hl).
  change 0 with (Z.of_nat 0). rewrite (matching_loop_ok _ ts o1 _ (Z.to_nat (zlen ts)) 0 Hl (proj1 Ho1) ltac:(list_lia)). bind_red. rewrite drop_0.
  destruct (proj1 (returns_iff _ _) (octstr_split_words_ok o1 _ (proj1 Ho1))) as (words & -> & Hw). bind_red.
  rewrite first_allowed_ok by (apply list.Forall_forall; intros t Hin; apply list_elem_of_In, filter_In in Hin as [Hin _];
    rewrite list.Forall_forall in Ht; apply Ht; by apply list_elem_of_In).
  rewrite find_filter. f_equal. unfold serves. unfold zlen. rewrite (Forall2_length Hw).
  induction ts as [|t ts' IH] in |- *; [done|]. cbn. by rewrite andb_assoc, IH.
Qed.

Lemma default_loop_ok l ts (n : nat) : forall (i : nat), lrepr l ts -> Forall (fun t => has_terms t (tm t)) ts -> (i + n = length ts)%nat ->
  default_loop l (sms_smsc_id p) (sms_sender p) (sms_receiver p) (sms_account p) (Z.of_nat i) n = Ok (List.find may (drop i ts)).
Proof.
  induction n as [|n IH]; intros i Hl Ht Hi; cbn [default_loop]; [by rewrite drop_ge by lia|].
  destruct (lookup_lt_is_Some_2 ts i) as [t Hi']; [lia|]. rewrite (gwlist_get_item l ts _ t Hl) by (lia || by rewrite Nat2Z.id). bind_red.
  rewrite (drop_S _ t i Hi'). cbn [List.find]. rewrite check_may by (rewrite Forall_lookup in Ht; by apply (Ht i)). bind_red.
  destruct (may t); [done|]. cbn [Z.eqb]. replace (Z.of_nat i + 1) with (Z.of_nat (S i)) by lia. by apply IH; [..|lia].
Qed.

Lemma urltrans_find_ok trans ts ds : lrepr (tl_list trans) ts -> lrepr (tl_defaults trans) ds ->
  Forall (fun t => has_terms t (tm t)) ts -> Forall (fun t => has_terms t (tm t)) ds ->
  urltrans_find trans p = Ok (match List.find serves ts with Some t => Some t | None => List.find may ds end).
Proof.
  intros Hl Hd Ht Hdt. unfold urltrans_find. rewrite (find_translation_ok trans ts Hl Ht). bind_red. destruct (List.find serves ts); [done|].
  unfold find_default_translation, gwlist_len. rewrite (lr_len _ _ Hd). apply (default_loop_ok _ ds _ 0 Hd Hdt). list_lia.
Qed.
End choice.


(** ** Users *)

Definition user_named (name : list Z) (t : URLTranslation) : bool :=
  (t_type t =? TRANSTYPE_SENDSMS) && from_option (fun u => bool_decide (bytes u = name)) false (t_username t).

Definition user_holding (token : list Z) (t : URLTranslation) : bool :=
  (t_type t =? TRANSTYPE_SENDSMS) && from_option (fun k => bool_decide (bytes k = token)) false (api_token t).

Definition text_ok (o : Octstr) : Prop := repr o (bytes o).

Lemma same_text_ok a s b : repr a s -> text_ok b -> same_text a (Some b) = Ok (bool_decide (bytes b = s)).
Proof.
  intros Ha Hb. unfold same_text. rewrite (octstr_compare_ok _ _ _ _ Ha Hb). bind_red. f_equal. apply eq_true_iff_eq.
  rewrite Z.eqb_eq, bool_decide_eq_true, strcmp_eq_0. done.
Qed.

Lemma user_loop_ok l ts test spec (n : nat) : Forall (fun t => test t = Ok (spec t : bool)) ts -> forall (i : nat), lrepr l ts ->
  (i + n = length ts)%nat -> user_loop l test (Z.of_nat i) n = Ok (List.find spec (drop i ts)).
Proof.
  intros Ht. induction n as [|n IH]; intros i Hl Hi; cbn [user_loop]; [by rewrite drop_ge by lia|].
  destruct (lookup_lt_is_Some_2 ts i) as [t Hi']; [lia|]. rewrite (gwlist_get_item l ts _ t Hl) by (lia || by rewrite Nat2Z.id). bind_red.
  rewrite (drop_S _ t i Hi'). cbn [List.find]. rewrite Forall_lookup in Ht. rewrite (Ht i t Hi'). bind_red.
  destruct (spec t); [done|]. replace (Z.of_nat i + 1) with (Z.of_nat (S i)) by lia. apply IH; [done|lia].
Qed.

(** A request finds its user by the token: the first user with that token, and never a
    user that has none. *)
Theorem urltrans_find_token_first trans ts token s : lrepr (tl_list trans) ts -> repr token s ->
  Forall (fun t => from_option text_ok True (api_token t)) ts ->
  urltrans_find_token trans (Some token) = Ok (List.find (user_holding s) ts).
Proof.
  intros Hl Hs Ht. unfold urltrans_find_token, gwlist_len. rewrite (lr_len _ _ Hl).
  rewrite <- (drop_0 ts) at 2. change 0 with (Z.of_nat 0). apply (user_loop_ok _ ts); [|done|list_lia].
  revert Ht. apply Forall_impl. intros t Ht. unfold user_holding. destruct (t_type t =? TRANSTYPE_SENDSMS); [|done].
  destruct (api_token t) as [k|]; [|done]. by apply same_text_ok.
Qed.

(** The same by a user's name, which every user has to have. *)
Theorem urltrans_find_username_first trans ts name s : lrepr (tl_list trans) ts -> repr name s ->
  Forall (fun t => t_type t = TRANSTYPE_SENDSMS -> exists u, t_username t = Some u /\ text_ok u) ts ->
  urltrans_find_username trans (Some name) = Ok (List.find (user_named s) ts).
Proof.
  intros Hl Hs Ht. unfold urltrans_find_username, gwlist_len. rewrite (lr_len _ _ Hl).
  rewrite <- (drop_0 ts) at 2. change 0 with (Z.of_nat 0). apply (user_loop_ok _ ts); [|done|list_lia].
  revert Ht. apply Forall_impl. intros t Ht. unfold user_named. destruct (Z.eqb_spec (t_type t) TRANSTYPE_SENDSMS) as [E|E]; [|done].
  destruct (Ht E) as (u & -> & Hu). by apply same_text_ok.
Qed.

(** ** The text of a service *)

(** A text without its first word and the blanks after it. *)
Definition sans_keyword (s : list Z) : list Z := drop_while isspace (drop_while (fun c => negb (isspace c)) s).

Lemma skip_chars_ok f d s (fuel : nat) : repr d s -> forall suf pre, s = pre ++ suf -> (length suf < fuel)%nat ->
  skip_chars f d (zlen pre) fuel = Ok (zlen pre + zlen (take_while f suf)).
Proof.
  intros Hd. induction fuel as [|fuel IH]; intros suf pre E Hf; [lia|]. cbn [skip_chars]. rewrite (octstr_get_char_ok d s _ Hd). bind_red.
  destruct suf as [|c suf].
  - rewrite char_at_end by (subst s; list_lia). cbn. f_equal. list_lia.
  - pose proof (repr_octets _ _ Hd) as Hs. subst s. rewrite char_at_mid. apply Forall_app in Hs as [_ Hs]. apply Forall_cons_iff in Hs as [Hc _]. unfold octet in Hc.
    destruct (Z.leb_spec 0 c); [|lia]. cbn [andb take_while]. destruct (f c); [|f_equal; cbn; list_lia].
    replace (zlen pre + 1) with (zlen (pre ++ [c])) by list_lia. rewrite (IH suf (pre ++ [c])) by ((by rewrite <- app_assoc) || (cbn in Hf; lia)).
    f_equal. list_lia.
Qed.

Lemma strip_keyword_ok p d s : sms_msgdata p = Some d -> reprm d s ->
  returns (strip_keyword p) (fun q => exists d', q = set_msgdata p (Some d') /\ reprm d' (sans_keyword s)).
Proof.
  intros Ep Hd. unfold strip_keyword. rewrite Ep, (octstr_len_ok d s (proj1 Hd)). bind_red.
  set (f := fun c => negb (isspace c)).
  pose proof (skip_chars_ok f d s (S (Z.to_nat (zlen s))) (proj1 Hd) s [] eq_refl ltac:(list_lia)) as E1. change (zlen []) with 0 in E1. rewrite E1. bind_red.
  rewrite Z.add_0_l.
  rewrite (skip_chars_ok isspace d s (S (Z.to_nat (zlen s))) (proj1 Hd) (drop_while f s) (take_while f s) (eq_sym (take_drop_while f s))).
  2:{ pose proof (f_equal length (take_drop_while f s)) as El. rewrite length_app in El. list_lia. }
  bind_red. apply returns_bind. set (w := take_while f s). set (b := take_while isspace (drop_while f s)).
  assert (s = (w ++ b) ++ sans_keyword s) as Es by (unfold w, b, sans_keyword; by rewrite <- app_assoc, !take_drop_while).
  assert (zlen w + zlen b <= zlen s) by (rewrite Es; list_lia).
  apply (returns_mono _ _ _ (octstr_delete_ok d s 0 (zlen w + zlen b) Hd ltac:(lia) ltac:(list_lia) ltac:(long_lia))). intros d' Hd'.
  exists d'. split; [done|]. replace (sans_keyword s) with (cut s 0 (zlen w + zlen b)); [done|].
  rewrite Es at 1. unfold cut. cbn [Z.to_nat take app Nat.add]. replace (Z.to_nat (zlen w + zlen b)) with (length (w ++ b)) by list_lia. apply drop_app_length.
Qed.

Lemma dcs_of_msgdata p : escapable p -> sms_msgdata (dcs_of p).2 = sms_msgdata p.
Proof.
  intros Hp. unfold dcs_of, fields_to_dcs. pose proof (es_fields _ Hp) as Hf. unfold text_fields in Hf. repeat (apply Forall_cons_iff in Hf as [? Hf]).
  rewrite !field_len by done. bind_red. destruct (sms_coding p =? UNDEF); bind_red.
  all: match goal with |- context [octstr_len (sms_msgdata ?q)] => change (sms_msgdata q) with (sms_msgdata p); rewrite field_len by done end.
  all: match goal with |- context [?X ≫= (fun dcs => Ok (int32 dcs, ?q))] => by destruct X end.
Qed.

Lemma expand_msgdata et ws now gs ps : forall nextarg p, escapable p -> sms_msgdata (expand et ws now gs nextarg p ps).2 = sms_msgdata p.
Proof.
  induction ps as [|x ps IH]; intros nextarg p Hp; [done|]. rewrite expand_cons. pose proof (piece_text_msg et ws now gs nextarg p x Hp) as [Hq _].
  assert (sms_msgdata (piece_text et ws now gs nextarg p x).2 = sms_msgdata p) as E.
  { destruct x as [c|c|g k]; cbn; [done| |done]. destruct (c =? 79); [cbn; by apply dcs_of_msgdata|]. by destruct (c =? 115), (c =? 83), (ws !! nextarg). }
  destruct (piece_text et ws now gs nextarg p x) as [[t n] q]. cbn [snd] in *. by rewrite IH.
Qed.

Definition of_kind (t : option URLTranslation) (ty : Z) : bool := from_option (fun t => t_type t =? ty) false t.

Definition quoting (t : option URLTranslation) : Z := if of_kind t TRANSTYPE_EXECUTE then URLTRANS_ESCAPE_SHELL else URLTRANS_ESCAPE_URL.

Definition strips (t : option URLTranslation) : bool :=
  (of_kind t TRANSTYPE_POST_URL || of_kind t TRANSTYPE_POST_XML) && from_option strips_keyword false t.

(** The text for a service is its pattern (or the URL of a report), filled and quoted
    for a shell where the service is a command; where the message is then posted it
    loses its keyword, after the pattern has been filled. *)
Theorem urltrans_get_pattern_text {PF : Printf} (t : option URLTranslation) pattern pat ps p now gs text :
  sms_sms_type p = report_mo \/ (exists t0, t = Some t0 /\ t_type t0 <> TRANSTYPE_SENDSMS) ->
  choose_pattern t p = Ok (Some pattern) -> repr pattern pat -> pieces pat ps -> escapable p -> meta_groups (sms_meta_data p) gs ->
  option_Forall2 reprm (sms_msgdata p) (Some text) ->
  returns (urltrans_get_pattern t p now) (fun '(o, q) =>
    reprm o (concat (expand (quoting t) (words_in p) now gs 1 p ps).1) /\
    fld (sms_msgdata q) = Some (if strips t then sans_keyword text else text)).
Proof.
  intros Ht Hc Hpat Hps Hp Hm Htext. unfold urltrans_get_pattern.
  assert ((if negb (sms_sms_type p =? report_mo) then match t with Some t => Ok (t_type t =? TRANSTYPE_SENDSMS) | None => Undef end else Ok false) = Ok false) as ->.
  { destruct (Z.eqb_spec (sms_sms_type p) report_mo) as [E|E]; [done|]. destruct Ht as [Ht|(t0 & -> & Hne)]; [done|]. cbn [negb]. f_equal. by apply Z.eqb_neq. }
  bind_red. rewrite Hc. bind_red. apply returns_bind.
  change (if match t with Some t => t_type t =? TRANSTYPE_EXECUTE | None => false end then _ else _) with (quoting t).
  apply (returns_mono _ _ _ (fill_pattern_ok (quoting t) pattern pat ps p now gs Hpat Hps Hp Hm)). intros [o q] [Ho Hq]. cbn [fst snd] in Ho, Hq.
  apply returns_bind. change (match t with Some t => t_type t =? TRANSTYPE_POST_URL | None => false end) with (of_kind t TRANSTYPE_POST_URL).
  change (match t with Some t => t_type t =? TRANSTYPE_POST_XML | None => false end) with (of_kind t TRANSTYPE_POST_XML).
  change (match t with Some t => strips_keyword t | None => false end) with (from_option strips_keyword false t). fold (strips t).
  pose proof (expand_msgdata (quoting t) (words_in p) now gs ps 1 p Hp) as Eq. rewrite <- Hq in Eq.
  inversion Htext as [d ? Hd E1 E2|]. subst. rewrite <- E1 in Eq. destruct (strips t).
  - apply (returns_mono _ _ _ (strip_keyword_ok _ d text Eq Hd)). intros q' (d' & -> & Hd'). split; [done|]. cbn. by rewrite (repr_bytes _ _ (proj1 Hd')).
  - split; [done|]. rewrite Eq. cbn. by rewrite (repr_bytes _ _ (proj1 Hd)).
Qed.
End permission.

(** Two services for the text of [sample_request]; the first refuses senders that begin
    with 00. *)
Definition sample_service (ty : Z) (denied : option Octstr) (denied_recv : option (list Z)) : @URLTranslation one_text :=
  @mkTrans one_text ty (Some (octstr_imm [37; 97])) None None None None None denied None None None None false 1 false false None
    (Some [107; 32; 96; 105; 100; 96]) None None None None None denied_recv None None.

Definition sample_terms (t : @URLTranslation one_text) : terms :=
  mkTerms None None None (if t_type t =? 0 then Some [48; 48] else None) None None None None.

Definition sample_services : @URLTranslationList one_text :=
  @mkTransList one_text (mkList [Some (sample_service 0 (Some (octstr_imm [48; 48])) None); Some (sample_service 1 None None)] 2 0 2 0 0) gwlist_create (dict_create 1 false).

Lemma sample_asks : asks sample_request None None [48; 48; 49; 50; 51] [52; 53; 54] [107; 32; 96; 105; 100; 96].
Proof. constructor; [constructor|constructor| | | |]; [constructor; apply mk_os_ok; octets_tac..|vm_compute; discriminate]. Qed.


(** A service that denies the receiver 456 by a regular expression answers a message to
    456, and refuses a message to another number. *)
Example denied_receiver_answers :
  check_allowed_translation (sample_service 1 None (Some [52; 53; 54])) None (sms_sender sample_request) (sms_receiver sample_request) None = Ok 0 /\
  check_allowed_translation (sample_service 1 None (Some [55])) None (sms_sender sample_request) (sms_receiver sample_request) None = Ok (-1).
Proof. split; reflexivity. Qed.
